(* ===== verification/_CoqProject ===== *)
-Q . S2P
Prelude.v
Decimal.v
Iso8601.v
Oid.v
Utf8.v
CryptoCrates.v
Weierstrass.v
Rsa.v
Str.v
Text.v
Atr.v
Country.v
StatusWord.v
Ber.v
Der.v
Ecdsa.v
Transport.v
Apdu.v
PcscT0.v
SecureMessaging.v
Pin.v
Auth.v
RetryFloor.v
Pkcs15.v
PinLengths.v
PinOps.v
SignCommands.v
SignOps.v
TokenInfo.v
Identity.v
KeyAlgorithm.v
X509.v
Cms.v
CardPin.v
PinCache.v
Rapp.v
Presence.v
PairingStore.v
Persistence.v
ProtectedStore.v
View.v
Curve.v
Pace.v
PacePeer.v
Display.v
Mrz.v
DataGroups.v
Emrtd.v
ChipAuth.v
EmrtdRead.v
Crl.v
Ocsp.v
Revocation.v
CertState.v
TrustRoots.v
Ldif.v
MasterList.v
CardAccess.v
Wire.v
Cryptoki.v
Pkcs11Sign.v
Pkcs11Token.v
CaCache.v
Pkcs11Card.v
Pkcs11Remote.v
Pkcs11State.v
Pkcs11Api.v
Pkcs11Safety.v
Pkcs11Threads.v
