(* ===== verification/Prelude.v ===== *)
(** * RefineID for Windows: a verification library (root file)

    RefineID serves a Finnish identity card (FINEID) to Windows: it talks to the
    card in ISO 7816-4 commands, over PC/SC or a paired telephone, in the clear or
    under PACE secure messaging, reads certificates and status, changes, verifies and
    resets PINs, and signs. A paired telephone's records are kept on disk. A PKCS#11 module
    offers the card to other programs; certificates and the security objects of travel
    documents are verified. This library models the part of the Rust sources that decides
    what is sent to the card and what its answers mean, from the byte level up, the pairing
    store, the PKCS#11 module and the verifiers.

    ** How the parts fit

    Everything that speaks to a card goes through the trait [CardTransport] of
    transport.rs. Below it are two implementations: the PC/SC card
    (crates/refineid-lib-pcsc) with its T=0 exchange, and [SmTransport]
    (secure_messaging.rs), which wraps another transport. Above it are the
    PKCS#15 file system (pkcs15.rs), the PIN operations (auth.rs) and the signing
    operations (sign.rs) and the key agreement PACE (pace.rs), written once for every
    transport; above those the PIN flows of the card manager
    (crates/refineid-card-manager-core). The model keeps that structure: [CardTransport]
    is a class, the lower layers are its instances and the upper ones are proved against
    any instance. All paths are under src/crates/refineid-lib-core/src/ unless said
    otherwise. The pairing records have a structure of their own: the trait
    [PairingStore] of crates/refineid-rapp-core is a class with laws; the clients are
    proved over any store with the laws, and the store in memory and the protected store
    on disk are its instances. The PKCS#11 module is a state behind one lock and a
    definition per C call; what other threads do while a call has released the lock is an
    argument of that call. For statements over several threads a call is cut into the parts
    it runs under a lock, which interleave with the parts of other calls. The verifiers of signatures rest on crypto-bigint, the hashes and the DER
    crates, which are classes with laws and have instances that compute.

    - Prelude.v (this file): results with panics, the state-and-error monad [act] of a
      [&mut self] method, loops with fuel, machine integers as [Z], list lemmas,
      automation.
    - Utf8.v, Decimal.v, Str.v: the decoding of text, the decimal digits and the string
      functions of the standard library.
    - CryptoCrates.v: the classes of the boxed Montgomery form of crypto-bigint and of
      SHA-1 and SHA-2, with instances; Weierstrass.v: chord and tangent over any odd
      modulus, which Curve.v and Ecdsa.v share.
    - Rsa.v, Ecdsa.v: crypto/rsa.rs and crypto/ecdsa.rs.
    - Der.v: the class of what the crates der, spki and x509_cert offer, with laws and an
      instance over Ber.v; KeyAlgorithm.v, X509.v, Cms.v: x509.rs and cms.rs.
    - Crl.v, Ocsp.v, Revocation.v: crl.rs, ocsp.rs and revocation.rs; the decoders of a list
      entry, of GeneralizedTime and of a Name are the classes [CrlCrate], [OcspCrate] and
      [NameCrate]. CertState.v: cert_state.rs, whose trait of purposes is a class with five
      instances. TrustRoots.v: trust_roots.rs, whose cell may be set by others between the
      reads. Ldif.v, MasterList.v: ldif.rs and icao_pkd.rs.
    - Text.v, Country.v, Identity.v, Atr.v: text.rs, country.rs, identity.rs, atr.rs with
      fineid_card.rs; the case mapping of characters is a class.
    - Iso8601.v, Oid.v: iso8601.rs and oid.rs; the encoder of const_oid is a class.
    - StatusWord.v: apdu/status_word.rs.
    - Ber.v: ber.rs, the BER-TLV encoder, parser and iterator.
    - Transport.v: transport.rs; also [Logged], a transport that records what it is
      given, and [sends_only], the judgement "every command this method sends
      satisfies P".
    - Apdu.v: apdu/iso7816.rs and apdu/primitives.rs, the typed commands.
    - PcscT0.v: the T=0 exchange of crates/refineid-lib-pcsc/src/lib.rs: case-4
      rewriting, wrong-Le repeat, GET RESPONSE chain.
    - SecureMessaging.v: secure_messaging.rs with the counter and session of pace.rs and
      the wrappers of crypto/symmetric.rs; AES, CBC and CMAC are a class with laws.
    - Curve.v: crypto/brainpool_p384.rs over the Montgomery form of crypto-bigint, which
      is a class with laws and has the residues as an instance.
    - Pace.v, PacePeer.v: pace.rs, pace/commands.rs and the key derivation of
      crypto/symmetric.rs; a specification card. SHA-256 and the random source of the
      operating system are classes.
    - CardAccess.v: card_access.rs.
    - Display.v: the texts of the errors that a reader of a travel document passes on; the
      text of an error of the transport is a class. Mrz.v, DataGroups.v, Emrtd.v,
      EmrtdRead.v: emrtd.rs, that is the machine-readable zone, the contents of the data
      groups, the reading of files and the reading of a whole document; ChipAuth.v: ca.rs
      and aa.rs, chip and active authentication.
    - Pin.v: pin.rs and can.rs, the credential value types.
    - Auth.v: the types, classifiers, commands and GET DATA parsers of auth.rs and
      auth/commands.rs.
    - RetryFloor.v: pin_retry_risk.rs and activation.rs.
    - Pkcs15.v: the selection and READ BINARY part of pkcs15.rs.
    - PinLengths.v: auth/pin_lengths.rs; [PasswordLengthRange] of refineid_pkcs15 is a
      class with laws.
    - PinOps.v: the trait PinOps of auth.rs.
    - SignCommands.v, SignOps.v: sign/commands.rs and the trait SignOps of sign.rs, with
      crypto/digest.rs and crypto/container.rs as far as they use them.
    - TokenInfo.v: TokenInfo and the FCI of pkcs15.rs, the token serial of identity.rs.
    - CardPin.v: changing, unblocking and activating in
      crates/refineid-card-manager-core/src/card_pin.rs.
    - PinCache.v: pin_cache.rs.
    - Rapp.v: the class of what the refineid_rapp crate offers, with its laws and an
      instance; OwnedCert of x509.rs.
    - Presence.v, PairingStore.v, Persistence.v, View.v: presence.rs, store.rs,
      persistence.rs and view.rs of crates/refineid-rapp-core/src.
    - ProtectedStore.v: crates/refineid-windows-credential-store/src/pairing.rs over the
      class [Windows], whose calls may fail, with an instance in memory.
    - Wire.v: crates/refineid-agent-pipe/src/wire.rs.
    - Cryptoki.v, Pkcs11Sign.v, Pkcs11Token.v, CaCache.v, Pkcs11Card.v, Pkcs11Remote.v,
      Pkcs11State.v, Pkcs11Api.v, Pkcs11Safety.v, Pkcs11Threads.v:
      crates/refineid-pkcs11/src. ck.rs and
      sign.rs; the objects of token.rs and the signature conversion; its cache of CA
      certificates over the class [CaFiles]; its card sessions over the classes
      [ReaderBackend] and [ReaderAttributes]; its remote card over [PhoneSession];
      state.rs; api.rs, one definition per C function; the invariant of the module and that
      every call keeps it; and the calls of several threads. There [api_step] is one call
      after another by a single thread, with changes at the readers in between, and
      [threads_reach] is any interleaving of the parts of calls under way: [api_call] gives
      a call its parts, [api_call_alone] says that run alone they are the call. CkUlong has
      32 bits.

    ** How state and operations correspond

    A method with a [&mut self] receiver is an [act T E A]: a function from the
    state to the new state and a [result], which is [Ok], [Err] or [Panic] (an
    [unreachable!], a failed bounds check). A Rust path [Type::method] is the
    definition [Type_method]; a variant [Enum::Variant] is a constructor with the
    enum's initials. Bytes are [Z] in 0..255, and conversions that wrap or fail are
    written out. Release builds are modelled: [debug_assert!] is not evaluated. They abort on
    a panic and check overflow, so a poisoned lock is not met.

    ** What the theorems show

    - Codings: status words and StatusWord are inverse; BER parsing is the grammar and
      inverts the encoder; typed commands have their wire form; READ BINARY addresses
      decode; padding of ISO 7816-4 round-trips. The date readers take exactly what the
      writers make of real dates; identifiers are shown as their arcs; the messages of
      the agent's pipe are exact; the DigestInfo reader and the conversion of DER
      signatures of the PKCS#11 module take exactly their grammar and never read outside
      the buffer.
    - Transport: the T=0 exchange ends for every reader and sends only the command, one
      corrected repeat and GET RESPONSEs; secure messaging is transparent to a peer with
      the same keys and counter, refuses every answer without a right MAC, and the
      commands it can carry are characterised.
    - Key agreement: the point operations stay on the curve and the point decoder admits
      nothing off it; PACE returns keys only after the card proved the same transcript;
      run against a card with the same CAN it ends with that card's keys, provided both
      ways round the exchange reach the same point (the group law of the curve is not
      proved); EF.CardAccess reads back.
    - Reading: certificate reads end, return whole DER objects only, and return exactly
      the object stored.
    - Credentials: value types admit exactly their digit strings; the retry floor;
      the length policy; status operations spend no try whatever the card answers; what
      verify, change and reset send and report, on every branch; the gates of the
      card manager's flows; a rejected code never leaves the cache again.
    - Signing: each of the ten signing methods is a fixed list of commands, a signature is returned only
      when each was accepted, and raw blocks and ciphertexts reach the card whole.
    - Verifiers: RSA and ECDSA signatures are accepted for exactly one block and exactly
      the points that satisfy the equation; certificates are read as they are laid out,
      and a verified one says only what was signed, but for the algorithm, which is the one
      outside the signed part; a parsed SignedData is related element by element to its
      octets and accepted exactly when its digest and signature are right, and its contents
      are bound only by the digest attribute.
    - Revocation and trust: lists and responses are read as they are laid out and believed
      only when signed; what either says of a certificate, entry by entry, and which entries
      do not count; the request and the entry that answers it; the cache is the map of the
      evidence inserted last; a certificate is bound to a purpose by its KeyUsage bits; the
      bundle of roots holds exactly them; LDIF files give back their records; a master list
      is all of its certificates or none.
    - PKCS#11: login and signing send at most one PIN, last and behind the gates; calls
      made one after another hold a PIN only while a session is open, and between threads
      which PINs are held beyond that; the module's state stays well-formed over all
      interleavings, up to the exhaustion of ids and handles; no call writes past a buffer; searches, events and the cache of certificates.
    - Travel documents: the zone of three lines is read exactly as it is laid out and its
      check digits are those of the standard; details are the objects of the tags the list
      names; a file arrives whole through an authentic channel; the two answers of chip
      authentication are exact, and one of them anybody can compute; active authentication
      is the signature of the challenge under the key of the document; the report of a
      reading is related, command by command, to what was read, and groups are asked for
      exactly when the security object lists them.
    - Text and names: character sets and URIs, country codes, answers to reset, the names
      of a holder with their transliteration.
    - Pairings: a record's life moves forward only; forgetting and sweeping over any
      lawful store; the blobs round-trip and their refusals; a change on disk is applied
      to what the disk holds and written before it is reported; loading; redialing lasts
      as long as its window over a clock of 64 bits and ends with it, and a withdrawn custodian is not dialled until it appears anew.

    ** Fuel and bounds

    Loops run on fuel and running out is [Panic] (or [None] in PcscT0.v and Crl.v); each has a
    theorem that it does not happen. [t0_fuel] is 65539: a chain round either ends the
    exchange or adds a byte to at most 65536. [read_fuel] is 16386: a READ BINARY round
    that continues adds at least one byte to at most 16384. The BER iterator has one
    round more than its buffer has bytes; the DER reader and the loop over the certificates
    of a SignedData have as many rounds as bytes, and each takes at least one. The search in a
    revocation list and the loop over a master list have one round more than octets. [Pkcs15.v]
    reads at most 16 KiB, in chunks of 128. A file of a travel document is read in
    [read_file_fuel] rounds, 65537, each of which adds an octet to at most 65536 or ends;
    the loops over a data group have one round more than it has octets. Only the drawing of
    a random scalar has no bound in the code; its fuel is an argument.

    ** What is not modelled

    Secret erasure, Display and Debug texts, logging. Code outside the repository is a
    parameter: the AES, CBC and CMAC crates, SHA-1 and SHA-2, HMAC-SHA256,
    crypto-bigint, the random source, the pcsc crate, refineid_pkcs15, const_oid,
    refineid_rapp, der with spki and x509_cert, the Win32 calls. Threads outside the
    PKCS#11 module: each operation is one step of the state behind its lock. Within the
    module a card is in a transaction of one session, so the conversation of a session with
    its card is not interleaved, only its locks are. Fetching
    lists, responses and issuers, document signing, the minidriver, the engine and Bluetooth,
    the command line, the user interface and the installer are outside the model; the
    manifest lists each part with the reason. *)

From stdpp Require Export prelude gmap strings list numbers.
From Stdlib Require Export ZArith Lia.

(** ** Results

    A Rust computation of type [Result<A, E>] either returns [Ok], returns
    [Err], or unwinds ([Panic]: [unreachable!], [panic!], an out-of-range
    slice index, a failed [assert!]). *)

Inductive result (E A : Type) : Type :=
| Ok (a : A)
| Err (e : E)
| Panic.
Arguments Ok {E A} _.
Arguments Err {E A} _.
Arguments Panic {E A}.

#[export] Instance result_eq_dec `{EqDecision E, EqDecision A} : EqDecision (result E A).
Proof. solve_decision. Defined.

Definition result_bind {E A B} (m : result E A) (k : A → result E B) : result E B :=
  match m with Ok a => k a | Err e => Err e | Panic => Panic end.

Definition result_map {E A B} (f : A → B) (m : result E A) : result E B :=
  match m with Ok a => Ok (f a) | Err e => Err e | Panic => Panic end.

(** [Result::map_err]. *)
Definition map_err {E F A} (f : E → F) (m : result E A) : result F A :=
  match m with Ok a => Ok a | Err e => Err (f e) | Panic => Panic end.

(** [Option::ok_or]. *)
Definition ok_or {E A} (o : option A) (e : E) : result E A :=
  match o with Some a => Ok a | None => Err e end.

(** [Result::ok]; a panic inside is not caught, so callers keep it apart. *)
Definition result_ok {E A} (m : result E A) : option A :=
  match m with Ok a => Some a | _ => None end.

(** ** Stateful fallible computations

    [act T E A] is a Rust method with a [&mut T] receiver that returns
    [Result<A, E>]: the new state is returned whatever the result is. *)

Definition act (T E A : Type) : Type := T → T * result E A.

Definition act_ret {T E A} (a : A) : act T E A := λ t, (t, Ok a).
Definition act_err {T E A} (e : E) : act T E A := λ t, (t, Err e).
Definition act_lift {T E A} (r : result E A) : act T E A := λ t, (t, r).

Definition act_bind {T E A B} (m : act T E A) (k : A → act T E B) : act T E B :=
  λ t, match m t with
       | (t', Ok a) => k a t'
       | (t', Err e) => (t', Err e)
       | (t', Panic) => (t', Panic)
       end.

Definition act_map_err {T E F A} (f : E → F) (m : act T E A) : act T F A :=
  λ t, let '(t', r) := m t in (t', map_err f r).

(** A call whose error the caller looks at; a panic is not caught. *)
Definition act_attempt {T E F A} (m : act T E A) : act T F (result E A) :=
  λ t, match m t with
       | (t', Panic) => (t', Panic)
       | (t', r) => (t', Ok r)
       end.

Declare Scope refineid_scope.
Delimit Scope refineid_scope with rid.
Notation "'let?' x ':=' m 'in' k" := (result_bind m (λ x, k))
  (at level 10, x pattern, m at level 100, k at level 200,
   format "'[v' 'let?'  x  ':='  m  'in' '/' k ']'") : refineid_scope.
Notation "'do!' x ':=' m 'in' k" := (act_bind m (λ x, k))
  (at level 10, x pattern, m at level 100, k at level 200,
   format "'[v' 'do!'  x  ':='  m  'in' '/' k ']'") : refineid_scope.
#[global] Open Scope refineid_scope.
#[global] Open Scope Z_scope.

Section act_lemmas.
Context {T E : Type}.

Lemma act_bind_ok {A B} (m : act T E A) (k : A → act T E B) t t' a :
  m t = (t', Ok a) → act_bind m k t = k a t'.
Proof. intros H. unfold act_bind. by rewrite H. Qed.

Lemma act_bind_err {A B} (m : act T E A) (k : A → act T E B) t t' e :
  m t = (t', Err e) → act_bind m k t = (t', Err e).
Proof. intros H. unfold act_bind. by rewrite H. Qed.

(** Inversion of a bind that returned [Ok]. *)
Lemma act_bind_inv_ok {A B} (m : act T E A) (k : A → act T E B) t t' b :
  act_bind m k t = (t', Ok b) →
  ∃ t1 a, m t = (t1, Ok a) ∧ k a t1 = (t', Ok b).
Proof. unfold act_bind. destruct (m t) as [t1 [a|e|]]; naive_solver. Qed.

(** A bind panics only where one of its halves does. *)
Lemma act_bind_no_panic {A B} (m : act T E A) (k : A → act T E B) t :
  (m t).2 ≠ Panic → (∀ a t', (k a t').2 ≠ Panic) → (act_bind m k t).2 ≠ Panic.
Proof. unfold act_bind. destruct (m t) as [t1 [a|e|]]; simpl; eauto. Qed.

Lemma act_map_err_no_panic {F A} (f : E → F) (m : act T E A) t :
  (m t).2 ≠ Panic → (act_map_err f m t).2 ≠ Panic.
Proof. unfold act_map_err. destruct (m t) as [t1 [a|e|]]; done. Qed.

(** The monad laws, at a state. *)
Lemma act_bind_assoc {A B C} (m : act T E A) (f : A → act T E B) (g : B → act T E C) t :
  act_bind (act_bind m f) g t = act_bind m (λ a, act_bind (f a) g) t.
Proof. unfold act_bind. by destruct (m t) as [t1 [a|e|]]. Qed.

Lemma act_bind_ext {A B} (m : act T E A) (f g : A → act T E B) t :
  (∀ a t, f a t = g a t) → act_bind m f t = act_bind m g t.
Proof. intros Hfg. unfold act_bind. destruct (m t) as [t1 [a|e|]]; [apply Hfg|done..]. Qed.

Lemma act_ret_bind {A B} (a : A) (k : A → act T E B) t : act_bind (act_ret a) k t = k a t.
Proof. done. Qed.

Lemma act_lift_ok {A B} (a : A) (k : A → act T E B) t : act_bind (act_lift (Ok a)) k t = k a t.
Proof. done. Qed.

Lemma act_lift_err {A B} (e : E) (k : A → act T E B) t : act_bind (act_lift (Err e)) k t = (t, Err e).
Proof. done. Qed.
End act_lemmas.

Lemma result_bind_inv_ok {E A B} (m : result E A) (k : A → result E B) b :
  result_bind m k = Ok b → ∃ a, m = Ok a ∧ k a = Ok b.
Proof. destruct m; naive_solver. Qed.

Lemma ok_or_no_panic {E A} (o : option A) (e : E) : ok_or o e ≠ Panic.
Proof. by destruct o. Qed.
Lemma map_err_no_panic {E F A} (f : E → F) (m : result E A) : m ≠ Panic → map_err f m ≠ Panic.
Proof. by destruct m. Qed.
Lemma map_err_Ok {E F A} (f : E → F) (m : result E A) a : map_err f m = Ok a ↔ m = Ok a.
Proof. destruct m; split; intros Hm; by simplify_eq/=. Qed.
Lemma result_bind_no_panic {E A B} (m : result E A) (k : A → result E B) :
  m ≠ Panic → (∀ a, m = Ok a → k a ≠ Panic) → result_bind m k ≠ Panic.
Proof. destruct m; naive_solver. Qed.

(** A [loop] in a method: [body] gives the next loop state ([inl]) or breaks
    with a value ([inr]). Running out of [fuel] is [Panic]; [act_loop_total]
    rules it out where a measure of the state decreases. *)
Fixpoint act_loop {T E S A} (fuel : nat) (body : S → act T E (S + A)) (s : S) : act T E A :=
  match fuel with
  | O => λ t, (t, Panic)
  | S fuel =>
      do! r := body s in
      match r with
      | inl s' => act_loop fuel body s'
      | inr a => act_ret a
      end
  end.

Lemma act_loop_total {T E S A} (measure : S → Z) (inv : S → Prop) (body : S → act T E (S + A)) fuel s t :
  (∀ s t, inv s → (body s t).2 ≠ Panic) →
  (∀ s t t' s', inv s → body s t = (t', Ok (inl s')) → inv s' ∧ 0 ≤ measure s' < measure s) →
  inv s → measure s < Z.of_nat fuel → 0 ≤ measure s →
  (act_loop fuel body s t).2 ≠ Panic.
Proof.
  intros Hp Hdec. revert s t; induction fuel as [|fuel IH]; intros s t Hinv Hm H0; [lia|].
  cbn [act_loop]. unfold act_bind. pose proof (Hp s t Hinv) as Hps.
  destruct (body s t) as [t' [[s'|a]|e|]] eqn:Hb; [|done..].
  destruct (Hdec _ _ _ _ Hinv Hb). apply IH; [done|lia|lia].
Qed.

(** What holds of the state and the value when a loop breaks. *)
Lemma act_loop_inv {T E S A} (inv : S → T → Prop) (post : A → T → Prop) (body : S → act T E (S + A))
  fuel s t t' a :
  (∀ s t t' r, inv s t → body s t = (t', Ok r) →
     match r with inl s' => inv s' t' | inr a => post a t' end) →
  inv s t → act_loop fuel body s t = (t', Ok a) → post a t'.
Proof.
  intros Hbody. revert s t; induction fuel as [|fuel IH]; intros s t Hinv; [done|].
  cbn [act_loop]. unfold act_bind. destruct (body s t) as [t1 [r|e|]] eqn:Hb; [|done..].
  pose proof (Hbody _ _ _ _ Hinv Hb) as Hr. destruct r as [s'|a']; [by apply IH|].
  intros [= <- <-]. done.
Qed.

Lemma Ok_inj {E A} (a b : A) : @Ok E A a = Ok b → a = b.
Proof. congruence. Qed.

Lemma result_bind_ok {E A B} (a : A) (k : A → result E B) : result_bind (Ok a) k = k a.
Proof. done. Qed.

Lemma ok_or_inv {E A} (o : option A) (e : E) a : ok_or o e = Ok a ↔ o = Some a.
Proof. destruct o; naive_solver. Qed.

(** ** Machine integers

    An unsigned [w]-bit integer is a [Z] in [0, 2^w). *)

Definition u8_max : Z := 255.
Definition u16_max : Z := 65535.
Definition u32_max : Z := 4294967295.
Definition u64_max : Z := 18446744073709551615.

Definition is_byte (b : Z) : Prop := 0 ≤ b < 256.
Definition is_u16 (x : Z) : Prop := 0 ≤ x < 65536.
Definition is_u64 (x : Z) : Prop := 0 ≤ x < 18446744073709551616.
#[export] Instance is_byte_dec b : Decision (is_byte b).
Proof. unfold is_byte. apply _. Defined.
#[export] Instance is_u16_dec b : Decision (is_u16 b).
Proof. unfold is_u16. apply _. Defined.

(** A byte string: the Rust type [u8] of each element. *)
Abbreviation bytes := (list Z) (only parsing).
Definition bytes_ok (l : bytes) : Prop := Forall is_byte l.
#[export] Instance bytes_ok_dec l : Decision (bytes_ok l).
Proof. unfold bytes_ok. apply _. Defined.

Definition len (l : bytes) : Z := Z.of_nat (length l).

Lemma len_app (a b : bytes) : len (a ++ b) = len a + len b.
Proof. unfold len. rewrite length_app. lia. Qed.

Lemma len_cons x (a : bytes) : len (x :: a) = 1 + len a.
Proof. unfold len. simpl. lia. Qed.

Lemma len_nonneg (a : bytes) : 0 ≤ len a.
Proof. unfold len. lia. Qed.

(** A byte-string literal of ASCII characters. *)
Definition bytes_of_string (s : string) : bytes :=
  map (λ a, Z.of_N (Ascii.N_of_ascii a)) (String.list_ascii_of_string s).

(** [u16::from_be_bytes] and [u16::to_be_bytes]. *)
Definition u16_from_be (hi lo : Z) : Z := Z.lor (Z.shiftl hi 8) lo.
Definition u16_hi (x : Z) : Z := Z.shiftr x 8.
Definition u16_lo (x : Z) : Z := Z.land x 255.

(** The loop [acc = (acc << 8) | b] every big-endian reader runs. *)
Definition be_fold (l : bytes) : Z := foldl (λ acc b, Z.lor (Z.shiftl acc 8) b) 0 l.

(** [to_be_bytes] of an [n]-byte unsigned integer. *)
Fixpoint to_be (n : nat) (x : Z) : bytes :=
  match n with
  | O => []
  | S n' => Z.land (Z.shiftr x (8 * Z.of_nat n')) 255 :: to_be n' x
  end.

(** [to_le_bytes]. *)
Definition to_le (n : nat) (x : Z) : bytes := reverse (to_be n x).

Lemma lor_shiftl k a b : 0 < k → 0 ≤ b < 2 ^ k → Z.lor (Z.shiftl a k) b = a * 2 ^ k + b.
Proof.
  intros Hk Hb. assert (Z.land (Z.shiftl a k) b = 0) as Hl.
  { apply Z.bits_inj'. intros n Hn. rewrite Z.land_spec, Z.bits_0.
    destruct (decide (n < k)).
    - by rewrite Z.shiftl_spec_low.
    - rewrite (Z.bits_above_log2 b n), andb_false_r; [done|lia|].
      destruct (decide (b = 0)) as [->|]; [simpl; lia|].
      apply Z.log2_lt_pow2; [lia|]. apply Z.lt_le_trans with (2 ^ k); [lia|].
      apply Z.pow_le_mono_r; lia. }
  pose proof (Z.add_lor_land (Z.shiftl a k) b) as Hs. rewrite Hl in Hs.
  rewrite Z.shiftl_mul_pow2 in * by lia. lia.
Qed.

Lemma lor_shiftl8 a b : is_byte b → Z.lor (Z.shiftl a 8) b = a * 256 + b.
Proof. intros Hb. by apply (lor_shiftl 8). Qed.

Lemma land_255 x : Z.land x 255 = x mod 256.
Proof. change 255 with (Z.ones 8). by rewrite Z.land_ones by lia. Qed.

Lemma shiftr_8 x : Z.shiftr x 8 = x / 256.
Proof. by rewrite Z.shiftr_div_pow2 by lia. Qed.

Lemma u16_from_be_arith hi lo : is_byte lo → u16_from_be hi lo = hi * 256 + lo.
Proof. apply lor_shiftl8. Qed.

Lemma u16_hi_lo x : u16_from_be (u16_hi x) (u16_lo x) = x.
Proof.
  unfold u16_hi, u16_lo. rewrite land_255, shiftr_8, u16_from_be_arith.
  - pose proof (Z_div_mod_eq_full x 256). lia.
  - unfold is_byte. apply Z.mod_pos_bound. lia.
Qed.

Lemma is_byte_u16_hi x : is_u16 x → is_byte (u16_hi x).
Proof.
  unfold is_u16, is_byte, u16_hi. rewrite shiftr_8. intros.
  split; [apply Z.div_pos; lia | apply Z.div_lt_upper_bound; lia].
Qed.

Lemma is_byte_u16_lo x : is_byte (u16_lo x).
Proof. unfold is_byte, u16_lo. rewrite land_255. apply Z.mod_pos_bound. lia. Qed.

Lemma u16_hi_from_be hi lo : is_byte lo → u16_hi (u16_from_be hi lo) = hi.
Proof.
  intros Hlo. rewrite u16_from_be_arith by done. unfold u16_hi, is_byte in *. rewrite shiftr_8.
  rewrite Z.div_add_l by lia. rewrite Z.div_small by lia. lia.
Qed.

Lemma u16_lo_from_be hi lo : is_byte lo → u16_lo (u16_from_be hi lo) = lo.
Proof.
  intros Hlo. rewrite u16_from_be_arith by done. unfold u16_lo, is_byte in *. rewrite land_255.
  rewrite Z.add_comm, Z.mod_add by lia. apply Z.mod_small. lia.
Qed.

Lemma is_u16_from_be hi lo : is_byte hi → is_byte lo → is_u16 (u16_from_be hi lo).
Proof. intros Hh Hl. rewrite u16_from_be_arith by done. unfold is_byte, is_u16 in *. lia. Qed.

Lemma be_fold_app l b : is_byte b → be_fold (l ++ [b]) = be_fold l * 256 + b.
Proof. intros. unfold be_fold. rewrite foldl_app. simpl. by apply lor_shiftl8. Qed.

Lemma be_fold_nonneg l : bytes_ok l → 0 ≤ be_fold l < 256 ^ Z.of_nat (length l).
Proof.
  induction l as [|b l IH] using rev_ind; intros Hl; [by vm_compute|].
  apply Forall_app in Hl as [Hl [Hb _]%Forall_cons_iff].
  rewrite be_fold_app, length_app by done. simpl.
  replace (Z.of_nat (length l + 1)) with (Z.of_nat (length l) + 1) by lia.
  rewrite Z.pow_add_r by lia. specialize (IH Hl). unfold is_byte in Hb. nia.
Qed.

Lemma length_to_be n x : length (to_be n x) = n.
Proof. induction n; simpl; congruence. Qed.

Lemma to_be_bytes_ok n x : bytes_ok (to_be n x).
Proof.
  induction n; simpl; constructor; [|done].
  rewrite land_255. unfold is_byte. apply Z.mod_pos_bound. lia.
Qed.

Lemma to_be_snoc n x : to_be (S n) x = to_be n (Z.shiftr x 8) ++ [Z.land x 255].
Proof.
  induction n as [|n IH]; [simpl; by rewrite Z.shiftr_0_r|].
  change (to_be (S (S n)) x) with (Z.land (Z.shiftr x (8 * Z.of_nat (S n))) 255 :: to_be (S n) x).
  rewrite IH. simpl. f_equal. f_equal.
  rewrite Z.shiftr_shiftr by lia. f_equal. lia.
Qed.

Lemma be_fold_to_be n x : 0 ≤ x → be_fold (to_be n x) = x mod 256 ^ Z.of_nat n.
Proof.
  revert x; induction n as [|n IH]; intros x Hx; [by rewrite Z.mod_1_r|].
  rewrite to_be_snoc, land_255, shiftr_8.
  rewrite be_fold_app by (unfold is_byte; apply Z.mod_pos_bound; lia).
  rewrite IH by (apply Z.div_pos; lia).
  rewrite Nat2Z.inj_succ, Z.pow_succ_r by lia.
  rewrite Z.rem_mul_r by lia. lia.
Qed.

Lemma be_fold_concat a b : bytes_ok b → be_fold (a ++ b) = be_fold a * 256 ^ len b + be_fold b.
Proof.
  intros Hb. revert a. induction b as [|x b IH] using rev_ind; intros a; [rewrite app_nil_r; unfold len, be_fold; simpl; lia|].
  apply Forall_app in Hb as [Hb Hx]. apply Forall_cons_1 in Hx as [Hx _]. rewrite app_assoc, !be_fold_app, IH by done.
  rewrite len_app. change (len [x]) with 1. rewrite Z.pow_add_r by (pose proof (len_nonneg b); lia). lia.
Qed.
Lemma be_fold_cons b bs : bytes_ok (b :: bs) → be_fold (b :: bs) = b * 256 ^ len bs + be_fold bs.
Proof.
  intros [Hb Hbs]%Forall_cons_1. change (b :: bs) with ([b] ++ bs). rewrite be_fold_concat by done.
  by f_equal.
Qed.
(** A number cut after its first octets. *)
Lemma be_fold_take n l : bytes_ok l → (n <= length l)%nat → be_fold (take n l) = be_fold l / 256 ^ (len l - Z.of_nat n).
Proof.
  intros Hl Hn. rewrite <- (take_drop n l) at 2. rewrite be_fold_concat by (by apply Forall_drop).
  assert (len (drop n l) = len l - Z.of_nat n) as <- by (unfold len; rewrite length_drop; lia).
  pose proof (be_fold_nonneg (drop n l) ltac:(by apply Forall_drop)) as Hb. fold (len (drop n l)) in Hb.
  rewrite Z.add_comm, Z.div_add by lia. rewrite Z.div_small by done. done.
Qed.

Lemma to_be_be_fold l : bytes_ok l → to_be (length l) (be_fold l) = l.
Proof.
  induction l as [|b l IH] using rev_ind; intros Hl; [done|].
  apply Forall_app in Hl as [Hl [Hb _]%Forall_cons_iff].
  rewrite length_app, Nat.add_1_r, to_be_snoc, be_fold_app by done.
  unfold is_byte in Hb. rewrite land_255, shiftr_8.
  rewrite Z.div_add_l, Z.div_small, Z.add_0_r, IH by (done || lia).
  rewrite Z.add_comm, Z.mod_add, Z.mod_small by lia. done.
Qed.

Lemma be_fold_1 b : is_byte b → be_fold [b] = b.
Proof. intros. by apply (be_fold_app [] b). Qed.

(** A property of every byte, by evaluation. *)
Lemma byte_forall (P : Z → bool) :
  forallb P (seqZ 0 256) = true → ∀ b, is_byte b → P b = true.
Proof.
  intros Hall b Hb. rewrite forallb_forall in Hall. apply Hall, list_elem_of_In, elem_of_seqZ.
  unfold is_byte in Hb. lia.
Qed.

(** ** Lists *)

(** [slice::iter().position]. *)
Fixpoint position {A} (p : A → bool) (l : list A) : option nat :=
  match l with
  | [] => None
  | x :: l' => if p x then Some O else S <$> position p l'
  end.

Lemma position_None {A} (p : A → bool) l : position p l = None ↔ Forall (λ x, p x = false) l.
Proof.
  induction l as [|x l IH]; simpl; [naive_solver|].
  destruct (p x) eqn:Hp.
  - split; [done|]. intros [? _]%Forall_cons_iff. congruence.
  - rewrite Forall_cons_iff, fmap_None, IH. naive_solver.
Qed.

Lemma position_Some {A} (p : A → bool) l i :
  position p l = Some i → ∃ x, l !! i = Some x ∧ p x = true ∧ Forall (λ y, p y = false) (take i l).
Proof.
  revert i; induction l as [|x l IH]; intros i; simpl; [done|].
  destruct (p x) eqn:Hp; [naive_solver|].
  intros (j & Hj & ->)%fmap_Some. destruct (IH j Hj) as (y & ? & ? & ?).
  exists y. simpl. rewrite Forall_cons_iff. naive_solver.
Qed.

(** [slice::windows(n)]: every contiguous run of [n] elements, in order. *)
Fixpoint windows {A} (n : nat) (l : list A) : list (list A) :=
  match l with
  | [] => []
  | x :: l' => if decide (n ≤ length l)%nat then take n l :: windows n l' else []
  end.

(** [Iterator::find_map]. *)
Fixpoint find_map {A B} (f : A → option B) (l : list A) : option B :=
  match l with
  | [] => None
  | x :: l' => match f x with Some b => Some b | None => find_map f l' end
  end.

Lemma find_map_Some {A B} (f : A → option B) l b :
  find_map f l = Some b → ∃ x, x ∈ l ∧ f x = Some b.
Proof.
  induction l as [|x l IH]; simpl; [done|].
  destruct (f x) eqn:Hx; intros H; simplify_eq.
  - exists x. split; [left|done].
  - destruct (IH H) as (y & ? & ?). exists y. split; [by right|done].
Qed.

Lemma find_map_None {A B} (f : A → option B) l :
  find_map f l = None ↔ Forall (λ x, f x = None) l.
Proof.
  induction l as [|x l IH]; simpl; [naive_solver|].
  rewrite Forall_cons_iff. destruct (f x); naive_solver.
Qed.

(** A window lies in the list it is taken from. *)
Lemma elem_of_windows {A} n (l w : list A) :
  w ∈ windows n l → length w = n ∧ ∃ a b, l = a ++ w ++ b.
Proof.
  induction l as [|x l IH]; simpl; [set_solver|].
  case_decide as Hn; [|set_solver]. intros [->|Hw]%elem_of_cons.
  - split; [rewrite length_take; simpl in *; lia|].
    exists [], (drop n (x :: l)). simpl. by rewrite take_drop.
  - destruct (IH Hw) as (? & a & b & ->). split; [done|]. by exists (x :: a), b.
Qed.

(** [slice::get(i..j)]. *)
Definition slice {A} (i j : nat) (l : list A) : option (list A) :=
  if decide (i ≤ j ∧ j ≤ length l)%nat then Some (take (j - i) (drop i l)) else None.

Lemma slice_Some {A} i j (l s : list A) :
  slice i j l = Some s ↔ (i ≤ j ∧ j ≤ length l)%nat ∧ s = take (j - i) (drop i l).
Proof. unfold slice. case_decide; naive_solver. Qed.

Lemma length_slice {A} i j (l s : list A) : slice i j l = Some s → length s = (j - i)%nat.
Proof. rewrite slice_Some. intros [? ->]. rewrite length_take, length_drop. lia. Qed.

Lemma slice_app_exact {A} i j (a b c : list A) :
  i = length a → j = (length a + length b)%nat → slice i j (a ++ b ++ c) = Some b.
Proof.
  intros -> ->. apply slice_Some. rewrite !length_app. split; [lia|].
  rewrite drop_app_length. symmetry.
  replace (length a + length b - length a)%nat with (length b) by lia.
  apply take_app_length.
Qed.

(** [slice::get] at a [usize]: the bounds are compared before the position is
    converted, as the length of a hostile input can be any 64-bit value. *)
Definition zget {A} (i : Z) (l : list A) : option A :=
  if (0 <=? i) && (i <? Z.of_nat (length l)) then l !! Z.to_nat i else None.

Definition zslice {A} (i j : Z) (l : list A) : option (list A) :=
  if (0 <=? i) && (i <=? j) && (j <=? Z.of_nat (length l))
  then Some (take (Z.to_nat (j - i)) (drop (Z.to_nat i) l)) else None.

Lemma zget_app {A} (a : list A) x b : zget (Z.of_nat (length a)) (a ++ x :: b) = Some x.
Proof.
  unfold zget. rewrite length_app. simpl.
  destruct (Z.leb_spec 0 (Z.of_nat (length a))); [|lia].
  destruct (Z.ltb_spec (Z.of_nat (length a)) (Z.of_nat (length a + S (length b)))); [|lia].
  simpl. rewrite Nat2Z.id. by apply list_lookup_middle.
Qed.

Lemma zget_Some {A} i (l : list A) x :
  zget i l = Some x ↔ ∃ a b, l = a ++ x :: b ∧ i = Z.of_nat (length a).
Proof.
  split.
  - unfold zget. destruct (Z.leb_spec 0 i); [|done]. destruct (Z.ltb_spec i (Z.of_nat (length l))); [|done].
    simpl. intros Hl. exists (take (Z.to_nat i) l), (drop (S (Z.to_nat i)) l).
    rewrite take_drop_middle by done. split; [done|]. rewrite length_take. lia.
  - intros (a & b & -> & ->). apply zget_app.
Qed.

Lemma zget_None {A} i (l : list A) : 0 ≤ i → zget i l = None ↔ Z.of_nat (length l) ≤ i.
Proof.
  intros. unfold zget. destruct (Z.leb_spec 0 i); [|lia].
  destruct (Z.ltb_spec i (Z.of_nat (length l))); simpl; [|split; [lia|done]].
  split; [|lia]. intros Hn%lookup_ge_None. lia.
Qed.

Lemma zslice_Some {A} i j (l s : list A) :
  zslice i j l = Some s ↔
  ∃ a b, l = a ++ s ++ b ∧ i = Z.of_nat (length a) ∧ j = Z.of_nat (length a) + Z.of_nat (length s).
Proof.
  unfold zslice. split.
  - destruct (Z.leb_spec 0 i); [|done]. destruct (Z.leb_spec i j); [|done].
    destruct (Z.leb_spec j (Z.of_nat (length l))); [|done]. simpl. intros [= <-].
    exists (take (Z.to_nat i) l), (drop (Z.to_nat (j - i)) (drop (Z.to_nat i) l)).
    rewrite !take_drop. split; [done|]. rewrite !length_take, length_drop. lia.
  - intros (a & b & -> & -> & ->). rewrite !length_app.
    destruct (Z.leb_spec 0 (Z.of_nat (length a))); [|lia].
    match goal with |- context [?x <=? ?y] => destruct (Z.leb_spec x y); [|lia] end.
    match goal with |- context [?x <=? ?y] => destruct (Z.leb_spec x y); [|lia] end.
    simpl. rewrite Nat2Z.id, drop_app_length. f_equal.
    replace (Z.to_nat _) with (length s) by lia. apply take_app_length.
Qed.

Lemma zslice_app_exact {A} i j (a b c : list A) :
  i = Z.of_nat (length a) → j = i + Z.of_nat (length b) → zslice i j (a ++ b ++ c) = Some b.
Proof. intros -> ->. apply zslice_Some. exists a, c. split_and!; [done|done|lia]. Qed.
Lemma zslice_None {A} i j (l : list A) :
  0 ≤ i ≤ j → zslice i j l = None ↔ Z.of_nat (length l) < j.
Proof.
  intros. unfold zslice. destruct (Z.leb_spec 0 i); [|lia]. destruct (Z.leb_spec i j); [|lia].
  destruct (Z.leb_spec j (Z.of_nat (length l))); simpl; [split; [done|lia]|split; [lia|done]].
Qed.

(** [<[u8]>::strip_prefix]. *)
Definition strip_prefix (prefix l : bytes) : option bytes :=
  if decide (take (length prefix) l = prefix) then Some (drop (length prefix) l) else None.

Lemma strip_prefix_app p l : strip_prefix p (p ++ l) = Some l.
Proof. unfold strip_prefix. by rewrite take_app_length, drop_app_length, decide_True. Qed.

Lemma strip_prefix_Some p l r : strip_prefix p l = Some r → l = p ++ r.
Proof.
  unfold strip_prefix. case_decide as Hp; [|done]. intros [= <-].
  rewrite <- Hp at 1. by rewrite take_drop.
Qed.

Lemma Forall_cons_iff2 {A} (P : A → Prop) x y l :
  Forall P (x :: y :: l) ↔ P x ∧ P y ∧ Forall P l.
Proof. rewrite !Forall_cons_iff. done. Qed.

(** ** Automation *)

(** Close a side condition on bytes, lengths or machine integers. *)
Ltac solve_bytes :=
  unfold bytes_ok, is_byte, is_u16, is_u64 in *; simpl in *;
  repeat first [ done | lia | apply Forall_app; split | apply Forall_cons_iff; split
               | apply Forall_nil_2 ].

(** Prove a decidable closed proposition by evaluating its decision. *)
Ltac by_decide := match goal with |- ?P => apply (bool_decide_unpack P); vm_compute; exact I end.

Create HintDb bytes.
#[export] Hint Resolve is_byte_u16_lo to_be_bytes_ok : bytes.
#[export] Hint Resolve Forall_nil_2 : bytes.
Create Rewrite HintDb lists.
#[export] Hint Rewrite @length_app @length_replicate @length_take @length_drop length_to_be
  @length_cons @length_nil : lists.
