(* ===== verification/Decimal.v ===== *)
(** Decimal numbers as the standard library writes them ([{}] and [{:0w}] of an
    unsigned integer, as octets) and the digit strings that parsers read. *)

From S2P Require Import Prelude.

(** [u8::is_ascii_digit]. *)
Definition is_ascii_digit (b : Z) : bool := (0x30 <=? b) && (b <=? 0x39).

Fixpoint dec_digits (fuel : nat) (n : Z) : bytes :=
  match fuel with
  | O => []
  | S fuel => if n <? 10 then [0x30 + n] else dec_digits fuel (n / 10) ++ [0x30 + n mod 10]
  end.

(** [format!("{n}")]. *)
Definition dec (n : Z) : bytes := dec_digits (S (Z.to_nat (Z.log2 n))) n.

(** [format!("{n:0w}")]. *)
Definition dec_pad (w : nat) (n : Z) : bytes := replicate (w - length (dec n)) 0x30 ++ dec n.

(** The number a string of digits stands for. *)
Definition dec_value (bs : bytes) : Z := foldl (λ acc b, acc * 10 + (b - 0x30)) 0 bs.

Abbreviation digits bs := (Forall (λ b, is_ascii_digit b = true) bs).

Lemma is_ascii_digit_spec b : is_ascii_digit b = true ↔ 0x30 ≤ b ≤ 0x39.
Proof. unfold is_ascii_digit. rewrite andb_true_iff, !Z.leb_le. done. Qed.

Lemma digits_bytes_ok bs : digits bs → bytes_ok bs.
Proof. apply Forall_impl. intros b ?%is_ascii_digit_spec. unfold is_byte. lia. Qed.

Lemma dec_value_snoc bs b : dec_value (bs ++ [b]) = dec_value bs * 10 + (b - 0x30).
Proof. unfold dec_value. by rewrite foldl_snoc. Qed.

Lemma dec_value_app a b : dec_value (a ++ b) = dec_value a * 10 ^ len b + dec_value b.
Proof.
  revert a. induction b as [|x b IH] using rev_ind; intros a.
  - rewrite app_nil_r. unfold len. cbn. lia.
  - rewrite app_assoc, !dec_value_snoc, IH, len_app. unfold len at 3. cbn [length].
    rewrite Z.pow_add_r by (unfold len; lia). lia.
Qed.

Lemma dec_value_bound bs : digits bs → 0 ≤ dec_value bs < 10 ^ len bs.
Proof.
  induction bs as [|x bs IH] using rev_ind; intros Hbs; [by split; vm_compute|].
  apply Forall_app in Hbs as [Hbs Hx]. apply Forall_cons_1 in Hx as [Hx%is_ascii_digit_spec _]. specialize (IH Hbs).
  rewrite dec_value_snoc, len_app, Z.pow_add_r by (unfold len; lia). change (len [x]) with 1. rewrite Z.pow_1_r. lia.
Qed.

Lemma dec_value_inj a b : digits a → digits b → length a = length b → dec_value a = dec_value b → a = b.
Proof.
  revert b. induction a as [|x a IH] using rev_ind; intros b Ha Hb Hlen Hv.
  - by destruct b.
  - destruct b as [|y b _] using rev_ind; [rewrite length_app in Hlen; cbn in Hlen; lia|].
    rewrite !length_app in Hlen. cbn in Hlen. rewrite !dec_value_snoc in Hv.
    apply Forall_app in Ha as [Ha Hx]. apply Forall_app in Hb as [Hb Hy].
    apply Forall_cons_1 in Hx as [Hx%is_ascii_digit_spec _]. apply Forall_cons_1 in Hy as [Hy%is_ascii_digit_spec _].
    rewrite (IH b Ha Hb) by lia. f_equal. f_equal. lia.
Qed.

Lemma dec_digits_spec fuel n : 0 ≤ n → Z.log2 n < Z.of_nat fuel →
  digits (dec_digits fuel n) ∧ dec_value (dec_digits fuel n) = n ∧
  (dec_digits fuel n ≠ []) ∧ (∀ w, 0 < w → n < 10 ^ w → len (dec_digits fuel n) ≤ w).
Proof.
  revert n. induction fuel as [|fuel IH]; intros n Hn Hf; [pose proof (Z.log2_nonneg n); lia|]. cbn [dec_digits].
  destruct (Z.ltb_spec n 10).
  - split; [|split; [|split]]; [|unfold dec_value; cbn; lia|done|intros w ? ?; unfold len; cbn; lia].
    apply Forall_cons_2; [apply is_ascii_digit_spec; lia|done].
  - assert (Z.log2 (n / 10) < Z.of_nat fuel) as Hl.
    { pose proof (Z.div_mod n 10). pose proof (Z.mod_pos_bound n 10). pose proof (Z.div_le_lower_bound n 10 1).
      pose proof (Z.log2_le_mono (2 * (n / 10)) n) as Hle. rewrite Z.log2_double in Hle by lia. lia. }
    destruct (IH (n / 10)) as (Hd & Hv & _ & Hw); [apply Z.div_pos; lia|exact Hl|]. split; [|split; [|split]].
    + apply Forall_app_2; [done|]. apply Forall_cons_2; [|done]. apply is_ascii_digit_spec.
      pose proof (Z.mod_pos_bound n 10). lia.
    + rewrite dec_value_snoc, Hv. pose proof (Z.div_mod n 10). lia.
    + by destruct (dec_digits fuel (n / 10)).
    + intros w Hw0 Hlt. rewrite len_app. unfold len at 2. cbn [length].
      assert (1 < w). { destruct (decide (w = 1)); [subst; lia|lia]. }
      enough (len (dec_digits fuel (n / 10)) ≤ w - 1) by lia. apply Hw; [lia|].
      apply Z.div_lt_upper_bound; [lia|]. rewrite <- Z.pow_succ_r by lia. by replace (Z.succ (w - 1)) with w by lia.
Qed.

Lemma dec_spec n : 0 ≤ n → digits (dec n) ∧ dec_value (dec n) = n ∧ dec n ≠ [] ∧ (∀ w, 0 < w → n < 10 ^ w → len (dec n) ≤ w).
Proof. intros Hn. apply dec_digits_spec; [done|]. pose proof (Z.log2_nonneg n). lia. Qed.

Lemma dec_value_zeros k bs : dec_value (replicate k 0x30 ++ bs) = dec_value bs.
Proof.
  rewrite dec_value_app. enough (dec_value (replicate k 0x30) = 0) as -> by lia.
  induction k as [|k IH]; [done|]. replace (S k) with (k + 1)%nat by lia. rewrite replicate_add. cbn [replicate].
  rewrite dec_value_snoc, IH. lia.
Qed.

(** A padded number is a digit string of the width, and the one with that value. *)
Lemma dec_pad_spec w n : 0 ≤ n < 10 ^ Z.of_nat w → (0 < w)%nat →
  digits (dec_pad w n) ∧ length (dec_pad w n) = w ∧ dec_value (dec_pad w n) = n.
Proof.
  intros Hn Hw. destruct (dec_spec n) as (Hd & Hv & _ & Hl); [lia|].
  assert (len (dec n) ≤ Z.of_nat w) as Hlw by (apply Hl; lia). unfold len in Hlw. unfold dec_pad. split; [|split].
  - apply Forall_app_2; [|done]. by apply Forall_replicate.
  - rewrite length_app, length_replicate. lia.
  - by rewrite dec_value_zeros.
Qed.

Lemma dec_pad_value w bs : digits bs → length bs = w → (0 < w)%nat → dec_pad w (dec_value bs) = bs.
Proof.
  intros Hbs Hl Hw. destruct (dec_pad_spec w (dec_value bs)) as (Hd & Hl' & Hv); [|done|].
  - rewrite <- Hl. by apply dec_value_bound.
  - apply dec_value_inj; [done|done|congruence|done].
Qed.
