(* ===== verification/Iso8601.v ===== *)
(** Dates and times: crates/refineid-lib-core/src/iso8601.rs. The calendar checks, the
    readers of the wire forms (YYYYMMDD, YYMMDD, YYYY-MM-DD, YYYYMMDDhhmmss) and the
    writers. Texts are octets. *)

From S2P Require Import Prelude Decimal.

Definition YEAR_MIN : Z := 1900.
Definition YEAR_MAX : Z := 2100.

Record Date := mkDate { year : Z; month : Z; day : Z }.
#[export] Instance Date_eq_dec : EqDecision Date.
Proof. solve_decision. Defined.

Inductive TimeOffset :=
| To_Unspecified | To_Utc | To_Plus (hours minutes : Z) | To_Minus (hours minutes : Z).
#[export] Instance TimeOffset_eq_dec : EqDecision TimeOffset.
Proof. solve_decision. Defined.

Record DateTime := mkDateTime { date : Date; hour : Z; minute : Z; second : Z; offset : TimeOffset }.

Inductive Iso8601 := Iso_Date (d : Date) | Iso_DateTime (dt : DateTime).
Definition Iso8601_as_date (v : Iso8601) : option Date :=
  match v with Iso_Date d => Some d | Iso_DateTime _ => None end.
Definition Iso8601_as_datetime (v : Iso8601) : option DateTime :=
  match v with Iso_DateTime dt => Some dt | Iso_Date _ => None end.

Inductive Iso8601Error :=
| Ie_YearOutOfRange (year min max : Z)
| Ie_MonthOutOfRange (month : Z)
| Ie_DayOutOfRange (day month year : Z)
| Ie_HourOutOfRange (hour : Z)
| Ie_MinuteOutOfRange (minute : Z)
| Ie_SecondOutOfRange (second : Z)
| Ie_OffsetHoursOutOfRange (hours : Z)
| Ie_OffsetMinutesOutOfRange (minutes : Z)
| Ie_ParseShape (production : string) (got_bytes : Z)
| Ie_ParseChars (production : string) (at_ : Z).

(** ** Validation *)

Definition is_multiple_of (x m : Z) : bool := x mod m =? 0.

Definition days_in_month (year month : Z) : Z :=
  if existsb (Z.eqb month) [1; 3; 5; 7; 8; 10; 12] then 31
  else if existsb (Z.eqb month) [4; 6; 9; 11] then 30
  else if month =? 2 then
    let leap := is_multiple_of year 4 && (negb (is_multiple_of year 100) || is_multiple_of year 400) in
    if leap then 29 else 28
  else 0.

Definition validate_calendar (year month day : Z) : result Iso8601Error unit :=
  if (year <? YEAR_MIN) || (YEAR_MAX <? year) then Err (Ie_YearOutOfRange year YEAR_MIN YEAR_MAX)
  else if (month <? 1) || (12 <? month) then Err (Ie_MonthOutOfRange month)
  else
    let last_day := days_in_month year month in
    if (day <? 1) || (last_day <? day) then Err (Ie_DayOutOfRange day month year) else Ok tt.

Definition validate_offset (offset : TimeOffset) : result Iso8601Error unit :=
  match offset with
  | To_Unspecified | To_Utc => Ok tt
  | To_Plus hours minutes | To_Minus hours minutes =>
      if 14 <? hours then Err (Ie_OffsetHoursOutOfRange hours)
      else if 59 <? minutes then Err (Ie_OffsetMinutesOutOfRange minutes)
      else Ok tt
  end.

Definition Date_new (year month day : Z) : result Iso8601Error Date :=
  let? _ := validate_calendar year month day in Ok (mkDate year month day).

Definition DateTime_new (date : Date) (hour minute second : Z) (offset : TimeOffset) : result Iso8601Error DateTime :=
  if 23 <? hour then Err (Ie_HourOutOfRange hour)
  else if 59 <? minute then Err (Ie_MinuteOutOfRange minute)
  else if 60 <? second then Err (Ie_SecondOutOfRange second)
  else let? _ := validate_offset offset in Ok (mkDateTime date hour minute second offset).

(** ** Digits *)

(** The index is that of the first octet that is no digit. *)
Definition check_ascii_digits (bs : bytes) (production : string) (slice_start : Z) : result Iso8601Error unit :=
  match position (λ b, negb (is_ascii_digit b)) bs with
  | Some i => Err (Ie_ParseChars production (Z.min (slice_start + Z.of_nat i) u64_max))
  | None => Ok tt
  end.

(** [b.wrapping_sub(b'0')]. *)
Definition digit_of (b : Z) : Z := (b - 0x30) mod 256.
Definition parse_u16 (bs : bytes) : Z := foldl (λ acc b, ((acc * 10) mod 65536 + digit_of b) mod 65536) 0 bs.
Definition parse_u8 (bs : bytes) : Z := foldl (λ acc b, ((acc * 10) mod 256 + digit_of b) mod 256) 0 bs.

(** [&bytes[i..j]] of an array long enough. *)
Definition sub (i j : nat) (bs : bytes) : bytes := take (j - i) (drop i bs).

(** ** Readers *)

Definition Date_from_iso_date_string (s : bytes) : result Iso8601Error Date :=
  let PROD := "YYYY-MM-DD" in
  let shape_err := Ie_ParseShape PROD (len s) in
  if negb (len s =? 10) then Err shape_err
  else
    let? year_bytes := ok_or (slice 0 4 s) shape_err in
    let? dash_at_4 := ok_or (s !! 4%nat) shape_err in
    let? month_bytes := ok_or (slice 5 7 s) shape_err in
    let? dash_at_7 := ok_or (s !! 7%nat) shape_err in
    let? day_bytes := ok_or (slice 8 10 s) shape_err in
    if negb (dash_at_4 =? 0x2D) then Err (Ie_ParseChars PROD 4)
    else if negb (dash_at_7 =? 0x2D) then Err (Ie_ParseChars PROD 7)
    else
      let? _ := check_ascii_digits year_bytes PROD 0 in
      let? _ := check_ascii_digits month_bytes PROD 5 in
      let? _ := check_ascii_digits day_bytes PROD 8 in
      Date_new (parse_u16 year_bytes) (parse_u8 month_bytes) (parse_u8 day_bytes).

Definition Date_from_yyyymmdd (bs : bytes) : result Iso8601Error Date :=
  let? _ := check_ascii_digits bs "YYYYMMDD" 0 in
  Date_new (parse_u16 (sub 0 4 bs)) (parse_u8 (sub 4 6 bs)) (parse_u8 (sub 6 8 bs)).

Definition Date_from_mrz_yymmdd (bs : bytes) : result Iso8601Error Date :=
  let? _ := check_ascii_digits bs "YYMMDD" 0 in
  let yy := parse_u8 (sub 0 2 bs) in
  let year := if yy <? 50 then 2000 + yy else 1900 + yy in
  Date_new year (parse_u8 (sub 2 4 bs)) (parse_u8 (sub 4 6 bs)).

Definition DateTime_from_yyyymmddhhmmss (bs : bytes) : result Iso8601Error DateTime :=
  let? _ := check_ascii_digits bs "YYYYMMDDhhmmss" 0 in
  let? date := Date_new (parse_u16 (sub 0 4 bs)) (parse_u8 (sub 4 6 bs)) (parse_u8 (sub 6 8 bs)) in
  DateTime_new date (parse_u8 (sub 8 10 bs)) (parse_u8 (sub 10 12 bs)) (parse_u8 (sub 12 14 bs)) To_Unspecified.

(** ** Writers *)

Definition Date_to_yyyymmdd (d : Date) : bytes := dec_pad 4 (year d) ++ dec_pad 2 (month d) ++ dec_pad 2 (day d).
Definition Date_to_mrz_yymmdd (d : Date) : bytes :=
  dec_pad 2 (year d mod 100) ++ dec_pad 2 (month d) ++ dec_pad 2 (day d).
Definition Date_fmt (d : Date) : bytes :=
  dec_pad 4 (year d) ++ [0x2D] ++ dec_pad 2 (month d) ++ [0x2D] ++ dec_pad 2 (day d).

Definition DateTime_fmt (dt : DateTime) : bytes :=
  Date_fmt (date dt) ++ bytes_of_string "T" ++ dec_pad 2 (hour dt) ++ bytes_of_string ":" ++ dec_pad 2 (minute dt)
    ++ bytes_of_string ":" ++ dec_pad 2 (second dt)
    ++ match offset dt with
       | To_Unspecified => []
       | To_Utc => bytes_of_string "Z"
       | To_Plus hours minutes => bytes_of_string "+" ++ dec_pad 2 hours ++ bytes_of_string ":" ++ dec_pad 2 minutes
       | To_Minus hours minutes => bytes_of_string "-" ++ dec_pad 2 hours ++ bytes_of_string ":" ++ dec_pad 2 minutes
       end.

Definition Iso8601_fmt (v : Iso8601) : bytes :=
  match v with Iso_Date d => Date_fmt d | Iso_DateTime dt => DateTime_fmt dt end.

(** ** The calendar *)

Definition leap_year (y : Z) : Prop := (4 | y) ∧ (¬ (100 | y) ∨ (400 | y)).

Inductive last_day (y : Z) : Z → Z → Prop :=
| Ld_long m : m ∈ [1; 3; 5; 7; 8; 10; 12] → last_day y m 31
| Ld_short m : m ∈ [4; 6; 9; 11] → last_day y m 30
| Ld_leap : leap_year y → last_day y 2 29
| Ld_common : ¬ leap_year y → last_day y 2 28.

(** A date of the Gregorian calendar in the years the library serves. *)
Definition real_date (d : Date) : Prop :=
  1900 ≤ year d ≤ 2100 ∧ 1 ≤ day d ∧ ∃ last, last_day (year d) (month d) last ∧ day d ≤ last.

Lemma is_multiple_of_spec x m : 0 < m → is_multiple_of x m = true ↔ (m | x).
Proof. intros Hm. unfold is_multiple_of. rewrite Z.eqb_eq. apply Z.mod_divide. lia. Qed.

Lemma leap_spec y :
  is_multiple_of y 4 && (negb (is_multiple_of y 100) || is_multiple_of y 400) = true ↔ leap_year y.
Proof.
  unfold leap_year. rewrite andb_true_iff, orb_true_iff, negb_true_iff, <- not_true_iff_false.
  by rewrite !is_multiple_of_spec by lia.
Qed.

Lemma existsb_elem (x : Z) l : existsb (Z.eqb x) l = true ↔ x ∈ l.
Proof.
  rewrite existsb_exists. split.
  - intros (y & Hy & ->%Z.eqb_eq). by apply list_elem_of_In.
  - intros Hx. exists x. split; [by apply list_elem_of_In|apply Z.eqb_refl].
Qed.

Lemma last_day_month y m l : last_day y m l → 1 ≤ m ≤ 12.
Proof. destruct 1 as [m Hm|m Hm| |]; try lia; repeat (apply elem_of_cons in Hm as [->|Hm]; [lia|]); by apply elem_of_nil in Hm. Qed.

Lemma days_in_month_spec y m : 1 ≤ m ≤ 12 → last_day y m (days_in_month y m).
Proof.
  intros Hm. unfold days_in_month.
  destruct (existsb (Z.eqb m) [1; 3; 5; 7; 8; 10; 12]) eqn:H1; [by apply Ld_long, existsb_elem|].
  destruct (existsb (Z.eqb m) [4; 6; 9; 11]) eqn:H2; [by apply Ld_short, existsb_elem|].
  cbn in H1, H2. assert (m = 2) as -> by lia. cbn [Z.eqb Pos.eqb].
  destruct (_ && _) eqn:Hl; [by apply Ld_leap, leap_spec|]. apply Ld_common. rewrite <- leap_spec. congruence.
Qed.

Lemma last_day_fun y m l : last_day y m l → l = days_in_month y m.
Proof.
  intros Hl. pose proof (days_in_month_spec y m (last_day_month _ _ _ Hl)) as Hd. revert Hd.
  generalize (days_in_month y m) as k. intros k Hk.
  destruct Hl as [m Hm|m Hm|Hy|Hy]; inversion Hk as [m' Hm'|m' Hm'|Hy'|Hy']; subst; try done;
    repeat match goal with H : _ ∈ _ |- _ => apply list_elem_of_In in H; cbn in H end; lia.
Qed.

Lemma validate_calendar_spec y m d : validate_calendar y m d = Ok tt ↔ real_date (mkDate y m d).
Proof.
  unfold validate_calendar, real_date, YEAR_MIN, YEAR_MAX. cbn [year month day].
  destruct ((y <? 1900) || (2100 <? y)) eqn:H1;
    [|destruct ((m <? 1) || (12 <? m)) eqn:H2; [|destruct ((d <? 1) || (days_in_month y m <? d)) eqn:H3]].
  - split; [done|]. intros (? & _). lia.
  - split; [done|]. intros (_ & _ & l & ?%last_day_month & _). lia.
  - split; [done|]. intros (_ & ? & l & ->%last_day_fun & ?). lia.
  - split; [|done]. intros _. split; [lia|]. split; [lia|]. exists (days_in_month y m).
    split; [apply days_in_month_spec; lia|lia].
Qed.

Lemma Date_new_Ok y m d x : Date_new y m d = Ok x ↔ x = mkDate y m d ∧ real_date x.
Proof.
  unfold Date_new. pose proof (validate_calendar_spec y m d) as Hs.
  destruct (validate_calendar y m d) as [[]|e|]; cbn [result_bind].
  - split; [intros <-%Ok_inj; split; [done|by apply Hs]|by intros (-> & _)].
  - split; [done|]. intros (-> & Hr). by apply Hs in Hr.
  - split; [done|]. intros (-> & Hr). by apply Hs in Hr.
Qed.

Lemma real_date_ranges d : real_date d → 0 ≤ year d < 10 ^ 4 ∧ 0 ≤ month d < 10 ^ 2 ∧ 0 ≤ day d < 10 ^ 2.
Proof.
  intros (Hy & Hd & l & Hl & Hle). pose proof (last_day_month _ _ _ Hl).
  assert (l ≤ 31) by (destruct Hl; lia). change (10 ^ 4) with 10000. change (10 ^ 2) with 100. lia.
Qed.

(** ** Fields of digits *)

Lemma check_ascii_digits_spec bs prod start : check_ascii_digits bs prod start = Ok tt ↔ digits bs.
Proof.
  unfold check_ascii_digits. destruct (position _ bs) as [i|] eqn:Hp.
  - split; [done|]. intros Hd. apply position_Some in Hp as (x & Hx & Hb & _).
    apply list_elem_of_lookup_2 in Hx. apply (proj1 (list.Forall_forall _ _) Hd) in Hx. by rewrite Hx in Hb.
  - split; [|done]. intros _. apply position_None in Hp. eapply Forall_impl; [|exact Hp]. cbn. intros b ?%negb_false_iff. done.
Qed.

Lemma check_then {A} bs prod start (k : result Iso8601Error A) x :
  (let? _ := check_ascii_digits bs prod start in k) = Ok x ↔ digits bs ∧ k = Ok x.
Proof.
  pose proof (check_ascii_digits_spec bs prod start) as Hs.
  destruct (check_ascii_digits bs prod start) as [[]|e|]; cbn [result_bind].
  - split; [intros ?; split; [by apply Hs|done]|by intros (_ & ?)].
  - split; [done|]. intros (Hd & _). by apply Hs in Hd.
  - split; [done|]. intros (Hd & _). by apply Hs in Hd.
Qed.

Lemma wrapping_dec_value M bs : 256 ≤ M → 10 ^ len bs ≤ M → digits bs →
  foldl (λ acc b, ((acc * 10) mod M + digit_of b) mod M) 0 bs = dec_value bs.
Proof.
  intros HM. induction bs as [|b bs IH] using rev_ind; intros Hle Hd; [done|].
  apply Forall_app in Hd as [Hd Hb]. pose proof (dec_value_bound bs Hd) as Hv.
  apply Forall_cons_1 in Hb as [Hb%is_ascii_digit_spec _].
  rewrite len_app, Z.pow_add_r in Hle by (unfold len; lia). change (len [b]) with 1 in Hle. rewrite Z.pow_1_r in Hle.
  rewrite foldl_snoc, IH by (done || lia). rewrite dec_value_snoc. unfold digit_of.
  rewrite (Z.mod_small (b - 0x30)) by lia. rewrite (Z.mod_small (dec_value bs * 10)) by lia. apply Z.mod_small. lia.
Qed.

Lemma parse_u16_digits bs : digits bs → length bs = 4%nat → parse_u16 bs = dec_value bs.
Proof. intros Hd Hl. apply wrapping_dec_value; [lia| |done]. unfold len. rewrite Hl. by vm_compute. Qed.
Lemma parse_u8_digits bs : digits bs → length bs = 2%nat → parse_u8 bs = dec_value bs.
Proof. intros Hd Hl. apply wrapping_dec_value; [lia| |done]. unfold len. rewrite Hl. by vm_compute. Qed.

Lemma dec_pad_iff w n bs : length bs = w → (0 < w)%nat → 0 ≤ n < 10 ^ Z.of_nat w →
  dec_pad w n = bs ↔ digits bs ∧ dec_value bs = n.
Proof.
  intros Hl Hw Hn. split.
  - intros <-. by destruct (dec_pad_spec w n) as (? & _ & ?).
  - intros (Hd & <-). by apply dec_pad_value.
Qed.

(** The three fields of a date as read and as written. *)
Lemma date_fields a b c d : length a = 4%nat → length b = 2%nat → length c = 2%nat → digits (a ++ b ++ c) →
  Date_new (parse_u16 a) (parse_u8 b) (parse_u8 c) = Ok d ↔
  real_date d ∧ dec_pad 4 (year d) = a ∧ dec_pad 2 (month d) = b ∧ dec_pad 2 (day d) = c.
Proof.
  intros Ha Hb Hc (Hda & (Hdb & Hdc)%Forall_app)%Forall_app.
  rewrite Date_new_Ok, parse_u16_digits, !parse_u8_digits by done. split.
  - intros (-> & Hr). cbn [year month day] in *. split; [done|]. by rewrite !dec_pad_value by (done || lia).
  - intros (Hr & Hy & Hm & Hd). pose proof (real_date_ranges d Hr) as (Hry & Hrm & Hrd). split; [|done].
    apply dec_pad_iff in Hy as [_ Hy]; [|done|lia|done]. apply dec_pad_iff in Hm as [_ Hm]; [|done|lia|done].
    apply dec_pad_iff in Hd as [_ Hd]; [|done|lia|done]. rewrite Hy, Hm, Hd. by destruct d.
Qed.

(** Cutting octets at fixed places. *)
Lemma drop_sub i j bs : (i ≤ j)%nat → drop i bs = sub i j bs ++ drop j bs.
Proof. intros Hij. unfold sub. rewrite <- (take_drop (j - i) (drop i bs)) at 1. rewrite drop_drop. do 2 f_equal. lia. Qed.

Lemma length_sub i j bs : (i ≤ j ≤ length bs)%nat → length (sub i j bs) = (j - i)%nat.
Proof. intros. unfold sub. rewrite length_take, length_drop. lia. Qed.

Lemma sub_last i j bs : length bs = j → drop i bs = sub i j bs.
Proof. intros <-. unfold sub. rewrite take_ge; [done|]. rewrite length_drop. lia. Qed.

Lemma cut3 i j k bs : (i ≤ j ≤ k)%nat → length bs = k → bs = sub 0 i bs ++ sub i j bs ++ sub j k bs.
Proof.
  intros Hij Hk. rewrite <- (sub_last j k) by done. rewrite <- drop_sub by lia.
  rewrite <- (drop_sub 0 i) by lia. by rewrite drop_0.
Qed.

(** The same with the pieces named. *)
Lemma cut3_pieces i j k bs : (i ≤ j ≤ k)%nat → length bs = k →
  ∃ a b c, sub 0 i bs = a ∧ sub i j bs = b ∧ sub j k bs = c ∧ bs = a ++ b ++ c ∧
    length a = i ∧ length b = (j - i)%nat ∧ length c = (k - j)%nat.
Proof.
  intros Hij Hk. exists (sub 0 i bs), (sub i j bs), (sub j k bs). rewrite !length_sub by lia.
  repeat (split; [done|]). split; [by apply cut3|lia].
Qed.

Lemma app3_eq (a b c x y z : bytes) : length x = length a → length y = length b →
  x ++ y ++ z = a ++ b ++ c ↔ x = a ∧ y = b ∧ z = c.
Proof.
  intros Ha Hb. split; [|by intros (-> & -> & ->)]. intros Heq.
  apply app_inj_1 in Heq as [-> Heq]; [|done]. by apply app_inj_1 in Heq as [-> ->].
Qed.

(** Readers that take the fields of a date from three places. *)
Lemma date_of_fields a b c d prod : length a = 4%nat → length b = 2%nat → length c = 2%nat →
  (let? _ := check_ascii_digits (a ++ b ++ c) prod 0 in Date_new (parse_u16 a) (parse_u8 b) (parse_u8 c)) = Ok d ↔
  real_date d ∧ Date_to_yyyymmdd d = a ++ b ++ c.
Proof.
  intros Ha Hb Hc. rewrite check_then. split.
  - intros (Hd & Hnew). apply date_fields in Hnew as (Hr & Hy & Hm & Hdd); [|done..]. unfold Date_to_yyyymmdd.
    by rewrite Hy, Hm, Hdd.
  - intros (Hr & Heq). pose proof (real_date_ranges d Hr) as (Hry & Hrm & Hrd). unfold Date_to_yyyymmdd in Heq.
    destruct (dec_pad_spec 4 (year d)) as (Hdy & Hly & _); [done|lia|].
    destruct (dec_pad_spec 2 (month d)) as (Hdm & Hlm & _); [done|lia|].
    destruct (dec_pad_spec 2 (day d)) as (Hdd & Hld & _); [done|lia|].
    assert (digits (a ++ b ++ c)) as Hd by (rewrite <- Heq; apply Forall_app_2; [done|by apply Forall_app_2]).
    split; [done|]. apply date_fields; [done..|]. split; [done|]. apply app3_eq in Heq; [done|congruence..].
Qed.

Lemma yyyymmdd_iff bs d : length bs = 8%nat → Date_from_yyyymmdd bs = Ok d ↔ real_date d ∧ Date_to_yyyymmdd d = bs.
Proof.
  intros Hl. unfold Date_from_yyyymmdd.
  destruct (cut3_pieces 4 6 8 bs) as (a & b & c & -> & -> & -> & -> & Ha & Hb & Hc); [lia|done|].
  by apply date_of_fields.
Qed.

Lemma mrz_iff bs d : length bs = 6%nat →
  Date_from_mrz_yymmdd bs = Ok d ↔ real_date d ∧ 1950 ≤ year d ≤ 2049 ∧ Date_to_mrz_yymmdd d = bs.
Proof.
  intros Hl. unfold Date_from_mrz_yymmdd, Date_to_mrz_yymmdd.
  destruct (cut3_pieces 2 4 6 bs) as (a & b & c & -> & -> & -> & -> & Ha & Hb & Hc); [lia|done|].
  cbv zeta. rewrite check_then. split.
  - intros (Hd & Hnew). apply Forall_app in Hd as [Hda Hd]. apply Forall_app in Hd as [Hdb Hdc].
    rewrite !parse_u8_digits in Hnew by done. apply Date_new_Ok in Hnew as (-> & Hr). cbn [year month day].
    pose proof (dec_value_bound a Hda) as Hv. unfold len in Hv. rewrite Ha in Hv. change (10 ^ Z.of_nat 2) with 100 in Hv.
    split; [done|]. rewrite !dec_pad_value by (done || lia).
    destruct (Z.ltb_spec (dec_value a) 50).
    + split; [lia|]. rewrite <- (Z.mod_unique _ 100 20 (dec_value a)) by lia. by rewrite dec_pad_value by (done || lia).
    + split; [lia|]. rewrite <- (Z.mod_unique _ 100 19 (dec_value a)) by lia. by rewrite dec_pad_value by (done || lia).
  - intros (Hr & Hy & Heq). pose proof (real_date_ranges d Hr) as (_ & Hrm & Hrd).
    assert (0 ≤ year d mod 100 < 10 ^ 2) as Hry by (apply Z.mod_pos_bound; lia).
    destruct (dec_pad_spec 2 (year d mod 100)) as (Hdy & Hly & Hvy); [done|lia|].
    destruct (dec_pad_spec 2 (month d)) as (Hdm & Hlm & Hvm); [done|lia|].
    destruct (dec_pad_spec 2 (day d)) as (Hdd & Hld & Hvd); [done|lia|].
    apply app3_eq in Heq as (<- & <- & <-); [|lia..].
    split; [apply Forall_app_2; [done|by apply Forall_app_2]|]. rewrite !parse_u8_digits by done. rewrite Hvy, Hvm, Hvd.
    apply Date_new_Ok. split; [|done]. destruct d as [y m dd]. cbn [year month day] in *. f_equal.
    pose proof (Z.div_mod y 100). assert (y / 100 = 19 ∨ y / 100 = 20) by lia.
    destruct (Z.ltb_spec (y mod 100) 50); lia.
Qed.

Lemma length_10 (s : bytes) : length s = 10%nat →
  ∃ a x b y c, s = a ++ [x] ++ b ++ [y] ++ c ∧ length a = 4%nat ∧ length b = 2%nat ∧ length c = 2%nat.
Proof.
  intros Hl. do 10 (destruct s as [|? s]; [done|]). destruct s; [|done].
  by eexists [_; _; _; _], _, [_; _], _, [_; _].
Qed.

Lemma Date_fmt_length d : real_date d → length (Date_fmt d) = 10%nat.
Proof.
  intros Hr. pose proof (real_date_ranges d Hr) as (Hry & Hrm & Hrd). unfold Date_fmt. rewrite !length_app.
  destruct (dec_pad_spec 4 (year d)) as (_ & -> & _); [done|lia|].
  destruct (dec_pad_spec 2 (month d)) as (_ & -> & _); [done|lia|].
  by destruct (dec_pad_spec 2 (day d)) as (_ & -> & _); [done|lia|].
Qed.

Lemma iso_iff s d : Date_from_iso_date_string s = Ok d ↔ real_date d ∧ Date_fmt d = s.
Proof.
  unfold Date_from_iso_date_string. cbv zeta. destruct (Z.eqb_spec (len s) 10) as [Hl|Hl]; cbn [negb].
  2:{ split; [done|]. intros (Hr & <-). pose proof (Date_fmt_length d Hr). unfold len in Hl. lia. }
  destruct (length_10 s) as (a & x & b & y & c & -> & Ha & Hb & Hc); [unfold len in Hl; lia|].
  set (t := a ++ [x] ++ b ++ [y] ++ c).
  assert (slice 0 4 t = Some a) as -> by (apply (slice_app_exact 0 4 []); cbn; lia).
  assert (t !! 4%nat = Some x) as -> by (apply (list_lookup_middle a); lia).
  assert (slice 5 7 t = Some b) as ->.
  { subst t. rewrite (app_assoc a). apply slice_app_exact; rewrite length_app; cbn; lia. }
  assert (t !! 7%nat = Some y) as ->.
  { subst t. rewrite (app_assoc [x]), (app_assoc a). apply list_lookup_middle. rewrite !length_app. cbn. lia. }
  assert (slice 8 10 t = Some c) as ->.
  { transitivity (slice 8 10 ((a ++ [x] ++ b ++ [y]) ++ c ++ [])); [by rewrite app_nil_r, <- !app_assoc|].
    apply slice_app_exact; rewrite !length_app; cbn; lia. }
  subst t. cbn [ok_or result_bind].
  unfold Date_fmt. destruct (Z.eqb_spec x 0x2D) as [->|Hx]; cbn [negb].
  2:{ split; [done|]. intros (Hr & Heq). apply real_date_ranges in Hr as (Hry & _).
      apply app_inj_1 in Heq as [_ Heq]; [by injection Heq|]. destruct (dec_pad_spec 4 (year d)) as (_ & -> & _); [done|lia|done]. }
  destruct (Z.eqb_spec y 0x2D) as [->|Hy]; cbn [negb].
  2:{ split; [done|]. intros (Hr & Heq). apply real_date_ranges in Hr as (Hry & Hrm & _).
      apply app_inj_1 in Heq as [_ Heq]; [|destruct (dec_pad_spec 4 (year d)) as (_ & -> & _); [done|lia|done]].
      apply app_inj_1 in Heq as [_ Heq]; [|done].
      apply app_inj_1 in Heq as [_ Heq]; [by injection Heq|]. destruct (dec_pad_spec 2 (month d)) as (_ & -> & _); [done|lia|done]. }
  rewrite !check_then. split.
  - intros (Hda & Hdb & Hdc & Hnew). apply date_fields in Hnew as (Hr & -> & -> & ->); [done|done..|].
    by repeat apply Forall_app_2.
  - intros (Hr & Heq). pose proof (real_date_ranges d Hr) as (Hry & Hrm & Hrd).
    destruct (dec_pad_spec 4 (year d)) as (Hdy & Hly & _); [done|lia|].
    destruct (dec_pad_spec 2 (month d)) as (Hdm & Hlm & _); [done|lia|].
    destruct (dec_pad_spec 2 (day d)) as (Hdd & Hld & _); [done|lia|].
    apply app_inj_1 in Heq as [<- Heq]; [|congruence]. apply app_inj_1 in Heq as [_ Heq]; [|done].
    apply app_inj_1 in Heq as [<- Heq]; [|congruence]. apply app_inj_1 in Heq as [_ <-]; [|done].
    do 3 (split; [done|]). apply date_fields; [done..| |done]. apply Forall_app_2; [done|by apply Forall_app_2].
Qed.

(** A time of day, where a minute may have a leap second. *)
Definition day_time (h m s : Z) : Prop := 0 ≤ h ≤ 23 ∧ 0 ≤ m ≤ 59 ∧ 0 ≤ s ≤ 60.
Definition day_offset (o : TimeOffset) : Prop :=
  match o with To_Plus h m | To_Minus h m => h ≤ 14 ∧ m ≤ 59 | _ => True end.

Lemma DateTime_new_Ok d h m s o dt :
  DateTime_new d h m s o = Ok dt ↔ dt = mkDateTime d h m s o ∧ h ≤ 23 ∧ m ≤ 59 ∧ s ≤ 60 ∧ day_offset o.
Proof.
  unfold DateTime_new. destruct (Z.ltb_spec 23 h); [split; [done|lia]|]. destruct (Z.ltb_spec 59 m); [split; [done|lia]|].
  destruct (Z.ltb_spec 60 s); [split; [done|lia]|].
  assert (validate_offset o = Ok tt ↔ day_offset o) as Ho.
  { destruct o as [| |hh mm|hh mm]; cbn; try done;
      (destruct (Z.ltb_spec 14 hh); [split; [done|lia]|]; destruct (Z.ltb_spec 59 mm); [split; [done|lia]|]; split; [lia|done]). }
  destruct (validate_offset o) as [[]|e|]; cbn [result_bind].
  - split; [intros <-%Ok_inj; repeat (split; [done|]); by apply Ho|by intros (-> & _)].
  - split; [done|]. intros (_ & _ & _ & _ & Hoff). by apply Ho in Hoff.
  - split; [done|]. intros (_ & _ & _ & _ & Hoff). by apply Ho in Hoff.
Qed.

(** The fourteen digits of an instant. *)
Definition timestamp_text (dt : DateTime) : bytes :=
  Date_to_yyyymmdd (date dt) ++ dec_pad 2 (hour dt) ++ dec_pad 2 (minute dt) ++ dec_pad 2 (second dt).

Lemma length_14 (s : bytes) : length s = 14%nat →
  ∃ a b c d e f, s = (a ++ b ++ c) ++ d ++ e ++ f ∧ sub 0 4 s = a ∧ sub 4 6 s = b ∧ sub 6 8 s = c ∧ sub 8 10 s = d ∧
    sub 10 12 s = e ∧ sub 12 14 s = f ∧
    length a = 4%nat ∧ length b = 2%nat ∧ length c = 2%nat ∧ length d = 2%nat ∧ length e = 2%nat ∧ length f = 2%nat.
Proof.
  intros Hl. do 14 (destruct s as [|? s]; [done|]). destruct s; [|done].
  by eexists [_; _; _; _], [_; _], [_; _], [_; _], [_; _], [_; _].
Qed.

Lemma timestamp_iff bs dt : length bs = 14%nat →
  DateTime_from_yyyymmddhhmmss bs = Ok dt ↔
  real_date (date dt) ∧ day_time (hour dt) (minute dt) (second dt) ∧ offset dt = To_Unspecified ∧ timestamp_text dt = bs.
Proof.
  intros Hl. unfold DateTime_from_yyyymmddhhmmss, timestamp_text, day_time.
  destruct (length_14 bs Hl) as (a & b & c & d & e & f & Hs & -> & -> & -> & -> & -> & -> & Ha & Hb & Hc & Hd & He & Hf).
  subst bs. clear Hl. rewrite check_then. split.
  - intros (Hdig & Hnew). apply Forall_app in Hdig as [Habc Hdef].
    apply Forall_app in Hdef as [Hdd Hef]. apply Forall_app in Hef as [Hde Hdf].
    apply result_bind_inv_ok in Hnew as (x & Hx & Hnew). apply date_fields in Hx as (Hr & Hy & Hm & Hdy); [|done..].
    rewrite !parse_u8_digits in Hnew by done. apply DateTime_new_Ok in Hnew as (-> & Hh & Hmi & Hsec & _).
    cbn [date hour minute second offset]. pose proof (dec_value_bound d Hdd). pose proof (dec_value_bound e Hde).
    pose proof (dec_value_bound f Hdf). split; [done|]. split; [lia|]. split; [done|].
    rewrite !dec_pad_value by (done || lia). unfold Date_to_yyyymmdd. by rewrite Hy, Hm, Hdy.
  - intros (Hr & (Hh & Hm & Hsec) & Ho & Heq).
    destruct (dec_pad_spec 2 (hour dt)) as (Hdh & Hlh & Hvh); [change (10 ^ Z.of_nat 2) with 100; lia|lia|].
    destruct (dec_pad_spec 2 (minute dt)) as (Hdm & Hlm & Hvm); [change (10 ^ Z.of_nat 2) with 100; lia|lia|].
    destruct (dec_pad_spec 2 (second dt)) as (Hds & Hls & Hvs); [change (10 ^ Z.of_nat 2) with 100; lia|lia|].
    assert (Date_to_yyyymmdd (date dt) = a ++ b ++ c ∧ dec_pad 2 (hour dt) = d ∧ dec_pad 2 (minute dt) = e
            ∧ dec_pad 2 (second dt) = f) as (Hdt & <- & <- & <-).
    { apply app_inj_2 in Heq as [-> Heq]; [|rewrite !length_app; lia]. split; [done|].
      by apply app3_eq in Heq; [|lia..]. }
    assert (check_ascii_digits (a ++ b ++ c) "" 0 = Ok tt ∧
            Date_new (parse_u16 a) (parse_u8 b) (parse_u8 c) = Ok (date dt)) as [Hdig Hnew].
    { rewrite check_ascii_digits_spec. apply (check_then _ "" 0). by apply date_of_fields. }
    apply check_ascii_digits_spec in Hdig.
    split; [apply Forall_app_2; [done|]; apply Forall_app_2; [done|by apply Forall_app_2]|].
    rewrite Hnew. cbn [result_bind]. rewrite !parse_u8_digits by done. rewrite Hvh, Hvm, Hvs. apply DateTime_new_Ok.
    split; [destruct dt; cbn [date hour minute second offset] in *; by subst|]. split; [lia|]. split; [lia|]. split; [lia|done].
Qed.

(** ** Properties *)

(** The readers of dates are exact. Each accepts precisely the texts its writer
    makes of a real date of the Gregorian calendar in the years 1900 to 2100 (of 1950
    to 2049 where the century is left out), so reading inverts writing and nothing else
    is read; the fourteen-digit form adds a time of day, with leap seconds, and leaves
    the offset open. *)
Theorem date_readers_exact :
  (∀ bs d, length bs = 8%nat → Date_from_yyyymmdd bs = Ok d ↔ real_date d ∧ Date_to_yyyymmdd d = bs) ∧
  (∀ bs d, length bs = 6%nat →
     Date_from_mrz_yymmdd bs = Ok d ↔ real_date d ∧ 1950 ≤ year d ≤ 2049 ∧ Date_to_mrz_yymmdd d = bs) ∧
  (∀ s d, Date_from_iso_date_string s = Ok d ↔ real_date d ∧ Date_fmt d = s) ∧
  (∀ bs dt, length bs = 14%nat →
     DateTime_from_yyyymmddhhmmss bs = Ok dt ↔
     real_date (date dt) ∧ day_time (hour dt) (minute dt) (second dt) ∧ offset dt = To_Unspecified ∧ timestamp_text dt = bs).
Proof.
  split; [exact yyyymmdd_iff|]. split; [exact mrz_iff|]. split; [exact iso_iff|exact timestamp_iff].
Qed.

Lemma date_readers_exact_witness :
  Date_from_yyyymmdd (bytes_of_string "20240229") = Ok (mkDate 2024 2 29) ∧
  Date_to_yyyymmdd (mkDate 2024 2 29) = bytes_of_string "20240229".
Proof.
  split; [by vm_compute|]. apply (proj1 date_readers_exact (bytes_of_string "20240229") (mkDate 2024 2 29)); by vm_compute.
Defined.

(** The twenty-ninth of February of a common year, a year out of range and a leap
    second. *)
Example common_february : Date_from_yyyymmdd (bytes_of_string "19000229") = Err (Ie_DayOutOfRange 29 2 1900).
Proof. by vm_compute. Qed.
Example early_year : Date_from_yyyymmdd (bytes_of_string "18991231") = Err (Ie_YearOutOfRange 1899 1900 2100).
Proof. by vm_compute. Qed.
Example leap_second_read :
  DateTime_from_yyyymmddhhmmss (bytes_of_string "20161231235960")
  = Ok (mkDateTime (mkDate 2016 12 31) 23 59 60 To_Unspecified).
Proof. by vm_compute. Qed.
(** An offset of fourteen hours west is accepted like one east. *)
Example west_offset_accepted d :
  DateTime_new d 0 0 0 (To_Minus 14 0) = Ok (mkDateTime d 0 0 0 (To_Minus 14 0)).
Proof. done. Qed.
