(* ===== verification/Oid.v ===== *)
(** Object identifiers: crates/refineid-lib-core/src/oid.rs. The check of a value, its
    dotted text and the identifiers the library knows. The crate const_oid, which turns
    a dotted text into octets when the program is compiled, is the class [ConstOid]. *)

From S2P Require Import Prelude Decimal.

Record Oid := mkOid { Oid_as_bytes : bytes }.
#[export] Instance Oid_eq_dec : EqDecision Oid.
Proof. solve_decision. Defined.

Inductive OidError := Oe_Empty | Oe_UnterminatedArc.

Definition Oid_const_new (bs : bytes) : Oid := mkOid bs.

Definition Oid_new (bs : bytes) : result OidError Oid :=
  match list.last bs with
  | None => Err Oe_Empty
  | Some last => if negb (Z.land last 0x80 =? 0) then Err Oe_UnterminatedArc else Ok (mkOid bs)
  end.

Definition ARC_BASE : Z := 40.
Definition ARC1_CLAMP : Z := 2.
Definition ARC2_BIAS : Z := 80.
Definition ARC_SHIFT : Z := 7.
Definition CONT_MASK : Z := 0x7F.
Definition END_MASK : Z := 0x80.

(** One round of the loop over the octets after the first: the accumulator is a
    [u128], whose shift drops the high bits. *)
Definition fmt_octet (s : Z * bytes) (byte : Z) : Z * bytes :=
  let '(acc, out) := s in
  let acc := Z.lor (Z.shiftl acc ARC_SHIFT mod 2 ^ 128) (Z.land byte CONT_MASK) in
  if Z.land byte END_MASK =? 0 then (0, out ++ bytes_of_string "." ++ dec acc) else (acc, out).

Definition Oid_fmt (oid : Oid) : bytes :=
  match Oid_as_bytes oid with
  | [] => bytes_of_string "(empty-oid)"
  | first :: rest =>
      let arc1_raw := first / ARC_BASE in
      let arc2_raw := first mod ARC_BASE in
      let '(arc1, arc2) := if ARC1_CLAMP <? arc1_raw then (ARC1_CLAMP, Z.max (first - ARC2_BIAS) 0) else (arc1_raw, arc2_raw) in
      (fold_left fmt_octet rest (0, dec arc1 ++ bytes_of_string "." ++ dec arc2)).2
  end.

(** ** What X.690 says *)

(** An arc in base 128, all octets but the last marked. *)
Fixpoint continued (fuel : nat) (n : Z) : bytes :=
  match fuel with
  | O => []
  | S fuel => if n <? 128 then [128 + n] else continued fuel (n / 128) ++ [128 + n mod 128]
  end.
Definition arc_octets (n : Z) : bytes :=
  if n <? 128 then [n] else continued (S (Z.to_nat (Z.log2 n))) (n / 128) ++ [n mod 128].

Record arcs := mkArcs { arc_1 : Z; arc_2 : Z; more_arcs : list Z }.
Definition arcs_valid (a : arcs) : Prop :=
  0 ≤ arc_1 a ≤ 2 ∧ 0 ≤ arc_2 a ∧ (arc_1 a < 2 → arc_2 a < 40) ∧ Forall (λ n, 0 ≤ n < 2 ^ 32) (more_arcs a).
Definition encode_arcs (a : arcs) : bytes := arc_octets (40 * arc_1 a + arc_2 a) ++ flat_map arc_octets (more_arcs a).
Definition dotted_arc (n : Z) : bytes := bytes_of_string "." ++ dec n.
Definition dotted (a : arcs) : bytes := dec (arc_1 a) ++ dotted_arc (arc_2 a) ++ flat_map dotted_arc (more_arcs a).

(** [const_oid::ObjectIdentifier::new_unwrap(dotted).as_bytes()]. *)
Class ConstOid := new_unwrap : string → bytes.
Class ConstOidLaws `{ConstOid} :=
  new_unwrap_encodes s a : bytes_of_string s = dotted a → arcs_valid a → new_unwrap s = encode_arcs a.

(** ** The known identifiers *)

Section known.
Context `{ConstOid}.

Definition oid_dotted (dotted : string) : Oid := Oid_const_new (new_unwrap dotted).

Definition AD_CA_ISSUERS : Oid := oid_dotted "1.3.6.1.5.5.7.48.2".
Definition AD_OCSP : Oid := oid_dotted "1.3.6.1.5.5.7.48.1".
Definition AUTHORITY_INFO_ACCESS : Oid := oid_dotted "1.3.6.1.5.5.7.1.1".
Definition BASIC_CONSTRAINTS : Oid := oid_dotted "2.5.29.19".
Definition BRAINPOOL_P256R1 : Oid := oid_dotted "1.3.36.3.3.2.8.1.1.7".
Definition BRAINPOOL_P384R1 : Oid := oid_dotted "1.3.36.3.3.2.8.1.1.11".
Definition COMMON_NAME : Oid := oid_dotted "2.5.4.3".
Definition COUNTRY_NAME : Oid := oid_dotted "2.5.4.6".
Definition CRL_DISTRIBUTION_POINTS : Oid := oid_dotted "2.5.29.31".
Definition CRL_REASON : Oid := oid_dotted "2.5.29.21".
Definition ECDSA_WITH_SHA256 : Oid := oid_dotted "1.2.840.10045.4.3.2".
Definition ECDSA_WITH_SHA384 : Oid := oid_dotted "1.2.840.10045.4.3.3".
Definition ECDSA_WITH_SHA512 : Oid := oid_dotted "1.2.840.10045.4.3.4".
Definition EC_PUBLIC_KEY : Oid := oid_dotted "1.2.840.10045.2.1".
Definition EXT_KEY_USAGE : Oid := oid_dotted "2.5.29.37".
Definition GIVEN_NAME : Oid := oid_dotted "2.5.4.42".
Definition ORGANIZATION_NAME : Oid := oid_dotted "2.5.4.10".
Definition ICAO_LDS_SECURITY_OBJECT : Oid := oid_dotted "2.23.136.1.1.1".
Definition ICAO_ML_SIGNER : Oid := oid_dotted "2.23.136.1.1.3".
Definition KEY_USAGE : Oid := oid_dotted "2.5.29.15".
Definition KP_CLIENT_AUTH : Oid := oid_dotted "1.3.6.1.5.5.7.3.2".
Definition KP_CODE_SIGNING : Oid := oid_dotted "1.3.6.1.5.5.7.3.3".
Definition KP_EMAIL_PROTECTION : Oid := oid_dotted "1.3.6.1.5.5.7.3.4".
Definition KP_OCSP_SIGNING : Oid := oid_dotted "1.3.6.1.5.5.7.3.9".
Definition KP_SERVER_AUTH : Oid := oid_dotted "1.3.6.1.5.5.7.3.1".
Definition KP_TIME_STAMPING : Oid := oid_dotted "1.3.6.1.5.5.7.3.8".
Definition RSA_ENCRYPTION : Oid := oid_dotted "1.2.840.113549.1.1.1".
Definition SECP256R1 : Oid := oid_dotted "1.2.840.10045.3.1.7".
Definition SECP384R1 : Oid := oid_dotted "1.3.132.0.34".
Definition SERIAL_NUMBER : Oid := oid_dotted "2.5.4.5".
Definition SHA256_WITH_RSA : Oid := oid_dotted "1.2.840.113549.1.1.11".
Definition SHA1 : Oid := oid_dotted "1.3.14.3.2.26".
Definition SHA384_WITH_RSA : Oid := oid_dotted "1.2.840.113549.1.1.12".
Definition SHA512_WITH_RSA : Oid := oid_dotted "1.2.840.113549.1.1.13".
Definition SUBJECT_ALT_NAME : Oid := oid_dotted "2.5.29.17".
Definition SURNAME : Oid := oid_dotted "2.5.4.4".
Definition SHA256 : Oid := oid_dotted "2.16.840.1.101.3.4.2.1".
Definition SHA384 : Oid := oid_dotted "2.16.840.1.101.3.4.2.2".
Definition SHA512 : Oid := oid_dotted "2.16.840.1.101.3.4.2.3".
Definition DATA : Oid := oid_dotted "1.2.840.113549.1.7.1".
Definition SIGNED_DATA : Oid := oid_dotted "1.2.840.113549.1.7.2".
Definition CONTENT_TYPE : Oid := oid_dotted "1.2.840.113549.1.9.3".
Definition MESSAGE_DIGEST : Oid := oid_dotted "1.2.840.113549.1.9.4".
Definition BASIC_OCSP_RESPONSE : Oid := oid_dotted "1.3.6.1.5.5.7.48.1.1".
Definition PRIME_FIELD : Oid := oid_dotted "1.2.840.10045.1.1".
Definition CSCA_MASTER_LIST : Oid := oid_dotted "2.23.136.1.1.2".
Definition PACE_ECDH_GM_AES_CBC_CMAC_256 : Oid := oid_dotted "0.4.0.127.0.7.2.2.4.2.4".

(** Every known identifier with its arcs. *)
Definition known : list (Oid * arcs) :=
  [(AD_CA_ISSUERS, mkArcs 1 3 [6; 1; 5; 5; 7; 48; 2]);
   (AD_OCSP, mkArcs 1 3 [6; 1; 5; 5; 7; 48; 1]);
   (AUTHORITY_INFO_ACCESS, mkArcs 1 3 [6; 1; 5; 5; 7; 1; 1]);
   (BASIC_CONSTRAINTS, mkArcs 2 5 [29; 19]);
   (BRAINPOOL_P256R1, mkArcs 1 3 [36; 3; 3; 2; 8; 1; 1; 7]);
   (BRAINPOOL_P384R1, mkArcs 1 3 [36; 3; 3; 2; 8; 1; 1; 11]);
   (COMMON_NAME, mkArcs 2 5 [4; 3]);
   (COUNTRY_NAME, mkArcs 2 5 [4; 6]);
   (CRL_DISTRIBUTION_POINTS, mkArcs 2 5 [29; 31]);
   (CRL_REASON, mkArcs 2 5 [29; 21]);
   (ECDSA_WITH_SHA256, mkArcs 1 2 [840; 10045; 4; 3; 2]);
   (ECDSA_WITH_SHA384, mkArcs 1 2 [840; 10045; 4; 3; 3]);
   (ECDSA_WITH_SHA512, mkArcs 1 2 [840; 10045; 4; 3; 4]);
   (EC_PUBLIC_KEY, mkArcs 1 2 [840; 10045; 2; 1]);
   (EXT_KEY_USAGE, mkArcs 2 5 [29; 37]);
   (GIVEN_NAME, mkArcs 2 5 [4; 42]);
   (ORGANIZATION_NAME, mkArcs 2 5 [4; 10]);
   (ICAO_LDS_SECURITY_OBJECT, mkArcs 2 23 [136; 1; 1; 1]);
   (ICAO_ML_SIGNER, mkArcs 2 23 [136; 1; 1; 3]);
   (KEY_USAGE, mkArcs 2 5 [29; 15]);
   (KP_CLIENT_AUTH, mkArcs 1 3 [6; 1; 5; 5; 7; 3; 2]);
   (KP_CODE_SIGNING, mkArcs 1 3 [6; 1; 5; 5; 7; 3; 3]);
   (KP_EMAIL_PROTECTION, mkArcs 1 3 [6; 1; 5; 5; 7; 3; 4]);
   (KP_OCSP_SIGNING, mkArcs 1 3 [6; 1; 5; 5; 7; 3; 9]);
   (KP_SERVER_AUTH, mkArcs 1 3 [6; 1; 5; 5; 7; 3; 1]);
   (KP_TIME_STAMPING, mkArcs 1 3 [6; 1; 5; 5; 7; 3; 8]);
   (RSA_ENCRYPTION, mkArcs 1 2 [840; 113549; 1; 1; 1]);
   (SECP256R1, mkArcs 1 2 [840; 10045; 3; 1; 7]);
   (SECP384R1, mkArcs 1 3 [132; 0; 34]);
   (SERIAL_NUMBER, mkArcs 2 5 [4; 5]);
   (SHA256_WITH_RSA, mkArcs 1 2 [840; 113549; 1; 1; 11]);
   (SHA1, mkArcs 1 3 [14; 3; 2; 26]);
   (SHA384_WITH_RSA, mkArcs 1 2 [840; 113549; 1; 1; 12]);
   (SHA512_WITH_RSA, mkArcs 1 2 [840; 113549; 1; 1; 13]);
   (SUBJECT_ALT_NAME, mkArcs 2 5 [29; 17]);
   (SURNAME, mkArcs 2 5 [4; 4]);
   (SHA256, mkArcs 2 16 [840; 1; 101; 3; 4; 2; 1]);
   (SHA384, mkArcs 2 16 [840; 1; 101; 3; 4; 2; 2]);
   (SHA512, mkArcs 2 16 [840; 1; 101; 3; 4; 2; 3]);
   (DATA, mkArcs 1 2 [840; 113549; 1; 7; 1]);
   (SIGNED_DATA, mkArcs 1 2 [840; 113549; 1; 7; 2]);
   (CONTENT_TYPE, mkArcs 1 2 [840; 113549; 1; 9; 3]);
   (MESSAGE_DIGEST, mkArcs 1 2 [840; 113549; 1; 9; 4]);
   (BASIC_OCSP_RESPONSE, mkArcs 1 3 [6; 1; 5; 5; 7; 48; 1; 1]);
   (PRIME_FIELD, mkArcs 1 2 [840; 10045; 1; 1]);
   (CSCA_MASTER_LIST, mkArcs 2 23 [136; 1; 1; 2]);
   (PACE_ECDH_GM_AES_CBC_CMAC_256, mkArcs 0 4 [0; 127; 0; 7; 2; 2; 4; 2; 4])].
End known.

(** ** Lemmas *)

Lemma mask_octets b : is_byte b → Z.land b CONT_MASK = b mod 128 ∧ (Z.land b END_MASK =? 0) = (b <? 128).
Proof.
  intros Hb. assert ((Z.land b CONT_MASK =? b mod 128) && Bool.eqb (Z.land b END_MASK =? 0) (b <? 128) = true) as Ht.
  { apply (byte_forall (λ b, (Z.land b CONT_MASK =? b mod 128) && Bool.eqb (Z.land b END_MASK =? 0) (b <? 128))); [by vm_compute|done]. }
  apply andb_true_iff in Ht as [->%Z.eqb_eq ->%eqb_prop]. done.
Qed.

(** One octet of an arc that fits. *)
Lemma fmt_octet_step acc out b : 0 ≤ acc < 2 ^ 121 → is_byte b →
  fmt_octet (acc, out) b =
    let n := acc * 128 + b mod 128 in if b <? 128 then (0, out ++ dotted_arc n) else (n, out).
Proof.
  intros Hacc Hb. unfold fmt_octet, dotted_arc, ARC_SHIFT. destruct (mask_octets b Hb) as [-> ->].
  rewrite Z.mod_small.
  - rewrite lor_shiftl; [|lia|change (2 ^ 7) with 128; apply Z.mod_pos_bound; lia]. done.
  - rewrite Z.shiftl_mul_pow2 by lia. change (2 ^ 128) with (2 ^ 121 * 2 ^ 7). split; [lia|]. apply Z.mul_lt_mono_pos_r; lia.
Qed.

Lemma fmt_continued fuel n out : 0 ≤ n < 2 ^ 121 → Z.log2 n < Z.of_nat fuel →
  fold_left fmt_octet (continued fuel n) (0, out) = (n, out).
Proof.
  revert n. induction fuel as [|fuel IH]; intros n Hn Hf; [pose proof (Z.log2_nonneg n); lia|]. cbn [continued].
  destruct (Z.ltb_spec n 128).
  - cbn [fold_left]. rewrite fmt_octet_step by (unfold is_byte; lia). cbv zeta.
    destruct (Z.ltb_spec (128 + n) 128); [lia|]. f_equal. rewrite <- (Z.mod_unique (128 + n) 128 1 n) by lia. lia.
  - rewrite fold_left_app. pose proof (Z.div_mod n 128). pose proof (Z.mod_pos_bound n 128).
    pose proof (Z.div_le_lower_bound n 128 1).
    pose proof (Z.log2_le_mono (2 * (n / 128)) n) as Hle. rewrite Z.log2_double in Hle by lia.
    rewrite IH by lia. cbn [fold_left]. rewrite fmt_octet_step by (unfold is_byte; lia). cbv zeta.
    destruct (Z.ltb_spec (128 + n mod 128) 128); [lia|]. f_equal.
    rewrite <- (Z.mod_unique (128 + n mod 128) 128 1 (n mod 128)) by lia. lia.
Qed.

Lemma fmt_arc n out : 0 ≤ n < 2 ^ 121 → fold_left fmt_octet (arc_octets n) (0, out) = (0, out ++ dotted_arc n).
Proof.
  intros Hn. unfold arc_octets. destruct (Z.ltb_spec n 128).
  - cbn [fold_left]. rewrite fmt_octet_step by (unfold is_byte; lia). cbv zeta.
    destruct (Z.ltb_spec n 128); [|lia]. by rewrite Z.mod_small by lia.
  - rewrite fold_left_app. pose proof (Z.div_mod n 128). pose proof (Z.mod_pos_bound n 128).
    pose proof (Z.log2_nonneg n). pose proof (Z.log2_le_mono (n / 128) n).
    rewrite fmt_continued by lia. cbn [fold_left]. rewrite fmt_octet_step by (unfold is_byte; lia). cbv zeta.
    destruct (Z.ltb_spec (n mod 128) 128); [|lia]. rewrite (Z.mod_small (n mod 128)) by lia. do 3 f_equal. lia.
Qed.

Lemma fmt_arcs ns out : Forall (λ n, 0 ≤ n < 2 ^ 32) ns →
  fold_left fmt_octet (flat_map arc_octets ns) (0, out) = (0, out ++ flat_map dotted_arc ns).
Proof.
  intros Hns. revert out. induction Hns as [|n ns Hn _ IH]; intros out; cbn [flat_map]; [by rewrite app_nil_r|].
  rewrite fold_left_app, fmt_arc by lia. by rewrite IH, <- app_assoc.
Qed.

(** The text of an encoded identifier whose first two arcs share one octet. *)
Lemma Oid_fmt_encoded a : arcs_valid a → 40 * arc_1 a + arc_2 a < 128 → Oid_fmt (mkOid (encode_arcs a)) = dotted a.
Proof.
  intros (H1 & H2 & H12 & Hmore) Hone. unfold encode_arcs, arc_octets at 1, dotted.
  destruct (Z.ltb_spec (40 * arc_1 a + arc_2 a) 128); [|lia]. unfold Oid_fmt. cbn [Oid_as_bytes app].
  unfold ARC_BASE, ARC1_CLAMP, ARC2_BIAS.
  assert ((if 2 <? (40 * arc_1 a + arc_2 a) / 40 then (2, Z.max (40 * arc_1 a + arc_2 a - 80) 0)
           else ((40 * arc_1 a + arc_2 a) / 40, (40 * arc_1 a + arc_2 a) mod 40)) = (arc_1 a, arc_2 a)) as ->.
  { destruct (decide (arc_2 a < 40)).
    - rewrite <- (Z.div_unique _ 40 (arc_1 a) (arc_2 a)), <- (Z.mod_unique _ 40 (arc_1 a) (arc_2 a)) by lia.
      destruct (Z.ltb_spec 2 (arc_1 a)); [lia|done].
    - assert (arc_1 a = 2) as -> by lia.
      rewrite <- (Z.div_unique _ 40 3 (arc_2 a - 40)) by lia. cbn [Z.ltb Z.compare Pos.compare]. f_equal. lia. }
  rewrite fmt_arcs by done. cbn [snd]. unfold dotted_arc at 2. by rewrite <- !app_assoc.
Qed.

Lemma arc_octets_last n : 0 ≤ n → ∃ l x, arc_octets n = l ++ [x] ∧ 0 ≤ x < 128.
Proof.
  intros Hn. unfold arc_octets. destruct (Z.ltb_spec n 128); [by exists [], n|].
  eexists _, _. split; [done|]. apply Z.mod_pos_bound. lia.
Qed.

Lemma encode_arcs_last a : arcs_valid a → ∃ l x, encode_arcs a = l ++ [x] ∧ 0 ≤ x < 128.
Proof.
  intros (H1 & H2 & _ & Hmore). unfold encode_arcs. destruct (more_arcs a) as [|n ns _] eqn:Hns using rev_ind.
  - cbn [flat_map]. rewrite app_nil_r. apply arc_octets_last. lia.
  - rewrite flat_map_app. cbn [flat_map]. rewrite app_nil_r, app_assoc.
    apply Forall_app in Hmore as [_ Hn]. apply Forall_cons_1 in Hn as [Hn _].
    destruct (arc_octets_last n) as (l & x & -> & Hx); [lia|]. rewrite app_assoc. eauto.
Qed.

Lemma Oid_new_encoded a : arcs_valid a → Oid_new (encode_arcs a) = Ok (mkOid (encode_arcs a)).
Proof.
  intros (l & x & Heq & Hx)%encode_arcs_last. unfold Oid_new. rewrite Heq at 1. rewrite list.last_snoc.
  change 0x80 with END_MASK. destruct (mask_octets x) as [_ ->]; [unfold is_byte; lia|].
  by destruct (Z.ltb_spec x 128); [|lia].
Qed.

(** ** An instance: the dotted text is split at its dots *)

Module dotted_texts.
Fixpoint split_dots (cur bs : bytes) : list bytes :=
  match bs with
  | [] => [cur]
  | b :: bs => if b =? 0x2E then cur :: split_dots [] bs else split_dots (cur ++ [b]) bs
  end.

#[export] Instance texts : ConstOid := λ s,
  match map dec_value (split_dots [] (bytes_of_string s)) with
  | a :: b :: more => encode_arcs (mkArcs a b more)
  | _ => []
  end.

Lemma split_digits cur d rest : digits d → split_dots cur (d ++ rest) = split_dots (cur ++ d) rest.
Proof.
  intros Hd. revert cur. induction Hd as [|b d Hb _ IH]; intros cur; cbn [app split_dots]; [by rewrite app_nil_r|].
  apply is_ascii_digit_spec in Hb. destruct (Z.eqb_spec b 0x2E); [lia|]. by rewrite IH, <- app_assoc.
Qed.

Lemma split_dotted n ns : Forall (λ n, 0 ≤ n) (n :: ns) →
  split_dots [] (dec n ++ flat_map dotted_arc ns) = dec n :: map dec ns.
Proof.
  revert n. induction ns as [|m ns IH]; intros n (Hn & Hns)%Forall_cons_1; rewrite split_digits by (by apply dec_spec); [done|].
  cbn [flat_map dotted_arc bytes_of_string app split_dots map]. rewrite <- (IH m Hns). done.
Qed.

#[export] Instance texts_laws : ConstOidLaws.
Proof.
  intros s a Hs (H1 & H2 & _ & Hmore). unfold new_unwrap, texts. rewrite Hs.
  change (dotted a) with (dec (arc_1 a) ++ flat_map dotted_arc (arc_2 a :: more_arcs a)).
  assert (Forall (λ n, 0 ≤ n) (arc_1 a :: arc_2 a :: more_arcs a)) as Hall.
  { repeat (apply Forall_cons_2; [lia|]). eapply Forall_impl; [|exact Hmore]. cbn. lia. }
  rewrite split_dotted by done. cbn [map]. rewrite map_map.
  apply Forall_cons_1 in Hall as [Ha Hall]. apply Forall_cons_1 in Hall as [Hb Hall].
  destruct (dec_spec (arc_1 a) Ha) as (_ & -> & _). destruct (dec_spec (arc_2 a) Hb) as (_ & -> & _).
  assert (map (λ n, dec_value (dec n)) (more_arcs a) = more_arcs a) as ->; [|by destruct a].
  clear -Hall. induction Hall as [|n ns Hn _ IH]; cbn [map]; [done|]. destruct (dec_spec n Hn) as (_ & -> & _). by rewrite IH.
Qed.
End dotted_texts.

Lemma Oid_new_Ok bs o : bytes_ok bs → Oid_new bs = Ok o ↔ o = mkOid bs ∧ ∃ l x, bs = l ++ [x] ∧ x < 128.
Proof.
  intros Hbs. unfold Oid_new. destruct bs as [|x l _] using rev_ind.
  - split; [done|]. by intros (_ & [|] & ? & ? & _).
  - rewrite list.last_snoc. apply Forall_app in Hbs as [_ Hx]. apply Forall_cons_1 in Hx as [Hx _].
    destruct (mask_octets x Hx) as [_ Hm]. unfold END_MASK in Hm. rewrite Hm. destruct (Z.ltb_spec x 128); cbn [negb].
    + split; [intros <-%Ok_inj; split; [done|eauto]|by intros (-> & _)].
    + split; [done|]. intros (_ & l' & y & Heq & ?). apply app_inj_2 in Heq as [_ [= ->]]; [lia|done].
Qed.

Definition arcs_ok (a : arcs) : bool :=
  (0 <=? arc_1 a) && (arc_1 a <=? 2) && (0 <=? arc_2 a) && ((2 <=? arc_1 a) || (arc_2 a <? 40))
  && forallb (λ n, (0 <=? n) && (n <? 2 ^ 32)) (more_arcs a) && (40 * arc_1 a + arc_2 a <? 128).

Lemma arcs_ok_spec a : arcs_ok a = true → arcs_valid a ∧ 40 * arc_1 a + arc_2 a < 128.
Proof.
  unfold arcs_ok, arcs_valid. rewrite !andb_true_iff, orb_true_iff, forallb_forall, !Z.leb_le, !Z.ltb_lt.
  intros (((((? & ?) & ?) & Hor) & Hall) & ?). split; [|done]. split; [lia|]. split; [lia|]. split; [lia|].
  apply List.Forall_forall. intros n Hn. specialize (Hall n Hn). lia.
Qed.

Lemma known_encoded `{ConstOid} `{!ConstOidLaws} : Forall (λ '(oid, a), oid = mkOid (encode_arcs a) ∧ arcs_ok a = true) known.
Proof.
  unfold known. repeat (apply Forall_cons_2; [split; [|by vm_compute];
    refine (f_equal mkOid (new_unwrap_encodes _ _ _ _)); [by vm_compute|apply arcs_ok_spec; by vm_compute]|]).
  done.
Qed.
Lemma known_nodup `{ConstOid} `{!ConstOidLaws} : NoDup known.*1.
Proof.
  pose proof known_encoded as Hk. assert (known.*1 = map (λ a, mkOid (encode_arcs a)) known.*2) as ->.
  { clear -Hk. induction Hk as [|[oid a] l (-> & _) _ IH]; [done|]. cbn [fmap list_fmap map fst snd]. by rewrite IH. }
  by_decide.
Qed.
(** Two known identifiers at different places of the list differ. *)
Lemma known_distinct `{ConstOid} `{!ConstOidLaws} i j a b :
  known.*1 !! i = Some a → known.*1 !! j = Some b → i ≠ j → a ≠ b.
Proof. intros Hi Hj Hij ->. by destruct Hij; apply (NoDup_lookup _ _ _ _ known_nodup Hi Hj). Qed.
(** The octets of a known identifier. *)
Lemma known_as_bytes `{ConstOid} `{!ConstOidLaws} i oid a bs : known !! i = Some (oid, a) → encode_arcs a = bs → Oid_as_bytes oid = bs.
Proof. intros Hi <-. pose proof known_encoded as Hk. by destruct (Forall_lookup_1 _ _ _ _ Hk Hi) as [-> _]. Qed.
Ltac index_of x l := match l with x :: _ => constr:(O) | _ :: ?l => let n := index_of x l in constr:(S n) end.
Ltac known_ne :=
  match goal with |- ?a ≠ ?b =>
    let l := eval cbv [known fmap list_fmap map fst] in (known.*1) in
    let i := index_of a l in let j := index_of b l in
    apply (known_distinct i j); [reflexivity|reflexivity|discriminate]
  end.
Ltac known_octets :=
  match goal with |- Oid_as_bytes ?a = _ =>
    let l := eval cbv [known fmap list_fmap map fst] in (known.*1) in
    let i := index_of a l in eapply (known_as_bytes i); [reflexivity|by vm_compute]
  end.

(** ** Properties *)

(** An object identifier is shown as what it is. The check admits exactly the
    values that are not empty and end an arc; the text of an encoded identifier whose
    first octet holds its first two arcs is its dotted form; and the known identifiers
    are the encodings of the arcs they are named by, are shown as them, pass the check
    and are all different. *)
Theorem oid_text_exact `{ConstOid} `{!ConstOidLaws} :
  (∀ bs o, bytes_ok bs → Oid_new bs = Ok o ↔ o = mkOid bs ∧ ∃ l x, bs = l ++ [x] ∧ x < 128) ∧
  (∀ a, arcs_valid a → 40 * arc_1 a + arc_2 a < 128 → Oid_fmt (mkOid (encode_arcs a)) = dotted a) ∧
  Forall (λ '(oid, a), oid = mkOid (encode_arcs a) ∧ Oid_fmt oid = dotted a ∧ Oid_new (Oid_as_bytes oid) = Ok oid) known ∧
  NoDup known.*1 ∧
  Oid_as_bytes PACE_ECDH_GM_AES_CBC_CMAC_256 = [0x04; 0x00; 0x7F; 0x00; 0x07; 0x02; 0x02; 0x04; 0x02; 0x04].
Proof.
  split; [exact Oid_new_Ok|]. split; [exact Oid_fmt_encoded|]. pose proof known_encoded as Hk. split; [|split].
  - eapply Forall_impl; [|exact Hk]. intros [oid a] (-> & [Hv Hone]%arcs_ok_spec). split; [done|].
    split; [by apply Oid_fmt_encoded|]. by apply Oid_new_encoded.
  - exact known_nodup.
  - unfold PACE_ECDH_GM_AES_CBC_CMAC_256, oid_dotted, Oid_const_new. cbn [Oid_as_bytes].
    rewrite (new_unwrap_encodes _ (mkArcs 0 4 [0; 127; 0; 7; 2; 2; 4; 2; 4])); [by vm_compute..|].
    apply arcs_ok_spec. by vm_compute.
Qed.

Lemma oid_text_exact_witness :
  Oid_new [0x2A; 0x86; 0x48] = Ok (mkOid [0x2A; 0x86; 0x48]) ∧
  Oid_fmt (mkOid (encode_arcs (mkArcs 1 2 [840; 113549]))) = bytes_of_string "1.2.840.113549".
Proof.
  destruct (@oid_text_exact dotted_texts.texts dotted_texts.texts_laws) as (Hnew & Hfmt & _). split.
  - apply (Hnew [0x2A; 0x86; 0x48]); [by_decide|]. split; [done|]. exists [0x2A; 0x86], 0x48. split; [done|lia].
  - rewrite Hfmt; [by vm_compute|apply arcs_ok_spec; by vm_compute|by vm_compute].
Defined.

(** When the first two arcs need two octets, as in 2.999.3, the text is wrong: the
    first octet alone is taken for both arcs. *)
Example two_octet_head_misread :
  encode_arcs (mkArcs 2 999 [3]) = [0x88; 0x37; 3] ∧
  Oid_fmt (mkOid [0x88; 0x37; 3]) = bytes_of_string "2.56.55.3" ∧ dotted (mkArcs 2 999 [3]) = bytes_of_string "2.999.3".
Proof. by vm_compute. Qed.
