(* ===== verification/Utf8.v ===== *)
(** Rust strings as their UTF-8 octets: [String::from_utf8_lossy] and
    [core::str::from_utf8] of the standard library, on lists of octets. *)

From S2P Require Import Prelude.

(** The continuation octets of UTF-8. *)
Definition utf8_cont (b : Z) : bool := Z.land b 0xC0 =? 0x80.
Definition within (lo hi b : Z) : bool := (lo <=? b) && (b <=? hi).

(** One step of the decoder of [String::from_utf8_lossy] on a nonempty input:
    the octets taken, and whether they are a character. *)
Definition utf8_step (l : bytes) : nat * bool :=
  match l with
  | [] => (0%nat, true)
  | b :: rest =>
      let at_ i := nth i rest 0 in
      if b <? 128 then (1%nat, true)
      else if within 0xC2 0xDF b then if utf8_cont (at_ 0%nat) then (2%nat, true) else (1%nat, false)
      else if within 0xE0 0xEF b then
        let second := if b =? 0xE0 then within 0xA0 0xBF (at_ 0%nat)
                      else if b =? 0xED then within 0x80 0x9F (at_ 0%nat)
                      else within 0x80 0xBF (at_ 0%nat) in
        if negb second then (1%nat, false)
        else if utf8_cont (at_ 1%nat) then (3%nat, true) else (2%nat, false)
      else if within 0xF0 0xF4 b then
        let second := if b =? 0xF0 then within 0x90 0xBF (at_ 0%nat)
                      else if b =? 0xF4 then within 0x80 0x8F (at_ 0%nat)
                      else within 0x80 0xBF (at_ 0%nat) in
        if negb second then (1%nat, false)
        else if negb (utf8_cont (at_ 1%nat)) then (2%nat, false)
        else if utf8_cont (at_ 2%nat) then (4%nat, true) else (3%nat, false)
      else (1%nat, false)
  end.

(** [String::from_utf8_lossy]: U+FFFD for each ill-formed run. *)
Fixpoint utf8_lossy (fuel : nat) (l : bytes) : bytes :=
  match fuel, l with
  | O, _ | _, [] => []
  | S fuel, _ =>
      let (n, valid) := utf8_step l in
      (if valid then take n l else [0xEF; 0xBF; 0xBD]) ++ utf8_lossy fuel (drop n l)
  end.
Definition String_from_utf8_lossy (l : bytes) : bytes := utf8_lossy (length l) l.


(** [core::str::from_utf8(..).is_ok()]: every step decodes a character. *)
Fixpoint utf8_run (fuel : nat) (l : bytes) : bool :=
  match fuel, l with
  | _, [] => true
  | O, _ => false
  | S fuel, _ => let (n, valid) := utf8_step l in valid && utf8_run fuel (drop n l)
  end.
Definition utf8_valid (l : bytes) : bool := utf8_run (length l) l.
Definition str_from_utf8 (l : bytes) : option bytes := if utf8_valid l then Some l else None.

Lemma str_from_utf8_valid l : utf8_valid l → str_from_utf8 l = Some l.
Proof. intros Hl. unfold str_from_utf8. by rewrite (Is_true_true_1 _ Hl). Qed.

(** [char::from_u32] on a number of 16 bits, and the octets of the character in a string. *)
Definition char_from_u16 (code : Z) : option bytes :=
  if within 0xD800 0xDFFF code then None
  else if code <? 0x80 then Some [code]
  else if code <? 0x800 then Some [0xC0 + Z.shiftr code 6; 0x80 + Z.land code 0x3F]
  else Some [0xE0 + Z.shiftr code 12; 0x80 + Z.land (Z.shiftr code 6) 0x3F; 0x80 + Z.land code 0x3F].
