(* ===== verification/CryptoCrates.v ===== *)
(** What the sources take from cryptographic crates, as classes: the hash functions of
    sha1 and sha2, and the boxed integers of crypto-bigint with their Montgomery form.
    A [BoxedUint] is an integer; the precision it is given travels with the call. The
    residues are an instance of the Montgomery form, with its laws. *)

From Stdlib Require Import Zcong Zpow_facts Znumtheory.
From S2P Require Import Prelude.

Class Sha1Hash := sha1_of : bytes → bytes.
Class Sha256Hash := sha256 : bytes → bytes.
Class Sha2Hashes := { sha384 : bytes → bytes; sha512 : bytes → bytes }.
(** The sizes of the digests. *)
Class HashSizes `{Sha1Hash} `{Sha256Hash} `{Sha2Hashes} := {
  length_sha1 m : length (sha1_of m) = 20%nat;
  length_sha256 m : length (sha256 m) = 32%nat;
  length_sha384 m : length (sha384 m) = 48%nat;
  length_sha512 m : length (sha512 m) = 64%nat;
  bytes_sha1 m : bytes_ok (sha1_of m);
  bytes_sha256 m : bytes_ok (sha256 m);
  bytes_sha384 m : bytes_ok (sha384 m);
  bytes_sha512 m : bytes_ok (sha512 m);
}.

(** [BoxedUint::from_be_slice], [to_be_bytes] at a precision, and [BoxedMontyForm]
    with parameters for the odd modulus [p]. *)
Class BoxedMonty := {
  boxed_from_be_slice : bytes → Z → option Z;
  boxed_from_be_slice_vartime : bytes → Z;
  boxed_to_be_bytes : Z → Z → bytes;
  (** [resize] to a precision: [None] is its panic. *)
  boxed_resize : Z → Z → option Z;
  Mf : Z → Type;
  Mf_new p : Z → Mf p;
  Mf_retrieve {p} : Mf p → Z;
  Mf_add {p} : Mf p → Mf p → Mf p;
  Mf_sub {p} : Mf p → Mf p → Mf p;
  Mf_mul {p} : Mf p → Mf p → Mf p;
  Mf_invert {p} : Mf p → option (Mf p);
  Mf_pow {p} : Mf p → Z → Mf p;
  Mf_eqb {p} : Mf p → Mf p → bool;
}.

Class BoxedMontyLaws `{BoxedMonty} := {
  from_be_slice_value bs bits x : boxed_from_be_slice bs bits = Some x → x = be_fold bs;
  from_be_slice_fits bs bits : 8 * len bs ≤ bits → boxed_from_be_slice bs bits = Some (be_fold bs);
  from_be_slice_len bs bits x : bits mod 64 = 0 → boxed_from_be_slice bs bits = Some x → 8 * len bs ≤ bits;
  from_be_slice_vartime_value bs : boxed_from_be_slice_vartime bs = be_fold bs;
  to_be_bytes_value bits x : bits mod 64 = 0 → 0 ≤ x < 2 ^ bits → boxed_to_be_bytes bits x = to_be (Z.to_nat (bits / 8)) x;
  resize_fits x bits : 0 ≤ x < 2 ^ bits → boxed_resize x bits = Some x;
  mf_retrieve_new p x : 0 < p → Mf_retrieve (Mf_new p x) = x mod p;
  mf_retrieve_mod p (x : Mf p) : 0 < p → Mf_retrieve x mod p = Mf_retrieve x;
  mf_retrieve_add p (x y : Mf p) : 0 < p → Mf_retrieve (Mf_add x y) = (Mf_retrieve x + Mf_retrieve y) mod p;
  mf_retrieve_sub p (x y : Mf p) : 0 < p → Mf_retrieve (Mf_sub x y) = (Mf_retrieve x - Mf_retrieve y) mod p;
  mf_retrieve_mul p (x y : Mf p) : 0 < p → Mf_retrieve (Mf_mul x y) = (Mf_retrieve x * Mf_retrieve y) mod p;
  mf_retrieve_pow p (x : Mf p) e : 0 < p → 0 ≤ e → Mf_retrieve (Mf_pow x e) = Mf_retrieve x ^ e mod p;
  mf_invert p (x i : Mf p) : 0 < p → Mf_invert x = Some i → (Mf_retrieve i * Mf_retrieve x) mod p = 1 mod p;
  mf_invert_exists p (x : Mf p) : 0 < p → Z.gcd (Mf_retrieve x) p = 1 → Mf_invert x ≠ None;
  mf_eqb p (x y : Mf p) : 0 < p → Mf_eqb x y = true ↔ Mf_retrieve x = Mf_retrieve y;
}.

(** ** The residues *)

Module monty.
Definition from_be_slice (bs : bytes) (bits : Z) : option Z :=
  if 8 * len bs <=? bits then Some (be_fold bs) else None.
(** The power modulo, squaring along the bits of the exponent. *)
Definition powmod (x e p : Z) : Z :=
  match e with Zpos e => Zpow_mod_pos x e p | _ => 1 mod p end.
Definition invert (p x : Z) : option Z :=
  let i := Z.invmod x p in if (i * x) mod p =? 1 mod p then Some i else None.

#[export] Instance residue_form : BoxedMonty := {|
  boxed_from_be_slice := from_be_slice;
  boxed_from_be_slice_vartime := be_fold;
  boxed_to_be_bytes bits x := to_be (Z.to_nat (bits / 8)) x;
  boxed_resize x bits := if x <? 2 ^ bits then Some x else None;
  Mf _ := Z; Mf_new p x := x mod p; Mf_retrieve p x := x mod p;
  Mf_add p x y := (x + y) mod p; Mf_sub p x y := (x - y) mod p; Mf_mul p x y := (x * y) mod p;
  Mf_invert := invert; Mf_pow p x e := powmod x e p; Mf_eqb p x y := x mod p =? y mod p |}.

Lemma powmod_spec x e p : 0 < p → 0 ≤ e → powmod x e p = x ^ e mod p.
Proof.
  intros Hp He. destruct e as [|e|e]; [done| |lia]. cbn [powmod]. rewrite Zpow_mod_pos_correct by lia. done.
Qed.

#[export] Instance residue_laws : BoxedMontyLaws.
Proof.
  split; cbn [boxed_from_be_slice boxed_from_be_slice_vartime boxed_to_be_bytes boxed_resize Mf Mf_new Mf_retrieve Mf_add Mf_sub
    Mf_mul Mf_invert Mf_pow Mf_eqb residue_form].
  - intros bs bits x. unfold from_be_slice. destruct (_ <=? _); congruence.
  - intros bs bits Hb. unfold from_be_slice. by apply Z.leb_le in Hb as ->.
  - intros bs bits x _. unfold from_be_slice. by destruct (Z.leb_spec (8 * len bs) bits).
  - done.
  - done.
  - intros x bits [_ Hx%Z.ltb_lt]. by rewrite Hx.
  - intros p x _. apply Zmod_mod.
  - intros p x _. apply Zmod_mod.
  - intros p x y _. by rewrite Zmod_mod, <- Zplus_mod.
  - intros p x y _. by rewrite Zmod_mod, <- Zminus_mod.
  - intros p x y _. by rewrite Zmod_mod, <- Zmult_mod.
  - intros p x e Hp He. rewrite powmod_spec, Zmod_mod by done. rewrite Zpower_mod by lia. done.
  - intros p x i _. unfold invert. destruct (Z.eqb_spec ((Z.invmod x p * x) mod p) (1 mod p)) as [Hj|]; [|done].
    intros [= <-]. by rewrite <- Zmult_mod.
  - intros p x Hp Hg. unfold invert. rewrite Z.invmod_ok.
    assert (Z.gcd x p = 1) as ->; [|by rewrite Z.eqb_refl].
    rewrite Z.gcd_mod in Hg by lia. by rewrite Z.gcd_comm.
  - intros p x y _. apply Z.eqb_eq.
Qed.
End monty.

(** ** Constant digests *)

(** An instance of the hash functions with the sizes they must have. *)
Module flat.
#[export] Instance flat_sha1 : Sha1Hash := λ _, replicate 20 0.
#[export] Instance flat_sha256 : Sha256Hash := λ _, replicate 32 0.
#[export] Instance flat_sha2 : Sha2Hashes := {| sha384 _ := replicate 48 0; sha512 _ := replicate 64 0 |}.
Lemma zeros_ok n : bytes_ok (replicate n 0).
Proof. apply Forall_replicate. by unfold is_byte. Qed.
#[export] Instance flat_sizes : HashSizes.
Proof. split; intros m; first [reflexivity | apply zeros_ok]. Qed.
End flat.
