(* ===== verification/Weierstrass.v ===== *)
(** The affine formulas of a curve [y^2 = x^3 + a x + b] over any commutative ring, for the
    two curve modules of crates/refineid-lib-core/src/crypto: a line through a point of
    the curve meets it again where the formulas of the chord and of the tangent say. *)

From Stdlib Require Import Ring.
From S2P Require Import Prelude.

Section weierstrass.
Context {R : Type} {rO rI : R} {radd rmul rsub : R → R → R} {ropp : R → R} {req : R → R → Prop}.
Context `{!Equivalence req}.
Context (Rth : ring_theory rO rI radd rmul rsub ropp req) (Rext : ring_eq_ext radd rmul ropp req).

#[local] Instance radd_proper : Proper (req ==> req ==> req) radd := Radd_ext Rext.
#[local] Instance rmul_proper : Proper (req ==> req ==> req) rmul := Rmul_ext Rext.
#[local] Instance ropp_proper : Proper (req ==> req) ropp := Ropp_ext Rext.
#[local] Instance rsub_proper : Proper (req ==> req ==> req) rsub.
Proof. intros x x' Hx y y' Hy. rewrite !(Rsub_def Rth). by rewrite Hx, Hy. Qed.

Add Ring weierstrass_ring : Rth (setoid (_ : Equivalence req) Rext).
#[local] Infix "≡r" := req (at level 70).
#[local] Infix "+r" := radd (at level 50, left associativity).
#[local] Infix "-r" := rsub (at level 50, left associativity).
#[local] Infix "*r" := rmul (at level 40, left associativity).

Definition weierstrass (a b x y : R) : Prop := y *r y ≡r x *r x *r x +r a *r x +r b.

(** The line of slope [l] through [(x1, y1)] meets the curve a third time at
    [l^2 - x1 - x2] when it meets it at [x2]: the cubic less the square of the line is
    [(X-x1)(X-x2)(X-x3)] and a remainder that vanishes. *)
Lemma third_point a b x1 y1 x2 l :
  weierstrass a b x1 y1 →
  x1 *r x1 +r x1 *r x2 +r x2 *r x2 +r a -r l *r l *r (x2 -r x1) -r (l *r y1 +r l *r y1) ≡r rO →
  let x3 := l *r l -r x1 -r x2 in weierstrass a b x3 (l *r (x1 -r x3) -r y1).
Proof.
  unfold weierstrass. intros H1 Hc. cbv zeta.
  set (c1 := x1 *r x1 +r x1 *r x2 +r x2 *r x2 +r a -r l *r l *r (x2 -r x1) -r (l *r y1 +r l *r y1)) in *.
  set (x3 := l *r l -r x1 -r x2).
  transitivity (x3 *r x3 *r x3 +r a *r x3 +r b -r c1 *r (x3 -r x1) -r (x1 *r x1 *r x1 +r a *r x1 +r b -r y1 *r y1)).
  { subst c1 x3. ring. }
  rewrite Hc, H1. ring.
Qed.

(** The chord, of a slope [l] between points whose distance has the inverse [i]. *)
Lemma chord a b x1 y1 x2 y2 l i :
  weierstrass a b x1 y1 → weierstrass a b x2 y2 → i *r (x2 -r x1) ≡r rI → l *r (x2 -r x1) ≡r y2 -r y1 →
  let x3 := l *r l -r x1 -r x2 in weierstrass a b x3 (l *r (x1 -r x3) -r y1).
Proof.
  intros H1 H2 Hi Hl. apply third_point; [done|]. unfold weierstrass in H1, H2.
  set (c1 := x1 *r x1 +r x1 *r x2 +r x2 *r x2 +r a -r l *r l *r (x2 -r x1) -r (l *r y1 +r l *r y1)).
  assert (c1 *r (x2 -r x1) ≡r rO) as Hc.
  { transitivity ((x2 *r x2 *r x2 +r a *r x2 +r b) -r (x1 *r x1 *r x1 +r a *r x1 +r b)
      -r (l *r (x2 -r x1)) *r (l *r (x2 -r x1)) -r (l *r (x2 -r x1) *r y1 +r l *r (x2 -r x1) *r y1)); [subst c1; ring|].
    rewrite Hl, <- H1, <- H2. ring. }
  transitivity (c1 *r (i *r (x2 -r x1))); [rewrite Hi; ring|].
  transitivity (i *r (c1 *r (x2 -r x1))); [ring|]. rewrite Hc. ring.
Qed.

(** The tangent, of a slope [l]. *)
Lemma tangent a b x y l :
  weierstrass a b x y → l *r (y +r y) ≡r x *r x +r x *r x +r x *r x +r a →
  let x3 := l *r l -r x -r x in weierstrass a b x3 (l *r (x -r x3) -r y).
Proof.
  intros H1 Hl. apply third_point; [done|].
  transitivity (x *r x +r x *r x +r x *r x +r a -r l *r (y +r y)); [ring|]. rewrite Hl. ring.
Qed.
End weierstrass.
