(* ===== verification/Rsa.v ===== *)
(** crates/refineid-lib-core/src/crypto/rsa.rs: RSA public keys as PKCS#1 carries them,
    the verifier of PKCS#1 v1.5 signatures, and that of ISO/IEC 9796-2 signatures with
    message recovery. The modular power is that of crypto-bigint, the hash functions
    belong to sha1 and sha2 (CryptoCrates.v). Signatures are the octets of the container
    type. *)

From Stdlib Require Import Zpow_facts.
From S2P Require Import Prelude CryptoCrates.

Definition BITS_PER_BYTE : Z := 8.
Definition BOXED_UINT_LIMB_BITS : Z := 64.

(** ** Keys *)

(** [u8::leading_zeros]. *)
Definition leading_zeros (b : Z) : Z := if b =? 0 then 8 else 7 - Z.log2 b.

Inductive RsaModulusError := Rme_Empty | Rme_LeadingZero | Rme_BitsTooFew (bits min : Z) | Rme_BitsTooMany (bits max : Z) | Rme_Even.
Record RsaModulus := mkRsaModulus { RsaModulus_0 : bytes }.
Definition MIN_BITS : Z := 512.
Definition MAX_BITS : Z := 16384.

(** [len.checked_mul(8).and_then(|n| n.checked_sub(leading))]. *)
Definition bit_count (bs : bytes) (leading : Z) : option Z :=
  let n := len bs * 8 in
  if n <=? u64_max then if leading <=? n then Some (n - leading) else None else None.
Definition RsaModulus_try_from_pkcs1 (bs : bytes) : result RsaModulusError RsaModulus :=
  let? first := ok_or (head bs) Rme_Empty in
  if first =? 0 then Err Rme_LeadingZero
  else
    let? last := ok_or (list.last bs) Rme_Empty in
    if Z.land last 1 =? 0 then Err Rme_Even
    else
      let? bits := ok_or (bit_count bs (leading_zeros first)) Rme_Empty in
      if bits <? MIN_BITS then Err (Rme_BitsTooFew bits MIN_BITS)
      else if MAX_BITS <? bits then Err (Rme_BitsTooMany bits MAX_BITS)
      else Ok (mkRsaModulus bs).
Definition RsaModulus_byte_len (n : RsaModulus) : Z := len (RsaModulus_0 n).
Definition RsaModulus_bit_length (n : RsaModulus) : Z :=
  match head (RsaModulus_0 n) with
  | None => 0
  | Some first => default 0 (bit_count (RsaModulus_0 n) (leading_zeros first))
  end.

Inductive RsaPublicExponentError := Rpe_Empty | Rpe_LeadingZero | Rpe_Even.
Record RsaPublicExponent := mkRsaPublicExponent { RsaPublicExponent_0 : bytes }.
Definition RsaPublicExponent_try_from_pkcs1 (bs : bytes) : result RsaPublicExponentError RsaPublicExponent :=
  let? first := ok_or (head bs) Rpe_Empty in
  if first =? 0 then Err Rpe_LeadingZero
  else
    let? last := ok_or (list.last bs) Rpe_Empty in
    if Z.land last 1 =? 0 then Err Rpe_Even else Ok (mkRsaPublicExponent bs).
Fixpoint strip_leading_zeros (bs : bytes) : bytes :=
  match bs with b :: rest => if b =? 0 then strip_leading_zeros rest else bs | [] => [] end.
Definition RsaPublicExponent_try_from_value (value : Z) : result RsaPublicExponentError RsaPublicExponent :=
  if value =? 0 then Err Rpe_Empty else RsaPublicExponent_try_from_pkcs1 (strip_leading_zeros (to_be 8 value)).
Definition e_65537 : RsaPublicExponent := mkRsaPublicExponent [0x01; 0x00; 0x01].
Definition e_3 : RsaPublicExponent := mkRsaPublicExponent [0x03].

Record RsaPublicKey := mkRsaPublicKey { rsa_modulus : RsaModulus; rsa_exponent : RsaPublicExponent }.

(** ** PKCS#1 v1.5 *)

Inductive RsaVerifyError := Rsa_BadModulus | Rsa_SignatureOutOfRange | Rsa_BadPadding | Rsa_BadDigestInfo | Rsa_BadDigest.

Definition SHA256_DIGEST_INFO : bytes :=
  [0x30; 0x31; 0x30; 0x0D; 0x06; 0x09; 0x60; 0x86; 0x48; 0x01; 0x65; 0x03; 0x04; 0x02; 0x01; 0x05; 0x00; 0x04; 0x20].
Definition SHA384_DIGEST_INFO : bytes :=
  [0x30; 0x41; 0x30; 0x0D; 0x06; 0x09; 0x60; 0x86; 0x48; 0x01; 0x65; 0x03; 0x04; 0x02; 0x02; 0x05; 0x00; 0x04; 0x30].
Definition SHA512_DIGEST_INFO : bytes :=
  [0x30; 0x51; 0x30; 0x0D; 0x06; 0x09; 0x60; 0x86; 0x48; 0x01; 0x65; 0x03; 0x04; 0x02; 0x03; 0x05; 0x00; 0x04; 0x40].

(** [while em.get(i) == 0xFF]: the octets of the run. *)
Fixpoint ff_run (em : bytes) : nat :=
  match em with b :: rest => if b =? 0xFF then S (ff_run rest) else O | [] => O end.

Section rsa.
Context `{BoxedMonty}.

(** The precision of [k] octets, in whole limbs. *)
Definition rsa_precision (k : Z) : result RsaVerifyError Z :=
  if k <=? u32_max then
    if k * BITS_PER_BYTE <=? u32_max then
      Ok ((k * BITS_PER_BYTE + BOXED_UINT_LIMB_BITS - 1) / BOXED_UINT_LIMB_BITS * BOXED_UINT_LIMB_BITS mod 4294967296)
    else Err Rsa_BadModulus
  else Err Rsa_BadModulus.

(** The octets of [signature ^ e mod n], at the precision. *)
Definition rsa_power (key : RsaPublicKey) (signature : bytes) : result RsaVerifyError bytes :=
  let k := RsaModulus_byte_len (rsa_modulus key) in
  if negb (len signature =? k) then Err Rsa_SignatureOutOfRange
  else
    let? bits := rsa_precision k in
    let? modulus := ok_or (boxed_from_be_slice (RsaModulus_0 (rsa_modulus key)) bits) Rsa_BadModulus in
    let exponent := boxed_from_be_slice_vartime (RsaPublicExponent_0 (rsa_exponent key)) in
    let? signature_uint := ok_or (boxed_from_be_slice signature bits) Rsa_SignatureOutOfRange in
    if modulus <=? signature_uint then Err Rsa_SignatureOutOfRange
    else if Z.even modulus then Err Rsa_BadModulus
    else Ok (boxed_to_be_bytes bits (Mf_retrieve (Mf_pow (Mf_new modulus signature_uint) exponent))).

(** The padded block: 00 01, the run of FF, 00 and the DigestInfo. *)
Definition check_pkcs1v15_block (em digest_info_prefix digest : bytes) : result RsaVerifyError unit :=
  let min_em_len := len digest_info_prefix + len digest + 11 in
  if (len em <? min_em_len) || negb (bool_decide (zget 0 em = Some 0x00)) || negb (bool_decide (zget 1 em = Some 0x01))
  then Err Rsa_BadPadding
  else
    let ps_len := ff_run (drop 2 em) in
    let i := 2 + Z.of_nat ps_len in
    if (Z.of_nat ps_len <? 8) || negb (bool_decide (zget i em = Some 0x00)) then Err Rsa_BadPadding
    else
      let? payload := ok_or (zslice (i + 1) (len em) em) Rsa_BadPadding in
      if negb (len payload =? len digest_info_prefix + len digest) then Err Rsa_BadDigestInfo
      else
        let prefix := take (length digest_info_prefix) payload in
        let embedded := drop (length digest_info_prefix) payload in
        if negb (bool_decide (prefix = digest_info_prefix)) then Err Rsa_BadDigestInfo
        else if negb (bool_decide (embedded = digest)) then Err Rsa_BadDigest
        else Ok tt.

(** The last [k] octets when there are more and the others are zero. *)
Definition verify_pkcs1v15 (key : RsaPublicKey) (digest_info_prefix digest signature : bytes) : result RsaVerifyError unit :=
  let k := RsaModulus_byte_len (rsa_modulus key) in
  let? em_box := rsa_power key signature in
  let? em :=
    let extra := len em_box - k in
    if 0 <? extra then
      let? prefix := ok_or (zslice 0 extra em_box) Rsa_BadPadding in
      if existsb (λ b, negb (b =? 0)) prefix then Err Rsa_BadPadding
      else ok_or (zslice extra (len em_box) em_box) Rsa_BadPadding
    else Ok em_box in
  check_pkcs1v15_block em digest_info_prefix digest.

Context `{Sha1Hash} `{Sha256Hash} `{Sha2Hashes}.

Definition verify_pkcs1v15_sha256 (key : RsaPublicKey) (message signature : bytes) : result RsaVerifyError unit :=
  verify_pkcs1v15 key SHA256_DIGEST_INFO (sha256 message) signature.
Definition verify_pkcs1v15_sha256_digest (key : RsaPublicKey) (digest signature : bytes) : result RsaVerifyError unit :=
  verify_pkcs1v15 key SHA256_DIGEST_INFO digest signature.
Definition verify_pkcs1v15_sha384 (key : RsaPublicKey) (message signature : bytes) : result RsaVerifyError unit :=
  verify_pkcs1v15 key SHA384_DIGEST_INFO (sha384 message) signature.
Definition verify_pkcs1v15_sha512 (key : RsaPublicKey) (message signature : bytes) : result RsaVerifyError unit :=
  verify_pkcs1v15 key SHA512_DIGEST_INFO (sha512 message) signature.

(** ** ISO/IEC 9796-2 *)

Inductive HashAlg := Hash_Sha1 | Hash_Sha256 | Hash_Sha384 | Hash_Sha512.
Definition HashAlg_digest_size (h : HashAlg) : Z :=
  match h with Hash_Sha1 => 20 | Hash_Sha256 => 32 | Hash_Sha384 => 48 | Hash_Sha512 => 64 end.
Definition HashAlg_hash (h : HashAlg) (m1 m2 : bytes) : bytes :=
  match h with
  | Hash_Sha1 => sha1_of (m1 ++ m2)
  | Hash_Sha256 => sha256 (m1 ++ m2)
  | Hash_Sha384 => sha384 (m1 ++ m2)
  | Hash_Sha512 => sha512 (m1 ++ m2)
  end.
Definition HashAlg_try_from (name : bytes) : option HashAlg :=
  if bool_decide (name = bytes_of_string "SHA1") then Some Hash_Sha1
  else if bool_decide (name = bytes_of_string "SHA256") then Some Hash_Sha256
  else if bool_decide (name = bytes_of_string "SHA384") then Some Hash_Sha384
  else if bool_decide (name = bytes_of_string "SHA512") then Some Hash_Sha512
  else None.

(** The same power, brought to the length of the modulus. *)
Definition raw_recover (key : RsaPublicKey) (signature : bytes) : result RsaVerifyError bytes :=
  let k := RsaModulus_byte_len (rsa_modulus key) in
  let? em_box := rsa_power key signature in
  let extra := len em_box - k in
  if 0 <? extra then
    let? prefix := ok_or (zslice 0 extra em_box) Rsa_BadPadding in
    if existsb (λ b, negb (b =? 0)) prefix then Err Rsa_BadPadding
    else ok_or (zslice extra (len em_box) em_box) Rsa_BadPadding
  else if extra <? 0 then Ok (replicate (Z.to_nat (- extra)) 0 ++ em_box)
  else Ok em_box.

Definition MIN_RECOVERED_LEN : Z := 22.
Definition ISO9796_DS1_LEADING_BYTE : Z := 0x6A.
Definition TRAILER_BC : Z := 0xBC.
Definition TRAILER_CC : Z := 0xCC.
Definition HFI_SHA256 : Z := 0x34.
Definition HFI_SHA384 : Z := 0x36.
Definition HFI_SHA512 : Z := 0x35.

Record Iso9796Ds1Recovered := mkRecovered { rec_m1 : bytes; rec_hash : HashAlg }.
(** The hash the trailer names, and the length of the trailer. *)
Definition iso9796_trailer (recovered : bytes) (k : Z) : result RsaVerifyError (HashAlg * Z) :=
  let? last := ok_or (zget (k - 1) recovered) Rsa_BadPadding in
  if last =? TRAILER_BC then Ok (Hash_Sha1, 1)
  else if last =? TRAILER_CC then
    let? hfi := ok_or (zget (k - 2) recovered) Rsa_BadPadding in
    if hfi =? HFI_SHA256 then Ok (Hash_Sha256, 2)
    else if hfi =? HFI_SHA384 then Ok (Hash_Sha384, 2)
    else if hfi =? HFI_SHA512 then Ok (Hash_Sha512, 2)
    else Err Rsa_BadPadding
  else Err Rsa_BadPadding.
(** The recovered part and its hash, out of the block. *)
Definition open_iso9796_block (recovered challenge_m2 : bytes) : result RsaVerifyError Iso9796Ds1Recovered :=
  let k := len recovered in
  if k <? MIN_RECOVERED_LEN then Err Rsa_BadPadding
  else if negb (bool_decide (zget 0 recovered = Some ISO9796_DS1_LEADING_BYTE)) then Err Rsa_BadPadding
  else
    let? (hash, trailer_len) := iso9796_trailer recovered k in
    let digest_len := HashAlg_digest_size hash in
    if k <? digest_len + trailer_len + 1 then Err Rsa_BadPadding
    else
      let hash_end := k - trailer_len in
      let m1_end := hash_end - digest_len in
      let? m1 := ok_or (zslice 1 m1_end recovered) Rsa_BadPadding in
      let? embedded_hash := ok_or (zslice m1_end hash_end recovered) Rsa_BadPadding in
      if negb (bool_decide (HashAlg_hash hash m1 challenge_m2 = embedded_hash)) then Err Rsa_BadDigest
      else Ok (mkRecovered m1 hash).
Definition verify_iso9796_2_ds1 (key : RsaPublicKey) (challenge_m2 signature : bytes) : result RsaVerifyError Iso9796Ds1Recovered :=
  let? recovered := raw_recover key signature in open_iso9796_block recovered challenge_m2.
End rsa.

(** ** The block *)

Definition pkcs1_block (ps : nat) (info : bytes) : bytes := [0x00; 0x01] ++ replicate ps 0xFF ++ [0x00] ++ info.

Lemma ff_run_spec em : ∃ rest, em = replicate (ff_run em) 0xFF ++ rest ∧ head rest ≠ Some 0xFF.
Proof.
  induction em as [|b em (rest & Hem & Hr)]; [by exists []|]. cbn [ff_run]. destruct (Z.eqb_spec b 0xFF) as [->|Hb].
  - exists rest. cbn. by rewrite <- Hem.
  - exists (b :: em). split; [done|]. cbn. congruence.
Qed.
Lemma ff_run_replicate n rest : head rest ≠ Some 0xFF → ff_run (replicate n 0xFF ++ rest) = n.
Proof.
  intros Hr. induction n as [|n IH]; cbn; [|by rewrite IH]. destruct rest as [|b rest]; [done|]. cbn.
  destruct (Z.eqb_spec b 0xFF); [subst; done|done].
Qed.
Lemma zslice_app_drop {A} i (a b : list A) :
  i = Z.of_nat (length a) → zslice i (Z.of_nat (length (a ++ b))) (a ++ b) = Some b.
Proof.
  intros ->. apply zslice_Some. exists a, []. rewrite app_nil_r. split_and!; [done|done|]. rewrite length_app. lia.
Qed.

Lemma check_pkcs1v15_block_exact em prefix digest :
  check_pkcs1v15_block em prefix digest = Ok tt ↔ ∃ ps, (8 <= ps)%nat ∧ em = pkcs1_block ps (prefix ++ digest).
Proof.
  unfold check_pkcs1v15_block, pkcs1_block. split.
  - destruct (_ || _) eqn:H1; [done|]. apply orb_false_iff in H1 as [[Hl H0]%orb_false_iff H1].
    apply negb_false_iff, bool_decide_eq_true_1 in H0, H1. destruct em as [|a [|b em]]; [done| |].
    { by destruct (proj1 (zget_Some _ _ _) H1) as ([|? [|? ?]] & ? & ? & ?). }
    assert (a = 0 ∧ b = 1) as [-> ->].
    { apply zget_Some in H0 as ([|? ?] & ? & [= ??] & ?); [|simpl in *; lia].
      apply zget_Some in H1 as ([|? [|? ?]] & ? & [= ??] & ?); simpl in *; lia. }
    change (drop 2 (0 :: 1 :: em)) with em. destruct (_ || _) eqn:H2; [done|]. apply orb_false_iff in H2 as [Hps Hz].
    apply negb_false_iff, bool_decide_eq_true_1 in Hz. apply Z.ltb_ge in Hps.
    destruct (ff_run_spec em) as (rest & Hem & Hr). set (n := ff_run em) in *.
    assert (0 :: 1 :: em = (0 :: 1 :: replicate n 0xFF) ++ rest) as He by (cbn; by rewrite <- Hem).
    assert (∃ info, rest = 0 :: info) as [info ->].
    { rewrite He in Hz. apply zget_Some in Hz as (p & q & Hpq & Hlp). apply (app_inj_1) in Hpq as [_ ->]; [by eexists|].
      simpl. rewrite length_replicate. lia. }
    assert (zslice (2 + Z.of_nat n + 1) (len (0 :: 1 :: em)) (0 :: 1 :: em) = Some info) as ->.
    { assert (0 :: 1 :: em = (0 :: 1 :: replicate n 0xFF ++ [0]) ++ info) as -> by (rewrite He; cbn; by rewrite <- app_assoc).
      unfold len. apply zslice_app_drop. simpl. rewrite length_app, length_replicate. simpl. lia. }
    cbn [ok_or result_bind]. destruct (negb _) eqn:Hlen; [done|]. apply negb_false_iff, Z.eqb_eq in Hlen.
    destruct (negb _) eqn:Hp; [done|]. destruct (negb (bool_decide (drop _ _ = _))) eqn:Hd; [done|]. intros _.
    apply negb_false_iff, bool_decide_eq_true_1 in Hp, Hd. exists n. split; [lia|].
    rewrite He, <- (take_drop (length prefix) info), Hp, Hd. cbn. done.
  - intros (ps & Hps & ->). set (em := [0; 1] ++ _). assert (len em = 3 + Z.of_nat ps + (len prefix + len digest)) as Hl.
    { unfold em, len. rewrite !length_app, length_replicate. simpl. lia. }
    assert ((len em <? len prefix + len digest + 11) = false) as -> by (apply Z.ltb_ge; lia).
    change (zget 0 em) with (zget (Z.of_nat (length (@nil Z))) ([] ++ 0 :: drop 1 em)). rewrite zget_app.
    change (zget 1 em) with (zget (Z.of_nat (length [0])) ([0] ++ 1 :: drop 2 em)). rewrite zget_app.
    rewrite !bool_decide_eq_true_2 by done. cbn [negb orb].
    change (drop 2 em) with (replicate ps 0xFF ++ [0] ++ prefix ++ digest). rewrite ff_run_replicate by done.
    assert ((Z.of_nat ps <? 8) = false) as -> by (apply Z.ltb_ge; lia).
    assert (em = ([0; 1] ++ replicate ps 0xFF) ++ 0 :: prefix ++ digest) as Hem by (unfold em; by rewrite <- app_assoc).
    assert (zget (2 + Z.of_nat ps) em = Some 0) as ->.
    { rewrite Hem. apply zget_Some. eexists _, _. split; [done|]. rewrite length_app, length_replicate. simpl. lia. }
    rewrite bool_decide_eq_true_2 by done. cbn [negb orb].
    assert (zslice (2 + Z.of_nat ps + 1) (len em) em = Some (prefix ++ digest)) as ->.
    { assert (em = (([0; 1] ++ replicate ps 0xFF) ++ [0]) ++ prefix ++ digest) as -> by (rewrite Hem, <- !app_assoc; done).
      unfold len. apply zslice_app_drop. rewrite !length_app, length_replicate. simpl. lia. }
    cbn [ok_or result_bind]. rewrite len_app, Z.eqb_refl. cbn [negb].
    rewrite take_app_length, drop_app_length, !bool_decide_eq_true_2 by done. done.
Qed.

(** ** Keys *)

(** A key whose parts came out of their constructors. *)
Definition RsaPublicKey_wf (key : RsaPublicKey) : Prop :=
  bytes_ok (RsaModulus_0 (rsa_modulus key)) ∧ bytes_ok (RsaPublicExponent_0 (rsa_exponent key)) ∧
  RsaModulus_try_from_pkcs1 (RsaModulus_0 (rsa_modulus key)) = Ok (rsa_modulus key) ∧
  RsaPublicExponent_try_from_pkcs1 (RsaPublicExponent_0 (rsa_exponent key)) = Ok (rsa_exponent key).
(** The numbers of a key. *)
Definition modulus_value (key : RsaPublicKey) : Z := be_fold (RsaModulus_0 (rsa_modulus key)).
Definition exponent_value (key : RsaPublicKey) : Z := be_fold (RsaPublicExponent_0 (rsa_exponent key)).

Lemma leading_zeros_bounds b : is_byte b → 0 ≤ leading_zeros b ≤ 8 ∧ (b ≠ 0 → leading_zeros b ≤ 7 ∧ 2 ^ (7 - leading_zeros b) ≤ b < 2 ^ (8 - leading_zeros b)).
Proof.
  intros Hb. unfold is_byte in Hb. unfold leading_zeros. destruct (Z.eqb_spec b 0) as [->|Hne]; [done|].
  pose proof (Z.log2_spec b ltac:(lia)) as Hl. assert (Z.log2 b < 8) by (apply Z.log2_lt_pow2; lia). pose proof (Z.log2_nonneg b).
  split; [lia|]. intros _. split; [lia|]. replace (7 - (7 - Z.log2 b)) with (Z.log2 b) by lia. replace (8 - (7 - Z.log2 b)) with (Z.succ (Z.log2 b)) by lia. done.
Qed.
(** The bits counted are those of the number. *)
Lemma bit_count_log2 b bs bits : bytes_ok (b :: bs) → b ≠ 0 →
  bit_count (b :: bs) (leading_zeros b) = Some bits → 2 ^ (bits - 1) ≤ be_fold (b :: bs) < 2 ^ bits.
Proof.
  intros Hok Hb. rewrite be_fold_cons by done. apply Forall_cons_1 in Hok as [Hbyte Hbs].
  destruct (leading_zeros_bounds b Hbyte) as [Hz Hpow]. destruct (Hpow Hb) as [Hz7 Hpow']. clear Hpow. rename Hpow' into Hpow. pose proof (be_fold_nonneg bs Hbs) as Hr.
  unfold bit_count. rewrite len_cons. destruct (_ <=? u64_max); [|done]. destruct (Z.leb_spec (leading_zeros b) ((1 + len bs) * 8)); [|done].
  intros [= <-]. fold (len bs) in Hr. pose proof (len_nonneg bs).
  assert (256 ^ len bs = 2 ^ (8 * len bs)) as Hp by (rewrite Z.pow_mul_r by lia; done). rewrite Hp in *.
  replace ((1 + len bs) * 8 - leading_zeros b - 1) with ((7 - leading_zeros b) + 8 * len bs) by lia.
  replace ((1 + len bs) * 8 - leading_zeros b) with ((8 - leading_zeros b) + 8 * len bs) by lia.
  rewrite !Z.pow_add_r by lia. pose proof (Z.pow_pos_nonneg 2 (8 * len bs) ltac:(lia) ltac:(lia)). nia.
Qed.

Lemma land_1 x : Z.land x 1 = x mod 2.
Proof. change 1 with (Z.ones 1). by rewrite Z.land_ones by lia. Qed.

(** What a modulus is: odd, of 512 to 16384 bits, without a leading zero. *)
Lemma RsaModulus_spec bs n : bytes_ok bs → RsaModulus_try_from_pkcs1 bs = Ok n →
  n = mkRsaModulus bs ∧ head bs ≠ Some 0 ∧ be_fold bs mod 2 = 1 ∧
  ∃ bits, bit_count bs (leading_zeros (default 0 (head bs))) = Some bits ∧ 512 ≤ bits ≤ 16384 ∧ 2 ^ (bits - 1) ≤ be_fold bs < 2 ^ bits.
Proof.
  intros Hok. unfold RsaModulus_try_from_pkcs1. destruct bs as [|b bs]; [done|]. cbn [head ok_or result_bind].
  destruct (Z.eqb_spec b 0) as [|Hb]; [done|]. intros (l & Hl%ok_or_inv & H)%result_bind_inv_ok.
  destruct (Z.eqb_spec (Z.land l 1) 0) as [|Hodd]; [done|]. apply result_bind_inv_ok in H as (bits & Hbits%ok_or_inv & H).
  destruct (Z.ltb_spec bits MIN_BITS) as [|Hmin]; [done|]. destruct (Z.ltb_spec MAX_BITS bits) as [|Hmax]; [done|].
  injection H as <-. split; [done|]. split; [congruence|]. split.
  - apply last_Some in Hl as [l' Hl]. rewrite Hl in Hok |- *. apply Forall_app in Hok as [Hl' [Hlb _]%Forall_cons_1].
    rewrite be_fold_app by done. rewrite land_1 in Hodd. rewrite Z.add_mod by lia.
    assert ((be_fold l' * 256) mod 2 = 0) as -> by (apply Z.mod_divide; [lia|]; exists (be_fold l' * 128); lia).
    rewrite Z.add_0_l, Zmod_mod. pose proof (Z.mod_pos_bound l 2 ltac:(lia)). lia.
  - exists bits. split; [done|]. split; [unfold MIN_BITS, MAX_BITS in *; lia|]. by apply bit_count_log2.
Qed.

(** The numbers the constructors take. *)
Lemma be_fold_parity bs l : bytes_ok bs → list.last bs = Some l → be_fold bs mod 2 = Z.land l 1.
Proof.
  intros Hok [l' ->]%last_Some. apply Forall_app in Hok as [Hl' [Hlb _]%Forall_cons_1]. rewrite be_fold_app, land_1 by done.
  rewrite Z.add_mod by lia. assert ((be_fold l' * 256) mod 2 = 0) as -> by (apply Z.mod_divide; [lia|]; exists (be_fold l' * 128); lia).
  by rewrite Z.add_0_l, Zmod_mod.
Qed.
Lemma odd_last bs l : bytes_ok bs → list.last bs = Some l → (Z.land l 1 =? 0) = false ↔ be_fold bs mod 2 = 1.
Proof.
  intros Hok Hl. rewrite (be_fold_parity _ _ Hok Hl), Z.eqb_neq. rewrite land_1. pose proof (Z.mod_pos_bound l 2 ltac:(lia)). lia.
Qed.
Lemma last_cons_is_Some {A} (b : A) bs : ∃ l, list.last (b :: bs) = Some l.
Proof. revert b. induction bs as [|c bs IH]; intros b; [by exists b|]. destruct (IH c) as [l Hl]. by exists l. Qed.
Lemma bits_of_number b bs k : bytes_ok (b :: bs) → b ≠ 0 → 0 ≤ k ≤ u32_max → be_fold (b :: bs) < 2 ^ k →
  ∃ bits, bit_count (b :: bs) (leading_zeros b) = Some bits ∧ bits ≤ k.
Proof.
  intros Hok Hb Hk Hv. pose proof (proj1 (Forall_cons_1 _ _ _ Hok)) as Hbyte. pose proof (proj2 (Forall_cons_1 _ _ _ Hok)) as Hbs.
  destruct (leading_zeros_bounds b Hbyte) as [Hz _]. unfold is_byte in Hbyte. pose proof (be_fold_nonneg bs Hbs) as Hr. fold (len bs) in Hr.
  pose proof (len_nonneg bs). assert (8 * len bs < k) as Hlen.
  { apply (Z.pow_lt_mono_r_iff 2); [lia|lia|]. eapply Z.le_lt_trans; [|exact Hv]. rewrite be_fold_cons by done.
    rewrite Z.pow_mul_r by lia. change (2 ^ 8) with 256. nia. }
  assert (∃ bits, bit_count (b :: bs) (leading_zeros b) = Some bits) as [bits Hbits].
  { unfold bit_count. rewrite len_cons. unfold u32_max, u64_max in *.
    rewrite (proj2 (Z.leb_le _ _)) by lia. rewrite (proj2 (Z.leb_le _ _)) by lia. by eexists. }
  exists bits. split; [done|]. destruct (bit_count_log2 b bs bits Hok Hb Hbits) as [Hlow _].
  destruct (Z.le_gt_cases bits k) as [|Hgt]; [done|]. pose proof (Z.pow_le_mono_r 2 k (bits - 1) ltac:(lia) ltac:(lia)). lia.
Qed.
Lemma RsaModulus_between bs n j k : j = 511 → k = 16384 → bytes_ok bs →
  RsaModulus_try_from_pkcs1 bs = Ok n ↔ n = mkRsaModulus bs ∧ head bs ≠ Some 0 ∧ be_fold bs mod 2 = 1 ∧ 2 ^ j ≤ be_fold bs < 2 ^ k.
Proof.
  intros Hj Hk Hok. split.
  - intros Hn. destruct (RsaModulus_spec bs n Hok Hn) as (-> & Hh & Hodd & bits & _ & Hbits & Hv). do 3 (split; [done|]). split.
    + etrans; [|exact (proj1 Hv)]. apply Z.pow_le_mono_r; lia.
    + eapply Z.lt_le_trans; [exact (proj2 Hv)|]. apply Z.pow_le_mono_r; lia.
  - intros (-> & Hh & Hodd & Hlow & Hhigh). destruct bs as [|b bs]; [done|]. assert (b ≠ 0) as Hb by (intros ->; done).
    destruct (bits_of_number b bs k Hok Hb ltac:(unfold u32_max; lia) Hhigh) as (bits & Hbits & Hmax).
    destruct (bit_count_log2 b bs bits Hok Hb Hbits) as [_ Hv].
    assert (j < bits) as Hmin.
    { destruct (Z.lt_ge_cases j bits) as [|Hle]; [done|]. pose proof (Z.pow_le_mono_r 2 bits j ltac:(lia) Hle). lia. }
    unfold RsaModulus_try_from_pkcs1. cbn [head ok_or result_bind]. rewrite (proj2 (Z.eqb_neq b 0) Hb).
    destruct (last_cons_is_Some b bs) as [l Hl]. rewrite Hl. cbn [ok_or result_bind]. rewrite (proj2 (odd_last _ _ Hok Hl) Hodd), Hbits. cbn [ok_or result_bind].
    unfold MIN_BITS, MAX_BITS. rewrite (proj2 (Z.ltb_ge _ _)) by lia. by rewrite (proj2 (Z.ltb_ge _ _)) by lia.
Qed.
Lemma RsaModulus_iff bs n : bytes_ok bs →
  RsaModulus_try_from_pkcs1 bs = Ok n ↔ n = mkRsaModulus bs ∧ head bs ≠ Some 0 ∧ be_fold bs mod 2 = 1 ∧ 2 ^ 511 ≤ be_fold bs < 2 ^ 16384.
Proof. exact (RsaModulus_between bs n 511 16384 eq_refl eq_refl). Qed.
Lemma RsaPublicExponent_iff bs e : bytes_ok bs →
  RsaPublicExponent_try_from_pkcs1 bs = Ok e ↔ e = mkRsaPublicExponent bs ∧ head bs ≠ Some 0 ∧ be_fold bs mod 2 = 1.
Proof.
  intros Hok. unfold RsaPublicExponent_try_from_pkcs1. destruct bs as [|b bs]; [split; [done|by intros (_ & _ & ?)]|]. cbn [head ok_or result_bind].
  destruct (last_cons_is_Some b bs) as [l Hl]. rewrite Hl. cbn [ok_or result_bind].
  destruct (Z.eqb_spec b 0) as [->|Hb]; [split; [done|by intros (_ & ? & _)]|].
  destruct (Z.land l 1 =? 0) eqn:Ho.
  - split; [done|]. intros (_ & _ & Hodd%(odd_last _ _ Hok Hl)). congruence.
  - apply (odd_last _ _ Hok Hl) in Ho. split; [intros [= <-]; split; [done|split; [congruence|done]]|by intros (-> & _)].
Qed.

Lemma bit_count_Some bs leading bits : bit_count bs leading = Some bits → bits = len bs * 8 - leading.
Proof. unfold bit_count. destruct (_ <=? u64_max); [|done]. destruct (_ <=? _); [|done]. by intros [= <-]. Qed.
Lemma be_fold_bounds bs : bytes_ok bs → 0 ≤ be_fold bs < 256 ^ len bs.
Proof. apply be_fold_nonneg. Qed.

Lemma modulus_facts key : RsaPublicKey_wf key →
  64 ≤ RsaModulus_byte_len (rsa_modulus key) ≤ 2048 ∧ modulus_value key mod 2 = 1 ∧
  0 < modulus_value key < 256 ^ RsaModulus_byte_len (rsa_modulus key) ∧ 0 ≤ exponent_value key.
Proof.
  intros (Hn & He & Hm & _). unfold modulus_value, exponent_value, RsaModulus_byte_len.
  destruct (RsaModulus_spec _ _ Hn Hm) as (_ & Hh & Hodd & bits & Hc & Hbits & Hv).
  pose proof (be_fold_bounds _ Hn) as Hr. pose proof (be_fold_bounds _ He) as Hre.
  apply bit_count_Some in Hc. assert (0 ≤ leading_zeros (default 0 (head (RsaModulus_0 (rsa_modulus key)))) ≤ 7 ∨ len (RsaModulus_0 (rsa_modulus key)) = 0) as Hz.
  { destruct (RsaModulus_0 (rsa_modulus key)) as [|b bs]; [by right|]. left. apply Forall_cons_1 in Hn as [Hb _].
    destruct (leading_zeros_bounds b Hb) as [Hz Hz7]. cbn [head] in *. destruct Hz7 as [Hz7 _]; [congruence|]. split; [apply Hz|apply Hz7]. }
  pose proof (len_nonneg (RsaModulus_0 (rsa_modulus key))).
  assert (0 ≤ leading_zeros (default 0 (head (RsaModulus_0 (rsa_modulus key))))).
  { destruct (RsaModulus_0 (rsa_modulus key)) as [|b bs]; [done|]. apply Forall_cons_1 in Hn as [Hb _]. by apply leading_zeros_bounds. }
  split; [lia|]. split; [done|]. split; [|apply Hre]. split; [|apply Hr].
  destruct (decide (be_fold (RsaModulus_0 (rsa_modulus key)) = 0)) as [Hzero|]; [by rewrite Hzero in Hodd|lia].
Qed.

(** ** The power *)

Section power.
Context `{BoxedMonty} `{!BoxedMontyLaws}.

(** The number a signature recovers. *)
Definition recovered_value (key : RsaPublicKey) (signature : bytes) : Z :=
  be_fold signature ^ exponent_value key mod modulus_value key.
Definition in_range (key : RsaPublicKey) (signature : bytes) : Prop :=
  len signature = RsaModulus_byte_len (rsa_modulus key) ∧ be_fold signature < modulus_value key.

Lemma to_be_pad e k x : 0 ≤ x < 256 ^ Z.of_nat k → to_be (e + k) x = replicate e 0 ++ to_be k x.
Proof.
  intros Hx. induction e as [|e IH]; [done|]. cbn [Nat.add to_be replicate app]. rewrite <- IH. f_equal.
  rewrite Z.shiftr_div_pow2 by lia. rewrite Z.div_small; [done|]. split; [lia|].
  eapply Z.lt_le_trans; [apply Hx|]. replace (8 * Z.of_nat (e + k)) with (8 * Z.of_nat k + 8 * Z.of_nat e) by lia.
  rewrite Z.pow_add_r, (Z.pow_mul_r 2 8) by lia. change (2 ^ 8) with 256.
  pose proof (Z.pow_pos_nonneg 2 (8 * Z.of_nat e) ltac:(lia) ltac:(lia)). nia.
Qed.

Lemma rsa_power_spec key signature : RsaPublicKey_wf key →
  rsa_power key signature =
  if bool_decide (in_range key signature) then
    Ok (replicate (Z.to_nat ((RsaModulus_byte_len (rsa_modulus key) + 7) / 8 * 8 - RsaModulus_byte_len (rsa_modulus key))) 0
        ++ to_be (Z.to_nat (RsaModulus_byte_len (rsa_modulus key))) (recovered_value key signature))
  else Err Rsa_SignatureOutOfRange.
Proof.
  intros Hwf. destruct (modulus_facts key Hwf) as (Hk & Hodd & Hn & He). unfold rsa_power, in_range.
  set (k := RsaModulus_byte_len (rsa_modulus key)) in *. destruct (Z.eqb_spec (len signature) k) as [Hlen|Hlen]; cycle 1.
  { cbn [negb]. by rewrite bool_decide_eq_false_2 by tauto. }
  cbn [negb]. set (w := (k + 7) / 8). assert (8 * w - 7 ≤ k + 7 - 7 ≤ 8 * w) as Hw.
  { subst w. pose proof (Z_div_mod_eq_full (k + 7) 8). pose proof (Z.mod_pos_bound (k + 7) 8 ltac:(lia)). lia. }
  assert (rsa_precision k = Ok (64 * w)) as ->.
  { unfold rsa_precision, u32_max, BITS_PER_BYTE, BOXED_UINT_LIMB_BITS.
    destruct (Z.leb_spec k 4294967295); [|lia]. destruct (Z.leb_spec (k * 8) 4294967295); [|lia]. f_equal.
    assert ((k * 8 + 64 - 1) / 64 = w) as ->; [|rewrite Z.mod_small; lia].
    symmetry. apply Z.div_unique with (k * 8 + 63 - 64 * w); lia. }
  cbn [result_bind]. rewrite (from_be_slice_fits (RsaModulus_0 (rsa_modulus key))) by (fold k; unfold k, RsaModulus_byte_len in *; lia).
  rewrite from_be_slice_fits by (unfold k, RsaModulus_byte_len in *; lia). cbn [ok_or result_bind].
  fold (modulus_value key). destruct (Z.leb_spec (modulus_value key) (be_fold signature)) as [Hge|Hlt].
  { rewrite bool_decide_eq_false_2; [done|]. intros [_ ?]. lia. }
  rewrite bool_decide_eq_true_2 by done.
  assert (Z.even (modulus_value key) = false) as ->.
  { rewrite Zeven_mod, Hodd. done. }
  rewrite from_be_slice_vartime_value. fold (exponent_value key).
  assert (Mf_retrieve (Mf_pow (Mf_new (modulus_value key) (be_fold signature)) (exponent_value key)) = recovered_value key signature) as ->.
  { rewrite mf_retrieve_pow, mf_retrieve_new by lia. unfold recovered_value. by rewrite <- Zpower_mod by lia. }
  assert (0 ≤ recovered_value key signature < modulus_value key) as Hx by (apply Z.mod_pos_bound; lia).
  assert (256 ^ k ≤ 2 ^ (64 * w)) as Hpow.
  { change 256 with (2 ^ 8). rewrite <- Z.pow_mul_r by lia. apply Z.pow_le_mono_r; lia. }
  rewrite to_be_bytes_value; [|rewrite Z.mul_comm; apply Z_mod_mult|lia].
  f_equal. replace (Z.to_nat (64 * w / 8)) with (Z.to_nat (w * 8 - k) + Z.to_nat k)%nat.
  - apply to_be_pad. rewrite Z2Nat.id by lia. lia.
  - replace (64 * w) with (8 * w * 8) by lia. rewrite Z.div_mul by lia. lia.
Qed.
End power.

Section verifiers.
Context `{BoxedMonty} `{!BoxedMontyLaws} `{Sha1Hash} `{Sha256Hash} `{Sha2Hashes} `{!HashSizes}.

Definition recovered_block (key : RsaPublicKey) (signature : bytes) : bytes :=
  to_be (Z.to_nat (RsaModulus_byte_len (rsa_modulus key))) (recovered_value key signature).

(** Cutting the power to the length of the modulus. *)
Lemma cut_power (key : RsaPublicKey) e (em : bytes) :
  len em = RsaModulus_byte_len (rsa_modulus key) →
  (let em_box := replicate e 0 ++ em in
   let extra := len em_box - RsaModulus_byte_len (rsa_modulus key) in
   if 0 <? extra then
     let? prefix := ok_or (zslice 0 extra em_box) Rsa_BadPadding in
     if existsb (λ b, negb (b =? 0)) prefix then Err Rsa_BadPadding
     else ok_or (zslice extra (len em_box) em_box) Rsa_BadPadding
   else Ok em_box) = Ok em.
Proof.
  intros Hk. cbv zeta. assert (len (replicate e 0 ++ em) - RsaModulus_byte_len (rsa_modulus key) = Z.of_nat e) as ->.
  { rewrite len_app. unfold len at 1. rewrite length_replicate. lia. }
  destruct (Z.ltb_spec 0 (Z.of_nat e)) as [He|He]; [|by assert (e = 0%nat) as -> by lia].
  assert (zslice 0 (Z.of_nat e) (replicate e 0 ++ em) = Some (replicate e 0)) as ->.
  { apply (zslice_app_exact 0 (Z.of_nat e) []); [done|]. by rewrite length_replicate. }
  cbn [ok_or result_bind]. assert (existsb (λ b, negb (b =? 0)) (replicate e 0) = false) as -> by (clear; induction e; done).
  unfold len. rewrite zslice_app_drop by (by rewrite length_replicate). done.
Qed.
Lemma len_recovered_block key signature : RsaPublicKey_wf key → len (recovered_block key signature) = RsaModulus_byte_len (rsa_modulus key).
Proof.
  intros Hwf. destruct (modulus_facts key Hwf) as [? _]. unfold len, recovered_block. rewrite length_to_be. lia.
Qed.

Lemma verify_pkcs1v15_block key prefix digest signature : RsaPublicKey_wf key →
  verify_pkcs1v15 key prefix digest signature =
  if bool_decide (in_range key signature) then check_pkcs1v15_block (recovered_block key signature) prefix digest
  else Err Rsa_SignatureOutOfRange.
Proof.
  intros Hwf. unfold verify_pkcs1v15. rewrite rsa_power_spec by done. case_bool_decide; [|done]. cbn [result_bind].
  fold (recovered_block key signature). by rewrite cut_power by by apply len_recovered_block.
Qed.
Lemma raw_recover_block key signature : RsaPublicKey_wf key →
  raw_recover key signature =
  if bool_decide (in_range key signature) then Ok (recovered_block key signature) else Err Rsa_SignatureOutOfRange.
Proof.
  intros Hwf. unfold raw_recover. rewrite rsa_power_spec by done. case_bool_decide; [|done]. cbn [result_bind].
  fold (recovered_block key signature). set (e := Z.to_nat (_ - _)).
  pose proof (cut_power key e (recovered_block key signature) (len_recovered_block key signature Hwf)) as Hc. cbv zeta in Hc.
  destruct (0 <? _) eqn:Hpos; [done|]. destruct (_ <? 0) eqn:Hneg; [|done]. apply Z.ltb_lt in Hneg.
  rewrite len_app, (len_recovered_block key signature Hwf) in Hneg. pose proof (len_nonneg (replicate e 0)). lia.
Qed.

Lemma verify_pkcs1v15_spec key prefix digest signature : RsaPublicKey_wf key →
  (verify_pkcs1v15 key prefix digest signature = Ok tt ↔
     in_range key signature ∧ ∃ ps, (8 <= ps)%nat ∧ recovered_block key signature = pkcs1_block ps (prefix ++ digest)) ∧
  verify_pkcs1v15 key prefix digest signature ≠ Panic.
Proof.
  intros Hwf. rewrite verify_pkcs1v15_block by done. case_bool_decide as Hr; [|by split; [split; [done|tauto]|]].
  split; [rewrite check_pkcs1v15_block_exact; tauto|]. unfold check_pkcs1v15_block.
  destruct (_ || _); [done|]. cbv zeta. destruct (_ || _); [done|]. apply result_bind_no_panic; [by destruct (zslice _ _ _)|].
  intros payload _. repeat (case_match; [done|]). done.
Qed.

(** C27: A PKCS#1 signature is accepted for exactly one block. The verifier takes a signature
    when, and only when, it has the length of the modulus, is a number below it, and its
    power is octet for octet 00 01, eight or more FF, 00, the DigestInfo prefix and the
    digest, filling the modulus: no octet is free. The verifier never panics. *)
Theorem pkcs1v15_exact key prefix digest signature : RsaPublicKey_wf key →
  (verify_pkcs1v15 key prefix digest signature = Ok tt ↔
     in_range key signature ∧ ∃ ps, (8 <= ps)%nat ∧ recovered_block key signature = pkcs1_block ps (prefix ++ digest)) ∧
  verify_pkcs1v15 key prefix digest signature ≠ Panic.
Proof. apply verify_pkcs1v15_spec. Qed.

(** ** ISO/IEC 9796-2 *)

Definition trailer (h : HashAlg) : bytes :=
  match h with Hash_Sha1 => [0xBC] | Hash_Sha256 => [0x34; 0xCC] | Hash_Sha384 => [0x36; 0xCC] | Hash_Sha512 => [0x35; 0xCC] end.
Definition iso9796_block (h : HashAlg) (m1 m2 : bytes) : bytes := [0x6A] ++ m1 ++ HashAlg_hash h m1 m2 ++ trailer h.

Lemma length_HashAlg_hash h m1 m2 : len (HashAlg_hash h m1 m2) = HashAlg_digest_size h.
Proof. unfold len. destruct h; cbn [HashAlg_hash HashAlg_digest_size]; by rewrite ?length_sha1, ?length_sha256, ?length_sha384, ?length_sha512. Qed.

Lemma zget_snoc {A} (a b : list A) x i : i = Z.of_nat (length a) → zget i (a ++ x :: b) = Some x.
Proof. intros ->. apply zget_app. Qed.
Lemma iso9796_trailer_spec r h n : iso9796_trailer r (len r) = Ok (h, n) ↔ n = len (trailer h) ∧ ∃ r', r = r' ++ trailer h.
Proof.
  unfold iso9796_trailer. split.
  - intros (l & Hl%ok_or_inv & Hv)%result_bind_inv_ok. apply zget_Some in Hl as (a & b & Hr & Ha).
    assert (b = []) as ->. { apply (f_equal len) in Hr. rewrite len_app, len_cons in Hr. unfold len in *. destruct b; [done|simpl in *; lia]. }
    destruct (Z.eqb_spec l TRAILER_BC) as [->|]; [injection Hv as <- <-; by split; [|exists a]|].
    destruct (Z.eqb_spec l TRAILER_CC) as [->|]; [|done]. apply result_bind_inv_ok in Hv as (f & Hf%ok_or_inv & Hv).
    apply zget_Some in Hf as (c & d & Hr' & Hc). assert (d = [TRAILER_CC]) as ->.
    { rewrite Hr in Hr'. assert (len a = len c + 1) as Hac. { apply (f_equal len) in Hr. rewrite len_app in Hr. unfold len in *. simpl in *. lia. }
      change (c ++ f :: d) with (c ++ [f] ++ d) in Hr'. rewrite app_assoc in Hr'.
      apply app_inj_1 in Hr' as [_ <-]; [done|]. unfold len in *. rewrite length_app. simpl. lia. }
    destruct (Z.eqb_spec f HFI_SHA256) as [->|]; [injection Hv as <- <-; by split; [|exists c]|].
    destruct (Z.eqb_spec f HFI_SHA384) as [->|]; [injection Hv as <- <-; by split; [|exists c]|].
    destruct (Z.eqb_spec f HFI_SHA512) as [->|]; [injection Hv as <- <-; by split; [|exists c]|done].
  - assert (∀ r' f, zget (len (r' ++ [f; TRAILER_CC]) - 1) (r' ++ [f; TRAILER_CC]) = Some TRAILER_CC ∧
              zget (len (r' ++ [f; TRAILER_CC]) - 2) (r' ++ [f; TRAILER_CC]) = Some f) as Htwo.
    { intros r' f. rewrite len_app. split.
      - apply zget_Some. exists (r' ++ [f]), []. rewrite <- app_assoc. split; [done|]. rewrite length_app. unfold len. simpl. lia.
      - apply zget_Some. exists r', [TRAILER_CC]. split; [done|]. unfold len. simpl. lia. }
    intros (-> & r' & ->). destruct h; cbn [trailer];
      [|change [52; 204] with [HFI_SHA256; TRAILER_CC]; by destruct (Htwo r' HFI_SHA256) as [-> ->]
       |change [54; 204] with [HFI_SHA384; TRAILER_CC]; by destruct (Htwo r' HFI_SHA384) as [-> ->]
       |change [53; 204] with [HFI_SHA512; TRAILER_CC]; by destruct (Htwo r' HFI_SHA512) as [-> ->]].
    by rewrite (zget_snoc r' [] TRAILER_BC) by (rewrite len_app; unfold len; simpl; lia).
Qed.

Lemma open_iso9796_block_sound r m2 m1 h : open_iso9796_block r m2 = Ok (mkRecovered m1 h) → r = iso9796_block h m1 m2.
Proof.
  unfold open_iso9796_block. destruct (Z.ltb_spec (len r) MIN_RECOVERED_LEN) as [|Hk]; [done|]. unfold MIN_RECOVERED_LEN in Hk.
  destruct (negb _) eqn:Hlead; [done|]. apply negb_false_iff, bool_decide_eq_true_1, zget_Some in Hlead as ([|? ?] & r1 & Hr & Hz); [|simpl in *; lia].
  intros ([h' n] & (-> & r2 & Hr2)%iso9796_trailer_spec & Hv)%result_bind_inv_ok.
  destruct (_ <? _) eqn:Hf; [done|]. apply Z.ltb_ge in Hf.
  apply result_bind_inv_ok in Hv as (m & Hm%ok_or_inv & Hv). apply result_bind_inv_ok in Hv as (eh & Heh%ok_or_inv & Hv).
  destruct (negb _) eqn:Hh; [done|]. apply negb_false_iff, bool_decide_eq_true_1 in Hh. injection Hv as -> ->.
  apply zslice_Some in Hm as (a & c & Hm & Ha & Hc), Heh as (a' & c' & Heh & Ha' & Hc').
  pose proof (length_HashAlg_hash h m1 m2) as Hlh. rewrite <- Hh in *. unfold iso9796_block.
  assert (c' = trailer h) as ->.
  { rewrite Hr2 in Heh. rewrite app_assoc in Heh. apply app_inj_1 in Heh as [_ ->]; [done|].
    apply (f_equal len) in Hr2. rewrite len_app in Hr2. rewrite length_app. unfold len in *. lia. }
  assert (a = [0x6A]) as ->.
  { rewrite Hr in Hm. destruct a as [|x [|y a]]; [done| |simpl in Ha; lia]. by injection Hm as <- _. }
  rewrite Hm, app_assoc in Heh. assert (a' = [0x6A] ++ m1 ∧ c = eh ++ trailer h) as [_ ->].
  { symmetry in Heh. apply app_inj_1 in Heh as [-> Hce]; [split; congruence|]. rewrite length_app. simpl in *. lia. }
  by rewrite Hm, Hh.
Qed.
Lemma open_iso9796_block_complete m2 m1 h : MIN_RECOVERED_LEN ≤ len (iso9796_block h m1 m2) →
  open_iso9796_block (iso9796_block h m1 m2) m2 = Ok (mkRecovered m1 h).
Proof.
  intros Hk. unfold open_iso9796_block. set (r := iso9796_block h m1 m2) in *. assert (r = iso9796_block h m1 m2) as Hr by done.
  destruct (Z.ltb_spec (len r) MIN_RECOVERED_LEN) as [|_]; [lia|].
  pose proof (length_HashAlg_hash h m1 m2) as Hlh. unfold iso9796_block in Hr.
  assert (zget 0 r = Some ISO9796_DS1_LEADING_BYTE) as -> by (rewrite Hr; by apply (zget_app [])).
  rewrite bool_decide_eq_true_2 by done. cbn [negb].
  assert (iso9796_trailer r (len r) = Ok (h, len (trailer h))) as ->.
  { apply iso9796_trailer_spec. split; [done|]. exists ([0x6A] ++ m1 ++ HashAlg_hash h m1 m2). by rewrite Hr, <- !app_assoc. }
  cbn [result_bind].
  assert (len r = 1 + len m1 + HashAlg_digest_size h + len (trailer h)) as Hl by (rewrite Hr, !len_app, Hlh; change (len [0x6A]) with 1; lia).
  pose proof (len_nonneg m1). destruct (Z.ltb_spec (len r) (HashAlg_digest_size h + len (trailer h) + 1)); [lia|].
  replace (len r - len (trailer h) - HashAlg_digest_size h) with (1 + len m1) by lia.
  replace (len r - len (trailer h)) with (1 + len m1 + HashAlg_digest_size h) by lia.
  assert (zslice 1 (1 + len m1) r = Some m1) as ->.
  { rewrite Hr. apply zslice_app_exact; done. }
  assert (zslice (1 + len m1) (1 + len m1 + HashAlg_digest_size h) r = Some (HashAlg_hash h m1 m2)) as ->.
  { rewrite Hr, app_assoc. apply zslice_app_exact; [rewrite length_app; unfold len; simpl; lia|]. unfold len in Hlh. by rewrite Hlh. }
  cbn [ok_or result_bind]. by rewrite bool_decide_eq_true_2.
Qed.
Lemma open_iso9796_block_no_panic r m2 : open_iso9796_block r m2 ≠ Panic.
Proof.
  unfold open_iso9796_block. case_match; [done|]. destruct (negb _); [done|]. apply result_bind_no_panic.
  { unfold iso9796_trailer. apply result_bind_no_panic; [apply ok_or_no_panic|]. intros l _. case_match; [done|]. case_match; [|done].
    apply result_bind_no_panic; [apply ok_or_no_panic|]. intros f _. repeat (case_match; [done|]). done. }
  intros [h' n] _. case_match; [done|]. apply result_bind_no_panic; [apply ok_or_no_panic|]. intros m _.
  apply result_bind_no_panic; [apply ok_or_no_panic|]. intros e _. by case_match.
Qed.

Lemma iso9796_spec key m2 signature m1 h : RsaPublicKey_wf key →
  (verify_iso9796_2_ds1 key m2 signature = Ok (mkRecovered m1 h) ↔
     in_range key signature ∧ recovered_block key signature = iso9796_block h m1 m2) ∧
  verify_iso9796_2_ds1 key m2 signature ≠ Panic.
Proof.
  intros Hwf. unfold verify_iso9796_2_ds1. rewrite raw_recover_block by done.
  case_bool_decide as Hrange; [|by split; [split; [done|tauto]|]]. cbn [result_bind].
  split; [|apply open_iso9796_block_no_panic].
  pose proof (len_recovered_block key signature Hwf) as Hk. destruct (modulus_facts key Hwf) as [Hk64 _].
  split; [intros Ho; split; [done|by apply open_iso9796_block_sound]|]. intros [_ Hr]. rewrite Hr in *.
  apply open_iso9796_block_complete. unfold MIN_RECOVERED_LEN. lia.
Qed.

(** A signature with message recovery is accepted for exactly one form of block. The
    verifier returns the recovered message and a hash when, and only when, the power of
    the signature is 6A, the message, the hash of the message and the challenge, and the
    trailer that names the hash, filling the modulus. *)
Theorem iso9796_exact key m2 signature m1 h : RsaPublicKey_wf key →
  (verify_iso9796_2_ds1 key m2 signature = Ok (mkRecovered m1 h) ↔
     in_range key signature ∧ recovered_block key signature = iso9796_block h m1 m2) ∧
  verify_iso9796_2_ds1 key m2 signature ≠ Panic.
Proof. by apply iso9796_spec. Qed.
End verifiers.

(** ** A key of 512 bits *)

Module sample_key.
Definition key : RsaPublicKey :=
  mkRsaPublicKey (mkRsaModulus (to_be 64 0xcd764394cc0b68bce12a2e9dec961135301c57dba6c6525b4c2e4c29f9bd45b894f949e6890a2245e5d1b7dc521eb9a4f4f98d8c7f604136e7a55d9386a4c061)) e_65537.
Definition zero_digest_signature : bytes :=
  to_be 64 0x7429a37349d3d7a4608a919f54ec8b6d4cf72843c438bcb69a7a00efd829701c392e5c6a15e0f5cb08f351cbcd67d432a61db462ba0fc6f961cb66d0745e2282.
Definition recoverable_signature : bytes :=
  to_be 64 0x307021887597cdd2e4e280d5123493d524784203c876ee0e9019d969f60f53582094c701284f7135f0ccefa01036d92a36daeaa6972e31e09f60cde3082a9b8b.
Lemma key_wf : RsaPublicKey_wf key.
Proof. split_and!; [apply to_be_bytes_ok|by_decide|by vm_compute|by vm_compute]. Qed.
End sample_key.

Import monty flat.
Lemma pkcs1v15_exact_witness :
  verify_pkcs1v15 sample_key.key SHA256_DIGEST_INFO (replicate 32 0) sample_key.zero_digest_signature = Ok tt ∧
  ∃ ps, (8 <= ps)%nat ∧
    recovered_block sample_key.key sample_key.zero_digest_signature = pkcs1_block ps (SHA256_DIGEST_INFO ++ replicate 32 0).
Proof.
  assert (verify_pkcs1v15 sample_key.key SHA256_DIGEST_INFO (replicate 32 0) sample_key.zero_digest_signature = Ok tt) as Hv by by vm_compute.
  split; [exact Hv|].
  exact (proj2 (proj1 (proj1 (pkcs1v15_exact sample_key.key SHA256_DIGEST_INFO (replicate 32 0) sample_key.zero_digest_signature sample_key.key_wf)) Hv)).
Defined.

Lemma iso9796_exact_witness :
  verify_iso9796_2_ds1 sample_key.key [1; 2; 3] sample_key.recoverable_signature = Ok (mkRecovered (map Z.of_nat (seq 1 42)) Hash_Sha1) ∧
  in_range sample_key.key sample_key.recoverable_signature.
Proof.
  assert (verify_iso9796_2_ds1 sample_key.key [1; 2; 3] sample_key.recoverable_signature = Ok (mkRecovered (map Z.of_nat (seq 1 42)) Hash_Sha1)) as Hv by by vm_compute.
  split; [exact Hv|].
  exact (proj1 (proj1 (proj1 (iso9796_exact sample_key.key [1; 2; 3] sample_key.recoverable_signature _ _ sample_key.key_wf)) Hv)).
Defined.
