(* ===== verification/Str.v ===== *)
(** Rust strings as their UTF-8 octets: searching and splitting of the standard library
    at ASCII characters, which in UTF-8 never stand inside another character. *)

From S2P Require Import Prelude Decimal Utf8.

Definition is_ascii_lowercase (b : Z) : bool := within 0x61 0x7A b.
Definition is_ascii_uppercase (b : Z) : bool := within 0x41 0x5A b.
Definition is_ascii_alpha (b : Z) : bool := is_ascii_uppercase b || is_ascii_lowercase b.
Definition is_ascii_alphanumeric (b : Z) : bool := is_ascii_alpha b || is_ascii_digit b.
Definition is_ascii_hexdigit (b : Z) : bool := is_ascii_digit b || within 0x41 0x46 b || within 0x61 0x66 b.
Definition to_ascii_lowercase (b : Z) : Z := if is_ascii_uppercase b then b + 32 else b.
Definition eq_ignore_ascii_case (a b : bytes) : bool :=
  bool_decide (map to_ascii_lowercase a = map to_ascii_lowercase b).

Definition starts_with (p l : bytes) : bool := bool_decide (take (length p) l = p).
Definition ends_with_byte (b : Z) (l : bytes) : bool := bool_decide (list.last l = Some b).
(** [str::contains] of a character and of a string. *)
Definition contains_byte (b : Z) (l : bytes) : bool := bool_decide (b ∈ l).
Fixpoint str_contains (needle l : bytes) : bool :=
  starts_with needle l || match l with [] => false | _ :: l => str_contains needle l end.

Definition is_byte_eq (sep : Z) : Z → bool := λ b, b =? sep.
(** [str::split_once] and [rsplit_once] at a character. *)
Definition split_once (sep : Z) (l : bytes) : option (bytes * bytes) :=
  i ← position (is_byte_eq sep) l; Some (take i l, drop (S i) l).
Definition rsplit_once (sep : Z) (l : bytes) : option (bytes * bytes) :=
  '(b, a) ← split_once sep (reverse l); Some (reverse a, reverse b).
(** [str::rfind]. *)
Definition rfind (sep : Z) (l : bytes) : option nat :=
  i ← position (is_byte_eq sep) (reverse l); Some (length l - S i)%nat.
(** [str::split]: at least one piece. *)
Fixpoint split (sep : Z) (l : bytes) : list bytes :=
  match l with
  | [] => [[]]
  | b :: l => if b =? sep then [] :: split sep l
              else match split sep l with p :: ps => (b :: p) :: ps | [] => [[b]] end
  end.
(** [join]. *)
Fixpoint join (sep : bytes) (parts : list bytes) : bytes :=
  match parts with
  | [] => []
  | [part] => part
  | part :: parts => part ++ sep ++ join sep parts
  end.
(** [str::parse::<u16>] of digits. *)
Definition parse_u16_digits (l : bytes) : option Z := let v := dec_value l in if v <=? u16_max then Some v else None.

(** Every character has the property White_Space; then [str::trim] leaves nothing. *)
Fixpoint blank (s : bytes) : bool :=
  match s with
  | [] => true
  | b :: s =>
      if within 0x09 0x0D b || (b =? 0x20) then blank s
      else
        match s with
        | [] => false
        | c :: s =>
            if (b =? 0xC2) && ((c =? 0x85) || (c =? 0xA0)) then blank s
            else
              match s with
              | [] => false
              | d :: s =>
                  if (b =? 0xE1) && (c =? 0x9A) && (d =? 0x80)
                     || (b =? 0xE2) && (c =? 0x80) && (within 0x80 0x8A d || (d =? 0xA8) || (d =? 0xA9) || (d =? 0xAF))
                     || (b =? 0xE2) && (c =? 0x81) && (d =? 0x9F)
                     || (b =? 0xE3) && (c =? 0x80) && (d =? 0x80)
                  then blank s else false
              end
        end
  end.
(** The characters of a text, and [trim_matches]. *)
Fixpoint chars_of (fuel : nat) (l : bytes) : list bytes :=
  match fuel, l with
  | O, _ | _, [] => []
  | S fuel, _ => let n := (utf8_step l).1 in take n l :: chars_of fuel (drop n l)
  end.
Fixpoint skip_while {A} (p : A → bool) (l : list A) : list A :=
  match l with
  | [] => []
  | x :: l' => if p x then skip_while p l' else l
  end.
Definition trim_matches (p : bytes → bool) (s : bytes) : bytes :=
  concat (reverse (skip_while p (reverse (skip_while p (chars_of (length s) s))))).

Definition str_trim (s : bytes) : bytes := trim_matches blank s.
(** [str::split_whitespace]: the runs of other characters. *)
Fixpoint words (run : bytes) (chars : list bytes) : list bytes :=
  match chars with
  | [] => if bool_decide (run = []) then [] else [run]
  | c :: chars => if blank c then (if bool_decide (run = []) then words [] chars else run :: words [] chars)
                  else words (run ++ c) chars
  end.
Definition split_whitespace (s : bytes) : list bytes := words [] (chars_of (length s) s).
(** [str::trim_end_matches] of an ASCII character, and [replace] by one. *)
Definition trim_end (b : Z) (s : bytes) : bytes := reverse (skip_while (is_byte_eq b) (reverse s)).
Definition replace_byte (old new : Z) (s : bytes) : bytes := map (λ b, if b =? old then new else b) s.

(** ** Lemmas *)

Lemma position_at {A} (p : A → bool) a x b : Forall (λ y, p y = false) a → p x = true → position p (a ++ x :: b) = Some (length a).
Proof.
  intros Ha Hx. induction Ha as [|y a Hy _ IH]; cbn [app position]; [by rewrite Hx|]. rewrite Hy, IH. done.
Qed.
Lemma position_none {A} (p : A → bool) a : Forall (λ y, p y = false) a → position p a = None.
Proof. apply position_None. Qed.
Lemma eq_byte_false sep a : sep ∉ a → Forall (λ y, is_byte_eq sep y = false) a.
Proof. intros Ha. apply list.Forall_forall. intros y Hy. unfold is_byte_eq. apply Z.eqb_neq. by intros ->. Qed.
Lemma split_once_at sep a b : sep ∉ a → split_once sep (a ++ sep :: b) = Some (a, b).
Proof.
  intros Ha. unfold split_once. rewrite position_at; [|by apply eq_byte_false|apply Z.eqb_refl]. cbn [mbind option_bind].
  rewrite take_app_length. replace (S (length a)) with (length (a ++ [sep])) by (rewrite length_app; simpl; lia).
  replace (a ++ sep :: b) with ((a ++ [sep]) ++ b) by by rewrite <- app_assoc. by rewrite drop_app_length.
Qed.
Lemma split_once_none sep a : sep ∉ a → split_once sep a = None.
Proof. intros Ha. unfold split_once. by rewrite position_none by by apply eq_byte_false. Qed.
Lemma split_once_inv sep l a b : split_once sep l = Some (a, b) → l = a ++ sep :: b ∧ sep ∉ a.
Proof.
  unfold split_once. intros (i & Hi & [= <- <-])%bind_Some. apply position_Some in Hi as (x & Hx & Hp & Hf).
  apply Z.eqb_eq in Hp as ->. split; [by rewrite take_drop_middle|].
  intros H%list_elem_of_In. rewrite Forall_forall in Hf. specialize (Hf _ H). unfold is_byte_eq in Hf. by rewrite Z.eqb_refl in Hf.
Qed.
Lemma split_once_None sep l : split_once sep l = None → sep ∉ l.
Proof.
  unfold split_once. destruct (position _ l) eqn:Hp; [done|]. intros _ H%list_elem_of_In.
  apply position_None in Hp. rewrite Forall_forall in Hp. specialize (Hp _ H). unfold is_byte_eq in Hp. by rewrite Z.eqb_refl in Hp.
Qed.
Lemma rsplit_once_at sep a b : sep ∉ b → rsplit_once sep (a ++ sep :: b) = Some (a, b).
Proof.
  intros Hb. unfold rsplit_once. rewrite reverse_app, reverse_cons, <- app_assoc. cbn [app].
  rewrite split_once_at by by rewrite elem_of_reverse. cbn. by rewrite !reverse_involutive.
Qed.
Lemma rsplit_once_none sep a : sep ∉ a → rsplit_once sep a = None.
Proof. intros Ha. unfold rsplit_once. by rewrite split_once_none by by rewrite elem_of_reverse. Qed.
Lemma rsplit_once_inv sep l a b : rsplit_once sep l = Some (a, b) → l = a ++ sep :: b ∧ sep ∉ b.
Proof.
  unfold rsplit_once. intros ((x & y) & Hs & [= <- <-])%bind_Some. apply split_once_inv in Hs as [Hl Hx].
  rewrite elem_of_reverse. split; [|done]. apply (f_equal reverse) in Hl. rewrite reverse_involutive in Hl.
  rewrite Hl, reverse_app, reverse_cons, <- app_assoc. done.
Qed.
Lemma rsplit_once_None sep l : rsplit_once sep l = None → sep ∉ l.
Proof.
  unfold rsplit_once. destruct (split_once sep (reverse l)) as [[a b]|] eqn:Hs; [done|]. intros _.
  apply split_once_None in Hs. by rewrite elem_of_reverse in Hs.
Qed.
Lemma split_not_nil sep l : split sep l ≠ [].
Proof. destruct l as [|b l]; [done|]. cbn. destruct (b =? sep); [done|]. by destruct (split sep l). Qed.
Lemma split_none sep l : sep ∉ l → split sep l = [l].
Proof.
  induction l as [|b l IH]; [done|]. intros [Hb Hl]%not_elem_of_cons. cbn.
  destruct (Z.eqb_spec b sep); [congruence|]. by rewrite IH.
Qed.
Lemma split_at sep a b : sep ∉ a → split sep (a ++ sep :: b) = a :: split sep b.
Proof.
  induction a as [|x a IH]; cbn; [by rewrite Z.eqb_refl|]. intros [Hx Ha]%not_elem_of_cons.
  destruct (Z.eqb_spec x sep); [congruence|]. by rewrite IH.
Qed.
(** The first piece is what stands before the first separator. *)
Lemma split_hd sep l : ∃ p ps, split sep l = p :: ps ∧ (sep ∉ p) ∧ (l = p ∧ ps = [] ∨ ∃ r, l = p ++ sep :: r ∧ ps = split sep r).
Proof.
  induction l as [|b l IH]; [exists [], []; repeat split; [apply not_elem_of_nil|by left]|].
  cbn. destruct (Z.eqb_spec b sep) as [->|Hb].
  - exists [], (split sep l). split; [done|]. split; [apply not_elem_of_nil|]. right. by exists l.
  - destruct IH as (p & ps & -> & Hp & Hl). exists (b :: p), ps. split; [done|]. split; [by apply not_elem_of_cons|].
    destruct Hl as [[-> ->]|(r & -> & ->)]; [by left|right; by exists r].
Qed.
Lemma join_split sep l : join [sep] (split sep l) = l.
Proof.
  remember (length l) as n eqn:Hn. revert l Hn. induction n as [n IH] using lt_wf_ind. intros l ->.
  destruct (split_hd sep l) as (p & ps & -> & _ & [[-> ->]|(r & -> & ->)]); [done|].
  assert (join [sep] (split sep r) = r) as Hr by (eapply IH; [|done]; rewrite length_app; simpl; lia).
  pose proof (split_not_nil sep r) as Hne. destruct (split sep r) eqn:Hs; [done|].
  change (p ++ [sep] ++ join [sep] (l :: l0) = p ++ sep :: r). by rewrite Hr.
Qed.
Lemma starts_with_app p l : starts_with p (p ++ l) = true.
Proof. unfold starts_with. rewrite take_app_length. by apply bool_decide_eq_true_2. Qed.
Lemma starts_with_inv p l : starts_with p l = true → ∃ r, l = p ++ r.
Proof. intros H%bool_decide_eq_true_1. exists (drop (length p) l). rewrite <- H at 1. by rewrite take_drop. Qed.
