(* ===== verification/Text.v ===== *)
(** crates/refineid-lib-core/src/text.rs: the character-set strings, and the URI a
    certificate names for status and issuer queries, with its host, path and query.
    Display of the errors is left out. *)

From S2P Require Import Prelude Decimal Utf8 Str.

Record CharsetError := mkCharsetError { ce_position : Z; ce_byte : Z }.
Definition first_violation (text : bytes) (allowed : Z → bool) : option CharsetError :=
  i ← position (λ b, negb (allowed b)) text;
  b ← text !! i;
  Some (mkCharsetError (Z.of_nat i) b).
(** The macro [charset_string]: a text every octet of which the predicate allows. *)
Definition charset_string_parse (allowed : Z → bool) (text : bytes) : result CharsetError bytes :=
  match first_violation text allowed with Some error => Err error | None => Ok text end.
Definition AlphaString : Z → bool := is_ascii_alpha.
Definition LowerAlphaString : Z → bool := is_ascii_lowercase.
Definition AlphaNumString : Z → bool := is_ascii_alphanumeric.
Definition LowerAlphaNumString (b : Z) : bool := is_ascii_lowercase b || is_ascii_digit b.
Definition TokenString (b : Z) : bool := is_ascii_alphanumeric b || bool_decide (b ∈ [0x2E; 0x5F; 0x2D]).
Definition LowerTokenString (b : Z) : bool :=
  (is_ascii_lowercase b || is_ascii_digit b) || bool_decide (b ∈ [0x2E; 0x5F; 0x2D]).

Definition MAX_URI_LEN : Z := 8000.
Definition MAX_HOST_LEN : Z := 253.
Definition MAX_LABEL_LEN : Z := 63.
Definition DEFAULT_HTTP_PORT : Z := 80.
Definition DEFAULT_HTTPS_PORT : Z := 443.

Inductive UriCharError := Uce_IllegalByte (position byte : Z) | Uce_MalformedEscape (position : Z).
Inductive HostError :=
| Host_Empty
| Host_TooLong (length : Z)
| Host_EmptyLabel
| Host_LabelTooLong (length : Z)
| Host_LabelHyphenBoundary
| Host_Byte (byte : Z).
Inductive UriError :=
| Uri_TooLong (length : Z)
| Uri_Scheme
| Uri_Userinfo
| Uri_BadPort
| Uri_Host (e : HostError)
| Uri_Path (e : UriCharError)
| Uri_Query (e : UriCharError).

Inductive Scheme := Http | Https.
Definition Scheme_default_port (s : Scheme) : Z := match s with Http => DEFAULT_HTTP_PORT | Https => DEFAULT_HTTPS_PORT end.
Definition Scheme_fmt (s : Scheme) : bytes := bytes_of_string (match s with Http => "http" | Https => "https" end).

(** [- . _ ~], the sub-delimiters [! $ & ' ( ) * + , ; =] and [: @]. *)
Definition is_pchar (b : Z) : bool :=
  is_ascii_alphanumeric b
  || bool_decide (b ∈ [0x2D; 0x2E; 0x5F; 0x7E; 0x21; 0x24; 0x26; 0x27; 0x28; 0x29; 0x2A; 0x2B; 0x2C; 0x3B; 0x3D; 0x3A; 0x40]).

(** [PctScan::first_error]; [position] is that of [rest] in the text. *)
Fixpoint pct_first_error (allowed : Z → bool) (position : Z) (rest : bytes) : option UriCharError :=
  match rest with
  | [] => None
  | b :: tail =>
      if b =? 0x25 then
        match tail with
        | hi :: lo :: tail => if is_ascii_hexdigit hi && is_ascii_hexdigit lo then pct_first_error allowed (position + 3) tail
                              else Some (Uce_MalformedEscape position)
        | _ => Some (Uce_MalformedEscape position)
        end
      else if allowed b then pct_first_error allowed (position + 1) tail
      else Some (Uce_IllegalByte position b)
  end.

Definition host_byte (b : Z) : bool := is_ascii_lowercase b || is_ascii_digit b || (b =? 0x2D).
Definition host_label_check (label : bytes) : option HostError :=
  if bool_decide (label = []) then Some Host_EmptyLabel
  else if MAX_LABEL_LEN <? len label then Some (Host_LabelTooLong (len label))
  else if starts_with [0x2D] label || ends_with_byte 0x2D label then Some Host_LabelHyphenBoundary
  else match position (λ b, negb (host_byte b)) label with
       | Some i => Host_Byte <$> label !! i
       | None => None
       end.
Record Host := mkHost { Host_0 : bytes }.
Definition Host_parse (text : bytes) : result HostError Host :=
  let text := map to_ascii_lowercase text in
  if bool_decide (text = []) then Err Host_Empty
  else if MAX_HOST_LEN <? len text then Err (Host_TooLong (len text))
  else match find_map host_label_check (split 0x2E text) with
       | Some e => Err e
       | None => Ok (mkHost text)
       end.

Definition path_byte (b : Z) : bool := is_pchar b || (b =? 0x2F).
Record Path := mkPath { Path_0 : bytes }.
Definition Path_parse (text : bytes) : result UriCharError Path :=
  match pct_first_error path_byte 0 text with
  | Some error => Err error
  | None => Ok (mkPath (if bool_decide (text = []) then [0x2F] else text))
  end.
Definition query_byte (b : Z) : bool := is_pchar b || bool_decide (b ∈ [0x2F; 0x3F]).
Record Query := mkQuery { Query_0 : bytes }.
Definition Query_parse (text : bytes) : result UriCharError Query :=
  match pct_first_error query_byte 0 text with Some error => Err error | None => Ok (mkQuery text) end.
Definition Query_is_empty (q : Query) : bool := bool_decide (Query_0 q = []).

Record Uri := mkUri { uri_scheme : Scheme; uri_host : Host; uri_port : Z; uri_path : Path; uri_query : Query }.
#[export] Instance Scheme_eq_dec : EqDecision Scheme.
Proof. solve_decision. Defined.
#[export] Instance Host_eq_dec : EqDecision Host.
Proof. solve_decision. Defined.
#[export] Instance Path_eq_dec : EqDecision Path.
Proof. solve_decision. Defined.
#[export] Instance Query_eq_dec : EqDecision Query.
Proof. solve_decision. Defined.
#[export] Instance Uri_eq_dec : EqDecision Uri.
Proof. solve_decision. Defined.

Definition HTTPS_PREFIX : bytes := bytes_of_string "https://".
Definition HTTP_PREFIX : bytes := bytes_of_string "http://".
Definition uri_scheme_of (input : bytes) : option (Scheme * bytes) :=
  if eq_ignore_ascii_case (take 8 input) HTTPS_PREFIX then Some (Https, drop 8 input)
  else if eq_ignore_ascii_case (take 7 input) HTTP_PREFIX then Some (Http, drop 7 input)
  else None.
(** The host text and the port of an authority. *)
Definition authority_parts (scheme : Scheme) (authority : bytes) : result UriError (bytes * Z) :=
  match rsplit_once 0x3A authority with
  | Some (host_raw, port_raw) =>
      if bool_decide (port_raw = []) || negb (forallb is_ascii_digit port_raw) then Err Uri_BadPort
      else
        let? port := ok_or (parse_u16_digits port_raw) Uri_BadPort in
        if port =? 0 then Err Uri_BadPort else Ok (host_raw, port)
  | None => Ok (authority, Scheme_default_port scheme)
  end.
Definition ends_authority (b : Z) : bool := bool_decide (b ∈ [0x2F; 0x3F; 0x23]).

Definition Uri_parse (input : bytes) : result UriError Uri :=
  if MAX_URI_LEN <? len input then Err (Uri_TooLong (len input))
  else
    let? (scheme, after_scheme) := ok_or (uri_scheme_of input) Uri_Scheme in
    let authority_end := default (length after_scheme) (position ends_authority after_scheme) in
    let authority := take authority_end after_scheme in
    let after_authority := drop authority_end after_scheme in
    if contains_byte 0x40 authority then Err Uri_Userinfo
    else
      let? (host_raw, port) := authority_parts scheme authority in
      let? host := map_err Uri_Host (Host_parse host_raw) in
      let without_fragment := default [] (head (split 0x23 after_authority)) in
      let '(path_raw, query_raw) := default (without_fragment, []) (split_once 0x3F without_fragment) in
      let? path := map_err Uri_Path (Path_parse path_raw) in
      let? query := map_err Uri_Query (Query_parse query_raw) in
      Ok (mkUri scheme host port path query).

Definition authority_string (u : Uri) : bytes :=
  if uri_port u =? Scheme_default_port (uri_scheme u) then Host_0 (uri_host u)
  else Host_0 (uri_host u) ++ [0x3A] ++ dec (uri_port u).
Definition SCHEME_SEPARATOR : bytes := bytes_of_string "://".
Definition Uri_fmt (u : Uri) : bytes :=
  Scheme_fmt (uri_scheme u) ++ SCHEME_SEPARATOR ++ authority_string u ++ Path_0 (uri_path u)
  ++ (if Query_is_empty (uri_query u) then [] else [0x3F] ++ Query_0 (uri_query u)).
Definition Uri_join (u : Uri) (location : bytes) : result UriError Uri :=
  if starts_with HTTP_PREFIX location || starts_with HTTPS_PREFIX location then Uri_parse location
  else match strip_prefix (bytes_of_string "//") location with
       | Some scheme_relative => Uri_parse (Scheme_fmt (uri_scheme u) ++ SCHEME_SEPARATOR ++ scheme_relative)
       | None =>
           let authority := authority_string u in
           if starts_with [0x2F] location then
             Uri_parse (Scheme_fmt (uri_scheme u) ++ SCHEME_SEPARATOR ++ authority ++ location)
           else
             let path := Path_0 (uri_path u) in
             let dir := take (default 0%nat (S <$> rfind 0x2F path)) path in
             Uri_parse (Scheme_fmt (uri_scheme u) ++ SCHEME_SEPARATOR ++ authority ++ dir ++ location)
       end.

(** ** Well-formed URIs *)

(** Percent-escapes are whole, and every other octet is allowed. *)
Inductive pct_text (allowed : Z → bool) : bytes → Prop :=
| Pct_nil : pct_text allowed []
| Pct_escape hi lo l : is_ascii_hexdigit hi = true → is_ascii_hexdigit lo = true → pct_text allowed l →
    pct_text allowed (0x25 :: hi :: lo :: l)
| Pct_byte b l : b ≠ 0x25 → allowed b = true → pct_text allowed l → pct_text allowed (b :: l).

Definition host_label (label : bytes) : Prop :=
  1 ≤ len label ≤ 63 ∧ Forall (λ b, host_byte b = true) label ∧ head label ≠ Some 0x2D ∧ list.last label ≠ Some 0x2D.
Record Uri_wf (u : Uri) : Prop := {
  wf_host : Host_0 (uri_host u) ≠ [] ∧ len (Host_0 (uri_host u)) ≤ 253 ∧ Forall host_label (split 0x2E (Host_0 (uri_host u)));
  wf_port : 1 ≤ uri_port u ≤ 65535;
  wf_path : head (Path_0 (uri_path u)) = Some 0x2F ∧ pct_text path_byte (Path_0 (uri_path u));
  wf_query : pct_text query_byte (Query_0 (uri_query u));
}.

(** ** Lemmas: characters *)

Lemma pct_first_error_None allowed position l : pct_first_error allowed position l = None ↔ pct_text allowed l.
Proof.
  remember (length l) as n eqn:Hn. revert position l Hn. induction n as [n IH] using lt_wf_ind. intros position l ->.
  destruct l as [|b tail]; cbn [pct_first_error]; [split; [constructor|done]|].
  destruct (Z.eqb_spec b 0x25) as [->|Hb].
  - split.
    + destruct tail as [|hi [|lo tail]]; [done..|]. destruct (is_ascii_hexdigit hi && is_ascii_hexdigit lo) eqn:Hh; [|done].
      apply andb_prop in Hh as [Hh1 Hh2]. intros H. constructor; [done..|]. eapply IH; [|done|exact H]. simpl; lia.
    + intros Hp. inversion Hp as [|hi lo l' Hhi Hlo Hl|]; subst; [|congruence]. rewrite Hhi, Hlo. cbn [andb]. eapply IH; [|done|done]. simpl; lia.
  - destruct (allowed b) eqn:Ha.
    + split.
      * intros H. constructor; [done..|]. eapply IH; [|done|exact H]. simpl; lia.
      * intros Hp. inversion Hp; subst; [congruence|]. eapply IH; [|done|done]. simpl; lia.
    + split; [done|]. intros Hp. inversion Hp; congruence.
Qed.

(** Octets of a text with whole escapes are visible and satisfy the predicate or are those of an escape. *)
Lemma pct_text_bytes allowed (P : Z → Prop) l :
  P 0x25 → (∀ b, is_ascii_hexdigit b = true → P b) → (∀ b, allowed b = true → P b) → pct_text allowed l → Forall P l.
Proof. intros H25 Hhex Hal. induction 1; repeat constructor; eauto. Qed.

Ltac byte_tests := unfold host_byte, path_byte, query_byte, is_pchar, is_ascii_alphanumeric, is_ascii_alpha, is_ascii_lowercase,
  is_ascii_uppercase, is_ascii_hexdigit, is_ascii_digit, within in *.

Lemma elem_cases (b : Z) l : bool_decide (b ∈ l) = existsb (Z.eqb b) l.
Proof.
  destruct (existsb _ l) eqn:H.
  - apply bool_decide_eq_true_2. apply existsb_exists in H as (x & Hx & ->%Z.eqb_eq). by apply list_elem_of_In.
  - apply bool_decide_eq_false_2. intros Hb%list_elem_of_In.
    assert (existsb (Z.eqb b) l = true) as Ht by (apply existsb_exists; exists b; by rewrite Z.eqb_refl). congruence.
Qed.
Lemma visible_path b : path_byte b = true → 0x21 ≤ b ≤ 0x7E ∧ b ≠ 0x23 ∧ b ≠ 0x3F.
Proof. byte_tests. rewrite elem_cases. cbn [existsb]. lia. Qed.
Lemma visible_query b : query_byte b = true → 0x21 ≤ b ≤ 0x7E ∧ b ≠ 0x23.
Proof. byte_tests. rewrite !elem_cases. cbn [existsb]. lia. Qed.
Lemma visible_hex b : is_ascii_hexdigit b = true → 0x30 ≤ b ≤ 0x66 ∧ b ≠ 0x3F ∧ b ≠ 0x2F.
Proof. byte_tests. lia. Qed.
Lemma path_text_bytes l : pct_text path_byte l → Forall (λ b, 0x21 ≤ b ≤ 0x7E ∧ b ≠ 0x23 ∧ b ≠ 0x3F) l.
Proof.
  apply pct_text_bytes; [lia| |intros; by apply visible_path]. intros b H%visible_hex. lia.
Qed.
Lemma query_text_bytes l : pct_text query_byte l → Forall (λ b, 0x21 ≤ b ≤ 0x7E ∧ b ≠ 0x23) l.
Proof.
  apply pct_text_bytes; [lia| |intros; by apply visible_query]. intros b H%visible_hex. lia.
Qed.
Lemma host_bytes_range b : host_byte b = true → (0x61 ≤ b ≤ 0x7A ∨ 0x30 ≤ b ≤ 0x39 ∨ b = 0x2D).
Proof. byte_tests. lia. Qed.

(** ** Lemmas: the parts *)

Lemma starts_with_head b l : starts_with [b] l = bool_decide (head l = Some b).
Proof. unfold starts_with. destruct l as [|x l]; [done|]. cbn. apply bool_decide_ext. naive_solver. Qed.

Lemma host_label_check_None label : host_label_check label = None ↔ host_label label.
Proof.
  unfold host_label_check, host_label, MAX_LABEL_LEN. case_bool_decide as Hl; [subst label; split; [done|]; intros [H _]; unfold len in H; simpl in H; lia|].
  destruct (Z.ltb_spec 63 (len label)); [split; [done|lia]|].
  assert (1 ≤ len label) by (destruct label; [done|]; rewrite len_cons; pose proof (len_nonneg label); lia).
  rewrite starts_with_head. unfold ends_with_byte.
  case_bool_decide as H1; [split; [done|]; by intros (_ & _ & ? & _)|].
  case_bool_decide as H2; [split; [done|]; by intros (_ & _ & _ & ?)|]. cbn [orb].
  destruct (position _ label) as [i|] eqn:Hp.
  - apply position_Some in Hp as (x & Hx & Hb & _). rewrite Hx. split; [done|]. intros (_ & Hall & _).
    rewrite list.Forall_forall in Hall. specialize (Hall x ltac:(by eapply list_elem_of_lookup_2)). cbn in Hall. by rewrite Hall in Hb.
  - apply position_None in Hp. split; [|done]. intros _. split; [lia|]. split; [|done].
    eapply list.Forall_impl; [exact Hp|]. cbn. intros b Hb. by apply negb_false_iff.
Qed.

Lemma Host_parse_Ok text h :
  Host_parse text = Ok h ↔ h = mkHost (map to_ascii_lowercase text) ∧ Host_0 h ≠ [] ∧ len (Host_0 h) ≤ 253
    ∧ Forall host_label (split 0x2E (Host_0 h)).
Proof.
  unfold Host_parse, MAX_HOST_LEN. set (t := map to_ascii_lowercase text).
  case_bool_decide as Ht; [split; [done|]; by intros (-> & ? & _)|].
  destruct (Z.ltb_spec 253 (len t)); [split; [done|]; intros (-> & _ & H' & _); cbn in H'; lia|].
  destruct (find_map host_label_check (split 0x2E t)) as [e|] eqn:Hf.
  - split; [done|]. intros (-> & _ & _ & Hall). cbn in Hall. apply find_map_Some in Hf as (l & Hl & He).
    rewrite list.Forall_forall in Hall. apply Hall, host_label_check_None in Hl. congruence.
  - apply find_map_None in Hf. split; [|by intros (-> & _)]. intros [= <-]. cbn. split; [done|]. split; [done|]. split; [lia|].
    eapply list.Forall_impl; [exact Hf|]. intros l. apply host_label_check_None.
Qed.

(** The octets of a host. *)
Lemma split_bytes sep l (P : Z → Prop) : P sep → Forall (Forall P) (split sep l) → Forall P l.
Proof.
  intros Hs. induction l as [|b l IH]; cbn; [constructor|]. destruct (Z.eqb_spec b sep) as [->|].
  - intros [_ H]%Forall_cons_1. constructor; [done|]. by apply IH.
  - pose proof (split_not_nil sep l) as Hne. destruct (split sep l) as [|p ps]; [done|].
    intros [Hp Hps]%Forall_cons_1. apply Forall_cons_1 in Hp as [? ?]. constructor; [done|]. apply IH. by constructor.
Qed.
Lemma host_octets l : Forall host_label (split 0x2E l) → Forall (λ b, host_byte b = true ∨ b = 0x2E) l.
Proof.
  intros H. apply (split_bytes 0x2E); [by right|]. eapply list.Forall_impl; [exact H|]. intros p (_ & Hp & _).
  eapply list.Forall_impl; [exact Hp|]. intros b. by left.
Qed.
Lemma lower_host_octets l : Forall (λ b, host_byte b = true ∨ b = 0x2E) l → map to_ascii_lowercase l = l.
Proof.
  induction 1 as [|b l Hb _ IH]; cbn; [done|]. rewrite IH. f_equal. unfold to_ascii_lowercase.
  destruct (is_ascii_uppercase b) eqn:Hu; [|done]. exfalso. byte_tests. lia.
Qed.

(** A character not among the octets of a list. *)
Lemma not_in_Forall (P : Z → Prop) b l : Forall P l → ¬ P b → b ∉ l.
Proof. rewrite list.Forall_forall. intros H Hb Hin. by apply Hb, H. Qed.

Lemma dec_u16_digits n : 0 ≤ n ≤ 65535 →
  dec n ≠ [] ∧ forallb is_ascii_digit (dec n) = true ∧ parse_u16_digits (dec n) = Some n.
Proof.
  intros Hn. destruct (dec_spec n) as (Hd & Hv & Hne & _); [lia|]. split; [done|]. split.
  - apply forallb_forall. intros x Hx. rewrite Forall_forall in Hd. by apply Hd.
  - unfold parse_u16_digits. rewrite Hv. unfold u16_max. by destruct (Z.leb_spec n 65535); [|lia].
Qed.

(** ** Lemmas: reading a URI *)

Lemma scheme_read s rest : uri_scheme_of (Scheme_fmt s ++ SCHEME_SEPARATOR ++ rest) = Some (s, rest).
Proof.
  unfold uri_scheme_of, eq_ignore_ascii_case. destruct s; cbn -[map].
  - rewrite bool_decide_eq_false_2; [|by vm_compute]. done.
  - done.
Qed.
Lemma uri_scheme_of_inv input s rest : uri_scheme_of input = Some (s, rest) →
  ∃ p, input = p ++ rest ∧ map to_ascii_lowercase p = Scheme_fmt s ++ SCHEME_SEPARATOR.
Proof.
  unfold uri_scheme_of, eq_ignore_ascii_case. case_bool_decide as H1; [|case_bool_decide as H2; [|done]]; intros [= <- <-].
  - exists (take 8 input). rewrite take_drop. by rewrite H1.
  - exists (take 7 input). rewrite take_drop. by rewrite H2.
Qed.

Definition authority_octet (b : Z) : Prop := host_byte b = true ∨ b = 0x2E ∨ b = 0x3A.
Lemma digit_host b : is_ascii_digit b = true → host_byte b = true.
Proof. byte_tests. lia. Qed.
Lemma authority_octets u : Uri_wf u → Forall authority_octet (authority_string u) ∧ (0x3A ∉ Host_0 (uri_host u))
  ∧ (0x3A ∉ dec (uri_port u)).
Proof.
  intros [(Hne & _ & Hh%host_octets) Hport _ _]. destruct (dec_spec (uri_port u)) as (Hd & _); [lia|].
  assert (Forall authority_octet (Host_0 (uri_host u))) as Hho.
  { eapply list.Forall_impl; [exact Hh|]. unfold authority_octet. naive_solver. }
  split; [|split].
  - unfold authority_string. case_match; [done|]. apply Forall_app. split; [done|]. constructor; [right; by right|].
    eapply list.Forall_impl; [exact Hd|]. intros b Hb. left. by apply digit_host.
  - eapply not_in_Forall; [exact Hh|]. cbn. unfold host_byte. byte_tests. lia.
  - eapply not_in_Forall; [exact Hd|]. cbn. byte_tests. lia.
Qed.

Lemma authority_parts_read u : Uri_wf u →
  authority_parts (uri_scheme u) (authority_string u) = Ok (Host_0 (uri_host u), uri_port u).
Proof.
  intros Hwf. destruct (authority_octets u Hwf) as (_ & Hh & Hd). pose proof (wf_port _ Hwf) as Hp.
  unfold authority_parts, authority_string. destruct (Z.eqb_spec (uri_port u) (Scheme_default_port (uri_scheme u))) as [->|].
  - by rewrite rsplit_once_none.
  - cbn [app]. rewrite rsplit_once_at by done.
    destruct (dec_u16_digits (uri_port u)) as (Hne & Hdig & ->); [lia|].
    rewrite bool_decide_eq_false_2 by done. rewrite Hdig. cbn. by destruct (Z.eqb_spec (uri_port u) 0); [lia|].
Qed.

Lemma fmt_tail u : Uri_wf u → let tail := (if Query_is_empty (uri_query u) then [] else ([0x3F] ++ Query_0 (uri_query u))) in
  (0x23 ∉ (Path_0 (uri_path u) ++ tail)) ∧
  default (Path_0 (uri_path u) ++ tail, []) (split_once 0x3F (Path_0 (uri_path u) ++ tail)) = (Path_0 (uri_path u), Query_0 (uri_query u)).
Proof.
  intros [_ _ [_ Hp%path_text_bytes] Hq%query_text_bytes]. cbv zeta.
  assert ((0x3F ∉ Path_0 (uri_path u)) ∧ (0x23 ∉ Path_0 (uri_path u)) ∧ (0x23 ∉ Query_0 (uri_query u))) as (H3 & H2 & H4).
  { repeat split; (eapply not_in_Forall; [eassumption|cbn; lia]). }
  unfold Query_is_empty. case_bool_decide as He.
  - rewrite app_nil_r, He. split; [done|]. by rewrite split_once_none.
  - cbn [app]. split; [|by rewrite split_once_at].
    rewrite not_elem_of_app, not_elem_of_cons. repeat split; done || lia.
Qed.

Lemma Uri_parse_read u : Uri_wf u → len (Uri_fmt u) ≤ 8000 → Uri_parse (Uri_fmt u) = Ok u.
Proof.
  intros Hwf Hlen. unfold Uri_parse, MAX_URI_LEN. destruct (Z.ltb_spec 8000 (len (Uri_fmt u))); [lia|].
  unfold Uri_fmt. rewrite scheme_read. cbn [ok_or result_bind].
  destruct (authority_octets u Hwf) as (Hoct & _). destruct (fmt_tail u Hwf) as [Hfrag Hsplit]. cbv zeta in Hfrag, Hsplit.
  set (tail := if Query_is_empty _ then [] else _) in *.
  pose proof (wf_path _ Hwf) as [Hhead Hpath]. destruct (Path_0 (uri_path u)) as [|s path'] eqn:Hp; [done|].
  injection Hhead as ->.
  assert (position ends_authority (authority_string u ++ (0x2F :: path') ++ tail) = Some (length (authority_string u))) as ->.
  { cbn [app]. apply position_at; [|done]. eapply list.Forall_impl; [exact Hoct|].
    unfold authority_octet, ends_authority. intros b Hb. rewrite elem_cases. cbn [existsb]. byte_tests. lia. }
  cbn [from_option Datatypes.id]. rewrite take_app_length, drop_app_length.
  assert (contains_byte 0x40 (authority_string u) = false) as ->.
  { apply bool_decide_eq_false_2. eapply not_in_Forall; [exact Hoct|]. unfold authority_octet. byte_tests. lia. }
  rewrite authority_parts_read by done. cbn [result_bind].
  assert (Host_parse (Host_0 (uri_host u)) = Ok (uri_host u)) as ->.
  { apply Host_parse_Ok. pose proof (wf_host _ Hwf) as (? & ? & Hl). rewrite lower_host_octets by by apply host_octets.
    by destruct (uri_host u). }
  cbn [map_err result_bind]. rewrite split_none by done. cbn [head from_option Datatypes.id]. rewrite Hsplit. cbv beta iota.
  unfold Path_parse. rewrite (proj2 (pct_first_error_None _ _ _) Hpath). cbn [map_err result_bind].
  unfold Query_parse. rewrite (proj2 (pct_first_error_None _ _ _) (wf_query _ Hwf)). cbn [map_err result_bind].
  rewrite bool_decide_eq_false_2 by done. rewrite <- Hp. by destruct u as [? ? ? [] []].
Qed.

Lemma position_split {A} (p : A → bool) (l : list A) :
  let i := default (length l) (position p l) in
  Forall (λ x, p x = false) (take i l) ∧ (drop i l = [] ∨ ∃ x r, drop i l = x :: r ∧ p x = true).
Proof.
  destruct (position p l) as [i|] eqn:Hp; cbn.
  - apply position_Some in Hp as (x & Hx & Hpx & Hf). split; [done|]. right. exists x, (drop (S i) l).
    split; [by apply drop_S|done].
  - apply position_None in Hp. rewrite firstn_all, drop_all. split; [done|by left].
Qed.

Lemma authority_parts_port s authority host port : authority_parts s authority = Ok (host, port) → 1 ≤ port ≤ 65535.
Proof.
  unfold authority_parts. destruct (rsplit_once 0x3A authority) as [[h p]|]; [|intros [= _ <-]; by destruct s].
  destruct (_ || _) eqn:Hd; [done|]. intros (v & Hv%ok_or_inv & H)%result_bind_inv_ok.
  destruct (Z.eqb_spec v 0); [done|]. injection H as _ <-. unfold parse_u16_digits, u16_max in Hv.
  destruct (Z.leb_spec (dec_value p) 65535); [|done]. injection Hv as <-.
  apply orb_false_iff in Hd as [_ Hd%negb_false_iff]. rewrite forallb_forall in Hd.
  pose proof (dec_value_bound p) as Hb. rewrite list.Forall_forall in Hb. specialize (Hb ltac:(intros x Hx%list_elem_of_In; by apply Hd)). lia.
Qed.

Lemma Uri_parse_wf input u : Uri_parse input = Ok u → Uri_wf u.
Proof.
  unfold Uri_parse. destruct (_ <? _); [done|].
  intros ((s & after) & _ & H)%result_bind_inv_ok. cbv beta iota in H.
  pose proof (position_split ends_authority after) as [_ Hafter]. cbv zeta in Hafter.
  set (i := default _ _) in *. destruct (contains_byte _ _); [done|].
  apply result_bind_inv_ok in H as ((host_raw & port) & Hport%authority_parts_port & H). cbv beta iota in H.
  apply result_bind_inv_ok in H as (host & Hhost & H).
  destruct (split_hd 0x23 (drop i after)) as (wf & ps & Hs & _ & Hwf). rewrite Hs in H. cbn [head from_option Datatypes.id] in H.
  destruct (default (wf, []) (split_once 0x3F wf)) as [path_raw query_raw] eqn:Hq.
  apply result_bind_inv_ok in H as (path & Hpath & H). apply result_bind_inv_ok in H as (query & Hquery & [= <-]).
  split; cbn [uri_host uri_port uri_path uri_query].
  - destruct (Host_parse host_raw) as [h|e|] eqn:Hh; [|done..]. injection Hhost as ->. by apply Host_parse_Ok in Hh as (_ & ?).
  - done.
  - unfold Path_parse in Hpath. destruct (pct_first_error path_byte 0 path_raw) eqn:Hpe; [done|].
    injection Hpath as <-. apply pct_first_error_None in Hpe. cbn [Path_0].
    case_bool_decide as He; [split; [done|by apply Pct_byte; [|vm_compute|constructor]]|]. split; [|done].
    destruct path_raw as [|c path_raw]; [done|]. cbn [head]. f_equal.
    assert (∃ r, wf = c :: path_raw ++ r) as (r & Hr).
    { destruct (split_once 0x3F wf) as [[a b]|] eqn:Hso; cbn in Hq.
      - apply split_once_inv in Hso as [-> _]. injection Hq as -> _. by eexists.
      - injection Hq as -> _. exists []. by rewrite app_nil_r. }
    assert (∃ r, drop i after = c :: r) as (r' & Hr').
    { destruct Hwf as [[-> _]|(r' & -> & _)]; rewrite Hr; by eexists. }
    destruct Hafter as [Hnil|(x & r'' & Hx & Hends)]; [by rewrite Hnil in Hr'|].
    rewrite Hr' in Hx. injection Hx as <- _. unfold ends_authority in Hends. rewrite elem_cases in Hends. cbn [existsb] in Hends.
    inversion Hpe as [|hi lo l|b l Hb Hc Hl]; subst; [done|]. apply visible_path in Hc. lia.
  - unfold Query_parse in Hquery. destruct (pct_first_error query_byte 0 query_raw) eqn:Hpe; [done|].
    injection Hquery as <-. by apply pct_first_error_None in Hpe.
Qed.

(** What stands before the first slash of the path is the origin, whatever follows. *)
Lemma origin_read u rest v : Uri_wf u →
  Uri_parse (Scheme_fmt (uri_scheme u) ++ SCHEME_SEPARATOR ++ authority_string u ++ 0x2F :: rest) = Ok v →
  uri_scheme v = uri_scheme u ∧ uri_host v = uri_host u ∧ uri_port v = uri_port u.
Proof.
  intros Hwf. unfold Uri_parse. destruct (_ <? _); [done|]. rewrite scheme_read. cbn [ok_or result_bind].
  destruct (authority_octets u Hwf) as (Hoct & _).
  assert (position ends_authority (authority_string u ++ 0x2F :: rest) = Some (length (authority_string u))) as ->.
  { apply position_at; [|done]. eapply list.Forall_impl; [exact Hoct|].
    unfold authority_octet, ends_authority. intros b Hb. rewrite elem_cases. cbn [existsb]. byte_tests. lia. }
  cbn [from_option Datatypes.id]. rewrite take_app_length, drop_app_length. destruct (contains_byte _ _); [done|].
  rewrite authority_parts_read by done. cbn [result_bind].
  assert (Host_parse (Host_0 (uri_host u)) = Ok (uri_host u)) as ->.
  { apply Host_parse_Ok. pose proof (wf_host _ Hwf) as (? & ? & Hl). rewrite lower_host_octets by by apply host_octets.
    by destruct (uri_host u). }
  cbn [map_err result_bind]. destruct (default _ _) as [path_raw query_raw].
  intros (path & _ & H)%result_bind_inv_ok. by apply result_bind_inv_ok in H as (query & _ & [= <-]).
Qed.

Lemma path_directory p : head p = Some 0x2F → ∃ d, take (default 0%nat (S <$> rfind 0x2F p)) p = 0x2F :: d.
Proof.
  intros Hp. destruct p as [|c p]; [done|]. injection Hp as ->. unfold rfind.
  destruct (position (is_byte_eq 0x2F) (reverse (0x2F :: p))) as [i|] eqn:Hi; cbn.
  - apply position_Some in Hi as (x & Hx & _). apply lookup_lt_Some in Hx. rewrite length_reverse in Hx. simpl in Hx.
    by eexists.
  - apply position_None in Hi. rewrite Forall_forall in Hi.
    specialize (Hi 0x2F ltac:(apply list_elem_of_In; rewrite elem_of_reverse; by left)). done.
Qed.

(** a URI that was read is safe to send. What the reader accepts has a host of labels
    of letters, digits and inner hyphens, a port above zero, a path that begins with a slash
    and whole percent-escapes; every octet of its text is a visible ASCII character, so
    that it stays one token of a request line; its text reads back as the same URI; and a
    redirection to a path, absolute or relative, stays at the scheme, host and port. *)
Theorem uri_exact :
  (∀ input u, Uri_parse input = Ok u → Uri_wf u) ∧
  (∀ u, Uri_wf u → Forall (λ b, 0x21 ≤ b ≤ 0x7E) (Uri_fmt u)) ∧
  (∀ u, Uri_wf u → len (Uri_fmt u) ≤ 8000 → Uri_parse (Uri_fmt u) = Ok u) ∧
  (∀ u location v, Uri_wf u → Uri_join u location = Ok v →
     starts_with HTTP_PREFIX location = false → starts_with HTTPS_PREFIX location = false →
     starts_with [0x2F; 0x2F] location = false →
     uri_scheme v = uri_scheme u ∧ uri_host v = uri_host u ∧ uri_port v = uri_port u).
Proof.
  split; [apply Uri_parse_wf|]. split; [|split; [apply Uri_parse_read|]].
  - intros u Hwf. destruct (authority_octets u Hwf) as (Hoct & _). destruct Hwf as [_ _ [_ Hp%path_text_bytes] Hq%query_text_bytes].
    unfold Uri_fmt. rewrite !Forall_app. split; [destruct (uri_scheme u); by_decide|]. split; [by_decide|]. split; [|split].
    + eapply list.Forall_impl; [exact Hoct|]. unfold authority_octet. intros b Hb. byte_tests. lia.
    + eapply list.Forall_impl; [exact Hp|]. cbn. lia.
    + case_match; [constructor|]. constructor; [lia|]. eapply list.Forall_impl; [exact Hq|]. cbn. lia.
  - intros u location v Hwf. unfold Uri_join. intros Hj H1 H2 H3. rewrite H1, H2 in Hj. cbn [orb] in Hj. unfold strip_prefix in Hj.
    change (bytes_of_string "//") with [0x2F; 0x2F] in Hj. unfold starts_with in H3. apply bool_decide_eq_false_1 in H3.
    rewrite decide_False in Hj by done. destruct (starts_with [0x2F] location) eqn:Hs.
    + apply starts_with_inv in Hs as [r ->]. by apply (origin_read u r).
    + destruct (path_directory _ (proj1 (wf_path _ Hwf))) as [d Hd]. rewrite Hd in Hj. by apply (origin_read u (d ++ location)).
Qed.

Definition demo_uri : Uri := mkUri Https (mkHost (bytes_of_string "ocsp.fineid.fi")) 8443 (mkPath (bytes_of_string "/a/b%20c"))
  (mkQuery (bytes_of_string "x=1")).
Lemma uri_exact_witness :
  let text := bytes_of_string "HTTPS://ocsp.FINEID.fi:8443/a/b%20c?x=1#top" in
  Uri_parse text = Ok demo_uri ∧ Uri_wf demo_uri ∧ Uri_parse (Uri_fmt demo_uri) = Ok demo_uri
  ∧ uri_host (mkUri Https (uri_host demo_uri) 8443 (mkPath (bytes_of_string "/a/c")) (mkQuery [])) = uri_host demo_uri.
Proof.
  intros text. assert (Uri_parse text = Ok demo_uri) as Ht by by vm_compute.
  destruct uri_exact as (Hwf & _ & Hread & Hjoin). pose proof (Hwf _ _ Ht) as Hdemo.
  split; [done|]. split; [done|]. split; [apply Hread; [done|by apply Z.leb_le]|].
  apply (Hjoin demo_uri (bytes_of_string "c") _ Hdemo); by vm_compute.
Defined.
