(* ===== verification/Atr.v ===== *)
(** The answer to reset and the card model: crates/refineid-lib-core/src/atr.rs and
    fineid_card.rs. The bit-field newtypes keep their octet; the Display texts and the
    labels' use in them are left out. *)

From S2P Require Import Prelude.

(** ** Bit fields *)

Definition ATR_MIN_LEN : Z := 2.
Definition ATR_MAX_LEN : Z := 33.
Definition TS_DIRECT : Z := 0x3B.
Definition TS_INVERSE : Z := 0x3F.

Inductive Convention := Conv_Direct | Conv_Inverse.
Definition Convention_from_ts (ts : Z) : option Convention :=
  if ts =? TS_DIRECT then Some Conv_Direct
  else if ts =? TS_INVERSE then Some Conv_Inverse
  else None.
Definition Convention_as_ts (c : Convention) : Z :=
  match c with Conv_Direct => TS_DIRECT | Conv_Inverse => TS_INVERSE end.

Record Yi := mkYi { Yi_0 : Z }.
Definition Yi_from_nibble (nibble : Z) : Yi := mkYi (Z.land nibble 0x0F).
Definition Yi_ta_present (y : Yi) : bool := negb (Z.land (Yi_0 y) 1 =? 0).
Definition Yi_tb_present (y : Yi) : bool := negb (Z.land (Yi_0 y) 2 =? 0).
Definition Yi_tc_present (y : Yi) : bool := negb (Z.land (Yi_0 y) 4 =? 0).
Definition Yi_td_present (y : Yi) : bool := negb (Z.land (Yi_0 y) 8 =? 0).
Definition Yi_any_present (y : Yi) : bool := negb (Yi_0 y =? 0).
Definition Yi_as_nibble (y : Yi) : Z := Yi_0 y.

Record T0 := mkT0 { y1 : Yi; historical_byte_count : Z }.
Definition T0_from_byte (b : Z) : T0 := mkT0 (Yi_from_nibble (Z.shiftr b 4)) (Z.land b 0x0F).
Definition T0_as_byte (t : T0) : Z :=
  Z.lor (Z.land (Z.shiftl (Yi_as_nibble (y1 t)) 4) 255) (Z.land (historical_byte_count t) 0x0F).

Definition MINIMAL_DIRECT_ATR : bytes := [Convention_as_ts Conv_Direct; T0_as_byte (mkT0 (Yi_from_nibble 0) 0)].

Record TaByte := mkTa { Ta_0 : Z }.
Definition TaByte_new (b : Z) : TaByte := mkTa b.
Definition TaByte_as_byte (t : TaByte) : Z := Ta_0 t.
Definition TaByte_fi_index (t : TaByte) : Z := Z.land (Z.shiftr (Ta_0 t) 4) 0x0F.
Definition TaByte_di_index (t : TaByte) : Z := Z.land (Ta_0 t) 0x0F.
Definition ta1_clock_rate_conversion (t : TaByte) : option Z :=
  match TaByte_fi_index t with
  | 0 | 1 => Some 372
  | 2 => Some 558
  | 3 => Some 744
  | 4 => Some 1116
  | 5 => Some 1488
  | 6 => Some 1860
  | 9 => Some 512
  | 10 => Some 768
  | 11 => Some 1024
  | 12 => Some 1536
  | 13 => Some 2048
  | _ => None
  end.
Definition ta1_max_frequency_khz (t : TaByte) : option Z :=
  match TaByte_fi_index t with
  | 0 => Some 4000
  | 1 | 9 => Some 5000
  | 2 => Some 6000
  | 3 => Some 8000
  | 10 => Some 7500
  | 11 => Some 10000
  | 4 => Some 12000
  | 12 => Some 15000
  | 5 => Some 16000
  | 6 | 13 => Some 20000
  | _ => None
  end.
Definition ta1_bit_rate_adjustment (t : TaByte) : option Z :=
  match TaByte_di_index t with
  | 1 => Some 1
  | 2 => Some 2
  | 3 => Some 4
  | 4 => Some 8
  | 5 => Some 16
  | 6 => Some 32
  | 7 => Some 64
  | 8 => Some 12
  | 9 => Some 20
  | _ => None
  end.

Record TbByte := mkTb { Tb_0 : Z }.
Definition TbByte_new (b : Z) : TbByte := mkTb b.
Definition TbByte_as_byte (t : TbByte) : Z := Tb_0 t.
Record TcByte := mkTc { Tc_0 : Z }.
Definition TcByte_new (b : Z) : TcByte := mkTc b.
Definition TcByte_as_byte (t : TcByte) : Z := Tc_0 t.
Record TdByte := mkTd { Td_0 : Z }.
Definition TdByte_new (b : Z) : TdByte := mkTd b.
Definition TdByte_as_byte (t : TdByte) : Z := Td_0 t.
Definition TdByte_protocol_indicator (t : TdByte) : Z := Z.land (Td_0 t) 0x0F.
Definition TdByte_next_yi (t : TdByte) : Yi := Yi_from_nibble (Z.shiftr (Td_0 t) 4).

Record InterfaceByteGroup := mkGroup {
  ig_ta : option TaByte; ig_tb : option TbByte; ig_tc : option TcByte; ig_td : option TdByte;
}.

(** ** Historical bytes *)

Definition CTLV_TAG_COUNTRY : Z := 0x1.
Definition CTLV_TAG_ISSUER_ID : Z := 0x2.
Definition CTLV_TAG_CARD_SERVICE : Z := 0x3.
Definition CTLV_TAG_INITIAL_ACCESS : Z := 0x4.
Definition CTLV_TAG_CARD_ISSUER : Z := 0x5.
Definition CTLV_TAG_PRE_ISSUING : Z := 0x6.
Definition CTLV_TAG_CARD_CAPABILITIES : Z := 0x7.
Definition CTLV_TAG_STATUS : Z := 0x8.

Record CardServiceData := mkCsd { Csd_0 : Z }.
Definition CardServiceData_from_byte (b : Z) : CardServiceData := mkCsd b.
Definition app_selection_by_full_df_name (c : CardServiceData) : bool := negb (Z.land (Csd_0 c) 0x80 =? 0).
Definition app_selection_by_partial_df_name (c : CardServiceData) : bool := negb (Z.land (Csd_0 c) 0x40 =? 0).
Definition ber_tlv_in_ef_dir (c : CardServiceData) : bool := negb (Z.land (Csd_0 c) 0x20 =? 0).
Definition ber_tlv_in_ef_atr (c : CardServiceData) : bool := negb (Z.land (Csd_0 c) 0x10 =? 0).
Definition ef_access_services (c : CardServiceData) : Z := Z.land (Z.shiftr (Csd_0 c) 1) 7.
Definition has_master_file (c : CardServiceData) : bool := Z.land (Csd_0 c) 1 =? 0.

Inductive StatusIndicator :=
| Si_LifeCycle (lcs : Z)
| Si_StatusWord (sw1 sw2 : Z)
| Si_Full (lcs sw1 sw2 : Z).

Record CountryIndicator := mkCountry { country_bytes : bytes }.
Definition country_code (c : CountryIndicator) : option Z :=
  first ← zget 0 (country_bytes c);
  second ← zget 1 (country_bytes c);
  let d0 := Z.shiftr first 4 in
  let d1 := Z.land first 0x0F in
  let d2 := Z.shiftr second 4 in
  if (9 <? d0) || (9 <? d1) || (9 <? d2) then None
  else Some (d0 * 100 + d1 * 10 + d2).

Record CardCapabilities := mkCapabilities { capability_bytes : bytes }.
Definition selection_methods (c : CardCapabilities) : option Z := zget 0 (capability_bytes c).
Definition data_coding (c : CardCapabilities) : option Z := zget 1 (capability_bytes c).
Definition command_chaining (c : CardCapabilities) : option Z := zget 2 (capability_bytes c).
Definition supports_command_chaining (c : CardCapabilities) : option bool :=
  (λ b, negb (Z.land b 0x80 =? 0)) <$> command_chaining c.
Definition supports_extended_length (c : CardCapabilities) : option bool :=
  (λ b, negb (Z.land b 0x40 =? 0)) <$> command_chaining c.

Inductive HistoricalDataObject :=
| Hdo_CountryCode (c : CountryIndicator)
| Hdo_IssuerIdNumber (value : bytes)
| Hdo_CardServiceData (c : CardServiceData)
| Hdo_InitialAccessData (value : bytes)
| Hdo_CardIssuerData (value : bytes)
| Hdo_PreIssuingData (value : bytes)
| Hdo_CardCapabilities (c : CardCapabilities)
| Hdo_StatusIndicator (s : StatusIndicator)
| Hdo_Other (tag : Z) (value : bytes).

Record CompactTlv := mkCompactTlv { ctlv_tag : Z; ctlv_value : bytes }.
Definition CompactTlv_single_byte (t : CompactTlv) : option Z :=
  match ctlv_value t with [b] => Some b | _ => None end.
Definition CompactTlv_status_indicator (t : CompactTlv) : option StatusIndicator :=
  match ctlv_value t with
  | [lcs] => Some (Si_LifeCycle lcs)
  | [sw1; sw2] => Some (Si_StatusWord sw1 sw2)
  | [lcs; sw1; sw2] => Some (Si_Full lcs sw1 sw2)
  | _ => None
  end.
Definition CompactTlv_proprietary (t : CompactTlv) : HistoricalDataObject := Hdo_Other (ctlv_tag t) (ctlv_value t).
Definition CompactTlv_interpret (t : CompactTlv) : HistoricalDataObject :=
  let tag := ctlv_tag t in
  if tag =? CTLV_TAG_COUNTRY then Hdo_CountryCode (mkCountry (ctlv_value t))
  else if tag =? CTLV_TAG_ISSUER_ID then Hdo_IssuerIdNumber (ctlv_value t)
  else if tag =? CTLV_TAG_CARD_SERVICE then
    match CompactTlv_single_byte t with
    | Some b => Hdo_CardServiceData (mkCsd b)
    | None => CompactTlv_proprietary t
    end
  else if tag =? CTLV_TAG_INITIAL_ACCESS then Hdo_InitialAccessData (ctlv_value t)
  else if tag =? CTLV_TAG_CARD_ISSUER then Hdo_CardIssuerData (ctlv_value t)
  else if tag =? CTLV_TAG_PRE_ISSUING then Hdo_PreIssuingData (ctlv_value t)
  else if tag =? CTLV_TAG_CARD_CAPABILITIES then Hdo_CardCapabilities (mkCapabilities (ctlv_value t))
  else if tag =? CTLV_TAG_STATUS then
    match CompactTlv_status_indicator t with
    | Some s => Hdo_StatusIndicator s
    | None => CompactTlv_proprietary t
    end
  else CompactTlv_proprietary t.

Record HistoricalBytes := mkHistorical { hist_bytes : bytes }.
Definition category_indicator (h : HistoricalBytes) : option Z := zget 0 (hist_bytes h).
Definition is_compact_tlv (h : HistoricalBytes) : bool := bool_decide (category_indicator h = Some 0x80).
(** The loop from [idx]; each round takes a header, so [length l] rounds are enough. *)
Fixpoint compact_tlv_from (fuel : nat) (idx : Z) (l : bytes) : list CompactTlv :=
  match fuel with
  | O => []
  | S fuel =>
      match zget idx l with
      | None => []
      | Some header =>
          let idx := idx + 1 in
          let value_end := idx + Z.land header 0x0F in
          match zslice idx value_end l with
          | None => []
          | Some value => mkCompactTlv (Z.shiftr header 4) value :: compact_tlv_from fuel value_end l
          end
      end
  end.
Definition compact_tlv_entries (h : HistoricalBytes) : list CompactTlv :=
  if is_compact_tlv h then compact_tlv_from (length (hist_bytes h)) 1 (hist_bytes h) else [].
Definition data_objects (h : HistoricalBytes) : list HistoricalDataObject :=
  map CompactTlv_interpret (compact_tlv_entries h).

(** ** The answer to reset *)

Record TckByte := mkTck { Tck_0 : Z }.
Record Atr := mkAtr {
  atr_convention : Convention; atr_t0 : T0; atr_groups : list InterfaceByteGroup;
  atr_historical : HistoricalBytes; atr_tck : option TckByte;
}.

Inductive AtrError :=
| Atr_TooShort (got : Z)
| Atr_TooLong (got : Z)
| Atr_InvalidConvention (got : Z)
| Atr_TruncatedAtInterfaceBytes
| Atr_TruncatedAtHistoricalBytes
| Atr_MissingTck
| Atr_TrailingBytes (expected_end got : Z).

(** One interface octet, when its flag is set. *)
Definition interface_byte {A} (present : bool) (mk : Z → A) (bs : bytes) (idx : Z) : result AtrError (Z * option A) :=
  if present then let? b := ok_or (zget idx bs) Atr_TruncatedAtInterfaceBytes in Ok (idx + 1, Some (mk b))
  else Ok (idx, None).
Definition interface_group (bs : bytes) (yi : Yi) (idx : Z) : result AtrError (Z * InterfaceByteGroup) :=
  let? (idx, ta) := interface_byte (Yi_ta_present yi) TaByte_new bs idx in
  let? (idx, tb) := interface_byte (Yi_tb_present yi) TbByte_new bs idx in
  let? (idx, tc) := interface_byte (Yi_tc_present yi) TcByte_new bs idx in
  let? (idx, td) := interface_byte (Yi_td_present yi) TdByte_new bs idx in
  Ok (idx, mkGroup ta tb tc td).
Fixpoint interface_groups (fuel : nat) (bs : bytes) (yi : Yi) (idx : Z) (groups : list InterfaceByteGroup)
  (any_non_t0_protocol : bool) : result AtrError (Z * list InterfaceByteGroup * bool) :=
  match fuel with
  | O => Panic
  | S fuel =>
      if negb (Yi_any_present yi) then Ok (idx, groups, any_non_t0_protocol)
      else
        let? (idx, group) := interface_group bs yi idx in
        let groups := groups ++ [group] in
        match ig_td group with
        | Some td =>
            interface_groups fuel bs (TdByte_next_yi td) idx groups
              (any_non_t0_protocol || negb (TdByte_protocol_indicator td =? 0))
        | None => Ok (idx, groups, any_non_t0_protocol)
        end
  end.

Definition Atr_new (bs : bytes) : result AtrError Atr :=
  if len bs <? ATR_MIN_LEN then Err (Atr_TooShort (len bs))
  else if ATR_MAX_LEN <? len bs then Err (Atr_TooLong (len bs))
  else
    let? ts := ok_or (zget 0 bs) (Atr_TooShort (len bs)) in
    let? convention := ok_or (Convention_from_ts ts) (Atr_InvalidConvention ts) in
    let? t0_byte := ok_or (zget 1 bs) (Atr_TooShort (len bs)) in
    let t0 := T0_from_byte t0_byte in
    let? (idx, groups, any_non_t0_protocol) := interface_groups (S (length bs)) bs (y1 t0) 2 [] false in
    let hist_end := idx + historical_byte_count t0 in
    let? hist := ok_or (zslice idx hist_end bs) Atr_TruncatedAtHistoricalBytes in
    let? (idx, tck) :=
      if any_non_t0_protocol then
        let? b := ok_or (zget hist_end bs) Atr_MissingTck in Ok (hist_end + 1, Some (mkTck b))
      else Ok (hist_end, None) in
    if negb (idx =? len bs) then Err (Atr_TrailingBytes idx (len bs))
    else Ok (mkAtr convention t0 groups (mkHistorical hist) tck).

Definition octet {A} (as_byte : A → Z) (o : option A) : bytes := match o with Some a => [as_byte a] | None => [] end.
Definition group_bytes (g : InterfaceByteGroup) : bytes :=
  octet TaByte_as_byte (ig_ta g) ++ octet TbByte_as_byte (ig_tb g) ++ octet TcByte_as_byte (ig_tc g)
  ++ octet TdByte_as_byte (ig_td g).
Definition Atr_to_wire_bytes (a : Atr) : bytes :=
  [Convention_as_ts (atr_convention a); T0_as_byte (atr_t0 a)] ++ concat (map group_bytes (atr_groups a))
  ++ hist_bytes (atr_historical a) ++ octet Tck_0 (atr_tck a).
Definition td_non_t0 (td : option TdByte) : bool :=
  match td with Some td => negb (TdByte_protocol_indicator td =? 0) | None => false end.
Definition supports_non_t0_protocol (a : Atr) : bool := existsb (λ g, td_non_t0 (ig_td g)) (atr_groups a).

(** ** The card model *)

Record FineidPreIssuingData := mkPreIssuing {
  pid_family_name : Z; pid_product_name : Z; pid_os_version : Z; pid_program_version : Z; pid_chip_id : Z;
}.
Definition FineidPreIssuingData_from_array (b0 b1 b2 b3 b4 : Z) : FineidPreIssuingData := mkPreIssuing b0 b1 b2 b3 b4.

Inductive CardType := Ct_CitizenEid | Ct_SocialWelfareAndOrganizational | Ct_HealthCareAndOrganizational.
Definition CardType_as_dvv_label (t : CardType) : string :=
  match t with
  | Ct_CitizenEid => "Citizen eID"
  | Ct_SocialWelfareAndOrganizational => "Social welfare and organizational"
  | Ct_HealthCareAndOrganizational => "Health care and organizational"
  end.
Inductive CardVendor := Cv_Thales | Cv_Gemalto | Cv_Idemia.
Definition CardVendor_as_dvv_label (v : CardVendor) : string :=
  match v with Cv_Thales => "Thales" | Cv_Gemalto => "Gemalto" | Cv_Idemia => "Idemia" end.

Inductive FineidCardModel := ThalesMultiAppV5_0 | GemaltoMultiAppV4_2 | IdemiaCosmoX.
#[export] Instance FineidCardModel_eq_dec : EqDecision FineidCardModel.
Proof. solve_decision. Defined.

Definition IDEMIA_COSMO_X_CONTACT_ATR : bytes :=
  [0x3B; 0xDD; 0x96; 0x00; 0x80; 0x31; 0xFE; 0x45; 0x00; 0x31; 0xB8; 0x64; 0x04; 0x29; 0xEC; 0xC1;
   0x73; 0x94; 0x01; 0x80; 0x83; 0x49].
Definition IDEMIA_COSMO_X_CONTACTLESS_ATS : bytes :=
  [0x3B; 0x89; 0x80; 0x01; 0x00; 0x31; 0xB8; 0x64; 0x04; 0x29; 0xEC; 0xC1; 0x73; 0x94; 0x01; 0x80; 0x83].
Definition FINEID_PRE_ISSUING_FAMILY : Z := 0xB0.
Definition FINEID_PRE_ISSUING_PRODUCT : Z := 0x85.
Definition FINEID_OS_VERSION_THALES_V5_0 : Z := 0x05.
Definition FINEID_OS_VERSION_GEMALTO_V4_2 : Z := 0x04.

Definition all_known : list FineidCardModel := [ThalesMultiAppV5_0; GemaltoMultiAppV4_2; IdemiaCosmoX].
Definition contact_atr_byte_sets (m : FineidCardModel) : list bytes :=
  match m with
  | ThalesMultiAppV5_0 =>
      [[0x3B; 0x7F; 0x96; 0x00; 0x00; 0x80; 0x31; 0xB8; 0x65; 0xB0; 0x85; 0x05; 0x00;
        0x11; 0x12; 0x24; 0x60; 0x82; 0x90; 0x00];
       [0x3B; 0x7F; 0x96; 0x00; 0x00; 0x80; 0x31; 0xB8; 0x65; 0xB0; 0x85; 0x05; 0x10;
        0x24; 0x12; 0x24; 0x60; 0x82; 0x90; 0x00]]
  | GemaltoMultiAppV4_2 =>
      [[0x3B; 0x7F; 0x96; 0x00; 0x00; 0x80; 0x31; 0xB8; 0x65; 0xB0; 0x85; 0x04; 0x02;
        0x1B; 0x12; 0x00; 0xF6; 0x82; 0x90; 0x00]]
  | IdemiaCosmoX => [IDEMIA_COSMO_X_CONTACT_ATR]
  end.
Definition contactless_ats_byte_sets (m : FineidCardModel) : list bytes :=
  match m with
  | ThalesMultiAppV5_0 =>
      [[0x14; 0x78; 0x77; 0x95; 0x02; 0x80; 0x31; 0xB8; 0x65; 0xB0; 0x85; 0x05; 0x00; 0x11;
        0x12; 0x24; 0x60; 0x82; 0x90; 0x00]]
  | GemaltoMultiAppV4_2 =>
      [[0x14; 0x78; 0x77; 0x95; 0x02; 0x80; 0x31; 0xB8; 0x65; 0xB0; 0x85; 0x04; 0x02; 0x1B;
        0x12; 0x00; 0xF6; 0x82; 0x90; 0x00]]
  | IdemiaCosmoX => [IDEMIA_COSMO_X_CONTACTLESS_ATS]
  end.
Definition from_exact_atr (atr : bytes) : option FineidCardModel :=
  if bool_decide (atr ∈ contact_atr_byte_sets IdemiaCosmoX) then Some IdemiaCosmoX else None.
Definition from_pre_issuing (pre : FineidPreIssuingData) : option FineidCardModel :=
  if negb (pid_family_name pre =? FINEID_PRE_ISSUING_FAMILY)
     || negb (pid_product_name pre =? FINEID_PRE_ISSUING_PRODUCT) then None
  else if pid_os_version pre =? FINEID_OS_VERSION_THALES_V5_0 then Some ThalesMultiAppV5_0
  else if pid_os_version pre =? FINEID_OS_VERSION_GEMALTO_V4_2 then Some GemaltoMultiAppV4_2
  else None.
Definition card_type (m : FineidCardModel) : CardType :=
  match m with
  | ThalesMultiAppV5_0 | GemaltoMultiAppV4_2 => Ct_CitizenEid
  | IdemiaCosmoX => Ct_SocialWelfareAndOrganizational
  end.
Definition vendor (m : FineidCardModel) : CardVendor :=
  match m with ThalesMultiAppV5_0 => Cv_Thales | GemaltoMultiAppV4_2 => Cv_Gemalto | IdemiaCosmoX => Cv_Idemia end.
Definition vendor_product (m : FineidCardModel) : string :=
  match m with ThalesMultiAppV5_0 | GemaltoMultiAppV4_2 => "MultiApp" | IdemiaCosmoX => "Cosmo" end.
Definition vendor_product_version (m : FineidCardModel) : string :=
  match m with ThalesMultiAppV5_0 => "5.0" | GemaltoMultiAppV4_2 => "4.2" | IdemiaCosmoX => "X" end.
Definition fineid_specification (m : FineidCardModel) : string :=
  match m with ThalesMultiAppV5_0 | GemaltoMultiAppV4_2 => "S4-1" | IdemiaCosmoX => "S1" end.
Definition fineid_specification_version (m : FineidCardModel) : string :=
  match m with ThalesMultiAppV5_0 => "4.0" | GemaltoMultiAppV4_2 => "3.1" | IdemiaCosmoX => "5.0" end.

Definition pre_issuing_object (object : HistoricalDataObject) : option FineidPreIssuingData :=
  match object with
  | Hdo_PreIssuingData [b0; b1; b2; b3; b4] => Some (FineidPreIssuingData_from_array b0 b1 b2 b3 b4)
  | _ => None
  end.
Definition fineid_pre_issuing (a : Atr) : option FineidPreIssuingData :=
  find_map pre_issuing_object (data_objects (atr_historical a)).
Inductive CardClassificationError := UnknownOrUnsupportedAtr (observed : Atr).
Definition classify (a : Atr) : result CardClassificationError FineidCardModel :=
  ok_or (match fineid_pre_issuing a ≫= from_pre_issuing with
         | Some m => Some m
         | None => from_exact_atr (Atr_to_wire_bytes a)
         end) (UnknownOrUnsupportedAtr a).

Inductive AtsError := Ats_Empty | Ats_TooLong (got : Z).
Record Ats := mkAts { Ats_0 : bytes }.
Definition Ats_new (bs : bytes) : result AtsError Ats :=
  if bool_decide (bs = []) then Err Ats_Empty
  else if 254 <? len bs then Err (Ats_TooLong (len bs))
  else Ok (mkAts bs).

(** ** What the octets of an answer to reset must be *)

Definition T0_wf (t : T0) : Prop := 0 ≤ Yi_0 (y1 t) < 16 ∧ 0 ≤ historical_byte_count t < 16.
Definition present {A} (o : option A) : bool := match o with Some _ => true | None => false end.
Definition group_matches (yi : Yi) (g : InterfaceByteGroup) : Prop :=
  present (ig_ta g) = Yi_ta_present yi ∧ present (ig_tb g) = Yi_tb_present yi ∧
  present (ig_tc g) = Yi_tc_present yi ∧ present (ig_td g) = Yi_td_present yi.
(** Each group has the octets its flags announce; TD announces the next group. *)
Fixpoint chain_ok (yi : Yi) (gs : list InterfaceByteGroup) : Prop :=
  match gs with
  | [] => Yi_any_present yi = false
  | g :: gs => Yi_any_present yi = true ∧ group_matches yi g ∧
      match ig_td g with Some td => chain_ok (TdByte_next_yi td) gs | None => gs = [] end
  end.
Definition Atr_wf (a : Atr) : Prop :=
  T0_wf (atr_t0 a) ∧ chain_ok (y1 (atr_t0 a)) (atr_groups a)
  ∧ len (hist_bytes (atr_historical a)) = historical_byte_count (atr_t0 a)
  ∧ present (atr_tck a) = supports_non_t0_protocol a.

(** ** Lemmas *)

(** What stands at an index. *)
Definition at_index (bs : bytes) (idx : Z) (rest : bytes) : Prop := ∃ pre, bs = pre ++ rest ∧ idx = len pre.

Lemma at_index_more bs idx l rest : at_index bs idx (l ++ rest) → at_index bs (idx + len l) rest.
Proof. intros (pre & -> & ->). exists (pre ++ l). rewrite len_app, <- app_assoc. done. Qed.

Lemma zget_at bs idx rest : at_index bs idx rest → zget idx bs = head rest.
Proof.
  intros (pre & -> & ->). destruct rest as [|b rest]; [|apply zget_app].
  rewrite app_nil_r. apply zget_None; unfold len; lia.
Qed.

(** A newtype of one octet. *)
Class IsOctet {A} (mk : Z → A) (as_byte : A → Z) := { octet_mk b : as_byte (mk b) = b; octet_surj a : mk (as_byte a) = a }.
#[export] Instance Ta_octet : IsOctet TaByte_new TaByte_as_byte.
Proof. split; [done|]. by intros []. Qed.
#[export] Instance Tb_octet : IsOctet TbByte_new TbByte_as_byte.
Proof. split; [done|]. by intros []. Qed.
#[export] Instance Tc_octet : IsOctet TcByte_new TcByte_as_byte.
Proof. split; [done|]. by intros []. Qed.
#[export] Instance Td_octet : IsOctet TdByte_new TdByte_as_byte.
Proof. split; [done|]. by intros []. Qed.

Lemma interface_byte_spec {A} p (mk : Z → A) as_byte bs idx rest idx' o `{!IsOctet mk as_byte} :
  at_index bs idx rest →
  interface_byte p mk bs idx = Ok (idx', o) ↔
  present o = p ∧ ∃ rest', rest = octet as_byte o ++ rest' ∧ idx' = idx + len (octet as_byte o) ∧ at_index bs idx' rest'.
Proof.
  intros Hat. unfold interface_byte. destruct p.
  - rewrite (zget_at _ _ _ Hat). split.
    + intros (b & Hb & [= <- <-])%result_bind_inv_ok. apply ok_or_inv in Hb.
      destruct rest as [|c rest]; [done|]. injection Hb as ->. split; [done|].
      exists rest. unfold octet. rewrite octet_mk. split; [done|]. split; [done|]. by apply (at_index_more _ _ [b]).
    + intros (Ho & rest' & -> & -> & _). destruct o as [a|]; [|done].
      unfold octet, ok_or, result_bind. cbn [head app]. by rewrite octet_surj.
  - split.
    + intros [= <- <-]. split; [done|]. exists rest. unfold octet. rewrite Z.add_0_r. done.
    + intros (Ho & rest' & -> & -> & _). destruct o; [done|]. unfold octet. by rewrite Z.add_0_r.
Qed.

(** An octet that is there is read. *)
Lemma interface_byte_read {A} p (mk : Z → A) as_byte bs idx o rest `{!IsOctet mk as_byte} :
  present o = p → at_index bs idx (octet as_byte o ++ rest) →
  ∃ idx', interface_byte p mk bs idx = Ok (idx', o) ∧ at_index bs idx' rest.
Proof.
  intros Hp Hat. pose proof (at_index_more _ _ _ _ Hat). eexists. split; [|done].
  apply (interface_byte_spec _ _ as_byte _ _ _ _ _ Hat). naive_solver.
Qed.

Lemma interface_byte_no_panic {A} p (mk : Z → A) bs idx : interface_byte p mk bs idx ≠ Panic.
Proof. unfold interface_byte. destruct p; [|done]. by destruct (zget idx bs). Qed.

Lemma at_index_fun bs i j rest : at_index bs i rest → at_index bs j rest → i = j.
Proof. intros (p & -> & ->) (q & Hq & ->). apply (f_equal len) in Hq. rewrite !len_app in Hq. lia. Qed.

(** The octets of a group. *)
Lemma interface_group_spec bs idx rest yi idx' g :
  at_index bs idx rest →
  interface_group bs yi idx = Ok (idx', g) ↔
  group_matches yi g ∧ ∃ rest', rest = group_bytes g ++ rest' ∧ at_index bs idx' rest'.
Proof.
  intros Hat. unfold interface_group. split.
  - intros ((i1 & ta) & H1 & ((i2 & tb) & H2 & ((i3 & tc) & H3 & ((i4 & td) & H4 & [= <- <-])%result_bind_inv_ok)
      %result_bind_inv_ok)%result_bind_inv_ok)%result_bind_inv_ok.
    apply (interface_byte_spec _ _ TaByte_as_byte _ _ _ _ _ Hat) in H1 as (? & r1 & -> & _ & At1).
    apply (interface_byte_spec _ _ TbByte_as_byte _ _ _ _ _ At1) in H2 as (? & r2 & -> & _ & At2).
    apply (interface_byte_spec _ _ TcByte_as_byte _ _ _ _ _ At2) in H3 as (? & r3 & -> & _ & At3).
    apply (interface_byte_spec _ _ TdByte_as_byte _ _ _ _ _ At3) in H4 as (? & r4 & -> & _ & At4).
    split; [done|]. exists r4. unfold group_bytes. by rewrite <- !app_assoc.
  - intros ((Ha & Hb & Hc & Hd) & rest' & -> & Hat'). unfold group_bytes in Hat. rewrite <- !app_assoc in Hat.
    destruct g as [ta tb tc td]. cbn [ig_ta ig_tb ig_tc ig_td] in *.
    destruct (interface_byte_read _ TaByte_new TaByte_as_byte _ _ _ _ Ha Hat) as (i1 & -> & A1).
    destruct (interface_byte_read _ TbByte_new TbByte_as_byte _ _ _ _ Hb A1) as (i2 & Hr2 & A2).
    destruct (interface_byte_read _ TcByte_new TcByte_as_byte _ _ _ _ Hc A2) as (i3 & Hr3 & A3).
    destruct (interface_byte_read _ TdByte_new TdByte_as_byte _ _ _ _ Hd A3) as (i4 & Hr4 & A4).
    cbn [result_bind]. rewrite Hr2. cbn [result_bind]. rewrite Hr3. cbn [result_bind]. rewrite Hr4. cbn [result_bind].
    by rewrite (at_index_fun _ _ _ _ A4 Hat').
Qed.

Lemma interface_group_no_panic bs yi idx : interface_group bs yi idx ≠ Panic.
Proof.
  unfold interface_group. repeat (apply result_bind_no_panic; [apply interface_byte_no_panic|intros [? ?] _]). done.
Qed.

Lemma no_flags_no_bytes yi gs : chain_ok yi gs → Yi_any_present yi = false → gs = [].
Proof. destruct gs; [done|]. intros (H & _) H'. congruence. Qed.

Lemma group_bytes_td yi g td : group_matches yi g → ig_td g = Some td → (1 ≤ length (group_bytes g))%nat.
Proof. intros _ H. unfold group_bytes. rewrite H, !length_app. simpl. lia. Qed.

Lemma interface_groups_spec fuel bs yi idx rest acc f idx' gs' f' :
  at_index bs idx rest → (length rest < fuel)%nat →
  interface_groups fuel bs yi idx acc f = Ok (idx', gs', f') ↔
  ∃ gs rest', chain_ok yi gs ∧ gs' = acc ++ gs ∧ f' = f || existsb (λ g, td_non_t0 (ig_td g)) gs
    ∧ rest = concat (map group_bytes gs) ++ rest' ∧ at_index bs idx' rest'.
Proof.
  revert yi idx rest acc f. induction fuel as [|fuel IH]; intros yi idx rest acc f Hat Hlen; [lia|].
  cbn [interface_groups]. destruct (Yi_any_present yi) eqn:Hany; cbn [negb].
  2: { split.
       - intros [= -> -> ->]. exists [], rest. rewrite app_nil_r, orb_false_r. done.
       - intros (gs & rest' & Hch & -> & -> & -> & Hat'). rewrite (no_flags_no_bytes _ _ Hch Hany) in *.
         rewrite app_nil_r, orb_false_r, (at_index_fun _ _ _ _ Hat Hat'). done. }
  split.
  - intros ((i1 & g) & H1 & H2)%result_bind_inv_ok.
    apply (interface_group_spec _ _ _ _ _ _ Hat) in H1 as (Hm & r1 & -> & A1). cbv beta iota in H2.
    destruct (ig_td g) as [td|] eqn:Htd.
    + pose proof (group_bytes_td _ _ _ Hm Htd). rewrite length_app in Hlen.
      apply (IH _ _ _ _ _ A1) in H2 as (gs & rest' & Hch & -> & -> & -> & A2); [|lia].
      exists (g :: gs), rest'. cbn [chain_ok existsb map concat]. rewrite Htd, <- !app_assoc, <- orb_assoc. done.
    + injection H2 as <- <- <-. exists [g], r1. cbn [chain_ok existsb map concat]. rewrite Htd, app_nil_r, orb_false_r. done.
  - intros (gs & rest' & Hch & -> & -> & -> & A2). destruct gs as [|g gs]; [cbn in Hch; congruence|].
    destruct Hch as (_ & Hm & Hch). cbn [map concat existsb] in *. rewrite <- app_assoc in Hat.
    assert (at_index bs (idx + len (group_bytes g)) (concat (map group_bytes gs) ++ rest')) as A1 by by apply at_index_more.
    rewrite (proj2 (interface_group_spec _ _ _ _ (idx + len (group_bytes g)) g Hat)) by naive_solver.
    cbn [result_bind]. destruct (ig_td g) as [td|] eqn:Htd.
    + pose proof (group_bytes_td _ _ _ Hm Htd). rewrite !length_app in Hlen.
      apply (IH _ _ _ _ _ A1); [rewrite length_app; lia|]. exists gs, rest'. rewrite <- app_assoc, orb_assoc. done.
    + subst gs. cbn in *. rewrite orb_false_r. by rewrite (at_index_fun _ _ _ _ A1 A2).
Qed.

Lemma interface_groups_no_panic fuel bs yi idx rest acc f :
  at_index bs idx rest → (length rest < fuel)%nat → interface_groups fuel bs yi idx acc f ≠ Panic.
Proof.
  revert yi idx rest acc f. induction fuel as [|fuel IH]; intros yi idx rest acc f Hat Hlen; [lia|].
  cbn [interface_groups]. destruct (negb _); [done|].
  apply result_bind_no_panic; [apply interface_group_no_panic|intros (i1 & g) H1].
  apply (interface_group_spec _ _ _ _ _ _ Hat) in H1 as (Hm & r1 & -> & A1).
  destruct (ig_td g) as [td|] eqn:Htd; [|done].
  pose proof (group_bytes_td _ _ _ Hm Htd). rewrite length_app in Hlen. apply (IH _ _ _ _ _ A1). lia.
Qed.

Lemma nibbles (P : Z → Z → bool) :
  forallb (λ a, forallb (P a) (seqZ 0 16)) (seqZ 0 16) = true → ∀ a b, 0 ≤ a < 16 → 0 ≤ b < 16 → P a b = true.
Proof.
  intros Hall a b Ha Hb. rewrite forallb_forall in Hall.
  specialize (Hall a). rewrite forallb_forall in Hall. apply Hall; apply list_elem_of_In, elem_of_seqZ; lia.
Qed.
Lemma T0_from_as_byte t : T0_wf t → T0_from_byte (T0_as_byte t) = t.
Proof.
  destruct t as [[y] k]. intros [Hy Hk]. cbn in Hy, Hk.
  pose (P a b := let t := T0_from_byte (T0_as_byte (mkT0 (mkYi a) b)) in
                 (Yi_0 (y1 t) =? a) && (historical_byte_count t =? b)).
  pose proof (nibbles P ltac:(by vm_compute) y k Hy Hk) as HP. unfold P in HP. cbv zeta in HP.
  destruct (T0_from_byte _) as [[y'] k']. cbn in HP. apply andb_prop in HP as [->%Z.eqb_eq ->%Z.eqb_eq]. done.
Qed.
Lemma T0_as_from_byte b : is_byte b → T0_as_byte (T0_from_byte b) = b ∧ T0_wf (T0_from_byte b).
Proof.
  intros Hb. pose (P b := let t := T0_from_byte b in (T0_as_byte t =? b) && (0 <=? Yi_0 (y1 t)) && (Yi_0 (y1 t) <? 16)
     && (0 <=? historical_byte_count t) && (historical_byte_count t <? 16)).
  pose proof (byte_forall P ltac:(by vm_compute) b Hb) as HP. unfold P in HP. cbv zeta in HP.
  unfold T0_wf. repeat apply andb_prop in HP as [HP ?]. lia.
Qed.
Lemma T0_as_byte_byte t : T0_wf t → is_byte (T0_as_byte t).
Proof.
  destruct t as [[y] k]. intros [Hy Hk]. cbn in Hy, Hk.
  pose (P a b := (0 <=? T0_as_byte (mkT0 (mkYi a) b)) && (T0_as_byte (mkT0 (mkYi a) b) <? 256)).
  pose proof (nibbles P ltac:(by vm_compute) y k Hy Hk) as HP. unfold P in HP. unfold is_byte. lia.
Qed.
Lemma Convention_as_from c : Convention_from_ts (Convention_as_ts c) = Some c.
Proof. by destruct c. Qed.
Lemma Convention_from_Some ts c : Convention_from_ts ts = Some c → ts = Convention_as_ts c.
Proof. unfold Convention_from_ts. repeat case_match; try done; intros [= <-]; by apply Z.eqb_eq. Qed.

(** What stands behind the interface octets. *)
Definition atr_tail (a : Atr) : bytes := hist_bytes (atr_historical a) ++ octet Tck_0 (atr_tck a).
Lemma tail_read bs idx rest k hist f tck idx' :
  at_index bs idx rest → 0 ≤ k →
  (zslice idx (idx + k) bs = Some hist ∧
   (if (f : bool) then let? b := ok_or (zget (idx + k) bs) Atr_MissingTck in Ok (idx + k + 1, Some (mkTck b))
    else Ok (idx + k, None)) = Ok (idx', tck) ∧ idx' = len bs) ↔
  len hist = k ∧ present tck = f ∧ rest = hist ++ octet Tck_0 tck ∧ idx' = len bs.
Proof.
  intros (pre & -> & ->) Hk. split.
  - intros ((a & b & Heq & Ha & Hb)%zslice_Some & Htck & Hidx).
    assert (a = pre ∧ rest = hist ++ b) as [-> ->].
    { apply app_inj_1 in Heq as [-> ->]; [done|]. unfold len in Ha. lia. }
    assert (len hist = k) as Hl by (unfold len in *; lia). split; [done|].
    assert (len (pre ++ hist ++ b) = len pre + k + len b) as Hlen by (rewrite !len_app; lia).
    destruct f.
    + apply result_bind_inv_ok in Htck as (c & Hc%ok_or_inv & [= <- <-]).
      rewrite Hlen in Hidx. destruct b as [|c' [|? ?]].
      * unfold len in Hidx. simpl in Hidx. lia.
      * rewrite (zget_at _ _ [c']) in Hc; [injection Hc as ->; by rewrite !len_app, Hl in *|].
        exists (pre ++ hist). rewrite <- app_assoc, len_app. split; [done|lia].
      * unfold len in Hidx. simpl in Hidx. lia.
    + injection Htck as <- <-. rewrite Hlen in Hidx.
      assert (b = []) as -> by (destruct b; [done|unfold len in Hidx; simpl in Hidx; lia]).
      rewrite Hlen. unfold octet. unfold len at 3. simpl. repeat split; lia.
  - intros (<- & <- & -> & ->). split; [apply zslice_Some; exists pre, (octet Tck_0 tck); done|]. split; [|done].
    rewrite !len_app. destruct tck as [[c]|]; cbn [present octet]; [|rewrite Z.add_0_r; f_equal; f_equal; unfold len; simpl; lia].
    rewrite (zget_at _ _ [c]); [cbn; do 2 f_equal; unfold len; simpl; lia|].
    exists (pre ++ hist). rewrite <- app_assoc, len_app. done.
Qed.

Lemma Atr_new_head ts b rest :
  2 ≤ len (ts :: b :: rest) ≤ 33 →
  Atr_new (ts :: b :: rest) =
  let bs := ts :: b :: rest in
  let? convention := ok_or (Convention_from_ts ts) (Atr_InvalidConvention ts) in
  let t0 := T0_from_byte b in
  let? (idx, groups, any_non_t0_protocol) := interface_groups (S (length bs)) bs (y1 t0) 2 [] false in
  let? hist := ok_or (zslice idx (idx + historical_byte_count t0) bs) Atr_TruncatedAtHistoricalBytes in
  let? (idx, tck) :=
    if any_non_t0_protocol then
      let? b := ok_or (zget (idx + historical_byte_count t0) bs) Atr_MissingTck in
      Ok (idx + historical_byte_count t0 + 1, Some (mkTck b))
    else Ok (idx + historical_byte_count t0, None) in
  if negb (idx =? len bs) then Err (Atr_TrailingBytes idx (len bs))
  else Ok (mkAtr convention t0 groups (mkHistorical hist) tck).
Proof.
  intros Hl. unfold Atr_new, ATR_MIN_LEN, ATR_MAX_LEN.
  destruct (Z.ltb_spec (len (ts :: b :: rest)) 2); [lia|]. destruct (Z.ltb_spec 33 (len (ts :: b :: rest))); [lia|].
  rewrite (zget_at (ts :: b :: rest) 0 (ts :: b :: rest)) by by exists [].
  rewrite (zget_at (ts :: b :: rest) 1 (b :: rest)) by by exists [ts]. done.
Qed.

Lemma Atr_new_length bs a : Atr_new bs = Ok a → ∃ ts b rest, bs = ts :: b :: rest ∧ 2 ≤ len bs ≤ 33.
Proof.
  unfold Atr_new, ATR_MIN_LEN, ATR_MAX_LEN.
  destruct (Z.ltb_spec (len bs) 2); [done|]. destruct (Z.ltb_spec 33 (len bs)); [done|]. intros _.
  destruct bs as [|ts [|b rest]]; [unfold len in *; simpl in *; lia..|]. by exists ts, b, rest.
Qed.

Lemma Atr_new_inv bs a : bytes_ok bs → Atr_new bs = Ok a → Atr_wf a ∧ Atr_to_wire_bytes a = bs ∧ 2 ≤ len bs ≤ 33.
Proof.
  intros Hok Ha. destruct (Atr_new_length _ _ Ha) as (ts & b & rest & -> & Hl).
  rewrite Atr_new_head in Ha by done. cbv zeta in Ha.
  apply result_bind_inv_ok in Ha as (c & ->%ok_or_inv%Convention_from_Some & Ha).
  apply result_bind_inv_ok in Ha as ([[idx gs] f] & Hg & Ha).
  assert (at_index (Convention_as_ts c :: b :: rest) 2 rest) as Hat by by exists [Convention_as_ts c; b].
  apply (interface_groups_spec _ _ _ _ _ _ _ _ _ _ Hat) in Hg as (gs' & rest' & Hch & -> & -> & -> & A1); [|simpl; lia].
  apply result_bind_inv_ok in Ha as (hist & Hh%ok_or_inv & Ha).
  apply result_bind_inv_ok in Ha as ([idx' tck] & Ht & Ha).
  destruct (Z.eqb_spec idx' (len (Convention_as_ts c :: b :: concat (map group_bytes gs') ++ rest'))) as [Hidx|]; [|done].
  injection Ha as <-. apply Forall_cons_1 in Hok as [_ [Hb _]%Forall_cons_1].
  destruct (T0_as_from_byte b Hb) as [Hb0 Hwf].
  destruct (proj1 (tail_read _ _ _ _ hist _ tck idx' A1 (proj1 (proj2 Hwf))) (conj Hh (conj Ht Hidx)))
    as (Hk & Htck & -> & _).
  split; [|split; [|done]].
  - unfold Atr_wf, supports_non_t0_protocol. cbn. rewrite Hk. done.
  - unfold Atr_to_wire_bytes. cbn [atr_convention atr_t0 atr_groups atr_historical atr_tck hist_bytes]. by rewrite Hb0.
Qed.

Lemma Atr_new_wire a : Atr_wf a → 2 ≤ len (Atr_to_wire_bytes a) ≤ 33 → Atr_new (Atr_to_wire_bytes a) = Ok a.
Proof.
  intros (Hwf & Hch & Hk & Htck) Hl.
  unfold Atr_to_wire_bytes in *. cbn [app] in *. rewrite Atr_new_head by done. cbv zeta.
  rewrite Convention_as_from. cbn [ok_or result_bind]. rewrite T0_from_as_byte by done.
  set (rest := concat _ ++ _) in *.
  set (bs := Convention_as_ts _ :: _) in *.
  assert (at_index bs 2 rest) as Hat by by exists [Convention_as_ts (atr_convention a); T0_as_byte (atr_t0 a)].
  pose proof (at_index_more _ _ _ _ Hat) as A1. assert (length rest < S (length bs))%nat as Hfuel by (unfold bs; simpl; lia).
  rewrite (proj2 (interface_groups_spec _ _ _ _ _ _ _ (2 + len (concat (map group_bytes (atr_groups a)))) (atr_groups a)
    (supports_non_t0_protocol a) Hat Hfuel)).
  2: { exists (atr_groups a), (atr_tail a). done. }
  cbn [result_bind].
  destruct (proj2 (tail_read _ _ _ (historical_byte_count (atr_t0 a)) (hist_bytes (atr_historical a)) (supports_non_t0_protocol a)
     (atr_tck a) (len bs) A1 (proj1 (proj2 Hwf)))) as (-> & Ht & _).
  { done. }
  cbn [ok_or result_bind]. rewrite Ht. cbn [result_bind]. rewrite Z.eqb_refl. by destruct a as [? ? ? [] ?].
Qed.

(** the answer to reset is read whole. A sequence of octets is accepted exactly when
    it is the wire form of a well-formed answer to reset of 2 to 33 octets, which is what
    is returned: the interface octets are those the flags announce, the historical octets
    as many as T0 says, a check octet there exactly when a protocol other than T=0 is
    announced, and nothing follows. Reading never panics. *)
Theorem atr_parse_exact (bs : bytes) (Hok : bytes_ok bs) :
  (∀ a, Atr_new bs = Ok a ↔ Atr_wf a ∧ Atr_to_wire_bytes a = bs ∧ 2 ≤ len bs ≤ 33) ∧ Atr_new bs ≠ Panic.
Proof.
  split.
  - intros a. split; [by apply Atr_new_inv|]. intros (Hwf & <- & Hl). by apply Atr_new_wire.
  - unfold Atr_new. destruct (_ <? _); [done|]. destruct (_ <? _); [done|].
    apply result_bind_no_panic; [by destruct (zget 0 bs)|intros ts Hts%ok_or_inv].
    apply result_bind_no_panic; [by destruct (Convention_from_ts ts)|intros c _].
    apply result_bind_no_panic; [by destruct (zget 1 bs)|intros b Hb%ok_or_inv].
    assert (at_index bs 2 (drop 2 bs)) as Hat.
    { apply zget_Some in Hb as (p & q & Hq & Hp). exists (take 2 bs). rewrite take_drop. split; [done|].
      unfold len. rewrite Hq, length_take, length_app. cbn [length]. lia. }
    apply result_bind_no_panic; [apply (interface_groups_no_panic _ _ _ _ _ _ _ Hat); rewrite length_drop; lia|].
    intros [[idx gs] f] _. apply result_bind_no_panic; [by destruct (zslice _ _ bs)|intros h _].
    apply result_bind_no_panic; [destruct f; [|done]; by destruct (zget (idx + _) bs)|intros [i t] _]. by destruct (negb _).
Qed.

(** ** The card model *)

Definition ctlv_octets (e : CompactTlv) : bytes := Z.lor (Z.shiftl (ctlv_tag e) 4) (len (ctlv_value e)) :: ctlv_value e.
Definition ctlv_wf (e : CompactTlv) : Prop := 0 ≤ ctlv_tag e < 16 ∧ len (ctlv_value e) < 16.
(** What ends the list of entries: nothing, or a header that announces more than there is. *)
Definition ctlv_cut (tail : bytes) : Prop := ∀ header value, tail = header :: value → len value < Z.land header 0x0F.

Lemma ctlv_header tag n : 0 ≤ tag < 16 → 0 ≤ n < 16 →
  Z.shiftr (Z.lor (Z.shiftl tag 4) n) 4 = tag ∧ Z.land (Z.lor (Z.shiftl tag 4) n) 0x0F = n.
Proof.
  intros Ht Hn. pose (P a b := (Z.shiftr (Z.lor (Z.shiftl a 4) b) 4 =? a) && (Z.land (Z.lor (Z.shiftl a 4) b) 0x0F =? b)).
  pose proof (nibbles P ltac:(by vm_compute) tag n Ht Hn) as HP. unfold P in HP. lia.
Qed.

Lemma compact_tlv_from_spec fuel idx l es tail :
  Forall ctlv_wf es → ctlv_cut tail → at_index l idx (concat (map ctlv_octets es) ++ tail) →
  (length es < fuel)%nat → compact_tlv_from fuel idx l = es.
Proof.
  revert idx es. induction fuel as [|fuel IH]; intros idx es Hes Hcut Hat Hfuel.
  { lia. }
  cbn [compact_tlv_from]. rewrite (zget_at _ _ _ Hat). destruct Hes as [|e es [Htag Hlen] Hes]; cbn [map concat app] in *.
  - destruct tail as [|header value]; [done|]. cbn [head app].
    assert (zslice (idx + 1) (idx + 1 + Z.land header 15) l = None) as ->; [|done].
    destruct Hat as (pre & -> & ->). specialize (Hcut _ _ eq_refl).
    pose proof (len_nonneg value). pose proof (len_nonneg pre). apply zslice_None; [lia|].
    change (len (pre ++ header :: value) < len pre + 1 + Z.land header 15). rewrite len_app, len_cons. lia.
  - cbn [ctlv_octets app head]. destruct (ctlv_header (ctlv_tag e) (len (ctlv_value e)) Htag (conj (len_nonneg _) Hlen)) as [H1 H2].
    rewrite H1, H2. rewrite <- app_assoc in Hat.
    pose proof (at_index_more l idx [_] _ Hat) as A1. change (len [_]) with 1 in A1.
    pose proof (at_index_more _ _ _ _ A1) as A2. destruct A1 as (p & Hp & Hi).
    rewrite (proj2 (zslice_Some _ _ l (ctlv_value e))).
    + f_equal; [by destruct e|]. apply (IH _ es Hes Hcut A2). simpl in Hfuel. lia.
    + exists p, (concat (map ctlv_octets es) ++ tail). unfold len in *. split; [done|]. split; [done|]. lia.
Qed.

Lemma compact_tlv_entries_spec h es tail :
  Forall ctlv_wf es → ctlv_cut tail → hist_bytes h = 0x80 :: concat (map ctlv_octets es) ++ tail →
  compact_tlv_entries h = es.
Proof.
  intros Hes Hcut Hh. unfold compact_tlv_entries, is_compact_tlv, category_indicator. rewrite Hh.
  rewrite (zget_at _ _ (0x80 :: concat (map ctlv_octets es) ++ tail)) by by exists []. cbn [head].
  rewrite bool_decide_eq_true_2 by done. apply (compact_tlv_from_spec _ _ _ _ tail Hes Hcut); [by exists [0x80]|].
  cbn [length]. rewrite length_app. clear. induction es as [|e es IH]; cbn [map concat length]; [lia|].
  rewrite length_app. cbn [ctlv_octets length]. lia.
Qed.

(** The pre-issuing data of five octets decide. *)
Definition is_pre_issuing (e : CompactTlv) : Prop := ctlv_tag e = 6 ∧ length (ctlv_value e) = 5%nat.
Definition model_os (m : FineidCardModel) : option Z :=
  match m with ThalesMultiAppV5_0 => Some 5 | GemaltoMultiAppV4_2 => Some 4 | IdemiaCosmoX => None end.

Lemma pre_issuing_object_spec e pre :
  pre_issuing_object (CompactTlv_interpret e) = Some pre ↔
  ∃ b0 b1 b2 b3 b4, e = mkCompactTlv 6 [b0; b1; b2; b3; b4] ∧ pre = mkPreIssuing b0 b1 b2 b3 b4.
Proof.
  destruct e as [tag v]. split.
  - unfold CompactTlv_interpret. cbn [ctlv_tag ctlv_value]. repeat case_match; cbn; try done.
    destruct v as [|b0 [|b1 [|b2 [|b3 [|b4 [|]]]]]]; try done. intros [= <-].
    assert (tag = 6) as -> by by apply Z.eqb_eq. by eexists _, _, _, _, _.
  - intros (b0 & b1 & b2 & b3 & b4 & [= -> ->] & ->). done.
Qed.
Lemma pre_issuing_object_None e : pre_issuing_object (CompactTlv_interpret e) = None ↔ ¬ is_pre_issuing e.
Proof.
  destruct (pre_issuing_object _) as [pre|] eqn:H; split; try done.
  - apply pre_issuing_object_spec in H as (b0 & b1 & b2 & b3 & b4 & -> & _). intros []. by split.
  - intros _ [Ht Hl]. destruct e as [tag v]. cbn in Ht, Hl. subst tag.
    destruct v as [|b0 [|b1 [|b2 [|b3 [|b4 [|]]]]]]; try done.
Qed.
Lemma from_pre_issuing_spec pre m :
  from_pre_issuing pre = Some m ↔ pid_family_name pre = 0xB0 ∧ pid_product_name pre = 0x85 ∧ model_os m = Some (pid_os_version pre).
Proof.
  unfold from_pre_issuing, FINEID_PRE_ISSUING_FAMILY, FINEID_PRE_ISSUING_PRODUCT, FINEID_OS_VERSION_THALES_V5_0,
    FINEID_OS_VERSION_GEMALTO_V4_2.
  destruct (Z.eqb_spec (pid_family_name pre) 0xB0), (Z.eqb_spec (pid_product_name pre) 0x85); cbn [negb orb]; [|naive_solver..].
  destruct (Z.eqb_spec (pid_os_version pre) 5) as [->|]; [destruct m; naive_solver|].
  destruct (Z.eqb_spec (pid_os_version pre) 4) as [->|]; destruct m; naive_solver.
Qed.

Lemma fineid_pre_issuing_spec a es tail pre :
  Forall ctlv_wf es → ctlv_cut tail → hist_bytes (atr_historical a) = 0x80 :: concat (map ctlv_octets es) ++ tail →
  fineid_pre_issuing a = Some pre ↔
  ∃ es1 b0 b1 b2 b3 b4 es2, es = es1 ++ mkCompactTlv 6 [b0; b1; b2; b3; b4] :: es2
    ∧ Forall (λ e, ¬ is_pre_issuing e) es1 ∧ pre = mkPreIssuing b0 b1 b2 b3 b4.
Proof.
  intros Hes Hcut Hh. unfold fineid_pre_issuing, data_objects. rewrite (compact_tlv_entries_spec _ _ _ Hes Hcut Hh).
  clear. induction es as [|e es IH]; cbn [map find_map].
  { split; [done|]. intros (es1 & ? & ? & ? & ? & ? & ? & H & _). by destruct es1. }
  destruct (pre_issuing_object (CompactTlv_interpret e)) as [pre'|] eqn:He.
  - pose proof He as (b0 & b1 & b2 & b3 & b4 & -> & ->)%pre_issuing_object_spec. split.
    + intros [= <-]. by exists [], b0, b1, b2, b3, b4, es.
    + intros (es1 & c0 & c1 & c2 & c3 & c4 & es2 & H & Hno & ->).
      destruct es1 as [|e1 es1]; [by injection H as -> -> -> -> -> ->|].
      apply Forall_cons_1 in Hno as [Hno _]. injection H as <- _. by destruct Hno.
  - rewrite IH. apply pre_issuing_object_None in He. split.
    + intros (es1 & b0 & b1 & b2 & b3 & b4 & es2 & -> & Hno & ->). exists (e :: es1), b0, b1, b2, b3, b4, es2.
      split; [done|]. split; [by constructor|done].
    + intros (es1 & b0 & b1 & b2 & b3 & b4 & es2 & H & Hno & ->). destruct es1 as [|e1 es1].
      * injection H as -> _. by destruct He.
      * injection H as <- ->. apply Forall_cons_1 in Hno as [_ Hno]. by exists es1, b0, b1, b2, b3, b4, es2.
Qed.

Lemma listed_answers_classified :
  Forall (λ m, Forall (λ atr, (let? a := map_err (λ _, tt) (Atr_new atr) in map_err (λ _, tt) (classify a)) = Ok m)
    (contact_atr_byte_sets m)) all_known.
Proof. by_decide. Qed.

Lemma from_exact_atr_spec bs m : from_exact_atr bs = Some m ↔ m = IdemiaCosmoX ∧ bs = IDEMIA_COSMO_X_CONTACT_ATR.
Proof.
  unfold from_exact_atr, contact_atr_byte_sets. case_bool_decide as H; rewrite list_elem_of_singleton in H; naive_solver.
Qed.

(** cards are told apart by their answer to reset. Every answer listed for a model is
    read and classified as that model. Of an answer whose historical octets are compact
    objects, up to the first that is cut short, the first pre-issuing object of five octets
    decides: B0 85 and the version of the card's operating system. Any other answer is
    known only when it is octet for octet the one listed for the Idemia card; what is not
    known is refused. *)
Theorem card_model_exact :
  (∀ m atr, atr ∈ contact_atr_byte_sets m → ∃ a, Atr_new atr = Ok a ∧ classify a = Ok m) ∧
  (∀ a es tail m, Forall ctlv_wf es → ctlv_cut tail →
     hist_bytes (atr_historical a) = 0x80 :: concat (map ctlv_octets es) ++ tail →
     Atr_to_wire_bytes a ≠ IDEMIA_COSMO_X_CONTACT_ATR →
     classify a = Ok m ↔
     ∃ es1 os b3 b4 es2, es = es1 ++ mkCompactTlv 6 [0xB0; 0x85; os; b3; b4] :: es2
       ∧ Forall (λ e, ¬ is_pre_issuing e) es1 ∧ model_os m = Some os) ∧
  (∀ a m, is_compact_tlv (atr_historical a) = false →
     classify a = Ok m ↔ m = IdemiaCosmoX ∧ Atr_to_wire_bytes a = IDEMIA_COSMO_X_CONTACT_ATR) ∧
  (∀ a e, classify a = Err e → e = UnknownOrUnsupportedAtr a).
Proof.
  split; [|split; [|split]].
  - intros m atr Hatr. pose proof listed_answers_classified as Hall. rewrite list.Forall_forall in Hall.
    specialize (Hall m ltac:(destruct m; by_decide)). rewrite list.Forall_forall in Hall. specialize (Hall atr Hatr). cbv beta in Hall.
    destruct (Atr_new atr) as [a|e|]; [|done..]. exists a. split; [done|]. cbn [map_err result_bind] in Hall.
    destruct (classify a) as [m2|e|]; cbn in Hall; congruence.
  - intros a es tail m Hes Hcut Hh Hne. unfold classify. rewrite ok_or_inv.
    assert (from_exact_atr (Atr_to_wire_bytes a) = None) as ->.
    { destruct (from_exact_atr _) as [m'|] eqn:H; [|done]. by apply from_exact_atr_spec in H as [_ ?]. }
    transitivity (∃ pre, fineid_pre_issuing a = Some pre ∧ from_pre_issuing pre = Some m).
    { destruct (fineid_pre_issuing a) as [pre|]; cbn; [|naive_solver]. destruct (from_pre_issuing pre) eqn:Hp; naive_solver. }
    split.
    + intros (pre & Hpre & (H0 & H1 & H2)%from_pre_issuing_spec).
      apply (fineid_pre_issuing_spec _ _ _ _ Hes Hcut Hh) in Hpre as (es1 & b0 & b1 & b2 & b3 & b4 & es2 & -> & Hno & ->).
      cbn in H0, H1, H2. subst b0 b1. by exists es1, b2, b3, b4, es2.
    + intros (es1 & os & b3 & b4 & es2 & -> & Hno & Hm). exists (mkPreIssuing 0xB0 0x85 os b3 b4). split.
      * apply (fineid_pre_issuing_spec _ _ _ _ Hes Hcut Hh). by exists es1, 0xB0, 0x85, os, b3, b4, es2.
      * by apply from_pre_issuing_spec.
  - intros a m Hc. unfold classify, fineid_pre_issuing, data_objects, compact_tlv_entries. rewrite Hc. cbn.
    rewrite ok_or_inv. apply from_exact_atr_spec.
  - intros a e. unfold classify, ok_or. case_match; naive_solver.
Qed.
Lemma atr_parse_exact_witness :
  bytes_ok IDEMIA_COSMO_X_CONTACT_ATR ∧ (∃ a, Atr_new IDEMIA_COSMO_X_CONTACT_ATR = Ok a ∧ Atr_wf a)
  ∧ ¬ (∃ a, Atr_new (IDEMIA_COSMO_X_CONTACT_ATR ++ [0]) = Ok a).
Proof.
  assert (bytes_ok IDEMIA_COSMO_X_CONTACT_ATR) as Hok by by_decide.
  split; [exact Hok|]. split.
  - eexists. split; [reflexivity|]. eapply (proj1 (atr_parse_exact IDEMIA_COSMO_X_CONTACT_ATR Hok)). reflexivity.
  - intros [a Ha]. by vm_compute in Ha.
Defined.
