(* ===== verification/Country.v ===== *)
(** crates/refineid-lib-core/src/country.rs: the three-letter country codes of travel
    documents and the two-letter codes of certificates. *)

From S2P Require Import Prelude Decimal Utf8 Str.

Definition TABLE : list (string * string) :=
  [("AUT", "AT"); ("BEL", "BE"); ("BGR", "BG"); ("CHE", "CH"); ("CYP", "CY"); ("CZE", "CZ");
   ("DEU", "DE"); ("DNK", "DK"); ("ESP", "ES"); ("EST", "EE"); ("FIN", "FI"); ("FRA", "FR");
   ("GBR", "GB"); ("GRC", "GR"); ("HRV", "HR"); ("HUN", "HU"); ("IRL", "IE"); ("ISL", "IS");
   ("ITA", "IT"); ("LIE", "LI"); ("LTU", "LT"); ("LUX", "LU"); ("LVA", "LV"); ("MLT", "MT");
   ("NLD", "NL"); ("NOR", "NO"); ("POL", "PL"); ("PRT", "PT"); ("ROU", "RO"); ("SVK", "SK");
   ("SVN", "SI"); ("SWE", "SE"); ("AUS", "AU"); ("BRA", "BR"); ("CAN", "CA"); ("CHN", "CN");
   ("IND", "IN"); ("JPN", "JP"); ("KOR", "KR"); ("MEX", "MX"); ("NZL", "NZ"); ("RUS", "RU");
   ("TUR", "TR"); ("UKR", "UA"); ("USA", "US")].

Record IcaoCountry := mkIcao { Icao_0 : bytes }.
Record IsoAlpha2 := mkIso { Iso_0 : bytes }.
Inductive CountryError :=
| Country_Empty
| Country_WrongLength (expected : string) (got : Z)
| Country_NotAsciiLetter (at_ byte : Z).

Definition to_ascii_uppercase (b : Z) : Z := if is_ascii_lowercase b then b - 32 else b.
(** The first octet that is not a letter. *)
Definition non_letter (bs : bytes) : option CountryError :=
  i ← position (λ b, negb (is_ascii_alpha b)) bs;
  Country_NotAsciiLetter (Z.of_nat i) <$> bs !! i.

Definition IcaoCountry_new (bs : bytes) : result CountryError IcaoCountry :=
  if bool_decide (bs = []) then Err Country_Empty
  else if 3 <? len bs then Err (Country_WrongLength "1-3 ASCII letters" (len bs))
  else match non_letter bs with Some e => Err e | None => Ok (mkIcao (map to_ascii_uppercase bs)) end.
Definition IsoAlpha2_new (bs : bytes) : result CountryError IsoAlpha2 :=
  if bool_decide (bs = []) then Err Country_Empty
  else if negb (len bs =? 2) then Err (Country_WrongLength "2 ASCII letters" (len bs))
  else match non_letter bs with Some e => Err e | None => Ok (mkIso (map to_ascii_uppercase bs)) end.
Definition to_iso_alpha2 (c : IcaoCountry) : option IsoAlpha2 :=
  find_map (λ '(icao, iso), if eq_ignore_ascii_case (bytes_of_string icao) (Icao_0 c) then Some (mkIso (bytes_of_string iso)) else None)
    TABLE.
Definition to_icao (c : IsoAlpha2) : option IcaoCountry :=
  find_map (λ '(icao, iso), if eq_ignore_ascii_case (bytes_of_string iso) (Iso_0 c) then Some (mkIcao (bytes_of_string icao)) else None)
    TABLE.

(** ** Lemmas *)

(** Every row is found by either of its codes, written in any case. *)
Lemma rows_found :
  Forall (λ '(icao, iso), to_iso_alpha2 (mkIcao (bytes_of_string icao)) = Some (mkIso (bytes_of_string iso))
     ∧ to_icao (mkIso (bytes_of_string iso)) = Some (mkIcao (bytes_of_string icao))
     ∧ IcaoCountry_new (map to_ascii_lowercase (bytes_of_string icao)) = Ok (mkIcao (bytes_of_string icao))
     ∧ IsoAlpha2_new (map to_ascii_lowercase (bytes_of_string iso)) = Ok (mkIso (bytes_of_string iso))) TABLE.
Proof. repeat constructor. Qed.


Definition upper_code (l : bytes) : Prop := Forall (λ b, is_ascii_uppercase b = true) l.
Lemma upper_eq_ignore_case a b : upper_code a → upper_code b → eq_ignore_ascii_case a b = true ↔ a = b.
Proof.
  intros Ha Hb. unfold eq_ignore_ascii_case. rewrite bool_decide_eq_true. split; [|by intros ->].
  revert b Hb. induction Ha as [|x a Hx _ IH]; intros b Hb; destruct Hb as [|y b Hy Hb]; try done.
  cbn. intros [= Hxy H]. f_equal; [|by apply IH]. unfold to_ascii_lowercase in Hxy. rewrite Hx, Hy in Hxy. lia.
Qed.
Lemma uppercase_letter b : is_ascii_alpha b = true → is_ascii_uppercase (to_ascii_uppercase b) = true.
Proof.
  unfold is_ascii_alpha, to_ascii_uppercase, is_ascii_lowercase, is_ascii_uppercase, within. intros H.
  destruct ((0x61 <=? b) && (b <=? 0x7A)) eqn:Hl; lia.
Qed.
Lemma non_letter_None bs : non_letter bs = None → upper_code (map to_ascii_uppercase bs).
Proof.
  unfold non_letter. destruct (position _ bs) as [i|] eqn:Hp; cbn.
  - apply position_Some in Hp as (x & -> & _). done.
  - intros _. apply position_None in Hp. unfold upper_code. apply List.Forall_map. eapply list.Forall_impl; [exact Hp|].
    cbn. intros b Hb%negb_false_iff. by apply uppercase_letter.
Qed.
Lemma IcaoCountry_upper text c : IcaoCountry_new text = Ok c → upper_code (Icao_0 c) ∧ 1 ≤ len (Icao_0 c) ≤ 3.
Proof.
  unfold IcaoCountry_new. case_bool_decide as Hne; [done|]. destruct (Z.ltb_spec 3 (len text)); [done|].
  destruct (non_letter text) eqn:Hn; [done|]. intros [= <-]. cbn. split; [by apply non_letter_None|].
  unfold len in *. rewrite length_map. destruct text; [done|]. simpl in *. lia.
Qed.
Lemma IsoAlpha2_upper text i : IsoAlpha2_new text = Ok i → upper_code (Iso_0 i) ∧ len (Iso_0 i) = 2.
Proof.
  unfold IsoAlpha2_new. case_bool_decide as Hne; [done|]. destruct (Z.eqb_spec (len text) 2); [|done].
  destruct (non_letter text) eqn:Hn; [done|]. intros [= <-]. cbn. split; [by apply non_letter_None|].
  unfold len in *. by rewrite length_map.
Qed.
Lemma table_upper : Forall (λ '(icao, iso), upper_code (bytes_of_string icao) ∧ upper_code (bytes_of_string iso)) TABLE.
Proof. unfold upper_code. by_decide. Qed.

(** country codes translate one to one. A code that was read is one to three, or two,
    capital letters; and for two codes that were read, the one translates to the other
    exactly when the table pairs them, in both directions. *)
Theorem country_codes_exact text text' c i :
  IcaoCountry_new text = Ok c → IsoAlpha2_new text' = Ok i →
  (upper_code (Icao_0 c) ∧ 1 ≤ len (Icao_0 c) ≤ 3) ∧ (upper_code (Iso_0 i) ∧ len (Iso_0 i) = 2) ∧
  (to_iso_alpha2 c = Some i ↔ to_icao i = Some c) ∧
  (to_iso_alpha2 c = Some i ↔
   ∃ icao iso, (icao, iso) ∈ TABLE ∧ Icao_0 c = bytes_of_string icao ∧ Iso_0 i = bytes_of_string iso).
Proof.
  intros Hc%IcaoCountry_upper Hi%IsoAlpha2_upper. split; [done|]. split; [done|].
  destruct Hc as [Hc _], Hi as [Hi _], c as [c], i as [i]. cbn [Icao_0 Iso_0] in *.
  pose proof rows_found as Hrows. pose proof table_upper as Hup. rewrite list.Forall_forall in Hrows, Hup.
  assert (to_iso_alpha2 (mkIcao c) = Some (mkIso i) ↔ ∃ icao iso, (icao, iso) ∈ TABLE ∧ c = bytes_of_string icao ∧ i = bytes_of_string iso)
    as Hiso.
  { split.
    - intros ((icao & iso) & Hin & H)%find_map_Some. exists icao, iso. destruct (Hup _ Hin) as [Hu _].
      destruct (eq_ignore_ascii_case _ _) eqn:He; [|done]. apply (upper_eq_ignore_case _ _ Hu Hc) in He. by injection H as <-.
    - intros (icao & iso & Hin & -> & ->). by destruct (Hrows _ Hin) as (-> & _). }
  split; [|done]. rewrite Hiso. split.
  - intros (icao & iso & Hin & -> & ->). by destruct (Hrows _ Hin) as (_ & -> & _).
  - intros ((icao & iso) & Hin & H)%find_map_Some. exists icao, iso. destruct (Hup _ Hin) as [_ Hu].
    destruct (eq_ignore_ascii_case _ _) eqn:He; [|done]. apply (upper_eq_ignore_case _ _ Hu Hi) in He. by injection H as <-.
Qed.
Lemma country_codes_exact_witness :
  ∃ c i, IcaoCountry_new (bytes_of_string "FIN") = Ok c ∧ IsoAlpha2_new (bytes_of_string "fi") = Ok i
    ∧ to_iso_alpha2 c = Some i ∧ to_icao i = Some c.
Proof.
  exists (mkIcao (bytes_of_string "FIN")), (mkIso (bytes_of_string "FI")). split; [reflexivity|]. split; [reflexivity|].
  assert (to_iso_alpha2 (mkIcao (bytes_of_string "FIN")) = Some (mkIso (bytes_of_string "FI"))) as H by by vm_compute.
  split; [exact H|].
  by apply (proj1 (proj2 (proj2 (country_codes_exact (bytes_of_string "FIN") (bytes_of_string "fi") _ _ eq_refl eq_refl)))).
Defined.
