(* ===== verification/StatusWord.v ===== *)
(** Status words of a card response: crates/refineid-lib-core/src/apdu/status_word.rs.
    [PinRetries] is the four-bit counter of [63Cx]; [StatusWord] is the enum every
    protocol layer dispatches on, with its two codings. *)

From S2P Require Import Prelude.

(** [struct PinRetries(u8)]. *)
Record PinRetries := mkPinRetries { PinRetries_0 : Z }.
#[export] Instance PinRetries_eq_dec : EqDecision PinRetries.
Proof. solve_decision. Defined.

Definition PinRetries_from_nibble (n : Z) : option PinRetries :=
  if n >? 0x0F then None else Some (mkPinRetries n).

Definition PinRetries_get (r : PinRetries) : Z := PinRetries_0 r.

Definition PinRetries_is_exhausted (r : PinRetries) : bool := PinRetries_0 r =? 0.

Inductive StatusWord :=
| Sw_AuthenticationBlocked
| Sw_AuthenticationFailed
| Sw_EndOfFile
| Sw_FileNotFound
| Sw_Other (sw : Z)
| Sw_PinIncorrect (retries : PinRetries)
| Sw_ReferenceDataInvalidated
| Sw_ReferenceDataNotFound
| Sw_SecurityNotSatisfied
| Sw_SmDataObjectsIncorrect
| Sw_Success
| Sw_WrongLength.
#[export] Instance StatusWord_eq_dec : EqDecision StatusWord.
Proof. solve_decision. Defined.

Definition SW_SUCCESS : Z := 0x9000.
Definition SW_END_OF_FILE : Z := 0x6282.
Definition SW_AUTHENTICATION_FAILED : Z := 0x6300.
Definition SW_WRONG_LENGTH : Z := 0x6700.
Definition SW_SECURITY_NOT_SATISFIED : Z := 0x6982.
Definition SW_AUTHENTICATION_BLOCKED : Z := 0x6983.
Definition SW_REFERENCE_DATA_INVALIDATED : Z := 0x6984.
Definition SW_SM_DATA_OBJECTS_INCORRECT : Z := 0x6988.
Definition SW_FILE_NOT_FOUND : Z := 0x6A82.
Definition SW_REFERENCE_DATA_NOT_FOUND : Z := 0x6A88.
Definition SW_PIN_COUNTER_PREFIX : Z := 0x63C0.
Definition SW_PIN_COUNTER_MASK : Z := 0xFFF0.

Definition StatusWord_as_u16 (w : StatusWord) : Z :=
  match w with
  | Sw_AuthenticationBlocked => SW_AUTHENTICATION_BLOCKED
  | Sw_AuthenticationFailed => SW_AUTHENTICATION_FAILED
  | Sw_EndOfFile => SW_END_OF_FILE
  | Sw_FileNotFound => SW_FILE_NOT_FOUND
  | Sw_Other sw => sw
  | Sw_PinIncorrect retries =>
      let sw1 := u16_hi SW_PIN_COUNTER_PREFIX in
      let prefix_sw2 := u16_lo SW_PIN_COUNTER_PREFIX in
      let sw2 := Z.lor prefix_sw2 (Z.land (PinRetries_0 retries) 0x0F) in
      u16_from_be sw1 sw2
  | Sw_ReferenceDataInvalidated => SW_REFERENCE_DATA_INVALIDATED
  | Sw_ReferenceDataNotFound => SW_REFERENCE_DATA_NOT_FOUND
  | Sw_SecurityNotSatisfied => SW_SECURITY_NOT_SATISFIED
  | Sw_SmDataObjectsIncorrect => SW_SM_DATA_OBJECTS_INCORRECT
  | Sw_Success => SW_SUCCESS
  | Sw_WrongLength => SW_WRONG_LENGTH
  end.

(** The match arms in source order: the named codes, then the counter family. *)
Definition StatusWord_from_u16 (sw : Z) : StatusWord :=
  if sw =? SW_SUCCESS then Sw_Success
  else if sw =? SW_END_OF_FILE then Sw_EndOfFile
  else if sw =? SW_AUTHENTICATION_FAILED then Sw_AuthenticationFailed
  else if sw =? SW_WRONG_LENGTH then Sw_WrongLength
  else if sw =? SW_SECURITY_NOT_SATISFIED then Sw_SecurityNotSatisfied
  else if sw =? SW_AUTHENTICATION_BLOCKED then Sw_AuthenticationBlocked
  else if sw =? SW_REFERENCE_DATA_INVALIDATED then Sw_ReferenceDataInvalidated
  else if sw =? SW_SM_DATA_OBJECTS_INCORRECT then Sw_SmDataObjectsIncorrect
  else if sw =? SW_FILE_NOT_FOUND then Sw_FileNotFound
  else if sw =? SW_REFERENCE_DATA_NOT_FOUND then Sw_ReferenceDataNotFound
  else if Z.land sw SW_PIN_COUNTER_MASK =? SW_PIN_COUNTER_PREFIX then
    let sw2 := u16_lo sw in
    let nibble := Z.land sw2 0x0F in
    Sw_PinIncorrect (mkPinRetries nibble)
  else Sw_Other sw.

Definition StatusWord_from_bytes (sw1 sw2 : Z) : StatusWord :=
  StatusWord_from_u16 (u16_from_be sw1 sw2).

Definition StatusWord_is_success (w : StatusWord) : bool :=
  match w with Sw_Success => true | _ => false end.

Definition StatusWord_pin_retries (w : StatusWord) : option PinRetries :=
  match w with Sw_PinIncorrect retries => Some retries | _ => None end.

(** The value invariant of the private constructor: a nibble. *)
Definition PinRetries_wf (r : PinRetries) : Prop := 0 ≤ PinRetries_0 r ≤ 15.

(** A status word in the form [from_u16] produces: [Other] carries a code
    with no name of its own. *)
Definition StatusWord_canonical (w : StatusWord) : Prop :=
  match w with
  | Sw_Other sw => StatusWord_from_u16 sw = Sw_Other sw
  | Sw_PinIncorrect r => PinRetries_wf r
  | _ => True
  end.

Lemma land_fff0 sw : is_u16 sw → Z.land sw SW_PIN_COUNTER_MASK = sw / 16 * 16.
Proof.
  intros Hsw. unfold SW_PIN_COUNTER_MASK.
  assert (Z.land sw 0xFFF0 = Z.land sw (Z.lnot 15)) as ->.
  { apply Z.bits_inj'. intros n Hn. rewrite !Z.land_spec, Z.lnot_spec by done.
    destruct (decide (n < 16)) as [Hlt|Hge].
    - f_equal. assert (n = 0 ∨ n = 1 ∨ n = 2 ∨ n = 3 ∨ n = 4 ∨ n = 5 ∨ n = 6 ∨ n = 7 ∨ n = 8
        ∨ n = 9 ∨ n = 10 ∨ n = 11 ∨ n = 12 ∨ n = 13 ∨ n = 14 ∨ n = 15) as Hcases by lia.
      by destruct_or!; subst.
    - unfold is_u16 in Hsw. rewrite (Z.bits_above_log2 sw n); [done|lia|].
      destruct (decide (sw = 0)) as [->|]; [simpl; lia|].
      apply Z.log2_lt_pow2; [lia|]. apply Z.lt_le_trans with (2 ^ 16); [lia|].
      apply Z.pow_le_mono_r; lia. }
  rewrite <- Z.ldiff_land. change 15 with (Z.ones 4).
  rewrite Z.ldiff_ones_r, Z.shiftl_mul_pow2, Z.shiftr_div_pow2 by lia. done.
Qed.

Lemma land_15 x : Z.land x 0x0F = x mod 16.
Proof. change 15 with (Z.ones 4). by rewrite Z.land_ones by lia. Qed.

(** The counter family written out: [0x63C0 + retries]. *)
Lemma as_u16_PinIncorrect r :
  PinRetries_wf r → StatusWord_as_u16 (Sw_PinIncorrect r) = SW_PIN_COUNTER_PREFIX + PinRetries_0 r.
Proof.
  destruct r as [n]. unfold PinRetries_wf. simpl. intros Hn.
  assert (n = 0 ∨ n = 1 ∨ n = 2 ∨ n = 3 ∨ n = 4 ∨ n = 5 ∨ n = 6 ∨ n = 7 ∨ n = 8
    ∨ n = 9 ∨ n = 10 ∨ n = 11 ∨ n = 12 ∨ n = 13 ∨ n = 14 ∨ n = 15) as Hcases by lia.
  by destruct_or!; subst.
Qed.

Lemma from_u16_PinIncorrect n :
  0 ≤ n ≤ 15 → StatusWord_from_u16 (SW_PIN_COUNTER_PREFIX + n) = Sw_PinIncorrect (mkPinRetries n).
Proof.
  intros Hn. assert (n = 0 ∨ n = 1 ∨ n = 2 ∨ n = 3 ∨ n = 4 ∨ n = 5 ∨ n = 6 ∨ n = 7 ∨ n = 8
    ∨ n = 9 ∨ n = 10 ∨ n = 11 ∨ n = 12 ∨ n = 13 ∨ n = 14 ∨ n = 15) as Hcases by lia.
  by destruct_or!; subst.
Qed.

(** What [from_u16] says about its argument, arm by arm. *)
Lemma from_u16_spec sw :
  is_u16 sw →
  (∃ n, 0 ≤ n ≤ 15 ∧ sw = SW_PIN_COUNTER_PREFIX + n
        ∧ StatusWord_from_u16 sw = Sw_PinIncorrect (mkPinRetries n))
  ∨ StatusWord_from_u16 sw = Sw_Other sw
  ∨ (sw ∈ [SW_SUCCESS; SW_END_OF_FILE; SW_AUTHENTICATION_FAILED; SW_WRONG_LENGTH;
           SW_SECURITY_NOT_SATISFIED; SW_AUTHENTICATION_BLOCKED; SW_REFERENCE_DATA_INVALIDATED;
           SW_SM_DATA_OBJECTS_INCORRECT; SW_FILE_NOT_FOUND; SW_REFERENCE_DATA_NOT_FOUND]).
Proof.
  intros Hsw.
  destruct (decide (Z.land sw SW_PIN_COUNTER_MASK = SW_PIN_COUNTER_PREFIX)) as [Hm|Hm].
  { left. rewrite land_fff0 in Hm by done. unfold SW_PIN_COUNTER_PREFIX in Hm.
    assert (0 ≤ sw - SW_PIN_COUNTER_PREFIX ≤ 15) as Hr.
    { unfold SW_PIN_COUNTER_PREFIX. pose proof (Z_div_mod_eq_full sw 16).
      pose proof (Z.mod_pos_bound sw 16). lia. }
    exists (sw - SW_PIN_COUNTER_PREFIX). split_and!; [lia..|].
    rewrite <- from_u16_PinIncorrect by done. f_equal. lia. }
  right. unfold StatusWord_from_u16. apply Z.eqb_neq in Hm. rewrite Hm.
  repeat match goal with |- context [sw =? ?c] =>
    destruct (Z.eqb_spec sw c) as [->|_]; [right; rewrite !elem_of_cons; auto 15|] end.
  by left.
Qed.

Lemma as_u16_from_u16 sw :
  is_u16 sw →
  StatusWord_as_u16 (StatusWord_from_u16 sw) = sw ∧ StatusWord_canonical (StatusWord_from_u16 sw).
Proof.
  intros Hsw. destruct (from_u16_spec sw Hsw) as [(n & Hn & -> & ->)|[Ho|Hin]].
  - split; [|done]. by rewrite as_u16_PinIncorrect.
  - rewrite Ho. split; [done|]. by simpl.
  - repeat (apply elem_of_cons in Hin as [->|Hin]; [by vm_compute|]). set_solver.
Qed.

Lemma from_u16_as_u16 w : StatusWord_canonical w → StatusWord_from_u16 (StatusWord_as_u16 w) = w.
Proof.
  intros Hw. destruct w as [| | | |sw|[n]| | | | | |]; try reflexivity; [exact Hw|].
  rewrite as_u16_PinIncorrect by done. by apply from_u16_PinIncorrect.
Qed.

(** A status word is exactly the code it stands for. *)
Lemma from_u16_eq sw w :
  is_u16 sw → StatusWord_canonical w → StatusWord_from_u16 sw = w ↔ sw = StatusWord_as_u16 w.
Proof.
  intros Hsw Hw. split; [intros <-; symmetry; by apply as_u16_from_u16|].
  intros ->. by apply from_u16_as_u16.
Qed.

(** The two codings of a status word are inverse: every 16-bit value
    survives [from_u16] then [as_u16], and every canonical status word (so in
    particular every counter of [63Cx] with its value) survives [as_u16] then
    [from_u16]; [from_u16] only builds canonical status words. *)
Theorem status_word_coding_bijective :
  (∀ sw, is_u16 sw → StatusWord_as_u16 (StatusWord_from_u16 sw) = sw
                     ∧ StatusWord_canonical (StatusWord_from_u16 sw))
  ∧ (∀ w, StatusWord_canonical w → StatusWord_from_u16 (StatusWord_as_u16 w) = w).
Proof. split; [apply as_u16_from_u16|apply from_u16_as_u16]. Qed.

Lemma status_word_coding_bijective_witness :
  StatusWord_as_u16 (StatusWord_from_u16 0x63C3) = 0x63C3
  ∧ StatusWord_from_u16 (StatusWord_as_u16 (Sw_PinIncorrect (mkPinRetries 3)))
    = Sw_PinIncorrect (mkPinRetries 3).
Proof.
  split.
  - apply (proj1 status_word_coding_bijective 0x63C3). by_decide.
  - apply (proj2 status_word_coding_bijective). by vm_compute.
Defined.
