(* ===== verification/Ber.v ===== *)
(** BER-TLV encoding and parsing: crates/refineid-lib-core/src/ber.rs.
    The encoder ([BerEncoder], [tlv], [tlv2]), the one-TLV parser
    [BerTlvAny_parse] with its cursor, the typed [BerTlv_parse] and the
    iterator over the TLVs of a buffer. *)

From S2P Require Import Prelude.

Definition SHORT_FORM_CEILING : Z := 0x80.
Definition LONG_FORM_1B : Z := 0x81.
Definition LONG_FORM_2B : Z := 0x82.
Definition LONG_FORM_3B : Z := 0x83.
Definition LONG_FORM_4B : Z := 0x84.

(** ** The encoder: [out] is the [Vec<u8>] under construction *)

(** The panics of the encoder carry no error value. *)
Definition BerEncoder_push_length {E} (out : bytes) (n : Z) : result E bytes :=
  if n <? SHORT_FORM_CEILING then Ok (out ++ [n])
  else if n <=? u8_max then Ok (out ++ [LONG_FORM_1B; n])
  else if n <=? u16_max then Ok (out ++ [LONG_FORM_2B] ++ to_be 2 n)
  else if n <=? Z.shiftl 1 24 - 1 then Ok (out ++ [LONG_FORM_3B] ++ drop 1 (to_be 4 n))
  else if n <=? u32_max then Ok (out ++ [LONG_FORM_4B] ++ to_be 4 n)
  else Panic.

Definition BerEncoder_push_tlv {E} (out : bytes) (tag : Z) (value : bytes) : result E bytes :=
  let? out := BerEncoder_push_length (out ++ [tag]) (len value) in
  Ok (out ++ value).

Definition BerEncoder_push_tlv_tag2 {E} (out : bytes) (tag2 : Z) (value : bytes) : result E bytes :=
  let? out := BerEncoder_push_length (out ++ [u16_hi tag2; u16_lo tag2]) (len value) in
  Ok (out ++ value).

Definition tlv {E} (tag : Z) (value : bytes) : result E bytes := BerEncoder_push_tlv [] tag value.
Definition tlv2 {E} (tag2 : Z) (value : bytes) : result E bytes := BerEncoder_push_tlv_tag2 [] tag2 value.

(** ** The parser *)

Inductive BerError :=
| Ber_Empty
| Ber_Truncated
| Ber_UnsupportedLengthForm
| Ber_UnexpectedTag (expected got : Z).
#[export] Instance BerError_eq_dec : EqDecision BerError.
Proof. solve_decision. Defined.

Record BerTlvAny := mkBerTlvAny { any_tag : Z; any_value : bytes; any_size : Z }.
#[export] Instance BerTlvAny_eq_dec : EqDecision BerTlvAny.
Proof. solve_decision. Defined.

Definition MULTI_BYTE_TAG_MASK : Z := 0x1F.

(** The closure [next]: one byte at the cursor, and the cursor after it. *)
Definition ber_next (bs : bytes) (idx : Z) (label_first_byte : bool) : result BerError (Z * Z) :=
  let? b := ok_or (zget idx bs)
    (if label_first_byte && (idx =? 0) then Ber_Empty else Ber_Truncated) in
  Ok (b, idx + 1).

Definition ber_length_nbytes (len_first : Z) : result BerError Z :=
  if len_first =? LONG_FORM_1B then Ok 1
  else if len_first =? LONG_FORM_2B then Ok 2
  else if len_first =? LONG_FORM_3B then Ok 3
  else if len_first =? LONG_FORM_4B then Ok 4
  else Err Ber_UnsupportedLengthForm.

(** The identifier octets, the length octets from [idx] on, the value. *)
Definition ber_parse_identifier (bs : bytes) : result BerError (Z * Z) :=
  let? (first, idx) := ber_next bs 0 true in
  if Z.land first MULTI_BYTE_TAG_MASK =? MULTI_BYTE_TAG_MASK then
    let? (second, idx) := ber_next bs idx false in
    Ok (u16_from_be first second, idx)
  else Ok (first, idx).

Definition ber_parse_length (bs : bytes) (idx : Z) : result BerError (Z * Z) :=
  let? (len_first, idx) := ber_next bs idx false in
  if len_first <? LONG_FORM_1B then Ok (len_first, idx)
  else
    let? nbytes := ber_length_nbytes len_first in
    let? len_bytes := ok_or (zslice idx (idx + nbytes) bs) Ber_Truncated in
    Ok (be_fold len_bytes, idx + nbytes).

Definition BerTlvAny_parse (bs : bytes) : result BerError BerTlvAny :=
  let? (tag, idx) := ber_parse_identifier bs in
  let? (length, idx) := ber_parse_length bs idx in
  let? value_end := if idx + length <=? u64_max then Ok (idx + length) else Err Ber_Truncated in
  let? value := ok_or (zslice idx value_end bs) Ber_Truncated in
  Ok (mkBerTlvAny tag value value_end).

(** [BerTlvAny::expect::<T>] and [BerTlv::<T>::parse]; the tag of the marker
    type [T] is the argument [expected]. *)
Definition BerTlvAny_expect (expected : Z) (t : BerTlvAny) : result BerError BerTlvAny :=
  if negb (any_tag t =? expected) then Err (Ber_UnexpectedTag expected (any_tag t)) else Ok t.

Definition BerTlv_parse (expected : Z) (bs : bytes) : result BerError BerTlvAny :=
  let? t := BerTlvAny_parse bs in BerTlvAny_expect expected t.

(** ** The iterator: its state is the rest of the buffer *)

Definition BerTlvIter_next (remaining : bytes) : option (result BerError BerTlvAny) * bytes :=
  match remaining with
  | [] => (None, [])
  | _ :: _ =>
      match BerTlvAny_parse remaining with
      | Ok t => (Some (Ok t), default [] (zslice (any_size t) (len remaining) remaining))
      | Err e => (Some (Err e), [])
      | Panic => (Some Panic, [])
      end
  end.

(** A [for] loop over the iterator, [fuel] calls of [next] at most: [None]
    when they did not reach the end. *)
Fixpoint BerTlvIter_collect (fuel : nat) (remaining : bytes) : option (list (result BerError BerTlvAny)) :=
  match fuel with
  | O => None
  | S fuel =>
      match BerTlvIter_next remaining with
      | (None, _) => Some []
      | (Some item, rest) => cons item <$> BerTlvIter_collect fuel rest
      end
  end.

Definition BerTlvIter_items (value : bytes) : list (result BerError BerTlvAny) :=
  default [] (BerTlvIter_collect (S (length value)) value).

Definition Boolean_TAG : Z := 0x01.
Definition Integer_TAG : Z := 0x02.
Definition BitString_TAG : Z := 0x03.
Definition OctetString_TAG : Z := 0x04.
Definition Oid_TAG : Z := 0x06.
Definition Utf8String_TAG : Z := 0x0C.
Definition PrintableString_TAG : Z := 0x13.
Definition Sequence_TAG : Z := 0x30.
Definition Set_TAG : Z := 0x31.

(** ** The grammar the parser implements *)

(** Identifier octets: one, or two when the low five bits are all set. *)
Inductive ber_tag : bytes → Z → Prop :=
| ber_tag_1 t : Z.land t MULTI_BYTE_TAG_MASK ≠ MULTI_BYTE_TAG_MASK → ber_tag [t] t
| ber_tag_2 hi lo : Z.land hi MULTI_BYTE_TAG_MASK = MULTI_BYTE_TAG_MASK →
    ber_tag [hi; lo] (u16_from_be hi lo).

(** Length octets: the value itself up to [0x80], or a count octet [0x81] to
    [0x84] and that many big-endian octets. *)
Inductive ber_length : bytes → Z → Prop :=
| ber_length_short n : n ≤ 0x80 → ber_length [n] n
| ber_length_long k l : 1 ≤ k ≤ 4 → len l = k → ber_length (0x80 + k :: l) (be_fold l).

(** One TLV at the front of a buffer. *)
Definition ber_tlv_at (bs : bytes) (t : BerTlvAny) : Prop :=
  ∃ tb lb rest, bs = tb ++ lb ++ any_value t ++ rest ∧ ber_tag tb (any_tag t)
    ∧ ber_length lb (len (any_value t))
    ∧ any_size t = len tb + len lb + len (any_value t).

(** ** The cursor *)

Lemma ber_next_app a x b label :
  ber_next (a ++ x :: b) (len a) label = Ok (x, len a + 1).
Proof. unfold ber_next, len. by rewrite zget_app. Qed.

#[local] Arguments ber_next : simpl never.
#[local] Arguments ber_length_nbytes : simpl never.

Lemma ber_next_at a x b bs i label :
  bs = a ++ x :: b → i = len a → ber_next bs i label = Ok (x, i + 1).
Proof. intros -> ->. apply ber_next_app. Qed.

Lemma ber_next_inv bs idx label x i :
  ber_next bs idx label = Ok (x, i) → ∃ a b, bs = a ++ x :: b ∧ idx = len a ∧ i = len a + 1.
Proof.
  unfold ber_next. intros (y & Hy & [= -> <-])%result_bind_inv_ok.
  apply ok_or_inv, zget_Some in Hy as (a & b & -> & ->). exists a, b. auto.
Qed.

Lemma ber_next_no_panic bs idx label : ber_next bs idx label ≠ Panic.
Proof. unfold ber_next. by destruct (zget idx bs). Qed.

#[export] Hint Rewrite len_app len_cons : lists.

Lemma app_inj_len (a b c d : bytes) : a ++ b = c ++ d → len a = len c → a = c ∧ b = d.
Proof. unfold len. intros. apply app_inj_1; [lia|done]. Qed.

Lemma ber_length_nbytes_inv x n :
  ber_length_nbytes x = Ok n → x = 0x80 + n ∧ 1 ≤ n ≤ 4.
Proof.
  unfold ber_length_nbytes, LONG_FORM_1B, LONG_FORM_2B, LONG_FORM_3B, LONG_FORM_4B.
  repeat match goal with |- context [x =? ?c] => destruct (Z.eqb_spec x c) as [->|?] end;
    intros; simplify_eq; lia.
Qed.

Lemma ber_length_nbytes_ok n : 1 ≤ n ≤ 4 → ber_length_nbytes (0x80 + n) = Ok n.
Proof.
  intros Hn. assert (n = 1 ∨ n = 2 ∨ n = 3 ∨ n = 4) as [->|[->|[->| ->]]] by lia; reflexivity.
Qed.

(** ** The parser implements the grammar *)

Lemma ber_parse_identifier_sound bs tag idx :
  ber_parse_identifier bs = Ok (tag, idx) →
  ∃ tb r, bs = tb ++ r ∧ ber_tag tb tag ∧ idx = len tb.
Proof.
  unfold ber_parse_identifier.
  intros ([first i0] & (a & r0 & -> & Ha & ->)%ber_next_inv & H)%result_bind_inv_ok.
  destruct a; [|rewrite len_cons in Ha; pose proof (len_nonneg a); lia]. simpl in *.
  destruct (Z.eqb_spec (Z.land first MULTI_BYTE_TAG_MASK) MULTI_BYTE_TAG_MASK) as [Hm|Hm].
  - apply result_bind_inv_ok in H as ([second i2] & Hn & [= <- <-]).
    apply ber_next_inv in Hn as (a & b & Heq & Ha' & ->).
    apply (app_inj_len [first]) in Heq as [<- ->]; [|done].
    exists [first; second], b. split_and!; [done|by constructor|done].
  - injection H as <- <-. exists [first], r0. split_and!; [done|by constructor|done].
Qed.

Lemma ber_parse_identifier_complete tb tag r :
  ber_tag tb tag → ber_parse_identifier (tb ++ r) = Ok (tag, len tb).
Proof.
  unfold ber_parse_identifier. intros [t Hm|hi lo Hm]; simpl.
  - by apply Z.eqb_neq in Hm as ->.
  - rewrite Hm, Z.eqb_refl.
    by rewrite (ber_next_at [hi] lo r _ (0 + 1)) by done.
Qed.

Lemma ber_parse_length_sound a r n idx :
  ber_parse_length (a ++ r) (len a) = Ok (n, idx) →
  ∃ lb r', r = lb ++ r' ∧ ber_length lb n ∧ idx = len a + len lb.
Proof.
  unfold ber_parse_length, LONG_FORM_1B.
  intros ([l0 i] & (a' & r0 & Heq & Ha & ->)%ber_next_inv & H)%result_bind_inv_ok.
  apply app_inj_len in Heq as [<- ->]; [|done]. destruct (Z.ltb_spec l0 0x81).
  - injection H as <- <-. exists [l0], r0. split_and!; [done|constructor; lia|done].
  - apply result_bind_inv_ok in H as (k & [-> Hk]%ber_length_nbytes_inv & H).
    apply result_bind_inv_ok in H as (l & Hs & [= <- <-]).
    apply ok_or_inv, zslice_Some in Hs as (c & b & Heq & Hc & Hab).
    change (a ++ (128 + k) :: r0) with (a ++ [128 + k] ++ r0) in Heq.
    rewrite app_assoc in Heq.
    apply app_inj_len in Heq as [<- ->]; [|unfold len in *; rewrite length_app; simpl; lia].
    exists (0x80 + k :: l), b. unfold len in *. rewrite length_app in *. simpl in *.
    split_and!; [done|constructor; unfold len; lia|lia].
Qed.

Lemma ber_parse_length_complete a lb n r :
  ber_length lb n → ber_parse_length (a ++ lb ++ r) (len a) = Ok (n, len a + len lb).
Proof.
  unfold ber_parse_length, LONG_FORM_1B. intros [m Hm|k l Hk Hl]; simpl; rewrite ber_next_app; simpl.
  - destruct (Z.ltb_spec m 0x81); [done|lia].
  - destruct (Z.ltb_spec (0x80 + k) 0x81); [lia|]. rewrite ber_length_nbytes_ok by done. simpl.
    rewrite (proj2 (zslice_Some _ _ _ l)); [simpl; f_equal; f_equal; rewrite len_cons; lia|].
    exists (a ++ [0x80 + k]), r. rewrite <- app_assoc. unfold len in *.
    rewrite length_app. simpl. split_and!; [done|lia|lia].
Qed.

Lemma BerTlvAny_parse_sound bs t : BerTlvAny_parse bs = Ok t → ber_tlv_at bs t.
Proof.
  unfold BerTlvAny_parse.
  intros ([tag i1] & (tb & r1 & -> & Ht & ->)%ber_parse_identifier_sound & H)%result_bind_inv_ok.
  apply result_bind_inv_ok in H as ([n i2] & (lb & r2 & -> & Hl & ->)%ber_parse_length_sound & H).
  apply result_bind_inv_ok in H as (ve & Hve & H). destruct (_ <=? _); simplify_eq.
  apply result_bind_inv_ok in H as (v & Hs & [= <-]).
  apply ok_or_inv, zslice_Some in Hs as (a & b & Heq & Ha & Hab).
  rewrite app_assoc in Heq.
  apply app_inj_len in Heq as [<- ->]; [|unfold len in *; rewrite length_app; lia].
  assert (n = len v) as -> by (unfold len in *; lia).
  exists tb, lb, b. simpl. split_and!; [done..|]. unfold len; lia.
Qed.

Lemma BerTlvAny_parse_complete bs t :
  len bs ≤ u64_max → ber_tlv_at bs t → BerTlvAny_parse bs = Ok t.
Proof.
  intros Hsz (tb & lb & rest & -> & Ht & Hl & Hsize). destruct t as [tag v size]. simpl in *.
  rewrite Hsize. clear Hsize size. rewrite !len_app in Hsz. pose proof (len_nonneg rest).
  unfold BerTlvAny_parse. rewrite (ber_parse_identifier_complete _ _ _ Ht). simpl.
  rewrite (ber_parse_length_complete _ _ _ _ Hl). simpl.
  destruct (Z.leb_spec (len tb + len lb + len v) u64_max); [|lia]. simpl.
  rewrite (proj2 (zslice_Some _ _ _ v)); [done|].
  exists (tb ++ lb), rest. rewrite <- app_assoc. unfold len in *. rewrite length_app.
  split_and!; [done|lia|lia].
Qed.

Lemma BerTlvAny_parse_no_panic bs : BerTlvAny_parse bs ≠ Panic.
Proof.
  unfold BerTlvAny_parse, ber_parse_identifier, ber_parse_length, ber_next, ber_length_nbytes.
  repeat (destruct (zget _ _) || destruct (zslice _ _ _) || (case_match; simplify_eq/=)
          || simplify_eq/=); done.
Qed.

(** ** The encoder emits the grammar *)

Lemma BerEncoder_push_length_ok {E} out n :
  0 ≤ n ≤ u32_max →
  ∃ lb, @BerEncoder_push_length E out n = Ok (out ++ lb) ∧ ber_length lb n ∧ bytes_ok lb ∧ len lb ≤ 5.
Proof.
  unfold BerEncoder_push_length, SHORT_FORM_CEILING, u8_max, u16_max, u32_max.
  intros Hn. change (Z.shiftl 1 24 - 1) with 16777215.
  destruct (Z.ltb_spec n 0x80).
  { exists [n]. split_and!; [done|by constructor; lia|solve_bytes|done]. }
  assert (∀ k l, n = be_fold l → bytes_ok l → 1 ≤ k ≤ 4 → len l = k →
    ber_length ((0x80 + k) :: l) n ∧ bytes_ok ((0x80 + k) :: l) ∧ len ((0x80 + k) :: l) ≤ 5) as Hlong.
  { intros k l -> Hl Hk Hlen. split_and!; [by constructor| |rewrite len_cons; lia].
    constructor; [unfold is_byte; lia|done]. }
  assert (∀ k, n < 256 ^ Z.of_nat k → n = be_fold (to_be k n)) as Hbe.
  { intros k Hk. rewrite be_fold_to_be by lia. rewrite Z.mod_small by lia. done. }
  repeat match goal with |- context [n <=? ?c] => destruct (Z.leb_spec n c) end; try lia.
  - exists [LONG_FORM_1B; n]. split; [done|]. apply (Hlong 1 [n]); [|solve_bytes..].
    symmetry. apply be_fold_1. unfold is_byte; lia.
  - exists (LONG_FORM_2B :: to_be 2 n). split; [done|]. apply (Hlong 2); [|auto with bytes|lia|done].
    apply Hbe. simpl; lia.
  - exists (LONG_FORM_3B :: to_be 3 n). split; [done|]. apply (Hlong 3); [|auto with bytes|lia|done].
    apply Hbe. simpl; lia.
  - exists (LONG_FORM_4B :: to_be 4 n). split; [done|]. apply (Hlong 4); [|auto with bytes|lia|done].
    apply Hbe. simpl; lia.
Qed.

(** A one-byte or two-byte tag and a value of at most [u32::MAX] bytes. *)
Lemma tlv_ok {E} tag v :
  len v ≤ u32_max → ∃ lb, @tlv E tag v = Ok (tag :: lb ++ v) ∧ ber_length lb (len v) ∧ bytes_ok lb
    ∧ len lb ≤ 5.
Proof.
  intros Hv. unfold tlv, BerEncoder_push_tlv. simpl.
  destruct (@BerEncoder_push_length_ok E [tag] (len v)) as (lb & -> & ? & ? & ?);
    [unfold len in *; lia|]. by exists lb.
Qed.

Lemma tlv2_ok {E} tag v :
  len v ≤ u32_max → ∃ lb, @tlv2 E tag v = Ok (u16_hi tag :: u16_lo tag :: lb ++ v)
    ∧ ber_length lb (len v) ∧ bytes_ok lb ∧ len lb ≤ 5.
Proof.
  intros Hv. unfold tlv2, BerEncoder_push_tlv_tag2. simpl.
  destruct (@BerEncoder_push_length_ok E [u16_hi tag; u16_lo tag] (len v)) as (lb & -> & ? & ? & ?);
    [unfold len in *; lia|]. by exists lb.
Qed.

Lemma ber_tlv_at_tlv tag lb v rest :
  Z.land tag MULTI_BYTE_TAG_MASK ≠ MULTI_BYTE_TAG_MASK → ber_length lb (len v) →
  ber_tlv_at ((tag :: lb ++ v) ++ rest) (mkBerTlvAny tag v (len (tag :: lb ++ v))).
Proof.
  intros Ht Hl. exists [tag], lb, rest. simpl. rewrite <- app_assoc.
  split_and!; [done|by constructor|done|]. rewrite len_cons, len_app. unfold len; simpl; lia.
Qed.

(** Parsing an encoded TLV followed by anything gives the TLV back. *)
Lemma tlv_parse {E} tag v rest enc :
  Z.land tag MULTI_BYTE_TAG_MASK ≠ MULTI_BYTE_TAG_MASK → len v ≤ u32_max →
  len (enc ++ rest) ≤ u64_max →
  @tlv E tag v = Ok enc → BerTlvAny_parse (enc ++ rest) = Ok (mkBerTlvAny tag v (len enc)).
Proof.
  intros Ht Hv Hsz Henc. destruct (@tlv_ok E tag v Hv) as (lb & Hlb & ? & _).
  rewrite Hlb in Henc. injection Henc as <-.
  apply BerTlvAny_parse_complete; [done|]. by apply ber_tlv_at_tlv.
Qed.

Lemma ber_tlv_at_size bs t : ber_tlv_at bs t → 2 ≤ any_size t ≤ len bs.
Proof.
  intros (tb & lb & rest & -> & Ht & Hl & ->). rewrite !len_app.
  pose proof (len_nonneg rest). pose proof (len_nonneg (any_value t)).
  assert (1 ≤ len tb) by (inversion Ht; unfold len; simpl; lia).
  assert (1 ≤ len lb) by (inversion Hl; unfold len; simpl; lia). lia.
Qed.

(** ** The iterator *)

Lemma BerTlvIter_next_shrinks bs item rest :
  BerTlvIter_next bs = (Some item, rest) → (length rest < length bs)%nat.
Proof.
  destruct bs as [|b bs]; [done|]. simpl.
  destruct (BerTlvAny_parse (b :: bs)) as [t|e|] eqn:Hp; intros [= <- <-]; simpl; [|lia..].
  apply BerTlvAny_parse_sound, ber_tlv_at_size in Hp.
  destruct (zslice _ _ _) as [s|] eqn:Hs; simpl; [|lia].
  apply zslice_Some in Hs as (a & c & Heq & Ha & Hc).
  apply (f_equal length) in Heq. rewrite !length_app in Heq. simpl in Heq. unfold len in *. lia.
Qed.

(** One call per byte is enough for the whole buffer. *)
Lemma BerTlvIter_collect_total fuel bs :
  (length bs < fuel)%nat → ∃ items, BerTlvIter_collect fuel bs = Some items.
Proof.
  revert bs; induction fuel as [|fuel IH]; intros bs Hf; [lia|]. simpl.
  destruct (BerTlvIter_next bs) as [[item|] rest] eqn:Hn; [|eauto].
  apply BerTlvIter_next_shrinks in Hn. destruct (IH rest) as [items ->]; [lia|]. simpl; eauto.
Qed.

Lemma BerTlvIter_collect_mono fuel fuel' bs items :
  BerTlvIter_collect fuel bs = Some items → (fuel ≤ fuel')%nat →
  BerTlvIter_collect fuel' bs = Some items.
Proof.
  revert fuel' bs items; induction fuel as [|fuel IH]; intros fuel' bs items; [done|].
  destruct fuel' as [|fuel']; [lia|]. simpl.
  destruct (BerTlvIter_next bs) as [[item|] rest]; [|done].
  intros (l & Hl & ->)%fmap_Some Hle. rewrite (IH fuel' _ _ Hl) by lia. done.
Qed.

Lemma BerTlvIter_collect_S fuel bs :
  BerTlvIter_collect (S fuel) bs =
  match BerTlvIter_next bs with
  | (None, _) => Some []
  | (Some item, rest) => cons item <$> BerTlvIter_collect fuel rest
  end.
Proof. done. Qed.

Lemma BerTlvIter_next_Ok bs t rest :
  BerTlvAny_parse (bs ++ rest) = Ok t → any_size t = len bs →
  BerTlvIter_next (bs ++ rest) = (Some (Ok t), rest).
Proof.
  intros Hp Hs. pose proof (BerTlvAny_parse_sound _ _ Hp) as Hsz%ber_tlv_at_size.
  destruct bs as [|b bs]; [unfold len in *; simpl in *; lia|].
  rewrite <- app_comm_cons in *. unfold BerTlvIter_next. rewrite Hp.
  rewrite (proj2 (zslice_Some _ _ _ rest)); [done|].
  exists (b :: bs), []. rewrite app_nil_r, Hs. unfold len. simpl. rewrite length_app.
  split_and!; [done|done|lia].
Qed.

(** The next item of a buffer that starts with a TLV. *)
Lemma BerTlvIter_items_cons bs t rest :
  BerTlvAny_parse (bs ++ rest) = Ok t → any_size t = len bs →
  BerTlvIter_items (bs ++ rest) = Ok t :: BerTlvIter_items rest.
Proof.
  intros Hp Hs. pose proof (BerTlvAny_parse_sound _ _ Hp) as Hsz%ber_tlv_at_size.
  unfold BerTlvIter_items.
  destruct (BerTlvIter_collect_total (S (length rest)) rest) as [items Hitems]; [lia|].
  rewrite BerTlvIter_collect_S, (BerTlvIter_next_Ok _ _ _ Hp Hs), Hitems.
  rewrite (BerTlvIter_collect_mono _ _ _ _ Hitems); [done|].
  rewrite length_app. unfold len in *. rewrite length_app in *. lia.
Qed.

Lemma BerTlvIter_items_nil : BerTlvIter_items [] = [].
Proof. done. Qed.

Lemma BerTlvIter_items_tlv {E} tag v rest enc :
  Z.land tag MULTI_BYTE_TAG_MASK ≠ MULTI_BYTE_TAG_MASK → len v ≤ u32_max →
  len (enc ++ rest) ≤ u64_max → @tlv E tag v = Ok enc →
  BerTlvIter_items (enc ++ rest) = Ok (mkBerTlvAny tag v (len enc)) :: BerTlvIter_items rest.
Proof. intros. apply BerTlvIter_items_cons; [by eapply tlv_parse|done]. Qed.

(** An encoded TLV, by either encoder, with a tag of the right form. *)
Inductive ber_encoded (tag : Z) (v enc : bytes) : Prop :=
| ber_encoded_1 : Z.land tag MULTI_BYTE_TAG_MASK ≠ MULTI_BYTE_TAG_MASK →
    @tlv BerError tag v = Ok enc → ber_encoded tag v enc
| ber_encoded_2 : Z.land (u16_hi tag) MULTI_BYTE_TAG_MASK = MULTI_BYTE_TAG_MASK →
    @tlv2 BerError tag v = Ok enc → ber_encoded tag v enc.

Lemma ber_encoded_parse tag v enc rest :
  len v ≤ u32_max → len (enc ++ rest) ≤ u64_max → ber_encoded tag v enc →
  BerTlvAny_parse (enc ++ rest) = Ok (mkBerTlvAny tag v (len enc)).
Proof.
  intros Hv Hsz [Ht He|Ht He]; [by apply (@tlv_parse BerError)|].
  destruct (@tlv2_ok BerError tag v Hv) as (lb & Hlb & Hl & _). rewrite Hlb in He. injection He as <-.
  apply BerTlvAny_parse_complete; [done|]. exists [u16_hi tag; u16_lo tag], lb, rest. simpl.
  rewrite <- app_assoc. split_and!; [done| |done|].
  - rewrite <- (u16_hi_lo tag) at 3. by constructor.
  - rewrite !len_cons, len_app. unfold len; simpl; lia.
Qed.

Lemma BerTlvIter_items_parse_Ok b bs t :
  BerTlvAny_parse (b :: bs) = Ok t →
  ∃ enc rest, b :: bs = enc ++ rest ∧ any_size t = len enc ∧ 2 ≤ len enc
    ∧ BerTlvIter_items (b :: bs) = Ok t :: BerTlvIter_items rest.
Proof.
  intros Hp. pose proof (BerTlvAny_parse_sound _ _ Hp) as (tb & lb & rest & Heq & _ & _ & Hs).
  pose proof (ber_tlv_at_size _ _ (BerTlvAny_parse_sound _ _ Hp)) as Hsz.
  exists (tb ++ lb ++ any_value t), rest.
  assert (any_size t = len (tb ++ lb ++ any_value t)) as Hs' by (rewrite !len_app; lia).
  assert (b :: bs = (tb ++ lb ++ any_value t) ++ rest) as Heq' by (by rewrite <- !app_assoc).
  split_and!; [done..|lia|]. rewrite Heq' in *. by apply BerTlvIter_items_cons.
Qed.

(** C1: the parser is exactly the BER-TLV grammar [ber_tlv_at]: it returns a
    TLV if and only if the buffer starts with it (identifier octets, length
    octets, value; [size] is their total length), it never reads past the
    buffer (the size lies between 2 and the buffer's length) and it never
    panics, whatever the bytes. In that grammar the octet [0x80], the
    indefinite-length marker of BER, reads as the definite length 128. *)
Theorem ber_parse_implements_grammar bs (Hsz : len bs ≤ u64_max) :
  BerTlvAny_parse bs ≠ Panic
  ∧ (∀ t, BerTlvAny_parse bs = Ok t ↔ ber_tlv_at bs t)
  ∧ (∀ t, BerTlvAny_parse bs = Ok t → 2 ≤ any_size t ≤ len bs)
  ∧ (∀ v rest, len v = 0x80 → bs = OctetString_TAG :: 0x80 :: v ++ rest →
       BerTlvAny_parse bs = Ok (mkBerTlvAny OctetString_TAG v (2 + 0x80))).
Proof.
  split_and!.
  - apply BerTlvAny_parse_no_panic.
  - intros t. split; [apply BerTlvAny_parse_sound|by apply BerTlvAny_parse_complete].
  - intros t Ht. by apply ber_tlv_at_size, BerTlvAny_parse_sound.
  - intros v rest Hv ->. apply BerTlvAny_parse_complete; [done|].
    exists [OctetString_TAG], [0x80], rest. simpl.
    split_and!; [done|by constructor|rewrite Hv; by constructor|by rewrite Hv].
Qed.

Lemma ber_parse_implements_grammar_witness :
  len (OctetString_TAG :: 0x80 :: replicate 128 7 ++ [1]) ≤ u64_max
  ∧ BerTlvAny_parse (OctetString_TAG :: 0x80 :: replicate 128 7 ++ [1])
    = Ok (mkBerTlvAny OctetString_TAG (replicate 128 7) 130).
Proof.
  split; [by vm_compute|].
  refine (proj2 (proj2 (proj2 (ber_parse_implements_grammar _ _))) _ [1] _ _); by vm_compute.
Defined.

(** Round trip of the encoders and the iterator: the items of a
    concatenation of encoded TLVs (one-byte tags by [tlv], two-byte tags by
    [tlv2]; values up to [u32::MAX] bytes) are those TLVs, in order, with
    their tags, values and sizes, and nothing else. *)
Theorem ber_iter_of_encoded (l : list (Z * bytes * bytes))
  (Henc : Forall (λ '(tag, v, enc), ber_encoded tag v enc ∧ len v ≤ u32_max) l)
  (Hsz : len (concat ((λ '(_, _, enc), enc) <$> l)) ≤ u64_max) :
  BerTlvIter_items (concat ((λ '(_, _, enc), enc) <$> l))
  = (λ '(tag, v, enc), Ok (mkBerTlvAny tag v (len enc))) <$> l.
Proof.
  induction l as [|[[tag v] enc] l IH]; [done|]. csimpl in *.
  apply Forall_cons_iff in Henc as [[He Hv] Hl].
  rewrite (BerTlvIter_items_cons _ (mkBerTlvAny tag v (len enc))); [|by apply ber_encoded_parse|done].
  rewrite IH; [done|done|]. rewrite len_app in Hsz. pose proof (len_nonneg enc). lia.
Qed.

Lemma ber_iter_of_encoded_witness :
  BerTlvIter_items ([0x30; 2; 1; 2] ++ [0x7F; 0x49; 1; 5] ++ [])
  = [Ok (mkBerTlvAny 0x30 [1; 2] 4); Ok (mkBerTlvAny 0x7F49 [5] 4)].
Proof.
  refine (ber_iter_of_encoded [(0x30, [1; 2], [0x30; 2; 1; 2]); (0x7F49, [5], [0x7F; 0x49; 1; 5])] _ _);
    [|by vm_compute].
  repeat apply Forall_cons_2; [split|split|apply Forall_nil_2]; try by vm_compute.
  - apply ber_encoded_1; by vm_compute.
  - apply ber_encoded_2; by vm_compute.
Defined.

(** Iterating over any buffer ends: [length] calls of [next] reach the
    end, every item but possibly the last is a TLV, an error stops the
    iteration at once, and the TLVs found account for at most the buffer. *)
Theorem ber_iter_total bs :
  (∃ items, BerTlvIter_collect (S (length bs)) bs = Some items ∧ BerTlvIter_items bs = items)
  ∧ ∃ ts last, BerTlvIter_items bs = (Ok <$> ts) ++ last
     ∧ (last = [] ∨ ∃ e, last = [Err e])
     ∧ foldr (λ t n, any_size t + n) 0 ts ≤ len bs.
Proof.
  split.
  - unfold BerTlvIter_items. destruct (BerTlvIter_collect_total (S (length bs)) bs) as [items ->]; [lia|].
    by exists items.
  - induction bs as [bs IH] using (induction_ltof1 _ length). unfold ltof in IH.
    destruct bs as [|b bs]; [exists [], []; split_and!; [done|by left|done]|].
    destruct (BerTlvAny_parse (b :: bs)) as [t|e|] eqn:Hp.
    + destruct (BerTlvIter_items_parse_Ok _ _ _ Hp) as (enc & rest & Heq & Hs & Hge & ->).
      rewrite Heq in *.
      destruct (IH rest) as (ts & last & -> & Hlast & Hsum).
      { rewrite length_app. unfold len in *. lia. }
      exists (t :: ts), last. split_and!; [done|done|]. simpl. rewrite len_app. lia.
    + exists [], [Err e]. split_and!; [|eauto|apply len_nonneg].
      unfold BerTlvIter_items. rewrite BerTlvIter_collect_S. unfold BerTlvIter_next. by rewrite Hp.
    + by apply BerTlvAny_parse_no_panic in Hp.
Qed.
