(* ===== verification/Der.v ===== *)
(** What the sources take from the crates der, spki and x509_cert, as a class: the
    decoding of one value, the reader that hands out one encoded value after the other,
    the key information, and the two times of a certificate. A reader is the octets it
    has not handed out; a [DateTime] is its seconds since 1970. *)

From S2P Require Import Prelude Ber.

Inductive DerTag :=
| Tag_Boolean | Tag_Integer | Tag_BitString | Tag_OctetString | Tag_Null | Tag_ObjectIdentifier
| Tag_Enumerated | Tag_Utf8String | Tag_PrintableString | Tag_TeletexString | Tag_Ia5String
| Tag_UtcTime | Tag_GeneralizedTime | Tag_BmpString | Tag_Sequence | Tag_Set
| Tag_ContextSpecific (constructed : bool) (number : Z)
| Tag_Other (octet : Z).
#[export] Instance DerTag_eq_dec : EqDecision DerTag.
Proof. solve_decision. Defined.

(** The identifier octet of a tag. *)
Definition tag_octet (t : DerTag) : Z :=
  match t with
  | Tag_Boolean => 0x01 | Tag_Integer => 0x02 | Tag_BitString => 0x03 | Tag_OctetString => 0x04
  | Tag_Null => 0x05 | Tag_ObjectIdentifier => 0x06 | Tag_Enumerated => 0x0A | Tag_Utf8String => 0x0C
  | Tag_PrintableString => 0x13 | Tag_TeletexString => 0x14 | Tag_Ia5String => 0x16
  | Tag_UtcTime => 0x17 | Tag_GeneralizedTime => 0x18 | Tag_BmpString => 0x1E
  | Tag_Sequence => 0x30 | Tag_Set => 0x31
  | Tag_ContextSpecific constructed number => (if constructed then 0xA0 else 0x80) + number
  | Tag_Other octet => octet
  end.

(** [AnyRef]: the tag and the octets of the value. *)
Record AnyRef := mkAnyRef { ar_tag : DerTag; ar_value : bytes }.
#[export] Instance AnyRef_eq_dec : EqDecision AnyRef.
Proof. solve_decision. Defined.

(** [SubjectPublicKeyInfoRef]: the algorithm, its parameters, the octets of the key. *)
Record SubjectPublicKeyInfoRef := mkSpkiRef {
  spki_algorithm_oid : bytes;
  spki_parameters : option AnyRef;
  spki_raw_bytes : bytes;
}.

Definition DerDateTime : Type := Z.

(** [tlv_bytes] takes the first value, header and all, off the reader; [decode_as_oid]
    is [decode_as::<ObjectIdentifier>]; [Validity_from_der] has the [to_date_time] of
    both bounds. *)
Class DerCrate := {
  AnyRef_from_der : bytes → option AnyRef;
  SliceReader_new : bytes → option bytes;
  SliceReader_tlv_bytes : bytes → option (bytes * bytes);
  SubjectPublicKeyInfoRef_from_der : bytes → option SubjectPublicKeyInfoRef;
  decode_as_oid : AnyRef → option bytes;
  Validity_from_der : bytes → option (DerDateTime * DerDateTime);
}.

Definition is_finished (reader : bytes) : bool := bool_decide (reader = []).
Definition DER_MAX_LEN : Z := 268435456.
(** The tags of one octet. *)
Definition plain_tag (t : DerTag) : Prop :=
  match t with Tag_ContextSpecific _ number => 0 ≤ number ≤ 30 | Tag_Other _ => False | _ => True end.

Class DerLaws `{DerCrate} := {
  reader_new bs r : SliceReader_new bs = Some r → r = bs;
  reader_new_ok bs : len bs < DER_MAX_LEN → SliceReader_new bs = Some bs;
  tlv_bytes_takes r t r' : SliceReader_tlv_bytes r = Some (t, r') → r = t ++ r' ∧ t ≠ [];
  (** The octets of a value, and those of a key, are where they were read from. *)
  from_der_value bs any : AnyRef_from_der bs = Some any → ∃ header, bs = header ++ ar_value any;
  spki_raw_within bs info : SubjectPublicKeyInfoRef_from_der bs = Some info → ∃ before after, bs = before ++ spki_raw_bytes info ++ after;
  (** A value whose header is the shortest. *)
  from_der_tlv tag value enc :
    plain_tag tag → len enc < DER_MAX_LEN → tlv (E := unit) (tag_octet tag) value = Ok enc →
    AnyRef_from_der enc = Some (mkAnyRef tag value);
  tlv_bytes_tlv tag value enc rest :
    plain_tag tag → len (enc ++ rest) < DER_MAX_LEN → tlv (E := unit) (tag_octet tag) value = Ok enc →
    SliceReader_tlv_bytes (enc ++ rest) = Some (enc, rest);
}.

(** ** The values of a reader *)

Section reader.
Context `{DerCrate}.

(** What [while !reader.is_finished() { reader.tlv_bytes() .. }] is handed, in order: a
    failure ends the loops of the sources. *)
Fixpoint reader_items_fuel (fuel : nat) (reader : bytes) : list (option bytes) :=
  match fuel with
  | O => []
  | S fuel =>
      if is_finished reader then []
      else match SliceReader_tlv_bytes reader with
           | None => [None]
           | Some (t, rest) => Some t :: reader_items_fuel fuel rest
           end
  end.
Definition reader_items (reader : bytes) : list (option bytes) := reader_items_fuel (length reader) reader.

(** [AnyRef::from_der(reader.tlv_bytes()?)]. *)
Definition next_any (reader : bytes) : option (AnyRef * bytes) :=
  '(t, rest) ← SliceReader_tlv_bytes reader; any ← AnyRef_from_der t; Some (any, rest).
End reader.

Section laws.
Context `{DerCrate} `{!DerLaws}.

Lemma tlv_bytes_shrinks r t r' : SliceReader_tlv_bytes r = Some (t, r') → (length r' < length r)%nat.
Proof.
  intros (-> & Hne)%tlv_bytes_takes. rewrite length_app. destruct t; [done|simpl; lia].
Qed.
(** The fuel never cuts the values short. *)
Lemma reader_items_enough fuel r : (length r ≤ fuel)%nat → reader_items_fuel fuel r = reader_items r.
Proof.
  unfold reader_items. remember (length r) as n eqn:Hn. revert r fuel Hn.
  induction n as [n IH] using lt_wf_ind. intros r fuel -> Hf.
  destruct (decide (r = [])) as [->|Hne]; [by destruct fuel|].
  destruct fuel as [|fuel]; [destruct r; simpl in *; [done|lia]|].
  destruct (length r) as [|m] eqn:Hm; [by destruct r|]. cbn [reader_items_fuel].
  unfold is_finished. rewrite bool_decide_eq_false_2 by done.
  destruct (SliceReader_tlv_bytes r) as [[t r']|] eqn:Hr; [|done]. f_equal.
  apply tlv_bytes_shrinks in Hr. rewrite Hm in Hr.
  rewrite (IH (length r') Hr r' fuel), (IH (length r') Hr r' m); [done|done|lia|done|lia].
Qed.
Lemma reader_items_nil : reader_items [] = [].
Proof. done. Qed.
Lemma reader_items_cons r t r' : SliceReader_tlv_bytes r = Some (t, r') → reader_items r = Some t :: reader_items r'.
Proof.
  intros Hr. pose proof (tlv_bytes_shrinks _ _ _ Hr). unfold reader_items at 1. destruct (length r) as [|n] eqn:Hn; [lia|].
  cbn [reader_items_fuel]. unfold is_finished. rewrite bool_decide_eq_false_2, Hr by (by intros ->).
  rewrite reader_items_enough; [done|lia].
Qed.
(** The values of an encoded list. *)
Lemma reader_items_concat (l : list (DerTag * bytes * bytes)) :
  Forall (λ '(tag, v, enc), plain_tag tag ∧ tlv (E := unit) (tag_octet tag) v = Ok enc) l →
  len (concat (map snd l)) < DER_MAX_LEN →
  reader_items (concat (map snd l)) = map (λ x, Some x.2) l.
Proof.
  induction 1 as [|[[tag v] enc] l [Ht He] _ IH]; intros Hlen; [done|]. cbn [map concat snd] in *.
  pose proof (tlv_bytes_tlv tag v enc _ Ht Hlen He) as Hr. rewrite (reader_items_cons _ _ _ Hr). f_equal. apply IH.
  rewrite len_app in Hlen. pose proof (len_nonneg enc). lia.
Qed.
Lemma next_any_tlv tag v enc rest :
  plain_tag tag → len (enc ++ rest) < DER_MAX_LEN → tlv (E := unit) (tag_octet tag) v = Ok enc →
  next_any (enc ++ rest) = Some (mkAnyRef tag v, rest).
Proof.
  intros Ht Hl He. unfold next_any. rewrite (tlv_bytes_tlv tag v enc rest) by done. cbn [mbind option_bind].
  rewrite (from_der_tlv tag v enc); [done|done| |done]. rewrite len_app in Hl. pose proof (len_nonneg rest). lia.
Qed.
End laws.

(** ** An instance: the BER parser of the library with the shortest headers *)

Module ber_der.
Definition tag_of (octet : Z) : DerTag :=
  default (Tag_Other octet)
    (list_find (λ t, tag_octet t = octet)
       ([Tag_Boolean; Tag_Integer; Tag_BitString; Tag_OctetString; Tag_Null; Tag_ObjectIdentifier; Tag_Enumerated;
         Tag_Utf8String; Tag_PrintableString; Tag_TeletexString; Tag_Ia5String; Tag_UtcTime; Tag_GeneralizedTime;
         Tag_BmpString; Tag_Sequence; Tag_Set]
        ++ map (Tag_ContextSpecific true) (map Z.of_nat (seq 0 31))
        ++ map (Tag_ContextSpecific false) (map Z.of_nat (seq 0 31))) ≫= λ x, Some x.2).
Definition any_from_der (bs : bytes) : option AnyRef :=
  match BerTlvAny_parse bs with
  | Ok t => if any_size t =? len bs then Some (mkAnyRef (tag_of (any_tag t)) (any_value t)) else None
  | _ => None
  end.
Definition take_tlv (r : bytes) : option (bytes * bytes) :=
  match BerTlvAny_parse r with
  | Ok t => Some (take (Z.to_nat (any_size t)) r, drop (Z.to_nat (any_size t)) r)
  | _ => None
  end.
Definition take_any (r : bytes) : option (AnyRef * bytes) :=
  '(t, rest) ← take_tlv r; any ← any_from_der t; Some (any, rest).
Definition spki_from_der (bs : bytes) : option SubjectPublicKeyInfoRef :=
  outer ← any_from_der bs;
  '(algorithm, rest) ← take_any (ar_value outer);
  '(key, _) ← take_any rest;
  '(oid, params) ← take_any (ar_value algorithm);
  Some (mkSpkiRef (ar_value oid) (fst <$> take_any params) (drop 1 (ar_value key))).
Definition oid_of (any : AnyRef) : option bytes :=
  if decide (ar_tag any = Tag_ObjectIdentifier) then Some (ar_value any) else None.

#[export] Instance crate : DerCrate := {|
  AnyRef_from_der := any_from_der;
  SliceReader_new bs := Some bs;
  SliceReader_tlv_bytes := take_tlv;
  SubjectPublicKeyInfoRef_from_der := spki_from_der;
  decode_as_oid := oid_of;
  Validity_from_der bs := if decide (bs = []) then None else Some (0, 4000000000) |}.

Lemma tag_of_octet t : plain_tag t → tag_of (tag_octet t) = t ∧ Z.land (tag_octet t) MULTI_BYTE_TAG_MASK ≠ MULTI_BYTE_TAG_MASK ∧ is_byte (tag_octet t).
Proof.
  destruct t as [| | | | | | | | | | | | | | | |c n|o]; intros Hn; try by (split_and!; by vm_compute). destruct Hn as [H1 H2].
  assert (∃ k, (k < 31)%nat ∧ n = Z.of_nat k) as (k & Hk & ->) by (exists (Z.to_nat n); lia).
  do 31 (destruct k as [|k]; [destruct c; split_and!; by vm_compute|]). lia.
Qed.
Lemma short_tlv_len tag v enc : len enc < DER_MAX_LEN → tlv (E := unit) tag v = Ok enc → len v ≤ u32_max.
Proof.
  intros Hl He. unfold tlv, BerEncoder_push_tlv in He. apply result_bind_inv_ok in He as (out & _ & [= <-]).
  rewrite len_app in Hl. pose proof (len_nonneg out). unfold DER_MAX_LEN, u32_max in *. lia.
Qed.
Lemma parse_encoded tag v enc rest : plain_tag tag → len (enc ++ rest) < DER_MAX_LEN → tlv (E := unit) (tag_octet tag) v = Ok enc →
  BerTlvAny_parse (enc ++ rest) = Ok (mkBerTlvAny (tag_octet tag) v (len enc)).
Proof.
  intros Ht Hl He. destruct (tag_of_octet tag Ht) as (_ & Hm & _). apply (@tlv_parse unit); [done| | |done].
  - apply (short_tlv_len (tag_octet tag) v enc); [|done]. rewrite len_app in Hl. pose proof (len_nonneg rest). lia.
  - unfold DER_MAX_LEN, u64_max in *. lia.
Qed.

Lemma any_from_der_value bs any : any_from_der bs = Some any → ∃ header, bs = header ++ ar_value any.
Proof.
  unfold any_from_der. destruct (BerTlvAny_parse bs) as [t| |] eqn:Hp; [|done|done]. destruct (Z.eqb_spec (any_size t) (len bs)) as [Hs|]; [|done].
  intros [= <-]. apply BerTlvAny_parse_sound in Hp as (tb & lb & rest & -> & _ & _ & Hsz). cbn [ar_value].
  exists (tb ++ lb). rewrite !len_app in Hs. destruct rest; [by rewrite <- app_assoc, app_nil_r|]. rewrite len_cons in Hs. pose proof (len_nonneg rest). lia.
Qed.
Lemma take_any_within r any rest : take_any r = Some (any, rest) → ∃ header, r = (header ++ ar_value any) ++ rest.
Proof.
  unfold take_any, take_tlv. destruct (BerTlvAny_parse r) as [t| |]; [|done|done]. cbn [mbind option_bind].
  destruct (any_from_der _) as [a|] eqn:Ha; [|done]. intros [= <- <-]. apply any_from_der_value in Ha as [h Hh].
  exists h. by rewrite <- Hh, take_drop.
Qed.

#[export] Instance laws : DerLaws.
Proof.
  split; cbn [AnyRef_from_der SliceReader_new SliceReader_tlv_bytes crate].
  - by intros bs r [= <-].
  - done.
  - intros r t r'. unfold take_tlv. destruct (BerTlvAny_parse r) as [a| |] eqn:Hp; [|done|done]. intros [= <- <-].
    split; [by rewrite take_drop|]. apply BerTlvAny_parse_sound, ber_tlv_at_size in Hp. intros Ht%(f_equal length).
    rewrite length_take in Ht. unfold len in Hp. simpl in Ht. lia.
  - intros bs any Hb. by apply any_from_der_value.
  - intros bs info. cbn [SubjectPublicKeyInfoRef_from_der crate]. unfold spki_from_der.
    destruct (any_from_der bs) as [outer|] eqn:Ho; [|done]. cbn [mbind option_bind].
    destruct (take_any (ar_value outer)) as [[algorithm rest]|] eqn:Ha; [|done]. cbn [mbind option_bind].
    destruct (take_any rest) as [[key rest']|] eqn:Hk; [|done]. cbn [mbind option_bind].
    destruct (take_any (ar_value algorithm)) as [[oid params]|]; [|done]. intros [= <-]. cbn [spki_raw_bytes].
    apply any_from_der_value in Ho as [h0 ->]. apply take_any_within in Ha as [a1 Ha], Hk as [a2 ->]. rewrite Ha.
    exists (h0 ++ (a1 ++ ar_value algorithm) ++ a2 ++ take 1 (ar_value key)), rest'. rewrite <- !app_assoc. by rewrite (app_assoc (take 1 _)), take_drop.
  - intros tag v enc Ht Hl He. unfold any_from_der. rewrite <- (app_nil_r enc) in Hl. pose proof (parse_encoded tag v enc [] Ht Hl He) as Hp.
    rewrite app_nil_r in Hp. rewrite Hp. cbn [any_size any_tag any_value]. rewrite Z.eqb_refl.
    by destruct (tag_of_octet tag Ht) as (-> & _).
  - intros tag v enc rest Ht Hl He. unfold take_tlv. rewrite (parse_encoded tag v enc rest Ht Hl He). cbn [any_size].
    unfold len. by rewrite Nat2Z.id, take_app_length, drop_app_length.
Qed.
End ber_der.
