(* ===== verification/Ecdsa.v ===== *)
(** crates/refineid-lib-core/src/crypto/ecdsa.rs: elliptic curve keys, their curves by
    name or by explicit parameters, the arithmetic of points over any odd prime, the
    verifier of ECDSA signatures, and the coding of a raw signature as DER. The
    arithmetic modulo the prime and the order is that of crypto-bigint
    (CryptoCrates.v), the key information that of spki (Der.v). *)

From Stdlib Require Import Ring.
From S2P Require Import Prelude Ber Oid CryptoCrates Weierstrass Der.

Definition SEC1_UNCOMPRESSED_TAG : Z := 0x04.
Definition DER_SIGN_PAD : Z := 0.
Definition DER_SIGN_PAD_PREFIX : bytes := [DER_SIGN_PAD].

(** The parameters of a curve, as octets. *)
Record Curve := mkCurve { curve_p : bytes; curve_a : bytes; curve_b : bytes; curve_gx : bytes; curve_gy : bytes; curve_n : bytes }.
Inductive EcdsaError := Ecdsa_BadModulus | Ecdsa_BadPublicKey | Ecdsa_BadSignature | Ecdsa_SigOutOfRange | Ecdsa_NotInvertible | Ecdsa_VerifyFailed.

(** ** Keys *)

Record Sec1UncompressedPoint := mkSec1 { Sec1_as_bytes : bytes }.
Inductive Sec1ParseError := Sec1_BadFormatByte | Sec1_BadBodyLength.
Definition Sec1_from_bytes (bs : bytes) : result Sec1ParseError Sec1UncompressedPoint :=
  if negb (bool_decide (head bs = Some SEC1_UNCOMPRESSED_TAG)) then Err Sec1_BadFormatByte
  else
    let? body_len := (if 1 <=? len bs then Ok (len bs - 1) else Err Sec1_BadFormatByte) in
    if (body_len =? 0) || negb (body_len mod 2 =? 0) then Err Sec1_BadBodyLength else Ok (mkSec1 bs).
Definition Sec1_len (p : Sec1UncompressedPoint) : Z := len (Sec1_as_bytes p).
Definition Sec1_is_empty (p : Sec1UncompressedPoint) : bool := bool_decide (Sec1_as_bytes p = []).

(** [slice.split_at] of an even body. *)
Definition halves (body : bytes) : bytes * bytes :=
  let half := Z.to_nat (Z.shiftr (len body) 1) in (take half body, drop half body).

(** ** Explicit parameters *)

Definition strip_sign (value : bytes) : bytes := default value (strip_prefix DER_SIGN_PAD_PREFIX value).
Definition bad_modulus {E A} (r : result E A) : result EcdsaError A := map_err (λ _, Ecdsa_BadModulus) r.
Definition next_child (it : bytes) : result EcdsaError (BerTlvAny * bytes) :=
  let '(item, rest) := BerTlvIter_next it in
  let? item := ok_or item Ecdsa_BadModulus in
  let? t := bad_modulus item in
  Ok (t, rest).
(** The next child, which must have the tag. *)
Definition next_typed (tag : Z) (it : bytes) : result EcdsaError (BerTlvAny * bytes) :=
  let? (t, rest) := next_child it in
  let? t := bad_modulus (BerTlvAny_expect tag t) in
  Ok (t, rest).

Section explicit.
Context `{ConstOid}.
Definition parse_explicit (seq_value : bytes) : result EcdsaError Curve :=
  let? (_, it) := next_typed Integer_TAG seq_value in
  let? (field_id, it) := next_typed Sequence_TAG it in
  let? (field_type, field_iter) := next_typed Oid_TAG (any_value field_id) in
  if negb (bool_decide (any_value field_type = Oid_as_bytes PRIME_FIELD)) then Err Ecdsa_BadModulus
  else
    let? (prime_tlv, _) := next_typed Integer_TAG field_iter in
    let p := strip_sign (any_value prime_tlv) in
    let? (curve_seq, it) := next_typed Sequence_TAG it in
    let? (a_tlv, curve_it) := next_typed OctetString_TAG (any_value curve_seq) in
    let? (b_tlv, _) := next_typed OctetString_TAG curve_it in
    let? (base_tlv, it) := next_typed OctetString_TAG it in
    if negb (bool_decide (head (any_value base_tlv) = Some SEC1_UNCOMPRESSED_TAG)) then Err Ecdsa_BadModulus
    else
      let g_body := drop 1 (any_value base_tlv) in
      if negb (len g_body mod 2 =? 0) || bool_decide (g_body = []) then Err Ecdsa_BadModulus
      else
        let '(gx, gy) := halves g_body in
        let? (order_tlv, _) := next_typed Integer_TAG it in
        Ok (mkCurve p (any_value a_tlv) (any_value b_tlv) gx gy (strip_sign (any_value order_tlv))).
End explicit.

(** ** Points *)

(** [None] is the point at infinity. *)
Definition EcPoint : Type := option (Z * Z).
Definition EcPoint_infinity : EcPoint := None.
Definition EcPoint_is_infinity (p : EcPoint) : bool := bool_decide (p = None).

(** [Context]: the precisions, the two moduli, the coefficients, the generator. *)
Record CurveCtx := mkCurveCtx {
  bits_p : Z; bits_n : Z; p_params : Z; n_params : Z; ctx_a : Z; ctx_b : Z; n_uint : Z; ctx_g : EcPoint }.

(** A number is at least 64 bits, in whole limbs; [next_multiple_of] overflows. *)
Definition bits_for_len (byte_len : Z) : result EcdsaError Z :=
  let nominal := Z.min ((if byte_len <=? u32_max then byte_len else u32_max) * 8) u32_max in
  let up := (nominal + 63) / 64 * 64 in
  if up <=? u32_max then Ok (Z.max up 64) else Panic.

(** [bits_vartime]. *)
Definition bits_vartime (x : Z) : Z := if x <=? 0 then 0 else Z.log2 x + 1.

(** The octets shifted right, each taking the bits its left neighbour loses. *)
Fixpoint shift_octets (extra carry : Z) (buf : bytes) : bytes :=
  match buf with
  | [] => []
  | b :: rest =>
      Z.lor (Z.shiftr b extra) (Z.shiftl carry (8 - extra) mod 256)
        :: shift_octets extra (Z.land b (Z.shiftl 1 extra - 1)) rest
  end.

Section curve.
Context `{BoxedMonty}.

Definition boxed (bs : bytes) (bits : Z) : result EcdsaError Z := ok_or (boxed_from_be_slice bs bits) Ecdsa_BadModulus.
(** [Odd::new]. *)
Definition odd_new (x : Z) : result EcdsaError Z := if Z.even x then Err Ecdsa_BadModulus else Ok x.

Definition CurveCtx_new (curve : Curve) : result EcdsaError CurveCtx :=
  let? bits_p := bits_for_len (len (curve_p curve)) in
  let? bits_n := bits_for_len (len (curve_n curve)) in
  let? p_uint := boxed (curve_p curve) bits_p in
  let? n_uint := boxed (curve_n curve) bits_n in
  let? a := boxed (curve_a curve) bits_p in
  let? b := boxed (curve_b curve) bits_p in
  let? gx := boxed (curve_gx curve) bits_p in
  let? gy := boxed (curve_gy curve) bits_p in
  let? p_odd := odd_new p_uint in
  let? n_odd := odd_new n_uint in
  Ok (mkCurveCtx bits_p bits_n p_odd n_odd a b n_uint (Some (gx, gy))).

Definition p_mont (ctx : CurveCtx) (x : Z) : Mf (p_params ctx) := Mf_new (p_params ctx) x.
Definition n_mont (ctx : CurveCtx) (x : Z) : Mf (n_params ctx) := Mf_new (n_params ctx) x.

Definition CurveCtx_double (ctx : CurveCtx) (p : EcPoint) : EcPoint :=
  match p with
  | None => EcPoint_infinity
  | Some (px, py) =>
      let py_mont := p_mont ctx py in
      let zero := p_mont ctx 0 in
      if Mf_eqb py_mont zero then EcPoint_infinity
      else
        let three := p_mont ctx 3 in
        let two := p_mont ctx 2 in
        let a_mont := p_mont ctx (ctx_a ctx) in
        let px_mont := p_mont ctx px in
        let num := Mf_add (Mf_mul three (Mf_mul px_mont px_mont)) a_mont in
        match Mf_invert (Mf_mul two py_mont) with
        | None => EcPoint_infinity
        | Some den_inv =>
            let lambda := Mf_mul num den_inv in
            let lambda_sq := Mf_mul lambda lambda in
            let rx := Mf_sub (Mf_sub lambda_sq px_mont) px_mont in
            let ry := Mf_sub (Mf_mul lambda (Mf_sub px_mont rx)) py_mont in
            Some (Mf_retrieve rx, Mf_retrieve ry)
        end
  end.

Definition CurveCtx_add (ctx : CurveCtx) (p q : EcPoint) : EcPoint :=
  match p, q with
  | Some (px, py), Some (qx, qy) =>
      if px =? qx then if py =? qy then CurveCtx_double ctx p else EcPoint_infinity
      else
        let px_m := p_mont ctx px in
        let py_m := p_mont ctx py in
        let qx_m := p_mont ctx qx in
        let qy_m := p_mont ctx qy in
        let num := Mf_sub qy_m py_m in
        match Mf_invert (Mf_sub qx_m px_m) with
        | None => EcPoint_infinity
        | Some den_inv =>
            let lambda := Mf_mul num den_inv in
            let lambda_sq := Mf_mul lambda lambda in
            let rx := Mf_sub (Mf_sub lambda_sq px_m) qx_m in
            let ry := Mf_sub (Mf_mul lambda (Mf_sub px_m rx)) py_m in
            Some (Mf_retrieve rx, Mf_retrieve ry)
        end
  | _, _ => if EcPoint_is_infinity p then q else p
  end.

(** One round: the accumulator takes the addend when the bit is set, the addend doubles. *)
Definition scalar_step (ctx : CurveCtx) (k : Z) (s : EcPoint * EcPoint) (i : nat) : EcPoint * EcPoint :=
  let '(acc, addend) := s in
  ((if Z.testbit k (Z.of_nat i) then CurveCtx_add ctx acc addend else acc), CurveCtx_double ctx addend).
Definition CurveCtx_scalar_mul (ctx : CurveCtx) (k : Z) (point : EcPoint) : EcPoint :=
  if EcPoint_is_infinity point then EcPoint_infinity
  else (fold_left (scalar_step ctx k) (seq 0 (Z.to_nat (bits_vartime k))) (EcPoint_infinity, point)).1.

Definition CurveCtx_is_on_curve (ctx : CurveCtx) (q : EcPoint) : bool :=
  match q with
  | None => false
  | Some (qx, qy) =>
      let qx_m := p_mont ctx qx in
      let qy_m := p_mont ctx qy in
      let lhs := Mf_mul qy_m qy_m in
      let a_m := p_mont ctx (ctx_a ctx) in
      let b_m := p_mont ctx (ctx_b ctx) in
      let rhs_no_b := Mf_add (Mf_mul (Mf_mul qx_m qx_m) qx_m) (Mf_mul a_m qx_m) in
      Mf_eqb lhs (Mf_add rhs_no_b b_m)
  end.

(** ** The verifier *)

Definition parse_affine (p : Sec1UncompressedPoint) (bits : Z) : result EcdsaError EcPoint :=
  if negb (bool_decide (head (Sec1_as_bytes p) = Some SEC1_UNCOMPRESSED_TAG)) then Err Ecdsa_BadPublicKey
  else
    let body := drop 1 (Sec1_as_bytes p) in
    if negb (len body mod 2 =? 0) || bool_decide (body = []) then Err Ecdsa_BadPublicKey
    else
      let '(x_bytes, y_bytes) := halves body in
      let? x := boxed x_bytes bits in
      let? y := boxed y_bytes bits in
      Ok (Some (x, y)).

Definition parse_ecdsa_signature (signature : bytes) : result EcdsaError (bytes * bytes) :=
  let? outer := map_err (λ _, Ecdsa_BadSignature) (BerTlv_parse Sequence_TAG signature) in
  let? r_tlv := map_err (λ _, Ecdsa_BadSignature) (BerTlv_parse Integer_TAG (any_value outer)) in
  let? after_r := ok_or (zslice (any_size r_tlv) (len (any_value outer)) (any_value outer)) Ecdsa_BadSignature in
  let? s_tlv := map_err (λ _, Ecdsa_BadSignature) (BerTlv_parse Integer_TAG after_r) in
  Ok (strip_sign (any_value r_tlv), strip_sign (any_value s_tlv)).

(** The octets the scalar is read from: as many as the order has, less the bits by which
    the order falls short of whole octets. *)
Definition scalar_octets (digest : bytes) (n_bits : Z) : bytes :=
  let n_bytes := (n_bits + 7) / 8 in
  let buf := take (Z.to_nat n_bytes) digest in
  let extra_bits := (8 - n_bits mod 8) mod 8 in
  if negb (extra_bits =? 0) && negb (bool_decide (buf = [])) then shift_octets extra_bits 0 buf else buf.
Definition digest_to_scalar (digest : bytes) (ctx : CurveCtx) : Z :=
  default 0 (boxed_from_be_slice (scalar_octets digest (bits_vartime (n_uint ctx))) (bits_n ctx)).

(** One subtraction. *)
Definition bytes_into_n (sx : Z) (ctx : CurveCtx) : result EcdsaError Z :=
  match boxed_resize sx (bits_n ctx) with
  | None => Panic
  | Some sx_at_n => Ok (if n_uint ctx <=? sx_at_n then sx_at_n - n_uint ctx else sx_at_n)
  end.

Definition verify_prehashed (curve : Curve) (pubkey_sec1 : Sec1UncompressedPoint) (signature_der message_digest : bytes) : result EcdsaError unit :=
  let? ctx := CurveCtx_new curve in
  let? q := parse_affine pubkey_sec1 (bits_p ctx) in
  if negb (CurveCtx_is_on_curve ctx q) then Err Ecdsa_BadPublicKey
  else
    let? (r_bytes, s_bytes) := parse_ecdsa_signature signature_der in
    let? r := boxed r_bytes (bits_n ctx) in
    let? s := boxed s_bytes (bits_n ctx) in
    if (r <? 1) || (n_uint ctx <=? r) || (s <? 1) || (n_uint ctx <=? s) then Err Ecdsa_SigOutOfRange
    else
      let e_uint := digest_to_scalar message_digest ctx in
      let s_mont := n_mont ctx s in
      let? w_mont := ok_or (Mf_invert s_mont) Ecdsa_NotInvertible in
      let e_mont := n_mont ctx e_uint in
      let r_mont := n_mont ctx r in
      let u1 := Mf_retrieve (Mf_mul e_mont w_mont) in
      let u2 := Mf_retrieve (Mf_mul r_mont w_mont) in
      let point_a := CurveCtx_scalar_mul ctx u1 (ctx_g ctx) in
      let point_b := CurveCtx_scalar_mul ctx u2 q in
      match CurveCtx_add ctx point_a point_b with
      | None => Err Ecdsa_VerifyFailed
      | Some (sx, _) =>
          let? sx_n := bytes_into_n sx ctx in
          if sx_n =? r then Ok tt else Err Ecdsa_VerifyFailed
      end.
End curve.

(** ** Raw signatures as DER *)

Definition ASN1_INTEGER_TAG : Z := 0x02.
Definition ASN1_SEQUENCE_TAG : Z := 0x30.
Definition HIGH_BIT_SET : Z := 0x80.
(** The loop that passes over zeros while an octet follows. *)
Fixpoint trim_zeros (value : bytes) : bytes :=
  match value with
  | [] => []
  | b :: rest => match rest with [] => value | _ => if b =? 0 then trim_zeros rest else value end
  end.
Definition encode_der_length (out : bytes) (n : Z) : bytes :=
  if n <? 0x80 then out ++ [n]
  else if n <? 0x100 then out ++ [0x81; n]
  else out ++ [0x82] ++ to_be 2 (Z.min n u16_max).
Definition encode_der_integer (out value : bytes) : bytes :=
  let trimmed := trim_zeros value in
  let needs_pad := match trimmed with b :: _ => HIGH_BIT_SET <=? b | [] => false end in
  let int_len := len trimmed + Z.b2z needs_pad in
  let out := encode_der_length (out ++ [ASN1_INTEGER_TAG]) int_len in
  (if needs_pad then out ++ [DER_SIGN_PAD] else out) ++ trimmed.
(** [Signature<EcdsaP384>::into_der] and [Signature<EcdsaP256>::into_der]: an odd length
    panics. *)
Definition into_der {E} (raw : bytes) : result E bytes :=
  if negb (len raw mod 2 =? 0) then Panic
  else
    let '(r, s) := halves raw in
    let body := encode_der_integer (encode_der_integer [] r) s in
    Ok (encode_der_length [ASN1_SEQUENCE_TAG] (len body) ++ body).

(** ** Named curves *)

Definition SECP256R1_P : bytes := to_be 32 0xFFFFFFFF00000001000000000000000000000000FFFFFFFFFFFFFFFFFFFFFFFF.
Definition SECP256R1_A : bytes := to_be 32 0xFFFFFFFF00000001000000000000000000000000FFFFFFFFFFFFFFFFFFFFFFFC.
Definition SECP256R1_B : bytes := to_be 32 0x5AC635D8AA3A93E7B3EBBD55769886BC651D06B0CC53B0F63BCE3C3E27D2604B.
Definition SECP256R1_GX : bytes := to_be 32 0x6B17D1F2E12C4247F8BCE6E563A440F277037D812DEB33A0F4A13945D898C296.
Definition SECP256R1_GY : bytes := to_be 32 0x4FE342E2FE1A7F9B8EE7EB4A7C0F9E162BCE33576B315ECECBB6406837BF51F5.
Definition SECP256R1_N : bytes := to_be 32 0xFFFFFFFF00000000FFFFFFFFFFFFFFFFBCE6FAADA7179E84F3B9CAC2FC632551.
Definition SECP384R1_P : bytes :=
  to_be 48 0xFFFFFFFFFFFFFFFFFFFFFFFFFFFFFFFFFFFFFFFFFFFFFFFFFFFFFFFFFFFFFFFEFFFFFFFF0000000000000000FFFFFFFF.
Definition SECP384R1_A : bytes :=
  to_be 48 0xFFFFFFFFFFFFFFFFFFFFFFFFFFFFFFFFFFFFFFFFFFFFFFFFFFFFFFFFFFFFFFFEFFFFFFFF0000000000000000FFFFFFFC.
Definition SECP384R1_B : bytes :=
  to_be 48 0xB3312FA7E23EE7E4988E056BE3F82D19181D9C6EFE8141120314088F5013875AC656398D8A2ED19D2A85C8EDD3EC2AEF.
Definition SECP384R1_GX : bytes :=
  to_be 48 0xAA87CA22BE8B05378EB1C71EF320AD746E1D3B628BA79B9859F741E082542A385502F25DBF55296C3A545E3872760AB7.
Definition SECP384R1_GY : bytes :=
  to_be 48 0x3617DE4A96262C6F5D9E98BF9292DC29F8F41DBD289A147CE9DA3113B5F0B8C00A60B1CE1D7E819D7A431D7C90EA0E5F.
Definition SECP384R1_N : bytes :=
  to_be 48 0xFFFFFFFFFFFFFFFFFFFFFFFFFFFFFFFFFFFFFFFFFFFFFFFFC7634D81F4372DDF581A0DB248B0A77AECEC196ACCC52973.
Definition secp256r1 : Curve := mkCurve SECP256R1_P SECP256R1_A SECP256R1_B SECP256R1_GX SECP256R1_GY SECP256R1_N.
Definition secp384r1 : Curve := mkCurve SECP384R1_P SECP384R1_A SECP384R1_B SECP384R1_GX SECP384R1_GY SECP384R1_N.

Section keys.
Context `{ConstOid} `{DerCrate} `{BoxedMonty}.

Definition named_curve_from_oid (oid : Oid) : option Curve :=
  if decide (oid = SECP256R1) then Some secp256r1
  else if decide (oid = SECP384R1) then Some secp384r1
  else None.

(** The curve and the point of a key: parameters that are an identifier name the curve,
    others spell it out. A panic of the BER reader would be one of this function. *)
Definition extract_ec_pubkey (spki_der : bytes) : option (Curve * Sec1UncompressedPoint) :=
  info ← SubjectPublicKeyInfoRef_from_der spki_der;
  if negb (bool_decide (spki_algorithm_oid info = Oid_as_bytes EC_PUBLIC_KEY)) then None
  else
    params ← spki_parameters info;
    curve ← match decode_as_oid params with
            | Some curve_oid => oid ← result_ok (Oid_new curve_oid); named_curve_from_oid oid
            | None => result_ok (parse_explicit (ar_value params))
            end;
    pubkey ← result_ok (Sec1_from_bytes (spki_raw_bytes info));
    Some (curve, pubkey).

(** [verify_p384_sha…_raw], whichever hash made the digest. *)
Definition verify_p384_raw (point : Sec1UncompressedPoint) (signature_raw digest : bytes) : result EcdsaError unit :=
  let? curve := ok_or (named_curve_from_oid SECP384R1) Ecdsa_BadModulus in
  let? signature_der := into_der signature_raw in
  verify_prehashed curve point signature_der digest.
End keys.

(** ** The residues are a commutative ring *)

Section ring.
Context `{BoxedMonty} `{!BoxedMontyLaws}.
Context (p : Z) (Hp : 0 < p).

Definition mf_eq (x y : Mf p) : Prop := Mf_retrieve x = Mf_retrieve y.
Definition Mf_opp (x : Mf p) : Mf p := Mf_sub (Mf_new p 0) x.
#[export] Instance mf_eq_equivalence : Equivalence mf_eq.
Proof. split; unfold mf_eq; [intros x; done|intros x y; done|intros x y z; congruence]. Qed.

Lemma Mf_add_proper : Proper (mf_eq ==> mf_eq ==> mf_eq) Mf_add.
Proof. intros x x' Hx y y' Hy. unfold mf_eq in *. rewrite !mf_retrieve_add by done. congruence. Qed.
Lemma Mf_sub_proper : Proper (mf_eq ==> mf_eq ==> mf_eq) Mf_sub.
Proof. intros x x' Hx y y' Hy. unfold mf_eq in *. rewrite !mf_retrieve_sub by done. congruence. Qed.
Lemma Mf_mul_proper : Proper (mf_eq ==> mf_eq ==> mf_eq) Mf_mul.
Proof. intros x x' Hx y y' Hy. unfold mf_eq in *. rewrite !mf_retrieve_mul by done. congruence. Qed.
Lemma Mf_opp_proper : Proper (mf_eq ==> mf_eq) Mf_opp.
Proof. intros x x' Hx. unfold Mf_opp. by apply Mf_sub_proper. Qed.
Lemma mf_ring_ext : ring_eq_ext Mf_add Mf_mul Mf_opp mf_eq.
Proof. split; [exact Mf_add_proper|exact Mf_mul_proper|exact Mf_opp_proper]. Qed.

Lemma retrieve_opp x : Mf_retrieve (Mf_opp x) = (- Mf_retrieve x) mod p.
Proof. unfold Mf_opp. rewrite mf_retrieve_sub, mf_retrieve_new by done. rewrite Zminus_mod_idemp_l. done. Qed.
Lemma mf_ring : ring_theory (Mf_new p 0) (Mf_new p 1) Mf_add Mf_mul Mf_sub Mf_opp mf_eq.
Proof.
  split; intros; unfold mf_eq; repeat rewrite ?mf_retrieve_mul, ?mf_retrieve_add, ?mf_retrieve_sub, ?retrieve_opp, ?mf_retrieve_new by done;
    rewrite ?Zplus_mod_idemp_l, ?Zplus_mod_idemp_r, ?Zmult_mod_idemp_l, ?Zmult_mod_idemp_r, ?Zminus_mod_idemp_l, ?Zminus_mod_idemp_r.
  all: try (f_equal; lia).
  all: by rewrite ?Z.mod_0_l, ?Z.add_0_l, ?Z.mul_1_l, mf_retrieve_mod by lia.
Qed.
Lemma mf_new_retrieve x : mf_eq (Mf_new p (Mf_retrieve x)) x.
Proof. unfold mf_eq. by rewrite mf_retrieve_new, mf_retrieve_mod. Qed.
Lemma mf_invert_eq x i : Mf_invert x = Some i → mf_eq (Mf_mul i x) (Mf_new p 1).
Proof. intros Hi%mf_invert; [|done]. unfold mf_eq. by rewrite mf_retrieve_mul, mf_retrieve_new, Hi. Qed.
Lemma mf_retrieve_bounds (x : Mf p) : 0 ≤ Mf_retrieve x < p.
Proof. rewrite <- mf_retrieve_mod by done. by apply Z.mod_pos_bound. Qed.
End ring.

(** ** The operations stay on the curve *)

Section points.
Context `{BoxedMonty} `{!BoxedMontyLaws}.
Context (ctx : CurveCtx) (Hp : 0 < p_params ctx).
#[local] Abbreviation p := (p_params ctx).
#[local] Notation "x ≡m y" := (mf_eq p x y) (at level 70).
#[local] Instance add_proper : Proper (mf_eq p ==> mf_eq p ==> mf_eq p) Mf_add := Mf_add_proper p Hp.
#[local] Instance sub_proper : Proper (mf_eq p ==> mf_eq p ==> mf_eq p) Mf_sub := Mf_sub_proper p Hp.
#[local] Instance mul_proper : Proper (mf_eq p ==> mf_eq p ==> mf_eq p) Mf_mul := Mf_mul_proper p Hp.
Add Ring mf : (mf_ring p Hp) (setoid (mf_eq_equivalence p) (mf_ring_ext p Hp)).

Lemma p_mont_retrieve (z : Mf p) : p_mont ctx (Mf_retrieve z) ≡m z.
Proof. by apply mf_new_retrieve. Qed.
Definition on_line (x y : Mf p) : Prop :=
  weierstrass (radd := Mf_add) (rmul := Mf_mul) (req := mf_eq p) (p_mont ctx (ctx_a ctx)) (p_mont ctx (ctx_b ctx)) x y.
#[local] Instance on_line_proper : Proper (mf_eq p ==> mf_eq p ==> iff) on_line.
Proof. intros x x' Hx y y' Hy. unfold on_line, weierstrass. by rewrite Hx, Hy. Qed.

Lemma is_on_curve_line x y : CurveCtx_is_on_curve ctx (Some (x, y)) = true ↔ on_line (p_mont ctx x) (p_mont ctx y).
Proof. unfold CurveCtx_is_on_curve. rewrite mf_eqb by done. done. Qed.

(** Infinity, or a point of the curve. *)
Definition ec_point (q : EcPoint) : Prop := q = None ∨ CurveCtx_is_on_curve ctx q = true.

Lemma ec_double q : ec_point q → ec_point (CurveCtx_double ctx q).
Proof.
  destruct q as [[x y]|]; [|by left]. intros [|Hq]; [done|]. rewrite is_on_curve_line in Hq. unfold CurveCtx_double.
  destruct (Mf_eqb _ _); [by left|]. destruct (Mf_invert _) as [i|] eqn:Hi; [|by left]. right.
  apply (mf_invert_eq p Hp) in Hi. apply is_on_curve_line. rewrite !p_mont_retrieve.
  refine (tangent (mf_ring p Hp) (mf_ring_ext p Hp) _ _ _ _ _ Hq _). set (mx := p_mont ctx x) in *. set (my := p_mont ctx y) in *.
  assert (p_mont ctx 2 ≡m Mf_add (Mf_new p 1) (Mf_new p 1)) as H2.
  { unfold mf_eq, p_mont. rewrite mf_retrieve_add, !mf_retrieve_new by done. by rewrite <- Zplus_mod. }
  assert (p_mont ctx 3 ≡m Mf_add (Mf_add (Mf_new p 1) (Mf_new p 1)) (Mf_new p 1)) as H3.
  { unfold mf_eq, p_mont. rewrite !mf_retrieve_add, !mf_retrieve_new by done. 
    rewrite Zplus_mod_idemp_l, <- Z.add_assoc, Zplus_mod_idemp_l, Z.add_assoc, Zplus_mod_idemp_r.
    replace (1 + 1 mod p + 1) with (2 + 1 mod p) by lia. by rewrite Zplus_mod_idemp_r. }
  rewrite H2 in Hi. rewrite H3. set (a := p_mont ctx (ctx_a ctx)).
  transitivity (Mf_mul (Mf_add (Mf_mul (Mf_add (Mf_add (Mf_new p 1) (Mf_new p 1)) (Mf_new p 1)) (Mf_mul mx mx)) a)
    (Mf_mul i (Mf_mul (Mf_add (Mf_new p 1) (Mf_new p 1)) my))); [ring|]. rewrite Hi. ring.
Qed.

Lemma ec_add q1 q2 : ec_point q1 → ec_point q2 → ec_point (CurveCtx_add ctx q1 q2).
Proof.
  intros H1 H2. destruct q1 as [[x1 y1]|]; [|by destruct q2]. destruct q2 as [[x2 y2]|]; [|done]. unfold CurveCtx_add.
  destruct (x1 =? x2); [destruct (y1 =? y2); [by apply ec_double|by left]|].
  destruct (Mf_invert _) as [i|] eqn:Hi; [|by left]. right. apply (mf_invert_eq p Hp) in Hi.
  destruct H1 as [|H1]; [done|]. destruct H2 as [|H2]; [done|]. rewrite is_on_curve_line in H1, H2.
  apply is_on_curve_line. rewrite !p_mont_retrieve.
  set (mx1 := p_mont ctx x1) in *. set (mx2 := p_mont ctx x2) in *. set (my1 := p_mont ctx y1) in *. set (my2 := p_mont ctx y2) in *.
  refine (chord (mf_ring p Hp) (mf_ring_ext p Hp) _ _ mx1 my1 mx2 my2 _ i H1 H2 Hi _).
  transitivity (Mf_mul (Mf_sub my2 my1) (Mf_mul i (Mf_sub mx2 mx1))); [ring|]. rewrite Hi. ring.
Qed.
End points.

(** ** The multiple of a point *)

Section multiple.
Context `{BoxedMonty} `{!BoxedMontyLaws}.
Context (ctx : CurveCtx).

(** Double and add, the lowest bit first. *)
Fixpoint ec_multiple (k : positive) (acc addend : EcPoint) : EcPoint :=
  match k with
  | xH => CurveCtx_add ctx acc addend
  | xO k => ec_multiple k acc (CurveCtx_double ctx addend)
  | xI k => ec_multiple k (CurveCtx_add ctx acc addend) (CurveCtx_double ctx addend)
  end.
Definition ec_times (k : Z) (q : EcPoint) : EcPoint :=
  match q, k with Some _, Zpos k => ec_multiple k None q | _, _ => None end.

Lemma scalar_steps k j K acc addend :
  (∀ i, Z.testbit K (Z.of_nat (j + i)) = Z.testbit (Zpos k) (Z.of_nat i)) →
  (fold_left (scalar_step ctx K) (seq j (Pos.size_nat k)) (acc, addend)).1 = ec_multiple k acc addend.
Proof.
  revert j acc addend. induction k as [k IH|k IH|]; intros j acc addend Hk; cbn [Pos.size_nat seq fold_left scalar_step ec_multiple].
  - pose proof (Hk O) as H0'. rewrite Nat.add_0_r in H0'. rewrite H0'. change (Z.testbit (Z.pos k~1) (Z.of_nat 0)) with true. cbn iota.
    apply IH. intros i. replace (S j + i)%nat with (j + S i)%nat by lia. rewrite Hk.
    replace (Z.of_nat (S i)) with (Z.succ (Z.of_nat i)) by lia. rewrite (Pos2Z.inj_xI k). apply Z.testbit_odd_succ; lia.
  - pose proof (Hk O) as H0'. rewrite Nat.add_0_r in H0'. rewrite H0'. change (Z.testbit (Z.pos k~0) (Z.of_nat 0)) with false. cbn iota.
    apply IH. intros i. replace (S j + i)%nat with (j + S i)%nat by lia. rewrite Hk.
    replace (Z.of_nat (S i)) with (Z.succ (Z.of_nat i)) by lia. rewrite (Pos2Z.inj_xO k). apply Z.testbit_even_succ; lia.
  - pose proof (Hk O) as H0'. rewrite Nat.add_0_r in H0'. by rewrite H0'.
Qed.
Lemma bits_vartime_pos k : Z.to_nat (bits_vartime (Zpos k)) = Pos.size_nat k.
Proof.
  unfold bits_vartime. destruct (Z.leb_spec (Z.pos k) 0); [lia|].
  rewrite <- (Nat2Z.id (Pos.size_nat k)). f_equal. clear. induction k as [k IH|k IH|]; [| |done]; cbn [Pos.size_nat].
  - rewrite Pos2Z.inj_xI, Z.log2_succ_double by lia. lia.
  - rewrite Pos2Z.inj_xO, Z.log2_double by lia. lia.
Qed.
Lemma ec_scalar_mul_times k q : CurveCtx_scalar_mul ctx k q = ec_times k q.
Proof.
  unfold CurveCtx_scalar_mul, ec_times, EcPoint_is_infinity. destruct q as [xy|]; [|done]. cbn [bool_decide].
  rewrite bool_decide_eq_false_2 by done. destruct k as [|k|k]; [done| |done]. rewrite bits_vartime_pos. by apply scalar_steps.
Qed.
Lemma ec_multiple_ind (P : EcPoint → Prop) k acc addend :
  (∀ q1 q2, P q1 → P q2 → P (CurveCtx_add ctx q1 q2)) → (∀ q, P q → P (CurveCtx_double ctx q)) →
  P acc → P addend → P (ec_multiple k acc addend).
Proof. intros Hadd Hdouble. revert acc addend. induction k; intros acc addend Ha Hb; cbn; auto. Qed.
Lemma ec_times_ind (P : EcPoint → Prop) k q :
  (∀ q1 q2, P q1 → P q2 → P (CurveCtx_add ctx q1 q2)) → (∀ q, P q → P (CurveCtx_double ctx q)) →
  P None → P q → P (ec_times k q).
Proof. intros Hadd Hdouble Hn Hq. unfold ec_times. destruct q as [q|]; [|done]. destruct k; [done| |done]. by apply ec_multiple_ind. Qed.

(** Coordinates below a bound the prime is below. *)
Definition point_below (bound : Z) (q : EcPoint) : Prop :=
  match q with None => True | Some (x, y) => 0 ≤ x < bound ∧ 0 ≤ y < bound end.
Context (Hp : 0 < p_params ctx).
Lemma retrieved_below bound (x y : Mf (p_params ctx)) : p_params ctx ≤ bound → point_below bound (Some (Mf_retrieve x, Mf_retrieve y)).
Proof. intros Hb. pose proof (mf_retrieve_bounds _ Hp x). pose proof (mf_retrieve_bounds _ Hp y). cbn. lia. Qed.
Lemma double_below bound q : p_params ctx ≤ bound → point_below bound (CurveCtx_double ctx q).
Proof.
  intros Hb. destruct q as [[x y]|]; [|done]. unfold CurveCtx_double. destruct (Mf_eqb _ _); [done|].
  destruct (Mf_invert _); [|done]. by apply retrieved_below.
Qed.
Lemma add_below bound q1 q2 : p_params ctx ≤ bound → point_below bound q1 → point_below bound q2 → point_below bound (CurveCtx_add ctx q1 q2).
Proof.
  intros Hb H1 H2. destruct q1 as [[x1 y1]|]; [|by destruct q2]. destruct q2 as [[x2 y2]|]; [|done]. unfold CurveCtx_add.
  destruct (x1 =? x2); [destruct (y1 =? y2); [by apply double_below|done]|]. destruct (Mf_invert _); [|done]. by apply retrieved_below.
Qed.
Lemma times_below bound k q : p_params ctx ≤ bound → point_below bound q → point_below bound (ec_times k q).
Proof. intros Hb Hq. apply ec_times_ind; [intros; by apply add_below|intros; by apply double_below|done..]. Qed.
End multiple.

(** ** The scalar *)

(** The leftmost [n] bits of a digest, as a number. *)
Definition leftmost_bits (digest : bytes) (n : Z) : Z := be_fold digest / 2 ^ Z.max 0 (8 * len digest - n).

Lemma length_shift_octets e c buf : length (shift_octets e c buf) = length buf.
Proof. revert c. induction buf as [|b buf IH]; intros c; [done|]. cbn. by rewrite IH. Qed.
Lemma shift_octets_value e c buf : 0 < e < 8 → bytes_ok buf → 0 ≤ c < 2 ^ e →
  bytes_ok (shift_octets e c buf) ∧ be_fold (shift_octets e c buf) = (c * 256 ^ len buf + be_fold buf) / 2 ^ e.
Proof.
  intros He Hbuf. revert c. induction Hbuf as [|b buf Hb Hbuf IH]; intros c Hc.
  - cbn [shift_octets]. split; [constructor|]. change (be_fold []) with 0. change (256 ^ len []) with 1. rewrite Z.div_small by lia. done.
  - cbn [shift_octets]. assert (Z.shiftl 1 e - 1 = Z.ones e) as -> by (rewrite Z.ones_equiv, Z.shiftl_1_l; lia).
    rewrite Z.land_ones by lia. assert (0 ≤ b mod 2 ^ e < 2 ^ e) as Hm by (apply Z.mod_pos_bound; apply Z.pow_pos_nonneg; lia).
    destruct (IH _ Hm) as [IHok IHv]. unfold is_byte in Hb.
    assert (2 ^ e * 2 ^ (8 - e) = 256) as H256 by (rewrite <- Z.pow_add_r by lia; by replace (e + (8 - e)) with 8 by lia).
    pose proof (Z.pow_pos_nonneg 2 e ltac:(lia) ltac:(lia)) as Hpe. pose proof (Z.pow_pos_nonneg 2 (8 - e) ltac:(lia) ltac:(lia)) as Hpi.
    assert (0 ≤ b / 2 ^ e < 2 ^ (8 - e)) as Hq by (split; [apply Z.div_pos; lia|apply Z.div_lt_upper_bound; lia]).
    assert (Z.lor (Z.shiftr b e) (Z.shiftl c (8 - e) mod 256) = c * 2 ^ (8 - e) + b / 2 ^ e) as ->.
    { rewrite Z.mod_small by (rewrite Z.shiftl_mul_pow2 by lia; nia). rewrite Z.shiftr_div_pow2, Z.lor_comm, lor_shiftl by lia. done. }
    set (o := c * 2 ^ (8 - e) + b / 2 ^ e). assert (is_byte o) as Ho by (unfold is_byte, o; nia).
    split; [by apply Forall_cons|]. rewrite !be_fold_cons, IHv by (by apply Forall_cons).
    assert (len (shift_octets e (b mod 2 ^ e) buf) = len buf) as -> by (unfold len; by rewrite length_shift_octets).
    rewrite len_cons. pose proof (len_nonneg buf). rewrite Z.pow_add_r by lia. change (256 ^ 1) with 256.
    rewrite <- Z.div_add_l by lia. f_equal. unfold o. pose proof (Z_div_mod_eq_full b (2 ^ e)).
    set (P := 256 ^ len buf). assert (c * 256 + b = (c * 2 ^ (8 - e) + b / 2 ^ e) * 2 ^ e + b mod 2 ^ e) as Hcb by nia.
    replace (c * (256 * P) + (b * P + be_fold buf)) with ((c * 256 + b) * P + be_fold buf) by lia. rewrite Hcb. lia.
Qed.

(** The octets hold the leftmost bits, when the digest has as many bits as the order or
    the order is a number of whole octets. *)
Lemma scalar_octets_value digest n :
  bytes_ok digest → 0 < n → n ≤ 8 * len digest ∨ n mod 8 = 0 →
  bytes_ok (scalar_octets digest n) ∧ len (scalar_octets digest n) ≤ (n + 7) / 8 ∧ be_fold (scalar_octets digest n) = leftmost_bits digest n.
Proof.
  intros Hd Hn Hcase. unfold scalar_octets, leftmost_bits. set (nb := (n + 7) / 8). set (e := (8 - n mod 8) mod 8).
  assert (0 ≤ e < 8) as He by (apply Z.mod_pos_bound; lia).
  assert (8 * nb = n + e) as Hnb.
  { subst nb e. pose proof (Z_div_mod_eq_full n 8). pose proof (Z.mod_pos_bound n 8 ltac:(lia)).
    destruct (decide (n mod 8 = 0)) as [Hz|Hz].
    - rewrite Hz. change ((8 - 0) mod 8) with 0. assert ((n + 7) / 8 = n / 8); [|lia]. symmetry. apply Z.div_unique with 7; lia.
    - rewrite (Z.mod_small (8 - n mod 8)) by lia. assert ((n + 7) / 8 = n / 8 + 1); [|lia].
      symmetry. apply Z.div_unique with (n mod 8 - 1); lia. }
  set (buf := take (Z.to_nat nb) digest). assert (bytes_ok buf) as Hb by by apply Forall_take.
  assert (len buf ≤ nb) as Hlen by (unfold buf, len; rewrite length_take; lia).
  assert (be_fold buf / 2 ^ e = be_fold digest / 2 ^ Z.max 0 (8 * len digest - n)) as Hv.
  { destruct (Z_le_gt_dec nb (len digest)) as [Hle|Hgt].
    - unfold buf. unfold len in Hle. rewrite be_fold_take by (done || lia). fold (len digest) in Hle.
      rewrite Z2Nat.id by lia. rewrite (Z.max_r 0) by lia. pose proof (be_fold_nonneg digest Hd).
      change 256 with (2 ^ 8). rewrite <- Z.pow_mul_r, Z.div_div, <- Z.pow_add_r by (lia || (apply Z.pow_pos_nonneg; lia)).
      f_equal. f_equal. lia.
    - destruct Hcase as [Hcase|Hcase]; [lia|]. assert (e = 0) as -> by (unfold e; rewrite Hcase; done).
      rewrite Z.max_l by lia. unfold buf, len in *. rewrite take_ge by lia. done. }
  destruct (Z.eqb_spec e 0) as [He0|He0]; cbn [negb andb]; [rewrite He0, Z.div_1_r in Hv; by split_and!|].
  case_bool_decide as Hnil; cbn [negb]; [rewrite Hnil in Hv, Hlen |- *; rewrite <- Hv; split_and!; [constructor|done|]; change (be_fold []) with 0; by rewrite Zdiv_0_l|].
  destruct (shift_octets_value e 0 buf ltac:(lia) Hb ltac:(split; [lia|apply Z.pow_pos_nonneg; lia])) as [Hok Hval].
  split; [done|]. split; [unfold len; by rewrite length_shift_octets|]. rewrite Hval. by rewrite Z.mul_0_l, Z.add_0_l.
Qed.

(** ** The verifier *)

Lemma halves_spec body : len body mod 2 = 0 → ∃ a b, halves body = (a, b) ∧ body = a ++ b ∧ len a = len b.
Proof.
  intros He. unfold halves. set (h := Z.to_nat (Z.shiftr (len body) 1)). exists (take h body), (drop h body).
  split; [done|]. split; [by rewrite take_drop|]. unfold len in *. rewrite length_take, length_drop. subst h.
  rewrite Z.shiftr_div_pow2 by lia. change (2 ^ 1) with 2. pose proof (Z_div_mod_eq_full (Z.of_nat (length body)) 2). lia.
Qed.
Lemma halves_app a b : len a = len b → len (a ++ b) mod 2 = 0 ∧ halves (a ++ b) = (a, b).
Proof.
  intros Hl. rewrite len_app, Hl. assert ((len b + len b) mod 2 = 0) as He.
  { replace (len b + len b) with (len b * 2) by lia. apply Z_mod_mult. }
  split; [done|]. rewrite <- Hl, <- len_app in He at 1. destruct (halves_spec (a ++ b)) as (x & y & Hh & Hxy & Hlen); [rewrite len_app, Hl; rewrite len_app in He; by rewrite Hl in He|].
  rewrite Hh. assert (len x = len a) as Hxa by (apply (f_equal len) in Hxy; rewrite !len_app in Hxy; lia).
  apply app_inj_len in Hxy as [-> ->]; [done|lia].
Qed.

Section verifier.
Context `{BoxedMonty} `{!BoxedMontyLaws}.

(** A key in uncompressed form, of two numbers of the same number of octets. *)
Definition sec1_coordinates (key : Sec1UncompressedPoint) (bits x y : Z) : Prop :=
  ∃ xs ys, Sec1_as_bytes key = SEC1_UNCOMPRESSED_TAG :: xs ++ ys ∧ len xs = len ys ∧ 0 < 8 * len xs ≤ bits ∧
    x = be_fold xs ∧ y = be_fold ys.

Lemma boxed_Ok bs bits x : bits mod 64 = 0 → boxed bs bits = Ok x ↔ 8 * len bs ≤ bits ∧ x = be_fold bs.
Proof.
  intros Hb. unfold boxed. rewrite ok_or_inv. split.
  - intros Hx. split; [by eapply from_be_slice_len|by eapply from_be_slice_value].
  - intros [Hl ->]. by apply from_be_slice_fits.
Qed.
Lemma boxed_no_panic bs bits : boxed bs bits ≠ Panic.
Proof. unfold boxed. by destruct (boxed_from_be_slice bs bits). Qed.

Lemma parse_affine_Ok key bits q : bits mod 64 = 0 →
  parse_affine key bits = Ok q ↔ ∃ x y, q = Some (x, y) ∧ sec1_coordinates key bits x y.
Proof.
  intros Hb. unfold parse_affine, sec1_coordinates. destruct (Sec1_as_bytes key) as [|t body]; cbn [head].
  { split; [done|]. by intros (x & y & _ & xs & ys & ? & _). }
  case_bool_decide as Ht; cbn [negb]; [|split; [done|]; intros (x & y & _ & xs & ys & ? & _); congruence].
  injection Ht as ->. change (drop 1 (SEC1_UNCOMPRESSED_TAG :: body)) with body. split.
  - destruct (Z.eqb_spec (len body mod 2) 0) as [He|]; [|done]. case_bool_decide as Hnil; [done|]. cbn [negb orb].
    destruct (halves_spec body He) as (xs & ys & -> & -> & Hl).
    intros (x & Hx & (y & Hy & [= <-])%result_bind_inv_ok)%result_bind_inv_ok. apply boxed_Ok in Hx as [Hlx ->], Hy as [Hly ->]; [|done..].
    exists (be_fold xs), (be_fold ys). split; [done|]. exists xs, ys. split_and!; [done|done| |done|done|done].
    destruct xs; [|rewrite len_cons; pose proof (len_nonneg xs); lia]. destruct ys; [done|]. rewrite len_cons in Hl. change (len []) with 0 in Hl. pose proof (len_nonneg ys). lia.
  - intros (x & y & -> & xs & ys & [= ->] & Hl & Hbits & -> & ->). destruct (halves_app xs ys Hl) as [-> ->]. cbn [negb orb Z.eqb].
    rewrite bool_decide_eq_false_2 by (intros [-> _]%app_eq_nil; change (len []) with 0 in Hbits; lia).
    assert (boxed xs bits = Ok (be_fold xs)) as -> by (apply boxed_Ok; [done|split; [lia|done]]).
    assert (boxed ys bits = Ok (be_fold ys)) as -> by (apply boxed_Ok; [done|split; [lia|done]]). done.
Qed.
Lemma parse_affine_no_panic key bits : parse_affine key bits ≠ Panic.
Proof.
  unfold parse_affine. destruct (negb _); [done|]. cbv zeta. destruct (_ || _); [done|]. destruct (halves _) as [a b].
  apply result_bind_no_panic; [apply boxed_no_panic|]. intros x _. apply result_bind_no_panic; [apply boxed_no_panic|]. done.
Qed.
Lemma BerTlv_parse_no_panic tag bs : BerTlv_parse tag bs ≠ Panic.
Proof. apply result_bind_no_panic; [apply BerTlvAny_parse_no_panic|]. intros t _. unfold BerTlvAny_expect. by case_match. Qed.
Lemma parse_ecdsa_signature_no_panic sig : parse_ecdsa_signature sig ≠ Panic.
Proof.
  unfold parse_ecdsa_signature. apply result_bind_no_panic; [apply map_err_no_panic, BerTlv_parse_no_panic|]. intros o _.
  apply result_bind_no_panic; [apply map_err_no_panic, BerTlv_parse_no_panic|]. intros r _.
  apply result_bind_no_panic; [by destruct (zslice _ _ (any_value o))|]. intros after _.
  apply result_bind_no_panic; [apply map_err_no_panic, BerTlv_parse_no_panic|]. done.
Qed.

(** The signature [(r, s)] of the number [e] by the key at [(x, y)]. *)
Definition ecdsa_valid (ctx : CurveCtx) (x y r s e : Z) : Prop :=
  1 ≤ r < n_uint ctx ∧ 1 ≤ s < n_uint ctx ∧
  ∃ w px py, (w * s) mod n_uint ctx = 1 ∧
    CurveCtx_add ctx (ec_times ctx ((e * w) mod n_uint ctx) (ctx_g ctx)) (ec_times ctx ((r * w) mod n_uint ctx) (Some (x, y))) = Some (px, py) ∧
    px mod n_uint ctx = r.

(** What the verifier needs of a curve. *)
Record ctx_sound (ctx : CurveCtx) : Prop := {
  cs_p : 0 < p_params ctx ≤ 2 ^ bits_p ctx;
  cs_n : 1 < n_uint ctx < 2 ^ bits_n ctx;
  cs_params : n_params ctx = n_uint ctx;
  cs_bits : bits_p ctx = bits_n ctx;
  cs_64 : 0 < bits_p ctx ∧ bits_p ctx mod 64 = 0;
  cs_once : 2 ^ bits_p ctx ≤ 2 * n_uint ctx;
  cs_octets : bits_vartime (n_uint ctx) mod 8 = 0;
  cs_g : point_below (2 ^ bits_p ctx) (ctx_g ctx);
}.

Lemma inverse_unique n a b s : 1 < n → (a * s) mod n = 1 → (b * s) mod n = 1 → a mod n = b mod n.
Proof.
  intros Hn Ha Hb. transitivity ((a * (b * s)) mod n).
  - by rewrite <- Zmult_mod_idemp_r, Hb, Z.mul_1_r.
  - replace (a * (b * s)) with (b * (a * s)) by lia. by rewrite <- Zmult_mod_idemp_r, Ha, Z.mul_1_r.
Qed.
Lemma inverse_gcd n w s : 1 < n → (w * s) mod n = 1 → Z.gcd s n = 1.
Proof.
  intros Hn Hw. apply Z.bezout_1_gcd. exists w, (- (w * s / n)). pose proof (Z_div_mod_eq_full (w * s) n). lia.
Qed.

Lemma bytes_into_n_spec ctx sx : ctx_sound ctx → 0 ≤ sx < 2 ^ bits_p ctx → bytes_into_n sx ctx = Ok (sx mod n_uint ctx).
Proof.
  intros Hs Hx. destruct Hs. unfold bytes_into_n. rewrite resize_fits by (by rewrite <- cs_bits0). f_equal.
  destruct (Z.leb_spec (n_uint ctx) sx); [apply Z.mod_unique with 1; lia|by rewrite Z.mod_small by lia].
Qed.

Lemma digest_scalar_spec ctx digest : ctx_sound ctx → bytes_ok digest →
  digest_to_scalar digest ctx = leftmost_bits digest (bits_vartime (n_uint ctx)).
Proof.
  intros Hs Hd. destruct Hs. assert (0 < bits_vartime (n_uint ctx)) as Hpos.
  { unfold bits_vartime. destruct (Z.leb_spec (n_uint ctx) 0); [lia|]. pose proof (Z.log2_nonneg (n_uint ctx)). lia. }
  destruct (scalar_octets_value digest (bits_vartime (n_uint ctx)) Hd Hpos (or_intror cs_octets0)) as (Hok & Hl & Hv).
  unfold digest_to_scalar. rewrite from_be_slice_fits; [done|].
  assert (bits_vartime (n_uint ctx) ≤ bits_n ctx) as Hb.
  { unfold bits_vartime. destruct (Z.leb_spec (n_uint ctx) 0); [lia|]. assert (Z.log2 (n_uint ctx) < bits_n ctx); [|lia].
    apply Z.log2_lt_pow2; lia. }
  pose proof (Z_div_mod_eq_full (bits_vartime (n_uint ctx) + 7) 8). pose proof (Z.mod_pos_bound (bits_vartime (n_uint ctx) + 7) 8 ltac:(lia)).
  pose proof (Z_div_mod_eq_full (bits_vartime (n_uint ctx)) 8). lia.
Qed.
Definition ecdsa_accepts (ctx : CurveCtx) (key : Sec1UncompressedPoint) (signature digest : bytes) : Prop :=
  ∃ x y rb sb, sec1_coordinates key (bits_p ctx) x y ∧ CurveCtx_is_on_curve ctx (Some (x, y)) = true ∧
    parse_ecdsa_signature signature = Ok (rb, sb) ∧ 8 * len rb ≤ bits_n ctx ∧ 8 * len sb ≤ bits_n ctx ∧
    ecdsa_valid ctx x y (be_fold rb) (be_fold sb) (leftmost_bits digest (bits_vartime (n_uint ctx))).

(** The sum the verifier computes with an inverse of its own is the one with any inverse. *)
Lemma sum_of_inverse ctx (i : Mf (n_params ctx)) e r s w :
  ctx_sound ctx → Mf_invert (n_mont ctx s) = Some i → (w * s) mod n_uint ctx = 1 →
  Mf_retrieve (Mf_mul (n_mont ctx e) i) = (e * w) mod n_uint ctx ∧ Mf_retrieve (Mf_mul (n_mont ctx r) i) = (r * w) mod n_uint ctx.
Proof.
  intros Hs Hi Hw. destruct Hs. unfold n_mont in *. assert (0 < n_params ctx) as Hn by lia.
  apply mf_invert in Hi; [|done]. rewrite mf_retrieve_new, Zmult_mod_idemp_r in Hi by done.
  rewrite !mf_retrieve_mul, !mf_retrieve_new by done. generalize dependent (Mf_retrieve i). clear i. intros i Hi.
  rewrite cs_params0 in *. rewrite (Z.mod_1_l (n_uint ctx)) in Hi by lia.
  assert (i mod n_uint ctx = w mod n_uint ctx) as Hiw by (apply (inverse_unique _ _ _ s); [lia|done..]).
  rewrite !Zmult_mod_idemp_l.
  split; by rewrite <- Zmult_mod_idemp_r, Hiw, Zmult_mod_idemp_r.
Qed.

Lemma verify_prehashed_spec curve ctx key signature digest :
  CurveCtx_new curve = Ok ctx → ctx_sound ctx → bytes_ok (Sec1_as_bytes key) → bytes_ok digest →
  (verify_prehashed curve key signature digest = Ok tt ↔ ecdsa_accepts ctx key signature digest) ∧
  verify_prehashed curve key signature digest ≠ Panic.
Proof.
  intros Hctx Hs Hkey Hd. unfold verify_prehashed, ecdsa_accepts. rewrite Hctx. cbn [result_bind].
  pose proof Hs as [Hp Hn Hparams Hbits [H64 Hm64] Honce Hoct Hg].
  assert (0 < n_params ctx) as Hnp by lia.
  destruct (parse_affine key (bits_p ctx)) as [q|e|] eqn:Hq; cycle 1.
  { split; [|done]. split; [done|]. intros (x & y & rb & sb & Hsec & _).
    assert (parse_affine key (bits_p ctx) = Ok (Some (x, y))); [|congruence]. apply parse_affine_Ok; [done|]. by exists x, y. }
  { by destruct (parse_affine_no_panic key (bits_p ctx)). }
  apply parse_affine_Ok in Hq as (x & y & -> & Hsec); [|done]. cbn [result_bind].
  assert (∀ x' y', sec1_coordinates key (bits_p ctx) x' y' → x' = x ∧ y' = y) as Huniq.
  { intros x' y' Hsec'. assert (parse_affine key (bits_p ctx) = Ok (Some (x, y))) as Ha by (apply parse_affine_Ok; [done|by exists x, y]).
    assert (parse_affine key (bits_p ctx) = Ok (Some (x', y'))) as Hb by (apply parse_affine_Ok; [done|by exists x', y']). rewrite Ha in Hb. by injection Hb. }
  destruct (CurveCtx_is_on_curve ctx (Some (x, y))) eqn:Hon; cbn [negb]; cycle 1.
  { split; [|done]. split; [done|]. intros (x' & y' & rb & sb & [-> ->]%Huniq & Hon' & _). congruence. }
  destruct (parse_ecdsa_signature signature) as [[rb sb]|e|] eqn:Hsig; cycle 1.
  { split; [|done]. split; [done|]. by intros (? & ? & ? & ? & _ & _ & ? & _). }
  { by destruct (parse_ecdsa_signature_no_panic signature). }
  cbn [result_bind].
  assert (∀ P : Z → Z → bytes → bytes → Prop,
    (∃ x0 y0 rb0 sb0, sec1_coordinates key (bits_p ctx) x0 y0 ∧ CurveCtx_is_on_curve ctx (Some (x0, y0)) = true ∧
       Ok (E := EcdsaError) (rb, sb) = Ok (rb0, sb0) ∧ P x0 y0 rb0 sb0) ↔ P x y rb sb) as Hex.
  { intros P. split; [|intros HP; by exists x, y, rb, sb]. by intros (x0 & y0 & rb0 & sb0 & [-> ->]%Huniq & _ & [= <- <-] & HP). }
  rewrite Hex. clear Hex Huniq. rewrite Hbits in Hm64.
  destruct (boxed rb (bits_n ctx)) as [r|e|] eqn:Hr; [| |by destruct (boxed_no_panic rb (bits_n ctx))]; cycle 1.
  { split; [|done]. split; [done|]. intros [Hl _]. assert (boxed rb (bits_n ctx) = Ok (be_fold rb)); [by apply boxed_Ok|congruence]. }
  apply boxed_Ok in Hr as [Hlr ->]; [|done]. cbn [result_bind].
  destruct (boxed sb (bits_n ctx)) as [s|e|] eqn:Hsb; [| |by destruct (boxed_no_panic sb (bits_n ctx))]; cycle 1.
  { split; [|done]. split; [done|]. intros (_ & Hl & _). assert (boxed sb (bits_n ctx) = Ok (be_fold sb)); [by apply boxed_Ok|congruence]. }
  apply boxed_Ok in Hsb as [Hls ->]; [|done]. cbn [result_bind]. set (r := be_fold rb). set (s := be_fold sb).
  rewrite digest_scalar_spec by done. set (e := leftmost_bits digest _).
  destruct (_ || _) eqn:Hrange.
  { split; [|done]. split; [done|]. intros (_ & _ & [? ?] & [? ?] & _). rewrite !orb_true_iff, !Z.ltb_lt, !Z.leb_le in Hrange. lia. }
  rewrite !orb_false_iff, !Z.ltb_ge, !Z.leb_gt in Hrange. destruct Hrange as [[[Hr1 Hr2] Hs1] Hs2].
  destruct (Mf_invert (n_mont ctx s)) as [i|] eqn:Hi; cbn [ok_or result_bind]; cycle 1.
  { split; [|done]. split; [done|]. intros (_ & _ & _ & _ & w & px & py & Hw & _). exfalso. revert Hi. apply mf_invert_exists; [done|].
    unfold n_mont. rewrite mf_retrieve_new, Hparams by done. rewrite Z.mod_small by lia. apply (inverse_gcd _ w); [lia|done]. }
  pose proof (mf_invert _ _ _ Hnp Hi) as Hw0. unfold n_mont in Hw0. rewrite mf_retrieve_new, Zmult_mod_idemp_r in Hw0 by done.
  assert ((Mf_retrieve i * s) mod n_uint ctx = 1) as Hw1.
  { revert Hw0. generalize (Mf_retrieve i). rewrite Hparams. intros v ->. apply Z.mod_1_l. lia. }
  clear Hw0. rename Hw1 into Hw0.
  destruct (sum_of_inverse ctx i e r s (Mf_retrieve i) Hs Hi Hw0) as [-> ->]. rewrite !ec_scalar_mul_times.
  set (sum := CurveCtx_add _ _ _). assert (point_below (2 ^ bits_p ctx) sum) as Hbelow.
  { apply add_below; [lia|lia| |]; apply times_below; try lia; [done|]. destruct Hsec as (xs & ys & Hk & Hl & Hbl & -> & ->).
    rewrite Hk in Hkey. apply Forall_cons_1 in Hkey as [_ Hkey]. apply Forall_app in Hkey as [Hxs Hys].
    pose proof (be_fold_nonneg xs Hxs) as Hbx. pose proof (be_fold_nonneg ys Hys) as Hby.
    fold (len xs) in Hbx. fold (len ys) in Hby. rewrite <- Hl in Hby. change 256 with (2 ^ 8) in *. rewrite <- Z.pow_mul_r in Hbx, Hby by lia.
    assert (2 ^ (8 * len xs) ≤ 2 ^ bits_p ctx) by (apply Z.pow_le_mono_r; lia). cbn. lia. }
  assert (ecdsa_valid ctx x y r s e ↔ ∃ px py, sum = Some (px, py) ∧ px mod n_uint ctx = r) as Hvalid.
  { unfold ecdsa_valid. split.
    - intros (_ & _ & w & px & py & Hw & Hsum & Hpx). exists px, py. split; [|done]. rewrite <- Hsum. unfold sum.
      destruct (sum_of_inverse ctx i e r s w Hs Hi Hw) as [<- <-]. destruct (sum_of_inverse ctx i e r s (Mf_retrieve i) Hs Hi Hw0) as [<- <-]. done.
    - intros (px & py & Hsum & Hpx). split; [lia|]. split; [lia|]. by exists (Mf_retrieve i), px, py. }
  destruct sum as [[sx sy]|].
  - rewrite bytes_into_n_spec by (done || apply Hbelow). cbn [result_bind]. destruct (Z.eqb_spec (sx mod n_uint ctx) r) as [Hx|Hx].
    + split; [|done]. split; [|done]. intros _. split; [done|]. split; [done|]. apply Hvalid. by exists sx, sy.
    + split; [|done]. split; [done|]. intros (_ & _ & (px & py & [= <- <-] & ?)%Hvalid). done.
  - split; [|done]. split; [done|]. by intros (_ & _ & (px & py & ? & ?)%Hvalid).
Qed.
End verifier.

(** ** The named curves *)

(** The context of a curve whose parameters fit [bits]. *)
Definition curve_ctx (bits : Z) (c : Curve) : CurveCtx :=
  mkCurveCtx bits bits (be_fold (curve_p c)) (be_fold (curve_n c)) (be_fold (curve_a c)) (be_fold (curve_b c)) (be_fold (curve_n c))
    (Some (be_fold (curve_gx c), be_fold (curve_gy c))).
Definition p256_ctx : CurveCtx := curve_ctx 256 secp256r1.
Definition p384_ctx : CurveCtx := curve_ctx 384 secp384r1.
Inductive named_curve : Curve → CurveCtx → Prop :=
| named_p256 : named_curve secp256r1 p256_ctx
| named_p384 : named_curve secp384r1 p384_ctx.

Section named.
Context `{BoxedMonty} `{!BoxedMontyLaws}.

Lemma curve_ctx_new bits c :
  bits_for_len (len (curve_p c)) = Ok bits → bits_for_len (len (curve_n c)) = Ok bits → bits mod 64 = 0 →
  Forall (λ f, 8 * len f ≤ bits) [curve_p c; curve_a c; curve_b c; curve_gx c; curve_gy c; curve_n c] →
  Z.even (be_fold (curve_p c)) = false → Z.even (be_fold (curve_n c)) = false → CurveCtx_new c = Ok (curve_ctx bits c).
Proof.
  intros Hp Hn Hb Hf Hep Hen. unfold CurveCtx_new, odd_new. rewrite Hp, Hn. cbn [result_bind].
  assert (∀ f, 8 * len f ≤ bits → boxed f bits = Ok (be_fold f)) as Hbox by (intros f Hl; by apply boxed_Ok).
  repeat apply Forall_cons_1 in Hf as [? Hf]. rewrite !Hbox by done. cbn [result_bind]. by rewrite Hep, Hen.
Qed.
Lemma named_curve_new c ctx : named_curve c ctx → CurveCtx_new c = Ok ctx.
Proof. intros []; apply curve_ctx_new; by_decide || by vm_compute. Qed.
Lemma named_curve_sound c ctx : named_curve c ctx → ctx_sound ctx.
Proof. intros []; split; by_decide || (split_and!; by_decide). Qed.

(** The generator and its curve. *)
Lemma named_curve_generator c ctx : named_curve c ctx → CurveCtx_is_on_curve ctx (ctx_g ctx) = true.
Proof.
  intros Hc. pose proof (cs_p ctx (named_curve_sound c ctx Hc)) as [Hp _]. destruct (ctx_g ctx) as [[x y]|] eqn:Hg; [|by destruct Hc].
  unfold CurveCtx_is_on_curve, p_mont. rewrite mf_eqb by done.
  rewrite ?mf_retrieve_add, ?mf_retrieve_mul, ?mf_retrieve_add, ?mf_retrieve_mul, ?mf_retrieve_new by done.
  rewrite ?mf_retrieve_mul, ?mf_retrieve_new by done. rewrite ?mf_retrieve_mul, ?mf_retrieve_new by done.
  destruct Hc; injection Hg as <- <-; by vm_compute.
Qed.
End named.

(** ** The DER of a raw signature *)

Lemma encode_der_length_push out n : n ≤ u16_max → BerEncoder_push_length (E := unit) out n = Ok (encode_der_length out n).
Proof.
  intros Hn. unfold BerEncoder_push_length, encode_der_length, SHORT_FORM_CEILING, u8_max, u16_max in *.
  destruct (Z.ltb_spec n 128); [done|]. destruct (Z.leb_spec n 255), (Z.ltb_spec n 256); try lia; [done|].
  destruct (Z.leb_spec n 65535); [|lia]. by rewrite Z.min_l by lia.
Qed.
Lemma trim_zeros_spec v : be_fold (trim_zeros v) = be_fold v ∧ len (trim_zeros v) ≤ len v ∧
  (∀ r, trim_zeros v = 0 :: r → r = []).
Proof.
  induction v as [|b v IH]; [done|]. cbn [trim_zeros]. destruct v as [|c v]; [split_and!; [done|done|]; by intros r [= -> <-]|].
  destruct (Z.eqb_spec b 0) as [->|Hb]; [|split_and!; [done|done|]; by intros r [= -> _]].
  destruct IH as (IHv & IHl & IHz). split; [rewrite IHv; unfold be_fold at 2; cbn [foldl]; by rewrite Z.shiftl_0_l|].
  split; [rewrite len_cons; lia|done].
Qed.
Lemma encode_der_integer_tlv out v : bytes_ok v → len v < 60000 →
  ∃ content enc, tlv (E := unit) ASN1_INTEGER_TAG content = Ok enc ∧ encode_der_integer out v = out ++ enc ∧
    len content ≤ len v + 1 ∧ be_fold (strip_sign content) = be_fold v ∧ len (strip_sign content) ≤ len v.
Proof.
  intros Hv Hl. destruct (trim_zeros_spec v) as (Hval & Hlen & Hz). unfold encode_der_integer.
  set (t := trim_zeros v) in *. set (pad := match t with b :: _ => HIGH_BIT_SET <=? b | [] => false end).
  exists ((if pad then [DER_SIGN_PAD] else []) ++ t), (encode_der_length [ASN1_INTEGER_TAG] (len t + Z.b2z pad) ++ (if pad then [DER_SIGN_PAD] else []) ++ t).
  assert (len ((if pad then [DER_SIGN_PAD] else []) ++ t) = len t + Z.b2z pad) as Hlp.
  { rewrite len_app. destruct pad; [change (len [DER_SIGN_PAD]) with 1|change (len []) with 0]; simpl; lia. }
  pose proof (len_nonneg t). assert (0 ≤ Z.b2z pad ≤ 1) by (destruct pad; simpl; lia).
  split; [|split; [|split; [|split]]].
  - unfold tlv, BerEncoder_push_tlv. rewrite Hlp. rewrite encode_der_length_push by (unfold u16_max; lia). done.
  - assert (∀ o n, encode_der_length (out ++ o) n = out ++ encode_der_length o n) as Ho.
    { intros o n. unfold encode_der_length. repeat case_match; by rewrite <- !app_assoc. }
    rewrite Ho. destruct pad; by rewrite <- !app_assoc.
  - lia.
  - rewrite <- Hval. unfold strip_sign. destruct pad eqn:Hpad; [done|]. cbn [app]. destruct t as [|b r]; [done|].
    unfold strip_prefix, DER_SIGN_PAD_PREFIX, DER_SIGN_PAD. destruct (decide (b = 0)) as [->|Hb].
    + rewrite (Hz r) by done. done.
    + rewrite decide_False by (cbn; congruence). done.
  - unfold strip_sign. destruct pad eqn:Hpad; cbn [app].
    + change (strip_prefix DER_SIGN_PAD_PREFIX (DER_SIGN_PAD :: t)) with (strip_prefix [DER_SIGN_PAD] ([DER_SIGN_PAD] ++ t)). rewrite strip_prefix_app. done.
    + destruct (strip_prefix DER_SIGN_PAD_PREFIX t) as [t'|] eqn:Hs; [|done]. apply strip_prefix_Some in Hs. cbn [default]. rewrite Hs in Hlen. rewrite len_app in Hlen. change (len DER_SIGN_PAD_PREFIX) with 1 in Hlen. simpl. lia.
Qed.

(** What the verifier reads back of the two halves. *)
Lemma into_der_parse {E} a b : bytes_ok a → bytes_ok b → len a = len b → len a < 30000 →
  ∃ der r s, into_der (E := E) (a ++ b) = Ok der ∧ parse_ecdsa_signature der = Ok (r, s) ∧
    be_fold r = be_fold a ∧ be_fold s = be_fold b ∧ len r ≤ len a ∧ len s ≤ len b.
Proof.
  intros Ha Hb Hl Hlen. unfold into_der. destruct (halves_app a b Hl) as [-> ->]. cbn [negb Z.eqb].
  destruct (encode_der_integer_tlv [] a Ha ltac:(lia)) as (ca & ea & Hea & -> & Hca & Hva & Hla).
  destruct (encode_der_integer_tlv ea b Hb ltac:(lia)) as (cb & eb & Heb & Hout & Hcb & Hvb & Hlb).
  rewrite app_nil_l, Hout. exists (encode_der_length [ASN1_SEQUENCE_TAG] (len (ea ++ eb)) ++ ea ++ eb), (strip_sign ca), (strip_sign cb).
  assert (∀ tag v enc, tlv (E := unit) tag v = Ok enc → len v ≤ u32_max → len enc ≤ len v + 6) as Hsz.
  { intros tag v enc He Hv. destruct (@tlv_ok unit tag v Hv) as (lb & Ht & _ & _ & Hlo). rewrite Ht in He. injection He as <-.
    rewrite len_cons, len_app. lia. }
  pose proof (Hsz _ _ _ Hea ltac:(unfold u32_max; lia)). pose proof (Hsz _ _ _ Heb ltac:(unfold u32_max; lia)). clear Hsz.
  split; [done|]. split; [|done]. unfold parse_ecdsa_signature, BerTlv_parse.
  assert (tlv (E := unit) ASN1_SEQUENCE_TAG (ea ++ eb) = Ok (encode_der_length [ASN1_SEQUENCE_TAG] (len (ea ++ eb)) ++ ea ++ eb)) as Hseq.
  { unfold tlv, BerEncoder_push_tlv. by rewrite encode_der_length_push by (rewrite len_app; unfold u16_max; lia). }
  assert (∀ tag v enc rest, Z.land tag MULTI_BYTE_TAG_MASK ≠ MULTI_BYTE_TAG_MASK → tlv (E := unit) tag v = Ok enc → len v ≤ u32_max →
    len (enc ++ rest) ≤ u64_max → BerTlvAny_parse (enc ++ rest) = Ok (mkBerTlvAny tag v (len enc))) as Hp.
  { intros tag v enc rest Ht He Hv Hs. by apply (@tlv_parse unit). }
  assert (Z.land ASN1_SEQUENCE_TAG MULTI_BYTE_TAG_MASK ≠ MULTI_BYTE_TAG_MASK) as Hm1 by done.
  assert (Z.land ASN1_INTEGER_TAG MULTI_BYTE_TAG_MASK ≠ MULTI_BYTE_TAG_MASK) as Hm2 by done.
  set (der := encode_der_length _ _ ++ _) in *. rewrite <- (app_nil_r der) at 1.
  assert (len (ea ++ eb) ≤ u32_max) by (rewrite len_app; unfold u32_max; lia).
  destruct (@tlv_ok unit ASN1_SEQUENCE_TAG (ea ++ eb) ltac:(done)) as (lb & Ht & _ & _ & Hlo). rewrite Hseq in Ht. injection Ht as Hder.
  assert (len der ≤ u64_max) by (rewrite Hder, len_cons, !len_app; unfold u64_max, u32_max in *; rewrite len_app in *; lia).
  rewrite (Hp _ _ _ [] Hm1 Hseq) by (done || by rewrite app_nil_r).
  cbn [result_bind BerTlvAny_expect any_tag any_value map_err negb Z.eqb Pos.eqb Sequence_TAG ASN1_SEQUENCE_TAG].
  rewrite (Hp _ _ _ eb Hm2 Hea) by (rewrite ?len_app in *; unfold u64_max, u32_max in *; lia).
  cbn [result_bind BerTlvAny_expect any_tag any_value any_size map_err negb Z.eqb Pos.eqb Integer_TAG ASN1_INTEGER_TAG].
  assert (zslice (len ea) (len (ea ++ eb)) (ea ++ eb) = Some eb) as ->.
  { apply zslice_Some. exists ea, []. rewrite app_nil_r. split_and!; [done|done|]. rewrite len_app. done. }
  cbn [ok_or result_bind]. rewrite <- (app_nil_r eb).
  rewrite (Hp _ _ _ [] Hm2 Heb) by (rewrite ?len_app in *; change (len []) with 0; unfold u64_max, u32_max in *; lia). done.
Qed.
Lemma into_der_odd {E} raw : len raw mod 2 = 1 → into_der (E := E) raw = Panic.
Proof. intros Ho. unfold into_der. by rewrite Ho. Qed.

(** ** What a raw P-384 signature must be *)

Section p384.
Context `{ConstOid} `{!ConstOidLaws} `{BoxedMonty} `{!BoxedMontyLaws}.

Lemma named_curve_p384 : named_curve_from_oid SECP384R1 = Some secp384r1.
Proof.
  unfold named_curve_from_oid. rewrite decide_False by known_ne. by rewrite decide_True.
Qed.
Lemma named_curve_p256 : named_curve_from_oid SECP256R1 = Some secp256r1.
Proof. unfold named_curve_from_oid. by rewrite decide_True. Qed.
End p384.


(** A raw signature of the card is verified by the equation on its two halves: the coding
    as DER in between changes nothing. For an even number of octets up to 96 the verifier
    of P-384 accepts exactly when the halves satisfy the equation; it panics when, and
    only when, the number is odd. *)
Theorem p384_raw_exact `{ConstOid} `{!ConstOidLaws} `{BoxedMonty} `{!BoxedMontyLaws} point raw digest :
  bytes_ok (Sec1_as_bytes point) → bytes_ok raw → bytes_ok digest → len raw ≤ 96 →
  (verify_p384_raw point raw digest = Panic ↔ len raw mod 2 = 1) ∧
  ∀ a b, raw = a ++ b → len a = len b →
    verify_p384_raw point raw digest = Ok tt ↔
    ∃ x y, sec1_coordinates point 384 x y ∧ CurveCtx_is_on_curve p384_ctx (Some (x, y)) = true ∧
      ecdsa_valid p384_ctx x y (be_fold a) (be_fold b) (leftmost_bits digest 384).
Proof.
  intros Hpt Hraw Hd Hlen. unfold verify_p384_raw. rewrite named_curve_p384. cbn [ok_or result_bind].
  pose proof (named_curve_sound _ _ named_p384) as Hs.
  assert (∀ sig, (verify_prehashed secp384r1 point sig digest = Ok tt ↔ ecdsa_accepts p384_ctx point sig digest) ∧
    verify_prehashed secp384r1 point sig digest ≠ Panic) as Hv.
  { intros sig. apply verify_prehashed_spec; [by apply named_curve_new; constructor|done..]. }
  assert (bits_vartime (n_uint p384_ctx) = 384) as Hbits by by vm_compute.
  assert (∀ a b, raw = a ++ b → len a = len b → ∃ der r s, into_der (E := EcdsaError) raw = Ok der ∧ parse_ecdsa_signature der = Ok (r, s) ∧
    be_fold r = be_fold a ∧ be_fold s = be_fold b ∧ len r ≤ 48 ∧ len s ≤ 48) as Hder.
  { intros a b -> Hl. apply Forall_app in Hraw as [Ha Hb]. rewrite len_app in Hlen.
    destruct (into_der_parse (E := EcdsaError) a b Ha Hb Hl ltac:(lia)) as (der & r & s & ? & ? & ? & ? & ? & ?).
    exists der, r, s. split_and!; try done; lia. }
  split.
  - split; [|intros Ho; by rewrite into_der_odd]. intros Hp. pose proof (Z.mod_pos_bound (len raw) 2 ltac:(lia)).
    destruct (decide (len raw mod 2 = 0)) as [He|]; [exfalso|lia]. destruct (halves_spec raw He) as (a & b & _ & Hab & Hl).
    destruct (Hder a b Hab Hl) as (der & r & s & Hi & _). rewrite Hi in Hp. by apply (Hv der).
  - intros a b Hab Hl. destruct (Hder a b Hab Hl) as (der & r & s & -> & Hparse & Hr & Hsv & Hlr & Hls). cbn [result_bind].
    rewrite (proj1 (Hv der)). unfold ecdsa_accepts. rewrite Hbits. change (bits_p p384_ctx) with 384. change (bits_n p384_ctx) with 384. split.
    + intros (x & y & rb & sb & Hsec & Hon & Hp & _ & _ & Hval). rewrite Hparse in Hp. injection Hp as <- <-. rewrite Hr, Hsv in Hval. by exists x, y.
    + intros (x & y & Hsec & Hon & Hval). exists x, y, r, s. rewrite Hr, Hsv. split_and!; try done; lia.
Qed.

(** A digest shorter than the order is cut. When the digest has fewer bits than the order
    and the order is not a number of whole octets, the scalar read from the digest is not
    the digest: its lowest bits are gone, though all of them count. *)
Theorem short_digest_cut digest n :
  bytes_ok digest → 8 * len digest < n →
  be_fold (scalar_octets digest n) = be_fold digest / 2 ^ ((8 - n mod 8) mod 8) ∧ leftmost_bits digest n = be_fold digest.
Proof.
  intros Hd Hn. unfold leftmost_bits. rewrite Z.max_l, Z.div_1_r by lia. split; [|done]. unfold scalar_octets. pose proof (len_nonneg digest).
  assert (take (Z.to_nat ((n + 7) / 8)) digest = digest) as ->.
  { apply take_ge. unfold len in *. apply Nat2Z.inj_le. rewrite Z2Nat.id by (apply Z.div_pos; lia).
    apply Z.div_le_lower_bound; lia. }
  set (e := (8 - n mod 8) mod 8). assert (0 ≤ e < 8) by (apply Z.mod_pos_bound; lia).
  destruct (Z.eqb_spec e 0) as [->|He]; [by rewrite Z.div_1_r|]. cbn [negb andb]. case_bool_decide as Hnil; cbn [negb].
  { rewrite Hnil. change (be_fold []) with 0. by rewrite Zdiv_0_l. }
  destruct (shift_octets_value e 0 digest ltac:(lia) Hd ltac:(split; [lia|apply Z.pow_pos_nonneg; lia])) as [_ ->].
  by rewrite Z.mul_0_l, Z.add_0_l.
Qed.
Lemma short_digest_cut_witness :
  be_fold (scalar_octets (replicate 64 0xFF) 521) = be_fold (replicate 64 0xFF) / 128 ∧ leftmost_bits (replicate 64 0xFF) 521 = 2 ^ 512 - 1.
Proof.
  destruct (short_digest_cut (replicate 64 0xFF) 521 ltac:(by_decide) ltac:(by vm_compute)) as [Hc Hl].
  split; [exact Hc|rewrite Hl; by vm_compute].
Defined.

(** ** Two signatures *)

Import monty dotted_texts.
Definition p256_key : Sec1UncompressedPoint :=
  mkSec1 ([0x04] ++ to_be 32 0x88bb9ff22ab291a74c86fc677ba897baadee370cc6129b82d170ba3fc26415c
          ++ to_be 32 0x442da9a716067956d91eaa02b93ad409490e87cd5e758ea6a331a1deb75ba846).
Definition p256_signature : bytes :=
  to_be 70 0x3044022024829976e0be7fddee392fdc5004d5c545bf712fa44bb939fa74673b5a134810022024829976e0be7fddee392fdc5004d5c545bf712fa44bb939fa74673b5a134810.
Definition p256_digest : bytes := to_be 32 0x6d87cc64a23b7f99caab8f94f00e814fd13e538eece32badef5d35b20e39d830.
Definition p384_key : Sec1UncompressedPoint :=
  mkSec1 ([0x04] ++ to_be 48 0x7ae9e1db1160794c70c1ef071be5191f6c66240f4608fbe8a44ecd36c3ed5db97500f2e4d84e3fb45850fd6f4303302b
          ++ to_be 48 0xd8ac21444cd80d241538d8034b399a0dee3636eb5cb00b9499d061a571db0f14bb47ed79453948ed63f3a6ccbbf6e74f).
Definition p384_r : bytes :=
  to_be 48 0x25049e64ac1e8bf58db3b0149276aee5e99d21e64ecc6c1fe3361cf65d9bca253ff149c10ee6985f95f1c60dc9579ea6.
Definition p384_digest : bytes :=
  to_be 48 0x6f0ddb2e045ba3e0a91b103db7640cb1bcd765b2ec65445fa9a256e318d35e6fbfd3dd432cb3c91ec1d552295c06dbf2.


Lemma p384_raw_exact_witness :
  verify_p384_raw p384_key (p384_r ++ p384_r) p384_digest = Ok tt ∧
  ∃ x y, sec1_coordinates p384_key 384 x y ∧ ecdsa_valid p384_ctx x y (be_fold p384_r) (be_fold p384_r) (leftmost_bits p384_digest 384).
Proof.
  assert (verify_p384_raw p384_key (p384_r ++ p384_r) p384_digest = Ok tt) as Hv by by vm_compute.
  split; [exact Hv|].
  destruct (p384_raw_exact p384_key (p384_r ++ p384_r) p384_digest ltac:(by_decide) ltac:(by_decide) (to_be_bytes_ok _ _) ltac:(by_decide)) as [_ Hex].
  apply (Hex p384_r p384_r eq_refl eq_refl) in Hv as (x & y & Hsec & _ & Hval). by exists x, y.
Defined.
