(* ===== verification/Transport.v ===== *)
(** The card transport interface: crates/refineid-lib-core/src/transport.rs.
    [CommandApdu] with its one-shot wrong-Le retry mark, [ResponseApdu],
    [TransportOutcome], the [CardTransport] trait as a class and the provided
    method [transmit]. [Logged] wraps any transport with the list of commands
    handed to it, so that what a protocol sends is a statement about the log;
    [Script] is a transport that plays back a list of outcomes. *)

From S2P Require Import Prelude StatusWord.

(** ** Commands and responses *)

Record CommandApdu := mkCommandApdu { cmd_bytes : bytes; cmd_wrong_le_retry : bool }.
#[export] Instance CommandApdu_eq_dec : EqDecision CommandApdu.
Proof. solve_decision. Defined.

Definition CommandApdu_new (bs : bytes) : CommandApdu := mkCommandApdu bs false.

(** A release build: the [debug_assert_eq!] on the length is not evaluated. *)
Definition CommandApdu_allow_wrong_le_retry (c : CommandApdu) : CommandApdu :=
  mkCommandApdu (cmd_bytes c) (len (cmd_bytes c) =? 5).

(** [*last_mut()? = le]. *)
Definition set_last (le : Z) (l : bytes) : option bytes :=
  match reverse l with [] => None | _ :: r => Some (reverse (le :: r)) end.

Definition CommandApdu_corrected_wrong_le (c : CommandApdu) (le : Z) : option CommandApdu :=
  if negb (cmd_wrong_le_retry c) then None
  else bs ← set_last le (cmd_bytes c); Some (mkCommandApdu bs false).

Definition CommandApdu_as_bytes (c : CommandApdu) : bytes := cmd_bytes c.
Definition CommandApdu_from (bs : bytes) : CommandApdu := CommandApdu_new bs.

Record ResponseApdu := mkResponseApdu { rsp_body : bytes; rsp_sw1 : Z; rsp_sw2 : Z }.
#[export] Instance ResponseApdu_eq_dec : EqDecision ResponseApdu.
Proof. solve_decision. Defined.

Definition ResponseApdu_sw (r : ResponseApdu) : Z := u16_from_be (rsp_sw1 r) (rsp_sw2 r).
Definition ResponseApdu_status_word (r : ResponseApdu) : StatusWord :=
  StatusWord_from_bytes (rsp_sw1 r) (rsp_sw2 r).
Definition ResponseApdu_is_ok (r : ResponseApdu) : bool :=
  StatusWord_is_success (ResponseApdu_status_word r).

Inductive TransportErrorKind :=
| Tek_Backend | Tek_NoCard | Tek_TimeoutUnknownState | Tek_CardReset | Tek_ProtocolDesync
| Tek_ReaderRemoved.
#[export] Instance TransportErrorKind_eq_dec : EqDecision TransportErrorKind.
Proof. solve_decision. Defined.

Inductive TransportOutcome :=
| To_Response (r : ResponseApdu)
| To_NoCard | To_TimeoutUnknownState | To_CardReset | To_ProtocolDesync | To_ReaderRemoved.
#[export] Instance TransportOutcome_eq_dec : EqDecision TransportOutcome.
Proof. solve_decision. Defined.

Definition TransportOutcome_into_response (o : TransportOutcome) : result TransportOutcome ResponseApdu :=
  match o with To_Response r => Ok r | other => Err other end.

Definition TransportOutcome_kind (o : TransportOutcome) : option TransportErrorKind :=
  match o with
  | To_Response _ => None
  | To_NoCard => Some Tek_NoCard
  | To_TimeoutUnknownState => Some Tek_TimeoutUnknownState
  | To_CardReset => Some Tek_CardReset
  | To_ProtocolDesync => Some Tek_ProtocolDesync
  | To_ReaderRemoved => Some Tek_ReaderRemoved
  end.

(** [trait TransportErrorExt]; the provided body is [Backend]. *)
Class TransportErrorExt (E : Type) := error_kind : E → TransportErrorKind.
#[export] Instance string_TransportErrorExt : TransportErrorExt string := λ _, Tek_Backend.

Inductive TransportDispatchError (E : Type) :=
| Tde_Error (e : E)
| Tde_Outcome (o : TransportOutcome).
Arguments Tde_Error {E} e.
Arguments Tde_Outcome {E} o.

Definition TransportDispatchError_kind `{TransportErrorExt E} (e : TransportDispatchError E)
  : TransportErrorKind :=
  match e with
  | Tde_Error error => error_kind error
  | Tde_Outcome outcome => default Tek_Backend (TransportOutcome_kind outcome)
  end.

(** ** The trait: one required method and one provided one *)

Class CardTransport (T E : Type) := transmit_outcome : CommandApdu → act T E TransportOutcome.

Definition transmit `{CardTransport T E} (apdu : bytes) : act T (TransportDispatchError E) ResponseApdu :=
  let command := CommandApdu_from apdu in
  do! o := act_map_err Tde_Error (transmit_outcome command) in
  match o with
  | To_Response response => act_ret response
  | outcome => act_err (Tde_Outcome outcome)
  end.

(** ** A transport with a log of the commands handed to it *)

Record Logged (T : Type) := mkLogged { sent : list CommandApdu; card : T }.
Arguments mkLogged {T} _ _.
Arguments sent {T} _.
Arguments card {T} _.

#[export] Instance Logged_CardTransport `{CardTransport T E} : CardTransport (Logged T) E :=
  λ c t, let '(t', r) := transmit_outcome c (card t) in (mkLogged (sent t ++ [c]) t', r).

(** ** A transport that plays back outcomes, then fails *)

Definition Script := list TransportOutcome.
#[export] Instance Script_CardTransport : CardTransport Script string :=
  λ _ s, match s with [] => ([], Err "script exhausted"%string) | o :: s' => (s', Ok o) end.

(** A response with a two-byte status word. *)
Definition reply (body : bytes) (sw : Z) : TransportOutcome :=
  To_Response (mkResponseApdu body (u16_hi sw) (u16_lo sw)).

(** The status word of a transport outcome, for reasoning about a reply. *)
Section transmit_lemmas.
Context `{CardTransport T E}.

(** A [transmit] through the log: one command, without the retry mark. *)
Lemma transmit_logged apdu (t : Logged T) :
  transmit apdu t =
  let '(t', r) := transmit apdu (card t) in (mkLogged (sent t ++ [CommandApdu_new apdu]) t', r).
Proof.
  unfold transmit, act_bind, act_map_err. unfold transmit_outcome at 1, Logged_CardTransport.
  change (CommandApdu_from apdu) with (CommandApdu_new apdu).
  destruct (transmit_outcome (CommandApdu_new apdu) (card t)) as [t' [o|e|]]; simpl; [|done..].
  by destruct o.
Qed.

Lemma transmit_sent apdu (t : Logged T) :
  sent (transmit apdu t).1 = sent t ++ [CommandApdu_new apdu].
Proof. rewrite transmit_logged. by destruct (transmit apdu (card t)). Qed.

Lemma transmit_no_panic apdu t :
  (∀ c t, (transmit_outcome c t).2 ≠ Panic) → (transmit apdu t).2 ≠ Panic.
Proof.
  intros Hp. unfold transmit. apply act_bind_no_panic.
  - apply act_map_err_no_panic, Hp.
  - by intros [] t'.
Qed.
End transmit_lemmas.

Lemma u16_lo_idem x : u16_lo (u16_lo x) = u16_lo x.
Proof. unfold u16_lo. by rewrite <- Z.land_assoc. Qed.

Lemma reply_status body sw :
  ResponseApdu_status_word (mkResponseApdu body (u16_hi sw) (u16_lo sw)) = StatusWord_from_u16 sw.
Proof. unfold ResponseApdu_status_word, StatusWord_from_bytes. simpl. by rewrite u16_hi_lo. Qed.

Lemma set_last_snoc le l x : set_last le (l ++ [x]) = Some (l ++ [le]).
Proof.
  unfold set_last. rewrite reverse_snoc. by rewrite reverse_cons, reverse_involutive.
Qed.

Lemma set_last_None le l : set_last le l = None ↔ l = [].
Proof.
  unfold set_last. destruct l as [|x l _] using rev_ind; [done|]. rewrite reverse_snoc.
  split; [done|]. by destruct l.
Qed.

(** ** What a method sends

    [sends_only P m]: every command [m] hands to the transport, on every path
    and whatever the card answers, satisfies [P]. *)
Definition sends_only {T E A} (P : CommandApdu → Prop) (m : act (Logged T) E A) : Prop :=
  ∀ t, ∃ cs, sent (m t).1 = sent t ++ cs ∧ Forall P cs.

Section sends_only.
Context `{CardTransport T E} (P : CommandApdu → Prop).

Lemma sends_only_ret {F A} (a : A) : sends_only P (act_ret (T:=Logged T) (E:=F) a).
Proof. intros t. exists []. split; [by rewrite app_nil_r|apply Forall_nil_2]. Qed.

Lemma sends_only_err {F A} (e : F) : sends_only P (act_err (T:=Logged T) (A:=A) e).
Proof. intros t. exists []. split; [by rewrite app_nil_r|apply Forall_nil_2]. Qed.

Lemma sends_only_lift {F A} (r : result F A) : sends_only P (act_lift (T:=Logged T) r).
Proof. intros t. exists []. split; [by rewrite app_nil_r|apply Forall_nil_2]. Qed.

Lemma sends_only_bind {F A B} (m : act (Logged T) F A) (k : A → act (Logged T) F B) :
  sends_only P m → (∀ a, sends_only P (k a)) → sends_only P (act_bind m k).
Proof.
  intros Hm Hk t. destruct (Hm t) as (cs & Hcs & Hall). unfold act_bind.
  destruct (m t) as [t' [a|e|]]; cbn in *; [|by exists cs..].
  destruct (Hk a t') as (cs' & Hcs' & Hall'). exists (cs ++ cs').
  rewrite Hcs', Hcs, <- app_assoc. split; [done|]. by apply Forall_app.
Qed.

Lemma sends_only_map_err {F G A} (f : F → G) (m : act (Logged T) F A) :
  sends_only P m → sends_only P (act_map_err f m).
Proof. intros Hm t. destruct (Hm t) as (cs & Hcs & ?). exists cs. unfold act_map_err. by destruct (m t). Qed.

Lemma sends_only_transmit bs :
  P (CommandApdu_new bs) → sends_only P (transmit (T:=Logged T) (E:=E) bs).
Proof.
  intros HP t. exists [CommandApdu_new bs]. rewrite transmit_sent. split; [done|].
  by apply Forall_singleton.
Qed.

Lemma sends_only_loop {F S A} fuel (body : S → act (Logged T) F (S + A)) s :
  (∀ s, sends_only P (body s)) → sends_only P (act_loop fuel body s).
Proof.
  intros Hb. revert s; induction fuel as [|fuel IH]; intros s; cbn [act_loop].
  - intros t. exists []. split; [by rewrite app_nil_r|apply Forall_nil_2].
  - apply sends_only_bind; [done|]. intros [s'|a]; [apply IH|apply sends_only_ret].
Qed.

Lemma sends_only_weaken {F A} (Q : CommandApdu → Prop) (m : act (Logged T) F A) :
  (∀ c, P c → Q c) → sends_only P m → sends_only Q m.
Proof.
  intros HPQ Hm t. destruct (Hm t) as (cs & ? & ?). exists cs. split; [done|].
  by eapply Forall_impl; [|eassumption].
Qed.
End sends_only.

Create HintDb sends.
#[export] Hint Resolve sends_only_ret sends_only_err sends_only_lift sends_only_map_err : sends.

(** Walk through a method: binds, results, loops, case distinctions. *)
Ltac solve_sends :=
  repeat first
    [ apply sends_only_bind; [|intros ?] | apply sends_only_ret | apply sends_only_err
    | apply sends_only_lift | apply sends_only_map_err | solve [eauto 2 with sends]
    | apply sends_only_transmit | case_match ].

(** ** Exchanges in order *)

Section exchanged.
Context `{CardTransport T E}.

(** The commands [cs] go to the card one after the other and are answered by
    [rs]. *)
Inductive exchanged : T → list bytes → list ResponseApdu → T → Prop :=
| exchanged_nil t : exchanged t [] [] t
| exchanged_cons t c r t1 cs rs t2 :
    transmit c t = (t1, Ok r) → exchanged t1 cs rs t2 → exchanged t (c :: cs) (r :: rs) t2.

Lemma exchanged_app t cs rs t1 cs' rs' t2 :
  exchanged t cs rs t1 → exchanged t1 cs' rs' t2 → exchanged t (cs ++ cs') (rs ++ rs') t2.
Proof. induction 1; [done|]. intros. econstructor; eauto. Qed.

Lemma exchanged_one t c r t1 : transmit c t = (t1, Ok r) → exchanged t [c] [r] t1.
Proof. intros. econstructor; [done|constructor]. Qed.
End exchanged.
