(* ===== verification/Apdu.v ===== *)
(** Typed ISO 7816-4 commands: crates/refineid-lib-core/src/apdu/primitives.rs
    ([Aid], [Sfi]) and crates/refineid-lib-core/src/apdu/iso7816.rs (the SELECT,
    READ BINARY, GET RESPONSE and INTERNAL AUTHENTICATE commands with their
    targets, offsets and serialisation). The specification is [ShortApdu]: a
    command as a header, command data and an optional expected length. *)

From S2P Require Import Prelude Ber StatusWord Transport.

(** ** Primitives *)

Record Aid := mkAid { Aid_bytes : bytes }.
Inductive AidError := AidError_LengthOutOfRange (got : Z).

Definition Aid_new (bs : bytes) : result AidError Aid :=
  if negb ((5 <=? len bs) && (len bs <=? 16)) then Err (AidError_LengthOutOfRange (len bs))
  else Ok (mkAid bs).
Definition Aid_from_slice (bs : bytes) : result AidError Aid := Aid_new bs.
Definition Aid_as_bytes (a : Aid) : bytes := Aid_bytes a.

Record Sfi := mkSfi { Sfi_0 : Z }.
Inductive SfiError := SfiError_OutOfRange (got : Z).

Definition Sfi_new (value : Z) : result SfiError Sfi :=
  if (value =? 0) || (value >? 30) then Err (SfiError_OutOfRange value) else Ok (mkSfi value).

(** [from_const] is evaluated at compile time: its [panic!] is a build error. *)
Definition Sfi_from_const (value : Z) : result SfiError Sfi :=
  match Sfi_new value with Ok sfi => Ok sfi | _ => Panic end.

Definition Sfi_as_p1_short_form (s : Sfi) : Z := Z.lor 0x80 (Sfi_0 s).
Definition Sfi_value (s : Sfi) : Z := Sfi_0 s.

(** ** Class byte, SELECT *)

Inductive ApduClass := Cla_Plain | Cla_SecureMessaging | Cla_ChainedFirst.
Definition ApduClass_as_byte (c : ApduClass) : Z :=
  match c with Cla_Plain => 0x00 | Cla_SecureMessaging => 0x0C | Cla_ChainedFirst => 0x10 end.

Inductive SelectOccurrence := Occ_First | Occ_Next.
Definition SelectOccurrence_as_p2 (o : SelectOccurrence) : Z :=
  match o with Occ_First => 0x00 | Occ_Next => 0x02 end.

(** [u8::try_from(n).unwrap_or(u8::MAX)]. *)
Definition u8_saturating (n : Z) : Z := if n <=? u8_max then n else u8_max.

Record SelectByAidNoFci := mkSelectByAidNoFci { sn_aid : Aid }.
Definition SelectByAidNoFci_into_apdu (c : SelectByAidNoFci) : CommandApdu :=
  let bs := Aid_as_bytes (sn_aid c) in
  CommandApdu_new ([0x00; 0xA4; 0x04; 0x0C] ++ [u8_saturating (len bs)] ++ bs).

Record SelectByAidWithFci := mkSelectByAidWithFci
  { sw_class : ApduClass; sw_occurrence : SelectOccurrence; sw_aid : Aid }.
Definition SelectByAidWithFci_into_apdu (c : SelectByAidWithFci) : CommandApdu :=
  let aid_bytes := Aid_as_bytes (sw_aid c) in
  CommandApdu_new
    ([ApduClass_as_byte (sw_class c); 0xA4; 0x04; SelectOccurrence_as_p2 (sw_occurrence c)]
     ++ [u8_saturating (len aid_bytes)] ++ aid_bytes ++ [0x00]).

(** [struct FileId([u8; 2])]. *)
Record FileId := mkFileId { fid_hi : Z; fid_lo : Z }.
#[export] Instance FileId_eq_dec : EqDecision FileId.
Proof. solve_decision. Defined.
Definition FileId_MF : FileId := mkFileId 0x3F 0x00.
Definition FileId_PKCS15_DF : FileId := mkFileId 0x50 0x15.
Definition FileId_EF_ODF : FileId := mkFileId 0x50 0x31.
Definition FileId_EF_TOKEN_INFO : FileId := mkFileId 0x50 0x32.
Definition FileId_as_bytes (f : FileId) : bytes := [fid_hi f; fid_lo f].

Record AbsolutePath := mkAbsolutePath { ap_fids : list FileId }.
Inductive AbsolutePathError := Ape_Empty | Ape_StartsWithMf.
Definition AbsolutePath_new (fids : list FileId) : result AbsolutePathError AbsolutePath :=
  match fids with
  | [] => Err Ape_Empty
  | first :: _ => if decide (first = FileId_MF) then Err Ape_StartsWithMf else Ok (mkAbsolutePath fids)
  end.

Inductive SelectFileTarget :=
| Sft_AnyByFileId (fid : option FileId)
| Sft_EfUnderCurrentDf (fid : FileId)
| Sft_ByName (aid : Aid)
| Sft_AbsolutePath (path : AbsolutePath).

Definition SelectFileTarget_as_p1 (t : SelectFileTarget) : Z :=
  match t with
  | Sft_AnyByFileId _ => 0x00
  | Sft_EfUnderCurrentDf _ => 0x02
  | Sft_ByName _ => 0x04
  | Sft_AbsolutePath _ => 0x08
  end.

Definition SelectFileTarget_data_len (t : SelectFileTarget) : Z :=
  match t with
  | Sft_AnyByFileId None => 0
  | Sft_AnyByFileId (Some _) | Sft_EfUnderCurrentDf _ => 2
  | Sft_ByName aid => len (Aid_as_bytes aid)
  | Sft_AbsolutePath path => Z.of_nat (length (ap_fids path)) * 2
  end.

Definition SelectFileTarget_append_data (t : SelectFileTarget) (out : bytes) : bytes :=
  match t with
  | Sft_AnyByFileId None => out
  | Sft_AnyByFileId (Some fid) | Sft_EfUnderCurrentDf fid => out ++ FileId_as_bytes fid
  | Sft_ByName aid => out ++ Aid_as_bytes aid
  | Sft_AbsolutePath path => foldl (λ out fid, out ++ FileId_as_bytes fid) out (ap_fids path)
  end.

Inductive SelectFileResponseMode := Srm_Fci | Srm_Fcp | Srm_None.
Definition SelectFileResponseMode_as_p2 (m : SelectFileResponseMode) : Z :=
  match m with Srm_Fci => 0x00 | Srm_Fcp => 0x04 | Srm_None => 0x0C end.

Record SelectFile := mkSelectFile
  { sf_class : ApduClass; sf_target : SelectFileTarget; sf_response_mode : SelectFileResponseMode }.

Definition SelectFile_into_apdu (c : SelectFile) : CommandApdu :=
  let data_len := SelectFileTarget_data_len (sf_target c) in
  let out := [ApduClass_as_byte (sf_class c); 0xA4; SelectFileTarget_as_p1 (sf_target c);
              SelectFileResponseMode_as_p2 (sf_response_mode c)] in
  let out := if data_len >? 0
             then SelectFileTarget_append_data (sf_target c) (out ++ [u8_saturating data_len])
             else out in
  let out := match sf_response_mode c with Srm_Fci | Srm_Fcp => out ++ [0x00] | Srm_None => out end in
  CommandApdu_new out.

(** ** GET RESPONSE, READ BINARY, INTERNAL AUTHENTICATE *)

Record GetResponse := mkGetResponse { gr_class : ApduClass; gr_le : Z }.
Definition GetResponse_into_apdu (c : GetResponse) : CommandApdu :=
  CommandApdu_allow_wrong_le_retry
    (CommandApdu_new [ApduClass_as_byte (gr_class c); 0xC0; 0x00; 0x00; gr_le c]).

(** The field is [[u8; 2]]. *)
Record SelectEfNoFci := mkSelectEfNoFci { se_fid : FileId }.
Definition SelectEfNoFci_into_apdu (c : SelectEfNoFci) : CommandApdu :=
  CommandApdu_new [0x00; 0xA4; 0x02; 0x0C; 0x02; fid_hi (se_fid c); fid_lo (se_fid c)].

Record DirectOffset15 := mkDirectOffset15 { DirectOffset15_0 : Z }.
Inductive DirectOffset15Error := Do15_OutOfRange (got max : Z).
Definition DirectOffset15_MAX : Z := 0x7FFF.
Definition DirectOffset15_try_new (offset : Z) : result DirectOffset15Error DirectOffset15 :=
  if offset >? DirectOffset15_MAX then Err (Do15_OutOfRange offset DirectOffset15_MAX)
  else Ok (mkDirectOffset15 offset).
Definition DirectOffset15_as_u16 (o : DirectOffset15) : Z := DirectOffset15_0 o.
Definition DirectOffset15_as_p1 (o : DirectOffset15) : Z := u16_hi (DirectOffset15_0 o).
Definition DirectOffset15_as_p2 (o : DirectOffset15) : Z := u16_lo (DirectOffset15_0 o).

Inductive ReadBinaryOffset :=
| Rbo_Direct (o : DirectOffset15)
| Rbo_BySfi (sfi : Sfi) (offset : Z).
Definition ReadBinaryOffset_as_p1 (o : ReadBinaryOffset) : Z :=
  match o with Rbo_Direct o => DirectOffset15_as_p1 o | Rbo_BySfi sfi _ => Sfi_as_p1_short_form sfi end.
Definition ReadBinaryOffset_as_p2 (o : ReadBinaryOffset) : Z :=
  match o with Rbo_Direct o => DirectOffset15_as_p2 o | Rbo_BySfi _ offset => offset end.

Record ReadBinary := mkReadBinary { rb_class : ApduClass; rb_offset : ReadBinaryOffset; rb_le : Z }.
Definition ReadBinary_into_apdu (c : ReadBinary) : CommandApdu :=
  CommandApdu_allow_wrong_le_retry
    (CommandApdu_new [ApduClass_as_byte (rb_class c); 0xB0; ReadBinaryOffset_as_p1 (rb_offset c);
                      ReadBinaryOffset_as_p2 (rb_offset c); rb_le c]).

Record ReadBinaryBySfi := mkReadBinaryBySfi { rs_sfi : Sfi; rs_offset : Z; rs_le : Z }.
Definition ReadBinaryBySfi_into_apdu (c : ReadBinaryBySfi) : CommandApdu :=
  CommandApdu_allow_wrong_le_retry
    (CommandApdu_new [0x00; 0xB0; Sfi_as_p1_short_form (rs_sfi c); rs_offset c; rs_le c]).

Record InternalAuthenticate := mkInternalAuthenticate { ia_challenge : bytes }.
Definition InternalAuthenticate_into_apdu (c : InternalAuthenticate) : CommandApdu :=
  CommandApdu_new ([0x00; 0x88; 0x00; 0x00; 0x08] ++ ia_challenge c ++ [0x00]).

Record ReadBinaryByOffset := mkReadBinaryByOffset { ro_offset : Z; ro_le : Z }.
Definition ReadBinaryByOffset_into_apdu (c : ReadBinaryByOffset) : CommandApdu :=
  let p1 := Z.land (u16_hi (ro_offset c)) 0x7F in
  let p2 := u16_lo (ro_offset c) in
  CommandApdu_allow_wrong_le_retry (CommandApdu_new [0x00; 0xB0; p1; p2; ro_le c]).

(** ** Specification: short-form commands *)

Record ShortApdu := mkShortApdu
  { sa_cla : Z; sa_ins : Z; sa_p1 : Z; sa_p2 : Z; sa_data : bytes; sa_le : option Z }.

(** The wire form of ISO 7816-4 cases 1 to 4 with one-byte lengths. *)
Definition short_apdu_bytes (a : ShortApdu) : bytes :=
  [sa_cla a; sa_ins a; sa_p1 a; sa_p2 a]
  ++ (match sa_data a with [] => [] | _ => len (sa_data a) :: sa_data a end)
  ++ (match sa_le a with None => [] | Some le => [le] end).

(** At most 255 data bytes: what one length octet can say. *)
Definition short_apdu_wf (a : ShortApdu) : Prop := len (sa_data a) ≤ 255.

(** Where a READ BINARY reads, as the card decodes P1-P2: bit 8 of P1 set
    selects a short file identifier and an offset byte, clear a 15-bit offset
    into the current file. *)
Inductive ReadAddress := Ra_Current (offset : Z) | Ra_Sfi (sfi offset : Z).
Definition read_address (p1 p2 : Z) : ReadAddress :=
  if Z.testbit p1 7 then Ra_Sfi (Z.land p1 0x1F) p2 else Ra_Current (u16_from_be p1 p2).

Inductive TypedCommand :=
| Tc_SelectByAidNoFci (c : SelectByAidNoFci)
| Tc_SelectByAidWithFci (c : SelectByAidWithFci)
| Tc_SelectFile (c : SelectFile)
| Tc_SelectEfNoFci (c : SelectEfNoFci)
| Tc_GetResponse (c : GetResponse)
| Tc_ReadBinary (c : ReadBinary)
| Tc_ReadBinaryBySfi (c : ReadBinaryBySfi)
| Tc_ReadBinaryByOffset (c : ReadBinaryByOffset)
| Tc_InternalAuthenticate (c : InternalAuthenticate).

Definition typed_apdu (c : TypedCommand) : CommandApdu :=
  match c with
  | Tc_SelectByAidNoFci c => SelectByAidNoFci_into_apdu c
  | Tc_SelectByAidWithFci c => SelectByAidWithFci_into_apdu c
  | Tc_SelectFile c => SelectFile_into_apdu c
  | Tc_SelectEfNoFci c => SelectEfNoFci_into_apdu c
  | Tc_GetResponse c => GetResponse_into_apdu c
  | Tc_ReadBinary c => ReadBinary_into_apdu c
  | Tc_ReadBinaryBySfi c => ReadBinaryBySfi_into_apdu c
  | Tc_ReadBinaryByOffset c => ReadBinaryByOffset_into_apdu c
  | Tc_InternalAuthenticate c => InternalAuthenticate_into_apdu c
  end.

(** The values the typed constructors and the Rust types admit. *)
Definition Aid_wf (a : Aid) : Prop := Aid_new (Aid_bytes a) = Ok a.
Definition Sfi_wf (s : Sfi) : Prop := 0 ≤ Sfi_0 s ∧ Sfi_new (Sfi_0 s) = Ok s.

Definition SelectFileTarget_wf (t : SelectFileTarget) : Prop :=
  match t with
  | Sft_ByName aid => Aid_wf aid
  | Sft_AbsolutePath path => AbsolutePath_new (ap_fids path) = Ok path
  | _ => True
  end.

Definition SelectFileTarget_data (t : SelectFileTarget) : bytes :=
  match t with
  | Sft_AnyByFileId None => []
  | Sft_AnyByFileId (Some fid) | Sft_EfUnderCurrentDf fid => FileId_as_bytes fid
  | Sft_ByName aid => Aid_bytes aid
  | Sft_AbsolutePath path => concat (FileId_as_bytes <$> ap_fids path)
  end.

Definition typed_meaning (c : TypedCommand) : ShortApdu :=
  match c with
  | Tc_SelectByAidNoFci c => mkShortApdu 0x00 0xA4 0x04 0x0C (Aid_bytes (sn_aid c)) None
  | Tc_SelectByAidWithFci c =>
      mkShortApdu (ApduClass_as_byte (sw_class c)) 0xA4 0x04
        (SelectOccurrence_as_p2 (sw_occurrence c)) (Aid_bytes (sw_aid c)) (Some 0x00)
  | Tc_SelectFile c =>
      mkShortApdu (ApduClass_as_byte (sf_class c)) 0xA4 (SelectFileTarget_as_p1 (sf_target c))
        (SelectFileResponseMode_as_p2 (sf_response_mode c)) (SelectFileTarget_data (sf_target c))
        (match sf_response_mode c with Srm_None => None | _ => Some 0x00 end)
  | Tc_SelectEfNoFci c => mkShortApdu 0x00 0xA4 0x02 0x0C (FileId_as_bytes (se_fid c)) None
  | Tc_GetResponse c => mkShortApdu (ApduClass_as_byte (gr_class c)) 0xC0 0x00 0x00 [] (Some (gr_le c))
  | Tc_ReadBinary c =>
      mkShortApdu (ApduClass_as_byte (rb_class c)) 0xB0 (ReadBinaryOffset_as_p1 (rb_offset c))
        (ReadBinaryOffset_as_p2 (rb_offset c)) [] (Some (rb_le c))
  | Tc_ReadBinaryBySfi c =>
      mkShortApdu 0x00 0xB0 (Sfi_as_p1_short_form (rs_sfi c)) (rs_offset c) [] (Some (rs_le c))
  | Tc_ReadBinaryByOffset c =>
      mkShortApdu 0x00 0xB0 (Z.land (u16_hi (ro_offset c)) 0x7F) (u16_lo (ro_offset c)) []
        (Some (ro_le c))
  | Tc_InternalAuthenticate c => mkShortApdu 0x00 0x88 0x00 0x00 (ia_challenge c) (Some 0x00)
  end.

Definition typed_wf (c : TypedCommand) : Prop :=
  match c with
  | Tc_SelectByAidNoFci c => Aid_wf (sn_aid c)
  | Tc_SelectByAidWithFci c => Aid_wf (sw_aid c)
  | Tc_SelectFile c => SelectFileTarget_wf (sf_target c)
  | Tc_InternalAuthenticate c => len (ia_challenge c) = 8
  | _ => True
  end.

(** Whether the command is one of the reads a wrong Le may be corrected for. *)
Definition typed_is_read (c : TypedCommand) : bool :=
  match c with
  | Tc_GetResponse _ | Tc_ReadBinary _ | Tc_ReadBinaryBySfi _ | Tc_ReadBinaryByOffset _ => true
  | _ => false
  end.

(** ** Lemmas *)

Lemma Aid_new_ok bs a : Aid_new bs = Ok a ↔ 5 ≤ len bs ≤ 16 ∧ a = mkAid bs.
Proof.
  unfold Aid_new. destruct (Z.leb_spec 5 (len bs)), (Z.leb_spec (len bs) 16); simpl;
    split; intros; simplify_eq; try done; destruct_and?; try lia; by subst.
Qed.

Lemma Aid_wf_len a : Aid_wf a → 5 ≤ len (Aid_bytes a) ≤ 16.
Proof. by intros [? _]%Aid_new_ok. Qed.

Lemma u8_saturating_id n : n ≤ 255 → u8_saturating n = n.
Proof. intros. unfold u8_saturating, u8_max. destruct (Z.leb_spec n 255); lia. Qed.

Lemma append_data_data t out :
  SelectFileTarget_append_data t out = out ++ SelectFileTarget_data t.
Proof.
  destruct t as [[fid|]|fid|aid|[fids]]; simpl; [done|by rewrite app_nil_r|done|done|].
  revert out; induction fids as [|f fids IH]; intros out; simpl; [by rewrite app_nil_r|].
  rewrite IH. by rewrite <- app_assoc.
Qed.

Lemma data_len_data t : SelectFileTarget_data_len t = len (SelectFileTarget_data t).
Proof.
  destruct t as [[fid|]|fid|aid|[fids]]; simpl; try done.
  induction fids as [|f fids IH]; [done|]. csimpl. unfold len in *. simpl. lia.
Qed.

Lemma short_apdu_bytes_data cla ins p1 p2 data le :
  data ≠ [] →
  short_apdu_bytes (mkShortApdu cla ins p1 p2 data le)
  = [cla; ins; p1; p2] ++ len data :: data ++ (match le with None => [] | Some le => [le] end).
Proof. intros. unfold short_apdu_bytes. simpl. by destruct data. Qed.

Lemma SelectFile_wire c :
  SelectFileTarget_data_len (sf_target c) ≤ 255 →
  cmd_bytes (SelectFile_into_apdu c) = short_apdu_bytes (typed_meaning (Tc_SelectFile c)).
Proof.
  intros Hlen. unfold SelectFile_into_apdu, short_apdu_bytes, typed_meaning. simpl.
  rewrite append_data_data, u8_saturating_id by done. rewrite data_len_data.
  destruct (SelectFileTarget_data (sf_target c)) as [|b l]; [by destruct (sf_response_mode c)|].
  rewrite len_cons. pose proof (len_nonneg l).
  match goal with |- context [?x >? 0] => destruct (Z.gtb_spec x 0); [|lia] end.
  destruct (sf_response_mode c); simpl; by rewrite ?app_nil_r.
Qed.

(** Every typed command has the wire form of the short APDU it stands for
    (class, instruction, parameters, command data behind its exact length, and
    the expected length where there is one), with at most 255 data bytes, and
    exactly the commands that read are marked for one wrong-Le retry. SELECT
    by path needs the path to fit: at most 127 identifiers. *)
Theorem typed_commands_wire_form c (Hwf : typed_wf c)
  (Hpath : ∀ s, c = Tc_SelectFile s → SelectFileTarget_data_len (sf_target s) ≤ 255) :
  cmd_bytes (typed_apdu c) = short_apdu_bytes (typed_meaning c)
  ∧ short_apdu_wf (typed_meaning c)
  ∧ cmd_wrong_le_retry (typed_apdu c) = typed_is_read c.
Proof.
  unfold short_apdu_wf.
  destruct c as [[aid]|[cls occ aid]|s|c|c|c|c|c|[ch]]; simpl in *; try (split_and!; done).
  - apply Aid_wf_len in Hwf. split_and!; [|lia|done].
    unfold SelectByAidNoFci_into_apdu. simpl. unfold Aid_as_bytes. rewrite u8_saturating_id by lia.
    rewrite short_apdu_bytes_data, app_nil_r by (intros Hn; rewrite Hn in Hwf; vm_compute in Hwf; destruct Hwf; congruence). done.
  - apply Aid_wf_len in Hwf. split_and!; [|lia|done].
    unfold SelectByAidWithFci_into_apdu. simpl. unfold Aid_as_bytes. rewrite u8_saturating_id by lia.
    rewrite short_apdu_bytes_data by (intros Hn; rewrite Hn in Hwf; vm_compute in Hwf; destruct Hwf; congruence). done.
  - specialize (Hpath s eq_refl). split_and!; [by apply SelectFile_wire| |done].
    by rewrite <- data_len_data.
  - split_and!; [|lia|done]. unfold InternalAuthenticate_into_apdu. simpl.
    rewrite short_apdu_bytes_data by (intros Hn; rewrite Hn in Hwf; vm_compute in Hwf; done). by rewrite Hwf.
Qed.

Lemma typed_commands_wire_form_witness :
  let c := Tc_SelectFile (mkSelectFile Cla_Plain
             (Sft_AbsolutePath (mkAbsolutePath [FileId_PKCS15_DF; mkFileId 0x43 0x31])) Srm_Fci) in
  cmd_bytes (typed_apdu c) = [0x00; 0xA4; 0x08; 0x00; 4; 0x50; 0x15; 0x43; 0x31; 0x00].
Proof.
  intros c. refine (proj1 (typed_commands_wire_form c _ _)); [by vm_compute|].
  intros s [= <-]. by vm_compute.
Defined.

(** The length octet of SELECT by path. [AbsolutePath::new] admits a path
    of any length; the octet equals the data length exactly when the path has
    at most 127 identifiers, and saturates at 255 in front of longer data. *)
Theorem select_path_length_octet path cls mode
  (Hpath : AbsolutePath_new (ap_fids path) = Ok path) :
  let n := Z.of_nat (length (ap_fids path)) in
  let wire := cmd_bytes (SelectFile_into_apdu (mkSelectFile cls (Sft_AbsolutePath path) mode)) in
  ∃ lc, wire !! 4%nat = Some lc
    ∧ (lc = len (SelectFileTarget_data (Sft_AbsolutePath path)) ↔ n ≤ 127)
    ∧ (127 < n → lc = 255 ∧ 256 ≤ len (SelectFileTarget_data (Sft_AbsolutePath path))).
Proof.
  intros n wire. destruct path as [[|f fids]]; [done|]. clear Hpath.
  set (t := Sft_AbsolutePath (mkAbsolutePath (f :: fids))) in *.
  assert (SelectFileTarget_data_len t = 2 * n) as Hn by (unfold t, n; simpl; lia).
  assert (0 < n) by (unfold n; simpl; lia).
  exists (u8_saturating (2 * n)). split.
  - unfold wire, SelectFile_into_apdu. cbn [sf_target sf_class sf_response_mode].
    rewrite append_data_data. rewrite Hn. destruct (Z.gtb_spec (2 * n) 0); [|lia].
    rewrite <- app_assoc. by destruct mode.
  - rewrite <- data_len_data, Hn. unfold u8_saturating, u8_max.
    destruct (Z.leb_spec (2 * n) 255); lia.
Qed.

Lemma select_path_length_octet_witness :
  AbsolutePath_new (replicate 128 (mkFileId 1 2)) = Ok (mkAbsolutePath (replicate 128 (mkFileId 1 2)))
  ∧ cmd_bytes (SelectFile_into_apdu (mkSelectFile Cla_Plain
      (Sft_AbsolutePath (mkAbsolutePath (replicate 128 (mkFileId 1 2)))) Srm_None)) !! 4%nat = Some 255.
Proof.
  split; [by vm_compute|].
  destruct (select_path_length_octet (mkAbsolutePath (replicate 128 (mkFileId 1 2))) Cla_Plain Srm_None)
    as (lc & Hlc & _ & Hlong); [by vm_compute|].
  rewrite Hlc. f_equal. apply Hlong. by vm_compute.
Defined.

Lemma testbit7_small x : 0 ≤ x < 128 → Z.testbit x 7 = false.
Proof.
  intros Hx. destruct (decide (x = 0)) as [->|]; [done|].
  apply Z.bits_above_log2; [lia|]. apply Z.log2_lt_pow2; simpl; lia.
Qed.

Lemma DirectOffset15_try_new_ok x o :
  DirectOffset15_try_new x = Ok o ↔ x ≤ 0x7FFF ∧ o = mkDirectOffset15 x.
Proof.
  unfold DirectOffset15_try_new, DirectOffset15_MAX. destruct (Z.gtb_spec x 0x7FFF);
    split; intros; simplify_eq; destruct_and?; try lia; by subst.
Qed.

Lemma sfi_short_form s :
  Sfi_wf s → Z.testbit (Sfi_as_p1_short_form s) 7 = true ∧ Z.land (Sfi_as_p1_short_form s) 0x1F = Sfi_0 s.
Proof.
  destruct s as [n]. unfold Sfi_wf, Sfi_as_p1_short_form, Sfi_new. simpl. intros [H0 H].
  destruct (Z.eqb_spec n 0); [done|]. destruct (Z.gtb_spec n 30); [done|].
  assert (n ∈ seqZ 1 30) as Hin by (apply elem_of_seqZ; lia). clear -Hin.
  assert (Forall (λ n, Z.testbit (Z.lor 128 n) 7 = true ∧ Z.land (Z.lor 128 n) 31 = n) (seqZ 1 30)) as Hall
    by (apply Forall_fold_right; by vm_compute).
  rewrite Forall_forall in Hall. exact (Hall n (proj1 (list_elem_of_In _ _) Hin)).
Qed.

(** A READ BINARY reads where its offset says. For an offset built by the
    typed constructors, P1-P2 decode to exactly that short file identifier and
    offset, or that direct offset; [ReadBinaryByOffset], whose offset is any
    16-bit value, never turns into a short-identifier read: it reads at its
    offset modulo 2^15, its own offset whenever that is below 2^15. *)
Theorem read_binary_addresses :
  (∀ x o, is_u16 x → DirectOffset15_try_new x = Ok o →
     read_address (ReadBinaryOffset_as_p1 (Rbo_Direct o)) (ReadBinaryOffset_as_p2 (Rbo_Direct o))
     = Ra_Current x)
  ∧ (∀ s off, Sfi_wf s →
     read_address (ReadBinaryOffset_as_p1 (Rbo_BySfi s off)) (ReadBinaryOffset_as_p2 (Rbo_BySfi s off))
     = Ra_Sfi (Sfi_0 s) off)
  ∧ (∀ x le, is_u16 x →
     ∃ p1 p2, cmd_bytes (ReadBinaryByOffset_into_apdu (mkReadBinaryByOffset x le)) = [0x00; 0xB0; p1; p2; le]
       ∧ read_address p1 p2 = Ra_Current (x mod 2 ^ 15)).
Proof.
  unfold read_address. split_and!.
  - intros x o Hx [Hle ->]%DirectOffset15_try_new_ok.
    unfold ReadBinaryOffset_as_p1, ReadBinaryOffset_as_p2, DirectOffset15_as_p1, DirectOffset15_as_p2.
    cbn [DirectOffset15_0]. unfold is_u16 in Hx.
    rewrite testbit7_small, u16_hi_lo; [done|]. unfold u16_hi. rewrite shiftr_8.
    split; [apply Z.div_pos; lia|apply Z.div_lt_upper_bound; lia].
  - intros s off Hs. unfold ReadBinaryOffset_as_p1, ReadBinaryOffset_as_p2.
    by destruct (sfi_short_form s Hs) as [-> ->].
  - intros x le Hx. exists (Z.land (u16_hi x) 0x7F), (u16_lo x). split; [done|].
    assert (Z.land (u16_hi x) 0x7F = (x / 256) mod 128) as ->.
    { unfold u16_hi. rewrite shiftr_8. change 0x7F with (Z.ones 7). by rewrite Z.land_ones by lia. }
    pose proof (Z.mod_pos_bound (x / 256) 128). rewrite testbit7_small by lia.
    rewrite u16_from_be_arith by apply is_byte_u16_lo. unfold u16_lo. rewrite land_255. f_equal.
    change (2 ^ 15) with (256 * 128). rewrite Z.rem_mul_r by lia. lia.
Qed.

Lemma read_binary_addresses_witness :
  read_address (ReadBinaryOffset_as_p1 (Rbo_Direct (mkDirectOffset15 0x7FFF)))
    (ReadBinaryOffset_as_p2 (Rbo_Direct (mkDirectOffset15 0x7FFF))) = Ra_Current 0x7FFF.
Proof. by apply (proj1 read_binary_addresses 0x7FFF (mkDirectOffset15 0x7FFF)). Defined.

Lemma wrong_le_mark_cleared c le c' :
  CommandApdu_corrected_wrong_le c le = Some c' →
  cmd_wrong_le_retry c' = false ∧ cmd_wrong_le_retry c = true
  ∧ ∃ front last, cmd_bytes c = front ++ [last] ∧ cmd_bytes c' = front ++ [le].
Proof.
  unfold CommandApdu_corrected_wrong_le. destruct (cmd_wrong_le_retry c); [|done]. simpl.
  destruct (cmd_bytes c) as [|x front _] using rev_ind; [done|].
  rewrite set_last_snoc. simpl. intros [= <-]. simpl. split_and!; [done..|by exists front, x].
Qed.

(** The wrong-Le correction is one-shot and changes nothing but the last
    byte: it exists only for a command with the mark, the corrected command
    has the same bytes up to the last one, which is the card's hint, and it
    carries no mark, so it cannot be corrected again. *)
Theorem wrong_le_corrected_once c le c' (H : CommandApdu_corrected_wrong_le c le = Some c') :
  cmd_wrong_le_retry c = true
  ∧ (∃ front last, cmd_bytes c = front ++ [last] ∧ cmd_bytes c' = front ++ [le])
  ∧ ∀ le', CommandApdu_corrected_wrong_le c' le' = None.
Proof.
  apply wrong_le_mark_cleared in H as (Hc' & Hc & Hbs). split_and!; [done..|].
  intros le'. unfold CommandApdu_corrected_wrong_le. by rewrite Hc'.
Qed.

Lemma wrong_le_corrected_once_witness :
  CommandApdu_corrected_wrong_le (GetResponse_into_apdu (mkGetResponse Cla_Plain 0)) 0x10
  = Some (mkCommandApdu [0x00; 0xC0; 0x00; 0x00; 0x10] false)
  ∧ CommandApdu_corrected_wrong_le (mkCommandApdu [0x00; 0xC0; 0x00; 0x00; 0x10] false) 9 = None.
Proof.
  split; [done|].
  refine (proj2 (proj2 (wrong_le_corrected_once
    (GetResponse_into_apdu (mkGetResponse Cla_Plain 0)) 0x10 _ _)) 9). by vm_compute.
Defined.
