(* ===== verification/PcscT0.v ===== *)
(** The PC/SC exchange loop: crates/refineid-lib-pcsc/src/lib.rs.
    [t0_case3_from_short_case4] turns a short case-4 command into the case-3
    form a T=0 card takes; [run_t0_exchange] sends a command, retries it once
    with a corrected Le on [6Cxx] and drains a [61xx] answer by GET RESPONSE.
    The reader itself (the pcsc crate) is the parameter [t0_transmit]. *)

From S2P Require Import Prelude Ber StatusWord Transport Apdu.

Definition EXTENDED_RESPONSE_DATA_MAX_BYTES : Z := Z.shiftl 1 16.
Definition SW1_BYTES_AVAILABLE : Z := 0x61.
Definition SW1_WRONG_LE : Z := 0x6C.

Definition t0_case3_from_short_case4 (apdu : CommandApdu) : option CommandApdu :=
  let bs := CommandApdu_as_bytes apdu in
  lc ← bs !! 4%nat;
  if lc =? 0 then None
  else
    let case4_len := 5 + lc + 1 in
    if negb (len bs =? case4_len) then None
    else Some (CommandApdu_new (take (length bs - 1) bs)).

(** [split_last_chunk::<2>]. *)
Definition split_last_chunk_2 (l : bytes) : option (bytes * (Z * Z)) :=
  match reverse l with
  | sw2 :: sw1 :: r => Some (reverse r, (sw1, sw2))
  | _ => None
  end.

Inductive PcscError (PE : Type) :=
| Pcsc (e : PE)
| Pcsc_Transport (s : string).
Arguments Pcsc {PE} e.
Arguments Pcsc_Transport {PE} s.

Inductive TransmitBreak (PE : Type) :=
| Tb_Outcome (o : TransportOutcome)
| Tb_Error (e : PcscError PE).
Arguments Tb_Outcome {PE} o.
Arguments Tb_Error {PE} e.

Definition chain_too_long : string := "61xx GET RESPONSE chain exceeded 64 KiB".
Definition chain_stalled : string :=
  "card signalled 61xx but returned no bytes (stalled chain)".

Section exchange.
Context {X PE : Type}.
(** [T0Transmitter::transmit]: the response bytes in the receive buffer, or
    the state transition or error that ends the exchange. *)
Variable t0_transmit : bytes → act X (TransmitBreak PE) bytes.

(** What a [match transmitter.transmit(..)] does with a break. *)
Definition on_break (b : TransmitBreak PE) : result (PcscError PE) TransportOutcome :=
  match b with Tb_Outcome o => Ok o | Tb_Error e => Err e end.

(** The inner loop; [None] when [fuel] rounds were not enough. *)
Fixpoint t0_chain (fuel : nat) (combined : bytes) (next_le : Z) (x : X)
  : option (X * result (PcscError PE) TransportOutcome) :=
  match fuel with
  | O => None
  | S fuel =>
      let get_resp := GetResponse_into_apdu (mkGetResponse Cla_Plain next_le) in
      match t0_transmit (CommandApdu_as_bytes get_resp) x with
      | (x, Err b) => Some (x, on_break b)
      | (x, Panic) => Some (x, Panic)
      | (x, Ok chain_resp) =>
          match split_last_chunk_2 chain_resp with
          | None => Some (x, Ok To_ProtocolDesync)
          | Some (chain_body, (chained_sw1, chained_sw2)) =>
              let progressed := negb (len chain_body =? 0) in
              let next_len := len combined + len chain_body in
              if next_len >? EXTENDED_RESPONSE_DATA_MAX_BYTES
              then Some (x, Err (Pcsc_Transport chain_too_long))
              else
                let combined := combined ++ chain_body in
                if chained_sw1 =? SW1_BYTES_AVAILABLE then
                  if negb progressed then Some (x, Err (Pcsc_Transport chain_stalled))
                  else t0_chain fuel combined chained_sw2 x
                else Some (x, Ok (To_Response (mkResponseApdu combined chained_sw1 chained_sw2)))
          end
      end
  end.

(** The outer loop. *)
Fixpoint t0_loop (fuel : nat) (sent : CommandApdu) (x : X)
  : option (X * result (PcscError PE) TransportOutcome) :=
  match fuel with
  | O => None
  | S fuel' =>
      match t0_transmit (CommandApdu_as_bytes sent) x with
      | (x, Err b) => Some (x, on_break b)
      | (x, Panic) => Some (x, Panic)
      | (x, Ok response) =>
          match split_last_chunk_2 response with
          | None => Some (x, Ok To_ProtocolDesync)
          | Some (body, (sw1, sw2)) =>
              match (if sw1 =? SW1_WRONG_LE then CommandApdu_corrected_wrong_le sent sw2 else None) with
              | Some corrected => t0_loop fuel' corrected x
              | None =>
                  if sw1 =? SW1_BYTES_AVAILABLE then t0_chain fuel body sw2 x
                  else Some (x, Ok (To_Response (mkResponseApdu body sw1 sw2)))
              end
          end
      end
  end.

(** One round more than the bytes a chain may carry, and one for the retry. *)
Definition t0_fuel : nat := Z.to_nat (EXTENDED_RESPONSE_DATA_MAX_BYTES + 3).
Definition run_t0_exchange (apdu : CommandApdu) (x : X)
  : option (X * result (PcscError PE) TransportOutcome) := t0_loop t0_fuel apdu x.
End exchange.

(** The transmitter with a log of the byte strings given to it. *)
Definition logged_t0 {X PE} (t0_transmit : bytes → act X (TransmitBreak PE) bytes)
  : bytes → act (list bytes * X) (TransmitBreak PE) bytes :=
  λ bs '(log, x), let '(x', r) := t0_transmit bs x in ((log ++ [bs], x'), r).

(** [impl CardTransport for PcscCard]: [pcsc::Error] and the transaction are
    the pcsc crate's; three of its errors are state transitions of the card. *)
Inductive Protocol := Protocol_T0 | Protocol_T1.
#[export] Instance Protocol_eq_dec : EqDecision Protocol.
Proof. solve_decision. Defined.

Section pcsc_card.
Context {X PE : Type} `{EqDecision PE}.
Variables NoSmartcard RemovedCard ResetCard : PE.
Variable transaction : X → X * result PE unit.
Variable raw_transmit : bytes → act X PE bytes.
Variable protocol : Protocol.

Definition pcsc_break (e : PE) : TransmitBreak PE :=
  if decide (e = NoSmartcard) then Tb_Outcome To_NoCard
  else if decide (e = RemovedCard) then Tb_Outcome To_ReaderRemoved
  else if decide (e = ResetCard) then Tb_Outcome To_CardReset
  else Tb_Error (Pcsc e).

Definition PcscTransmitter_transmit (bs : bytes) : act X (TransmitBreak PE) bytes :=
  act_map_err pcsc_break (raw_transmit bs).

Definition PcscCard_transmit_outcome (apdu : CommandApdu) (x : X)
  : option (X * result (PcscError PE) TransportOutcome) :=
  match transaction x with
  | (x, Err e) => Some (x, on_break (pcsc_break e))
  | (x, Panic) => Some (x, Panic)
  | (x, Ok _) =>
      let t0_command := if decide (protocol = Protocol_T0)
                        then t0_case3_from_short_case4 apdu else None in
      let physical_command := default apdu t0_command in
      run_t0_exchange PcscTransmitter_transmit physical_command x
  end.
End pcsc_card.

(** ** Lemmas *)

Lemma split_last_chunk_2_Some l body sw1 sw2 :
  split_last_chunk_2 l = Some (body, (sw1, sw2)) ↔ l = body ++ [sw1; sw2].
Proof.
  unfold split_last_chunk_2. split.
  - destruct (reverse l) as [|b [|a r]] eqn:Hr; intros [= <- <- <-].
    rewrite <- (reverse_involutive l), Hr, !reverse_cons. by rewrite <- app_assoc.
  - intros ->. rewrite reverse_app. simpl. by rewrite reverse_involutive.
Qed.

Lemma ext_max : EXTENDED_RESPONSE_DATA_MAX_BYTES = 65536.
Proof. done. Qed.

Section exchange_lemmas.
Context {X PE : Type} (t0_transmit : bytes → act X (TransmitBreak PE) bytes).

(** A chain makes progress on every round it continues. *)
Lemma t0_chain_total fuel combined le x :
  EXTENDED_RESPONSE_DATA_MAX_BYTES + 1 - len combined < Z.of_nat fuel → (0 < fuel)%nat →
  ∃ r, t0_chain t0_transmit fuel combined le x = Some r.
Proof.
  revert combined le x; induction fuel as [|fuel IH]; intros combined le x Hf Hpos; [lia|].
  cbn [t0_chain]. destruct (t0_transmit _ x) as [x' [resp|b|]]; [|eauto..].
  destruct (split_last_chunk_2 resp) as [[body [sw1 sw2]]|]; [|eauto].
  destruct (Z.gtb_spec (len combined + len body) EXTENDED_RESPONSE_DATA_MAX_BYTES) as [|Hle]; [eauto|].
  destruct (sw1 =? SW1_BYTES_AVAILABLE); [|eauto].
  destruct (Z.eqb_spec (len body) 0) as [|Hne]; [simpl; eauto|]. simpl.
  pose proof (len_nonneg body). apply IH; rewrite ?len_app; lia.
Qed.

Lemma t0_loop_total fuel sent x :
  EXTENDED_RESPONSE_DATA_MAX_BYTES + 2 < Z.of_nat fuel →
  ∃ r, t0_loop t0_transmit fuel sent x = Some r.
Proof.
  intros Hf. assert (∀ f s x, cmd_wrong_le_retry s = false →
    EXTENDED_RESPONSE_DATA_MAX_BYTES + 1 < Z.of_nat f →
    ∃ r, t0_loop t0_transmit f s x = Some r) as Hplain.
  { clear. intros f s x Hs Hf. destruct f as [|f]; [rewrite ext_max in *; lia|].
    cbn [t0_loop]. destruct (t0_transmit _ x) as [x' [resp|b|]]; [|eauto..].
    destruct (split_last_chunk_2 resp) as [[body [sw1 sw2]]|]; [|eauto].
    unfold CommandApdu_corrected_wrong_le. rewrite Hs. cbn [negb].
    assert (∀ b, (if (b : bool) then None else None) = @None CommandApdu) as -> by (by intros []).
    destruct (sw1 =? SW1_BYTES_AVAILABLE); [|eauto].
    apply t0_chain_total; pose proof (len_nonneg body); lia. }
  destruct fuel as [|f]; [rewrite ext_max in *; lia|].
  cbn [t0_loop]. destruct (t0_transmit _ x) as [x' [resp|b|]]; [|eauto..].
  destruct (split_last_chunk_2 resp) as [[body [sw1 sw2]]|]; [|eauto].
  destruct (if sw1 =? SW1_WRONG_LE then _ else _) as [c|] eqn:Hc.
  - destruct (sw1 =? SW1_WRONG_LE); [|done]. apply Hplain; [|lia].
    by destruct (wrong_le_mark_cleared _ _ _ Hc).
  - destruct (sw1 =? SW1_BYTES_AVAILABLE); [|eauto].
    apply t0_chain_total; pose proof (len_nonneg body); lia.
Qed.
End exchange_lemmas.

(** The commands of one exchange: the command itself, possibly once more with
    a corrected Le, then GET RESPONSEs. *)
Definition get_response_bytes (le : Z) : bytes := [0x00; 0xC0; 0x00; 0x00; le].

Section exchange_trace.
Context {X PE : Type} (t0_transmit : bytes → act X (TransmitBreak PE) bytes).

Lemma logged_t0_eq bs log x :
  logged_t0 t0_transmit bs (log, x) = ((log ++ [bs], (t0_transmit bs x).1), (t0_transmit bs x).2).
Proof. unfold logged_t0. by destruct (t0_transmit bs x). Qed.

Lemma t0_chain_trace fuel combined le log x log' x' r :
  t0_chain (logged_t0 t0_transmit) fuel combined le (log, x) = Some ((log', x'), r) →
  ∃ les, log' = log ++ (get_response_bytes <$> les).
Proof.
  revert combined le log x; induction fuel as [|fuel IH]; intros combined le log x; [done|].
  cbn [t0_chain]. rewrite logged_t0_eq.
  change (CommandApdu_as_bytes (GetResponse_into_apdu (mkGetResponse Cla_Plain le)))
    with (get_response_bytes le).
  assert (∃ les, log ++ [get_response_bytes le] = log ++ (get_response_bytes <$> les)) as Hone
    by (by exists [le]).
  destruct (t0_transmit _ x) as [x1 [resp|b|]]; cbn [fst snd]; [|intros [= <- <- <-]; done..].
  destruct (split_last_chunk_2 resp) as [[body [sw1 sw2]]|]; [|intros [= <- <- <-]; done].
  destruct (_ >? _); [intros [= <- <- <-]; done|].
  destruct (sw1 =? _); [|intros [= <- <- <-]; done].
  destruct (negb _); [intros [= <- <- <-]; done|].
  intros (les & ->)%IH. exists (le :: les). csimpl. by rewrite <- app_assoc.
Qed.

Lemma t0_chain_size fuel combined le x x' rsp :
  t0_chain t0_transmit fuel combined le x = Some (x', Ok (To_Response rsp)) →
  (∀ bs y y' resp, t0_transmit bs y = (y', Err (Tb_Outcome (To_Response resp))) → False) →
  len (rsp_body rsp) ≤ EXTENDED_RESPONSE_DATA_MAX_BYTES.
Proof.
  intros H Hb. revert combined le x H; induction fuel as [|fuel IH]; intros combined le x; [done|].
  cbn [t0_chain]. destruct (t0_transmit _ x) as [x1 [resp|[o|e]|]] eqn:Ht; cbn [on_break]; [|naive_solver..].
  destruct (split_last_chunk_2 resp) as [[body [sw1 sw2]]|]; [|done].
  destruct (Z.gtb_spec (len combined + len body) EXTENDED_RESPONSE_DATA_MAX_BYTES); [done|].
  destruct (sw1 =? _).
  - destruct (negb _); [done|]. apply IH.
  - intros [= <- <-]. simpl. by rewrite len_app.
Qed.
End exchange_trace.

Section exchange_theorems.
Context {X PE : Type} (t0_transmit : bytes → act X (TransmitBreak PE) bytes).

Lemma t0_loop_trace fuel sent log x log' x' r :
  t0_loop (logged_t0 t0_transmit) fuel sent (log, x) = Some ((log', x'), r) →
  (cmd_wrong_le_retry sent = true ∨ cmd_wrong_le_retry sent = false) →
  ∃ retry les, log' = log ++ [cmd_bytes sent] ++ retry ++ (get_response_bytes <$> les)
    ∧ (retry = [] ∨ ∃ le c, CommandApdu_corrected_wrong_le sent le = Some c ∧ retry = [cmd_bytes c]).
Proof.
  revert sent log x; induction fuel as [|fuel IH]; intros sent log x; [done|].
  cbn [t0_loop]. rewrite logged_t0_eq. intros H _.
  assert (∃ retry les, log ++ [cmd_bytes sent] = log ++ [cmd_bytes sent] ++ retry
    ++ (get_response_bytes <$> les)
    ∧ (retry = [] ∨ ∃ le c, CommandApdu_corrected_wrong_le sent le = Some c ∧ retry = [cmd_bytes c]))
    as Hone by (exists [], []; split; [by rewrite app_nil_r|by left]).
  revert H. unfold CommandApdu_as_bytes.
  destruct (t0_transmit _ x) as [x1 [resp|b|]]; cbn [fst snd]; [|intros [= <- <- <-]; done..].
  destruct (split_last_chunk_2 resp) as [[body [sw1 sw2]]|]; [|intros [= <- <- <-]; done].
  destruct (if sw1 =? SW1_WRONG_LE then _ else _) as [c|] eqn:Hc.
  - destruct (sw1 =? SW1_WRONG_LE); [|done]. pose proof Hc as (Hmark & _)%wrong_le_mark_cleared.
    intros H. destruct (IH _ _ _ H) as (retry & les & -> & Hretry); [by right|].
    assert (retry = []) as ->.
    { destruct Hretry as [->|(le & c' & Hc' & _)]; [done|].
      unfold CommandApdu_corrected_wrong_le in Hc'. by rewrite Hmark in Hc'. }
    exists [cmd_bytes c], les. split; [by rewrite <- !app_assoc|]. right. by exists sw2, c.
  - destruct (sw1 =? SW1_BYTES_AVAILABLE); [|intros [= <- <- <-]; done].
    intros (les & ->)%t0_chain_trace. exists [], les. split; [by rewrite <- app_assoc|by left].
Qed.

Lemma t0_loop_size fuel sent x x' rsp :
  t0_loop t0_transmit fuel sent x = Some (x', Ok (To_Response rsp)) →
  (∀ bs y y' resp, t0_transmit bs y = (y', Err (Tb_Outcome (To_Response resp))) → False) →
  (∀ bs y y' buf, t0_transmit bs y = (y', Ok buf) → len buf ≤ EXTENDED_RESPONSE_DATA_MAX_BYTES) →
  len (rsp_body rsp) ≤ EXTENDED_RESPONSE_DATA_MAX_BYTES.
Proof.
  intros H Hb Hbuf. revert sent x H; induction fuel as [|fuel IH]; intros sent x; [done|].
  cbn [t0_loop]. destruct (t0_transmit _ x) as [x1 [resp|[o|e]|]] eqn:Ht; cbn [on_break]; [|naive_solver..].
  destruct (split_last_chunk_2 resp) as [[body [sw1 sw2]]|] eqn:Hs; [|done].
  destruct (if _ =? _ then _ else _) as [c|]; [apply IH|].
  destruct (_ =? _).
  - intros H. by eapply t0_chain_size.
  - intros [= <- <-]. simpl. apply Hbuf in Ht. apply split_last_chunk_2_Some in Hs as ->.
    rewrite len_app in Ht. unfold len in *. simpl in *. lia.
Qed.
End exchange_theorems.

(** C2: the T=0 exchange loop always ends: whatever the reader answers, for
    any command, [run_t0_exchange] returns (its inner loop makes progress on
    every [61xx] round and stops at 64 KiB, its outer loop repeats once). *)
Theorem t0_exchange_terminates {X PE} (t0_transmit : bytes → act X (TransmitBreak PE) bytes) apdu x :
  ∃ x' r, run_t0_exchange t0_transmit apdu x = Some (x', r).
Proof.
  destruct (t0_loop_total t0_transmit t0_fuel apdu x) as [[x' r] Hr]; [|by exists x', r].
  unfold t0_fuel. rewrite Z2Nat.id by (rewrite ext_max; lia). lia.
Qed.

(** What one exchange puts on the wire: the command, at most one repeat of
    it that differs in its last byte and only when the command is marked for
    it, then only GET RESPONSE commands; and a response it returns carries at
    most 64 KiB, provided the reader's own answers fit its 64 KiB buffer. *)
Theorem t0_exchange_sends {X PE} (t0_transmit : bytes → act X (TransmitBreak PE) bytes)
  apdu log x log' x' r
  (Hrun : run_t0_exchange (logged_t0 t0_transmit) apdu (log, x) = Some ((log', x'), r)) :
  (∃ retry les, log' = log ++ [cmd_bytes apdu] ++ retry ++ (get_response_bytes <$> les)
    ∧ (retry = [] ∨ ∃ le c, CommandApdu_corrected_wrong_le apdu le = Some c ∧ retry = [cmd_bytes c])
    ∧ (cmd_wrong_le_retry apdu = false → retry = []))
  ∧ ((∀ bs y y' o, t0_transmit bs y = (y', Err (Tb_Outcome o)) → ∀ rsp, o ≠ To_Response rsp) →
     (∀ bs y y' buf, t0_transmit bs y = (y', Ok buf) → len buf ≤ EXTENDED_RESPONSE_DATA_MAX_BYTES) →
     ∀ rsp, r = Ok (To_Response rsp) → len (rsp_body rsp) ≤ EXTENDED_RESPONSE_DATA_MAX_BYTES).
Proof.
  split.
  - destruct (t0_loop_trace _ _ _ _ _ _ _ _ Hrun) as (retry & les & -> & Hretry).
    { destruct (cmd_wrong_le_retry apdu); auto. }
    exists retry, les. split_and!; [done|done|]. intros Hm.
    destruct Hretry as [|(le & c & Hc & _)]; [done|].
    unfold CommandApdu_corrected_wrong_le in Hc. by rewrite Hm in Hc.
  - intros Hb Hbuf rsp ->. eapply t0_loop_size; [exact Hrun|..].
    + intros bs [l y] [l' y'] resp. rewrite logged_t0_eq.
      destruct (t0_transmit bs y) as [y1 r1] eqn:Ht. simpl. intros [= _ _ ->].
      by apply (Hb _ _ _ _ Ht resp).
    + intros bs [l y] [l' y'] buf. rewrite logged_t0_eq.
      destruct (t0_transmit bs y) as [y1 r1] eqn:Ht. simpl. intros [= _ _ ->]. by eapply Hbuf.
Qed.

(** A reader that plays back a list of answers, then times out. *)
Definition scripted_reader (bs : bytes) : act (list bytes) (TransmitBreak unit) bytes :=
  λ s, match s with [] => ([], Err (Tb_Outcome To_TimeoutUnknownState)) | r :: s' => (s', Ok r) end.

Lemma t0_exchange_sends_witness :
  run_t0_exchange (logged_t0 scripted_reader) (GetResponse_into_apdu (mkGetResponse Cla_Plain 0))
    ([], [[0x6C; 0x03]; [1; 0x61; 0x02]; [2; 3; 0x90; 0x00]])
  = Some (([get_response_bytes 0; get_response_bytes 3; get_response_bytes 2], []),
          Ok (To_Response (mkResponseApdu [1; 2; 3] 0x90 0x00)))
  ∧ ∃ retry les, [get_response_bytes 0; get_response_bytes 3; get_response_bytes 2]
      = [] ++ [get_response_bytes 0] ++ retry ++ (get_response_bytes <$> les)
      ∧ (retry = [] ∨ ∃ le c, CommandApdu_corrected_wrong_le
           (GetResponse_into_apdu (mkGetResponse Cla_Plain 0)) le = Some c ∧ retry = [cmd_bytes c])
      ∧ (cmd_wrong_le_retry (GetResponse_into_apdu (mkGetResponse Cla_Plain 0)) = false → retry = []).
Proof.
  split; [by vm_compute|].
  refine (proj1 (t0_exchange_sends scripted_reader
            (GetResponse_into_apdu (mkGetResponse Cla_Plain 0)) [] [[0x6C; 0x03]; [1; 0x61; 0x02]; [2; 3; 0x90; 0x00]]
            _ [] (Ok (To_Response (mkResponseApdu [1; 2; 3] 0x90 0x00))) _)).
  by vm_compute.
Defined.

(** The T=0 form of a command: a short case-4 command (data and an
    expected length) becomes the case-3 command with the same header and data,
    and every other short command is sent as it is. *)
Theorem t0_case3_drops_le a mark (Hok : bytes_ok (short_apdu_bytes a)) :
  t0_case3_from_short_case4 (mkCommandApdu (short_apdu_bytes a) mark)
  = if bool_decide (sa_data a ≠ [] ∧ is_Some (sa_le a))
    then Some (CommandApdu_new (short_apdu_bytes
                 (mkShortApdu (sa_cla a) (sa_ins a) (sa_p1 a) (sa_p2 a) (sa_data a) None)))
    else None.
Proof.
  destruct a as [cla ins p1 p2 data le]. unfold short_apdu_bytes in *.
  unfold t0_case3_from_short_case4. cbn [sa_cla sa_ins sa_p1 sa_p2 sa_data sa_le] in *.
  destruct data as [|d data], le as [le|]; cbn -[bool_decide len Z.add Z.eqb take Nat.sub] in *.
  - rewrite bool_decide_eq_false_2 by (intros [[] ?]; done).
    assert (is_byte le) as Hle by (unfold bytes_ok in Hok; rewrite !Forall_cons_iff in Hok; tauto).
    unfold is_byte in Hle. destruct (Z.eqb_spec le 0); [done|].
    destruct (Z.eqb_spec (len [cla; ins; p1; p2; le]) (5 + le + 1)) as [H|]; [|done].
    unfold len in H. simpl in H. lia.
  - by rewrite bool_decide_eq_false_2 by (intros [[] ?]; done).
  - rewrite bool_decide_eq_true_2 by (split; [done|eauto]). rewrite len_cons.
    pose proof (len_nonneg data). destruct (Z.eqb_spec (1 + len data) 0); [lia|].
    rewrite !len_cons, len_app. change (len [le]) with 1.
    match goal with |- context [?x =? ?y] => destruct (Z.eqb_spec x y); [|lia] end.
    cbn [negb]. do 2 f_equal. rewrite length_app. cbn [length].
    replace (_ - 1)%nat with (6 + length data)%nat by lia. cbn.
    by rewrite take_app_length, app_nil_r.
  - rewrite bool_decide_eq_false_2 by (intros [_ []]; done). rewrite app_nil_r, len_cons.
    pose proof (len_nonneg data). destruct (Z.eqb_spec (1 + len data) 0); [done|].
    rewrite !len_cons.
    match goal with |- context [?x =? ?y] => destruct (Z.eqb_spec x y); [lia|done] end.
Qed.

Lemma t0_case3_drops_le_witness :
  t0_case3_from_short_case4 (mkCommandApdu [0x00; 0xA4; 0x04; 0x00; 2; 7; 8; 0x00] false)
  = Some (CommandApdu_new [0x00; 0xA4; 0x04; 0x00; 2; 7; 8]).
Proof. apply (t0_case3_drops_le (mkShortApdu 0x00 0xA4 0x04 0x00 [7; 8] (Some 0x00)) false). by_decide. Defined.
