(* ===== verification/SecureMessaging.v ===== *)
(** Secure messaging: crates/refineid-lib-core/src/secure_messaging.rs, the send
    sequence counter [Ssc] of crates/refineid-lib-core/src/pace.rs and the
    wrappers of crates/refineid-lib-core/src/crypto/symmetric.rs it calls. The
    AES-256 block, CBC and CMAC functions (the aes, cbc and cmac crates) are the
    class [AesCrypto]; what is used of them is [AesCryptoLaws]. The
    specification is a card-side peer: [card_open] and [card_protect]. *)

From S2P Require Import Prelude Ber StatusWord Transport Apdu.

(** ** The cryptographic crates *)

Class AesCrypto := {
  aes_encrypt_block : bytes → bytes → bytes;
  cbc_encrypt : bytes → bytes → bytes → bytes;
  cbc_decrypt : bytes → bytes → bytes → bytes;
  aes_cmac : bytes → bytes → bytes
}.

Definition AES_BLOCK : Z := 16.

(** CBC without padding is invertible and keeps the length of a whole number
    of blocks; a CMAC tag is one block. *)
Class AesCryptoLaws `{AesCrypto} := {
  cbc_decrypt_encrypt k iv p : len p mod AES_BLOCK = 0 → cbc_decrypt k iv (cbc_encrypt k iv p) = p;
  len_cbc_encrypt k iv p : len p mod AES_BLOCK = 0 → len (cbc_encrypt k iv p) = len p;
  length_aes_cmac k m : length (aes_cmac k m) = 16%nat
}.

(** ** The send sequence counter: 16 bytes, big-endian *)

Definition Ssc := list Z.
Definition Ssc_INITIAL : Ssc := replicate 16 0.

(** The loop over [iter_mut().rev()]. *)
Fixpoint ssc_carry (rev : bytes) : bytes :=
  match rev with
  | [] => []
  | b :: rest => if b =? u8_max then 0 :: ssc_carry rest else ((b + 1) mod 256) :: rest
  end.
Definition Ssc_increment (s : Ssc) : Ssc := reverse (ssc_carry (reverse s)).

(** ** Data objects and errors *)

Definition TAG_DO87 : Z := 0x87.
Definition TAG_DO97 : Z := 0x97.
Definition TAG_DO99 : Z := 0x99.
Definition TAG_DO8E : Z := 0x8E.
Definition LE_AS_MUCH_AS_CARD_HAS : Z := 0x00.
Definition DO87_PADDING_INDICATOR : Z := 0x01.
Definition ISO7816_PAD_MARKER : Z := 0x80.
Definition ISO7816_PAD_FILLER : Z := 0x00.

Inductive SmError (TE : Type) :=
| Sm_Transport (e : TE)
| Sm_Malformed (what : string)
| Sm_MacMismatch
| Sm_CommandTooLong.
Arguments Sm_Transport {TE} e.
Arguments Sm_Malformed {TE} what.
Arguments Sm_MacMismatch {TE}.
Arguments Sm_CommandTooLong {TE}.

#[export] Instance SmError_TransportErrorExt `{TransportErrorExt TE} : TransportErrorExt (SmError TE) :=
  λ e, match e with
       | Sm_Transport error => error_kind error
       | Sm_Malformed _ | Sm_MacMismatch => Tek_ProtocolDesync
       | Sm_CommandTooLong => Tek_Backend
       end.

(** ** Padding and short APDUs ([SmHelpers]) *)

(** The [while] loop; sixteen rounds reach the next block boundary. *)
Fixpoint pad_fill (fuel : nat) (out : bytes) : bytes :=
  match fuel with
  | O => out
  | S fuel => if len out mod AES_BLOCK =? 0 then out else pad_fill fuel (out ++ [ISO7816_PAD_FILLER])
  end.
Definition iso7816_4_pad (data : bytes) : bytes := pad_fill 16 (data ++ [ISO7816_PAD_MARKER]).

(** [iter().rev().take_while(..).count()]. *)
Fixpoint leading_zeros (l : bytes) : Z :=
  match l with
  | [] => 0
  | b :: l' => if b =? ISO7816_PAD_FILLER then 1 + leading_zeros l' else 0
  end.

Definition iso7816_4_unpad (data : bytes) : bytes :=
  let trailing_zeros := leading_zeros (reverse data) in
  let marker_index_from_end := trailing_zeros + 1 in
  if len data <? marker_index_from_end then data
  else
    let marker_pos := len data - marker_index_from_end in
    match zget marker_pos data with
    | Some b => if b =? ISO7816_PAD_MARKER then default data (zslice 0 marker_pos data) else data
    | None => data
    end.

Definition decode_short_apdu (apdu : bytes) : option (bytes * option Z) :=
  if len apdu =? 4 then Some ([], None)
  else if len apdu =? 5 then (λ le, ([], Some le)) <$> zget 4 apdu
  else
    lc ← zget 4 apdu;
    let body_start := 5 in
    let body_end := body_start + lc in
    data ← zslice body_start body_end apdu;
    if len apdu =? body_end then Some (data, None)
    else if len apdu =? body_end + 1 then
      le ← zget body_end apdu; Some (data, Some le)
    else None.

(** ** The wrappers of crypto/symmetric.rs *)

Inductive UnalignedInput := mkUnalignedInput (n : Z).

Section crypto.
Context `{AesCrypto}.

Definition aes256_cbc_encrypt_no_padding (key iv plaintext : bytes) : result UnalignedInput bytes :=
  if negb (len plaintext mod AES_BLOCK =? 0) then Err (mkUnalignedInput (len plaintext))
  else Ok (cbc_encrypt key iv plaintext).

Definition aes256_cbc_decrypt_no_padding (key iv ciphertext : bytes) : result UnalignedInput bytes :=
  if negb (len ciphertext mod AES_BLOCK =? 0) then Err (mkUnalignedInput (len ciphertext))
  else Ok (cbc_decrypt key iv ciphertext).

Definition aes256_ecb_encrypt_block (key block : bytes) : bytes := aes_encrypt_block key block.
Definition aes256_cmac_truncated (key message : bytes) : bytes := take 8 (aes_cmac key message).
End crypto.

(** ** The transport *)

Record SmTransport (T : Type) := mkSmTransport
  { sm_inner : T; sm_k_enc : bytes; sm_k_mac : bytes; sm_ssc : Ssc }.
Arguments mkSmTransport {T} _ _ _ _.
Arguments sm_inner {T} _.
Arguments sm_k_enc {T} _.
Arguments sm_k_mac {T} _.
Arguments sm_ssc {T} _.

Record PaceSession := mkPaceSession { pace_k_enc : bytes; pace_k_mac : bytes; pace_ssc : Ssc }.

Definition SmTransport_new {T} (inner : T) (session : PaceSession) : SmTransport T :=
  mkSmTransport inner (pace_k_enc session) (pace_k_mac session) (pace_ssc session).
Definition SmTransport_replace_session {T} (session : PaceSession) (t : SmTransport T) : SmTransport T :=
  mkSmTransport (sm_inner t) (pace_k_enc session) (pace_k_mac session) (pace_ssc session).
Definition SmTransport_rekey {T} (k_enc k_mac : bytes) (t : SmTransport T) : SmTransport T :=
  mkSmTransport (sm_inner t) k_enc k_mac Ssc_INITIAL.
Definition SmTransport_increment_ssc {T} (t : SmTransport T) : SmTransport T :=
  mkSmTransport (sm_inner t) (sm_k_enc t) (sm_k_mac t) (Ssc_increment (sm_ssc t)).

(** A data object that is left out when there is no value. *)
Definition opt_tlv {E} (tag : Z) (o : option bytes) : result E bytes :=
  match o with None => Ok [] | Some v => tlv tag v end.

Section sm.
Context `{AesCrypto} {T TE : Type}.

(** The command data object, the expected-length object, the MAC over them. *)
Definition sm_do87 (k_enc : bytes) (ssc : Ssc) (data : bytes) : result (SmError TE) bytes :=
  match data with
  | [] => Ok []
  | _ =>
      let padded := iso7816_4_pad data in
      let iv := aes256_ecb_encrypt_block k_enc ssc in
      let? cipher := map_err (λ _, Sm_Malformed "SM wrap: padded plaintext not block-aligned")
                       (aes256_cbc_encrypt_no_padding k_enc iv padded) in
      tlv TAG_DO87 ([DO87_PADDING_INDICATOR] ++ cipher)
  end.

Definition sm_do97 (le : option Z) : result (SmError TE) bytes :=
  match le with None => Ok [] | Some le_byte => tlv TAG_DO97 [le_byte] end.

Definition sm_do_mac (k_mac : bytes) (ssc : Ssc) (header do87 do97 : bytes) : result (SmError TE) bytes :=
  let mac_input := iso7816_4_pad (ssc ++ iso7816_4_pad header ++ do87 ++ do97) in
  tlv TAG_DO8E (aes256_cmac_truncated k_mac mac_input).

Definition SmTransport_wrap (plain : bytes) : act (SmTransport T) (SmError TE) bytes := λ t,
  match plain with
  | b0 :: ins :: p1 :: p2 :: _ =>
      let cla := Z.lor b0 0x0C in
      match decode_short_apdu plain with
      | None => (t, Err (Sm_Malformed "APDU does not match a short-form case"))
      | Some (data, le) =>
          let t := SmTransport_increment_ssc t in
          (t,
           let? do87 := sm_do87 (sm_k_enc t) (sm_ssc t) data in
           let? do97 := sm_do97 le in
           let? do_mac := sm_do_mac (sm_k_mac t) (sm_ssc t) [cla; ins; p1; p2] do87 do97 in
           let body_len := len do87 + len do97 + len do_mac in
           if body_len >? 255 then Err Sm_CommandTooLong
           else Ok ([cla; ins; p1; p2; u8_saturating body_len] ++ do87 ++ do97 ++ do_mac
                    ++ [LE_AS_MUCH_AS_CARD_HAS]))
      end
  | _ => (t, Err (Sm_Malformed "APDU shorter than 4-byte header"))
  end.

(** The loop of [unwrap]: the last value of each data object wins. *)
Record SmObjects := mkSmObjects { so_do87 : option bytes; so_do99 : option bytes; so_mac : option bytes }.

Fixpoint sm_collect (items : list (result BerError BerTlvAny)) (o : SmObjects)
  : result (SmError TE) SmObjects :=
  match items with
  | [] => Ok o
  | Ok t :: items =>
      let o := if any_tag t =? TAG_DO87 then mkSmObjects (Some (any_value t)) (so_do99 o) (so_mac o)
               else if any_tag t =? TAG_DO99 then mkSmObjects (so_do87 o) (Some (any_value t)) (so_mac o)
               else if any_tag t =? TAG_DO8E then mkSmObjects (so_do87 o) (so_do99 o) (Some (any_value t))
               else o in
      sm_collect items o
  | Err _ :: _ => Err (Sm_Malformed "BER parse failed")
  | Panic :: _ => Panic
  end.

(** The cryptogram of DO87 under the session key and the counter. *)
Definition sm_decrypt (k_enc : bytes) (ssc : Ssc) (v : bytes) : result (SmError TE) bytes :=
  match v with
  | [] => Err (Sm_Malformed "DO87 empty")
  | indicator :: cipher_bytes =>
      if negb (indicator =? DO87_PADDING_INDICATOR) then Err (Sm_Malformed "DO87 missing 0x01 indicator")
      else if negb (len cipher_bytes mod AES_BLOCK =? 0)
      then Err (Sm_Malformed "DO87 cipher not whole blocks")
      else
        let iv := aes256_ecb_encrypt_block k_enc ssc in
        let? plain := map_err (λ _, Sm_Malformed "DO87 cipher not whole blocks")
                        (aes256_cbc_decrypt_no_padding k_enc iv cipher_bytes) in
        Ok (iso7816_4_unpad plain)
  end.

(** [unwrap] after the counter has advanced to [ssc]. *)
Definition sm_unwrap_at (k_enc k_mac : bytes) (ssc : Ssc) (response : bytes)
  : result (SmError TE) (bytes * Z) :=
  let? o := sm_collect (BerTlvIter_items response) (mkSmObjects None None None) in
  let? do99 := ok_or (so_do99 o) (Sm_Malformed "no DO99") in
  let? do_mac := ok_or (so_mac o) (Sm_Malformed "no DO8E") in
  if negb (len do99 =? 2) then Err (Sm_Malformed "DO99 not 2 bytes")
  else if negb (len do_mac =? 8) then Err (Sm_Malformed "DO8E not 8 bytes")
  else
    let? do87_tlv := opt_tlv TAG_DO87 (so_do87 o) in
    let? do99_tlv := tlv TAG_DO99 do99 in
    if negb (bool_decide (aes256_cmac_truncated k_mac
               (iso7816_4_pad (ssc ++ do87_tlv ++ do99_tlv)) = do_mac)) then Err Sm_MacMismatch
    else
      let? body := match so_do87 o with
                   | Some v => sm_decrypt k_enc ssc v
                   | None => Ok []
                   end in
      Ok (body, be_fold do99).

Definition SmTransport_unwrap (response : bytes) : act (SmTransport T) (SmError TE) (bytes * Z) := λ t,
  let t := SmTransport_increment_ssc t in
  (t, sm_unwrap_at (sm_k_enc t) (sm_k_mac t) (sm_ssc t) response).

Context `{CardTransport T TE}.

(** A command through the inner transport. *)
Definition sm_inner_transmit (c : CommandApdu) : act (SmTransport T) TE TransportOutcome := λ t,
  let '(inner, r) := transmit_outcome c (sm_inner t) in
  (mkSmTransport inner (sm_k_enc t) (sm_k_mac t) (sm_ssc t), r).

#[export] Instance SmTransport_CardTransport : CardTransport (SmTransport T) (SmError TE) := λ apdu,
  do! wrapped := SmTransport_wrap (CommandApdu_as_bytes apdu) in
  do! outcome := act_map_err Sm_Transport (sm_inner_transmit (CommandApdu_from wrapped)) in
  match outcome with
  | To_Response raw =>
      match rsp_body raw with
      | [] => act_ret (To_Response raw)
      | _ =>
          do! (body, sw) := SmTransport_unwrap (rsp_body raw) in
          act_ret (To_Response (mkResponseApdu body (u16_hi sw) (u16_lo sw)))
      end
  | other => act_ret other
  end.
End sm.

(** ** Specification: the card's side of the channel

    [card_open] authenticates and decrypts a protected command, [card_protect]
    protects an answer, [SmPeer] is a card that does both around a plain card,
    one counter step per direction. *)

(** The value of the first data object with a tag, if the buffer parses. *)
Definition do_value (tag : Z) (items : list (result BerError BerTlvAny)) : option bytes :=
  find_map (λ i, match i with
                 | Ok t => if any_tag t =? tag then Some (any_value t) else None
                 | _ => None
                 end) items.

Section peer.
Context `{AesCrypto}.

Definition card_open (k_enc k_mac : bytes) (ssc : Ssc) (apdu : bytes) : option ShortApdu :=
  match apdu with
  | cla :: ins :: p1 :: p2 :: lc :: rest =>
      body ← zslice 0 lc rest;
      guard (rest = body ++ [LE_AS_MUCH_AS_CARD_HAS]);;
      protected ← zslice 0 (len body - 10) body;
      let items := BerTlvIter_items body in
      mac ← do_value TAG_DO8E items;
      guard (mac = take 8 (aes_cmac k_mac
                     (iso7816_4_pad (ssc ++ iso7816_4_pad [cla; ins; p1; p2] ++ protected))));;
      data ← match do_value TAG_DO87 items with
             | None => Some []
             | Some (0x01 :: cipher) =>
                 Some (iso7816_4_unpad (cbc_decrypt k_enc (aes_encrypt_block k_enc ssc) cipher))
             | Some _ => None
             end;
      le ← match do_value TAG_DO97 items with
           | None => Some None
           | Some [le] => Some (Some le)
           | Some _ => None
           end;
      Some (mkShortApdu cla ins p1 p2 data le)
  | _ => None
  end.

(** The data objects of an answer: DO87 when there is a body, DO99, DO8E. *)
Definition card_protect (k_enc k_mac : bytes) (ssc : Ssc) (r : ResponseApdu)
  : result unit bytes :=
  let? do87 := match rsp_body r with
               | [] => Ok []
               | _ => tlv TAG_DO87
                        (0x01 :: cbc_encrypt k_enc (aes_encrypt_block k_enc ssc) (iso7816_4_pad (rsp_body r)))
               end in
  let? do99 := tlv TAG_DO99 [rsp_sw1 r; rsp_sw2 r] in
  let? do8e := tlv TAG_DO8E (take 8 (aes_cmac k_mac (iso7816_4_pad (ssc ++ do87 ++ do99)))) in
  Ok (do87 ++ do99 ++ do8e).
End peer.

Record SmPeer (T : Type) := mkSmPeer
  { peer_card : T; peer_k_enc : bytes; peer_k_mac : bytes; peer_ssc : Ssc }.
Arguments mkSmPeer {T} _ _ _ _.
Arguments peer_card {T} _.
Arguments peer_k_enc {T} _.
Arguments peer_k_mac {T} _.
Arguments peer_ssc {T} _.

#[export] Instance SmPeer_CardTransport `{AesCrypto} `{CardTransport T TE} : CardTransport (SmPeer T) TE :=
  λ c p,
  let k_enc := peer_k_enc p in
  let k_mac := peer_k_mac p in
  let ssc := Ssc_increment (peer_ssc p) in
  match card_open k_enc k_mac ssc (cmd_bytes c) with
  | None => (mkSmPeer (peer_card p) k_enc k_mac ssc, Ok (reply [] SW_SM_DATA_OBJECTS_INCORRECT))
  | Some a =>
      let '(card', r) := transmit_outcome (CommandApdu_new (short_apdu_bytes a)) (peer_card p) in
      match r with
      | Ok (To_Response rsp) =>
          let ssc := Ssc_increment ssc in
          (mkSmPeer card' k_enc k_mac ssc,
           match card_protect k_enc k_mac ssc rsp with
           | Ok body => Ok (To_Response (mkResponseApdu body 0x90 0x00))
           | _ => Panic
           end)
      | other => (mkSmPeer card' k_enc k_mac ssc, other)
      end
  end.

(** ** Lemmas: the counter *)

Lemma ssc_carry_bytes l : bytes_ok l → bytes_ok (ssc_carry l).
Proof.
  induction l as [|b l IH]; simpl; [done|]. intros [Hb Hl]%Forall_cons_iff.
  destruct (b =? u8_max).
  - apply Forall_cons_2; [unfold is_byte; lia|by apply IH].
  - apply Forall_cons_2; [apply Z.mod_pos_bound; lia|done].
Qed.

Lemma length_ssc_carry l : length (ssc_carry l) = length l.
Proof. induction l as [|b l IH]; simpl; [done|]. destruct (b =? u8_max); simpl; congruence. Qed.

Lemma ssc_carry_value l :
  bytes_ok l →
  be_fold (reverse (ssc_carry l)) = (be_fold (reverse l) + 1) mod 256 ^ Z.of_nat (length l).
Proof.
  induction l as [|b l IH]; [by rewrite Z.mod_1_r|]. intros [Hb Hl]%Forall_cons_iff.
  assert (bytes_ok (reverse l)) as Hr by (by apply Forall_reverse).
  pose proof (be_fold_nonneg _ Hr) as Hbound. rewrite length_reverse in Hbound.
  cbn [ssc_carry length]. rewrite Nat2Z.inj_succ, Z.pow_succ_r by lia.
  rewrite (reverse_cons l), be_fold_app by done.
  unfold u8_max, is_byte in *. destruct (Z.eqb_spec b 255) as [->|Hne].
  - rewrite reverse_cons, be_fold_app by (unfold is_byte; lia). rewrite IH by done.
    rewrite (Z.mul_comm 256 (256 ^ _)).
    replace (be_fold (reverse l) * 256 + 255 + 1) with ((be_fold (reverse l) + 1) * 256) by lia.
    rewrite Z.mul_mod_distr_r by lia. lia.
  - rewrite (Z.mod_small (b + 1)) by lia. rewrite reverse_cons, be_fold_app by (unfold is_byte; lia).
    rewrite Z.mod_small by nia. lia.
Qed.

Lemma Ssc_increment_value s :
  bytes_ok s → length s = 16%nat →
  bytes_ok (Ssc_increment s) ∧ length (Ssc_increment s) = 16%nat
  ∧ be_fold (Ssc_increment s) = (be_fold s + 1) mod 2 ^ 128.
Proof.
  intros Hs Hlen. assert (bytes_ok (reverse s)) as Hr by (by apply Forall_reverse).
  unfold Ssc_increment. split_and!.
  - apply Forall_reverse. by apply ssc_carry_bytes.
  - by rewrite length_reverse, length_ssc_carry, length_reverse.
  - rewrite ssc_carry_value, length_reverse, reverse_involutive, Hlen by done. done.
Qed.

(** ** Lemmas: padding *)

Lemma len_snoc (l : bytes) x : len (l ++ [x]) = len l + 1.
Proof. rewrite len_app. done. Qed.

Lemma pad_fill_spec fuel out :
  AES_BLOCK - len out mod AES_BLOCK ≤ Z.of_nat fuel ∨ len out mod AES_BLOCK = 0 →
  ∃ n, pad_fill fuel out = out ++ replicate n ISO7816_PAD_FILLER
       ∧ len (pad_fill fuel out) mod AES_BLOCK = 0 ∧ Z.of_nat n < 16.
Proof.
  unfold AES_BLOCK. revert out; induction fuel as [|fuel IH]; intros out Hf; cbn [pad_fill].
  - exists 0%nat. rewrite app_nil_r. pose proof (Z.mod_pos_bound (len out) 16). split_and!; [done|lia|lia].
  - destruct (Z.eqb_spec (len out mod AES_BLOCK) 0) as [Hz|Hz].
    + exists 0%nat. rewrite app_nil_r. split_and!; [done|done|lia].
    + unfold AES_BLOCK in *. destruct (IH (out ++ [ISO7816_PAD_FILLER])) as (n & Heq & Hmod & Hn).
      { rewrite len_snoc. pose proof (Z.mod_pos_bound (len out) 16).
        destruct (decide (len out mod 16 = 15)) as [H15|H15].
        - right. rewrite <- Zplus_mod_idemp_l, H15. done.
        - left. rewrite <- (Zplus_mod_idemp_l (len out)). rewrite (Z.mod_small (len out mod 16 + 1)); lia. }
      exists (S n). rewrite Heq in *. rewrite <- app_assoc. simpl. split_and!; [done| |].
      * by rewrite <- app_assoc in Hmod.
      * rewrite !len_app in Hmod. unfold len in *. rewrite length_replicate in Hmod.
        simpl in Hmod. clear -Hz Hmod Hn.
        destruct (decide (n = 15%nat)) as [->|]; [|lia].
        exfalso. apply Hz. rewrite <- Hmod. change (Z.of_nat 1) with 1. change (Z.of_nat 15) with 15.
        rewrite <- Z.add_assoc. change (1 + 15) with (1 * 16). by rewrite Z.mod_add.
Qed.

Lemma iso7816_4_pad_spec data :
  ∃ n, iso7816_4_pad data = data ++ ISO7816_PAD_MARKER :: replicate n ISO7816_PAD_FILLER
       ∧ len (iso7816_4_pad data) mod AES_BLOCK = 0 ∧ Z.of_nat n < 16.
Proof.
  unfold iso7816_4_pad. destruct (pad_fill_spec 16 (data ++ [ISO7816_PAD_MARKER])) as (n & Heq & ? & ?).
  - left. pose proof (Z.mod_pos_bound (len (data ++ [ISO7816_PAD_MARKER])) 16). unfold AES_BLOCK. lia.
  - exists n. rewrite Heq in *. split_and!; [|done|done]. by rewrite <- app_assoc.
Qed.

Lemma len_iso7816_4_pad data : len (iso7816_4_pad data) = (len data / 16 + 1) * 16.
Proof.
  destruct (iso7816_4_pad_spec data) as (n & Heq & Hmod & Hn). rewrite Heq in *. clear Heq.
  rewrite len_app, len_cons in *. unfold AES_BLOCK in *.
  assert (len (replicate n ISO7816_PAD_FILLER) = Z.of_nat n) as Hr by (unfold len; by rewrite length_replicate).
  rewrite Hr in *. pose proof (len_nonneg data). Z.to_euclidean_division_equations. lia.
Qed.

Lemma leading_zeros_replicate n b l :
  b ≠ 0 → leading_zeros (replicate n 0 ++ b :: l) = Z.of_nat n.
Proof.
  intros Hb. induction n as [|n IH]; cbn [replicate app leading_zeros].
  - destruct (Z.eqb_spec b ISO7816_PAD_FILLER); done.
  - rewrite IH. cbn. lia.
Qed.

Lemma iso7816_4_unpad_pad data : iso7816_4_unpad (iso7816_4_pad data) = data.
Proof.
  destruct (iso7816_4_pad_spec data) as (n & Heq & _ & _). rewrite Heq. unfold iso7816_4_unpad.
  rewrite reverse_app, reverse_cons, <- app_assoc, reverse_replicate. cbn [app].
  rewrite leading_zeros_replicate by done.
  assert (len (replicate n ISO7816_PAD_FILLER) = Z.of_nat n) as Hr by (unfold len; by rewrite length_replicate).
  rewrite len_app, len_cons, Hr. pose proof (len_nonneg data).
  match goal with |- context [?x <? ?y] => destruct (Z.ltb_spec x y); [lia|] end.
  replace (len data + (1 + Z.of_nat n) - (Z.of_nat n + 1)) with (len data) by lia.
  unfold len. rewrite zget_app, Z.eqb_refl.
  rewrite (proj2 (zslice_Some _ _ _ data)); [done|]. exists [], (ISO7816_PAD_MARKER :: replicate n 0).
  by split_and!.
Qed.

#[local] Arguments iso7816_4_pad : simpl never.
#[local] Arguments iso7816_4_unpad : simpl never.
#[local] Arguments aes256_cmac_truncated : simpl never.

(** ** Lemmas: short APDUs *)

Lemma zget_4 (a b c d x : Z) l : zget 4 (a :: b :: c :: d :: x :: l) = Some x.
Proof. exact (zget_app [a; b; c; d] x l). Qed.

Lemma zslice_at (a b c l : bytes) i j :
  l = a ++ b ++ c → i = len a → j = len a + len b → zslice i j l = Some b.
Proof. intros -> -> ->. apply zslice_Some. by exists a, c. Qed.

Lemma decode_short_apdu_bytes a : decode_short_apdu (short_apdu_bytes a) = Some (sa_data a, sa_le a).
Proof.
  destruct a as [cla ins p1 p2 data le]. unfold decode_short_apdu, short_apdu_bytes.
  cbn [sa_cla sa_ins sa_p1 sa_p2 sa_data sa_le app].
  destruct data as [|d data]; [by destruct le|]. cbn [app]. rewrite !len_cons, len_app.
  pose proof (len_nonneg data). pose proof (len_nonneg (match le with None => [] | Some le => [le] end)).
  repeat (match goal with |- context [?x =? ?y] => destruct (Z.eqb_spec x y) end; [lia|]).
  rewrite zget_4. cbn [mbind option_bind].
  rewrite (zslice_at [cla; ins; p1; p2; 1 + len data] (d :: data)
             (match le with None => [] | Some le => [le] end));
    [|done|done|by rewrite !len_cons].
  cbn [mbind option_bind]. destruct le as [le|].
  - change (len [le]) with 1.
    match goal with |- context [?x =? ?y] => destruct (Z.eqb_spec x y) end; [lia|].
    match goal with |- context [?x =? ?y] => destruct (Z.eqb_spec x y) end; [|lia].
    rewrite (proj2 (zget_Some _ _ le)); [done|].
    exists ([cla; ins; p1; p2; 1 + len data] ++ d :: data), []. split; [by rewrite <- app_assoc|].
    fold (len ([cla; ins; p1; p2; 1 + len data] ++ d :: data)). rewrite len_app, !len_cons.
    change (len []) with 0. lia.
  - change (len []) with 0.
    match goal with |- context [?x =? ?y] => destruct (Z.eqb_spec x y) end; [done|lia].
Qed.

Lemma short_apdu_bytes_header a :
  ∃ r, short_apdu_bytes a = sa_cla a :: sa_ins a :: sa_p1 a :: sa_p2 a :: r.
Proof. unfold short_apdu_bytes. simpl. eauto. Qed.

(** ** Lemmas: the data objects *)

Section sm_lemmas.
Context `{AesCryptoLaws}.

Lemma tlv_short {E} tag v :
  len v ≤ 127 → @tlv E tag v = Ok (tag :: len v :: v).
Proof.
  intros Hv. unfold tlv, BerEncoder_push_tlv, BerEncoder_push_length, SHORT_FORM_CEILING.
  destruct (Z.ltb_spec (len v) 0x80); [done|lia].
Qed.

Lemma length_cmac_truncated k m : length (aes256_cmac_truncated k m) = 8%nat.
Proof. unfold aes256_cmac_truncated. rewrite length_take, length_aes_cmac. lia. Qed.

Lemma len_cmac_truncated k m : len (aes256_cmac_truncated k m) = 8.
Proof. unfold len. by rewrite length_cmac_truncated. Qed.

Lemma sm_do_mac_ok {TE} k_mac ssc header do87 do97 :
  @sm_do_mac _ TE k_mac ssc header do87 do97
  = Ok (TAG_DO8E :: 8 :: aes256_cmac_truncated k_mac
          (iso7816_4_pad (ssc ++ iso7816_4_pad header ++ do87 ++ do97))).
Proof.
  unfold sm_do_mac. rewrite tlv_short by (rewrite len_cmac_truncated; lia).
  by rewrite len_cmac_truncated.
Qed.

(** The length of the DO87 of a command's data. *)
Definition len_do87 (n : Z) : Z :=
  if n =? 0 then 0
  else let v := 1 + (n / 16 + 1) * 16 in
       v + (if v <? 128 then 2 else if v <=? 255 then 3 else if v <=? 65535 then 4
            else if v <=? 16777215 then 5 else 6).

Lemma tlv_len {E} tag v enc :
  len v ≤ u32_max → @tlv E tag v = Ok enc →
  len enc = len v + (if len v <? 128 then 2 else if len v <=? 255 then 3 else if len v <=? 65535 then 4
            else if len v <=? 16777215 then 5 else 6).
Proof.
  unfold tlv, BerEncoder_push_tlv, BerEncoder_push_length, SHORT_FORM_CEILING, u8_max, u16_max, u32_max.
  change (Z.shiftl 1 24 - 1) with 16777215. intros Hv.
  repeat match goal with
  | |- context [len v <? ?y] => destruct (Z.ltb_spec (len v) y)
  | |- context [len v <=? ?y] => destruct (Z.leb_spec (len v) y)
  end; cbn; intros; simplify_eq; rewrite ?len_cons, ?len_app; lia.
Qed.
Definition opt_len (o : option bytes) : Z := match o with None => 0 | Some v => len v end.
Definition opt_item (tag : Z) (o : option bytes) (n : Z) : list (result BerError BerTlvAny) :=
  match o with None => [] | Some v => [Ok (mkBerTlvAny tag v n)] end.

Lemma opt_tlv_ok {E F} tag o :
  opt_len o ≤ u32_max →
  ∃ enc, @opt_tlv E tag o = Ok enc ∧ @opt_tlv F tag o = Ok enc ∧ len enc ≤ opt_len o + 6.
Proof.
  destruct o as [v|]; simpl; [|by exists []]. intros Hv.
  destruct (@tlv_ok E tag v Hv) as (lb & Hlb & _). exists (tag :: lb ++ v). split; [done|].
  assert (@tlv F tag v = Ok (tag :: lb ++ v)) as HF.
  { revert Hlb. unfold tlv, BerEncoder_push_tlv, BerEncoder_push_length.
    repeat case_match; simpl; intros [= Heq]; by rewrite Heq. }
  split; [done|]. rewrite (tlv_len tag v _ Hv Hlb). repeat case_match; lia.
Qed.

Lemma opt_tlv_items {E} tag o enc rest :
  Z.land tag MULTI_BYTE_TAG_MASK ≠ MULTI_BYTE_TAG_MASK → opt_len o ≤ u32_max →
  len (enc ++ rest) ≤ u64_max → @opt_tlv E tag o = Ok enc →
  BerTlvIter_items (enc ++ rest) = opt_item tag o (len enc) ++ BerTlvIter_items rest.
Proof.
  intros Htag Hlen Hsz Henc. destruct o as [v|]; simpl in *; [|by injection Henc as <-].
  by apply (BerTlvIter_items_tlv (E:=E)).
Qed.

(** The cryptogram: one indicator byte and whole blocks. *)
Definition do87_value (k_enc : bytes) (ssc : Ssc) (data : bytes) : bytes :=
  DO87_PADDING_INDICATOR :: cbc_encrypt k_enc (aes_encrypt_block k_enc ssc) (iso7816_4_pad data).

Lemma pad_aligned data : len (iso7816_4_pad data) mod AES_BLOCK = 0.
Proof. by destruct (iso7816_4_pad_spec data) as (n & _ & ? & _). Qed.

Lemma len_do87_value k_enc ssc data : len (do87_value k_enc ssc data) = 1 + (len data / 16 + 1) * 16.
Proof.
  unfold do87_value. rewrite len_cons, len_cbc_encrypt by apply pad_aligned.
  by rewrite len_iso7816_4_pad.
Qed.

(** The values of DO87 and DO97 of a command. *)
Definition do87_of (k_enc : bytes) (ssc : Ssc) (data : bytes) : option bytes :=
  match data with [] => None | _ => Some (do87_value k_enc ssc data) end.
Definition do97_of (le : option Z) : option bytes := (λ x, [x]) <$> le.

Lemma sm_do87_ok {TE} k_enc ssc data :
  @sm_do87 _ TE k_enc ssc data = opt_tlv TAG_DO87 (do87_of k_enc ssc data).
Proof.
  unfold sm_do87. destruct data as [|d data]; [done|].
  unfold aes256_cbc_encrypt_no_padding. by rewrite pad_aligned.
Qed.

Lemma sm_do97_ok {TE} le : @sm_do97 TE le = opt_tlv TAG_DO97 (do97_of le).
Proof. by destruct le. Qed.

Lemma opt_len_do97 le : opt_len (do97_of le) ≤ 1.
Proof. by destruct le. Qed.

Lemma opt_len_do87 k_enc ssc data : opt_len (do87_of k_enc ssc data) ≤ len data + 17.
Proof.
  destruct data as [|d data]; [done|]. cbn [do87_of opt_len]. rewrite len_do87_value.
  pose proof (len_nonneg (d :: data)). Z.to_euclidean_division_equations. lia.
Qed.


(** ** Lemmas: wrapping and opening a command *)

(** The body of a protected command from its two optional objects. *)
Definition sm_body (k_mac : bytes) (ssc : Ssc) (header do87 do97 : bytes) : bytes :=
  do87 ++ do97 ++ TAG_DO8E :: 8 :: aes256_cmac_truncated k_mac
    (iso7816_4_pad (ssc ++ iso7816_4_pad header ++ do87 ++ do97)).

Lemma len_mac_object k m : len (TAG_DO8E :: 8 :: aes256_cmac_truncated k m) = 10.
Proof. unfold len. simpl. by rewrite length_cmac_truncated. Qed.

Lemma len_sm_body k ssc header do87 do97 :
  len (sm_body k ssc header do87 do97) = len do87 + len do97 + 10.
Proof. unfold sm_body. rewrite !len_app, len_mac_object. lia. Qed.

Lemma wrap_short {T TE} a (t : SmTransport T) do87 do97 :
  let t1 := SmTransport_increment_ssc t in
  let header := [Z.lor (sa_cla a) 0x0C; sa_ins a; sa_p1 a; sa_p2 a] in
  let body := sm_body (sm_k_mac t) (sm_ssc t1) header do87 do97 in
  @opt_tlv (SmError TE) TAG_DO87 (do87_of (sm_k_enc t) (sm_ssc t1) (sa_data a)) = Ok do87 →
  @opt_tlv (SmError TE) TAG_DO97 (do97_of (sa_le a)) = Ok do97 →
  SmTransport_wrap (TE:=TE) (short_apdu_bytes a) t
  = (t1, if len body >? 255 then Err Sm_CommandTooLong
         else Ok (header ++ len body :: body ++ [LE_AS_MUCH_AS_CARD_HAS])).
Proof.
  intros t1 header body H87 H97. unfold SmTransport_wrap at 1.
  destruct (short_apdu_bytes_header a) as [r Hr]. rewrite Hr. rewrite <- Hr, decode_short_apdu_bytes.
  fold t1. f_equal. change (sm_k_enc t1) with (sm_k_enc t). change (sm_k_mac t1) with (sm_k_mac t).
  rewrite sm_do87_ok, H87. cbn [result_bind]. rewrite sm_do97_ok, H97. cbn [result_bind].
  rewrite sm_do_mac_ok. cbn [result_bind]. rewrite len_mac_object.
  replace (len do87 + len do97 + 10) with (len body) by apply len_sm_body.
  destruct (Z.gtb_spec (len body) 255); [done|].
  rewrite u8_saturating_id by lia. unfold body, sm_body, header. by rewrite <- !app_assoc.
Qed.

Lemma items_mac_object k m :
  BerTlvIter_items (TAG_DO8E :: 8 :: aes256_cmac_truncated k m)
  = [Ok (mkBerTlvAny TAG_DO8E (aes256_cmac_truncated k m) 10)].
Proof.
  set (v := aes256_cmac_truncated k m).
  assert (len v = 8) as Hlen by apply len_cmac_truncated.
  pose proof (@tlv_short BerError TAG_DO8E v ltac:(lia)) as Htlv. rewrite Hlen in Htlv.
  assert (len (TAG_DO8E :: 8 :: v) = 10) as Hall by (rewrite !len_cons; lia).
  assert (BerTlvIter_items ((TAG_DO8E :: 8 :: v) ++ []) = Ok (mkBerTlvAny TAG_DO8E v
            (len (TAG_DO8E :: 8 :: v))) :: BerTlvIter_items []) as Hitems.
  { apply (BerTlvIter_items_tlv (E:=BerError)); [done|unfold u32_max; lia| |exact Htlv].
    rewrite app_nil_r, Hall. done. }
  rewrite app_nil_r, Hall, BerTlvIter_items_nil in Hitems. exact Hitems.
Qed.

Lemma items_sm_body {E} k_mac ssc header o87 o97 do87 do97 :
  opt_len o87 ≤ u32_max → opt_len o97 ≤ u32_max →
  @opt_tlv E TAG_DO87 o87 = Ok do87 → @opt_tlv E TAG_DO97 o97 = Ok do97 →
  BerTlvIter_items (sm_body k_mac ssc header do87 do97)
  = opt_item TAG_DO87 o87 (len do87) ++ opt_item TAG_DO97 o97 (len do97)
    ++ [Ok (mkBerTlvAny TAG_DO8E (aes256_cmac_truncated k_mac
             (iso7816_4_pad (ssc ++ iso7816_4_pad header ++ do87 ++ do97))) 10)].
Proof.
  intros Hl87 Hl97 H87 H97.
  assert (len do87 ≤ u32_max + 6) as Hs87.
  { destruct (opt_tlv_ok (E:=E) (F:=unit) TAG_DO87 o87 Hl87) as (e & He & _ & ?). rewrite H87 in He. simplify_eq. lia. }
  assert (len do97 ≤ u32_max + 6) as Hs97.
  { destruct (opt_tlv_ok (E:=E) (F:=unit) TAG_DO97 o97 Hl97) as (e & He & _ & ?). rewrite H97 in He. simplify_eq. lia. }
  unfold sm_body.
  rewrite (opt_tlv_items (E:=E) TAG_DO87 o87);
    [|done|done|rewrite !len_app, len_mac_object; unfold u32_max, u64_max in *; lia|done].
  rewrite (opt_tlv_items (E:=E) TAG_DO97 o97);
    [|done|done|rewrite !len_app, len_mac_object; unfold u32_max, u64_max in *; lia|done].
  by rewrite items_mac_object.
Qed.

Lemma card_open_body {E} k_enc k_mac ssc cla ins p1 p2 data le do87 do97 :
  len data ≤ 255 →
  @opt_tlv E TAG_DO87 (do87_of k_enc ssc data) = Ok do87 →
  @opt_tlv E TAG_DO97 (do97_of le) = Ok do97 →
  let body := sm_body k_mac ssc [cla; ins; p1; p2] do87 do97 in
  card_open k_enc k_mac ssc (cla :: ins :: p1 :: p2 :: len body :: body ++ [LE_AS_MUCH_AS_CARD_HAS])
  = Some (mkShortApdu cla ins p1 p2 data le).
Proof.
  intros Hdata H87 H97 body. unfold card_open.
  rewrite (zslice_at [] body [LE_AS_MUCH_AS_CARD_HAS]) by done. cbn [mbind option_bind].
  rewrite option_guard_True by done. cbn [mbind option_bind].
  assert (len body = len do87 + len do97 + 10) as Hbody by apply len_sm_body.
  rewrite (zslice_at [] (do87 ++ do97) (TAG_DO8E :: 8 :: aes256_cmac_truncated k_mac
    (iso7816_4_pad (ssc ++ iso7816_4_pad [cla; ins; p1; p2] ++ do87 ++ do97))));
    [|by unfold body, sm_body; rewrite <- app_assoc|done|rewrite Hbody, len_app; change (len []) with 0; lia].
  cbn [mbind option_bind].
  pose proof (opt_len_do87 k_enc ssc data). pose proof (opt_len_do97 le).
  pose proof (items_sm_body (E:=E) k_mac ssc [cla; ins; p1; p2] (do87_of k_enc ssc data) (do97_of le)
    do87 do97 ltac:(unfold u32_max; lia) ltac:(unfold u32_max; lia) H87 H97) as Hitems.
  fold body in Hitems. rewrite Hitems.
  unfold do_value. destruct data as [|d data], le as [le|]; cbn;
    rewrite option_guard_True by done; cbn; try done;
    rewrite cbc_decrypt_encrypt by apply pad_aligned; by rewrite iso7816_4_unpad_pad.
Qed.

(** ** Lemmas: a protected answer *)

Lemma card_protect_ok {E} k_enc k_mac ssc r :
  len (rsp_body r) ≤ 65536 →
  ∃ do87, @opt_tlv E TAG_DO87 (do87_of k_enc ssc (rsp_body r)) = Ok do87
    ∧ len do87 ≤ 65536 + 23
    ∧ card_protect k_enc k_mac ssc r
      = Ok (do87 ++ [TAG_DO99; 2; rsp_sw1 r; rsp_sw2 r]
            ++ TAG_DO8E :: 8 :: aes256_cmac_truncated k_mac
                 (iso7816_4_pad (ssc ++ do87 ++ [TAG_DO99; 2; rsp_sw1 r; rsp_sw2 r]))).
Proof.
  intros Hlen. pose proof (opt_len_do87 k_enc ssc (rsp_body r)).
  destruct (opt_tlv_ok (E:=E) (F:=unit) TAG_DO87 (do87_of k_enc ssc (rsp_body r))) as (do87 & HE & HU & Hl);
    [unfold u32_max; lia|].
  exists do87. split_and!; [done|lia|]. unfold card_protect.
  assert ((match rsp_body r with
           | [] => Ok []
           | _ => tlv TAG_DO87 (0x01 :: cbc_encrypt k_enc (aes_encrypt_block k_enc ssc)
                                  (iso7816_4_pad (rsp_body r)))
           end : result unit bytes) = Ok do87) as -> by (rewrite <- HU; by destruct (rsp_body r)).
  cbn [result_bind]. rewrite tlv_short by done. cbn [result_bind].
  change (take 8 (aes_cmac k_mac ?m)) with (aes256_cmac_truncated k_mac m).
  rewrite tlv_short by (rewrite len_cmac_truncated; lia). cbn [result_bind].
  by rewrite len_cmac_truncated.
Qed.

Lemma items_protected {E} k_enc k_mac ssc body sw1 sw2 do87 m :
  @opt_tlv E TAG_DO87 (do87_of k_enc ssc body) = Ok do87 → len body ≤ 65536 → len do87 ≤ 65536 + 23 →
  BerTlvIter_items (do87 ++ [TAG_DO99; 2; sw1; sw2] ++ TAG_DO8E :: 8 :: aes256_cmac_truncated k_mac m)
  = opt_item TAG_DO87 (do87_of k_enc ssc body) (len do87)
    ++ [Ok (mkBerTlvAny TAG_DO99 [sw1; sw2] 4);
        Ok (mkBerTlvAny TAG_DO8E (aes256_cmac_truncated k_mac m) 10)].
Proof.
  intros H87 Hbody Hl. pose proof (opt_len_do87 k_enc ssc body).
  rewrite (opt_tlv_items (E:=E) TAG_DO87 (do87_of k_enc ssc body));
    [|done|unfold u32_max; lia|rewrite !len_app, len_mac_object; change (len [_;_;_;_]) with 4;
      unfold u64_max; lia|done].
  rewrite (BerTlvIter_items_tlv (E:=BerError) TAG_DO99 [sw1; sw2]);
    [|done|done|rewrite len_app, len_mac_object; done|by rewrite tlv_short].
  by rewrite items_mac_object.
Qed.

Lemma sm_decrypt_do87 {TE} k_enc ssc body :
  @sm_decrypt _ TE k_enc ssc (do87_value k_enc ssc body) = Ok body.
Proof.
  unfold sm_decrypt, do87_value. rewrite Z.eqb_refl. cbn [negb].
  assert (len (cbc_encrypt k_enc (aes_encrypt_block k_enc ssc) (iso7816_4_pad body)) mod AES_BLOCK = 0)
    as Hmod by (rewrite len_cbc_encrypt by apply pad_aligned; apply pad_aligned).
  unfold aes256_cbc_decrypt_no_padding, aes256_ecb_encrypt_block. rewrite Hmod. cbn.
  rewrite cbc_decrypt_encrypt by apply pad_aligned. by rewrite iso7816_4_unpad_pad.
Qed.

Lemma sm_collect_protected {TE} o87 n sw1 sw2 mac :
  sm_collect (TE:=TE) (opt_item TAG_DO87 o87 n
    ++ [Ok (mkBerTlvAny TAG_DO99 [sw1; sw2] 4); Ok (mkBerTlvAny TAG_DO8E mac 10)])
    (mkSmObjects None None None)
  = Ok (mkSmObjects o87 (Some [sw1; sw2]) (Some mac)).
Proof. by destruct o87. Qed.

Lemma sm_unwrap_at_protected {TE} k_enc k_mac ssc r body :
  len (rsp_body r) ≤ 65536 → card_protect k_enc k_mac ssc r = Ok body →
  sm_unwrap_at (TE:=TE) k_enc k_mac ssc body = Ok (rsp_body r, ResponseApdu_sw r).
Proof.
  intros Hlen Hbody. destruct (card_protect_ok (E:=SmError TE) k_enc k_mac ssc r Hlen)
    as (do87 & H87 & Hl & Heq).
  rewrite Heq in Hbody. apply Ok_inj in Hbody as <-. unfold sm_unwrap_at.
  rewrite (items_protected (E:=SmError TE) k_enc _ ssc (rsp_body r)) by done.
  generalize (len_cmac_truncated k_mac (iso7816_4_pad (ssc ++ do87 ++ [TAG_DO99; 2; rsp_sw1 r; rsp_sw2 r]))).
  remember (aes256_cmac_truncated k_mac (iso7816_4_pad (ssc ++ do87 ++ [TAG_DO99; 2; rsp_sw1 r; rsp_sw2 r])))
    as mac eqn:Heqmac. intros Hmac.
  destruct r as [b sw1 sw2]. cbn [rsp_body rsp_sw1 rsp_sw2] in *.
  rewrite sm_collect_protected.
  rewrite result_bind_ok. cbn [so_do87 so_do99 so_mac ok_or]. rewrite !result_bind_ok, Hmac.
  change (len [sw1; sw2]) with 2. rewrite !Z.eqb_refl. cbn [negb].
  rewrite H87, result_bind_ok, tlv_short, result_bind_ok by done.
  change (len [sw1; sw2]) with 2. rewrite <- Heqmac, bool_decide_eq_true_2 by done. cbn [negb].
  destruct b as [|x l]; cbn [do87_of]; [done|]. by rewrite sm_decrypt_do87, result_bind_ok.
Qed.

(** A terminal whose counter agrees with the card's accepts the card's answer. *)
Lemma unwrap_protected {T TE} (t : SmTransport T) r body :
  let t1 := SmTransport_increment_ssc t in
  len (rsp_body r) ≤ 65536 →
  card_protect (sm_k_enc t) (sm_k_mac t) (sm_ssc t1) r = Ok body →
  SmTransport_unwrap (TE:=TE) body t = (t1, Ok (rsp_body r, ResponseApdu_sw r)).
Proof.
  intros t1 Hlen Hbody. unfold SmTransport_unwrap. f_equal. by apply sm_unwrap_at_protected.
Qed.
End sm_lemmas.

(** ** Properties *)

(** Padding is invertible and block-aligned: it adds between 1 and 16
    bytes, reaches a whole number of AES blocks, and unpadding gives the data
    back, whatever bytes the data ends with. *)
Theorem iso7816_4_padding_roundtrip data :
  iso7816_4_unpad (iso7816_4_pad data) = data
  ∧ len (iso7816_4_pad data) mod AES_BLOCK = 0
  ∧ len data < len (iso7816_4_pad data) ≤ len data + 16.
Proof.
  split_and!; [apply iso7816_4_unpad_pad|apply pad_aligned| |]; rewrite len_iso7816_4_pad;
    pose proof (len_nonneg data); Z.to_euclidean_division_equations; lia.
Qed.

(** The send sequence counter counts modulo 2^128: incrementing the
    sixteen bytes adds one to the big-endian number they spell, wraps to zero
    at the end, and keeps them sixteen bytes. *)
Theorem ssc_increment_counts s (Hs : bytes_ok s) (Hlen : length s = 16%nat) :
  bytes_ok (Ssc_increment s) ∧ length (Ssc_increment s) = 16%nat
  ∧ be_fold (Ssc_increment s) = (be_fold s + 1) mod 2 ^ 128.
Proof. by apply Ssc_increment_value. Qed.

Lemma ssc_increment_counts_witness :
  Ssc_increment (replicate 16 255) = Ssc_INITIAL
  ∧ be_fold (Ssc_increment (replicate 16 255)) = 0.
Proof.
  split; [by vm_compute|].
  destruct (ssc_increment_counts (replicate 16 255)) as (_ & _ & ->); [by_decide|done|by vm_compute].
Defined.

(** The command the card executes: the header's class byte says it was
    protected. *)
Definition protected_command (a : ShortApdu) : ShortApdu :=
  mkShortApdu (Z.lor (sa_cla a) 0x0C) (sa_ins a) (sa_p1 a) (sa_p2 a) (sa_data a) (sa_le a).

(** The commands whose protected form has one length octet. *)
Definition sm_fits (a : ShortApdu) : Prop :=
  len (sa_data a) ≤ match sa_le a with Some _ => 223 | None => 239 end.
#[export] Instance sm_fits_dec a : Decision (sm_fits a).
Proof. unfold sm_fits. apply _. Defined.

Section sm_theorems.
Context `{AesCryptoLaws}.

Lemma len_do87_enc {E} k_enc ssc data do87 :
  @opt_tlv E TAG_DO87 (do87_of k_enc ssc data) = Ok do87 → len data ≤ 255 →
  len do87 = len_do87 (len data).
Proof.
  intros Hdo Hlen. destruct data as [|d data]; [by injection Hdo as <-|].
  cbn [do87_of opt_tlv] in Hdo. pose proof (len_nonneg data).
  apply tlv_len in Hdo; rewrite len_do87_value in *.
  - rewrite Hdo. unfold len_do87. destruct (Z.eqb_spec (len (d :: data)) 0) as [H0'|]; [|done].
    rewrite len_cons in H0'. lia.
  - unfold u32_max. Z.to_euclidean_division_equations. lia.
Qed.

Lemma len_do97_enc {E} le do97 :
  @opt_tlv E TAG_DO97 (do97_of le) = Ok do97 → len do97 = match le with Some _ => 3 | None => 0 end.
Proof. destruct le; cbn; [rewrite tlv_short by done|]; intros [= <-]; done. Qed.

Lemma sm_fits_body {E} k_mac ssc header k_enc a do87 do97 :
  len (sa_data a) ≤ 255 →
  @opt_tlv E TAG_DO87 (do87_of k_enc ssc (sa_data a)) = Ok do87 →
  @opt_tlv E TAG_DO97 (do97_of (sa_le a)) = Ok do97 →
  sm_fits a ↔ len (sm_body k_mac ssc header do87 do97) ≤ 255.
Proof.
  intros Hlen H87 H97. rewrite len_sm_body, (len_do87_enc _ _ _ _ H87 Hlen), (len_do97_enc _ _ H97).
  unfold sm_fits, len_do87. pose proof (len_nonneg (sa_data a)).
  set (n := len (sa_data a)) in *. clearbody n.
  assert (n = 0 ∨ 1 ≤ n) as [->|Hn] by lia; [by destruct (sa_le a)|].
  destruct (Z.eqb_spec n 0); [lia|].
  assert (n / 16 = (n - n mod 16) / 16) by (Z.to_euclidean_division_equations; lia).
  destruct (sa_le a); repeat case_match; Z.to_euclidean_division_equations; lia.
Qed.

Lemma sm_wrap_result {T TE} a (t : SmTransport T) :
  short_apdu_wf a →
  let t1 := SmTransport_increment_ssc t in
  ∃ r, SmTransport_wrap (TE:=TE) (short_apdu_bytes a) t = (t1, r)
  ∧ (sm_fits a →
     ∃ apdu, r = Ok apdu
       ∧ card_open (sm_k_enc t) (sm_k_mac t) (sm_ssc t1) apdu = Some (protected_command a))
  ∧ (¬ sm_fits a → r = Err Sm_CommandTooLong).
Proof.
  intros Hwf t1. unfold short_apdu_wf in Hwf. pose proof (opt_len_do87 (sm_k_enc t) (sm_ssc t1) (sa_data a)).
  pose proof (opt_len_do97 (sa_le a)).
  destruct (opt_tlv_ok (E:=SmError TE) (F:=unit) TAG_DO87 (do87_of (sm_k_enc t) (sm_ssc t1) (sa_data a)))
    as (do87 & H87 & _ & _); [unfold u32_max; lia|].
  destruct (opt_tlv_ok (E:=SmError TE) (F:=unit) TAG_DO97 (do97_of (sa_le a)))
    as (do97 & H97 & _ & _); [unfold u32_max; lia|].
  eexists. split; [by apply wrap_short|]. fold t1.
  rewrite (sm_fits_body (sm_k_mac t) (sm_ssc t1) [Z.lor (sa_cla a) 0x0C; sa_ins a; sa_p1 a; sa_p2 a]
             (sm_k_enc t) a do87 do97) by done.
  split; intros Hfit; destruct (Z.gtb_spec (len (sm_body (sm_k_mac t) (sm_ssc t1)
    [Z.lor (sa_cla a) 0x0C; sa_ins a; sa_p1 a; sa_p2 a] do87 do97)) 255); try lia; [|done].
  eexists. split; [done|]. by apply (card_open_body (E:=SmError TE)).
Qed.

(** Protecting a command. A short command is protected exactly when it
    fits (at most 223 data bytes with an expected length, 239 without); the
    protected command, checked and decrypted by a card that holds the same
    keys and the same counter, is the original one (class byte marked), data
    and expected length included. A command that does not fit is refused with
    [CommandTooLong]. In both cases the counter has moved on by one. *)
Theorem sm_wrap_opens {T TE} a (t : SmTransport T) (Hwf : short_apdu_wf a) :
  let t1 := SmTransport_increment_ssc t in
  ∃ r, SmTransport_wrap (TE:=TE) (short_apdu_bytes a) t = (t1, r)
  ∧ (sm_fits a →
     ∃ apdu, r = Ok apdu
       ∧ card_open (sm_k_enc t) (sm_k_mac t) (sm_ssc t1) apdu = Some (protected_command a))
  ∧ (¬ sm_fits a → r = Err Sm_CommandTooLong).
Proof. by apply sm_wrap_result. Qed.

(** Nothing unauthenticated is accepted from a protected answer: when
    [unwrap] returns a body and a status word, the answer carried an eight
    byte MAC equal to the CMAC, under the session MAC key and the counter it
    just advanced to, of exactly the objects the body and the status word are
    read from; the body is the decryption of that DO87. *)
Theorem sm_unwrap_authentic {T TE} (t t' : SmTransport T) response body sw
  (Hok : SmTransport_unwrap (TE:=TE) response t = (t', Ok (body, sw))) :
  t' = SmTransport_increment_ssc t
  ∧ ∃ o do87 do99 mac,
      sm_collect (TE:=TE) (BerTlvIter_items response) (mkSmObjects None None None) = Ok o
      ∧ so_do99 o = Some do99 ∧ len do99 = 2 ∧ sw = be_fold do99
      ∧ so_mac o = Some mac ∧ len mac = 8
      ∧ @opt_tlv unit TAG_DO87 (so_do87 o) = Ok do87
      ∧ mac = take 8 (aes_cmac (sm_k_mac t) (iso7816_4_pad
                (sm_ssc t' ++ do87 ++ TAG_DO99 :: 2 :: do99)))
      ∧ match so_do87 o with
        | None => body = []
        | Some v => ∃ cipher, v = DO87_PADDING_INDICATOR :: cipher ∧ len cipher mod AES_BLOCK = 0
            ∧ body = iso7816_4_unpad (cbc_decrypt (sm_k_enc t) (aes_encrypt_block (sm_k_enc t) (sm_ssc t')) cipher)
        end.
Proof.
  unfold SmTransport_unwrap in Hok. injection Hok as <- Hok. split; [done|]. unfold sm_unwrap_at in Hok.
  apply result_bind_inv_ok in Hok as (o & Ho & Hok). exists o.
  apply result_bind_inv_ok in Hok as (do99 & H99%ok_or_inv & Hok).
  apply result_bind_inv_ok in Hok as (mac & Hmac%ok_or_inv & Hok).
  destruct (Z.eqb_spec (len do99) 2) as [Hl99|]; [|done].
  destruct (Z.eqb_spec (len mac) 8) as [Hl8|]; [|done]. cbn [negb] in Hok.
  apply result_bind_inv_ok in Hok as (do87 & H87 & Hok).
  apply result_bind_inv_ok in Hok as (do99t & H99t & Hok).
  rewrite tlv_short, Hl99 in H99t by lia. injection H99t as <-.
  case_bool_decide as Hm; [|done]. cbn [negb] in Hok.
  apply result_bind_inv_ok in Hok as (b & Hb & [= <- <-]).
  exists do87, do99, mac.
  split; [done|]. split; [done|]. split; [done|]. split; [done|]. split; [done|]. split; [done|].
  split.
  { revert H87. unfold opt_tlv. destruct (so_do87 o) as [v|]; [|congruence].
    unfold tlv, BerEncoder_push_tlv, BerEncoder_push_length.
    repeat case_match; simpl; congruence. }
  split; [by rewrite <- Hm|].
  destruct (so_do87 o) as [v|]; [|by injection Hb].
  unfold sm_decrypt in Hb. destruct v as [|ind cipher]; [done|].
  destruct (Z.eqb_spec ind DO87_PADDING_INDICATOR) as [->|]; [|done]. cbn [negb] in Hb.
  unfold aes256_cbc_decrypt_no_padding in Hb.
  destruct (Z.eqb_spec (len cipher mod AES_BLOCK) 0) as [Hc|]; [|done].
  cbn in Hb. injection Hb as <-. by exists cipher.
Qed.
End sm_theorems.

(** The two ends of the channel hold the same keys and counter. *)
Definition sm_in_sync {T} (s : SmTransport (SmPeer T)) : Prop :=
  sm_k_enc s = peer_k_enc (sm_inner s) ∧ sm_k_mac s = peer_k_mac (sm_inner s)
  ∧ sm_ssc s = peer_ssc (sm_inner s).

Section sm_channel.
Context `{AesCryptoLaws} {T TE : Type} `{CardTransport T TE}.

Lemma SmPeer_transmit_opened (p : SmPeer T) c a :
  let k_enc := peer_k_enc p in let k_mac := peer_k_mac p in
  let ssc := Ssc_increment (peer_ssc p) in
  let run := transmit_outcome (CommandApdu_new (short_apdu_bytes a)) (peer_card p) in
  card_open k_enc k_mac ssc (cmd_bytes c) = Some a →
  transmit_outcome c p =
  match run.2 with
  | Ok (To_Response rsp) =>
      (mkSmPeer run.1 k_enc k_mac (Ssc_increment ssc),
       match card_protect k_enc k_mac (Ssc_increment ssc) rsp with
       | Ok body => Ok (To_Response (mkResponseApdu body 0x90 0x00))
       | _ => Panic
       end)
  | other => (mkSmPeer run.1 k_enc k_mac ssc, other)
  end.
Proof.
  intros k_enc k_mac ssc run Hopen. unfold transmit_outcome at 1, SmPeer_CardTransport.
  fold k_enc k_mac ssc. rewrite Hopen. fold run. destruct run as [t' [[rsp| | | | |]|e|]]; done.
Qed.

(** One command through the channel. *)
Lemma sm_channel_step (s : SmTransport (SmPeer T)) a
  (Hsync : sm_in_sync s) (Hfit : sm_fits a)
  (Hcard : ∀ c (t t' : T) rsp, transmit_outcome c t = (t', Ok (To_Response rsp)) →
     len (rsp_body rsp) ≤ 65536 ∧ is_byte (rsp_sw1 rsp) ∧ is_byte (rsp_sw2 rsp)) :
  let plain := transmit_outcome (CommandApdu_new (short_apdu_bytes (protected_command a)))
                 (peer_card (sm_inner s)) in
  ∃ s', transmit_outcome (CommandApdu_new (short_apdu_bytes a)) s = (s', map_err Sm_Transport plain.2)
    ∧ peer_card (sm_inner s') = plain.1
    ∧ sm_in_sync s' ∧ sm_k_enc s' = sm_k_enc s ∧ sm_k_mac s' = sm_k_mac s.
Proof.
  intros plain. destruct s as [p ke km ssc]. destruct Hsync as (Hke & Hkm & Hssc).
  cbn in Hke, Hkm, Hssc. subst ke km ssc.
  assert (short_apdu_wf a) as Hwf by (unfold short_apdu_wf, sm_fits in *; destruct (sa_le a); lia).
  set (t := mkSmTransport p (peer_k_enc p) (peer_k_mac p) (peer_ssc p)) in *.
  destruct (sm_wrap_result (TE:=TE) a t Hwf) as (r & Hwrap & Hr & _).
  destruct (Hr Hfit) as (apdu & -> & Hopen). clear Hr.
  unfold transmit_outcome at 1, SmTransport_CardTransport.
  change (CommandApdu_as_bytes (CommandApdu_new ?b)) with b.
  erewrite act_bind_ok by exact Hwrap. clear Hwrap.
  pose proof (SmPeer_transmit_opened p (CommandApdu_from apdu) (protected_command a) Hopen) as Hrun.
  unfold act_bind at 1, act_map_err, sm_inner_transmit.
  change (sm_inner (SmTransport_increment_ssc t)) with p. rewrite Hrun. clear Hrun Hopen.
  change (peer_card (sm_inner t)) with (peer_card p) in plain. fold plain.
  destruct plain as [t' r'] eqn:Hplain. cbn [fst snd].
  destruct r' as [[rsp| | | | |]|e|]; cbn [map_err];
    try (eexists; split_and!; [reflexivity|done..]).
  destruct (Hcard _ _ _ _ Hplain) as (Hlen & Hb1 & Hb2).
  destruct (card_protect_ok (E:=unit) (peer_k_enc p) (peer_k_mac p)
    (Ssc_increment (Ssc_increment (peer_ssc p))) rsp Hlen) as (do87 & _ & _ & Hprot).
  set (p' := mkSmPeer _ _ _ _).
  pose proof (unwrap_protected (TE:=TE) (mkSmTransport p' (peer_k_enc p) (peer_k_mac p)
    (Ssc_increment (peer_ssc p))) rsp _ Hlen Hprot) as Hunwrap.
  rewrite Hprot. cbn [rsp_body map_err].
  destruct (do87 ++ _) as [|b l] eqn:Hne; [by destruct do87|].
  assert (mkResponseApdu (rsp_body rsp) (u16_hi (ResponseApdu_sw rsp)) (u16_lo (ResponseApdu_sw rsp)) = rsp)
    as Hrsp by (destruct rsp; unfold ResponseApdu_sw; cbn in *; by rewrite u16_hi_from_be, u16_lo_from_be).
  erewrite act_bind_ok by exact Hunwrap. unfold act_ret. rewrite Hrsp.
  eexists. split_and!; [reflexivity|done..].
Qed.

(** C3: the secure channel is transparent. Against a card that holds the
    same keys and counter, sending a short command through secure messaging
    does exactly what sending it to the plain card does: the same change of
    the card, the same response body and status word, the same transport
    outcome or error; and both ends stay in agreement, ready for the next
    command, whatever the outcome. *)
Theorem sm_channel_transparent (s : SmTransport (SmPeer T)) a
  (Hsync : sm_in_sync s) (Hfit : sm_fits a)
  (Hcard : ∀ c (t t' : T) rsp, transmit_outcome c t = (t', Ok (To_Response rsp)) →
     len (rsp_body rsp) ≤ 65536 ∧ is_byte (rsp_sw1 rsp) ∧ is_byte (rsp_sw2 rsp)) :
  let plain := transmit_outcome (CommandApdu_new (short_apdu_bytes (protected_command a)))
                 (peer_card (sm_inner s)) in
  ∃ s', transmit_outcome (CommandApdu_new (short_apdu_bytes a)) s = (s', map_err Sm_Transport plain.2)
    ∧ peer_card (sm_inner s') = plain.1
    ∧ sm_in_sync s' ∧ sm_k_enc s' = sm_k_enc s ∧ sm_k_mac s' = sm_k_mac s.
Proof. by apply sm_channel_step. Qed.

(** An answer without a body comes through as it is. *)
Lemma sm_transmit_empty (s : SmTransport T) a inner' sw1 sw2 : sm_fits a →
  (∀ c, transmit_outcome c (sm_inner s) = (inner', Ok (To_Response (mkResponseApdu [] sw1 sw2)))) →
  transmit_outcome (CommandApdu_new (short_apdu_bytes a)) s
  = (mkSmTransport inner' (sm_k_enc s) (sm_k_mac s) (Ssc_increment (sm_ssc s)),
     Ok (To_Response (mkResponseApdu [] sw1 sw2))).
Proof.
  intros Hfit Hcard.
  assert (short_apdu_wf a) as Hwf by (unfold short_apdu_wf, sm_fits in *; destruct (sa_le a); lia).
  destruct (sm_wrap_result (TE:=TE) a s Hwf) as (r & Hwrap & Hr & _).
  destruct (Hr Hfit) as (apdu & -> & _).
  unfold transmit_outcome at 1, SmTransport_CardTransport.
  erewrite act_bind_ok by exact Hwrap.
  unfold act_bind, act_map_err, sm_inner_transmit.
  change (sm_inner (SmTransport_increment_ssc s)) with (sm_inner s). by rewrite Hcard.
Qed.

(** C4: what the channel does outside the protected exchange. A byte string
    that is no short command is refused before anything changes. A command too
    long to protect is refused after the counter has advanced, although nothing
    was handed to the card. An answer with an empty body is returned as it
    came, with whatever status word it carries, success included: the status
    word of such an answer is not authenticated. *)
Theorem sm_transmit_unprotected (s : SmTransport T) :
  (∀ bs, 4 ≤ len bs → decode_short_apdu bs = None →
     transmit_outcome (CommandApdu_new bs) s
     = (s, Err (Sm_Malformed "APDU does not match a short-form case")))
  ∧ (∀ a, short_apdu_wf a → ¬ sm_fits a →
     transmit_outcome (CommandApdu_new (short_apdu_bytes a)) s
     = (SmTransport_increment_ssc s, Err Sm_CommandTooLong))
  ∧ (∀ a inner' sw1 sw2, sm_fits a →
     (∀ c, transmit_outcome c (sm_inner s) = (inner', Ok (To_Response (mkResponseApdu [] sw1 sw2)))) →
     transmit_outcome (CommandApdu_new (short_apdu_bytes a)) s
     = (mkSmTransport inner' (sm_k_enc s) (sm_k_mac s) (Ssc_increment (sm_ssc s)),
        Ok (To_Response (mkResponseApdu [] sw1 sw2)))).
Proof.
  split_and!.
  - intros bs Hlen Hdec. unfold transmit_outcome at 1, SmTransport_CardTransport.
    apply act_bind_err. change (CommandApdu_as_bytes (CommandApdu_new bs)) with bs.
    unfold SmTransport_wrap. rewrite Hdec. unfold len in Hlen.
    by destruct bs as [|b0 [|b1 [|b2 [|b3 bs]]]]; cbn in Hlen; try lia.
  - intros a Hwf Hfit. destruct (sm_wrap_result (TE:=TE) a s Hwf) as (r & Hwrap & _ & Hr).
    rewrite (Hr Hfit) in Hwrap. unfold transmit_outcome at 1, SmTransport_CardTransport.
    by apply act_bind_err.
  - intros. by apply sm_transmit_empty.
Qed.
End sm_channel.

(** ** Witnesses: a concrete cipher *)

(** A stand-in cipher with the laws: every byte masked, a tag of the message's
    first bytes. *)
#[local] Instance toy_crypto : AesCrypto := {
  aes_encrypt_block k b := b;
  cbc_encrypt k iv p := (λ b, Z.lxor b 0x5A) <$> p;
  cbc_decrypt k iv p := (λ b, Z.lxor b 0x5A) <$> p;
  aes_cmac k m := take 16 (m ++ replicate 16 0)
}.
#[local] Instance toy_crypto_laws : AesCryptoLaws.
Proof.
  split.
  - intros k iv p _. cbn. rewrite <- list_fmap_compose. rewrite <- (list_fmap_id p) at 2.
    apply list_fmap_ext. intros i x _. cbn. by rewrite Z.lxor_assoc, Z.lxor_nilpotent, Z.lxor_0_r.
  - intros k iv p _. cbn. unfold len. by rewrite length_fmap.
  - intros k m. cbv [aes_cmac toy_crypto]. rewrite length_take, length_app, length_replicate. lia.
Defined.

Definition toy_terminal {T} (c : T) : SmTransport (SmPeer T) :=
  mkSmTransport (mkSmPeer c [1] [2] Ssc_INITIAL) [1] [2] Ssc_INITIAL.

(** Reading 16 bytes, and the plain card that answers. *)
Definition toy_read : ShortApdu := mkShortApdu 0x00 0xB0 0x00 0x00 [] (Some 0x10).

Lemma sm_wrap_opens_witness :
  ∃ apdu, SmTransport_wrap (TE:=string) (short_apdu_bytes toy_read) (toy_terminal ([] : Script))
    = (SmTransport_increment_ssc (toy_terminal []), Ok apdu)
  ∧ card_open [1] [2] (Ssc_increment Ssc_INITIAL) apdu = Some (protected_command toy_read).
Proof.
  destruct (sm_wrap_opens (TE:=string) toy_read (toy_terminal ([] : Script))) as (r & Hr & Hok & _);
    [by vm_compute|].
  destruct Hok as (apdu & -> & Hopen); [by vm_compute|]. by exists apdu.
Defined.

(** The answer of a card to the first command. *)
Definition toy_answer : bytes :=
  match card_protect [1] [2] (Ssc_increment Ssc_INITIAL) (mkResponseApdu [7; 8] 0x90 0x00) with
  | Ok answer => answer
  | _ => []
  end.

Lemma sm_unwrap_authentic_witness :
  SmTransport_unwrap (TE:=string) toy_answer (toy_terminal ([] : Script))
  = (SmTransport_increment_ssc (toy_terminal []), Ok ([7; 8], 0x9000))
  ∧ ∃ (mac : bytes), len mac = 8.
Proof.
  assert (SmTransport_unwrap (TE:=string) toy_answer (toy_terminal ([] : Script))
    = (SmTransport_increment_ssc (toy_terminal []), Ok ([7; 8], 0x9000))) as Hok by (by vm_compute).
  split; [exact Hok|].
  destruct (sm_unwrap_authentic _ _ _ _ _ Hok)
    as (_ & o & do87 & do99 & mac & _ & _ & _ & _ & _ & Hlen & _).
  exists mac. exact Hlen.
Defined.

(** A card that answers with the first bytes of the command. *)
Definition echo_card : Type := unit.
#[local] Instance echo_card_transport : CardTransport echo_card string :=
  λ c t, (t, Ok (To_Response (mkResponseApdu (take 16 (cmd_bytes c)) 0x90 0x00))).

Lemma sm_channel_transparent_witness :
  ∃ s', transmit_outcome (CommandApdu_new (short_apdu_bytes toy_read)) (toy_terminal (tt : echo_card))
    = (s', Ok (To_Response (mkResponseApdu [0x0C; 0xB0; 0x00; 0x00; 0x10] 0x90 0x00)))
  ∧ sm_in_sync s'.
Proof.
  destruct (sm_channel_transparent (toy_terminal (tt : echo_card)) toy_read) as (s' & Hs & _ & Hsync & _).
  - done.
  - by vm_compute.
  - intros c t t' rsp [= _ <-]. cbn. unfold len, is_byte. rewrite length_take. lia.
  - exists s'. split; [|done]. exact Hs.
Defined.

Lemma sm_transmit_unprotected_witness :
  transmit_outcome (CommandApdu_new (short_apdu_bytes toy_read))
    (mkSmTransport [reply [] 0x9000] [1] [2] Ssc_INITIAL)
  = (mkSmTransport ([] : Script) [1] [2] (Ssc_increment Ssc_INITIAL),
     Ok (To_Response (mkResponseApdu [] 0x90 0x00))).
Proof.
  apply (proj2 (proj2 (sm_transmit_unprotected (mkSmTransport [reply [] 0x9000] [1] [2] Ssc_INITIAL)))).
  - by vm_compute.
  - done.
Defined.
