(* ===== verification/Pin.v ===== *)
(** Credential value types: crates/refineid-lib-core/src/pin.rs ([PinBytes], [Puk],
    the activation codes) and crates/refineid-lib-core/src/can.rs ([Can]). Their
    constructors are the only way in, so the predicates proved of them hold of
    every value the rest of the program sees. *)

From S2P Require Import Prelude Decimal Ber.


Inductive PinRoleError :=
| Pre_Empty
| Pre_WrongLength (expected_min expected_max got : Z)
| Pre_NonDigit (at_ : Z).
#[export] Instance PinRoleError_eq_dec : EqDecision PinRoleError.
Proof. solve_decision. Defined.

Definition validate_digits (bs : bytes) (min max : Z) : result PinRoleError unit :=
  match bs with
  | [] => Err Pre_Empty
  | _ =>
      if (len bs <? min) || (len bs >? max) then Err (Pre_WrongLength min max (len bs))
      else match position (λ b, negb (is_ascii_digit b)) bs with
           | Some at_ => Err (Pre_NonDigit (Z.of_nat at_))
           | None => Ok tt
           end
  end.

Definition PinBytes_MIN_LENGTH : Z := 4.
Definition PinBytes_MAX_LENGTH : Z := 12.

(** [bytes] is the [[u8; 12]] array, [length] the digit count. *)
Record PinBytes := mkPinBytes { pb_bytes : bytes; pb_length : Z }.
#[export] Instance PinBytes_eq_dec : EqDecision PinBytes.
Proof. solve_decision. Defined.

(** [u8::try_from] of the length cannot fail after the check; the arm is kept. *)
Definition PinBytes_new (bs : bytes) : result PinRoleError PinBytes :=
  let? _ := validate_digits bs PinBytes_MIN_LENGTH PinBytes_MAX_LENGTH in
  if len bs >? u8_max then Err (Pre_WrongLength PinBytes_MIN_LENGTH PinBytes_MAX_LENGTH (len bs))
  else if len bs >? PinBytes_MAX_LENGTH then Panic
  else Ok (mkPinBytes (bs ++ replicate (Z.to_nat (PinBytes_MAX_LENGTH - len bs)) 0) (len bs)).

Definition PinBytes_digit_count (p : PinBytes) : Z := pb_length p.

(** The slice [&self.bytes[..self.digit_count()]]. *)
Definition PinBytes_as_bytes (p : PinBytes) : bytes := take (Z.to_nat (PinBytes_digit_count p)) (pb_bytes p).

Definition PinBytes_validate_digits (p : PinBytes) (min max : Z) : result PinRoleError unit :=
  validate_digits (PinBytes_as_bytes p) min max.

Record Puk := mkPuk { Puk_0 : PinBytes }.
Definition Puk_MIN_LENGTH : Z := 8.
Definition Puk_MAX_LENGTH : Z := 12.
Definition Puk_new (bs : PinBytes) : result PinRoleError Puk :=
  let? _ := PinBytes_validate_digits bs Puk_MIN_LENGTH Puk_MAX_LENGTH in Ok (mkPuk bs).
Definition Puk_as_bytes (p : Puk) : bytes := PinBytes_as_bytes (Puk_0 p).
Definition Puk_to_pin_bytes (p : Puk) : PinBytes := Puk_0 p.

Record ActivationPinSeven := mkActivationPinSeven { ActivationPinSeven_0 : PinBytes }.
Definition ActivationPinSeven_LENGTH : Z := 7.
Definition ActivationPinSeven_new (bs : PinBytes) : result PinRoleError ActivationPinSeven :=
  let? _ := PinBytes_validate_digits bs ActivationPinSeven_LENGTH ActivationPinSeven_LENGTH in
  Ok (mkActivationPinSeven bs).

Record ActivationPinEight := mkActivationPinEight { ActivationPinEight_0 : PinBytes }.
Definition ActivationPinEight_LENGTH : Z := 8.
Definition ActivationPinEight_new (bs : PinBytes) : result PinRoleError ActivationPinEight :=
  let? _ := PinBytes_validate_digits bs ActivationPinEight_LENGTH ActivationPinEight_LENGTH in
  Ok (mkActivationPinEight bs).

(** [activation::ActivationScheme]: which code the letter of a card carries. *)
Inductive ActivationScheme := As_ActivationCodeIsPuk | As_PresetActivationPin.
#[export] Instance ActivationScheme_eq_dec : EqDecision ActivationScheme.
Proof. solve_decision. Defined.

Inductive ActivationCode := Ac_Seven (p : ActivationPinSeven) | Ac_Eight (p : ActivationPinEight).

Definition ActivationCode_for_scheme (scheme : ActivationScheme) (bs : PinBytes)
  : result PinRoleError ActivationCode :=
  match scheme with
  | As_PresetActivationPin => result_map Ac_Seven (ActivationPinSeven_new bs)
  | As_ActivationCodeIsPuk => result_map Ac_Eight (ActivationPinEight_new bs)
  end.
Definition ActivationCode_to_pin_bytes (c : ActivationCode) : PinBytes :=
  match c with Ac_Seven p => ActivationPinSeven_0 p | Ac_Eight p => ActivationPinEight_0 p end.
Definition ActivationCode_as_bytes (c : ActivationCode) : bytes :=
  PinBytes_as_bytes (ActivationCode_to_pin_bytes c).

(** ** The card access number *)

Definition CAN_DIGITS : Z := 6.
Inductive CanError := Can_Empty | Can_WrongLength | Can_NonDigit | Can_AllZeros.
Record Can := mkCan { Can_0 : bytes }.

(** The argument is the UTF-8 bytes of the string. *)
Definition Can_new (bs : bytes) : result CanError Can :=
  if len bs =? 0 then Err Can_Empty
  else if negb (len bs =? CAN_DIGITS) then Err Can_WrongLength
  else if existsb (λ b, negb (is_ascii_digit b)) bs then Err Can_NonDigit
  else if forallb (λ b, b =? 0x30) bs then Err Can_AllZeros
  else Ok (mkCan bs).
Definition Can_as_bytes (c : Can) : bytes := Can_0 c.

(** ** Lemmas *)

(** The digit strings of a length range. *)
Definition digits_between (min max : Z) (bs : bytes) : Prop :=
  min ≤ len bs ≤ max ∧ Forall (λ b, is_ascii_digit b = true) bs.
#[export] Instance digits_between_dec min max bs : Decision (digits_between min max bs).
Proof. unfold digits_between. apply _. Defined.

Lemma validate_digits_ok bs min max :
  0 < min → validate_digits bs min max = Ok tt ↔ digits_between min max bs.
Proof.
  intros Hmin. unfold validate_digits, digits_between. destruct bs as [|b bs].
  { split; [done|]. unfold len. simpl. lia. }
  destruct (Z.ltb_spec (len (b :: bs)) min); [split; [done|lia]|].
  destruct (Z.gtb_spec (len (b :: bs)) max); [split; [done|lia]|]. simpl orb. cbn match.
  destruct (position _ _) as [i|] eqn:Hp; split; try done.
  - intros [_ Hall]. apply position_Some in Hp as (x & Hx & Hd & _).
    rewrite Forall_lookup in Hall. rewrite (Hall _ _ Hx) in Hd. done.
  - intros _. split; [lia|]. apply position_None in Hp. eapply Forall_impl; [|exact Hp].
    intros x. cbn. by destruct (is_ascii_digit x).
Qed.

Lemma validate_digits_no_panic bs min max : validate_digits bs min max ≠ Panic.
Proof. unfold validate_digits. repeat case_match; done. Qed.

(** What every [PinBytes] satisfies: it came out of [PinBytes::new]. *)
Definition PinBytes_wf (p : PinBytes) : Prop := ∃ bs, PinBytes_new bs = Ok p.

Lemma PinBytes_new_ok bs p :
  PinBytes_new bs = Ok p ↔
  digits_between 4 12 bs
  ∧ p = mkPinBytes (bs ++ replicate (Z.to_nat (PinBytes_MAX_LENGTH - len bs)) 0) (len bs).
Proof.
  unfold PinBytes_new, PinBytes_MIN_LENGTH, PinBytes_MAX_LENGTH, u8_max.
  rewrite <- validate_digits_ok by lia.
  destruct (validate_digits bs 4 12) as [[]|e|] eqn:Hv; simpl; [|naive_solver..].
  apply validate_digits_ok in Hv as [Hlen _]; [|lia].
  destruct (Z.gtb_spec (len bs) 255); [lia|]. destruct (Z.gtb_spec (len bs) 12); [lia|]. naive_solver.
Qed.

Lemma PinBytes_as_bytes_new bs p : PinBytes_new bs = Ok p → PinBytes_as_bytes p = bs.
Proof.
  intros [_ ->]%PinBytes_new_ok. unfold PinBytes_as_bytes, PinBytes_digit_count, len. simpl.
  rewrite Nat2Z.id. apply take_app_length.
Qed.

Lemma PinBytes_wf_digits p : PinBytes_wf p → digits_between 4 12 (PinBytes_as_bytes p).
Proof.
  intros [bs Hbs]. rewrite (PinBytes_as_bytes_new _ _ Hbs). by apply PinBytes_new_ok in Hbs as [? _].
Qed.

Lemma PinBytes_wf_count p : PinBytes_wf p → len (PinBytes_as_bytes p) = PinBytes_digit_count p.
Proof.
  intros [bs Hbs]. rewrite (PinBytes_as_bytes_new _ _ Hbs). by apply PinBytes_new_ok in Hbs as [_ ->].
Qed.

(** The error of [validate_digits], branch by branch. *)
Lemma validate_digits_err bs min max e :
  0 < min → validate_digits bs min max = Err e ↔
  match e with
  | Pre_Empty => bs = []
  | Pre_WrongLength mn mx got => bs ≠ [] ∧ ¬ (min ≤ len bs ≤ max) ∧ mn = min ∧ mx = max ∧ got = len bs
  | Pre_NonDigit i => min ≤ len bs ≤ max ∧ ∃ a x b, bs = a ++ x :: b ∧ i = len a
      ∧ is_ascii_digit x = false ∧ Forall (λ y, is_ascii_digit y = true) a
  end.
Proof.
  intros Hmin. unfold validate_digits. destruct bs as [|b0 bs0].
  { split; [by intros [= <-]|]. destruct e as [| |i]; [done|naive_solver|].
    intros [_ (a & x & b & H & _)]. by destruct a. }
  set (bs := b0 :: bs0). assert (bs ≠ []) as Hne by done. clearbody bs. clear b0 bs0.
  destruct (Z.ltb_spec (len bs) min) as [Hl|Hl]; cbn [orb].
  { split; [intros [= <-]; split_and!; (done || lia)|]. destruct e; [done| |lia]. intros (_ & _ & -> & -> & ->). done. }
  destruct (Z.gtb_spec (len bs) max) as [Hg|Hg].
  { split; [intros [= <-]; split_and!; (done || lia)|]. destruct e; [done| |lia]. intros (_ & _ & -> & -> & ->). done. }
  destruct (position _ bs) as [i|] eqn:Hp; split.
  - intros [= <-]. split; [lia|]. apply position_Some in Hp as (x & Hx & Hd & Hall).
    exists (take i bs), x, (drop (S i) bs). rewrite take_drop_middle by done. split_and!; [done| | |].
    + unfold len. rewrite length_take. apply lookup_lt_Some in Hx. lia.
    + by destruct (is_ascii_digit x).
    + eapply Forall_impl; [|exact Hall]. intros y. cbn. by destruct (is_ascii_digit y).
  - destruct e as [|mn mx got|j]; [done|naive_solver lia|].
    intros [_ (a & x & b & -> & -> & Hx & Ha)]. do 2 f_equal.
    apply position_Some in Hp as (y & Hy & Hd & Hall). unfold len.
    destruct (decide (i = length a)) as [->|]; [done|]. exfalso.
    destruct (decide (i < length a)%nat) as [Hlt|].
    + rewrite lookup_app_l in Hy by done. rewrite Forall_lookup in Ha. by rewrite (Ha _ _ Hy) in Hd.
    + rewrite Forall_lookup in Hall. specialize (Hall (length a) x).
      rewrite lookup_take_lt, list_lookup_middle in Hall by (done || lia). rewrite Hx in Hall. by specialize (Hall eq_refl).
  - done.
  - destruct e as [|mn mx got|j]; [done|naive_solver lia|].
    intros [_ (a & x & b & -> & -> & Hx & Ha)]. exfalso.
    apply position_None in Hp. rewrite Forall_lookup in Hp. specialize (Hp (length a) x).
    rewrite list_lookup_middle in Hp by done. rewrite Hx in Hp. by specialize (Hp eq_refl).
Qed.

(** The constructor of [PinBytes] admits exactly the strings of 4 to 12
    ASCII digits, and such a value gives back exactly those digits. Otherwise
    the error says what is wrong: empty, the length with the accepted range, or
    the position of the first byte that is no digit. It never panics. *)
Theorem pin_bytes_admits_digits bs :
  PinBytes_new bs ≠ Panic
  ∧ ((∃ p, PinBytes_new bs = Ok p) ↔ digits_between 4 12 bs)
  ∧ (∀ p, PinBytes_new bs = Ok p → PinBytes_as_bytes p = bs ∧ length (pb_bytes p) = 12%nat)
  ∧ (∀ e, PinBytes_new bs = Err e ↔ validate_digits bs 4 12 = Err e)
  ∧ (∀ i, PinBytes_new bs = Err (Pre_NonDigit i) ↔
       4 ≤ len bs ≤ 12 ∧ ∃ a x b, bs = a ++ x :: b ∧ i = len a
         ∧ is_ascii_digit x = false ∧ Forall (λ y, is_ascii_digit y = true) a).
Proof.
  assert (PinBytes_new bs ≠ Panic ∧ ∀ e, PinBytes_new bs = Err e ↔ validate_digits bs 4 12 = Err e)
    as [Hp He].
  { unfold PinBytes_new, PinBytes_MIN_LENGTH, PinBytes_MAX_LENGTH, u8_max.
    pose proof (validate_digits_no_panic bs 4 12).
    destruct (validate_digits bs 4 12) as [[]|e|] eqn:Hv; simpl; [|split; [done|naive_solver]|done].
    apply validate_digits_ok in Hv as [Hl _]; [|lia].
    destruct (Z.gtb_spec (len bs) 255); [lia|]. destruct (Z.gtb_spec (len bs) 12); [lia|]. split; [done|naive_solver]. }
  split_and!; [done| | |done|].
  - split; [by intros [p [? _]%PinBytes_new_ok]|]. intros Hd. eexists. by apply PinBytes_new_ok.
  - intros p Hok. split; [by apply PinBytes_as_bytes_new|].
    apply PinBytes_new_ok in Hok as [[Hl _] ->]. cbn [pb_bytes]. unfold PinBytes_MAX_LENGTH, len in *.
    rewrite length_app, length_replicate. lia.
  - intros i. rewrite He, validate_digits_err by lia. done.
Qed.

Lemma digits_between_weaken a b c d bs : digits_between a b bs → c ≤ a → b ≤ d → digits_between c d bs.
Proof. intros [? ?] ??. split; [lia|done]. Qed.

Lemma ex_bind_ok {E A B} (m : result E A) (f : A → B) :
  (∃ b, (let? x := m in Ok (f x)) = Ok b) ↔ ∃ a, m = Ok a.
Proof. destruct m; naive_solver. Qed.

Lemma ex_map_ok {E A B} (m : result E A) (f : A → B) :
  (∃ b, result_map f m = Ok b) ↔ ∃ a, m = Ok a.
Proof. destruct m; naive_solver. Qed.

(** The roles. A PUK is exactly a [PinBytes] of 8 to 12 digits; the
    activation code of a card is exactly one of 7 digits when the PINs are
    preset and of 8 when the code is the PUK, and it carries the digits
    entered; a card access number is exactly six digits that are not all zero.
    No constructor panics. *)
Theorem credential_roles_admit p (Hp : PinBytes_wf p) :
  ((∃ puk, Puk_new p = Ok puk) ↔ digits_between 8 12 (PinBytes_as_bytes p))
  ∧ (∀ puk, Puk_new p = Ok puk → Puk_to_pin_bytes puk = p)
  ∧ (∀ scheme,
       let n := match scheme with As_PresetActivationPin => 7 | As_ActivationCodeIsPuk => 8 end in
       ((∃ c, ActivationCode_for_scheme scheme p = Ok c) ↔ PinBytes_digit_count p = n)
       ∧ (∀ c, ActivationCode_for_scheme scheme p = Ok c → ActivationCode_to_pin_bytes c = p))
  ∧ (∀ bs, (∃ c, Can_new bs = Ok c ∧ Can_as_bytes c = bs) ↔
       digits_between 6 6 bs ∧ bs ≠ replicate 6 0x30).
Proof.
  pose proof (PinBytes_wf_digits p Hp) as [Hl Hd]. pose proof (PinBytes_wf_count p Hp) as Hc.
  assert (∀ mn mx, 0 < mn → (∃ u, PinBytes_validate_digits p mn mx = Ok u) ↔ mn ≤ PinBytes_digit_count p ≤ mx)
    as Hval.
  { intros mn mx Hmn. unfold PinBytes_validate_digits. rewrite <- Hc. split.
    - by intros [[] [? _]%validate_digits_ok].
    - intros Hr. exists tt. by apply validate_digits_ok. }
  split_and!.
  - unfold Puk_new, Puk_MIN_LENGTH, Puk_MAX_LENGTH. unfold digits_between. rewrite Hc.
    rewrite ex_bind_ok, (Hval 8 12) by lia. tauto.
  - unfold Puk_new. destruct (PinBytes_validate_digits p _ _); naive_solver.
  - intros scheme. destruct scheme; cbn [ActivationCode_for_scheme].
    + split; [|unfold ActivationPinEight_new; destruct (PinBytes_validate_digits _ _ _); naive_solver].
      rewrite ex_map_ok. unfold ActivationPinEight_new, ActivationPinEight_LENGTH.
      rewrite ex_bind_ok, Hval by lia. lia.
    + split; [|unfold ActivationPinSeven_new; destruct (PinBytes_validate_digits _ _ _); naive_solver].
      rewrite ex_map_ok. unfold ActivationPinSeven_new, ActivationPinSeven_LENGTH.
      rewrite ex_bind_ok, Hval by lia. lia.
  - intros bs. unfold Can_new, CAN_DIGITS, digits_between.
    destruct (Z.eqb_spec (len bs) 0) as [|]; [naive_solver lia|].
    destruct (Z.eqb_spec (len bs) 6) as [H6|]; [|naive_solver lia]. cbn [negb].
    destruct (existsb _ bs) eqn:Hex.
    { split; [naive_solver|]. intros [[_ Hall] _]. apply existsb_exists in Hex as (x & Hin & Hx).
      rewrite List.Forall_forall in Hall. by rewrite (Hall _ Hin) in Hx. }
    assert (Forall (λ b, is_ascii_digit b = true) bs) as Hall.
    { apply List.Forall_forall. intros x Hin. destruct (is_ascii_digit x) eqn:Hx; [done|].
      assert (existsb (λ b, negb (is_ascii_digit b)) bs = true) as Ht
        by (apply existsb_exists; exists x; by rewrite Hx). congruence. }
    assert (forallb (λ b, b =? 0x30) bs = true ↔ bs = replicate 6 0x30) as Hz.
    { unfold len in H6. assert (length bs = 6%nat) as Hlen by lia. rewrite forallb_forall. split.
      - intros Hin. symmetry. apply replicate_as_elem_of. split; [done|]. intros x Hx%list_elem_of_In.
        apply Hin in Hx. lia.
      - intros -> x Hx%list_elem_of_In%elem_of_replicate. destruct Hx as [-> _]. done. }
    destruct (forallb _ bs); [naive_solver|]. split; [|intros _; by eexists].
    intros _. split; [split; [lia|done]|]. intros ->. destruct Hz as [_ Hz]. by specialize (Hz eq_refl).
Qed.

Lemma credential_roles_admit_witness :
  ∃ p, PinBytes_new [0x31; 0x32; 0x33; 0x34; 0x35; 0x36; 0x37] = Ok p
  ∧ (∃ c, ActivationCode_for_scheme As_PresetActivationPin p = Ok c) ∧ ¬ (∃ puk, Puk_new p = Ok puk).
Proof.
  eexists. split; [by vm_compute|].
  destruct (credential_roles_admit (mkPinBytes [0x31; 0x32; 0x33; 0x34; 0x35; 0x36; 0x37; 0; 0; 0; 0; 0] 7))
    as (Hpuk & _ & Hact & _); [by exists [0x31; 0x32; 0x33; 0x34; 0x35; 0x36; 0x37]; vm_compute|].
  split; [by apply (Hact As_PresetActivationPin)|]. rewrite Hpuk. intros [[Hl _] _]. by apply Hl.
Defined.
