(* ===== verification/Auth.v ===== *)
(** Credentials on the card: the types and classifiers of
    crates/refineid-lib-core/src/auth.rs, the VERIFY, CHANGE REFERENCE DATA, RESET
    RETRY COUNTER and GET DATA commands and response parsers of
    crates/refineid-lib-core/src/auth/commands.rs. [PasswordLengthRange] belongs to
    the refineid_pkcs15 crate: a class of operations with its laws. *)

From S2P Require Import Prelude Ber StatusWord Transport Apdu Pin.

(** ** Constants *)

Definition PIN1_REFERENCE_PKCS15 : Z := 0x11.
Definition PIN2_REFERENCE_PKCS15 : Z := 0x82.
Definition PUK_REFERENCE_PKCS15 : Z := 0x83.
Definition PIN1_REFERENCE_ORGANIZATIONAL : Z := 0x03.
Definition PIN2_REFERENCE_ORGANIZATIONAL : Z := 0x04.
Definition PUK_REFERENCE_ORGANIZATIONAL : Z := 0x12.
Definition PIN1_STORED_LENGTH : Z := 12.
Definition PIN2_STORED_LENGTH : Z := 12.
Definition PIN_PAD_BYTE : Z := 0x00.
Definition PIN_MIN_LENGTH : Z := 4.
Definition PIN_MAX_LENGTH : Z := PIN1_STORED_LENGTH.
Definition FINEID_PIN1_MIN_LENGTH : Z := 4.
Definition FINEID_PIN2_MIN_LENGTH : Z := 6.
Definition PUK_STORED_LENGTH : Z := 12.
Definition PUK_MIN_LENGTH : Z := 8.
Definition PUK_MAX_LENGTH : Z := PUK_STORED_LENGTH.

(** ** References *)

Inductive PinSlot := Pin1 | Pin2.
#[export] Instance PinSlot_eq_dec : EqDecision PinSlot.
Proof. solve_decision. Defined.

Inductive PinReferenceScheme := Citizen | Organizational.
#[export] Instance PinReferenceScheme_eq_dec : EqDecision PinReferenceScheme.
Proof. solve_decision. Defined.

Definition PinReferenceScheme_reference (scheme : PinReferenceScheme) (slot : PinSlot) : Z :=
  match scheme, slot with
  | Citizen, Pin1 => PIN1_REFERENCE_PKCS15
  | Citizen, Pin2 => PIN2_REFERENCE_PKCS15
  | Organizational, Pin1 => PIN1_REFERENCE_ORGANIZATIONAL
  | Organizational, Pin2 => PIN2_REFERENCE_ORGANIZATIONAL
  end.

Definition PinReferenceScheme_gates_esign_directory (scheme : PinReferenceScheme) (slot : PinSlot) : bool :=
  match scheme, slot with Organizational, Pin2 => true | _, _ => false end.

Definition PinReferenceScheme_puk_reference (scheme : PinReferenceScheme) : Z :=
  match scheme with Citizen => PUK_REFERENCE_PKCS15 | Organizational => PUK_REFERENCE_ORGANIZATIONAL end.

Inductive CredentialReference :=
| Cr_Pin (scheme : PinReferenceScheme) (slot : PinSlot)
| Cr_Puk (scheme : PinReferenceScheme).
#[export] Instance CredentialReference_eq_dec : EqDecision CredentialReference.
Proof. solve_decision. Defined.

Definition CredentialReference_as_byte (c : CredentialReference) : Z :=
  match c with
  | Cr_Pin scheme slot => PinReferenceScheme_reference scheme slot
  | Cr_Puk scheme => PinReferenceScheme_puk_reference scheme
  end.

Definition PinSlot_stored_length (slot : PinSlot) : Z :=
  match slot with Pin1 => PIN1_STORED_LENGTH | Pin2 => PIN2_STORED_LENGTH end.

(** ** Outcomes and their classifiers *)

Inductive PinStatus :=
| Ps_Verified | Ps_Remaining (r : PinRetries) | Ps_NoInfo | Ps_Locked | Ps_Other (sw : Z).
#[export] Instance PinStatus_eq_dec : EqDecision PinStatus.
Proof. solve_decision. Defined.

Inductive PukStatus :=
| Pk_Remaining (r : PinRetries) | Pk_NoInfo | Pk_Locked | Pk_Invalidated | Pk_Other (sw : Z).
#[export] Instance PukStatus_eq_dec : EqDecision PukStatus.
Proof. solve_decision. Defined.

Inductive VerifyOutcome :=
| Vo_Ok | Vo_WrongPin (retries_left : PinRetries) | Vo_Locked | Vo_Other (sw : Z).
#[export] Instance VerifyOutcome_eq_dec : EqDecision VerifyOutcome.
Proof. solve_decision. Defined.

Inductive ChangePinOutcome :=
| Cp_Ok | Cp_WrongCurrentPin (retries_left : PinRetries) | Cp_Locked | Cp_LengthError | Cp_Other (sw : Z).
#[export] Instance ChangePinOutcome_eq_dec : EqDecision ChangePinOutcome.
Proof. solve_decision. Defined.

Inductive UnblockOutcome :=
| Ub_Ok | Ub_WrongPuk (retries_left : PinRetries) | Ub_PukLocked | Ub_Invalidated | Ub_LengthError
| Ub_Other (sw : Z).
#[export] Instance UnblockOutcome_eq_dec : EqDecision UnblockOutcome.
Proof. solve_decision. Defined.

Definition classify_reset_retry_sw (sw : StatusWord) : UnblockOutcome :=
  match sw with
  | Sw_Success => Ub_Ok
  | Sw_PinIncorrect retries => Ub_WrongPuk retries
  | Sw_AuthenticationBlocked => Ub_PukLocked
  | Sw_ReferenceDataInvalidated => Ub_Invalidated
  | Sw_WrongLength => Ub_LengthError
  | other => Ub_Other (StatusWord_as_u16 other)
  end.

Definition classify_puk_status_sw (sw : StatusWord) : PukStatus :=
  match sw with
  | Sw_PinIncorrect retries => Pk_Remaining retries
  | Sw_AuthenticationFailed => Pk_NoInfo
  | Sw_AuthenticationBlocked => Pk_Locked
  | Sw_ReferenceDataInvalidated => Pk_Invalidated
  | other => Pk_Other (StatusWord_as_u16 other)
  end.

Definition classify_change_pin_sw (sw : StatusWord) : ChangePinOutcome :=
  match sw with
  | Sw_Success => Cp_Ok
  | Sw_PinIncorrect retries => Cp_WrongCurrentPin retries
  | Sw_AuthenticationBlocked | Sw_ReferenceDataInvalidated => Cp_Locked
  | Sw_WrongLength => Cp_LengthError
  | other => Cp_Other (StatusWord_as_u16 other)
  end.

Definition classify_pin_status_sw (sw : StatusWord) : PinStatus :=
  match sw with
  | Sw_Success => Ps_Verified
  | Sw_PinIncorrect retries => Ps_Remaining retries
  | Sw_AuthenticationFailed => Ps_NoInfo
  | Sw_AuthenticationBlocked | Sw_ReferenceDataInvalidated => Ps_Locked
  | other => Ps_Other (StatusWord_as_u16 other)
  end.

Definition classify_verify_sw (sw : StatusWord) : VerifyOutcome :=
  match sw with
  | Sw_Success => Vo_Ok
  | Sw_PinIncorrect retries => Vo_WrongPin retries
  | Sw_AuthenticationBlocked | Sw_ReferenceDataInvalidated => Vo_Locked
  | other => Vo_Other (StatusWord_as_u16 other)
  end.

(** ** Commands *)

Inductive VerifyMode := Vm_Verify | Vm_Unverify.
Definition VerifyMode_as_p1 (m : VerifyMode) : Z := match m with Vm_Verify => 0x00 | Vm_Unverify => 0xFF end.

Inductive VerifyData := Vd_Probe | Vd_PinBlock (bs : bytes).

Record Verify := mkVerify
  { vf_class : ApduClass; vf_mode : VerifyMode; vf_reference : CredentialReference; vf_data : VerifyData }.

(** [u8::try_from(..)] with [unreachable!] on the error arm. *)
Definition lc_or_unreachable {E} (n : Z) : result E Z := if n >? u8_max then Panic else Ok n.

Definition Verify_into_apdu {E} (c : Verify) : result E CommandApdu :=
  let pin_bytes := match vf_data c with Vd_Probe => [] | Vd_PinBlock bs => bs end in
  let? lc := lc_or_unreachable (len pin_bytes) in
  Ok (CommandApdu_new ([ApduClass_as_byte (vf_class c); 0x20; VerifyMode_as_p1 (vf_mode c);
                        CredentialReference_as_byte (vf_reference c); lc] ++ pin_bytes)).

Record ChangeReferenceData := mkChangeReferenceData
  { cd_reference : CredentialReference; cd_padded_pair : bytes }.
Definition ChangeReferenceData_into_apdu {E} (c : ChangeReferenceData) : result E CommandApdu :=
  let? lc := lc_or_unreachable (len (cd_padded_pair c)) in
  Ok (CommandApdu_new ([0x00; 0x24; 0x00; CredentialReference_as_byte (cd_reference c); lc]
                       ++ cd_padded_pair c)).

Inductive PinInfoReference := Pir_User (scheme : PinReferenceScheme) (slot : PinSlot) | Pir_Puk.
Definition PinInfoReference_as_byte (r : PinInfoReference) : Z :=
  match r with
  | Pir_User scheme slot => CredentialReference_as_byte (Cr_Pin scheme slot)
  | Pir_Puk => PUK_REFERENCE_PKCS15
  end.

Record GetPinInfo := mkGetPinInfo { gp_scheme : PinReferenceScheme; gp_slot : PinSlot }.
Definition GetPinInfo_for_reference (reference : PinInfoReference) : CommandApdu :=
  CommandApdu_new [0x00; 0xCB; 0x00; 0xFF; 0x05; 0xA0; 0x03; 0x83; 0x01;
                   PinInfoReference_as_byte reference; 0x00].
Definition GetPinInfo_into_apdu (c : GetPinInfo) : CommandApdu :=
  GetPinInfo_for_reference (Pir_User (gp_scheme c) (gp_slot c)).
Definition GetPukInfo_into_apdu : CommandApdu := GetPinInfo_for_reference Pir_Puk.

Inductive ResetRetryCounterMode := Rm_CodeThenNew | Rm_NewOnly.
#[export] Instance ResetRetryCounterMode_eq_dec : EqDecision ResetRetryCounterMode.
Proof. solve_decision. Defined.
Definition ResetRetryCounterMode_as_p1 (m : ResetRetryCounterMode) : Z :=
  match m with Rm_CodeThenNew => 0x00 | Rm_NewOnly => 0x02 end.

Record ResetRetryCounter := mkResetRetryCounter
  { rr_target : CredentialReference; rr_mode : ResetRetryCounterMode; rr_padded_pair : bytes }.
Definition ResetRetryCounter_into_apdu {E} (c : ResetRetryCounter) : result E CommandApdu :=
  let? lc := lc_or_unreachable (len (rr_padded_pair c)) in
  Ok (CommandApdu_new ([0x00; 0x2C; ResetRetryCounterMode_as_p1 (rr_mode c);
                        CredentialReference_as_byte (rr_target c); lc] ++ rr_padded_pair c)).

(** ** Answers of GET DATA *)

(** [std::num::NonZeroU8]; the payload is never zero. *)
Inductive UsageCounter := Uc_Exhausted | Uc_Limited (n : Z) | Uc_NoLimit.
Inductive UnblockingCounter := Ubc_Exhausted | Ubc_Limited (n : Z) | Ubc_NoLimit.
Record CredentialPolicyCounters := mkCredentialPolicyCounters
  { cp_usage : UsageCounter; cp_unblocking : UnblockingCounter }.

Definition changed_flag_from_response_body (body : bytes) : option bool :=
  find_map (λ w, match w with
                 | [0xDF; 0x2F; 1; value] => Some (value =? 1)
                 | _ => None
                 end) (windows 4 body).

Definition try_counter_from_response_body (body : bytes) : option PinRetries :=
  find_map (λ w, match w with
                 | [0xDF; 0x21; 0x04; tries; _; _; _] => PinRetries_from_nibble tries
                 | _ => None
                 end) (windows 7 body).

Definition policy_counters_from_response_body (body : bytes) : option CredentialPolicyCounters :=
  find_map (λ w, match w with
                 | [0xDF; 0x21; 0x04; _; usage; unblocking; _] =>
                     let usage := if usage =? 0 then Uc_Exhausted
                                  else if usage =? u8_max then Uc_NoLimit else Uc_Limited usage in
                     unblocking ← (if unblocking =? 0 then Some Ubc_Exhausted
                                   else if unblocking =? 0xA5 then Some Ubc_NoLimit
                                   else if unblocking <=? 0x0F then Some (Ubc_Limited unblocking)
                                   else None);
                     Some (mkCredentialPolicyCounters usage unblocking)
                 | _ => None
                 end) (windows 7 body).

(** [refineid_pkcs15::PasswordLengthRange]: an inclusive range of lengths. *)
Class PasswordLengthRange (R : Type) := {
  plr_new : Z → Z → option R;
  plr_min : R → Z;
  plr_max : R → Z;
  plr_contains : R → Z → bool;
  plr_intersection : R → R → option R
}.
Class PasswordLengthRangeLaws (R : Type) `{PasswordLengthRange R} := {
  plr_new_Some lo hi r : plr_new lo hi = Some r → plr_min r = lo ∧ plr_max r = hi;
  plr_new_ordered lo hi : 0 ≤ lo ≤ hi → hi ≤ 255 → is_Some (plr_new lo hi);
  plr_contains_spec r n : plr_contains r n = true ↔ plr_min r ≤ n ≤ plr_max r;
  plr_intersection_Some r s t n : plr_intersection r s = Some t →
    plr_contains t n = true ↔ plr_contains r n = true ∧ plr_contains s n = true;
  plr_intersection_None r s n : plr_intersection r s = None →
    plr_contains r n = true → plr_contains s n = false
}.

Definition policy_lengths_from_response_body `{PasswordLengthRange R} (body : bytes) : option R :=
  let in_range length := (4 <=? length) && (length <=? 64) in
  find_map (λ w, match w with
                 | 0xDF :: 0x3F :: 20 :: _tries :: min :: max :: _ =>
                     if negb (in_range min) || negb (in_range max) then None else plr_new min max
                 | _ => None
                 end) (windows 23 body).

(** ** Lemmas *)

Lemma PinIncorrect_code sw r :
  is_u16 sw → StatusWord_from_u16 sw = Sw_PinIncorrect r ↔ PinRetries_wf r ∧ sw = 0x63C0 + PinRetries_0 r.
Proof.
  intros Hsw. split.
  - intros Heq. destruct (as_u16_from_u16 sw Hsw) as [Ha Hc]. rewrite Heq in Ha, Hc.
    split; [done|]. rewrite <- Ha. by apply as_u16_PinIncorrect.
  - intros [Hr ->]. destruct r as [n]. by apply from_u16_PinIncorrect.
Qed.

(** What a refusal is reported as. Every outcome of a credential command is
    decided by the card's status word alone: success is reported exactly for
    9000, a wrong code exactly for 63Cx and with the counter x the card gave, a
    lock exactly for 6983 and 6984 (6983 alone locks the PUK, 6984 invalidates
    it), a length error exactly for 6700; a status without a meaning is handed
    on unchanged. *)
Theorem credential_outcomes_exact sw (Hsw : is_u16 sw) :
  let w := StatusWord_from_u16 sw in
  let counter r := PinRetries_wf r ∧ sw = 0x63C0 + PinRetries_0 r in
  ((classify_verify_sw w = Vo_Ok ↔ sw = 0x9000)
   ∧ (classify_change_pin_sw w = Cp_Ok ↔ sw = 0x9000)
   ∧ (classify_reset_retry_sw w = Ub_Ok ↔ sw = 0x9000)
   ∧ (classify_pin_status_sw w = Ps_Verified ↔ sw = 0x9000))
  ∧ (∀ r, (classify_verify_sw w = Vo_WrongPin r ↔ counter r)
     ∧ (classify_change_pin_sw w = Cp_WrongCurrentPin r ↔ counter r)
     ∧ (classify_reset_retry_sw w = Ub_WrongPuk r ↔ counter r)
     ∧ (classify_pin_status_sw w = Ps_Remaining r ↔ counter r)
     ∧ (classify_puk_status_sw w = Pk_Remaining r ↔ counter r))
  ∧ ((classify_verify_sw w = Vo_Locked ↔ sw = 0x6983 ∨ sw = 0x6984)
     ∧ (classify_change_pin_sw w = Cp_Locked ↔ sw = 0x6983 ∨ sw = 0x6984)
     ∧ (classify_pin_status_sw w = Ps_Locked ↔ sw = 0x6983 ∨ sw = 0x6984)
     ∧ (classify_reset_retry_sw w = Ub_PukLocked ↔ sw = 0x6983)
     ∧ (classify_reset_retry_sw w = Ub_Invalidated ↔ sw = 0x6984)
     ∧ (classify_change_pin_sw w = Cp_LengthError ↔ sw = 0x6700)
     ∧ (classify_reset_retry_sw w = Ub_LengthError ↔ sw = 0x6700))
  ∧ (∀ x, (classify_verify_sw w = Vo_Other x → x = sw)
     ∧ (classify_change_pin_sw w = Cp_Other x → x = sw)
     ∧ (classify_reset_retry_sw w = Ub_Other x → x = sw)
     ∧ (classify_pin_status_sw w = Ps_Other x → x = sw)
     ∧ (classify_puk_status_sw w = Pk_Other x → x = sw)).
Proof.
  intros w counter. unfold counter, w. clear counter w.
  assert (∀ w, StatusWord_canonical w → StatusWord_from_u16 sw = w ↔ sw = StatusWord_as_u16 w) as Heq
    by (intros; by apply from_u16_eq).
  pose proof (Heq Sw_Success I) as H90. pose proof (Heq Sw_AuthenticationBlocked I) as H83.
  pose proof (Heq Sw_ReferenceDataInvalidated I) as H84. pose proof (Heq Sw_WrongLength I) as H67.
  pose proof (λ r, PinIncorrect_code sw r Hsw) as H63.
  destruct (as_u16_from_u16 sw Hsw) as [Hx _]. clear Heq.
  cbn [StatusWord_as_u16] in H90, H83, H84, H67.
  change SW_SUCCESS with 0x9000 in H90. change SW_AUTHENTICATION_BLOCKED with 0x6983 in H83.
  change SW_REFERENCE_DATA_INVALIDATED with 0x6984 in H84. change SW_WRONG_LENGTH with 0x6700 in H67.
  setoid_rewrite <- H63. rewrite <- H90, <- H83, <- H84, <- H67. clear H90 H83 H84 H67 H63.
  revert Hx. generalize (StatusWord_from_u16 sw). intros w Hx.
  destruct w; (split; [|split; [|split]]); intros; split_and?; naive_solver.
Qed.

Lemma credential_outcomes_exact_witness :
  classify_verify_sw (StatusWord_from_u16 0x63C2) = Vo_WrongPin (mkPinRetries 2)
  ∧ classify_reset_retry_sw (StatusWord_from_u16 0x6984) = Ub_Invalidated.
Proof.
  split.
  - apply (proj1 (proj2 (credential_outcomes_exact 0x63C2 ltac:(by_decide)))). by vm_compute.
  - apply (proj1 (proj2 (proj2 (credential_outcomes_exact 0x6984 ltac:(by_decide))))). done.
Defined.
