(* ===== verification/RetryFloor.v ===== *)
(** Whether a command that can spend a credential's try may be sent:
    crates/refineid-lib-core/src/pin_retry_risk.rs; and which activation letter a
    card has and whether a PIN awaits activation:
    crates/refineid-lib-core/src/activation.rs. *)

From S2P Require Import Prelude StatusWord Pin Auth.

(** ** The retry floor *)

Inductive FlooredCredential := Fc_Pin1 | Fc_Pin2 | Fc_Puk.
#[export] Instance FlooredCredential_eq_dec : EqDecision FlooredCredential.
Proof. solve_decision. Defined.

Definition FlooredCredential_is_served_when_exhausted (c : FlooredCredential) : bool :=
  match c with Fc_Puk => true | _ => false end.
Definition FlooredCredential_from (slot : PinSlot) : FlooredCredential :=
  match slot with Pin1 => Fc_Pin1 | Pin2 => Fc_Pin2 end.

Definition RETRIES_PRISTINE : Z := 5.
Definition RETRIES_ONE_SPENT : Z := 4.
Definition RETRIES_FLOOR : Z := 3.
Definition RETRIES_BELOW_FLOOR : Z := 2.
Definition RETRIES_LOCKDOWN_IMMINENT : Z := 1.
Definition RETRIES_EXHAUSTED : Z := 0.

Inductive PinRetryRisk :=
| Prr_NormalOperatingConditions | Prr_DisturbanceDetected | Prr_SecurityIncidentDeclared
| Prr_CriticalThreatLevel | Prr_LockdownImminent | Prr_DefencesFallen.

Definition PinRetryRisk_from_retries (retries : PinRetries) : option PinRetryRisk :=
  let n := PinRetries_get retries in
  if n =? RETRIES_PRISTINE then Some Prr_NormalOperatingConditions
  else if n =? RETRIES_ONE_SPENT then Some Prr_DisturbanceDetected
  else if n =? RETRIES_FLOOR then Some Prr_SecurityIncidentDeclared
  else if n =? RETRIES_BELOW_FLOOR then Some Prr_CriticalThreatLevel
  else if n =? RETRIES_LOCKDOWN_IMMINENT then Some Prr_LockdownImminent
  else if n =? RETRIES_EXHAUSTED then Some Prr_DefencesFallen
  else None.

Definition PinRetryRisk_spends_a_last_try (r : PinRetryRisk) : bool :=
  match r with Prr_CriticalThreatLevel | Prr_LockdownImminent => true | _ => false end.
Definition PinRetryRisk_is_above_floor (r : PinRetryRisk) : bool :=
  match r with
  | Prr_NormalOperatingConditions | Prr_DisturbanceDetected | Prr_SecurityIncidentDeclared => true
  | _ => false
  end.
Definition PinRetryRisk_permits_reusable_cache (r : PinRetryRisk) : bool :=
  match r with Prr_NormalOperatingConditions => true | _ => false end.

Inductive RetryFloorRefusal :=
| Rfr_TriesBelowFloor (credential : FlooredCredential) (remaining : PinRetries)
| Rfr_Blocked (credential : FlooredCredential)
| Rfr_CounterUnreadable (credential : FlooredCredential).

Definition RetryFloorRefusal_credential (r : RetryFloorRefusal) : FlooredCredential :=
  match r with
  | Rfr_TriesBelowFloor credential _ | Rfr_Blocked credential | Rfr_CounterUnreadable credential => credential
  end.

Definition check_retry_floor (credential : FlooredCredential) (status : PinStatus)
  : result RetryFloorRefusal unit :=
  match status with
  | Ps_Verified =>
      match credential with
      | Fc_Pin1 | Fc_Pin2 => Ok tt
      | Fc_Puk => Err (Rfr_CounterUnreadable credential)
      end
  | Ps_Remaining remaining =>
      match PinRetryRisk_from_retries remaining with
      | Some risk =>
          if PinRetryRisk_is_above_floor risk then Ok tt
          else match risk with
               | Prr_DefencesFallen =>
                   if FlooredCredential_is_served_when_exhausted credential then Ok tt
                   else Err (Rfr_TriesBelowFloor credential remaining)
               | _ => Err (Rfr_TriesBelowFloor credential remaining)
               end
      | None => Err (Rfr_CounterUnreadable credential)
      end
  | Ps_Locked =>
      if FlooredCredential_is_served_when_exhausted credential then Ok tt
      else Err (Rfr_Blocked credential)
  | Ps_NoInfo | Ps_Other _ => Err (Rfr_CounterUnreadable credential)
  end.

Definition check_puk_retry_floor (status : PukStatus) : result RetryFloorRefusal unit :=
  let status := match status with
                | Pk_Remaining retries => Ps_Remaining retries
                | Pk_NoInfo => Ps_NoInfo
                | Pk_Locked | Pk_Invalidated => Ps_Locked
                | Pk_Other word => Ps_Other word
                end in
  check_retry_floor Fc_Puk status.

Definition check_activation_last_tries (credential : FlooredCredential) (status : PinStatus)
  : result RetryFloorRefusal unit :=
  match status with
  | Ps_Remaining remaining =>
      match PinRetryRisk_from_retries remaining with
      | Some risk => if PinRetryRisk_spends_a_last_try risk
                     then Err (Rfr_TriesBelowFloor credential remaining) else Ok tt
      | None => Err (Rfr_CounterUnreadable credential)
      end
  | Ps_Verified | Ps_Locked => Ok tt
  | Ps_NoInfo | Ps_Other _ => Err (Rfr_CounterUnreadable credential)
  end.

Definition pin1_status_permits_reusable_cache (pin1 : PinStatus) : bool :=
  match pin1 with
  | Ps_Remaining retries =>
      match PinRetryRisk_from_retries retries with
      | Some risk => PinRetryRisk_permits_reusable_cache risk
      | None => false
      end
  | _ => false
  end.

(** ** Activation *)

(** [der::DateTime], of which the year, month and day are read. *)
Class DateTime (D : Type) := { dt_year : D → Z; dt_month : D → Z; dt_day : D → Z }.

Definition PRESET_PIN_CUTOVER_YEAR : Z := 2026.
Definition PRESET_PIN_CUTOVER_MONTH : Z := 1.
Definition PRESET_PIN_CUTOVER_DAY : Z := 13.

(** [>=] on tuples: lexicographic. *)
Definition date_ge (a b : Z * Z * Z) : bool :=
  let '(ya, ma, da) := a in
  let '(yb, mb, db) := b in
  (ya >? yb) || ((ya =? yb) && ((ma >? mb) || ((ma =? mb) && (da >=? db)))).

Definition ActivationScheme_from_validity_start `{DateTime D} (not_before : D) : ActivationScheme :=
  let issued := (dt_year not_before, dt_month not_before, dt_day not_before) in
  let cutover := (PRESET_PIN_CUTOVER_YEAR, PRESET_PIN_CUTOVER_MONTH, PRESET_PIN_CUTOVER_DAY) in
  if date_ge issued cutover then As_PresetActivationPin else As_ActivationCodeIsPuk.

Definition ActivationScheme_for_card `{DateTime D} (numbering : PinReferenceScheme)
  (validity_start : option D) : option ActivationScheme :=
  match numbering with
  | Organizational => Some As_ActivationCodeIsPuk
  | Citizen => ActivationScheme_from_validity_start <$> validity_start
  end.

Definition ActivationScheme_activation_entry_digit_count (s : ActivationScheme) : Z :=
  match s with
  | As_ActivationCodeIsPuk => ActivationPinEight_LENGTH
  | As_PresetActivationPin => ActivationPinSeven_LENGTH
  end.

Inductive PinActivation := Pa_AwaitsActivation | Pa_Activated.
#[export] Instance PinActivation_eq_dec : EqDecision PinActivation.
Proof. solve_decision. Defined.

Definition PinActivation_judge (scheme : ActivationScheme) (changed : option bool)
  (status : option PinStatus) : PinActivation :=
  match changed with
  | Some false => Pa_AwaitsActivation
  | Some true => Pa_Activated
  | None =>
      match scheme, status with
      | As_ActivationCodeIsPuk, Some Ps_Locked => Pa_AwaitsActivation
      | As_ActivationCodeIsPuk, Some (Ps_Remaining retries) =>
          if PinRetries_is_exhausted retries then Pa_AwaitsActivation else Pa_Activated
      | _, _ => Pa_Activated
      end
  end.

(** ** Lemmas *)

Lemma from_retries_spec r :
  match PinRetryRisk_from_retries r with
  | Some Prr_NormalOperatingConditions => PinRetries_0 r = 5
  | Some Prr_DisturbanceDetected => PinRetries_0 r = 4
  | Some Prr_SecurityIncidentDeclared => PinRetries_0 r = 3
  | Some Prr_CriticalThreatLevel => PinRetries_0 r = 2
  | Some Prr_LockdownImminent => PinRetries_0 r = 1
  | Some Prr_DefencesFallen => PinRetries_0 r = 0
  | None => ¬ (0 ≤ PinRetries_0 r ≤ 5)
  end.
Proof.
  unfold PinRetryRisk_from_retries, PinRetries_get, RETRIES_PRISTINE, RETRIES_ONE_SPENT, RETRIES_FLOOR,
    RETRIES_BELOW_FLOOR, RETRIES_LOCKDOWN_IMMINENT, RETRIES_EXHAUSTED.
  repeat match goal with |- context [?x =? ?c] => destruct (Z.eqb_spec x c); [done|] end. lia.
Qed.

(** C5: the retry floor, decided exactly. A command that can spend a PIN try
    is let through only when the card reports the PIN verified or three to five
    tries left; one that can spend a PUK try only at three to five tries, at
    zero, or at a blocked or invalidated PUK, where the card spends nothing.
    So no command passes the floor at one or two tries left, nor at a counter
    the card did not report. The refusal names the credential, and below the
    floor the number of tries. The preset activation PIN passes at zero, three,
    four or five tries, verified or locked. *)
Theorem retry_floor_exact :
  (∀ slot status, check_retry_floor (FlooredCredential_from slot) status = Ok tt ↔
     status = Ps_Verified ∨ ∃ r, status = Ps_Remaining r ∧ 3 ≤ PinRetries_0 r ≤ 5)
  ∧ (∀ status, check_puk_retry_floor status = Ok tt ↔
     status = Pk_Locked ∨ status = Pk_Invalidated
     ∨ ∃ r, status = Pk_Remaining r ∧ (3 ≤ PinRetries_0 r ≤ 5 ∨ PinRetries_0 r = 0))
  ∧ (∀ c status, check_activation_last_tries c status = Ok tt ↔
     status = Ps_Verified ∨ status = Ps_Locked
     ∨ ∃ r, status = Ps_Remaining r ∧ (3 ≤ PinRetries_0 r ≤ 5 ∨ PinRetries_0 r = 0))
  ∧ (∀ c r, 1 ≤ PinRetries_0 r ≤ 2 →
     check_retry_floor c (Ps_Remaining r) = Err (Rfr_TriesBelowFloor c r)
     ∧ check_activation_last_tries c (Ps_Remaining r) = Err (Rfr_TriesBelowFloor c r))
  ∧ (∀ c status e, check_retry_floor c status = Err e → RetryFloorRefusal_credential e = c)
  ∧ (∀ status, pin1_status_permits_reusable_cache status = true ↔
     ∃ r, status = Ps_Remaining r ∧ PinRetries_0 r = 5).
Proof.
  split_and!.
  - intros slot status. destruct status as [|r| | |sw]; cbn; try by destruct slot; naive_solver.
    pose proof (from_retries_spec r) as Hr.
    destruct (PinRetryRisk_from_retries r) as [[]|], slot; cbn; naive_solver lia.
  - intros status. unfold check_puk_retry_floor. destruct status as [r| | | |sw]; cbn; try naive_solver.
    pose proof (from_retries_spec r) as Hr.
    destruct (PinRetryRisk_from_retries r) as [[]|]; cbn; naive_solver lia.
  - intros c status. destruct status as [|r| | |sw]; cbn; try naive_solver.
    pose proof (from_retries_spec r) as Hr.
    destruct (PinRetryRisk_from_retries r) as [[]|]; cbn; naive_solver lia.
  - intros c r Hr. cbn. pose proof (from_retries_spec r) as Hs.
    destruct (PinRetryRisk_from_retries r) as [[]|]; cbn; try lia; done.
  - intros c status e. destruct status as [|r| | |sw]; cbn; try (destruct c; naive_solver).
    destruct (PinRetryRisk_from_retries r) as [[]|]; cbn; destruct c; naive_solver.
  - intros status. destruct status as [|r| | |sw]; cbn; try naive_solver.
    pose proof (from_retries_spec r) as Hr.
    destruct (PinRetryRisk_from_retries r) as [[]|]; cbn; naive_solver lia.
Qed.

Lemma retry_floor_exact_witness :
  check_retry_floor Fc_Pin1 (Ps_Remaining (mkPinRetries 2))
  = Err (Rfr_TriesBelowFloor Fc_Pin1 (mkPinRetries 2)).
Proof. apply (proj1 (proj2 (proj2 (proj2 retry_floor_exact)))). cbn. lia. Defined.

Lemma date_ge_spec y m d y' m' d' :
  0 ≤ m < 100 → 0 ≤ m' < 100 → 0 ≤ d < 100 → 0 ≤ d' < 100 →
  date_ge (y, m, d) (y', m', d') = true ↔ y' * 10000 + m' * 100 + d' ≤ y * 10000 + m * 100 + d.
Proof. intros. unfold date_ge. rewrite !orb_true_iff, !andb_true_iff, !orb_true_iff, !andb_true_iff. lia. Qed.

(** Activation. An organization card's letter carries the PUK; a citizen
    card's letter is judged by the start of its validity: the PINs are preset
    exactly from 13 January 2026 on, and an unknown date gives no judgement. A
    PIN awaits activation exactly when the card says it was never changed, or,
    when the card says nothing about that and the letter carries the PUK, when
    the PIN is locked or has no tries left. *)
Theorem activation_judgement `{DateTime D} :
  (∀ v : option D, ActivationScheme_for_card Organizational v = Some As_ActivationCodeIsPuk)
  ∧ (ActivationScheme_for_card Citizen (@None D) = None)
  ∧ (∀ d : D, 1 ≤ dt_month d ≤ 12 → 1 ≤ dt_day d ≤ 31 →
     ActivationScheme_for_card Citizen (Some d) = Some As_PresetActivationPin
     ↔ 20260113 ≤ dt_year d * 10000 + dt_month d * 100 + dt_day d)
  ∧ (∀ scheme changed status, PinActivation_judge scheme changed status = Pa_AwaitsActivation ↔
     changed = Some false
     ∨ (changed = None ∧ scheme = As_ActivationCodeIsPuk
        ∧ (status = Some Ps_Locked ∨ status = Some (Ps_Remaining (mkPinRetries 0))))).
Proof.
  split_and!; [done|done| |].
  - intros d Hm Hd. cbn. unfold ActivationScheme_from_validity_start, PRESET_PIN_CUTOVER_YEAR,
      PRESET_PIN_CUTOVER_MONTH, PRESET_PIN_CUTOVER_DAY.
    pose proof (date_ge_spec (dt_year d) (dt_month d) (dt_day d) 2026 1 13) as Hge.
    destruct (date_ge _ _); [split; [intros _; apply Hge; lia|done]|].
    split; [done|]. intros Hle. by destruct Hge as [_ Hge]; try lia; specialize (Hge Hle).
  - intros scheme changed status. destruct changed as [[]|]; cbn; try naive_solver.
    destruct scheme; [|naive_solver]. destruct status as [[|[n]| | |]|]; try naive_solver.
    unfold PinRetries_is_exhausted. cbn. destruct (Z.eqb_spec n 0) as [->|]; naive_solver.
Qed.

#[local] Instance triple_DateTime : DateTime (Z * Z * Z) := {
  dt_year := λ '(y, _, _), y; dt_month := λ '(_, m, _), m; dt_day := λ '(_, _, d), d
}.

Lemma activation_judgement_witness :
  ActivationScheme_for_card Citizen (Some (2026, 1, 13)) = Some As_PresetActivationPin.
Proof.
  apply (proj1 (proj2 (proj2 (activation_judgement (D:=Z*Z*Z)))) (2026, 1, 13)); cbn; lia.
Defined.
