(* ===== verification/Pkcs15.v ===== *)
(** The PKCS#15 file system on the card: crates/refineid-lib-core/src/pkcs15.rs,
    selection of applications and files and the READ BINARY loops. The
    refineid_pkcs15 crate's directory parser is the class
    [AuthenticationObjectsOps]. *)

From S2P Require Import Prelude Ber StatusWord Transport Apdu Auth.

(** ** Constants *)

Definition PKCS15_AID : bytes := [0xA0; 0; 0; 0; 0x63; 0x50; 0x4B; 0x43; 0x53; 0x2D; 0x31; 0x35].
Definition EF_AUTH_CERT_FID : FileId := mkFileId 0x43 0x31.
Definition EF_SIGN_CERT_FID : FileId := mkFileId 0x43 0x32.
Definition EF_AUTH_CERT_ALT_FID : FileId := mkFileId 0x43 0x33.
Definition EF_ROOT_CA_FID : FileId := mkFileId 0x43 0x34.
Definition EF_SIGN_CERT_ALT_FID : FileId := mkFileId 0x43 0x35.
Definition EF_ISSUING_CA_ECC_FID : FileId := mkFileId 0x43 0x36.
Definition EF_TOKEN_INFO_FID : FileId := mkFileId 0x50 0x32.
Definition DF_ESIGN_FID : FileId := mkFileId 0x50 0x16.
(** The bytes of ["E.SIGN"]. *)
Definition ESIGN_AID : bytes := [0x45; 0x2E; 0x53; 0x49; 0x47; 0x4E].

Inductive SlotPath := Sp_UnderPkcs15App | Sp_UnderDf5016 | Sp_UnderMf.
Inductive CertSlot :=
| Cs_Authentication | Cs_Signature | Cs_AuthenticationAlt | Cs_RootCa | Cs_SignatureAlt | Cs_IssuingCaEcc.

Definition CertSlot_fid (s : CertSlot) : FileId :=
  match s with
  | Cs_Authentication => EF_AUTH_CERT_FID
  | Cs_Signature => EF_SIGN_CERT_FID
  | Cs_AuthenticationAlt => EF_AUTH_CERT_ALT_FID
  | Cs_RootCa => EF_ROOT_CA_FID
  | Cs_SignatureAlt => EF_SIGN_CERT_ALT_FID
  | Cs_IssuingCaEcc => EF_ISSUING_CA_ECC_FID
  end.

Definition CertSlot_label (s : CertSlot) : string :=
  match s with
  | Cs_Authentication => "authentication (EF.4331)"
  | Cs_Signature => "qualified signature (EF.4332)"
  | Cs_AuthenticationAlt => "authentication, alt slot (EF.4333)"
  | Cs_RootCa => "on-card issuing root CA (EF.4334)"
  | Cs_SignatureAlt => "qualified signature, alt slot (EF.4335)"
  | Cs_IssuingCaEcc => "issuing intermediate CA, G4E ECC (EF.4336)"
  end.

Definition CertSlot_path (s : CertSlot) : SlotPath :=
  match s with
  | Cs_Authentication => Sp_UnderPkcs15App
  | Cs_Signature | Cs_AuthenticationAlt | Cs_SignatureAlt => Sp_UnderDf5016
  | Cs_RootCa | Cs_IssuingCaEcc => Sp_UnderMf
  end.

Definition READ_CHUNK : Z := 0x80.
Definition MAX_CERT_BYTES : Z := 0x4000.

(** The [usize] additions are [checked_add] of values far below the bound. *)
Definition der_object_total_length (prefix : bytes) : result unit (option Z) :=
  match prefix with
  | _ :: first :: rest =>
      if Z.land first 0x80 =? 0 then Ok (Some (2 + first))
      else
        let octet_count := Z.land first 0x7F in
        if (octet_count =? 0) || (octet_count >? 2) then Err tt
        else
          let header_len := 2 + octet_count in
          if len prefix <? header_len then Ok None
          else Ok (Some (header_len + foldl (λ content_len byte, Z.shiftl content_len 8 + byte) 0
                           (take (Z.to_nat octet_count) rest)))
  | _ => Ok None
  end.

Inductive Pkcs15Error (TE : Type) :=
| P15_Transport (e : TE)
| P15_Sw (sw : Z)
| P15_Aid (e : AidError)
| P15_Empty
| P15_TooLarge
| P15_InvalidData (what : string).
Arguments P15_Transport {TE} e.
Arguments P15_Sw {TE} sw.
Arguments P15_Aid {TE} e.
Arguments P15_Empty {TE}.
Arguments P15_TooLarge {TE}.
Arguments P15_InvalidData {TE} what.

(** What the program uses of [refineid_pkcs15::AuthenticationObjects]. *)
Class AuthenticationObjectsOps (R O : Type) := {
  EF_AOD_FID : FileId;
  ao_parse : bytes → option O;
  ao_passwords : O → list (Z * R)
}.

Definition SELECT_P1_ANY_BY_FID : Z := 0x00.
Definition SELECT_P1_CHILD_DF : Z := 0x01.
Definition SELECT_P1_BY_NAME : Z := 0x04.
Definition SELECT_FID_LC : Z := 2.

Definition select_no_fci (p1 : Z) (fid : FileId) : CommandApdu :=
  CommandApdu_new [0x00; 0xA4; p1; 0x0C; SELECT_FID_LC; fid_hi fid; fid_lo fid].
Definition mf_select_attempts : CommandApdu * CommandApdu :=
  (select_no_fci SELECT_P1_ANY_BY_FID FileId_MF, select_no_fci SELECT_P1_BY_NAME FileId_MF).
Definition child_df_select_attempts (fid : FileId) : CommandApdu * CommandApdu :=
  (select_no_fci SELECT_P1_CHILD_DF fid, select_no_fci SELECT_P1_ANY_BY_FID fid).

Section pkcs15.
Context `{CardTransport T E}.
Abbreviation TxError := (TransportDispatchError E).

(** [transmit(..).map_err(Pkcs15Error::Transport)]. *)
Definition p15_transmit (c : CommandApdu) : act T (Pkcs15Error TxError) ResponseApdu :=
  act_map_err P15_Transport (transmit (CommandApdu_as_bytes c)).

Definition first_accepted (attempts : CommandApdu * CommandApdu) : act T TxError StatusWord :=
  let (first, second) := attempts in
  do! r := transmit (CommandApdu_as_bytes first) in
  if ResponseApdu_is_ok r then act_ret Sw_Success
  else
    do! fallback := transmit (CommandApdu_as_bytes second) in
    act_ret (if ResponseApdu_is_ok fallback then Sw_Success else ResponseApdu_status_word fallback).

Definition accepted_or_refusal (status : StatusWord) : result (Pkcs15Error TxError) unit :=
  if StatusWord_is_success status then Ok tt else Err (P15_Sw (StatusWord_as_u16 status)).

Definition select_pkcs15_application : act T (Pkcs15Error TxError) unit :=
  do! aid := act_lift (map_err P15_Aid (Aid_from_slice PKCS15_AID)) in
  do! r := p15_transmit (SelectByAidNoFci_into_apdu (mkSelectByAidNoFci aid)) in
  if negb (ResponseApdu_is_ok r) then act_err (P15_Sw (ResponseApdu_sw r)) else act_ret tt.

(** The [for] loop over the two attempts. *)
Fixpoint select_ef_attempts (attempts : list CommandApdu) (last_sw : Z)
  : act T (Pkcs15Error TxError) unit :=
  match attempts with
  | [] => act_err (P15_Sw last_sw)
  | apdu :: attempts =>
      do! response := p15_transmit apdu in
      if ResponseApdu_is_ok response then act_ret tt
      else select_ef_attempts attempts (ResponseApdu_sw response)
  end.

Definition select_ef (fid : FileId) : act T (Pkcs15Error TxError) unit :=
  select_ef_attempts
    [SelectEfNoFci_into_apdu (mkSelectEfNoFci fid);
     SelectFile_into_apdu (mkSelectFile Cla_Plain (Sft_AnyByFileId (Some fid)) Srm_None)] 0.

Definition select_mf : act T (Pkcs15Error TxError) unit :=
  do! sw := act_map_err P15_Transport (first_accepted mf_select_attempts) in
  act_lift (accepted_or_refusal sw).

Definition select_child_df (fid : FileId) : act T (Pkcs15Error TxError) unit :=
  do! sw := act_map_err P15_Transport (first_accepted (child_df_select_attempts fid)) in
  act_lift (accepted_or_refusal sw).

Definition select_esign_directory : act T TxError StatusWord :=
  do! mf := first_accepted mf_select_attempts in
  if negb (StatusWord_is_success mf) then act_ret mf
  else
    match Aid_from_slice ESIGN_AID with
    | Ok aid =>
        do! by_name := transmit (CommandApdu_as_bytes (SelectByAidNoFci_into_apdu (mkSelectByAidNoFci aid))) in
        if ResponseApdu_is_ok by_name then act_ret Sw_Success
        else first_accepted (child_df_select_attempts DF_ESIGN_FID)
    | _ => first_accepted (child_df_select_attempts DF_ESIGN_FID)
    end.

(** ** READ BINARY to the end of the file *)

Definition is_end_of_file (r : ResponseApdu) : bool :=
  match ResponseApdu_status_word r with Sw_EndOfFile => true | _ => false end.

(** One round of the [while]: the loop state is [(collected, offset)]. *)
Definition read_to_end_round (cap : Z) (s : bytes * Z)
  : act T (Pkcs15Error TxError) ((bytes * Z) + bytes) :=
  let '(collected, offset) := s in
  if negb (offset <? cap) then act_ret (inr collected)
  else
    let remaining := cap - offset in
    let want := Z.min remaining READ_CHUNK in
    if offset >? u16_max then act_err P15_TooLarge
    else
      do! r := p15_transmit (ReadBinaryByOffset_into_apdu (mkReadBinaryByOffset offset want)) in
      let eof := is_end_of_file r in
      if negb (ResponseApdu_is_ok r) && negb eof then act_err (P15_Sw (ResponseApdu_sw r))
      else
        let body_len := len (rsp_body r) in
        let collected := collected ++ rsp_body r in
        if (body_len =? 0) || (body_len <? want) || eof then act_ret (inr collected)
        else act_ret (inl (collected, offset + body_len)).

Definition read_fuel : nat := Z.to_nat (MAX_CERT_BYTES + 2).

Definition read_binary_to_end (expected_size : option Z) : act T (Pkcs15Error TxError) bytes :=
  let cap := Z.min (default MAX_CERT_BYTES expected_size) MAX_CERT_BYTES in
  do! collected := act_loop read_fuel (read_to_end_round cap) ([], 0) in
  match collected with
  | [] => act_err P15_Empty
  | _ => if len collected >? MAX_CERT_BYTES then act_err P15_TooLarge else act_ret collected
  end.

(** ** READ BINARY of one DER object *)

(** One round of the [loop]: the state is [(collected, total_length)]. *)
Definition read_der_round (what : string) (s : bytes * option Z)
  : act T (Pkcs15Error TxError) ((bytes * option Z) + bytes) :=
  let '(collected, total_length) := s in
  let cap := default MAX_CERT_BYTES total_length in
  if len collected >=? cap then act_ret (inr (take (Z.to_nat cap) collected))
  else
    let remaining := cap - len collected in
    let want := Z.min remaining READ_CHUNK in
    if len collected >? u16_max then act_err P15_TooLarge
    else
      do! response := p15_transmit (ReadBinaryByOffset_into_apdu (mkReadBinaryByOffset (len collected) want)) in
      let eof := is_end_of_file response in
      if negb (ResponseApdu_is_ok response) && negb eof then act_err (P15_Sw (ResponseApdu_sw response))
      else if len (rsp_body response) >? want then act_err (P15_InvalidData what)
      else if len (rsp_body response) =? 0 then
        (if len collected =? 0 then act_err P15_Empty else act_err (P15_InvalidData what))
      else
        let body_len := len (rsp_body response) in
        let collected := collected ++ rsp_body response in
        do! total_length := act_lift
          match total_length with
          | Some total => Ok (Some total)
          | None =>
              match der_object_total_length collected with
              | Ok (Some total) => if total >? MAX_CERT_BYTES then Err P15_TooLarge else Ok (Some total)
              | Ok None => Ok None
              | _ => Err (P15_InvalidData what)
              end
          end in
        match total_length with
        | Some total =>
            if len collected >=? total then act_ret (inr (take (Z.to_nat total) collected))
            else if (body_len <? want) || eof then act_err (P15_InvalidData what)
            else act_ret (inl (collected, total_length))
        | None =>
            if (body_len <? want) || eof then act_err (P15_InvalidData what)
            else act_ret (inl (collected, total_length))
        end.

Definition read_binary_der_object (what : string) : act T (Pkcs15Error TxError) bytes :=
  act_loop read_fuel (read_der_round what) ([], None).

Definition read_certificate (slot : CertSlot) : act T (Pkcs15Error TxError) bytes :=
  match CertSlot_path slot with
  | Sp_UnderPkcs15App =>
      do! _ := select_pkcs15_application in
      do! _ := select_ef (CertSlot_fid slot) in
      read_binary_der_object (CertSlot_label slot)
  | Sp_UnderDf5016 =>
      do! _ := select_mf in
      do! _ := select_child_df DF_ESIGN_FID in
      do! _ := select_ef (CertSlot_fid slot) in
      read_binary_der_object (CertSlot_label slot)
  | Sp_UnderMf =>
      do! _ := select_mf in
      do! _ := select_ef (CertSlot_fid slot) in
      read_binary_der_object (CertSlot_label slot)
  end.

Context {R O} `{AuthenticationObjectsOps R O}.

Definition read_authentication_objects : act T (Pkcs15Error TxError) O :=
  do! _ := select_pkcs15_application in
  do! _ := select_ef (EF_AOD_FID (R:=R) (O:=O)) in
  do! bs := read_binary_to_end None in
  act_lift (ok_or (ao_parse bs) (P15_InvalidData "EF.AOD")).
End pkcs15.

(** ** Lemmas: DER lengths *)

Lemma der_total_app p q n :
  der_object_total_length p = Ok (Some n) → der_object_total_length (p ++ q) = Ok (Some n).
Proof.
  destruct p as [|a [|first rest]]; [done..|]. unfold der_object_total_length. cbn [app].
  destruct (Z.land first 0x80 =? 0); [done|].
  destruct ((Z.land first 0x7F =? 0) || (Z.land first 0x7F >? 2)) eqn:Hc; [done|].
  apply orb_false_iff in Hc as [H0 H2].
  rewrite !len_cons, len_app. pose proof (len_nonneg q).
  destruct (Z.ltb_spec (1 + (1 + len rest)) (2 + Z.land first 0x7F)); [done|].
  destruct (Z.ltb_spec (1 + (1 + (len rest + len q))) (2 + Z.land first 0x7F)); [lia|].
  intros [= <-]. do 3 f_equal. rewrite take_app_le; [done|]. unfold len in *. lia.
Qed.

Lemma der_fold_nonneg l : bytes_ok l → 0 ≤ foldl (λ c b, Z.shiftl c 8 + b) 0 l.
Proof.
  induction l as [|b l IH] using rev_ind; [done|]. intros [Hl [Hb _]%Forall_cons_iff]%Forall_app.
  rewrite foldl_app. cbn [foldl]. rewrite Z.shiftl_mul_pow2 by lia. specialize (IH Hl).
  unfold is_byte in Hb. lia.
Qed.

Lemma der_total_header p n :
  bytes_ok p → der_object_total_length p = Ok (Some n) →
  2 ≤ n ∧ ∀ m : nat, n ≤ Z.of_nat m ∨ (4 ≤ m)%nat → der_object_total_length (take m p) = Ok (Some n).
Proof.
  destruct p as [|a [|first rest]]; [done..|]. unfold der_object_total_length.
  intros (_ & Hf & Hrest)%Forall_cons_iff2. unfold is_byte in Hf.
  destruct (Z.eqb_spec (Z.land first 0x80) 0) as [Hs|Hs].
  { intros [= <-]. split; [lia|]. intros m Hm. destruct m as [|[|m]]; [lia..|]. cbn [take].
    by rewrite Hs. }
  destruct ((Z.land first 0x7F =? 0) || (Z.land first 0x7F >? 2)) eqn:Hc; [done|].
  pose proof Hc as [H0 H2]%orb_false_iff.
  set (k := Z.land first 0x7F) in *. assert (k = 1 ∨ k = 2) as Hk.
  { assert (0 ≤ k) by (apply Z.land_nonneg; lia). lia. }
  rewrite !len_cons. destruct (Z.ltb_spec (1 + (1 + len rest)) (2 + k)) as [|Hlen]; [done|].
  intros [= <-].
  assert (bytes_ok (take (Z.to_nat k) rest)) as Htk by (by apply Forall_take).
  pose proof (der_fold_nonneg _ Htk). split; [lia|]. intros m Hm.
  destruct m as [|[|m]]; [lia..|]. cbn [take].
  destruct (Z.eqb_spec (Z.land first 0x80) 0); [done|]. fold k. rewrite Hc.
  rewrite !len_cons. assert (k ≤ len (take m rest)) as Hkm.
  { unfold len in *. rewrite length_take. lia. }
  destruct (Z.ltb_spec (1 + (1 + len (take m rest))) (2 + k)); [lia|].
  rewrite take_take. replace (Z.to_nat k `min` m)%nat with (Z.to_nat k); [done|].
  unfold len in Hkm. rewrite length_take in Hkm. lia.
Qed.

(** ** Lemmas: no panic *)

Section pkcs15_lemmas.
Context `{CardTransport T E}.
Context (Htransport : ∀ c (t : T), (transmit_outcome c t).2 ≠ Panic).

Lemma p15_transmit_no_panic c (t : T) : (p15_transmit c t).2 ≠ Panic.
Proof. apply act_map_err_no_panic. by apply transmit_no_panic. Qed.

Lemma first_accepted_no_panic a (t : T) : (first_accepted a t).2 ≠ Panic.
Proof.
  destruct a as [c1 c2]. unfold first_accepted.
  apply act_bind_no_panic; [by apply transmit_no_panic|]. intros r t'.
  destruct (ResponseApdu_is_ok r); [done|].
  by apply act_bind_no_panic; [by apply transmit_no_panic|].
Qed.

Lemma select_esign_no_panic (t : T) : (select_esign_directory t).2 ≠ Panic.
Proof.
  unfold select_esign_directory. apply act_bind_no_panic; [apply first_accepted_no_panic|].
  intros mf t'. destruct (negb _); [done|]. destruct (Aid_from_slice _).
  - apply act_bind_no_panic; [by apply transmit_no_panic|]. intros r t''.
    destruct (ResponseApdu_is_ok r); [done|apply first_accepted_no_panic].
  - apply first_accepted_no_panic.
  - apply first_accepted_no_panic.
Qed.

Lemma select_pkcs15_no_panic (t : T) : (select_pkcs15_application t).2 ≠ Panic.
Proof.
  unfold select_pkcs15_application. apply act_bind_no_panic; [done|]. intros aid t'.
  apply act_bind_no_panic; [apply p15_transmit_no_panic|]. intros r t''. by destruct (negb _).
Qed.

Lemma select_ef_attempts_no_panic l sw (t : T) : (select_ef_attempts l sw t).2 ≠ Panic.
Proof.
  revert sw t; induction l as [|c l IH]; intros sw t; [done|]. cbn [select_ef_attempts].
  apply act_bind_no_panic; [apply p15_transmit_no_panic|]. intros r t'.
  by destruct (ResponseApdu_is_ok r).
Qed.

Lemma select_mf_no_panic (t : T) : (select_mf t).2 ≠ Panic.
Proof.
  unfold select_mf. apply act_bind_no_panic; [apply act_map_err_no_panic, first_accepted_no_panic|].
  intros sw t'. unfold act_lift, accepted_or_refusal. by destruct (StatusWord_is_success sw).
Qed.

Lemma select_child_df_no_panic f (t : T) : (select_child_df f t).2 ≠ Panic.
Proof.
  unfold select_child_df.
  apply act_bind_no_panic; [apply act_map_err_no_panic, first_accepted_no_panic|].
  intros sw t'. unfold act_lift, accepted_or_refusal. by destruct (StatusWord_is_success sw).
Qed.

(** A round of either loop sends one command and does not panic. *)
Lemma read_to_end_round_no_panic cap s (t : T) : (read_to_end_round cap s t).2 ≠ Panic.
Proof.
  destruct s as [collected offset]. unfold read_to_end_round.
  destruct (negb _); [done|]. destruct (_ >? _); [done|].
  apply act_bind_no_panic; [apply p15_transmit_no_panic|]. intros r t'.
  repeat case_match; done.
Qed.

Lemma der_total_no_panic p : der_object_total_length p ≠ Panic.
Proof. unfold der_object_total_length. repeat case_match; done. Qed.

Lemma read_der_round_no_panic what s (t : T) : (read_der_round what s t).2 ≠ Panic.
Proof.
  destruct s as [collected total]. unfold read_der_round.
  destruct (_ >=? _); [done|]. destruct (_ >? _); [done|].
  apply act_bind_no_panic; [apply p15_transmit_no_panic|]. intros r t'.
  destruct (negb _ && _); [done|]. destruct (_ >? _); [done|].
  destruct (_ =? 0); [by destruct (_ =? 0)|].
  apply act_bind_no_panic; [|intros [n|] t''; repeat case_match; done].
  unfold act_lift. cbn [snd]. destruct total as [n|]; [done|].
  pose proof (der_total_no_panic (collected ++ rsp_body r)).
  destruct (der_object_total_length _) as [[n|]|e|]; [by destruct (_ >? _)|done..].
Qed.
End pkcs15_lemmas.

(** ** Lemmas: the loops end, and what they return *)

Section pkcs15_loops.
Context `{CardTransport T E}.

Lemma read_to_end_round_inl cap collected offset (t t' : T) c' o' :
  read_to_end_round cap (collected, offset) t = (t', Ok (inl (c', o'))) →
  offset < cap ∧ offset + Z.min (cap - offset) READ_CHUNK ≤ o'.
Proof.
  unfold read_to_end_round. destruct (Z.ltb_spec offset cap); [|done]. cbn [negb].
  destruct (_ >? _); [done|]. intros (t1 & r & _ & Hr)%act_bind_inv_ok.
  destruct (negb _ && _); [done|].
  destruct ((len (rsp_body r) =? 0) || (len (rsp_body r) <? Z.min (cap - offset) READ_CHUNK)
    || is_end_of_file r) eqn:Hc; [done|]. injection Hr as _ _ <-.
  apply orb_false_iff in Hc as [[_ Hc]%orb_false_iff _]. lia.
Qed.

Lemma read_to_end_loop_total cap (t : T) :
  (∀ c (t : T), (transmit_outcome c t).2 ≠ Panic) → 0 ≤ cap ≤ MAX_CERT_BYTES →
  (act_loop read_fuel (read_to_end_round cap) ([], 0) t).2 ≠ Panic.
Proof.
  intros Ht Hcap.
  apply (act_loop_total (λ '(_, offset), Z.max 0 (cap - offset)) (λ _, True)).
  - intros s t' _. by apply read_to_end_round_no_panic.
  - intros [c o] t1 t2 [c' o'] _ Hr. apply read_to_end_round_inl in Hr. unfold READ_CHUNK in *.
    split; [done|]. lia.
  - done.
  - unfold read_fuel. rewrite Z2Nat.id by (unfold MAX_CERT_BYTES; lia). lia.
  - lia.
Qed.

(** The loop invariant of the DER reader: the length is known as soon as there
    is anything, it is the length the object's own header gives, and it is
    within the cap. *)
Definition der_inv (s : bytes * option Z) : Prop :=
  let '(collected, total) := s in
  bytes_ok collected ∧
  match total with
  | None => collected = []
  | Some n => der_object_total_length collected = Ok (Some n) ∧ n ≤ MAX_CERT_BYTES
  end.

(** The object of a buffer, cut at its own length. *)
Definition is_sized (bs : bytes) : Prop :=
  len bs ≤ MAX_CERT_BYTES ∧ der_object_total_length bs = Ok (Some (len bs)).

Lemma is_sized_take collected n :
  bytes_ok collected → der_object_total_length collected = Ok (Some n) → n ≤ MAX_CERT_BYTES →
  n ≤ len collected → is_sized (take (Z.to_nat n) collected) ∧ bytes_ok (take (Z.to_nat n) collected).
Proof.
  intros Hok Hd Hmax Hn. destruct (der_total_header _ _ Hok Hd) as [H2 Htake].
  assert (len (take (Z.to_nat n) collected) = n) as Hl
    by (unfold len in *; rewrite length_take; lia).
  split; [split; rewrite Hl; [done|]; apply Htake; lia|by apply Forall_take].
Qed.

Lemma der_total_long p : 4 ≤ len p → der_object_total_length p ≠ Ok None.
Proof.
  destruct p as [|a [|first rest]]; [by intros Hl|by intros Hl|]. intros Hl.
  unfold der_object_total_length. destruct (_ =? 0); [done|].
  destruct ((Z.land first 0x7F =? 0) || (Z.land first 0x7F >? 2)) eqn:Hc; [done|].
  apply orb_false_iff in Hc as [H0 H2].
  match goal with |- context [?x <? ?y] => destruct (Z.ltb_spec x y); [lia|done] end.
Qed.

(** One round: what it returns is the object, what it continues with has the
    invariant and more bytes. *)
Lemma read_der_round_spec what s (t t' : T) r :
  (∀ c (t t' : T) rsp, transmit_outcome c t = (t', Ok (To_Response rsp)) → bytes_ok (rsp_body rsp)) →
  der_inv s → read_der_round what s t = (t', Ok r) →
  match r with
  | inl s' => der_inv s' ∧ len s.1 < len s'.1 ∧ len s.1 < MAX_CERT_BYTES
  | inr bs => is_sized bs ∧ bytes_ok bs
  end.
Proof.
  intros Hbytes Hinv. destruct s as [collected total]. unfold read_der_round. cbn [fst].
  set (cap := default MAX_CERT_BYTES total).
  assert (cap ≤ MAX_CERT_BYTES) as Hcap by (destruct Hinv as [_ Hinv]; destruct total; simpl in *; lia).
  destruct (Z.geb_spec (len collected) cap) as [Hge|Hlt].
  { intros [= _ <-]. destruct Hinv as [Hok Hinv]. destruct total as [n|]; simpl in *.
    - destruct Hinv as [Hd Hn]. by apply is_sized_take.
    - rewrite Hinv in Hge. by apply Z.le_ngt in Hge. }
  destruct (_ >? _); [done|]. intros (t1 & rsp & Hrsp & H1)%act_bind_inv_ok.
  assert (bytes_ok (rsp_body rsp)) as Hb.
  { unfold p15_transmit, act_map_err in Hrsp.
    destruct (transmit _ t) as [t2 [rsp'|e|]] eqn:Htr; try done. injection Hrsp as _ <-.
    unfold transmit in Htr. apply act_bind_inv_ok in Htr as (t3 & o & Ho & Hk).
    unfold act_map_err in Ho. destruct (transmit_outcome _ t) as [t4 [o'|e|]] eqn:Hout; try done.
    injection Ho as _ <-. destruct o' as [r'| | | | |]; try done. injection Hk as _ <-.
    by eapply Hbytes. }
  destruct (negb _ && _); [done|]. destruct (_ >? _); [done|].
  destruct (Z.eqb_spec (len (rsp_body rsp)) 0) as [|Hne]; [by destruct (_ =? 0)|].
  pose proof (len_nonneg (rsp_body rsp)).
  apply act_bind_inv_ok in H1 as (t2 & total' & Htotal & H2).
  destruct Hinv as [Hok Hinv].
  assert (bytes_ok (collected ++ rsp_body rsp)) as Hok' by (by apply Forall_app).
  assert (match total' with
          | Some n => der_object_total_length (collected ++ rsp_body rsp) = Ok (Some n) ∧ n ≤ MAX_CERT_BYTES
          | None => total = None ∧ der_object_total_length (collected ++ rsp_body rsp) = Ok None
          end) as Ht'.
  { unfold act_lift in Htotal. destruct total as [n|].
    - injection Htotal as _ <-. destruct Hinv as [Hd Hn]. split; [by apply der_total_app|done].
    - destruct (der_object_total_length _) as [[n|]|e|]; [|by injection Htotal as _ <-|done..].
      destruct (Z.gtb_spec n MAX_CERT_BYTES); [done|]. by injection Htotal as _ <-. }
  destruct total' as [n|].
  - destruct Ht' as [Hd Hn]. destruct (Z.geb_spec (len (collected ++ rsp_body rsp)) n).
    + injection H2 as _ <-. by apply is_sized_take.
    + destruct (_ || _); [done|]. injection H2 as _ <-. cbn [fst]. rewrite len_app.
      split; [by split|]. split; lia.
  - destruct Ht' as [-> Hd]. simpl in *. subst collected. unfold cap in *. clear cap Hcap.
    change ([] ++ rsp_body rsp) with (rsp_body rsp) in *. change (len []) with 0 in *.
    destruct (Z.ltb_spec (len (rsp_body rsp)) (Z.min (MAX_CERT_BYTES - 0) READ_CHUNK)) as [|Hfull]; [done|].
    exfalso. apply (der_total_long (rsp_body rsp)); [|done].
    unfold MAX_CERT_BYTES, READ_CHUNK in Hfull. lia.
Qed.

Lemma read_der_loop_total what (t : T) :
  (∀ c (t : T), (transmit_outcome c t).2 ≠ Panic) →
  (∀ c (t t' : T) rsp, transmit_outcome c t = (t', Ok (To_Response rsp)) → bytes_ok (rsp_body rsp)) →
  (read_binary_der_object what t).2 ≠ Panic.
Proof.
  intros Ht Hb. unfold read_binary_der_object.
  apply (act_loop_total (λ '(collected, _), Z.max 0 (MAX_CERT_BYTES + 1 - len collected)) der_inv).
  - intros s t' _. by apply read_der_round_no_panic.
  - intros [c o] t1 t2 [c' o'] Hinv Hr.
    destruct (read_der_round_spec _ _ _ _ _ Hb Hinv Hr) as (Hi & Hl & Hm). cbn [fst] in *.
    split; [done|]. lia.
  - split; [apply Forall_nil_2|done].
  - unfold read_fuel. rewrite Z2Nat.id by (unfold MAX_CERT_BYTES; lia).
    change (len []) with 0. unfold MAX_CERT_BYTES. lia.
  - lia.
Qed.
End pkcs15_loops.

(** ** Properties *)

(** One whole DER object: a tag octet, a definite length in one, two or three octets, and as
    many octets of contents as it says. *)
Inductive der_object : bytes → Prop :=
| der_object_short tag contents : len contents < 128 → der_object ([tag; len contents] ++ contents)
| der_object_one tag contents : len contents < 256 → der_object ([tag; 0x81; len contents] ++ contents)
| der_object_two tag hi lo contents :
    is_byte hi → is_byte lo → len contents = 256 * hi + lo → der_object ([tag; 0x82; hi; lo] ++ contents).

Lemma first_length_octet b : is_byte b → Z.land b 0x80 = (if b <? 128 then 0 else 128) ∧ Z.land b 0x7F = b mod 128.
Proof.
  intros Hb. split; [|change 0x7F with (Z.ones 7); by rewrite Z.land_ones].
  assert (Forall (λ b, Z.land b 0x80 = if b <? 128 then 0 else 128) (seqZ 0 256)) as Hall by (by by_decide).
  rewrite list.Forall_forall in Hall. apply Hall, elem_of_seqZ. unfold is_byte in Hb. lia.
Qed.
Lemma sized_der_object bs : bytes_ok bs → der_object_total_length bs = Ok (Some (len bs)) ↔ der_object bs.
Proof.
  intros Hok. split.
  - destruct bs as [|tag [|first rest]]; [done..|]. pose proof Hok as (_ & Hf & Hr)%Forall_cons_iff2. unfold der_object_total_length.
    destruct (first_length_octet first Hf) as [-> ->]. rewrite !len_cons. unfold is_byte in Hf.
    destruct (Z.ltb_spec first 128); cbn [Z.eqb].
    { intros [= Hl]. assert (first = len rest) as -> by lia. by apply (der_object_short tag rest). }
    change (128 =? 0) with false. cbn iota. assert (first mod 128 = first - 128) as -> by (symmetry; apply (Z.mod_unique _ _ 1); lia).
    destruct (Z.eqb_spec (first - 128) 0); [done|]. destruct (Z.gtb_spec (first - 128) 2); [done|]. cbn [orb].
    destruct (Z.ltb_spec (1 + (1 + len rest)) (2 + (first - 128))) as [|Hlong]; [done|].
    assert (first = 0x81 ∨ first = 0x82) as [->| ->] by lia; cbn [Z.sub Z.to_nat].
    + destruct rest as [|octet contents]; [by unfold len in Hlong; cbn in Hlong|]. change (Z.to_nat (129 - 128)) with 1%nat. cbn [take foldl]. rewrite take_0. cbn [foldl]. rewrite len_cons, ?Z.shiftl_0_l. intros [= Hl].
      apply Forall_cons_iff in Hr as [Hn _]. unfold is_byte in Hn. assert (octet = len contents) as -> by lia. apply (der_object_one tag contents). lia.
    + destruct rest as [|hi [|lo contents]]; [by unfold len in Hlong; cbn in Hlong..|]. change (Z.to_nat (130 - 128)) with 2%nat. cbn [take foldl]. rewrite take_0. cbn [foldl]. rewrite !len_cons, ?Z.shiftl_0_l.
      rewrite !Z.shiftl_mul_pow2 by lia. intros [= Hl]. apply Forall_cons_iff in Hr as [Hhi [Hlo _]%Forall_cons_iff]. apply (der_object_two tag hi lo contents); [done..|]. lia.
  - intros Hd. revert Hok. destruct Hd as [tag c Hc|tag c Hc|tag hi lo c Hhi Hlo Hc]; intros Hok; unfold der_object_total_length; cbn [app].
    + apply Forall_cons_iff2 in Hok as (_ & Hf & _). destruct (first_length_octet _ Hf) as [-> _]. rewrite (proj2 (Z.ltb_lt _ _) Hc). cbn [Z.eqb].
      do 2 f_equal. rewrite !len_cons. lia.
    + change (Z.land 129 128 =? 0) with false. change (Z.land 129 127) with 1. cbn [Z.eqb Z.gtb Z.compare orb]. rewrite !len_cons. pose proof (len_nonneg c).
      destruct (Z.ltb_spec (1 + (1 + (1 + len c))) (2 + 1)); [lia|]. change (Z.to_nat 1) with 1%nat. cbn [take foldl]. rewrite take_0. cbn [foldl]. do 2 f_equal. rewrite ?Z.shiftl_0_l. lia.
    + change (Z.land 130 128 =? 0) with false. change (Z.land 130 127) with 2. cbn [Z.eqb Z.gtb Z.compare orb]. rewrite !len_cons. pose proof (len_nonneg c).
      destruct (Z.ltb_spec (1 + (1 + (1 + (1 + len c)))) (2 + 2)); [lia|]. change (Z.to_nat 2) with 2%nat. cbn [take foldl]. rewrite take_0. cbn [foldl]. rewrite !Z.shiftl_mul_pow2 by lia. do 2 f_equal. rewrite ?Z.shiftl_0_l. lia.
Qed.

(** C6: reading a DER object ends and is sound, whatever the card answers. If
    the transport itself does not panic, every certificate read returns; and
    when it returns bytes they are one whole DER object of at most 16 KiB: a tag,
    a length in one, two or three octets, and exactly as many octets of contents. *)
Theorem read_certificate_sound `{CardTransport T E} slot (t : T)
  (Htransport : ∀ c (t : T), (transmit_outcome c t).2 ≠ Panic)
  (Hbytes : ∀ c (t t' : T) rsp, transmit_outcome c t = (t', Ok (To_Response rsp)) → bytes_ok (rsp_body rsp)) :
  (read_certificate slot t).2 ≠ Panic
  ∧ ∀ t' bs, read_certificate slot t = (t', Ok bs) → der_object bs ∧ len bs ≤ 16384.
Proof.
  assert (∀ what t t' bs, read_binary_der_object what t = (t', Ok bs) → der_object bs ∧ len bs ≤ 16384) as Hsound.
  { intros what t0 t' bs Hrun. assert (is_sized bs ∧ bytes_ok bs) as [[Hl Hd] Hok]; [|by split; [apply sized_der_object|]].
    revert Hrun. unfold read_binary_der_object. apply (act_loop_inv (λ s _, der_inv s) (λ bs _, is_sized bs ∧ bytes_ok bs)).
    - intros s t1 t2 r Hinv Hr. pose proof (read_der_round_spec _ _ _ _ _ Hbytes Hinv Hr).
      destruct r; [tauto|done].
    - split; [apply Forall_nil_2|done]. }
  assert (∀ l sw t, (select_ef_attempts l sw t).2 ≠ Panic) as Hef
    by (intros; by apply select_ef_attempts_no_panic).
  assert (∀ what t, (read_binary_der_object what t).2 ≠ Panic) as Hread
    by (intros; by apply read_der_loop_total).
  unfold read_certificate, select_ef. split.
  - destruct (CertSlot_path slot).
    + apply act_bind_no_panic; [by apply select_pkcs15_no_panic|intros _ t1].
      apply act_bind_no_panic; [apply Hef|intros _ t2; apply Hread].
    + apply act_bind_no_panic; [by apply select_mf_no_panic|intros _ t1].
      apply act_bind_no_panic; [by apply select_child_df_no_panic|intros _ t2].
      apply act_bind_no_panic; [apply Hef|intros _ t3; apply Hread].
    + apply act_bind_no_panic; [by apply select_mf_no_panic|intros _ t1].
      apply act_bind_no_panic; [apply Hef|intros _ t2; apply Hread].
  - intros t' bs Hok. destruct (CertSlot_path slot);
      [do 2 apply act_bind_inv_ok in Hok as (? & ? & _ & Hok)
      |do 3 apply act_bind_inv_ok in Hok as (? & ? & _ & Hok)
      |do 2 apply act_bind_inv_ok in Hok as (? & ? & _ & Hok)]; by eapply Hsound.
Qed.

(** A card whose selected file answers every READ BINARY from its contents:
    the bytes asked for, or those left, with success (or the end-of-file
    warning when it gave fewer). *)
Definition reads_file `{CardTransport T E} (t : T) (file : bytes) : Prop :=
  ∀ off want, 0 ≤ off ≤ MAX_CERT_BYTES → 1 ≤ want ≤ READ_CHUNK →
    ∃ rsp, transmit (cmd_bytes (ReadBinaryByOffset_into_apdu (mkReadBinaryByOffset off want))) t = (t, Ok rsp)
      ∧ rsp_body rsp = take (Z.to_nat want) (drop (Z.to_nat off) file)
      ∧ (ResponseApdu_is_ok rsp = true
         ∨ (is_end_of_file rsp = true ∧ len (rsp_body rsp) < want)).

Section file_card.
Context `{CardTransport T E} (t : T) (file : bytes) (Hfile : reads_file t file).

Lemma len_take_drop k w (l : bytes) :
  0 ≤ k → 0 ≤ w → len (take (Z.to_nat w) (drop (Z.to_nat k) l)) = Z.max 0 (Z.min w (len l - k)).
Proof. intros. unfold len. rewrite length_take, length_drop. lia. Qed.

Lemma len_take_Z k (l : bytes) : 0 ≤ k ≤ len l → len (take (Z.to_nat k) l) = k.
Proof. intros. unfold len in *. rewrite length_take. lia. Qed.

Lemma reads_file_round off want :
  0 ≤ off ≤ MAX_CERT_BYTES → 1 ≤ want ≤ READ_CHUNK → off + want ≤ len file →
  ∃ rsp, p15_transmit (ReadBinaryByOffset_into_apdu (mkReadBinaryByOffset off want)) t = (t, Ok rsp)
    ∧ take (Z.to_nat off) file ++ rsp_body rsp = take (Z.to_nat (off + want)) file
    ∧ len (rsp_body rsp) = want ∧ ResponseApdu_is_ok rsp = true ∧ is_end_of_file rsp = false.
Proof.
  intros Hoff Hwant Hlen. destruct (Hfile off want Hoff Hwant) as (rsp & Htr & Hbody & Hst).
  exists rsp. unfold p15_transmit, act_map_err, CommandApdu_as_bytes. rewrite Htr, Hbody. cbn [map_err].
  rewrite take_take_drop, <- Z2Nat.inj_add, len_take_drop by lia. split_and!; [done|done|lia| |].
  - destruct Hst as [?|[_ Hst]]; [done|]. rewrite Hbody, len_take_drop in Hst by lia. lia.
  - destruct Hst as [Hst|[_ Hst]].
    + unfold ResponseApdu_is_ok, is_end_of_file in *. by destruct (ResponseApdu_status_word rsp).
    + rewrite Hbody, len_take_drop in Hst by lia. lia.
Qed.

(** With the length known, the rest of the object arrives chunk by chunk. *)
Lemma read_der_rest what n fuel k :
  0 < k ≤ n → n ≤ len file → n ≤ MAX_CERT_BYTES → n - k < Z.of_nat fuel →
  act_loop fuel (read_der_round what) (take (Z.to_nat k) file, Some n) t
  = (t, Ok (take (Z.to_nat n) file)).
Proof.
  revert k; induction fuel as [|fuel IH]; intros k Hk Hn Hmax Hf; [lia|].
  cbn [act_loop]. unfold act_bind at 1, read_der_round. cbn [default from_option id].
  rewrite len_take_Z by lia. destruct (Z.geb_spec k n) as [Hge|Hlt].
  { assert (k = n) as -> by lia. unfold act_ret. do 2 f_equal. rewrite take_take. f_equal. lia. }
  destruct (Z.gtb_spec k u16_max); [unfold u16_max, MAX_CERT_BYTES in *; lia|].
  set (want := Z.min (n - k) READ_CHUNK). assert (1 ≤ want ≤ READ_CHUNK ∧ k + want ≤ n) as [Hw Hkw]
    by (unfold want, READ_CHUNK; lia).
  destruct (reads_file_round k want) as (rsp & Htr & Hbody & Hlen & Hok & Heof); [lia|lia|lia|].
  unfold act_bind at 1. rewrite Htr, Hok, Heof, Hlen. cbn [negb andb].
  destruct (Z.gtb_spec want want); [lia|]. destruct (Z.eqb_spec want 0); [lia|].
  unfold act_bind at 1, act_lift. rewrite Hbody, len_take_Z by lia.
  destruct (Z.geb_spec (k + want) n).
  - unfold act_ret. do 2 f_equal. rewrite take_take. f_equal. lia.
  - destruct (Z.ltb_spec want want); [lia|]. cbn [orb]. unfold act_ret.
    apply IH; lia.
Qed.
End file_card.

(** Reading a DER object off a card is right. From a file that starts with
    one DER object of at most 16 KiB (by its own header) and may go on with
    anything, [read_binary_der_object] returns exactly the object's bytes. *)
Theorem read_der_object_exact `{CardTransport T E} what (t : T) file n
  (Hfile : reads_file t file) (Hok : bytes_ok file)
  (Hn : der_object_total_length file = Ok (Some n)) (Hlen : n ≤ len file) (Hmax : n ≤ MAX_CERT_BYTES) :
  read_binary_der_object what t = (t, Ok (take (Z.to_nat n) file)).
Proof.
  destruct (der_total_header _ _ Hok Hn) as [H2 Htake].
  unfold read_binary_der_object. assert (∃ f, read_fuel = S f ∧ MAX_CERT_BYTES < Z.of_nat f) as (f & -> & Hf).
  { exists (Z.to_nat (MAX_CERT_BYTES + 1)). unfold read_fuel, MAX_CERT_BYTES. lia. }
  cbn [act_loop]. unfold act_bind at 1, read_der_round. cbn [default from_option id].
  change (len []) with 0. destruct (Z.geb_spec 0 MAX_CERT_BYTES) as [Hz|_]; [by apply Z.le_ngt in Hz|].
  change (0 >? u16_max) with false. change (Z.min (MAX_CERT_BYTES - 0) READ_CHUNK) with READ_CHUNK.
  destruct (Hfile 0 READ_CHUNK) as (rsp & Htr & Hbody & Hst); [unfold MAX_CERT_BYTES; lia|unfold READ_CHUNK; lia|].
  unfold act_bind at 1, p15_transmit, act_map_err, CommandApdu_as_bytes. rewrite Htr. cbn [map_err].
  assert (negb (ResponseApdu_is_ok rsp) && negb (is_end_of_file rsp) = false) as ->
    by (destruct Hst as [->|[-> _]]; [done|apply andb_false_r]).
  rewrite drop_0 in Hbody. cbn [app].
  assert (len (rsp_body rsp) = Z.min READ_CHUNK (len file)) as Hlb
    by (rewrite Hbody; unfold len, READ_CHUNK; rewrite length_take; lia).
  rewrite Hlb. destruct (Z.gtb_spec (Z.min READ_CHUNK (len file)) READ_CHUNK); [lia|].
  destruct (Z.eqb_spec (Z.min READ_CHUNK (len file)) 0); [unfold READ_CHUNK in *; lia|].
  unfold act_bind at 1, act_lift. rewrite Hbody at 1.
  assert (der_object_total_length (take (Z.to_nat READ_CHUNK) file) = Ok (Some n)) as ->
    by (apply Htake; right; unfold READ_CHUNK; lia).
  destruct (Z.gtb_spec n MAX_CERT_BYTES); [lia|]. destruct (Z.geb_spec (Z.min READ_CHUNK (len file)) n).
  - unfold act_ret. do 2 f_equal. rewrite Hbody, take_take. f_equal. lia.
  - assert (is_end_of_file rsp = false) as ->.
    { destruct Hst as [Hst|[_ Hst]]; [|unfold READ_CHUNK in *; lia].
      unfold ResponseApdu_is_ok, is_end_of_file in *. by destruct (ResponseApdu_status_word rsp). }
    destruct (Z.ltb_spec (Z.min READ_CHUNK (len file)) READ_CHUNK); [lia|]. cbn [orb].
    unfold act_ret. rewrite Hbody. unfold READ_CHUNK in *. apply read_der_rest; (done || lia).
Qed.

(** ** Witness: a card with one file *)

Record FileCard := mkFileCard { fc_file : bytes }.

#[local] Instance FileCard_CardTransport : CardTransport FileCard string := λ c t,
  match cmd_bytes c with
  | [0x00; 0xB0; p1; p2; le] =>
      let off := Z.to_nat (u16_from_be p1 p2) in
      (t, Ok (reply (take (Z.to_nat le) (drop off (fc_file t))) 0x9000))
  | _ => (t, Ok (reply [] 0x9000))
  end.

Lemma FileCard_reads_file f : reads_file (mkFileCard f) f.
Proof.
  intros off want Hoff Hwant. unfold MAX_CERT_BYTES, READ_CHUNK in *.
  assert (Z.land (u16_hi off) 0x7F = u16_hi off) as Hhi.
  { unfold u16_hi. rewrite shiftr_8. change 0x7F with (Z.ones 7). rewrite Z.land_ones by lia.
    apply Z.mod_small. split; [apply Z.div_pos; lia|apply Z.div_lt_upper_bound; lia]. }
  exists (mkResponseApdu (take (Z.to_nat want) (drop (Z.to_nat off) f)) 0x90 0x00).
  split; [|split; [done|by left]].
  unfold transmit, act_bind, act_map_err, transmit_outcome, FileCard_CardTransport.
  cbn [ReadBinaryByOffset_into_apdu CommandApdu_from CommandApdu_new cmd_bytes
       CommandApdu_allow_wrong_le_retry ro_offset ro_le fc_file].
  by rewrite Hhi, u16_hi_lo.
Qed.

(** A SEQUENCE of 200 bytes in front of padding. *)
Definition witness_file : bytes := 0x30 :: 0x81 :: 197 :: replicate 197 7 ++ replicate 300 0xFF.

Lemma read_der_object_exact_witness :
  read_binary_der_object (E:=string) "certificate" (mkFileCard witness_file)
  = (mkFileCard witness_file, Ok (0x30 :: 0x81 :: 197 :: replicate 197 7)).
Proof.
  apply (read_der_object_exact "certificate" (mkFileCard witness_file) witness_file 200).
  - apply FileCard_reads_file.
  - by_decide.
  - by vm_compute.
  - by vm_compute.
  - by vm_compute.
Defined.

(** A card that answers everything with an empty SEQUENCE. *)
Inductive ConstantCard := mkConstantCard.
#[local] Instance ConstantCard_CardTransport : CardTransport ConstantCard string := λ c t,
  (t, Ok (reply [0x30; 0x00] 0x9000)).

Lemma read_certificate_sound_witness :
  read_certificate (E:=string) Cs_Authentication mkConstantCard = (mkConstantCard, Ok [0x30; 0x00])
  ∧ der_object [0x30; 0x00].
Proof.
  assert (read_certificate (E:=string) Cs_Authentication mkConstantCard = (mkConstantCard, Ok [0x30; 0x00]))
    as Hread by (by vm_compute).
  split; [exact Hread|].
  refine (proj1 (proj2 (read_certificate_sound Cs_Authentication mkConstantCard _ _) _ _ Hread)).
  - intros c t0. done.
  - intros c t0 t' rsp [= <-]. cbn [rsp_body]. by_decide.
Defined.
