(* ===== verification/PinLengths.v ===== *)
(** The code lengths a card accepts: crates/refineid-lib-core/src/auth/pin_lengths.rs.
    [CardPinLengths] holds, per credential, the range in which a new code may
    be set: what the card lists, cut to what the commands carry, or the FINEID
    bounds when it lists nothing. *)

From S2P Require Import Prelude StatusWord Transport Apdu Pin Auth Pkcs15.

(** [auth::PinPolicyReason]. *)
Inductive PinPolicyReason :=
| Ppr_WrongLength (got min max : Z)
| Ppr_NonDigit (byte_offset : Z)
| Ppr_NoAcceptedLength.
#[export] Instance PinPolicyReason_eq_dec : EqDecision PinPolicyReason.
Proof. solve_decision. Defined.

Definition SPECIFIC_REFERENCE_BIT : Z := 0x80.

Definition names (listed expected : Z) : bool :=
  Z.lor listed SPECIFIC_REFERENCE_BIT =? Z.lor expected SPECIFIC_REFERENCE_BIT.

Record CardPinLengths (R : Type) := mkCardPinLengths
  { cpl_numbering : PinReferenceScheme; cpl_pin1 : option R; cpl_pin2 : option R; cpl_puk : option R }.
Arguments mkCardPinLengths {R} _ _ _ _.
Arguments cpl_numbering {R} _.
Arguments cpl_pin1 {R} _.
Arguments cpl_pin2 {R} _.
Arguments cpl_puk {R} _.

Section lengths.
Context {R : Type} `{PasswordLengthRange R}.

(** A constant: [None] is an assertion that fails when the crate is built. *)
Definition length_range (min max : Z) : option R :=
  if (min <=? u8_max) && (max <=? u8_max) then plr_new min max else None.

Definition PIN_CAPACITY : option R := length_range PIN_MIN_LENGTH PIN_MAX_LENGTH.
Definition PUK_CAPACITY : option R := length_range PUK_MIN_LENGTH PUK_MAX_LENGTH.
Definition FINEID_PIN1_BOUNDS : option R := length_range FINEID_PIN1_MIN_LENGTH PIN_MAX_LENGTH.
Definition FINEID_PIN2_BOUNDS : option R := length_range FINEID_PIN2_MIN_LENGTH PIN_MAX_LENGTH.
Definition FINEID_PUK_BOUNDS : option R := PUK_CAPACITY.

Definition directory_range {O} `{AuthenticationObjectsOps R O} (objects : O) (expected : Z) : option R :=
  match List.filter (λ object, names object.1 expected) (ao_passwords objects) with
  | [first] => Some first.2
  | _ => None
  end.

Definition accepted (listed capacity fallback : option R) : option R :=
  match listed with
  | Some range => cap ← capacity; plr_intersection range cap
  | None => fallback
  end.

Definition CardPinLengths_from_listed (numbering : PinReferenceScheme) (pin1 pin2 puk : option R)
  : CardPinLengths R :=
  mkCardPinLengths numbering
    (accepted pin1 PIN_CAPACITY FINEID_PIN1_BOUNDS)
    (accepted pin2 PIN_CAPACITY FINEID_PIN2_BOUNDS)
    (accepted puk PUK_CAPACITY FINEID_PUK_BOUNDS).

Definition CardPinLengths_not_listed (numbering : PinReferenceScheme) : CardPinLengths R :=
  CardPinLengths_from_listed numbering None None None.

(** [policy] is the caller's closure: it may change its captured state [S] and
    unwind, and has no error of its own. *)
Definition CardPinLengths_from_card {O S E} `{AuthenticationObjectsOps R O}
  (numbering : PinReferenceScheme) (objects : option O)
  (policy : CredentialReference → act S E (option R)) : act S E (CardPinLengths R) :=
  let listed credential :=
    match o ← objects; directory_range o (CredentialReference_as_byte credential) with
    | Some range => act_ret (Some range)
    | None => policy credential
    end in
  do! pin1 := listed (Cr_Pin numbering Pin1) in
  do! pin2 := listed (Cr_Pin numbering Pin2) in
  do! puk := listed (Cr_Puk numbering) in
  act_ret (CardPinLengths_from_listed numbering pin1 pin2 puk).

Definition CardPinLengths_slot (l : CardPinLengths R) (slot : PinSlot) : option R :=
  match slot with Pin1 => cpl_pin1 l | Pin2 => cpl_pin2 l end.

Definition lengths_check (accepted : option R) (digit_count : Z) : result PinPolicyReason unit :=
  match accepted with
  | Some range =>
      if plr_contains range digit_count then Ok tt
      else Err (Ppr_WrongLength digit_count (plr_min range) (plr_max range))
  | None => Err Ppr_NoAcceptedLength
  end.

Definition check_pin (l : CardPinLengths R) (slot : PinSlot) (digit_count : Z) : result PinPolicyReason unit :=
  lengths_check (CardPinLengths_slot l slot) digit_count.
Definition check_puk (l : CardPinLengths R) (digit_count : Z) : result PinPolicyReason unit :=
  lengths_check (cpl_puk l) digit_count.
End lengths.

(** ** Lemmas *)

Section lengths_lemmas.
Context {R : Type} `{PasswordLengthRangeLaws R}.

Lemma length_range_spec lo hi :
  0 ≤ lo ≤ hi → hi ≤ 255 →
  ∃ r, length_range (R:=R) lo hi = Some r ∧ ∀ n, plr_contains r n = true ↔ lo ≤ n ≤ hi.
Proof.
  intros Hlo Hhi. unfold length_range, u8_max.
  destruct (Z.leb_spec lo 255); [|lia]. destruct (Z.leb_spec hi 255); [|lia]. cbn [andb].
  destruct (plr_new_ordered (R:=R) lo hi Hlo Hhi) as [r Hr]. exists r. split; [done|].
  intros n. destruct (plr_new_Some _ _ _ Hr) as [Hmin Hmax].
  rewrite plr_contains_spec. by rewrite Hmin, Hmax.
Qed.

Lemma lengths_check_ok (a : option R) n :
  lengths_check a n = Ok tt ↔ ∃ r, a = Some r ∧ plr_contains r n = true.
Proof.
  unfold lengths_check. destruct a as [r|]; [|split; [done|by intros (r & ? & _)]].
  destruct (plr_contains r n) eqn:Hc; split; [intros _; by exists r|done|done|].
  intros (r' & [= <-] & Hc'). congruence.
Qed.

(** A length passes exactly when it is within what the card lists and what the
    commands carry; when the card lists nothing, within the FINEID bounds. *)
Lemma accepted_check (listed : option R) clo chi flo fhi n :
  0 ≤ clo ≤ chi → chi ≤ 255 → 0 ≤ flo ≤ fhi → fhi ≤ 255 →
  lengths_check (accepted listed (length_range clo chi) (length_range flo fhi)) n = Ok tt ↔
  match listed with
  | Some r => plr_min r ≤ n ≤ plr_max r ∧ clo ≤ n ≤ chi
  | None => flo ≤ n ≤ fhi
  end.
Proof.
  intros Hc Hc' Hf Hf'. rewrite lengths_check_ok. unfold accepted.
  destruct (length_range_spec clo chi Hc Hc') as (rc & -> & Hrc).
  destruct (length_range_spec flo fhi Hf Hf') as (rf & -> & Hrf).
  destruct listed as [r|]; [|naive_solver]. cbn [mbind option_bind].
  rewrite <- plr_contains_spec, <- Hrc.
  destruct (plr_intersection r rc) as [x|] eqn:Hx.
  - rewrite <- (plr_intersection_Some _ _ _ n Hx). naive_solver.
  - pose proof (plr_intersection_None _ _ n Hx). split; [naive_solver|].
    intros [Hr Hrc']. specialize (H1 Hr). congruence.
Qed.

Lemma names_shared a b :
  is_byte a → is_byte b → names a b = true ↔ Z.land a 0x7F = Z.land b 0x7F.
Proof.
  intros Ha Hb. unfold names, SPECIFIC_REFERENCE_BIT. rewrite Z.eqb_eq.
  pose proof (byte_forall (λ x, Z.lor x 0x80 =? 0x80 + Z.land x 0x7F) ltac:(by vm_compute)) as Hlor.
  pose proof (Hlor a Ha) as Hla%Z.eqb_eq. pose proof (Hlor b Hb) as Hlb%Z.eqb_eq. lia.
Qed.

(** What the card lists for a credential: its directory entry when exactly one
    entry names it, otherwise what the policy object says. *)
Lemma directory_range_spec {O} `{AuthenticationObjectsOps R O} (o : O) expected r :
  directory_range o expected = Some r ↔
  ∃ listed, List.filter (λ object, names object.1 expected) (ao_passwords o) = [(listed, r)].
Proof.
  unfold directory_range. destruct (List.filter _ _) as [|[l1 r1] [|x rest]]; naive_solver.
Qed.
End lengths_lemmas.

(** C7: which lengths may be set. For a card's own numbering a code length is
    accepted exactly when it lies in the range the card lists and in what the
    commands carry (4 to 12 digits for a PIN, 8 to 12 for the PUK); a card that
    lists nothing gets the FINEID bounds (PIN 1 4 to 12, PIN 2 6 to 12, PUK 8
    to 12). A card that lists a range outside what can be carried accepts no
    length at all, and the error then says so. *)
Theorem pin_lengths_exact `{PasswordLengthRangeLaws R} numbering (pin1 pin2 puk : option R) n :
  let l := CardPinLengths_from_listed numbering pin1 pin2 puk in
  let listed o lo hi flo := match o with
                            | Some r => plr_min r ≤ n ≤ plr_max r ∧ lo ≤ n ≤ hi
                            | None => flo ≤ n ≤ hi
                            end in
  (check_pin l Pin1 n = Ok tt ↔ listed pin1 4 12 4)
  ∧ (check_pin l Pin2 n = Ok tt ↔ listed pin2 4 12 6)
  ∧ (check_puk l n = Ok tt ↔ listed puk 8 12 8)
  ∧ (∀ slot, check_pin l slot n ≠ Panic)
  ∧ (∀ slot, check_pin l slot n = Err Ppr_NoAcceptedLength ↔ CardPinLengths_slot l slot = None).
Proof.
  intros l listed. unfold l, check_pin, check_puk, CardPinLengths_from_listed, CardPinLengths_slot.
  cbn [cpl_pin1 cpl_pin2 cpl_puk]. unfold PIN_CAPACITY, PUK_CAPACITY, FINEID_PIN1_BOUNDS,
    FINEID_PIN2_BOUNDS, FINEID_PUK_BOUNDS, PUK_CAPACITY, PIN_MIN_LENGTH, PIN_MAX_LENGTH, PIN1_STORED_LENGTH,
    PUK_MIN_LENGTH, PUK_MAX_LENGTH, PUK_STORED_LENGTH, FINEID_PIN1_MIN_LENGTH, FINEID_PIN2_MIN_LENGTH.
  split_and!; [apply accepted_check; lia..| |];
    intros slot; unfold lengths_check; destruct slot; destruct (accepted _ _ _) as [r|];
    [destruct (plr_contains r n)| |destruct (plr_contains r n)| |destruct (plr_contains r n)|
    |destruct (plr_contains r n)|]; naive_solver.
Qed.

(** ** A concrete range type *)

(** Ranges as ordered pairs. *)
#[export] Instance pair_PasswordLengthRange : PasswordLengthRange (Z * Z) := {
  plr_new lo hi := if lo <=? hi then Some (lo, hi) else None;
  plr_min := fst;
  plr_max := snd;
  plr_contains r n := (r.1 <=? n) && (n <=? r.2);
  plr_intersection r s :=
    let lo := Z.max r.1 s.1 in let hi := Z.min r.2 s.2 in if lo <=? hi then Some (lo, hi) else None
}.
#[export] Instance pair_PasswordLengthRangeLaws : PasswordLengthRangeLaws (Z * Z).
Proof.
  split; unfold plr_new, plr_min, plr_max, plr_contains, plr_intersection, pair_PasswordLengthRange.
  - intros lo hi r. destruct (lo <=? hi); naive_solver.
  - intros lo hi Hlo _. destruct (Z.leb_spec lo hi); [eauto|lia].
  - intros [lo hi] n. cbn [fst snd]. rewrite andb_true_iff. lia.
  - intros [a b] [c d] t n. cbn [fst snd]. destruct (Z.leb_spec (Z.max a c) (Z.min b d)); [|done].
    intros [= <-]. cbn [fst snd]. rewrite !andb_true_iff. lia.
  - intros [a b] [c d] n. cbn [fst snd]. destruct (Z.leb_spec (Z.max a c) (Z.min b d)); [done|].
    intros _ [Ha Hb]%andb_true_iff. apply andb_false_iff. lia.
Defined.

Lemma pin_lengths_exact_witness :
  check_pin (CardPinLengths_from_listed Citizen (Some (3, 8)) None None) Pin1 8 = Ok tt
  ∧ check_pin (R:=Z * Z) (CardPinLengths_from_listed Citizen None (Some (13, 20)) None) Pin2 12
    = Err Ppr_NoAcceptedLength.
Proof.
  split.
  - apply (proj1 (pin_lengths_exact (R:=Z * Z) Citizen (Some (3, 8)) None None 8)). cbn. lia.
  - apply (proj2 (proj2 (proj2 (proj2 (pin_lengths_exact (R:=Z * Z) Citizen None (Some (13, 20)) None 12)))) Pin2).
    by vm_compute.
Defined.
