(* ===== verification/PinOps.v ===== *)
(** The PIN operations: the trait PinOps of crates/refineid-lib-core/src/auth.rs,
    method by method, over any [CardTransport]. The theorems say what each
    operation sends, by the log of [Logged], and what it returns. *)

From S2P Require Import Prelude Decimal Ber StatusWord Transport Apdu Pin Auth Pkcs15 PinLengths.

Inductive AuthError (TE : Type) :=
| Ae_Transport (e : TE)
| Ae_PinPolicy (reason : PinPolicyReason).
Arguments Ae_Transport {TE} e.
Arguments Ae_PinPolicy {TE} reason.

(** ** [PinPolicyCheck] and [CredentialBlock] *)

Definition PinPolicyCheck_validate_digits {TE} (ascii : bytes) : result (AuthError TE) unit :=
  match position (λ b, negb (is_ascii_digit b)) ascii with
  | Some off => Err (Ae_PinPolicy (Ppr_NonDigit (Z.of_nat off)))
  | None => Ok tt
  end.

Definition PinPolicyCheck_validate_ascii {TE} (ascii : bytes) (min stored : Z) : result (AuthError TE) unit :=
  if (len ascii <? min) || (len ascii >? stored)
  then Err (Ae_PinPolicy (Ppr_WrongLength (len ascii) min stored))
  else PinPolicyCheck_validate_digits ascii.

Definition PinPolicyCheck_validate_for_card {TE} (ascii : bytes)
  (check : Z → result PinPolicyReason unit) : result (AuthError TE) unit :=
  let? _ := PinPolicyCheck_validate_digits ascii in
  map_err Ae_PinPolicy (check (len ascii)).

(** [resize] past the digits fills with the padding byte. *)
Definition CredentialBlock_push (out : bytes) (scheme : PinReferenceScheme) (digits : bytes) (stored : Z)
  : bytes :=
  let out := out ++ digits in
  if decide (scheme = Citizen) then out ++ replicate (Z.to_nat (stored - len digits)) PIN_PAD_BYTE
  else out.

(** ** The trait *)

Section pin_ops.
Context `{CardTransport T E}.
Abbreviation TE := (TransportDispatchError E).

(** [transmit(..).map_err(AuthError::Transport)]. *)
Definition auth_transmit (c : CommandApdu) : act T (AuthError TE) ResponseApdu :=
  act_map_err Ae_Transport (transmit (CommandApdu_as_bytes c)).

Definition verify_pin_with_scheme (scheme : PinReferenceScheme) (slot : PinSlot) (pin : PinBytes)
  : act T (AuthError TE) VerifyOutcome :=
  do! entered :=
    if PinReferenceScheme_gates_esign_directory scheme slot
    then act_map_err Ae_Transport select_esign_directory
    else act_ret Sw_Success in
  if negb (StatusWord_is_success entered) then act_ret (Vo_Other (StatusWord_as_u16 entered))
  else
    let pin_ascii := PinBytes_as_bytes pin in
    let stored := PinSlot_stored_length slot in
    do! _ := act_lift (PinPolicyCheck_validate_ascii pin_ascii PIN_MIN_LENGTH stored) in
    let block := CredentialBlock_push [] scheme pin_ascii stored in
    do! apdu := act_lift (Verify_into_apdu (mkVerify Cla_Plain Vm_Verify (Cr_Pin scheme slot) (Vd_PinBlock block))) in
    do! r := auth_transmit apdu in
    act_ret (classify_verify_sw (ResponseApdu_status_word r)).

Definition verify_pin (slot : PinSlot) (pin : PinBytes) : act T (AuthError TE) VerifyOutcome :=
  verify_pin_with_scheme Citizen slot pin.
Definition verify_pin1 (pin : PinBytes) : act T (AuthError TE) VerifyOutcome := verify_pin Pin1 pin.

Definition probe_status_word (reference : CredentialReference) : act T (AuthError TE) StatusWord :=
  do! apdu := act_lift (Verify_into_apdu (mkVerify Cla_Plain Vm_Verify reference Vd_Probe)) in
  do! r := auth_transmit apdu in
  act_ret (ResponseApdu_status_word r).

Definition resolve_pin_reference_scheme : act T (AuthError TE) PinReferenceScheme :=
  do! citizen := probe_status_word (Cr_Pin Citizen Pin1) in
  if negb (bool_decide (citizen = Sw_ReferenceDataNotFound)) then act_ret Citizen
  else
    do! organizational := probe_status_word (Cr_Pin Organizational Pin1) in
    act_ret match classify_pin_status_sw organizational with
            | Ps_Verified | Ps_Remaining _ | Ps_NoInfo | Ps_Locked => Organizational
            | Ps_Other _ => Citizen
            end.

Definition pin_status_with_scheme (scheme : PinReferenceScheme) (slot : PinSlot)
  : act T (AuthError TE) PinStatus :=
  do! sw := probe_status_word (Cr_Pin scheme slot) in
  act_ret (classify_pin_status_sw sw).
Definition pin_status (slot : PinSlot) : act T (AuthError TE) PinStatus := pin_status_with_scheme Citizen slot.

Definition puk_status_with_scheme (scheme : PinReferenceScheme) : act T (AuthError TE) PukStatus :=
  if decide (scheme = Organizational) then
    do! sw := probe_status_word (Cr_Puk scheme) in
    act_ret (classify_puk_status_sw sw)
  else
    do! r := auth_transmit GetPukInfo_into_apdu in
    if ResponseApdu_is_ok r
    then act_ret (from_option Pk_Remaining Pk_NoInfo (try_counter_from_response_body (rsp_body r)))
    else act_ret (classify_puk_status_sw (ResponseApdu_status_word r)).
Definition puk_status : act T (AuthError TE) PukStatus := puk_status_with_scheme Citizen.

Definition pin_policy_counters (slot : PinSlot) : act T (AuthError TE) (option CredentialPolicyCounters) :=
  do! r := auth_transmit (GetPinInfo_into_apdu (mkGetPinInfo Citizen slot)) in
  if negb (ResponseApdu_is_ok r) then act_ret None
  else act_ret (policy_counters_from_response_body (rsp_body r)).

Definition puk_policy_counters : act T (AuthError TE) (option CredentialPolicyCounters) :=
  do! r := auth_transmit GetPukInfo_into_apdu in
  if negb (ResponseApdu_is_ok r) then act_ret None
  else act_ret (policy_counters_from_response_body (rsp_body r)).

Definition pin_changed_flag_with_scheme (scheme : PinReferenceScheme) (slot : PinSlot)
  : act T (AuthError TE) (option bool) :=
  do! r := auth_transmit (GetPinInfo_into_apdu (mkGetPinInfo scheme slot)) in
  if negb (ResponseApdu_is_ok r) then act_ret None
  else act_ret (changed_flag_from_response_body (rsp_body r)).
Definition pin_changed_flag (slot : PinSlot) : act T (AuthError TE) (option bool) :=
  pin_changed_flag_with_scheme Citizen slot.

Context {R : Type} `{PasswordLengthRange R}.

Definition pin_policy_lengths (credential : CredentialReference) : act T (AuthError TE) (option R) :=
  let apdu := match credential with
              | Cr_Pin scheme slot => GetPinInfo_into_apdu (mkGetPinInfo scheme slot)
              | Cr_Puk _ => GetPukInfo_into_apdu
              end in
  do! r := auth_transmit apdu in
  if negb (ResponseApdu_is_ok r) then act_ret None
  else act_ret (policy_lengths_from_response_body (rsp_body r)).

Definition change_pin (lengths : CardPinLengths R) (slot : PinSlot) (current_pin new_pin : PinBytes)
  : act T (AuthError TE) ChangePinOutcome :=
  let current := PinBytes_as_bytes current_pin in
  let new := PinBytes_as_bytes new_pin in
  let stored := PinSlot_stored_length slot in
  let scheme := cpl_numbering lengths in
  do! _ := act_lift (PinPolicyCheck_validate_for_card current (check_pin lengths slot)) in
  do! _ := act_lift (PinPolicyCheck_validate_for_card new (check_pin lengths slot)) in
  let block := CredentialBlock_push (CredentialBlock_push [] scheme current stored) scheme new stored in
  do! apdu := act_lift (ChangeReferenceData_into_apdu (mkChangeReferenceData (Cr_Pin scheme slot) block)) in
  do! r := auth_transmit apdu in
  act_ret (classify_change_pin_sw (ResponseApdu_status_word r)).

(** The [match scheme] that verifies an organization card's PUK first: the
    mode to go on with, or the outcome to return. *)
Definition reset_retry_mode (scheme : PinReferenceScheme) (puk_ascii : bytes)
  : act T (AuthError TE) (ResetRetryCounterMode + UnblockOutcome) :=
  match scheme with
  | Citizen => act_ret (inl Rm_CodeThenNew)
  | Organizational =>
      let puk_block := CredentialBlock_push [] scheme puk_ascii PUK_STORED_LENGTH in
      do! apdu := act_lift (Verify_into_apdu (mkVerify Cla_Plain Vm_Verify (Cr_Puk scheme) (Vd_PinBlock puk_block))) in
      do! r := auth_transmit apdu in
      let verified := classify_reset_retry_sw (ResponseApdu_status_word r) in
      if negb (bool_decide (verified = Ub_Ok)) then act_ret (inr verified)
      else act_ret (inl Rm_NewOnly)
  end.

Definition reset_retry_counter (lengths : CardPinLengths R) (target : PinSlot) (puk new_pin : PinBytes)
  : act T (AuthError TE) UnblockOutcome :=
  let puk_ascii := PinBytes_as_bytes puk in
  let new_ascii := PinBytes_as_bytes new_pin in
  let target_stored := PinSlot_stored_length target in
  let scheme := cpl_numbering lengths in
  do! _ := act_lift (PinPolicyCheck_validate_for_card puk_ascii (check_puk lengths)) in
  do! _ := act_lift (PinPolicyCheck_validate_for_card new_ascii (check_pin lengths target)) in
  do! mode := reset_retry_mode scheme puk_ascii in
  match mode with
  | inr outcome => act_ret outcome
  | inl mode =>
      let block := if decide (mode = Rm_CodeThenNew)
                   then CredentialBlock_push [] scheme puk_ascii PUK_STORED_LENGTH else [] in
      let block := CredentialBlock_push block scheme new_ascii target_stored in
      do! apdu := act_lift (ResetRetryCounter_into_apdu (mkResetRetryCounter (Cr_Pin scheme target) mode block)) in
      do! r := auth_transmit apdu in
      act_ret (classify_reset_retry_sw (ResponseApdu_status_word r))
  end.

(** [read_card_pin_lengths]: the closure keeps the first failure and answers
    nothing after it, or for an organization card. *)
Definition policy_closure (numbering : PinReferenceScheme) (credential : CredentialReference)
  : act (T * option (AuthError TE)) (AuthError TE) (option R) := λ '(t, failure),
  if bool_decide (is_Some failure) || negb (bool_decide (numbering = Citizen))
  then ((t, failure), Ok None)
  else match pin_policy_lengths credential t with
       | (t, Ok range) => ((t, failure), Ok range)
       | (t, Err error) => ((t, Some error), Ok None)
       | (t, Panic) => ((t, failure), Panic)
       end.

Context {O : Type} `{AuthenticationObjectsOps R O}.

Definition read_card_pin_lengths : act T (AuthError TE) (CardPinLengths R) :=
  do! numbering := resolve_pin_reference_scheme in
  do! objects := λ t,
    match read_authentication_objects (R:=R) (O:=O) t with
    | (t, Ok objects) => (t, Ok (Some objects))
    | (t, Err (P15_Transport error)) => (t, Err (Ae_Transport error))
    | (t, Err _) => (t, Ok None)
    | (t, Panic) => (t, Panic)
    end in
  λ t,
  match CardPinLengths_from_card numbering objects (policy_closure numbering) (t, None) with
  | ((t, None), lengths) => (t, lengths)
  | ((t, Some error), Panic) => (t, Panic)
  | ((t, Some error), _) => (t, Err error)
  end.
End pin_ops.

(** ** Lemmas: the blocks *)

(** A code as the card takes it: the whole twelve-byte field under the citizen
    numbering, the digits alone under the organization numbering. *)
Definition pin_field (scheme : PinReferenceScheme) (p : PinBytes) : bytes :=
  match scheme with Citizen => pb_bytes p | Organizational => PinBytes_as_bytes p end.

Lemma pb_bytes_padded p :
  PinBytes_wf p → pb_bytes p = PinBytes_as_bytes p ++ replicate (Z.to_nat (12 - len (PinBytes_as_bytes p))) 0.
Proof. intros [bs Hbs]. rewrite (PinBytes_as_bytes_new _ _ Hbs). by apply PinBytes_new_ok in Hbs as [_ ->]. Qed.

Lemma CredentialBlock_push_wf out scheme p :
  PinBytes_wf p → CredentialBlock_push out scheme (PinBytes_as_bytes p) 12 = out ++ pin_field scheme p.
Proof.
  intros Hp. unfold CredentialBlock_push, pin_field, PIN_PAD_BYTE. destruct scheme; [|done].
  case_decide; [|done]. by rewrite (pb_bytes_padded p Hp), <- app_assoc.
Qed.

Lemma len_pin_field scheme p : PinBytes_wf p → 4 ≤ len (pin_field scheme p) ≤ 12.
Proof.
  intros Hp. destruct (PinBytes_wf_digits p Hp) as [Hl _]. destruct scheme; [|done]. unfold pin_field.
  rewrite (pb_bytes_padded p Hp), len_app. unfold len in *. rewrite length_replicate. lia.
Qed.

Lemma lc_short {E} n : n ≤ 255 → lc_or_unreachable (E:=E) n = Ok n.
Proof. intros. unfold lc_or_unreachable, u8_max. destruct (Z.gtb_spec n 255); [lia|done]. Qed.

Lemma PinPolicyCheck_digits_wf {TE} p :
  PinBytes_wf p → PinPolicyCheck_validate_digits (TE:=TE) (PinBytes_as_bytes p) = Ok tt.
Proof.
  intros Hp. destruct (PinBytes_wf_digits p Hp) as [_ Hd]. unfold PinPolicyCheck_validate_digits.
  destruct (position _ _) as [i|] eqn:Hpos; [|done]. apply position_Some in Hpos as (x & Hx & Hn & _).
  rewrite Forall_lookup in Hd. by rewrite (Hd _ _ Hx) in Hn.
Qed.

Lemma PinPolicyCheck_for_card_wf {TE} p check :
  PinBytes_wf p →
  PinPolicyCheck_validate_for_card (TE:=TE) (PinBytes_as_bytes p) check
  = map_err Ae_PinPolicy (check (PinBytes_digit_count p)).
Proof.
  intros Hp. unfold PinPolicyCheck_validate_for_card.
  by rewrite (PinPolicyCheck_digits_wf p Hp), result_bind_ok, PinBytes_wf_count.
Qed.

Lemma PinPolicyCheck_ascii_wf {TE} p :
  PinBytes_wf p → PinPolicyCheck_validate_ascii (TE:=TE) (PinBytes_as_bytes p) 4 12 = Ok tt.
Proof.
  intros Hp. destruct (PinBytes_wf_digits p Hp) as [Hl _]. unfold PinPolicyCheck_validate_ascii.
  destruct (Z.ltb_spec (len (PinBytes_as_bytes p)) 4); [lia|].
  destruct (Z.gtb_spec (len (PinBytes_as_bytes p)) 12); [lia|]. by apply PinPolicyCheck_digits_wf.
Qed.

(** ** Lemmas: one exchange *)

Section exchange.
Context `{CardTransport T E}.

(** What an operation answers once its command came back. *)
Definition answered {A} (f : ResponseApdu → A) (r : result (TransportDispatchError E) ResponseApdu)
  : result (AuthError (TransportDispatchError E)) A :=
  match r with Ok rsp => Ok (f rsp) | Err e => Err (Ae_Transport e) | Panic => Panic end.

Lemma auth_exchange {A} c (f : ResponseApdu → A) (t : T) :
  (do! r := auth_transmit c in act_ret (f r)) t
  = let '(t', r) := transmit (cmd_bytes c) t in (t', answered f r).
Proof.
  unfold act_bind, auth_transmit, act_map_err, CommandApdu_as_bytes.
  destruct (transmit (cmd_bytes c) t) as [t' [r|e|]]; done.
Qed.

Lemma auth_exchange_logged {A} bs (f : ResponseApdu → A) (t : Logged T) :
  (do! r := auth_transmit (CommandApdu_new bs) in act_ret (f r)) t
  = let '(t', r) := transmit bs (card t) in (mkLogged (sent t ++ [CommandApdu_new bs]) t', answered f r).
Proof.
  unfold act_bind, auth_transmit, act_map_err, CommandApdu_as_bytes, CommandApdu_new. cbn [cmd_bytes].
  rewrite transmit_logged. destruct (transmit bs (card t)) as [t' [r|e|]]; done.
Qed.
End exchange.

(** ** Properties *)

(** A command that spends a try of a credential when it is refused: VERIFY with
    data, CHANGE REFERENCE DATA, RESET RETRY COUNTER. *)
Definition spends_try (apdu : bytes) : bool :=
  match apdu with
  | _ :: ins :: p1 :: _ :: rest =>
      if ins =? 0x20 then (p1 =? 0) && negb (bool_decide (rest = [0]))
      else (ins =? 0x24) || (ins =? 0x2C)
  | _ => false
  end.
Definition spends_no_try (c : CommandApdu) : Prop := spends_try (cmd_bytes c) = false.

Section no_try.
Context `{CardTransport T E}.

Lemma no_try_auth c : spends_no_try c → sends_only (E:=_) spends_no_try (auth_transmit (T:=Logged T) c).
Proof. intros Hc. apply sends_only_map_err, sends_only_transmit. exact Hc. Qed.

Lemma no_try_p15 c : spends_no_try c → sends_only (E:=_) spends_no_try (p15_transmit (T:=Logged T) c).
Proof. intros Hc. apply sends_only_map_err, sends_only_transmit. exact Hc. Qed.

(** The probe is a VERIFY without data. *)
Lemma probe_status_word_eq `{CardTransport U F} reference :
  probe_status_word (T:=U) (E:=F) reference
  = (do! r := auth_transmit (CommandApdu_new [0x00; 0x20; 0x00; CredentialReference_as_byte reference; 0x00]) in
     act_ret (ResponseApdu_status_word r)).
Proof. done. Qed.

Lemma no_try_probe reference : sends_only spends_no_try (probe_status_word (T:=Logged T) reference).
Proof.
  rewrite probe_status_word_eq. apply sends_only_bind; [by apply no_try_auth|].
  intros r. apply sends_only_ret.
Qed.

Lemma no_try_resolve : sends_only spends_no_try (resolve_pin_reference_scheme (T:=Logged T)).
Proof.
  unfold resolve_pin_reference_scheme. apply sends_only_bind; [apply no_try_probe|intros sw].
  destruct (negb _); [apply sends_only_ret|]. apply sends_only_bind; [apply no_try_probe|intros sw'].
  apply sends_only_ret.
Qed.

Lemma no_try_first_accepted a :
  spends_no_try a.1 → spends_no_try a.2 → sends_only spends_no_try (first_accepted (T:=Logged T) a).
Proof.
  destruct a as [c1 c2]. intros H1 H2. unfold first_accepted.
  apply sends_only_bind; [by apply sends_only_transmit|]. intros r.
  destruct (ResponseApdu_is_ok r); [apply sends_only_ret|].
  apply sends_only_bind; [by apply sends_only_transmit|]. intros r'. apply sends_only_ret.
Qed.

Lemma no_try_select_ef fid : sends_only spends_no_try (select_ef (T:=Logged T) fid).
Proof.
  unfold select_ef. cbn [select_ef_attempts].
  apply sends_only_bind; [by apply no_try_p15|intros r]. destruct (ResponseApdu_is_ok r); [apply sends_only_ret|].
  apply sends_only_bind; [by apply no_try_p15|intros r']. destruct (ResponseApdu_is_ok r'); [apply sends_only_ret|].
  apply sends_only_err.
Qed.

Lemma no_try_select_app : sends_only spends_no_try (select_pkcs15_application (T:=Logged T)).
Proof.
  unfold select_pkcs15_application. apply sends_only_bind; [apply sends_only_lift|intros aid].
  apply sends_only_bind; [by apply no_try_p15|intros r]. destruct (negb _); [apply sends_only_err|apply sends_only_ret].
Qed.

Lemma no_try_read_to_end n : sends_only spends_no_try (read_binary_to_end (T:=Logged T) n).
Proof.
  unfold read_binary_to_end. apply sends_only_bind.
  - apply sends_only_loop. intros [collected offset]. unfold read_to_end_round.
    destruct (negb _); [apply sends_only_ret|]. destruct (_ >? _); [apply sends_only_err|].
    apply sends_only_bind; [by apply no_try_p15|intros r].
    destruct (_ && _); [apply sends_only_err|]. destruct (_ || _); apply sends_only_ret.
  - intros bs. destruct bs; [apply sends_only_err|]. destruct (_ >? _); [apply sends_only_err|apply sends_only_ret].
Qed.

Context `{PasswordLengthRange R}.

Lemma no_try_policy_lengths credential :
  sends_only spends_no_try (pin_policy_lengths (T:=Logged T) (R:=R) credential).
Proof.
  unfold pin_policy_lengths. apply sends_only_bind; [apply no_try_auth; by destruct credential|].
  intros r. destruct (negb _); apply sends_only_ret.
Qed.

(** The closure's state is the transport and the first failure; the log is the
    transport's. *)
Lemma no_try_closure numbering credential (t : Logged T) failure :
  ∃ cs, sent (policy_closure (R:=R) numbering credential (t, failure)).1.1 = sent t ++ cs ∧ Forall spends_no_try cs.
Proof.
  unfold policy_closure. destruct (_ || _).
  - exists []. by rewrite app_nil_r.
  - destruct (no_try_policy_lengths credential t) as (cs & Hcs & Hall). exists cs.
    destruct (pin_policy_lengths _ t) as [t' [r|e|]]; done.
Qed.

(** The same for the state the closure runs on. *)
Definition logs_no_try {X F A} (m : act (Logged T * X) F A) : Prop :=
  ∀ s, ∃ cs, sent (m s).1.1 = sent s.1 ++ cs ∧ Forall spends_no_try cs.

Lemma logs_no_try_bind {X F A B} (m : act (Logged T * X) F A) (k : A → act (Logged T * X) F B) :
  logs_no_try m → (∀ a, logs_no_try (k a)) → logs_no_try (act_bind m k).
Proof.
  intros Hm Hk s. destruct (Hm s) as (cs & Hcs & Hall). unfold act_bind.
  destruct (m s) as [s' [a|e|]]; cbn [fst] in *; [|by exists cs..].
  destruct (Hk a s') as (cs' & Hcs' & Hall'). exists (cs ++ cs').
  rewrite Hcs', Hcs, <- app_assoc. split; [done|]. by apply Forall_app.
Qed.

Lemma logs_no_try_ret {X F A} (a : A) : logs_no_try (act_ret (T:=Logged T * X) (E:=F) a).
Proof. intros s. exists []. split; [by rewrite app_nil_r|apply Forall_nil_2]. Qed.

Context {O : Type} `{AuthenticationObjectsOps R O}.

Lemma no_try_from_card numbering (objects : option O) :
  logs_no_try (CardPinLengths_from_card numbering objects (policy_closure (T:=Logged T) (R:=R) numbering)).
Proof.
  assert (∀ c, logs_no_try (policy_closure (T:=Logged T) (R:=R) numbering c)) as Hclosure
    by (intros c [t failure]; apply no_try_closure).
  unfold CardPinLengths_from_card.
  repeat (apply logs_no_try_bind; [destruct (mbind _ _); [apply logs_no_try_ret|apply Hclosure]|intros ?]).
  apply logs_no_try_ret.
Qed.

Lemma no_try_read_objects :
  sends_only spends_no_try (read_authentication_objects (T:=Logged T) (R:=R) (O:=O)).
Proof.
  unfold read_authentication_objects. apply sends_only_bind; [apply no_try_select_app|intros _].
  apply sends_only_bind; [apply no_try_select_ef|intros _].
  apply sends_only_bind; [apply no_try_read_to_end|intros bs]. apply sends_only_lift.
Qed.

Lemma no_try_read_lengths :
  sends_only spends_no_try (read_card_pin_lengths (T:=Logged T) (R:=R) (O:=O)).
Proof.
  unfold read_card_pin_lengths. apply sends_only_bind; [apply no_try_resolve|intros numbering].
  apply sends_only_bind.
  - intros t. destruct (no_try_read_objects t) as (cs & Hcs & Hall). exists cs.
    destruct (read_authentication_objects t) as [t' [o|[]|]]; done.
  - intros objects t. destruct (no_try_from_card numbering objects (t, None)) as (cs & Hcs & Hall).
    exists cs. destruct (CardPinLengths_from_card _ _ _ _) as [[t' [e|]] [r|e'|]]; done.
Qed.
End no_try.

(** C8: looking at a card costs no try. Whatever the card answers, and over
    any transport, every status operation hands only SELECT, READ BINARY, GET
    DATA and VERIFY probes without data to the card: no command among them can
    lower a retry counter. *)
Theorem status_operations_spend_no_try
  `{CardTransport T E, PasswordLengthRange R} {O : Type} `{!AuthenticationObjectsOps R O} scheme slot credential :
  let safe {A} (m : act (Logged T) (AuthError (TransportDispatchError E)) A) := sends_only spends_no_try m in
  safe resolve_pin_reference_scheme
  ∧ safe (pin_status_with_scheme scheme slot) ∧ safe (puk_status_with_scheme scheme)
  ∧ safe (pin_policy_counters slot) ∧ safe puk_policy_counters
  ∧ safe (pin_changed_flag_with_scheme scheme slot)
  ∧ safe (pin_policy_lengths (R:=R) credential)
  ∧ safe (read_card_pin_lengths (R:=R) (O:=O)).
Proof.
  intros safe. unfold safe. split_and!.
  - apply no_try_resolve.
  - apply sends_only_bind; [apply no_try_probe|intros sw; apply sends_only_ret].
  - unfold puk_status_with_scheme. case_decide.
    + apply sends_only_bind; [apply no_try_probe|intros sw; apply sends_only_ret].
    + apply sends_only_bind; [by apply no_try_auth|intros r].
      destruct (ResponseApdu_is_ok r); apply sends_only_ret.
  - apply sends_only_bind; [by apply no_try_auth|intros r]. destruct (negb _); apply sends_only_ret.
  - apply sends_only_bind; [by apply no_try_auth|intros r]. destruct (negb _); apply sends_only_ret.
  - apply sends_only_bind; [by apply no_try_auth|intros r]. destruct (negb _); apply sends_only_ret.
  - apply no_try_policy_lengths.
  - apply no_try_read_lengths.
Qed.

(** A probe answer that says the card has the reference, by its code. *)
Definition reference_known (sw : Z) : bool :=
  (sw =? 0x9000) || (sw =? 0x6300) || (sw =? 0x6983) || (sw =? 0x6984) || ((0x63C0 <=? sw) && (sw <=? 0x63CF)).

Lemma classify_pin_status_known sw :
  is_u16 sw →
  match classify_pin_status_sw (StatusWord_from_u16 sw) with
  | Ps_Verified | Ps_Remaining _ | Ps_NoInfo | Ps_Locked => Organizational
  | Ps_Other _ => Citizen
  end = if reference_known sw then Organizational else Citizen.
Proof.
  intros Hsw. destruct (as_u16_from_u16 sw Hsw) as [Ha Hc].
  destruct (StatusWord_from_u16 sw) as [| | | |x|r| | | | | |] eqn:Heq; cbn [StatusWord_as_u16] in Ha;
    try (rewrite <- Ha; reflexivity).
  - destruct (reference_known sw) eqn:Hk; [|done]. exfalso. subst x. unfold reference_known in Hk.
    rewrite !orb_true_iff, !Z.eqb_eq, andb_true_iff, !Z.leb_le in Hk.
    destruct Hk as [[[[->| ->]| ->]| ->]|Hk]; [done..|].
    pose proof (from_u16_PinIncorrect (sw - 0x63C0)) as Hn. unfold SW_PIN_COUNTER_PREFIX in Hn.
    replace (0x63C0 + (sw - 0x63C0)) with sw in Hn by lia. rewrite Heq in Hn.
    assert (0 ≤ sw - 0x63C0 ≤ 15) as Hr by lia. by specialize (Hn Hr).
  - apply PinIncorrect_code in Heq as [Hr ->]; [|done]. unfold PinRetries_wf in Hr.
    unfold reference_known. cbn [classify_pin_status_sw].
    destruct (Z.leb_spec 0x63C0 (0x63C0 + PinRetries_0 r)); [|lia].
    destruct (Z.leb_spec (0x63C0 + PinRetries_0 r) 0x63CF); [|lia]. by rewrite orb_true_r.
Qed.

(** Which numbering a card gets. The citizen reference of PIN 1 is probed
    first; only when the card answers that it has no such reference (6A88) is
    the organization reference probed, and the card is taken for an
    organization card exactly when that answer says the reference is known
    (9000, 6300, 6983, 6984 or a counter 63Cx). In every other case it is a
    citizen card; at most two commands are sent. *)
Theorem resolve_scheme_exact `{CardTransport T E} (t : Logged T) t1 r1
  (H1 : transmit (E:=E) [0x00; 0x20; 0x00; 0x11; 0x00] (card t) = (t1, Ok r1)) (Hr1 : is_u16 (ResponseApdu_sw r1)) :
  let probe := CommandApdu_new [0x00; 0x20; 0x00; 0x11; 0x00] in
  let probe' := CommandApdu_new [0x00; 0x20; 0x00; 0x03; 0x00] in
  (ResponseApdu_sw r1 ≠ 0x6A88 →
     resolve_pin_reference_scheme t = (mkLogged (sent t ++ [probe]) t1, Ok Citizen))
  ∧ (ResponseApdu_sw r1 = 0x6A88 → ∀ t2 r2,
     transmit (cmd_bytes probe') t1 = (t2, Ok r2) → is_u16 (ResponseApdu_sw r2) →
     resolve_pin_reference_scheme t
     = (mkLogged (sent t ++ [probe; probe']) t2,
        Ok (if reference_known (ResponseApdu_sw r2) then Organizational else Citizen))).
Proof.
  intros probe probe'. unfold resolve_pin_reference_scheme. rewrite !probe_status_word_eq.
  change (CredentialReference_as_byte (Cr_Pin Citizen Pin1)) with 0x11.
  change (CredentialReference_as_byte (Cr_Pin Organizational Pin1)) with 0x03.
  pose proof (from_u16_eq (ResponseApdu_sw r1) Sw_ReferenceDataNotFound Hr1 I) as Heq.
  cbn [StatusWord_as_u16] in Heq. unfold SW_REFERENCE_DATA_NOT_FOUND in Heq.
  split; unfold act_bind at 1; rewrite auth_exchange_logged, H1; cbn [answered];
    change (ResponseApdu_status_word r1) with (StatusWord_from_u16 (ResponseApdu_sw r1)).
  - intros Hne. rewrite bool_decide_eq_false_2 by tauto. done.
  - intros H88 t2 r2 H2 Hr2. rewrite bool_decide_eq_true_2 by tauto. cbn [negb].
    unfold act_bind at 1. rewrite auth_exchange_logged. cbn [card sent].
    change (cmd_bytes probe') with [0x00; 0x20; 0x00; 0x03; 0x00] in H2. rewrite H2. cbn [answered].
    change (ResponseApdu_status_word r2) with (StatusWord_from_u16 (ResponseApdu_sw r2)).
    unfold act_ret. rewrite classify_pin_status_known by done. by rewrite <- app_assoc.
Qed.

(** An organization card: no citizen reference, three tries on the other. *)
Lemma resolve_scheme_exact_witness :
  resolve_pin_reference_scheme (mkLogged [] ([reply [] 0x6A88; reply [] 0x63C3] : Script))
  = (mkLogged [CommandApdu_new [0x00; 0x20; 0x00; 0x11; 0x00]; CommandApdu_new [0x00; 0x20; 0x00; 0x03; 0x00]] [],
     Ok Organizational).
Proof.
  refine (proj2 (resolve_scheme_exact (E:=string) (mkLogged [] ([reply [] 0x6A88; reply [] 0x63C3] : Script))
    [reply [] 0x63C3] (mkResponseApdu [] 0x6A 0x88) _ _) _ [] (mkResponseApdu [] 0x63 0xC3) _ _);
    first [by vm_compute|by_decide].
Defined.

(** The policy refuses a code: the reason, or [None]. *)
Definition refusal (r : result PinPolicyReason unit) : option PinPolicyReason :=
  match r with Err reason => Some reason | _ => None end.

Section credential_commands.
Context `{CardTransport T E}.

Lemma Verify_short cls mode reference bs :
  len bs ≤ 255 →
  Verify_into_apdu (E:=AuthError (TransportDispatchError E)) (mkVerify cls mode reference (Vd_PinBlock bs))
  = Ok (CommandApdu_new ([ApduClass_as_byte cls; 0x20; VerifyMode_as_p1 mode; CredentialReference_as_byte reference;
                          len bs] ++ bs)).
Proof. intros Hl. unfold Verify_into_apdu. cbn [vf_data vf_class vf_mode vf_reference]. by rewrite lc_short. Qed.

Lemma ChangeReferenceData_short reference bs :
  len bs ≤ 255 →
  ChangeReferenceData_into_apdu (E:=AuthError (TransportDispatchError E)) (mkChangeReferenceData reference bs)
  = Ok (CommandApdu_new ([0x00; 0x24; 0x00; CredentialReference_as_byte reference; len bs] ++ bs)).
Proof.
  intros Hl. unfold ChangeReferenceData_into_apdu. cbn [cd_padded_pair cd_reference]. by rewrite lc_short.
Qed.

Lemma ResetRetryCounter_short target mode bs :
  len bs ≤ 255 →
  ResetRetryCounter_into_apdu (E:=AuthError (TransportDispatchError E)) (mkResetRetryCounter target mode bs)
  = Ok (CommandApdu_new ([0x00; 0x2C; ResetRetryCounterMode_as_p1 mode; CredentialReference_as_byte target; len bs]
                         ++ bs)).
Proof.
  intros Hl. unfold ResetRetryCounter_into_apdu. cbn [rr_padded_pair rr_mode rr_target]. by rewrite lc_short.
Qed.

Lemma stored_length_12 slot : PinSlot_stored_length slot = 12.
Proof. by destruct slot. Qed.

(** A policy check in front of an operation: it goes on, or stops without a
    word to the card. *)
Lemma policy_bind {A} p check (k : unit → act (Logged T) (AuthError (TransportDispatchError E)) A) t :
  PinBytes_wf p → (∀ n, check n ≠ Panic) →
  act_bind (act_lift (PinPolicyCheck_validate_for_card (PinBytes_as_bytes p) check)) k t
  = match refusal (check (PinBytes_digit_count p)) with
    | Some reason => (t, Err (Ae_PinPolicy reason))
    | None => k tt t
    end.
Proof.
  intros Hp Hc. rewrite (PinPolicyCheck_for_card_wf p check Hp). specialize (Hc (PinBytes_digit_count p)).
  by destruct (check _) as [[]|e|].
Qed.
End credential_commands.

Lemma lengths_check_no_panic `{PasswordLengthRange R} (a : option R) n : lengths_check a n ≠ Panic.
Proof. unfold lengths_check. destruct a as [r|]; [|done]. by destruct (plr_contains r n). Qed.

(** The whole run of [change_pin] on codes of the right type. *)
Definition change_pin_apdu `{PasswordLengthRange R} (lengths : CardPinLengths R) slot current_pin new_pin : bytes :=
  let scheme := cpl_numbering lengths in
  let block := pin_field scheme current_pin ++ pin_field scheme new_pin in
  [0x00; 0x24; 0x00; PinReferenceScheme_reference scheme slot; len block] ++ block.

Lemma change_pin_run `{CardTransport T E, PasswordLengthRange R} (lengths : CardPinLengths R) slot
  current_pin new_pin (t : Logged T) :
  PinBytes_wf current_pin → PinBytes_wf new_pin →
  let check p := refusal (check_pin lengths slot (PinBytes_digit_count p)) in
  let apdu := change_pin_apdu lengths slot current_pin new_pin in
  change_pin lengths slot current_pin new_pin t =
  match check current_pin, check new_pin with
  | Some reason, _ | None, Some reason => (t, Err (Ae_PinPolicy reason))
  | None, None =>
      let '(t', r) := transmit apdu (card t) in
      (mkLogged (sent t ++ [CommandApdu_new apdu]) t',
       answered (λ rsp, classify_change_pin_sw (ResponseApdu_status_word rsp)) r)
  end.
Proof.
  intros Hcur Hnew check apdu.
  unfold change_pin. rewrite policy_bind by (done || (intros n; apply lengths_check_no_panic)).
  fold (check current_pin). destruct (check current_pin); [done|].
  rewrite policy_bind by (done || (intros n; apply lengths_check_no_panic)).
  fold (check new_pin). destruct (check new_pin); [done|].
  rewrite stored_length_12, !CredentialBlock_push_wf by done. cbn [app].
  pose proof (len_pin_field (cpl_numbering lengths) _ Hcur).
  pose proof (len_pin_field (cpl_numbering lengths) _ Hnew).
  rewrite ChangeReferenceData_short by (rewrite len_app; lia). apply auth_exchange_logged.
Qed.

(** Changing a PIN. When a length is not one the card accepts, the error
    names the first code that fails and nothing is sent. Otherwise exactly one
    command is sent, CHANGE REFERENCE DATA of the slot's own reference under
    the card's numbering with the old code before the new one (two zero-padded
    fields of twelve bytes on a citizen card, the digits alone on an
    organization card), the length octet is exact, and the outcome is what the
    card's answer means: the change is reported done exactly when the card
    answered 9000. *)
Theorem change_pin_exact `{CardTransport T E, PasswordLengthRange R} (lengths : CardPinLengths R) slot
  current_pin new_pin (t : Logged T) (Hcur : PinBytes_wf current_pin) (Hnew : PinBytes_wf new_pin) :
  let scheme := cpl_numbering lengths in
  let check p := refusal (check_pin lengths slot (PinBytes_digit_count p)) in
  let block := pin_field scheme current_pin ++ pin_field scheme new_pin in
  let apdu := [0x00; 0x24; 0x00; PinReferenceScheme_reference scheme slot; len block] ++ block in
  change_pin lengths slot current_pin new_pin t =
  match check current_pin, check new_pin with
  | Some reason, _ | None, Some reason => (t, Err (Ae_PinPolicy reason))
  | None, None =>
      let '(t', r) := transmit apdu (card t) in
      (mkLogged (sent t ++ [CommandApdu_new apdu]) t',
       answered (λ rsp, classify_change_pin_sw (ResponseApdu_status_word rsp)) r)
  end
  ∧ len block ≤ 24
  ∧ (∀ t' rsp, is_u16 (ResponseApdu_sw rsp) → check current_pin = None → check new_pin = None →
       transmit apdu (card t) = (t', Ok rsp) →
       (change_pin lengths slot current_pin new_pin t).2 = Ok Cp_Ok ↔ ResponseApdu_sw rsp = 0x9000).
Proof.
  intros scheme check block apdu.
  pose proof (change_pin_run lengths slot current_pin new_pin t Hcur Hnew) as Hrun.
  split; [exact Hrun|]. split.
  { pose proof (len_pin_field scheme _ Hcur). pose proof (len_pin_field scheme _ Hnew).
    unfold block. rewrite len_app. lia. }
  intros t' rsp Hsw Hc1 Hc2 Htr. cbn zeta in Hrun. rewrite Hrun. fold (check current_pin) (check new_pin).
  rewrite Hc1, Hc2. change (change_pin_apdu lengths slot current_pin new_pin) with apdu. rewrite Htr.
  cbn [answered snd]. change (ResponseApdu_status_word rsp) with (StatusWord_from_u16 (ResponseApdu_sw rsp)).
  rewrite <- (from_u16_eq (ResponseApdu_sw rsp) Sw_Success Hsw I : _ ↔ _ = 0x9000).
  destruct (StatusWord_from_u16 _); split; (done || by intros [=]).
Qed.

(** Codes for the examples: 1234, 123456 and a PUK of eight digits. *)
Definition pin_1234 : PinBytes := mkPinBytes [0x31; 0x32; 0x33; 0x34; 0; 0; 0; 0; 0; 0; 0; 0] 4.
Definition pin_123456 : PinBytes := mkPinBytes [0x31; 0x32; 0x33; 0x34; 0x35; 0x36; 0; 0; 0; 0; 0; 0] 6.
Definition puk_12345678 : PinBytes := mkPinBytes [0x31; 0x32; 0x33; 0x34; 0x35; 0x36; 0x37; 0x38; 0; 0; 0; 0] 8.
Lemma pin_1234_wf : PinBytes_wf pin_1234.
Proof. exists [0x31; 0x32; 0x33; 0x34]. by vm_compute. Qed.
Lemma pin_123456_wf : PinBytes_wf pin_123456.
Proof. exists [0x31; 0x32; 0x33; 0x34; 0x35; 0x36]. by vm_compute. Qed.
Lemma puk_12345678_wf : PinBytes_wf puk_12345678.
Proof. exists [0x31; 0x32; 0x33; 0x34; 0x35; 0x36; 0x37; 0x38]. by vm_compute. Qed.

Lemma change_pin_exact_witness :
  change_pin (CardPinLengths_not_listed (R:=Z * Z) Citizen) Pin1 pin_1234 pin_123456
    (mkLogged [] ([reply [] 0x9000] : Script))
  = (mkLogged [CommandApdu_new ([0x00; 0x24; 0x00; 0x11; 24; 0x31; 0x32; 0x33; 0x34; 0; 0; 0; 0; 0; 0; 0; 0;
                                 0x31; 0x32; 0x33; 0x34; 0x35; 0x36; 0; 0; 0; 0; 0; 0])] [], Ok Cp_Ok).
Proof.
  exact (proj1 (change_pin_exact (E:=string) (CardPinLengths_not_listed (R:=Z * Z) Citizen) Pin1 pin_1234 pin_123456
    (mkLogged [] ([reply [] 0x9000] : Script)) pin_1234_wf pin_123456_wf)).
Defined.

(** The whole run of [reset_retry_counter] on codes of the right type. *)
Lemma reset_retry_counter_run `{CardTransport T E, PasswordLengthRange R} (lengths : CardPinLengths R) target
  puk new_pin (t : Logged T) (Hpuk : PinBytes_wf puk) (Hnew : PinBytes_wf new_pin) :
  let scheme := cpl_numbering lengths in
  let puk_refused := refusal (check_puk lengths (PinBytes_digit_count puk)) in
  let new_refused := refusal (check_pin lengths target (PinBytes_digit_count new_pin)) in
  let outcome rsp := classify_reset_retry_sw (ResponseApdu_status_word rsp) in
  let reset p1 block := [0x00; 0x2C; p1; PinReferenceScheme_reference scheme target; len block] ++ block in
  let with_puk := reset 0x00 (pb_bytes puk ++ pb_bytes new_pin) in
  let new_only := reset 0x02 (PinBytes_as_bytes new_pin) in
  let verify := [0x00; 0x20; 0x00; 0x12; len (PinBytes_as_bytes puk)] ++ PinBytes_as_bytes puk in
  reset_retry_counter lengths target puk new_pin t =
  match puk_refused, new_refused with
  | Some reason, _ | None, Some reason => (t, Err (Ae_PinPolicy reason))
  | None, None =>
      match scheme with
      | Citizen =>
          let '(t', r) := transmit with_puk (card t) in
          (mkLogged (sent t ++ [CommandApdu_new with_puk]) t', answered outcome r)
      | Organizational =>
          let '(t1, r1) := transmit verify (card t) in
          let log1 := sent t ++ [CommandApdu_new verify] in
          match answered outcome r1 with
          | Ok Ub_Ok =>
              let '(t2, r2) := transmit new_only t1 in
              (mkLogged (log1 ++ [CommandApdu_new new_only]) t2, answered outcome r2)
          | other => (mkLogged log1 t1, other)
          end
      end
  end.
Proof.
  intros scheme puk_refused new_refused outcome reset with_puk new_only verify.
  pose proof (PinBytes_wf_digits _ Hpuk) as [Hlp _]. pose proof (PinBytes_wf_digits _ Hnew) as [Hln _].
  unfold reset_retry_counter. rewrite policy_bind by (done || (intros n; apply lengths_check_no_panic)).
  fold puk_refused. destruct puk_refused; [done|].
  rewrite policy_bind by (done || (intros n; apply lengths_check_no_panic)).
  fold new_refused. destruct new_refused; [done|].
  rewrite stored_length_12, !CredentialBlock_push_wf by done. cbn [app]. fold scheme.
  destruct scheme eqn:Hs; unfold act_bind at 1; cbn [reset_retry_mode].
  - unfold act_ret at 1. rewrite decide_True by done.
    pose proof (len_pin_field Citizen _ Hpuk) as Hl1. pose proof (len_pin_field Citizen _ Hnew) as Hl2.
    change PUK_STORED_LENGTH with 12. rewrite ?CredentialBlock_push_wf by done.
    cbn [app]. rewrite ResetRetryCounter_short by (rewrite len_app; lia).
    unfold with_puk, reset. rewrite ?Hs. apply auth_exchange_logged.
  - change PUK_STORED_LENGTH with 12. rewrite ?CredentialBlock_push_wf by done. cbn [app].
    rewrite Verify_short by (cbn [pin_field]; lia). cbn [pin_field].
    change (ApduClass_as_byte Cla_Plain) with 0x00. change (VerifyMode_as_p1 Vm_Verify) with 0x00.
    change (CredentialReference_as_byte (Cr_Puk Organizational)) with 0x12. fold verify.
    rewrite act_lift_ok. unfold act_bind at 1, auth_transmit at 1, act_map_err, CommandApdu_as_bytes, CommandApdu_new at 1.
    cbn [cmd_bytes]. rewrite transmit_logged. destruct (transmit verify (card t)) as [t1 [r1|e|]]; [|done..].
    cbn [map_err answered]. unfold outcome at 1.
    case_bool_decide as Hok.
    + rewrite Hok. cbn [negb]. unfold act_ret at 1. rewrite decide_False by done.
      rewrite ?CredentialBlock_push_wf by done. cbn [app pin_field]. rewrite ResetRetryCounter_short by lia.
      unfold new_only, reset. rewrite ?Hs. unfold act_lift. apply auth_exchange_logged.
    + cbn [negb]. unfold act_ret. fold (outcome r1) in Hok |- *. by destruct (outcome r1).
Qed.

(** C9: resetting a PIN with the PUK. When a length is not accepted nothing is
    sent. On a citizen card one RESET RETRY COUNTER carries the PUK and the new
    PIN. On an organization card the PUK is first presented by a VERIFY of its
    own, and the reset, which then carries the new PIN only, is sent only when
    the card answered that VERIFY with 9000; any other answer is the outcome
    and no reset follows. *)
Theorem reset_retry_counter_exact `{CardTransport T E, PasswordLengthRange R} (lengths : CardPinLengths R) target
  puk new_pin (t : Logged T) (Hpuk : PinBytes_wf puk) (Hnew : PinBytes_wf new_pin) :
  let scheme := cpl_numbering lengths in
  let puk_refused := refusal (check_puk lengths (PinBytes_digit_count puk)) in
  let new_refused := refusal (check_pin lengths target (PinBytes_digit_count new_pin)) in
  let outcome rsp := classify_reset_retry_sw (ResponseApdu_status_word rsp) in
  let reset p1 block := [0x00; 0x2C; p1; PinReferenceScheme_reference scheme target; len block] ++ block in
  let with_puk := reset 0x00 (pb_bytes puk ++ pb_bytes new_pin) in
  let new_only := reset 0x02 (PinBytes_as_bytes new_pin) in
  let verify := [0x00; 0x20; 0x00; 0x12; len (PinBytes_as_bytes puk)] ++ PinBytes_as_bytes puk in
  reset_retry_counter lengths target puk new_pin t =
  match puk_refused, new_refused with
  | Some reason, _ | None, Some reason => (t, Err (Ae_PinPolicy reason))
  | None, None =>
      match scheme with
      | Citizen =>
          let '(t', r) := transmit with_puk (card t) in
          (mkLogged (sent t ++ [CommandApdu_new with_puk]) t', answered outcome r)
      | Organizational =>
          let '(t1, r1) := transmit verify (card t) in
          let log1 := sent t ++ [CommandApdu_new verify] in
          match answered outcome r1 with
          | Ok Ub_Ok =>
              let '(t2, r2) := transmit new_only t1 in
              (mkLogged (log1 ++ [CommandApdu_new new_only]) t2, answered outcome r2)
          | other => (mkLogged log1 t1, other)
          end
      end
  end.
Proof. exact (reset_retry_counter_run lengths target puk new_pin t Hpuk Hnew). Qed.

(** An organization card whose PUK is right: the VERIFY, then the reset. *)
Lemma reset_retry_counter_exact_witness :
  reset_retry_counter (CardPinLengths_not_listed (R:=Z * Z) Organizational) Pin1 puk_12345678 pin_1234
    (mkLogged [] ([reply [] 0x9000; reply [] 0x9000] : Script))
  = (mkLogged [CommandApdu_new [0x00; 0x20; 0x00; 0x12; 8; 0x31; 0x32; 0x33; 0x34; 0x35; 0x36; 0x37; 0x38];
               CommandApdu_new [0x00; 0x2C; 0x02; 0x03; 4; 0x31; 0x32; 0x33; 0x34]] [], Ok Ub_Ok).
Proof.
  exact (reset_retry_counter_exact (E:=string) (CardPinLengths_not_listed (R:=Z * Z) Organizational) Pin1
    puk_12345678 pin_1234 (mkLogged [] ([reply [] 0x9000; reply [] 0x9000] : Script)) puk_12345678_wf pin_1234_wf).
Defined.

Lemma no_try_select_esign `{CardTransport T E} :
  sends_only spends_no_try (select_esign_directory (T:=Logged T)).
Proof.
  unfold select_esign_directory. apply sends_only_bind; [by apply no_try_first_accepted|intros mf].
  destruct (negb _); [apply sends_only_ret|].
  destruct (Aid_from_slice _) as [aid|e|] eqn:Haid; [|by apply no_try_first_accepted..].
  apply sends_only_bind; [by apply sends_only_transmit|intros r].
  destruct (ResponseApdu_is_ok r); [apply sends_only_ret|by apply no_try_first_accepted].
Qed.

(** The commands of [c :: cs] in order, up to the first the card accepts: success, or the
    status word of the last. *)
Fixpoint first_taken `{CardTransport T E} (c : bytes) (cs : list bytes) : act T (TransportDispatchError E) StatusWord :=
  do! r := transmit c in
  if ResponseApdu_is_ok r then act_ret Sw_Success
  else match cs with [] => act_ret (ResponseApdu_status_word r) | c :: cs => first_taken c cs end.
(** Into the signature directory: the master file by its identifier 3F00, as a file or else
    as a name; then the directory by its name ".SIGN", as the child 5016, or as any 5016. *)
Definition enter_signature_directory `{CardTransport T E} : act T (TransportDispatchError E) StatusWord :=
  do! mf := first_taken [0x00; 0xA4; 0x00; 0x0C; 0x02; 0x3F; 0x00] [[0x00; 0xA4; 0x04; 0x0C; 0x02; 0x3F; 0x00]] in
  match mf with
  | Sw_Success => first_taken [0x00; 0xA4; 0x04; 0x0C; 0x06; 0x45; 0x2E; 0x53; 0x49; 0x47; 0x4E]
                              [[0x00; 0xA4; 0x01; 0x0C; 0x02; 0x50; 0x16]; [0x00; 0xA4; 0x00; 0x0C; 0x02; 0x50; 0x16]]
  | refused => act_ret refused
  end.
Lemma first_accepted_taken `{CardTransport T E} c1 c2 (t : T) : first_accepted (c1, c2) t = first_taken (cmd_bytes c1) [cmd_bytes c2] t.
Proof.
  unfold first_accepted, CommandApdu_as_bytes. cbn [first_taken]. apply act_bind_ext. intros r t1.
  destruct (ResponseApdu_is_ok r); [done|]. apply act_bind_ext. intros r2 t2. by destruct (ResponseApdu_is_ok r2).
Qed.
Lemma select_esign_enters `{CardTransport T E} (t : T) : select_esign_directory t = enter_signature_directory t.
Proof.
  unfold select_esign_directory, enter_signature_directory, mf_select_attempts, child_df_select_attempts. unfold act_bind at 1. unfold act_bind at 2. rewrite first_accepted_taken.
  destruct (first_taken _ _ t) as [t1 [mf|e|]]; [|done..].
  destruct mf; try done. assert (∃ aid, Aid_from_slice ESIGN_AID = Ok aid ∧ Aid_as_bytes aid = ESIGN_AID) as (aid & Ha & Hb) by (eexists; by split).
  cbn [StatusWord_is_success negb]. rewrite Ha. unfold CommandApdu_as_bytes, SelectByAidNoFci_into_apdu. cbn [sn_aid]. rewrite Hb.
  cbn [first_taken]. apply act_bind_ext. intros r t2. destruct (ResponseApdu_is_ok r); [done|]. by rewrite first_accepted_taken.
Qed.

(** C10: presenting a PIN. One VERIFY carries it, to the slot's own reference
    under the card's numbering, as a zero-padded field of twelve bytes or as
    the digits alone, with an exact length octet. For PIN 2 of an organization
    card the signature directory is entered first, by the selections of
    [enter_signature_directory], which cost no try; when the card does not let the
    program in, the PIN is not sent at all and the refusing status word is the
    outcome. The PIN is never sent twice. *)
Theorem verify_pin_exact `{CardTransport T E} scheme slot pin (t : Logged T) (Hpin : PinBytes_wf pin) :
  let field := pin_field scheme pin in
  let reference := match scheme, slot with Citizen, Pin1 => 0x11 | Citizen, Pin2 => 0x82 | Organizational, Pin1 => 0x03 | Organizational, Pin2 => 0x04 end in
  let apdu := [0x00; 0x20; 0x00; reference; len field] ++ field in
  let outcome rsp := classify_verify_sw (ResponseApdu_status_word rsp) in
  let entered := if bool_decide (scheme = Organizational ∧ slot = Pin2)
                 then enter_signature_directory t else (t, Ok Sw_Success) in
  verify_pin_with_scheme scheme slot pin t =
    (let t1 := entered.1 in
     match entered.2 with
     | Ok Sw_Success =>
         let '(t2, r) := transmit apdu (card t1) in
         (mkLogged (sent t1 ++ [CommandApdu_new apdu]) t2, answered outcome r)
     | Ok refused => (t1, Ok (Vo_Other (StatusWord_as_u16 refused)))
     | Err e => (t1, Err (Ae_Transport e))
     | Panic => (t1, Panic)
     end)
  ∧ ∃ cs, Forall spends_no_try cs
      ∧ sent (verify_pin_with_scheme scheme slot pin t).1
        = sent t ++ cs ++ match entered.2 with Ok Sw_Success => [CommandApdu_new apdu] | _ => [] end.
Proof.
  intros field reference. assert (reference = PinReferenceScheme_reference scheme slot) as -> by by destruct scheme, slot.
  intros apdu outcome entered. pose proof (len_pin_field scheme _ Hpin) as Hl.
  assert (verify_pin_with_scheme scheme slot pin t =
    (let t1 := entered.1 in
     match entered.2 with
     | Ok Sw_Success =>
         let '(t2, r) := transmit apdu (card t1) in
         (mkLogged (sent t1 ++ [CommandApdu_new apdu]) t2, answered outcome r)
     | Ok refused => (t1, Ok (Vo_Other (StatusWord_as_u16 refused)))
     | Err e => (t1, Err (Ae_Transport e))
     | Panic => (t1, Panic)
     end)) as Hrun.
  { unfold verify_pin_with_scheme. cbn zeta.
    assert (∀ (k : StatusWord → act (Logged T) _ VerifyOutcome),
      act_bind (if PinReferenceScheme_gates_esign_directory scheme slot
                then act_map_err Ae_Transport select_esign_directory else act_ret Sw_Success) k t
      = match entered.2 with
        | Ok w => k w entered.1 | Err e => (entered.1, Err (Ae_Transport e)) | Panic => (entered.1, Panic)
        end) as Henter.
    { intros k. unfold act_bind, entered. destruct scheme, slot; try done. cbn [PinReferenceScheme_gates_esign_directory].
      rewrite bool_decide_eq_true_2 by done. unfold act_map_err.
      rewrite select_esign_enters. by destruct (enter_signature_directory t) as [t1 [w|e|]]. }
    rewrite Henter. destruct entered.2 as [w|e|]; [|done..].
    destruct (StatusWord_is_success w) eqn:Hw; [destruct w; try done|destruct w; done].
    cbn [negb]. rewrite stored_length_12, CredentialBlock_push_wf by done.
    rewrite (PinPolicyCheck_ascii_wf pin Hpin : PinPolicyCheck_validate_ascii _ PIN_MIN_LENGTH _ = _).
    rewrite act_lift_ok. cbn [app]. fold field. rewrite Verify_short by (unfold field; lia).
    rewrite act_lift_ok. apply auth_exchange_logged. }
  split; [exact Hrun|]. rewrite Hrun.
  assert (∃ cs, sent entered.1 = sent t ++ cs ∧ Forall spends_no_try cs) as (cs & Hcs & Hall).
  { unfold entered. case_bool_decide; [rewrite <- select_esign_enters; apply no_try_select_esign|].
    exists []. split; [by rewrite app_nil_r|apply Forall_nil_2]. }
  exists cs. split; [done|]. cbn zeta.
  destruct entered.2 as [[]|e|]; try (cbn [fst]; by rewrite Hcs, app_nil_r).
  destruct (transmit apdu _) as [t2 r]. cbn [fst sent]. by rewrite Hcs, app_assoc.
Qed.

(** An organization card that refuses the directory never sees PIN 2. *)
Lemma verify_pin_exact_witness :
  verify_pin_with_scheme Organizational Pin2 pin_123456
    (mkLogged [] ([reply [] 0x6A82; reply [] 0x6A82] : Script))
  = (mkLogged [CommandApdu_new [0x00; 0xA4; 0x00; 0x0C; 0x02; 0x3F; 0x00];
               CommandApdu_new [0x00; 0xA4; 0x04; 0x0C; 0x02; 0x3F; 0x00]] [], Ok (Vo_Other 0x6A82)).
Proof.
  exact (proj1 (verify_pin_exact (E:=string) Organizational Pin2 pin_123456
    (mkLogged [] ([reply [] 0x6A82; reply [] 0x6A82] : Script)) pin_123456_wf)).
Defined.
