(* ===== verification/SignCommands.v ===== *)
(** The signing commands of crates/refineid-lib-core/src/sign/commands.rs with
    [KeyRef] of sign.rs: algorithm and key references, MSE SET, PSO HASH, PSO
    DECIPHER and PSO COMPUTE DIGITAL SIGNATURE as their wire bytes. A Rust array
    [[u8; N]] is a [vec Z N]; the digest types are those of crypto/digest.rs and
    the containers those of crypto/container.rs. *)

From stdpp Require Import vector.
From S2P Require Import Prelude Transport Apdu Pin Auth.

(** ** Digests and containers *)

Record Sha1 := mkSha1 { Sha1_0 : vec Z 20 }.
Record Sha224 := mkSha224 { Sha224_0 : vec Z 28 }.
Record Sha256 := mkSha256 { Sha256_0 : vec Z 32 }.
Record Sha384 := mkSha384 { Sha384_0 : vec Z 48 }.
Record Sha512 := mkSha512 { Sha512_0 : vec Z 64 }.

(** The algorithm markers are empty structs, used as phantom types. *)
Inductive EcdsaP256 := mkEcdsaP256.
Inductive EcdsaP384 := mkEcdsaP384.
Inductive RsaPkcs1 := mkRsaPkcs1.
Inductive RsaPkcs1Sha256 := mkRsaPkcs1Sha256.

Record Ciphertext (Alg : Type) := Ciphertext_new { Ciphertext_as_bytes : bytes }.
Record Plaintext (Alg : Type) := Plaintext_new { Plaintext_as_bytes : bytes }.
Record Signature (Alg : Type) := Signature_new { Signature_as_bytes : bytes }.
Arguments Ciphertext_new {Alg} _.
Arguments Ciphertext_as_bytes {Alg} _.
Arguments Plaintext_new {Alg} _.
Arguments Plaintext_as_bytes {Alg} _.
Arguments Signature_new {Alg} _.
Arguments Signature_as_bytes {Alg} _.
Definition Ciphertext_len {Alg} (c : Ciphertext Alg) : Z := len (Ciphertext_as_bytes c).
Definition Signature_len {Alg} (s : Signature Alg) : Z := len (Signature_as_bytes s).

(** ** Key and algorithm references *)

Definition KEY_REF_AUTH : Z := 0x01.
Definition KEY_REF_SIGN : Z := 0x02.
Definition ORG_QUALIFIED_KEY_REF : Z := 0x82.

Inductive KeyRef := Kr_Auth | Kr_Sign (scheme : PinReferenceScheme).

Definition KeyRef_as_u8 (k : KeyRef) : Z :=
  match k with
  | Kr_Auth => KEY_REF_AUTH
  | Kr_Sign Citizen => KEY_REF_SIGN
  | Kr_Sign Organizational => ORG_QUALIFIED_KEY_REF
  end.
Definition KeyRef_signs_digest_inline (k : KeyRef) : bool :=
  match k with Kr_Sign Organizational => true | _ => false end.

Inductive HashAlgorithm := Ha_None | Ha_Sha1 | Ha_Sha224 | Ha_Sha256 | Ha_Sha384 | Ha_Sha512.
Definition HashAlgorithm_high_nibble (h : HashAlgorithm) : Z :=
  match h with
  | Ha_None => 0x0 | Ha_Sha1 => 0x1 | Ha_Sha224 => 0x3
  | Ha_Sha256 => 0x4 | Ha_Sha384 => 0x5 | Ha_Sha512 => 0x6
  end.

Inductive SignatureAlgorithm := Sa_RsaIso9796V2 | Sa_RsaPkcs1V1_5 | Sa_RsaRfc2409 | Sa_Ecdsa | Sa_RsaPss.
Definition SignatureAlgorithm_low_nibble (s : SignatureAlgorithm) : Z :=
  match s with
  | Sa_RsaIso9796V2 => 0x1 | Sa_RsaPkcs1V1_5 => 0x2 | Sa_RsaRfc2409 => 0x3
  | Sa_Ecdsa => 0x4 | Sa_RsaPss => 0x5
  end.

Record SignatureAlgRef := mkSignatureAlgRef { sar_byte : Z }.
(** [<<] on a [u8] drops the bits above the eighth. *)
Definition SignatureAlgRef_from_parts (hash : HashAlgorithm) (signature : SignatureAlgorithm)
  : SignatureAlgRef :=
  mkSignatureAlgRef (Z.lor (Z.land (Z.shiftl (HashAlgorithm_high_nibble hash) 4) 0xFF)
                           (SignatureAlgorithm_low_nibble signature)).
Definition SHA256_RSA_PKCS1_V1_5 : SignatureAlgRef := SignatureAlgRef_from_parts Ha_Sha256 Sa_RsaPkcs1V1_5.
Definition SHA384_ECDSA : SignatureAlgRef := SignatureAlgRef_from_parts Ha_Sha384 Sa_Ecdsa.
Definition SHA224_ECDSA : SignatureAlgRef := SignatureAlgRef_from_parts Ha_Sha224 Sa_Ecdsa.
Definition SHA256_ECDSA : SignatureAlgRef := SignatureAlgRef_from_parts Ha_Sha256 Sa_Ecdsa.
Definition RSA_PKCS1_RAW : SignatureAlgRef := mkSignatureAlgRef 0x40.
Definition SignatureAlgRef_as_byte (a : SignatureAlgRef) : Z := sar_byte a.

Inductive DecipherAlgRef :=
| Da_RsassaPkcs1V1_5 | Da_RsaesOaepSha1 | Da_RsaesOaepSha224 | Da_RsaesOaepSha256
| Da_RsaesOaepSha384 | Da_RsaesOaepSha512.
Definition DecipherAlgRef_as_byte (a : DecipherAlgRef) : Z :=
  match a with
  | Da_RsassaPkcs1V1_5 => 0x1A | Da_RsaesOaepSha1 => 0x1D | Da_RsaesOaepSha224 => 0x3D
  | Da_RsaesOaepSha256 => 0x4D | Da_RsaesOaepSha384 => 0x5D | Da_RsaesOaepSha512 => 0x6D
  end.

(** ** MSE SET *)

Definition CRDO_TAG_ALG_REF : Z := 0x80.
Definition CRDO_TAG_KEY_REF : Z := 0x84.
Definition CRDO_VALUE_LEN_BYTE : Z := 0x01.

Inductive MseSetTemplate :=
| Mst_Hashing (alg_ref : SignatureAlgRef)
| Mst_DigitalSignature (alg_ref : SignatureAlgRef) (key_ref : KeyRef)
| Mst_Authentication (alg_ref : SignatureAlgRef) (key_ref : KeyRef)
| Mst_DeciphermentRsa (alg_ref : DecipherAlgRef) (key_ref : KeyRef)
| Mst_DeciphermentElc (key_ref : KeyRef).

Definition MseSetTemplate_p2 (t : MseSetTemplate) : Z :=
  match t with
  | Mst_Hashing _ => 0xAA
  | Mst_DigitalSignature _ _ => 0xB6
  | Mst_Authentication _ _ => 0xA4
  | Mst_DeciphermentRsa _ _ | Mst_DeciphermentElc _ => 0xB8
  end.

Record MseSet := mkMseSet { ms_class : ApduClass; ms_template : MseSetTemplate }.
Definition MseSet_INS : Z := 0x22.
Definition MseSet_P1_SET : Z := 0x41.

Definition MseSet_lc_body (t : MseSetTemplate) : Z * bytes :=
  match t with
  | Mst_Hashing alg_ref => (3, [CRDO_TAG_ALG_REF; CRDO_VALUE_LEN_BYTE; SignatureAlgRef_as_byte alg_ref])
  | Mst_DigitalSignature alg_ref key_ref | Mst_Authentication alg_ref key_ref =>
      (6, [CRDO_TAG_ALG_REF; CRDO_VALUE_LEN_BYTE; SignatureAlgRef_as_byte alg_ref;
           CRDO_TAG_KEY_REF; CRDO_VALUE_LEN_BYTE; KeyRef_as_u8 key_ref])
  | Mst_DeciphermentRsa alg_ref key_ref =>
      (6, [CRDO_TAG_ALG_REF; CRDO_VALUE_LEN_BYTE; DecipherAlgRef_as_byte alg_ref;
           CRDO_TAG_KEY_REF; CRDO_VALUE_LEN_BYTE; KeyRef_as_u8 key_ref])
  | Mst_DeciphermentElc key_ref => (3, [CRDO_TAG_KEY_REF; CRDO_VALUE_LEN_BYTE; KeyRef_as_u8 key_ref])
  end.

Definition MseSet_into_apdu (c : MseSet) : CommandApdu :=
  let p2 := MseSetTemplate_p2 (ms_template c) in
  let '(lc, body) := MseSet_lc_body (ms_template c) in
  CommandApdu_new ([ApduClass_as_byte (ms_class c); MseSet_INS; MseSet_P1_SET; p2; lc] ++ body).

(** ** PSO HASH *)

Definition PSO_HASH_TAG_HASH_VALUE : Z := 0x90.
Definition PSO_HASH_TAG_FINAL_BLOCK : Z := 0x80.

Inductive ExternalHashValue :=
| Eh_Sha1 (b : vec Z 20) | Eh_Sha224 (b : vec Z 28) | Eh_Sha256 (b : vec Z 32)
| Eh_Sha384 (b : vec Z 48) | Eh_Sha512 (b : vec Z 64).

Definition ExternalHashValue_as_bytes (h : ExternalHashValue) : bytes :=
  match h with
  | Eh_Sha1 b => vec_to_list b | Eh_Sha224 b => vec_to_list b | Eh_Sha256 b => vec_to_list b
  | Eh_Sha384 b => vec_to_list b | Eh_Sha512 b => vec_to_list b
  end.
Definition ExternalHashValue_len_byte (h : ExternalHashValue) : Z :=
  match h with
  | Eh_Sha1 _ => 20 | Eh_Sha224 _ => 28 | Eh_Sha256 _ => 32 | Eh_Sha384 _ => 48 | Eh_Sha512 _ => 64
  end.
Definition ExternalHashValue_hash_algorithm (h : ExternalHashValue) : HashAlgorithm :=
  match h with
  | Eh_Sha1 _ => Ha_Sha1 | Eh_Sha224 _ => Ha_Sha224 | Eh_Sha256 _ => Ha_Sha256
  | Eh_Sha384 _ => Ha_Sha384 | Eh_Sha512 _ => Ha_Sha512
  end.

Inductive IntermediateHashState :=
| Ih_Sha1 (intermediate : vec Z 20) (counter : vec Z 8)
| Ih_Sha224 (intermediate : vec Z 32) (counter : vec Z 8)
| Ih_Sha256 (intermediate : vec Z 32) (counter : vec Z 8)
| Ih_Sha384Counter8 (intermediate : vec Z 64) (counter : vec Z 8)
| Ih_Sha384Counter16 (intermediate : vec Z 64) (counter : vec Z 16)
| Ih_Sha512Counter8 (intermediate : vec Z 64) (counter : vec Z 8)
| Ih_Sha512Counter16 (intermediate : vec Z 64) (counter : vec Z 16).

Definition IntermediateHashState_xx_byte (s : IntermediateHashState) : Z :=
  match s with
  | Ih_Sha1 _ _ => 0x1C
  | Ih_Sha224 _ _ | Ih_Sha256 _ _ => 0x28
  | Ih_Sha384Counter8 _ _ | Ih_Sha512Counter8 _ _ => 0x48
  | Ih_Sha384Counter16 _ _ | Ih_Sha512Counter16 _ _ => 0x50
  end.
Definition IntermediateHashState_extend_into (s : IntermediateHashState) (out : bytes) : bytes :=
  match s with
  | Ih_Sha1 intermediate counter => out ++ vec_to_list intermediate ++ vec_to_list counter
  | Ih_Sha224 intermediate counter | Ih_Sha256 intermediate counter =>
      out ++ vec_to_list intermediate ++ vec_to_list counter
  | Ih_Sha384Counter8 intermediate counter | Ih_Sha512Counter8 intermediate counter =>
      out ++ vec_to_list intermediate ++ vec_to_list counter
  | Ih_Sha384Counter16 intermediate counter | Ih_Sha512Counter16 intermediate counter =>
      out ++ vec_to_list intermediate ++ vec_to_list counter
  end.

Record HashBlock := mkHashBlock { hb_bytes : bytes }.
Inductive HashBlockError := Hb_Overlength (got : Z).
Definition HASH_BLOCK_MAX_LEN : Z := 128.
Definition HASH_BLOCK_MAX_LEN_U8 : Z := 128.

Definition HashBlock_new (bs : bytes) : result HashBlockError HashBlock :=
  if len bs >? HASH_BLOCK_MAX_LEN then Err (Hb_Overlength (len bs)) else Ok (mkHashBlock bs).
Definition HashBlock_as_bytes (b : HashBlock) : bytes := hb_bytes b.
Definition HashBlock_len_byte (b : HashBlock) : Z :=
  if len (hb_bytes b) <=? u8_max then len (hb_bytes b) else HASH_BLOCK_MAX_LEN_U8.

Inductive PsoHashMode :=
| Ph_EntirelyByCardBlock (block : HashBlock)
| Ph_EntirelyByCardFinal (final_block : HashBlock)
| Ph_PartiallyByCard (state : IntermediateHashState) (final_block : HashBlock)
| Ph_External (hash : ExternalHashValue).

Definition PsoHashMode_p2 (m : PsoHashMode) : Z :=
  match m with
  | Ph_EntirelyByCardBlock _ => 0x80
  | Ph_EntirelyByCardFinal _ | Ph_PartiallyByCard _ _ | Ph_External _ => 0xA0
  end.

Record PsoHash := mkPsoHash { ph_class : ApduClass; ph_mode : PsoHashMode }.
Definition PsoHash_INS : Z := 0x2A.
Definition PsoHash_P1 : Z := 0x90.

Definition PsoHash_body (m : PsoHashMode) : bytes :=
  match m with
  | Ph_EntirelyByCardBlock block => HashBlock_as_bytes block
  | Ph_EntirelyByCardFinal final_block =>
      [PSO_HASH_TAG_FINAL_BLOCK; HashBlock_len_byte final_block] ++ HashBlock_as_bytes final_block
  | Ph_PartiallyByCard state final_block =>
      IntermediateHashState_extend_into state [PSO_HASH_TAG_HASH_VALUE; IntermediateHashState_xx_byte state]
      ++ [PSO_HASH_TAG_FINAL_BLOCK; HashBlock_len_byte final_block] ++ HashBlock_as_bytes final_block
  | Ph_External hash =>
      [PSO_HASH_TAG_HASH_VALUE; ExternalHashValue_len_byte hash] ++ ExternalHashValue_as_bytes hash
  end.

Definition PsoHash_into_apdu {E} (c : PsoHash) : result E CommandApdu :=
  let p2 := PsoHashMode_p2 (ph_mode c) in
  let body := PsoHash_body (ph_mode c) in
  if len body >? u8_max then Panic
  else Ok (CommandApdu_new ([ApduClass_as_byte (ph_class c); PsoHash_INS; PsoHash_P1; p2; len body] ++ body)).

(** ** PSO DECIPHER and PSO COMPUTE DIGITAL SIGNATURE *)

Record PsoDecipher := mkPsoDecipher { pd_body : bytes; pd_chain : bool }.
Definition PsoDecipher_INS : Z := 0x2A.
Definition PsoDecipher_P1 : Z := 0x80.
Definition PsoDecipher_P2 : Z := 0x86.

Definition PsoDecipher_into_apdu {E} (c : PsoDecipher) : result E CommandApdu :=
  if len (pd_body c) >? u8_max then Panic
  else
    let cla := if pd_chain c then 0x10 else 0x00 in
    let out := [cla; PsoDecipher_INS; PsoDecipher_P1; PsoDecipher_P2] ++ [len (pd_body c)] ++ pd_body c in
    Ok (CommandApdu_new (if negb (pd_chain c) then out ++ [0x00] else out)).

Record PsoComputeDigitalSignature := mkPsoComputeDigitalSignature { pc_class : ApduClass }.
Definition PsoCds_INS : Z := 0x2A.
Definition PsoCds_P1 : Z := 0x9E.
Definition PsoCds_P2 : Z := 0x9A.
Definition LE_MAX_SHORT : Z := 0x00.
Definition LE_ECDSA_P384 : Z := 96.
Definition LE_ECDSA_P256 : Z := 64.

Definition PsoCds_into_apdu_with_le (c : PsoComputeDigitalSignature) (le : Z) : CommandApdu :=
  CommandApdu_allow_wrong_le_retry
    (CommandApdu_new [ApduClass_as_byte (pc_class c); PsoCds_INS; PsoCds_P1; PsoCds_P2; le]).
Definition PsoCds_into_apdu (c : PsoComputeDigitalSignature) : CommandApdu :=
  PsoCds_into_apdu_with_le c LE_MAX_SHORT.
Definition PsoCds_into_apdu_with_hash (c : PsoComputeDigitalSignature) (hash : ExternalHashValue) (le : Z)
  : CommandApdu :=
  CommandApdu_new ([ApduClass_as_byte (pc_class c); PsoCds_INS; PsoCds_P1; PsoCds_P2;
                    ExternalHashValue_len_byte hash] ++ ExternalHashValue_as_bytes hash ++ [le]).

(** ** Lemmas *)

(** A [HashBlock] that came out of its constructor. *)
Definition HashBlock_wf (b : HashBlock) : Prop := ∃ bs, HashBlock_new bs = Ok b.
Definition PsoHashMode_wf (m : PsoHashMode) : Prop :=
  match m with
  | Ph_EntirelyByCardBlock b | Ph_EntirelyByCardFinal b | Ph_PartiallyByCard _ b => HashBlock_wf b
  | Ph_External _ => True
  end.

Lemma HashBlock_wf_len b : HashBlock_wf b → len (HashBlock_as_bytes b) ≤ 128.
Proof.
  intros [bs Hbs]. unfold HashBlock_new, HASH_BLOCK_MAX_LEN in Hbs.
  destruct (Z.gtb_spec (len bs) 128); [done|]. by simplify_eq.
Qed.

Lemma HashBlock_wf_len_byte b : HashBlock_wf b → HashBlock_len_byte b = len (HashBlock_as_bytes b).
Proof.
  intros Hb. apply HashBlock_wf_len in Hb. unfold HashBlock_len_byte, HashBlock_as_bytes, u8_max in *.
  by destruct (Z.leb_spec (len (hb_bytes b)) 255); [|lia].
Qed.

Lemma len_vec {n} (v : vec Z n) : len (vec_to_list v) = Z.of_nat n.
Proof. unfold len. by rewrite length_vec_to_list. Qed.

Lemma ExternalHashValue_len h : len (ExternalHashValue_as_bytes h) = ExternalHashValue_len_byte h.
Proof. by destruct h; cbn [ExternalHashValue_as_bytes]; rewrite len_vec. Qed.

Lemma ExternalHashValue_len_byte_le h : 20 ≤ ExternalHashValue_len_byte h ≤ 64.
Proof. by destruct h. Qed.
