(* ===== verification/SignOps.v ===== *)
(** The signing operations: the trait SignOps of
    crates/refineid-lib-core/src/sign.rs, method by method, over any
    [CardTransport]. The specification is [in_order], a list of commands sent one
    after the other until one is refused; the theorems say which list each method
    is, and which bytes travel in each command. *)

From S2P Require Import Prelude Ber StatusWord Transport Apdu Pin Auth SignCommands.

Definition RSA_3072_SIG_BYTES : Z := 384.
Definition ECDSA_P384_SIG_BYTES : Z := 96.
Definition ECDSA_P256_SIG_BYTES : Z := 64.

Inductive SignError (TE : Type) :=
| Se_Transport (e : TE)
| Se_Sw (stage : string) (sw : Z)
| Se_UnexpectedSignatureLength (n : Z)
| Se_InputTooLong (n : Z).
Arguments Se_Transport {TE} e.
Arguments Se_Sw {TE} stage sw.
Arguments Se_UnexpectedSignatureLength {TE} n.
Arguments Se_InputTooLong {TE} n.

(** ** The trait *)

Section sign_ops.
Context `{CardTransport T E}.
Abbreviation TE := (TransportDispatchError E).

(** [transmit(..).map_err(SignError::Transport)?] and the [is_ok] test that
    follows each of them. *)
Definition sign_step (stage : string) (apdu : bytes) : act T (SignError TE) ResponseApdu :=
  do! r := act_map_err Se_Transport (transmit apdu) in
  if negb (ResponseApdu_is_ok r) then act_err (Se_Sw stage (ResponseApdu_sw r)) else act_ret r.

Definition mse_set_dst (alg_ref : SignatureAlgRef) (key_ref : KeyRef) : act T (SignError TE) unit :=
  let apdu := MseSet_into_apdu (mkMseSet Cla_Plain (Mst_DigitalSignature alg_ref key_ref)) in
  do! _ := sign_step "MSE:Set DST" (CommandApdu_as_bytes apdu) in act_ret tt.

Definition mse_set_ct (alg_ref : DecipherAlgRef) (key_ref : KeyRef) : act T (SignError TE) unit :=
  let apdu := MseSet_into_apdu (mkMseSet Cla_Plain (Mst_DeciphermentRsa alg_ref key_ref)) in
  do! _ := sign_step "MSE:Set CT" (CommandApdu_as_bytes apdu) in act_ret tt.

Definition mse_set_at (alg_ref : SignatureAlgRef) (key_ref : KeyRef) : act T (SignError TE) unit :=
  let apdu := MseSet_into_apdu (mkMseSet Cla_Plain (Mst_Authentication alg_ref key_ref)) in
  do! _ := sign_step "MSE:Set AT" (CommandApdu_as_bytes apdu) in act_ret tt.

Definition PSO_CDS_HEADER : bytes := [0x00; PsoCds_INS; PsoCds_P1; PsoCds_P2].
Definition PSO_CDS_CHAINED_HEADER : bytes := [0x10; PsoCds_INS; PsoCds_P1; PsoCds_P2].

(** [if let Ok(r) = self.transmit(&ext)]: a failed transmission is not an error
    of the method. *)
Definition transmit_ok (apdu : bytes) : act T (SignError TE) (option ResponseApdu) := λ t,
  match transmit apdu t with
  | (t, Ok r) => (t, Ok (Some r))
  | (t, Err _) => (t, Ok None)
  | (t, Panic) => (t, Panic)
  end.

(** The command chain behind the extended attempt. *)
Definition pso_cds_chained {Alg} (data : bytes) (ext_sw : Z) : act T (SignError TE) (Signature Alg) :=
  let half := len data / 2 in
  let first := take (Z.to_nat half) data in
  let second := drop (Z.to_nat half) data in
  if len first >? u8_max then act_err (Se_InputTooLong (len data)) else
  if len second >? u8_max then act_err (Se_InputTooLong (len data)) else
  let apdu1 := PSO_CDS_CHAINED_HEADER ++ [len first] ++ first in
  do! r1 := act_map_err Se_Transport (transmit apdu1) in
  if negb (ResponseApdu_is_ok r1) then
    if negb (ext_sw =? 0) then act_err (Se_Sw "PSO:CDS extended" ext_sw)
    else act_err (Se_Sw "PSO:CDS chunk 1/2" (ResponseApdu_sw r1))
  else
    let apdu2 := PSO_CDS_HEADER ++ [len second] ++ second ++ [0x00] in
    do! r2 := sign_step "PSO:CDS chunk 2/2" apdu2 in
    act_ret (Signature_new (rsp_body r2)).

Definition pso_cds_with_data {Alg} (data : bytes) : act T (SignError TE) (Signature Alg) :=
  if len data <=? 255 then
    let apdu := PSO_CDS_HEADER ++ [len data] ++ data ++ [0x00] in
    do! r := sign_step "PSO:CDS data" apdu in
    act_ret (Signature_new (rsp_body r))
  else if len data >? u16_max then act_err (Se_InputTooLong (len data))
  else
    let ext := PSO_CDS_HEADER ++ [0x00] ++ to_be 2 (len data) ++ data ++ to_be 2 0 in
    do! attempt := transmit_ok ext in
    match attempt with
    | Some r =>
        if ResponseApdu_is_ok r then act_ret (Signature_new (rsp_body r))
        else pso_cds_chained data (ResponseApdu_sw r)
    | None => pso_cds_chained data 0
    end.

Definition sign_rsa_raw (key_ref : KeyRef) (encoded : bytes) : act T (SignError TE) (Signature RsaPkcs1) :=
  do! _ := match key_ref with
           | Kr_Auth => mse_set_at RSA_PKCS1_RAW key_ref
           | Kr_Sign _ => mse_set_dst RSA_PKCS1_RAW key_ref
           end in
  pso_cds_with_data encoded.

Definition pso_hash_external (hash : ExternalHashValue) : act T (SignError TE) unit :=
  do! apdu := act_lift (PsoHash_into_apdu (mkPsoHash Cla_Plain (Ph_External hash))) in
  do! _ := sign_step "PSO:HASH" (CommandApdu_as_bytes apdu) in act_ret tt.

Definition pso_hash_external_sha256 (hash : Sha256) : act T (SignError TE) unit :=
  do! apdu := act_lift (PsoHash_into_apdu (mkPsoHash Cla_Plain (Ph_External (Eh_Sha256 (Sha256_0 hash))))) in
  do! _ := sign_step "PSO:HASH" (CommandApdu_as_bytes apdu) in act_ret tt.
Definition pso_hash_external_sha1 (hash : Sha1) : act T (SignError TE) unit :=
  do! apdu := act_lift (PsoHash_into_apdu (mkPsoHash Cla_Plain (Ph_External (Eh_Sha1 (Sha1_0 hash))))) in
  do! _ := sign_step "PSO:HASH" (CommandApdu_as_bytes apdu) in act_ret tt.
Definition pso_hash_external_sha384 (hash : Sha384) : act T (SignError TE) unit :=
  do! apdu := act_lift (PsoHash_into_apdu (mkPsoHash Cla_Plain (Ph_External (Eh_Sha384 (Sha384_0 hash))))) in
  do! _ := sign_step "PSO:HASH" (CommandApdu_as_bytes apdu) in act_ret tt.
Definition pso_hash_external_sha512 (hash : Sha512) : act T (SignError TE) unit :=
  do! apdu := act_lift (PsoHash_into_apdu (mkPsoHash Cla_Plain (Ph_External (Eh_Sha512 (Sha512_0 hash))))) in
  do! _ := sign_step "PSO:HASH" (CommandApdu_as_bytes apdu) in act_ret tt.
Definition pso_hash_external_sha224 (hash : Sha224) : act T (SignError TE) unit :=
  do! apdu := act_lift (PsoHash_into_apdu (mkPsoHash Cla_Plain (Ph_External (Eh_Sha224 (Sha224_0 hash))))) in
  do! _ := sign_step "PSO:HASH" (CommandApdu_as_bytes apdu) in act_ret tt.

Definition pso_cds_empty {Alg} (le : Z) : act T (SignError TE) (Signature Alg) :=
  let apdu := PsoCds_into_apdu_with_le (mkPsoComputeDigitalSignature Cla_Plain) le in
  do! r := sign_step "PSO:CDS" (CommandApdu_as_bytes apdu) in
  act_ret (Signature_new (rsp_body r)).

Definition pso_cds_over_digest {Alg} (digest : ExternalHashValue) (le : Z)
  : act T (SignError TE) (Signature Alg) :=
  let apdu := PsoCds_into_apdu_with_hash (mkPsoComputeDigitalSignature Cla_Plain) digest le in
  do! r := sign_step "PSO:CDS" (CommandApdu_as_bytes apdu) in
  act_ret (Signature_new (rsp_body r)).

Definition hash_then_sign {Alg} (alg_ref : SignatureAlgRef) (key_ref : KeyRef) (hash : ExternalHashValue)
  (le : Z) : act T (SignError TE) (Signature Alg) :=
  do! _ := mse_set_dst alg_ref key_ref in
  if KeyRef_signs_digest_inline key_ref then pso_cds_over_digest hash le
  else
    do! _ := pso_hash_external hash in
    pso_cds_empty le.

(** [if sig.len() != expected { return Err(UnexpectedSignatureLength) }]. *)
Definition check_signature_len {Alg} (expected : Z) (sig : Signature Alg) : act T (SignError TE) (Signature Alg) :=
  if negb (Signature_len sig =? expected) then act_err (Se_UnexpectedSignatureLength (Signature_len sig))
  else act_ret sig.

Definition sign_pre_hashed_sha256_rsa (key_ref : KeyRef) (hash : Sha256)
  : act T (SignError TE) (Signature RsaPkcs1Sha256) :=
  do! sig := hash_then_sign SHA256_RSA_PKCS1_V1_5 key_ref (Eh_Sha256 (Sha256_0 hash)) LE_MAX_SHORT in
  check_signature_len RSA_3072_SIG_BYTES sig.

Definition sign_pre_hashed_sha384_ecdsa_p384 (key_ref : KeyRef) (hash : Sha384)
  : act T (SignError TE) (Signature EcdsaP384) :=
  do! sig := hash_then_sign SHA384_ECDSA key_ref (Eh_Sha384 (Sha384_0 hash)) LE_ECDSA_P384 in
  check_signature_len ECDSA_P384_SIG_BYTES sig.

Definition sign_pre_hashed_sha1_ecdsa_p384 (key_ref : KeyRef) (hash : Sha1)
  : act T (SignError TE) (Signature EcdsaP384) :=
  do! sig := hash_then_sign (SignatureAlgRef_from_parts Ha_Sha1 Sa_Ecdsa) key_ref
               (Eh_Sha1 (Sha1_0 hash)) LE_ECDSA_P384 in
  check_signature_len ECDSA_P384_SIG_BYTES sig.

Definition sign_pre_hashed_sha224_ecdsa_p384 (key_ref : KeyRef) (hash : Sha224)
  : act T (SignError TE) (Signature EcdsaP384) :=
  do! sig := hash_then_sign SHA224_ECDSA key_ref (Eh_Sha224 (Sha224_0 hash)) LE_ECDSA_P384 in
  check_signature_len ECDSA_P384_SIG_BYTES sig.

Definition sign_pre_hashed_sha512_ecdsa_p384 (key_ref : KeyRef) (hash : Sha512)
  : act T (SignError TE) (Signature EcdsaP384) :=
  do! sig := hash_then_sign (SignatureAlgRef_from_parts Ha_Sha512 Sa_Ecdsa) key_ref
               (Eh_Sha512 (Sha512_0 hash)) LE_ECDSA_P384 in
  check_signature_len ECDSA_P384_SIG_BYTES sig.

Definition sign_pre_hashed_sha256_ecdsa_p384 (key_ref : KeyRef) (hash : Sha256)
  : act T (SignError TE) (Signature EcdsaP384) :=
  do! sig := hash_then_sign SHA256_ECDSA key_ref (Eh_Sha256 (Sha256_0 hash)) LE_ECDSA_P384 in
  check_signature_len ECDSA_P384_SIG_BYTES sig.

Definition sign_pre_hashed_sha256_rsa_auth (hash : Sha256)
  : act T (SignError TE) (Signature RsaPkcs1Sha256) :=
  sign_pre_hashed_sha256_rsa Kr_Auth hash.
Definition sign_pre_hashed_sha256_rsa_qualified (scheme : PinReferenceScheme) (hash : Sha256)
  : act T (SignError TE) (Signature RsaPkcs1Sha256) :=
  sign_pre_hashed_sha256_rsa (Kr_Sign scheme) hash.

Definition pso_decipher (ciphertext : Ciphertext RsaPkcs1) : act T (SignError TE) (Plaintext RsaPkcs1) :=
  let body := [0x81] ++ Ciphertext_as_bytes ciphertext in
  if len body <=? 255 then
    do! apdu := act_lift (PsoDecipher_into_apdu (mkPsoDecipher body false)) in
    do! r := sign_step "PSO:DECIPHER" (CommandApdu_as_bytes apdu) in
    act_ret (Plaintext_new (rsp_body r))
  else
    let half := len body / 2 in
    let first := take (Z.to_nat half) body in
    let second := drop (Z.to_nat half) body in
    do! apdu1 := act_lift (PsoDecipher_into_apdu (mkPsoDecipher first true)) in
    do! _ := sign_step "PSO:DECIPHER chunk 1/2" (CommandApdu_as_bytes apdu1) in
    do! apdu2 := act_lift (PsoDecipher_into_apdu (mkPsoDecipher second false)) in
    do! r2 := sign_step "PSO:DECIPHER chunk 2/2" (CommandApdu_as_bytes apdu2) in
    act_ret (Plaintext_new (rsp_body r2)).

Definition sign_pre_hashed_rsa_pkcs1 (key_ref : KeyRef) (hash : ExternalHashValue)
  : act T (SignError TE) (Signature RsaPkcs1) :=
  let alg_ref := SignatureAlgRef_from_parts (ExternalHashValue_hash_algorithm hash) Sa_RsaPkcs1V1_5 in
  hash_then_sign alg_ref key_ref hash LE_MAX_SHORT.

Definition sign_pre_hashed_rsa_pss (key_ref : KeyRef) (hash : ExternalHashValue)
  : act T (SignError TE) (Signature RsaPkcs1) :=
  let alg_ref := SignatureAlgRef_from_parts (ExternalHashValue_hash_algorithm hash) Sa_RsaPss in
  do! signature := hash_then_sign alg_ref key_ref hash LE_MAX_SHORT in
  check_signature_len RSA_3072_SIG_BYTES signature.

Definition sign_pre_hashed_sha256_ecdsa_p256 (key_ref : KeyRef) (hash : Sha256)
  : act T (SignError TE) (Signature EcdsaP256) :=
  do! sig := hash_then_sign SHA256_ECDSA key_ref (Eh_Sha256 (Sha256_0 hash)) LE_ECDSA_P256 in
  check_signature_len ECDSA_P256_SIG_BYTES sig.

Definition decrypt_rsa_pkcs1 (key_ref : KeyRef) (ciphertext : Ciphertext RsaPkcs1)
  : act T (SignError TE) (Plaintext RsaPkcs1) :=
  if negb (Ciphertext_len ciphertext =? RSA_3072_SIG_BYTES)
  then act_err (Se_UnexpectedSignatureLength (Ciphertext_len ciphertext))
  else
    do! _ := mse_set_ct Da_RsassaPkcs1V1_5 key_ref in
    pso_decipher ciphertext.

Definition decrypt_rsa_pkcs1_auth (ciphertext : Ciphertext RsaPkcs1)
  : act T (SignError TE) (Plaintext RsaPkcs1) :=
  decrypt_rsa_pkcs1 Kr_Auth ciphertext.
End sign_ops.

(** ** The specification: commands in order, up to the first refusal *)

Section in_order.
Context `{CardTransport T E}.
Abbreviation TE := (TransportDispatchError E).

(** Each step has the name the error carries. The value is the body of the last
    answer. *)
Fixpoint in_order (steps : list (string * bytes)) (body : bytes) : act T (SignError TE) bytes :=
  match steps with
  | [] => act_ret body
  | (stage, c) :: steps =>
      do! r := sign_step stage c in
      in_order steps (rsp_body r)
  end.

Definition last_body (rs : list ResponseApdu) : bytes := from_option rsp_body [] (list.last rs).

Lemma sign_step_cases stage c t :
  sign_step stage c t =
  match transmit c t with
  | (t', Ok r) => (t', if ResponseApdu_is_ok r then Ok r else Err (Se_Sw stage (ResponseApdu_sw r)))
  | (t', Err e) => (t', Err (Se_Transport e))
  | (t', Panic) => (t', Panic)
  end.
Proof.
  unfold sign_step, act_bind, act_map_err. destruct (transmit c t) as [t' [r|e|]]; simpl; [|done..].
  by destruct (ResponseApdu_is_ok r).
Qed.

Lemma in_order_Ok steps body t t' b :
  in_order steps body t = (t', Ok b) ↔
  ∃ rs, exchanged t (steps.*2) rs t' ∧ Forall ResponseApdu_is_ok rs ∧ b = from_option rsp_body body (list.last rs).
Proof.
  revert body t. induction steps as [|[stage c] steps IH]; intros body t; cbn [in_order fmap list_fmap snd].
  { split; [intros [= -> ->]; exists []; by repeat split; try constructor|].
    intros (rs & Hrs & _ & ->). by inversion Hrs; subst. }
  unfold act_bind. rewrite sign_step_cases. split.
  - destruct (transmit c t) as [t1 [r|e|]] eqn:Ht; [|done..].
    destruct (ResponseApdu_is_ok r) eqn:Hr; [|done]. intros (rs & Hrs & Hok & ->)%IH.
    exists (r :: rs). repeat split; [by econstructor|by constructor; [rewrite Hr|]|].
    rewrite last_cons. by destruct (list.last rs).
  - intros (rs & Hrs & Hok & ->). inversion Hrs as [|? ? r t1 ? rs' ? Ht Hrs']; subst. rewrite Ht.
    apply Forall_cons_1 in Hok as [Hr Hok]. rewrite (Is_true_true_1 _ Hr). apply IH. exists rs'.
    repeat split; [done..|]. rewrite last_cons. by destruct (list.last rs').
Qed.

Lemma in_order_Sw steps body t t' stage sw :
  in_order steps body t = (t', Err (Se_Sw stage sw)) ↔
  ∃ pre c post rs r, steps = pre ++ (stage, c) :: post ∧ exchanged t (pre.*2 ++ [c]) (rs ++ [r]) t' ∧
    Forall ResponseApdu_is_ok rs ∧ ResponseApdu_is_ok r = false ∧ sw = ResponseApdu_sw r.
Proof.
  revert body t. induction steps as [|[stage' c'] steps IH]; intros body t; cbn [in_order].
  { split; [done|]. by intros ([] & ?&?&?&?&?&?). }
  unfold act_bind. rewrite sign_step_cases. split.
  - destruct (transmit c' t) as [t1 [r|e|]] eqn:Ht; [|done..].
    destruct (ResponseApdu_is_ok r) eqn:Hr.
    + intros (pre & c & post & rs & r' & -> & Hex & Hok & Hbad & ->)%IH.
      exists ((stage', c') :: pre), c, post, (r :: rs), r'.
      repeat split; [|by constructor; [rewrite Hr|]|done]. simpl. by econstructor.
    + intros [= -> <- <-]. exists [], c', steps, [], r.
      repeat split; [|constructor|done]. econstructor; [done|constructor].
  - intros (pre & c & post & rs & r & Hs & Hex & Hok & Hbad & ->). destruct pre as [|[s0 c0] pre].
    + injection Hs as -> -> ->. simpl in Hex. inversion Hex as [|? ? r0 t1 ? rs0 ? Ht Hex']; subst.
      inversion Hex'; subst. assert (rs = [] ∧ r = r0) as [-> ->].
      { destruct rs as [|? [|??]]; simplify_eq/=; done. }
      by rewrite Ht, Hbad.
    + injection Hs as -> -> ->. simpl in Hex. inversion Hex as [|? ? r0 t1 ? rs0 ? Ht Hex' Hc Hrs]; subst.
      destruct rs as [|r1 rs]; simplify_eq/=.
      { inversion Hex'; subst. by destruct pre. }
      apply Forall_cons_1 in Hok as [Hr Hok]. rewrite Ht, (Is_true_true_1 _ Hr). apply IH.
      by exists pre, c, post, rs, r.
Qed.

Lemma sign_step_no_panic stage c t :
  (∀ c (t : T), (transmit_outcome c t).2 ≠ Panic) → (sign_step stage c t).2 ≠ Panic.
Proof.
  intros Hp. rewrite sign_step_cases. pose proof (transmit_no_panic c t Hp).
  destruct (transmit c t) as [t1 [r|e|]]; [|done..]. by destruct (ResponseApdu_is_ok r).
Qed.

Lemma in_order_no_panic steps body t :
  (∀ c (t : T), (transmit_outcome c t).2 ≠ Panic) → (in_order steps body t).2 ≠ Panic.
Proof.
  intros Hp. revert body t. induction steps as [|[stage c] steps IH]; intros body t; [done|].
  cbn [in_order]. apply act_bind_no_panic; [by apply sign_step_no_panic|]. intros r t1. apply IH.
Qed.

Lemma in_order_cons {A} stage c steps body (k : bytes → act T (SignError TE) A) t :
  act_bind (in_order ((stage, c) :: steps) body) k t
  = act_bind (sign_step stage c) (λ r, act_bind (in_order steps (rsp_body r)) k) t.
Proof. apply act_bind_assoc. Qed.
End in_order.

(** ** What signing sends *)

(** The commands of one signature: the security environment, then the digest in
    its own command or inside the signing command. *)
Definition sign_commands (alg : Z) (key : KeyRef) (digest : bytes) (le : Z) : list (string * bytes) :=
  ("MSE:Set DST"%string,
    short_apdu_bytes (mkShortApdu 0x00 0x22 0x41 0xB6 [0x80; 1; alg; 0x84; 1; KeyRef_as_u8 key] None))
  :: if KeyRef_signs_digest_inline key
     then [("PSO:CDS"%string, short_apdu_bytes (mkShortApdu 0x00 0x2A 0x9E 0x9A digest (Some le)))]
     else [("PSO:HASH"%string,
              short_apdu_bytes (mkShortApdu 0x00 0x2A 0x90 0xA0 (0x90 :: len digest :: digest) None));
           ("PSO:CDS"%string, short_apdu_bytes (mkShortApdu 0x00 0x2A 0x9E 0x9A [] (Some le)))].

Lemma PsoHash_external_wire {E} h :
  PsoHash_into_apdu (E:=E) (mkPsoHash Cla_Plain (Ph_External h))
  = Ok (CommandApdu_new (short_apdu_bytes (mkShortApdu 0x00 0x2A 0x90 0xA0
      (0x90 :: len (ExternalHashValue_as_bytes h) :: ExternalHashValue_as_bytes h) None))).
Proof.
  unfold PsoHash_into_apdu, PsoHash_body. cbn [ph_mode app]. rewrite !len_cons, ExternalHashValue_len.
  pose proof (ExternalHashValue_len_byte_le h). unfold u8_max. destruct (Z.gtb_spec (1 + (1 + ExternalHashValue_len_byte h)) 255); [lia|].
  unfold short_apdu_bytes. cbn -[len Z.add]. by rewrite !len_cons, ExternalHashValue_len, app_nil_r.
Qed.

Lemma PsoCds_with_hash_wire h le :
  PsoCds_into_apdu_with_hash (mkPsoComputeDigitalSignature Cla_Plain) h le
  = CommandApdu_new (short_apdu_bytes (mkShortApdu 0x00 0x2A 0x9E 0x9A (ExternalHashValue_as_bytes h) (Some le))).
Proof.
  unfold PsoCds_into_apdu_with_hash, short_apdu_bytes. cbn -[len ExternalHashValue_as_bytes].
  pose proof (ExternalHashValue_len h). pose proof (ExternalHashValue_len_byte_le h).
  destruct (ExternalHashValue_as_bytes h) as [|b bs] eqn:Hb; [change (len []) with 0 in *; lia|].
  by rewrite H.
Qed.

Section signing_equations.
Context `{CardTransport T E}.

Lemma hash_then_sign_in_order {Alg} alg key h le t :
  hash_then_sign (T:=T) (Alg:=Alg) alg key h le t
  = (do! b := in_order (sign_commands (SignatureAlgRef_as_byte alg) key (ExternalHashValue_as_bytes h) le) [] in
     act_ret (Signature_new b)) t.
Proof.
  unfold hash_then_sign, sign_commands, mse_set_dst. rewrite in_order_cons, act_bind_assoc.
  apply act_bind_ext. intros r0 t0.
  destruct (KeyRef_signs_digest_inline key).
  - unfold pso_cds_over_digest. rewrite PsoCds_with_hash_wire, in_order_cons. done.
  - unfold pso_hash_external, pso_cds_empty. rewrite PsoHash_external_wire, in_order_cons.
    rewrite act_ret_bind, act_bind_assoc, act_lift_ok, act_bind_assoc. apply act_bind_ext. intros r1 t1.
    rewrite in_order_cons. done.
Qed.
(** A method that signs and then checks the length of what came back. *)
Definition signed_with_length {Alg} (steps : list (string * bytes)) (expected : Z)
  : act T (SignError (TransportDispatchError E)) (Signature Alg) :=
  do! b := in_order steps [] in
  if len b =? expected then act_ret (Signature_new b) else act_err (Se_UnexpectedSignatureLength (len b)).

Lemma signed_with_length_eq {Alg} alg key h le expected t :
  act_bind (hash_then_sign (T:=T) (Alg:=Alg) alg key h le) (check_signature_len expected) t
  = signed_with_length (sign_commands (SignatureAlgRef_as_byte alg) key (ExternalHashValue_as_bytes h) le) expected t.
Proof.
  unfold signed_with_length. unfold act_bind at 1. rewrite hash_then_sign_in_order.
  unfold act_bind at 1 2. destruct (in_order _ [] t) as [t1 [b|e|]]; [|done..].
  unfold act_ret, check_signature_len, Signature_len. cbn [Signature_as_bytes].
  by destruct (len b =? expected).
Qed.
End signing_equations.

(** ** The halves of a chain *)

(** What a card takes for the data of a chained command: the fields of the
    commands with the chaining bit, then that of the last one. A length octet
    of zero announces the extended form. *)
Definition command_field (c : bytes) : option bytes :=
  match c with
  | _ :: _ :: _ :: _ :: 0 :: hi :: lo :: rest => slice 0 (Z.to_nat (u16_from_be hi lo)) rest
  | _ :: _ :: _ :: _ :: lc :: rest => slice 0 (Z.to_nat lc) rest
  | _ => None
  end.
Definition is_chained (c : bytes) : bool := match c with cla :: _ => Z.testbit cla 4 | [] => false end.

Fixpoint chain_data (cs : list bytes) : option bytes :=
  match cs with
  | [] => None
  | [c] => if is_chained c then None else command_field c
  | c :: cs =>
      if is_chained c then
        field ← command_field c;
        rest ← chain_data cs;
        Some (field ++ rest)
      else None
  end.

Lemma slice_0_app n (l rest : bytes) : n = length l → slice 0 n (l ++ rest) = Some l.
Proof. intros ->. apply (slice_app_exact 0 (length l) [] l rest); simpl; lia. Qed.

Lemma command_field_short a b c d data rest :
  1 ≤ len data → command_field (a :: b :: c :: d :: len data :: data ++ rest) = Some data.
Proof.
  intros Hd. pose proof (len_nonneg data). assert (Z.to_nat (len data) = length data) as Hn by (unfold len; lia).
  unfold command_field. destruct (len data) as [|n|n] eqn:Hl; [lia| |lia]. by rewrite Hn, slice_0_app.
Qed.

Lemma command_field_extended a b c d data rest :
  len data ≤ 65535 → command_field (a :: b :: c :: d :: 0 :: to_be 2 (len data) ++ data ++ rest) = Some data.
Proof.
  intros Hd. pose proof (len_nonneg data). assert (Z.to_nat (len data) = length data) as Hn by (unfold len; lia).
  pose proof (be_fold_to_be 2 (len data) ltac:(lia)) as Hbe. rewrite Z.mod_small in Hbe by lia.
  pose proof (length_to_be 2 (len data)) as Hlen. pose proof (to_be_bytes_ok 2 (len data)) as Hok.
  destruct (to_be 2 (len data)) as [|hi [|lo [|??]]] eqn:Hto; try done. cbn [app]. unfold command_field.
  assert (u16_from_be hi lo = len data) as ->. { rewrite <- Hbe. unfold be_fold, u16_from_be. cbn [foldl]. done. }
  by rewrite Hn, slice_0_app.
Qed.

(** Two halves of at most 255 octets. *)
Lemma halves_len (data : bytes) :
  255 < len data ≤ 510 →
  1 ≤ len (take (Z.to_nat (len data / 2)) data) ≤ 255 ∧ 1 ≤ len (drop (Z.to_nat (len data / 2)) data) ≤ 255.
Proof.
  intros Hl. pose proof (Z.div_mod (len data) 2 ltac:(lia)). pose proof (Z.mod_pos_bound (len data) 2 ltac:(lia)).
  unfold len in *. rewrite length_take, length_drop. lia.
Qed.

Lemma halves_fit (data : bytes) :
  255 < len data →
  (len (take (Z.to_nat (len data / 2)) data) >? 255) = false →
  (len (drop (Z.to_nat (len data / 2)) data) >? 255) = false →
  len data ≤ 510.
Proof.
  intros Hl H1 H2. rewrite Z.gtb_ltb, Z.ltb_ge in H1, H2.
  pose proof (Z.div_mod (len data) 2 ltac:(lia)). pose proof (Z.mod_pos_bound (len data) 2 ltac:(lia)).
  unfold len in *. rewrite length_take, length_drop in *. lia.
Qed.

Lemma chain_data_halves hdr1 hdr2 (data tail : bytes) :
  255 < len data ≤ 510 → length hdr1 = 4%nat → length hdr2 = 4%nat → is_chained hdr1 → is_chained hdr2 = false →
  chain_data
    [hdr1 ++ [len (take (Z.to_nat (len data / 2)) data)] ++ take (Z.to_nat (len data / 2)) data;
     hdr2 ++ [len (drop (Z.to_nat (len data / 2)) data)] ++ drop (Z.to_nat (len data / 2)) data ++ tail]
  = Some data.
Proof.
  intros Hl Hh1 Hh2 Hc1 Hc2. destruct (halves_len data Hl) as [Hf Hs].
  destruct hdr1 as [|a1 [|b1 [|c1 [|d1 [|??]]]]]; try done. destruct hdr2 as [|a2 [|b2 [|c2 [|d2 [|??]]]]]; try done.
  cbn [app chain_data]. apply Is_true_true_1 in Hc1. cbn [is_chained] in *. rewrite Hc1, Hc2.
  pose proof (command_field_short a1 b1 c1 d1 (take (Z.to_nat (len data / 2)) data) [] ltac:(lia)) as H1.
  rewrite app_nil_r in H1. rewrite H1, (command_field_short a2 b2 c2 d2) by lia. cbn [mbind option_bind].
  by rewrite take_drop.
Qed.

Section cds.
Context `{CardTransport T E} {Alg : Type}.

Lemma pso_cds_chained_Ok data ext_sw (t t' : T) (sig : Signature Alg) :
  255 < len data → pso_cds_chained data ext_sw t = (t', Ok sig) →
  ∃ cs rs, exchanged t cs rs t' ∧ Forall ResponseApdu_is_ok rs ∧ sig = Signature_new (last_body rs) ∧
    chain_data cs = Some data ∧ length cs = 2%nat.
Proof.
  intros Hl. unfold pso_cds_chained. change u8_max with 255.
  destruct (len (take _ data) >? 255) eqn:H1; [done|]. destruct (len (drop _ data) >? 255) eqn:H2; [done|].
  pose proof (halves_fit data Hl H1 H2). unfold act_bind, act_map_err.
  destruct (transmit _ t) as [t1 [r1|e|]] eqn:Ht1; [|done..].
  cbn [map_err]. destruct (ResponseApdu_is_ok r1) eqn:Hr1; cbn [negb]; [|by destruct (ext_sw =? 0)].
  rewrite sign_step_cases. destruct (transmit _ t1) as [t2 [r2|e|]] eqn:Ht2; [|done..].
  destruct (ResponseApdu_is_ok r2) eqn:Hr2; [|done]. intros [= <- <-].
  eexists [_; _], [r1; r2]. split; [|split; [|split; [done|split; [|done]]]].
  - econstructor; [exact Ht1|]. apply exchanged_one, Ht2.
  - apply Forall_cons_2; [by apply Is_true_true_2|]. by apply Forall_singleton, Is_true_true_2.
  - by apply chain_data_halves.
Qed.

Lemma pso_cds_chained_long data ext_sw (t t' : T) n :
  255 < len data → pso_cds_chained (Alg:=Alg) data ext_sw t = (t', Err (Se_InputTooLong n)) →
  n = len data ∧ 510 < len data.
Proof.
  intros Hl. unfold pso_cds_chained. change u8_max with 255.
  assert (len data ≤ 510 → (len (take (Z.to_nat (len data / 2)) data) >? 255) = false ∧
                           (len (drop (Z.to_nat (len data / 2)) data) >? 255) = false) as Hfit.
  { intros Hle. destruct (halves_len data ltac:(lia)). rewrite !Z.gtb_ltb, !Z.ltb_ge. lia. }
  destruct (len (take _ data) >? 255) eqn:H1.
  { intros [= <- <-]. split; [done|]. destruct (Z.le_gt_cases (len data) 510) as [Hle|]; [|lia].
    by destruct (Hfit Hle). }
  destruct (len (drop _ data) >? 255) eqn:H2.
  { intros [= <- <-]. split; [done|]. destruct (Z.le_gt_cases (len data) 510) as [Hle|]; [|lia].
    by destruct (Hfit Hle). }
  unfold act_bind, act_map_err.
  destruct (transmit _ t) as [t1 [r1|e|]] eqn:Ht1; [|done..].
  cbn [map_err]. destruct (ResponseApdu_is_ok r1) eqn:Hr1; cbn [negb]; [|by destruct (ext_sw =? 0)].
  rewrite sign_step_cases. destruct (transmit _ t1) as [t2 [r2|e|]] eqn:Ht2; [|done..].
  by destruct (ResponseApdu_is_ok r2).
Qed.
End cds.

(** ** The ciphertext *)

Definition decipher_chunks (body : bytes) : list (string * bytes) :=
  let half := Z.to_nat (len body / 2) in
  [("PSO:DECIPHER chunk 1/2"%string, [0x10; 0x2A; 0x80; 0x86] ++ [len (take half body)] ++ take half body);
   ("PSO:DECIPHER chunk 2/2"%string, [0x00; 0x2A; 0x80; 0x86] ++ [len (drop half body)] ++ drop half body ++ [0x00])].

Lemma PsoDecipher_short {E} body chain :
  len body ≤ 255 →
  PsoDecipher_into_apdu (E:=E) (mkPsoDecipher body chain)
  = Ok (CommandApdu_new ([if chain then 0x10 else 0x00; 0x2A; 0x80; 0x86] ++ [len body] ++ body
                         ++ if chain then [] else [0x00])).
Proof.
  intros Hl. unfold PsoDecipher_into_apdu. cbn [pd_body pd_chain]. unfold u8_max.
  destruct (Z.gtb_spec (len body) 255); [lia|]. destruct chain; cbn [negb app]; by rewrite ?app_nil_r.
Qed.

Lemma pso_decipher_in_order `{CardTransport T E} ct (t : T) :
  let body := 0x81 :: Ciphertext_as_bytes ct in
  255 < len body ≤ 510 →
  pso_decipher ct t = (do! b := in_order (decipher_chunks body) [] in act_ret (Plaintext_new b)) t.
Proof.
  intros body Hl. unfold pso_decipher. change ([129] ++ Ciphertext_as_bytes ct) with body.
  destruct (halves_len body Hl) as [H1 H2]. destruct (Z.leb_spec (len body) 255); [lia|].
  rewrite !PsoDecipher_short by lia. cbn [andb app].
  rewrite act_lift_ok. unfold decipher_chunks. rewrite in_order_cons, app_nil_r. cbn [app].
  apply act_bind_ext. intros r1 t1. rewrite act_lift_ok, in_order_cons. done.
Qed.

(** ** Properties *)

(** A block the card signs as it is: whole in one short command; or in one extended command
    and, when that is not accepted, in two halves of at most 255 octets, the first of them
    marked as chained. A refused first half is reported with the status word of the extended
    command, when that had one. *)
Definition raw_halves `{CardTransport T E} (data : bytes) (extended_sw : Z) : act T (SignError (TransportDispatchError E)) bytes :=
  let n := len data in
  let '(first, second) := (take (Z.to_nat (n / 2)) data, drop (Z.to_nat (n / 2)) data) in
  if 510 <? n then act_err (Se_InputTooLong n)
  else
    do! r := act_map_err Se_Transport (transmit ([0x10; 0x2A; 0x9E; 0x9A; len first] ++ first)) in
    if ResponseApdu_is_ok r
    then in_order [("PSO:CDS chunk 2/2"%string, [0x00; 0x2A; 0x9E; 0x9A; len second] ++ second ++ [0])] []
    else act_err (if extended_sw =? 0 then Se_Sw "PSO:CDS chunk 1/2" (ResponseApdu_sw r) else Se_Sw "PSO:CDS extended" extended_sw).
Definition raw_block `{CardTransport T E} (data : bytes) : act T (SignError (TransportDispatchError E)) bytes :=
  let n := len data in
  if n <=? 255 then in_order [("PSO:CDS data"%string, [0x00; 0x2A; 0x9E; 0x9A; n] ++ data ++ [0])] []
  else if 65535 <? n then act_err (Se_InputTooLong n)
  else λ t,
    match transmit ([0x00; 0x2A; 0x9E; 0x9A; 0; n / 256; n mod 256] ++ data ++ [0; 0]) t with
    | (t, Ok r) => if ResponseApdu_is_ok r then (t, Ok (rsp_body r)) else raw_halves data (ResponseApdu_sw r) t
    | (t, Err _) => raw_halves data 0 t
    | (t, Panic) => (t, Panic)
    end.
Definition raw_environment (key : KeyRef) : string * bytes :=
  match key with
  | Kr_Auth => ("MSE:Set AT"%string, [0x00; 0x22; 0x41; 0xA4; 6; 0x80; 1; 0x40; 0x84; 1; KeyRef_as_u8 key])
  | Kr_Sign _ => ("MSE:Set DST"%string, [0x00; 0x22; 0x41; 0xB6; 6; 0x80; 1; 0x40; 0x84; 1; KeyRef_as_u8 key])
  end.

Lemma in_order_one `{CardTransport T E} {A} stage c (k : bytes → act T (SignError (TransportDispatchError E)) A) t :
  act_bind (in_order [(stage, c)] []) k t = act_bind (sign_step stage c) (λ r, k (rsp_body r)) t.
Proof. by rewrite in_order_cons. Qed.
Lemma chained_raw `{CardTransport T E} {Alg} data ext_sw (t : T) :
  pso_cds_chained (Alg:=Alg) data ext_sw t = (do! b := raw_halves data ext_sw in act_ret (Signature_new b)) t.
Proof.
  unfold pso_cds_chained, raw_halves. change u8_max with 255. pose proof (len_nonneg data).
  pose proof (Z.div_mod (len data) 2 ltac:(lia)). pose proof (Z.mod_pos_bound (len data) 2 ltac:(lia)).
  assert (len (take (Z.to_nat (len data / 2)) data) = len data / 2) as Hf by (unfold len in *; rewrite length_take; lia).
  assert (len (drop (Z.to_nat (len data / 2)) data) = len data - len data / 2) as Hs by (unfold len in *; rewrite length_drop; lia).
  rewrite Hf, Hs. destruct (Z.ltb_spec 510 (len data)).
  - destruct (Z.gtb_spec (len data / 2) 255); [done|]. destruct (Z.gtb_spec (len data - len data / 2) 255); [done|lia].
  - destruct (Z.gtb_spec (len data / 2) 255); [lia|]. destruct (Z.gtb_spec (len data - len data / 2) 255); [lia|].
    rewrite act_bind_assoc. apply act_bind_ext. intros r t1. destruct (ResponseApdu_is_ok r); cbn [negb].
    + by rewrite in_order_one.
    + by destruct (ext_sw =? 0).
Qed.
Lemma pso_cds_raw `{CardTransport T E} {Alg} data (t : T) :
  pso_cds_with_data (Alg:=Alg) data t = (do! b := raw_block data in act_ret (Signature_new b)) t.
Proof.
  unfold pso_cds_with_data, raw_block. change u16_max with 65535. pose proof (len_nonneg data). destruct (Z.leb_spec (len data) 255); [by rewrite in_order_one|].
  rewrite Z.gtb_ltb. destruct (Z.ltb_spec 65535 (len data)); [done|].
  assert (to_be 2 (len data) = [len data / 256; len data mod 256]) as ->.
  { cbn [to_be]. rewrite Z.shiftr_0_r, Z.shiftr_div_pow2 by lia. change 255 with (Z.ones 8). rewrite !Z.land_ones by lia.
    change (2 ^ (8 * Z.of_nat 1)) with 256. change (2 ^ 8) with 256. rewrite (Z.mod_small (len data / 256)); [done|]. split; [by apply Z.div_pos|]. apply Z.div_lt_upper_bound; lia. }
  unfold act_bind, transmit_ok. cbn [app PSO_CDS_HEADER]. change (to_be 2 0) with [0; 0].
  destruct (transmit _ t) as [t1 [r|e|]]; [destruct (ResponseApdu_is_ok r); [done|]; apply chained_raw|apply chained_raw|done].
Qed.
Lemma raw_environment_sent `{CardTransport T E} {A} key (k : unit → act T (SignError (TransportDispatchError E)) A) t :
  act_bind (match key with Kr_Auth => mse_set_at RSA_PKCS1_RAW key | Kr_Sign _ => mse_set_dst RSA_PKCS1_RAW key end) k t
  = act_bind (in_order [raw_environment key] []) (λ _, k tt) t.
Proof. destruct key as [|scheme]; cbn [raw_environment]; rewrite in_order_one; unfold mse_set_at, mse_set_dst; by rewrite act_bind_assoc. Qed.


(** A signature is returned exactly when every command of the list was
    answered with 9000, and it is the body of the last answer; a status-word
    error names the first command that was refused and carries its status word,
    and nothing was sent after it. *)
Theorem signature_needs_every_acceptance `{CardTransport T E} {Alg} alg key h le (t t' : T) :
  let steps := sign_commands (SignatureAlgRef_as_byte alg) key (ExternalHashValue_as_bytes h) le in
  (∀ sig, hash_then_sign (Alg:=Alg) alg key h le t = (t', Ok sig) ↔
     ∃ rs, exchanged t (steps.*2) rs t' ∧ Forall ResponseApdu_is_ok rs ∧ sig = Signature_new (last_body rs)) ∧
  (∀ stage sw, hash_then_sign (Alg:=Alg) alg key h le t = (t', Err (Se_Sw stage sw)) ↔
     ∃ pre c post rs r, steps = pre ++ (stage, c) :: post ∧ exchanged t (pre.*2 ++ [c]) (rs ++ [r]) t' ∧
       Forall ResponseApdu_is_ok rs ∧ ResponseApdu_is_ok r = false ∧ sw = ResponseApdu_sw r).
Proof.
  intros steps. split; intros; rewrite hash_then_sign_in_order; fold steps; unfold act_bind, act_ret.
  - transitivity (∃ b, in_order steps [] t = (t', Ok b) ∧ sig = Signature_new b).
    { destruct (in_order steps [] t) as [t1 [b|e|]]; naive_solver. }
    setoid_rewrite in_order_Ok. unfold last_body. naive_solver.
  - rewrite <- (in_order_Sw steps []). destruct (in_order steps [] t) as [t1 [b|e|]]; naive_solver.
Qed.

(** [pso_cds_with_data] hands the card the whole data block and nothing
    else: when it returns a signature, the commands that produced it were all
    accepted, they are one command or one two-command chain, their data fields
    put together are the block, and the signature is the body of the last
    answer. A chain is used only after the extended command, and a block that
    cannot be split in two short commands ends in [InputTooLong]. *)
Theorem cds_signs_the_data `{CardTransport T E} {Alg} data (t t' : T) :
  1 ≤ len data →
  (∀ sig, pso_cds_with_data (Alg:=Alg) data t = (t', Ok sig) →
     ∃ t0 cs rs, exchanged t0 cs rs t' ∧ Forall ResponseApdu_is_ok rs ∧ sig = Signature_new (last_body rs) ∧
       chain_data cs = Some data ∧
       (t0 = t ∨ length cs = 2%nat ∧
          t0 = (transmit (PSO_CDS_HEADER ++ [0x00] ++ to_be 2 (len data) ++ data ++ [0; 0]) t).1)) ∧
  (∀ n, pso_cds_with_data (Alg:=Alg) data t = (t', Err (Se_InputTooLong n)) → n = len data ∧ 510 < len data) ∧
  (65535 < len data → pso_cds_with_data (Alg:=Alg) data t = (t, Err (Se_InputTooLong (len data)))).
Proof.
  intros Hne. unfold pso_cds_with_data. change u16_max with 65535. change (to_be 2 0) with [0; 0].
  destruct (Z.leb_spec (len data) 255) as [Hs|Hs]; [|destruct (Z.gtb_spec (len data) 65535) as [Hb|Hb]].
  - split; [|split; [|lia]]; unfold act_bind at 1; rewrite sign_step_cases;
      destruct (transmit _ t) as [t1 [r|e|]] eqn:Ht; try done; destruct (ResponseApdu_is_ok r) eqn:Hr; try done.
    intros sig [= <- <-]. eexists t, [_], [r]. repeat split; [apply exchanged_one, Ht
      |by constructor; [rewrite Hr|]| |by left]. exact (command_field_short _ _ _ _ data [0] Hne).
  - unfold act_err. naive_solver lia.
  - set (ext := PSO_CDS_HEADER ++ _). unfold act_bind, transmit_ok.
    destruct (transmit ext t) as [t1 [r|e|]] eqn:Ht; [destruct (ResponseApdu_is_ok r) eqn:Hr| |].
    + split; [|by split; [|lia]]. intros sig [= <- <-]. exists t, [ext], [r].
      repeat split; [apply exchanged_one, Ht|by apply Forall_singleton, Is_true_true_2| |by left].
      exact (command_field_extended 0x00 PsoCds_INS PsoCds_P1 PsoCds_P2 data [0; 0] ltac:(lia)).
    + split; [|split; [intros n; by apply pso_cds_chained_long|lia]].
      intros sig (cs & rs & ? & ? & ? & ? & ?)%pso_cds_chained_Ok; [|done]. exists t1, cs, rs.
      do 4 (split; [done|]). by right.
    + split; [|split; [intros n; by apply pso_cds_chained_long|lia]].
      intros sig (cs & rs & ? & ? & ? & ? & ?)%pso_cds_chained_Ok; [|done]. exists t1, cs, rs.
      do 4 (split; [done|]). by right.
    + split; [done|]. split; [done|lia].
Qed.

(** The extended command is refused, both halves of the chain are accepted. *)
Definition cds_card : Script := [reply [] 0x6700; reply [] 0x9000; reply [0xAA; 0xBB] 0x9000].

Lemma cds_signs_the_data_witness :
  1 ≤ len (replicate 300 7) ∧
  (∃ t0 cs rs, exchanged (E:=string) t0 cs rs ([] : Script) ∧ Forall ResponseApdu_is_ok rs ∧
     @Signature_new RsaPkcs1 [0xAA; 0xBB] = Signature_new (last_body rs) ∧
     chain_data cs = Some (replicate 300 7) ∧
     (t0 = cds_card ∨ length cs = 2%nat ∧
        t0 = (transmit (PSO_CDS_HEADER ++ [0x00] ++ to_be 2 (len (replicate 300 7)) ++ replicate 300 7 ++ [0; 0]) cds_card).1)).
Proof.
  split; [by vm_compute|].
  apply (cds_signs_the_data (E:=string) (Alg:=RsaPkcs1) (replicate 300 7) cds_card []); [by vm_compute|].
  by vm_compute.
Defined.

(** [decrypt_rsa_pkcs1] refuses a ciphertext of another length than 384
    octets without a command; otherwise it selects the key for decipherment and
    sends the padding indicator and the whole ciphertext in a chain of two short
    commands, each after the one before was accepted. No ciphertext of that
    length reaches the panic of the serialiser: [pso_decipher] panics only
    beyond 509 octets. *)
Theorem decrypt_sends_whole_ciphertext `{CardTransport T E} key ct (t : T) :
  (len (Ciphertext_as_bytes ct) ≠ 384 →
     decrypt_rsa_pkcs1 key ct t = (t, Err (Se_UnexpectedSignatureLength (len (Ciphertext_as_bytes ct))))) ∧
  (len (Ciphertext_as_bytes ct) = 384 →
     ∃ c1 c2, chain_data [c1; c2] = Some (0x81 :: Ciphertext_as_bytes ct) ∧ len c1 = 5 + 192 ∧ len c2 = 5 + 193 + 1 ∧
       decrypt_rsa_pkcs1 key ct t
       = (do! b := in_order
            [("MSE:Set CT"%string, short_apdu_bytes (mkShortApdu 0x00 0x22 0x41 0xB8
                [0x80; 1; 0x1A; 0x84; 1; KeyRef_as_u8 key] None));
             ("PSO:DECIPHER chunk 1/2"%string, c1); ("PSO:DECIPHER chunk 2/2"%string, c2)] [] in
          act_ret (Plaintext_new b)) t) ∧
  ((∀ c (t : T), (transmit_outcome c t).2 ≠ Panic) →
     (pso_decipher ct t).2 = Panic → 509 < len (Ciphertext_as_bytes ct)).
Proof.
  set (body := 0x81 :: Ciphertext_as_bytes ct).
  assert (len body = 1 + len (Ciphertext_as_bytes ct)) as Hbody by apply len_cons.
  split; [|split].
  - intros Hl. unfold decrypt_rsa_pkcs1, Ciphertext_len, RSA_3072_SIG_BYTES.
    by destruct (Z.eqb_spec (len (Ciphertext_as_bytes ct)) 384).
  - intros Hl. pose proof (chain_data_halves [0x10; 0x2A; 0x80; 0x86] [0x00; 0x2A; 0x80; 0x86] body [0x00]
      ltac:(lia) eq_refl eq_refl I eq_refl) as Hchain.
    assert (Z.to_nat (len body / 2) = 192%nat) as Hhalf by by rewrite Hbody, Hl.
    rewrite Hhalf in Hchain. eexists _, _. split; [exact Hchain|].
    assert (len (take 192 body) = 192 ∧ len (drop 192 body) = 193) as [H1 H2].
    { unfold len in *. rewrite length_take, length_drop. lia. }
    rewrite !len_app, H1, H2. split; [done|]. split; [done|].
    unfold decrypt_rsa_pkcs1, Ciphertext_len, RSA_3072_SIG_BYTES. rewrite Hl. cbn [negb Z.eqb Pos.eqb].
    unfold mse_set_ct. rewrite in_order_cons, act_bind_assoc. apply act_bind_ext. intros r0 t0.
    rewrite act_ret_bind, pso_decipher_in_order by (fold body; lia). fold body.
    unfold decipher_chunks. by rewrite Hhalf, H1, H2.
  - intros Hp Hpanic. destruct (Z.le_gt_cases (len (Ciphertext_as_bytes ct)) 509) as [Hle|]; [|lia]. exfalso.
    revert Hpanic. destruct (Z.le_gt_cases (len body) 255) as [Hs|Hs].
    + unfold pso_decipher. change ([129] ++ Ciphertext_as_bytes ct) with body.
      destruct (Z.leb_spec (len body) 255); [|lia]. rewrite PsoDecipher_short, act_lift_ok by done.
      apply act_bind_no_panic; [by apply sign_step_no_panic|done].
    + rewrite pso_decipher_in_order by (fold body; lia).
      apply act_bind_no_panic; [by apply in_order_no_panic|done].
Qed.
