(* ===== verification/TokenInfo.v ===== *)
(** Which card is in the reader: EF.TokenInfo and the FCI of
    crates/refineid-lib-core/src/pkcs15.rs, hexadecimal encoding of hex.rs, and the
    token serial of identity.rs with the two forms it is shown in. Strings are their
    UTF-8 bytes. *)

From S2P Require Import Prelude Utf8 Ber StatusWord Transport Apdu Auth Pkcs15.

(** ** Hexadecimal *)

(** [write!(out, "{byte:02x}")]. *)
Definition hex_digit (n : Z) : Z := if n <? 10 then 0x30 + n else 0x61 + (n - 10).
Definition Hex_encode (bs : bytes) : bytes :=
  flat_map (λ b, [hex_digit (Z.shiftr b 4); hex_digit (Z.land b 0x0F)]) bs.

(** ** The token serial *)

Record TokenSerial := mkTokenSerial { TokenSerial_0 : bytes }.
#[export] Instance TokenSerial_eq_dec : EqDecision TokenSerial.
Proof. solve_decision. Defined.
Record PrintedSerial := mkPrintedSerial { PrintedSerial_0 : bytes }.
Definition TokenSerial_as_str (s : TokenSerial) : bytes := TokenSerial_0 s.

Definition nybble (b : Z) : option Z :=
  if within 0x30 0x39 b then Some (b - 0x30)
  else if within 0x61 0x66 b then Some (b - 0x61 + 10)
  else if within 0x41 0x46 b then Some (b - 0x41 + 10)
  else None.

(** The loop over [as_chunks::<2>]. *)
Fixpoint decode_chunks (l : bytes) : option bytes :=
  match l with
  | hi :: lo :: l =>
      h ← nybble hi; lw ← nybble lo;
      out ← decode_chunks l; Some (Z.lor (Z.land (Z.shiftl h 4) 0xFF) lw :: out)
  | _ => Some []
  end.
Definition TokenSerial_decoded_hex_bytes (t : TokenSerial) : option bytes :=
  let s := TokenSerial_as_str t in
  if negb (len s mod 2 =? 0) then None else decode_chunks s.

(** [core::str::from_utf8] cannot fail on printable ASCII. *)
Definition is_printable (b : Z) : bool := within 0x20 0x7E b.
Definition render_token_serial (hex_token : TokenSerial) : TokenSerial :=
  match TokenSerial_decoded_hex_bytes hex_token with
  | Some bs => if negb (bool_decide (bs = [])) && forallb is_printable bs
               then mkTokenSerial bs else hex_token
  | None => hex_token
  end.

Definition is_ascii_alphabetic (b : Z) : bool := within 0x41 0x5A b || within 0x61 0x7A b.
Definition is_decimal (b : Z) : bool := within 0x30 0x39 b.
Definition derive_printed_serial (full : TokenSerial) : option PrintedSerial :=
  let s := TokenSerial_as_str full in
  if negb (forallb (λ b, b <? 128) s) then None
  else if existsb is_ascii_alphabetic s then
    if len s <? 9 then None
    else Some (mkPrintedSerial (drop (Z.to_nat (len s - 9)) s))
  else if (len s =? 20) && forallb is_decimal s then mkPrintedSerial <$> slice 10 19 s
  else None.

(** ** EF.TokenInfo *)

Record TokenInfo := mkTokenInfo
  { ti_version : option Z; ti_serial_number_hex : option TokenSerial;
    ti_manufacturer_id : option bytes; ti_label : option bytes }.
#[export] Instance TokenInfo_eq_dec : EqDecision TokenInfo.
Proof. solve_decision. Defined.

Definition TAG_TOKEN_INFO_LABEL_IMPLICIT : Z := 0x80.

(** [v = (v << 8) | b] on a [w]-bit integer: the high bits fall out. *)
Definition shift_in (w : Z) (bs : bytes) : Z :=
  foldl (λ v b, Z.lor (Z.shiftl v 8 mod 2 ^ w) b) 0 bs.

Definition token_info_version (item : option (result BerError BerTlvAny)) : option Z :=
  match item with
  | Some (Ok any) => match BerTlvAny_expect Integer_TAG any with
                     | Ok t => Some (shift_in 32 (any_value t)) | _ => None end
  | _ => None
  end.
Definition token_info_serial (item : option (result BerError BerTlvAny)) : option TokenSerial :=
  match item with
  | Some (Ok any) => match BerTlvAny_expect OctetString_TAG any with
                     | Ok t => Some (mkTokenSerial (Hex_encode (any_value t))) | _ => None end
  | _ => None
  end.

(** The [for] over the rest. *)
Definition token_info_entry (info : TokenInfo) (item : result BerError BerTlvAny) : TokenInfo :=
  match item with
  | Ok entry =>
      let s := String_from_utf8_lossy (any_value entry) in
      if (any_tag entry =? Utf8String_TAG) || (any_tag entry =? PrintableString_TAG) then
        match ti_manufacturer_id info, ti_label info with
        | None, _ => mkTokenInfo (ti_version info) (ti_serial_number_hex info) (Some s) (ti_label info)
        | Some _, None => mkTokenInfo (ti_version info) (ti_serial_number_hex info) (ti_manufacturer_id info) (Some s)
        | Some _, Some _ => info
        end
      else if any_tag entry =? TAG_TOKEN_INFO_LABEL_IMPLICIT then
        mkTokenInfo (ti_version info) (ti_serial_number_hex info) (ti_manufacturer_id info) (Some s)
      else info
  | _ => info
  end.

Definition TokenInfo_parse (der : bytes) : result BerError TokenInfo :=
  let? outer := BerTlv_parse Sequence_TAG der in
  let (version, it) := BerTlvIter_next (any_value outer) in
  let (serial, it) := BerTlvIter_next it in
  let info := mkTokenInfo (token_info_version version) (token_info_serial serial) None None in
  Ok (foldl token_info_entry info (BerTlvIter_items it)).

Definition read_token_info `{CardTransport T E} : act T (Pkcs15Error (TransportDispatchError E)) TokenInfo :=
  do! _ := select_pkcs15_application in
  do! _ := select_ef EF_TOKEN_INFO_FID in
  do! bs := read_binary_der_object "EF.TokenInfo" in
  act_lift (map_err (λ _, P15_InvalidData "EF.TokenInfo") (TokenInfo_parse bs)).

(** ** The file control information *)

Record Fci := mkFci { fci_bytes : bytes }.
Definition TAG_FCP : Z := 0x62.
Definition TAG_FCI : Z := 0x6F.
Definition TAG_FILE_LENGTH_NON_TLV : Z := 0x80.
Definition TAG_FILE_LENGTH_TLV : Z := 0x81.

Fixpoint fci_file_length (children : list (result BerError BerTlvAny)) : option Z :=
  match children with
  | [] => None
  | child :: children =>
      c ← result_ok child;
      if (any_tag c =? TAG_FILE_LENGTH_NON_TLV) || (any_tag c =? TAG_FILE_LENGTH_TLV)
      then Some (shift_in 64 (any_value c))
      else fci_file_length children
  end.
Definition Fci_parse_file_size (f : Fci) : option Z :=
  outer ← result_ok (BerTlvAny_parse (fci_bytes f));
  if negb (any_tag outer =? TAG_FCP) && negb (any_tag outer =? TAG_FCI) then None
  else fci_file_length (BerTlvIter_items (any_value outer)).

(** ** Lemmas *)

Lemma hex_digits_decode b :
  is_byte b →
  ∃ h l, nybble (hex_digit (Z.shiftr b 4)) = Some h ∧ nybble (hex_digit (Z.land b 0x0F)) = Some l
    ∧ Z.lor (Z.land (Z.shiftl h 4) 0xFF) l = b.
Proof.
  intros Hb. exists (Z.shiftr b 4), (Z.land b 0x0F).
  pose proof (byte_forall (λ b,
    bool_decide (nybble (hex_digit (Z.shiftr b 4)) = Some (Z.shiftr b 4))
    && bool_decide (nybble (hex_digit (Z.land b 0x0F)) = Some (Z.land b 0x0F))
    && (Z.lor (Z.land (Z.shiftl (Z.shiftr b 4) 4) 0xFF) (Z.land b 0x0F) =? b)) ltac:(by vm_compute) b Hb) as Hall.
  apply andb_true_iff in Hall as [[H1 H2]%andb_true_iff H3].
  apply bool_decide_eq_true in H1, H2. apply Z.eqb_eq in H3. done.
Qed.

Lemma len_Hex_encode bs : len (Hex_encode bs) = 2 * len bs.
Proof.
  induction bs as [|b bs IH]; [done|].
  change (Hex_encode (b :: bs)) with ([hex_digit (Z.shiftr b 4); hex_digit (Z.land b 0x0F)] ++ Hex_encode bs).
  cbn [app]. rewrite !len_cons. lia.
Qed.

Lemma decode_Hex_encode bs : bytes_ok bs → decode_chunks (Hex_encode bs) = Some bs.
Proof.
  induction bs as [|b bs IH]; [done|]. intros [Hb Hbs]%Forall_cons_iff.
  change (Hex_encode (b :: bs)) with (hex_digit (Z.shiftr b 4) :: hex_digit (Z.land b 0x0F) :: Hex_encode bs).
  cbn [decode_chunks]. destruct (hex_digits_decode b Hb) as (h & l & -> & -> & Hhl).
  cbn [mbind option_bind]. rewrite (IH Hbs). cbn [mbind option_bind]. by rewrite Hhl.
Qed.

Lemma decoded_Hex_encode bs :
  bytes_ok bs → TokenSerial_decoded_hex_bytes (mkTokenSerial (Hex_encode bs)) = Some bs.
Proof.
  intros Hbs. unfold TokenSerial_decoded_hex_bytes, TokenSerial_as_str. cbn [TokenSerial_0].
  rewrite len_Hex_encode, Z.mul_comm, Z.mod_mul by lia. by apply decode_Hex_encode.
Qed.

(** The digits of a hexadecimal string are printable. *)
Lemma Hex_encode_printable bs : bytes_ok bs → forallb is_printable (Hex_encode bs) = true.
Proof.
  induction bs as [|b bs IH]; [done|]. intros [Hb Hbs]%Forall_cons_iff.
  change (Hex_encode (b :: bs)) with (hex_digit (Z.shiftr b 4) :: hex_digit (Z.land b 0x0F) :: Hex_encode bs).
  cbn [forallb]. rewrite (IH Hbs), andb_true_r.
  exact (byte_forall (λ b, is_printable (hex_digit (Z.shiftr b 4)) && is_printable (hex_digit (Z.land b 0x0F)))
    ltac:(by vm_compute) b Hb).
Qed.

Lemma Hex_encode_inj a b : bytes_ok a → bytes_ok b → Hex_encode a = Hex_encode b → a = b.
Proof. intros Ha Hb Heq. apply decode_Hex_encode in Ha, Hb. congruence. Qed.

(** The serial as it is shown: its own text where that is printable. *)
Definition serial_text (bs : bytes) : bytes :=
  if negb (bool_decide (bs = [])) && forallb is_printable bs then bs else Hex_encode bs.

Lemma render_Hex_encode bs :
  bytes_ok bs → render_token_serial (mkTokenSerial (Hex_encode bs)) = mkTokenSerial (serial_text bs).
Proof.
  intros Hbs. unfold render_token_serial, serial_text. rewrite decoded_Hex_encode by done.
  by destruct (negb _ && _).
Qed.

(** The entries behind the serial do not touch version and serial. *)
Lemma token_info_entries_keep items info :
  ti_version (foldl token_info_entry info items) = ti_version info
  ∧ ti_serial_number_hex (foldl token_info_entry info items) = ti_serial_number_hex info.
Proof.
  revert info; induction items as [|item items IH]; intros info; [done|]. cbn [foldl].
  destruct (IH (token_info_entry info item)) as [-> ->].
  unfold token_info_entry. destruct item as [entry|e|]; [|done..].
  destruct (_ || _); [by destruct (ti_manufacturer_id info), (ti_label info)|]. by destruct (_ =? _).
Qed.

(** The parser stops at nothing behind the outer SEQUENCE. *)
Lemma TokenInfo_parse_no_panic der : TokenInfo_parse der ≠ Panic.
Proof.
  unfold TokenInfo_parse, BerTlv_parse, BerTlvAny_expect. pose proof (BerTlvAny_parse_no_panic der).
  destruct (BerTlvAny_parse der) as [t|e|]; [|done..]. rewrite result_bind_ok.
  destruct (negb _); [done|]. rewrite result_bind_ok.
  destruct (BerTlvIter_next _) as [v it]. by destruct (BerTlvIter_next it).
Qed.

(** A file in the form the standard gives it: the SEQUENCE of the version, the
    serial and anything else. *)
Lemma TokenInfo_parse_encoded v s rest trailing ev es eo :
  @tlv BerError Integer_TAG v = Ok ev → @tlv BerError OctetString_TAG s = Ok es →
  @tlv BerError Sequence_TAG (ev ++ es ++ rest) = Ok eo →
  len (ev ++ es ++ rest) ≤ u32_max → len (eo ++ trailing) ≤ u64_max → len v ≤ u32_max → len s ≤ u32_max →
  ∃ info, TokenInfo_parse (eo ++ trailing) = Ok info
    ∧ ti_version info = Some (shift_in 32 v)
    ∧ ti_serial_number_hex info = Some (mkTokenSerial (Hex_encode s)).
Proof.
  intros Hev Hes Heo Hl Hsz Hv Hs. unfold TokenInfo_parse, BerTlv_parse.
  rewrite (tlv_parse (E:=BerError) Sequence_TAG (ev ++ es ++ rest) trailing eo); [|by vm_compute|done..]. rewrite result_bind_ok.
  unfold BerTlvAny_expect. cbn [any_tag]. rewrite Z.eqb_refl. cbn [negb]. rewrite result_bind_ok. cbn [any_value].
  assert (len (ev ++ es ++ rest) ≤ u64_max) as Hb by (unfold u32_max, u64_max in *; lia).
  assert (len (es ++ rest) ≤ u64_max) as Hb'
    by (rewrite len_app in Hb; pose proof (len_nonneg ev); lia).
  rewrite (BerTlvIter_next_Ok ev (mkBerTlvAny Integer_TAG v (len ev)) (es ++ rest));
    [|apply (tlv_parse (E:=BerError)); [by vm_compute|done..]|done].
  rewrite (BerTlvIter_next_Ok es (mkBerTlvAny OctetString_TAG s (len es)) rest);
    [|apply (tlv_parse (E:=BerError)); [by vm_compute|done..]|done].
  eexists. split; [done|]. destruct (token_info_entries_keep (BerTlvIter_items rest)
    (mkTokenInfo (token_info_version (Some (Ok (mkBerTlvAny Integer_TAG v (len ev)))))
       (token_info_serial (Some (Ok (mkBerTlvAny OctetString_TAG s (len es))))) None None)) as [-> ->]. done.
Qed.

(** ** Properties *)

(** What a token serial shows of the card. The serial octets a card
    publishes come back from their hexadecimal form; they are shown as text
    when they are printable ASCII and as hexadecimal otherwise; and two cards
    are shown alike only if their octets are the same or one card's octets are
    the text of the other's hexadecimal form, which needs serials of different
    lengths. So a session bound to a serial is not taken over by a card with
    another serial of the same length. *)
Theorem token_serial_identifies (a b : bytes) (Ha : bytes_ok a) (Hb : bytes_ok b) :
  let shown bs := render_token_serial (mkTokenSerial (Hex_encode bs)) in
  let printable bs := bs ≠ [] ∧ Forall (λ x, 0x20 ≤ x ≤ 0x7E) bs in
  TokenSerial_decoded_hex_bytes (mkTokenSerial (Hex_encode a)) = Some a
  ∧ (printable a → shown a = mkTokenSerial a)
  ∧ (¬ printable a → shown a = mkTokenSerial (Hex_encode a))
  ∧ (shown a = shown b ↔ a = b ∨ (¬ printable a ∧ b = Hex_encode a ∧ b ≠ []) ∨ (¬ printable b ∧ a = Hex_encode b ∧ a ≠ []))
  ∧ (len a = len b → shown a = shown b → a = b).
Proof.
  intros shown printable.
  assert (∀ bs, forallb is_printable bs = true ↔ Forall (λ x, 0x20 ≤ x ≤ 0x7E) bs) as Hpr.
  { intros bs. rewrite forallb_forall, List.Forall_forall.
    split; intros Hin x Hx; specialize (Hin x Hx); unfold is_printable, within in *; lia. }
  assert (∀ bs, negb (bool_decide (bs = [])) && forallb is_printable bs = true ↔ printable bs) as Hpb.
  { intros bs. unfold printable. rewrite andb_true_iff, negb_true_iff, bool_decide_eq_false, Hpr. done. }
  assert (∀ bs, bytes_ok bs → shown bs = mkTokenSerial (serial_text bs)) as Hshown by apply render_Hex_encode.
  assert (∀ bs, printable bs → serial_text bs = bs) as Htext.
  { intros bs Hbs%Hpb. unfold serial_text. by rewrite Hbs. }
  assert (∀ bs, ¬ printable bs → serial_text bs = Hex_encode bs) as Hhex.
  { intros bs Hbs. unfold serial_text. destruct (negb _ && _) eqn:He; [|done]. by apply Hpb in He. }
  assert (∀ bs, bytes_ok bs → bs ≠ [] → printable (Hex_encode bs)) as Hph.
  { intros bs Hbs Hne. apply Hpb. rewrite Hex_encode_printable by done. rewrite andb_true_r.
    rewrite negb_true_iff, bool_decide_eq_false. intros He.
    pose proof (len_Hex_encode bs) as Hl. rewrite He in Hl. destruct bs; [done|]. rewrite len_cons in Hl.
    pose proof (len_nonneg bs). unfold len at 1 in Hl. simpl in Hl. lia. }
  assert (∀ bs, printable bs ∨ ¬ printable bs) as Hdec.
  { intros bs. destruct (negb (bool_decide (bs = [])) && forallb is_printable bs) eqn:He;
      [left; by apply Hpb|right; rewrite <- Hpb; congruence]. }
  assert (shown a = shown b ↔ a = b ∨ (¬ printable a ∧ b = Hex_encode a ∧ b ≠ [])
    ∨ (¬ printable b ∧ a = Hex_encode b ∧ a ≠ [])) as Hiff.
  { rewrite !Hshown by done.
    assert (∀ x y, mkTokenSerial x = mkTokenSerial y ↔ x = y) as -> by naive_solver.
    assert (∀ x y, bytes_ok x → ¬ printable y → y = Hex_encode x → y ≠ [] → False) as Hno.
    { intros x y Hx Hy -> Hne. apply Hy, Hph; [done|]. by intros ->. }
    destruct (Hdec a) as [Hpa|Hpa], (Hdec b) as [Hpb'|Hpb'].
    - rewrite !Htext by done. tauto.
    - rewrite Htext, Hhex by done. split; [intros ->; right; right; split_and!; [done|done|apply Hpa]|].
      intros [->|[[? _]|(_ & ? & _)]]; done.
    - rewrite Hhex, Htext by done. split; [intros <-; right; left; split_and!; [done|done|apply Hpb']|].
      intros [->|[(_ & ? & _)|[? _]]]; done.
    - rewrite !Hhex by done. split; [intros He; left; by apply Hex_encode_inj|].
      intros [->|[(_ & ? & ?)|(_ & ? & ?)]]; [done|exfalso; by eapply (Hno a b)|exfalso; by eapply (Hno b a)]. }
  split_and!; [by apply decoded_Hex_encode|intros Hp; by rewrite Hshown, Htext|intros Hp; by rewrite Hshown, Hhex
              |apply Hiff|].
  intros Hl Hs. apply Hiff in Hs as [|[(_ & He & Hne)|(_ & He & Hne)]]; [done|..]; exfalso;
    apply (f_equal len) in He; rewrite len_Hex_encode in He; apply Hne; unfold len in *.
  - apply nil_length_inv. lia.
  - apply nil_length_inv. lia.
Qed.

Lemma token_serial_identifies_witness :
  render_token_serial (mkTokenSerial (Hex_encode [0x41; 0x42; 0x31])) = mkTokenSerial [0x41; 0x42; 0x31]
  ∧ render_token_serial (mkTokenSerial (Hex_encode [0x01; 0x23])) = mkTokenSerial [0x30; 0x31; 0x32; 0x33].
Proof.
  split.
  - apply (proj1 (proj2 (token_serial_identifies [0x41; 0x42; 0x31] [] ltac:(by_decide) ltac:(by_decide)))).
    split; [done|by_decide].
  - apply (proj1 (proj2 (proj2 (token_serial_identifies [0x01; 0x23] [] ltac:(by_decide) ltac:(by_decide))))).
    intros [_ [H _]%Forall_cons_iff]. destruct H. lia.
Defined.
