(* ===== verification/Identity.v ===== *)
(** The value types of crates/refineid-lib-core/src/identity.rs: names, numbers and dates
    of a credential, the names of the machine-readable zone and their transliteration, the
    comparison of the sources, and the identity of a credential with its texts. The token
    serial is in TokenInfo.v. Strings are their UTF-8 octets; the case mapping of Unicode
    is the class [CharCase]. *)

From S2P Require Import Prelude Decimal Utf8 Str Iso8601 TokenInfo.

(** ** Free text *)

Inductive FreeTextError := Fte_Empty | Fte_TooLong (got max : Z).
Definition FREE_TEXT_MAX_BYTES : Z := 1024.
Definition FreeText_parse (value : bytes) : result FreeTextError unit :=
  if bool_decide (value = []) then Err Fte_Empty
  else if FREE_TEXT_MAX_BYTES <? len value then Err (Fte_TooLong (len value) FREE_TEXT_MAX_BYTES)
  else Ok tt.

Record Surname := mkSurname { Surname_0 : bytes }.
Definition Surname_new (s : bytes) : result FreeTextError Surname := let? _ := FreeText_parse s in Ok (mkSurname s).
#[export] Instance Surname_eq_dec : EqDecision Surname.
Proof. solve_decision. Defined.
Record CommonName := mkCommonName { CommonName_0 : bytes }.
Definition CommonName_new (s : bytes) : result FreeTextError CommonName := let? _ := FreeText_parse s in Ok (mkCommonName s).
Record OrganizationName := mkOrganizationName { OrganizationName_0 : bytes }.
Definition OrganizationName_new (s : bytes) : result FreeTextError OrganizationName := let? _ := FreeText_parse s in Ok (mkOrganizationName s).
Record FirstName := mkFirstName { FirstName_0 : bytes }.
Definition FirstName_new (s : bytes) : result FreeTextError FirstName := let? _ := FreeText_parse s in Ok (mkFirstName s).
#[export] Instance FirstName_eq_dec : EqDecision FirstName.
Proof. solve_decision. Defined.
Record SecondName := mkSecondName { SecondName_0 : bytes }.
Definition SecondName_new (s : bytes) : result FreeTextError SecondName := let? _ := FreeText_parse s in Ok (mkSecondName s).
#[export] Instance SecondName_eq_dec : EqDecision SecondName.
Proof. solve_decision. Defined.
Record AdditionalName := mkAdditionalName { AdditionalName_0 : bytes }.
Definition AdditionalName_new (s : bytes) : result FreeTextError AdditionalName := let? _ := FreeText_parse s in Ok (mkAdditionalName s).
#[export] Instance AdditionalName_eq_dec : EqDecision AdditionalName.
Proof. solve_decision. Defined.
Record Title := mkTitle { Title_0 : bytes }.
Definition Title_new (s : bytes) : result FreeTextError Title := let? _ := FreeText_parse s in Ok (mkTitle s).
Record Profession := mkProfession { Profession_0 : bytes }.
Definition Profession_new (s : bytes) : result FreeTextError Profession := let? _ := FreeText_parse s in Ok (mkProfession s).
Record PersonalSummary := mkPersonalSummary { PersonalSummary_0 : bytes }.
Definition PersonalSummary_new (s : bytes) : result FreeTextError PersonalSummary := let? _ := FreeText_parse s in Ok (mkPersonalSummary s).
Record PlaceOfBirth := mkPlaceOfBirth { PlaceOfBirth_0 : bytes }.
Definition PlaceOfBirth_new (s : bytes) : result FreeTextError PlaceOfBirth := let? _ := FreeText_parse s in Ok (mkPlaceOfBirth s).
Record PermanentAddress := mkPermanentAddress { PermanentAddress_0 : bytes }.
Definition PermanentAddress_new (s : bytes) : result FreeTextError PermanentAddress := let? _ := FreeText_parse s in Ok (mkPermanentAddress s).
Record Telephone := mkTelephone { Telephone_0 : bytes }.
Definition Telephone_new (s : bytes) : result FreeTextError Telephone := let? _ := FreeText_parse s in Ok (mkTelephone s).
Record CustodyInformation := mkCustodyInformation { CustodyInformation_0 : bytes }.
Definition CustodyInformation_new (s : bytes) : result FreeTextError CustodyInformation := let? _ := FreeText_parse s in Ok (mkCustodyInformation s).
Record OtherTdNumber := mkOtherTdNumber { OtherTdNumber_0 : bytes }.
Definition OtherTdNumber_new (s : bytes) : result FreeTextError OtherTdNumber := let? _ := FreeText_parse s in Ok (mkOtherTdNumber s).
Record OtherName := mkOtherName { OtherName_0 : bytes }.
Definition OtherName_new (s : bytes) : result FreeTextError OtherName := let? _ := FreeText_parse s in Ok (mkOtherName s).
Record Dg11FullName := mkDg11FullName { Dg11FullName_0 : bytes }.
Definition Dg11FullName_new (s : bytes) : result FreeTextError Dg11FullName := let? _ := FreeText_parse s in Ok (mkDg11FullName s).
Record PersonalNumber := mkPersonalNumber { PersonalNumber_0 : bytes }.
Definition PersonalNumber_new (s : bytes) : result FreeTextError PersonalNumber := let? _ := FreeText_parse s in Ok (mkPersonalNumber s).
Record IssuingAuthority := mkIssuingAuthority { IssuingAuthority_0 : bytes }.
Definition IssuingAuthority_new (s : bytes) : result FreeTextError IssuingAuthority := let? _ := FreeText_parse s in Ok (mkIssuingAuthority s).
Record Endorsements := mkEndorsements { Endorsements_0 : bytes }.
Definition Endorsements_new (s : bytes) : result FreeTextError Endorsements := let? _ := FreeText_parse s in Ok (mkEndorsements s).
Record TaxExit := mkTaxExit { TaxExit_0 : bytes }.
Definition TaxExit_new (s : bytes) : result FreeTextError TaxExit := let? _ := FreeText_parse s in Ok (mkTaxExit s).
Record OtherPerson := mkOtherPerson { OtherPerson_0 : bytes }.
Definition OtherPerson_new (s : bytes) : result FreeTextError OtherPerson := let? _ := FreeText_parse s in Ok (mkOtherPerson s).
Record PersonalisationDeviceSerial := mkPersonalisationDeviceSerial { PersonalisationDeviceSerial_0 : bytes }.
Definition PersonalisationDeviceSerial_new (s : bytes) : result FreeTextError PersonalisationDeviceSerial := let? _ := FreeText_parse s in Ok (mkPersonalisationDeviceSerial s).

(** ** PEUIN, certificate serial and e-mail address *)

Inductive PeuinError := Peuin_WrongLength (got : Z) | Peuin_NonDigit (at_ byte : Z) | Peuin_BadChecksum (byte : Z).
Record Peuin := mkPeuin { Peuin_0 : bytes }.
Definition Peuin_new (bs : bytes) : result PeuinError Peuin :=
  if negb (len bs =? 9) then Err (Peuin_WrongLength (len bs))
  else match position (λ b, negb (is_ascii_digit b)) (take 8 bs) with
       | Some i => Err (Peuin_NonDigit (Z.of_nat i) (nth i bs 0))
       | None => let checksum_byte := nth 8 bs 0 in
                 if negb (is_ascii_alphanumeric checksum_byte) then Err (Peuin_BadChecksum checksum_byte) else Ok (mkPeuin bs)
       end.

Record CertSerial := mkCertSerial { CertSerial_0 : bytes }.
Definition CertSerial_fmt (s : CertSerial) : bytes := Hex_encode (CertSerial_0 s).

Record EmailAddress := mkEmailAddress { EmailAddress_0 : bytes }.
Inductive EmailAddressError :=
| Email_Empty
| Email_TooLong (got max : Z)
| Email_NoAtSign
| Email_MultipleAtSigns (count : Z)
| Email_EmptyLocalPart
| Email_EmptyDomainPart
| Email_Whitespace (at_ : Z).
Definition EMAIL_MAX_LEN : Z := 254.
(** The offset of the first whitespace character. *)
Fixpoint whitespace_at (offset : Z) (chars : list bytes) : option Z :=
  match chars with
  | [] => None
  | c :: chars => if blank c then Some offset else whitespace_at (offset + len c) chars
  end.
Definition EmailAddress_new (s : bytes) : result EmailAddressError EmailAddress :=
  if bool_decide (s = []) then Err Email_Empty
  else if EMAIL_MAX_LEN <? len s then Err (Email_TooLong (len s) EMAIL_MAX_LEN)
  else match whitespace_at 0 (chars_of (length s) s) with
       | Some i => Err (Email_Whitespace i)
       | None =>
           match split 0x40 s with
           | [] => Panic
           | [_] => Err Email_NoAtSign
           | [local; domain] =>
               if bool_decide (local = []) then Err Email_EmptyLocalPart
               else if bool_decide (domain = []) then Err Email_EmptyDomainPart
               else Ok (mkEmailAddress s)
           | _ => Err (Email_MultipleAtSigns (Z.of_nat (length (List.filter (is_byte_eq 0x40) s))))
           end
       end.

(** ** Native names *)

(** [char::to_uppercase] and [to_lowercase], on one character. *)
Class CharCase := { char_to_uppercase : bytes → bytes; char_to_lowercase : bytes → bytes }.

Record NativeName := mkNativeName { NativeName_0 : bytes }.
Fixpoint title_case (at_segment_start : bool) (chars : list bytes) `{CharCase} : bytes :=
  match chars with
  | [] => []
  | c :: chars =>
      if blank c || bool_decide (c = [0x2D]) then c ++ title_case true chars
      else if at_segment_start then char_to_uppercase c ++ title_case false chars
      else char_to_lowercase c ++ title_case false chars
  end.
Definition title_case_segments `{CharCase} (s : bytes) : bytes := title_case true (chars_of (length s) s).
Definition NativeName_from_legacy_uppercase `{CharCase} (s : bytes) : result FreeTextError NativeName :=
  let? _ := FreeText_parse s in Ok (mkNativeName (title_case_segments s)).
Definition Surname_to_native `{CharCase} (n : Surname) : NativeName := mkNativeName (title_case_segments (Surname_0 n)).
Definition FirstName_to_native `{CharCase} (n : FirstName) : NativeName := mkNativeName (title_case_segments (FirstName_0 n)).
Definition SecondName_to_native `{CharCase} (n : SecondName) : NativeName := mkNativeName (title_case_segments (SecondName_0 n)).
Definition AdditionalName_to_native `{CharCase} (n : AdditionalName) : NativeName :=
  mkNativeName (title_case_segments (AdditionalName_0 n)).

(** ** Given names *)

Record SplitGivenNames := mkSplitGivenNames {
  sgn_first : option FirstName; sgn_second : option SecondName; sgn_additional : list AdditionalName;
}.
Definition SplitGivenNames_default : SplitGivenNames := mkSplitGivenNames None None [].
Record GivenNamesText := mkGivenNamesText { GivenNamesText_0 : bytes }.
Definition GivenNamesText_new (value : bytes) : result FreeTextError GivenNamesText :=
  let? _ := FreeText_parse value in Ok (mkGivenNamesText value).
(** One word, put where [slot] says. *)
Definition place_given_name (acc : SplitGivenNames * Z) (word : bytes) : SplitGivenNames * Z :=
  let '(out, slot) := acc in
  if bool_decide (word = []) then (out, slot)
  else if slot =? 0 then
    match FirstName_new word with
    | Ok n => (mkSplitGivenNames (Some n) (sgn_second out) (sgn_additional out), 1)
    | _ => (out, slot)
    end
  else if slot =? 1 then
    match SecondName_new word with
    | Ok n => (mkSplitGivenNames (sgn_first out) (Some n) (sgn_additional out), 2)
    | _ => (out, slot)
    end
  else
    match AdditionalName_new word with
    | Ok n => (mkSplitGivenNames (sgn_first out) (sgn_second out) (sgn_additional out ++ [n]), slot)
    | _ => (out, slot)
    end.
Definition GivenNamesText_split (t : GivenNamesText) : SplitGivenNames :=
  (foldl place_given_name (SplitGivenNames_default, 0) (split_whitespace (GivenNamesText_0 t))).1.

(** [raw.split_once("<<")]. *)
Fixpoint split_once_fillers (seen raw : bytes) : option (bytes * bytes) :=
  match raw with
  | [] => None
  | b :: raw' => if starts_with [0x3C; 0x3C] raw then Some (seen, drop 2 raw) else split_once_fillers (seen ++ [b]) raw'
  end.
Definition try_split_into_parts (n : Dg11FullName) : option (Surname * SplitGivenNames) :=
  let raw := Dg11FullName_0 n in
  '(surname_raw, given_raw) ←
    match split_once_fillers [] raw with
    | Some (s, g) => Some (str_trim (replace_byte 0x3C 0x20 s), str_trim (replace_byte 0x3C 0x20 g))
    | None =>
        let tokens := split_whitespace (replace_byte 0x3C 0x20 raw) in
        if (Z.of_nat (length tokens) <? 2) then None
        else surname ← list.last tokens; Some (surname, join [0x20] (removelast tokens))
    end;
  surname ← result_ok (Surname_new surname_raw);
  text ← result_ok (GivenNamesText_new given_raw);
  let given := GivenNamesText_split text in
  _ ← sgn_first given;
  Some (surname, given).

(** ** Names of the machine-readable zone *)

Inductive MrzNameError := Mne_Empty | Mne_TooLong (got max : Z) | Mne_InvalidChar (at_ byte : Z).
Definition MRZ_NAME_MAX_BYTES : Z := 39.
Definition mrz_name_byte (b : Z) : bool := is_ascii_uppercase b || (b =? 0x3C).
Definition MrzNameInput_parse (value : bytes) : result MrzNameError unit :=
  if bool_decide (value = []) then Err Mne_Empty
  else if MRZ_NAME_MAX_BYTES <? len value then Err (Mne_TooLong (len value) MRZ_NAME_MAX_BYTES)
  else match position (λ b, negb (mrz_name_byte b)) value with
       | Some i => Err (Mne_InvalidChar (Z.of_nat i) (nth i value 0))
       | None => Ok tt
       end.
Record MrzSurname := mkMrzSurname { MrzSurname_0 : bytes }.
Definition MrzSurname_new (s : bytes) : result MrzNameError MrzSurname := let? _ := MrzNameInput_parse s in Ok (mkMrzSurname s).
Definition MrzSurname_spaced (n : MrzSurname) : bytes := replace_byte 0x3C 0x20 (trim_end 0x3C (MrzSurname_0 n)).
Definition MrzSurname_to_native `{CharCase} (n : MrzSurname) : result FreeTextError NativeName :=
  NativeName_from_legacy_uppercase (MrzSurname_spaced n).
Record MrzGivenName := mkMrzGivenName { MrzGivenName_0 : bytes }.
Definition MrzGivenName_new (s : bytes) : result MrzNameError MrzGivenName :=
  let? _ := MrzNameInput_parse s in Ok (mkMrzGivenName s).
Definition MrzGivenName_spaced (n : MrzGivenName) : bytes := replace_byte 0x3C 0x20 (trim_end 0x3C (MrzGivenName_0 n)).
Definition MrzGivenName_to_native `{CharCase} (n : MrzGivenName) : result FreeTextError NativeName :=
  NativeName_from_legacy_uppercase (MrzGivenName_spaced n).

(** The characters in UTF-8, and what they become. *)
Definition TRANSLITERATION : list (list string * string) :=
  [(["Ä"; "ä"], "AE"); (["Ö"; "ö"], "OE"); (["Ü"; "ü"], "UE"); (["ß"], "SS"); (["Å"; "å"], "AA");
   (["Æ"; "æ"], "AE"); (["Ø"; "ø"], "OE"); (["Œ"; "œ"], "OE"); (["Ç"; "ç"], "C");
   (["Š"; "š"; "Ś"; "ś"; "Ş"; "ş"], "S"); (["Ž"; "ž"; "Ź"; "ź"; "Ż"; "ż"], "Z"); (["Ñ"; "ñ"], "N");
   (["Ł"; "ł"], "L"); (["Ð"; "ð"], "D"); (["Þ"; "þ"], "TH");
   (["À"; "Á"; "Â"; "Ã"; "à"; "á"; "â"; "ã"], "A"); (["È"; "É"; "Ê"; "Ë"; "è"; "é"; "ê"; "ë"], "E");
   (["Ì"; "Í"; "Î"; "Ï"; "ì"; "í"; "î"; "ï"], "I"); (["Ò"; "Ó"; "Ô"; "Õ"; "ò"; "ó"; "ô"; "õ"], "O");
   (["Ù"; "Ú"; "Û"; "ù"; "ú"; "û"], "U"); (["Ý"; "ý"; "ÿ"], "Y"); (["Č"; "č"; "Ć"; "ć"], "C");
   (["Ě"; "ě"], "E"); (["Ř"; "ř"], "R"); (["Ť"; "ť"], "T"); (["Ň"; "ň"], "N"); (["Ď"; "ď"], "D");
   (["Ľ"; "ľ"], "L"); (["a"], "A"); (["b"], "B"); (["c"], "C"); (["d"], "D"); (["e"], "E"); (["f"], "F");
   (["g"], "G"); (["h"], "H"); (["i"], "I"); (["j"], "J"); (["k"], "K"); (["l"], "L"); (["m"], "M");
   (["n"], "N"); (["o"], "O"); (["p"], "P"); (["q"], "Q"); (["r"], "R"); (["s"], "S"); (["t"], "T");
   (["u"], "U"); (["v"], "V"); (["w"], "W"); (["x"], "X"); (["y"], "Y"); (["z"], "Z")].
Definition transliterate_char (c : bytes) : option bytes :=
  find_map (λ '(cs, expansion), if bool_decide (c ∈ map bytes_of_string cs) then Some (bytes_of_string expansion) else None)
    TRANSLITERATION.
Record NativeMrzText := mkNativeMrzText { NativeMrzText_0 : bytes }.
Definition to_mrz_char (c : bytes) : bytes :=
  match c with
  | [b] => if is_ascii_uppercase b then [b]
           else if (b =? 0x20) || (b =? 0x2D) then [0x3C]
           else if b =? 0x27 then []
           else default [0x3C] (transliterate_char c)
  | _ => default [0x3C] (transliterate_char c)
  end.
Definition to_mrz (t : NativeMrzText) : bytes :=
  concat (map to_mrz_char (chars_of (length (NativeMrzText_0 t)) (NativeMrzText_0 t))).
Definition Surname_to_mrz_text (n : Surname) : NativeMrzText := mkNativeMrzText (Surname_0 n).
Definition FirstName_to_mrz_text (n : FirstName) : NativeMrzText := mkNativeMrzText (FirstName_0 n).
Definition SecondName_to_mrz_text (n : SecondName) : NativeMrzText := mkNativeMrzText (SecondName_0 n).
Definition AdditionalName_to_mrz_text (n : AdditionalName) : NativeMrzText := mkNativeMrzText (AdditionalName_0 n).
(** [expect] panics when the name is refused. *)
Definition transliterate_surname (surname : Surname) : result Empty_set MrzSurname :=
  match MrzSurname_new (to_mrz (Surname_to_mrz_text surname)) with
  | Ok n => Ok n
  | _ => Panic
  end.
Definition transliterate_given_names (first : option FirstName) (second : option SecondName) (additional : list AdditionalName)
  : option MrzGivenName :=
  let joined := join [0x3C] (map (λ n, to_mrz (FirstName_to_mrz_text n)) (option_list first)
    ++ map (λ n, to_mrz (SecondName_to_mrz_text n)) (option_list second)
    ++ map (λ n, to_mrz (AdditionalName_to_mrz_text n)) additional) in
  if bool_decide (joined = []) then None else result_ok (MrzGivenName_new joined).

Inductive MrzSex := Sex_Male | Sex_Female | Sex_Unspecified.
Definition MrzSex_from_mrz_byte (b : Z) : MrzSex :=
  if b =? 0x4D then Sex_Male else if b =? 0x46 then Sex_Female else Sex_Unspecified.
Definition MrzSex_as_mrz_byte (s : MrzSex) : Z :=
  match s with Sex_Male => 0x4D | Sex_Female => 0x46 | Sex_Unspecified => 0x3C end.
Definition MrzSex_fluent_token (s : MrzSex) : string :=
  match s with Sex_Male => "male" | Sex_Female => "female" | Sex_Unspecified => "unspecified" end.

(** ** Dates *)

(** A date kept as [Iso8601]; the accessors panic on the other variant. *)
Definition date_of (v : Iso8601) : result Empty_set Date := match v with Iso_Date d => Ok d | Iso_DateTime _ => Panic end.
Record DateOfBirth := mkDateOfBirth { dob_value : Iso8601 }.
Definition DateOfBirth_from_calendar (year month day : Z) : result Iso8601Error DateOfBirth :=
  let? d := Date_new year month day in Ok (mkDateOfBirth (Iso_Date d)).
Definition DateOfBirth_from_yyyymmdd (bs : bytes) : result Iso8601Error DateOfBirth :=
  let? d := Date_from_yyyymmdd bs in Ok (mkDateOfBirth (Iso_Date d)).
Definition DateOfBirth_date (d : DateOfBirth) : result Empty_set Date := date_of (dob_value d).
Record IssueDate := mkIssueDate { issue_value : Iso8601 }.
Definition IssueDate_from_calendar (year month day : Z) : result Iso8601Error IssueDate :=
  let? d := Date_new year month day in Ok (mkIssueDate (Iso_Date d)).
Definition IssueDate_from_yyyymmdd (bs : bytes) : result Iso8601Error IssueDate :=
  let? d := Date_from_yyyymmdd bs in Ok (mkIssueDate (Iso_Date d)).
Definition IssueDate_date (d : IssueDate) : result Empty_set Date := date_of (issue_value d).
Record MrzDate := mkMrzDate { mrz_value : Iso8601 }.
Definition MrzDate_from_mrz_yymmdd (bs : bytes) : result Iso8601Error MrzDate :=
  let? d := Date_from_mrz_yymmdd bs in Ok (mkMrzDate (Iso_Date d)).
Definition MrzDate_from_calendar (year month day : Z) : result Iso8601Error MrzDate :=
  let? d := Date_new year month day in Ok (mkMrzDate (Iso_Date d)).
Definition MrzDate_date (d : MrzDate) : result Empty_set Date := date_of (mrz_value d).
Definition MrzDate_to_mrz_yymmdd (d : MrzDate) : result Empty_set bytes :=
  let? d := MrzDate_date d in Ok (Date_to_mrz_yymmdd d).
Record PersonalisationTime := mkPersonalisationTime { pt_value : Iso8601 }.
Definition PersonalisationTime_from_yyyymmddhhmmss (bs : bytes) : result Iso8601Error PersonalisationTime :=
  let? dt := DateTime_from_yyyymmddhhmmss bs in Ok (mkPersonalisationTime (Iso_DateTime dt)).
Definition PersonalisationTime_datetime (t : PersonalisationTime) : result Empty_set DateTime :=
  match pt_value t with Iso_DateTime dt => Ok dt | Iso_Date _ => Panic end.

(** ** The sources compared *)

Record EmrtdConsistency := mkEmrtdConsistency {
  cert_matches_dg11_surname : option bool; cert_matches_dg11_given : option bool;
  cert_transliterates_to_mrz_surname : option bool; cert_transliterates_to_mrz_given : option bool;
  mrz_dob_matches_dg11_dob : option bool;
}.
Record EmrtdConsistencyInputs := mkEmrtdConsistencyInputs {
  in_cert_surname : option Surname; in_cert_first : option FirstName; in_cert_second : option SecondName;
  in_cert_additional : list AdditionalName; in_dg11_full_name : option Dg11FullName; in_dg11_dob : option DateOfBirth;
  in_mrz_primary : option MrzSurname; in_mrz_secondary : option MrzGivenName; in_mrz_dob : option MrzDate;
}.
Definition given_matches (i : EmrtdConsistencyInputs) (dg : SplitGivenNames) : bool :=
  bool_decide (FirstName_0 <$> in_cert_first i = FirstName_0 <$> sgn_first dg)
  && bool_decide (SecondName_0 <$> in_cert_second i = SecondName_0 <$> sgn_second dg)
  && bool_decide (map AdditionalName_0 (in_cert_additional i) = map AdditionalName_0 (sgn_additional dg)).
Definition verify_emrtd_consistency (i : EmrtdConsistencyInputs) : result Empty_set EmrtdConsistency :=
  let dg11_parts := in_dg11_full_name i ≫= try_split_into_parts in
  let dg11_surname := c ← in_cert_surname i; '(d, _) ← dg11_parts; Some (bool_decide (c = d)) in
  let dg11_given := '(_, dg) ← dg11_parts;
                    if bool_decide (is_Some (in_cert_first i)) || bool_decide (is_Some (sgn_first dg))
                    then Some (given_matches i dg) else None in
  let? mrz_surname :=
    match in_cert_surname i, in_mrz_primary i with
    | Some c, Some m =>
        let? expected := transliterate_surname c in
        Ok (Some (bool_decide (MrzSurname_0 expected = trim_end 0x3C (MrzSurname_0 m))))
    | _, _ => Ok None
    end in
  let mrz_given := m ← in_mrz_secondary i;
                   expected ← transliterate_given_names (in_cert_first i) (in_cert_second i) (in_cert_additional i);
                   Some (bool_decide (MrzGivenName_0 expected = trim_end 0x3C (MrzGivenName_0 m))) in
  let? dob :=
    match in_mrz_dob i, in_dg11_dob i with
    | Some mrz, Some dg => let? a := MrzDate_date mrz in let? b := DateOfBirth_date dg in Ok (Some (bool_decide (a = b)))
    | _, _ => Ok None
    end in
  Ok (mkEmrtdConsistency dg11_surname dg11_given mrz_surname mrz_given dob).

(** ** The identity of a credential *)

Record CredentialIdentity := mkCredentialIdentity {
  ci_title : option Title; ci_first_name : option FirstName; ci_second_name : option SecondName;
  ci_additional_names : list AdditionalName; ci_surname : option Surname; ci_peuin : option Peuin;
  ci_date_of_birth : option DateOfBirth; ci_printed_serial : option PrintedSerial; ci_organization : option OrganizationName;
}.
Definition CredentialIdentity_new : CredentialIdentity := mkCredentialIdentity None None None [] None None None None None.
Definition with_title (i : CredentialIdentity) (value : Title) : CredentialIdentity :=
  let 'mkCredentialIdentity _ f s a n p d ps o := i in mkCredentialIdentity (Some value) f s a n p d ps o.
Definition with_first_name (i : CredentialIdentity) (value : FirstName) : CredentialIdentity :=
  let 'mkCredentialIdentity t _ s a n p d ps o := i in mkCredentialIdentity t (Some value) s a n p d ps o.
Definition with_second_name (i : CredentialIdentity) (value : SecondName) : CredentialIdentity :=
  let 'mkCredentialIdentity t f _ a n p d ps o := i in mkCredentialIdentity t f (Some value) a n p d ps o.
Definition with_additional_name (i : CredentialIdentity) (value : AdditionalName) : CredentialIdentity :=
  let 'mkCredentialIdentity t f s a n p d ps o := i in mkCredentialIdentity t f s (a ++ [value]) n p d ps o.
Definition with_additional_names (i : CredentialIdentity) (values : list AdditionalName) : CredentialIdentity :=
  let 'mkCredentialIdentity t f s _ n p d ps o := i in mkCredentialIdentity t f s values n p d ps o.
Definition with_surname (i : CredentialIdentity) (value : Surname) : CredentialIdentity :=
  let 'mkCredentialIdentity t f s a _ p d ps o := i in mkCredentialIdentity t f s a (Some value) p d ps o.
Definition with_organization (i : CredentialIdentity) (value : OrganizationName) : CredentialIdentity :=
  let 'mkCredentialIdentity t f s a n p d ps _ := i in mkCredentialIdentity t f s a n p d ps (Some value).
Definition with_peuin (i : CredentialIdentity) (value : Peuin) : CredentialIdentity :=
  let 'mkCredentialIdentity t f s a n _ d ps o := i in mkCredentialIdentity t f s a n (Some value) d ps o.
Definition with_date_of_birth (i : CredentialIdentity) (value : DateOfBirth) : CredentialIdentity :=
  let 'mkCredentialIdentity t f s a n p _ ps o := i in mkCredentialIdentity t f s a n p (Some value) ps o.
Definition with_printed_serial (i : CredentialIdentity) (value : PrintedSerial) : CredentialIdentity :=
  let 'mkCredentialIdentity t f s a n p d _ o := i in mkCredentialIdentity t f s a n p d (Some value) o.

Definition CredentialIdentity_best_serial (i : CredentialIdentity) : option bytes := PrintedSerial_0 <$> ci_printed_serial i.
Definition CredentialIdentity_iter_given_names (i : CredentialIdentity) : list bytes :=
  map FirstName_0 (option_list (ci_first_name i)) ++ map SecondName_0 (option_list (ci_second_name i))
  ++ map AdditionalName_0 (ci_additional_names i).
Definition non_empty_texts (l : list bytes) : list bytes := List.filter (λ s, negb (len s =? 0)) l.
Definition CredentialIdentity_person_string (i : CredentialIdentity) : bytes :=
  join [0x20] (non_empty_texts (map Surname_0 (option_list (ci_surname i)) ++ CredentialIdentity_iter_given_names i)).
Definition ORGANIZATION_SEPARATOR : bytes := bytes_of_string ", ".
Definition holder_line (person : bytes) (organization : option OrganizationName) : bytes :=
  match organization with
  | Some organization => if bool_decide (person = []) then person else person ++ ORGANIZATION_SEPARATOR ++ OrganizationName_0 organization
  | None => person
  end.
Definition CredentialIdentity_holder_line (i : CredentialIdentity) : bytes :=
  holder_line (CredentialIdentity_person_string i) (ci_organization i).
Definition is_none {A} (o : option A) : bool := match o with None => true | Some _ => false end.
Definition CredentialIdentity_is_empty (i : CredentialIdentity) : bool :=
  is_none (ci_title i) && is_none (ci_first_name i) && is_none (ci_second_name i) && bool_decide (ci_additional_names i = [])
  && is_none (ci_surname i) && is_none (ci_peuin i) && is_none (ci_date_of_birth i) && is_none (ci_printed_serial i)
  && is_none (ci_organization i).

(** [str::is_char_boundary], and the walk back from [room]. *)
Definition is_char_boundary (s : bytes) (i : nat) : bool :=
  bool_decide (i = 0%nat) || bool_decide (i = length s) || match s !! i with Some b => negb (utf8_cont b) | None => false end.
Fixpoint char_boundary (s : bytes) (i : nat) : nat :=
  match i with
  | O => O
  | S i' => if is_char_boundary s i then i else char_boundary s i'
  end.
(** A further text behind the label, after a space if the label is not empty. *)
Definition append_text (out text : bytes) : bytes := if bool_decide (out = []) then text else out ++ [0x20] ++ text.
Definition sep_len (out : bytes) : Z := if bool_decide (out = []) then 0 else 1.
Definition to_prompt_label (i : CredentialIdentity) (budget : Z) : bytes :=
  let out := default [] (CredentialIdentity_best_serial i) in
  let surname := non_empty_texts (map Surname_0 (option_list (ci_surname i))) in
  let given (out : bytes) :=
    let joined := join [0x20] (non_empty_texts (CredentialIdentity_iter_given_names i)) in
    if bool_decide (joined = []) then out
    else
      let used := len out + sep_len out in
      if used <? budget then
        let room := budget - used in
        let truncated := if len joined <=? room then joined else take (char_boundary joined (Z.to_nat room)) joined in
        if bool_decide (truncated = []) then out else append_text out truncated
      else out in
  match surname with
  | surname :: _ =>
      if len out + sep_len out + len surname <=? budget then given (append_text out surname) else out
  | [] => given out
  end.
Definition to_ssh_comment (i : CredentialIdentity) : bytes :=
  foldl (λ out s, if bool_decide (s = []) then out else append_text out s) []
    (map Surname_0 (option_list (ci_surname i)) ++ CredentialIdentity_iter_given_names i
     ++ map Peuin_0 (option_list (ci_peuin i)) ++ map PrintedSerial_0 (option_list (ci_printed_serial i))).
Definition kv (key : string) (value : bytes) : bytes := bytes_of_string key ++ value.
Fixpoint kv_additional (n : Z) (names : list AdditionalName) : list bytes :=
  match names with
  | [] => []
  | name :: names => (bytes_of_string "additional_name_" ++ dec n ++ [0x3D] ++ AdditionalName_0 name) :: kv_additional (n + 1) names
  end.
Definition to_kv_string (i : CredentialIdentity) : bytes :=
  join [0x20]
    (map (kv "title=") (map Title_0 (option_list (ci_title i)))
     ++ map (kv "surname=") (map Surname_0 (option_list (ci_surname i)))
     ++ map (kv "first_name=") (map FirstName_0 (option_list (ci_first_name i)))
     ++ map (kv "second_name=") (map SecondName_0 (option_list (ci_second_name i)))
     ++ kv_additional 1 (ci_additional_names i)
     ++ map (kv "peuin=") (map Peuin_0 (option_list (ci_peuin i)))
     ++ map (kv "date_of_birth=") (map (λ d, Iso8601_fmt (dob_value d)) (option_list (ci_date_of_birth i)))
     ++ map (kv "printed_serial=") (map PrintedSerial_0 (option_list (ci_printed_serial i)))).
Definition CredentialIdentity_fmt (i : CredentialIdentity) : bytes :=
  join [0x20] (non_empty_texts
    (map Surname_0 (option_list (ci_surname i)) ++ CredentialIdentity_iter_given_names i
     ++ map Peuin_0 (option_list (ci_peuin i)) ++ option_list (CredentialIdentity_best_serial i))).

(** ** Lemmas *)

Lemma FreeText_parse_Ok s : FreeText_parse s = Ok tt ↔ s ≠ [] ∧ len s ≤ 1024.
Proof.
  unfold FreeText_parse, FREE_TEXT_MAX_BYTES. case_bool_decide as Hs; [naive_solver|].
  destruct (Z.ltb_spec 1024 (len s)); [split; [done|lia]|]. split; [done|]. intros _. done.
Qed.

(** Characters of one octet are the octets. *)
Lemma chars_of_ascii fuel l : Forall (λ b, 0 ≤ b < 128) l → (length l ≤ fuel)%nat → chars_of fuel l = map (λ b, [b]) l.
Proof.
  intros Hl. revert fuel. induction Hl as [|b l Hb _ IH]; intros fuel Hf; [by destruct fuel|].
  destruct fuel as [|fuel]; [simpl in Hf; lia|]. cbn [chars_of utf8_step].
  destruct (Z.ltb_spec b 128); [|lia]. cbn. f_equal. apply IH. simpl in Hf. lia.
Qed.

Lemma transliteration_capitals :
  Forall (λ '(_, expansion), Forall (λ b, mrz_name_byte b = true) (bytes_of_string expansion)) TRANSLITERATION.
Proof. by_decide. Qed.
Lemma to_mrz_char_bytes c : Forall (λ b, mrz_name_byte b = true) (to_mrz_char c).
Proof.
  assert (Forall (λ b, mrz_name_byte b = true) (default [0x3C] (transliterate_char c))) as Hd.
  { unfold transliterate_char. destruct (find_map _ _) as [e|] eqn:He; [|by repeat constructor].
    apply find_map_Some in He as ((cs & x) & Hin & Hx). case_bool_decide; [|done]. injection Hx as <-.
    pose proof transliteration_capitals as Hall. rewrite list.Forall_forall in Hall. apply (Hall (cs, x) Hin). }
  unfold to_mrz_char. destruct c as [|b [|]]; [done| |done].
  destruct (is_ascii_uppercase b) eqn:Hu; [repeat constructor; unfold mrz_name_byte; by rewrite Hu|].
  repeat (case_match; [by repeat constructor|]). done.
Qed.
Lemma to_mrz_bytes t : Forall (λ b, mrz_name_byte b = true) (to_mrz t).
Proof.
  unfold to_mrz. induction (chars_of _ _) as [|c cs IH]; [constructor|]. apply Forall_app. split; [apply to_mrz_char_bytes|done].
Qed.
Lemma MrzNameInput_Ok s : MrzNameInput_parse s = Ok tt ↔ 1 ≤ len s ≤ 39 ∧ Forall (λ b, mrz_name_byte b = true) s.
Proof.
  unfold MrzNameInput_parse, MRZ_NAME_MAX_BYTES.
  case_bool_decide as Hs; [subst s; split; [done|]; intros [H _]; unfold len in H; simpl in H; lia|].
  assert (1 ≤ len s) by (destruct s; [done|]; rewrite len_cons; pose proof (len_nonneg s); lia).
  destruct (Z.ltb_spec 39 (len s)); [split; [done|lia]|].
  destruct (position _ s) as [i|] eqn:Hp.
  - apply position_Some in Hp as (x & Hx & Hb & _). split; [done|]. intros [_ Hall]. rewrite list.Forall_forall in Hall.
    specialize (Hall x ltac:(by eapply list_elem_of_lookup_2)). cbn in Hall. by rewrite Hall in Hb.
  - apply position_None in Hp. split; [|done]. intros _. split; [lia|].
    eapply list.Forall_impl; [exact Hp|]. cbn. intros b Hb. by apply negb_false_iff.
Qed.

(** names are written into the zone's alphabet, or the process dies. What any text is
    transliterated to is made of capitals and fillers; a text of capitals stays as it is.
    A surname is transliterated exactly when that gives 1 to 39 characters; otherwise,
    which a surname of the allowed 1024 octets can do, the function panics. *)
Theorem transliteration_exact :
  (∀ t, Forall (λ b, mrz_name_byte b = true) (to_mrz t)) ∧
  (∀ s, Forall (λ b, is_ascii_uppercase b = true) s → to_mrz (mkNativeMrzText s) = s) ∧
  (∀ s n, transliterate_surname s = Ok n ↔ n = mkMrzSurname (to_mrz (Surname_to_mrz_text s))
      ∧ 1 ≤ len (to_mrz (Surname_to_mrz_text s)) ≤ 39) ∧
  (∀ s, transliterate_surname s = Panic ↔ ¬ 1 ≤ len (to_mrz (Surname_to_mrz_text s)) ≤ 39) ∧
  (∃ text s, Surname_new text = Ok s ∧ len text = 40 ∧ transliterate_surname s = Panic).
Proof.
  split; [apply to_mrz_bytes|]. split.
  { intros s Hs. unfold to_mrz. cbn [NativeMrzText_0]. rewrite chars_of_ascii; [|eapply list.Forall_impl; [exact Hs|]|done].
    - induction Hs as [|b s Hb _ IH]; [done|]. cbn. rewrite Hb. cbn. by rewrite IH.
    - cbn. unfold is_ascii_uppercase, within. intros b Hb. lia. }
  assert (∀ s, transliterate_surname s = if bool_decide (1 ≤ len (to_mrz (Surname_to_mrz_text s)) ≤ 39)
                 then Ok (mkMrzSurname (to_mrz (Surname_to_mrz_text s))) else Panic) as Hcase.
  { intros s. unfold transliterate_surname, MrzSurname_new. pose proof (to_mrz_bytes (Surname_to_mrz_text s)) as Hb.
    case_bool_decide as Hl; [by rewrite (proj2 (MrzNameInput_Ok _) (conj Hl Hb))|].
    destruct (MrzNameInput_parse _) as [[]|e|] eqn:Hp; [|done..]. by apply MrzNameInput_Ok in Hp as [? _]. }
  split; [|split].
  - intros s n. rewrite Hcase. case_bool_decide; naive_solver.
  - intros s. rewrite Hcase. case_bool_decide; naive_solver.
  - exists (replicate 40 0x41). by eexists.
Qed.

(** ** Given names *)

Lemma chars_of_step fuel l c cs : chars_of fuel l = c :: cs → c ≠ [].
Proof.
  destruct fuel; [done|]. destruct l as [|b l]; [done|]. cbn [chars_of]. intros [= <- _].
  unfold utf8_step. repeat case_match; done.
Qed.
Lemma chars_of_non_empty fuel l : Forall (λ c, c ≠ []) (chars_of fuel l).
Proof.
  revert l. induction fuel as [|fuel IH]; intros l; [constructor|]. destruct l as [|b l]; [constructor|].
  pose proof (chars_of_step (S fuel) (b :: l)) as Hs. cbn [chars_of] in *. constructor; [by eapply Hs|apply IH].
Qed.
Lemma concat_chars_of fuel l : (length l ≤ fuel)%nat → concat (chars_of fuel l) = l.
Proof.
  revert l. induction fuel as [|fuel IH]; intros l Hf; [by destruct l; [|simpl in Hf; lia]|]. destruct l as [|b l]; [done|].
  pose proof (chars_of_step (S fuel) (b :: l)) as Hs. cbn [chars_of concat] in *.
  assert (take (utf8_step (b :: l)).1 (b :: l) ≠ []) as Hne by by eapply Hs.
  rewrite IH, take_drop; [done|]. rewrite length_drop. destruct ((utf8_step (b :: l)).1); [done|]. simpl in *. lia.
Qed.
(** The words of a text: not empty, and no longer than it. *)
Lemma words_spec run cs : Forall (λ w, w ≠ [] ∧ (length w ≤ length run + length (concat cs))%nat) (words run cs).
Proof.
  revert run. induction cs as [|c cs IH]; intros run; cbn [words concat].
  - case_bool_decide; repeat constructor; [done|lia].
  - rewrite length_app. destruct (blank c).
    + case_bool_decide; [|constructor; [split; [done|lia]|]]; (eapply list.Forall_impl; [apply IH|]; simpl; intros w [? ?]; split; [done|lia]).
    + eapply list.Forall_impl; [apply IH|]. simpl. rewrite length_app. intros w [? ?]. split; [done|lia].
Qed.
Lemma split_whitespace_words s : Forall (λ w, w ≠ [] ∧ (length w ≤ length s)%nat) (split_whitespace s).
Proof.
  unfold split_whitespace. eapply list.Forall_impl; [apply words_spec|]. simpl. rewrite concat_chars_of by done. done.
Qed.

Definition given_words (n : SplitGivenNames) : list bytes :=
  map FirstName_0 (option_list (sgn_first n)) ++ map SecondName_0 (option_list (sgn_second n)) ++ map AdditionalName_0 (sgn_additional n).

Lemma given_names_placed ws : Forall (λ w, w ≠ [] ∧ len w ≤ 1024) ws →
  let '(n, slot) := foldl place_given_name (SplitGivenNames_default, 0) ws in
  given_words n = ws ∧ slot = Z.min 2 (Z.of_nat (length ws)) ∧
  (slot = 0 → sgn_first n = None ∧ sgn_second n = None) ∧ (slot ≤ 1 → sgn_second n = None ∧ sgn_additional n = []) ∧
  (sgn_first n = None → slot = 0).
Proof.
  induction ws as [|w ws IH] using rev_ind; intros Hws; [done|].
  apply Forall_app in Hws as [Hws [[Hne Hl] _]%Forall_cons_1]. specialize (IH Hws). rewrite foldl_app. cbn [foldl].
  destruct (foldl _ _ ws) as [n slot]. destruct IH as (<- & Hslot & H0 & H1 & H2).
  assert (FreeText_parse w = Ok tt) as Hw by by apply FreeText_parse_Ok.
  unfold place_given_name, FirstName_new, SecondName_new, AdditionalName_new. rewrite bool_decide_eq_false_2 by done.
  rewrite Hw. cbn [result_bind]. rewrite length_app. cbn [length].
  destruct (Z.eqb_spec slot 0) as [->|]; [|destruct (Z.eqb_spec slot 1) as [->|]].
  - destruct (H0 eq_refl) as [Hf Hs]. destruct (H1 ltac:(lia)) as [_ Ha]. destruct n as [f s a]. cbn in *. subst.
    unfold given_words in *. cbn in *. repeat split; try done; lia.
  - destruct (H1 ltac:(lia)) as [Hs Ha]. destruct n as [f s a]. cbn in *. subst. unfold given_words in *. cbn in *.
    rewrite <- !app_assoc in *. repeat split; try done; try lia. intros Hf. by specialize (H2 Hf).
  - assert (slot = 2 ∧ (2 <= length (given_words n))%nat) as [-> Hn] by lia. clear Hslot.
    split; [|repeat split; try lia; intros Hf; cbn in Hf; specialize (H2 Hf); lia].
    destruct n as [f s a]. unfold given_words in *. cbn in *. by rewrite map_app, !app_assoc.
Qed.

(** given names are kept, all and in order. A text that was accepted is split into its
    words: the first is the first name, the second the second name, the others follow;
    none is dropped, and listing the names of the result gives the words of the text. *)
Theorem given_names_kept (value : bytes) t (Ht : GivenNamesText_new value = Ok t) :
  given_words (GivenNamesText_split t) = split_whitespace value ∧
  (sgn_first (GivenNamesText_split t) = None → split_whitespace value = []).
Proof.
  unfold GivenNamesText_new in Ht. apply result_bind_inv_ok in Ht as ([] & [_ Hlen]%FreeText_parse_Ok & [= <-]).
  pose proof (given_names_placed (split_whitespace value)) as H. unfold GivenNamesText_split. cbn [GivenNamesText_0].
  destruct (foldl _ _ _) as [n slot]. cbn [fst]. destruct H as (<- & Hslot & _ & Hs & H0).
  { eapply list.Forall_impl; [apply split_whitespace_words|]. cbn. intros w [? ?]. split; [done|]. unfold len in *. lia. }
  split; [done|]. intros Hf. destruct (Hs ltac:(rewrite (H0 Hf); lia)) as [H1 H2].
  unfold given_words. by rewrite Hf, H1, H2.
Qed.
Lemma given_names_kept_witness :
  let value := bytes_of_string "Anna  Maria Liisa" in
  GivenNamesText_new value = Ok (mkGivenNamesText value) ∧
  given_words (GivenNamesText_split (mkGivenNamesText value)) = map bytes_of_string ["Anna"; "Maria"; "Liisa"].
Proof.
  split; [reflexivity|].
  rewrite (proj1 (given_names_kept (bytes_of_string "Anna  Maria Liisa") (mkGivenNamesText _) eq_refl)). by vm_compute.
Defined.

(** ** The label of a prompt *)

Lemma char_boundary_spec s i : (i ≤ length s)%nat →
  (char_boundary s i ≤ i)%nat ∧ is_char_boundary s (char_boundary s i) = true ∧
  (∀ j, (j ≤ i)%nat → is_char_boundary s j = true → (j ≤ char_boundary s i)%nat).
Proof.
  induction i as [|i IH]; intros Hi; [split; [done|]; split; [done|]; intros j ? _; lia|].
  cbn [char_boundary]. destruct (is_char_boundary s (S i)) eqn:Hb; [split; [done|]; split; [done|]; lia|].
  destruct IH as (Hle & Ht & Hmax); [lia|]. split; [lia|]. split; [done|]. intros j Hj Hbj.
  destruct (decide (j = S i)) as [->|]; [congruence|]. apply Hmax; [lia|done].
Qed.
Lemma append_text_extends out text : ∃ rest, append_text out text = out ++ rest ∧ len (append_text out text) = len out + sep_len out + len text.
Proof.
  unfold append_text, sep_len. case_bool_decide as Ho; [exists text; subst; split; [done|unfold len; simpl; lia]|].
  exists ([0x20] ++ text). split; [done|]. unfold len. rewrite length_app. simpl. lia.
Qed.

(** a prompt's label names the card first and in full. It starts with the serial
    printed on the card; anything behind it keeps the label within the budget; the text
    of the given names is cut at the last character boundary that fits. Nothing keeps the
    cut from falling behind a space, which then ends the label. *)
Theorem prompt_label_fits (i : CredentialIdentity) (budget : Z) :
  (∃ rest, to_prompt_label i budget = default [] (CredentialIdentity_best_serial i) ++ rest ∧
     (rest = [] ∨ len (to_prompt_label i budget) ≤ budget)) ∧
  (∀ s room, (room ≤ length s)%nat → is_char_boundary s (char_boundary s room) = true ∧
     ∀ j, (j ≤ room)%nat → is_char_boundary s j = true → (j ≤ char_boundary s room)%nat) ∧
  to_prompt_label (with_second_name (with_first_name CredentialIdentity_new (mkFirstName (bytes_of_string "Anna")))
    (mkSecondName (bytes_of_string "Maria"))) 5 = bytes_of_string "Anna ".
Proof.
  split; [|split; [intros s room Hr; by apply char_boundary_spec|by vm_compute]].
  unfold to_prompt_label. set (serial := default [] _). set (joined := join _ _).
  assert (∀ out, ∃ rest,
    (if bool_decide (joined = []) then out
     else let used := len out + sep_len out in
          if used <? budget then
            let room := budget - used in
            let truncated := if len joined <=? room then joined else take (char_boundary joined (Z.to_nat room)) joined in
            if bool_decide (truncated = []) then out else append_text out truncated
          else out) = out ++ rest ∧ (rest = [] ∨ len (out ++ rest) ≤ budget)) as Hgiven.
  { intros out. case_bool_decide; [exists []; rewrite app_nil_r; by split; [|left]|]. cbv zeta.
    destruct (Z.ltb_spec (len out + sep_len out) budget) as [Hu|]; [|exists []; rewrite app_nil_r; by split; [|left]].
    set (truncated := if len joined <=? _ then joined else _). assert (len truncated ≤ budget - (len out + sep_len out)) as Ht.
    { subst truncated. destruct (Z.leb_spec (len joined) (budget - (len out + sep_len out))) as [|Hlt]; [done|].
      pose proof (char_boundary_spec joined (Z.to_nat (budget - (len out + sep_len out)))) as [Hc _]; [unfold len in *; lia|].
      unfold len. rewrite length_take. unfold len in *. lia. }
    case_bool_decide; [exists []; rewrite app_nil_r; by split; [|left]|].
    destruct (append_text_extends out truncated) as (rest & Hr & Hl). exists rest. split; [done|]. right. rewrite <- Hr, Hl. lia. }
  cbv zeta in Hgiven |- *. destruct (non_empty_texts (map Surname_0 _)) as [|surname ss].
  - destruct (Hgiven serial) as (rest & -> & H). by exists rest.
  - destruct (Z.leb_spec (len serial + sep_len serial + len surname) budget) as [Hfit|]; [|exists []; rewrite app_nil_r; by split; [|left]].
    destruct (append_text_extends serial surname) as (r1 & Hr & Hl). rewrite Hr. rewrite Hr in Hl.
    destruct (Hgiven (serial ++ r1)) as (r2 & -> & H). exists (r1 ++ r2). rewrite app_assoc. split; [done|].
    right. destruct H as [->|H]; [rewrite app_nil_r; lia|done].
Qed.
