(* ===== verification/KeyAlgorithm.v ===== *)
(** crates/refineid-lib-core/src/x509.rs: the kinds of public keys a certificate holds,
    with their labels. *)

From S2P Require Import Prelude Decimal.

Inductive EcCurve := Secp256r1 | Secp384r1 | BrainpoolP256r1 | BrainpoolP384r1 | Curve_Other.
#[export] Instance EcCurve_eq_dec : EqDecision EcCurve.
Proof. solve_decision. Defined.
Definition EcCurve_label (c : EcCurve) : bytes :=
  bytes_of_string match c with
  | Secp256r1 => "secp256r1 (P-256)"
  | Secp384r1 => "secp384r1 (P-384)"
  | BrainpoolP256r1 => "brainpoolP256r1"
  | BrainpoolP384r1 => "brainpoolP384r1"
  | Curve_Other => "unrecognised curve"
  end.
Definition EcCurve_bits (c : EcCurve) : Z :=
  match c with Secp256r1 | BrainpoolP256r1 => 256 | Secp384r1 | BrainpoolP384r1 => 384 | Curve_Other => 0 end.

Inductive PublicKeyAlgorithm :=
| Pka_Rsa (modulus_bits : Z) | Pka_Ec (curve : EcCurve) | Pka_EcExplicit (bits : Z) | Pka_Other.
#[export] Instance PublicKeyAlgorithm_eq_dec : EqDecision PublicKeyAlgorithm.
Proof. solve_decision. Defined.
Definition PublicKeyAlgorithm_label (a : PublicKeyAlgorithm) : bytes :=
  match a with
  | Pka_Rsa modulus_bits => bytes_of_string "RSA, " ++ dec modulus_bits ++ bytes_of_string "-bit modulus"
  | Pka_Ec curve => bytes_of_string "EC on " ++ EcCurve_label curve
  | Pka_EcExplicit bits => bytes_of_string "EC with explicit parameters (" ++ dec bits ++ bytes_of_string "-bit field)"
  | Pka_Other => bytes_of_string "unrecognised algorithm"
  end.
