(* ===== verification/X509.v ===== *)
(** crates/refineid-lib-core/src/x509.rs: a certificate taken apart, its names, its
    extensions and what they say, the algorithm of its key, and the verification of a
    signature by the key of an issuer. The values are found with the crate der (Der.v),
    the contents of some extensions with the parser of ber.rs (Ber.v). *)

From S2P Require Import Prelude Decimal Oid Utf8 Str Text Country Ber Der CryptoCrates Rsa Ecdsa KeyAlgorithm Identity.

Inductive X509Error :=
| X509_Ber (e : BerError)
| X509_UnexpectedStructure (s : string)
| X509_InvalidTime
| X509_InvalidString
| X509_BerInContext (e : BerError) (s : string).

Definition TAG_GN_RFC822_NAME : Z := 0x81.
Definition TAG_GN_URI : Z := 0x86.
Definition TAG_DP_DISTRIBUTION_POINT_NAME : Z := 0xA0.
Definition TAG_DP_FULL_NAME : Z := 0xA0.
Definition X509ContextExplicit0 : Z := 0xA0.
Definition X509ContextExplicit3 : Z := 0xA3.

(** The values of a BER iterator that parse. *)
Definition ok_items (value : bytes) : list BerTlvAny := omap result_ok (BerTlvIter_items value).
(** [BerTlv::<T>::parse(..).ok()]. *)
Definition ber_typed (tag : Z) (bs : bytes) : option bytes := any_value <$> result_ok (BerTlv_parse tag bs).

(** ** Names *)

Fixpoint bmp_chars (bs : bytes) : option bytes :=
  match bs with
  | hi :: lo :: rest => c ← char_from_u16 (u16_from_be hi lo); out ← bmp_chars rest; Some (c ++ out)
  | _ => Some []
  end.
Definition is_ascii (b : Z) : bool := b <? 0x80.
Definition decode_directory_string (value : AnyRef) : option bytes :=
  match ar_tag value with
  | Tag_Utf8String => str_from_utf8 (ar_value value)
  | Tag_PrintableString | Tag_Ia5String | Tag_TeletexString =>
      if forallb is_ascii (ar_value value) then Some (String_from_utf8_lossy (ar_value value)) else None
  | Tag_BmpString => if negb (len (ar_value value) mod 2 =? 0) then None else bmp_chars (ar_value value)
  | _ => None
  end.

Record Name := mkName { Name_as_der : bytes }.
#[export] Instance Name_eq_dec : EqDecision Name.
Proof. solve_decision. Defined.

Section name.
Context `{DerCrate}.

(** The attributes of one set: the last value that decodes is kept. *)
Fixpoint atv_loop (oid_body : Oid) (items : list (option bytes)) (found : option bytes) : option (option bytes) :=
  match items with
  | [] => Some found
  | None :: _ => None
  | Some t :: items =>
      atv ← AnyRef_from_der t;
      if negb (bool_decide (ar_tag atv = Tag_Sequence)) then atv_loop oid_body items found
      else
        fields ← SliceReader_new (ar_value atv);
        '(oid, fields) ← next_any fields;
        '(val, _) ← next_any fields;
        atv_loop oid_body items
          (if bool_decide (ar_tag oid = Tag_ObjectIdentifier) && bool_decide (ar_value oid = Oid_as_bytes oid_body)
           then match decode_directory_string val with Some s => Some s | None => found end
           else found)
  end.
Fixpoint rdn_loop (oid_body : Oid) (items : list (option bytes)) (found : option bytes) : option (option bytes) :=
  match items with
  | [] => Some found
  | None :: _ => None
  | Some t :: items =>
      rdn ← AnyRef_from_der t;
      if negb (bool_decide (ar_tag rdn = Tag_Set)) then rdn_loop oid_body items found
      else
        atvs ← SliceReader_new (ar_value rdn);
        found ← atv_loop oid_body (reader_items atvs) found;
        rdn_loop oid_body items found
  end.
Definition dn_attribute (n : Name) (oid_body : Oid) : option bytes :=
  name ← AnyRef_from_der (Name_as_der n);
  if negb (bool_decide (ar_tag name = Tag_Sequence)) then None
  else
    rdns ← SliceReader_new (ar_value name);
    found ← rdn_loop oid_body (reader_items rdns) None;
    found.

Context `{ConstOid}.
Definition Name_common_name (n : Name) : option CommonName := s ← dn_attribute n COMMON_NAME; result_ok (CommonName_new s).
Definition Name_surname (n : Name) : option Surname := s ← dn_attribute n SURNAME; result_ok (Surname_new s).
Definition Name_given_names (n : Name) : SplitGivenNames :=
  match dn_attribute n GIVEN_NAME with
  | None => SplitGivenNames_default
  | Some raw => match GivenNamesText_new raw with Ok text => GivenNamesText_split text | _ => SplitGivenNames_default end
  end.
Definition Name_organization_name (n : Name) : option OrganizationName :=
  s ← dn_attribute n ORGANIZATION_NAME; result_ok (OrganizationName_new s).
Definition Name_peuin (n : Name) : option Peuin := s ← dn_attribute n SERIAL_NUMBER; result_ok (Peuin_new s).
Definition Name_country (n : Name) : option IsoAlpha2 := s ← dn_attribute n COUNTRY_NAME; result_ok (IsoAlpha2_new (str_trim s)).
Definition Name_try_from (dn_der : bytes) : result X509Error Name :=
  let? any := ok_or (AnyRef_from_der dn_der) (X509_UnexpectedStructure "Name not a TLV") in
  if negb (bool_decide (ar_tag any = Tag_Sequence)) then Err (X509_UnexpectedStructure "Name not SEQUENCE") else Ok (mkName dn_der).
End name.

(** ** Keys *)

Definition explicit_curve_field_bits (seq_value : bytes) : option Z :=
  let next it := match BerTlvIter_next it with (Some (Ok t), rest) => Some (t, rest) | _ => None end in
  '(_, it) ← next seq_value;
  '(field_id, _) ← next it;
  if negb (any_tag field_id =? Sequence_TAG) then None
  else
    '(_, fit) ← next (any_value field_id);
    '(prime, _) ← next fit;
    if negb (any_tag prime =? Integer_TAG) then None
    else
      let bs := default (any_value prime) (strip_prefix [0] (any_value prime)) in
      first ← head bs;
      bit_count bs (leading_zeros first).

Section keys.
Context `{DerCrate} `{ConstOid}.

(** An INTEGER without its sign octet. *)
Definition magnitude (reader : bytes) : option (bytes * bytes) :=
  '(any, rest) ← next_any reader;
  if negb (bool_decide (ar_tag any = Tag_Integer)) then None
  else Some (match ar_value any with
             | b :: (_ :: _) as r => if b =? 0 then tail (ar_value any) else ar_value any
             | whole => whole
             end, rest).
Definition rsa_public_key_parts (der : bytes) : option (bytes * bytes) :=
  sequence ← AnyRef_from_der der;
  if negb (bool_decide (ar_tag sequence = Tag_Sequence)) then None
  else
    reader ← SliceReader_new (ar_value sequence);
    '(modulus, reader) ← magnitude reader;
    '(exponent, _) ← magnitude reader;
    Some (modulus, exponent).

Definition extract_rsa_public_key (spki_der : bytes) : option RsaPublicKey :=
  info ← SubjectPublicKeyInfoRef_from_der spki_der;
  if negb (bool_decide (spki_algorithm_oid info = Oid_as_bytes RSA_ENCRYPTION)) then None
  else
    '(modulus_bytes, exponent_bytes) ← rsa_public_key_parts (spki_raw_bytes info);
    modulus ← result_ok (RsaModulus_try_from_pkcs1 modulus_bytes);
    exponent ← result_ok (RsaPublicExponent_try_from_pkcs1 exponent_bytes);
    Some (mkRsaPublicKey modulus exponent).

Definition curve_of_oid (oid : bytes) : EcCurve :=
  if bool_decide (oid = Oid_as_bytes SECP256R1) then Secp256r1
  else if bool_decide (oid = Oid_as_bytes SECP384R1) then Secp384r1
  else if bool_decide (oid = Oid_as_bytes BRAINPOOL_P256R1) then BrainpoolP256r1
  else if bool_decide (oid = Oid_as_bytes BRAINPOOL_P384R1) then BrainpoolP384r1
  else Curve_Other.
Definition PublicKeyAlgorithm_from_spki (info : SubjectPublicKeyInfoRef) : option PublicKeyAlgorithm :=
  if bool_decide (spki_algorithm_oid info = Oid_as_bytes RSA_ENCRYPTION) then
    '(magnitude, _) ← rsa_public_key_parts (spki_raw_bytes info);
    first ← head magnitude;
    modulus_bits ← bit_count magnitude (leading_zeros first);
    Some (Pka_Rsa modulus_bits)
  else if bool_decide (spki_algorithm_oid info = Oid_as_bytes EC_PUBLIC_KEY) then
    params ← spki_parameters info;
    match decode_as_oid params with
    | Some curve_oid => Some (Pka_Ec (curve_of_oid curve_oid))
    | None => Some (Pka_EcExplicit (default 0 (explicit_curve_field_bits (ar_value params))))
    end
  else Some Pka_Other.
Definition parse_subject_public_key_info (spki_der : bytes) : option PublicKeyAlgorithm :=
  info ← SubjectPublicKeyInfoRef_from_der spki_der; PublicKeyAlgorithm_from_spki info.

Record SpkiDer := mkSpkiDer { SpkiDer_as_der : bytes; SpkiDer_algorithm : PublicKeyAlgorithm; SpkiDer_bits : bytes }.
Definition SpkiDer_try_from (der : bytes) : result X509Error SpkiDer :=
  let? info := ok_or (SubjectPublicKeyInfoRef_from_der der) (X509_UnexpectedStructure "malformed SubjectPublicKeyInfo") in
  let? algorithm := ok_or (PublicKeyAlgorithm_from_spki info) (X509_UnexpectedStructure "malformed SubjectPublicKeyInfo") in
  Ok (mkSpkiDer der algorithm (spki_raw_bytes info)).
Definition SpkiDer_ec_public_key_point (s : SpkiDer) : option Sec1UncompressedPoint := result_ok (Sec1_from_bytes (SpkiDer_bits s)).
End keys.

(** ** The certificate *)

Record Certificate := mkCertificate {
  cert_raw_der : bytes;
  cert_tbs_der : bytes;
  cert_serial_der : bytes;
  cert_issuer : Name;
  cert_subject : Name;
  cert_not_before : DerDateTime;
  cert_not_after : DerDateTime;
  cert_spki : SpkiDer;
  cert_extensions : option bytes;
  cert_signature_alg_oid : Oid;
  cert_signature_bits : bytes;
}.
Definition Certificate_serial (c : Certificate) : CertSerial := mkCertSerial (cert_serial_der c).

Definition VERSION_TAG : DerTag := Tag_ContextSpecific true 0.
Definition EXTENSIONS_TAG : DerTag := Tag_ContextSpecific true 3.

Section certificate.
Context `{DerCrate} `{ConstOid}.

(** [reader.tlv_bytes().map_err(..)?]. *)
Definition take_tlv (context : string) (reader : bytes) : result X509Error (bytes * bytes) :=
  ok_or (SliceReader_tlv_bytes reader) (X509_UnexpectedStructure context).
Definition as_any (context : string) (bs : bytes) : result X509Error AnyRef :=
  ok_or (AnyRef_from_der bs) (X509_UnexpectedStructure context).
Definition open_reader (context : string) (bs : bytes) : result X509Error bytes :=
  ok_or (SliceReader_new bs) (X509_UnexpectedStructure context).

(** The fields after the key: the last [3] holds the extensions. *)
Fixpoint trailing_fields (items : list (option bytes)) (extensions : option bytes) : result X509Error (option bytes) :=
  match items with
  | [] => Ok extensions
  | item :: items =>
      let? t := ok_or item (X509_UnexpectedStructure "TBS trailing field") in
      let? child := as_any "TBS trailing field" t in
      if bool_decide (ar_tag child = EXTENSIONS_TAG) then
        let? inner_seq := as_any "extensions not SEQUENCE" (ar_value child) in
        trailing_fields items (Some (ar_value inner_seq))
      else trailing_fields items extensions
  end.

Definition parse_tbs (tbs_der raw : bytes) (signature_alg_oid : Oid) (signature_bits : bytes) : result X509Error Certificate :=
  let? tbs := as_any "tbsCertificate not a TLV" tbs_der in
  if negb (bool_decide (ar_tag tbs = Tag_Sequence)) then Err (X509_UnexpectedStructure "tbsCertificate not SEQUENCE")
  else
    let? reader := open_reader "tbsCertificate body" (ar_value tbs) in
    let? (first_tlv, reader) := take_tlv "TBS first field" reader in
    let? first := as_any "TBS first field" first_tlv in
    let? (serial_any, reader) :=
      if bool_decide (ar_tag first = VERSION_TAG) then
        let? (t, reader) := take_tlv "serialNumber" reader in
        let? any := as_any "serialNumber" t in
        Ok (any, reader)
      else Ok (first, reader) in
    let? (_, reader) := take_tlv "TBS signature alg" reader in
    let? (issuer, reader) := take_tlv "issuer" reader in
    let? (validity_tlv, reader) := take_tlv "validity" reader in
    let? (not_before, not_after) := ok_or (Validity_from_der validity_tlv) X509_InvalidTime in
    let? (subject, reader) := take_tlv "subject" reader in
    let? (spki_der_bytes, reader) := take_tlv "subjectPublicKeyInfo" reader in
    let? spki := SpkiDer_try_from spki_der_bytes in
    let? extensions := trailing_fields (reader_items reader) None in
    Ok (mkCertificate raw tbs_der (ar_value serial_any) (mkName issuer) (mkName subject) not_before not_after spki
          extensions signature_alg_oid signature_bits).

Definition Certificate_from_der (der : bytes) : result X509Error Certificate :=
  let? cert := as_any "Certificate not a TLV" der in
  if negb (bool_decide (ar_tag cert = Tag_Sequence)) then Err (X509_UnexpectedStructure "Certificate not SEQUENCE")
  else
    let? reader := open_reader "Certificate body" (ar_value cert) in
    let? (tbs_der, reader) := take_tlv "tbsCertificate" reader in
    let? (sig_alg_tlv, reader) := take_tlv "signatureAlgorithm" reader in
    let? (sig_tlv, _) := take_tlv "signature" reader in
    let? sig_alg := as_any "signatureAlgorithm not SEQUENCE" sig_alg_tlv in
    let? alg_reader := open_reader "signatureAlgorithm body" (ar_value sig_alg) in
    let? (oid_tlv, _) := take_tlv "signatureAlgorithm OID missing" alg_reader in
    let? oid_any := as_any "signatureAlgorithm OID malformed" oid_tlv in
    let? signature_alg_oid := map_err (λ _, X509_UnexpectedStructure "signatureAlgorithm OID malformed") (Oid_new (ar_value oid_any)) in
    let? sig_any := as_any "signature not a TLV" sig_tlv in
    let? signature_bits :=
      (match ar_value sig_any with
       | [] => Err (X509_UnexpectedStructure "signature BIT STRING missing")
       | _ :: bits => Ok bits
       end) in
    parse_tbs tbs_der der signature_alg_oid signature_bits.

(** ** Extensions *)

Record ExtensionMeta := mkExtensionMeta { em_value : bytes; em_critical : bool }.
Fixpoint extension_loop (oid_value : Oid) (items : list (option bytes)) : option ExtensionMeta :=
  match items with
  | [] | None :: _ => None
  | Some t :: items =>
      ext ← AnyRef_from_der t;
      if negb (bool_decide (ar_tag ext = Tag_Sequence)) then extension_loop oid_value items
      else
        fields ← SliceReader_new (ar_value ext);
        '(oid, fields) ← next_any fields;
        if negb (bool_decide (ar_tag oid = Tag_ObjectIdentifier)) || negb (bool_decide (ar_value oid = Oid_as_bytes oid_value))
        then extension_loop oid_value items
        else
          '(next, fields) ← next_any fields;
          '(critical, next) ←
            (if bool_decide (ar_tag next = Tag_Boolean) then
               '(value, _) ← next_any fields;
               Some (match ar_value next with b :: _ => negb (b =? 0) | [] => false end, value)
             else Some (false, next));
          if negb (bool_decide (ar_tag next = Tag_OctetString)) then None
          else Some (mkExtensionMeta (ar_value next) critical)
  end.
Definition find_extension_with_meta (extensions : bytes) (oid_value : Oid) : option ExtensionMeta :=
  reader ← SliceReader_new extensions; extension_loop oid_value (reader_items reader).
Definition find_extension (extensions : bytes) (oid_value : Oid) : option bytes := em_value <$> find_extension_with_meta extensions oid_value.

Definition uri_of (value : bytes) : option Uri := s ← str_from_utf8 value; result_ok (Uri_parse s).

(** One access description: the URI when it has the method and names its location so. *)
Definition access_url (access_method : Oid) (ad_bytes : bytes) : option Uri :=
  ad ← AnyRef_from_der ad_bytes;
  if negb (bool_decide (ar_tag ad = Tag_Sequence)) then None
  else
    fields ← SliceReader_new (ar_value ad);
    '(oid, fields) ← next_any fields;
    if negb (bool_decide (ar_tag oid = Tag_ObjectIdentifier)) || negb (bool_decide (ar_value oid = Oid_as_bytes access_method)) then None
    else
      '(loc, _) ← next_any fields;
      if bool_decide (ar_tag loc = Tag_ContextSpecific false 6) then uri_of (ar_value loc) else None.
Definition aia_urls_for (extensions : bytes) (access_method : Oid) : list Uri :=
  default []
    (extn_value ← find_extension extensions AUTHORITY_INFO_ACCESS;
     outer ← AnyRef_from_der extn_value;
     if negb (bool_decide (ar_tag outer = Tag_Sequence)) then None
     else
       reader ← SliceReader_new (ar_value outer);
       Some (omap (λ item, item ≫= access_url access_method) (reader_items reader))).
Definition extract_ocsp_urls (extensions : bytes) : list Uri := aia_urls_for extensions AD_OCSP.
Definition extract_ca_issuers_urls (extensions : bytes) : list Uri := aia_urls_for extensions AD_CA_ISSUERS.

(** The URIs of a GeneralNames, of the fields with a tag. *)
Definition tagged (tag : Z) (value : bytes) : list bytes := map any_value (List.filter (λ t, any_tag t =? tag) (ok_items value)).
Definition extract_crl_distribution_urls (extensions : bytes) : list Uri :=
  default []
    (extn_value ← find_extension extensions CRL_DISTRIBUTION_POINTS;
     outer ← ber_typed Sequence_TAG extn_value;
     Some (dp ← tagged Sequence_TAG outer;
           field ← tagged TAG_DP_DISTRIBUTION_POINT_NAME dp;
           gn_wrap ← tagged TAG_DP_FULL_NAME field;
           omap uri_of (tagged TAG_GN_URI gn_wrap))).
Definition extract_subject_alt_emails (extensions : bytes) : list EmailAddress :=
  default []
    (extn_value ← find_extension extensions SUBJECT_ALT_NAME;
     outer ← ber_typed Sequence_TAG extn_value;
     Some (omap (λ v, s ← str_from_utf8 v; result_ok (EmailAddress_new s)) (tagged TAG_GN_RFC822_NAME outer))).

(** ** Key usage *)

Record KeyUsage := mkKeyUsage {
  digital_signature : bool; non_repudiation : bool; key_encipherment : bool; data_encipherment : bool; key_agreement : bool;
  key_cert_sign : bool; crl_sign : bool; encipher_only : bool; decipher_only : bool }.
Definition KeyUsage_label (k : KeyUsage) : bytes :=
  join (bytes_of_string ", ")
    (map (λ x : bool * string, bytes_of_string x.2)
       (List.filter fst
          [(digital_signature k, "digitalSignature"); (non_repudiation k, "nonRepudiation"); (key_encipherment k, "keyEncipherment");
           (data_encipherment k, "dataEncipherment"); (key_agreement k, "keyAgreement"); (key_cert_sign k, "keyCertSign");
           (crl_sign k, "cRLSign"); (encipher_only k, "encipherOnly"); (decipher_only k, "decipherOnly")]))%string.
(** The bits of the octets after the count of unused bits. *)
Definition key_usage_of_bits (bs : bytes) : KeyUsage :=
  let b0 := nth 0 bs 0 in
  let b1 := nth 1 bs 0 in
  let bit b m := negb (Z.land b m =? 0) in
  mkKeyUsage (bit b0 0x80) (bit b0 0x40) (bit b0 0x20) (bit b0 0x10) (bit b0 0x08) (bit b0 0x04) (bit b0 0x02) (bit b0 0x01) (bit b1 0x80).
Definition key_usage_of_value (extn_value : bytes) : option KeyUsage :=
  bit_string ← ber_typed BitString_TAG extn_value;
  match bit_string with [] => None | _ :: bs => Some (key_usage_of_bits bs) end.
Definition extract_key_usage (extensions : bytes) : option KeyUsage := find_extension extensions KEY_USAGE ≫= key_usage_of_value.
Definition extract_key_usage_meta (extensions : bytes) : option (KeyUsage * bool) :=
  meta ← find_extension_with_meta extensions KEY_USAGE;
  key_usage ← key_usage_of_value (em_value meta);
  Some (key_usage, em_critical meta).

(** ** Extended key usage *)

Definition oid_dot_octet (s : Z * bytes) (b : Z) : Z * bytes :=
  let '(acc, out) := s in
  let acc := Z.lor (Z.shiftl acc 7 mod 4294967296) (Z.land b 0x7F) in
  if Z.land b 0x80 =? 0 then (0, out ++ bytes_of_string "." ++ dec acc) else (acc, out).
Definition oid_dot_notation (oid : Oid) : bytes :=
  match Oid_as_bytes oid with
  | [] => []
  | first :: rest => (fold_left oid_dot_octet rest (0, dec (first / 40) ++ bytes_of_string "." ++ dec (first mod 40))).2
  end.
Definition eku_name (oid : Oid) : string :=
  if decide (oid = KP_SERVER_AUTH) then "serverAuth"
  else if decide (oid = KP_CLIENT_AUTH) then "clientAuth"
  else if decide (oid = KP_CODE_SIGNING) then "codeSigning"
  else if decide (oid = KP_EMAIL_PROTECTION) then "emailProtection"
  else if decide (oid = KP_TIME_STAMPING) then "timeStamping"
  else if decide (oid = KP_OCSP_SIGNING) then "ocspSigning"
  else "".
Definition eku_label (oid : Oid) : bytes :=
  let name := bytes_of_string (eku_name oid) in
  if bool_decide (name = []) then bytes_of_string "oid:" ++ oid_dot_notation oid else name.
Definition extract_extended_key_usage (extensions : bytes) : list bytes :=
  default []
    (extn_value ← find_extension extensions EXT_KEY_USAGE;
     outer ← ber_typed Sequence_TAG extn_value;
     Some (omap (λ v, eku_label <$> result_ok (Oid_new v)) (tagged Oid_TAG outer))).
Record ExtendedKeyUsageOwned := mkEkuOwned { eku_oids : list bytes; eku_critical : bool }.
Definition eku_contains (e : ExtendedKeyUsageOwned) (target : Oid) : bool := existsb (λ o, bool_decide (o = Oid_as_bytes target)) (eku_oids e).
Definition extract_extended_key_usage_meta (extensions : bytes) : option ExtendedKeyUsageOwned :=
  meta ← find_extension_with_meta extensions EXT_KEY_USAGE;
  outer ← ber_typed Sequence_TAG (em_value meta);
  Some (mkEkuOwned (tagged Oid_TAG outer) (em_critical meta)).

(** ** Basic constraints *)

Record BasicConstraints := mkBasicConstraints { bc_ca : bool; bc_path_len : option Z; bc_critical : bool; bc_present : bool }.
Definition u32_of_octets (value : bytes) : Z := foldl (λ acc b, Z.lor (Z.shiftl acc 8 mod 4294967296) b) 0 value.
Definition bc_child (s : bool * option Z) (child : BerTlvAny) : bool * option Z :=
  let '(ca, path_len) := s in
  if any_tag child =? Boolean_TAG then (match any_value child with b :: _ => negb (b =? 0) | [] => false end, path_len)
  else if any_tag child =? Integer_TAG then (ca, Some (u32_of_octets (any_value child)))
  else (ca, path_len).
Definition extract_basic_constraints (extensions : bytes) : BasicConstraints :=
  let absent := mkBasicConstraints false None false false in
  match find_extension_with_meta extensions BASIC_CONSTRAINTS with
  | None => absent
  | Some meta =>
      match ber_typed Sequence_TAG (em_value meta) with
      | None => absent
      | Some outer =>
          let '(ca, path_len) := fold_left bc_child (ok_items outer) (false, None) in
          mkBasicConstraints ca path_len (em_critical meta) true
      end
  end.
End certificate.

(** ** Signatures *)

Inductive SignatureAlgorithm :=
| Sha256WithRsa | Sha384WithRsa | Sha512WithRsa | EcdsaWithSha256 | EcdsaWithSha384 | EcdsaWithSha512 | SignatureAlgorithm_Other.
Definition SignatureAlgorithm_label (a : SignatureAlgorithm) : bytes :=
  bytes_of_string match a with
  | Sha256WithRsa => "sha256WithRSAEncryption"
  | Sha384WithRsa => "sha384WithRSAEncryption"
  | Sha512WithRsa => "sha512WithRSAEncryption"
  | EcdsaWithSha256 => "ecdsa-with-SHA256"
  | EcdsaWithSha384 => "ecdsa-with-SHA384"
  | EcdsaWithSha512 => "ecdsa-with-SHA512"
  | SignatureAlgorithm_Other => "unrecognised"
  end.
Inductive VerifyError :=
| Verify_Unsupported (a : SignatureAlgorithm) | Verify_BadIssuerKey | Verify_Rsa (e : RsaVerifyError) | Verify_Ecdsa (e : EcdsaError).
Record TbsSignature := mkTbsSignature { ts_tbs_der : bytes; ts_signature_alg_oid : bytes; ts_signature_bits : bytes; ts_issuer_spki_der : bytes }.

Section verify.
Context `{DerCrate} `{ConstOid} `{BoxedMonty} `{Sha1Hash} `{Sha256Hash} `{Sha2Hashes}.

Definition SignatureAlgorithm_from_oid (oid : bytes) : SignatureAlgorithm :=
  if bool_decide (oid = Oid_as_bytes SHA256_WITH_RSA) then Sha256WithRsa
  else if bool_decide (oid = Oid_as_bytes SHA384_WITH_RSA) then Sha384WithRsa
  else if bool_decide (oid = Oid_as_bytes SHA512_WITH_RSA) then Sha512WithRsa
  else if bool_decide (oid = Oid_as_bytes ECDSA_WITH_SHA256) then EcdsaWithSha256
  else if bool_decide (oid = Oid_as_bytes ECDSA_WITH_SHA384) then EcdsaWithSha384
  else if bool_decide (oid = Oid_as_bytes ECDSA_WITH_SHA512) then EcdsaWithSha512
  else SignatureAlgorithm_Other.

Definition verify_tbs_signature (t : TbsSignature) : result VerifyError unit :=
  let rsa (verify : RsaPublicKey → bytes → bytes → result RsaVerifyError unit) :=
    let? k := ok_or (extract_rsa_public_key (ts_issuer_spki_der t)) Verify_BadIssuerKey in
    map_err Verify_Rsa (verify k (ts_tbs_der t) (ts_signature_bits t)) in
  let ecdsa (digest : bytes → bytes) :=
    let? (curve, pubkey) := ok_or (extract_ec_pubkey (ts_issuer_spki_der t)) Verify_BadIssuerKey in
    map_err Verify_Ecdsa (verify_prehashed curve pubkey (ts_signature_bits t) (digest (ts_tbs_der t))) in
  match SignatureAlgorithm_from_oid (ts_signature_alg_oid t) with
  | Sha256WithRsa => rsa verify_pkcs1v15_sha256
  | Sha384WithRsa => rsa verify_pkcs1v15_sha384
  | Sha512WithRsa => rsa verify_pkcs1v15_sha512
  | EcdsaWithSha256 => ecdsa sha256
  | EcdsaWithSha384 => ecdsa sha384
  | EcdsaWithSha512 => ecdsa sha512
  | SignatureAlgorithm_Other => Err (Verify_Unsupported SignatureAlgorithm_Other)
  end.
Definition verify_signed_by (c issuer : Certificate) : result VerifyError unit :=
  verify_tbs_signature
    (mkTbsSignature (cert_tbs_der c) (Oid_as_bytes (cert_signature_alg_oid c)) (cert_signature_bits c) (SpkiDer_as_der (cert_spki issuer))).
End verify.

(** ** Where the fields of a certificate are *)

(** A contiguous piece. *)
Definition within_bytes (part whole : bytes) : Prop := ∃ before after, whole = before ++ part ++ after.
#[export] Instance within_bytes_preorder : PreOrder within_bytes.
Proof.
  split; [intros l; exists [], []; by rewrite app_nil_r|].
  intros a b c (x & y & ->) (x' & y' & ->). exists (x' ++ x), (y ++ y'). by rewrite <- !app_assoc.
Qed.
Lemma within_bytes_ok part whole : within_bytes part whole → bytes_ok whole → bytes_ok part.
Proof. intros (a & b & ->) H%Forall_app. destruct H as [_ H%Forall_app]. by destruct H. Qed.

Section positions.
Context `{DerCrate} `{!DerLaws} `{ConstOid}.

Lemma AnyRef_within bs any : AnyRef_from_der bs = Some any → within_bytes (ar_value any) bs.
Proof. intros [h ->]%from_der_value. exists h, []. by rewrite app_nil_r. Qed.
Lemma tlv_bytes_within r t r' : SliceReader_tlv_bytes r = Some (t, r') → within_bytes t r ∧ within_bytes r' r.
Proof. intros [-> _]%tlv_bytes_takes. split; [by exists [], r'|]. exists t, []. by rewrite app_nil_r. Qed.
Lemma reader_within bs r : SliceReader_new bs = Some r → within_bytes r bs.
Proof. by intros ->%reader_new. Qed.
Lemma take_tlv_within context r t r' : take_tlv context r = Ok (t, r') → within_bytes t r ∧ within_bytes r' r.
Proof. intros Hr%ok_or_inv. by apply tlv_bytes_within. Qed.
Lemma as_any_within context bs any : as_any context bs = Ok any → within_bytes (ar_value any) bs.
Proof. intros Ha%ok_or_inv. by apply AnyRef_within. Qed.
Lemma open_reader_within context bs r : open_reader context bs = Ok r → within_bytes r bs.
Proof. intros Hr%ok_or_inv. by apply reader_within. Qed.
Lemma reader_item_within r t : Some t ∈ reader_items r → within_bytes t r.
Proof.
  remember (length r) as n eqn:Hn. revert r Hn. induction n as [n IH] using lt_wf_ind. intros r -> Hin.
  destruct (decide (r = [])) as [->|Hne]; [by apply not_elem_of_nil in Hin|].
  destruct (SliceReader_tlv_bytes r) as [[t0 r']|] eqn:Hr.
  - rewrite (reader_items_cons _ _ _ Hr) in Hin. pose proof (tlv_bytes_within _ _ _ Hr) as [Ht Hr'].
    apply elem_of_cons in Hin as [[= ->]|Hin]; [done|]. transitivity r'; [|done]. apply (IH (length r')); [by eapply tlv_bytes_shrinks|done|done].
  - unfold reader_items in Hin. destruct (length r) as [|m] eqn:Hl; [by destruct r|]. cbn [reader_items_fuel] in Hin.
    unfold is_finished in Hin. rewrite bool_decide_eq_false_2, Hr in Hin by done. apply list_elem_of_singleton in Hin. done.
Qed.
Lemma trailing_fields_within items start ext :
  trailing_fields items start = Ok (Some ext) → start = Some ext ∨ ∃ t, Some t ∈ items ∧ within_bytes ext t.
Proof.
  revert start. induction items as [|item items IH]; intros start; cbn [trailing_fields]; [intros [= ->]; by left|].
  intros (t & ->%ok_or_inv & (child & Hc & Hrest)%result_bind_inv_ok)%result_bind_inv_ok. case_bool_decide.
  - apply result_bind_inv_ok in Hrest as (inner & Hi & Hrest). apply IH in Hrest as [[= <-]|(t' & Ht' & Hw)].
    + right. exists t. split; [constructor|]. etrans; [by eapply as_any_within|by eapply as_any_within].
    + right. exists t'. split; [by constructor|done].
  - apply IH in Hrest as [->|(t' & Ht' & Hw)]; [by left|]. right. exists t'. split; [by constructor|done].
Qed.

(** The octets of the key within those of its information. *)
Lemma SpkiDer_within der s : SpkiDer_try_from der = Ok s → SpkiDer_as_der s = der ∧ within_bytes (SpkiDer_bits s) der.
Proof.
  intros (info & Hi%ok_or_inv & (alg & _ & [= <-])%result_bind_inv_ok)%result_bind_inv_ok. split; [done|].
  by apply spki_raw_within.
Qed.

Definition fields_within (c : Certificate) (tbs : bytes) : Prop :=
  within_bytes (cert_serial_der c) tbs ∧ within_bytes (Name_as_der (cert_issuer c)) tbs ∧
  within_bytes (Name_as_der (cert_subject c)) tbs ∧ within_bytes (SpkiDer_as_der (cert_spki c)) tbs ∧
  within_bytes (SpkiDer_bits (cert_spki c)) tbs ∧ (∀ ext, cert_extensions c = Some ext → within_bytes ext tbs) ∧
  ∃ validity, within_bytes validity tbs ∧ Validity_from_der validity = Some (cert_not_before c, cert_not_after c).
Lemma parse_tbs_within tbs raw oid bits c :
  parse_tbs tbs raw oid bits = Ok c →
  cert_tbs_der c = tbs ∧ cert_raw_der c = raw ∧ cert_signature_alg_oid c = oid ∧ cert_signature_bits c = bits ∧ fields_within c tbs.
Proof.
  unfold parse_tbs. intros (a & Ha%as_any_within & Hp)%result_bind_inv_ok. destruct (negb _); [done|].
  apply result_bind_inv_ok in Hp as (r0 & Hr0%open_reader_within & Hp).
  apply result_bind_inv_ok in Hp as ([t1 r1] & [Ht1 Hr1]%take_tlv_within & Hp).
  apply result_bind_inv_ok in Hp as (first & Hf%as_any_within & Hp).
  apply result_bind_inv_ok in Hp as ([serial r2] & Hs & Hp).
  assert (within_bytes (ar_value serial) r0 ∧ within_bytes r2 r0) as [Hserial Hr2].
  { destruct (bool_decide _).
    - apply result_bind_inv_ok in Hs as ([t r] & [Ht Hr]%take_tlv_within & (any & Hany%as_any_within & [= <- <-])%result_bind_inv_ok).
      split; [etrans; [exact Hany|by etrans]|by etrans].
    - injection Hs as <- <-. split; [by etrans|done]. }
  apply result_bind_inv_ok in Hp as ([t3 r3] & [_ Hr3]%take_tlv_within & Hp).
  apply result_bind_inv_ok in Hp as ([issuer r4] & [Hissuer Hr4]%take_tlv_within & Hp).
  apply result_bind_inv_ok in Hp as ([validity r5] & [Hvalidity Hr5]%take_tlv_within & Hp).
  apply result_bind_inv_ok in Hp as ([nb na] & Htimes%ok_or_inv & Hp).
  apply result_bind_inv_ok in Hp as ([subject r6] & [Hsubject Hr6]%take_tlv_within & Hp).
  apply result_bind_inv_ok in Hp as ([spki_tlv r7] & [Hspki Hr7]%take_tlv_within & Hp).
  apply result_bind_inv_ok in Hp as (spki & [<- Hbits]%SpkiDer_within & Hp).
  apply result_bind_inv_ok in Hp as (ext & Hext & [= <-]). split_and!; try done.
  assert (within_bytes r0 tbs) as H0' by by etrans. assert (within_bytes r3 tbs) as H3' by (etrans; [exact Hr3|by etrans]).
  assert (within_bytes r5 tbs) as H5' by (etrans; [exact Hr5|by etrans]). assert (within_bytes r6 tbs) as H6' by by etrans.
  split_and!; cbn.
  - by etrans.
  - by etrans.
  - by etrans.
  - by etrans.
  - etrans; [exact Hbits|by etrans].
  - intros e ->. apply trailing_fields_within in Hext as [|(t & Ht%reader_item_within & He)]; [done|].
    etrans; [exact He|]. etrans; [exact Ht|]. by etrans.
  - exists validity. split; [|done]. etrans; [exact Hvalidity|by etrans].
Qed.
Lemma take_tlv_eq context r t r' : take_tlv context r = Ok (t, r') → r = t ++ r'.
Proof. intros Hr%ok_or_inv. apply (tlv_bytes_takes r t r' Hr). Qed.

(** The algorithm and the signature come after the octets signed. *)
Definition certificate_layout (c : Certificate) (der : bytes) : Prop :=
  ∃ header algorithm signature rest, der = header ++ cert_tbs_der c ++ algorithm ++ signature ++ rest ∧
    within_bytes (Oid_as_bytes (cert_signature_alg_oid c)) algorithm ∧ within_bytes (cert_signature_bits c) signature.
Lemma Certificate_within der c :
  Certificate_from_der der = Ok c → cert_raw_der c = der ∧ within_bytes (cert_tbs_der c) der ∧ within_bytes (cert_signature_bits c) der ∧
    fields_within c (cert_tbs_der c) ∧ certificate_layout c der.
Proof.
  unfold Certificate_from_der. intros (a & Ha%as_any_within & Hp)%result_bind_inv_ok. destruct (negb _); [done|].
  apply result_bind_inv_ok in Hp as (r0 & (x & y & Hr0)%open_reader_within & Hp).
  apply result_bind_inv_ok in Hp as ([tbs r1] & ->%take_tlv_eq & Hp).
  apply result_bind_inv_ok in Hp as ([alg r2] & ->%take_tlv_eq & Hp).
  apply result_bind_inv_ok in Hp as ([sig r3] & ->%take_tlv_eq & Hp).
  apply result_bind_inv_ok in Hp as (any & Hany%as_any_within & Hp). apply result_bind_inv_ok in Hp as (r4 & Hr4%open_reader_within & Hp).
  apply result_bind_inv_ok in Hp as ([o r5] & [Ho _]%take_tlv_within & Hp). apply result_bind_inv_ok in Hp as (oany & Hoany%as_any_within & Hp).
  apply result_bind_inv_ok in Hp as (oid & Hoid & Hp). apply result_bind_inv_ok in Hp as (sany & Hsany%as_any_within & Hp).
  apply result_bind_inv_ok in Hp as (bits & Hbits & Hp). apply parse_tbs_within in Hp as (Htbs & -> & Hco & Hcb & Hf). subst tbs.
  destruct Ha as (x' & y' & ->). rewrite Hr0. clear Hr0.
  assert (within_bytes (cert_signature_bits c) sig) as Hsig.
  { rewrite Hcb. etrans; [|exact Hsany]. destruct (ar_value sany) as [|b v]; [done|]. injection Hbits as <-. exists [b], []. by rewrite app_nil_r. }
  assert (within_bytes (Oid_as_bytes (cert_signature_alg_oid c)) alg) as Halg.
  { assert (Oid_as_bytes oid = ar_value oany) as Hv.
    { revert Hoid. unfold Oid_new. destruct (list.last _); [|done]. destruct (negb _); [done|]. by intros [= <-]. }
    rewrite Hco, Hv. etrans; [exact Hoany|]. etrans; [exact Ho|]. by etrans. }
  assert (certificate_layout c (x' ++ (x ++ (cert_tbs_der c ++ alg ++ sig ++ r3) ++ y) ++ y')) as Hl.
  { exists (x' ++ x), alg, sig, (r3 ++ y ++ y'). split; [by rewrite <- !app_assoc|done]. }
  split; [done|]. split; [by exists (x' ++ x), (alg ++ sig ++ r3 ++ y ++ y'); rewrite <- !app_assoc|].
  split; [|done]. etrans; [exact Hsig|]. exists (x' ++ x ++ cert_tbs_der c ++ alg), (r3 ++ y ++ y'). by rewrite <- !app_assoc.
Qed.
End positions.

(** ** The keys of key information *)

(** A child of a BER value: its tag, its contents, what comes after it. *)
Definition ber_child (tag : Z) (bs v rest : bytes) : Prop :=
  ∃ enc, bs = enc ++ rest ∧ BerTlvAny_parse bs = Ok (mkBerTlvAny tag v (len enc)).
(** The octets of an INTEGER without the octet of its sign. *)
Inductive unsigned : bytes → bytes → Prop :=
| unsigned_padded m : unsigned (0 :: m) m
| unsigned_plain m : head m ≠ Some 0 → unsigned m m.
(** The octets of an INTEGER as a magnitude: zero keeps its octet. *)
Inductive magnitude_of : bytes → bytes → Prop :=
| magnitude_zero : magnitude_of [0] [0]
| magnitude_padded b m : magnitude_of (0 :: b :: m) (b :: m)
| magnitude_plain m : head m ≠ Some 0 → magnitude_of m m.

(** ECParameters as X9.62 spells them out over a prime field: the version, the field and
    its prime, the coefficients, the base point uncompressed, the order. *)
Inductive explicit_curve (v : bytes) : Curve → Prop :=
| explicit_curve_intro ver r1 field r2 f1 prime f2 coefs r3 a c1 b c2 x y r4 order r5 p n :
    ber_child 0x02 v ver r1 → ber_child 0x30 r1 field r2 →
    ber_child 0x06 field [0x2A; 0x86; 0x48; 0xCE; 0x3D; 0x01; 0x01] f1 → ber_child 0x02 f1 prime f2 → unsigned prime p →
    ber_child 0x30 r2 coefs r3 → ber_child 0x04 coefs a c1 → ber_child 0x04 c1 b c2 →
    ber_child 0x04 r3 (0x04 :: x ++ y) r4 → len x = len y → x ≠ [] →
    ber_child 0x02 r4 order r5 → unsigned order n →
    explicit_curve v (mkCurve p a b x y n).

Section keys_read.
Context `{DerCrate} `{!DerLaws} `{ConstOid} `{!ConstOidLaws}.

Definition der_child (tag : DerTag) (r v rest : bytes) : Prop :=
  ∃ t, SliceReader_tlv_bytes r = Some (t, rest) ∧ AnyRef_from_der t = Some (mkAnyRef tag v).

(** RFC 8017: under [rsaEncryption], a SEQUENCE that starts with the INTEGERs of the modulus
    and of the exponent, odd numbers, the modulus of 512 to 16384 bits. *)
Inductive rsa_key_of (spki : bytes) : RsaPublicKey → Prop :=
| rsa_key_of_intro info body v1 r1 v2 r2 m e :
    SubjectPublicKeyInfoRef_from_der spki = Some info →
    spki_algorithm_oid info = [0x2A; 0x86; 0x48; 0x86; 0xF7; 0x0D; 0x01; 0x01; 0x01] →
    AnyRef_from_der (spki_raw_bytes info) = Some (mkAnyRef Tag_Sequence body) → SliceReader_new body = Some body →
    der_child Tag_Integer body v1 r1 → magnitude_of v1 m → der_child Tag_Integer r1 v2 r2 → magnitude_of v2 e →
    head m ≠ Some 0 → be_fold m mod 2 = 1 → 2 ^ 511 ≤ be_fold m < 2 ^ 16384 → head e ≠ Some 0 → be_fold e mod 2 = 1 →
    rsa_key_of spki (mkRsaPublicKey (mkRsaModulus m) (mkRsaPublicExponent e)).

(** RFC 5480: the curve by its identifier, or spelt out. *)
Inductive curve_of_parameters (params : AnyRef) : Curve → Prop :=
| parameters_p256 : decode_as_oid params = Some [0x2A; 0x86; 0x48; 0xCE; 0x3D; 0x03; 0x01; 0x07] → curve_of_parameters params secp256r1
| parameters_p384 : decode_as_oid params = Some [0x2B; 0x81; 0x04; 0x00; 0x22] → curve_of_parameters params secp384r1
| parameters_explicit c : decode_as_oid params = None → explicit_curve (ar_value params) c → curve_of_parameters params c.
(** Under [id-ecPublicKey], an uncompressed point. *)
Inductive ec_key_of (spki : bytes) : Curve → Sec1UncompressedPoint → Prop :=
| ec_key_of_intro info params c x y :
    SubjectPublicKeyInfoRef_from_der spki = Some info →
    spki_algorithm_oid info = [0x2A; 0x86; 0x48; 0xCE; 0x3D; 0x02; 0x01] → spki_parameters info = Some params →
    curve_of_parameters params c → spki_raw_bytes info = 0x04 :: x ++ y → len x = len y → x ≠ [] →
    ec_key_of spki c (mkSec1 (0x04 :: x ++ y)).

Lemma magnitude_of_spec v m :
  magnitude_of v m ↔ m = match v with b :: (_ :: _) as r => if b =? 0 then tail v else v | whole => whole end.
Proof.
  split.
  - intros [|b m'|m' Hm]; [done..|]. destruct m' as [|b [|c m'']]; [done|done|]. by destruct (Z.eqb_spec b 0) as [->|].
  - destruct v as [|b [|c v]]; intros ->; [by constructor|destruct (decide (b = 0)) as [->|]; constructor; cbn; congruence|].
    destruct (Z.eqb_spec b 0) as [->|]; constructor. cbn. congruence.
Qed.
Lemma magnitude_child r m rest : magnitude r = Some (m, rest) ↔ ∃ v, der_child Tag_Integer r v rest ∧ magnitude_of v m.
Proof.
  unfold magnitude, next_any. split.
  - destruct (SliceReader_tlv_bytes r) as [[t r']|] eqn:Hr; [|done]. cbn [mbind option_bind].
    destruct (AnyRef_from_der t) as [[tag v]|] eqn:Ha; [|done]. cbn [mbind option_bind ar_tag ar_value]. case_bool_decide as Ht; [|done].
    cbn [negb]. intros [= <- <-]. subst tag. exists v. split; [by exists t|]. apply (proj2 (magnitude_of_spec v _)). by destruct v as [|? []].
  - intros (v & (t & -> & Ha) & ->%magnitude_of_spec). cbn [mbind option_bind]. rewrite Ha. cbn [mbind option_bind ar_tag ar_value].
    rewrite bool_decide_eq_true_2 by done. by destruct v as [|? []].
Qed.

Lemma next_typed_child tag it t rest : next_typed tag it = Ok (t, rest) → ber_child tag it (any_value t) rest.
Proof.
  unfold next_typed, next_child. destruct (BerTlvIter_next it) as [item r] eqn:Hn.
  intros ([t' r'] & (o & ->%ok_or_inv & (t'' & Ho & [= <- <-])%result_bind_inv_ok)%result_bind_inv_ok & (t3 & He & [= <- <-])%result_bind_inv_ok)%result_bind_inv_ok.
  unfold bad_modulus in Ho, He. apply map_err_Ok in Ho, He. subst o. destruct it as [|b it]; [done|].
  assert (BerTlvAny_parse (b :: it) = Ok t'') as Hp by (unfold BerTlvIter_next in Hn; destruct (BerTlvAny_parse _); by simplify_eq).
  destruct (BerTlvIter_items_parse_Ok _ _ _ Hp) as (enc & rest & Heq & Hsize & _). rewrite Heq in Hp, Hn |- *.
  rewrite (BerTlvIter_next_Ok _ _ _ Hp Hsize) in Hn. injection Hn as <-. exists enc. split; [done|]. rewrite Hp.
  unfold BerTlvAny_expect in He. destruct (Z.eqb_spec (any_tag t'') tag) as [<-|]; [|done]. injection He as <-. rewrite <- Hsize. by destruct t''.
Qed.
Lemma child_next_typed tag it v rest : ber_child tag it v rest → ∃ t, next_typed tag it = Ok (t, rest) ∧ any_value t = v.
Proof.
  intros (enc & -> & Hp). exists (mkBerTlvAny tag v (len enc)). split; [|done].
  unfold next_typed, next_child. rewrite (BerTlvIter_next_Ok _ _ _ Hp eq_refl). cbn [ok_or result_bind bad_modulus map_err].
  unfold BerTlvAny_expect. cbn [any_tag]. by rewrite Z.eqb_refl.
Qed.
Lemma strip_sign_unsigned v m : unsigned v m ↔ m = strip_sign v.
Proof.
  unfold strip_sign, DER_SIGN_PAD_PREFIX, DER_SIGN_PAD. split.
  - intros [m'|m' Hm]; [change (0 :: m') with ([0] ++ m'); by rewrite strip_prefix_app|]. destruct (strip_prefix [0] m') as [r|] eqn:Hs; [|done].
    by apply strip_prefix_Some in Hs as ->.
  - intros ->. destruct (strip_prefix [0] v) as [r|] eqn:Hs; cbn [default].
    + apply strip_prefix_Some in Hs as ->. constructor.
    + constructor. intros Hh. destruct v as [|b v]; [done|]. injection Hh as ->. change (0 :: v) with ([0] ++ v) in Hs. by rewrite strip_prefix_app in Hs.
Qed.

Lemma even_halves body : len body mod 2 = 0 → body ≠ [] → ∃ x y, body = x ++ y ∧ len x = len y ∧ x ≠ [].
Proof.
  intros He Hne. exists (take (Z.to_nat (len body / 2)) body), (drop (Z.to_nat (len body / 2)) body). rewrite take_drop.
  assert (len body = 2 * (len body / 2)) as Hd by (pose proof (Z.div_mod (len body) 2 ltac:(lia)); lia).
  assert (0 < len body) as Hp by (unfold len; destruct body; [done|cbn [length]; lia]).
  split; [done|]. unfold len in *. rewrite length_take, length_drop. split; [lia|]. intros Hx%(f_equal length). rewrite length_take in Hx. simpl in Hx. lia.
Qed.
Lemma double_even x y : len x = len y → len (x ++ y) mod 2 = 0.
Proof. intros Hl. rewrite len_app, Hl, Z.add_diag, Z.mul_comm. by apply Z_mod_mult. Qed.

Ltac take_child Hp t rest H :=
  apply result_bind_inv_ok in Hp as ([t rest] & H%next_typed_child & Hp).
Lemma parse_explicit_curve v c : parse_explicit v = Ok c ↔ explicit_curve v c.
Proof.
  split.
  - unfold parse_explicit. intros Hp. take_child Hp t1 r1 K1. take_child Hp t2 r2 K2. take_child Hp t3 f1 K3.
    case_bool_decide as Hf; [|done]. cbn [negb] in Hp. take_child Hp t4 f2 K4. take_child Hp t5 r3 K5. take_child Hp t6 c1 K6. take_child Hp t7 c2 K7.
    take_child Hp t8 r4 K8. case_bool_decide as Hh; [|done]. cbn [negb] in Hp.
    destruct (any_value t8) as [|b body] eqn:Hb; [done|]. injection Hh as ->. change (drop 1 (SEC1_UNCOMPRESSED_TAG :: body)) with body in Hp.
    destruct (Z.eqb_spec (len body mod 2) 0) as [He|]; [|done]. case_bool_decide as Hne; [done|]. cbn [negb orb] in Hp.
    destruct (even_halves body He Hne) as (x & y & -> & Hl & Hx). rewrite (proj2 (halves_app _ _ Hl)) in Hp. take_child Hp t9 r5 K9. injection Hp as <-.
    assert (any_value t3 = [0x2A; 0x86; 0x48; 0xCE; 0x3D; 0x01; 0x01]) as Ht3 by (rewrite Hf; known_octets). rewrite Ht3 in K3.
    eapply explicit_curve_intro; try done; by apply strip_sign_unsigned.
  - intros [ver r1 field r2 f1 prime f2 coefs r3 a c1 b c2 x y r4 order r5 p n K1 K2 K3 K4 Hp%strip_sign_unsigned K5 K6 K7 K8 Hl Hx K9 Hn%strip_sign_unsigned].
    change 0x02 with Integer_TAG in K1, K4, K9. change 0x30 with Sequence_TAG in K2, K5. change 0x06 with Oid_TAG in K3. change (ber_child 0x04) with (ber_child OctetString_TAG) in K6, K7, K8.
    apply child_next_typed in K1 as (t1 & K1 & <-), K2 as (t2 & K2 & <-), K3 as (t3 & K3 & Ht3), K4 as (t4 & K4 & <-), K5 as (t5 & K5 & <-),
      K6 as (t6 & K6 & <-), K7 as (t7 & K7 & <-), K8 as (t8 & K8 & Ht8), K9 as (t9 & K9 & <-).
    unfold parse_explicit. rewrite K1. cbn [result_bind]. rewrite K2. cbn [result_bind]. rewrite K3. cbn [result_bind].
    assert (Oid_as_bytes PRIME_FIELD = any_value t3) as -> by (rewrite Ht3; known_octets). rewrite bool_decide_eq_true_2 by done. cbn [negb].
    rewrite K4. cbn [result_bind]. rewrite K5. cbn [result_bind]. rewrite K6. cbn [result_bind]. rewrite K7. cbn [result_bind]. rewrite K8. cbn [result_bind].
    rewrite Ht8, bool_decide_eq_true_2 by done. cbn [negb]. change (drop 1 (0x04 :: x ++ y)) with (x ++ y). rewrite (double_even _ _ Hl), bool_decide_eq_false_2 by (by destruct x). cbn [negb orb].
    rewrite (proj2 (halves_app _ _ Hl)), K9. cbn [result_bind]. by subst.
Qed.

Lemma der_child_within tag r v rest : der_child tag r v rest → within_bytes v r ∧ within_bytes rest r.
Proof.
  intros (t & [Ht Hr]%tlv_bytes_within & Ha). split; [|done]. apply AnyRef_within in Ha. by etrans.
Qed.
Lemma magnitude_of_within v m : magnitude_of v m → within_bytes m v.
Proof. intros [|b m'|m' Hm]; [done| |done]. exists [0], []. by rewrite app_nil_r. Qed.
Lemma rsa_parts_child der m e : rsa_public_key_parts der = Some (m, e) ↔
  ∃ body v1 r1 v2 r2, AnyRef_from_der der = Some (mkAnyRef Tag_Sequence body) ∧ SliceReader_new body = Some body ∧
    der_child Tag_Integer body v1 r1 ∧ magnitude_of v1 m ∧ der_child Tag_Integer r1 v2 r2 ∧ magnitude_of v2 e.
Proof.
  unfold rsa_public_key_parts. split.
  - destruct (AnyRef_from_der der) as [[tag body]|]; [|done]. cbn [mbind option_bind ar_tag ar_value]. case_bool_decide as Ht; [|done]. cbn [negb]. subst tag.
    destruct (SliceReader_new body) as [r|] eqn:Hr; [|done]. pose proof (reader_new _ _ Hr) as ->. cbn [mbind option_bind].
    destruct (magnitude body) as [[m' r1]|] eqn:K1; [|done]. cbn [mbind option_bind]. destruct (magnitude r1) as [[e' r2]|] eqn:K2; [|done].
    intros [= -> ->]. apply magnitude_child in K1 as (v1 & K1 & Hm), K2 as (v2 & K2 & He). by exists body, v1, r1, v2, r2.
  - intros (body & v1 & r1 & v2 & r2 & -> & Hr & K1 & Hm & K2 & He). cbn [mbind option_bind ar_tag ar_value]. rewrite bool_decide_eq_true_2 by done. cbn [negb].
    rewrite Hr. cbn [mbind option_bind]. rewrite (proj2 (magnitude_child body m r1)) by eauto. cbn [mbind option_bind].
    by rewrite (proj2 (magnitude_child r1 e r2)) by eauto.
Qed.
Lemma extract_rsa_key_of spki key : bytes_ok spki → extract_rsa_public_key spki = Some key ↔ rsa_key_of spki key.
Proof.
  intros Hok. assert (Oid_as_bytes RSA_ENCRYPTION = [0x2A; 0x86; 0x48; 0x86; 0xF7; 0x0D; 0x01; 0x01; 0x01]) as Hoid by known_octets.
  assert (∀ info body v1 r1 v2 r2 m e, SubjectPublicKeyInfoRef_from_der spki = Some info → AnyRef_from_der (spki_raw_bytes info) = Some (mkAnyRef Tag_Sequence body) →
    der_child Tag_Integer body v1 r1 → magnitude_of v1 m → der_child Tag_Integer r1 v2 r2 → magnitude_of v2 e → bytes_ok m ∧ bytes_ok e) as Hb.
  { intros info body v1 r1 v2 r2 m e Hi Ha [K1 Hr1]%der_child_within Hm%magnitude_of_within [K2 _]%der_child_within He%magnitude_of_within.
    apply spki_raw_within in Hi. apply AnyRef_within in Ha. cbn [ar_value] in Ha. assert (bytes_ok body) by (eapply within_bytes_ok; [|exact Hok]; by etrans).
    split; (eapply within_bytes_ok; [|done]); [by etrans|]. etrans; [exact He|]. by etrans. }
  unfold extract_rsa_public_key. split.
  - destruct (SubjectPublicKeyInfoRef_from_der spki) as [info|] eqn:Hi; [|done]. cbn [mbind option_bind]. case_bool_decide as Ho; [|done]. cbn [negb].
    destruct (rsa_public_key_parts _) as [[m e]|] eqn:Hp; [|done]. cbn [mbind option_bind].
    apply rsa_parts_child in Hp as (body & v1 & r1 & v2 & r2 & Ha & Hr & K1 & Hm & K2 & He).
    destruct (Hb info body v1 r1 v2 r2 m e eq_refl Ha K1 Hm K2 He) as [Hbm Hbe].
    destruct (RsaModulus_try_from_pkcs1 m) as [n| |] eqn:Hn; [|done|done]. cbn [result_ok mbind option_bind].
    destruct (RsaPublicExponent_try_from_pkcs1 e) as [x| |] eqn:Hx; [|done|done]. intros [= <-].
    apply (RsaModulus_iff m n Hbm) in Hn as (-> & ? & ? & ?). apply (RsaPublicExponent_iff e x Hbe) in Hx as (-> & ? & ?). rewrite Hoid in Ho.
    by eapply rsa_key_of_intro.
  - intros [info body v1 r1 v2 r2 m e Hi Ho Ha Hr K1 Hm K2 He Hh Hodd Hrange Hhe Hoe]. rewrite Hi. cbn [mbind option_bind].
    rewrite bool_decide_eq_true_2 by by rewrite Ho. cbn [negb]. rewrite (proj2 (rsa_parts_child _ m e)) by (exists body, v1, r1, v2, r2; done). cbn [mbind option_bind].
    destruct (Hb info body v1 r1 v2 r2 m e Hi Ha K1 Hm K2 He) as [Hbm Hbe].
    rewrite (proj2 (RsaModulus_iff m (mkRsaModulus m) Hbm)) by done. cbn [result_ok mbind option_bind].
    by rewrite (proj2 (RsaPublicExponent_iff e (mkRsaPublicExponent e) Hbe)).
Qed.

Lemma Oid_eta o : mkOid (Oid_as_bytes o) = o.
Proof. by destruct o. Qed.
Lemma curve_parameters params c :
  (match decode_as_oid params with
   | Some curve_oid => oid ← result_ok (Oid_new curve_oid); named_curve_from_oid oid
   | None => result_ok (parse_explicit (ar_value params)) end) = Some c ↔ curve_of_parameters params c.
Proof.
  assert (Oid_as_bytes SECP256R1 = [0x2A; 0x86; 0x48; 0xCE; 0x3D; 0x03; 0x01; 0x07]) as H256 by known_octets.
  assert (Oid_as_bytes SECP384R1 = [0x2B; 0x81; 0x04; 0x00; 0x22]) as H384 by known_octets.
  split.
  - destruct (decode_as_oid params) as [o|] eqn:Ho.
    + unfold Oid_new. destruct (list.last o); [|done]. destruct (negb _); [done|]. cbn [result_ok mbind option_bind]. unfold named_curve_from_oid.
      case_decide as K1; [|case_decide as K2; [|done]]; intros [= <-]; constructor; rewrite Ho; f_equal; [rewrite <- H256, <- K1|rewrite <- H384, <- K2]; done.
    + destruct (parse_explicit _) eqn:Hp; [|done|done]. intros [= ->]. apply parse_explicit_curve in Hp. by constructor.
  - intros [->| ->|c' -> Hp].
    + change (Oid_new _) with (@Ok OidError _ (mkOid [0x2A; 0x86; 0x48; 0xCE; 0x3D; 0x03; 0x01; 0x07])). rewrite <- H256, Oid_eta.
      cbn [result_ok mbind option_bind]. apply named_curve_p256.
    + change (Oid_new _) with (@Ok OidError _ (mkOid [0x2B; 0x81; 0x04; 0x00; 0x22])). rewrite <- H384, Oid_eta.
      cbn [result_ok mbind option_bind]. apply named_curve_p384.
    + apply parse_explicit_curve in Hp. by rewrite Hp.
Qed.
Lemma Sec1_from_bytes_iff bs p : Sec1_from_bytes bs = Ok p ↔ ∃ x y, bs = 0x04 :: x ++ y ∧ len x = len y ∧ x ≠ [] ∧ p = mkSec1 bs.
Proof.
  unfold Sec1_from_bytes, SEC1_UNCOMPRESSED_TAG. split.
  - case_bool_decide as Hh; [|done]. cbn [negb]. destruct bs as [|b body]; [done|]. injection Hh as ->. rewrite len_cons. pose proof (len_nonneg body).
    rewrite (proj2 (Z.leb_le _ _)) by lia. cbn [result_bind]. replace (1 + len body - 1) with (len body) by lia.
    destruct (Z.eqb_spec (len body) 0) as [|Hne]; [done|]. destruct (Z.eqb_spec (len body mod 2) 0) as [He|]; [|done]. cbn [negb orb]. intros [= <-].
    destruct (even_halves body He) as (x & y & -> & Hl & Hx); [by intros ->|]. by exists x, y.
  - intros (x & y & -> & Hl & Hx & ->). rewrite bool_decide_eq_true_2 by done. cbn [negb]. rewrite len_cons. pose proof (len_nonneg (x ++ y)).
    rewrite (proj2 (Z.leb_le _ _)) by lia. cbn [result_bind]. replace (1 + len (x ++ y) - 1) with (len (x ++ y)) by lia. rewrite (double_even _ _ Hl).
    destruct (Z.eqb_spec (len (x ++ y)) 0) as [He|]; [|done]. destruct x; [done|]. unfold len in He. simpl in He. lia.
Qed.
Lemma extract_ec_key_of spki c p : extract_ec_pubkey spki = Some (c, p) ↔ ec_key_of spki c p.
Proof.
  assert (Oid_as_bytes EC_PUBLIC_KEY = [0x2A; 0x86; 0x48; 0xCE; 0x3D; 0x02; 0x01]) as Hoid by known_octets.
  unfold extract_ec_pubkey. split.
  - destruct (SubjectPublicKeyInfoRef_from_der spki) as [info|] eqn:Hi; [|done]. cbn [mbind option_bind]. case_bool_decide as Ho; [|done]. cbn [negb].
    destruct (spki_parameters info) as [params|] eqn:Hps; [|done]. cbn [mbind option_bind].
    destruct (match decode_as_oid params with Some _ => _ | None => _ end) as [c'|] eqn:Hc; [|done]. apply curve_parameters in Hc. cbn [mbind option_bind].
    destruct (Sec1_from_bytes _) as [p'| |] eqn:Hp; [|done|done]. intros [= -> ->]. apply Sec1_from_bytes_iff in Hp as (x & y & Hr & Hl & Hx & ->). rewrite Hr.
    rewrite Hoid in Ho. by eapply ec_key_of_intro.
  - intros [info params c' x y Hi Ho Hps Hc%curve_parameters Hr Hl Hx]. rewrite Hi. cbn [mbind option_bind]. rewrite bool_decide_eq_true_2 by by rewrite Ho. cbn [negb].
    rewrite Hps. cbn [mbind option_bind]. rewrite Hc. cbn [mbind option_bind]. rewrite Hr. rewrite (proj2 (Sec1_from_bytes_iff (0x04 :: x ++ y) (mkSec1 (0x04 :: x ++ y)))); [done|]. by exists x, y.
Qed.
End keys_read.

(** ** What a valid signature is *)

Section valid.
Context `{DerCrate} `{!DerLaws} `{ConstOid} `{!ConstOidLaws} `{BoxedMonty} `{!BoxedMontyLaws} `{Sha1Hash} `{Sha256Hash} `{Sha2Hashes} `{!HashSizes}.

(** The six identifiers the verifier knows. *)
Inductive algorithm_of : bytes → SignatureAlgorithm → Prop :=
| alg_rsa_256 : algorithm_of [0x2A; 0x86; 0x48; 0x86; 0xF7; 0x0D; 0x01; 0x01; 0x0B] Sha256WithRsa
| alg_rsa_384 : algorithm_of [0x2A; 0x86; 0x48; 0x86; 0xF7; 0x0D; 0x01; 0x01; 0x0C] Sha384WithRsa
| alg_rsa_512 : algorithm_of [0x2A; 0x86; 0x48; 0x86; 0xF7; 0x0D; 0x01; 0x01; 0x0D] Sha512WithRsa
| alg_ec_256 : algorithm_of [0x2A; 0x86; 0x48; 0xCE; 0x3D; 0x04; 0x03; 0x02] EcdsaWithSha256
| alg_ec_384 : algorithm_of [0x2A; 0x86; 0x48; 0xCE; 0x3D; 0x04; 0x03; 0x03] EcdsaWithSha384
| alg_ec_512 : algorithm_of [0x2A; 0x86; 0x48; 0xCE; 0x3D; 0x04; 0x03; 0x04] EcdsaWithSha512.
(** The DigestInfo prefix and the hash of an RSA algorithm, the hash of an ECDSA one. *)
Definition rsa_scheme (a : SignatureAlgorithm) : option (bytes * (bytes → bytes)) :=
  match a with
  | Sha256WithRsa => Some ([0x30; 0x31; 0x30; 0x0D; 0x06; 0x09; 0x60; 0x86; 0x48; 0x01; 0x65; 0x03; 0x04; 0x02; 0x01; 0x05; 0x00; 0x04; 0x20], sha256)
  | Sha384WithRsa => Some ([0x30; 0x41; 0x30; 0x0D; 0x06; 0x09; 0x60; 0x86; 0x48; 0x01; 0x65; 0x03; 0x04; 0x02; 0x02; 0x05; 0x00; 0x04; 0x30], sha384)
  | Sha512WithRsa => Some ([0x30; 0x51; 0x30; 0x0D; 0x06; 0x09; 0x60; 0x86; 0x48; 0x01; 0x65; 0x03; 0x04; 0x02; 0x03; 0x05; 0x00; 0x04; 0x40], sha512)
  | _ => None
  end.
Definition ecdsa_scheme (a : SignatureAlgorithm) : option (bytes → bytes) :=
  match a with EcdsaWithSha256 => Some sha256 | EcdsaWithSha384 => Some sha384 | EcdsaWithSha512 => Some sha512 | _ => None end.

Inductive tbs_valid (t : TbsSignature) : Prop :=
| valid_rsa a prefix hash key ps :
    algorithm_of (ts_signature_alg_oid t) a → rsa_scheme a = Some (prefix, hash) → rsa_key_of (ts_issuer_spki_der t) key →
    in_range key (ts_signature_bits t) → (8 <= ps)%nat →
    recovered_block key (ts_signature_bits t) = pkcs1_block ps (prefix ++ hash (ts_tbs_der t)) → tbs_valid t
| valid_ecdsa a hash curve ctx point :
    algorithm_of (ts_signature_alg_oid t) a → ecdsa_scheme a = Some hash → ec_key_of (ts_issuer_spki_der t) curve point →
    named_curve curve ctx → ecdsa_accepts ctx point (ts_signature_bits t) (hash (ts_tbs_der t)) → tbs_valid t.

Lemma algorithm_octets :
  Oid_as_bytes SHA256_WITH_RSA = [0x2A; 0x86; 0x48; 0x86; 0xF7; 0x0D; 0x01; 0x01; 0x0B] ∧
  Oid_as_bytes SHA384_WITH_RSA = [0x2A; 0x86; 0x48; 0x86; 0xF7; 0x0D; 0x01; 0x01; 0x0C] ∧
  Oid_as_bytes SHA512_WITH_RSA = [0x2A; 0x86; 0x48; 0x86; 0xF7; 0x0D; 0x01; 0x01; 0x0D] ∧
  Oid_as_bytes ECDSA_WITH_SHA256 = [0x2A; 0x86; 0x48; 0xCE; 0x3D; 0x04; 0x03; 0x02] ∧
  Oid_as_bytes ECDSA_WITH_SHA384 = [0x2A; 0x86; 0x48; 0xCE; 0x3D; 0x04; 0x03; 0x03] ∧
  Oid_as_bytes ECDSA_WITH_SHA512 = [0x2A; 0x86; 0x48; 0xCE; 0x3D; 0x04; 0x03; 0x04].
Proof. split_and!; known_octets. Qed.
Lemma from_oid_of oid a : algorithm_of oid a → SignatureAlgorithm_from_oid oid = a.
Proof. unfold SignatureAlgorithm_from_oid. destruct algorithm_octets as (-> & -> & -> & -> & -> & ->). by intros []. Qed.
Lemma from_oid_cases oid : algorithm_of oid (SignatureAlgorithm_from_oid oid) ∨ SignatureAlgorithm_from_oid oid = SignatureAlgorithm_Other.
Proof.
  unfold SignatureAlgorithm_from_oid. destruct algorithm_octets as (-> & -> & -> & -> & -> & ->).
  repeat (case_bool_decide as Hc; [rewrite Hc; left; constructor|clear Hc]). by right.
Qed.

(** The keys that come out of the key information are those of the constructors. *)
Lemma next_any_within r any rest : next_any r = Some (any, rest) → within_bytes (ar_value any) r ∧ within_bytes rest r.
Proof.
  unfold next_any. destruct (SliceReader_tlv_bytes r) as [[t r']|] eqn:Hr; [|done]. cbn [mbind option_bind].
  destruct (AnyRef_from_der t) as [a|] eqn:Ha; [|done]. intros [= <- <-]. apply tlv_bytes_within in Hr as [Ht Hr]. apply AnyRef_within in Ha.
  split; [by etrans|done].
Qed.
Lemma magnitude_within r m rest : magnitude r = Some (m, rest) → within_bytes m r ∧ within_bytes rest r.
Proof.
  unfold magnitude. destruct (next_any r) as [[any r']|] eqn:Hn; [|done]. cbn [mbind option_bind]. destruct (negb _); [done|].
  intros [= <- <-]. apply next_any_within in Hn as [Hv Hr]. split; [|done]. etrans; [|exact Hv].
  destruct (ar_value any) as [|b [|c l]]; [done|done|]. destruct (b =? 0); [|done]. exists [b], []. by rewrite app_nil_r.
Qed.
Lemma extract_rsa_wf spki key : bytes_ok spki → extract_rsa_public_key spki = Some key → RsaPublicKey_wf key.
Proof.
  intros Hok. unfold extract_rsa_public_key. destruct (SubjectPublicKeyInfoRef_from_der spki) as [info|] eqn:Hi; [|done].
  cbn [mbind option_bind]. destruct (negb _); [done|]. destruct (rsa_public_key_parts _) as [[m e]|] eqn:Hp; [|done]. cbn [mbind option_bind].
  destruct (RsaModulus_try_from_pkcs1 m) as [n| |] eqn:Hm; [|done|done]. cbn [result_ok mbind option_bind].
  destruct (RsaPublicExponent_try_from_pkcs1 e) as [x| |] eqn:He; [|done|done]. intros [= <-].
  assert (bytes_ok m ∧ bytes_ok e) as [Hbm Hbe].
  { apply spki_raw_within in Hi. assert (bytes_ok (spki_raw_bytes info)) as Hr by by eapply within_bytes_ok. revert Hp. unfold rsa_public_key_parts.
    destruct (AnyRef_from_der _) as [sq|] eqn:Hsq; [|done]. cbn [mbind option_bind]. destruct (negb _); [done|].
    destruct (SliceReader_new _) as [r|] eqn:Hn; [|done]. cbn [mbind option_bind].
    destruct (magnitude r) as [[m' r1]|] eqn:Hm1; [|done]. cbn [mbind option_bind].
    destruct (magnitude r1) as [[e' r2]|] eqn:Hm2; [|done]. intros [= -> ->].
    apply AnyRef_within in Hsq. apply reader_within in Hn. apply magnitude_within in Hm1 as [? ?], Hm2 as [? ?].
    assert (bytes_ok r) by (eapply within_bytes_ok; [|exact Hr]; by etrans).
    split; [by eapply within_bytes_ok|]. eapply within_bytes_ok; [|done]. by etrans. }
  destruct (RsaModulus_spec m n Hbm Hm) as [-> _]. unfold RsaPublicKey_wf. cbn [rsa_modulus rsa_exponent RsaModulus_0 RsaPublicExponent_0].
  assert (x = mkRsaPublicExponent e) as ->.
  { revert He. unfold RsaPublicExponent_try_from_pkcs1. intros (b & _ & Hq)%result_bind_inv_ok. destruct (b =? 0); [done|].
    apply result_bind_inv_ok in Hq as (l & _ & Hq). by case_match; simplify_eq. }
  by split_and!.
Qed.
Lemma extract_ec_ok spki curve point : bytes_ok spki → extract_ec_pubkey spki = Some (curve, point) → bytes_ok (Sec1_as_bytes point).
Proof.
  intros Hok. unfold extract_ec_pubkey. destruct (SubjectPublicKeyInfoRef_from_der spki) as [info|] eqn:Hi; [|done].
  cbn [mbind option_bind]. destruct (negb _); [done|]. destruct (spki_parameters info) as [params|]; [|done]. cbn [mbind option_bind].
  destruct (match decode_as_oid params with Some _ => _ | None => _ end) as [c|]; [|done]. cbn [mbind option_bind].
  destruct (Sec1_from_bytes (spki_raw_bytes info)) as [p| |] eqn:Hp; [|done|done]. intros [= <- <-].
  assert (p = mkSec1 (spki_raw_bytes info)) as ->.
  { revert Hp. unfold Sec1_from_bytes. destruct (negb _); [done|]. intros (n & _ & Hq)%result_bind_inv_ok. by case_match; simplify_eq. }
  apply spki_raw_within in Hi. by eapply within_bytes_ok.
Qed.

Lemma named_curve_unique c ctx ctx' : named_curve c ctx → named_curve c ctx' → ctx = ctx'.
Proof. intros Hc Hc'. apply named_curve_new in Hc, Hc'. congruence. Qed.

(** Each algorithm. *)
Lemma verify_rsa_spec t a prefix hash :
  bytes_ok (ts_issuer_spki_der t) → algorithm_of (ts_signature_alg_oid t) a → rsa_scheme a = Some (prefix, hash) →
  let v := let? k := ok_or (extract_rsa_public_key (ts_issuer_spki_der t)) Verify_BadIssuerKey in
           map_err Verify_Rsa (verify_pkcs1v15 k prefix (hash (ts_tbs_der t)) (ts_signature_bits t)) in
  (v = Ok tt ↔ tbs_valid t) ∧ v ≠ Panic.
Proof.
  intros Hok Ha Hs. cbv zeta. destruct (extract_rsa_public_key _) as [k|] eqn:Hk; cbn [ok_or result_bind].
  - pose proof (extract_rsa_wf _ _ Hok Hk) as Hwf.
    destruct (verify_pkcs1v15_spec k prefix (hash (ts_tbs_der t)) (ts_signature_bits t) Hwf) as [Hv Hn].
    split; [|by apply map_err_no_panic]. rewrite map_err_Ok, Hv. split.
    + intros (Hr & ps & Hps & Hb). eapply valid_rsa; try done. by apply (extract_rsa_key_of _ _ Hok).
    + intros [a' prefix' hash' key ps Ha' Hs' Hk'%(extract_rsa_key_of _ _ Hok) Hr Hps Hb|a' hash' curve ctx point Ha' Hs' _ _ _];
        apply from_oid_of in Ha, Ha'; subst a a'; [|destruct (SignatureAlgorithm_from_oid _); by simplify_eq].
      rewrite Hs in Hs'. rewrite Hk in Hk'. injection Hs' as <- <-. injection Hk' as <-. split; [done|]. by exists ps.
  - split; [|done]. split; [done|].
    intros [a' prefix' hash' key ps Ha' Hs' Hk'%(extract_rsa_key_of _ _ Hok) _ _ _|a' hash' curve ctx point Ha' Hs' _ _ _]; [congruence|].
    apply from_oid_of in Ha, Ha'. subst a a'. destruct (SignatureAlgorithm_from_oid _); by simplify_eq.
Qed.
Lemma verify_ecdsa_spec t a hash :
  bytes_ok (ts_issuer_spki_der t) → algorithm_of (ts_signature_alg_oid t) a → ecdsa_scheme a = Some hash →
  (∀ curve point, extract_ec_pubkey (ts_issuer_spki_der t) = Some (curve, point) → ∃ ctx, named_curve curve ctx) →
  let v := let? (curve, pubkey) := ok_or (extract_ec_pubkey (ts_issuer_spki_der t)) Verify_BadIssuerKey in
           map_err Verify_Ecdsa (verify_prehashed curve pubkey (ts_signature_bits t) (hash (ts_tbs_der t))) in
  (v = Ok tt ↔ tbs_valid t) ∧ v ≠ Panic.
Proof.
  intros Hok Ha Hs Hnamed. cbv zeta. destruct (extract_ec_pubkey _) as [[curve point]|] eqn:Hk; cbn [ok_or result_bind].
  - destruct (Hnamed _ _ eq_refl) as [ctx Hc]. pose proof (extract_ec_ok _ _ _ Hok Hk) as Hpt.
    assert (bytes_ok (hash (ts_tbs_der t))) as Hd.
    { destruct a; try done; injection Hs as <-; [apply bytes_sha256|apply bytes_sha384|apply bytes_sha512]. }
    destruct (verify_prehashed_spec curve ctx point (ts_signature_bits t) _ (named_curve_new _ _ Hc) (named_curve_sound _ _ Hc) Hpt Hd) as [Hv Hn].
    split; [|by apply map_err_no_panic]. rewrite map_err_Ok, Hv. split.
    + intros Hacc. eapply valid_ecdsa; try done. by apply extract_ec_key_of.
    + intros [a' prefix' hash' key ps Ha' Hs' _ _ _ _|a' hash' curve' ctx' point' Ha' Hs' Hk'%extract_ec_key_of Hc' Hacc];
        apply from_oid_of in Ha, Ha'; subst a a'; [destruct (SignatureAlgorithm_from_oid _); by simplify_eq|].
      rewrite Hs in Hs'. rewrite Hk in Hk'. injection Hs' as <-. injection Hk' as <- <-. by rewrite (named_curve_unique _ _ _ Hc Hc').
  - split; [|done]. split; [done|].
    intros [a' prefix' hash' key ps Ha' Hs' _ _ _ _|a' hash' curve' ctx' point' Ha' Hs' Hk'%extract_ec_key_of _ _]; [|congruence].
    apply from_oid_of in Ha, Ha'. subst a a'. destruct (SignatureAlgorithm_from_oid _); by simplify_eq.
Qed.
Lemma verify_tbs_spec t :
  bytes_ok (ts_issuer_spki_der t) →
  (∀ curve point, extract_ec_pubkey (ts_issuer_spki_der t) = Some (curve, point) → ∃ ctx, named_curve curve ctx) →
  (verify_tbs_signature t = Ok tt ↔ tbs_valid t) ∧ verify_tbs_signature t ≠ Panic.
Proof.
  intros Hok Hnamed. unfold verify_tbs_signature. destruct (from_oid_cases (ts_signature_alg_oid t)) as [Ha|Ho].
  - destruct (SignatureAlgorithm_from_oid _) eqn:Hf; try (by eapply verify_rsa_spec); try (by eapply verify_ecdsa_spec). by inversion Ha.
  - rewrite Ho. split; [|done]. split; [done|]. intros [a prefix hash key ps Ha Hs _ _ _ _|a hash curve ctx point Ha Hs _ _ _];
      apply from_oid_of in Ha; rewrite Ho in Ha; subst a; done.
Qed.
End valid.

(** ** Encoded values *)

Section encoded.
Context `{DerCrate} `{!DerLaws} `{ConstOid}.

Definition der_enc (tag : DerTag) (v e : bytes) : Prop := plain_tag tag ∧ tlv (E := unit) (tag_octet tag) v = Ok e.
Lemma der_enc_len tag v e : der_enc tag v e → len v ≤ len e.
Proof.
  intros [_ He]. unfold tlv, BerEncoder_push_tlv in He. apply result_bind_inv_ok in He as (out & _ & [= <-]).
  rewrite len_app. pose proof (len_nonneg out). lia.
Qed.
Lemma der_enc_any tag v e : der_enc tag v e → len e < DER_MAX_LEN → AnyRef_from_der e = Some (mkAnyRef tag v).
Proof. intros [Ht He] Hl. by apply from_der_tlv. Qed.
Lemma der_enc_take tag v e rest : der_enc tag v e → len (e ++ rest) < DER_MAX_LEN → SliceReader_tlv_bytes (e ++ rest) = Some (e, rest).
Proof. intros [Ht He] Hl. by eapply tlv_bytes_tlv. Qed.
Lemma der_enc_next tag v e rest : der_enc tag v e → len (e ++ rest) < DER_MAX_LEN → next_any (e ++ rest) = Some (mkAnyRef tag v, rest).
Proof. intros [Ht He] Hl. by eapply next_any_tlv. Qed.
Lemma der_items (encs : list bytes) : Forall (λ e, ∃ tag v, der_enc tag v e) encs → len (concat encs) < DER_MAX_LEN →
  reader_items (concat encs) = map Some encs.
Proof.
  intros Henc. induction Henc as [|e encs (tag & v & He) _ IH]; intros Hl; [done|]. cbn [concat map] in *.
  rewrite (reader_items_cons _ e (concat encs)) by by eapply der_enc_take. f_equal. apply IH.
  rewrite len_app in Hl. pose proof (len_nonneg e). lia.
Qed.

(** An extension: its identifier, the octet of its BOOLEAN when it has one, its value. *)
Record extension := mkExtension { ext_oid : Oid; ext_critical : option Z; ext_value : bytes }.
Inductive ext_enc (x : extension) : bytes → Prop :=
| ext_enc_plain o v e : ext_critical x = None →
    der_enc Tag_ObjectIdentifier (Oid_as_bytes (ext_oid x)) o → der_enc Tag_OctetString (ext_value x) v →
    der_enc Tag_Sequence (o ++ v) e → ext_enc x e
| ext_enc_critical b o c v e : ext_critical x = Some b →
    der_enc Tag_ObjectIdentifier (Oid_as_bytes (ext_oid x)) o → der_enc Tag_Boolean [b] c → der_enc Tag_OctetString (ext_value x) v →
    der_enc Tag_Sequence (o ++ c ++ v) e → ext_enc x e.
Definition ext_meta (x : extension) : ExtensionMeta :=
  mkExtensionMeta (ext_value x) (match ext_critical x with Some b => negb (b =? 0) | None => false end).

Lemma ext_enc_sequence x e : ext_enc x e → ∃ tag v, der_enc tag v e.
Proof. intros []; by eexists _, _. Qed.
Lemma extension_loop_encoded oid exts encs :
  Forall2 ext_enc exts encs → len (concat encs) < DER_MAX_LEN →
  extension_loop oid (map Some encs) = ext_meta <$> find_map (λ x, if decide (ext_oid x = oid) then Some x else None) exts.
Proof.
  intros Henc. induction Henc as [|x e exts encs Hx _ IH]; intros Hl; [done|]. cbn [concat map extension_loop find_map] in *.
  rewrite len_app in Hl. pose proof (len_nonneg e). pose proof (len_nonneg (concat encs)). specialize (IH ltac:(lia)).
  assert (∀ o rest body, der_enc Tag_ObjectIdentifier (Oid_as_bytes (ext_oid x)) o → body = o ++ rest → der_enc Tag_Sequence body e →
    AnyRef_from_der e = Some (mkAnyRef Tag_Sequence body) ∧ SliceReader_new body = Some body ∧
    next_any body = Some (mkAnyRef Tag_ObjectIdentifier (Oid_as_bytes (ext_oid x)), rest) ∧ len body < DER_MAX_LEN) as Hhead.
  { intros o rest body Ho -> Hs. pose proof (der_enc_len _ _ _ Hs). split; [apply (der_enc_any _ _ _ Hs); lia|].
    split; [apply reader_new_ok; lia|]. split; [apply (der_enc_next _ _ _ _ Ho); lia|lia]. }
  assert (∀ a, negb (bool_decide (Oid_as_bytes (ext_oid x) = Oid_as_bytes a)) = negb (bool_decide (ext_oid x = a))) as Hoid.
  { intros a. f_equal. apply bool_decide_ext. destruct (ext_oid x), a. cbn. split; congruence. }
  destruct Hx as [o v e Hc Ho Hv Hs|b o c v e Hc Ho Hb Hv Hs].
  - destruct (Hhead o v _ Ho eq_refl Hs) as (-> & Hr & Hn & Hbody). cbn [mbind option_bind ar_tag ar_value]. unfold ext_meta at 1.
    rewrite bool_decide_eq_true_2 by done. cbn [negb]. rewrite Hr. cbn [mbind option_bind]. rewrite Hn. cbn [mbind option_bind ar_tag ar_value].
    rewrite bool_decide_eq_true_2, Hoid by done. cbn [negb orb].
    destruct (decide (ext_oid x = oid)) as [Heq|Hne]; [|by rewrite bool_decide_eq_false_2 by done].
    rewrite bool_decide_eq_true_2 by done. cbn [negb]. rewrite len_app in Hbody. pose proof (len_nonneg o).
    rewrite <- (app_nil_r v). rewrite (der_enc_next _ _ _ [] Hv) by (rewrite app_nil_r; lia). cbn [mbind option_bind ar_tag ar_value].
    rewrite bool_decide_eq_false_2 by done. cbn [mbind option_bind ar_tag ar_value]. rewrite bool_decide_eq_true_2 by done.
    cbn [negb fmap option_fmap option_map]. by rewrite Hc.
  - destruct (Hhead o (c ++ v) _ Ho eq_refl Hs) as (-> & Hr & Hn & Hbody). cbn [mbind option_bind ar_tag ar_value]. unfold ext_meta at 1.
    rewrite bool_decide_eq_true_2 by done. cbn [negb]. rewrite Hr. cbn [mbind option_bind]. rewrite Hn. cbn [mbind option_bind ar_tag ar_value].
    rewrite bool_decide_eq_true_2, Hoid by done. cbn [negb orb].
    destruct (decide (ext_oid x = oid)) as [Heq|Hne]; [|by rewrite bool_decide_eq_false_2 by done].
    rewrite bool_decide_eq_true_2 by done. cbn [negb]. rewrite !len_app in Hbody. pose proof (len_nonneg o). pose proof (len_nonneg c).
    rewrite (der_enc_next _ _ _ v Hb) by (rewrite len_app; lia). cbn [mbind option_bind ar_tag ar_value].
    rewrite bool_decide_eq_true_2 by done. rewrite <- (app_nil_r v). rewrite (der_enc_next _ _ _ [] Hv) by (rewrite app_nil_r; lia).
    cbn [mbind option_bind ar_tag ar_value]. rewrite bool_decide_eq_true_2 by done. cbn [negb fmap option_fmap option_map]. by rewrite Hc.
Qed.
Lemma find_extension_encoded oid exts encs :
  Forall2 ext_enc exts encs → len (concat encs) < DER_MAX_LEN →
  find_extension_with_meta (concat encs) oid = ext_meta <$> find_map (λ x, if decide (ext_oid x = oid) then Some x else None) exts.
Proof.
  intros Henc Hl. unfold find_extension_with_meta. rewrite reader_new_ok by done. cbn [mbind option_bind].
  rewrite der_items; [by apply extension_loop_encoded| |done].
  clear Hl. induction Henc as [|x e exts encs Hx _ IH]; constructor; [by eapply ext_enc_sequence|done].
Qed.
End encoded.

(** ** An encoded certificate *)

Section whole.
Context `{DerCrate} `{!DerLaws} `{ConstOid}.

(** The parts of a certificate as RFC 5280 lists them: the encodings of those that are
    kept whole, the contents of the others; [s_others] are the unique identifiers. *)
Record shape := mkShape {
  s_version : option bytes; s_serial : bytes; s_inner_algorithm : bytes; s_issuer : bytes; s_validity : bytes; s_subject : bytes;
  s_spki : bytes; s_others : list bytes; s_extensions : option bytes; s_algorithm : Oid; s_parameters : bytes; s_unused : Z; s_bits : bytes }.

(** Any encoded value. *)
Definition encoded_value (e : bytes) : Prop := ∃ tag v, der_enc tag v e.
Inductive optional_enc (tag : DerTag) : option bytes → bytes → Prop :=
| optional_none : optional_enc tag None []
| optional_some v e : der_enc tag v e → optional_enc tag (Some v) e.
Inductive extensions_enc : option bytes → bytes → Prop :=
| extensions_none : extensions_enc None []
| extensions_some w x e : der_enc Tag_Sequence w x → der_enc EXTENSIONS_TAG x e → extensions_enc (Some w) e.

Inductive tbs_enc (s : shape) (tbs : bytes) : Prop :=
| tbs_enc_intro version serial extensions :
    optional_enc VERSION_TAG (s_version s) version → der_enc Tag_Integer (s_serial s) serial →
    encoded_value (s_inner_algorithm s) → encoded_value (s_issuer s) → encoded_value (s_validity s) → encoded_value (s_subject s) →
    encoded_value (s_spki s) → Forall (λ e, ∃ tag v, tag ≠ EXTENSIONS_TAG ∧ der_enc tag v e) (s_others s) →
    extensions_enc (s_extensions s) extensions →
    der_enc Tag_Sequence (version ++ serial ++ s_inner_algorithm s ++ s_issuer s ++ s_validity s ++ s_subject s ++ s_spki s
                          ++ concat (s_others s) ++ extensions) tbs → tbs_enc s tbs.
Inductive certificate_enc (s : shape) (tbs der : bytes) : Prop :=
| certificate_enc_intro oid algorithm signature :
    tbs_enc s tbs → der_enc Tag_ObjectIdentifier (Oid_as_bytes (s_algorithm s)) oid → Oid_new (Oid_as_bytes (s_algorithm s)) = Ok (s_algorithm s) →
    der_enc Tag_Sequence (oid ++ s_parameters s) algorithm → der_enc Tag_BitString (s_unused s :: s_bits s) signature →
    der_enc Tag_Sequence (tbs ++ algorithm ++ signature) der → certificate_enc s tbs der.

Lemma take_tlv_encoded context e rest : encoded_value e → len (e ++ rest) < DER_MAX_LEN → take_tlv context (e ++ rest) = Ok (e, rest).
Proof. intros (tag & v & He) Hl. unfold take_tlv. by erewrite der_enc_take. Qed.
Lemma as_any_encoded context tag v e : der_enc tag v e → len e < DER_MAX_LEN → as_any context e = Ok (mkAnyRef tag v).
Proof. intros He Hl. unfold as_any. by erewrite der_enc_any. Qed.
Lemma open_reader_ok context v : len v < DER_MAX_LEN → open_reader context v = Ok v.
Proof. intros Hl. unfold open_reader. by rewrite reader_new_ok. Qed.

Lemma trailing_fields_encoded others ext extensions :
  Forall (λ e, ∃ tag v, tag ≠ EXTENSIONS_TAG ∧ der_enc tag v e) others → extensions_enc ext extensions →
  len (concat others ++ extensions) < DER_MAX_LEN →
  trailing_fields (reader_items (concat others ++ extensions)) None = Ok ext.
Proof.
  intros Ho He Hl. induction Ho as [|e others (tag & v & Ht & Hv) _ IH]; cbn [concat app] in *.
  - destruct He as [|w x e Hw Hx]; [done|]. rewrite <- (app_nil_r e) in Hl |- *. rewrite (reader_items_cons _ e []) by by eapply der_enc_take.
    cbn [reader_items reader_items_fuel trailing_fields ok_or result_bind length]. rewrite app_nil_r in Hl. pose proof (der_enc_len _ _ _ Hx).
    rewrite (as_any_encoded _ _ _ _ Hx) by done. cbn [result_bind ar_tag ar_value]. rewrite bool_decide_eq_true_2 by done.
    rewrite (as_any_encoded _ _ _ _ Hw) by lia. done.
  - rewrite <- app_assoc in Hl |- *. rewrite (reader_items_cons _ e (concat others ++ extensions)) by by eapply der_enc_take.
    cbn [trailing_fields ok_or result_bind]. rewrite len_app in Hl. pose proof (len_nonneg e). pose proof (len_nonneg (concat others ++ extensions)).
    rewrite (as_any_encoded _ _ _ _ Hv) by lia. cbn [result_bind ar_tag ar_value]. rewrite bool_decide_eq_false_2 by done. apply IH. lia.
Qed.

Definition shape_certificate (s : shape) (tbs der : bytes) (times : DerDateTime * DerDateTime) (spki : SpkiDer) : Certificate :=
  mkCertificate der tbs (s_serial s) (mkName (s_issuer s)) (mkName (s_subject s)) times.1 times.2 spki (s_extensions s) (s_algorithm s) (s_bits s).

Lemma parse_tbs_encoded s tbs raw times spki :
  tbs_enc s tbs → len tbs < DER_MAX_LEN → Validity_from_der (s_validity s) = Some times → SpkiDer_try_from (s_spki s) = Ok spki →
  parse_tbs tbs raw (s_algorithm s) (s_bits s) = Ok (shape_certificate s tbs raw times spki).
Proof.
  intros [version serial extensions Hver Hser Halg Hiss Hval Hsub Hspki Hoth Hext Htbs] Hl Htimes Hkey.
  unfold parse_tbs. rewrite (as_any_encoded _ _ _ _ Htbs) by done. cbn [result_bind ar_tag ar_value]. rewrite bool_decide_eq_true_2 by done. cbn [negb].
  pose proof (der_enc_len _ _ _ Htbs) as Hbody. set (body := version ++ _) in *.
  rewrite open_reader_ok by lia. cbn [result_bind].
  set (r7 := concat (s_others s) ++ extensions) in *. set (r6 := s_spki s ++ r7) in *. set (r5 := s_subject s ++ r6) in *.
  set (r4 := s_validity s ++ r5) in *. set (r3 := s_issuer s ++ r4) in *. set (r2 := s_inner_algorithm s ++ r3) in *.
  assert (len (serial ++ r2) < DER_MAX_LEN ∧ len serial < DER_MAX_LEN ∧ len r2 < DER_MAX_LEN ∧ len r3 < DER_MAX_LEN ∧ len r4 < DER_MAX_LEN ∧ len r5 < DER_MAX_LEN ∧ len r6 < DER_MAX_LEN ∧ len r7 < DER_MAX_LEN ∧ len version < DER_MAX_LEN ∧ len body < DER_MAX_LEN)
    as (L1 & L1' & L2 & L3 & L4 & L5 & L6 & L7 & L8 & L9).
  { subst body r2 r3 r4 r5 r6. rewrite !len_app in *. pose proof (len_nonneg version). pose proof (len_nonneg serial). pose proof (len_nonneg (s_inner_algorithm s)).
    pose proof (len_nonneg (s_issuer s)). pose proof (len_nonneg (s_validity s)). pose proof (len_nonneg (s_subject s)). pose proof (len_nonneg (s_spki s)). pose proof (len_nonneg r7). lia. }
  set (rest := λ '((serial_any, reader) : AnyRef * bytes), _ : result X509Error Certificate).
  assert (rest (mkAnyRef Tag_Integer (s_serial s), r2) = Ok (shape_certificate s tbs raw times spki)) as Hrest.
  { unfold rest. unfold r2. rewrite (take_tlv_encoded _ _ r3) by done. cbn [result_bind]. unfold r3. rewrite (take_tlv_encoded _ _ r4) by done. cbn [result_bind].
    unfold r4. rewrite (take_tlv_encoded _ _ r5) by done. cbn [result_bind]. rewrite Htimes. destruct times as [nb na]. cbn [ok_or result_bind].
    unfold r5. rewrite (take_tlv_encoded _ _ r6) by done. cbn [result_bind]. unfold r6. rewrite (take_tlv_encoded _ _ r7) by done. cbn [result_bind].
    rewrite Hkey. cbn [result_bind]. unfold r7. by rewrite (trailing_fields_encoded _ (s_extensions s)). }
  assert (encoded_value serial) as Hserial by by eexists _, _.
  destruct Hver as [|v e Hv]; subst body.
  - cbn [app] in *. rewrite (take_tlv_encoded _ _ r2) by done. cbn [result_bind]. rewrite (as_any_encoded _ _ _ _ Hser) by done. cbn [result_bind ar_tag].
    rewrite bool_decide_eq_false_2 by done. cbn [result_bind]. exact Hrest.
  - rewrite (take_tlv_encoded _ _ (serial ++ r2)) by (done || by eexists _, _). cbn [result_bind]. rewrite (as_any_encoded _ _ _ _ Hv) by done.
    cbn [result_bind ar_tag]. rewrite bool_decide_eq_true_2 by done. rewrite (take_tlv_encoded _ _ r2) by done. cbn [result_bind].
    rewrite (as_any_encoded _ _ _ _ Hser) by done. cbn [result_bind]. exact Hrest.
Qed.
Lemma Certificate_encoded s tbs der times spki :
  certificate_enc s tbs der → len der < DER_MAX_LEN → Validity_from_der (s_validity s) = Some times → SpkiDer_try_from (s_spki s) = Ok spki →
  Certificate_from_der der = Ok (shape_certificate s tbs der times spki).
Proof.
  intros [oid algorithm signature Htbs Hoid Hnew Halg Hsig Hder] Hl Htimes Hkey. unfold Certificate_from_der.
  rewrite (as_any_encoded _ _ _ _ Hder) by done. cbn [result_bind ar_tag ar_value]. rewrite bool_decide_eq_true_2 by done. cbn [negb].
  pose proof (der_enc_len _ _ _ Hder) as Hbody. rewrite !len_app in Hbody. pose proof (len_nonneg tbs). pose proof (len_nonneg algorithm). pose proof (len_nonneg signature).
  rewrite open_reader_ok by (rewrite !len_app; lia). cbn [result_bind].
  rewrite (take_tlv_encoded _ tbs) by ((destruct Htbs; by eexists _, _) || (rewrite !len_app; lia)). cbn [result_bind].
  rewrite (take_tlv_encoded _ algorithm) by ((by eexists _, _) || (rewrite !len_app; lia)). cbn [result_bind].
  rewrite <- (app_nil_r signature). rewrite (take_tlv_encoded _ signature) by ((by eexists _, _) || (rewrite !len_app; change (len []) with 0; lia)). cbn [result_bind].
  rewrite (as_any_encoded _ _ _ _ Halg) by lia. cbn [result_bind ar_value]. pose proof (der_enc_len _ _ _ Halg) as Halgl.
  rewrite open_reader_ok by lia. cbn [result_bind]. rewrite (take_tlv_encoded _ oid) by ((by eexists _, _) || lia). cbn [result_bind].
  rewrite len_app in Halgl. pose proof (len_nonneg oid). pose proof (len_nonneg (s_parameters s)).
  rewrite (as_any_encoded _ _ _ _ Hoid) by lia. cbn [result_bind ar_value]. rewrite Hnew. cbn [map_err result_bind].
  rewrite (as_any_encoded _ _ _ _ Hsig) by lia. cbn [result_bind ar_value]. apply parse_tbs_encoded; done || lia.
Qed.
End whole.

(** ** What a certificate says *)

(** C28: A certificate is read as RFC 5280 lays it out. Parsing the DER of a certificate gives
    back its serial, names, times, key, extensions, algorithm and signature, whatever
    identifiers stand between the key and the extensions; and looking an identifier up in
    the extensions gives the value of the first extension that has it, with the truth of
    its BOOLEAN, false when it has none. The algorithm inside the signed part is read past:
    it may be any encoded value, the one kept is the outer one, and nothing compares the
    two, although the comment on [parse_tbs] says that its caller has. *)
Theorem certificate_fields_exact `{DerCrate} `{!DerLaws} `{ConstOid} s tbs der times spki :
  certificate_enc s tbs der → len der < DER_MAX_LEN → Validity_from_der (s_validity s) = Some times → SpkiDer_try_from (s_spki s) = Ok spki →
  Certificate_from_der der = Ok (shape_certificate s tbs der times spki) ∧
  ∀ exts encs oid, s_extensions s = Some (concat encs) → Forall2 ext_enc exts encs →
    find_extension_with_meta (concat encs) oid = ext_meta <$> find_map (λ x, if decide (ext_oid x = oid) then Some x else None) exts.
Proof.
  intros Henc Hl Htimes Hspki. pose proof (Certificate_encoded s tbs der times spki Henc Hl Htimes Hspki) as Hc. split; [done|].
  intros exts encs oid Hs Hexts. apply find_extension_encoded; [done|].
  destruct (Certificate_within _ _ Hc) as (_ & (a & b & Hd) & _ & (_ & _ & _ & _ & _ & Hw & _) & _). destruct (Hw (concat encs) Hs) as (a' & b' & Ht).
  cbn [shape_certificate cert_tbs_der] in Hd, Ht. rewrite Hd, Ht, !len_app in Hl.
  pose proof (len_nonneg a). pose proof (len_nonneg a'). pose proof (len_nonneg b). pose proof (len_nonneg b'). lia.
Qed.


(** ** A certificate *)

Module sample_certificate.
Import ber_der dotted_texts monty flat.

Definition enc (tag : DerTag) (v : bytes) : bytes := match tlv (E := unit) (tag_octet tag) v with Ok e => e | _ => [] end.
Definition rsa_spki : bytes :=
  enc Tag_Sequence
    (enc Tag_Sequence (enc Tag_ObjectIdentifier (Oid_as_bytes RSA_ENCRYPTION) ++ enc Tag_Null [])
     ++ enc Tag_BitString (0 :: enc Tag_Sequence
          (enc Tag_Integer (0 :: RsaModulus_0 (rsa_modulus sample_key.key)) ++ enc Tag_Integer (RsaPublicExponent_0 (rsa_exponent sample_key.key))))).
Definition name_of (cn : string) : bytes :=
  enc Tag_Sequence (enc Tag_Set (enc Tag_Sequence (enc Tag_ObjectIdentifier (Oid_as_bytes COMMON_NAME) ++ enc Tag_Utf8String (bytes_of_string cn)))).
Definition validity : bytes :=
  enc Tag_Sequence (enc Tag_UtcTime (bytes_of_string "240101000000Z") ++ enc Tag_UtcTime (bytes_of_string "340101000000Z")).
Definition key_usage : extension := mkExtension KEY_USAGE (Some 0xFF) [0x03; 0x02; 0x06; 0x40].
Definition basic : extension := mkExtension BASIC_CONSTRAINTS None [0x30; 0x00].
Definition extension_bytes (x : extension) : bytes :=
  enc Tag_Sequence (enc Tag_ObjectIdentifier (Oid_as_bytes (ext_oid x))
    ++ match ext_critical x with Some b => enc Tag_Boolean [b] | None => [] end ++ enc Tag_OctetString (ext_value x)).
Definition encs : list bytes := [extension_bytes key_usage; extension_bytes basic].
Definition the_shape : shape :=
  mkShape (Some (enc Tag_Integer [2])) [0x12; 0x34]
    (enc Tag_Sequence (enc Tag_ObjectIdentifier (Oid_as_bytes SHA256_WITH_RSA) ++ enc Tag_Null []))
    (name_of "Example CA") validity (name_of "Holder") rsa_spki [] (Some (concat encs))
    SHA256_WITH_RSA (enc Tag_Null []) 0 sample_key.zero_digest_signature.
Definition tbs : bytes :=
  enc Tag_Sequence (enc VERSION_TAG (default [] (s_version the_shape)) ++ enc Tag_Integer (s_serial the_shape) ++ s_inner_algorithm the_shape
    ++ s_issuer the_shape ++ s_validity the_shape ++ s_subject the_shape ++ s_spki the_shape ++ enc EXTENSIONS_TAG (enc Tag_Sequence (concat encs))).
Definition der : bytes :=
  enc Tag_Sequence (tbs ++ enc Tag_Sequence (enc Tag_ObjectIdentifier (Oid_as_bytes SHA256_WITH_RSA) ++ enc Tag_Null [])
    ++ enc Tag_BitString (0 :: sample_key.zero_digest_signature)).
Lemma enc_encoded tag v : plain_tag tag → (len v <=? u32_max) = true → der_enc tag v (enc tag v).
Proof.
  intros Ht Hl%Z.leb_le. split; [done|]. unfold enc. by destruct (@tlv_ok unit (tag_octet tag) v Hl) as (lb & -> & _).
Qed.
Ltac encoded := apply enc_encoded; [done || (cbn; lia)|by vm_compute].
Lemma der_encoded : certificate_enc the_shape tbs der.
Proof.
  eapply certificate_enc_intro; [|encoded|by vm_compute|encoded|encoded|encoded].
  eapply tbs_enc_intro; [apply optional_some; encoded|encoded|..|constructor|eapply extensions_some; encoded|encoded].
  all: exists Tag_Sequence; eexists; encoded.
Qed.
Lemma exts_encoded : Forall2 ext_enc [key_usage; basic] encs.
Proof. constructor; [eapply ext_enc_critical; done || encoded|]. constructor; [eapply ext_enc_plain; done || encoded|constructor]. Qed.
Lemma spki_parsed : ∃ spki, SpkiDer_try_from rsa_spki = Ok spki ∧ SpkiDer_algorithm spki = Pka_Rsa 512 ∧ SpkiDer_as_der spki = rsa_spki.
Proof. eexists. split; [by vm_compute|]. split; [done|by vm_compute]. Qed.
End sample_certificate.

Import ber_der dotted_texts monty flat.

Lemma certificate_fields_exact_witness :
  ∃ spki, Certificate_from_der sample_certificate.der =
    Ok (shape_certificate sample_certificate.the_shape sample_certificate.tbs sample_certificate.der (0, 4000000000) spki) ∧
  SpkiDer_algorithm spki = Pka_Rsa 512 ∧
  find_extension_with_meta (concat sample_certificate.encs) KEY_USAGE = Some (mkExtensionMeta [0x03; 0x02; 0x06; 0x40] true).
Proof.
  destruct sample_certificate.spki_parsed as (spki & Hs & Ha & _). exists spki.
  destruct (certificate_fields_exact sample_certificate.the_shape sample_certificate.tbs sample_certificate.der (0, 4000000000) spki
    sample_certificate.der_encoded ltac:(by vm_compute) ltac:(by vm_compute) Hs) as [Hc Hext].
  split; [exact Hc|]. split; [exact Ha|].
  rewrite (Hext [sample_certificate.key_usage; sample_certificate.basic] sample_certificate.encs KEY_USAGE eq_refl sample_certificate.exts_encoded).
  by vm_compute.
Defined.

