(* ===== verification/Cms.v ===== *)
(** crates/refineid-lib-core/src/cms.rs: the SignedData of CMS as passive authentication
    needs it, its parsing from the wrappings in use, the verification of its first signer,
    and the table of hashes it carries for a travel document. *)

From S2P Require Import Prelude Oid Ber Der CryptoCrates Rsa Ecdsa X509.

Definition EfSodWrapper : Z := 0x77.
Definition Asn1ContentExplicit0 : Z := 0xA0.

Inductive HashAlgorithm := Ha_Sha256 | Ha_Sha384 | Ha_Sha512.
#[export] Instance HashAlgorithm_eq_dec : EqDecision HashAlgorithm.
Proof. solve_decision. Defined.
Definition HashAlgorithm_from_oid `{ConstOid} (oid : bytes) : option HashAlgorithm :=
  if bool_decide (oid = Oid_as_bytes SHA256) then Some Ha_Sha256
  else if bool_decide (oid = Oid_as_bytes SHA384) then Some Ha_Sha384
  else if bool_decide (oid = Oid_as_bytes SHA512) then Some Ha_Sha512
  else None.
Definition HashAlgorithm_digest `{Sha256Hash} `{Sha2Hashes} (h : HashAlgorithm) (data : bytes) : bytes :=
  match h with Ha_Sha256 => sha256 data | Ha_Sha384 => sha384 data | Ha_Sha512 => sha512 data end.
Definition HashAlgorithm_label (h : HashAlgorithm) : bytes :=
  bytes_of_string match h with Ha_Sha256 => "SHA-256" | Ha_Sha384 => "SHA-384" | Ha_Sha512 => "SHA-512" end.

Inductive CmsError :=
| Cms_Ber (e : BerError)
| Cms_UnexpectedStructure (s : string)
| Cms_UnsupportedDigestAlgorithm
| Cms_UnsupportedSignatureAlgorithm
| Cms_BadSignerKey
| Cms_SignerHashMismatch
| Cms_DetachedNotSupported
| Cms_Rsa (e : RsaVerifyError)
| Cms_Ecdsa (e : EcdsaError).

Record SignerInfo := mkSignerInfo {
  digest_algorithm_oid : Oid; signature_algorithm_oid : Oid; si_signature : bytes;
  signed_data_to_verify : option bytes; message_digest : option bytes }.
Record SignedData := mkSignedData {
  econtent_type_oid : Oid; econtent_der : bytes; certificates_der : list bytes; sd_signer : SignerInfo }.

(** ** Reading the values *)

(** [it.next().ok_or(e)??]. *)
Definition cms_next (e : CmsError) (it : bytes) : result CmsError (BerTlvAny * bytes) :=
  let '(item, rest) := BerTlvIter_next it in
  let? item := ok_or item e in
  let? t := map_err Cms_Ber item in
  Ok (t, rest).
(** [.expect::<T>().or(Err(e))?]. *)
Definition cms_expect (tag : Z) (e : CmsError) (t : BerTlvAny) : result CmsError BerTlvAny := map_err (λ _, e) (BerTlvAny_expect tag t).
(** [BerTlv::<T>::parse(..)?], and with an error of its own. *)
Definition cms_parse (tag : Z) (bs : bytes) : result CmsError BerTlvAny := map_err Cms_Ber (BerTlv_parse tag bs).
Definition cms_parse_or (tag : Z) (e : CmsError) (bs : bytes) : result CmsError BerTlvAny := map_err (λ _, e) (BerTlv_parse tag bs).
Definition cms_oid (e : CmsError) (value : bytes) : result CmsError Oid := map_err (λ _, e) (Oid_new value).
Definition unexpected (s : string) : CmsError := Cms_UnexpectedStructure s.

Section parse.
Context `{ConstOid}.

Definition decode_content_info (input : bytes) : result CmsError bytes :=
  let? outer := cms_parse Sequence_TAG input in
  let? (oid, it) := cms_next (unexpected "ContentInfo missing OID") (any_value outer) in
  let? oid := cms_expect Oid_TAG (unexpected "ContentInfo OID malformed") oid in
  if negb (bool_decide (any_value oid = Oid_as_bytes SIGNED_DATA)) then Err (unexpected "ContentInfo not SignedData")
  else
    let? (explicit, _) := cms_next (unexpected "ContentInfo missing [0] EXPLICIT") it in
    let? explicit := cms_expect Asn1ContentExplicit0 (unexpected "ContentInfo content tag not [0] EXPLICIT") explicit in
    let? inner_sd := cms_parse Sequence_TAG (any_value explicit) in
    Ok (any_value inner_sd).

(** The certificates one after the other, until one is no SEQUENCE. *)
Fixpoint collect_certificates (fuel : nat) (tail : bytes) : list bytes :=
  match fuel, tail with
  | O, _ | _, [] => []
  | S fuel, _ =>
      match BerTlv_parse Sequence_TAG tail with
      | Ok cert_tlv =>
          match zslice 0 (any_size cert_tlv) tail with
          | Some cert_slice => cert_slice :: collect_certificates fuel (drop (Z.to_nat (any_size cert_tlv)) tail)
          | None => []
          end
      | _ => []
      end
  end.
Fixpoint signed_data_fields (items : list (result BerError BerTlvAny)) (certificates : list bytes) (signers : option bytes)
    : result CmsError (list bytes * option bytes) :=
  match items with
  | [] => Ok (certificates, signers)
  | item :: items =>
      let? t := map_err Cms_Ber item in
      if any_tag t =? Asn1ContentExplicit0 then
        signed_data_fields items (certificates ++ collect_certificates (length (any_value t)) (any_value t)) signers
      else if any_tag t =? Set_TAG then signed_data_fields items certificates (Some (any_value t))
      else signed_data_fields items certificates signers
  end.

(** ** The signer *)

Fixpoint all_children (items : list (result BerError BerTlvAny)) : result CmsError (list BerTlvAny) :=
  match items with
  | [] => Ok []
  | item :: items => let? t := map_err Cms_Ber item in let? rest := all_children items in Ok (t :: rest)
  end.
(** One attribute: its identifier and the contents of its values, when it has the shape. *)
Definition attribute_of (attr : BerTlvAny) : result CmsError (option (bytes * bytes)) :=
  match BerTlvAny_expect Sequence_TAG attr with
  | Err _ => Ok None
  | Panic => Panic
  | Ok attr =>
      let? (oid, ait) := cms_next (unexpected "signedAttr missing OID") (any_value attr) in
      match BerTlvAny_expect Oid_TAG oid with
      | Err _ => Ok None
      | Panic => Panic
      | Ok oid =>
          let? (values, _) := cms_next (unexpected "signedAttr missing values") ait in
          match BerTlvAny_expect Set_TAG values with
          | Err _ => Ok None
          | Panic => Panic
          | Ok values => Ok (Some (any_value oid, any_value values))
          end
      end
  end.
Fixpoint find_message_digest (items : list (result BerError BerTlvAny)) (found : option bytes) : result CmsError (option bytes) :=
  match items with
  | [] => Ok found
  | item :: items =>
      let? attr := map_err Cms_Ber item in
      let? a := attribute_of attr in
      find_message_digest items
        (match a with
         | Some (oid, values) =>
             if bool_decide (oid = Oid_as_bytes MESSAGE_DIGEST) then
               match BerTlv_parse OctetString_TAG values with Ok inner => Some (any_value inner) | _ => found end
             else found
         | None => found
         end)
  end.

Definition signer_child (children : list BerTlvAny) (i : nat) (e : CmsError) : result CmsError BerTlvAny := ok_or (children !! i) e.
Definition parse_signer_info (body : bytes) : result CmsError SignerInfo :=
  let? children := all_children (BerTlvIter_items body) in
  let missing := unexpected "signerInfo missing required children" in
  let? digest_alg := signer_child children 2 missing in
  let? digest_alg_seq := cms_expect Sequence_TAG (unexpected "digestAlgorithm not SEQUENCE") digest_alg in
  let? digest_oid_tlv := cms_parse_or Oid_TAG (unexpected "digestAlgorithm OID missing") (any_value digest_alg_seq) in
  let? digest_oid := cms_oid (unexpected "digestAlgorithm OID malformed") (any_value digest_oid_tlv) in
  let? at_3 := signer_child children 3 missing in
  let signed_attrs_value := if any_tag at_3 =? Asn1ContentExplicit0 then Some (any_value at_3) else None in
  let signature_alg_idx := if any_tag at_3 =? Asn1ContentExplicit0 then 4%nat else 3%nat in
  let? sig_alg := signer_child children signature_alg_idx (unexpected "signerInfo missing signature material") in
  let? sig_alg_seq := cms_expect Sequence_TAG (unexpected "signatureAlgorithm not SEQUENCE") sig_alg in
  let? sig_alg_oid_tlv := cms_parse_or Oid_TAG (unexpected "signatureAlgorithm OID missing") (any_value sig_alg_seq) in
  let? sig_alg_oid := cms_oid (unexpected "signatureAlgorithm OID malformed") (any_value sig_alg_oid_tlv) in
  let? sig := signer_child children (S signature_alg_idx) (unexpected "signerInfo missing signature material") in
  let? sig_octet := cms_expect OctetString_TAG (unexpected "signature not OCTET STRING") sig in
  match signed_attrs_value with
  | None => Ok (mkSignerInfo digest_oid sig_alg_oid (any_value sig_octet) None None)
  | Some attrs_value =>
      let? rebuilt := tlv Set_TAG attrs_value in
      let? md := find_message_digest (BerTlvIter_items attrs_value) None in
      Ok (mkSignerInfo digest_oid sig_alg_oid (any_value sig_octet) (Some rebuilt) md)
  end.

Definition parse_signed_data_body (body : bytes) : result CmsError SignedData :=
  let? (_, it) := cms_next (unexpected "SignedData missing version") body in
  let? (_, it) := cms_next (unexpected "SignedData missing digestAlgorithms") it in
  let? (encap, it) := cms_next (unexpected "SignedData missing encapContentInfo") it in
  let? (econtent_type, e_it) := cms_next (unexpected "encap missing eContentType") (any_value encap) in
  let? econtent_type := cms_expect Oid_TAG (unexpected "eContentType not OID") econtent_type in
  let? type_oid := cms_oid (unexpected "eContentType OID malformed") (any_value econtent_type) in
  let? (explicit, _) := cms_next Cms_DetachedNotSupported e_it in
  let? explicit := cms_expect Asn1ContentExplicit0 Cms_DetachedNotSupported explicit in
  let? octet := cms_parse OctetString_TAG (any_value explicit) in
  let? (certificates, signers) := signed_data_fields (BerTlvIter_items it) [] None in
  let? signer_infos := ok_or signers (unexpected "SignedData missing signerInfos") in
  let? signer_tlv := cms_parse_or Sequence_TAG (unexpected "signerInfo not SEQUENCE") signer_infos in
  let? signer := parse_signer_info (any_value signer_tlv) in
  Ok (mkSignedData type_oid (any_value octet) certificates signer).

(** The contents of the SignedData behind the wrapping [first] announces. *)
Definition signed_data_body (first : Z) (input : bytes) : result CmsError bytes :=
  if first =? EfSodWrapper then
    let? outer := cms_parse EfSodWrapper input in decode_content_info (any_value outer)
  else if first =? Sequence_TAG then
    let? outer := cms_parse Sequence_TAG input in
    let? (first_any, it) := cms_next (unexpected "empty") (any_value outer) in
    if (any_tag first_any =? Oid_TAG) && bool_decide (any_value first_any = Oid_as_bytes SIGNED_DATA) then
      let? (explicit, _) := cms_next (unexpected "missing [0] EXPLICIT") it in
      let? explicit := cms_expect Asn1ContentExplicit0 (unexpected "expected [0] EXPLICIT") explicit in
      let? inner_sd := cms_parse Sequence_TAG (any_value explicit) in
      Ok (any_value inner_sd)
    else Ok (any_value outer)
  else Err (unexpected "unknown wrapper tag").
Definition SignedData_parse (input : bytes) : result CmsError SignedData :=
  match input with
  | [] => Err (unexpected "empty input")
  | first :: _ => let? body := signed_data_body first input in parse_signed_data_body body
  end.
End parse.

(** ** The verification *)

Section verify.
Context `{DerCrate} `{ConstOid} `{BoxedMonty} `{Sha1Hash} `{Sha256Hash} `{Sha2Hashes}.

Definition rsa_verify_with_hash (key : RsaPublicKey) (hash : HashAlgorithm) (payload signature : bytes) : result CmsError unit :=
  map_err Cms_Rsa
    match hash with
    | Ha_Sha256 => verify_pkcs1v15_sha256 key payload signature
    | Ha_Sha384 => verify_pkcs1v15_sha384 key payload signature
    | Ha_Sha512 => verify_pkcs1v15_sha512 key payload signature
    end.
Definition hash_for_rsa (oid : bytes) (fallback : HashAlgorithm) : option HashAlgorithm :=
  if bool_decide (oid = Oid_as_bytes SHA256_WITH_RSA) then Some Ha_Sha256
  else if bool_decide (oid = Oid_as_bytes SHA384_WITH_RSA) then Some Ha_Sha384
  else if bool_decide (oid = Oid_as_bytes SHA512_WITH_RSA) then Some Ha_Sha512
  else if bool_decide (oid = Oid_as_bytes RSA_ENCRYPTION) then Some fallback
  else None.
Definition hash_for_ecdsa (oid : bytes) (fallback : HashAlgorithm) : option HashAlgorithm :=
  if bool_decide (oid = Oid_as_bytes ECDSA_WITH_SHA256) then Some Ha_Sha256
  else if bool_decide (oid = Oid_as_bytes ECDSA_WITH_SHA384) then Some Ha_Sha384
  else if bool_decide (oid = Oid_as_bytes ECDSA_WITH_SHA512) then Some Ha_Sha512
  else if bool_decide (oid = Oid_as_bytes EC_PUBLIC_KEY) then Some fallback
  else None.

Record SignatureDispatch := mkSignatureDispatch {
  d_sig_alg_oid : Oid; d_fallback : HashAlgorithm; d_signer_spki_der : bytes; d_payload : bytes; d_signature : bytes }.
Definition verify_dispatch (d : SignatureDispatch) : result CmsError unit :=
  match hash_for_rsa (Oid_as_bytes (d_sig_alg_oid d)) (d_fallback d) with
  | Some hash =>
      let? key := ok_or (extract_rsa_public_key (d_signer_spki_der d)) Cms_BadSignerKey in
      rsa_verify_with_hash key hash (d_payload d) (d_signature d)
  | None =>
      match hash_for_ecdsa (Oid_as_bytes (d_sig_alg_oid d)) (d_fallback d) with
      | Some hash =>
          let? (curve, pubkey) := ok_or (extract_ec_pubkey (d_signer_spki_der d)) Cms_BadSignerKey in
          map_err Cms_Ecdsa (verify_prehashed curve pubkey (d_signature d) (HashAlgorithm_digest hash (d_payload d)))
      | None => Err Cms_UnsupportedSignatureAlgorithm
      end
  end.

Definition SignedData_verify (sd : SignedData) (signer_spki_der : bytes) : result CmsError unit :=
  let? digest_alg := ok_or (HashAlgorithm_from_oid (Oid_as_bytes (digest_algorithm_oid (sd_signer sd)))) Cms_UnsupportedDigestAlgorithm in
  if match message_digest (sd_signer sd) with
     | Some md => negb (bool_decide (HashAlgorithm_digest digest_alg (econtent_der sd) = md))
     | None => false
     end
  then Err Cms_SignerHashMismatch
  else
    let payload := default (econtent_der sd) (signed_data_to_verify (sd_signer sd)) in
    verify_dispatch (mkSignatureDispatch (signature_algorithm_oid (sd_signer sd)) digest_alg signer_spki_der payload (si_signature (sd_signer sd))).

(** ** The table of hashes *)

Record LdsSecurityObject := mkLdsSecurityObject { lds_hash_algorithm : HashAlgorithm; data_group_hashes : list (Z * bytes) }.
Fixpoint data_groups (items : list (result BerError BerTlvAny)) : result CmsError (list (Z * bytes)) :=
  match items with
  | [] => Ok []
  | item :: items =>
      let? dg := map_err Cms_Ber item in
      let? entry :=
        (match BerTlvAny_expect Sequence_TAG dg with
         | Err _ => Ok None
         | Panic => Panic
         | Ok dg =>
             let? (num_tlv, dit) := cms_next (unexpected "DG hash missing number") (any_value dg) in
             match BerTlvAny_expect Integer_TAG num_tlv with
             | Err _ => Ok None
             | Panic => Panic
             | Ok num_tlv =>
                 let num := u32_of_octets (any_value num_tlv) in
                 let? (hash_tlv, _) := cms_next (unexpected "DG hash missing OCTET STRING") dit in
                 match BerTlvAny_expect OctetString_TAG hash_tlv with
                 | Err _ => Ok None
                 | Panic => Panic
                 | Ok hash_tlv => Ok (Some (num, any_value hash_tlv))
                 end
             end
         end) in
      let? rest := data_groups items in
      Ok (match entry with Some e => e :: rest | None => rest end)
  end.
Definition LdsSecurityObject_parse (der : bytes) : result CmsError LdsSecurityObject :=
  let? outer := cms_parse Sequence_TAG der in
  let? (_, it) := cms_next (unexpected "LDSSecurityObject missing version") (any_value outer) in
  let? (hash_alg, it) := cms_next (unexpected "LDSSecurityObject missing hashAlgorithm") it in
  let? hash_alg_seq := cms_expect Sequence_TAG (unexpected "hashAlgorithm not SEQUENCE") hash_alg in
  let? hash_oid_tlv := cms_parse_or Oid_TAG (unexpected "hashAlgorithm OID missing") (any_value hash_alg_seq) in
  let? hash_algorithm := ok_or (HashAlgorithm_from_oid (any_value hash_oid_tlv)) Cms_UnsupportedDigestAlgorithm in
  let? (dgh, _) := cms_next (unexpected "LDSSecurityObject missing dataGroupHashValues") it in
  let? dgh_seq := cms_expect Sequence_TAG (unexpected "dataGroupHashValues not SEQUENCE") dgh in
  let? hashes := data_groups (BerTlvIter_items (any_value dgh_seq)) in
  Ok (mkLdsSecurityObject hash_algorithm hashes).

(** ** The owned and the verified forms *)

Record OwnedSignedData := mkOwnedSignedData { OwnedSignedData_as_der : bytes }.
Definition OwnedSignedData_from_der (der : bytes) : result CmsError OwnedSignedData :=
  let? _ := SignedData_parse der in Ok (mkOwnedSignedData der).
(** [expect]: what does not parse panics. *)
Definition OwnedSignedData_view {E} (o : OwnedSignedData) : result E SignedData :=
  match SignedData_parse (OwnedSignedData_as_der o) with Ok sd => Ok sd | _ => Panic end.
Record OwnedLdsSecurityObject := mkOwnedLds { OwnedLds_as_der : bytes }.
Definition OwnedLds_from_der (der : bytes) : result CmsError OwnedLdsSecurityObject :=
  let? _ := LdsSecurityObject_parse der in Ok (mkOwnedLds der).
Definition OwnedLds_view {E} (o : OwnedLdsSecurityObject) : result E LdsSecurityObject :=
  match LdsSecurityObject_parse (OwnedLds_as_der o) with Ok l => Ok l | _ => Panic end.

Record VerifiedSignedData := mkVerifiedSignedData { vsd_signed_data : SignedData }.
Definition VerifiedSignedData_verify (sd : SignedData) (signer_spki : SpkiDer) : result CmsError VerifiedSignedData :=
  let? _ := SignedData_verify sd (SpkiDer_as_der signer_spki) in Ok (mkVerifiedSignedData sd).
Definition lds_security_object (v : VerifiedSignedData) : result CmsError LdsSecurityObject :=
  LdsSecurityObject_parse (econtent_der (vsd_signed_data v)).
End verify.

(** ** Where the values are *)

Lemma BerTlvIter_items_next v :
  BerTlvIter_items v = match BerTlvIter_next v with (None, _) => [] | (Some item, rest) => item :: BerTlvIter_items rest end.
Proof.
  unfold BerTlvIter_items at 1. rewrite BerTlvIter_collect_S. destruct (BerTlvIter_next v) as [[item|] rest] eqn:Hn; [|done].
  apply BerTlvIter_next_shrinks in Hn. unfold BerTlvIter_items.
  destruct (BerTlvIter_collect_total (S (length rest)) rest) as [items Hi]; [lia|].
  rewrite (BerTlvIter_collect_mono _ _ _ _ Hi), Hi by lia. done.
Qed.
Lemma ber_value_within bs t : BerTlvAny_parse bs = Ok t → within_bytes (any_value t) bs.
Proof. intros (tb & lb & rest & -> & _)%BerTlvAny_parse_sound. exists (tb ++ lb), rest. by rewrite <- !app_assoc. Qed.
Lemma ber_next_within v item rest :
  BerTlvIter_next v = (Some item, rest) → item ≠ Panic ∧ (∀ t, item = Ok t → within_bytes (any_value t) v ∧ within_bytes rest v).
Proof.
  destruct v as [|b v]; [done|]. unfold BerTlvIter_next. destruct (BerTlvAny_parse (b :: v)) as [t|e|] eqn:Hp; intros [= <- <-].
  - split; [done|]. intros t' [= <-]. split; [by apply ber_value_within|].
    destruct (zslice _ _ _) as [s|] eqn:Hs; cbn; [|exists (b :: v), []; by rewrite app_nil_r].
    apply zslice_Some in Hs as (x & y & -> & _ & _). by exists x, y.
  - split; [done|]. by intros t'.
  - by destruct (BerTlvAny_parse_no_panic (b :: v)).
Qed.
Lemma ber_item_within v item : item ∈ BerTlvIter_items v → item ≠ Panic ∧ (∀ t, item = Ok t → within_bytes (any_value t) v).
Proof.
  remember (length v) as n eqn:Hn. revert v Hn. induction n as [n IH] using lt_wf_ind. intros v ->.
  rewrite BerTlvIter_items_next. destruct (BerTlvIter_next v) as [[i|] rest] eqn:Hv; [|by intros ?%not_elem_of_nil].
  pose proof (ber_next_within _ _ _ Hv) as [Hp Hw]. intros [->|Hin]%elem_of_cons; [split; [done|]; intros t Ht; by apply Hw|].
  destruct (IH (length rest) ltac:(by eapply BerTlvIter_next_shrinks) rest eq_refl Hin) as [Hp' Hw']. split; [done|].
  intros t Ht. etrans; [by apply Hw'|]. destruct i as [t0|e|]; [by eapply Hw| |done].
  destruct v as [|b v]; [done|]. unfold BerTlvIter_next in Hv. destruct (BerTlvAny_parse (b :: v)); simplify_eq. by apply not_elem_of_nil in Hin.
Qed.
Lemma cms_next_Ok e it t rest : cms_next e it = Ok (t, rest) → within_bytes (any_value t) it ∧ within_bytes rest it.
Proof.
  unfold cms_next. destruct (BerTlvIter_next it) as [[item|] r] eqn:Hn; [|done]. cbn [ok_or result_bind].
  apply ber_next_within in Hn as [_ Hw]. destruct item as [t'|e'|]; [|done|done]. intros [= <- <-]. by apply Hw.
Qed.
Lemma cms_next_no_panic e it : cms_next e it ≠ Panic.
Proof.
  unfold cms_next. destruct (BerTlvIter_next it) as [[item|] r] eqn:Hn; [|done]. cbn [ok_or result_bind].
  apply ber_next_within in Hn as [Hp _]. by destruct item.
Qed.
Lemma expect_Ok tag t t' : BerTlvAny_expect tag t = Ok t' → t' = t ∧ any_tag t = tag.
Proof. unfold BerTlvAny_expect. destruct (Z.eqb_spec (any_tag t) tag); [by intros [= ->]|done]. Qed.
Lemma expect_no_panic tag t : BerTlvAny_expect tag t ≠ Panic.
Proof. unfold BerTlvAny_expect. by case_match. Qed.
Lemma cms_expect_Ok tag e t t' : cms_expect tag e t = Ok t' → t' = t.
Proof. unfold cms_expect. rewrite map_err_Ok. by intros [-> _]%expect_Ok. Qed.
Lemma BerTlv_parse_within tag bs t : BerTlv_parse tag bs = Ok t → within_bytes (any_value t) bs.
Proof. intros (t' & Ht & [-> _]%expect_Ok)%result_bind_inv_ok. by apply ber_value_within. Qed.
Lemma cms_parse_within tag bs t : cms_parse tag bs = Ok t → within_bytes (any_value t) bs.
Proof. unfold cms_parse. rewrite map_err_Ok. apply BerTlv_parse_within. Qed.
Lemma cms_parse_or_within tag e bs t : cms_parse_or tag e bs = Ok t → within_bytes (any_value t) bs.
Proof. unfold cms_parse_or. rewrite map_err_Ok. apply BerTlv_parse_within. Qed.

Section within.
Context `{ConstOid}.

Lemma attribute_within attr oid values : attribute_of attr = Ok (Some (oid, values)) → within_bytes values (any_value attr).
Proof.
  unfold attribute_of. destruct (BerTlvAny_expect Sequence_TAG attr) as [a| |] eqn:Ha; [|done|done]. apply expect_Ok in Ha as [-> _].
  intros ([o it] & Ho & Hr)%result_bind_inv_ok. apply cms_next_Ok in Ho as [_ Hit].
  destruct (BerTlvAny_expect Oid_TAG o) as [o'| |]; [|done|done]. apply result_bind_inv_ok in Hr as ([vs r] & Hv & Hr).
  apply cms_next_Ok in Hv as [Hvs _]. destruct (BerTlvAny_expect Set_TAG vs) as [vs'| |] eqn:Hx; [|done|done].
  apply expect_Ok in Hx as [-> _]. injection Hr as _ <-. by etrans.
Qed.
Lemma attribute_of_no_panic attr : attribute_of attr ≠ Panic.
Proof.
  unfold attribute_of. destruct (BerTlvAny_expect Sequence_TAG attr) as [a| |] eqn:Ha; [|done|by apply expect_no_panic in Ha].
  apply result_bind_no_panic; [apply cms_next_no_panic|]. intros [o it] _.
  destruct (BerTlvAny_expect Oid_TAG o) as [o'| |] eqn:Ho; [|done|by apply expect_no_panic in Ho].
  apply result_bind_no_panic; [apply cms_next_no_panic|]. intros [vs r] _.
  destruct (BerTlvAny_expect Set_TAG vs) eqn:Hv; [done|done|by apply expect_no_panic in Hv].
Qed.
(** The digest found is within one of the attributes. *)
Lemma find_message_digest_within v items found md :
  (∀ item t, item ∈ items → item = Ok t → within_bytes (any_value t) v) →
  find_message_digest items found = Ok (Some md) → found = Some md ∨ within_bytes md v.
Proof.
  revert found. induction items as [|item items IH]; intros found Hw; cbn [find_message_digest]; [intros [= ->]; by left|].
  intros (attr & Hattr & (a & Ha & Hr)%result_bind_inv_ok)%result_bind_inv_ok. apply map_err_Ok in Hattr as ->.
  apply IH in Hr as [Hr|?]; [|by right|intros i t Hi; apply Hw; by constructor].
  destruct a as [[oid values]|]; [|by left]. case_bool_decide; [|by left].
  destruct (BerTlv_parse OctetString_TAG values) as [inner| |] eqn:Hp; [|by left|by left]. injection Hr as <-. right.
  apply BerTlv_parse_within in Hp. apply attribute_within in Ha. etrans; [exact Hp|]. etrans; [exact Ha|]. apply (Hw _ _ ltac:(constructor) eq_refl).
Qed.
Lemma parse_signer_info_Ok body s :
  parse_signer_info body = Ok s →
  within_bytes (si_signature s) body ∧
  match signed_data_to_verify s with
  | None => message_digest s = None
  | Some payload => ∃ attrs, within_bytes attrs body ∧ tlv (E := CmsError) Set_TAG attrs = Ok payload ∧
      ∀ md, message_digest s = Some md → within_bytes md attrs
  end.
Proof.
  unfold parse_signer_info. intros (children & Hch & Hp)%result_bind_inv_ok.
  assert (∀ t, t ∈ children → within_bytes (any_value t) body) as Hw.
  { clear Hp. assert (∀ item t, item ∈ BerTlvIter_items body → item = Ok t → within_bytes (any_value t) body) as Hi.
    { intros item t Hin. by apply ber_item_within. }
    revert children Hch. induction (BerTlvIter_items body) as [|item items IH]; intros children; cbn [all_children].
    - intros [= <-] t Ht. by apply not_elem_of_nil in Ht.
    - intros (t & Ht & (rest & Hrest & [= <-])%result_bind_inv_ok)%result_bind_inv_ok. apply map_err_Ok in Ht as ->.
      intros t' [->|Ht']%elem_of_cons; [by apply (Hi _ _ ltac:(constructor) eq_refl)|].
      apply (IH ltac:(intros i u Hin; apply Hi; by constructor) rest Hrest t' Ht'). }
  apply result_bind_inv_ok in Hp as (da & _ & Hp). apply result_bind_inv_ok in Hp as (das & _ & Hp).
  apply result_bind_inv_ok in Hp as (dot & _ & Hp). apply result_bind_inv_ok in Hp as (doid & _ & Hp).
  apply result_bind_inv_ok in Hp as (at3 & Hat3%ok_or_inv & Hp). apply result_bind_inv_ok in Hp as (sa & _ & Hp).
  apply result_bind_inv_ok in Hp as (sas & _ & Hp). apply result_bind_inv_ok in Hp as (sot & _ & Hp).
  apply result_bind_inv_ok in Hp as (soid & _ & Hp). apply result_bind_inv_ok in Hp as (sg & Hsg%ok_or_inv & Hp).
  apply result_bind_inv_ok in Hp as (so & ->%cms_expect_Ok & Hp). apply list_elem_of_lookup_2, Hw in Hat3, Hsg.
  destruct (any_tag at3 =? Asn1ContentExplicit0).
  - apply result_bind_inv_ok in Hp as (rebuilt & Hrb & Hp). apply result_bind_inv_ok in Hp as (md & Hmd & [= <-]).
    split; [done|]. exists (any_value at3). split; [done|]. split; [done|]. cbn. intros d ->.
    apply (find_message_digest_within (any_value at3)) in Hmd as [|]; [done|done|]. intros item t Hin. by apply ber_item_within.
  - injection Hp as <-. done.
Qed.
End within.

Section parsed.
Context `{ConstOid}.

Lemma cms_expect_no_panic tag e t : cms_expect tag e t ≠ Panic.
Proof. apply map_err_no_panic, expect_no_panic. Qed.
Lemma cms_parse_no_panic tag bs : cms_parse tag bs ≠ Panic.
Proof. apply map_err_no_panic, BerTlv_parse_no_panic. Qed.
Lemma cms_parse_or_no_panic tag e bs : cms_parse_or tag e bs ≠ Panic.
Proof. apply map_err_no_panic, BerTlv_parse_no_panic. Qed.
Lemma cms_oid_no_panic e v : cms_oid e v ≠ Panic.
Proof. apply map_err_no_panic. unfold Oid_new. destruct (list.last v); [|done]. by case_match. Qed.
Ltac no_panic_step :=
  apply result_bind_no_panic;
  [first [apply cms_next_no_panic | apply cms_expect_no_panic | apply cms_parse_no_panic | apply cms_parse_or_no_panic
         | apply cms_oid_no_panic | apply ok_or_no_panic]|intros ? ?; repeat match goal with p : _ * _ |- _ => destruct p end].

Lemma items_no_panic v item : item ∈ BerTlvIter_items v → map_err Cms_Ber item ≠ Panic.
Proof. intros [Hp _]%ber_item_within. by apply map_err_no_panic. Qed.
Lemma find_message_digest_no_panic items found : Forall (λ item, map_err Cms_Ber item ≠ Panic) items → find_message_digest items found ≠ Panic.
Proof.
  intros Hi. revert found. induction Hi as [|item items Hi _ IH]; intros found; [done|]. cbn [find_message_digest].
  apply result_bind_no_panic; [done|]. intros attr _. apply result_bind_no_panic; [apply attribute_of_no_panic|]. intros a _. apply IH.
Qed.
Lemma all_items v : Forall (λ item, map_err Cms_Ber item ≠ Panic) (BerTlvIter_items v).
Proof. apply list.Forall_forall. intros item. apply items_no_panic. Qed.
Lemma len_within part whole : within_bytes part whole → len part ≤ len whole.
Proof. intros (a & b & ->). rewrite !len_app. pose proof (len_nonneg a). pose proof (len_nonneg b). lia. Qed.
Lemma tlv_no_panic {E} tag v : len v ≤ u32_max → tlv (E := E) tag v ≠ Panic.
Proof. intros Hl. by destruct (@tlv_ok E tag v Hl) as (lb & -> & _). Qed.
Lemma all_children_Ok items children : all_children items = Ok children → items = map Ok children.
Proof.
  revert children. induction items as [|item items IH]; intros children; cbn [all_children]; [by intros [= <-]|].
  intros (t & Ht & (rest & Hrest & [= <-])%result_bind_inv_ok)%result_bind_inv_ok. apply map_err_Ok in Ht as ->.
  cbn [map]. by rewrite <- (IH rest).
Qed.
Lemma parse_signer_info_no_panic body : len body ≤ u32_max → parse_signer_info body ≠ Panic.
Proof.
  intros Hl. unfold parse_signer_info. apply result_bind_no_panic.
  { pose proof (all_items body) as Hi. induction Hi as [|item items Hi _ IH]; [done|]. cbn [all_children].
    apply result_bind_no_panic; [done|]. intros t _. by apply result_bind_no_panic. }
  intros children Hch. unfold signer_child. do 4 no_panic_step. apply result_bind_no_panic; [apply ok_or_no_panic|]. intros at3 Hat3%ok_or_inv. do 5 no_panic_step.
  no_panic_step. destruct (any_tag at3 =? Asn1ContentExplicit0); [|done].
  apply result_bind_no_panic; [|intros rb _; apply result_bind_no_panic; [apply find_message_digest_no_panic, all_items|done]].
  apply tlv_no_panic. apply list_elem_of_lookup_2 in Hat3. apply all_children_Ok in Hch.
  assert (Ok at3 ∈ BerTlvIter_items body) as Hin by (rewrite Hch; by apply list_elem_of_In, in_map, list_elem_of_In).
  apply ber_item_within in Hin as [_ Hw]. specialize (Hw _ eq_refl). apply len_within in Hw. lia.
Qed.

(** The contents, the certificates and the signer lie within the input. *)
Definition signed_data_within (sd : SignedData) (input : bytes) : Prop :=
  within_bytes (econtent_der sd) input ∧ within_bytes (si_signature (sd_signer sd)) input ∧
  Forall (λ c, within_bytes c input) (certificates_der sd) ∧
  match signed_data_to_verify (sd_signer sd) with
  | None => message_digest (sd_signer sd) = None
  | Some payload => ∃ attrs, within_bytes attrs input ∧ tlv (E := CmsError) Set_TAG attrs = Ok payload ∧
      ∀ md, message_digest (sd_signer sd) = Some md → within_bytes md attrs
  end.

Lemma collect_certificates_within fuel tail : Forall (λ c, within_bytes c tail) (collect_certificates fuel tail).
Proof.
  revert tail. induction fuel as [|fuel IH]; intros tail; [destruct tail; constructor|]. destruct tail as [|b tail]; [constructor|].
  cbn [collect_certificates]. set (t := b :: tail). destruct (BerTlv_parse Sequence_TAG t) as [c| |]; [|constructor..].
  destruct (zslice 0 (any_size c) t) as [s|] eqn:Hs; [|constructor]. apply Forall_cons_2.
  { apply zslice_Some in Hs as (x & y & Hs & _ & _). by exists x, y. }
  eapply list.Forall_impl; [apply IH|]. intros x Hx. cbn in Hx. etrans; [exact Hx|].
  exists (take (Z.to_nat (any_size c)) t), []. by rewrite app_nil_r, take_drop.
Qed.
Lemma signed_data_fields_within v items certs signers certs' signers' :
  (∀ item t, item ∈ items → item = Ok t → within_bytes (any_value t) v) →
  Forall (λ c, within_bytes c v) certs → (∀ s, signers = Some s → within_bytes s v) →
  signed_data_fields items certs signers = Ok (certs', signers') →
  Forall (λ c, within_bytes c v) certs' ∧ (∀ s, signers' = Some s → within_bytes s v).
Proof.
  revert certs signers. induction items as [|item items IH]; intros certs signers Hw Hc Hs; cbn [signed_data_fields]; [by intros [= <- <-]|].
  intros (t & Ht & Hr)%result_bind_inv_ok. apply map_err_Ok in Ht as ->.
  pose proof (Hw _ t ltac:(constructor) eq_refl) as Ht.
  assert (∀ i u, i ∈ items → i = Ok u → within_bytes (any_value u) v) as Hw' by (intros i u Hi; apply Hw; by constructor).
  destruct (any_tag t =? Asn1ContentExplicit0); [|destruct (any_tag t =? Set_TAG)].
  - apply IH in Hr; [done|done| |done]. apply Forall_app. split; [done|].
    eapply list.Forall_impl; [apply collect_certificates_within|]. intros x Hx. cbn in Hx. by etrans.
  - apply IH in Hr; [done|done|done|]. intros s [= <-]. done.
  - by apply IH in Hr.
Qed.
Lemma signed_data_fields_no_panic items certs signers :
  Forall (λ item, map_err Cms_Ber item ≠ Panic) items → signed_data_fields items certs signers ≠ Panic.
Proof.
  intros Hi. revert certs signers. induction Hi as [|item items Hi _ IH]; intros certs signers; [done|]. cbn [signed_data_fields].
  apply result_bind_no_panic; [done|]. intros t _. repeat case_match; apply IH.
Qed.

Lemma parse_body_Ok body sd : parse_signed_data_body body = Ok sd → signed_data_within sd body.
Proof.
  unfold parse_signed_data_body. intros ([v i1] & [_ Hi1]%cms_next_Ok & Hp)%result_bind_inv_ok.
  apply result_bind_inv_ok in Hp as ([da i2] & [_ Hi2]%cms_next_Ok & Hp).
  apply result_bind_inv_ok in Hp as ([encap i3] & [Hencap Hi3]%cms_next_Ok & Hp).
  apply result_bind_inv_ok in Hp as ([et e1] & [_ He1]%cms_next_Ok & Hp). apply result_bind_inv_ok in Hp as (et' & _ & Hp).
  apply result_bind_inv_ok in Hp as (toid & _ & Hp). apply result_bind_inv_ok in Hp as ([ex e2] & [Hex _]%cms_next_Ok & Hp).
  apply result_bind_inv_ok in Hp as (ex' & ->%cms_expect_Ok & Hp). apply result_bind_inv_ok in Hp as (oct & Hoct%cms_parse_within & Hp).
  apply result_bind_inv_ok in Hp as ([certs signers] & Hf & Hp). apply result_bind_inv_ok in Hp as (si & ->%ok_or_inv & Hp).
  apply result_bind_inv_ok in Hp as (st & Hst%cms_parse_or_within & Hp). apply result_bind_inv_ok in Hp as (sg & Hsg & [= <-]).
  assert (within_bytes i3 body) as Hb3 by (etrans; [exact Hi3|by etrans]).
  apply (signed_data_fields_within i3) in Hf as [Hcerts Hsi]; [|intros i t Hin; by apply ber_item_within|constructor|done].
  specialize (Hsi si eq_refl). assert (within_bytes (any_value st) body) as Hsb by (etrans; [exact Hst|by etrans]).
  apply parse_signer_info_Ok in Hsg as [Hsig Hpay]. split; cbn.
  { etrans; [exact Hoct|]. etrans; [exact Hex|]. etrans; [exact He1|]. etrans; [exact Hencap|by etrans]. }
  split; [by etrans|]. split; [eapply list.Forall_impl; [exact Hcerts|]; intros x Hx; cbn in Hx; by etrans|].
  destruct (signed_data_to_verify sg) as [p|]; [|done]. destruct Hpay as (attrs & Ha & Ht & Hmd). exists attrs. split; [by etrans|done].
Qed.
Lemma signed_data_within_trans sd body input : within_bytes body input → signed_data_within sd body → signed_data_within sd input.
Proof.
  intros Hw (H1 & H2 & H3 & H4). split; [by etrans|]. split; [by etrans|].
  split; [eapply list.Forall_impl; [exact H3|]; intros x Hx; cbn in Hx; by etrans|].
  destruct (signed_data_to_verify (sd_signer sd)) as [p|]; [|done]. destruct H4 as (attrs & Ha & Ht & Hmd). exists attrs. split; [by etrans|done].
Qed.
Lemma body_within b input body : signed_data_body b input = Ok body → within_bytes body input.
Proof.
  unfold signed_data_body. intros Hb.
  destruct (b =? EfSodWrapper); [|destruct (b =? Sequence_TAG); [|done]].
  - apply result_bind_inv_ok in Hb as (o & Ho%cms_parse_within & Hb). etrans; [|exact Ho]. revert Hb. unfold decode_content_info.
    intros (o2 & Ho2%cms_parse_within & Hb)%result_bind_inv_ok. apply result_bind_inv_ok in Hb as ([oid it] & [_ Hit]%cms_next_Ok & Hb).
    apply result_bind_inv_ok in Hb as (oid' & _ & Hb). destruct (negb _); [done|].
    apply result_bind_inv_ok in Hb as ([ex r] & [Hex _]%cms_next_Ok & Hb). apply result_bind_inv_ok in Hb as (ex' & ->%cms_expect_Ok & Hb).
    apply result_bind_inv_ok in Hb as (inner & Hinner%cms_parse_within & [= <-]).
    etrans; [exact Hinner|]. etrans; [exact Hex|]. by etrans.
  - apply result_bind_inv_ok in Hb as (o & Ho%cms_parse_within & Hb). apply result_bind_inv_ok in Hb as ([f it] & [_ Hit]%cms_next_Ok & Hb).
    destruct (_ && _); [|by injection Hb as <-]. apply result_bind_inv_ok in Hb as ([ex r] & [Hex _]%cms_next_Ok & Hb).
    apply result_bind_inv_ok in Hb as (ex' & ->%cms_expect_Ok & Hb). apply result_bind_inv_ok in Hb as (inner & Hinner%cms_parse_within & [= <-]).
    etrans; [exact Hinner|]. etrans; [exact Hex|]. by etrans.
Qed.
Lemma SignedData_parse_Ok input sd : SignedData_parse input = Ok sd → signed_data_within sd input.
Proof.
  unfold SignedData_parse. destruct input as [|b rest]; [done|].
  intros (body & Hb & Hp)%result_bind_inv_ok. apply parse_body_Ok in Hp. eapply signed_data_within_trans; [by eapply body_within|done].
Qed.
Lemma parse_body_no_panic body : len body ≤ u32_max → parse_signed_data_body body ≠ Panic.
Proof.
  intros Hl. unfold parse_signed_data_body.
  apply result_bind_no_panic; [apply cms_next_no_panic|]. intros [v i1] [_ Hi1]%cms_next_Ok.
  apply result_bind_no_panic; [apply cms_next_no_panic|]. intros [da i2] [_ Hi2]%cms_next_Ok.
  apply result_bind_no_panic; [apply cms_next_no_panic|]. intros [encap i3] [_ Hi3]%cms_next_Ok.
  do 6 no_panic_step. apply result_bind_no_panic; [apply signed_data_fields_no_panic, all_items|]. intros [certs signers] Hf.
  apply (signed_data_fields_within i3) in Hf as [_ Hsi]; [|intros i t Hin; by apply ber_item_within|constructor|done].
  apply result_bind_no_panic; [apply ok_or_no_panic|]. intros si ->%ok_or_inv.
  apply result_bind_no_panic; [apply cms_parse_or_no_panic|]. intros st Hst%cms_parse_or_within.
  apply result_bind_no_panic; [|done]. apply parse_signer_info_no_panic. specialize (Hsi si eq_refl).
  apply len_within in Hst, Hsi, Hi1, Hi2, Hi3. lia.
Qed.
Lemma SignedData_parse_no_panic input : len input ≤ u32_max → SignedData_parse input ≠ Panic.
Proof.
  intros Hl. unfold SignedData_parse. destruct input as [|b rest]; [done|]. set (input := b :: rest) in *.
  assert (∀ body, within_bytes body input → parse_signed_data_body body ≠ Panic) as Hbody.
  { intros body Hb%len_within. apply parse_body_no_panic. lia. }
  apply result_bind_no_panic.
  - unfold signed_data_body. destruct (b =? EfSodWrapper); [|destruct (b =? Sequence_TAG); [|done]].
    + no_panic_step. unfold decode_content_info. do 3 no_panic_step. destruct (negb _); [done|]. by do 3 no_panic_step.
    + do 2 no_panic_step. destruct (_ && _); [|done]. by do 3 no_panic_step.
  - intros body Hb. apply Hbody. by eapply body_within.
Qed.
End parsed.

(** ** What a message says *)

(** The children of a value, all of them readable. *)
Inductive ber_children : bytes → list (Z * bytes) → Prop :=
| children_nil : ber_children [] []
| children_cons bs tag v rest cs : ber_child tag bs v rest → ber_children rest cs → ber_children bs ((tag, v) :: cs).

(** ContentInfo with the identifier of SignedData, 1.2.840.113549.1.7.2. *)
Definition signed_data_octets : bytes := [0x2A; 0x86; 0x48; 0x86; 0xF7; 0x0D; 0x01; 0x07; 0x02].
Definition content_info_of (input body : bytes) : Prop :=
  ∃ ci r0 i1 ex r1 r2, ber_child 0x30 input ci r0 ∧ ber_child 0x06 ci signed_data_octets i1 ∧ ber_child 0xA0 i1 ex r1 ∧ ber_child 0x30 ex body r2.
(** The three wrappings: EF.SOD, a ContentInfo, the SignedData itself. *)
Inductive signed_data_in (input body : bytes) : Prop :=
| in_ef_sod o r : ber_child 0x77 input o r → content_info_of o body → signed_data_in input body
| in_content_info : content_info_of input body → signed_data_in input body
| in_plain r tag v r1 : ber_child 0x30 input body r → ber_child tag body v r1 → (tag, v) ≠ (0x06, signed_data_octets) → signed_data_in input body.

(** The digest of an attribute messageDigest, 1.2.840.113549.1.9.4; the digest of a list of
    attributes is that of the last one that has it. *)
Definition digest_attribute_of (a : Z * bytes) (md : bytes) : Prop :=
  a.1 = 0x30 ∧ ∃ r1 values r2 r3, ber_child 0x06 a.2 [0x2A; 0x86; 0x48; 0x86; 0xF7; 0x0D; 0x01; 0x09; 0x04] r1 ∧
    ber_child 0x31 r1 values r2 ∧ ber_child 0x04 values md r3.
Definition last_digest (attributes : list (Z * bytes)) (md : option bytes) : Prop :=
  match md with
  | None => ∀ a md, a ∈ attributes → ¬ digest_attribute_of a md
  | Some md => ∃ before a after, attributes = before ++ a :: after ∧ digest_attribute_of a md ∧
      ∀ a' md', a' ∈ after → ¬ digest_attribute_of a' md'
  end.

(** SignerInfo: the digest algorithm is its third child; the attributes, when they are there,
    the fourth; then the algorithm of the signature and the signature. *)
Definition signer_of (v : bytes) (s : SignerInfo) : Prop :=
  ∃ cs da r1 sa r2 k, ber_children v cs ∧ cs !! 2%nat = Some (0x30, da) ∧ ber_child 0x06 da (Oid_as_bytes (digest_algorithm_oid s)) r1 ∧
    cs !! k = Some (0x30, sa) ∧ ber_child 0x06 sa (Oid_as_bytes (signature_algorithm_oid s)) r2 ∧ cs !! S k = Some (0x04, si_signature s) ∧
    match signed_data_to_verify s with
    | None => k = 3%nat ∧ message_digest s = None
    | Some payload => k = 4%nat ∧ ∃ attributes items, cs !! 3%nat = Some (0xA0, attributes) ∧ tlv (E := CmsError) 0x31 attributes = Ok payload ∧
        ber_children attributes items ∧ last_digest items (message_digest s)
    end.

(** The certificates are the SEQUENCEs a [0] starts with. *)
Inductive certificate_run : bytes → list bytes → Prop :=
| run_stop v : (∀ c rest, ¬ ber_child 0x30 v c rest) → certificate_run v []
| run_next enc c rest l : BerTlvAny_parse (enc ++ rest) = Ok (mkBerTlvAny 0x30 c (len enc)) → certificate_run rest l →
    certificate_run (enc ++ rest) (enc :: l).
(** SignedData: the version, the algorithms, the contents, then the certificates in every
    [0] and the signers in the last SET, of which the first counts. *)
Definition signed_data_of (body : bytes) (sd : SignedData) : Prop :=
  ∃ t1 v1 r1 t2 v2 r2 t3 encap r3 e1 ex e2 e3 cs, 
    ber_child t1 body v1 r1 ∧ ber_child t2 r1 v2 r2 ∧ ber_child t3 r2 encap r3 ∧
    ber_child 0x06 encap (Oid_as_bytes (econtent_type_oid sd)) e1 ∧ ber_child 0xA0 e1 ex e2 ∧ ber_child 0x04 ex (econtent_der sd) e3 ∧
    ber_children r3 cs ∧
    (∃ runs, Forall2 (λ c run, if decide (c.1 = 0xA0) then certificate_run c.2 run else run = []) cs runs ∧ certificates_der sd = concat runs) ∧
    ∃ before si after v r, cs = before ++ (0x31, si) :: after ∧ Forall (λ c, c.1 ≠ 0x31) after ∧ ber_child 0x30 si v r ∧ signer_of v (sd_signer sd).

Lemma BerTlv_parse_child tag bs t : BerTlv_parse tag bs = Ok t → ∃ rest, ber_child tag bs (any_value t) rest.
Proof.
  intros (t' & Hp & [-> <-]%expect_Ok)%result_bind_inv_ok. destruct bs as [|b bs]; [done|].
  destruct (BerTlvIter_items_parse_Ok _ _ _ Hp) as (enc & rest & Heq & Hsize & _). exists rest, enc. split; [done|]. rewrite Hp, <- Hsize. by destruct t'.
Qed.
Lemma child_BerTlv_parse tag bs v rest : ber_child tag bs v rest → ∃ t, BerTlv_parse tag bs = Ok t ∧ any_value t = v.
Proof.
  intros (enc & _ & Hp). exists (mkBerTlvAny tag v (len enc)). split; [|done]. unfold BerTlv_parse. rewrite Hp. cbn [result_bind].
  unfold BerTlvAny_expect. cbn [any_tag]. by rewrite Z.eqb_refl.
Qed.
Lemma iter_child it t rest : BerTlvIter_next it = (Some (Ok t), rest) → ber_child (any_tag t) it (any_value t) rest.
Proof.
  destruct it as [|b it]; [done|]. intros Hn.
  assert (BerTlvAny_parse (b :: it) = Ok t) as Hp by (unfold BerTlvIter_next in Hn; destruct (BerTlvAny_parse _); by simplify_eq).
  destruct (BerTlvIter_items_parse_Ok _ _ _ Hp) as (enc & r & Heq & Hsize & _). rewrite Heq in Hp, Hn |- *.
  rewrite (BerTlvIter_next_Ok _ _ _ Hp Hsize) in Hn. injection Hn as <-. exists enc. split; [done|]. rewrite Hp, <- Hsize. by destruct t.
Qed.
Lemma child_iter tag it v rest : ber_child tag it v rest → ∃ t, BerTlvIter_next it = (Some (Ok t), rest) ∧ any_tag t = tag ∧ any_value t = v.
Proof. intros (enc & -> & Hp). exists (mkBerTlvAny tag v (len enc)). split; [|done]. by apply BerTlvIter_next_Ok. Qed.
Lemma cms_next_child e it t rest : cms_next e it = Ok (t, rest) → ber_child (any_tag t) it (any_value t) rest.
Proof.
  unfold cms_next. destruct (BerTlvIter_next it) as [item r] eqn:Hn.
  intros (o & ->%ok_or_inv & (t' & ->%map_err_Ok & [= <- <-])%result_bind_inv_ok)%result_bind_inv_ok. by apply iter_child.
Qed.
Lemma child_cms_next e tag it v rest : ber_child tag it v rest → ∃ t, cms_next e it = Ok (t, rest) ∧ any_tag t = tag ∧ any_value t = v.
Proof. intros (t & Hn & Ht & Hv)%child_iter. exists t. split; [|done]. unfold cms_next. by rewrite Hn. Qed.
Lemma cms_expect_child e tag t t' it rest : cms_expect tag e t = Ok t' → ber_child (any_tag t) it (any_value t) rest → ber_child tag it (any_value t') rest.
Proof. unfold cms_expect. rewrite map_err_Ok. by intros [-> <-]%expect_Ok. Qed.
Lemma cms_oid_octets e v oid : cms_oid e v = Ok oid → v = Oid_as_bytes oid.
Proof. unfold cms_oid. rewrite map_err_Ok. unfold Oid_new. destruct (list.last v); [|done]. destruct (negb _); [done|]. by intros [= <-]. Qed.
Lemma items_children v ts : BerTlvIter_items v = map Ok ts → ber_children v (map (λ t, (any_tag t, any_value t)) ts).
Proof.
  revert v. induction ts as [|t ts IH]; intros v; rewrite BerTlvIter_items_next; destruct (BerTlvIter_next v) as [[item|] rest] eqn:Hn; try done.
  - intros _. destruct v as [|b v]; [constructor|]. unfold BerTlvIter_next in Hn. by destruct (BerTlvAny_parse _).
  - cbn [map]. intros [= -> Hr]. econstructor; [by apply iter_child|by apply IH].
Qed.

Section said.
Context `{ConstOid} `{!ConstOidLaws}.

Lemma attribute_digest attr oid values : attribute_of attr = Ok (Some (oid, values)) →
  any_tag attr = 0x30 ∧ ∃ r1 r2, ber_child 0x06 (any_value attr) oid r1 ∧ ber_child 0x31 r1 values r2.
Proof.
  unfold attribute_of. destruct (BerTlvAny_expect Sequence_TAG attr) as [a| |] eqn:Ha; [|done|done]. apply expect_Ok in Ha as [-> Ht].
  intros ([o it] & Ho & Hr)%result_bind_inv_ok. apply cms_next_child in Ho.
  destruct (BerTlvAny_expect Oid_TAG o) as [o'| |] eqn:Hoid; [|done|done]. apply expect_Ok in Hoid as [-> Hot].
  apply result_bind_inv_ok in Hr as ([vs r] & Hv & Hr). apply cms_next_child in Hv.
  destruct (BerTlvAny_expect Set_TAG vs) as [vs'| |] eqn:Hx; [|done|done]. apply expect_Ok in Hx as [-> Hxt]. injection Hr as <- <-.
  rewrite Hot in Ho. rewrite Hxt in Hv. split; [done|]. by exists it, r.
Qed.
Lemma ber_child_inj tag tag' bs v v' rest rest' : ber_child tag bs v rest → ber_child tag' bs v' rest' → tag = tag' ∧ v = v' ∧ rest = rest'.
Proof.
  intros (enc & -> & Hp) (enc' & He & Hp'). rewrite Hp in Hp'. injection Hp' as <- <- Hl. split; [done|]. split; [done|].
  apply app_inj_1 in He as [_ ->]; [done|]. unfold len in Hl. lia.
Qed.
Lemma expect_eq tag t : any_tag t = tag → BerTlvAny_expect tag t = Ok t.
Proof. intros <-. unfold BerTlvAny_expect. by rewrite Z.eqb_refl. Qed.
Lemma digest_attribute_child attr a md : attribute_of attr = Ok a →
  digest_attribute_of (any_tag attr, any_value attr) md ↔
  ∃ values inner, a = Some (Oid_as_bytes MESSAGE_DIGEST, values) ∧ BerTlv_parse OctetString_TAG values = Ok inner ∧ any_value inner = md.
Proof.
  assert (Oid_as_bytes MESSAGE_DIGEST = [0x2A; 0x86; 0x48; 0x86; 0xF7; 0x0D; 0x01; 0x09; 0x04]) as Hoid by known_octets.
  intros Ha. split.
  - intros (Ht & r1 & values & r2 & r3 & Ho & Hv & Hm). cbn [fst snd] in Ht, Ho.
    apply child_BerTlv_parse in Hm as (inner & Hi & <-). exists values, inner. split; [|done].
    revert Ha. unfold attribute_of. rewrite (expect_eq Sequence_TAG attr Ht).
    apply (child_cms_next (unexpected "signedAttr missing OID")) in Ho as (o & Ho & Hot & Hov). rewrite Ho. cbn [result_bind]. rewrite (expect_eq Oid_TAG o Hot).
    apply (child_cms_next (unexpected "signedAttr missing values")) in Hv as (vs & Hv & Hvt & Hvv). rewrite Hv. cbn [result_bind].
    rewrite (expect_eq Set_TAG vs Hvt). intros [= <-]. by rewrite Hov, Hvv, Hoid.
  - intros (values & inner & -> & Hi & <-). apply attribute_digest in Ha as (Ht & r1 & r2 & Ho & Hv). split; [done|].
    apply BerTlv_parse_child in Hi as [r3 Hi]. rewrite Hoid in Ho. by exists r1, values, r2, r3.
Qed.
Lemma last_digest_cons_None a attrs : last_digest (a :: attrs) None ↔ (∀ md, ¬ digest_attribute_of a md) ∧ last_digest attrs None.
Proof.
  cbn [last_digest]. split.
  - intros Hn. split; [intros md; apply Hn; constructor|]. intros a' md Ha'. apply Hn. by constructor.
  - intros [H1 H2] a' md [->|Ha']%elem_of_cons; [apply H1|by apply H2].
Qed.
Lemma find_message_digest_last items found md : find_message_digest (map Ok items) found = Ok md →
  let attrs := map (λ t, (any_tag t, any_value t)) items in
  (last_digest attrs None ∧ md = found) ∨ (last_digest attrs md ∧ md ≠ None).
Proof.
  cbv zeta. revert found. induction items as [|attr items IH]; intros found; cbn [map find_message_digest map_err].
  - intros [= ->]. left. split; [|done]. by intros a m ?%not_elem_of_nil.
  - cbn [result_bind]. intros (a & Ha & Hr)%result_bind_inv_ok. pose proof (λ m, digest_attribute_child attr a m Ha) as Hd.
    apply IH in Hr as [[Hnone ->]|[Hlast Hne]]; cycle 1.
    { right. split; [|done]. destruct md as [md|]; [|done]. destruct Hlast as (before & b & after & Heq & Hb & Hafter).
      exists ((any_tag attr, any_value attr) :: before), b, after. by rewrite Heq. }
    assert ((∀ m, ¬ digest_attribute_of (any_tag attr, any_value attr) m) →
      last_digest ((any_tag attr, any_value attr) :: map (λ t, (any_tag t, any_value t)) items) None) as Hno.
    { intros Hm. apply last_digest_cons_None. done. }
    destruct a as [[oid values]|]; [|left; split; [apply Hno; by intros m (? & ? & ? & _)%Hd|done]].
    case_bool_decide as Ho; [|left; split; [apply Hno; intros m (? & ? & Hx & _)%Hd; injection Hx as Hx _; exact (Ho Hx)|done]].
    destruct (BerTlv_parse OctetString_TAG values) as [inner| |] eqn:Hi;
      [|left; split; [apply Hno; intros m (? & ? & Hv & Hx & _)%Hd; injection Hv as _ Hv; congruence|done]..].
    right. split; [|done]. exists [], (any_tag attr, any_value attr), (map (λ t, (any_tag t, any_value t)) items). split; [done|]. split; [|exact Hnone].
    apply Hd. exists values, inner. by rewrite Ho.
Qed.

Lemma children_lookup cs i e t : signer_child cs i e = Ok t → map (λ t, (any_tag t, any_value t)) cs !! i = Some (any_tag t, any_value t).
Proof. intros Hi%ok_or_inv. by rewrite list_lookup_fmap, Hi. Qed.
Lemma items_all v cs : all_children (BerTlvIter_items v) = Ok cs → ber_children v (map (λ t, (any_tag t, any_value t)) cs).
Proof. intros Hc%all_children_Ok. by apply items_children. Qed.
Lemma find_message_digest_items items found md : find_message_digest items found = Ok md → ∃ ts, items = map Ok ts.
Proof.
  revert found. induction items as [|item items IH]; intros found; cbn [find_message_digest]; [by exists []|].
  intros (t & ->%map_err_Ok & (a & _ & [ts ->]%IH)%result_bind_inv_ok)%result_bind_inv_ok. by exists (t :: ts).
Qed.
Lemma parse_signer_info_of v s : parse_signer_info v = Ok s → signer_of v s.
Proof.
  unfold parse_signer_info. intros (cs & Hcs%items_all & Hp)%result_bind_inv_ok.
  apply result_bind_inv_ok in Hp as (da & Hda%children_lookup & Hp). apply result_bind_inv_ok in Hp as (das & Hdas & Hp).
  unfold cms_expect in Hdas. apply map_err_Ok, expect_Ok in Hdas as [-> Hdt].
  apply result_bind_inv_ok in Hp as (dot & Hdot & Hp). unfold cms_parse_or in Hdot. apply map_err_Ok, BerTlv_parse_child in Hdot as [r1 Hdot].
  apply result_bind_inv_ok in Hp as (doid & Hdoid%cms_oid_octets & Hp).
  apply result_bind_inv_ok in Hp as (at3 & Hat3%children_lookup & Hp). apply result_bind_inv_ok in Hp as (sa & Hsa%children_lookup & Hp).
  apply result_bind_inv_ok in Hp as (sas & Hsas & Hp). unfold cms_expect in Hsas. apply map_err_Ok, expect_Ok in Hsas as [-> Hst].
  apply result_bind_inv_ok in Hp as (sot & Hsot & Hp). unfold cms_parse_or in Hsot. apply map_err_Ok, BerTlv_parse_child in Hsot as [r2 Hsot].
  apply result_bind_inv_ok in Hp as (soid & Hsoid%cms_oid_octets & Hp). apply result_bind_inv_ok in Hp as (sg & Hsg%children_lookup & Hp).
  apply result_bind_inv_ok in Hp as (so & Hso & Hp). unfold cms_expect in Hso. apply map_err_Ok, expect_Ok in Hso as [-> Hot].
  rewrite Hdt in Hda. rewrite Hst in Hsa. rewrite Hot in Hsg. rewrite Hdoid in Hdot. rewrite Hsoid in Hsot.
  destruct (Z.eqb_spec (any_tag at3) Asn1ContentExplicit0) as [H3|H3].
  - apply result_bind_inv_ok in Hp as (rebuilt & Hrb & Hp). apply result_bind_inv_ok in Hp as (md & Hmd & [= <-]).
    destruct (find_message_digest_items _ _ _ Hmd) as [ts Hts]. pose proof Hmd as Hmd'. rewrite Hts in Hmd'. apply find_message_digest_last in Hmd'.
    rewrite H3 in Hat3. exists (map (λ t, (any_tag t, any_value t)) cs), (any_value da), r1, (any_value sa), r2, 4%nat. cbn. split_and!; try done.
    exists (any_value at3), (map (λ t, (any_tag t, any_value t)) ts). split; [done|]. split; [done|]. split; [by apply items_children|].
    by destruct Hmd' as [[? ->]|[? _]].
  - injection Hp as <-. by exists (map (λ t, (any_tag t, any_value t)) cs), (any_value da), r1, (any_value sa), r2, 3%nat.
Qed.

Lemma collect_run fuel tail : (length tail ≤ fuel)%nat → certificate_run tail (collect_certificates fuel tail).
Proof.
  revert tail. induction fuel as [|fuel IH]; intros tail Hf.
  - destruct tail; [|simpl in Hf; lia]. apply run_stop. intros c rest (enc & _ & Hp). done.
  - destruct tail as [|b tail]; [apply run_stop; by intros c rest (enc & _ & Hp)|]. cbn [collect_certificates]. set (t := b :: tail) in *.
    destruct (BerTlv_parse Sequence_TAG t) as [c|e|] eqn:Hp; [|apply run_stop; intros c rest (c' & Hp' & _)%child_BerTlv_parse; unfold Sequence_TAG in Hp; congruence..].
    apply result_bind_inv_ok in Hp as (t' & Hp & [-> Ht]%expect_Ok). destruct (BerTlvIter_items_parse_Ok _ _ _ Hp) as (enc & rest & Heq & Hsize & Hmin & _).
    assert (zslice 0 (any_size t') t = Some enc) as ->.
    { apply zslice_Some. exists [], rest. split; [exact Heq|]. split; [done|]. rewrite Hsize. unfold len. simpl. lia. }
    assert (drop (Z.to_nat (any_size t')) t = rest) as ->.
    { rewrite Hsize. replace (Z.to_nat (len enc)) with (length enc) by (unfold len; lia). unfold t. rewrite Heq. apply drop_app_length. }
    assert (length rest < length t)%nat as Hl by (unfold t; rewrite Heq, length_app; unfold len in Hmin; lia).
    unfold t in Hp |- *. rewrite Heq in Hp |- *. apply (run_next enc (any_value t') rest); [|apply IH; lia]. rewrite Hp, <- Hsize. f_equal. destruct t'. cbn in Ht. by rewrite Ht.
Qed.
Lemma signed_data_fields_of items certs signers certs' signers' :
  signed_data_fields items certs signers = Ok (certs', signers') →
  ∃ ts runs, items = map Ok ts ∧ let cs := map (λ t, (any_tag t, any_value t)) ts in
    Forall2 (λ c run, if decide (c.1 = 0xA0) then certificate_run c.2 run else run = []) cs runs ∧ certs' = certs ++ concat runs ∧
    ((Forall (λ c, c.1 ≠ 0x31) cs ∧ signers' = signers) ∨
     ∃ before si after, cs = before ++ (0x31, si) :: after ∧ Forall (λ c, c.1 ≠ 0x31) after ∧ signers' = Some si).
Proof.
  revert certs signers. induction items as [|item items IH]; intros certs signers; cbn [signed_data_fields].
  - intros [= <- <-]. exists [], []. split; [done|]. split; [constructor|]. split; [by rewrite app_nil_r|]. by left.
  - intros (t & ->%map_err_Ok & Hr)%result_bind_inv_ok.
    assert (∀ run s', signed_data_fields items (certs ++ run) s' = Ok (certs', signers') →
      (if decide (any_tag t = 0xA0) then certificate_run (any_value t) run else run = []) → s' = (if decide (any_tag t = 0x31) then Some (any_value t) else signers) →
      ∃ ts runs, Ok t :: items = map Ok ts ∧ let cs := map (λ t, (any_tag t, any_value t)) ts in
        Forall2 (λ c run, if decide (c.1 = 0xA0) then certificate_run c.2 run else run = []) cs runs ∧ certs' = certs ++ concat runs ∧
        ((Forall (λ c, c.1 ≠ 0x31) cs ∧ signers' = signers) ∨
         ∃ before si after, cs = before ++ (0x31, si) :: after ∧ Forall (λ c, c.1 ≠ 0x31) after ∧ signers' = Some si)) as Hstep.
    { intros run s' Hf Hrun ->. apply IH in Hf as (ts & runs & -> & Hruns & -> & Hs). exists (t :: ts), (run :: runs). split; [done|]. cbn [map concat].
      split; [by constructor|]. split; [by rewrite app_assoc|]. destruct Hs as [[Hno ->]|(before & si & after & Heq & Ha & ->)].
      - destruct (decide (any_tag t = 0x31)) as [Ht|Ht]; [right; exists [], (any_value t), (map (λ t, (any_tag t, any_value t)) ts); split; [by rewrite Ht|done]|]. left. split; [by constructor|done].
      - right. exists ((any_tag t, any_value t) :: before), si, after. by rewrite Heq. }
    destruct (Z.eqb_spec (any_tag t) Asn1ContentExplicit0) as [Ht|Ht]; [|destruct (Z.eqb_spec (any_tag t) Set_TAG) as [Hs|Hs]].
    + eapply Hstep; [exact Hr| |]; [rewrite decide_True by done; by apply collect_run|by rewrite decide_False by (unfold Asn1ContentExplicit0 in *; lia)].
    + eapply (Hstep []); [by rewrite app_nil_r| |]; [by rewrite decide_False by done|by rewrite decide_True by done].
    + eapply (Hstep []); [by rewrite app_nil_r| |]; by rewrite decide_False by (unfold Asn1ContentExplicit0, Set_TAG in *; lia).
Qed.
Lemma parse_body_of body sd : parse_signed_data_body body = Ok sd → signed_data_of body sd.
Proof.
  unfold parse_signed_data_body. intros ([v r1] & Hv%cms_next_child & Hp)%result_bind_inv_ok.
  apply result_bind_inv_ok in Hp as ([da r2] & Hda%cms_next_child & Hp). apply result_bind_inv_ok in Hp as ([encap r3] & Hencap%cms_next_child & Hp).
  apply result_bind_inv_ok in Hp as ([et e1] & Het%cms_next_child & Hp). apply result_bind_inv_ok in Hp as (et' & Hx & Hp). 
  apply (cms_expect_child _ _ _ _ _ _ Hx) in Het. apply result_bind_inv_ok in Hp as (toid & Htoid%cms_oid_octets & Hp). rewrite Htoid in Het.
  apply result_bind_inv_ok in Hp as ([ex e2] & Hex%cms_next_child & Hp). apply result_bind_inv_ok in Hp as (ex' & Hx' & Hp).
  apply (cms_expect_child _ _ _ _ _ _ Hx') in Hex. apply result_bind_inv_ok in Hp as (oct & Hoct & Hp).
  unfold cms_parse in Hoct. apply map_err_Ok, BerTlv_parse_child in Hoct as [e3 Hoct].
  apply result_bind_inv_ok in Hp as ([certs signers] & Hf & Hp). apply result_bind_inv_ok in Hp as (si & ->%ok_or_inv & Hp).
  apply result_bind_inv_ok in Hp as (st & Hst & Hp). unfold cms_parse_or in Hst. apply map_err_Ok, BerTlv_parse_child in Hst as [r Hst].
  apply result_bind_inv_ok in Hp as (sg & Hsg%parse_signer_info_of & [= <-]).
  apply signed_data_fields_of in Hf as (ts & runs & Hts & Hruns & -> & Hs).
  destruct Hs as [[_ ?]|(before & si' & after & Heq & Ha & [= ->])]; [done|].
  exists (any_tag v), (any_value v), r1, (any_tag da), (any_value da), r2, (any_tag encap), (any_value encap), r3, e1, (any_value ex'), e2, e3,
    (map (λ t, (any_tag t, any_value t)) ts). cbn. split_and!; try done; [by apply items_children|by exists runs|].
  by exists before, si', after, (any_value st), r.
Qed.
Lemma content_info_body input body : decode_content_info input = Ok body → content_info_of input body.
Proof.
  assert (Oid_as_bytes SIGNED_DATA = signed_data_octets) as Hoid by known_octets.
  unfold decode_content_info. intros (o & Ho & Hp)%result_bind_inv_ok. unfold cms_parse in Ho. apply map_err_Ok, BerTlv_parse_child in Ho as [r0 Ho].
  apply result_bind_inv_ok in Hp as ([oid i1] & Hi%cms_next_child & Hp). apply result_bind_inv_ok in Hp as (oid' & Hx & Hp).
  apply (cms_expect_child _ _ _ _ _ _ Hx) in Hi. case_bool_decide as Heq; [|done]. cbn [negb] in Hp.
  apply result_bind_inv_ok in Hp as ([ex r1] & Hex%cms_next_child & Hp). apply result_bind_inv_ok in Hp as (ex' & Hx' & Hp).
  apply (cms_expect_child _ _ _ _ _ _ Hx') in Hex. apply result_bind_inv_ok in Hp as (inner & Hin & [= <-]).
  unfold cms_parse in Hin. apply map_err_Ok, BerTlv_parse_child in Hin as [r2 Hin]. rewrite Heq, Hoid in Hi.
  by exists (any_value o), r0, i1, (any_value ex'), r1, r2.
Qed.
Lemma body_in b input body : signed_data_body b input = Ok body → signed_data_in input body.
Proof.
  assert (Oid_as_bytes SIGNED_DATA = signed_data_octets) as Hoid by known_octets.
  unfold signed_data_body. intros Hb. destruct (b =? EfSodWrapper); [|destruct (b =? Sequence_TAG); [|done]].
  - apply result_bind_inv_ok in Hb as (o & Ho & Hb%content_info_body). unfold cms_parse in Ho. apply map_err_Ok, BerTlv_parse_child in Ho as [r Ho].
    by eapply in_ef_sod.
  - apply result_bind_inv_ok in Hb as (o & Ho & Hb). unfold cms_parse in Ho. apply map_err_Ok, BerTlv_parse_child in Ho as [r Ho].
    apply result_bind_inv_ok in Hb as ([f it] & Hf%cms_next_child & Hb). rewrite Hoid in Hb.
    destruct (Z.eqb_spec (any_tag f) Oid_TAG) as [Ht|Ht]; [case_bool_decide as Hv|]; cbn [andb] in Hb.
    + apply in_content_info. rewrite Ht, Hv in Hf.
      apply result_bind_inv_ok in Hb as ([ex r1] & Hex%cms_next_child & Hb). apply result_bind_inv_ok in Hb as (ex' & Hx' & Hb).
      apply (cms_expect_child _ _ _ _ _ _ Hx') in Hex. apply result_bind_inv_ok in Hb as (inner & Hin & [= <-]).
      unfold cms_parse in Hin. apply map_err_Ok, BerTlv_parse_child in Hin as [r2 Hin]. by exists (any_value o), r, it, (any_value ex'), r1, r2.
    + injection Hb as <-. eapply in_plain; [exact Ho|exact Hf|]. intros [= _ ?]. done.
    + injection Hb as <-. eapply in_plain; [exact Ho|exact Hf|]. intros [= ? _]. done.
Qed.
Lemma SignedData_parse_of input sd : SignedData_parse input = Ok sd → ∃ body, signed_data_in input body ∧ signed_data_of body sd.
Proof.
  unfold SignedData_parse. destruct input as [|b rest]; [done|]. intros (body & Hb & Hp)%result_bind_inv_ok.
  exists body. split; [|by apply parse_body_of]. by apply (body_in _ _ _ Hb).
Qed.
End said.

(** ** What a verified message is *)

Section valid.
Context `{DerCrate} `{!DerLaws} `{ConstOid} `{!ConstOidLaws} `{BoxedMonty} `{!BoxedMontyLaws} `{Sha1Hash} `{Sha256Hash} `{Sha2Hashes} `{!HashSizes}.

Definition digest_info (h : HashAlgorithm) : bytes :=
  match h with
  | Ha_Sha256 => [0x30; 0x31; 0x30; 0x0D; 0x06; 0x09; 0x60; 0x86; 0x48; 0x01; 0x65; 0x03; 0x04; 0x02; 0x01; 0x05; 0x00; 0x04; 0x20]
  | Ha_Sha384 => [0x30; 0x41; 0x30; 0x0D; 0x06; 0x09; 0x60; 0x86; 0x48; 0x01; 0x65; 0x03; 0x04; 0x02; 0x02; 0x05; 0x00; 0x04; 0x30]
  | Ha_Sha512 => [0x30; 0x51; 0x30; 0x0D; 0x06; 0x09; 0x60; 0x86; 0x48; 0x01; 0x65; 0x03; 0x04; 0x02; 0x03; 0x05; 0x00; 0x04; 0x40]
  end.
(** The octets of the identifiers: the SHA-2 functions, and the algorithms with the hash they
    fix, or that of the digest algorithm when they fix none. *)
Definition hash_octets (h : HashAlgorithm) : bytes :=
  [0x60; 0x86; 0x48; 0x01; 0x65; 0x03; 0x04; 0x02; match h with Ha_Sha256 => 0x01 | Ha_Sha384 => 0x02 | Ha_Sha512 => 0x03 end].
Inductive rsa_hash (fallback : HashAlgorithm) : bytes → HashAlgorithm → Prop :=
| rsa_hash_256 : rsa_hash fallback [0x2A; 0x86; 0x48; 0x86; 0xF7; 0x0D; 0x01; 0x01; 0x0B] Ha_Sha256
| rsa_hash_384 : rsa_hash fallback [0x2A; 0x86; 0x48; 0x86; 0xF7; 0x0D; 0x01; 0x01; 0x0C] Ha_Sha384
| rsa_hash_512 : rsa_hash fallback [0x2A; 0x86; 0x48; 0x86; 0xF7; 0x0D; 0x01; 0x01; 0x0D] Ha_Sha512
| rsa_hash_fallback : rsa_hash fallback [0x2A; 0x86; 0x48; 0x86; 0xF7; 0x0D; 0x01; 0x01; 0x01] fallback.
Inductive ecdsa_hash (fallback : HashAlgorithm) : bytes → HashAlgorithm → Prop :=
| ecdsa_hash_256 : ecdsa_hash fallback [0x2A; 0x86; 0x48; 0xCE; 0x3D; 0x04; 0x03; 0x02] Ha_Sha256
| ecdsa_hash_384 : ecdsa_hash fallback [0x2A; 0x86; 0x48; 0xCE; 0x3D; 0x04; 0x03; 0x03] Ha_Sha384
| ecdsa_hash_512 : ecdsa_hash fallback [0x2A; 0x86; 0x48; 0xCE; 0x3D; 0x04; 0x03; 0x04] Ha_Sha512
| ecdsa_hash_fallback : ecdsa_hash fallback [0x2A; 0x86; 0x48; 0xCE; 0x3D; 0x02; 0x01] fallback.

(** A valid signature of the payload under the key: PKCS#1 v1.5 or ECDSA, as the
    identifier says. *)
Inductive payload_signed (d : SignatureDispatch) : Prop :=
| payload_rsa h key ps :
    rsa_hash (d_fallback d) (Oid_as_bytes (d_sig_alg_oid d)) h → rsa_key_of (d_signer_spki_der d) key →
    in_range key (d_signature d) → (8 <= ps)%nat →
    recovered_block key (d_signature d) = pkcs1_block ps (digest_info h ++ HashAlgorithm_digest h (d_payload d)) → payload_signed d
| payload_ecdsa h curve ctx point :
    ecdsa_hash (d_fallback d) (Oid_as_bytes (d_sig_alg_oid d)) h →
    ec_key_of (d_signer_spki_der d) curve point → named_curve curve ctx →
    ecdsa_accepts ctx point (d_signature d) (HashAlgorithm_digest h (d_payload d)) → payload_signed d.

Lemma hash_from_oid oid h : HashAlgorithm_from_oid oid = Some h ↔ oid = hash_octets h.
Proof.
  assert (Oid_as_bytes SHA256 = hash_octets Ha_Sha256) as Hs2 by known_octets. assert (Oid_as_bytes SHA384 = hash_octets Ha_Sha384) as Hs3 by known_octets.
  assert (Oid_as_bytes SHA512 = hash_octets Ha_Sha512) as Hs5 by known_octets. unfold HashAlgorithm_from_oid. rewrite Hs2, Hs3, Hs5. split.
  - repeat (case_bool_decide as Hc; [by intros [= <-]|clear Hc]). done.
  - intros ->. by destruct h.
Qed.
Lemma hash_for_rsa_iff fallback oid h : hash_for_rsa oid fallback = Some h ↔ rsa_hash fallback oid h.
Proof.
  assert (Oid_as_bytes RSA_ENCRYPTION = [0x2A; 0x86; 0x48; 0x86; 0xF7; 0x0D; 0x01; 0x01; 0x01]) as Hr by known_octets. unfold hash_for_rsa.
  destruct algorithm_octets as (-> & -> & -> & _). rewrite Hr. split; [|by intros []].
  repeat (case_bool_decide as Hc; [intros [= <-]; rewrite Hc; constructor|clear Hc]). done.
Qed.
Lemma hash_for_ecdsa_iff fallback oid h : hash_for_ecdsa oid fallback = Some h ↔ ecdsa_hash fallback oid h.
Proof.
  assert (Oid_as_bytes EC_PUBLIC_KEY = [0x2A; 0x86; 0x48; 0xCE; 0x3D; 0x02; 0x01]) as Hr by known_octets. unfold hash_for_ecdsa.
  destruct algorithm_octets as (_ & _ & _ & -> & -> & ->). rewrite Hr. split; [|by intros []].
  repeat (case_bool_decide as Hc; [intros [= <-]; rewrite Hc; constructor|clear Hc]). done.
Qed.
(** LDSSecurityObject of ICAO 9303-10: the version, the hash algorithm, and a SEQUENCE of
    group numbers, as u32, with their hashes; what has another shape is passed over. *)
Definition lds_entry (c e : Z * bytes) : Prop :=
  c.1 = 0x30 ∧ ∃ num r1 r2, ber_child 0x02 c.2 num r1 ∧ ber_child 0x04 r1 e.2 r2 ∧ (bytes_ok num → e.1 = be_fold num mod 2 ^ 32).
Inductive lds_entries : list (Z * bytes) → list (Z * bytes) → Prop :=
| lds_entries_nil : lds_entries [] []
| lds_entries_take c e cs es : lds_entry c e → lds_entries cs es → lds_entries (c :: cs) (e :: es)
| lds_entries_skip c cs es : (∀ e, ¬ lds_entry c e) → lds_entries cs es → lds_entries (c :: cs) es.
Definition lds_of (der : bytes) (lds : LdsSecurityObject) : Prop :=
  ∃ outer r t v r1 alg r2 r3 dgs cs, ber_child 0x30 der outer r ∧ ber_child t outer v r1 ∧ ber_child 0x30 r1 alg r2 ∧
    (∃ r5, ber_child 0x06 alg (hash_octets (lds_hash_algorithm lds)) r5) ∧ ber_child 0x30 r2 dgs r3 ∧ ber_children dgs cs ∧
    lds_entries cs (data_group_hashes lds).

Lemma u32_of_octets_fold num : bytes_ok num → u32_of_octets num = be_fold num mod 2 ^ 32.
Proof.
  unfold u32_of_octets. intros Hok. induction num as [|b num IH] using rev_ind; [done|]. apply Forall_app in Hok as [Hok [Hb _]%Forall_cons_1].
  rewrite foldl_app, be_fold_app, (IH Hok) by done. cbn [foldl]. set (x := be_fold num). change (2 ^ 32) with 4294967296.
  assert (Z.shiftl (x mod 4294967296) 8 mod 4294967296 = Z.shiftl (x mod 16777216) 8) as ->.
  { rewrite !Z.shiftl_mul_pow2 by lia. change (2 ^ 8) with 256. change 4294967296 with (16777216 * 256). rewrite Z.mul_mod_distr_r by lia.
    f_equal. rewrite Z.mul_comm. rewrite Z.rem_mul_r by lia. Z.div_mod_to_equations. lia. }
  rewrite lor_shiftl8 by done. unfold is_byte in Hb. apply (Z.mod_unique _ _ (x / 16777216)); [|pose proof (Z.div_mod x 16777216 ltac:(lia)); lia].
  left. pose proof (Z.mod_pos_bound x 16777216 ltac:(lia)). lia.
Qed.
Lemma data_groups_entries ts es : data_groups (map Ok ts) = Ok es → lds_entries (map (λ t, (any_tag t, any_value t)) ts) es.
Proof.
  revert es. induction ts as [|t ts IH]; intros es; cbn [map data_groups map_err result_bind]; [intros [= <-]; constructor|].
  intros (entry & He & (rest & Hrest%IH & [= <-])%result_bind_inv_ok)%result_bind_inv_ok. revert He.
  destruct (BerTlvAny_expect Sequence_TAG t) as [t'| |] eqn:Ht; [| |done].
  2: { intros [= <-]. apply lds_entries_skip; [|done]. intros ent [H30 _]. cbn in H30. by rewrite (expect_eq Sequence_TAG t H30) in Ht. }
  apply expect_Ok in Ht as [-> Ht]. intros ([num dit] & Hnum%cms_next_child & He)%result_bind_inv_ok.
  destruct (BerTlvAny_expect Integer_TAG num) as [num'| |] eqn:Hn; [| |done].
  2: { injection He as <-. apply lds_entries_skip; [|done]. intros ent (_ & v & r1 & r2 & Hv & _). cbn in Hv.
       destruct (ber_child_inj _ _ _ _ _ _ _ Hv Hnum) as (Hi & _ & _). by rewrite (expect_eq Integer_TAG num (eq_sym Hi)) in Hn. }
  apply expect_Ok in Hn as [-> Hn]. apply result_bind_inv_ok in He as ([hash r2] & Hhash%cms_next_child & He).
  destruct (BerTlvAny_expect OctetString_TAG hash) as [hash'| |] eqn:Hh; [| |done].
  2: { injection He as <-. apply lds_entries_skip; [|done]. intros ent (_ & v & r1 & r2' & Hv & Hx & _). cbn in Hv.
       destruct (ber_child_inj _ _ _ _ _ _ _ Hv Hnum) as (_ & _ & ->). destruct (ber_child_inj _ _ _ _ _ _ _ Hx Hhash) as (Hi & _ & _).
       by rewrite (expect_eq OctetString_TAG hash (eq_sym Hi)) in Hh. }
  apply expect_Ok in Hh as [-> Hh]. injection He as <-. apply lds_entries_take; [|done]. split; [done|].
  exists (any_value num), dit, r2. rewrite Hn in Hnum. rewrite Hh in Hhash. split; [done|]. split; [done|]. apply u32_of_octets_fold.
Qed.
Lemma LdsSecurityObject_parse_of der lds : LdsSecurityObject_parse der = Ok lds → lds_of der lds.
Proof.
  unfold LdsSecurityObject_parse. intros (o & Ho & Hp)%result_bind_inv_ok. unfold cms_parse in Ho. apply map_err_Ok, BerTlv_parse_child in Ho as [r Ho].
  apply result_bind_inv_ok in Hp as ([v r1] & Hv%cms_next_child & Hp). apply result_bind_inv_ok in Hp as ([alg r2] & Halg%cms_next_child & Hp).
  apply result_bind_inv_ok in Hp as (alg' & Hx & Hp). apply (cms_expect_child _ _ _ _ _ _ Hx) in Halg.
  apply result_bind_inv_ok in Hp as (oid & Hoid & Hp). unfold cms_parse_or in Hoid. apply map_err_Ok, BerTlv_parse_child in Hoid as [r5 Hoid].
  apply result_bind_inv_ok in Hp as (h & Hh%ok_or_inv%hash_from_oid & Hp). apply result_bind_inv_ok in Hp as ([dgs r3] & Hdgs%cms_next_child & Hp).
  apply result_bind_inv_ok in Hp as (dgs' & Hx' & Hp). apply (cms_expect_child _ _ _ _ _ _ Hx') in Hdgs.
  apply result_bind_inv_ok in Hp as (es & Hes & [= <-]). rewrite Hh in Hoid.
  assert (∃ ts, BerTlvIter_items (any_value dgs') = map Ok ts) as [ts Hts].
  { revert es Hes. induction (BerTlvIter_items _) as [|i items IH]; intros es; cbn [data_groups]; [by exists []|].
    intros (t & ->%map_err_Ok & (e & _ & (rest & Hrest & _)%result_bind_inv_ok)%result_bind_inv_ok)%result_bind_inv_ok.
    destruct (IH rest Hrest) as [ts ->]. by exists (t :: ts). }
  rewrite Hts in Hes. exists (any_value o), r, (any_tag v), (any_value v), r1, (any_value alg'), r2, r3, (any_value dgs'), (map (λ t, (any_tag t, any_value t)) ts).
  split_and!; try done; [by exists r5|by apply items_children|by apply data_groups_entries].
Qed.
Lemma rsa_not_ecdsa fallback oid h h' : rsa_hash fallback oid h → ecdsa_hash fallback oid h' → False.
Proof. intros [] He; inversion He. Qed.

Lemma digest_bytes_ok h m : bytes_ok (HashAlgorithm_digest h m).
Proof. destruct h; [apply bytes_sha256|apply bytes_sha384|apply bytes_sha512]. Qed.
Lemma rsa_verify_with_hash_eq key h payload signature :
  rsa_verify_with_hash key h payload signature = map_err Cms_Rsa (verify_pkcs1v15 key (digest_info h) (HashAlgorithm_digest h payload) signature).
Proof. by destruct h. Qed.
Lemma verify_dispatch_spec d :
  bytes_ok (d_signer_spki_der d) →
  (∀ curve point, extract_ec_pubkey (d_signer_spki_der d) = Some (curve, point) → ∃ ctx, named_curve curve ctx) →
  (verify_dispatch d = Ok tt ↔ payload_signed d) ∧ verify_dispatch d ≠ Panic.
Proof.
  intros Hok Hnamed. unfold verify_dispatch. destruct (hash_for_rsa _ _) as [h|] eqn:Hr.
  - destruct (extract_rsa_public_key _) as [key|] eqn:Hk; cbn [ok_or result_bind].
    + rewrite rsa_verify_with_hash_eq.
      destruct (verify_pkcs1v15_spec key (digest_info h) (HashAlgorithm_digest h (d_payload d)) (d_signature d) (extract_rsa_wf _ _ Hok Hk)) as [Hv Hn].
      split; [|by apply map_err_no_panic]. rewrite map_err_Ok, Hv. split.
      * intros (Hi & ps & Hps & Hb). apply (payload_rsa d h key ps); try done; [by apply hash_for_rsa_iff|by apply (extract_rsa_key_of _ _ Hok)].
      * intros [h' key' ps Hh'%hash_for_rsa_iff Hk'%(extract_rsa_key_of _ _ Hok) Hi Hps Hb|h' curve ctx point Hh' _ _ _];
          [|by destruct (rsa_not_ecdsa _ _ _ _ (proj1 (hash_for_rsa_iff _ _ _) Hr) Hh')].
        rewrite Hr in Hh'. rewrite Hk in Hk'. simplify_eq. split; [done|]. by exists ps.
    + split; [|done]. split; [done|]. intros [h' key' ps Hh' Hk'%(extract_rsa_key_of _ _ Hok) Hi Hps Hb|h' curve ctx point Hh' _ _ _]; [congruence|].
      by destruct (rsa_not_ecdsa _ _ _ _ (proj1 (hash_for_rsa_iff _ _ _) Hr) Hh').
  - destruct (hash_for_ecdsa _ _) as [h|] eqn:He; cycle 1.
    { split; [|done]. split; [done|].
      intros [h' key' ps Hh'%hash_for_rsa_iff Hk' Hi Hps Hb|h' curve ctx point Hh'%hash_for_ecdsa_iff _ _ _]; congruence. }
    destruct (extract_ec_pubkey _) as [[curve point]|] eqn:Hk; cbn [ok_or result_bind]; cycle 1.
    { split; [|done]. split; [done|].
      intros [h' key' ps Hh'%hash_for_rsa_iff Hk' Hi Hps Hb|h' curve ctx point Hh'%hash_for_ecdsa_iff Hk'%extract_ec_key_of _ _]; congruence. }
    destruct (Hnamed _ _ eq_refl) as [ctx Hc]. pose proof (extract_ec_ok _ _ _ Hok Hk) as Hpt.
    destruct (verify_prehashed_spec curve ctx point (d_signature d) _ (named_curve_new _ _ Hc) (named_curve_sound _ _ Hc) Hpt (digest_bytes_ok h (d_payload d))) as [Hv Hn].
    split; [|by apply map_err_no_panic]. rewrite map_err_Ok, Hv. split.
    + intros Hacc. apply (payload_ecdsa d h curve ctx point); try done; [by apply hash_for_ecdsa_iff|by apply extract_ec_key_of].
    + intros [h' key' ps Hh'%hash_for_rsa_iff _ _ _ _|h' curve' ctx' point' Hh'%hash_for_ecdsa_iff Hk'%extract_ec_key_of Hc' Hacc]; [congruence|].
      rewrite He in Hh'. rewrite Hk in Hk'. simplify_eq. by rewrite (named_curve_unique _ _ _ Hc Hc').
Qed.

(** The digest algorithm is known, the digest attribute is that of the contents when there
    is one, and the signature is that of the attributes, or of the contents without them. *)
Definition cms_valid (sd : SignedData) (spki : bytes) : Prop :=
  ∃ d, Oid_as_bytes (digest_algorithm_oid (sd_signer sd)) = hash_octets d ∧
    (∀ md, message_digest (sd_signer sd) = Some md → HashAlgorithm_digest d (econtent_der sd) = md) ∧
    payload_signed (mkSignatureDispatch (signature_algorithm_oid (sd_signer sd)) d spki
      (default (econtent_der sd) (signed_data_to_verify (sd_signer sd))) (si_signature (sd_signer sd))).


(** Contents the signature does not cover. When the signed attributes are there but none
    of them is a digest, the contents take no part in the verification: any other contents
    are accepted under the same signature, and the table of hashes a verified message
    gives is that of the other contents. *)
Definition with_content (sd : SignedData) (content : bytes) : SignedData :=
  mkSignedData (econtent_type_oid sd) content (certificates_der sd) (sd_signer sd).
Theorem cms_content_unbound sd (spki : SpkiDer) payload content :
  signed_data_to_verify (sd_signer sd) = Some payload → message_digest (sd_signer sd) = None →
  SignedData_verify (with_content sd content) (SpkiDer_as_der spki) = SignedData_verify sd (SpkiDer_as_der spki) ∧
  (SignedData_verify sd (SpkiDer_as_der spki) = Ok tt →
   ∃ v, VerifiedSignedData_verify (with_content sd content) spki = Ok v ∧ lds_security_object v = LdsSecurityObject_parse content).
Proof.
  intros Hs Hm. assert (SignedData_verify (with_content sd content) (SpkiDer_as_der spki) = SignedData_verify sd (SpkiDer_as_der spki)) as He.
  { unfold SignedData_verify. cbn [with_content sd_signer econtent_der]. by rewrite Hm, Hs. }
  split; [done|]. intros Hv. exists (mkVerifiedSignedData (with_content sd content)). split; [|done].
  unfold VerifiedSignedData_verify. by rewrite He, Hv.
Qed.
End valid.

Module sample_message.
Import ber_der dotted_texts monty flat sample_certificate.

Definition signer (attributes : bytes) : bytes :=
  enc Tag_Sequence (enc Tag_Integer [1] ++ enc Tag_Sequence []
    ++ enc Tag_Sequence (enc Tag_ObjectIdentifier (Oid_as_bytes SHA256)) ++ attributes
    ++ enc Tag_Sequence (enc Tag_ObjectIdentifier (Oid_as_bytes SHA256_WITH_RSA))
    ++ enc Tag_OctetString sample_key.zero_digest_signature).
Definition message (attributes content : bytes) : bytes :=
  enc Tag_Sequence (enc Tag_Integer [3] ++ enc Tag_Set []
    ++ enc Tag_Sequence (enc Tag_ObjectIdentifier [0x67; 0x81; 0x08; 0x01; 0x01; 0x01]
         ++ enc VERSION_TAG (enc Tag_OctetString content))
    ++ enc VERSION_TAG der ++ enc Tag_Set (signer attributes)).
(** [messageDigest] of thirty-two zero octets, which is the digest of everything here. *)
Definition digest_attribute : bytes :=
  enc VERSION_TAG (enc Tag_Sequence (enc Tag_ObjectIdentifier (Oid_as_bytes MESSAGE_DIGEST)
    ++ enc Tag_Set (enc Tag_OctetString (replicate 32 0)))).
Lemma spki_is_rsa curve point : ec_key_of rsa_spki curve point → ∃ ctx, named_curve curve ctx.
Proof. intros Hk%extract_ec_key_of. revert Hk. assert (extract_ec_pubkey rsa_spki = None) as -> by by vm_compute. done. Qed.
End sample_message.

Import ber_der dotted_texts monty flat.

Lemma cms_content_unbound_witness :
  ∃ sd spki, SignedData_parse (sample_message.message (sample_certificate.enc VERSION_TAG []) [7; 7]) = Ok sd ∧
    SpkiDer_try_from sample_certificate.rsa_spki = Ok spki ∧
    SignedData_verify (with_content sd [6]) (SpkiDer_as_der spki) = Ok tt.
Proof.
  set (input := sample_message.message (sample_certificate.enc VERSION_TAG []) [7; 7]).
  assert (∃ sd, SignedData_parse input = Ok sd ∧ signed_data_to_verify (sd_signer sd) = Some [Set_TAG; 0] ∧
    message_digest (sd_signer sd) = None ∧ SignedData_verify sd sample_certificate.rsa_spki = Ok tt) as (sd & Hp & Hs & Hm & Hv).
  { eexists. by repeat (split; [vm_compute; reflexivity|]); vm_compute. }
  destruct sample_certificate.spki_parsed as (spki & Hk & _ & Hd). exists sd, spki. split; [exact Hp|]. split; [exact Hk|].
  rewrite <- Hd in Hv. rewrite <- Hv. exact (proj1 (cms_content_unbound sd spki [Set_TAG; 0] [6] Hs Hm)).
Defined.
