(* ===== verification/CardPin.v ===== *)
(** The holder-facing PIN flows: crates/refineid-card-manager-core/src/card_pin.rs,
    changing a PIN, unblocking it with the PUK and activating a new card. They compose
    the session check on the card's serial, the activation judgement, the retry floor
    and the PIN operations. An error text is kept as the values it is formatted from;
    what the report shows of the holder is the identity's. *)

From S2P Require Import Prelude Ber StatusWord Transport Apdu Pin Auth RetryFloor Pkcs15 PinLengths PinOps TokenInfo Identity.

(** ** Identity, session and options *)

Inductive PinManageSlot := Pms_Pin1 | Pms_Pin2.
Definition PinManageSlot_as_pin_slot (s : PinManageSlot) : PinSlot :=
  match s with Pms_Pin1 => Pin1 | Pms_Pin2 => Pin2 end.

(** [PinManagementCardContext], a [BoundCardSession]; the card model is not
    read again. *)
Record BoundCardSession := mkBoundCardSession
  { bcs_reader_id : bytes; bcs_identity : CredentialIdentity; bcs_bound_serial : TokenSerial;
    bcs_numbering : PinReferenceScheme; bcs_scheme : ActivationScheme }.

Record ChangePinOptions := mkChangePinOptions
  { cpo_slot : PinManageSlot; cpo_current : PinBytes; cpo_new : PinBytes }.
Record ChangePinReport := mkChangePinReport
  { cpr_reader : bytes; cpr_card_serial : bytes; cpr_person : bytes; cpr_slot : PinManageSlot;
    cpr_outcome : ChangePinOutcome }.
Record UnblockPinOptions := mkUnblockPinOptions
  { upo_slot : PinManageSlot; upo_puk : Puk; upo_new_pin : PinBytes }.
Record UnblockPinReport := mkUnblockPinReport
  { upr_reader : bytes; upr_card_serial : bytes; upr_person : bytes; upr_slot : PinManageSlot;
    upr_outcome : UnblockOutcome }.
Record ActivateOptions := mkActivateOptions
  { ao_activation_code : PinBytes; ao_new_pin1 : option PinBytes; ao_new_pin2 : option PinBytes;
    ao_allow_reactivate : bool }.

Inductive ActivatePreflightOutcome :=
| Apo_AwaitsActivation (pin1 pin2 : PinActivation)
| Apo_NothingAwaits (pin1 pin2 : PinActivation).
Definition ActivatePreflightOutcome_looks_activated (o : ActivatePreflightOutcome) : bool :=
  match o with Apo_NothingAwaits _ _ => true | _ => false end.

Record ActivateReport := mkActivateReport
  { ar_reader : bytes; ar_preflight : ActivatePreflightOutcome;
    ar_pin1_outcome : option UnblockOutcome; ar_pin2_outcome : option UnblockOutcome }.

(** Why a session is revoked. *)
Inductive RevokedReason (TE : Type) :=
| Rr_ReadFailed (e : Pkcs15Error TE)
| Rr_NoSerial
| Rr_SerialChanged (bound now : TokenSerial).
Arguments Rr_ReadFailed {TE} e.
Arguments Rr_NoSerial {TE}.
Arguments Rr_SerialChanged {TE} bound now.

(** [CardPinError], less the variants only [establish_card_session] and the
    service layer give. [PE] is the error of opening the reader. *)
Inductive CardPinError (TE PE : Type) :=
| Cpe_Pcsc (e : PE)
| Cpe_PinPolicy (reason : PinPolicyReason)
| Cpe_Pkcs15Select (e : Pkcs15Error TE)
| Cpe_Transport (e : TE)
| Cpe_ActivationLengthMismatch (scheme : ActivationScheme) (expected : Z)
| Cpe_CardSessionRevoked (reason : RevokedReason TE)
| Cpe_CardLooksUnactivated (slot : PinManageSlot) (probe : option PinStatus)
| Cpe_RetryFloor (refusal : RetryFloorRefusal)
| Cpe_ActivationEntriesMismatch (pin1_awaits pin2_awaits : bool).
Arguments Cpe_Pcsc {TE PE} e.
Arguments Cpe_PinPolicy {TE PE} reason.
Arguments Cpe_Pkcs15Select {TE PE} e.
Arguments Cpe_Transport {TE PE} e.
Arguments Cpe_ActivationLengthMismatch {TE PE} scheme expected.
Arguments Cpe_CardSessionRevoked {TE PE} reason.
Arguments Cpe_CardLooksUnactivated {TE PE} slot probe.
Arguments Cpe_RetryFloor {TE PE} refusal.
Arguments Cpe_ActivationEntriesMismatch {TE PE} pin1_awaits pin2_awaits.

Definition auth_to_card_pin {TE PE} (e : AuthError TE) : CardPinError TE PE :=
  match e with Ae_Transport t => Cpe_Transport t | Ae_PinPolicy r => Cpe_PinPolicy r end.

(** ** Judgements without the card *)

Definition is_awaiting (p : PinActivation) : bool :=
  match p with Pa_AwaitsActivation => true | Pa_Activated => false end.

Definition classify_preflight (pin1 pin2 : PinActivation) : ActivatePreflightOutcome :=
  if is_awaiting pin1 || is_awaiting pin2 then Apo_AwaitsActivation pin1 pin2 else Apo_NothingAwaits pin1 pin2.

Definition activation_targets {TE PE} (pin1 pin2 : PinActivation) (pin1_entered pin2_entered allow_reactivate : bool)
  : result (CardPinError TE PE) (bool * bool) :=
  let pin1_awaits := is_awaiting pin1 in
  let pin2_awaits := is_awaiting pin2 in
  let matches_card := Bool.eqb pin1_entered pin1_awaits && Bool.eqb pin2_entered pin2_awaits in
  if (pin1_entered || pin2_entered) && (allow_reactivate || matches_card)
  then Ok (pin1_entered, pin2_entered)
  else Err (Cpe_ActivationEntriesMismatch pin1_awaits pin2_awaits).

Definition change_to_unblock (o : ChangePinOutcome) : UnblockOutcome :=
  match o with
  | Cp_Ok => Ub_Ok
  | Cp_WrongCurrentPin retries_left => Ub_WrongPuk retries_left
  | Cp_Locked => Ub_PukLocked
  | Cp_LengthError => Ub_LengthError
  | Cp_Other sw => Ub_Other sw
  end.

Definition activation_continues_after_pin1 (o : UnblockOutcome) : bool := bool_decide (o = Ub_Ok).

Definition activation_code_for {TE PE} (scheme : ActivationScheme) (code : PinBytes)
  : result (CardPinError TE PE) ActivationCode :=
  map_err (λ error, match error with
                    | Pre_NonDigit at_ => Cpe_PinPolicy (Ppr_NonDigit at_)
                    | Pre_Empty | Pre_WrongLength _ _ _ =>
                        Cpe_ActivationLengthMismatch scheme (ActivationScheme_activation_entry_digit_count scheme)
                    end) (ActivationCode_for_scheme scheme code).

Section entries.
Context {R : Type} `{PasswordLengthRange R} {TE PE : Type}.

(** The [for] over the two slots. *)
Fixpoint check_activation_entries_loop (lengths : CardPinLengths R) (code : ActivationCode)
  (entries : list (PinSlot * option PinBytes)) : result (CardPinError TE PE) unit :=
  match entries with
  | [] => Ok tt
  | (_, None) :: entries => check_activation_entries_loop lengths code entries
  | (slot, Some pin) :: entries =>
      let code_length := PinBytes_digit_count (ActivationCode_to_pin_bytes code) in
      let? _ := map_err Cpe_PinPolicy match code with
                                      | Ac_Seven _ => check_pin lengths slot code_length
                                      | Ac_Eight _ => check_puk lengths code_length
                                      end in
      let? _ := map_err Cpe_PinPolicy (check_pin lengths slot (PinBytes_digit_count pin)) in
      check_activation_entries_loop lengths code entries
  end.
Definition check_activation_entries (lengths : CardPinLengths R) (code : ActivationCode)
  (new_pin1 new_pin2 : option PinBytes) : result (CardPinError TE PE) unit :=
  check_activation_entries_loop lengths code [(Pin1, new_pin1); (Pin2, new_pin2)].
End entries.

(** ** The flows *)

(** [.ok()] on the result of a method. *)
Definition act_ok {T E F A} (m : act T E A) : act T F (option A) := λ t,
  match m t with
  | (t, Ok a) => (t, Ok (Some a))
  | (t, Err _) => (t, Ok None)
  | (t, Panic) => (t, Panic)
  end.

Section flows.
Context `{CardTransport T E} {PE : Type}.
Abbreviation TE := (TransportDispatchError E).
Abbreviation flow A := (act T (CardPinError TE PE) A).

Definition probe_pin_activation (numbering : PinReferenceScheme) (scheme : ActivationScheme) (slot : PinSlot)
  : flow (option PinStatus * PinActivation) :=
  do! status := act_ok (pin_status_with_scheme numbering slot) in
  do! changed := act_ok (pin_changed_flag_with_scheme numbering slot) in
  act_ret (status, PinActivation_judge scheme (mjoin changed) status).

Definition require_activated (ctx : BoundCardSession) (slot : PinManageSlot) : flow PinStatus :=
  do! (probe, verdict) :=
    probe_pin_activation (bcs_numbering ctx) (bcs_scheme ctx) (PinManageSlot_as_pin_slot slot) in
  match verdict, probe with
  | Pa_Activated, Some status => act_ret status
  | _, _ => act_err (Cpe_CardLooksUnactivated slot probe)
  end.

Definition re_verify_session (bound_serial : TokenSerial) : flow unit :=
  do! token := act_map_err (λ e, Cpe_CardSessionRevoked (Rr_ReadFailed e)) read_token_info in
  do! now_serial := act_lift (ok_or (ti_serial_number_hex token) (Cpe_CardSessionRevoked Rr_NoSerial)) in
  let current_full := render_token_serial now_serial in
  if decide (current_full = bound_serial) then act_ret tt
  else act_err (Cpe_CardSessionRevoked (Rr_SerialChanged bound_serial current_full)).

Definition puk_retry_floor (numbering : PinReferenceScheme) : flow unit :=
  do! status := act_map_err auth_to_card_pin (puk_status_with_scheme numbering) in
  act_lift (map_err Cpe_RetryFloor (check_puk_retry_floor status)).

Context {R O : Type} `{PasswordLengthRange R} `{!AuthenticationObjectsOps R O}.

Definition activate_slot_setup (lengths : CardPinLengths R) (slot : PinSlot) (activation_code : ActivationCode)
  (new_pin : PinBytes) : flow UnblockOutcome :=
  match activation_code with
  | Ac_Seven _ =>
      do! status := act_map_err auth_to_card_pin (pin_status_with_scheme (cpl_numbering lengths) slot) in
      do! _ := act_lift (map_err Cpe_RetryFloor (check_activation_last_tries (FlooredCredential_from slot) status)) in
      do! o := act_map_err auth_to_card_pin
                 (change_pin lengths slot (ActivationCode_to_pin_bytes activation_code) new_pin) in
      act_ret (change_to_unblock o)
  | Ac_Eight _ =>
      do! _ := puk_retry_floor (cpl_numbering lengths) in
      act_map_err auth_to_card_pin
        (reset_retry_counter lengths slot (ActivationCode_to_pin_bytes activation_code) new_pin)
  end.

(** The common start: the PKCS#15 application, the serial, the lengths. *)
Definition begin_session (bound_serial : TokenSerial) : flow (CardPinLengths R) :=
  do! _ := act_map_err Cpe_Pkcs15Select select_pkcs15_application in
  do! _ := re_verify_session bound_serial in
  act_map_err auth_to_card_pin (read_card_pin_lengths (R:=R) (O:=O)).

Definition change_pin_session (ctx : BoundCardSession) (options : ChangePinOptions) : flow ChangePinReport :=
  do! lengths := begin_session (bcs_bound_serial ctx) in
  let slot := PinManageSlot_as_pin_slot (cpo_slot options) in
  do! status := require_activated ctx (cpo_slot options) in
  do! _ := act_lift (map_err Cpe_RetryFloor (check_retry_floor (FlooredCredential_from slot) status)) in
  do! _ := re_verify_session (bcs_bound_serial ctx) in
  do! outcome := act_map_err auth_to_card_pin (change_pin lengths slot (cpo_current options) (cpo_new options)) in
  act_ret (mkChangePinReport (bcs_reader_id ctx)
    (default [] (CredentialIdentity_best_serial (bcs_identity ctx)))
    (CredentialIdentity_person_string (bcs_identity ctx)) (cpo_slot options) outcome).

Definition unblock_pin_session (ctx : BoundCardSession) (options : UnblockPinOptions) : flow UnblockPinReport :=
  do! lengths := begin_session (bcs_bound_serial ctx) in
  let slot := PinManageSlot_as_pin_slot (upo_slot options) in
  do! _ := require_activated ctx (upo_slot options) in
  do! _ := re_verify_session (bcs_bound_serial ctx) in
  do! _ := puk_retry_floor (bcs_numbering ctx) in
  do! outcome := act_map_err auth_to_card_pin
                   (reset_retry_counter lengths slot (Puk_to_pin_bytes (upo_puk options)) (upo_new_pin options)) in
  act_ret (mkUnblockPinReport (bcs_reader_id ctx)
    (default [] (CredentialIdentity_best_serial (bcs_identity ctx)))
    (CredentialIdentity_person_string (bcs_identity ctx)) (upo_slot options) outcome).

(** [re_verify_session] and [activate_slot_setup] of one entered PIN. *)
Definition activate_entry (bound_serial : TokenSerial) (lengths : CardPinLengths R) (slot : PinSlot)
  (code : ActivationCode) (new_pin : option PinBytes) : flow (option UnblockOutcome) :=
  match new_pin with
  | None => act_ret None
  | Some new_pin =>
      do! _ := re_verify_session bound_serial in
      do! outcome := activate_slot_setup lengths slot code new_pin in
      act_ret (Some outcome)
  end.

(** The two setups, PIN 1 first; PIN 2 only when PIN 1 was set or not entered. *)
Definition activate_slots (ctx : BoundCardSession) (lengths : CardPinLengths R) (code : ActivationCode)
  (options : ActivateOptions) (preflight : ActivatePreflightOutcome) : flow ActivateReport :=
  do! pin1_outcome := activate_entry (bcs_bound_serial ctx) lengths Pin1 code (ao_new_pin1 options) in
  if from_option (λ o, negb (activation_continues_after_pin1 o)) false pin1_outcome
  then act_ret (mkActivateReport (bcs_reader_id ctx) preflight pin1_outcome None)
  else
    do! pin2_outcome := activate_entry (bcs_bound_serial ctx) lengths Pin2 code (ao_new_pin2 options) in
    act_ret (mkActivateReport (bcs_reader_id ctx) preflight pin1_outcome pin2_outcome).

Definition activate_session (ctx : BoundCardSession) (code : ActivationCode) (options : ActivateOptions)
  : flow ActivateReport :=
  do! lengths := begin_session (bcs_bound_serial ctx) in
  do! (_, pin1) := probe_pin_activation (bcs_numbering ctx) (bcs_scheme ctx) Pin1 in
  do! (_, pin2) := probe_pin_activation (bcs_numbering ctx) (bcs_scheme ctx) Pin2 in
  let preflight := classify_preflight pin1 pin2 in
  if negb (ao_allow_reactivate options) && ActivatePreflightOutcome_looks_activated preflight
  then act_ret (mkActivateReport (bcs_reader_id ctx) preflight None None)
  else
    do! _ := act_lift (activation_targets pin1 pin2 (bool_decide (is_Some (ao_new_pin1 options)))
                         (bool_decide (is_Some (ao_new_pin2 options))) (ao_allow_reactivate options)) in
    do! _ := act_lift (check_activation_entries lengths code (ao_new_pin1 options) (ao_new_pin2 options)) in
    activate_slots ctx lengths code options preflight.

(** [backend.open_exclusive(..)?]: the flow runs on the transport it gives,
    and the transport is released with it. *)
Definition with_transport {A} (opened : result PE T) (m : flow A) : option T * result (CardPinError TE PE) A :=
  match opened with
  | Ok t => let '(t, r) := m t in (Some t, r)
  | Err e => (None, Err (Cpe_Pcsc e))
  | Panic => (None, Panic)
  end.

Definition change_pin_first (opened : result PE T) (ctx : BoundCardSession) (options : ChangePinOptions) :=
  with_transport opened (change_pin_session ctx options).
Definition unblock_pin_first (opened : result PE T) (ctx : BoundCardSession) (options : UnblockPinOptions) :=
  with_transport opened (unblock_pin_session ctx options).

(** The activation code is checked before the reader is opened. *)
Definition activate_first (opened : result PE T) (ctx : BoundCardSession) (options : ActivateOptions)
  : option T * result (CardPinError TE PE) ActivateReport :=
  match activation_code_for (bcs_scheme ctx) (ao_activation_code options) with
  | Ok code => with_transport opened (activate_session ctx code options)
  | Err e => (None, Err e)
  | Panic => (None, Panic)
  end.
End flows.

(** ** Lemmas *)

(** A method that costs no try, on every path. *)
Abbreviation quiet := (sends_only spends_no_try).

(** One step of a flow: the quiet part either goes on or ends the flow, and
    what was sent meanwhile is quiet. *)
Lemma quiet_step {T F A B} (m : act (Logged T) F A) (k : A → act (Logged T) F B) t :
  quiet m →
  ∃ t1 cs, sent t1 = sent t ++ cs ∧ Forall spends_no_try cs
    ∧ ((∃ a, m t = (t1, Ok a) ∧ act_bind m k t = k a t1)
       ∨ ((act_bind m k t).1 = t1 ∧ ∀ b, (act_bind m k t).2 ≠ Ok b)).
Proof.
  intros Hm. destruct (Hm t) as (cs & Hcs & Hall). unfold act_bind.
  destruct (m t) as [t1 [a|e|]]; exists t1, cs; (split; [done|split; [done|]]); [left; by exists a|right; done..].
Qed.

Section quiet.
Context `{CardTransport T E} {PE : Type}.

Lemma quiet_act_ok {X F A} (m : act (Logged T) X A) : quiet m → quiet (act_ok (F:=F) m).
Proof.
  intros Hm t. destruct (Hm t) as (cs & ? & ?). exists cs. unfold act_ok.
  by destruct (m t) as [t' [a|e|]].
Qed.

Lemma quiet_read_der what : quiet (read_binary_der_object (T:=Logged T) what).
Proof.
  unfold read_binary_der_object. apply sends_only_loop. intros [collected total]. unfold read_der_round.
  destruct (_ >=? _); [apply sends_only_ret|]. destruct (_ >? _); [apply sends_only_err|].
  apply sends_only_bind; [by apply no_try_p15|intros r].
  destruct (_ && _); [apply sends_only_err|]. destruct (_ >? _); [apply sends_only_err|].
  destruct (_ =? 0); [destruct (_ =? 0); apply sends_only_err|].
  apply sends_only_bind; [apply sends_only_lift|intros [n|]].
  - destruct (_ >=? _); [apply sends_only_ret|]. destruct (_ || _); [apply sends_only_err|apply sends_only_ret].
  - destruct (_ || _); [apply sends_only_err|apply sends_only_ret].
Qed.

Lemma quiet_token_info : quiet (read_token_info (T:=Logged T)).
Proof.
  unfold read_token_info. apply sends_only_bind; [apply no_try_select_app|intros _].
  apply sends_only_bind; [apply no_try_select_ef|intros _].
  apply sends_only_bind; [apply quiet_read_der|intros bs; apply sends_only_lift].
Qed.

Lemma quiet_re_verify serial : quiet (re_verify_session (T:=Logged T) (PE:=PE) serial).
Proof.
  unfold re_verify_session. apply sends_only_bind; [apply sends_only_map_err, quiet_token_info|].
  - intros token. apply sends_only_bind; [apply sends_only_lift|intros s].
    destruct (decide _); [apply sends_only_ret|apply sends_only_err].
Qed.

Lemma quiet_pin_status scheme slot : quiet (pin_status_with_scheme (T:=Logged T) scheme slot).
Proof. apply sends_only_bind; [apply no_try_probe|intros sw; apply sends_only_ret]. Qed.

Lemma quiet_changed_flag scheme slot : quiet (pin_changed_flag_with_scheme (T:=Logged T) scheme slot).
Proof.
  apply sends_only_bind; [by apply no_try_auth|intros r]. destruct (negb _); apply sends_only_ret.
Qed.

Lemma quiet_puk_status scheme : quiet (puk_status_with_scheme (T:=Logged T) scheme).
Proof.
  unfold puk_status_with_scheme. case_decide.
  - apply sends_only_bind; [apply no_try_probe|intros sw; apply sends_only_ret].
  - apply sends_only_bind; [by apply no_try_auth|intros r].
    destruct (ResponseApdu_is_ok r); apply sends_only_ret.
Qed.

Lemma quiet_probe numbering scheme slot :
  quiet (probe_pin_activation (T:=Logged T) (PE:=PE) numbering scheme slot).
Proof.
  apply sends_only_bind; [apply quiet_act_ok, quiet_pin_status|intros status].
  apply sends_only_bind; [apply quiet_act_ok, quiet_changed_flag|intros changed; apply sends_only_ret].
Qed.

Lemma quiet_require_activated ctx slot : quiet (require_activated (T:=Logged T) (PE:=PE) ctx slot).
Proof.
  apply sends_only_bind; [apply quiet_probe|intros [probe verdict]].
  destruct verdict, probe; (apply sends_only_ret || apply sends_only_err).
Qed.

Lemma quiet_puk_floor numbering : quiet (puk_retry_floor (T:=Logged T) (PE:=PE) numbering).
Proof.
  apply sends_only_bind; [apply sends_only_map_err, quiet_puk_status|intros status; apply sends_only_lift].
Qed.

Context {R O : Type} `{PasswordLengthRange R} `{!AuthenticationObjectsOps R O}.

Lemma quiet_begin serial : quiet (begin_session (T:=Logged T) (PE:=PE) (R:=R) (O:=O) serial).
Proof.
  apply sends_only_bind; [apply sends_only_map_err, no_try_select_app|intros _].
  apply sends_only_bind; [apply quiet_re_verify|intros _]. apply sends_only_map_err, no_try_read_lengths.
Qed.
End quiet.

(** What the judgement of a status says, on the values. *)
Lemma retry_floor_served slot status :
  check_retry_floor (FlooredCredential_from slot) status = Ok tt →
  status = Ps_Verified ∨ ∃ r, status = Ps_Remaining r ∧ 3 ≤ PinRetries_0 r ≤ 5.
Proof.
  destruct status as [|r| | |sw]; cbn; [by left| |by destruct slot..].
  pose proof (from_retries_spec r) as Hr.
  destruct (PinRetryRisk_from_retries r) as [[]|], slot; cbn; intros [=]; right; exists r; (split; [done|lia]).
Qed.

Lemma puk_floor_served status :
  check_puk_retry_floor status = Ok tt →
  status = Pk_Locked ∨ status = Pk_Invalidated
  ∨ ∃ r, status = Pk_Remaining r ∧ (3 ≤ PinRetries_0 r ≤ 5 ∨ PinRetries_0 r = 0).
Proof.
  unfold check_puk_retry_floor. destruct status as [r| | | |sw]; cbn; try naive_solver.
  pose proof (from_retries_spec r) as Hr.
  destruct (PinRetryRisk_from_retries r) as [[]|]; cbn; intros [=]; right; right; exists r; (split; [done|lia]).
Qed.

Lemma last_tries_served slot status :
  check_activation_last_tries (FlooredCredential_from slot) status = Ok tt →
  status = Ps_Verified ∨ status = Ps_Locked
  ∨ ∃ r, status = Ps_Remaining r ∧ (3 ≤ PinRetries_0 r ≤ 5 ∨ PinRetries_0 r = 0).
Proof.
  destruct status as [|r| | |sw]; cbn; try naive_solver.
  pose proof (from_retries_spec r) as Hr.
  destruct (PinRetryRisk_from_retries r) as [[]|]; cbn; intros [=]; right; right; exists r; (split; [done|lia]).
Qed.

Section gates.
Context `{CardTransport T E} {PE : Type}.

(** A serial check that passed read the bound serial from the card. *)
Lemma re_verify_Ok serial (t t1 : T) :
  re_verify_session (PE:=PE) serial t = (t1, Ok tt) →
  ∃ token hex, read_token_info t = (t1, Ok token) ∧ ti_serial_number_hex token = Some hex
    ∧ render_token_serial hex = serial.
Proof.
  intros (t2 & token & Htok & Hk)%act_bind_inv_ok. unfold act_map_err in Htok.
  destruct (read_token_info t) as [t3 [tok|e|]] eqn:Hread; try done. injection Htok as -> ->.
  apply act_bind_inv_ok in Hk as (t4 & s & Hs & Hk). unfold act_lift in Hs.
  injection Hs as -> Hs%ok_or_inv. cbn zeta in Hk.
  destruct (decide (render_token_serial s = serial)); [|done]. injection Hk as ->.
  by exists token, s.
Qed.

(** What lets a PIN be changed or unblocked: a status, and the judgement that
    the PIN is in use. *)
Lemma require_activated_Ok ctx slot (t t2 : T) status :
  require_activated (PE:=PE) ctx slot t = (t2, Ok status) →
  ∃ t1 changed,
    pin_status_with_scheme (bcs_numbering ctx) (PinManageSlot_as_pin_slot slot) t = (t1, Ok status)
    ∧ act_ok (F:=unit) (pin_changed_flag_with_scheme (bcs_numbering ctx) (PinManageSlot_as_pin_slot slot)) t1
      = (t2, Ok changed)
    ∧ PinActivation_judge (bcs_scheme ctx) (mjoin changed) (Some status) = Pa_Activated.
Proof.
  intros (t3 & [probe verdict] & Hp & Hk)%act_bind_inv_ok.
  apply act_bind_inv_ok in Hp as (t1 & st & Hst & Hp). apply act_bind_inv_ok in Hp as (t4 & ch & Hch & Hp).
  unfold act_ret in Hp. injection Hp as <- <- <-.
  destruct (PinActivation_judge _ _ _) eqn:Hj, st as [st|]; try done. injection Hk as <- <-.
  exists t1, ch. split.
  - unfold act_ok in Hst. destruct (pin_status_with_scheme _ _ t) as [u [x|e|]]; congruence.
  - split; [|done]. unfold act_ok in Hch |- *.
    destruct (pin_changed_flag_with_scheme _ _ t1) as [u' [x|e|]]; congruence.
Qed.
End gates.

(** ** The flows over a log *)


(** Walk over the next quiet step of a flow: [H] says what it sent and whether
    the flow goes on. *)
Ltac quiet_next tac H :=
  match goal with |- context [act_bind ?m ?k ?t] =>
    let Hq := fresh "Hq" in
    assert (sends_only spends_no_try m) as Hq by tac;
    pose proof (quiet_step m k t Hq) as H; clear Hq
  end.

(** What the flow of a command leaves in the log: quiet commands, then at most
    those of the command itself. *)
Section change.
Context `{CardTransport T E} {PE R : Type} {O : Type} `{PasswordLengthRange R} `{!AuthenticationObjectsOps R O}.

(** The gates in front of CHANGE REFERENCE DATA, in the order they are passed. *)
Definition change_gates (ctx : BoundCardSession) (slot : PinManageSlot) (t t1 : Logged T)
  (lengths : CardPinLengths R) : Prop :=
  ∃ u v w status changed token hex,
    begin_session (PE:=PE) (O:=O) (bcs_bound_serial ctx) t = (u, Ok lengths)
    ∧ pin_status_with_scheme (bcs_numbering ctx) (PinManageSlot_as_pin_slot slot) u = (v, Ok status)
    ∧ act_ok (F:=unit) (pin_changed_flag_with_scheme (bcs_numbering ctx) (PinManageSlot_as_pin_slot slot)) v
      = (w, Ok changed)
    ∧ PinActivation_judge (bcs_scheme ctx) (mjoin changed) (Some status) = Pa_Activated
    ∧ (status = Ps_Verified ∨ ∃ r, status = Ps_Remaining r ∧ 3 ≤ PinRetries_0 r ≤ 5)
    ∧ read_token_info w = (t1, Ok token) ∧ ti_serial_number_hex token = Some hex
    ∧ render_token_serial hex = bcs_bound_serial ctx.

Lemma change_pin_session_gated ctx options (t : Logged T) :
  let out := change_pin_session (PE:=PE) (R:=R) (O:=O) ctx options t in
  ∃ cs, Forall spends_no_try cs
  ∧ ((sent out.1 = sent t ++ cs ∧ ∀ report, out.2 ≠ Ok report)
     ∨ ∃ lengths t1, change_gates ctx (cpo_slot options) t t1 lengths
       ∧ sent t1 = sent t ++ cs
       ∧ out.1 = (change_pin lengths (PinManageSlot_as_pin_slot (cpo_slot options)) (cpo_current options)
                    (cpo_new options) t1).1
       ∧ ∀ report, out.2 = Ok report →
           (change_pin lengths (PinManageSlot_as_pin_slot (cpo_slot options)) (cpo_current options)
                    (cpo_new options) t1).2 = Ok (cpr_outcome report)).
Proof.
  intros out. unfold out, change_pin_session. set (slot := PinManageSlot_as_pin_slot (cpo_slot options)).
  quiet_next ltac:(apply quiet_begin) H1.
  destruct H1 as (t1 & c1 & Hs1 & Ha1 & [(lengths & Hm1 & Hr1)|[Hr1 Hn1]]); [|exists c1; split; [done|left; rewrite Hr1; done]].
  rewrite Hr1. clear Hr1.
  quiet_next ltac:(apply quiet_require_activated) H2.
  destruct H2 as (t2 & c2 & Hs2 & Ha2 & [(status & Hm2 & Hr2)|[Hr2 Hn2]]);
    [|exists (c1 ++ c2); split; [by apply Forall_app|left; rewrite Hr2, app_assoc, <- Hs1; done]].
  rewrite Hr2. clear Hr2.
  destruct (check_retry_floor (FlooredCredential_from slot) status) as [[]|e|] eqn:Hfloor;
    [|exists (c1 ++ c2); split; [by apply Forall_app|left; rewrite app_assoc, <- Hs1; done]..].
  cbn [map_err]. rewrite !act_lift_ok.
  quiet_next ltac:(apply quiet_re_verify) H3.
  destruct H3 as (t3 & c3 & Hs3 & Ha3 & [([] & Hm3 & Hr3)|[Hr3 Hn3]]);
    [|exists (c1 ++ c2 ++ c3); split; [by rewrite !Forall_app|left; rewrite Hr3, !app_assoc, <- Hs1, <- Hs2; done]].
  rewrite Hr3. clear Hr3. exists (c1 ++ c2 ++ c3). split; [by rewrite !Forall_app|]. right.
  exists lengths, t3. split; [|split; [by rewrite !app_assoc, <- Hs1, <- Hs2|]].
  - apply require_activated_Ok in Hm2 as (v & ch & Hst & Hch & Hj).
    apply re_verify_Ok in Hm3 as (token & hex & Htok & Hhex & Hser).
    apply retry_floor_served in Hfloor. by exists t1, v, t2, status, ch, token, hex.
  - unfold act_bind, act_map_err. destruct (change_pin _ _ _ _ t3) as [t4 [o|e|]]; cbn; (split; [done|]);
      intros report; [|done..]. by intros [= <-].
Qed.
End change.

Section unblock.
Context `{CardTransport T E} {PE R : Type} {O : Type} `{PasswordLengthRange R} `{!AuthenticationObjectsOps R O}.

Lemma puk_retry_floor_Ok numbering (t t1 : T) :
  puk_retry_floor (PE:=PE) numbering t = (t1, Ok tt) →
  ∃ status, puk_status_with_scheme numbering t = (t1, Ok status)
    ∧ (status = Pk_Locked ∨ status = Pk_Invalidated
       ∨ ∃ r, status = Pk_Remaining r ∧ (3 ≤ PinRetries_0 r ≤ 5 ∨ PinRetries_0 r = 0)).
Proof.
  intros (t2 & status & Hst & Hk)%act_bind_inv_ok. unfold act_map_err in Hst.
  destruct (puk_status_with_scheme numbering t) as [t3 [s|e|]]; try done. injection Hst as -> ->.
  unfold act_lift in Hk. destruct (check_puk_retry_floor status) as [[]|e|] eqn:Hc; try done.
  injection Hk as ->. exists status. split; [done|]. by apply puk_floor_served.
Qed.

(** The gates in front of RESET RETRY COUNTER. *)
Definition unblock_gates (ctx : BoundCardSession) (slot : PinManageSlot) (t t1 : Logged T)
  (lengths : CardPinLengths R) : Prop :=
  ∃ u v w x status changed token hex puk,
    begin_session (PE:=PE) (O:=O) (bcs_bound_serial ctx) t = (u, Ok lengths)
    ∧ pin_status_with_scheme (bcs_numbering ctx) (PinManageSlot_as_pin_slot slot) u = (v, Ok status)
    ∧ act_ok (F:=unit) (pin_changed_flag_with_scheme (bcs_numbering ctx) (PinManageSlot_as_pin_slot slot)) v
      = (w, Ok changed)
    ∧ PinActivation_judge (bcs_scheme ctx) (mjoin changed) (Some status) = Pa_Activated
    ∧ read_token_info w = (x, Ok token) ∧ ti_serial_number_hex token = Some hex
    ∧ render_token_serial hex = bcs_bound_serial ctx
    ∧ puk_status_with_scheme (bcs_numbering ctx) x = (t1, Ok puk)
    ∧ (puk = Pk_Locked ∨ puk = Pk_Invalidated
       ∨ ∃ r, puk = Pk_Remaining r ∧ (3 ≤ PinRetries_0 r ≤ 5 ∨ PinRetries_0 r = 0)).
End unblock.

Section activate.
Context `{CardTransport T E} {PE R : Type} {O : Type} `{PasswordLengthRange R} `{!AuthenticationObjectsOps R O}.

(** The command that sets a PIN: a change of the preset PIN, or a reset with
    the code that is the PUK. *)
Definition slot_setup (lengths : CardPinLengths R) (slot : PinSlot) (code : ActivationCode) (new_pin : PinBytes)
  : act (Logged T) (AuthError (TransportDispatchError E)) UnblockOutcome :=
  match code with
  | Ac_Seven _ =>
      do! o := change_pin lengths slot (ActivationCode_to_pin_bytes code) new_pin in act_ret (change_to_unblock o)
  | Ac_Eight _ => reset_retry_counter lengths slot (ActivationCode_to_pin_bytes code) new_pin
  end.

(** Its gates: the serial again, then the counter of the credential the code
    is presented as: never with one or two tries left. *)
Definition slot_gates (bound : TokenSerial) (lengths : CardPinLengths R) (slot : PinSlot) (code : ActivationCode)
  (t t1 : Logged T) : Prop :=
  ∃ u token hex, read_token_info t = (u, Ok token) ∧ ti_serial_number_hex token = Some hex
    ∧ render_token_serial hex = bound
    ∧ match code with
      | Ac_Seven _ => ∃ status, pin_status_with_scheme (cpl_numbering lengths) slot u = (t1, Ok status)
          ∧ (status = Ps_Verified ∨ status = Ps_Locked
             ∨ ∃ r, status = Ps_Remaining r ∧ (3 ≤ PinRetries_0 r ≤ 5 ∨ PinRetries_0 r = 0))
      | Ac_Eight _ => ∃ status, puk_status_with_scheme (cpl_numbering lengths) u = (t1, Ok status)
          ∧ (status = Pk_Locked ∨ status = Pk_Invalidated
             ∨ ∃ r, status = Pk_Remaining r ∧ (3 ≤ PinRetries_0 r ≤ 5 ∨ PinRetries_0 r = 0))
      end.

(** A slot's part of the flow: it fails quietly, or runs the setup behind the
    gates. *)
Definition slot_part (bound : TokenSerial) (lengths : CardPinLengths R) (slot : PinSlot) (code : ActivationCode)
  (new_pin : PinBytes) (t : Logged T)
  (out : Logged T * result (CardPinError (TransportDispatchError E) PE) UnblockOutcome) : Prop :=
  ∃ cs, Forall spends_no_try cs
    ∧ ((sent out.1 = sent t ++ cs ∧ ∀ o, out.2 ≠ Ok o)
       ∨ ∃ t1, slot_gates bound lengths slot code t t1 ∧ sent t1 = sent t ++ cs
         ∧ out.1 = (slot_setup lengths slot code new_pin t1).1
         ∧ ∀ o, out.2 = Ok o → (slot_setup lengths slot code new_pin t1).2 = Ok o).

Lemma activate_slot_part bound lengths slot code new_pin (t : Logged T) :
  slot_part bound lengths slot code new_pin t
    ((do! _ := re_verify_session bound in activate_slot_setup lengths slot code new_pin) t).
Proof.
  unfold slot_part. quiet_next ltac:(apply quiet_re_verify) H1.
  destruct H1 as (t1 & c1 & Hs1 & Ha1 & [([] & Hm1 & Hr1)|[Hr1 Hn1]]);
    [|exists c1; split; [done|left; rewrite Hr1; done]].
  rewrite Hr1. clear Hr1. apply re_verify_Ok in Hm1 as (token & hex & Htok & Hhex & Hser).
  unfold activate_slot_setup, slot_setup, slot_gates. destruct code as [p|p].
  - quiet_next ltac:(apply sends_only_map_err, quiet_pin_status) H2.
    destruct H2 as (t2 & c2 & Hs2 & Ha2 & [(status & Hm2 & Hr2)|[Hr2 Hn2]]);
      [|exists (c1 ++ c2); split; [by apply Forall_app|left; rewrite Hr2, app_assoc, <- Hs1; done]].
    rewrite Hr2. clear Hr2.
    destruct (check_activation_last_tries (FlooredCredential_from slot) status) as [[]|e|] eqn:Hfloor;
      [|exists (c1 ++ c2); split; [by apply Forall_app|left; rewrite app_assoc, <- Hs1; done]..].
    cbn [map_err]. rewrite act_lift_ok. exists (c1 ++ c2). split; [by apply Forall_app|]. right. exists t2.
    split; [|split; [by rewrite app_assoc, <- Hs1|]].
    + exists t1, token, hex. split_and!; [done..|]. exists status. split; [|by apply (last_tries_served slot)].
      unfold act_map_err in Hm2. destruct (pin_status_with_scheme _ _ t1) as [u [x|e|]]; cbn in Hm2; congruence.
    + unfold act_bind, act_map_err. destruct (change_pin _ _ _ _ t2) as [t3 [o|e|]]; cbn; (split; [done|]);
        intros o'; [|done..]. by intros [= <-].
  - quiet_next ltac:(apply quiet_puk_floor) H2.
    destruct H2 as (t2 & c2 & Hs2 & Ha2 & [([] & Hm2 & Hr2)|[Hr2 Hn2]]);
      [|exists (c1 ++ c2); split; [by apply Forall_app|left; rewrite Hr2, app_assoc, <- Hs1; done]].
    rewrite Hr2. clear Hr2. exists (c1 ++ c2). split; [by apply Forall_app|]. right. exists t2.
    split; [|split; [by rewrite app_assoc, <- Hs1|]].
    + exists t1, token, hex. split_and!; [done..|]. by apply puk_retry_floor_Ok in Hm2.
    + unfold act_map_err. destruct (reset_retry_counter _ _ _ _ t2) as [t3 [o|e|]]; cbn; (split; [done|]);
        intros o'; [|done..]. by intros [= <-].
Qed.

(** The judgement of one PIN on the card. *)
Lemma probe_Ok numbering scheme slot (t t1 : Logged T) r :
  probe_pin_activation (PE:=PE) numbering scheme slot t = (t1, Ok r) →
  ∃ u status changed, act_ok (F:=unit) (pin_status_with_scheme numbering slot) t = (u, Ok status)
    ∧ act_ok (F:=unit) (pin_changed_flag_with_scheme numbering slot) u = (t1, Ok changed)
    ∧ r = (status, PinActivation_judge scheme (mjoin changed) status).
Proof.
  intros (u & status & Hst & Hk)%act_bind_inv_ok. apply act_bind_inv_ok in Hk as (v & changed & Hch & Hk).
  unfold act_ret in Hk. injection Hk as <- <-. exists u, status, changed. unfold act_ok in *.
  split; [destruct (pin_status_with_scheme _ _ t) as [? [?|?|]]; congruence|].
  split; [destruct (pin_changed_flag_with_scheme _ _ u) as [? [?|?|]]; congruence|done].
Qed.

Lemma activation_targets_Ok p1 p2 e1 e2 allow r :
  activation_targets (TE:=TransportDispatchError E) (PE:=PE) p1 p2 e1 e2 allow = Ok r →
  (e1 = true ∨ e2 = true) ∧ (allow = true ∨ (e1 = is_awaiting p1 ∧ e2 = is_awaiting p2)).
Proof.
  unfold activation_targets. destruct e1, e2, allow, p1, p2; cbn; intros [=]; naive_solver.
Qed.
End activate.

(** ** Properties *)

(** A PIN is changed only behind every gate. Whatever the card does, the
    whole flow sends nothing that costs a try but, at its very end, one CHANGE
    REFERENCE DATA; and that is sent only when the card carried the bound serial
    at the start and again right before it, the PIN is judged to be in use, and
    its status was verified or showed three to five tries. Without that command
    no report is given, and a report's outcome is what the card answered to
    it. *)
Theorem change_pin_gated `{CardTransport T E} {PE R : Type} {O : Type} `{PasswordLengthRange R}
  `{!AuthenticationObjectsOps R O} ctx options (t : Logged T)
  (Hcur : PinBytes_wf (cpo_current options)) (Hnew : PinBytes_wf (cpo_new options)) :
  let out := change_pin_session (PE:=PE) (R:=R) (O:=O) ctx options t in
  let slot := PinManageSlot_as_pin_slot (cpo_slot options) in
  ∃ cs, Forall spends_no_try cs
  ∧ ((sent out.1 = sent t ++ cs ∧ ∀ report, out.2 ≠ Ok report)
     ∨ ∃ lengths t1, change_gates (PE:=PE) (O:=O) ctx (cpo_slot options) t t1 lengths
       ∧ sent t1 = sent t ++ cs
       ∧ let apdu := change_pin_apdu lengths slot (cpo_current options) (cpo_new options) in
         sent out.1 = sent t ++ cs ++ [CommandApdu_new apdu]
         ∧ ∀ report, out.2 = Ok report → ∃ t' rsp,
             transmit apdu (card t1) = (t', Ok rsp)
             ∧ cpr_outcome report = classify_change_pin_sw (ResponseApdu_status_word rsp)).
Proof.
  intros out slot. destruct (change_pin_session_gated (PE:=PE) (R:=R) (O:=O) ctx options t)
    as (cs & Hcs & [Hno|(lengths & t1 & Hgates & Hs1 & Hout & Hrep)]); exists cs; (split; [done|]); [by left|].
  fold out in Hout, Hrep. fold slot in Hout, Hrep.
  pose proof (change_pin_run lengths slot _ _ t1 Hcur Hnew) as Hrun. cbn zeta in Hrun.
  rewrite Hrun in Hout, Hrep.
  destruct (refusal (check_pin lengths slot (PinBytes_digit_count (cpo_current options))));
    [left; split; [by rewrite Hout|by intros report Hr%Hrep]|].
  destruct (refusal (check_pin lengths slot (PinBytes_digit_count (cpo_new options))));
    [left; split; [by rewrite Hout|by intros report Hr%Hrep]|].
  right. exists lengths, t1. split; [done|]. split; [done|]. cbn zeta.
  destruct (transmit _ (card t1)) as [t' r]. cbn [fst snd] in Hout, Hrep. split.
  - rewrite Hout. cbn [sent]. by rewrite Hs1, app_assoc.
  - intros report Hr%Hrep. destruct r as [rsp|e|]; [|done..]. injection Hr as Hr. by exists t', rsp.
Qed.

(** A citizen card with the serial AB and five tries, and its holder. *)
#[local] Instance no_objects : AuthenticationObjectsOps (Z * Z) unit := {
  EF_AOD_FID := mkFileId 0x44 0x01; ao_parse _ := Some tt; ao_passwords _ := [] }.
Definition demo_serial : TokenSerial := mkTokenSerial [0x41; 0x42].
Definition demo_context : BoundCardSession :=
  mkBoundCardSession [0x52] (with_surname CredentialIdentity_new (mkSurname [0x4D])) demo_serial Citizen
    As_PresetActivationPin.
Definition demo_token_info : bytes := [0x30; 7; 0x02; 1; 0; 0x04; 2; 0x41; 0x42].
Definition demo_serial_check : Script := [reply [] 0x9000; reply [] 0x9000; reply demo_token_info 0x9000].
Definition demo_card : Script :=
  [reply [] 0x9000] ++ demo_serial_check
  ++ [reply [] 0x63C5; reply [] 0x9000; reply [] 0x9000; reply [1] 0x9000]
  ++ [reply [] 0x6A88; reply [] 0x6A88; reply [] 0x6A88]
  ++ [reply [] 0x63C5; reply [] 0x6A88] ++ demo_serial_check ++ [reply [] 0x9000].
Definition demo_change : ChangePinOptions := mkChangePinOptions Pms_Pin1 pin_1234 pin_123456.

Lemma change_pin_gated_witness :
  ∃ cs lengths t1, Forall spends_no_try cs
  ∧ change_gates (PE:=unit) (R:=Z * Z) (O:=unit) demo_context Pms_Pin1 (mkLogged [] demo_card) t1 lengths
  ∧ sent (change_pin_session (PE:=unit) (R:=Z * Z) (O:=unit) demo_context demo_change (mkLogged [] demo_card)).1
    = cs ++ [CommandApdu_new (change_pin_apdu lengths Pin1 pin_1234 pin_123456)].
Proof.
  destruct (change_pin_gated (PE:=unit) (R:=Z * Z) (O:=unit) demo_context demo_change (mkLogged [] demo_card)
    pin_1234_wf pin_123456_wf) as (cs & Hcs & [[_ Hno]|(lengths & t1 & Hgates & _ & Hsent & _)]).
  - exfalso. apply (Hno (mkChangePinReport [0x52] [] [0x4D] Pms_Pin1 Cp_Ok)). by vm_compute.
  - by exists cs, lengths, t1.
Defined.

(** A PIN is unblocked only behind every gate. The flow costs no try
    before the reset itself, and the reset is run only when the card carried
    the bound serial at the start and again after the PIN was judged to be in
    use, and the PUK's own status then showed three to five tries, or none
    left, or a lock, where the card answers for itself. The PIN's own counter
    plays no part. *)
Theorem unblock_pin_gated `{CardTransport T E} {PE R : Type} {O : Type} `{PasswordLengthRange R}
  `{!AuthenticationObjectsOps R O} ctx options (t : Logged T) :
  let out := unblock_pin_session (PE:=PE) (R:=R) (O:=O) ctx options t in
  let slot := PinManageSlot_as_pin_slot (upo_slot options) in
  ∃ cs, Forall spends_no_try cs
  ∧ ((sent out.1 = sent t ++ cs ∧ ∀ report, out.2 ≠ Ok report)
     ∨ ∃ lengths t1, unblock_gates (PE:=PE) (O:=O) ctx (upo_slot options) t t1 lengths
       ∧ sent t1 = sent t ++ cs
       ∧ let reset := reset_retry_counter lengths slot (Puk_to_pin_bytes (upo_puk options)) (upo_new_pin options) t1 in
         out.1 = reset.1 ∧ ∀ report, out.2 = Ok report → reset.2 = Ok (upr_outcome report)).
Proof.
  intros out slot. unfold out, unblock_pin_session. fold slot.
  quiet_next ltac:(apply quiet_begin) H1.
  destruct H1 as (t1 & c1 & Hs1 & Ha1 & [(lengths & Hm1 & Hr1)|[Hr1 Hn1]]);
    [|exists c1; split; [done|left; rewrite Hr1; done]].
  rewrite Hr1. clear Hr1. quiet_next ltac:(apply quiet_require_activated) H2.
  destruct H2 as (t2 & c2 & Hs2 & Ha2 & [(status & Hm2 & Hr2)|[Hr2 Hn2]]);
    [|exists (c1 ++ c2); split; [by apply Forall_app|left; rewrite Hr2, app_assoc, <- Hs1; done]].
  rewrite Hr2. clear Hr2. quiet_next ltac:(apply quiet_re_verify) H3.
  destruct H3 as (t3 & c3 & Hs3 & Ha3 & [([] & Hm3 & Hr3)|[Hr3 Hn3]]);
    [|exists (c1 ++ c2 ++ c3); split; [by rewrite !Forall_app|left; rewrite Hr3, !app_assoc, <- Hs1, <- Hs2; done]].
  rewrite Hr3. clear Hr3. quiet_next ltac:(apply quiet_puk_floor) H4.
  destruct H4 as (t4 & c4 & Hs4 & Ha4 & [([] & Hm4 & Hr4)|[Hr4 Hn4]]);
    [|exists (c1 ++ c2 ++ c3 ++ c4); split;
      [by rewrite !Forall_app|left; rewrite Hr4, !app_assoc, <- Hs1, <- Hs2, <- Hs3; done]].
  rewrite Hr4. clear Hr4. exists (c1 ++ c2 ++ c3 ++ c4). split; [by rewrite !Forall_app|]. right.
  exists lengths, t4. split; [|split; [by rewrite !app_assoc, <- Hs1, <- Hs2, <- Hs3|]].
  - apply require_activated_Ok in Hm2 as (v & ch & Hst & Hch & Hj).
    apply re_verify_Ok in Hm3 as (token & hex & Htok & Hhex & Hser).
    apply puk_retry_floor_Ok in Hm4 as (puk & Hpuk & Hfloor).
    by exists t1, v, t2, t3, status, ch, token, hex, puk.
  - cbn zeta. unfold act_bind, act_map_err. destruct (reset_retry_counter _ _ _ _ t4) as [t5 [o|e|]]; cbn;
      (split; [done|]); intros report; [|done..]. by intros [= <-].
Qed.

Lemma activate_entry_run `{CardTransport T E} {PE R : Type} `{PasswordLengthRange R} bound (lengths : CardPinLengths R)
  slot code p (t : Logged T) :
  activate_entry (PE:=PE) bound lengths slot code (Some p) t
  = let '(t1, r) := (do! _ := re_verify_session bound in activate_slot_setup lengths slot code p) t in
    (t1, result_map Some r).
Proof.
  unfold activate_entry, act_bind. destruct (re_verify_session bound t) as [t1 [[]|e|]]; [|done..].
  by destruct (activate_slot_setup lengths slot code p t1) as [t2 [o|e|]].
Qed.

(** The setups in order: what PIN 1 left decides whether PIN 2 is touched. *)
Definition slots_ran `{CardTransport T E} {PE R : Type} `{PasswordLengthRange R} (bound : TokenSerial)
  (lengths : CardPinLengths R) (code : ActivationCode) (new1 new2 : option PinBytes)
  (report : option UnblockOutcome → option UnblockOutcome → ActivateReport) (t1 : Logged T)
  (out : Logged T * result (CardPinError (TransportDispatchError E) PE) ActivateReport) : Prop :=
  ∃ t2 r1,
    match new1 with
    | None => t2 = t1 ∧ r1 = Ok None
    | Some p => ∃ r, slot_part bound lengths Pin1 code p t1 (t2, r) ∧ r1 = result_map Some r
    end
    ∧ match r1 with
      | Ok (None as o) | Ok (Some Ub_Ok as o) =>
          match new2 with
          | None => out = (t2, Ok (report o None))
          | Some p => ∃ r2, slot_part bound lengths Pin2 code p t2 (out.1, r2)
              ∧ out.2 = result_map (λ o2, report o (Some o2)) r2
          end
      | Ok o => out = (t2, Ok (report o None))
      | Err e => out = (t2, Err e)
      | Panic => out = (t2, Panic)
      end.

Lemma activate_slots_ran `{CardTransport T E} {PE R : Type} `{PasswordLengthRange R} ctx (lengths : CardPinLengths R)
  code options preflight (t1 : Logged T) :
  slots_ran (PE:=PE) (bcs_bound_serial ctx) lengths code (ao_new_pin1 options) (ao_new_pin2 options)
    (mkActivateReport (bcs_reader_id ctx) preflight) t1 (activate_slots ctx lengths code options preflight t1).
Proof.
  unfold activate_slots. set (bound := bcs_bound_serial ctx). set (report := mkActivateReport _ _).
  assert (∀ slot p t, slot_part (PE:=PE) bound lengths slot code p t
    ((do! _ := re_verify_session bound in activate_slot_setup lengths slot code p) t)) as Hpart
    by (intros; apply activate_slot_part).
  assert (∀ o t2, o = None ∨ o = Some Ub_Ok →
    let out := (do! pin2_outcome := activate_entry (PE:=PE) bound lengths Pin2 code (ao_new_pin2 options) in
                act_ret (report o pin2_outcome)) t2 in
    match ao_new_pin2 options with
    | None => out = (t2, Ok (report o None))
    | Some p => ∃ r2, slot_part bound lengths Pin2 code p t2 (out.1, r2)
        ∧ out.2 = result_map (λ o2, report o (Some o2)) r2
    end) as H2.
  { intros o t2 _ out. destruct (ao_new_pin2 options) as [p|] eqn:Hn; [|by unfold out].
    specialize (Hpart Pin2 p t2).
    assert (out = let '(t3, r) := (do! _ := re_verify_session bound in activate_slot_setup lengths Pin2 code p) t2 in
                  (t3, result_map (λ o2, report o (Some o2)) r)) as ->.
    { unfold out, act_bind at 1. rewrite activate_entry_run.
      by destruct ((do! _ := re_verify_session bound in activate_slot_setup lengths Pin2 code p) t2) as [t3 []]. }
    destruct ((do! _ := re_verify_session bound in activate_slot_setup lengths Pin2 code p) t2) as [t3 r].
    by exists r. }
  destruct (ao_new_pin1 options) as [p|] eqn:Hn1.
  - specialize (Hpart Pin1 p t1). unfold act_bind at 1. rewrite activate_entry_run.
    destruct ((do! _ := re_verify_session bound in activate_slot_setup lengths Pin1 code p) t1) as [t2 r] eqn:Hrun.
    exists t2, (result_map Some r). split; [by exists r|].
    destruct r as [o|e|]; [|done..]. cbn [result_map from_option].
    unfold activation_continues_after_pin1. case_bool_decide as Ho.
    + subst o. cbn [negb]. apply H2. by right.
    + cbn [negb]. by destruct o.
  - exists t1, (Ok None). split; [done|]. apply (H2 None t1). by left.
Qed.

(** Activation. The flow first judges both PINs on the card and costs no
    try while doing so; if nothing awaits activation (and the holder did not ask
    for it all the same), if the entries do not name exactly the PINs that
    await, or if the code or an entered PIN has a length the card does not
    accept, nothing else is sent. Otherwise PIN 1 is set first, behind its own
    gates, and PIN 2 is only touched when PIN 1 was set or was not entered; each
    setup is run behind a fresh serial check and a look at the counter it can
    spend, and never with one or two tries left. *)
Theorem activate_gated `{CardTransport T E} {PE R : Type} {O : Type} `{PasswordLengthRange R}
  `{!AuthenticationObjectsOps R O} ctx code options (t : Logged T) :
  let out := activate_session (PE:=PE) (R:=R) (O:=O) ctx code options t in
  let bound := bcs_bound_serial ctx in
  let new1 := ao_new_pin1 options in
  let new2 := ao_new_pin2 options in
  ∃ cs, Forall spends_no_try cs
  ∧ ((sent out.1 = sent t ++ cs
      ∧ ∀ report, out.2 = Ok report → ar_pin1_outcome report = None ∧ ar_pin2_outcome report = None)
     ∨ ∃ lengths u v t1 s1 s2 pin1 pin2,
       begin_session (PE:=PE) (O:=O) bound t = (u, Ok lengths)
       ∧ probe_pin_activation (PE:=PE) (bcs_numbering ctx) (bcs_scheme ctx) Pin1 u = (v, Ok (s1, pin1))
       ∧ probe_pin_activation (PE:=PE) (bcs_numbering ctx) (bcs_scheme ctx) Pin2 v = (t1, Ok (s2, pin2))
       ∧ (is_Some new1 ∨ is_Some new2)
       ∧ (ao_allow_reactivate options = true
          ∨ ((is_Some new1 ↔ pin1 = Pa_AwaitsActivation) ∧ (is_Some new2 ↔ pin2 = Pa_AwaitsActivation)))
       ∧ check_activation_entries (TE:=TransportDispatchError E) (PE:=PE) lengths code new1 new2 = Ok tt
       ∧ sent t1 = sent t ++ cs
       ∧ slots_ran bound lengths code new1 new2
           (mkActivateReport (bcs_reader_id ctx) (classify_preflight pin1 pin2)) t1 out).
Proof.
  intros out bound new1 new2. unfold out, activate_session. fold bound new1 new2.
  quiet_next ltac:(apply quiet_begin) H1.
  destruct H1 as (t1 & c1 & Hs1 & Ha1 & [(lengths & Hm1 & Hr1)|[Hr1 Hn1]]);
    [|exists c1; split; [done|left; rewrite Hr1; split; [done|by intros report ?%Hn1]]].
  rewrite Hr1. clear Hr1. quiet_next ltac:(apply quiet_probe) H2.
  destruct H2 as (t2 & c2 & Hs2 & Ha2 & [([s1 pin1] & Hm2 & Hr2)|[Hr2 Hn2]]);
    [|exists (c1 ++ c2); split; [by apply Forall_app|
      left; rewrite Hr2, app_assoc, <- Hs1; split; [done|by intros report ?%Hn2]]].
  rewrite Hr2. clear Hr2. quiet_next ltac:(apply quiet_probe) H3.
  destruct H3 as (t3 & c3 & Hs3 & Ha3 & [([s2 pin2] & Hm3 & Hr3)|[Hr3 Hn3]]);
    [|exists (c1 ++ c2 ++ c3); split; [by rewrite !Forall_app|
      left; rewrite Hr3, !app_assoc, <- Hs1, <- Hs2; split; [done|by intros report ?%Hn3]]].
  rewrite Hr3. clear Hr3. exists (c1 ++ c2 ++ c3). split; [by rewrite !Forall_app|].
  assert (sent t3 = sent t ++ c1 ++ c2 ++ c3) as Hs by (by rewrite !app_assoc, <- Hs1, <- Hs2).
  destruct (negb _ && _); [left; split; [done|by intros report [= <-]]|].
  destruct (activation_targets _ _ _ _ _) as [[e1 e2]|e|] eqn:Htargets; [|left; by split..].
  rewrite act_lift_ok. apply activation_targets_Ok in Htargets as [Hentered Hallow].
  rewrite !bool_decide_eq_true in Hentered.
  destruct (check_activation_entries _ _ _ _) as [[]|e|] eqn:Hentries; [|left; by split..].
  rewrite act_lift_ok. right. exists lengths, t1, t2, t3, s1, s2, pin1, pin2.
  split_and!; try done.
  { destruct Hallow as [|[Ha Hb]]; [by left|right]. split.
    - rewrite <- (bool_decide_eq_true (is_Some new1)), Ha. by destruct pin1.
    - rewrite <- (bool_decide_eq_true (is_Some new2)), Hb. by destruct pin2. }
  apply activate_slots_ran.
Qed.
