(* ===== verification/PinCache.v ===== *)
(** The cache of PIN 1 between operations: crates/refineid-lib-core/src/pin_cache.rs.
    [PinSafetyCache] holds at most one PIN 1, counts generations and remembers the
    codes the card rejected by their fingerprints; a held PIN leaves the cache while it
    is used and comes back by its [CheckedOutPin1]. HMAC-SHA256 belongs to the hmac
    and sha2 crates: the class [HmacSha256]. *)

From S2P Require Import Prelude Ber StatusWord Pin Auth RetryFloor TokenInfo.

(** [None]: the constructor refused the key. *)
Class HmacSha256 := hmac_sha256 : bytes → bytes → option bytes.

Inductive Pin1Retention := P1r_Reusable | P1r_OneShot.
#[export] Instance Pin1Retention_eq_dec : EqDecision Pin1Retention.
Proof. solve_decision. Defined.

Record PreviouslyRejectedPin := mkPreviouslyRejectedPin { prp_slot : PinSlot }.

Record HeldPin1 := mkHeldPin1
  { hp_serial : TokenSerial; hp_pin : PinBytes; hp_generation : Z; hp_retention : Pin1Retention }.
#[export] Instance HeldPin1_eq_dec : EqDecision HeldPin1.
Proof. solve_decision. Defined.

Record CheckedOutPin1 := mkCheckedOutPin1 { co_entry : HeldPin1 }.
Record RejectedPinFingerprint := mkRejectedPinFingerprint { RejectedPinFingerprint_0 : bytes }.
#[export] Instance RejectedPinFingerprint_eq_dec : EqDecision RejectedPinFingerprint.
Proof. solve_decision. Defined.

Record PinSafetyCache := mkPinSafetyCache
  { psc_held_pin1 : option HeldPin1; psc_generation : Z; psc_fingerprint_key : bytes;
    psc_rejected_pin1 : list RejectedPinFingerprint; psc_rejected_pin2 : list RejectedPinFingerprint }.

(** [rng::array()?] gives the key. *)
Definition PinSafetyCache_new {F} (random : result F bytes) : result F PinSafetyCache :=
  let? key := random in Ok (mkPinSafetyCache None 0 key [] []).

Definition PinSafetyCache_has_positive_pin1 (c : PinSafetyCache) : bool := bool_decide (is_Some (psc_held_pin1 c)).

Definition PinSafetyCache_clear_positive (c : PinSafetyCache) : PinSafetyCache :=
  mkPinSafetyCache None ((psc_generation c + 1) mod 2 ^ 64) (psc_fingerprint_key c)
    (psc_rejected_pin1 c) (psc_rejected_pin2 c).

Definition psc_set_held (c : PinSafetyCache) (held : option HeldPin1) : PinSafetyCache :=
  mkPinSafetyCache held (psc_generation c) (psc_fingerprint_key c) (psc_rejected_pin1 c) (psc_rejected_pin2 c).

Definition PinSafetyCache_rejected (c : PinSafetyCache) (slot : PinSlot) : list RejectedPinFingerprint :=
  match slot with Pin1 => psc_rejected_pin1 c | Pin2 => psc_rejected_pin2 c end.

(** Assignment through [rejected_mut]. *)
Definition psc_set_rejected (c : PinSafetyCache) (slot : PinSlot) (l : list RejectedPinFingerprint) : PinSafetyCache :=
  match slot with
  | Pin1 => mkPinSafetyCache (psc_held_pin1 c) (psc_generation c) (psc_fingerprint_key c) l (psc_rejected_pin2 c)
  | Pin2 => mkPinSafetyCache (psc_held_pin1 c) (psc_generation c) (psc_fingerprint_key c) (psc_rejected_pin1 c) l
  end.

(** What the MAC is computed over. *)
Definition fingerprint_message (serial : TokenSerial) (slot : PinSlot) (pin : PinBytes) : bytes :=
  let slot_tag := match slot with Pin1 => 1 | Pin2 => 2 end in
  to_be 4 (len (TokenSerial_as_str serial)) ++ TokenSerial_as_str serial ++ [slot_tag]
  ++ [PinBytes_digit_count pin] ++ PinBytes_as_bytes pin.

Definition zero_fingerprint : RejectedPinFingerprint := mkRejectedPinFingerprint (replicate 32 0).

Definition permits_held_pin1 (live : PinStatus) : bool :=
  match live with Ps_Verified => true | _ => false end || pin1_status_permits_reusable_cache live.

Section cache.
Context `{HmacSha256}.

Definition PinSafetyCache_fingerprint (c : PinSafetyCache) (serial : TokenSerial) (slot : PinSlot) (pin : PinBytes)
  : RejectedPinFingerprint :=
  if PinBytes_digit_count pin >? u8_max then zero_fingerprint
  else if len (TokenSerial_as_str serial) >? u32_max then zero_fingerprint
  else match hmac_sha256 (psc_fingerprint_key c) (fingerprint_message serial slot pin) with
       | Some mac => mkRejectedPinFingerprint mac
       | None => zero_fingerprint
       end.

(** [ct_eq] compares values. *)
Definition PinSafetyCache_is_rejected (c : PinSafetyCache) (serial : TokenSerial) (slot : PinSlot) (pin : PinBytes)
  : bool :=
  let candidate := PinSafetyCache_fingerprint c serial slot pin in
  existsb (λ known, bool_decide (known = candidate)) (PinSafetyCache_rejected c slot).

Definition PinSafetyCache_record_rejected (c : PinSafetyCache) (serial : TokenSerial) (slot : PinSlot)
  (pin : PinBytes) : PinSafetyCache :=
  let c := PinSafetyCache_clear_positive c in
  let fingerprint := PinSafetyCache_fingerprint c serial slot pin in
  let rejected := PinSafetyCache_rejected c slot in
  if negb (existsb (λ known, bool_decide (known = fingerprint)) rejected)
  then psc_set_rejected c slot (rejected ++ [fingerprint]) else c.

Definition PinSafetyCache_hold_pin1 (c : PinSafetyCache) (serial : TokenSerial) (pin : PinBytes)
  (retention : Pin1Retention) : PinSafetyCache * result PreviouslyRejectedPin unit :=
  if PinSafetyCache_is_rejected c serial Pin1 pin then (c, Err (mkPreviouslyRejectedPin Pin1))
  else
    let c := PinSafetyCache_clear_positive c in
    (psc_set_held c (Some (mkHeldPin1 serial pin (psc_generation c) retention)), Ok tt).

Definition PinSafetyCache_store_pin1 (c : PinSafetyCache) (serial : TokenSerial) (pin : PinBytes) :=
  PinSafetyCache_hold_pin1 c serial pin P1r_Reusable.
Definition PinSafetyCache_stage_pin1_once (c : PinSafetyCache) (serial : TokenSerial) (pin : PinBytes) :=
  PinSafetyCache_hold_pin1 c serial pin P1r_OneShot.

Definition PinSafetyCache_checkout_pin1 (c : PinSafetyCache) (live_serial : TokenSerial) (live_status : PinStatus)
  : PinSafetyCache * option CheckedOutPin1 :=
  match psc_held_pin1 c with
  | None => (c, None)
  | Some entry =>
      let c := psc_set_held c None in
      if bool_decide (hp_serial entry = live_serial) && permits_held_pin1 live_status
      then (c, Some (mkCheckedOutPin1 entry))
      else (PinSafetyCache_clear_positive c, None)
  end.

Definition CheckedOutPin1_restore (p : CheckedOutPin1) (cache : PinSafetyCache) : PinSafetyCache :=
  if negb (psc_generation cache =? hp_generation (co_entry p)) || bool_decide (is_Some (psc_held_pin1 cache))
  then cache
  else psc_set_held cache (Some (co_entry p)).
Definition CheckedOutPin1_restore_after_success (p : CheckedOutPin1) (cache : PinSafetyCache) : PinSafetyCache :=
  if bool_decide (hp_retention (co_entry p) = P1r_OneShot) then cache else CheckedOutPin1_restore p cache.
Definition CheckedOutPin1_restore_after_unanswered (p : CheckedOutPin1) (cache : PinSafetyCache) : PinSafetyCache :=
  CheckedOutPin1_restore p cache.
End cache.

(** ** The cache with the codes that are out, as a step relation

    [cs_out] are the checked-out PINs that came from this cache and were not
    used up yet; [cs_recorded] is what was recorded as rejected, for the
    specification only. *)

Record CacheState := mkCacheState
  { cs_cache : PinSafetyCache; cs_out : list CheckedOutPin1;
    cs_recorded : list (TokenSerial * PinSlot * PinBytes) }.

Inductive cache_step `{HmacSha256} : CacheState → CacheState → Prop :=
| step_store c out rec serial pin :
    cache_step (mkCacheState c out rec) (mkCacheState (PinSafetyCache_store_pin1 c serial pin).1 out rec)
| step_stage c out rec serial pin :
    cache_step (mkCacheState c out rec) (mkCacheState (PinSafetyCache_stage_pin1_once c serial pin).1 out rec)
| step_checkout c out rec live status :
    cache_step (mkCacheState c out rec)
      (mkCacheState (PinSafetyCache_checkout_pin1 c live status).1
         (out ++ option_list (PinSafetyCache_checkout_pin1 c live status).2) rec)
| step_success c a p b rec :
    cache_step (mkCacheState c (a ++ p :: b) rec)
      (mkCacheState (CheckedOutPin1_restore_after_success p c) (a ++ b) rec)
| step_unanswered c a p b rec :
    cache_step (mkCacheState c (a ++ p :: b) rec)
      (mkCacheState (CheckedOutPin1_restore_after_unanswered p c) (a ++ b) rec)
| step_drop c a p b rec : cache_step (mkCacheState c (a ++ p :: b) rec) (mkCacheState c (a ++ b) rec)
| step_clear c out rec :
    cache_step (mkCacheState c out rec) (mkCacheState (PinSafetyCache_clear_positive c) out rec)
| step_record c out rec serial slot pin :
    cache_step (mkCacheState c out rec)
      (mkCacheState (PinSafetyCache_record_rejected c serial slot pin) out (rec ++ [(serial, slot, pin)])).

(** [n] operations on a fresh cache. *)
Inductive cache_reach `{HmacSha256} (key : bytes) : Z → CacheState → Prop :=
| reach_new : cache_reach key 0 (mkCacheState (mkPinSafetyCache None 0 key [] []) [] [])
| reach_step n s s' : cache_reach key n s → cache_step s s' → cache_reach key (n + 1) s'.

(** ** Lemmas *)

Section cache_lemmas.
Context `{HmacSha256}.

(** Whether a code is rejected is a matter of the key and the two lists. *)
Definition same_rejections (c c' : PinSafetyCache) : Prop :=
  psc_fingerprint_key c = psc_fingerprint_key c'
  ∧ psc_rejected_pin1 c = psc_rejected_pin1 c' ∧ psc_rejected_pin2 c = psc_rejected_pin2 c'.
#[export] Instance same_rejections_equiv : Equivalence same_rejections.
Proof. split; unfold same_rejections; repeat intro; naive_solver congruence. Qed.

#[export] Instance is_rejected_proper :
  Proper (same_rejections ==> eq ==> eq ==> eq ==> eq) PinSafetyCache_is_rejected.
Proof.
  intros c c' (Hk & H1 & H2) s ? <- slot ? <- p ? <-.
  unfold PinSafetyCache_is_rejected, PinSafetyCache_fingerprint, PinSafetyCache_rejected.
  by rewrite Hk, H1, H2.
Qed.

Lemma same_clear c : same_rejections (PinSafetyCache_clear_positive c) c.
Proof. done. Qed.
Lemma same_set_held c h : same_rejections (psc_set_held c h) c.
Proof. done. Qed.

Lemma same_restore p c : same_rejections (CheckedOutPin1_restore p c) c.
Proof. unfold CheckedOutPin1_restore. destruct (_ || _); [reflexivity|apply same_set_held]. Qed.

Lemma same_success p c : same_rejections (CheckedOutPin1_restore_after_success p c) c.
Proof. unfold CheckedOutPin1_restore_after_success. case_bool_decide; [reflexivity|apply same_restore]. Qed.

Lemma same_hold c serial pin r : same_rejections (PinSafetyCache_hold_pin1 c serial pin r).1 c.
Proof. unfold PinSafetyCache_hold_pin1. by destruct (PinSafetyCache_is_rejected _ _ _ _). Qed.

Lemma same_checkout c live status : same_rejections (PinSafetyCache_checkout_pin1 c live status).1 c.
Proof.
  unfold PinSafetyCache_checkout_pin1. destruct (psc_held_pin1 c); [|reflexivity].
  by destruct (_ && _).
Qed.

Lemma existsb_known l (f : RejectedPinFingerprint) :
  existsb (λ known, bool_decide (known = f)) l = true ↔ f ∈ l.
Proof.
  rewrite existsb_exists, list_elem_of_In. split.
  - intros (x & Hx & He%bool_decide_eq_true). by subst.
  - intros Hf. exists f. split; [done|]. by apply bool_decide_eq_true.
Qed.

Lemma is_rejected_elem c serial slot pin :
  PinSafetyCache_is_rejected c serial slot pin = true
  ↔ PinSafetyCache_fingerprint c serial slot pin ∈ PinSafetyCache_rejected c slot.
Proof. apply existsb_known. Qed.

(** The rejections after one more is recorded. *)
Lemma record_rejected_elem c serial slot pin f slot' :
  f ∈ PinSafetyCache_rejected (PinSafetyCache_record_rejected c serial slot pin) slot'
  ↔ f ∈ PinSafetyCache_rejected c slot' ∨ (slot' = slot ∧ f = PinSafetyCache_fingerprint c serial slot pin).
Proof.
  unfold PinSafetyCache_record_rejected.
  change (PinSafetyCache_fingerprint (PinSafetyCache_clear_positive c) serial slot pin)
    with (PinSafetyCache_fingerprint c serial slot pin).
  change (PinSafetyCache_rejected (PinSafetyCache_clear_positive c) slot) with (PinSafetyCache_rejected c slot).
  set (fp := PinSafetyCache_fingerprint c serial slot pin).
  destruct (existsb _ _) eqn:He; cbn [negb].
  - apply existsb_known in He. split; [by left|]. by intros [?|[-> ->]].
  - destruct slot, slot'; cbn [psc_set_rejected PinSafetyCache_rejected psc_rejected_pin1 psc_rejected_pin2
      PinSafetyCache_clear_positive]; rewrite ?elem_of_app, ?list_elem_of_singleton; naive_solver.
Qed.

Lemma record_key c serial slot pin :
  psc_fingerprint_key (PinSafetyCache_record_rejected c serial slot pin) = psc_fingerprint_key c
  ∧ psc_generation (PinSafetyCache_record_rejected c serial slot pin) = (psc_generation c + 1) mod 2 ^ 64
  ∧ psc_held_pin1 (PinSafetyCache_record_rejected c serial slot pin) = None.
Proof. unfold PinSafetyCache_record_rejected. destruct (negb _); by destruct slot. Qed.

Lemma fingerprint_key c c' serial slot pin :
  psc_fingerprint_key c = psc_fingerprint_key c' →
  PinSafetyCache_fingerprint c serial slot pin = PinSafetyCache_fingerprint c' serial slot pin.
Proof. intros Hk. unfold PinSafetyCache_fingerprint. by rewrite Hk. Qed.

(** ** The invariant *)

Definition entry_ok (c : PinSafetyCache) (e : HeldPin1) : Prop :=
  hp_generation e ≤ psc_generation c
  ∧ (hp_generation e = psc_generation c →
     PinSafetyCache_is_rejected c (hp_serial e) Pin1 (hp_pin e) = false).

Definition cache_inv (key : bytes) (n : Z) (s : CacheState) : Prop :=
  let c := cs_cache s in
  psc_fingerprint_key c = key ∧ 0 ≤ psc_generation c ≤ n
  ∧ (∀ h, psc_held_pin1 c = Some h → hp_generation h = psc_generation c ∧ entry_ok c h)
  ∧ Forall (λ p, entry_ok c (co_entry p)) (cs_out s)
  ∧ ∀ slot f, f ∈ PinSafetyCache_rejected c slot ↔
      ∃ serial pin, (serial, slot, pin) ∈ cs_recorded s ∧ f = PinSafetyCache_fingerprint c serial slot pin.

Lemma entry_ok_same c c' e :
  same_rejections c' c → psc_generation c' = psc_generation c → entry_ok c e → entry_ok c' e.
Proof. intros Hs Hg [Hle Hrej]. unfold entry_ok. rewrite Hg, Hs. done. Qed.

(** A new generation makes every older entry harmless. *)
Lemma entry_ok_older c c' e :
  psc_generation c < psc_generation c' → entry_ok c e → entry_ok c' e.
Proof. intros Hg [Hle _]. split; [lia|]. lia. Qed.

(** One step that changes no rejection. *)
Lemma inv_same key n c c' out out' rec :
  cache_inv key n (mkCacheState c out rec) → same_rejections c' c →
  psc_generation c ≤ psc_generation c' ≤ psc_generation c + 1 →
  (∀ h, psc_held_pin1 c' = Some h → hp_generation h = psc_generation c' ∧ entry_ok c' h) →
  Forall (λ p, entry_ok c' (co_entry p)) out' →
  cache_inv key (n + 1) (mkCacheState c' out' rec).
Proof.
  intros (Hk & Hg & _ & _ & Hrec) Hs Hg' Hheld Hout. pose proof Hs as (Hk' & H1 & H2).
  split_and!; cbn [cs_cache cs_out cs_recorded] in *; [congruence|lia|lia|done|done|].
  intros slot f. assert (PinSafetyCache_rejected c' slot = PinSafetyCache_rejected c slot) as ->
    by (destruct slot; done).
  rewrite Hrec. split; intros (serial & pin & Hin & ->); exists serial, pin; (split; [done|by apply fingerprint_key]).
Qed.

Lemma clear_generation c : 0 ≤ psc_generation c < 2 ^ 64 - 1 →
  psc_generation (PinSafetyCache_clear_positive c) = psc_generation c + 1.
Proof. intros. apply Z.mod_small. lia. Qed.

Lemma entries_older c c' (out : list CheckedOutPin1) :
  psc_generation c < psc_generation c' → Forall (λ p, entry_ok c (co_entry p)) out →
  Forall (λ p, entry_ok c' (co_entry p)) out.
Proof. intros Hg. apply Forall_impl. intros p. by apply entry_ok_older. Qed.

Lemma entries_same c c' (out : list CheckedOutPin1) :
  same_rejections c' c → psc_generation c' = psc_generation c →
  Forall (λ p, entry_ok c (co_entry p)) out → Forall (λ p, entry_ok c' (co_entry p)) out.
Proof. intros Hs Hg. apply Forall_impl. intros p. by apply entry_ok_same. Qed.

Lemma inv_hold key n c out rec serial pin r :
  cache_inv key n (mkCacheState c out rec) → n < 2 ^ 64 - 1 →
  cache_inv key (n + 1) (mkCacheState (PinSafetyCache_hold_pin1 c serial pin r).1 out rec).
Proof.
  intros Hinv Hn. pose proof Hinv as (Hk & Hg & Hheld & Hout & _). cbn [cs_cache cs_out] in *.
  unfold PinSafetyCache_hold_pin1.
  destruct (PinSafetyCache_is_rejected c serial Pin1 pin) eqn:Hrej; cbn [fst].
  - apply (inv_same _ _ c _ out); (done || lia).
  - pose proof (clear_generation c) as Hclear.
    eapply (inv_same _ _ c _ out); [done|done|cbn in *; lia| |apply (entries_older c); [cbn in *; lia|done]].
    intros h [= <-]. split; [done|]. split; [cbn; lia|]. intros _. exact Hrej.
Qed.

Lemma inv_clear key n c out rec :
  cache_inv key n (mkCacheState c out rec) → n < 2 ^ 64 - 1 →
  cache_inv key (n + 1) (mkCacheState (PinSafetyCache_clear_positive c) out rec).
Proof.
  intros Hinv Hn. pose proof Hinv as (Hk & Hg & Hheld & Hout & _). cbn [cs_cache cs_out] in *.
  pose proof (clear_generation c).
  apply (inv_same _ _ c _ out); [done|done|lia|done|]. apply (entries_older c); [lia|done].
Qed.

Lemma inv_checkout key n c out rec live status :
  cache_inv key n (mkCacheState c out rec) → n < 2 ^ 64 - 1 →
  cache_inv key (n + 1) (mkCacheState (PinSafetyCache_checkout_pin1 c live status).1
    (out ++ option_list (PinSafetyCache_checkout_pin1 c live status).2) rec).
Proof.
  intros Hinv Hn. pose proof Hinv as (Hk & Hg & Hheld & Hout & _). cbn [cs_cache cs_out] in *.
  unfold PinSafetyCache_checkout_pin1. destruct (psc_held_pin1 c) as [entry|] eqn:He.
  - destruct (Hheld entry eq_refl) as [_ Hok]. destruct (_ && _); cbn [fst snd option_list].
    + apply (inv_same _ _ c _ out); [done|done|cbn; lia|done|].
      apply Forall_app. split; [by apply (entries_same c)|]. by apply Forall_singleton.
    + rewrite app_nil_r. pose proof (clear_generation (psc_set_held c None)) as Hc. cbn in Hc.
      apply (inv_same _ _ c _ out); [done|done|cbn; lia|done|]. apply (entries_older c); [cbn; lia|done].
  - cbn [fst snd option_list]. rewrite app_nil_r. apply (inv_same _ _ c _ out); [done|done|lia| |done].
    by rewrite He.
Qed.

Lemma inv_restore key n c a p b rec :
  cache_inv key n (mkCacheState c (a ++ p :: b) rec) → 
  cache_inv key (n + 1) (mkCacheState (CheckedOutPin1_restore p c) (a ++ b) rec).
Proof.
  intros Hinv. pose proof Hinv as (Hk & Hg & Hheld & Hout & _). cbn [cs_cache cs_out] in *.
  apply Forall_app in Hout as [Ha [Hp Hb]%Forall_cons_iff].
  assert (Forall (λ p, entry_ok c (co_entry p)) (a ++ b)) as Hab by (by apply Forall_app).
  unfold CheckedOutPin1_restore.
  destruct (Z.eqb_spec (psc_generation c) (hp_generation (co_entry p))) as [Hgen|]; cbn [negb orb].
  - case_bool_decide; [by apply (inv_same _ _ c _ (a ++ p :: b)); [|reflexivity|lia|..]|].
    apply (inv_same _ _ c _ (a ++ p :: b)); [done|done|cbn; lia| |by apply (entries_same c)].
    intros h [= <-]. split; [done|]. by apply (entry_ok_same c).
  - by apply (inv_same _ _ c _ (a ++ p :: b)); [|reflexivity|lia|..].
Qed.

Lemma inv_drop key n c a p b rec :
  cache_inv key n (mkCacheState c (a ++ p :: b) rec) → cache_inv key (n + 1) (mkCacheState c (a ++ b) rec).
Proof.
  intros Hinv. pose proof Hinv as (Hk & Hg & Hheld & Hout & _). cbn [cs_cache cs_out] in *.
  apply Forall_app in Hout as [Ha [Hp Hb]%Forall_cons_iff].
  apply (inv_same _ _ c _ (a ++ p :: b)); [done|reflexivity|lia|done|by apply Forall_app].
Qed.

Lemma inv_record key n c out rec serial slot pin :
  cache_inv key n (mkCacheState c out rec) → n < 2 ^ 64 - 1 →
  cache_inv key (n + 1)
    (mkCacheState (PinSafetyCache_record_rejected c serial slot pin) out (rec ++ [(serial, slot, pin)])).
Proof.
  intros (Hk & Hg & Hheld & Hout & Hrec) Hn. cbn [cs_cache cs_out cs_recorded] in *.
  destruct (record_key c serial slot pin) as (Hkey & Hgen & Hnone). rewrite Z.mod_small in Hgen by lia.
  split_and!; cbn [cs_cache cs_out cs_recorded]; [congruence|lia|lia|by rewrite Hnone|apply (entries_older c); [lia|done]|].
  intros slot' f. rewrite record_rejected_elem, Hrec.
  setoid_rewrite elem_of_app. setoid_rewrite list_elem_of_singleton.
  pose proof (λ s p, fingerprint_key (PinSafetyCache_record_rejected c serial slot pin) c s slot' p Hkey) as Hf.
  split.
  - intros [(s & p & Hin & ->)|[-> ->]]; [exists s, p|exists serial, pin]; rewrite Hf; auto.
  - intros (s & p & [Hin|[= -> -> ->]] & ->); rewrite Hf; [left; by exists s, p|by right].
Qed.

Lemma cache_reach_inv key n s : cache_reach key n s → n < 2 ^ 64 → cache_inv key n s.
Proof.
  intros Hr Hn. induction Hr as [|n s s' Hr IH Hstep].
  - split_and!; cbn; try done. intros slot f. destruct slot; cbn; set_solver.
  - specialize (IH ltac:(lia)). assert (n < 2 ^ 64 - 1) as Hn' by lia.
    destruct Hstep; [by apply inv_hold..|by apply inv_checkout| |by eapply inv_restore|by eapply inv_drop
      |by apply inv_clear|by apply inv_record].
    unfold CheckedOutPin1_restore_after_success. case_bool_decide; [by eapply inv_drop|by eapply inv_restore].
Qed.
End cache_lemmas.

Lemma app_to_be_inj (a b x y : bytes) :
  len a ≤ u32_max → len b ≤ u32_max →
  to_be 4 (len a) ++ a ++ x = to_be 4 (len b) ++ b ++ y → a = b ∧ x = y.
Proof.
  intros Ha Hb Heq. apply app_inj_len in Heq as [Hl Heq];
    [|unfold len; by rewrite !length_to_be].
  apply (f_equal be_fold) in Hl. rewrite !be_fold_to_be in Hl by apply len_nonneg.
  unfold u32_max in *. pose proof (len_nonneg a). pose proof (len_nonneg b).
  rewrite !Z.mod_small in Hl by (change (256 ^ Z.of_nat 4) with 4294967296; lia).
  by apply app_inj_len.
Qed.

(** What the MAC is computed over names the card, the slot and the code. *)
Lemma fingerprint_message_inj s s' slot slot' p p' :
  len (TokenSerial_as_str s) ≤ u32_max → len (TokenSerial_as_str s') ≤ u32_max →
  PinBytes_wf p → PinBytes_wf p' →
  fingerprint_message s slot p = fingerprint_message s' slot' p' → s = s' ∧ slot = slot' ∧ p = p'.
Proof.
  intros Hs Hs' [bs Hbs] [bs' Hbs'] Heq. unfold fingerprint_message in Heq.
  apply app_to_be_inj in Heq as [Hser Heq]; [|done..]. cbn [app] in Heq. injection Heq as Htag _ Hpin.
  split; [destruct s, s'; cbn in Hser; congruence|]. split; [by destruct slot, slot'|].
  rewrite (PinBytes_as_bytes_new _ _ Hbs), (PinBytes_as_bytes_new _ _ Hbs') in Hpin. subst bs'. congruence.
Qed.

Lemma permits_held_spec status :
  permits_held_pin1 status = true ↔
  status = Ps_Verified ∨ ∃ r, status = Ps_Remaining r ∧ PinRetries_0 r = 5.
Proof.
  unfold permits_held_pin1. destruct status as [|r| | |sw]; cbn; try naive_solver.
  pose proof (from_retries_spec r) as Hr.
  destruct (PinRetryRisk_from_retries r) as [[]|]; cbn; naive_solver lia.
Qed.

(** ** Properties *)

(** C15: a code the card rejected is never offered to it again from the cache.
    After any sequence of fewer than 2^64 operations on a fresh cache: every
    code ever recorded as rejected is known as such for its card and slot; the
    code held is not among them; a code is handed out only for the card it was
    entered for and when that card's PIN 1 is verified or has all five tries
    left; and a code that was handed out before it was rejected cannot be put
    back. *)
Theorem pin_cache_never_serves_rejected `{HmacSha256} key n s (Hreach : cache_reach key n s) (Hn : n < 2 ^ 64) :
  let c := cs_cache s in
  (∀ serial slot pin, (serial, slot, pin) ∈ cs_recorded s → PinSafetyCache_is_rejected c serial slot pin = true)
  ∧ (∀ h, psc_held_pin1 c = Some h → PinSafetyCache_is_rejected c (hp_serial h) Pin1 (hp_pin h) = false)
  ∧ (∀ live status c' p, PinSafetyCache_checkout_pin1 c live status = (c', Some p) →
       hp_serial (co_entry p) = live ∧ psc_held_pin1 c' = None
       ∧ PinSafetyCache_is_rejected c live Pin1 (hp_pin (co_entry p)) = false
       ∧ (status = Ps_Verified ∨ ∃ r, status = Ps_Remaining r ∧ PinRetries_0 r = 5))
  ∧ (∀ p, p ∈ cs_out s → PinSafetyCache_is_rejected c (hp_serial (co_entry p)) Pin1 (hp_pin (co_entry p)) = true →
       CheckedOutPin1_restore_after_success p c = c ∧ CheckedOutPin1_restore_after_unanswered p c = c).
Proof.
  intros c. destruct (cache_reach_inv _ _ _ Hreach Hn) as (_ & _ & Hheld & Hout & Hrec). fold c in Hheld, Hout, Hrec.
  split_and!.
  - intros serial slot pin Hin. apply is_rejected_elem, Hrec. by exists serial, pin.
  - intros h Hh. destruct (Hheld h Hh) as [Hg [_ Hok]]. by apply Hok.
  - intros live status c' p. unfold PinSafetyCache_checkout_pin1.
    destruct (psc_held_pin1 c) as [e|] eqn:He; [|done].
    destruct (bool_decide _ && _) eqn:Hok; [|done]. intros [= <- <-].
    apply andb_true_iff in Hok as [Hser%bool_decide_eq_true Hst%permits_held_spec]. cbn [co_entry].
    split_and!; [done|done| |done]. rewrite <- Hser. destruct (Hheld e eq_refl) as [Hg [_ Hok]]. by apply Hok.
  - intros p Hp Hrej. rewrite List.Forall_forall in Hout. apply list_elem_of_In in Hp.
    destruct (Hout p Hp) as [_ Hok].
    assert (CheckedOutPin1_restore p c = c) as Hres.
    { unfold CheckedOutPin1_restore.
      destruct (Z.eqb_spec (psc_generation c) (hp_generation (co_entry p))) as [Hg|]; [|done].
      by rewrite Hok in Hrej. }
    unfold CheckedOutPin1_restore_after_success, CheckedOutPin1_restore_after_unanswered.
    rewrite Hres. by case_bool_decide.
Qed.

(** And no other code is refused. With an HMAC that takes the cache's key,
    a code counts as rejected only if that very code was recorded for that card
    and slot, or two different messages have the same MAC under the key. *)
Theorem pin_cache_rejects_only_recorded `{HmacSha256} key n s serial slot pin
  (Hreach : cache_reach key n s) (Hn : n < 2 ^ 64)
  (Hmac : ∀ m, is_Some (hmac_sha256 key m))
  (Hrec : Forall (λ '(s, _, p), len (TokenSerial_as_str s) ≤ u32_max ∧ PinBytes_wf p) (cs_recorded s))
  (Hserial : len (TokenSerial_as_str serial) ≤ u32_max) (Hpin : PinBytes_wf pin)
  (Hrej : PinSafetyCache_is_rejected (cs_cache s) serial slot pin = true) :
  (serial, slot, pin) ∈ cs_recorded s
  ∨ ∃ m m', m ≠ m' ∧ hmac_sha256 key m = hmac_sha256 key m'.
Proof.
  destruct (cache_reach_inv _ _ _ Hreach Hn) as (Hk & _ & _ & _ & Hlist).
  apply is_rejected_elem, Hlist in Hrej as (s' & p' & Hin & Hf).
  rewrite List.Forall_forall in Hrec. pose proof (Hrec _ (proj1 (list_elem_of_In _ _) Hin)) as [Hs' Hp'].
  assert (∀ sr p, len (TokenSerial_as_str sr) ≤ u32_max → PinBytes_wf p → ∃ mac,
    hmac_sha256 key (fingerprint_message sr slot p) = Some mac
    ∧ PinSafetyCache_fingerprint (cs_cache s) sr slot p = mkRejectedPinFingerprint mac) as Hfp.
  { intros sr p Hsr Hp. destruct (Hmac (fingerprint_message sr slot p)) as [mac Hm]. exists mac. split; [done|].
    unfold PinSafetyCache_fingerprint. rewrite Hk, Hm. rewrite <- (PinBytes_wf_count p Hp).
    destruct (PinBytes_wf_digits p Hp) as [Hl _]. unfold u8_max.
    destruct (Z.gtb_spec (len (PinBytes_as_bytes p)) 255); [lia|].
    by destruct (Z.gtb_spec (len (TokenSerial_as_str sr)) u32_max); [lia|]. }
  destruct (Hfp serial pin Hserial Hpin) as (mac & Hm & Hfm). destruct (Hfp s' p' Hs' Hp') as (mac' & Hm' & Hfm').
  rewrite Hfm, Hfm' in Hf. injection Hf as <-.
  destruct (decide (fingerprint_message serial slot pin = fingerprint_message s' slot p')) as [He|Hne].
  - left. apply fingerprint_message_inj in He as (-> & _ & ->); done.
  - right. exists (fingerprint_message serial slot pin), (fingerprint_message s' slot p'). split; [done|congruence].
Qed.

(** ** Witnesses: a toy MAC *)

#[local] Instance toy_hmac : HmacSha256 := λ key m, Some (key ++ m).
Definition demo_pin : PinBytes := mkPinBytes [0x31; 0x32; 0x33; 0x34; 0; 0; 0; 0; 0; 0; 0; 0] 4.
Definition demo_card_serial : TokenSerial := mkTokenSerial [0x41; 0x42].
Definition demo_rejected : CacheState :=
  mkCacheState (PinSafetyCache_record_rejected (mkPinSafetyCache None 0 [7] [] []) demo_card_serial Pin1 demo_pin) []
    [(demo_card_serial, Pin1, demo_pin)].
Lemma demo_reach : cache_reach [7] 1 demo_rejected.
Proof. exact (reach_step [7] 0 _ _ (reach_new [7]) (step_record _ _ _ _ _ _)). Qed.

Lemma pin_cache_never_serves_rejected_witness :
  PinSafetyCache_is_rejected (cs_cache demo_rejected) demo_card_serial Pin1 demo_pin = true
  ∧ (PinSafetyCache_store_pin1 (cs_cache demo_rejected) demo_card_serial demo_pin).2
    = Err (mkPreviouslyRejectedPin Pin1).
Proof.
  split; [|by vm_compute].
  apply (proj1 (pin_cache_never_serves_rejected [7] 1 demo_rejected demo_reach ltac:(lia))). cbn. by left.
Defined.

Lemma pin_cache_rejects_only_recorded_witness :
  (demo_card_serial, Pin1, demo_pin) ∈ cs_recorded demo_rejected
  ∨ ∃ m m', m ≠ m' ∧ hmac_sha256 [7] m = hmac_sha256 [7] m'.
Proof.
  apply (pin_cache_rejects_only_recorded [7] 1 demo_rejected demo_card_serial Pin1 demo_pin demo_reach);
    [lia|by eexists| |by_decide| |by vm_compute].
  - apply Forall_singleton. split; [by_decide|]. exists [0x31; 0x32; 0x33; 0x34]. by vm_compute.
  - exists [0x31; 0x32; 0x33; 0x34]. by vm_compute.
Defined.
