(* ===== verification/Rapp.v ===== *)
(** What the pairing code uses of the protocol crate (refineid_rapp, which is not
    part of this repository): identifiers of fixed size, display names, the
    engine's pair record with its encoding and its idle check. [Rapp] is a class of
    types and operations under the crate's names, [RappLaws] the behaviour that the
    documentation of their callers states. [OwnedCert] is
    crates/refineid-lib-core/src/x509.rs over the certificate decoder. *)

From S2P Require Import Prelude Utf8.

Inductive SweepOutcome := So_Expired | So_Recorded | So_Kept.
#[export] Instance SweepOutcome_eq_dec : EqDecision SweepOutcome.
Proof. solve_decision. Defined.

Inductive RecordStoreError (CE E : Type) := Rs_Encoding (e : CE) | Rs_Store (e : E).
Arguments Rs_Encoding {CE E} e.
Arguments Rs_Store {CE E} e.

(** ** The crate's types and operations

    The [store] callback of [PairRecord::sweep] acts on a state [W] of the
    caller's. *)
Class Rapp := {
  PairId : Type;
  PairId_eq_dec :: EqDecision PairId;
  PAIR_ID_SIZE : nat;
  PairId_as_bytes : PairId → bytes;
  PairId_from_array : bytes → PairId;
  PairId_reconstruct : bytes → option PairId;

  CertificateFingerprint : Type;
  CertificateFingerprint_eq_dec :: EqDecision CertificateFingerprint;
  CERTIFICATE_FINGERPRINT_SIZE : nat;
  CertificateFingerprint_as_bytes : CertificateFingerprint → bytes;
  CertificateFingerprint_reconstruct : bytes → option CertificateFingerprint;
  CertificateFingerprint_of_certificate : bytes → CertificateFingerprint;
  IDENTITY_OFFER_GRACE_MS : Z;

  DisplayName : Type;
  DisplayName_parse : bytes → option DisplayName;
  DisplayName_as_str : DisplayName → bytes;

  PairRecord : Type;
  PairRecordCodecError : Type;
  PairRecordCodecError_is_UnsupportedVersion : PairRecordCodecError → bool;
  PairRecord_pair_id : PairRecord → PairId;
  PairRecord_peer_display_name : PairRecord → DisplayName;
  PairRecord_role_is_Requester : PairRecord → bool;
  PairRecord_is_storage_confirmed : PairRecord → bool;
  PairRecord_forgotten_at_ms : PairRecord → option Z;
  PairRecord_forgotten : PairRecord → Z → PairRecord;
  PairRecord_revocation_notice_expired : PairRecord → Z → bool;
  PairRecord_record_peer_display_name : DisplayName → PairRecord → PairRecord * bool;
  encode_pair_record : PairRecord → result PairRecordCodecError bytes;
  decode_pair_record : bytes → result PairRecordCodecError PairRecord;
  PairRecord_sweep {W E : Type} :
    Z → bool → (bytes → act W E unit) → PairRecord → W →
    W * PairRecord * result (RecordStoreError PairRecordCodecError E) SweepOutcome;

  ActivePairing : Type;
  PairingError : Type;
  PairingError_StorageUnconfirmed : PairingError;
  ActivePairing_confirm : ActivePairing → PairRecord → result PairingError PairRecord;
}.

(** ** The laws *)

(** The fields of a pair record that no operation of the crate on a stored
    record changes. *)
Definition same_pairing `{Rapp} (r r' : PairRecord) : Prop :=
  PairRecord_pair_id r' = PairRecord_pair_id r ∧
  PairRecord_role_is_Requester r' = PairRecord_role_is_Requester r.

(** The idle check of one record: it changes nothing and calls nothing; or its
    encoding fails; or it hands the encoding of the record it leaves to the
    store and changes only when that succeeded. The record it leaves carries a
    forget time exactly when the pairing expired. *)
Definition sweep_spec `{Rapp} {W E} (store : bytes → act W E unit) (r : PairRecord) (w : W)
  (answer : W * PairRecord * result (RecordStoreError PairRecordCodecError E) SweepOutcome) : Prop :=
  answer = (w, r, Ok So_Kept) ∨
  (∃ e, answer = (w, r, Err (Rs_Encoding e))) ∨
  ∃ checked encoded outcome,
    encode_pair_record checked = Ok encoded ∧ same_pairing r checked ∧
    PairRecord_peer_display_name checked = PairRecord_peer_display_name r ∧
    PairRecord_is_storage_confirmed checked = PairRecord_is_storage_confirmed r ∧
    (outcome = So_Expired ∧ is_Some (PairRecord_forgotten_at_ms checked)
     ∨ outcome = So_Recorded ∧ PairRecord_forgotten_at_ms checked = None ∧ PairRecord_forgotten_at_ms r = None) ∧
    answer = match store encoded w with
             | (w', Ok _) => (w', checked, Ok outcome)
             | (w', Err e) => (w', r, Err (Rs_Store e))
             | (w', Panic) => (w', r, Panic)
             end.

Class RappLaws `{Rapp} := {
  PairId_length p : length (PairId_as_bytes p) = PAIR_ID_SIZE;
  PairId_reconstruct_as_bytes p : PairId_reconstruct (PairId_as_bytes p) = Some p;
  PairId_from_array_as_bytes p : PairId_from_array (PairId_as_bytes p) = p;
  PairId_as_bytes_from_array bs : length bs = PAIR_ID_SIZE → PairId_as_bytes (PairId_from_array bs) = bs;
  PairId_as_bytes_reconstruct bs p : PairId_reconstruct bs = Some p → PairId_as_bytes p = bs;

  CertificateFingerprint_length f : length (CertificateFingerprint_as_bytes f) = CERTIFICATE_FINGERPRINT_SIZE;
  CertificateFingerprint_reconstruct_as_bytes f :
    CertificateFingerprint_reconstruct (CertificateFingerprint_as_bytes f) = Some f;
  CertificateFingerprint_as_bytes_reconstruct bs f :
    CertificateFingerprint_reconstruct bs = Some f → CertificateFingerprint_as_bytes f = bs;

  DisplayName_utf8 n : utf8_valid (DisplayName_as_str n);
  DisplayName_parse_as_str n : DisplayName_parse (DisplayName_as_str n) = Some n;

  PairRecord_forgotten_same r at_ms : same_pairing r (PairRecord_forgotten r at_ms);
  PairRecord_forgotten_name r at_ms :
    PairRecord_peer_display_name (PairRecord_forgotten r at_ms) = PairRecord_peer_display_name r;
  PairRecord_forgotten_confirmed r at_ms :
    PairRecord_is_storage_confirmed (PairRecord_forgotten r at_ms) = PairRecord_is_storage_confirmed r;
  PairRecord_forgotten_at r at_ms : PairRecord_forgotten_at_ms (PairRecord_forgotten r at_ms) = Some at_ms;
  PairRecord_renamed n r :
    same_pairing r (PairRecord_record_peer_display_name n r).1 ∧
    PairRecord_is_storage_confirmed (PairRecord_record_peer_display_name n r).1 = PairRecord_is_storage_confirmed r ∧
    PairRecord_forgotten_at_ms (PairRecord_record_peer_display_name n r).1 = PairRecord_forgotten_at_ms r;
  PairRecord_confirmed a r r' :
    ActivePairing_confirm a r = Ok r' →
    same_pairing r r' ∧ PairRecord_is_storage_confirmed r' ∧
    PairRecord_forgotten_at_ms r' = PairRecord_forgotten_at_ms r;
  ActivePairing_confirm_no_panic a r : ActivePairing_confirm a r ≠ Panic;
  decode_encode_pair_record r bs : encode_pair_record r = Ok bs → decode_pair_record bs = Ok r;
  decode_pair_record_no_panic bs : decode_pair_record bs ≠ Panic;
  encode_pair_record_no_panic r : encode_pair_record r ≠ Panic;
  PairRecord_sweep_spec {W E : Type} now established (store : bytes → act W E unit) r w :
    sweep_spec store r w (PairRecord_sweep now established store r w);
}.

(** ** Certificates: x509.rs *)

(** [Certificate::from_der(..).is_ok()]: the decoder works through the der and
    x509-cert crates. *)
Class CertificateDecoder := certificate_decodes : bytes → bool.

Record OwnedCert := mkOwnedCert { OwnedCert_as_der : bytes }.
#[export] Instance OwnedCert_eq_dec : EqDecision OwnedCert.
Proof. solve_decision. Defined.

Definition OwnedCert_from_der `{CertificateDecoder} (der : bytes) : option OwnedCert :=
  if certificate_decodes der then Some (mkOwnedCert der) else None.

(** A certificate that came out of its constructor. *)
Definition OwnedCert_wf `{CertificateDecoder} (c : OwnedCert) : Prop := certificate_decodes (OwnedCert_as_der c).

Lemma OwnedCert_from_der_wf `{CertificateDecoder} c : OwnedCert_wf c → OwnedCert_from_der (OwnedCert_as_der c) = Some c.
Proof. intros Hc. unfold OwnedCert_from_der. rewrite (Is_true_true_1 _ Hc). by destruct c. Qed.

(** ** A concrete engine

    Identifiers and fingerprints of two octets, two display names, a record that
    expires after 100 ms without a session. The theorems of the clients are
    evaluated on it. *)
Module engine.
Definition of_pair (p : Z * Z) : bytes := [p.1; p.2].
Definition to_pair (bs : bytes) : option (Z * Z) := match bs with [a; b] => Some (a, b) | _ => None end.

Definition name_str (phone : bool) : bytes := if phone then [0x50; 0x68] else [0x50; 0x61; 0x64].
Definition name_parse (bs : bytes) : option bool :=
  if decide (bs = name_str true) then Some true
  else if decide (bs = name_str false) then Some false else None.

Record engine_record := mk
  { id : Z * Z; name : bool; requester : bool; confirmed : bool; forgotten_at : option Z; last_session : Z }.
Definition set_forgotten (at_ms : Z) (r : engine_record) : engine_record :=
  mk (id r) (name r) (requester r) (confirmed r) (Some at_ms) (last_session r).
Definition set_session (now : Z) (r : engine_record) : engine_record :=
  mk (id r) (name r) (requester r) (confirmed r) (forgotten_at r) now.
Definition set_name (n : bool) (r : engine_record) : engine_record :=
  mk (id r) n (requester r) (confirmed r) (forgotten_at r) (last_session r).
Definition set_confirmed (r : engine_record) : engine_record :=
  mk (id r) (name r) (requester r) true (forgotten_at r) (last_session r).

Definition encode (r : engine_record) : bytes :=
  [(id r).1; (id r).2; Z.b2z (name r); Z.b2z (requester r); Z.b2z (confirmed r)]
  ++ match forgotten_at r with None => [0] | Some at_ms => [1; at_ms] end ++ [last_session r].
(** The error says whether the version was at fault. *)
Definition decode (bs : bytes) : result bool engine_record :=
  match bs with
  | [a; b; n; q; c; 0; last] => Ok (mk (a, b) (n =? 1) (q =? 1) (c =? 1) None last)
  | [a; b; n; q; c; 1; at_ms; last] => Ok (mk (a, b) (n =? 1) (q =? 1) (c =? 1) (Some at_ms) last)
  | [_] => Err true
  | _ => Err false
  end.

Definition idle_check {W E : Type} (now : Z) (established : bool) (store : bytes → act W E unit)
  (r : engine_record) (w : W) : W * engine_record * result (RecordStoreError bool E) SweepOutcome :=
  let write checked outcome :=
    match store (encode checked) w with
    | (w', Ok _) => (w', checked, Ok outcome)
    | (w', Err e) => (w', r, Err (Rs_Store e))
    | (w', Panic) => (w', r, Panic)
    end in
  if bool_decide (is_Some (forgotten_at r)) then (w, r, Ok So_Kept)
  else if established then write (set_session now r) So_Recorded
  else if now - last_session r >? 100 then write (set_forgotten now r) So_Expired
  else (w, r, Ok So_Kept).

#[export] Instance engine_rapp : Rapp := {
  PairId := Z * Z; PAIR_ID_SIZE := 2; PairId_as_bytes := of_pair;
  PairId_from_array bs := default (0, 0) (to_pair bs); PairId_reconstruct := to_pair;
  CertificateFingerprint := Z * Z; CERTIFICATE_FINGERPRINT_SIZE := 2;
  CertificateFingerprint_as_bytes := of_pair; CertificateFingerprint_reconstruct := to_pair;
  CertificateFingerprint_of_certificate bs := (len bs, hd 0 bs); IDENTITY_OFFER_GRACE_MS := 120000;
  DisplayName := bool; DisplayName_parse := name_parse; DisplayName_as_str := name_str;
  PairRecord := engine_record; PairRecordCodecError := bool;
  PairRecordCodecError_is_UnsupportedVersion e := e;
  PairRecord_pair_id := id; PairRecord_peer_display_name := name; PairRecord_role_is_Requester := requester;
  PairRecord_is_storage_confirmed := confirmed; PairRecord_forgotten_at_ms := forgotten_at;
  PairRecord_forgotten r at_ms := set_forgotten at_ms r;
  PairRecord_revocation_notice_expired r now :=
    match forgotten_at r with Some at_ms => now - at_ms >? 10 | None => false end;
  PairRecord_record_peer_display_name n r := (set_name n r, negb (Bool.eqb n (name r)));
  encode_pair_record r := Ok (encode r); decode_pair_record := decode;
  PairRecord_sweep W E := idle_check;
  ActivePairing := Z * Z; PairingError := unit; PairingError_StorageUnconfirmed := tt;
  ActivePairing_confirm a r := if decide (a = id r) then Ok (set_confirmed r) else Err tt;
}.

#[export] Instance engine_laws : RappLaws.
Proof.
  split; try (intros; done).
  - by intros [].
  - by intros [].
  - intros bs Hbs. by destruct bs as [|a [|b [|??]]].
  - intros bs p Hbs. destruct bs as [|a [|b [|??]]]; try done. by injection Hbs as <-.
  - by intros [].
  - intros bs p Hbs. destruct bs as [|a [|b [|??]]]; try done. by injection Hbs as <-.
  - by intros [].
  - by intros [].
  - intros a r r' Hr. cbn in Hr. by case_decide; simplify_eq.
  - intros a r. cbn. by case_decide.
  - intros r bs [= <-]. destruct r as [[a b] [] [] [] [at_ms|] last]; done.
  - intros bs. cbn. unfold decode. repeat case_match; done.
  - intros W E now established store r w. unfold sweep_spec. cbn. unfold idle_check.
    destruct r as [i n q c [at_ms|] last]; cbn [forgotten_at last_session]; [by left|].
    rewrite bool_decide_false by (by intros []).
    destruct established; [|destruct (now - last >? 100); [|by left]]; right; right.
    + exists (set_session now (mk i n q c None last)), (encode (set_session now (mk i n q c None last))), So_Recorded.
      repeat split; try done. by right.
    + exists (set_forgotten now (mk i n q c None last)), (encode (set_forgotten now (mk i n q c None last))), So_Expired.
      repeat split; try done. left. by split.
Qed.
End engine.
