(* ===== verification/Presence.v ===== *)
(** The card a session last heard present, and its file:
    crates/refineid-rapp-core/src/presence.rs. *)

From S2P Require Import Prelude Rapp.

(** [u64::saturating_sub] and [u64::saturating_add]. *)
Definition u64_saturating_sub (a b : Z) : Z := Z.max 0 (a - b).
Definition u64_saturating_add (a b : Z) : Z := Z.min u64_max (a + b).

Section presence.
Context `{Rapp}.

Record CardSighting := mkCardSighting { cs_fingerprint : CertificateFingerprint; cs_at_ms : Z }.
Definition CardSighting_new (fingerprint : CertificateFingerprint) (at_ms : Z) : CardSighting :=
  mkCardSighting fingerprint at_ms.

Definition stands_for (s : CardSighting) (certificate : OwnedCert) (now_ms : Z) : bool :=
  let age := u64_saturating_sub now_ms (cs_at_ms s) in
  let ahead := u64_saturating_sub (cs_at_ms s) now_ms in
  bool_decide (CertificateFingerprint_of_certificate (OwnedCert_as_der certificate) = cs_fingerprint s)
  && (age <? IDENTITY_OFFER_GRACE_MS) && (ahead <? IDENTITY_OFFER_GRACE_MS).

Definition offer_lapses_at_ms (s : CardSighting) : Z :=
  u64_saturating_add (cs_at_ms s) IDENTITY_OFFER_GRACE_MS.

Definition SIGHTING_MAGIC : bytes := bytes_of_string "fi.refineid.windows.card-sighting".
Definition TIME_BYTES : nat := 8.
Definition SIGHTING_BYTES : nat := (PAIR_ID_SIZE + CERTIFICATE_FINGERPRINT_SIZE + TIME_BYTES)%nat.

Inductive SightingCodecError := mkSightingCodecError.

Definition encode_sighting (pair_id : PairId) (sighting : CardSighting) : bytes :=
  SIGHTING_MAGIC ++ PairId_as_bytes pair_id
  ++ CertificateFingerprint_as_bytes (cs_fingerprint sighting) ++ to_be 8 (cs_at_ms sighting).

Definition decode_sighting (bs : bytes) : result SightingCodecError (PairId * CardSighting) :=
  let? entry := ok_or (entry ← strip_prefix SIGHTING_MAGIC bs;
                       if decide (length entry = SIGHTING_BYTES) then Some entry else None) mkSightingCodecError in
  let pair_id := take PAIR_ID_SIZE entry in
  let after := drop PAIR_ID_SIZE entry in
  let fingerprint := take CERTIFICATE_FINGERPRINT_SIZE after in
  let time := drop CERTIFICATE_FINGERPRINT_SIZE after in
  let? time := ok_or (if decide (length time = TIME_BYTES) then Some time else None) mkSightingCodecError in
  let at_ms := be_fold time in
  let? pair_id := ok_or (PairId_reconstruct pair_id) mkSightingCodecError in
  let? fingerprint := ok_or (CertificateFingerprint_reconstruct fingerprint) mkSightingCodecError in
  Ok (pair_id, CardSighting_new fingerprint at_ms).

(** ** Lemmas *)

Lemma stands_for_spec s c now :
  stands_for s c now ↔
  CertificateFingerprint_of_certificate (OwnedCert_as_der c) = cs_fingerprint s ∧
  0 < IDENTITY_OFFER_GRACE_MS ∧ Z.abs (now - cs_at_ms s) < IDENTITY_OFFER_GRACE_MS.
Proof.
  unfold stands_for, u64_saturating_sub. rewrite !andb_True, bool_decide_spec, !Is_true_true, !Z.ltb_lt.
  split; [intros [[??]?]; split; [done|lia]|intros (?&?&?); repeat split; [done|lia..]].
Qed.

(** A sighting's file decodes back to the sighting. *)
Lemma decode_encode_sighting `{!RappLaws} p s :
  is_u64 (cs_at_ms s) → decode_sighting (encode_sighting p s) = Ok (p, s).
Proof.
  intros Hs. unfold decode_sighting, encode_sighting. rewrite strip_prefix_app. cbn [mbind option_bind].
  rewrite decide_True.
  2:{ unfold SIGHTING_BYTES, TIME_BYTES. rewrite !length_app, PairId_length, CertificateFingerprint_length, length_to_be. lia. }
  cbn [ok_or result_bind]. rewrite <- (PairId_length p), take_app_length, drop_app_length.
  rewrite <- (CertificateFingerprint_length (cs_fingerprint s)), take_app_length, drop_app_length.
  rewrite length_to_be, decide_True by done. cbn [ok_or result_bind].
  rewrite PairId_reconstruct_as_bytes, CertificateFingerprint_reconstruct_as_bytes. cbn [ok_or result_bind].
  unfold is_u64 in Hs. rewrite be_fold_to_be by lia. rewrite Z.mod_small by (change (256 ^ Z.of_nat 8) with 18446744073709551616; lia).
  by destruct s.
Qed.

(** And no other file decodes to it. *)
Lemma encode_decode_sighting `{!RappLaws} bs p s :
  bytes_ok bs → decode_sighting bs = Ok (p, s) → encode_sighting p s = bs.
Proof.
  intros Hbs. unfold decode_sighting. destruct (strip_prefix SIGHTING_MAGIC bs) as [entry|] eqn:Hstrip; [|done].
  apply strip_prefix_Some in Hstrip as ->. cbn [mbind option_bind]. case_decide as Hlen; [|done]. cbn [ok_or result_bind].
  case_decide as Htime; [|done]. cbn [ok_or result_bind].
  destruct (PairId_reconstruct _) as [p'|] eqn:Hp; [|done].
  destruct (CertificateFingerprint_reconstruct _) as [f|] eqn:Hf; [|done]. intros [= <- <-].
  apply PairId_as_bytes_reconstruct in Hp. apply CertificateFingerprint_as_bytes_reconstruct in Hf.
  unfold encode_sighting. cbn [cs_fingerprint cs_at_ms CardSighting_new]. rewrite Hp, Hf. f_equal.
  unfold TIME_BYTES in Htime. rewrite <- Htime, to_be_be_fold.
  - by rewrite !take_drop.
  - apply Forall_drop, Forall_drop. by apply Forall_app in Hbs as [_ ?].
Qed.
End presence.
