(* ===== verification/PairingStore.v ===== *)
(** Durable pairing records: crates/refineid-rapp-core/src/store.rs. The record
    and its life ([PairingRecord]), the trait [PairingStore] as a class with the
    laws its clients rely on, the clients, and [MemoryPairingStore] as an
    implementation. *)

From S2P Require Import Prelude Utf8 Rapp Presence.

Section record.
Context `{Rapp}.

Inductive Keys :=
| Keys_Held (record : PairRecord)
| Keys_Revoked (pair_id : PairId) (by_peer : bool) (peer_display_name : DisplayName).

Inductive PairingState := Pst_Unconfirmed | Pst_Serving | Pst_Forgotten | Pst_Revoked (by_peer : bool).
#[export] Instance PairingState_eq_dec : EqDecision PairingState.
Proof. solve_decision. Defined.

Record Certificates := mkCertificates
  { ct_authentication : option OwnedCert; ct_signature : option OwnedCert;
    ct_root : option OwnedCert; ct_intermediate : option OwnedCert }.
Definition Certificates_NONE : Certificates := mkCertificates None None None None.

Record PairingRecord := mkPairingRecord
  { pr_keys : Keys; pr_peer_platform : bytes; pr_certificates : Certificates }.

Definition PairingRecord_new (record : PairRecord) (peer_platform : bytes) : PairingRecord :=
  mkPairingRecord (Keys_Held record) peer_platform Certificates_NONE.
Definition PairingRecord_revoked (pair_id : PairId) (by_peer : bool) (peer_display_name : DisplayName)
  (peer_platform : bytes) : PairingRecord :=
  mkPairingRecord (Keys_Revoked pair_id by_peer peer_display_name) peer_platform Certificates_NONE.

Definition pair_id (r : PairingRecord) : PairId :=
  match pr_keys r with
  | Keys_Held record => PairRecord_pair_id record
  | Keys_Revoked pair_id _ _ => pair_id
  end.
Definition peer_display_name (r : PairingRecord) : DisplayName :=
  match pr_keys r with
  | Keys_Held record => PairRecord_peer_display_name record
  | Keys_Revoked _ _ peer_display_name => peer_display_name
  end.
Definition peer_platform (r : PairingRecord) : bytes := pr_peer_platform r.

Definition set_keys (k : Keys) (r : PairingRecord) : PairingRecord :=
  mkPairingRecord k (pr_peer_platform r) (pr_certificates r).
Definition set_certificates (c : Certificates) (r : PairingRecord) : PairingRecord :=
  mkPairingRecord (pr_keys r) (pr_peer_platform r) c.

(** The store of the inner call is [|_| Ok(())]. *)
Definition rename_peer (name : DisplayName) (r : PairingRecord) : PairingRecord * bool :=
  match pr_keys r with
  | Keys_Held record =>
      let '(record, changed) := PairRecord_record_peer_display_name name record in
      (set_keys (Keys_Held record) r, changed)
  | Keys_Revoked _ _ _ => (r, false)
  end.

Definition pairing_state (r : PairingRecord) : PairingState :=
  match pr_keys r with
  | Keys_Revoked _ by_peer _ => Pst_Revoked by_peer
  | Keys_Held record =>
      match PairRecord_forgotten_at_ms record with
      | Some _ => Pst_Forgotten
      | None => if PairRecord_is_storage_confirmed record then Pst_Serving else Pst_Unconfirmed
      end
  end.
Definition serves (r : PairingRecord) : bool :=
  match pairing_state r with Pst_Serving => true | _ => false end.
Definition owes_revocation_notice (r : PairingRecord) : bool :=
  match pr_keys r with
  | Keys_Held record =>
      PairRecord_is_storage_confirmed record && bool_decide (is_Some (PairRecord_forgotten_at_ms record))
  | Keys_Revoked _ _ _ => false
  end.
Definition serving_record (r : PairingRecord) : option PairRecord :=
  match pr_keys r with
  | Keys_Held record =>
      if PairRecord_is_storage_confirmed record && bool_decide (PairRecord_forgotten_at_ms record = None)
      then Some record else None
  | Keys_Revoked _ _ _ => None
  end.
Definition pair_record (r : PairingRecord) : option PairRecord :=
  match pr_keys r with Keys_Held record => Some record | Keys_Revoked _ _ _ => None end.

Definition authentication_certificate (r : PairingRecord) : option OwnedCert := ct_authentication (pr_certificates r).
Definition signature_certificate (r : PairingRecord) : option OwnedCert := ct_signature (pr_certificates r).
Definition root_certificate (r : PairingRecord) : option OwnedCert := ct_root (pr_certificates r).
Definition intermediate_certificate (r : PairingRecord) : option OwnedCert := ct_intermediate (pr_certificates r).

Definition remember_authentication_certificate (c : OwnedCert) (r : PairingRecord) : PairingRecord :=
  let k := pr_certificates r in
  set_certificates (mkCertificates (Some c) (ct_signature k) (ct_root k) (ct_intermediate k)) r.
Definition remember_signature_certificate (c : OwnedCert) (r : PairingRecord) : PairingRecord :=
  let k := pr_certificates r in
  set_certificates (mkCertificates (ct_authentication k) (Some c) (ct_root k) (ct_intermediate k)) r.
Definition remember_root_certificate (c : OwnedCert) (r : PairingRecord) : PairingRecord :=
  let k := pr_certificates r in
  set_certificates (mkCertificates (ct_authentication k) (ct_signature k) (Some c) (ct_intermediate k)) r.
Definition remember_intermediate_certificate (c : OwnedCert) (r : PairingRecord) : PairingRecord :=
  let k := pr_certificates r in
  set_certificates (mkCertificates (ct_authentication k) (ct_signature k) (ct_root k) (Some c)) r.

Definition revoked_keys (by_peer : bool) (r : PairingRecord) : Keys :=
  Keys_Revoked (pair_id r) by_peer (peer_display_name r).

(** The placeholder stays when the engine refuses the confirmation. *)
Definition confirm_storage (active : ActivePairing) (r : PairingRecord)
  : PairingRecord * result PairingError unit :=
  let placeholder := revoked_keys false r in
  match pr_keys r with
  | Keys_Held record =>
      match ActivePairing_confirm active record with
      | Ok record => (set_keys (Keys_Held record) r, Ok tt)
      | Err e => (set_keys placeholder r, Err e)
      | Panic => (set_keys placeholder r, Panic)
      end
  | Keys_Revoked _ _ _ => (r, Err PairingError_StorageUnconfirmed)
  end.

Definition forget (at_ms : Z) (r : PairingRecord) : PairingRecord :=
  match pr_keys r with
  | Keys_Held record =>
      if decide (PairRecord_forgotten_at_ms record = None)
      then set_keys (Keys_Held (PairRecord_forgotten record at_ms)) r else r
  | Keys_Revoked _ _ _ => r
  end.

Definition revoke (by_peer : bool) (r : PairingRecord) : PairingRecord :=
  set_certificates Certificates_NONE (set_keys (revoked_keys by_peer r) r).

(** Why the record a sweep left was not handed to the store, or what the store
    answered. *)
Inductive CheckedWrite (E : Type) := Cw_Encoding (e : PairRecordCodecError) | Cw_Store (e : E).
Arguments Cw_Encoding {E} e.
Arguments Cw_Store {E} e.

(** The record the closure hands to the store. *)
Definition checked_record (expired_keys : Keys) (r : PairingRecord) (checked : PairRecord) : PairingRecord :=
  if bool_decide (is_Some (PairRecord_forgotten_at_ms checked))
  then mkPairingRecord expired_keys (pr_peer_platform r) Certificates_NONE
  else mkPairingRecord (Keys_Held checked) (pr_peer_platform r) (pr_certificates r).

Definition flatten_store_error {E} (error : RecordStoreError PairRecordCodecError (CheckedWrite E))
  : RecordStoreError PairRecordCodecError E :=
  match error with
  | Rs_Encoding error | Rs_Store (Cw_Encoding error) => Rs_Encoding error
  | Rs_Store (Cw_Store error) => Rs_Store error
  end.

Definition sweep {W E} (now_ms : Z) (session_established : bool) (store : PairingRecord → act W E unit)
  (r : PairingRecord) (w : W) : W * PairingRecord * result (RecordStoreError PairRecordCodecError E) SweepOutcome :=
  let expired_keys := revoked_keys false r in
  match pr_keys r with
  | Keys_Revoked _ _ _ => (w, r, Ok So_Kept)
  | Keys_Held keys =>
      let '(w, keys, outcome) :=
        PairRecord_sweep now_ms session_established
          (λ encoded,
             do! checked := act_lift (map_err Cw_Encoding (decode_pair_record encoded)) in
             let stored := checked_record expired_keys r checked in
             act_map_err Cw_Store (store stored)) keys w in
      let r := set_keys (Keys_Held keys) r in
      match map_err flatten_store_error outcome with
      | Ok outcome => (w, if decide (outcome = So_Expired) then revoke false r else r, Ok outcome)
      | Err e => (w, r, Err e)
      | Panic => (w, r, Panic)
      end
  end.
End record.

Arguments CheckedWrite {_} E.

(** ** The trait *)

Inductive StoreError := Ste_Unknown | Ste_WriteRefused | Ste_Unreadable.
#[export] Instance StoreError_eq_dec : EqDecision StoreError.
Proof. solve_decision. Defined.

Class PairingStore `{Rapp} (S : Type) := {
  ps_insert : PairingRecord → act S StoreError unit;
  ps_get : S → PairId → result StoreError PairingRecord;
  ps_update : PairId → (PairingRecord → PairingRecord) → act S StoreError unit;
  ps_remove : PairId → act S StoreError unit;
  ps_pair_ids : S → list PairId;
  ps_card_sighting : S → PairId → option CardSighting;
  ps_record_card_sighting : PairId → CardSighting → act S StoreError unit;
  ps_drop_card_sighting : PairId → S → S;
  ps_sweep : PairId → Z → bool → act S (RecordStoreError PairRecordCodecError StoreError) SweepOutcome;
}.

(** ** The functions over any store *)

Section clients.
Context `{Rapp} {S : Type} `{!PairingStore S}.

Definition offered_certificate (store : S) (pair_id : PairId) (now_ms : Z) : option OwnedCert :=
  record ← result_ok (ps_get store pair_id);
  record ← (if serves record then Some record else None);
  certificate ← authentication_certificate record;
  sighting ← ps_card_sighting store pair_id;
  if stands_for sighting certificate now_ms then Some certificate else None.

Definition revoke_pairing (pair_id : PairId) (by_peer : bool) : act S StoreError unit :=
  ps_update pair_id (revoke by_peer).

Definition forget_pairing (pair_id : PairId) (now_ms : Z) : act S StoreError unit := λ s,
  match ps_get s pair_id with
  | Ok record =>
      match pairing_state record with
      | Pst_Unconfirmed | Pst_Revoked _ => ps_remove pair_id s
      | Pst_Forgotten => (s, Ok tt)
      | Pst_Serving => ps_update pair_id (forget now_ms) s
      end
  | Err e => (s, Err e)
  | Panic => (s, Panic)
  end.

(** [let _ = ...]: an error is dropped, a panic is not. *)
Fixpoint for_each {A E} (f : A → act S E unit) (l : list A) : act S E unit :=
  match l with
  | [] => act_ret tt
  | a :: l => λ s, match f a s with
                   | (s, Panic) => (s, Panic)
                   | (s, _) => for_each f l s
                   end
  end.

Definition result_is_ok_and {E A} (m : result E A) (p : A → bool) : bool :=
  match m with Ok a => p a | _ => false end.

Definition remove_unconfirmed : act S StoreError (list PairId) := λ s,
  let unconfirmed := filter (λ p, result_is_ok_and (ps_get s p)
                               (λ record, bool_decide (pairing_state record = Pst_Unconfirmed))) (ps_pair_ids s) in
  (do! _ := for_each ps_remove unconfirmed in act_ret unconfirmed) s.

Definition expire_revocation_notices (now_ms : Z) : act S StoreError (list PairId) := λ s,
  let expired := filter (λ p, result_is_ok_and (ps_get s p)
                           (λ record, match pair_record record with
                                      | Some keys => PairRecord_revocation_notice_expired keys now_ms
                                      | None => false
                                      end)) (ps_pair_ids s) in
  (do! _ := for_each (λ p, revoke_pairing p false) expired in act_ret expired) s.

Fixpoint sweep_each (now_ms : Z) (in_session : PairId → bool) (l : list PairId) (expired : list PairId)
  : act S StoreError (list PairId) :=
  match l with
  | [] => act_ret expired
  | p :: l => λ s,
      match ps_sweep p now_ms (in_session p) s with
      | (s, Ok So_Expired) => sweep_each now_ms in_session l (expired ++ [p]) s
      | (s, Ok _) | (s, Err _) => sweep_each now_ms in_session l expired s
      | (s, Panic) => (s, Panic)
      end
  end.
Definition sweep_pairings (now_ms : Z) (in_session : PairId → bool) : act S StoreError (list PairId) := λ s,
  sweep_each now_ms in_session (ps_pair_ids s) [] s.
End clients.

(** ** The store in memory *)

(** Shared with the protected store: [retain], [find] and [iter_mut().find]. *)
Section lists.
Context `{Rapp}.

Definition without_pairing (p : PairId) (l : list PairingRecord) : list PairingRecord :=
  filter (λ r, pair_id r ≠ p) l.
Definition find_pairing (p : PairId) (l : list PairingRecord) : option PairingRecord :=
  List.find (λ r, bool_decide (pair_id r = p)) l.
Fixpoint update_pairing (p : PairId) (f : PairingRecord → PairingRecord) (l : list PairingRecord)
  : option (list PairingRecord) :=
  match l with
  | [] => None
  | r :: l => if decide (pair_id r = p) then Some (f r :: l) else cons r <$> update_pairing p f l
  end.
Definition without_sighting (p : PairId) (l : list (PairId * CardSighting)) : list (PairId * CardSighting) :=
  filter (λ e, e.1 ≠ p) l.
Definition find_sighting (p : PairId) (l : list (PairId * CardSighting)) : option CardSighting :=
  snd <$> List.find (λ e, bool_decide (e.1 = p)) l.
End lists.

Section memory.
Context `{Rapp}.

Record MemoryPairingStore := mkMemoryPairingStore
  { mps_records : list PairingRecord; mps_sightings : list (PairId * CardSighting) }.
Definition MemoryPairingStore_new : MemoryPairingStore := mkMemoryPairingStore [] [].

Definition mps_insert (record : PairingRecord) : act MemoryPairingStore StoreError unit := λ s,
  (mkMemoryPairingStore (without_pairing (pair_id record) (mps_records s) ++ [record]) (mps_sightings s), Ok tt).
Definition mps_get (s : MemoryPairingStore) (p : PairId) : result StoreError PairingRecord :=
  ok_or (find_pairing p (mps_records s)) Ste_Unknown.
Definition mps_update (p : PairId) (change : PairingRecord → PairingRecord) : act MemoryPairingStore StoreError unit := λ s,
  match update_pairing p change (mps_records s) with
  | Some records => (mkMemoryPairingStore records (mps_sightings s), Ok tt)
  | None => (s, Err Ste_Unknown)
  end.
Definition mps_remove (p : PairId) : act MemoryPairingStore StoreError unit := λ s,
  let records := without_pairing p (mps_records s) in
  if decide (length records = length (mps_records s))
  then (mkMemoryPairingStore records (mps_sightings s), Err Ste_Unknown)
  else (mkMemoryPairingStore records (without_sighting p (mps_sightings s)), Ok tt).
Definition mps_pair_ids (s : MemoryPairingStore) : list PairId := map pair_id (reverse (mps_records s)).
Definition mps_card_sighting (s : MemoryPairingStore) (p : PairId) : option CardSighting :=
  find_sighting p (mps_sightings s).
Definition mps_record_card_sighting (p : PairId) (sighting : CardSighting) : act MemoryPairingStore StoreError unit := λ s,
  (mkMemoryPairingStore (mps_records s) (without_sighting p (mps_sightings s) ++ [(p, sighting)]), Ok tt).
Definition mps_drop_card_sighting (p : PairId) (s : MemoryPairingStore) : MemoryPairingStore :=
  mkMemoryPairingStore (mps_records s) (without_sighting p (mps_sightings s)).
Definition mps_sweep (p : PairId) (now_ms : Z) (session_established : bool)
  : act MemoryPairingStore (RecordStoreError PairRecordCodecError StoreError) SweepOutcome := λ s,
  match list_find (λ r, pair_id r = p) (mps_records s) with
  | None => (s, Err (Rs_Store Ste_Unknown))
  | Some (i, record) =>
      let '(_, record, outcome) := sweep now_ms session_established (λ _, act_ret (T:=unit) tt) record tt in
      (mkMemoryPairingStore (<[i := record]> (mps_records s)) (mps_sightings s), outcome)
  end.

#[export] Instance MemoryPairingStore_store : PairingStore MemoryPairingStore := {
  ps_insert := mps_insert; ps_get := mps_get; ps_update := mps_update; ps_remove := mps_remove;
  ps_pair_ids := mps_pair_ids; ps_card_sighting := mps_card_sighting;
  ps_record_card_sighting := mps_record_card_sighting; ps_drop_card_sighting := mps_drop_card_sighting;
  ps_sweep := mps_sweep;
}.
End memory.

(** ** Lemmas: records *)

Section record_lemmas.
Context `{Rapp} `{!RappLaws} `{CertificateDecoder}.

(** What this computer's own records are: a requester's keys, text that is
    text, certificates that decode. *)
Definition Certificates_list (c : Certificates) : list OwnedCert :=
  omap id [ct_authentication c; ct_signature c; ct_root c; ct_intermediate c].
Definition PairingRecord_wf (r : PairingRecord) : Prop :=
  (∀ k, pr_keys r = Keys_Held k → PairRecord_role_is_Requester k) ∧
  utf8_valid (pr_peer_platform r) ∧ Forall OwnedCert_wf (Certificates_list (pr_certificates r)).

(** A change that keeps a record the record of its pairing. *)
Definition keeps_pairing (f : PairingRecord → PairingRecord) : Prop :=
  ∀ r, pair_id (f r) = pair_id r ∧ (PairingRecord_wf r → PairingRecord_wf (f r)).

Lemma set_keys_keeps k r :
  PairingRecord_wf r → (∀ k', k = Keys_Held k' → PairRecord_role_is_Requester k') →
  PairingRecord_wf (set_keys k r).
Proof. intros (_ & ? & ?) Hk. by split; [|split]. Qed.

Lemma revoke_keeps by_peer : keeps_pairing (revoke by_peer).
Proof. intros r. split; [done|]. intros (_ & ? & _). by split; [|split]. Qed.

Lemma forget_keeps at_ms : keeps_pairing (forget at_ms).
Proof.
  intros r. unfold forget, pair_id. destruct (pr_keys r) as [k|p b n] eqn:Hk; [|by rewrite Hk].
  case_decide; [|by rewrite Hk]. destruct (PairRecord_forgotten_same k at_ms) as [Hid Hrole].
  cbn [pr_keys set_keys]. split; [done|]. intros Hwf. apply set_keys_keeps; [done|]. intros k' [= <-].
  rewrite Hrole. by apply Hwf.
Qed.

Lemma rename_keeps name : keeps_pairing (λ r, (rename_peer name r).1).
Proof.
  intros r. unfold rename_peer, pair_id. destruct (pr_keys r) as [k|p b n] eqn:Hk; [|by cbn; rewrite Hk].
  destruct (PairRecord_renamed name k) as ([Hid Hrole] & _ & _).
  destruct (PairRecord_record_peer_display_name name k) as [k' changed]. cbn [fst pr_keys set_keys] in *.
  split; [done|]. intros Hwf. apply set_keys_keeps; [done|]. intros ? [= <-]. rewrite Hrole. by apply Hwf.
Qed.

Lemma confirm_keeps active : keeps_pairing (λ r, (confirm_storage active r).1).
Proof.
  intros r. unfold confirm_storage, revoked_keys. destruct (pr_keys r) as [k|p b n] eqn:Hk; [|done].
  destruct (ActivePairing_confirm active k) as [k'|e|] eqn:Hc; cbn [fst].
  - destruct (PairRecord_confirmed _ _ _ Hc) as ([Hid Hrole] & _ & _). split.
    { unfold pair_id. by rewrite Hk. }
    intros Hwf. apply set_keys_keeps; [done|]. intros ? [= <-]. rewrite Hrole. by apply Hwf.
  - split; [done|]. intros Hwf. by apply set_keys_keeps.
  - split; [done|]. intros Hwf. by apply set_keys_keeps.
Qed.

(** What a completed sweep makes of a record. *)
Definition swept (outcome : SweepOutcome) (r r' : PairingRecord) : Prop :=
  match outcome with
  | So_Kept => r' = r
  | So_Expired => r' = revoke false r
  | So_Recorded =>
      pair_id r' = pair_id r ∧ pairing_state r' = pairing_state r ∧
      pr_peer_platform r' = pr_peer_platform r ∧ pr_certificates r' = pr_certificates r ∧
      (PairingRecord_wf r → PairingRecord_wf r')
  end.

Lemma swept_keeps outcome r r' :
  swept outcome r r' → pair_id r' = pair_id r ∧ (PairingRecord_wf r → PairingRecord_wf r').
Proof. destruct outcome; cbn; [intros ->; apply revoke_keeps|naive_solver|by intros ->]. Qed.

(** The sweep of one record, for a store that does not panic: nothing was
    stored and nothing changed, or the record as it becomes was stored. *)
Lemma sweep_cases {W E} now established (store : PairingRecord → act W E unit) r w :
  (∀ r w, (store r w).2 ≠ Panic) →
  sweep now established store r w = (w, r, Ok So_Kept) ∨
  (∃ e, sweep now established store r w = (w, r, Err (Rs_Encoding e))) ∨
  ∃ outcome r', outcome ≠ So_Kept ∧ swept outcome r r' ∧
    sweep now established store r w =
      match store r' w with
      | (w', Ok _) => (w', r', Ok outcome)
      | (w', Err e) => (w', r, Err (Rs_Store e))
      | (w', Panic) => (w', r, Panic)
      end.
Proof.
  intros Hstore. unfold sweep. destruct (pr_keys r) as [k|p b n] eqn:Hk; [|by left].
  assert (set_keys (Keys_Held k) r = r) as Hr by (destruct r; cbn in *; by subst).
  match goal with |- context [PairRecord_sweep _ _ ?cb k w] => set (callback := cb) end.
  destruct (PairRecord_sweep_spec now established callback k w)
    as [->|[[e ->]|(checked & encoded & outcome & Henc & [Hid Hrole] & Hname & Hconf & Hout & ->)]].
  - left. cbn. by rewrite Hr, decide_False.
  - right; left. exists e. cbn. by rewrite Hr.
  - right; right. unfold callback at 1. rewrite (decode_encode_pair_record _ _ Henc). cbn [map_err]. rewrite act_lift_ok.
    assert (pair_id r = PairRecord_pair_id k ∧ peer_display_name r = PairRecord_peer_display_name k) as [Hp Hn].
    { unfold pair_id, peer_display_name. by rewrite Hk. }
    destruct Hout as [[-> Hforgot]|(-> & Hforgot & Hnot)].
    + exists So_Expired, (revoke false r). split; [done|]. split; [done|].
      unfold checked_record. rewrite bool_decide_true by done. unfold act_map_err.
      change (mkPairingRecord (revoked_keys false r) (pr_peer_platform r) Certificates_NONE) with (revoke false r).
      destruct (store (revoke false r) w) as [w' [[]|e|]]; cbn; [|by rewrite Hr..].
      unfold revoke, revoked_keys, pair_id, peer_display_name. cbn. by rewrite Hk, Hid, Hname.
    + set (r' := set_keys (Keys_Held checked) r). exists So_Recorded, r'.
      assert (checked_record (revoked_keys false r) r checked = r') as ->.
      { unfold checked_record. rewrite Hforgot, bool_decide_false by (by intros []). done. }
      split; [done|]. split.
      { split; [change (PairRecord_pair_id checked = pair_id r); congruence|]. split.
        { unfold pairing_state. cbn. by rewrite Hk, Hforgot, Hnot, Hconf. }
        split; [done|]. split; [done|]. intros Hwf. apply set_keys_keeps; [done|]. intros k' [= <-].
        rewrite Hrole. by apply Hwf. }
      unfold act_map_err. destruct (store r' w) as [w' [[]|e|]]; cbn; [done|by rewrite Hr..].
Qed.
End record_lemmas.

(** ** Lemmas: lists of records *)

Section list_lemmas.
Context `{Rapp}.

Lemma find_pairing_Some p l r : find_pairing p l = Some r → r ∈ l ∧ pair_id r = p.
Proof.
  unfold find_pairing. intros [Hin Hp]%List.find_some. rewrite bool_decide_eq_true in Hp.
  split; [by apply list_elem_of_In|done].
Qed.

Lemma find_pairing_None p l : find_pairing p l = None ↔ Forall (λ r, pair_id r ≠ p) l.
Proof.
  unfold find_pairing. induction l as [|r l IH]; cbn; [by split|].
  case_bool_decide; [split; [done|]; by intros [? _]%Forall_cons_1|]. rewrite IH, Forall_cons_iff. tauto.
Qed.

Lemma find_pairing_cons p r l : find_pairing p (r :: l) = if decide (pair_id r = p) then Some r else find_pairing p l.
Proof. unfold find_pairing. cbn. case_bool_decide; by case_decide. Qed.

Lemma find_pairing_app p l1 l2 :
  find_pairing p (l1 ++ l2) = match find_pairing p l1 with Some r => Some r | None => find_pairing p l2 end.
Proof.
  induction l1 as [|r l1 IH]; [done|]. cbn [app]. rewrite !find_pairing_cons. by case_decide.
Qed.

Lemma find_without p q l : find_pairing q (without_pairing p l) = if decide (q = p) then None else find_pairing q l.
Proof.
  unfold without_pairing. induction l as [|r l IH]; [by case_decide|]. rewrite filter_cons.
  destruct (decide (pair_id r ≠ p)) as [Hr|Hr%dec_stable]; rewrite find_pairing_cons.
  - rewrite find_pairing_cons, IH. repeat case_decide; congruence.
  - rewrite IH. repeat case_decide; congruence.
Qed.

Lemma without_length p l : length (without_pairing p l) = length l ↔ find_pairing p l = None.
Proof.
  rewrite find_pairing_None. unfold without_pairing. split.
  - induction l as [|r l IH]; [by constructor|]. rewrite filter_cons. destruct (decide (pair_id r ≠ p)) as [Hr|Hr]; cbn [length].
    + intros [= Hl]. constructor; [done|by apply IH].
    + pose proof (length_filter (λ r, pair_id r ≠ p) l). lia.
  - induction 1 as [|r l Hr _ IH]; [done|]. rewrite filter_cons, decide_True by done. cbn [length]. by rewrite IH.
Qed.

Lemma update_pairing_spec p f l l' :
  (∀ r, pair_id r = p → pair_id (f r) = p) → update_pairing p f l = Some l' →
  (∃ r, find_pairing p l = Some r) ∧
  (∀ q, find_pairing q l' = if decide (q = p) then f <$> find_pairing q l else find_pairing q l) ∧
  map pair_id l' = map pair_id l.
Proof.
  intros Hf. revert l'. induction l as [|r l IH]; intros l'; [done|]. cbn [update_pairing].
  case_decide as Hr.
  - intros [= <-]. pose proof (Hf r Hr). split; [exists r; by rewrite find_pairing_cons, decide_True|].
    split; [|cbn; congruence]. intros q. rewrite !find_pairing_cons. repeat case_decide; cbn; (done || congruence).
  - destruct (update_pairing p f l) as [l1|] eqn:Hu; [|done]. intros [= <-].
    destruct (IH l1 eq_refl) as (Hex & Hq & Hids). split; [by rewrite find_pairing_cons, decide_False|].
    split; [|cbn; by rewrite Hids].
    intros q. rewrite !find_pairing_cons, Hq. repeat case_decide; (done || congruence).
Qed.

Lemma update_pairing_None p f l : update_pairing p f l = None ↔ find_pairing p l = None.
Proof.
  induction l as [|r l IH]; [done|]. cbn [update_pairing]. rewrite find_pairing_cons. case_decide; [done|].
  destruct (update_pairing p f l); cbn; naive_solver.
Qed.

Lemma Forall_update (P : PairingRecord → Prop) p f l l' :
  (∀ r, P r → P (f r)) → update_pairing p f l = Some l' → Forall P l → Forall P l'.
Proof.
  intros Hf. revert l'. induction l as [|r l IH]; intros l'; [done|]. cbn [update_pairing]. case_decide.
  - intros [= <-] [Hr Hl]%Forall_cons_1. constructor; auto.
  - destruct (update_pairing p f l) as [l1|]; [|done]. intros [= <-] [Hr Hl]%Forall_cons_1. constructor; auto.
Qed.

(** Updating by index what [position] found is updating the first record. *)
Lemma list_find_update p l i r r' :
  list_find (λ r, pair_id r = p) l = Some (i, r) →
  find_pairing p l = Some r ∧ update_pairing p (λ _, r') l = Some (<[i := r']> l).
Proof.
  revert i. induction l as [|r0 l IH]; intros i; [done|]. cbn [list_find]. rewrite find_pairing_cons. cbn [update_pairing].
  case_decide as Hr0.
  - by intros [= <- <-].
  - destruct (list_find _ l) as [[j r1]|] eqn:Hl; [|done]. intros [= <- ->].
    destruct (IH j eq_refl) as [Hf Hu]. split; [done|]. by rewrite Hu.
Qed.

Lemma list_find_None_pairing p l : list_find (λ r, pair_id r = p) l = None ↔ find_pairing p l = None.
Proof. by rewrite list_find_None, find_pairing_None. Qed.

Lemma find_sighting_cons q p s l :
  find_sighting q ((p, s) :: l) = if decide (p = q) then Some s else find_sighting q l.
Proof. unfold find_sighting. cbn. case_bool_decide; by case_decide. Qed.

Lemma find_without_sighting p q l :
  find_sighting q (without_sighting p l) = if decide (q = p) then None else find_sighting q l.
Proof.
  unfold without_sighting. induction l as [|[p' s] l IH]; [by case_decide|]. rewrite filter_cons.
  cbn [fst]. destruct (decide (p' ≠ p)) as [Hp|Hp%dec_stable]; rewrite ?find_sighting_cons, IH;
    repeat case_decide; congruence.
Qed.

Lemma find_sighting_app p l1 l2 :
  find_sighting p (l1 ++ l2) = match find_sighting p l1 with Some s => Some s | None => find_sighting p l2 end.
Proof.
  induction l1 as [|[p' s] l1 IH]; [done|]. cbn [app]. rewrite !find_sighting_cons. by case_decide.
Qed.
End list_lemmas.
Arguments find_pairing {_} _ _ : simpl never.
Arguments find_sighting {_} _ _ : simpl never.
Arguments without_pairing {_} _ _ : simpl never.
Arguments without_sighting {_} _ _ : simpl never.

(** ** The laws of a store *)

Class PairingStoreLaws `{Rapp} `{CertificateDecoder} (S : Type) `{!PairingStore S} := {
  (** The representation invariant. *)
  ps_ok : S → Prop;
  ps_get_spec s p : ps_ok s → match ps_get s p with
                              | Ok r => pair_id r = p ∧ PairingRecord_wf r
                              | Err e => e = Ste_Unknown
                              | Panic => False
                              end;
  ps_pair_ids_spec s p : ps_ok s → p ∈ ps_pair_ids s ↔ ∃ r, ps_get s p = Ok r;
  ps_insert_spec s s' r :
    ps_ok s → PairingRecord_wf r → ps_insert r s = (s', Ok tt) →
    ps_ok s' ∧ (∀ q, ps_get s' q = if decide (q = pair_id r) then Ok r else ps_get s q);
  ps_update_spec s s' p f :
    ps_ok s → keeps_pairing f → ps_update p f s = (s', Ok tt) →
    ps_ok s' ∧ (∃ r, ps_get s p = Ok r) ∧
    (∀ q, ps_get s' q = if decide (q = p) then result_map f (ps_get s q) else ps_get s q);
  ps_remove_spec s s' p :
    ps_ok s → ps_remove p s = (s', Ok tt) →
    ps_ok s' ∧ (∃ r, ps_get s p = Ok r) ∧
    (∀ q, ps_get s' q = if decide (q = p) then Err Ste_Unknown else ps_get s q) ∧
    ps_card_sighting s' p = None;
  ps_sweep_spec s p now established :
    ps_ok s → let '(s', outcome) := ps_sweep p now established s in
    ps_ok s' ∧
    match outcome with
    | Ok outcome => ∃ r r', ps_get s p = Ok r ∧ swept outcome r r' ∧
        (∀ q, ps_get s' q = if decide (q = p) then Ok r' else ps_get s q)
    | Err _ => ∀ q, ps_get s' q = ps_get s q
    | Panic => False
    end;
  ps_record_card_sighting_spec s s' p sighting :
    ps_ok s → ps_record_card_sighting p sighting s = (s', Ok tt) →
    ps_ok s' ∧ (∀ q, ps_get s' q = ps_get s q) ∧
    (∀ q, ps_card_sighting s' q = if decide (q = p) then Some sighting else ps_card_sighting s q);
}.

Section memory_laws.
Context `{Rapp} `{!RappLaws} `{CertificateDecoder}.

Definition mps_ok (s : MemoryPairingStore) : Prop := Forall PairingRecord_wf (mps_records s).

Lemma find_pairing_wf p l r : Forall PairingRecord_wf l → find_pairing p l = Some r → pair_id r = p ∧ PairingRecord_wf r.
Proof. intros Hl [Hin Hp]%find_pairing_Some. split; [done|]. by eapply (proj1 (list.Forall_forall _ _)). Qed.

Lemma ok_or_Ok {E A} (o : option A) (e : E) : (∃ a, ok_or o e = Ok a) ↔ ∃ a, o = Some a.
Proof. destruct o; cbn; naive_solver. Qed.

Lemma elem_of_pair_ids p l : p ∈ map pair_id (reverse l) ↔ ∃ r, find_pairing p l = Some r.
Proof.
  rewrite list_elem_of_fmap. setoid_rewrite elem_of_reverse. split.
  - intros (r & -> & Hr). destruct (find_pairing (pair_id r) l) as [r'|] eqn:Hf; [by exists r'|].
    apply find_pairing_None in Hf. rewrite list.Forall_forall in Hf. by destruct (Hf r Hr).
  - intros [r [Hin <-]%find_pairing_Some]. by exists r.
Qed.

Lemma Forall_without (P : PairingRecord → Prop) p l : Forall P l → Forall P (without_pairing p l).
Proof. intros Hl. rewrite list.Forall_forall in *. intros r. unfold without_pairing. rewrite list_elem_of_filter. naive_solver. Qed.

(** The step of both stores after the engine's answer: the swept record at its
    place. *)
Lemma swept_list p l i r r' outcome :
  list_find (λ r, pair_id r = p) l = Some (i, r) → swept outcome r r' → Forall PairingRecord_wf l →
  find_pairing p l = Some r ∧ Forall PairingRecord_wf (<[i := r']> l) ∧
  (∀ q, find_pairing q (<[i := r']> l) = if decide (q = p) then Some r' else find_pairing q l).
Proof.
  intros Hfind Hswept Hl. destruct (list_find_update p l i r r' Hfind) as [Hf Hu].
  apply list_find_Some in Hfind as (Hi & Hp & _). destruct (swept_keeps _ _ _ Hswept) as [Hid Hwf].
  split; [done|]. split.
  { apply Forall_insert; [done|]. apply Hwf. rewrite Forall_lookup in Hl. by eapply Hl. }
  clear Hl Hwf Hswept Hi.
  destruct (update_pairing_spec p (λ _, r') l _ ltac:(intros; cbn; congruence) Hu) as (_ & Hq & _).
  intros q. rewrite Hq. case_decide as Hqp; [|done]. subst q. by rewrite Hf.
Qed.

Lemma mps_sweep_done s p i r r' outcome :
  mps_ok s → list_find (λ r, pair_id r = p) (mps_records s) = Some (i, r) → swept outcome r r' →
  let s' := mkMemoryPairingStore (<[i := r']> (mps_records s)) (mps_sightings s) in
  mps_ok s' ∧
  ∃ r r', mps_get s p = Ok r ∧ swept outcome r r' ∧ (∀ q, mps_get s' q = if decide (q = p) then Ok r' else mps_get s q).
Proof.
  intros Hs Hfind Hswept. destruct (swept_list p _ i r r' outcome Hfind Hswept Hs) as (Hf & Hwf & Hq).
  split; [done|]. exists r, r'. unfold mps_get. cbn. rewrite Hf. split; [done|]. split; [done|].
  intros q. rewrite Hq. by case_decide.
Qed.

(** What [insert], [update] and [remove] of both stores make of a list. *)
Lemma find_insert l r q :
  ok_or (find_pairing q (without_pairing (pair_id r) l ++ [r])) Ste_Unknown =
  if decide (q = pair_id r) then Ok r else ok_or (find_pairing q l) Ste_Unknown.
Proof.
  rewrite find_pairing_app, find_without, find_pairing_cons.
  repeat case_decide; try done; try congruence; by destruct (find_pairing q l).
Qed.

Lemma found p l : find_pairing p l ≠ None → ∃ r, ok_or (find_pairing p l) Ste_Unknown = Ok r.
Proof. destruct (find_pairing p l) as [r|]; [by exists r|done]. Qed.

Lemma find_update p f l l' :
  Forall PairingRecord_wf l → keeps_pairing f → update_pairing p f l = Some l' →
  Forall PairingRecord_wf l' ∧ (∃ r, ok_or (find_pairing p l) Ste_Unknown = Ok r) ∧
  ∀ q, ok_or (find_pairing q l') Ste_Unknown =
       if decide (q = p) then result_map f (ok_or (find_pairing q l) Ste_Unknown) else ok_or (find_pairing q l) Ste_Unknown.
Proof.
  intros Hl Hf Hu. destruct (update_pairing_spec p f l l' ltac:(intros; destruct (Hf r); congruence) Hu) as ([r Hr] & Hq & _).
  split; [eapply Forall_update; [|done..]; intros ?; apply Hf|]. split; [apply found; by rewrite Hr|].
  intros q. rewrite Hq. case_decide; [|done]. by destruct (find_pairing q l).
Qed.

Lemma find_removed p l q :
  ok_or (find_pairing q (without_pairing p l)) Ste_Unknown =
  if decide (q = p) then Err Ste_Unknown else ok_or (find_pairing q l) Ste_Unknown.
Proof. rewrite find_without. by case_decide. Qed.

#[export] Instance MemoryPairingStore_laws : PairingStoreLaws MemoryPairingStore.
Proof.
  refine {| ps_ok := mps_ok |}.
  - intros s p Hs. cbn. unfold mps_get. destruct (find_pairing p (mps_records s)) as [r|] eqn:Hf; [|done].
    by apply (find_pairing_wf p _ r Hs).
  - intros s p _. cbn. unfold mps_pair_ids, mps_get. by rewrite elem_of_pair_ids, ok_or_Ok.
  - intros s s' r Hs Hr [= <-]. cbn. unfold mps_ok, mps_get. cbn. split.
    { apply Forall_app. split; [by apply Forall_without|by apply list.Forall_singleton]. }
    apply find_insert.
  - intros s s' p f Hs Hf. cbn. unfold mps_update, mps_get, mps_ok.
    destruct (update_pairing p f (mps_records s)) as [l|] eqn:Hu; [|done]. intros [= <-].
    by apply find_update.
  - intros s s' p Hs. cbn. unfold mps_remove, mps_get, mps_card_sighting, mps_ok.
    case_decide as Hl; [done|]. intros [= <-]. cbn. rewrite without_length in Hl.
    split; [by apply Forall_without|]. split; [by apply found|]. split; [apply find_removed|].
    by rewrite find_without_sighting, decide_True.
  - intros s p now established Hs. cbn. unfold mps_sweep.
    destruct (list_find _ _) as [[i r]|] eqn:Hfind; [|done].
    destruct (sweep_cases now established (λ _, act_ret (T:=unit) (E:=StoreError) tt) r tt ltac:(done))
      as [->|[[e ->]|(out & r' & _ & Hswept & ->)]].
    + by apply (mps_sweep_done s p i r).
    + destruct (swept_list p _ i r r So_Kept Hfind eq_refl Hs) as (Hf & Hwf & Hq). split; [done|].
      intros q. unfold mps_get. cbn. rewrite Hq. case_decide as Hqp; [|done]. subst q. by rewrite Hf.
    + by apply (mps_sweep_done s p i r).
  - intros s s' p sighting Hs [= <-]. cbn. unfold mps_get, mps_card_sighting. cbn. split; [done|]. split; [done|].
    intros q. rewrite find_sighting_app, find_without_sighting, find_sighting_cons.
    repeat case_decide; try done; try congruence; by destruct (find_sighting q (mps_sightings s)).
Defined.
End memory_laws.

(** ** Lemmas: what the clients do, over any store with the laws *)

Section client_lemmas.
Context `{Rapp} `{!RappLaws} `{CertificateDecoder} {S : Type} `{!PairingStore S} `{!PairingStoreLaws S}.

Lemma forget_serving at_ms r :
  pairing_state r = Pst_Serving →
  pairing_state (forget at_ms r) = Pst_Forgotten ∧ owes_revocation_notice (forget at_ms r) ∧
  pr_certificates (forget at_ms r) = pr_certificates r ∧ pr_peer_platform (forget at_ms r) = pr_peer_platform r.
Proof.
  unfold pairing_state, forget, owes_revocation_notice. destruct (pr_keys r) as [k|p b n] eqn:Hk; [|done].
  destruct (PairRecord_forgotten_at_ms k) eqn:Hf; [done|]. destruct (PairRecord_is_storage_confirmed k) eqn:Hc; [|done].
  intros _. rewrite decide_True by done. cbn. rewrite PairRecord_forgotten_at, PairRecord_forgotten_confirmed, Hc.
  by repeat split; rewrite ?bool_decide_true.
Qed.

(** The invariant of the sweep over a list of pairings. *)
Definition swept_store (s s' : S) (expired : list PairId) : Prop :=
  ps_ok s' ∧
  ∀ q, match ps_get s q with
       | Ok r => ∃ r', ps_get s' q = Ok r' ∧
                 ((q ∈ expired ∧ pairing_state r' = Pst_Revoked false) ∨ pairing_state r' = pairing_state r)
       | _ => ps_get s' q = ps_get s q
       end ∧ (q ∈ expired → ∃ r', ps_get s' q = Ok r' ∧ pairing_state r' = Pst_Revoked false).

Lemma swept_state outcome r r' :
  swept outcome r r' → pairing_state r' = pairing_state r ∨ (outcome = So_Expired ∧ pairing_state r' = Pst_Revoked false).
Proof. destruct outcome; cbn; naive_solver. Qed.

Lemma sweep_step s0 s s' expired p now established outcome :
  swept_store s0 s expired → ps_sweep p now established s = (s', outcome) →
  outcome ≠ Panic ∧
  swept_store s0 s' (match outcome with Ok So_Expired => expired ++ [p] | _ => expired end).
Proof.
  intros [Hok Hq] Hstep. pose proof (ps_sweep_spec s p now established Hok) as Hspec. rewrite Hstep in Hspec.
  destruct Hspec as (Hok' & Hout). destruct outcome as [outcome|e|]; [|split; [done|]|done].
  2:{ split; [done|]. intros q. rewrite Hout. apply Hq. }
  split; [done|]. split; [done|]. destruct Hout as (r & r' & Hget & Hswept & Hget'). intros q. rewrite Hget'.
  destruct (Hq q) as [Hq1 Hq2]. case_decide as Hqp; [subst q|].
  - rewrite Hget in *. apply swept_state in Hswept as Hst. split.
    + destruct (ps_get s0 p) as [r0|e|]; [|done..]. destruct Hq1 as (r1 & [= <-] & Hr1). exists r'. split; [done|].
      destruct Hst as [Hst|[-> Hst]]; [|left; split; [set_solver|done]]. rewrite Hst.
      destruct Hr1 as [[Hin Hr1]|]; [left; split; [destruct outcome; set_solver|done]|by right].
    + intros Hin. exists r'. split; [done|]. destruct Hst as [Hst|[_ Hst]]; [|done].
      destruct outcome; [by cbn in Hswept; subst| |]; destruct (Hq2 Hin) as (r1 & [= <-] & Hr1); congruence.
  - split.
    + destruct (ps_get s0 q) as [r0|e|]; [|done..]. destruct Hq1 as (r1 & -> & Hr1). exists r1. split; [done|].
      destruct Hr1 as [[Hin Hr1]|]; [left; split; [destruct outcome; set_solver|done]|by right].
    + intros Hin. apply Hq2. destruct outcome; [|done..]. apply elem_of_app in Hin as [|Hin]; [done|]. set_solver.
Qed.

Lemma sweep_each_spec s0 now in_session l : ∀ s expired,
  swept_store s0 s expired →
  ∃ s' expired', sweep_each now in_session l expired s = (s', Ok expired') ∧ swept_store s0 s' expired'.
Proof.
  induction l as [|p l IH]; intros s expired Hs; [by exists s, expired|]. cbn [sweep_each].
  destruct (ps_sweep p now (in_session p) s) as [s1 outcome] eqn:Hstep.
  destruct (sweep_step _ _ _ _ _ _ _ _ Hs Hstep) as [Hnp Hs1].
  destruct outcome as [[]|e|]; [by apply IH..|done].
Qed.
End client_lemmas.

(** The life of a pairing: the operations on a record, in any order. *)
Section life.
Context `{Rapp} `{!RappLaws} `{CertificateDecoder}.

Inductive record_step : PairingRecord → PairingRecord → Prop :=
| step_rename name r : record_step r (rename_peer name r).1
| step_confirm active r : record_step r (confirm_storage active r).1
| step_forget at_ms r : record_step r (forget at_ms r)
| step_revoke by_peer r : record_step r (revoke by_peer r)
| step_sweep {W E : Type} now established (store : PairingRecord → act W E unit) r w :
    (∀ r w, (store r w).2 ≠ Panic) → record_step r (sweep now established store r w).1.2
| step_authentication c r : record_step r (remember_authentication_certificate c r)
| step_signature c r : record_step r (remember_signature_certificate c r)
| step_root c r : record_step r (remember_root_certificate c r)
| step_intermediate c r : record_step r (remember_intermediate_certificate c r).

Definition life_rank (s : PairingState) : nat :=
  match s with Pst_Unconfirmed => 0 | Pst_Serving => 1 | Pst_Forgotten => 2 | Pst_Revoked _ => 3 end.

Lemma record_step_forward r r' :
  record_step r r' → pair_id r' = pair_id r ∧ (life_rank (pairing_state r) ≤ life_rank (pairing_state r'))%nat.
Proof.
  destruct 1 as [name r|active r|at_ms r|by_peer r|W E now established store r w Hstore|c r|c r|c r|c r]; try done.
  - split; [apply rename_keeps|]. unfold rename_peer, pairing_state. destruct (pr_keys r) as [k|p b n] eqn:Hk; [|by cbn; rewrite Hk].
    destruct (PairRecord_renamed name k) as (_ & Hc & Hf). destruct (PairRecord_record_peer_display_name name k) as [k' ch].
    cbn in *. by rewrite Hf, Hc.
  - split; [apply confirm_keeps|]. unfold confirm_storage, pairing_state. destruct (pr_keys r) as [k|p b n] eqn:Hk; [|by cbn; rewrite Hk].
    destruct (ActivePairing_confirm active k) as [k'|e|] eqn:Hconf; cbn; [|by repeat case_match; cbn; lia..].
    destruct (PairRecord_confirmed _ _ _ Hconf) as (_ & Hc & Hf). rewrite Hf, (Is_true_true_1 _ Hc).
    repeat case_match; cbn; lia.
  - split; [apply forget_keeps|]. unfold forget, pairing_state. destruct (pr_keys r) as [k|p b n] eqn:Hk; [|by rewrite Hk].
    case_decide; [|by rewrite Hk]. cbn. rewrite PairRecord_forgotten_at. repeat case_match; cbn; lia.
  - split; [apply revoke_keeps|]. cbn. destruct (pairing_state r); cbn; lia.
  - destruct (sweep_cases now established store r w Hstore) as [->|[[e ->]|(out & r' & _ & Hswept & ->)]]; [done..|].
    assert (pair_id r' = pair_id r ∧ (life_rank (pairing_state r) ≤ life_rank (pairing_state r'))%nat) as Hr'.
    { split; [by apply swept_keeps in Hswept as [? _]|].
      destruct (swept_state _ _ _ Hswept) as [->|[_ ->]]; [done|]. destruct (pairing_state r); cbn; lia. }
    by destruct (store r' w) as [w' [[]|e|]].
Qed.

Lemma record_steps_forward r r' :
  rtc record_step r r' → pair_id r' = pair_id r ∧ (life_rank (pairing_state r) ≤ life_rank (pairing_state r'))%nat.
Proof.
  induction 1 as [|r r1 r' Hstep _ [IH1 IH2]]; [done|]. apply record_step_forward in Hstep as [H1' H2']. split; [congruence|lia].
Qed.
End life.

(** ** Properties *)

(** C18: a pairing goes through its life once. Whatever operations are applied to
    its record and in whatever order, it stays the record of its pairing and only
    moves on from unconfirmed through serving and forgotten to revoked; once it was
    forgotten or revoked it never serves again, and once revoked it has no keys. *)
Theorem pairing_life_forward `{Rapp} `{!RappLaws} `{CertificateDecoder} r r' :
  rtc record_step r r' →
  pair_id r' = pair_id r ∧
  (life_rank (pairing_state r) ≤ life_rank (pairing_state r'))%nat ∧
  ((2 ≤ life_rank (pairing_state r))%nat → serves r' = false ∧ serving_record r' = None) ∧
  (life_rank (pairing_state r) = 3%nat → pair_record r' = None).
Proof.
  intros [Hid Hrank]%record_steps_forward. split; [done|]. split; [done|].
  unfold serves, serving_record, pair_record, pairing_state in *. split; intros Hr.
  - destruct (pr_keys r') as [k|p b n]; [|done].
    destruct (PairRecord_forgotten_at_ms k); [by rewrite andb_false_r|].
    destruct (PairRecord_is_storage_confirmed k); cbn in Hrank; [lia|]. split; [done|]. done.
  - destruct (pr_keys r') as [k|p b n]; [|done]. repeat case_match; cbn in *; lia.
Qed.

Section witnesses.
Import engine.

#[local] Instance any_certificate : CertificateDecoder := λ _, true.

Definition phone_keys (p : Z * Z) (conf : bool) : engine_record := mk p true true conf None 0.
Definition phone_record (p : Z * Z) : PairingRecord :=
  remember_authentication_certificate (mkOwnedCert [48; 3; 2; 1; 7])
    (PairingRecord_new (phone_keys p true) [105; 79; 83]).

Lemma pairing_life_forward_witness :
  let r := forget 7 (phone_record (1, 2)) in
  let r' := (confirm_storage (1, 2) (rename_peer false r).1).1 in
  rtc record_step r r' ∧ pair_id r' = pair_id r ∧
  (life_rank (pairing_state r) ≤ life_rank (pairing_state r'))%nat ∧
  ((2 ≤ life_rank (pairing_state r))%nat → serves r' = false ∧ serving_record r' = None) ∧
  (life_rank (pairing_state r) = 3%nat → pair_record r' = None).
Proof.
  cbv zeta. assert (rtc record_step (forget 7 (phone_record (1, 2)))
    (confirm_storage (1, 2) (rename_peer false (forget 7 (phone_record (1, 2)))).1).1) as Hrtc.
  { eapply rtc_l; [apply step_rename|]. eapply rtc_l; [apply step_confirm|]. apply rtc_refl. }
  split; [exact Hrtc|]. exact (pairing_life_forward _ _ Hrtc).
Defined.
End witnesses.

(** A local consumer is offered exactly the cached authentication certificate
    of a pairing that serves, while the last card a session heard is that
    certificate's card and was heard, before or after now, within the grace. *)
Theorem offered_certificate_exact `{Rapp} {S : Type} `{!PairingStore S} (s : S) p now c :
  offered_certificate s p now = Some c ↔
  ∃ r sighting, ps_get s p = Ok r ∧ pairing_state r = Pst_Serving ∧ authentication_certificate r = Some c ∧
    ps_card_sighting s p = Some sighting ∧
    CertificateFingerprint_of_certificate (OwnedCert_as_der c) = cs_fingerprint sighting ∧
    0 < IDENTITY_OFFER_GRACE_MS ∧ Z.abs (now - cs_at_ms sighting) < IDENTITY_OFFER_GRACE_MS.
Proof.
  unfold offered_certificate, serves. split.
  - destruct (ps_get s p) as [r|e|]; [|done..]. cbn. destruct (pairing_state r) eqn:Hr; try done. cbn.
    destruct (authentication_certificate r) as [c'|] eqn:Hc; [|done]. cbn.
    destruct (ps_card_sighting s p) as [sighting|]; [|done]. cbn.
    destruct (stands_for sighting c' now) eqn:Hs; [|done]. intros [= ->].
    exists r, sighting. do 4 (split; [done|]). apply stands_for_spec. by rewrite Hs.
  - intros (r & sighting & -> & Hr & Hc & Hs & Hstands). cbn. rewrite Hr. cbn. rewrite Hc. cbn. rewrite Hs. cbn.
    apply stands_for_spec in Hstands. by rewrite (Is_true_true_1 _ Hstands).
Qed.

(** Forgetting a pairing in any store that keeps the laws touches no other
    pairing; an unconfirmed or revoked one is gone with its sighting, a serving one
    is forgotten, owes its peer the notice and keeps its certificates and platform, a
    forgotten one stays as it is. Whatever it was, it does not serve afterwards. *)
Theorem forget_pairing_effect `{Rapp} `{!RappLaws} `{CertificateDecoder} {S : Type} `{!PairingStore S}
  `{!PairingStoreLaws S} (s s' : S) p now :
  ps_ok s → forget_pairing p now s = (s', Ok tt) →
  ps_ok s' ∧ (∀ q, q ≠ p → ps_get s' q = ps_get s q) ∧
  (∀ r, ps_get s' p = Ok r → serves r = false) ∧
  ∃ r, ps_get s p = Ok r ∧
    match pairing_state r with
    | Pst_Unconfirmed | Pst_Revoked _ => ps_get s' p = Err Ste_Unknown ∧ ps_card_sighting s' p = None
    | Pst_Forgotten => s' = s
    | Pst_Serving => ∃ r', ps_get s' p = Ok r' ∧ pairing_state r' = Pst_Forgotten ∧ owes_revocation_notice r' ∧
        pr_certificates r' = pr_certificates r ∧ pr_peer_platform r' = pr_peer_platform r
    end.
Proof.
  intros Hok. unfold forget_pairing, serves. destruct (ps_get s p) as [r|e|] eqn:Hget; [|done..].
  destruct (pairing_state r) eqn:Hr.
  - intros (Hok' & _ & Hq & Hs)%ps_remove_spec; [|done]. split; [done|]. split.
    { intros q Hqp. by rewrite Hq, decide_False. }
    rewrite Hq, decide_True by done. split; [done|]. exists r. rewrite Hr. split; [done|]. split; [done|].
    done.
  - intros (Hok' & _ & Hq)%ps_update_spec; [|done|apply forget_keeps]. split; [done|]. split.
    { intros q Hqp. by rewrite Hq, decide_False. }
    rewrite Hq, decide_True, Hget by done. destruct (forget_serving now r Hr) as (Hf & ? & ? & ?). split.
    { intros r' [= <-]. by rewrite Hf. }
    exists r. rewrite Hr. split; [done|]. by exists (forget now r).
  - intros [= <-]. split; [done|]. split; [done|]. rewrite Hget. split; [intros r' [= <-]; by rewrite Hr|].
    exists r. by rewrite Hr.
  - intros (Hok' & _ & Hq & Hs)%ps_remove_spec; [|done]. split; [done|]. split.
    { intros q Hqp. by rewrite Hq, decide_False. }
    rewrite Hq, decide_True by done. split; [done|]. exists r. rewrite Hr. split; [done|]. split; [done|].
    done.
Qed.

(** The idle check of all pairings always completes, whatever a single check
    answers; the pairings it reports are the revoked ones, every other keeps its
    state, and none is lost or added. *)
Theorem sweep_pairings_effect `{Rapp} `{!RappLaws} `{CertificateDecoder} {S : Type} `{!PairingStore S}
  `{!PairingStoreLaws S} (s : S) now in_session :
  ps_ok s →
  ∃ s' expired, sweep_pairings now in_session s = (s', Ok expired) ∧ ps_ok s' ∧
    ∀ q, match ps_get s q with
         | Ok r => ∃ r', ps_get s' q = Ok r' ∧
                   (if bool_decide (q ∈ expired) then pairing_state r' = Pst_Revoked false
                    else pairing_state r' = pairing_state r)
         | _ => ps_get s' q = ps_get s q ∧ q ∉ expired
         end.
Proof.
  intros Hok. unfold sweep_pairings.
  destruct (sweep_each_spec s now in_session (ps_pair_ids s) s []) as (s' & expired & Hrun & Hok' & Hq).
  { split; [done|]. intros q. split; [|set_solver]. destruct (ps_get s q) as [r|e|]; [|done..]. exists r. auto. }
  exists s', expired. split; [done|]. split; [done|]. intros q. destruct (Hq q) as [Hq1 Hq2].
  destruct (ps_get s q) as [r|e|] eqn:Hget.
  - destruct Hq1 as (r' & Hr' & Hst). exists r'. split; [done|]. case_bool_decide as Hin.
    + destruct (Hq2 Hin) as (r1 & Hr1 & ?). congruence.
    + by destruct Hst as [[? _]|].
  - split; [done|]. intros Hin. destruct (Hq2 Hin) as (r1 & Hr1 & ?). congruence.
  - split; [done|]. intros Hin. destruct (Hq2 Hin) as (r1 & Hr1 & ?). congruence.
Qed.

Section store_witnesses.
Import engine.

#[local] Instance every_certificate : CertificateDecoder := λ _, true.

Definition phone_a : @PairId engine_rapp := (1, 2).
Definition phone_b : @PairId engine_rapp := (3, 4).
Definition two_phones : MemoryPairingStore :=
  mkMemoryPairingStore [phone_record (1, 2); phone_record (3, 4)] [((1, 2), CardSighting_new (5, 48) 1000)].

Lemma two_phones_ok : mps_ok two_phones.
Proof. repeat constructor; by intros ? [= <-]. Qed.

Lemma forget_pairing_effect_witness :
  ps_ok two_phones ∧
  let s' := (forget_pairing phone_b 50 two_phones).1 in
  ps_ok s' ∧ (∀ q, q ≠ phone_b → ps_get s' q = ps_get two_phones q) ∧
  (∀ r, ps_get s' phone_b = Ok r → serves r = false) ∧
  ∃ r, ps_get two_phones phone_b = Ok r ∧
    match pairing_state r with
    | Pst_Unconfirmed | Pst_Revoked _ => ps_get s' phone_b = Err Ste_Unknown ∧ ps_card_sighting s' phone_b = None
    | Pst_Forgotten => s' = two_phones
    | Pst_Serving => ∃ r', ps_get s' phone_b = Ok r' ∧ pairing_state r' = Pst_Forgotten ∧ owes_revocation_notice r' ∧
        pr_certificates r' = pr_certificates r ∧ pr_peer_platform r' = pr_peer_platform r
    end.
Proof. split; [exact two_phones_ok|]. apply (forget_pairing_effect _ _ _ 50); [exact two_phones_ok|reflexivity]. Defined.

Lemma sweep_pairings_effect_witness :
  ps_ok two_phones ∧
  ∃ s' expired, sweep_pairings 200 (λ p, bool_decide (p = phone_a)) two_phones = (s', Ok expired) ∧ ps_ok s' ∧
    ∀ q, match ps_get two_phones q with
         | Ok r => ∃ r', ps_get s' q = Ok r' ∧
                   (if bool_decide (q ∈ expired) then pairing_state r' = Pst_Revoked false
                    else pairing_state r' = pairing_state r)
         | _ => ps_get s' q = ps_get two_phones q ∧ q ∉ expired
         end.
Proof. split; [exact two_phones_ok|]. apply sweep_pairings_effect. exact two_phones_ok. Defined.
End store_witnesses.
