(* ===== verification/Persistence.v ===== *)
(** The stored form of pairings: crates/refineid-rapp-core/src/persistence.rs.
    [Reader] is the state of an [act] on the octets that remain; the writers give
    the octets to append or [Oversized]. *)

From S2P Require Import Prelude Utf8 Rapp Presence PairingStore.

Section persistence.
Context `{Rapp} `{CertificateDecoder}.

Definition PAIRING_BLOB_MAGIC : bytes := bytes_of_string "RAPP-pair-record".
Definition PAIRING_BLOB_VERSION : Z := 9.
Definition LAST_EARLIER_PROTOCOL_BLOB_VERSION : Z := 8.
Definition FIRST_BLOB_VERSION : Z := 1.
Definition PAIRING_SET_MAGIC : bytes := bytes_of_string "RAPP-pair-set".
Definition PAIRING_SET_VERSION : Z := 1.
Definition KEYS_HELD : Z := 0.
Definition KEYS_REVOKED : Z := 1.
Definition BOOLEAN_FALSE : Z := 0.
Definition BOOLEAN_TRUE : Z := 1.
Definition LENGTH_BYTES : nat := 4.

Inductive PairingCodecError :=
| Pce_BadMagic
| Pce_EarlierProtocol (found : Z)
| Pce_UnsupportedVersion (found : Z)
| Pce_Truncated
| Pce_TrailingBytes
| Pce_InvalidKeys
| Pce_InvalidBoolean
| Pce_InvalidText
| Pce_InvalidDisplayName
| Pce_Oversized
| Pce_PairRecord (e : PairRecordCodecError)
| Pce_NotRequester
| Pce_InvalidCertificate.

(** ** Writing *)

Definition boolean_tag (value : bool) : Z := if value then BOOLEAN_TRUE else BOOLEAN_FALSE.
Definition boolean_from_tag (tag : Z) : result PairingCodecError bool :=
  if tag =? BOOLEAN_FALSE then Ok false else if tag =? BOOLEAN_TRUE then Ok true else Err Pce_InvalidBoolean.

Definition put_length (out : bytes) (length : Z) : result PairingCodecError bytes :=
  if length >? u32_max then Err Pce_Oversized else Ok (out ++ to_be LENGTH_BYTES length).
Definition put_bytes (out : bytes) (bs : bytes) : result PairingCodecError bytes :=
  let? out := put_length out (len bs) in Ok (out ++ bs).
Definition put_optional_certificate (out : bytes) (certificate : option OwnedCert) : result PairingCodecError bytes :=
  match certificate with
  | Some certificate => put_bytes (out ++ [BOOLEAN_TRUE]) (OwnedCert_as_der certificate)
  | None => Ok (out ++ [BOOLEAN_FALSE])
  end.

Definition encode_pairing_record (record : PairingRecord) : result PairingCodecError bytes :=
  let out := PAIRING_BLOB_MAGIC ++ [PAIRING_BLOB_VERSION] in
  let? out :=
    match pair_record record, pairing_state record with
    | Some keys, _ =>
        let out := out ++ [KEYS_HELD] in
        let? encoded := map_err Pce_PairRecord (encode_pair_record keys) in
        put_bytes out encoded
    | None, state =>
        let out := out ++ [KEYS_REVOKED] ++ PairId_as_bytes (pair_id record)
                   ++ [boolean_tag (bool_decide (state = Pst_Revoked true))] in
        put_bytes out (DisplayName_as_str (peer_display_name record))
    end in
  let? out := put_bytes out (peer_platform record) in
  let? out := put_optional_certificate out (authentication_certificate record) in
  let? out := put_optional_certificate out (signature_certificate record) in
  let? out := put_optional_certificate out (root_certificate record) in
  put_optional_certificate out (intermediate_certificate record).

Fixpoint put_records (out : bytes) (records : list PairingRecord) : result PairingCodecError bytes :=
  match records with
  | [] => Ok out
  | record :: records =>
      let? encoded := encode_pairing_record record in
      let? out := put_bytes out encoded in
      put_records out records
  end.
Definition encode_pairing_records (records : list PairingRecord) : result PairingCodecError bytes :=
  let out := PAIRING_SET_MAGIC ++ [PAIRING_SET_VERSION] in
  let? out := put_length out (Z.of_nat (length records)) in
  put_records out records.

(** ** Reading *)

Abbreviation reader := (act bytes PairingCodecError).

Definition reader_take (count : nat) : reader bytes := λ remaining,
  if decide (length remaining < count)%nat then (remaining, Err Pce_Truncated)
  else (drop count remaining, Ok (take count remaining)).
Definition take_u8 : reader Z :=
  do! slice := reader_take 1 in
  match slice with [] => act_err Pce_Truncated | b :: _ => act_ret b end.
Definition take_array (LENGTH : nat) : reader bytes := reader_take LENGTH.
(** [usize] is at least 32 bits wide. *)
Definition take_length : reader Z :=
  do! array := take_array LENGTH_BYTES in
  act_ret (be_fold array).
Definition take_length_prefixed : reader bytes :=
  do! length := take_length in
  reader_take (Z.to_nat length).
Definition take_text : reader bytes :=
  do! bs := take_length_prefixed in
  act_lift (ok_or (str_from_utf8 bs) Pce_InvalidText).
Definition take_optional_certificate : reader (option OwnedCert) :=
  do! tag := take_u8 in
  do! present := act_lift (boolean_from_tag tag) in
  if negb present then act_ret None
  else
    do! der := take_length_prefixed in
    do! certificate := act_lift (ok_or (OwnedCert_from_der der) Pce_InvalidCertificate) in
    act_ret (Some certificate).
Definition reader_finish : reader unit := λ remaining,
  (remaining, match remaining with [] => Ok tt | _ => Err Pce_TrailingBytes end).

(** The [match] on the keys tag. *)
Definition take_keys : reader (PairRecord + PairId * bool * DisplayName) :=
  do! tag := take_u8 in
  if tag =? KEYS_HELD then
    do! encoded := take_length_prefixed in
    do! keys := act_lift (map_err Pce_PairRecord (decode_pair_record encoded)) in
    if negb (PairRecord_role_is_Requester keys) then act_err Pce_NotRequester
    else act_ret (inl keys)
  else if tag =? KEYS_REVOKED then
    do! array := take_array PAIR_ID_SIZE in
    let pair_id := PairId_from_array array in
    do! tag := take_u8 in
    do! by_peer := act_lift (boolean_from_tag tag) in
    do! text := take_text in
    do! name := act_lift (ok_or (DisplayName_parse text) Pce_InvalidDisplayName) in
    act_ret (inr (pair_id, by_peer, name))
  else act_err Pce_InvalidKeys.

Definition remember (f : OwnedCert → PairingRecord → PairingRecord) (c : option OwnedCert) (r : PairingRecord)
  : PairingRecord := match c with Some c => f c r | None => r end.

Definition read_pairing_record : reader PairingRecord :=
  do! magic := reader_take (length PAIRING_BLOB_MAGIC) in
  if negb (bool_decide (magic = PAIRING_BLOB_MAGIC)) then act_err Pce_BadMagic else
  do! version := take_u8 in
  if negb (version =? PAIRING_BLOB_VERSION) then
    if (FIRST_BLOB_VERSION <=? version) && (version <=? LAST_EARLIER_PROTOCOL_BLOB_VERSION)
    then act_err (Pce_EarlierProtocol version) else act_err (Pce_UnsupportedVersion version)
  else
  do! keys := take_keys in
  do! platform := take_text in
  let record := match keys with
                | inl keys => PairingRecord_new keys platform
                | inr (pair_id, by_peer, name) => PairingRecord_revoked pair_id by_peer name platform
                end in
  do! c := take_optional_certificate in
  let record := remember remember_authentication_certificate c record in
  do! c := take_optional_certificate in
  let record := remember remember_signature_certificate c record in
  do! c := take_optional_certificate in
  let record := remember remember_root_certificate c record in
  do! c := take_optional_certificate in
  let record := remember remember_intermediate_certificate c record in
  do! _ := reader_finish in
  act_ret record.
Definition decode_pairing_record (blob : bytes) : result PairingCodecError PairingRecord :=
  (read_pairing_record blob).2.

Record PairingSet := mkPairingSet { ps_records : list PairingRecord; ps_refused : Z }.
Definition PairingSet_default : PairingSet := mkPairingSet [] 0.

Definition is_refused_record (error : PairingCodecError) : bool :=
  match error with
  | Pce_EarlierProtocol _ => true
  | Pce_PairRecord e => PairRecordCodecError_is_UnsupportedVersion e
  | _ => false
  end.

(** One turn of the loop over the set. *)
Definition add_decoded (decoded : result PairingCodecError PairingRecord) (set : PairingSet)
  : result PairingCodecError PairingSet :=
  match decoded with
  | Ok record => Ok (mkPairingSet (ps_records set ++ [record]) (ps_refused set))
  | Err error => if is_refused_record error then Ok (mkPairingSet (ps_records set) (ps_refused set + 1)) else Err error
  | Panic => Panic
  end.

Fixpoint read_entries (count : nat) (set : PairingSet) : reader PairingSet :=
  match count with
  | O => act_ret set
  | S count =>
      do! entry := take_length_prefixed in
      do! set := act_lift (add_decoded (decode_pairing_record entry) set) in
      read_entries count set
  end.

Definition read_pairing_records : reader PairingSet :=
  do! magic := reader_take (length PAIRING_SET_MAGIC) in
  if negb (bool_decide (magic = PAIRING_SET_MAGIC)) then act_err Pce_BadMagic else
  do! version := take_u8 in
  if negb (version =? PAIRING_SET_VERSION) then act_err (Pce_UnsupportedVersion version) else
  do! count := take_length in
  do! set := read_entries (Z.to_nat count) PairingSet_default in
  do! _ := reader_finish in
  act_ret set.
Definition decode_pairing_records (blob : bytes) : result PairingCodecError PairingSet :=
  match blob with
  | [] => Ok PairingSet_default
  | _ => (read_pairing_records blob).2
  end.
End persistence.

(** ** Lemmas: a reader takes exactly what a writer put *)

Section codec_lemmas.
Context `{Rapp} `{!RappLaws} `{CertificateDecoder}.

(** [m] reads [a] off [bs] and leaves what follows. *)
Definition reads {A} (m : act bytes PairingCodecError A) (bs : bytes) (a : A) : Prop :=
  ∀ rest, m (bs ++ rest) = (rest, Ok a).

Lemma reads_bind {A B} (m : act bytes PairingCodecError A) (k : A → act bytes PairingCodecError B) b1 b2 a b :
  reads m b1 a → reads (k a) b2 b → reads (act_bind m k) (b1 ++ b2) b.
Proof. intros Hm Hk rest. rewrite <- app_assoc. unfold act_bind. by rewrite Hm. Qed.

Lemma reads_bind_nil {A B} (m : act bytes PairingCodecError A) (k : A → act bytes PairingCodecError B) b1 a b :
  reads m b1 a → reads (k a) [] b → reads (act_bind m k) b1 b.
Proof. intros Hm Hk. rewrite <- (app_nil_r b1). by eapply reads_bind. Qed.

Lemma reads_ret {A} (a : A) : reads (act_ret a) [] a.
Proof. done. Qed.

Lemma reads_lift {A} (a : A) m : m = Ok a → reads (act_lift m) [] a.
Proof. by intros ->. Qed.

Lemma reads_take n bs : length bs = n → reads (reader_take n) bs bs.
Proof.
  intros <- rest. unfold reader_take. rewrite decide_False by (rewrite length_app; lia).
  by rewrite take_app_length, drop_app_length.
Qed.

Lemma reads_u8 b : reads take_u8 [b] b.
Proof. eapply reads_bind_nil; [by apply reads_take|]. apply reads_ret. Qed.

(** A field with its length in front. *)
Definition prefixed (bs : bytes) : bytes := to_be LENGTH_BYTES (len bs) ++ bs.

Lemma reads_length n : 0 ≤ n ≤ u32_max → reads take_length (to_be LENGTH_BYTES n) n.
Proof.
  intros Hn. eapply reads_bind_nil; [apply reads_take, length_to_be|].
  rewrite be_fold_to_be by lia. unfold u32_max in Hn. rewrite Z.mod_small; [apply reads_ret|].
  change (256 ^ Z.of_nat LENGTH_BYTES) with 4294967296. lia.
Qed.

Lemma reads_prefixed bs : len bs ≤ u32_max → reads take_length_prefixed (prefixed bs) bs.
Proof.
  intros Hl. eapply reads_bind; [apply reads_length; pose proof (len_nonneg bs); lia|].
  apply reads_take. unfold len. lia.
Qed.

Lemma reads_text bs : len bs ≤ u32_max → utf8_valid bs → reads take_text (prefixed bs) bs.
Proof.
  intros Hl Hu. eapply reads_bind_nil; [by apply reads_prefixed|]. apply reads_lift.
  by rewrite str_from_utf8_valid.
Qed.

Definition optional_certificate (c : option OwnedCert) : bytes :=
  match c with Some c => BOOLEAN_TRUE :: prefixed (OwnedCert_as_der c) | None => [BOOLEAN_FALSE] end.

Lemma reads_certificate c :
  (∀ k, c = Some k → OwnedCert_wf k ∧ len (OwnedCert_as_der k) ≤ u32_max) →
  reads take_optional_certificate (optional_certificate c) c.
Proof.
  intros Hc. destruct c as [c|]; cbn [optional_certificate].
  - destruct (Hc c eq_refl) as [Hwf Hl]. change (BOOLEAN_TRUE :: ?l) with ([BOOLEAN_TRUE] ++ l).
    eapply reads_bind; [apply reads_u8|]. eapply (reads_bind _ _ []); [by apply reads_lift|].
    eapply reads_bind_nil; [by apply reads_prefixed|].
    eapply reads_bind_nil; [apply reads_lift; by rewrite OwnedCert_from_der_wf|]. apply reads_ret.
  - eapply reads_bind_nil; [apply reads_u8|]. eapply reads_bind_nil; [by apply reads_lift|]. apply reads_ret.
Qed.

(** ** Lemmas: what the writers append *)

Lemma put_bytes_Ok out bs out' : put_bytes out bs = Ok out' → out' = out ++ prefixed bs ∧ len bs ≤ u32_max.
Proof.
  unfold put_bytes, put_length. destruct (Z.gtb_spec (len bs) u32_max); [done|]. intros [= <-].
  unfold prefixed. by rewrite <- app_assoc.
Qed.

Lemma put_certificate_Ok out c out' :
  put_optional_certificate out c = Ok out' →
  out' = out ++ optional_certificate c ∧ (∀ k, c = Some k → len (OwnedCert_as_der k) ≤ u32_max).
Proof.
  destruct c as [c|]; cbn; [|intros [= <-]; by split].
  intros [-> Hl]%put_bytes_Ok. split; [by rewrite <- app_assoc|]. by intros k [= <-].
Qed.

(** The keys as they are written. *)
Definition keys_bytes (record : PairingRecord) (encoded : bytes) : bytes :=
  match pr_keys record with
  | Keys_Held _ => KEYS_HELD :: prefixed encoded
  | Keys_Revoked p by_peer n =>
      KEYS_REVOKED :: PairId_as_bytes p ++ boolean_tag by_peer :: prefixed (DisplayName_as_str n)
  end.
Definition keys_read (record : PairingRecord) : PairRecord + PairId * bool * DisplayName :=
  match pr_keys record with Keys_Held k => inl k | Keys_Revoked p by_peer n => inr (p, by_peer, n) end.

Lemma boolean_tag_roundtrip b : boolean_from_tag (boolean_tag b) = Ok b.
Proof. by destruct b. Qed.

Lemma reads_keys record encoded :
  PairingRecord_wf record →
  match pr_keys record with
  | Keys_Held k => encode_pair_record k = Ok encoded ∧ len encoded ≤ u32_max
  | Keys_Revoked _ _ n => len (DisplayName_as_str n) ≤ u32_max
  end →
  reads take_keys (keys_bytes record encoded) (keys_read record).
Proof.
  unfold keys_bytes, keys_read. intros (Hrole & _ & _). destruct (pr_keys record) as [k|p by_peer n].
  - intros [Henc Hl]. change (KEYS_HELD :: ?l) with ([KEYS_HELD] ++ l).
    eapply reads_bind; [apply reads_u8|]. eapply reads_bind_nil; [by apply reads_prefixed|].
    eapply reads_bind_nil; [apply reads_lift; by rewrite (decode_encode_pair_record _ _ Henc)|].
    rewrite (Is_true_true_1 _ (Hrole k eq_refl)). apply reads_ret.
  - intros Hl. change (KEYS_REVOKED :: ?l) with ([KEYS_REVOKED] ++ l).
    eapply reads_bind; [apply reads_u8|]. eapply reads_bind; [apply reads_take, PairId_length|].
    change (boolean_tag by_peer :: ?l) with ([boolean_tag by_peer] ++ l).
    eapply reads_bind; [apply reads_u8|]. eapply (reads_bind _ _ []); [by apply reads_lift, boolean_tag_roundtrip|].
    eapply reads_bind_nil; [apply reads_text; [done|apply DisplayName_utf8]|].
    eapply reads_bind_nil; [apply reads_lift; by rewrite DisplayName_parse_as_str|].
    rewrite PairId_from_array_as_bytes. apply reads_ret.
Qed.

(** The blob of one record. *)
Definition record_bytes (record : PairingRecord) (encoded : bytes) : bytes :=
  PAIRING_BLOB_MAGIC ++ [PAIRING_BLOB_VERSION] ++ keys_bytes record encoded ++ prefixed (peer_platform record)
  ++ optional_certificate (authentication_certificate record) ++ optional_certificate (signature_certificate record)
  ++ optional_certificate (root_certificate record) ++ optional_certificate (intermediate_certificate record).

Definition fields_fit (record : PairingRecord) : Prop :=
  len (peer_platform record) ≤ u32_max ∧
  ∀ c, c ∈ Certificates_list (pr_certificates record) → len (OwnedCert_as_der c) ≤ u32_max.

Lemma elem_of_Certificates_list c k :
  c ∈ Certificates_list k ↔
  ct_authentication k = Some c ∨ ct_signature k = Some c ∨ ct_root k = Some c ∨ ct_intermediate k = Some c.
Proof.
  unfold Certificates_list. rewrite list_elem_of_omap. setoid_rewrite elem_of_cons. split.
  - intros (o & Ho & Hc). unfold id in Hc. subst o. set_solver.
  - intros Hc. exists (Some c). split; [|done]. set_solver.
Qed.

Lemma encode_pairing_record_Ok record bs :
  encode_pairing_record record = Ok bs →
  ∃ encoded, bs = record_bytes record encoded ∧ fields_fit record ∧
    match pr_keys record with
    | Keys_Held k => encode_pair_record k = Ok encoded ∧ len encoded ≤ u32_max
    | Keys_Revoked _ _ n => len (DisplayName_as_str n) ≤ u32_max
    end.
Proof.
  unfold encode_pairing_record. intros (out & Hkeys & Hrest)%result_bind_inv_ok.
  assert (∃ encoded, out = PAIRING_BLOB_MAGIC ++ [PAIRING_BLOB_VERSION] ++ keys_bytes record encoded ∧
    match pr_keys record with
    | Keys_Held k => encode_pair_record k = Ok encoded ∧ len encoded ≤ u32_max
    | Keys_Revoked _ _ n => len (DisplayName_as_str n) ≤ u32_max
    end) as (encoded & -> & Hfit).
  { unfold keys_bytes, pair_record, pairing_state, pair_id, peer_display_name in *.
    destruct (pr_keys record) as [k|p by_peer n].
    - apply result_bind_inv_ok in Hkeys as (encoded & Henc & Hput). exists encoded.
      destruct (encode_pair_record k) as [e| |]; [|done..]. injection Henc as ->.
      apply put_bytes_Ok in Hput as [-> Hl]. split; [by rewrite <- !app_assoc|done].
    - exists []. apply put_bytes_Ok in Hkeys as [-> Hl]. split; [|done]. rewrite <- !app_assoc. repeat f_equal.
      destruct by_peer; [by rewrite bool_decide_true|by rewrite bool_decide_false]. }
  apply result_bind_inv_ok in Hrest as (o1 & [-> H1']%put_bytes_Ok & Hrest).
  apply result_bind_inv_ok in Hrest as (o2 & [-> H2']%put_certificate_Ok & Hrest).
  apply result_bind_inv_ok in Hrest as (o3 & [-> H3']%put_certificate_Ok & Hrest).
  apply result_bind_inv_ok in Hrest as (o4 & [-> H4']%put_certificate_Ok & [-> H5']%put_certificate_Ok).
  exists encoded. split; [unfold record_bytes; by rewrite <- !app_assoc|]. split; [|done]. split; [done|].
  intros c Hc%elem_of_Certificates_list. naive_solver.
Qed.

Lemma record_rebuilt record :
  remember remember_intermediate_certificate (intermediate_certificate record)
    (remember remember_root_certificate (root_certificate record)
      (remember remember_signature_certificate (signature_certificate record)
        (remember remember_authentication_certificate (authentication_certificate record)
          match keys_read record with
          | inl keys => PairingRecord_new keys (peer_platform record)
          | inr (p, by_peer, n) => PairingRecord_revoked p by_peer n (peer_platform record)
          end))) = record.
Proof. by destruct record as [[k|p b n] platform [[] [] [] []]]. Qed.

Lemma decode_encode_record record bs :
  PairingRecord_wf record → encode_pairing_record record = Ok bs → decode_pairing_record bs = Ok record.
Proof.
  intros Hwf (encoded & -> & [Hplat Hcerts] & Hkeys)%encode_pairing_record_Ok. pose proof Hwf as (_ & Hutf & Hall).
  assert (∀ c, c ∈ Certificates_list (pr_certificates record) → OwnedCert_wf c ∧ len (OwnedCert_as_der c) ≤ u32_max) as Hc.
  { intros c Hin. split; [|by apply Hcerts]. by eapply (proj1 (list.Forall_forall _ _)). }
  setoid_rewrite elem_of_Certificates_list in Hc.
  enough (read_pairing_record (record_bytes record encoded) = ([], Ok record)) as Hread by (unfold decode_pairing_record; by rewrite Hread).
  unfold read_pairing_record, record_bytes.
  rewrite (act_bind_ok _ _ _ _ _ (reads_take _ PAIRING_BLOB_MAGIC eq_refl _)), bool_decide_true by done. cbn [negb].
  rewrite (act_bind_ok _ _ _ _ _ (reads_u8 PAIRING_BLOB_VERSION _)). cbn [negb Z.eqb Pos.eqb PAIRING_BLOB_VERSION].
  rewrite (act_bind_ok _ _ _ _ _ (reads_keys record encoded Hwf Hkeys _)).
  rewrite (act_bind_ok _ _ _ _ _ (reads_text (peer_platform record) Hplat Hutf _)).
  rewrite (act_bind_ok _ _ _ _ _ (reads_certificate (authentication_certificate record) ltac:(intros k Hk; apply Hc; by left) _)).
  rewrite (act_bind_ok _ _ _ _ _ (reads_certificate (signature_certificate record) ltac:(intros k Hk; apply Hc; by right; left) _)).
  rewrite (act_bind_ok _ _ _ _ _ (reads_certificate (root_certificate record) ltac:(intros k Hk; apply Hc; by right; right; left) _)).
  rewrite <- (app_nil_r (optional_certificate (intermediate_certificate record))).
  rewrite (act_bind_ok _ _ _ _ _ (reads_certificate (intermediate_certificate record) ltac:(intros k Hk; apply Hc; by right; right; right) _)).
  unfold act_bind, reader_finish, act_ret. by rewrite record_rebuilt.
Qed.

(** ** Lemmas: the set *)

Definition set_bytes (entries : list bytes) : bytes :=
  PAIRING_SET_MAGIC ++ [PAIRING_SET_VERSION] ++ to_be LENGTH_BYTES (Z.of_nat (length entries))
  ++ mjoin (prefixed <$> entries).

Fixpoint collect (entries : list bytes) (set : PairingSet) : result PairingCodecError PairingSet :=
  match entries with
  | [] => Ok set
  | e :: entries => let? set := add_decoded (decode_pairing_record e) set in collect entries set
  end.

Lemma read_entries_collect entries : ∀ set rest,
  Forall (λ e, len e ≤ u32_max) entries →
  (∃ rest', read_entries (length entries) set (mjoin (prefixed <$> entries) ++ rest) = (rest', collect entries set) ∧
     ((∃ set', collect entries set = Ok set') → rest' = rest)).
Proof.
  induction entries as [|e entries IH]; intros set rest Hall; [by exists rest|].
  apply Forall_cons_1 in Hall as [He Hall]. cbn [length read_entries fmap list_fmap mjoin list_join collect].
  rewrite <- app_assoc, (act_bind_ok _ _ _ _ _ (reads_prefixed e He _)).
  destruct (add_decoded (decode_pairing_record e) set) as [set'|err|]; cbn [result_bind].
  - rewrite act_lift_ok. by apply IH.
  - eexists. split; [done|]. by intros [? ?].
  - eexists. split; [done|]. by intros [? ?].
Qed.

Lemma decode_set_bytes entries :
  Forall (λ e, len e ≤ u32_max) entries → Z.of_nat (length entries) ≤ u32_max →
  decode_pairing_records (set_bytes entries) = collect entries PairingSet_default.
Proof.
  intros Hall Hn.
  assert (decode_pairing_records (set_bytes entries) = (read_pairing_records (set_bytes entries)).2) as -> by done.
  unfold read_pairing_records, set_bytes.
  rewrite (act_bind_ok _ _ _ _ _ (reads_take _ PAIRING_SET_MAGIC eq_refl _)), bool_decide_true by done. cbn [negb].
  rewrite (act_bind_ok _ _ _ _ _ (reads_u8 PAIRING_SET_VERSION _)). cbn [negb Z.eqb Pos.eqb PAIRING_SET_VERSION].
  rewrite (act_bind_ok _ _ _ _ _ (reads_length (Z.of_nat (length entries)) ltac:(lia) _)), Nat2Z.id.
  destruct (read_entries_collect entries PairingSet_default [] Hall) as (rest' & Hrun & Hrest). rewrite app_nil_r in Hrun.
  unfold act_bind at 1. rewrite Hrun. destruct (collect entries PairingSet_default) as [set|e|]; [|done..].
  rewrite Hrest by (by eexists). done.
Qed.

Lemma put_records_Ok records : ∀ out bs,
  put_records out records = Ok bs →
  ∃ entries, bs = out ++ mjoin (prefixed <$> entries) ∧ Forall (λ e, len e ≤ u32_max) entries ∧
    Forall2 (λ r e, encode_pairing_record r = Ok e) records entries.
Proof.
  induction records as [|r records IH]; intros out bs; cbn [put_records].
  { intros [= <-]. exists []. by rewrite app_nil_r. }
  intros (e & He & (out' & [-> Hl]%put_bytes_Ok & Hput)%result_bind_inv_ok)%result_bind_inv_ok.
  destruct (IH _ _ Hput) as (entries & -> & Hall & Hrec). exists (e :: entries).
  split; [by cbn; rewrite <- !app_assoc|]. by split; constructor.
Qed.

Lemma collect_encoded records entries : ∀ set,
  Forall PairingRecord_wf records → Forall2 (λ r e, encode_pairing_record r = Ok e) records entries →
  collect entries set = Ok (mkPairingSet (ps_records set ++ records) (ps_refused set)).
Proof.
  intros set Hwf Henc. revert set. induction Henc as [|r e records entries He _ IH]; intros set; cbn [collect].
  { rewrite app_nil_r. by destruct set. }
  apply Forall_cons_1 in Hwf as [Hr Hwf]. rewrite (decode_encode_record r e Hr He). cbn [add_decoded result_bind].
  rewrite IH by done. cbn. by rewrite <- app_assoc.
Qed.

Lemma decode_encode_records records bs :
  Forall PairingRecord_wf records → encode_pairing_records records = Ok bs →
  decode_pairing_records bs = Ok (mkPairingSet records 0).
Proof.
  intros Hwf. unfold encode_pairing_records, put_length. destruct (Z.gtb_spec (Z.of_nat (length records)) u32_max); [done|].
  cbn [result_bind]. intros (entries & -> & Hall & Hrec)%put_records_Ok.
  pose proof (Forall2_length Hrec) as Hlen.
  assert (((PAIRING_SET_MAGIC ++ [PAIRING_SET_VERSION]) ++ to_be LENGTH_BYTES (Z.of_nat (length records))) ++
    mjoin (prefixed <$> entries) = set_bytes entries) as ->.
  { unfold set_bytes. by rewrite Hlen, <- !app_assoc. }
  rewrite decode_set_bytes by (done || lia). by rewrite (collect_encoded records).
Qed.

(** An entry the set goes on without or with. *)
Definition readable (e : bytes) : Prop :=
  match decode_pairing_record e with Ok _ => True | Err x => is_refused_record x | Panic => False end.

Lemma collect_readable entries set :
  Forall readable entries →
  collect entries set =
    Ok (mkPairingSet (ps_records set ++ omap (λ e, result_ok (decode_pairing_record e)) entries)
          (ps_refused set + Z.of_nat (length (filter (λ e, result_ok (decode_pairing_record e) = None) entries)))).
Proof.
  intros Hall. revert set. induction Hall as [|e entries He _ IH]; intros set; cbn [collect omap list_omap].
  { rewrite app_nil_r, Z.add_0_r. by destruct set. }
  unfold readable in He. rewrite filter_cons. destruct (decode_pairing_record e) as [r|x|]; [| |done]; cbn [add_decoded result_ok].
  - cbn [result_bind]. rewrite IH, decide_False by done. cbn. by rewrite <- app_assoc.
  - rewrite (Is_true_true_1 _ He). cbn [result_bind]. rewrite IH, decide_True by done. cbn. do 2 f_equal. lia.
Qed.

Lemma collect_stops entries e post x set :
  Forall readable entries → decode_pairing_record e = Err x → is_refused_record x = false →
  collect (entries ++ e :: post) set = Err x.
Proof.
  intros Hall He Hx. revert set. induction Hall as [|e0 entries He0 _ IH]; intros set; cbn [app collect].
  { rewrite He. cbn. by rewrite Hx. }
  unfold readable in He0. destruct (decode_pairing_record e0) as [r|y|]; [| |done]; cbn [add_decoded].
  - apply IH.
  - rewrite (Is_true_true_1 _ He0). apply IH.
Qed.

(** ** Lemmas: no panic *)

Lemma reader_take_no_panic n bs : (reader_take n bs).2 ≠ Panic.
Proof. unfold reader_take. by case_decide. Qed.
Lemma take_u8_no_panic bs : (take_u8 bs).2 ≠ Panic.
Proof. apply act_bind_no_panic; [apply reader_take_no_panic|]. by intros []. Qed.
Lemma take_length_prefixed_no_panic bs : (take_length_prefixed bs).2 ≠ Panic.
Proof.
  apply act_bind_no_panic; [|intros; apply reader_take_no_panic].
  apply act_bind_no_panic; [apply reader_take_no_panic|done].
Qed.
Lemma take_text_no_panic bs : (take_text bs).2 ≠ Panic.
Proof. apply act_bind_no_panic; [apply take_length_prefixed_no_panic|]. intros. apply ok_or_no_panic. Qed.
Lemma boolean_from_tag_no_panic tag : boolean_from_tag tag ≠ Panic.
Proof. unfold boolean_from_tag. by repeat case_match. Qed.
Lemma take_certificate_no_panic bs : (take_optional_certificate bs).2 ≠ Panic.
Proof.
  apply act_bind_no_panic; [apply take_u8_no_panic|intros tag t]. apply act_bind_no_panic; [apply boolean_from_tag_no_panic|].
  intros present t1. destruct (negb present); [done|]. apply act_bind_no_panic; [apply take_length_prefixed_no_panic|].
  intros der t2. apply act_bind_no_panic; [apply ok_or_no_panic|done].
Qed.
Lemma take_keys_no_panic bs : (take_keys bs).2 ≠ Panic.
Proof.
  apply act_bind_no_panic; [apply take_u8_no_panic|intros tag t]. destruct (tag =? KEYS_HELD).
  - apply act_bind_no_panic; [apply take_length_prefixed_no_panic|intros der t1].
    apply act_bind_no_panic; [|intros k t2; by destruct (negb _)]. cbn.
    pose proof (decode_pair_record_no_panic der). by destruct (decode_pair_record der).
  - destruct (tag =? KEYS_REVOKED); [|done]. apply act_bind_no_panic; [apply reader_take_no_panic|intros].
    apply act_bind_no_panic; [apply take_u8_no_panic|intros]. apply act_bind_no_panic; [apply boolean_from_tag_no_panic|intros].
    apply act_bind_no_panic; [apply take_text_no_panic|intros]. apply act_bind_no_panic; [apply ok_or_no_panic|done].
Qed.
Lemma decode_pairing_record_no_panic blob : decode_pairing_record blob ≠ Panic.
Proof.
  unfold decode_pairing_record. apply act_bind_no_panic; [apply reader_take_no_panic|intros]. destruct (negb _); [done|].
  apply act_bind_no_panic; [apply take_u8_no_panic|intros]. destruct (negb _); [by destruct (_ && _)|].
  apply act_bind_no_panic; [apply take_keys_no_panic|intros]. apply act_bind_no_panic; [apply take_text_no_panic|intros].
  do 4 (apply act_bind_no_panic; [apply take_certificate_no_panic|intros]).
  apply act_bind_no_panic; [unfold reader_finish; cbn; by case_match|done].
Qed.
Lemma decode_pairing_records_no_panic blob : decode_pairing_records blob ≠ Panic.
Proof.
  unfold decode_pairing_records. destruct blob as [|b blob]; [done|].
  apply act_bind_no_panic; [apply reader_take_no_panic|intros]. destruct (negb _); [done|].
  apply act_bind_no_panic; [apply take_u8_no_panic|intros]. destruct (negb _); [done|].
  apply act_bind_no_panic; [apply act_bind_no_panic; [apply reader_take_no_panic|done]|intros count t1].
  apply act_bind_no_panic; [|intros; apply act_bind_no_panic; [unfold reader_finish; cbn; by case_match|done]].
  generalize PairingSet_default. revert t1. induction (Z.to_nat count) as [|n IH]; intros t1 set; [done|].
  apply act_bind_no_panic; [apply take_length_prefixed_no_panic|intros entry t2].
  apply act_bind_no_panic; [|intros; apply IH]. cbn. pose proof (decode_pairing_record_no_panic entry).
  destruct (decode_pairing_record entry); cbn; [done|by case_match|done].
Qed.

(** ** Lemmas: the writers do not panic *)

Lemma put_bytes_no_panic out bs : put_bytes out bs ≠ Panic.
Proof. unfold put_bytes, put_length. by destruct (_ >? _). Qed.
Lemma put_certificate_no_panic out c : put_optional_certificate out c ≠ Panic.
Proof. destruct c; [apply put_bytes_no_panic|done]. Qed.
Lemma encode_pairing_record_no_panic record : encode_pairing_record record ≠ Panic.
Proof.
  unfold encode_pairing_record. apply result_bind_no_panic; [|intros].
  - destruct (pair_record record) as [k|]; [|apply put_bytes_no_panic].
    apply result_bind_no_panic; [|intros; apply put_bytes_no_panic].
    pose proof (encode_pair_record_no_panic k). by destruct (encode_pair_record k).
  - apply result_bind_no_panic; [apply put_bytes_no_panic|intros].
    do 3 (apply result_bind_no_panic; [apply put_certificate_no_panic|intros]). apply put_certificate_no_panic.
Qed.
Lemma encode_pairing_records_no_panic records : encode_pairing_records records ≠ Panic.
Proof.
  unfold encode_pairing_records, put_length. destruct (_ >? _); [done|]. cbn [result_bind].
  generalize ((PAIRING_SET_MAGIC ++ [PAIRING_SET_VERSION]) ++ to_be LENGTH_BYTES (Z.of_nat (length records))).
  induction records as [|r records IH]; intros out; [done|]. cbn [put_records].
  apply result_bind_no_panic; [apply encode_pairing_record_no_panic|intros e _].
  apply result_bind_no_panic; [apply put_bytes_no_panic|intros; apply IH].
Qed.

(** ** Lemmas: what a decoder returns is well formed *)

(** [m] returns only values with [P]. *)
Definition yields {A} (P : A → Prop) (m : act bytes PairingCodecError A) : Prop :=
  ∀ t t' a, m t = (t', Ok a) → P a.

Lemma yields_bind {A B} (P : A → Prop) (Q : B → Prop) m (k : A → act bytes PairingCodecError B) :
  yields P m → (∀ a, P a → yields Q (k a)) → yields Q (act_bind m k).
Proof. intros Hm Hk t t' b (t1 & a & Ha & Hb)%act_bind_inv_ok. eapply Hk; [by eapply Hm|done]. Qed.

Lemma yields_any {A} (m : act bytes PairingCodecError A) : yields (λ _, True) m.
Proof. done. Qed.

Lemma yields_ret {A} (P : A → Prop) a : P a → yields P (act_ret a).
Proof. by intros ? t t' ? [= _ <-]. Qed.

Lemma take_text_utf8 : yields (λ l, utf8_valid l) take_text.
Proof.
  eapply yields_bind; [apply yields_any|]. intros bs _ t t' a. unfold act_lift, str_from_utf8.
  destruct (utf8_valid bs) eqn:Hu; [|done]. intros [= _ <-]. by rewrite Hu.
Qed.

Lemma take_certificate_wf : yields (λ c, ∀ k, c = Some k → OwnedCert_wf k) take_optional_certificate.
Proof.
  do 2 (eapply yields_bind; [apply yields_any|intros ? _]). destruct (negb _); [by apply yields_ret|].
  eapply yields_bind; [apply yields_any|intros der _]. eapply (yields_bind OwnedCert_wf).
  - intros t t' c. unfold act_lift, OwnedCert_from_der. destruct (certificate_decodes der) eqn:Hd; [|done].
    intros [= _ <-]. unfold OwnedCert_wf. cbn [OwnedCert_as_der]. by rewrite Hd.
  - intros c Hc. apply yields_ret. by intros k [= <-].
Qed.

Lemma take_keys_requester :
  yields (λ k, match k with inl k => PairRecord_role_is_Requester k | inr _ => True end) take_keys.
Proof.
  eapply yields_bind; [apply yields_any|intros tag _]. destruct (tag =? KEYS_HELD).
  - do 2 (eapply yields_bind; [apply yields_any|intros ? _]).
    destruct (PairRecord_role_is_Requester _) eqn:Hr; [|done]. apply yields_ret. by rewrite Hr.
  - destruct (tag =? KEYS_REVOKED); [|done]. do 5 (eapply yields_bind; [apply yields_any|intros ? _]).
    by apply yields_ret.
Qed.

Lemma read_pairing_record_wf : yields PairingRecord_wf read_pairing_record.
Proof.
  eapply yields_bind; [apply yields_any|intros magic _]. destruct (negb _); [done|].
  eapply yields_bind; [apply yields_any|intros version _]. destruct (negb _); [by destruct (_ && _)|].
  eapply yields_bind; [apply take_keys_requester|intros keys Hkeys].
  eapply yields_bind; [apply take_text_utf8|intros platform Hplat].
  eapply yields_bind; [apply take_certificate_wf|intros c1 H1'].
  eapply yields_bind; [apply take_certificate_wf|intros c2 H2'].
  eapply yields_bind; [apply take_certificate_wf|intros c3 H3'].
  eapply yields_bind; [apply take_certificate_wf|intros c4 H4'].
  eapply yields_bind; [apply yields_any|intros ? _]. apply yields_ret.
  split; [|split].
  - intros k. destruct keys as [k'|[[p b] n]], c1, c2, c3, c4; cbn; by intros [= <-].
  - by destruct keys as [k'|[[p b] n]], c1, c2, c3, c4.
  - apply list.Forall_forall. intros c Hc%elem_of_Certificates_list.
    destruct keys as [k'|[[p b] n]], c1, c2, c3, c4; cbn in Hc; naive_solver.
Qed.

Lemma decode_pairing_record_wf blob r : decode_pairing_record blob = Ok r → PairingRecord_wf r.
Proof.
  unfold decode_pairing_record. destruct (read_pairing_record blob) as [t x] eqn:Hr. cbn. intros ->.
  by eapply read_pairing_record_wf.
Qed.

Lemma read_entries_wf n : ∀ set,
  Forall PairingRecord_wf (ps_records set) → yields (λ set, Forall PairingRecord_wf (ps_records set)) (read_entries n set).
Proof.
  induction n as [|n IH]; intros set Hset; [by apply yields_ret|]. cbn [read_entries].
  eapply yields_bind; [apply yields_any|intros entry _].
  eapply (yields_bind (λ set, Forall PairingRecord_wf (ps_records set))); [|apply IH].
  intros t t' set' Hadd. unfold act_lift, add_decoded in Hadd. destruct (decode_pairing_record entry) as [r|e|] eqn:Hd; [| |done].
  - injection Hadd as _ <-. cbn. apply Forall_app. split; [done|]. apply list.Forall_singleton. by eapply decode_pairing_record_wf.
  - destruct (is_refused_record e); [|done]. by injection Hadd as _ <-.
Qed.

Lemma decode_pairing_records_wf blob set : decode_pairing_records blob = Ok set → Forall PairingRecord_wf (ps_records set).
Proof.
  unfold decode_pairing_records. destruct blob as [|b blob]; [by intros [= <-]|].
  destruct (read_pairing_records (b :: blob)) as [t x] eqn:Hr. cbn. intros ->. revert Hr.
  enough (yields (λ set, Forall PairingRecord_wf (ps_records set)) read_pairing_records) as Hy by apply Hy.
  eapply yields_bind; [apply yields_any|intros magic _]. destruct (negb _); [done|].
  eapply yields_bind; [apply yields_any|intros version _]. destruct (negb _); [done|].
  eapply yields_bind; [apply yields_any|intros count _]. eapply yields_bind; [by apply read_entries_wf|intros set' Hset'].
  eapply yields_bind; [apply yields_any|intros ? _]. by apply yields_ret.
Qed.
End codec_lemmas.

(** ** Properties *)

(** C19: what was stored is what is read: a set of pairing records that encodes
    decodes to the same records in the same order, with none refused, and a card
    sighting's file decodes to its pairing, fingerprint and time, from which it
    is rebuilt octet by octet. *)
Theorem stored_pairings_roundtrip `{Rapp} `{!RappLaws} `{CertificateDecoder} records blob p sighting bs :
  Forall PairingRecord_wf records → encode_pairing_records records = Ok blob → is_u64 (cs_at_ms sighting) →
  bytes_ok bs →
  decode_pairing_records blob = Ok (mkPairingSet records 0) ∧
  decode_sighting (encode_sighting p sighting) = Ok (p, sighting) ∧
  (decode_sighting bs = Ok (p, sighting) → encode_sighting p sighting = bs).
Proof.
  intros Hwf Henc Hat Hbs. split; [by apply decode_encode_records|]. split; [by apply decode_encode_sighting|].
  by apply encode_decode_sighting.
Qed.

(** Reading a stored set never panics. An entry of an earlier protocol
    version, or with an engine record of an unsupported version, is left out and
    counted; every other entry that does not decode fails the whole set with its
    error; an empty file is an empty set. *)
Theorem stored_set_refusals `{Rapp} `{!RappLaws} `{CertificateDecoder} entries :
  Forall (λ e, len e ≤ u32_max) entries → Z.of_nat (length entries) ≤ u32_max →
  (∀ blob, decode_pairing_records blob ≠ Panic) ∧
  decode_pairing_records [] = Ok (mkPairingSet [] 0) ∧
  (Forall readable entries →
     decode_pairing_records (set_bytes entries) =
       Ok (mkPairingSet (omap (λ e, result_ok (decode_pairing_record e)) entries)
             (Z.of_nat (length (filter (λ e, result_ok (decode_pairing_record e) = None) entries))))) ∧
  (∀ pre e post x, entries = pre ++ e :: post → Forall readable pre → decode_pairing_record e = Err x →
     is_refused_record x = false → decode_pairing_records (set_bytes entries) = Err x).
Proof.
  intros Hall Hn. split; [apply decode_pairing_records_no_panic|]. split; [done|].
  rewrite decode_set_bytes by done. split; [intros Hread; by rewrite collect_readable|].
  intros pre e post x -> Hpre He Hx. by apply (collect_stops _ e _ x).
Qed.

Section witnesses.
Import engine.

#[local] Instance five_octets : CertificateDecoder := λ der, len der =? 5.

Definition stored_phones : list PairingRecord :=
  [phone_record (1, 2); revoke true (phone_record (3, 4)); forget 9 (phone_record (5, 6))].
Definition stored_blob : bytes := default [] (result_ok (encode_pairing_records stored_phones)).
Definition stored_sighting : CardSighting := CardSighting_new (5, 48) 1700000000000.

Lemma stored_pairings_roundtrip_witness :
  Forall PairingRecord_wf stored_phones ∧ encode_pairing_records stored_phones = Ok stored_blob ∧
  decode_pairing_records stored_blob = Ok (mkPairingSet stored_phones 0) ∧
  decode_sighting (encode_sighting (1, 2) stored_sighting) = Ok ((1, 2), stored_sighting) ∧
  (decode_sighting (encode_sighting (1, 2) stored_sighting) = Ok ((1, 2), stored_sighting) →
   encode_sighting (1, 2) stored_sighting = encode_sighting (1, 2) stored_sighting).
Proof.
  assert (Forall PairingRecord_wf stored_phones) as Hwf by (repeat constructor; by intros ? [= <-]).
  split; [exact Hwf|]. split; [by vm_compute|].
  apply (stored_pairings_roundtrip stored_phones stored_blob (1, 2) stored_sighting); [exact Hwf|by vm_compute|by vm_compute|].
  by_decide.
Defined.

(** The middle entry has a version of an earlier protocol. *)
Definition mixed_entries : list bytes :=
  [default [] (result_ok (encode_pairing_record (phone_record (1, 2)))); PAIRING_BLOB_MAGIC ++ [3];
   default [] (result_ok (encode_pairing_record (phone_record (3, 4))))].

Lemma stored_set_refusals_witness :
  Forall (λ e, len e ≤ u32_max) mixed_entries ∧
  (∀ blob, decode_pairing_records blob ≠ Panic) ∧
  decode_pairing_records [] = Ok (mkPairingSet [] 0) ∧
  (Forall readable mixed_entries →
     decode_pairing_records (set_bytes mixed_entries) =
       Ok (mkPairingSet (omap (λ e, result_ok (decode_pairing_record e)) mixed_entries)
             (Z.of_nat (length (filter (λ e, result_ok (decode_pairing_record e) = None) mixed_entries))))) ∧
  (∀ pre e post x, mixed_entries = pre ++ e :: post → Forall readable pre → decode_pairing_record e = Err x →
     is_refused_record x = false → decode_pairing_records (set_bytes mixed_entries) = Err x).
Proof.
  split; [by_decide|]. apply stored_set_refusals; by_decide.
Defined.

(** What it answers for them: two records, one refused. *)
Example mixed_entries_decode :
  decode_pairing_records (set_bytes mixed_entries) = Ok (mkPairingSet [phone_record (1, 2); phone_record (3, 4)] 1).
Proof. by vm_compute. Qed.
End witnesses.
