(* ===== verification/ProtectedStore.v ===== *)
(** The pairing store on disk:
    crates/refineid-windows-credential-store/src/pairing.rs. The operating system
    is the class [Windows]: files, DPAPI and the process's write counter, each call
    able to fail, with the laws of the Windows documentation over the ghost contents
    [fs_lookup] and [crypt_plain]. [ProtectedPairingStore] implements [PairingStore]. *)

From stdpp Require Import pretty.
From S2P Require Import Prelude Utf8 Rapp Presence PairingStore Persistence.

#[local] Arguments bytes_of_string : simpl never.

(** A path is the list of its components. *)
Abbreviation path := (list bytes).

Inductive IoErrorKind := Io_NotFound | Io_Other (code : Z).

Inductive CredentialStoreError :=
| Cse_EmptyAtr
| Cse_AtrTooLong (got : Z)
| Cse_Windows (code : Z)
| Cse_InvalidStoredCan
| Cse_InvalidStoredPairing
| Cse_PairingNotEncodable
| Cse_CertificateStore (code : Z)
| Cse_Protection (code : Z)
| Cse_ProfileUnavailable
| Cse_UnprotectedCopyRemains
| Cse_File (kind : IoErrorKind)
| Cse_UnsupportedPlatform.

(** ** The operating system *)

Class Windows (W : Type) := {
  (** What a file holds, and what a DPAPI blob protects: ghost state, for the
      laws only. *)
  fs_lookup : W → path → option bytes;
  crypt_plain : bytes → option bytes;
  fs_create_dir_all : path → act W IoErrorKind unit;
  (** [File::create_new], [write_all] and [sync_all]. *)
  fs_write_new : path → bytes → act W IoErrorKind unit;
  fs_rename : path → path → act W IoErrorKind unit;
  fs_remove_file : path → act W IoErrorKind unit;
  fs_remove_dir_all : path → act W IoErrorKind unit;
  fs_read : path → act W IoErrorKind bytes;
  (** The names of the entries that could be listed. *)
  fs_read_dir : path → act W IoErrorKind (list bytes);
  writes_fetch_add : W → W * Z;
  process_id : W → Z;
  CryptProtectData : bytes → act W Z bytes;
  CryptUnprotectData : bytes → act W Z bytes;
  (** A path named by an environment variable. *)
  env_var_os : bytes → W → option path;
  (** Deletes a generic credential, or answers [GetLastError]. *)
  CredDeleteW : list Z → act W Z unit;
}.

(** No file but those in [touched] has changed. *)
Definition untouched `{Windows W} (touched : list path) (w w' : W) : Prop :=
  ∀ p, p ∉ touched → fs_lookup w' p = fs_lookup w p.

Class WindowsLaws (W : Type) `{Windows W} := {
  fs_create_dir_all_spec p w : untouched [] w (fs_create_dir_all p w).1 ∧ (fs_create_dir_all p w).2 ≠ Panic;
  fs_write_new_spec p bs w : let '(w', r) := fs_write_new p bs w in
    untouched [p] w w' ∧ r ≠ Panic ∧ (r = Ok tt → fs_lookup w' p = Some bs);
  (** A rename is atomic. *)
  fs_rename_spec p q w : let '(w', r) := fs_rename p q w in
    r ≠ Panic ∧ (r = Ok tt → untouched [p; q] w w' ∧ fs_lookup w' q = fs_lookup w p) ∧ (r ≠ Ok tt → untouched [] w w');
  fs_remove_file_spec p w : untouched [p] w (fs_remove_file p w).1 ∧ (fs_remove_file p w).2 ≠ Panic;
  fs_remove_file_gone p w : let '(w', r) := fs_remove_file p w in
    (r = Ok tt ∨ r = Err Io_NotFound → fs_lookup w' p = None) ∧
    (fs_lookup w' p = None ∨ fs_lookup w' p = fs_lookup w p);
  fs_read_spec p w : let '(w', r) := fs_read p w in
    untouched [] w w' ∧ r ≠ Panic ∧ (∀ bs, r = Ok bs → fs_lookup w p = Some bs) ∧
    (r = Err Io_NotFound → fs_lookup w p = None);
  fs_read_dir_spec p w : untouched [] w (fs_read_dir p w).1 ∧ (fs_read_dir p w).2 ≠ Panic;
  writes_fetch_add_spec w : untouched [] w (writes_fetch_add w).1;
  CryptProtectData_spec bs w : let '(w', r) := CryptProtectData bs w in
    untouched [] w w' ∧ r ≠ Panic ∧ (∀ blob, r = Ok blob → crypt_plain blob = Some bs);
  CryptUnprotectData_spec blob w : let '(w', r) := CryptUnprotectData blob w in
    untouched [] w w' ∧ r ≠ Panic ∧ (∀ bs, r = Ok bs → crypt_plain blob = Some bs);
  CredDeleteW_spec target w : untouched [] w (CredDeleteW target w).1 ∧ (CredDeleteW target w).2 ≠ Panic;
}.

Section protected.
Context `{Rapp} `{CertificateDecoder} {W : Type} `{!Windows W}.

Definition PROFILE_DIRECTORY : bytes := bytes_of_string "RefineID".
Definition UNPROTECTED_COPY_FILE : bytes := bytes_of_string "pairing_set.blob".
Definition UNPROTECTED_CREDENTIAL_TARGET : bytes := bytes_of_string "RefineID_RAPP_Pairing_Set".
Definition ERROR_NOT_FOUND : Z := 1168.
Definition PAIRING_SET_FILE : bytes := bytes_of_string "pairing-set.dpapi".
Definition CARD_SIGHTINGS_DIRECTORY : bytes := bytes_of_string "card-sightings".
Definition SIGHTING_EXTENSION : bytes := bytes_of_string "sighting".
Definition PARTIAL_SUFFIX : bytes := bytes_of_string "partial".
Definition DOT : bytes := bytes_of_string ".".

(** ** Files *)

Definition partial_file_name (file : bytes) (w : W) : W * bytes :=
  let '(w, write) := writes_fetch_add w in
  (w, file ++ DOT ++ bytes_of_string (pretty (process_id w)) ++ DOT ++ bytes_of_string (pretty write)
      ++ DOT ++ PARTIAL_SUFFIX).

(** [let _ = remove_file(..)], then the error. *)
Definition discard_partial {A} (partial : path) (error : IoErrorKind) : act W CredentialStoreError A := λ w,
  match fs_remove_file partial w with
  | (w, Panic) => (w, Panic)
  | (w, _) => (w, Err (Cse_File error))
  end.

Definition replace_file (directory : path) (file bs : bytes) : act W CredentialStoreError unit :=
  do! _ := act_map_err Cse_File (fs_create_dir_all directory) in
  λ w,
  let '(w, name) := partial_file_name file w in
  let partial := directory ++ [name] in
  match fs_write_new partial bs w with
  | (w, Err error) => discard_partial partial error w
  | (w, Panic) => (w, Panic)
  | (w, Ok _) =>
      match fs_rename partial (directory ++ [file]) w with
      | (w, Ok _) => (w, Ok tt)
      | (w, Err error) => discard_partial partial error w
      | (w, Panic) => (w, Panic)
      end
  end.

Definition profile_directory (w : W) : result CredentialStoreError path :=
  match env_var_os (bytes_of_string "LOCALAPPDATA") w with
  | Some local => Ok (local ++ [PROFILE_DIRECTORY])
  | None => Err Cse_ProfileUnavailable
  end.

(** [str::encode_utf16] of an ASCII text is its octets. *)
Definition wide (text : bytes) : list Z := text ++ [0].

Definition remove_unprotected_copies (directory : path) : act W CredentialStoreError unit :=
  do! _ := λ w, match fs_remove_file (directory ++ [UNPROTECTED_COPY_FILE]) w with
                | (w, Ok _) | (w, Err Io_NotFound) => (w, Ok tt)
                | (w, Err _) => (w, Err Cse_UnprotectedCopyRemains)
                | (w, Panic) => (w, Panic)
                end in
  λ w,
  let w := match env_var_os (bytes_of_string "ProgramData") w with
           | Some program_data => (fs_remove_file (program_data ++ [PROFILE_DIRECTORY; UNPROTECTED_COPY_FILE]) w).1
           | None => w
           end in
  match CredDeleteW (wide UNPROTECTED_CREDENTIAL_TARGET) w with
  | (w, Ok _) => (w, Ok tt)
  | (w, Err code) => (w, if code =? ERROR_NOT_FOUND then Ok tt else Err Cse_UnprotectedCopyRemains)
  | (w, Panic) => (w, Panic)
  end.

(** [write!(name, "{byte:02x}")] for each octet, then the extension. *)
Definition hex_lower (n : Z) : Z := if n <? 10 then 0x30 + n else 0x61 + (n - 10).
Definition sighting_file_name (pair_id : PairId) : bytes :=
  flat_map (λ b, [hex_lower (Z.shiftr b 4); hex_lower (Z.land b 0x0F)]) (PairId_as_bytes pair_id)
  ++ DOT ++ SIGHTING_EXTENSION.

(** [Path::extension] of a listed entry: what follows the last dot, unless that
    dot begins the name. *)
Definition path_extension (name : bytes) : option bytes :=
  i ← position (λ b, b =? 0x2E) (reverse name);
  if decide (S i = length name) then None else Some (reverse (take i (reverse name))).

Fixpoint read_sighting_files (directory : path) (names : list bytes) (w : W) : W * list (PairId * CardSighting) :=
  match names with
  | [] => (w, [])
  | name :: names =>
      if negb (bool_decide (path_extension name = Some SIGHTING_EXTENSION)) then read_sighting_files directory names w
      else
        let '(w, r) := fs_read (directory ++ [name]) w in
        let sighting := bs ← result_ok r; result_ok (decode_sighting bs) in
        let '(w, sightings) := read_sighting_files directory names w in
        (w, match sighting with Some s => s :: sightings | None => sightings end)
  end.
Definition read_sightings (directory : path) (w : W) : W * list (PairId * CardSighting) :=
  let sightings := directory ++ [CARD_SIGHTINGS_DIRECTORY] in
  match fs_read_dir sightings w with
  | (w, Ok files) => read_sighting_files sightings files w
  | (w, _) => (w, [])
  end.

Definition write_sighting (directory : path) (pair_id : PairId) (sighting : CardSighting)
  : act W CredentialStoreError unit :=
  replace_file (directory ++ [CARD_SIGHTINGS_DIRECTORY]) (sighting_file_name pair_id) (encode_sighting pair_id sighting).

Definition remove_sighting (directory : path) (pair_id : PairId) (w : W) : W :=
  (fs_remove_file (directory ++ [CARD_SIGHTINGS_DIRECTORY; sighting_file_name pair_id]) w).1.

(** [input_blob] takes at most [u32::MAX] octets. *)
Definition protect (plain : bytes) : act W CredentialStoreError bytes :=
  if len plain >? u32_max then act_err Cse_InvalidStoredPairing
  else act_map_err Cse_Protection (CryptProtectData plain).
Definition unprotect (protected : bytes) : act W CredentialStoreError bytes :=
  if len protected >? u32_max then act_err Cse_InvalidStoredPairing
  else act_map_err Cse_Protection (CryptUnprotectData protected).

Definition write_pairing_set (directory : path) (blob : bytes) : act W CredentialStoreError unit :=
  do! protected := protect blob in
  replace_file directory PAIRING_SET_FILE protected.

Definition read_pairing_set (directory : path) : act W CredentialStoreError (option bytes) := λ w,
  match fs_read (directory ++ [PAIRING_SET_FILE]) w with
  | (w, Ok protected) => (do! bs := unprotect protected in act_ret (Some bs)) w
  | (w, Err Io_NotFound) => (w, Ok None)
  | (w, Err error) => (w, Err (Cse_File error))
  | (w, Panic) => (w, Panic)
  end.

Definition delete_pairing_set_in (directory : path) : act W CredentialStoreError unit :=
  do! _ := remove_unprotected_copies directory in
  do! _ := λ w, match fs_remove_file (directory ++ [PAIRING_SET_FILE]) w with
                | (w, Ok _) | (w, Err Io_NotFound) => (w, Ok tt)
                | (w, Err error) => (w, Err (Cse_File error))
                | (w, Panic) => (w, Panic)
                end in
  λ w, match fs_remove_dir_all (directory ++ [CARD_SIGHTINGS_DIRECTORY]) w with
       | (w, Ok _) | (w, Err Io_NotFound) => (w, Ok tt)
       | (w, Err error) => (w, Err (Cse_File error))
       | (w, Panic) => (w, Panic)
       end.

Definition delete_pairing_set : act W CredentialStoreError unit := λ w,
  match profile_directory w with
  | Ok directory => delete_pairing_set_in directory w
  | Err e => (w, Err e)
  | Panic => (w, Panic)
  end.

(** ** The store: the value and the world it lives in *)

Record ProtectedPairingStore := mkProtectedPairingStore
  { pps_records : list PairingRecord; pps_sightings : list (PairId * CardSighting);
    pps_directory : path; pps_world : W }.

Definition set_records (records : list PairingRecord) (s : ProtectedPairingStore) : ProtectedPairingStore :=
  mkProtectedPairingStore records (pps_sightings s) (pps_directory s) (pps_world s).
Definition set_sightings (sightings : list (PairId * CardSighting)) (s : ProtectedPairingStore) : ProtectedPairingStore :=
  mkProtectedPairingStore (pps_records s) sightings (pps_directory s) (pps_world s).
Definition set_world (w : W) (s : ProtectedPairingStore) : ProtectedPairingStore :=
  mkProtectedPairingStore (pps_records s) (pps_sightings s) (pps_directory s) w.

(** A call to the operating system from a method of the store. *)
Definition in_world {F A} (m : path → act W F A) : act ProtectedPairingStore F A := λ s,
  let '(w, r) := m (pps_directory s) (pps_world s) in (set_world w s, r).

Definition usable_pairing (s : ProtectedPairingStore) : option PairingRecord :=
  List.find serves (reverse (pps_records s)).
Definition forgotten_pairings (s : ProtectedPairingStore) : list PairingRecord :=
  filter (λ r, owes_revocation_notice r) (pps_records s).

Definition refresh : act ProtectedPairingStore StoreError unit := λ s,
  let '(w, sightings) := read_sightings (pps_directory s) (pps_world s) in
  let s := set_sightings sightings (set_world w s) in
  match in_world read_pairing_set s with
  | (s, Ok (Some blob)) =>
      match decode_pairing_records blob with
      | Ok set => (set_records (ps_records set) s, Ok tt)
      | Err _ => (s, Err Ste_Unreadable)
      | Panic => (s, Panic)
      end
  | (s, Ok None) => (set_records [] s, Ok tt)
  | (s, Err _) => (s, Err Ste_Unreadable)
  | (s, Panic) => (s, Panic)
  end.

Definition persist : act ProtectedPairingStore CredentialStoreError unit := λ s,
  match encode_pairing_records (pps_records s) with
  | Ok blob => in_world (λ directory, write_pairing_set directory blob) s
  | Err _ => (s, Err Cse_PairingNotEncodable)
  | Panic => (s, Panic)
  end.

Definition store_change (change : list PairingRecord → result StoreError (list PairingRecord))
  : act ProtectedPairingStore StoreError unit :=
  do! _ := refresh in
  do! _ := λ s, match change (pps_records s) with
                | Ok records => (set_records records s, Ok tt)
                | Err e => (s, Err e)
                | Panic => (s, Panic)
                end in
  act_map_err (λ _, Ste_WriteRefused) persist.

Definition pps_insert (record : PairingRecord) : act ProtectedPairingStore StoreError unit :=
  store_change (λ records, Ok (without_pairing (pair_id record) records ++ [record])).
Definition pps_get (s : ProtectedPairingStore) (p : PairId) : result StoreError PairingRecord :=
  ok_or (find_pairing p (pps_records s)) Ste_Unknown.
Definition pps_update (p : PairId) (f : PairingRecord → PairingRecord) : act ProtectedPairingStore StoreError unit :=
  store_change (λ records, ok_or (update_pairing p f records) Ste_Unknown).
Definition pps_pair_ids (s : ProtectedPairingStore) : list PairId := map pair_id (reverse (pps_records s)).

(** The closure of [remove]. *)
Definition remove_record (p : PairId) (records : list PairingRecord) : result StoreError (list PairingRecord) :=
  let left := without_pairing p records in
  if decide (length left = length records) then Err Ste_Unknown else Ok left.
Definition pps_drop_card_sighting (p : PairId) (s : ProtectedPairingStore) : ProtectedPairingStore :=
  let s := set_world (remove_sighting (pps_directory s) p (pps_world s)) s in
  set_sightings (without_sighting p (pps_sightings s)) s.
Definition pps_remove (p : PairId) : act ProtectedPairingStore StoreError unit :=
  do! _ := store_change (remove_record p) in
  λ s, (pps_drop_card_sighting p s, Ok tt).
Definition pps_card_sighting (s : ProtectedPairingStore) (p : PairId) : option CardSighting :=
  find_sighting p (pps_sightings s).
Definition pps_record_card_sighting (p : PairId) (sighting : CardSighting) : act ProtectedPairingStore StoreError unit :=
  do! _ := act_map_err (λ _, Ste_WriteRefused) (in_world (λ directory, write_sighting directory p sighting)) in
  λ s, (set_sightings (without_sighting p (pps_sightings s) ++ [(p, sighting)]) s, Ok tt).

(** The closure that writes the set with the checked record in its place. *)
Definition write_checked (directory : path) (before after : list PairingRecord) (checked : PairingRecord)
  : act W StoreError unit :=
  do! blob := act_lift (map_err (λ _, Ste_WriteRefused) (encode_pairing_records (before ++ [checked] ++ after))) in
  act_map_err (λ _, Ste_WriteRefused) (write_pairing_set directory blob).

Definition pps_sweep (p : PairId) (now_ms : Z) (session_established : bool)
  : act ProtectedPairingStore (RecordStoreError PairRecordCodecError StoreError) SweepOutcome :=
  do! _ := act_map_err Rs_Store refresh in
  λ s,
  match list_find (λ r, pair_id r = p) (pps_records s) with
  | None => (s, Err (Rs_Store Ste_Unknown))
  | Some (index, record) =>
      let before := take index (pps_records s) in
      let after := drop (S index) (pps_records s) in
      let '(w, record, outcome) :=
        sweep now_ms session_established (write_checked (pps_directory s) before after) record (pps_world s) in
      (set_world w (set_records (<[index := record]> (pps_records s)) s), outcome)
  end.

#[export] Instance ProtectedPairingStore_store : PairingStore ProtectedPairingStore := {
  ps_insert := pps_insert; ps_get := pps_get; ps_update := pps_update; ps_remove := pps_remove;
  ps_pair_ids := pps_pair_ids; ps_card_sighting := pps_card_sighting;
  ps_record_card_sighting := pps_record_card_sighting; ps_drop_card_sighting := pps_drop_card_sighting;
  ps_sweep := pps_sweep;
}.

(** The clock is read once, after the records that never were confirmed are
    removed. *)
Definition load_from (directory : path) (now_ms : Z) (w : W) : W * result CredentialStoreError ProtectedPairingStore :=
  match (do! _ := remove_unprotected_copies directory in read_pairing_set directory) w with
  | (w, Err e) => (w, Err e)
  | (w, Panic) => (w, Panic)
  | (w, Ok stored) =>
      match (match stored with
             | Some blob => map_err (λ _, Cse_InvalidStoredPairing) (decode_pairing_records blob)
             | None => Ok PairingSet_default
             end) with
      | Err e => (w, Err e)
      | Panic => (w, Panic)
      | Ok set =>
          let '(w, sightings) := read_sightings directory w in
          let store := mkProtectedPairingStore (ps_records set) sightings directory w in
          match (do! removed := remove_unconfirmed in
                 do! expired := expire_revocation_notices now_ms in
                 act_ret (removed, expired)) store with
          | (store, Ok (removed, expired)) =>
              if negb (bool_decide (removed = [])) || negb (bool_decide (expired = [])) || (ps_refused set >? 0)
              then match persist store with
                   | (store, Ok _) => (pps_world store, Ok store)
                   | (store, Err e) => (pps_world store, Err e)
                   | (store, Panic) => (pps_world store, Panic)
                   end
              else (pps_world store, Ok store)
          (* Neither call returns an error. *)
          | (store, Err _) | (store, Panic) => (pps_world store, Panic)
          end
      end
  end.

Definition load (now_ms : Z) (w : W) : W * result CredentialStoreError ProtectedPairingStore :=
  match profile_directory w with
  | Ok directory => load_from directory now_ms w
  | Err e => (w, Err e)
  | Panic => (w, Panic)
  end.

Definition revoke_by_peer (p : PairId) : act ProtectedPairingStore StoreError unit := revoke_pairing p true.
End protected.

(** ** Lemmas: files *)

Section protected_lemmas.
Context `{Rapp} `{!RappLaws} `{CertificateDecoder} {W : Type} `{!Windows W} `{!WindowsLaws W}.

Lemma untouched_refl l (w : W) : untouched l w w.
Proof. by intros p _. Qed.
Lemma untouched_trans l (w1 w2 w3 : W) : untouched l w1 w2 → untouched l w2 w3 → untouched l w1 w3.
Proof. intros H1' H2' p Hp. by rewrite H2', H1'. Qed.
Lemma untouched_weaken l l' (w1 w2 : W) : l ⊆ l' → untouched l w1 w2 → untouched l' w1 w2.
Proof. intros Hl H1' p Hp. apply H1'. set_solver. Qed.
Hint Resolve untouched_refl : core.

(** Temporary files are told from every other by the last letter of their
    name. *)
Lemma partial_file_name_last file (w : W) :
  untouched [] w (partial_file_name file w).1 ∧ list.last (partial_file_name file w).2 = Some 0x6C.
Proof.
  unfold partial_file_name. pose proof (writes_fetch_add_spec w). destruct (writes_fetch_add w) as [w' write]. cbn [fst snd] in *.
  split; [done|]. unfold PARTIAL_SUFFIX. rewrite !app_assoc.
  change (bytes_of_string "partial") with ([0x70; 0x61; 0x72; 0x74; 0x69; 0x61] ++ [0x6C]).
  by rewrite app_assoc, list.last_snoc.
Qed.

Lemma discard_partial_spec {A} partial e (w : W) :
  let '(w', r) := discard_partial (A:=A) partial e w in untouched [partial] w w' ∧ r = Err (Cse_File e).
Proof.
  unfold discard_partial. destruct (fs_remove_file_spec partial w) as [Hun Hnp].
  destruct (fs_remove_file partial w) as [w' [[]|e'|]]; by cbn in *.
Qed.

(** [replace_file] is all or nothing, and touches no other settled file. *)
Lemma replace_file_spec directory file bs (w : W) :
  list.last file ≠ Some 0x6C →
  let '(w', r) := replace_file directory file bs w in
  r ≠ Panic ∧
  (∃ name, list.last name = Some 0x6C ∧ untouched [directory ++ [name]; directory ++ [file]] w w') ∧
  match r with
  | Ok _ => fs_lookup w' (directory ++ [file]) = Some bs
  | _ => fs_lookup w' (directory ++ [file]) = fs_lookup w (directory ++ [file])
  end.
Proof.
  intros Hfile. unfold replace_file, act_bind, act_map_err.
  destruct (fs_create_dir_all_spec directory w) as [Hun0 Hnp0].
  assert (untouched [directory ++ [file]] w w) by done.
  destruct (fs_create_dir_all directory w) as [w0 [[]|e0|]]; cbn [map_err fst snd] in *; [| |done].
  2:{ split; [done|]. split; [|by apply Hun0; set_solver]. exists [0x6C]. split; [done|].
      eapply untouched_weaken; [|exact Hun0]. set_solver. }
  destruct (partial_file_name_last file w0) as [Hun1 Hlast].
  destruct (partial_file_name file w0) as [w1 name]. cbn [fst snd] in *.
  set (partial := directory ++ [name]). set (target := directory ++ [file]).
  assert (target ≠ partial) as Hne by (unfold target, partial; intros [_ [= ->]]%app_inj_2; done).
  assert (∀ w2, untouched [partial] w1 w2 → untouched [partial] w w2) as Hto.
  { intros w2 H2'. eapply untouched_trans; [|exact H2']. eapply (untouched_weaken []); [set_solver|].
    by eapply untouched_trans. }
  assert (∀ w2, untouched [partial] w1 w2 →
    (∃ name, list.last name = Some 0x6C ∧ untouched [directory ++ [name]; target] w w2) ∧ fs_lookup w2 target = fs_lookup w target) as Hkeep.
  { intros w2 H2'. apply Hto in H2'. split; [|by apply H2'; set_solver].
    exists name. split; [done|]. eapply untouched_weaken; [|exact H2']. set_solver. }
  pose proof (fs_write_new_spec partial bs w1) as Hwrite. destruct (fs_write_new partial bs w1) as [w2 r2].
  destruct Hwrite as (Hun2 & Hnp2 & Hok2). destruct r2 as [[]|e2|]; [| |done].
  2:{ pose proof (discard_partial_spec (A:=()) partial e2 w2) as Hd. destruct (discard_partial partial e2 w2) as [w3 r3].
      destruct Hd as [Hun3 ->]. split; [done|]. apply Hkeep. by eapply untouched_trans. }
  pose proof (fs_rename_spec partial target w2) as Hren. destruct (fs_rename partial target w2) as [w3 r3].
  destruct Hren as (Hnp3 & Hok3 & Herr3). destruct r3 as [[]|e3|]; [| |done].
  - destruct (Hok3 eq_refl) as [Hun3 Hl3]. split; [done|]. split; [|by rewrite Hl3, Hok2].
    exists name. split; [done|]. eapply untouched_trans; [|exact Hun3]. eapply (untouched_weaken [partial]); [set_solver|].
    by apply Hto.
  - pose proof (discard_partial_spec (A:=()) partial e3 w3) as Hd. destruct (discard_partial partial e3 w3) as [w4 r4].
    destruct Hd as [Hun4 ->]. split; [done|]. apply Hkeep. eapply untouched_trans; [exact Hun2|].
    eapply untouched_trans; [|exact Hun4]. eapply (untouched_weaken []); [set_solver|]. by apply Herr3.
Qed.

(** ** Lemmas: the stored set *)

Definition set_path (directory : path) : path := directory ++ [PAIRING_SET_FILE].

(** What the file of the set says: no file is an empty set. *)
Definition stored_records (directory : path) (w : W) : option (list PairingRecord) :=
  match fs_lookup w (set_path directory) with
  | None => Some []
  | Some file => blob ← crypt_plain file; set ← result_ok (decode_pairing_records blob); Some (ps_records set)
  end.

Lemma stored_records_untouched directory (w w' : W) :
  fs_lookup w' (set_path directory) = fs_lookup w (set_path directory) →
  stored_records directory w' = stored_records directory w.
Proof. unfold stored_records. by intros ->. Qed.

Lemma stored_records_wf directory (w : W) records :
  stored_records directory w = Some records → Forall PairingRecord_wf records.
Proof.
  unfold stored_records. destruct (fs_lookup w (set_path directory)) as [file|]; [|intros [= <-]; constructor].
  destruct (crypt_plain file) as [blob|]; [|done]. cbn. destruct (decode_pairing_records blob) as [set|e|] eqn:Hd; [|done..].
  intros [= <-]. by eapply decode_pairing_records_wf.
Qed.

Lemma read_pairing_set_spec directory (w : W) :
  let '(w', r) := read_pairing_set directory w in
  untouched [] w w' ∧
  match r with
  | Ok None => fs_lookup w (set_path directory) = None
  | Ok (Some blob) => fs_lookup w (set_path directory) ≫= crypt_plain = Some blob
  | Err _ => True
  | Panic => False
  end.
Proof.
  unfold read_pairing_set. fold (set_path directory). pose proof (fs_read_spec (set_path directory) w) as Hr.
  destruct (fs_read (set_path directory) w) as [w1 r]. destruct Hr as (Hun & Hnp & Hok & Hnf).
  destruct r as [file|e|]; [|destruct e; [by rewrite Hnf|done]|done].
  unfold act_bind, unprotect. destruct (len file >? u32_max); [done|]. unfold act_map_err.
  pose proof (CryptUnprotectData_spec file w1) as Hc. destruct (CryptUnprotectData file w1) as [w2 r2].
  destruct Hc as (Hun2 & Hnp2 & Hok2). destruct r2 as [blob|e|]; cbn; [|by split; [eapply untouched_trans|]|done].
  split; [by eapply untouched_trans|]. by rewrite (Hok file eq_refl); apply Hok2.
Qed.

Lemma write_pairing_set_spec directory blob (w : W) :
  let '(w', r) := write_pairing_set directory blob w in
  r ≠ Panic ∧
  match r with
  | Ok _ => fs_lookup w' (set_path directory) ≫= crypt_plain = Some blob
  | _ => fs_lookup w' (set_path directory) = fs_lookup w (set_path directory)
  end.
Proof.
  unfold write_pairing_set, act_bind, protect. destruct (len blob >? u32_max); [done|]. unfold act_map_err.
  pose proof (CryptProtectData_spec blob w) as Hc. destruct (CryptProtectData blob w) as [w1 r1].
  destruct Hc as (Hun1 & Hnp1 & Hok1). destruct r1 as [file|e|]; cbn [map_err]; [|by split; [|apply Hun1; set_solver]|done].
  pose proof (replace_file_spec directory PAIRING_SET_FILE file w1 ltac:(done)) as Hr.
  destruct (replace_file directory PAIRING_SET_FILE file w1) as [w2 r2]. destruct Hr as (Hnp2 & _ & Hl).
  fold (set_path directory) in Hl. split; [done|]. destruct r2 as [[]|e|].
  - by rewrite Hl; apply Hok1.
  - rewrite Hl. apply Hun1. set_solver.
  - rewrite Hl. apply Hun1. set_solver.
Qed.

Lemma read_sightings_untouched directory (w : W) : untouched [] w (read_sightings directory w).1.
Proof.
  unfold read_sightings. destruct (fs_read_dir_spec (directory ++ [CARD_SIGHTINGS_DIRECTORY]) w) as [Hun _].
  destruct (fs_read_dir _ w) as [w1 [files|e|]]; cbn [fst] in *; [|done..]. eapply untouched_trans; [exact Hun|].
  clear Hun. revert w1. induction files as [|name files IH]; intros w1; [done|]. cbn [read_sighting_files].
  destruct (negb _); [apply IH|]. pose proof (fs_read_spec ((directory ++ [CARD_SIGHTINGS_DIRECTORY]) ++ [name]) w1) as Hr.
  destruct (fs_read _ w1) as [w2 r]. destruct Hr as (Hun & _). specialize (IH w2).
  destruct (read_sighting_files _ files w2) as [w3 l]. cbn [fst] in *. by eapply untouched_trans.
Qed.

(** ** Lemmas: the methods *)

Abbreviation store := (ProtectedPairingStore (W:=W)).

Lemma refresh_spec (s : store) :
  let '(s', r) := refresh s in
  pps_directory s' = pps_directory s ∧ untouched [] (pps_world s) (pps_world s') ∧
  match r with
  | Ok _ => stored_records (pps_directory s) (pps_world s) = Some (pps_records s')
  | Err e => e = Ste_Unreadable ∧ pps_records s' = pps_records s
  | Panic => False
  end.
Proof.
  unfold refresh. pose proof (read_sightings_untouched (pps_directory s) (pps_world s)) as Hun.
  destruct (read_sightings _ _) as [w1 sightings]. cbn [fst] in Hun. unfold in_world. cbn [pps_directory pps_world set_sightings set_world].
  pose proof (read_pairing_set_spec (pps_directory s) w1) as Hr. destruct (read_pairing_set _ w1) as [w2 r].
  destruct Hr as [Hun2 Hr]. assert (untouched [] (pps_world s) w2) as Hun' by by eapply untouched_trans.
  assert (fs_lookup w1 (set_path (pps_directory s)) = fs_lookup (pps_world s) (set_path (pps_directory s))) as Hsame by (apply Hun; set_solver).
  destruct r as [[blob|]|e|]; [| |done..].
  - pose proof (decode_pairing_records_no_panic blob). destruct (decode_pairing_records blob) as [set|e|] eqn:Hd; [|done..].
    split; [done|]. split; [done|]. unfold stored_records. rewrite <- Hsame.
    destruct (fs_lookup w1 _) as [file|]; [|done]. cbn in Hr. rewrite Hr. cbn. by rewrite Hd.
  - split; [done|]. split; [done|]. unfold stored_records. by rewrite <- Hsame, Hr.
Qed.

Lemma persist_spec (s : store) :
  Forall PairingRecord_wf (pps_records s) →
  let '(s', r) := persist s in
  pps_directory s' = pps_directory s ∧ pps_records s' = pps_records s ∧ pps_sightings s' = pps_sightings s ∧ r ≠ Panic ∧
  match r with
  | Ok _ => stored_records (pps_directory s) (pps_world s') = Some (pps_records s)
  | _ => fs_lookup (pps_world s') (set_path (pps_directory s)) = fs_lookup (pps_world s) (set_path (pps_directory s))
  end.
Proof.
  intros Hwf. unfold persist. destruct (encode_pairing_records (pps_records s)) as [blob|e|] eqn:Henc; [| done|].
  - unfold in_world. pose proof (write_pairing_set_spec (pps_directory s) blob (pps_world s)) as Hw.
    destruct (write_pairing_set _ blob _) as [w' r]. destruct Hw as [Hnp Hl]. do 3 (split; [done|]). split; [done|].
    destruct r as [[]|e|]; [|done..]. unfold stored_records. cbn [pps_world set_world].
    destruct (fs_lookup w' (set_path (pps_directory s))) as [file|]; [|done]. cbn in Hl. rewrite Hl. cbn.
    by rewrite (decode_encode_records _ _ Hwf Henc).
  - by apply encode_pairing_records_no_panic in Henc.
Qed.

(** The changes the store is asked for. *)
Definition sound_change (change : list PairingRecord → result StoreError (list PairingRecord)) : Prop :=
  ∀ records, Forall PairingRecord_wf records →
  match change records with
  | Ok records' => Forall PairingRecord_wf records'
  | Err e => e ≠ Ste_Unreadable
  | Panic => False
  end.

(** A change is made to what is stored and written, or nothing is written. *)
Lemma store_change_spec change (s : store) :
  sound_change change →
  let '(s', r) := store_change change s in
  pps_directory s' = pps_directory s ∧
  match r with
  | Ok _ => ∃ records, stored_records (pps_directory s) (pps_world s) = Some records ∧
      change records = Ok (pps_records s') ∧ stored_records (pps_directory s) (pps_world s') = Some (pps_records s')
  | Err e => fs_lookup (pps_world s') (set_path (pps_directory s)) = fs_lookup (pps_world s) (set_path (pps_directory s)) ∧
      (e = Ste_Unreadable → pps_records s' = pps_records s)
  | Panic => False
  end.
Proof.
  intros Hsound. unfold store_change, act_bind, act_map_err. pose proof (refresh_spec s) as Href.
  destruct (refresh s) as [s1 [[]|e|]]; destruct Href as (Hdir & Hun & Href); [| |done].
  2:{ destruct Href as [-> Hrec]. split; [done|]. split; [apply Hun; set_solver|]. done. }
  specialize (Hsound (pps_records s1) ltac:(by eapply stored_records_wf)).
  destruct (change (pps_records s1)) as [records'|e|] eqn:Hc; [| |done].
  2:{ split; [done|]. split; [apply Hun; set_solver|]. by intros ->. }
  assert (Forall PairingRecord_wf (pps_records (set_records records' s1))) as Hwf' by done.
  pose proof (persist_spec (set_records records' s1) Hwf') as Hp.
  destruct (persist (set_records records' s1)) as [s2 [[]|e|]]; destruct Hp as (Hdir2 & Hrec2 & _ & Hnp2 & Hp); [| |done].
  - cbn [pps_directory pps_records pps_world set_records] in *. rewrite Hdir in *. split; [congruence|].
    exists (pps_records s1). by rewrite Hrec2.
  - cbn [pps_directory pps_records pps_world set_records] in *. rewrite Hdir in *. split; [congruence|].
    rewrite Hp. split; [apply Hun; set_solver|]. done.
Qed.

Lemma insert_sound record :
  PairingRecord_wf record → sound_change (λ records, Ok (without_pairing (pair_id record) records ++ [record])).
Proof. intros Hr records Hl. apply Forall_app. split; [by apply Forall_without|by apply list.Forall_singleton]. Qed.
Lemma update_sound p f : keeps_pairing f → sound_change (λ records, ok_or (update_pairing p f records) Ste_Unknown).
Proof.
  intros Hf records Hl. destruct (update_pairing p f records) as [l|] eqn:Hu; [|done].
  by destruct (find_update p f records l Hl Hf Hu).
Qed.
Lemma remove_sound p : sound_change (remove_record p).
Proof. intros records Hl. unfold remove_record. case_decide; [done|]. by apply Forall_without. Qed.

(** ** Lemmas: the laws of a store *)

(** The value a process holds is what the file of the set says. *)
Definition pps_ok (s : store) : Prop := stored_records (pps_directory s) (pps_world s) = Some (pps_records s).

Lemma pps_ok_wf s : pps_ok s → Forall PairingRecord_wf (pps_records s).
Proof. apply stored_records_wf. Qed.

(** What a write to the set's directory leaves of the set, by the length of the
    path. *)
Lemma untouched_stored directory l (w w' : W) :
  untouched l w w' → Forall (λ p, length p ≠ length (set_path directory)) l →
  stored_records directory w' = stored_records directory w.
Proof.
  intros Hun Hl. apply stored_records_untouched, Hun. intros Hin. rewrite list.Forall_forall in Hl. by destruct (Hl _ Hin).
Qed.

Lemma refresh_ok s s' r :
  pps_ok s → refresh s = (s', r) → pps_ok s' ∧ pps_records s' = pps_records s ∧ (r = Ok tt ∨ r = Err Ste_Unreadable).
Proof.
  intros Hs Hr. pose proof (refresh_spec s) as Hspec. rewrite Hr in Hspec. destruct Hspec as (Hdir & Hun & Hspec).
  assert (stored_records (pps_directory s') (pps_world s') = Some (pps_records s)) as Hst.
  { rewrite Hdir, (untouched_stored _ [] _ _ Hun) by constructor. exact Hs. }
  assert (pps_records s' = pps_records s) as Hsame.
  { destruct r as [[]|e|]; [|by destruct Hspec|done]. unfold pps_ok in Hs. congruence. }
  split; [unfold pps_ok; by rewrite Hsame|]. split; [done|].
  destruct r as [[]|e|]; [by left|right; by destruct Hspec as [-> _]|done].
Qed.

(** A successful change of a consistent store. *)
Lemma store_change_ok change s s' :
  sound_change change → pps_ok s → store_change change s = (s', Ok tt) → pps_ok s' ∧ change (pps_records s) = Ok (pps_records s').
Proof.
  intros Hsound Hs Hrun. pose proof (store_change_spec change s Hsound) as Hspec. rewrite Hrun in Hspec.
  destruct Hspec as (Hdir & records & Hst & Hc & Hst'). unfold pps_ok in *. rewrite Hdir. split; [done|]. congruence.
Qed.

Lemma write_checked_spec directory before after checked (w : W) :
  Forall PairingRecord_wf (before ++ [checked] ++ after) →
  let '(w', r) := write_checked directory before after checked w in
  r ≠ Panic ∧
  match r with
  | Ok _ => stored_records directory w' = Some (before ++ [checked] ++ after)
  | _ => stored_records directory w' = stored_records directory w
  end.
Proof.
  intros Hwf. unfold write_checked, act_bind, act_map_err, act_lift.
  destruct (encode_pairing_records (before ++ [checked] ++ after)) as [blob|e|] eqn:Henc; cbn [map_err]; [|done|].
  - pose proof (write_pairing_set_spec directory blob w) as Hw. destruct (write_pairing_set directory blob w) as [w' r].
    destruct Hw as [Hnp Hl]. destruct r as [[]|e|]; cbn [map_err]; [|split; [done|]; by apply stored_records_untouched|done].
    split; [done|]. unfold stored_records. destruct (fs_lookup w' (set_path directory)) as [file|]; [|done]. cbn in Hl. rewrite Hl. cbn.
    by rewrite (decode_encode_records _ _ Hwf Henc).
  - by apply encode_pairing_records_no_panic in Henc.
Qed.

Lemma sighting_file_name_last p : list.last (sighting_file_name p) = Some 0x67.
Proof.
  unfold sighting_file_name, SIGHTING_EXTENSION. rewrite app_assoc.
  change (bytes_of_string "sighting") with ([0x73; 0x69; 0x67; 0x68; 0x74; 0x69; 0x6E] ++ [0x67]).
  by rewrite app_assoc, list.last_snoc.
Qed.

Lemma sighting_path_length directory name :
  length ((directory ++ [CARD_SIGHTINGS_DIRECTORY]) ++ [name]) ≠ length (set_path directory).
Proof. unfold set_path. rewrite !length_app. cbn. lia. Qed.

Lemma write_sighting_spec directory p sighting (w : W) :
  let '(w', r) := write_sighting directory p sighting w in
  r ≠ Panic ∧ stored_records directory w' = stored_records directory w.
Proof.
  unfold write_sighting. pose proof (replace_file_spec (directory ++ [CARD_SIGHTINGS_DIRECTORY]) (sighting_file_name p)
    (encode_sighting p sighting) w) as Hr. rewrite sighting_file_name_last in Hr. specialize (Hr ltac:(done)).
  destruct (replace_file _ _ _ w) as [w' r]. destruct Hr as (Hnp & (name & _ & Hun) & _). split; [done|].
  eapply untouched_stored; [exact Hun|]. repeat constructor; apply sighting_path_length.
Qed.

Lemma drop_card_sighting_same p s :
  stored_records (pps_directory s) (pps_world (pps_drop_card_sighting p s)) = stored_records (pps_directory s) (pps_world s).
Proof.
  unfold pps_drop_card_sighting, remove_sighting. cbn [pps_world set_world set_sightings].
  replace (pps_directory s ++ [CARD_SIGHTINGS_DIRECTORY; sighting_file_name p])
    with ((pps_directory s ++ [CARD_SIGHTINGS_DIRECTORY]) ++ [sighting_file_name p]) by by rewrite <- app_assoc.
  eapply untouched_stored; [apply fs_remove_file_spec|]. repeat constructor. apply sighting_path_length.
Qed.

Lemma write_checked_no_panic directory before after checked (w : W) :
  (write_checked directory before after checked w).2 ≠ Panic.
Proof.
  unfold write_checked, act_bind, act_map_err, act_lift.
  destruct (encode_pairing_records (before ++ [checked] ++ after)) as [blob|e|] eqn:Henc; cbn [map_err]; [|done|].
  - pose proof (write_pairing_set_spec directory blob w) as Hw. destruct (write_pairing_set directory blob w) as [w' [[]|e|]]; by destruct Hw.
  - by apply encode_pairing_records_no_panic in Henc.
Qed.

(** The sweep of the pairing's record, after the store is read again: what
    changed was stored first, and an error leaves everything as it was. *)
Lemma pps_sweep_record s p now established i r :
  pps_ok s → list_find (λ r, pair_id r = p) (pps_records s) = Some (i, r) →
  let '(w, r', outcome) :=
    sweep now established (write_checked (pps_directory s) (take i (pps_records s)) (drop (S i) (pps_records s))) r (pps_world s) in
  stored_records (pps_directory s) w = Some (<[i := r']> (pps_records s)) ∧
  match outcome with
  | Ok outcome => swept outcome r r'
  | Err _ => r' = r
  | Panic => False
  end.
Proof.
  intros Hs Hfind. pose proof (pps_ok_wf s Hs) as Hwf. pose proof Hfind as (Hi & _)%list_find_Some.
  destruct (sweep_cases now established (write_checked (pps_directory s) (take i (pps_records s)) (drop (S i) (pps_records s)))
    r (pps_world s)) as [->|[[e ->]|(out & r' & _ & Hswept & ->)]].
  - intros. apply write_checked_no_panic.
  - by rewrite list_insert_id by done.
  - by rewrite list_insert_id by done.
  - destruct (swept_list p _ i r r' out Hfind Hswept Hwf) as (_ & Hwf' & _).
    assert (<[i := r']> (pps_records s) = take i (pps_records s) ++ [r'] ++ drop (S i) (pps_records s)) as Hins.
    { apply insert_take_drop. by eapply lookup_lt_Some. }
    rewrite Hins in Hwf'. pose proof (write_checked_spec (pps_directory s) _ _ _ (pps_world s) Hwf') as Hw.
    destruct (write_checked _ _ _ r' _) as [w' [[]|e|]]; destruct Hw as [Hnp Hw]; [|split; [|done]|done].
    + by rewrite Hins.
    + rewrite list_insert_id by done. by rewrite Hw.
Qed.

#[export] Instance ProtectedPairingStore_laws : PairingStoreLaws store.
Proof.
  refine {| ps_ok := pps_ok |}.
  - intros s p Hs%pps_ok_wf. cbn. unfold pps_get. destruct (find_pairing p (pps_records s)) as [r|] eqn:Hf; [|done].
    by apply (find_pairing_wf p _ r Hs).
  - intros s p _. cbn. unfold pps_pair_ids, pps_get. by rewrite elem_of_pair_ids, ok_or_Ok.
  - intros s s' r Hs Hr Hrun. cbn. destruct (store_change_ok _ s s' (insert_sound r Hr) Hs Hrun) as [Hok [= Hl]].
    split; [done|]. unfold pps_get. rewrite <- Hl. apply find_insert.
  - intros s s' p f Hs Hf Hrun. cbn. destruct (store_change_ok _ s s' (update_sound p f Hf) Hs Hrun) as [Hok Hl].
    destruct (update_pairing p f (pps_records s)) as [l|] eqn:Hu; [|done]. injection Hl as Hl. unfold pps_get. rewrite <- Hl.
    destruct (find_update p f _ l (pps_ok_wf s Hs) Hf Hu) as (_ & ? & ?). done.
  - intros s s' p Hs. cbn. unfold pps_remove, act_bind.
    destruct (store_change (remove_record p) s) as [s1 [[]|e|]] eqn:Hrun; [|done..]. intros [= <-].
    destruct (store_change_ok _ s s1 (remove_sound p) Hs Hrun) as [Hok Hl]. unfold remove_record in Hl.
    case_decide as Hlen; [done|]. injection Hl as Hl. rewrite without_length in Hlen.
    split; [exact (eq_trans (drop_card_sighting_same p s1) Hok)|]. unfold pps_get. cbn [pps_records pps_drop_card_sighting set_sightings set_world].
    rewrite <- Hl. split; [by apply found|]. split; [intros q; apply find_removed|].
    unfold pps_card_sighting. cbn. by rewrite find_without_sighting, decide_True.
  - intros s p now established Hs. cbn. unfold pps_sweep, act_bind, act_map_err.
    destruct (refresh s) as [s1 r1] eqn:Href. destruct (refresh_ok s s1 r1 Hs Href) as (Hs1 & Hrec & Hr1).
    destruct Hr1 as [->| ->]; cbn [map_err]; [|split; [done|]; intros q; unfold pps_get; by rewrite Hrec].
    destruct (list_find _ _) as [[i r]|] eqn:Hfind; [|split; [done|]; intros q; unfold pps_get; by rewrite Hrec].
    pose proof (pps_sweep_record s1 p now established i r Hs1 Hfind) as Hsw.
    destruct (sweep now established _ r _) as [[w r'] outcome]. destruct Hsw as [Hst Hout]. split; [done|].
    unfold pps_get. cbn [pps_records set_world set_records]. rewrite <- Hrec in *. destruct outcome as [outcome|e|]; [| |done].
    + destruct (swept_list p _ i r r' outcome Hfind Hout (pps_ok_wf s1 Hs1)) as (Hf & _ & Hq). exists r, r'. rewrite Hf.
      split; [done|]. split; [done|]. intros q. rewrite Hq. by case_decide.
    + intros q. subst r'. apply list_find_Some in Hfind as (Hi & _). by rewrite list_insert_id.
  - intros s s' p sighting Hs. cbn. unfold pps_record_card_sighting, act_bind, act_map_err, in_world.
    pose proof (write_sighting_spec (pps_directory s) p sighting (pps_world s)) as Hw.
    destruct (write_sighting _ _ _ _) as [w [[]|e|]]; [|done..]. destruct Hw as [_ Hw]. intros [= <-].
    split; [unfold pps_ok; cbn; by rewrite Hw|]. split; [done|]. intros q. unfold pps_card_sighting. cbn.
    rewrite find_sighting_app, find_without_sighting, find_sighting_cons.
    repeat case_decide; try done; try congruence; by destruct (find_sighting q (pps_sightings s)).
Defined.

(** ** Lemmas: loading *)

(** The unprotected copies a directory holds are the same. *)
Definition same_copies (w w' : W) : Prop :=
  ∀ directory, fs_lookup w' (directory ++ [UNPROTECTED_COPY_FILE]) = fs_lookup w (directory ++ [UNPROTECTED_COPY_FILE]).

Lemma untouched_copies l (w w' : W) :
  untouched l w w' → Forall (λ p, ∃ d name, p = d ++ [name] ∧ list.last name ≠ Some 0x62) l → same_copies w w'.
Proof.
  intros Hun Hl directory. apply Hun. intros Hin. rewrite list.Forall_forall in Hl.
  destruct (Hl _ Hin) as (d & name & [_ [= <-]]%app_inj_2 & Hname); [|done]. by destruct Hname.
Qed.

Lemma write_pairing_set_copies directory blob (w : W) : same_copies w (write_pairing_set directory blob w).1.
Proof.
  unfold write_pairing_set, act_bind, protect. destruct (len blob >? u32_max); [done|]. unfold act_map_err.
  pose proof (CryptProtectData_spec blob w) as Hc. destruct (CryptProtectData blob w) as [w1 r1].
  destruct Hc as (Hun1 & Hnp1 & _).
  assert (same_copies w w1) as Hc1 by (by eapply untouched_copies; [exact Hun1|constructor]).
  destruct r1 as [file|e|]; cbn [map_err]; [|done|done].
  pose proof (replace_file_spec directory PAIRING_SET_FILE file w1 ltac:(done)) as Hr.
  destruct (replace_file directory PAIRING_SET_FILE file w1) as [w2 r2]. destruct Hr as (_ & (name & Hname & Hun) & _).
  intros d. cbn [fst]. rewrite <- Hc1. revert d. eapply untouched_copies; [exact Hun|].
  repeat constructor; [exists directory, name|exists directory, PAIRING_SET_FILE]; (split; [done|]); [by rewrite Hname|done].
Qed.

(** What the methods keep of a process's store whatever they answer. *)
Definition kept (w : W) (s : store) (directory : path) : Prop :=
  pps_directory s = directory ∧ Forall PairingRecord_wf (pps_records s) ∧ same_copies w (pps_world s).

Lemma store_change_kept change w s directory :
  sound_change change → kept w s directory →
  (store_change change s).2 ≠ Panic ∧ kept w (store_change change s).1 directory.
Proof.
  intros Hsound (Hdir & Hwf & Hcopies). unfold store_change, act_bind, act_map_err. pose proof (refresh_spec s) as Href.
  destruct (refresh s) as [s1 r]; destruct Href as (Hdir1 & Hun & Href). rewrite Hdir in Hdir1.
  assert (same_copies w (pps_world s1)) as Hcopies1.
  { intros d. rewrite <- Hcopies. revert d. eapply untouched_copies; [exact Hun|constructor]. }
  destruct r as [[]|e|]; [| |done].
  2:{ destruct Href as [_ Hrec]. rewrite <- Hrec in Hwf. by cbn. }
  assert (Forall PairingRecord_wf (pps_records s1)) as Hwf1 by by eapply stored_records_wf.
  specialize (Hsound _ Hwf1). destruct (change (pps_records s1)) as [l|e|]; [|by cbn|done].
  unfold persist. cbn [pps_records set_records].
  destruct (encode_pairing_records l) as [blob|e|] eqn:Henc; [|by cbn|by apply encode_pairing_records_no_panic in Henc].
  unfold in_world. cbn [pps_directory pps_world set_records].
  pose proof (write_pairing_set_copies (pps_directory s1) blob (pps_world s1)) as Hc.
  pose proof (write_pairing_set_spec (pps_directory s1) blob (pps_world s1)) as Hw.
  destruct (write_pairing_set _ blob _) as [w2 r2]. destruct Hw as [Hnp _].
  assert (same_copies w w2) as Hc2 by (intros d; rewrite <- Hcopies1; apply Hc).
  by destruct r2 as [[]|e|].
Qed.

Lemma pps_remove_kept p w s directory :
  kept w s directory → (pps_remove p s).2 ≠ Panic ∧ kept w (pps_remove p s).1 directory.
Proof.
  intros Hs. destruct (store_change_kept (remove_record p) w s directory (remove_sound p) Hs) as [Hnp Hk].
  unfold pps_remove, act_bind. destruct (store_change (remove_record p) s) as [s1 [[]|e|]]; [|done..]. split; [done|].
  destruct Hk as (Hdir & Hwf & Hc). split; [done|]. split; [done|]. intros d. rewrite <- Hc. revert d.
  cbn [fst pps_world pps_drop_card_sighting set_sightings set_world]. unfold remove_sighting.
  eapply untouched_copies; [apply fs_remove_file_spec|]. repeat constructor.
  exists (pps_directory s1 ++ [CARD_SIGHTINGS_DIRECTORY]), (sighting_file_name p). rewrite <- app_assoc. split; [done|].
  by rewrite sighting_file_name_last.
Qed.

Lemma for_each_kept {A E} (f : A → act store E unit) w directory l : ∀ s,
  (∀ a s, kept w s directory → (f a s).2 ≠ Panic ∧ kept w (f a s).1 directory) →
  kept w s directory → ∃ s', for_each f l s = (s', Ok tt) ∧ kept w s' directory.
Proof.
  intros s Hf. revert s. induction l as [|a l IH]; intros s Hs; [by exists s|]. cbn [for_each].
  destruct (Hf a s Hs) as [Hnp Hk]. destruct (f a s) as [s1 [[]|e|]]; [by apply IH..|done].
Qed.

(** The two changes of [load_from]: they return what they tried, and change
    nothing when that is nothing. *)
Lemma load_changes now w s directory :
  kept w s directory →
  ∃ s' removed expired,
    (do! removed := remove_unconfirmed in do! expired := expire_revocation_notices now in act_ret (removed, expired)) s
      = (s', Ok (removed, expired)) ∧
    kept w s' directory ∧ (removed = [] → expired = [] → s' = s).
Proof.
  intros Hs. unfold remove_unconfirmed at 1, expire_revocation_notices, act_bind.
  set (unconfirmed := filter _ (ps_pair_ids s)).
  destruct (for_each_kept pps_remove w directory unconfirmed s (λ p s, pps_remove_kept p w s directory) Hs) as (s1 & Hrun & Hs1).
  change (for_each ps_remove unconfirmed s) with (for_each pps_remove unconfirmed s).
  rewrite Hrun. cbn [act_ret]. set (expired := filter _ (ps_pair_ids s1)).
  destruct (for_each_kept (λ p, revoke_pairing p false) w directory expired s1) as (s2 & Hrun2 & Hs2); [|done|].
  { intros p s' Hs'. apply store_change_kept; [|done]. apply update_sound, revoke_keeps. }
  rewrite Hrun2. exists s2, unconfirmed, expired. split; [done|]. split; [done|]. intros He He2.
  rewrite He in Hrun. rewrite He2 in Hrun2. injection Hrun as ->. by injection Hrun2 as ->.
Qed.

Lemma persist_copies s : same_copies (pps_world s) (pps_world (persist s).1).
Proof.
  unfold persist. destruct (encode_pairing_records (pps_records s)); [|done..]. unfold in_world.
  pose proof (write_pairing_set_copies (pps_directory s) a (pps_world s)) as Hc. by destruct (write_pairing_set _ _ _).
Qed.

(** Deleting a copy deletes it or keeps everything, and never the set. *)
Lemma remove_copy_spec directory d (w : W) :
  let '(w', r) := fs_remove_file (d ++ [UNPROTECTED_COPY_FILE]) w in
  fs_lookup w' (set_path directory) = fs_lookup w (set_path directory) ∧ r ≠ Panic ∧
  (r = Ok tt ∨ r = Err Io_NotFound → fs_lookup w' (d ++ [UNPROTECTED_COPY_FILE]) = None) ∧
  ∀ d', fs_lookup w (d' ++ [UNPROTECTED_COPY_FILE]) = None → fs_lookup w' (d' ++ [UNPROTECTED_COPY_FILE]) = None.
Proof.
  destruct (fs_remove_file_spec (d ++ [UNPROTECTED_COPY_FILE]) w) as [Hun Hnp].
  pose proof (fs_remove_file_gone (d ++ [UNPROTECTED_COPY_FILE]) w) as Hgone.
  destruct (fs_remove_file _ w) as [w' r]. cbn [fst snd] in *. destruct Hgone as [Hgone Hsame].
  split; [apply Hun; rewrite list_elem_of_singleton; by intros [_ [=]]%app_inj_2|]. split; [done|]. split; [done|].
  intros d' Hd'. destruct (decide (d' ++ [UNPROTECTED_COPY_FILE] = d ++ [UNPROTECTED_COPY_FILE])) as [Heq|Hne].
  - rewrite Heq in *. destruct Hsame as [|Hsame]; [done|]. by rewrite Hsame.
  - rewrite Hun; [done|]. by rewrite list_elem_of_singleton.
Qed.

Lemma remove_unprotected_copies_spec directory (w : W) :
  let '(w', r) := remove_unprotected_copies directory w in
  fs_lookup w' (set_path directory) = fs_lookup w (set_path directory) ∧ r ≠ Panic ∧
  (r = Ok tt → fs_lookup w' (directory ++ [UNPROTECTED_COPY_FILE]) = None).
Proof.
  unfold remove_unprotected_copies, act_bind. pose proof (remove_copy_spec directory directory w) as Hr.
  destruct (fs_remove_file (directory ++ [UNPROTECTED_COPY_FILE]) w) as [w1 r1]. destruct Hr as (Hset & Hnp & Hgone & _).
  assert (∃ r, (match r1 with Ok _ | Err Io_NotFound => (w1, Ok tt) | Err _ => (w1, Err Cse_UnprotectedCopyRemains)
    | Panic => (w1, Panic) end) = (w1, r) ∧ (r = Err Cse_UnprotectedCopyRemains ∨
    r = Ok tt ∧ fs_lookup w1 (directory ++ [UNPROTECTED_COPY_FILE]) = None)) as (r & Hr & Hcase).
  { destruct r1 as [[]|[]|]; eexists; (split; [reflexivity|]); auto. done. }
  rewrite Hr. destruct Hcase as [->|[-> Hnone]]; [done|]. clear Hr Hgone Hnp.
  assert (∃ w2, (match env_var_os (bytes_of_string "ProgramData") w1 with
                 | Some program_data => (fs_remove_file (program_data ++ [PROFILE_DIRECTORY; UNPROTECTED_COPY_FILE]) w1).1
                 | None => w1
                 end) = w2 ∧ fs_lookup w2 (set_path directory) = fs_lookup w1 (set_path directory) ∧
                fs_lookup w2 (directory ++ [UNPROTECTED_COPY_FILE]) = None) as (w2 & -> & Hset2 & Hnone2).
  { destruct (env_var_os _ w1) as [pd|]; [|by exists w1].
    pose proof (remove_copy_spec directory (pd ++ [PROFILE_DIRECTORY]) w1) as Hr2. rewrite <- app_assoc in Hr2. cbn [app] in Hr2.
    destruct (fs_remove_file _ w1) as [w2 r2]. destruct Hr2 as (? & _ & _ & Hkeep). exists w2. cbn [fst]. auto. }
  destruct (CredDeleteW_spec (wide UNPROTECTED_CREDENTIAL_TARGET) w2) as [Hun3 Hnp3].
  destruct (CredDeleteW _ w2) as [w3 r3]. cbn [fst snd] in *.
  assert (∀ p, fs_lookup w3 p = fs_lookup w2 p) as Hw3 by (intros p; apply Hun3; set_solver).
  destruct r3 as [[]|code|]; [| |done]; rewrite !Hw3, Hset2; (split; [done|]); [done|].
  by destruct (code =? ERROR_NOT_FOUND).
Qed.

Lemma copies_and_set directory (w : W) :
  let '(w', r) := (do! _ := remove_unprotected_copies directory in read_pairing_set directory) w in
  fs_lookup w' (set_path directory) = fs_lookup w (set_path directory) ∧
  match r with
  | Ok stored => fs_lookup w' (directory ++ [UNPROTECTED_COPY_FILE]) = None ∧
      match stored with
      | None => fs_lookup w' (set_path directory) = None
      | Some blob => fs_lookup w' (set_path directory) ≫= crypt_plain = Some blob
      end
  | Err _ => True
  | Panic => False
  end.
Proof.
  unfold act_bind. pose proof (remove_unprotected_copies_spec directory w) as Hr.
  destruct (remove_unprotected_copies directory w) as [w1 [[]|e|]]; destruct Hr as (Hset & Hnp & Hcopy); [|done..].
  pose proof (read_pairing_set_spec directory w1) as Hs. destruct (read_pairing_set directory w1) as [w2 r].
  destruct Hs as [Hun Hs]. assert (∀ p, fs_lookup w2 p = fs_lookup w1 p) as Hw2 by (intros p; apply Hun; set_solver).
  rewrite !Hw2. split; [done|]. destruct r as [stored|e|]; [|done..]. split; [by apply Hcopy|]. done.
Qed.

Lemma stored_set directory stored (w : W) :
  match stored with
  | None => fs_lookup w (set_path directory) = None
  | Some blob => fs_lookup w (set_path directory) ≫= crypt_plain = Some blob
  end →
  let answer := match stored with
                | Some blob => map_err (λ _, Cse_InvalidStoredPairing) (decode_pairing_records blob)
                | None => Ok PairingSet_default
                end in
  (∃ set, answer = Ok set ∧ stored_records directory w = Some (ps_records set)) ∨
  (answer = Err Cse_InvalidStoredPairing ∧ stored_records directory w = None).
Proof.
  unfold stored_records. destruct stored as [blob|]; [|intros ->; by left; eexists].
  destruct (fs_lookup w (set_path directory)) as [file|]; [|done]. cbn. intros ->. cbn.
  pose proof (decode_pairing_records_no_panic blob). destruct (decode_pairing_records blob) as [set|e|]; [left|right|done]; cbn; eauto.
Qed.
End protected_lemmas.

(** ** Properties *)

(** C20: every change of the store on disk is made to what the disk holds and
    written before it is reported. When an insertion, update or removal succeeds,
    the file of the set was readable, holds the change applied to what it held, and
    the process's records are that; when it fails, the file holds what it held. A
    set that cannot be read is refused, never overwritten. *)
Theorem pairing_change_written_through `{Rapp} `{!RappLaws} `{CertificateDecoder} {W : Type} `{!Windows W}
  `{!WindowsLaws W} (change : list PairingRecord → result StoreError (list PairingRecord)) (s : ProtectedPairingStore) :
  (∃ record, PairingRecord_wf record ∧ change = λ records, Ok (without_pairing (pair_id record) records ++ [record])) ∨
  (∃ p f, keeps_pairing f ∧ change = λ records, ok_or (update_pairing p f records) Ste_Unknown) ∨
  (∃ p, change = remove_record p) →
  let '(s', r) := store_change change s in
  match r with
  | Ok _ => ∃ records, stored_records (pps_directory s) (pps_world s) = Some records ∧
      change records = Ok (pps_records s') ∧ stored_records (pps_directory s) (pps_world s') = Some (pps_records s')
  | Err _ => fs_lookup (pps_world s') (set_path (pps_directory s)) = fs_lookup (pps_world s) (set_path (pps_directory s))
  | Panic => False
  end.
Proof.
  intros Hchange. assert (sound_change change) as Hsound.
  { destruct Hchange as [(r & Hr & ->)|[(p & f & Hf & ->)|[p ->]]];
      [by apply insert_sound|by apply update_sound|apply remove_sound]. }
  pose proof (store_change_spec change s Hsound) as Hspec. destruct (store_change change s) as [s' [[]|e|]]; tauto.
Qed.

(** Loading the store either refuses and leaves the file of the set as it
    is when that cannot be read, or yields records that are what the file now says,
    all of them records this computer could have written, with no unprotected copy
    left in the directory. *)
Theorem load_from_consistent `{Rapp} `{!RappLaws} `{CertificateDecoder} {W : Type} `{!Windows W} `{!WindowsLaws W}
  (directory : path) now (w : W) :
  let '(w', r) := load_from directory now w in
  match r with
  | Ok s => pps_directory s = directory ∧ pps_world s = w' ∧ stored_records directory w ≠ None ∧
      stored_records directory w' = Some (pps_records s) ∧ Forall PairingRecord_wf (pps_records s) ∧
      fs_lookup w' (directory ++ [UNPROTECTED_COPY_FILE]) = None
  | Err _ => stored_records directory w = None →
      fs_lookup w' (set_path directory) = fs_lookup w (set_path directory)
  | Panic => False
  end.
Proof.
  pose proof (copies_and_set directory w) as Hread. unfold load_from.
  destruct ((do! _ := remove_unprotected_copies directory in read_pairing_set directory) w) as [w1 r1].
  destruct Hread as (Hset & Hread). destruct r1 as [stored|e|]; [|done..]. destruct Hread as [Hcopy Hread].
  destruct (stored_set directory stored w1 Hread) as [(set & Hdec & Hst)|[-> _]]; [|by intros _].
  rewrite Hdec. pose proof (stored_records_untouched directory _ _ Hset) as Hsame.
  pose proof (read_sightings_untouched directory w1) as Hun. destruct (read_sightings directory w1) as [w2 sightings]. cbn [fst] in Hun.
  set (s0 := mkProtectedPairingStore (ps_records set) sightings directory w2).
  assert (pps_ok s0) as Hok0 by (unfold pps_ok; cbn; by rewrite (untouched_stored _ [] _ _ Hun)).
  assert (kept w1 s0 directory) as Hk0.
  { split; [done|]. split; [by apply pps_ok_wf|]. eapply untouched_copies; [exact Hun|constructor]. }
  destruct (load_changes now w1 s0 directory Hk0) as (s1 & removed & expired & Hrun & Hk1 & Hnil). rewrite Hrun.
  rewrite Hst in Hsame. destruct (_ || _ || _) eqn:Hwrite.
  - destruct Hk1 as (Hdir & Hwf & Hc). pose proof (persist_spec s1 Hwf) as Hp. pose proof (persist_copies s1) as Hpc.
    destruct (persist s1) as [s2 [[]|e|]]; destruct Hp as (Hdir2 & Hrec2 & _ & Hnp & Hp); [| |done].
    + rewrite Hdir in *. split; [congruence|]. split; [done|]. split; [congruence|]. rewrite Hrec2. split; [done|].
      split; [done|]. cbn [fst] in Hpc. by rewrite Hpc, Hc.
    + congruence.
  - rewrite !orb_false_iff, !negb_false_iff, !bool_decide_eq_true in Hwrite. destruct Hwrite as [[-> ->] _].
    rewrite (Hnil eq_refl eq_refl). split; [done|]. split; [done|]. split; [congruence|]. split; [exact Hok0|].
    split; [by apply pps_ok_wf|]. destruct Hk0 as (_ & _ & Hc). by rewrite Hc.
Qed.

(** ** A concrete system *)

(** Files in memory; DPAPI marks a blob with one octet; the writes whose numbers
    are listed fail. *)
Module disk.
Record disk := mk { files : list (path * bytes); written : Z; failing : list Z }.
Definition set_files (fs : list (path * bytes)) (d : disk) : disk := mk fs (written d) (failing d).

Fixpoint look_up (fs : list (path * bytes)) (p : path) : option bytes :=
  match fs with
  | [] => None
  | (q, bs) :: fs => if decide (q = p) then Some bs else look_up fs p
  end.
Fixpoint drop_file (p : path) (fs : list (path * bytes)) : list (path * bytes) :=
  match fs with
  | [] => []
  | (q, bs) :: fs => if decide (q = p) then drop_file p fs else (q, bs) :: drop_file p fs
  end.

Definition write_new (p : path) (bs : bytes) : act disk IoErrorKind unit := λ d,
  let n := written d in
  let d := mk (files d) (n + 1) (failing d) in
  if bool_decide (n ∈ failing d) then (d, Err (Io_Other 112))
  else match look_up (files d) p with
       | Some _ => (d, Err (Io_Other 80))
       | None => (set_files ((p, bs) :: files d) d, Ok tt)
       end.
Definition rename (p q : path) : act disk IoErrorKind unit := λ d,
  match look_up (files d) p with
  | None => (d, Err Io_NotFound)
  | Some bs => (set_files ((q, bs) :: drop_file q (drop_file p (files d))) d, Ok tt)
  end.
Definition remove_file (p : path) : act disk IoErrorKind unit := λ d,
  match look_up (files d) p with
  | None => (d, Err Io_NotFound)
  | Some _ => (set_files (drop_file p (files d)) d, Ok tt)
  end.
Definition names_in (p : path) (fs : list (path * bytes)) : list bytes :=
  omap (λ f, match reverse f.1 with name :: d => if decide (reverse d = p) then Some name else None | [] => None end) fs.

Lemma look_drop p q fs : look_up (drop_file p fs) q = if decide (q = p) then None else look_up fs q.
Proof.
  induction fs as [|[p' bs] fs IH]; [by case_decide|]. cbn. destruct (decide (p' = p)); cbn; rewrite IH;
    repeat case_decide; congruence.
Qed.

#[export] Instance disk_windows : Windows disk := {|
  fs_lookup d := look_up (files d);
  crypt_plain blob := match blob with 0xD9 :: bs => Some bs | _ => None end;
  fs_create_dir_all _ := act_ret tt;
  fs_write_new := write_new; fs_rename := rename; fs_remove_file := remove_file;
  fs_remove_dir_all p := λ d, (set_files (filter (λ f, ¬ (take (length p) f.1 = p)) (files d)) d, Ok tt);
  fs_read p := λ d, (d, ok_or (look_up (files d) p) Io_NotFound);
  fs_read_dir p := λ d, (d, Ok (names_in p (files d)));
  writes_fetch_add d := (d, written d);
  process_id _ := 7;
  CryptProtectData bs := act_ret (0xD9 :: bs);
  CryptUnprotectData blob := act_lift (ok_or (match blob with 0xD9 :: bs => Some bs | _ => None end) 13);
  env_var_os _ _ := Some [[0x43]];
  CredDeleteW _ := act_err ERROR_NOT_FOUND;
|}.

#[export] Instance disk_laws : WindowsLaws disk.
Proof.
  refine {| fs_create_dir_all_spec := _ |}; cbn.
  - done.
  - intros p bs w. unfold write_new. cbn. case_bool_decide; [done|]. destruct (look_up (files w) p) eqn:Hl; [done|].
    split; [|by cbn; rewrite decide_True]. intros q Hq. cbn. rewrite decide_False; [done|]. set_solver.
  - intros p q w. unfold rename. destruct (look_up (files w) p) as [bs|] eqn:Hl; [|done]. split; [done|].
    split; [|done]. intros _. split; [|by cbn; rewrite decide_True]. intros x Hx. cbn.
    rewrite decide_False, !look_drop, !decide_False; set_solver.
  - intros p w. unfold remove_file. destruct (look_up (files w) p) as [bs|]; [|done]. split; [|done].
    intros q Hq. cbn. rewrite look_drop, decide_False; [done|]. set_solver.
  - intros p w. unfold remove_file. destruct (look_up (files w) p) as [bs|] eqn:Hl; [|by auto]. cbn.
    rewrite look_drop, decide_True by done. auto.
  - intros p w. destruct (look_up (files w) p) as [bs|]; cbn; [|by auto]. split; [done|]. split; [done|]. naive_solver.
  - done.
  - done.
  - intros bs w. split; [done|]. split; [done|]. naive_solver.
  - intros blob w. split; [by destruct (match blob with 0xD9 :: bs => Some bs | _ => None end)|].
    destruct (match blob with 0xD9 :: bs => Some bs | _ => None end) as [bs|]; cbn; [|done].
    split; [done|]. naive_solver.
  - done.
Qed.
End disk.

Section disk_witnesses.
Import engine disk.

#[local] Instance accepting_certificates : CertificateDecoder := λ _, true.

Definition user_directory : path := [[0x55]].
Definition phone (p : Z * Z) (confirmed : bool) : PairingRecord :=
  PairingRecord_new (engine.mk p true true confirmed None 0) [105; 79; 83].

(** The disk after the set was written; the listed writes to come fail. *)
Definition disk_with (records : list PairingRecord) (failing : list Z) : disk :=
  match encode_pairing_records records with
  | Ok blob => disk.mk [(set_path user_directory, 0xD9 :: blob)] 0 failing
  | _ => disk.mk [] 0 failing
  end.

Definition one_pairing (p : Z * Z) (confirmed : bool) (d : disk) : ProtectedPairingStore :=
  mkProtectedPairingStore [phone p confirmed] [] user_directory d.

(** The process knows one pairing; another process has stored a second. *)
Lemma pairing_change_written_through_witness :
  let s := one_pairing (1, 2) true (disk_with [phone (1, 2) true; phone (3, 4) true] []) in
  let p : PairId := (1, 2) in
  ((∃ record, PairingRecord_wf record ∧ remove_record p = λ records, Ok (without_pairing (pair_id record) records ++ [record])) ∨
   (∃ p f, keeps_pairing f ∧ remove_record p = λ records, ok_or (update_pairing p f records) Ste_Unknown) ∨
   (∃ p', remove_record p = remove_record p')) ∧
  let '(s', r) := store_change (remove_record p) s in
  match r with
  | Ok _ => ∃ records, stored_records (pps_directory s) (pps_world s) = Some records ∧
      remove_record p records = Ok (pps_records s') ∧ stored_records (pps_directory s) (pps_world s') = Some (pps_records s')
  | Err _ => fs_lookup (pps_world s') (set_path (pps_directory s)) = fs_lookup (pps_world s) (set_path (pps_directory s))
  | Panic => False
  end.
Proof.
  cbv zeta. split; [right; right; by eexists|]. apply pairing_change_written_through. right; right. by eexists.
Defined.

Lemma load_from_consistent_witness :
  let d := disk_with [phone (1, 2) false; phone (3, 4) true] [] in
  let '(w', r) := load_from user_directory 0 d in
  match r with
  | Ok s => pps_directory s = user_directory ∧ pps_world s = w' ∧ stored_records user_directory d ≠ None ∧
      stored_records user_directory w' = Some (pps_records s) ∧ Forall PairingRecord_wf (pps_records s) ∧
      fs_lookup w' (user_directory ++ [UNPROTECTED_COPY_FILE]) = None
  | Err _ => stored_records user_directory d = None →
      fs_lookup w' (set_path user_directory) = fs_lookup d (set_path user_directory)
  | Panic => False
  end.
Proof. cbv zeta. apply load_from_consistent. Defined.

Example other_process_kept :
  let s := one_pairing (1, 2) true (disk_with [phone (1, 2) true; phone (3, 4) true] []) in
  (pps_remove (1, 2) s).2 = Ok tt ∧ map pair_id (pps_records (pps_remove (1, 2) s).1) = [(3, 4)].
Proof. by split; vm_compute. Qed.

(** [load_from] with two records that never were confirmed: when the write of
    the first removal fails, the next removal reads the set again and puts the
    record back, and the final write stores it. *)
Lemma load_keeps_unconfirmed_after_failed_write :
  let '(d, r) := load_from user_directory 0 (disk_with [phone (1, 2) false; phone (3, 4) false] [0]) in
  match r with
  | Ok s => map (λ r, (pair_id r, pairing_state r)) (pps_records s) = [((3, 4), Pst_Unconfirmed)] ∧
      stored_records user_directory d = Some (pps_records s)
  | _ => False
  end.
Proof. by vm_compute. Qed.

(** Without a failing write both are gone, and with one record the final write
    makes up for it. *)
Example load_removes_unconfirmed :
  result_map pps_records (load_from user_directory 0 (disk_with [phone (1, 2) false; phone (3, 4) false] [])).2 = Ok [] ∧
  result_map pps_records (load_from user_directory 0 (disk_with [phone (1, 2) false] [0])).2 = Ok [].
Proof. by split; vm_compute. Qed.
End disk_witnesses.
