(* ===== verification/View.v ===== *)
(** The requester's view of its custodian:
    crates/refineid-rapp-core/src/view.rs. The process-wide map of views is a
    [gmap] from the octets of a pair identifier; every function of the file is a
    step on it. The redial window is a constant of the protocol crate and stays a
    parameter. *)

From S2P Require Import Prelude.

Inductive ViewState :=
| Vs_Idle
| Vs_Connecting (window_opened_ms : option Z)
| Vs_Connected
| Vs_Withdrawn.
#[export] Instance ViewState_eq_dec : EqDecision ViewState.
Proof. solve_decision. Defined.

Record CustodianView := mkCustodianView { cv_state : ViewState; cv_in_sight : gset string }.
Definition CustodianView_new : CustodianView := mkCustodianView Vs_Idle ∅.
Definition set_state (s : ViewState) (v : CustodianView) : CustodianView := mkCustodianView s (cv_in_sight v).

(** The enum of the protocol crate, as the [match] of [session_ended] lists it. *)
Inductive RequesterSessionEnd := Rse_Withdrawn | Rse_Violation | Rse_Revoked | Rse_Loss.
#[export] Instance RequesterSessionEnd_eq_dec : EqDecision RequesterSessionEnd.
Proof. solve_decision. Defined.

(** The map behind the mutex, by the octets of the pair identifier. *)
Abbreviation Views := (gmap bytes CustodianView).

Definition with_view {A} (pair_id : bytes) (change : CustodianView → CustodianView * A) (vs : Views)
  : Views * A :=
  let '(view, a) := change (default CustodianView_new (vs !! pair_id)) in (<[pair_id := view]> vs, a).

Definition state (pair_id : bytes) (vs : Views) : ViewState :=
  from_option cv_state Vs_Idle (vs !! pair_id).

Definition is_withdrawn (pair_id : bytes) (vs : Views) : bool :=
  bool_decide (state pair_id vs = Vs_Withdrawn).

Definition look (pair_id : bytes) (sightings : gset string) : Views → Views * bool :=
  with_view pair_id (λ view,
    let appeared := existsb (λ seen, negb (bool_decide (seen ∈ cv_in_sight view))) (elements sightings) in
    let view := mkCustodianView (cv_state view) sightings in
    let view := if appeared && negb (bool_decide (cv_state view = Vs_Connected))
                then set_state (Vs_Connecting None) view else view in
    (view, appeared)).

Definition withdrawn_record_matched (pair_id : bytes) : Views → Views * unit :=
  with_view pair_id (λ view,
    (if negb (bool_decide (cv_state view = Vs_Connected)) then set_state Vs_Withdrawn view else view, tt)).

(** [u64::saturating_sub]: the difference of 64 bits, or zero when it borrows. *)
Definition saturating_sub (a b : Z) : Z := if a <? b then 0 else (a - b) mod 2 ^ 64.
Lemma saturating_sub_u64 a b : is_u64 a → is_u64 b → saturating_sub a b = Z.max 0 (a - b).
Proof.
  unfold is_u64, saturating_sub. intros Ha Hb. destruct (Z.ltb_spec a b); [lia|]. rewrite Z.mod_small; [lia|]. change (2 ^ 64) with 18446744073709551616. lia.
Qed.

Section window.
Context (REDIAL_WINDOW_MS : Z).

Definition dial_admitted (pair_id : bytes) (now_ms : Z) (consumer_asked : bool) : Views → Views * bool :=
  with_view pair_id (λ view,
    match cv_state view with
    | Vs_Withdrawn => (view, false)
    | Vs_Connected | Vs_Connecting None => (view, true)
    | Vs_Connecting (Some opened_ms) =>
        if saturating_sub now_ms opened_ms <? REDIAL_WINDOW_MS then (view, true)
        else
          let view := set_state Vs_Idle view in
          let view := if consumer_asked then set_state (Vs_Connecting None) view else view in
          (view, consumer_asked)
    | Vs_Idle =>
        let view := if consumer_asked then set_state (Vs_Connecting None) view else view in
        (view, consumer_asked)
    end).

Definition dial_failed (pair_id : bytes) (now_ms : Z) : Views → Views * unit :=
  with_view pair_id (λ view,
    match cv_state view with
    | Vs_Connecting window_opened_ms =>
        let opened_ms := default now_ms window_opened_ms in
        if saturating_sub now_ms opened_ms >=? REDIAL_WINDOW_MS then (set_state Vs_Idle view, tt)
        else (set_state (Vs_Connecting (Some opened_ms)) view, tt)
    | _ => (view, tt)
    end).

Definition session_opened (pair_id : bytes) : Views → Views * unit :=
  with_view pair_id (λ view, (set_state Vs_Connected view, tt)).

Definition session_closed_here (pair_id : bytes) : Views → Views * unit :=
  with_view pair_id (λ view, (set_state Vs_Idle view, tt)).

Definition session_ended (pair_id : bytes) (ended : RequesterSessionEnd) (now_ms : Z) (vs : Views)
  : Views * unit :=
  if decide (ended = Rse_Revoked) then (delete pair_id vs, tt)
  else
    with_view pair_id (λ view,
      (set_state match ended with
                 | Rse_Withdrawn => Vs_Withdrawn
                 | Rse_Violation | Rse_Revoked => Vs_Idle
                 | Rse_Loss => Vs_Connecting (Some now_ms)
                 end view, tt)) vs.

Definition pairing_left (pair_id : bytes) (vs : Views) : Views * unit := (delete pair_id vs, tt).

(** ** Events *)

Inductive ViewEvent :=
| Ve_Look (sightings : gset string)
| Ve_WithdrawnMatched
| Ve_Dial (now_ms : Z) (consumer_asked : bool)
| Ve_DialFailed (now_ms : Z)
| Ve_Opened
| Ve_ClosedHere
| Ve_Ended (ended : RequesterSessionEnd) (now_ms : Z)
| Ve_Left.

Definition view_step (pair_id : bytes) (e : ViewEvent) (vs : Views) : Views :=
  match e with
  | Ve_Look sightings => (look pair_id sightings vs).1
  | Ve_WithdrawnMatched => (withdrawn_record_matched pair_id vs).1
  | Ve_Dial now_ms asked => (dial_admitted pair_id now_ms asked vs).1
  | Ve_DialFailed now_ms => (dial_failed pair_id now_ms vs).1
  | Ve_Opened => (session_opened pair_id vs).1
  | Ve_ClosedHere => (session_closed_here pair_id vs).1
  | Ve_Ended ended now_ms => (session_ended pair_id ended now_ms vs).1
  | Ve_Left => (pairing_left pair_id vs).1
  end.

Definition view_run (es : list (bytes * ViewEvent)) (vs : Views) : Views :=
  foldl (λ vs e, view_step e.1 e.2 vs) vs es.

(** An automatic attempt, with no consumer behind it: the dial is asked for and,
    when it is admitted, fails. *)
Definition failing_attempt (pair_id : bytes) (asked_at failed_at : Z) (vs : Views) : Views :=
  let '(vs, admitted) := dial_admitted pair_id asked_at false vs in
  if admitted then (dial_failed pair_id failed_at vs).1 else vs.

Fixpoint failing_attempts (pair_id : bytes) (asked failed : nat → Z) (n : nat) (vs : Views) : Views :=
  match n with
  | O => vs
  | S n => failing_attempt pair_id (asked n) (failed n) (failing_attempts pair_id asked failed n vs)
  end.

(** ** Lemmas: one step, as seen through [state] *)

Lemma state_with_view {A} p (change : CustodianView → CustodianView * A) vs :
  state p (with_view p change vs).1 = cv_state (change (default CustodianView_new (vs !! p))).1.
Proof.
  unfold with_view. destruct (change _) as [view a]. unfold state. cbn [fst].
  by rewrite lookup_insert_eq.
Qed.

Lemma state_with_view_ne {A} p q (change : CustodianView → CustodianView * A) vs :
  p ≠ q → state q (with_view p change vs).1 = state q vs.
Proof.
  intros Hne. unfold with_view. destruct (change _) as [view a]. unfold state. cbn [fst].
  by rewrite lookup_insert_ne.
Qed.

Lemma state_default p vs : cv_state (default CustodianView_new (vs !! p)) = state p vs.
Proof. unfold state. by destruct (vs !! p). Qed.

Lemma with_view_value {A} p (change : CustodianView → CustodianView * A) vs :
  (with_view p change vs).2 = (change (default CustodianView_new (vs !! p))).2.
Proof. unfold with_view. by destruct (change _). Qed.

(** No step on one pairing touches the view of another. *)
Lemma view_step_other p q e vs : p ≠ q → state q (view_step p e vs) = state q vs.
Proof.
  intros Hne. destruct e; cbn [view_step]; try (by apply state_with_view_ne).
  - unfold session_ended. case_decide; [|by apply state_with_view_ne]. cbn [fst]. unfold state. by rewrite lookup_delete_ne.
  - unfold pairing_left, state. cbn [fst]. by rewrite lookup_delete_ne.
Qed.

(** The dial: what it answers and where it leaves the view. *)
Lemma dial_admitted_cases p now asked vs :
  let '(vs', admitted) := dial_admitted p now asked vs in
  match state p vs with
  | Vs_Withdrawn => admitted = false ∧ state p vs' = Vs_Withdrawn
  | Vs_Connected => admitted = true ∧ state p vs' = Vs_Connected
  | Vs_Connecting None => admitted = true ∧ state p vs' = Vs_Connecting None
  | Vs_Connecting (Some opened) =>
      if saturating_sub now opened <? REDIAL_WINDOW_MS
      then admitted = true ∧ state p vs' = Vs_Connecting (Some opened)
      else admitted = asked ∧ state p vs' = if asked then Vs_Connecting None else Vs_Idle
  | Vs_Idle => admitted = asked ∧ state p vs' = if asked then Vs_Connecting None else Vs_Idle
  end.
Proof.
  destruct (dial_admitted p now asked vs) as [vs' admitted] eqn:Hdial.
  assert (vs' = (dial_admitted p now asked vs).1 ∧ admitted = (dial_admitted p now asked vs).2) as [-> ->] by by rewrite Hdial.
  unfold dial_admitted. rewrite state_with_view, with_view_value. rewrite <- (state_default p vs).
  destruct (default _ _) as [[|[opened|]| |] sight]; cbn [cv_state]; try done.
  - by destruct asked.
  - destruct (saturating_sub now opened <? _); [done|]. by destruct asked.
Qed.

Lemma dial_failed_state p now vs :
  state p (dial_failed p now vs).1 =
  match state p vs with
  | Vs_Connecting window =>
      if saturating_sub now (default now window) >=? REDIAL_WINDOW_MS then Vs_Idle
      else Vs_Connecting (Some (default now window))
  | s => s
  end.
Proof.
  unfold dial_failed. rewrite state_with_view. rewrite <- (state_default p vs).
  destruct (default _ _) as [[|window| |] sight]; cbn [cv_state]; try done.
  by destruct (_ >=? _).
Qed.

(** Neither dialing nor in a session. *)
Definition at_rest (s : ViewState) : Prop := s = Vs_Idle ∨ s = Vs_Withdrawn.

Lemma dial_at_rest p now vs :
  at_rest (state p vs) →
  (dial_admitted p now false vs).2 = false ∧ state p (dial_admitted p now false vs).1 = state p vs.
Proof.
  intros Hrest. pose proof (dial_admitted_cases p now false vs) as Hc.
  destruct (dial_admitted p now false vs) as [vs' a]. cbn [fst snd].
  destruct Hrest as [Hs|Hs]; rewrite Hs in *; naive_solver.
Qed.

Lemma failing_attempt_at_rest p asked_at failed_at vs :
  at_rest (state p vs) → state p (failing_attempt p asked_at failed_at vs) = state p vs.
Proof.
  intros Hrest. destruct (dial_at_rest p asked_at vs Hrest) as [Ha Hs]. unfold failing_attempt.
  destruct (dial_admitted p asked_at false vs) as [vs' a]. cbn [fst snd] in *. by subst a.
Qed.

(** The times a view holds are u64s. *)
Definition time_ok (v : ViewState) : Prop := match v with Vs_Connecting (Some opened_ms) => is_u64 opened_ms | _ => True end.

(** An attempt before the window is over keeps its opening time; one past it ends it. *)
Lemma failing_attempt_window p asked_at failed_at vs opened :
  is_u64 asked_at → is_u64 failed_at → is_u64 opened → state p vs = Vs_Connecting (Some opened) →
  let s := state p (failing_attempt p asked_at failed_at vs) in
  (s = Vs_Connecting (Some opened) ∨ s = Vs_Idle) ∧ (opened + Z.max 0 REDIAL_WINDOW_MS ≤ asked_at → s = Vs_Idle) ∧
  (asked_at < opened + REDIAL_WINDOW_MS → failed_at < opened + REDIAL_WINDOW_MS → 0 < REDIAL_WINDOW_MS →
   (dial_admitted p asked_at false vs).2 = true ∧ s = Vs_Connecting (Some opened)).
Proof.
  intros Ha Hf Ho Hs. pose proof (dial_admitted_cases p asked_at false vs) as Hc. unfold failing_attempt.
  destruct (dial_admitted p asked_at false vs) as [vs' a]. rewrite Hs, saturating_sub_u64 in Hc by done. cbn [snd].
  destruct (Z.ltb_spec (Z.max 0 (asked_at - opened)) REDIAL_WINDOW_MS) as [Hlt|Hge]; destruct Hc as [-> Hs'].
  - rewrite dial_failed_state, Hs'. cbn [default from_option id]. rewrite saturating_sub_u64 by done. split; [destruct (_ >=? _); auto|]. split; [lia|].
    intros Hb Hb' Hw. split; [done|]. destruct (Z.geb_spec (Z.max 0 (failed_at - opened)) REDIAL_WINDOW_MS); [lia|done].
  - split; [auto|]. split; [done|]. lia.
Qed.

Lemma failing_attempt_first p asked_at failed_at vs :
  is_u64 failed_at → state p vs = Vs_Connecting None →
  (dial_admitted p asked_at false vs).2 = true ∧
  state p (failing_attempt p asked_at failed_at vs) = if 0 <? REDIAL_WINDOW_MS then Vs_Connecting (Some failed_at) else Vs_Idle.
Proof.
  intros Hf Hs. pose proof (dial_admitted_cases p asked_at false vs) as Hc. unfold failing_attempt.
  destruct (dial_admitted p asked_at false vs) as [vs' a]. rewrite Hs in Hc. destruct Hc as [-> Hs']. split; [done|].
  rewrite dial_failed_state, Hs'. cbn [default from_option id]. rewrite saturating_sub_u64 by done. rewrite Z.sub_diag.
  destruct (Z.geb_spec (Z.max 0 0) REDIAL_WINDOW_MS), (Z.ltb_spec 0 REDIAL_WINDOW_MS); (done || lia).
Qed.

Section attempts.
Context (p : bytes) (asked failed : nat → Z) (vs : Views).
Abbreviation after n := (state p (failing_attempts p asked failed n vs)).
Context (Hasked : ∀ n, is_u64 (asked n)) (Hfailed : ∀ n, is_u64 (failed n)).

Lemma attempts_at_rest n m : at_rest (after n) → (n ≤ m)%nat → after m = after n.
Proof.
  intros Hrest. induction 1 as [|m _ IH]; [done|]. cbn [failing_attempts].
  rewrite failing_attempt_at_rest; [done|by rewrite IH].
Qed.

(** Once the window is open: still open before its end, at rest after it. *)
Lemma attempts_window k opened n : after k = Vs_Connecting (Some opened) → is_u64 opened → (k ≤ n)%nat →
  (after n = Vs_Connecting (Some opened) ∨ after n = Vs_Idle) ∧
  (opened + Z.max 0 REDIAL_WINDOW_MS ≤ asked n → after (S n) = Vs_Idle) ∧
  (0 < REDIAL_WINDOW_MS → (∀ i, (k ≤ i < n)%nat → asked i < opened + REDIAL_WINDOW_MS ∧ failed i < opened + REDIAL_WINDOW_MS) →
   after n = Vs_Connecting (Some opened)).
Proof.
  intros Hk Ho. assert (∀ n, (k ≤ n)%nat → after n = Vs_Connecting (Some opened) ∨ after n = Vs_Idle) as Hstay.
  { induction 1 as [|m Hkm IH]; [by left|]. cbn [failing_attempts]. destruct IH as [IH|IH].
    - by destruct (failing_attempt_window p (asked m) (failed m) _ _ (Hasked m) (Hfailed m) Ho IH).
    - right. rewrite failing_attempt_at_rest; [done|by left]. }
  intros Hkn. split; [by apply Hstay|]. split.
  - intros Hover. cbn [failing_attempts]. destruct (Hstay n Hkn) as [Hs|Hs].
    + by apply (failing_attempt_window p (asked n) (failed n) _ _ (Hasked n) (Hfailed n) Ho Hs).
    + rewrite failing_attempt_at_rest; [done|by left].
  - intros Hw. induction Hkn as [|m Hkm IH]; [done|]. intros Hin. cbn [failing_attempts].
    destruct (Hin m) as [Ha Hf]; [lia|]. apply (failing_attempt_window p (asked m) (failed m) _ _ (Hasked m) (Hfailed m) Ho); [|done..].
    apply IH. intros i Hi. apply Hin. lia.
Qed.
End attempts.

(** What gives a withdrawn custodian back: an appearance, or the end or the
    beginning of a session, or the pairing leaving. *)
Fixpoint announced (p : bytes) (es : list (bytes * ViewEvent)) (vs : Views) : bool :=
  match es with
  | [] => false
  | (q, e) :: es =>
      bool_decide (q = p) &&
        match e with
        | Ve_Look sightings => (look p sightings vs).2
        | Ve_Opened | Ve_ClosedHere | Ve_Ended _ _ | Ve_Left => true
        | Ve_WithdrawnMatched | Ve_Dial _ _ | Ve_DialFailed _ => false
        end
      || announced p es (view_step q e vs)
  end.

Lemma look_state p sightings vs :
  state p (look p sightings vs).1 =
  if (look p sightings vs).2 && negb (bool_decide (state p vs = Vs_Connected)) then Vs_Connecting None else state p vs.
Proof.
  unfold look. rewrite state_with_view, with_view_value, <- (state_default p vs). cbn [fst snd cv_state].
  by destruct (_ && _).
Qed.

Lemma withdrawn_step p e vs :
  state p vs = Vs_Withdrawn → announced p [(p, e)] vs = false → state p (view_step p e vs) = Vs_Withdrawn.
Proof.
  cbn [announced]. rewrite bool_decide_true, orb_false_r by done. cbn [andb].
  intros Hs. destruct e as [sightings| |now a|now| | |ended now|]; cbn [view_step]; try done.
  - intros Hl. by rewrite look_state, Hl.
  - intros _. unfold withdrawn_record_matched. rewrite state_with_view. pose proof (state_default p vs) as Hd.
    rewrite Hs in Hd. rewrite Hd. by rewrite bool_decide_false.
  - intros _. pose proof (dial_admitted_cases p now a vs) as Hc. destruct (dial_admitted p now a vs).
    rewrite Hs in Hc. by destruct Hc.
  - intros _. by rewrite dial_failed_state, Hs.
Qed.

Lemma withdrawn_run p es vs :
  state p vs = Vs_Withdrawn → announced p es vs = false → state p (view_run es vs) = Vs_Withdrawn.
Proof.
  unfold view_run. revert vs. induction es as [|[q e] es IH]; intros vs Hs; [done|]. cbn [announced foldl fst snd].
  intros [Hstep Hrest]%orb_false_iff. apply IH; [|done]. destruct (decide (q = p)) as [->|Hne].
  - apply withdrawn_step; [done|]. cbn [announced]. by rewrite orb_false_r.
  - by rewrite view_step_other.
Qed.
End window.

(** ** Properties *)

(** C17: redialing a lost phone lasts as long as its window and ends with it. The window of
    a view that is connecting opens when the connection was lost, or else when the first
    attempt failed. For clock readings of 64 bits: while every reading is before its end,
    each automatic attempt is admitted; after the first that asks at its end or later the
    view rests, no further attempt is admitted, and none is ever again without a consumer. *)
Theorem redialing_ends window p (asked failed : nat → Z) vs lost :
  (∀ n, is_u64 (asked n)) → (∀ n, is_u64 (failed n)) → time_ok (state p vs) → 0 < window → state p vs = Vs_Connecting lost →
  let opened := default (failed 0%nat) lost in
  let after := λ n, failing_attempts window p asked failed n vs in
  (∀ n, (∀ i, (i < n)%nat → asked i < opened + window ∧ failed i < opened + window) → asked n < opened + window →
    (dial_admitted window p (asked n) false (after n)).2 = true) ∧
  (∀ n, (0 < n)%nat ∨ is_Some lost → opened + window ≤ asked n →
    ∀ m, (n < m)%nat → state p (after m) = Vs_Idle ∧ ∀ now, (dial_admitted window p now false (after m)).2 = false).
Proof.
  intros Ha Hf Hok Hw Hs opened after.
  assert (is_u64 opened ∧ ∃ k, (k ≤ 1)%nat ∧ (is_Some lost → k = 0%nat) ∧ state p (after k) = Vs_Connecting (Some opened) ∧
    (k = 1%nat → ∀ now, (dial_admitted window p now false vs).2 = true)) as (Ho & k & Hk1 & Hk0 & Hk & Hfirst).
  { destruct lost as [lost|]; cbn in opened.
    - rewrite Hs in Hok. split; [done|]. exists 0%nat. split; [lia|]. by split_and!.
    - split; [apply Hf|]. exists 1%nat. split; [lia|]. split; [by intros []|]. cbn [after failing_attempts].
      split; [|intros _ now; by apply (failing_attempt_first window p now (failed 0%nat) vs (Hf 0%nat) Hs)].
      destruct (failing_attempt_first window p (asked 0%nat) (failed 0%nat) vs (Hf 0%nat) Hs) as [_ ->]. by destruct (Z.ltb_spec 0 window); [|lia]. }
  split.
  - intros n Hin Hn. destruct (decide (k ≤ n)%nat) as [Hkn|Hkn].
    + destruct (attempts_window window p asked failed vs Ha Hf k opened n Hk Ho Hkn) as (_ & _ & Hopen).
      pose proof (dial_admitted_cases window p (asked n) false (after n)) as Hc. specialize (Hopen Hw ltac:(intros i Hi; apply Hin; lia)). unfold after in *.
      destruct (dial_admitted _ _ _ _ _) as [vs' a]. rewrite Hopen, saturating_sub_u64 in Hc by done.
      destruct (Z.ltb_spec (Z.max 0 (asked n - opened)) window); [by destruct Hc|lia].
    + assert (n = 0%nat) as -> by lia. apply Hfirst. lia.
  - intros n Hpos Hn m Hm. assert (k ≤ n)%nat as Hkn by (destruct Hpos as [|Hsome]; [lia|rewrite Hk0 by done; lia]).
    destruct (attempts_window window p asked failed vs Ha Hf k opened n Hk Ho Hkn) as (_ & Hover & _). specialize (Hover ltac:(lia)).
    assert (state p (after m) = Vs_Idle) as Hidle.
    { rewrite <- Hover. apply attempts_at_rest; [rewrite Hover; by left|lia]. }
    split; [done|]. intros now. apply dial_at_rest. by left.
Qed.

Definition lost_view : Views := <[[7] := mkCustodianView (Vs_Connecting (Some 100)) ∅]> ∅.

Lemma redialing_ends_witness :
  let clock := λ i, Z.min (30000 * Z.of_nat i) 300000 in
  (dial_admitted 60000 [7] (clock 2%nat) false (failing_attempts 60000 [7] clock clock 2 lost_view)).2 = true ∧
  ∀ m, (3 < m)%nat → state [7] (failing_attempts 60000 [7] clock clock m lost_view) = Vs_Idle.
Proof.
  intros clock. assert (∀ n, is_u64 (clock n)) as Hc by (intros n; unfold is_u64, clock; lia).
  destruct (redialing_ends 60000 [7] clock clock lost_view (Some 100) Hc Hc ltac:(by by_decide) ltac:(lia) eq_refl) as [Hin Hout]. split.
  - apply (Hin 2%nat); [|by vm_compute]. intros i Hi. unfold clock. cbn. lia.
  - intros m Hm. apply (Hout 3%nat); [lia|by vm_compute|done].
Defined.

(** After a withdrawal nothing is dialed, for a consumer or without one,
    until the phone appears anew or a session of this pairing opens or ends:
    looks that show nothing new, dials, failures and every event of another
    pairing leave the refusal in place. *)
Theorem withdrawn_until_announced window p es vs now asked :
  is_withdrawn p vs → announced window p es vs = false →
  is_withdrawn p (view_run window es vs) ∧ (dial_admitted window p now asked (view_run window es vs)).2 = false.
Proof.
  unfold is_withdrawn. rewrite bool_decide_spec. intros Hs Hes. pose proof (withdrawn_run window p es vs Hs Hes) as Hrun.
  split; [by rewrite bool_decide_spec|]. pose proof (dial_admitted_cases window p now asked (view_run window es vs)) as Hc.
  destruct (dial_admitted _ _ _ _ _) as [vs' a]. rewrite Hrun in Hc. by destruct Hc.
Qed.

Definition withdrawn_views : Views := <[[7] := mkCustodianView Vs_Withdrawn {["phone"%string]}]> ∅.
Definition withdrawn_events : list (bytes * ViewEvent) :=
  [([7], Ve_Look {["phone"%string]}); ([8], Ve_Opened); ([7], Ve_Dial 5 true); ([7], Ve_DialFailed 9)].

Lemma withdrawn_until_announced_witness :
  announced 60000 [7] withdrawn_events withdrawn_views = false ∧
  is_withdrawn [7] (view_run 60000 withdrawn_events withdrawn_views) ∧
  (dial_admitted 60000 [7] 12 true (view_run 60000 withdrawn_events withdrawn_views)).2 = false.
Proof.
  split; [by vm_compute|]. apply withdrawn_until_announced; [by vm_compute|by vm_compute].
Defined.
