(* ===== verification/Curve.v ===== *)
(** The curve brainpoolP384r1: crates/refineid-lib-core/src/crypto/brainpool_p384.rs.
    A [U384] is an integer below 2^384; the Montgomery form of the crypto-bigint crate
    is the class [MontyForm], arithmetic modulo the field prime. The affine formulas
    are those of the source; the theorems are that they stay on the curve, that
    [scalar_mul] is double-and-add on the value of the scalar, and that the SEC1
    coding inverts. *)

From Stdlib Require Import Ring.
From S2P Require Import Prelude Weierstrass.

(** ** Parameters (RFC 5639) *)

Definition P_HEX : Z := 0x8CB91E82A3386D280F5D6F7E50E641DF152F7109ED5456B412B1DA197FB71123ACD3A729901D1A71874700133107EC53.
Definition A_HEX : Z := 0x7BC382C63D8C150C3C72080ACE05AFA0C2BEA28E4FB22787139165EFBA91F90F8AA5814A503AD4EB04A8C7DD22CE2826.
Definition B_HEX : Z := 0x04A8C7DD22CE28268B39B55416F0447C2FB77DE107DCD2A62E880EA53EEB62D57CB4390295DBC9943AB78696FA504C11.
Definition G_X_HEX : Z := 0x1D1C64F068CF45FFA2A63A81B7C13F6B8847A3E77EF14FE3DB7FCAFE0CBD10E8E826E03436D646AAEF87B2E247D4AF1E.
Definition G_Y_HEX : Z := 0x8ABE1D7520F9C2A45CB1EB8E95CFD55262B70B29FEEC5864E19C054FF99129280E4646217791811142820341263C5315.
Definition N_HEX : Z := 0x8CB91E82A3386D280F5D6F7E50E641DF152F7109ED5456B31F166E6CAC0425A7CF3AB6AF6B7FC3103B883202E9046565.

Definition U384_BYTES : nat := 48.
Definition is_u384 (x : Z) : Prop := 0 ≤ x < 2 ^ 384.
Definition U384_from_be_slice (bs : bytes) : Z := be_fold bs.
Definition U384_to_be_bytes (x : Z) : bytes := to_be U384_BYTES x.

(** ** The Montgomery form: an element of the field *)

Class MontyForm := {
  Fe : Type;
  fe : Z → Fe;
  Fe_retrieve : Fe → Z;
  Fe_add : Fe → Fe → Fe;
  Fe_sub : Fe → Fe → Fe;
  Fe_mul : Fe → Fe → Fe;
  Fe_square : Fe → Fe;
  Fe_neg : Fe → Fe;
  Fe_invert : Fe → option Fe;
}.

Class MontyFormLaws `{MontyForm} := {
  retrieve_fe x : Fe_retrieve (fe x) = x mod P_HEX;
  retrieve_mod x : Fe_retrieve x mod P_HEX = Fe_retrieve x;
  retrieve_add x y : Fe_retrieve (Fe_add x y) = (Fe_retrieve x + Fe_retrieve y) mod P_HEX;
  retrieve_sub x y : Fe_retrieve (Fe_sub x y) = (Fe_retrieve x - Fe_retrieve y) mod P_HEX;
  retrieve_mul x y : Fe_retrieve (Fe_mul x y) = (Fe_retrieve x * Fe_retrieve y) mod P_HEX;
  retrieve_square x : Fe_retrieve (Fe_square x) = (Fe_retrieve x * Fe_retrieve x) mod P_HEX;
  retrieve_neg x : Fe_retrieve (Fe_neg x) = (- Fe_retrieve x) mod P_HEX;
  retrieve_invert x i : Fe_invert x = Some i → (Fe_retrieve i * Fe_retrieve x) mod P_HEX = 1;
}.

Section curve.
Context `{MontyForm}.

Definition fe_three : Fe := fe 3.
Definition fe_a : Fe := fe A_HEX.
Definition fe_b : Fe := fe B_HEX.

(** ** Points *)

(** [None] is the point at infinity. *)
Record AffinePoint := mkAffinePoint { coords : option (Z * Z) }.
#[export] Instance AffinePoint_eq_dec : EqDecision AffinePoint.
Proof. solve_decision. Defined.

Definition AffinePoint_INFINITY : AffinePoint := mkAffinePoint None.
Definition AffinePoint_generator : AffinePoint := mkAffinePoint (Some (G_X_HEX, G_Y_HEX)).
Definition is_infinity (p : AffinePoint) : bool := bool_decide (coords p = None).

Definition is_on_curve (p : AffinePoint) : bool :=
  match coords p with
  | None => true
  | Some (x_u, y_u) =>
      let x := fe x_u in
      let y := fe y_u in
      let lhs := Fe_square y in
      let rhs := Fe_add (Fe_add (Fe_mul (Fe_square x) x) (Fe_mul fe_a x)) fe_b in
      Fe_retrieve lhs =? Fe_retrieve rhs
  end.

Definition SEC1_UNCOMPRESSED_TAG : Z := 0x04.
Definition encode_uncompressed (p : AffinePoint) : option bytes :=
  '(x, y) ← coords p;
  Some ([SEC1_UNCOMPRESSED_TAG] ++ U384_to_be_bytes x ++ U384_to_be_bytes y).

Definition decode_uncompressed (bs : bytes) : option AffinePoint :=
  if negb (len bs =? 97) then None
  else
    first ← head bs;
    if negb (first =? SEC1_UNCOMPRESSED_TAG) then None
    else
      xs ← slice 1 49 bs;
      ys ← slice 49 97 bs;
      let pt := mkAffinePoint (Some (U384_from_be_slice xs, U384_from_be_slice ys)) in
      if is_on_curve pt then Some pt else None.

Definition neg (p : AffinePoint) : AffinePoint :=
  match coords p with
  | None => AffinePoint_INFINITY
  | Some (x, y) => mkAffinePoint (Some (x, Fe_retrieve (Fe_neg (fe y))))
  end.

Definition double (p : AffinePoint) : AffinePoint :=
  match coords p with
  | None => AffinePoint_INFINITY
  | Some (x_u, y_u) =>
      let x := fe x_u in
      let y := fe y_u in
      let two_y := Fe_add y y in
      match Fe_invert two_y with
      | None => AffinePoint_INFINITY
      | Some two_y_inv =>
          let three_x_sq := Fe_mul (Fe_square x) fe_three in
          let lambda := Fe_mul (Fe_add three_x_sq fe_a) two_y_inv in
          let two_x := Fe_add x x in
          let x3 := Fe_sub (Fe_square lambda) two_x in
          let y3 := Fe_sub (Fe_mul lambda (Fe_sub x x3)) y in
          mkAffinePoint (Some (Fe_retrieve x3, Fe_retrieve y3))
      end
  end.

Definition add (p q : AffinePoint) : AffinePoint :=
  match coords p with
  | None => q
  | Some (x1_u, y1_u) =>
      match coords q with
      | None => p
      | Some (x2_u, y2_u) =>
          if x1_u =? x2_u then
            if y1_u =? y2_u then double p else AffinePoint_INFINITY
          else
            let x1 := fe x1_u in
            let y1 := fe y1_u in
            let x2 := fe x2_u in
            let y2 := fe y2_u in
            match Fe_invert (Fe_sub x2 x1) with
            | None => AffinePoint_INFINITY
            | Some dx_inv =>
                let lambda := Fe_mul (Fe_sub y2 y1) dx_inv in
                let x3 := Fe_sub (Fe_sub (Fe_square lambda) x1) x2 in
                let y3 := Fe_sub (Fe_mul lambda (Fe_sub x1 x3)) y1 in
                mkAffinePoint (Some (Fe_retrieve x3, Fe_retrieve y3))
            end
      end
  end.

(** The bits of an octet, the highest first. *)
Definition byte_bits (b : Z) : list bool := map (λ i, Z.land (Z.shiftr b i) 1 =? 1) [7; 6; 5; 4; 3; 2; 1; 0].

(** One round of the inner loop on [(result, started)]. *)
Definition scalar_mul_step (self : AffinePoint) (s : AffinePoint * bool) (bit : bool) : AffinePoint * bool :=
  let '(result, started) := s in
  let result := if started then double result else result in
  if bit then if started then (add result self, started) else (self, true) else (result, started).
Definition scalar_mul (self : AffinePoint) (scalar : Z) : AffinePoint :=
  (fold_left (scalar_mul_step self) (flat_map byte_bits (U384_to_be_bytes scalar)) (AffinePoint_INFINITY, false)).1.
End curve.

(** ** Lemmas: the Montgomery form is a commutative ring *)

Definition fe_eq `{MontyForm} (x y : Fe) : Prop := Fe_retrieve x = Fe_retrieve y.
#[export] Instance fe_eq_equivalence `{MontyForm} : Equivalence fe_eq.
Proof. split; unfold fe_eq; [intros x; done|intros x y; done|intros x y z; congruence]. Qed.

Section field.
Context `{MontyForm} `{!MontyFormLaws}.
Local Infix "≡f" := fe_eq (at level 70).

#[export] Instance Fe_add_proper : Proper (fe_eq ==> fe_eq ==> fe_eq) Fe_add.
Proof. intros x x' Hx y y' Hy. unfold fe_eq in *. rewrite !retrieve_add. congruence. Qed.
#[export] Instance Fe_sub_proper : Proper (fe_eq ==> fe_eq ==> fe_eq) Fe_sub.
Proof. intros x x' Hx y y' Hy. unfold fe_eq in *. rewrite !retrieve_sub. congruence. Qed.
#[export] Instance Fe_mul_proper : Proper (fe_eq ==> fe_eq ==> fe_eq) Fe_mul.
Proof. intros x x' Hx y y' Hy. unfold fe_eq in *. rewrite !retrieve_mul. congruence. Qed.
#[export] Instance Fe_neg_proper : Proper (fe_eq ==> fe_eq) Fe_neg.
Proof. intros x x' Hx. unfold fe_eq in *. rewrite !retrieve_neg. congruence. Qed.
#[export] Instance Fe_square_proper : Proper (fe_eq ==> fe_eq) Fe_square.
Proof. intros x x' Hx. unfold fe_eq in *. rewrite !retrieve_square. congruence. Qed.

Lemma Fe_square_mul x : Fe_square x ≡f Fe_mul x x.
Proof. unfold fe_eq. by rewrite retrieve_square, retrieve_mul. Qed.
Lemma fe_of_retrieve x : fe (Fe_retrieve x) ≡f x.
Proof. unfold fe_eq. by rewrite retrieve_fe, retrieve_mod. Qed.
Lemma fe_eq_mod x y : fe x ≡f fe y ↔ x mod P_HEX = y mod P_HEX.
Proof. unfold fe_eq. by rewrite !retrieve_fe. Qed.
Lemma Fe_invert_spec x i : Fe_invert x = Some i → Fe_mul i x ≡f fe 1.
Proof. intros Hi%retrieve_invert. unfold fe_eq. by rewrite retrieve_mul, retrieve_fe, Hi. Qed.
Lemma retrieve_canonical x : 0 ≤ Fe_retrieve x < P_HEX.
Proof. rewrite <- retrieve_mod. by apply Z.mod_pos_bound. Qed.
Lemma retrieve_u384 x : is_u384 (Fe_retrieve x).
Proof. pose proof (retrieve_canonical x). unfold is_u384. assert (P_HEX < 2 ^ 384) by done. lia. Qed.

Lemma Fe_ring : ring_theory (fe 0) (fe 1) Fe_add Fe_mul Fe_sub Fe_neg fe_eq.
Proof.
  split; intros; unfold fe_eq;
    rewrite ?retrieve_mul, ?retrieve_add, ?retrieve_sub, ?retrieve_neg, ?retrieve_mul, ?retrieve_add, ?retrieve_fe, ?retrieve_neg,
      ?Zplus_mod_idemp_l, ?Zplus_mod_idemp_r, ?Zmult_mod_idemp_l, ?Zmult_mod_idemp_r.
  all: try (f_equal; lia).
  all: by rewrite ?Z.mod_0_l, ?Z.mod_1_l, ?Z.add_0_l, ?Z.mul_1_l, retrieve_mod by done.
Qed.

Add Ring Fe_field : Fe_ring (setoid fe_eq_equivalence {| Radd_ext := Fe_add_proper; Rmul_ext := Fe_mul_proper; Ropp_ext := Fe_neg_proper |}).
Local Infix "+f" := Fe_add (at level 50, left associativity).
Local Infix "-f" := Fe_sub (at level 50, left associativity).
Local Infix "*f" := Fe_mul (at level 40, left associativity).

(** The right side of the curve equation, and the equation. *)
Definition cubic (x : Fe) : Fe := Fe_square x *f x +f fe_a *f x +f fe_b.
Definition on_curve (x y : Fe) : Prop := Fe_square y ≡f cubic x.

#[export] Instance on_curve_proper : Proper (fe_eq ==> fe_eq ==> iff) on_curve.
Proof. intros x x' Hx y y' Hy. unfold on_curve, cubic. by rewrite Hx, Hy. Qed.

Lemma is_on_curve_spec x y : is_on_curve (mkAffinePoint (Some (x, y))) ↔ on_curve (fe x) (fe y).
Proof. unfold is_on_curve. cbn. rewrite Is_true_true. by rewrite Z.eqb_eq. Qed.

Lemma Fe_ring_ext : ring_eq_ext Fe_add Fe_mul Fe_neg fe_eq.
Proof. split; [exact Fe_add_proper|exact Fe_mul_proper|exact Fe_neg_proper]. Qed.
Lemma on_curve_weierstrass x y :
  on_curve x y ↔ weierstrass (radd := Fe_add) (rmul := Fe_mul) (req := fe_eq) fe_a fe_b x y.
Proof. unfold on_curve, cubic, weierstrass. by rewrite !Fe_square_mul. Qed.

(** The chord. *)
Lemma chord_on_curve x1 y1 x2 y2 i :
  on_curve x1 y1 → on_curve x2 y2 → i *f (x2 -f x1) ≡f fe 1 →
  let l := (y2 -f y1) *f i in
  let x3 := Fe_square l -f x1 -f x2 in on_curve x3 (l *f (x1 -f x3) -f y1).
Proof.
  intros H1%on_curve_weierstrass H2%on_curve_weierstrass Hi l x3. assert (x3 ≡f l *f l -f x1 -f x2) as -> by (subst x3; by rewrite Fe_square_mul).
  apply on_curve_weierstrass. refine (chord Fe_ring Fe_ring_ext _ _ x1 y1 x2 y2 l i H1 H2 Hi _).
  transitivity ((y2 -f y1) *f (i *f (x2 -f x1))); [subst l; ring|]. rewrite Hi. ring.
Qed.

(** The tangent. *)
Lemma tangent_on_curve x y i :
  on_curve x y → i *f (y +f y) ≡f fe 1 →
  let l := (Fe_square x *f fe_three +f fe_a) *f i in
  let x3 := Fe_square l -f (x +f x) in on_curve x3 (l *f (x -f x3) -f y).
Proof.
  intros H1%on_curve_weierstrass Hi l x3.
  assert (x3 ≡f l *f l -f x -f x) as -> by (subst x3; rewrite Fe_square_mul; ring).
  apply on_curve_weierstrass. refine (tangent Fe_ring Fe_ring_ext _ _ x y l H1 _).
  transitivity ((Fe_square x *f fe_three +f fe_a) *f (i *f (y +f y))); [subst l; ring|]. rewrite Hi, Fe_square_mul.
  assert (fe_three ≡f fe 1 +f fe 1 +f fe 1) as -> by (unfold fe_eq, fe_three; rewrite !retrieve_add, !retrieve_fe; reflexivity).
  ring.
Qed.
End field.

(** ** Lemmas: the operations on points *)

Section points.
Context `{MontyForm} `{!MontyFormLaws}.

Lemma neg_on_curve p : is_on_curve p → is_on_curve (neg p).
Proof.
  destruct p as [[[x y]|]]; [|done]. unfold neg. cbn [coords]. rewrite !is_on_curve_spec, fe_of_retrieve.
  unfold on_curve. intros <-. unfold fe_eq. rewrite !retrieve_square, retrieve_neg.
  rewrite Zmult_mod_idemp_l, Zmult_mod_idemp_r. f_equal. lia.
Qed.

Lemma double_on_curve p : is_on_curve p → is_on_curve (double p).
Proof.
  destruct p as [[[x y]|]]; [|done]. unfold double. cbn [coords]. rewrite is_on_curve_spec.
  destruct (Fe_invert _) as [i|] eqn:Hi; [|done]. apply Fe_invert_spec in Hi. intros Hp.
  rewrite is_on_curve_spec, !fe_of_retrieve. by apply tangent_on_curve.
Qed.

Lemma add_on_curve p q : is_on_curve p → is_on_curve q → is_on_curve (add p q).
Proof.
  destruct p as [[[x1 y1]|]]; [|done]. destruct q as [[[x2 y2]|]]; [|done]. intros Hp Hq. unfold add. cbn [coords].
  destruct (x1 =? x2); [destruct (y1 =? y2); [by apply double_on_curve|done]|].
  rewrite is_on_curve_spec in Hp, Hq. destruct (Fe_invert _) as [i|] eqn:Hi; [|done]. apply Fe_invert_spec in Hi.
  rewrite is_on_curve_spec, !fe_of_retrieve. by apply chord_on_curve.
Qed.

Lemma generator_on_curve : is_on_curve AffinePoint_generator.
Proof.
  apply is_on_curve_spec. unfold on_curve, cubic, fe_eq, fe_a, fe_b.
  rewrite ?retrieve_add, ?retrieve_mul, ?retrieve_square, ?retrieve_fe, ?retrieve_mul, ?retrieve_square, ?retrieve_fe.
  by vm_compute.
Qed.

(** ** Double-and-add *)

Fixpoint multiple (k : positive) (p : AffinePoint) : AffinePoint :=
  match k with
  | xH => p
  | xO k => double (multiple k p)
  | xI k => add (double (multiple k p)) p
  end.
Definition times (k : Z) (p : AffinePoint) : AffinePoint :=
  match k with Zpos k => multiple k p | _ => AffinePoint_INFINITY end.

Definition bits_value (bits : list bool) (v : Z) : Z := fold_left (λ v bit, 2 * v + Z.b2z bit) bits v.

Lemma scalar_mul_bits p bits v :
  0 ≤ v →
  fold_left (scalar_mul_step p) bits (times v p, 0 <? v) = (times (bits_value bits v) p, 0 <? bits_value bits v).
Proof.
  revert v. induction bits as [|bit bits IH]; intros v Hv; [done|]. cbn [fold_left bits_value]. rewrite <- IH by (destruct bit; cbn; lia).
  f_equal. destruct v as [|v|v], bit; (done || lia).
Qed.

Lemma byte_bits_value b v : is_byte b → bits_value (byte_bits b) v = 256 * v + b.
Proof.
  intros Hb. transitivity (256 * v + bits_value (byte_bits b) 0); [unfold bits_value, byte_bits; cbn [map fold_left]; lia|].
  f_equal. apply Z.eqb_eq. revert b Hb. apply byte_forall. by vm_compute.
Qed.

Lemma bytes_bits_value bs v :
  bytes_ok bs → bits_value (flat_map byte_bits bs) v = foldl (λ acc b, Z.lor (Z.shiftl acc 8) b) v bs.
Proof.
  intros Hbs. revert v. induction Hbs as [|b bs Hb _ IH]; intros v; [done|]. cbn [flat_map foldl].
  unfold bits_value. rewrite fold_left_app. fold (bits_value (byte_bits b) v).
  rewrite byte_bits_value by done. fold (bits_value (flat_map byte_bits bs) (256 * v + b)). rewrite IH.
  f_equal. rewrite lor_shiftl8 by done. lia.
Qed.

Lemma scalar_bits_value k : is_u384 k → bits_value (flat_map byte_bits (to_be U384_BYTES k)) 0 = k.
Proof.
  assert (∀ bs, bytes_ok bs → bits_value (flat_map byte_bits bs) 0 = be_fold bs) as Hbs by (intros; by apply bytes_bits_value).
  intros Hk. rewrite Hbs by apply to_be_bytes_ok. rewrite be_fold_to_be by apply Hk. by apply Z.mod_small.
Qed.

Lemma scalar_mul_times p k : is_u384 k → scalar_mul p k = times k p.
Proof.
  intros Hk. unfold scalar_mul, U384_to_be_bytes.
  pose proof (scalar_bits_value k Hk) as Hv. remember (flat_map byte_bits (to_be U384_BYTES k)) as bits eqn:Hbits. clear Hbits.
  pose proof (scalar_mul_bits p bits 0 ltac:(lia)) as Hb. change (times 0 p, 0 <? 0) with (AffinePoint_INFINITY, false) in Hb.
  rewrite Hb, Hv. done.
Qed.

Lemma times_on_curve k p : is_on_curve p → is_on_curve (times k p).
Proof.
  intros Hp. destruct k as [|k|k]; [done| |done]. cbn [times].
  induction k as [k IH|k IH|]; cbn [multiple]; [apply add_on_curve; [by apply double_on_curve|done]|by apply double_on_curve|done].
Qed.

(** Coordinates that fit their 48 octets. *)
Definition u384_coords (p : AffinePoint) : Prop :=
  match coords p with Some (x, y) => is_u384 x ∧ is_u384 y | None => True end.

Lemma double_u384 p : u384_coords (double p).
Proof.
  unfold double. destruct (coords p) as [[x y]|]; [|done]. destruct (Fe_invert _); [|done]. split; apply retrieve_u384.
Qed.

Lemma add_u384 p q : u384_coords p → u384_coords q → u384_coords (add p q).
Proof.
  intros Hp Hq. unfold add. destruct (coords p) as [[x1 y1]|] eqn:Hcp; [|done]. destruct (coords q) as [[x2 y2]|]; [|done].
  destruct (x1 =? x2); [destruct (y1 =? y2); [apply double_u384|done]|]. destruct (Fe_invert _); [|done]. split; apply retrieve_u384.
Qed.

Lemma times_u384 k p : u384_coords p → u384_coords (times k p).
Proof.
  intros Hp. destruct k as [|k|k]; [done| |done]. cbn [times].
  induction k as [k IH|k IH|]; cbn [multiple]; [apply add_u384; [apply double_u384|done]|apply double_u384|done].
Qed.

(** ** The SEC1 coding *)

Arguments U384_to_be_bytes _ : simpl never.
Arguments U384_from_be_slice _ : simpl never.

Definition u384_point (p : AffinePoint) : Prop :=
  match coords p with Some (x, y) => is_u384 x ∧ is_u384 y | None => False end.

Lemma U384_roundtrip x : is_u384 x → U384_from_be_slice (U384_to_be_bytes x) = x.
Proof. intros Hx. unfold U384_from_be_slice, U384_to_be_bytes. rewrite be_fold_to_be by apply Hx. by apply Z.mod_small. Qed.

Lemma decode_encode p bs : u384_point p → is_on_curve p → encode_uncompressed p = Some bs → decode_uncompressed bs = Some p.
Proof.
  destruct p as [[[x y]|]]; [|done]. intros [Hx Hy] Hp Henc. unfold encode_uncompressed in Henc. cbn [coords mbind option_bind] in Henc.
  apply Some_inj in Henc as <-. unfold decode_uncompressed.
  set (xs := U384_to_be_bytes x). set (ys := U384_to_be_bytes y).
  assert (length xs = 48%nat ∧ length ys = 48%nat) as [Hxs Hys] by (unfold xs, ys, U384_to_be_bytes; by rewrite !length_to_be).
  assert (slice 1 49 ([SEC1_UNCOMPRESSED_TAG] ++ xs ++ ys) = Some xs) as -> by (apply slice_app_exact; cbn; lia).
  assert (slice 49 97 ([SEC1_UNCOMPRESSED_TAG] ++ xs ++ ys) = Some ys) as ->.
  { pose proof (slice_app_exact 49 97 ([SEC1_UNCOMPRESSED_TAG] ++ xs) ys [] ltac:(cbn; lia) ltac:(cbn; lia)) as Hs.
    by rewrite app_nil_r, <- app_assoc in Hs. }
  assert (len ([SEC1_UNCOMPRESSED_TAG] ++ xs ++ ys) = 97) as -> by (unfold len; rewrite !length_app; cbn; lia).
  cbn [Z.eqb negb head app mbind option_bind Pos.eqb SEC1_UNCOMPRESSED_TAG].
  unfold xs, ys. rewrite !U384_roundtrip by done. by rewrite (Is_true_true_1 _ Hp).
Qed.

Lemma decode_inv bs p :
  bytes_ok bs → decode_uncompressed bs = Some p → is_on_curve p ∧ u384_point p ∧ encode_uncompressed p = Some bs.
Proof.
  intros Hbs. unfold decode_uncompressed. destruct (Z.eqb_spec (len bs) 97) as [Hlen|]; [|done]. cbn [negb].
  destruct bs as [|b bs]; [done|]. cbn [head mbind option_bind]. destruct (Z.eqb_spec b SEC1_UNCOMPRESSED_TAG) as [->|]; [|done]. cbn [negb].
  destruct (slice 1 49 _) as [xs|] eqn:Hxs; [|done]. cbn [mbind option_bind]. destruct (slice 49 97 _) as [ys|] eqn:Hys; [|done]. cbn [mbind option_bind].
  destruct (is_on_curve _) eqn:Hon; [|done]. intros [= <-]. split; [by rewrite Hon|].
  apply slice_Some in Hxs as [_ Hxs], Hys as [_ Hys]. cbn [drop Nat.sub skipn] in Hxs, Hys.
  assert (length bs = 96%nat) as Hl by (unfold len in Hlen; cbn [length] in Hlen; lia).
  assert (bs = xs ++ ys) as Hbs'.
  { subst xs ys. rewrite <- (take_drop 48 bs) at 1. f_equal. symmetry. apply take_ge. rewrite length_drop. lia. }
  assert (length xs = U384_BYTES ∧ length ys = U384_BYTES) as [Hlx Hly].
  { subst xs ys. rewrite !length_take, ?length_drop. unfold U384_BYTES. lia. }
  apply Forall_cons_1 in Hbs as [_ Hbs]. rewrite Hbs' in Hbs. apply Forall_app in Hbs as [Hbx Hby].
  split.
  - split; unfold is_u384, U384_from_be_slice.
    + pose proof (be_fold_nonneg xs Hbx) as Hr. by rewrite Hlx in Hr.
    + pose proof (be_fold_nonneg ys Hby) as Hr. by rewrite Hly in Hr.
  - unfold encode_uncompressed, U384_to_be_bytes, U384_from_be_slice. cbn [coords mbind option_bind].
    rewrite <- Hlx at 1. rewrite to_be_be_fold by done. rewrite <- Hly, to_be_be_fold by done. by rewrite Hbs'.
Qed.
End points.

(** ** Properties *)

(** C23: the operations on points stay on the curve: from points on it, negation,
    doubling and addition give points on it, with coordinates below the prime, and
    [scalar_mul] is exactly double-and-add on the binary digits of any 384-bit scalar,
    whatever its leading zeros. *)
Theorem curve_operations_closed `{MontyForm} `{!MontyFormLaws} p q k :
  is_on_curve p → is_on_curve q → is_u384 k →
  is_on_curve AffinePoint_generator ∧ is_on_curve (neg p) ∧ is_on_curve (double p) ∧ is_on_curve (add p q) ∧
  is_on_curve (scalar_mul p k) ∧ scalar_mul p k = times k p ∧
  (∀ x y, coords (double p) = Some (x, y) → 0 ≤ x < P_HEX ∧ 0 ≤ y < P_HEX).
Proof.
  intros Hp Hq Hk. split; [apply generator_on_curve|]. split; [by apply neg_on_curve|]. split; [by apply double_on_curve|].
  split; [by apply add_on_curve|]. rewrite scalar_mul_times by done. split; [by apply times_on_curve|]. split; [done|].
  intros x y. unfold double. destruct (coords p) as [[x0 y0]|]; [|done]. destruct (Fe_invert _); [|done].
  intros [= <- <-]. split; apply retrieve_canonical.
Qed.

(** The SEC1 decoder accepts exactly the uncompressed encodings of points that
    satisfy the curve equation: no other octet string yields a point, so no point off
    the curve reaches the key agreement, and what it yields encodes to what was read. *)
Theorem sec1_decoder_exact `{MontyForm} `{!MontyFormLaws} bs p :
  bytes_ok bs →
  decode_uncompressed bs = Some p ↔ is_on_curve p ∧ u384_point p ∧ encode_uncompressed p = Some bs.
Proof.
  intros Hbs. split; [by apply decode_inv|]. intros (Hp & Hu & Henc). by eapply decode_encode.
Qed.

(** ** A concrete Montgomery form: residues, inverted by the binary Euclidean
    algorithm *)

Module residues.
Definition halve (x : Z) : Z := if Z.even x then Z.div2 x else Z.div2 (x + P_HEX).
Definition reduced (x : Z) : Z := if x <? 0 then x + P_HEX else x.
(** [a x = u] and [b x = v] modulo the prime. *)
Fixpoint binary_inverse (fuel : nat) (u v a b : Z) : Z :=
  match fuel with
  | O => 0
  | S fuel =>
      if u =? 1 then a else if v =? 1 then b
      else if Z.even u then binary_inverse fuel (Z.div2 u) v (halve a) b
      else if Z.even v then binary_inverse fuel u (Z.div2 v) a (halve b)
      else if v <=? u then binary_inverse fuel (u - v) v (reduced (a - b)) b
      else binary_inverse fuel u (v - u) a (reduced (b - a))
  end.
Definition invert (x : Z) : option Z :=
  let i := binary_inverse 1600 x P_HEX 1 0 mod P_HEX in
  if (i * x) mod P_HEX =? 1 then Some i else None.

#[export] Instance residues_form : MontyForm := {|
  Fe := Z; fe x := x mod P_HEX; Fe_retrieve x := x mod P_HEX;
  Fe_add x y := (x + y) mod P_HEX; Fe_sub x y := (x - y) mod P_HEX; Fe_mul x y := (x * y) mod P_HEX;
  Fe_square x := (x * x) mod P_HEX; Fe_neg x := (- x) mod P_HEX; Fe_invert := invert |}.

#[export] Instance residues_laws : MontyFormLaws.
Proof.
  split; cbn [Fe_retrieve fe Fe_add Fe_sub Fe_mul Fe_square Fe_neg Fe_invert Fe residues_form].
  - intros x. apply Zmod_mod.
  - intros x. apply Zmod_mod.
  - intros x y. by rewrite Zmod_mod, <- Zplus_mod.
  - intros x y. by rewrite Zmod_mod, <- Zminus_mod.
  - intros x y. by rewrite Zmod_mod, <- Zmult_mod.
  - intros x. by rewrite Zmod_mod, <- Zmult_mod.
  - intros x. by rewrite Zmod_mod, <- !Z.sub_0_l, <- Zminus_mod_idemp_r.
  - intros x i. unfold invert. set (j := binary_inverse _ _ _ _ _ mod P_HEX).
    destruct (Z.eqb_spec ((j * x) mod P_HEX) 1) as [Hj|]; [|done]. intros [= <-]. by rewrite <- Zmult_mod.
Qed.
End residues.

Section curve_witnesses.
Import residues.

(** The tests of the source, on the concrete form. *)
Example generator_laws :
  let g := AffinePoint_generator in
  neg (neg g) = g ∧ add g (neg g) = AffinePoint_INFINITY ∧ add g g = double g ∧
  scalar_mul g 3 = add (double g) g ∧ is_on_curve (double g) = true.
Proof. repeat split; by vm_compute. Qed.

Lemma curve_operations_closed_witness :
  let g := AffinePoint_generator in
  (is_on_curve g ∧ is_on_curve (neg g) ∧ is_u384 6) ∧
  is_on_curve AffinePoint_generator ∧ is_on_curve (neg g) ∧ is_on_curve (double g) ∧ is_on_curve (add g (neg g)) ∧
  is_on_curve (scalar_mul g 6) ∧ scalar_mul g 6 = times 6 g ∧
  (∀ x y, coords (double g) = Some (x, y) → 0 ≤ x < P_HEX ∧ 0 ≤ y < P_HEX).
Proof.
  cbv zeta. split; [split; [by vm_compute|split; [by vm_compute|by vm_compute]]|].
  apply (curve_operations_closed AffinePoint_generator (neg AffinePoint_generator) 6); by vm_compute.
Defined.

(** The generator with its first coordinate written above the prime. *)
Definition high_generator : bytes :=
  [SEC1_UNCOMPRESSED_TAG] ++ U384_to_be_bytes (G_X_HEX + P_HEX) ++ U384_to_be_bytes G_Y_HEX.

Lemma sec1_decoder_exact_witness :
  let p := mkAffinePoint (Some (G_X_HEX + P_HEX, G_Y_HEX)) in
  bytes_ok high_generator ∧
  (decode_uncompressed high_generator = Some p ↔
   is_on_curve p ∧ u384_point p ∧ encode_uncompressed p = Some high_generator).
Proof. split; [by repeat (constructor; [by vm_compute|])|]. apply sec1_decoder_exact. by repeat (constructor; [by vm_compute|]). Defined.

(** A point has more than one accepted encoding: coordinates at and above the
    prime are not refused. *)
Lemma coordinates_above_prime_accepted :
  option_map coords (decode_uncompressed high_generator) = Some (Some (G_X_HEX + P_HEX, G_Y_HEX)) ∧
  is_on_curve AffinePoint_generator = true ∧ P_HEX ≤ G_X_HEX + P_HEX ∧ (G_X_HEX + P_HEX) mod P_HEX = G_X_HEX.
Proof. repeat split; by vm_compute. Qed.
End curve_witnesses.
