(* ===== verification/Pace.v ===== *)
(** PACE with the CAN: crates/refineid-lib-core/src/pace.rs and pace/commands.rs,
    with the key derivation of crypto/symmetric.rs. The card and the random number
    generator are the two halves of the state. SHA-256 and the generator of the
    operating system are classes; the curve is Curve.v. The specification is a card
    that runs the other side of the protocol, [Picc]. *)

From S2P Require Import Prelude CryptoCrates Ber StatusWord Transport Apdu Pin SecureMessaging Curve.

(** ** The crates and the operating system *)


(** [getrandom::fill] for a buffer of so many octets. *)
Class OsRng (R : Type) := {
  rng_failure : Type;
  rng_fill : nat → act R rng_failure bytes;
}.
Arguments rng_failure R {_}.

Class OsRngLaws (R : Type) `{OsRng R} := {
  rng_fill_ok n r r' bs : rng_fill n r = (r', Ok bs) → length bs = n ∧ bytes_ok bs;
  rng_fill_no_panic n r : (rng_fill n r).2 ≠ Panic;
}.

(** ** Key derivation (crypto/symmetric.rs) *)

Inductive KdfParam := Kdf_Encryption | Kdf_Mac | Kdf_Password.
Definition KdfParam_as_u8 (c : KdfParam) : Z :=
  match c with Kdf_Encryption => 1 | Kdf_Mac => 2 | Kdf_Password => 3 end.
Definition kdf_aes256 `{Sha256Hash} (k : bytes) (c : KdfParam) : bytes :=
  sha256 (k ++ to_be 4 (KdfParam_as_u8 c)).

(** ** Commands (pace/commands.rs) *)

Definition CLA_CHAINED_GA : Z := 0x10.
Definition CLA_FINAL_GA : Z := 0x00.
Definition GA_INS : Z := 0x86.
Definition GA_P1 : Z := 0x00.
Definition GA_P2 : Z := 0x00.

Record GeneralAuthenticate := mkGeneralAuthenticate { ga_chain : bool; ga_payload : bytes }.
Definition GeneralAuthenticate_into_apdu {E} (c : GeneralAuthenticate) : result E CommandApdu :=
  if negb (len (ga_payload c) <=? 255) then Panic
  else
    let cla := if ga_chain c then CLA_CHAINED_GA else CLA_FINAL_GA in
    Ok (CommandApdu_new ([cla; GA_INS; GA_P1; GA_P2] ++ [len (ga_payload c)] ++ ga_payload c ++ [LE_AS_MUCH_AS_CARD_HAS])).

Definition MSE_AT_CLA : Z := 0x00.
Definition MSE_AT_INS : Z := 0x22.
Definition MSE_AT_P1 : Z := 0xC1.
Definition MSE_AT_P2 : Z := 0xA4.

Record MseSetAt := mkMseSetAt { msat_data : bytes }.
Definition MseSetAt_into_apdu {E} (c : MseSetAt) : result E CommandApdu :=
  if negb (len (msat_data c) <=? 255) then Panic
  else Ok (CommandApdu_new ([MSE_AT_CLA; MSE_AT_INS; MSE_AT_P1; MSE_AT_P2] ++ [len (msat_data c)] ++ msat_data c)).

(** ** Constants of pace.rs *)

Definition DynamicAuthData_TAG : Z := 0x7C.
Definition EncryptedNonce_TAG : Z := 0x80.
Definition MappingDataOut_TAG : Z := 0x82.
Definition KeyAgreeOut_TAG : Z := 0x84.
Definition AuthTokenOut_TAG : Z := 0x86.

Definition PASSWORD_REF_CAN : Z := 0x02.
Definition DOMAIN_REF_BRAINPOOL_P384_R1 : Z := 0x10.
Definition ZERO_IV : bytes := replicate 16 0.
Definition NONCE_LEN : Z := 16.

Definition TAG_MSE_MECHANISM : Z := 0x80.
Definition TAG_MSE_PASSWORD : Z := 0x83.
Definition TAG_MSE_DOMAIN : Z := 0x84.
Definition TAG_DYNAMIC_AUTH : Z := 0x7C.
Definition TAG_MAP_PCD_PUB : Z := 0x81.
Definition TAG_KA_PCD_PUB : Z := 0x83.
Definition TAG_AUTH_TOKEN_PCD : Z := 0x85.
Definition TAG_PK_DATA_OBJECT : Z := 0x7F49.
Definition TAG_ASN1_OID : Z := 0x06.
Definition TAG_PK_EC_POINT : Z := 0x86.

(** [0.4.0.127.0.7.2.2.4.2.4], the body of the object identifier. *)
Definition PACE_MECHANISM_OID : bytes := [0x04; 0x00; 0x7F; 0x00; 0x07; 0x02; 0x02; 0x04; 0x02; 0x04].

Inductive PaceError (TE RE : Type) :=
| Pace_Transport (e : TE)
| Pace_Ber (e : BerError)
| Pace_Sw (stage : string) (sw : Z)
| Pace_UnexpectedResponse (what : string)
| Pace_InvalidPoint
| Pace_AuthMismatch
| Pace_Random (e : RE).
Arguments Pace_Transport {TE RE} e.
Arguments Pace_Ber {TE RE} e.
Arguments Pace_Sw {TE RE} stage sw.
Arguments Pace_UnexpectedResponse {TE RE} what.
Arguments Pace_InvalidPoint {TE RE}.
Arguments Pace_AuthMismatch {TE RE}.
Arguments Pace_Random {TE RE} e.

Record PaceMidwayState := mkPaceMidwayState
  { mapped_g : AffinePoint; v_picc : AffinePoint; u_pcd : Z; u_pcd_pub : AffinePoint }.

(** ** The driver *)

Section pace.
Context `{CardTransport T E} `{OsRng R} `{MontyForm} `{AesCrypto} `{Sha256Hash}.
Abbreviation TE := (TransportDispatchError E).
Abbreviation PE := (PaceError TE (rng_failure R)).
Abbreviation pace A := (act (T * R) PE A).

Definition on_card {F A} (m : act T F A) : act (T * R) F A := λ s,
  let '(t, r) := m s.1 in ((t, s.2), r).
Definition on_rng {F A} (m : act R F A) : act (T * R) F A := λ s,
  let '(rng, r) := m s.2 in ((s.1, rng), r).

(** [transmit(..).map_err(PaceError::Transport)?] and the [is_ok] test that
    follows each of them. *)
Definition pace_step (stage : string) (apdu : bytes) : pace ResponseApdu :=
  do! r := on_card (act_map_err Pace_Transport (transmit apdu)) in
  if negb (ResponseApdu_is_ok r) then act_err (Pace_Sw stage (ResponseApdu_sw r)) else act_ret r.

Definition wrap_general_authenticate {F} (chain : bool) (payload : bytes) : result F bytes :=
  let? apdu := GeneralAuthenticate_into_apdu (mkGeneralAuthenticate chain payload) in
  Ok (CommandApdu_as_bytes apdu).

(** [BerTlv::<DynamicAuthData>::parse] and the inner object. *)
Definition dynamic_auth_object (tag : Z) (body : bytes) : result PE bytes :=
  let? outer := map_err Pace_Ber (BerTlv_parse DynamicAuthData_TAG body) in
  let? inner := map_err Pace_Ber (BerTlv_parse tag (any_value outer)) in
  Ok (any_value inner).

Definition set_authentication_template (password_ref : Z) : pace unit :=
  do! data := act_lift (let? enc := BerEncoder_push_tlv [] TAG_MSE_MECHANISM PACE_MECHANISM_OID in
                        let? enc := BerEncoder_push_tlv enc TAG_MSE_PASSWORD [password_ref] in
                        BerEncoder_push_tlv enc TAG_MSE_DOMAIN [DOMAIN_REF_BRAINPOOL_P384_R1]) in
  do! apdu := act_lift (MseSetAt_into_apdu (mkMseSetAt data)) in
  do! _ := pace_step "MSE:Set AT" (CommandApdu_as_bytes apdu) in
  act_ret tt.

Definition get_encrypted_nonce (can : Can) : pace bytes :=
  do! request_payload := act_lift (tlv TAG_DYNAMIC_AUTH []) in
  do! apdu := act_lift (wrap_general_authenticate true request_payload) in
  do! r := pace_step "GA-1 encrypted nonce" apdu in
  do! inner := act_lift (dynamic_auth_object EncryptedNonce_TAG (rsp_body r)) in
  if negb (len inner =? NONCE_LEN) then act_err (Pace_UnexpectedResponse "encrypted nonce wrong length")
  else
    let k_pi := kdf_aes256 (Can_as_bytes can) Kdf_Password in
    do! plaintext := act_lift (map_err (λ _, Pace_UnexpectedResponse "encrypted nonce not block-aligned")
                                 (aes256_cbc_decrypt_no_padding k_pi ZERO_IV inner)) in
    if negb (len plaintext =? NONCE_LEN) then act_err (Pace_UnexpectedResponse "decrypted nonce wrong length")
    else act_ret plaintext.

(** Rejection sampling: so many draws at most. *)
Fixpoint random_scalar_mod_n (fuel : nat) : act R PE Z :=
  match fuel with
  | O => act_lift Panic
  | S fuel =>
      do! buf := act_map_err Pace_Random (rng_fill 48) in
      let cand := U384_from_be_slice buf in
      if negb (cand =? 0) && (cand <? N_HEX) then act_ret cand else random_scalar_mod_n fuel
  end.

Definition scalar_from_nonce (s : bytes) : Z := U384_from_be_slice (replicate 32 0 ++ s).

(** One exchange of public keys: our point under [tag], the card's under
    [answer]. *)
Definition exchange_points (stage : string) (tag answer : Z) (point : AffinePoint) : pace AffinePoint :=
  do! pt := act_lift (ok_or (encode_uncompressed point) Pace_InvalidPoint) in
  do! payload := act_lift (let? inner := tlv tag pt in tlv TAG_DYNAMIC_AUTH inner) in
  do! apdu := act_lift (wrap_general_authenticate true payload) in
  do! r := pace_step stage apdu in
  do! card := act_lift (dynamic_auth_object answer (rsp_body r)) in
  act_lift (ok_or (decode_uncompressed card) Pace_InvalidPoint).

Definition map_nonce_and_key_agreement (fuel : nat) (nonce_s : bytes) : pace PaceMidwayState :=
  do! x_pcd := on_rng (random_scalar_mod_n fuel) in
  let x_pcd_pub := scalar_mul AffinePoint_generator x_pcd in
  do! y_picc := exchange_points "GA-2 map nonce" TAG_MAP_PCD_PUB MappingDataOut_TAG x_pcd_pub in
  let h := scalar_mul y_picc x_pcd in
  let s_g := scalar_mul AffinePoint_generator (scalar_from_nonce nonce_s) in
  let mapped_g := add s_g h in
  do! u_pcd := on_rng (random_scalar_mod_n fuel) in
  let u_pcd_pub := scalar_mul mapped_g u_pcd in
  do! v_picc := exchange_points "GA-3 key agreement" TAG_KA_PCD_PUB KeyAgreeOut_TAG u_pcd_pub in
  act_ret (mkPaceMidwayState mapped_g v_picc u_pcd u_pcd_pub).

Definition encode_auth_token (point : AffinePoint) : option (result PE bytes) :=
  pt_bytes ← encode_uncompressed point;
  Some (let? inner := BerEncoder_push_tlv [] TAG_ASN1_OID PACE_MECHANISM_OID in
        let? inner := BerEncoder_push_tlv inner TAG_PK_EC_POINT pt_bytes in
        tlv2 TAG_PK_DATA_OBJECT inner).
Definition auth_token (point : AffinePoint) : result PE bytes :=
  match encode_auth_token point with Some token => token | None => Err Pace_InvalidPoint end.

Definition run_pace_step_5 (state : PaceMidwayState) : pace PaceSession :=
  let shared := scalar_mul (v_picc state) (u_pcd state) in
  do! k := act_lift (ok_or (coords shared) Pace_InvalidPoint) in
  let k_x_bytes := U384_to_be_bytes k.1 in
  let k_enc := kdf_aes256 k_x_bytes Kdf_Encryption in
  let k_mac := kdf_aes256 k_x_bytes Kdf_Mac in
  do! token_for_card := act_lift (auth_token (v_picc state)) in
  let t_pcd := aes256_cmac_truncated k_mac token_for_card in
  do! payload := act_lift (let? inner := tlv TAG_AUTH_TOKEN_PCD t_pcd in tlv TAG_DYNAMIC_AUTH inner) in
  do! apdu := act_lift (wrap_general_authenticate false payload) in
  do! r := pace_step "GA-4 mutual auth" apdu in
  do! card_tag := act_lift (dynamic_auth_object AuthTokenOut_TAG (rsp_body r)) in
  if negb (len card_tag =? 8) then act_err (Pace_UnexpectedResponse "card auth tag wrong length")
  else
    do! token_for_us := act_lift (auth_token (u_pcd_pub state)) in
    let expected := aes256_cmac_truncated k_mac token_for_us in
    if negb (bool_decide (expected = card_tag)) then act_err Pace_AuthMismatch
    else act_ret (mkPaceSession k_enc k_mac Ssc_INITIAL).

Definition run_pace_with_can_through_step_4 (fuel : nat) (can : Can) : pace PaceMidwayState :=
  do! _ := set_authentication_template PASSWORD_REF_CAN in
  do! nonce_s := get_encrypted_nonce can in
  map_nonce_and_key_agreement fuel nonce_s.

Definition run_pace_with_can (fuel : nat) (can : Can) : pace PaceSession :=
  do! state := run_pace_with_can_through_step_4 fuel can in
  run_pace_step_5 state.
End pace.

(** ** The specification: wire forms and the transcript *)

(** [MSE:Set AT] with the mechanism, the CAN and the curve. *)
Definition MSE_SET_AT_CAN : bytes :=
  [0x00; 0x22; 0xC1; 0xA4; 18; 0x80; 10] ++ PACE_MECHANISM_OID ++ [0x83; 1; 0x02; 0x84; 1; 0x10].

(** A data object in a [7C] template, and GENERAL AUTHENTICATE with it. *)
Definition dynamic_object (tag : Z) (value : bytes) : bytes :=
  [0x7C; 2 + len value; tag; len value] ++ value.
Definition general_authenticate (chain : bool) (payload : bytes) : bytes :=
  [if chain then 0x10 else 0x00; 0x86; 0x00; 0x00; len payload] ++ payload ++ [0x00].

(** The public-key data object over an encoded point. *)
Definition point_token (pt : bytes) : bytes :=
  [0x7F; 0x49; 111; 0x06; 10] ++ PACE_MECHANISM_OID ++ [0x86; 97] ++ pt.

Section transcript.
Context `{MontyForm} `{AesCrypto} `{Sha256Hash}.

(** The mapped generator of a decrypted nonce and a shared point. *)
Definition mapped_generator (nonce : bytes) (h : AffinePoint) : AffinePoint :=
  add (scalar_mul AffinePoint_generator (scalar_from_nonce nonce)) h.
Definition pace_nonce (can : Can) (z : bytes) : bytes := cbc_decrypt (kdf_aes256 (Can_as_bytes can) Kdf_Password) ZERO_IV z.
Definition pace_tag (k_mac pt : bytes) : bytes := aes256_cmac_truncated k_mac (point_token pt).

(** The data object under [tag] in an answer. *)
Definition answered (tag : Z) (r : ResponseApdu) (value : bytes) : Prop :=
  ∃ outer inner, BerTlv_parse DynamicAuthData_TAG (rsp_body r) = Ok outer ∧
    BerTlv_parse tag (any_value outer) = Ok inner ∧ value = any_value inner.

(** What five accepted exchanges [cs], [rs] were, for some scalars [x] and [u] of
    ours, for them to give this session: the card's points are on the curve, the keys
    come from the shared point, and the card's last answer is the tag under the
    session's own key over our point. *)
Definition pace_transcript (can : Can) (session : PaceSession) (cs : list bytes) (rs : list ResponseApdu) : Prop :=
  ∃ x u z yb y vb v kx ky x_pt u_pt v_pt r1 r2 r3 r4 r5,
    let g := mapped_generator (pace_nonce can z) (scalar_mul y x) in
    let k_enc := kdf_aes256 (U384_to_be_bytes kx) Kdf_Encryption in
    let k_mac := kdf_aes256 (U384_to_be_bytes kx) Kdf_Mac in
    rs = [r1; r2; r3; r4; r5] ∧
    0 < x < N_HEX ∧ 0 < u < N_HEX ∧
    answered EncryptedNonce_TAG r2 z ∧ len z = NONCE_LEN ∧
    answered MappingDataOut_TAG r3 yb ∧ decode_uncompressed yb = Some y ∧ is_on_curve y ∧
    answered KeyAgreeOut_TAG r4 vb ∧ decode_uncompressed vb = Some v ∧ is_on_curve v ∧
    encode_uncompressed (scalar_mul AffinePoint_generator x) = Some x_pt ∧
    encode_uncompressed (scalar_mul g u) = Some u_pt ∧
    encode_uncompressed v = Some v_pt ∧
    coords (scalar_mul v u) = Some (kx, ky) ∧
    cs = [MSE_SET_AT_CAN;
          general_authenticate true [0x7C; 0];
          general_authenticate true (dynamic_object TAG_MAP_PCD_PUB x_pt);
          general_authenticate true (dynamic_object TAG_KA_PCD_PUB u_pt);
          general_authenticate false (dynamic_object TAG_AUTH_TOKEN_PCD (pace_tag k_mac v_pt))] ∧
    answered AuthTokenOut_TAG r5 (pace_tag k_mac u_pt) ∧
    session = mkPaceSession k_enc k_mac Ssc_INITIAL.
End transcript.

(** ** Lemmas: wire forms *)

Section pace_lemmas.
Context `{CardTransport T E} `{OsRng R} `{MontyForm} `{AesCrypto} `{!AesCryptoLaws} `{Sha256Hash}.
Abbreviation TE := (TransportDispatchError E).
Abbreviation PE := (PaceError TE (rng_failure R)).

Lemma encode_len p bs : encode_uncompressed p = Some bs → len bs = 97.
Proof.
  unfold encode_uncompressed. destruct (coords p) as [[x y]|]; [|done]. cbn [mbind option_bind]. intros Hbs.
  apply Some_inj in Hbs as <-. unfold len, U384_to_be_bytes. by rewrite !length_app, !length_to_be.
Qed.

Lemma dynamic_object_tlv {F} tag v : len v ≤ 125 → (let? inner := tlv tag v in tlv TAG_DYNAMIC_AUTH inner) = @Ok F _ (dynamic_object tag v).
Proof.
  intros Hv. rewrite tlv_short by lia. cbn [result_bind]. rewrite tlv_short by (rewrite !len_cons; lia).
  rewrite !len_cons. unfold dynamic_object. cbn [app]. by replace (1 + (1 + len v)) with (2 + len v) by lia.
Qed.

Lemma dynamic_object_len tag v : len (dynamic_object tag v) = 4 + len v.
Proof. unfold dynamic_object. cbn [app]. rewrite !len_cons. lia. Qed.

Lemma general_authenticate_wire {F} chain payload :
  len payload ≤ 255 → @wrap_general_authenticate F chain payload = Ok (general_authenticate chain payload).
Proof.
  intros Hp. unfold wrap_general_authenticate, GeneralAuthenticate_into_apdu. cbn [ga_payload ga_chain].
  destruct (Z.leb_spec (len payload) 255); [|lia]. cbn [negb result_bind]. by destruct chain.
Qed.

Lemma auth_token_wire p pt : encode_uncompressed p = Some pt → auth_token (E:=E) (R:=R) p = Ok (point_token pt).
Proof.
  intros Hp. pose proof (encode_len _ _ Hp) as Hl. unfold auth_token, encode_auth_token. rewrite Hp. cbn [mbind option_bind].
  unfold BerEncoder_push_tlv at 1. change (len PACE_MECHANISM_OID) with 10. cbn -[len PACE_MECHANISM_OID app BerEncoder_push_tlv tlv2].
  unfold BerEncoder_push_tlv, BerEncoder_push_length. rewrite Hl. cbn -[len PACE_MECHANISM_OID app tlv2].
  unfold tlv2, BerEncoder_push_tlv_tag2, BerEncoder_push_length. rewrite !len_app, Hl. cbn. done.
Qed.

Lemma pace_tag_len k pt : len (pace_tag k pt) = 8.
Proof. apply len_cmac_truncated. Qed.

Lemma pace_step_Ok stage c (s s' : T * R) r :
  pace_step stage c s = (s', Ok r) → transmit c s.1 = (s'.1, Ok r) ∧ s'.2 = s.2 ∧ ResponseApdu_is_ok r.
Proof.
  unfold pace_step, on_card, act_bind, act_map_err. destruct (transmit c s.1) as [t [r'|e|]]; cbn; [|done..].
  destruct (ResponseApdu_is_ok r') eqn:Hr; cbn; [|done]. intros [= <- <-]. by rewrite Hr.
Qed.

Lemma set_template_eq s :
  set_authentication_template (R:=R) PASSWORD_REF_CAN s = (do! _ := pace_step "MSE:Set AT" MSE_SET_AT_CAN in act_ret tt) s.
Proof. reflexivity. Qed.

Lemma dynamic_auth_object_Ok tag r v :
  dynamic_auth_object (E:=E) (R:=R) tag (rsp_body r) = Ok v ↔ answered tag r v.
Proof.
  unfold dynamic_auth_object, answered. destruct (BerTlv_parse DynamicAuthData_TAG (rsp_body r)) as [outer|e|]; cbn;
    [|split; [done|]; by intros (?&?&?&?)..].
  destruct (BerTlv_parse tag (any_value outer)) as [inner|e|] eqn:Hi; cbn; split; try done.
  - intros [= <-]. by exists outer, inner.
  - intros (? & ? & [= <-] & Hi' & ->). rewrite Hi in Hi'. by injection Hi' as <-.
  - intros (? & ? & [= <-] & Hi' & ->). by rewrite Hi in Hi'.
  - intros (? & ? & [= <-] & Hi' & ->). by rewrite Hi in Hi'.
Qed.

Lemma get_encrypted_nonce_Ok can (s s' : T * R) n :
  get_encrypted_nonce can s = (s', Ok n) →
  ∃ r z, transmit (general_authenticate true [0x7C; 0]) s.1 = (s'.1, Ok r) ∧ s'.2 = s.2 ∧ ResponseApdu_is_ok r ∧
    answered EncryptedNonce_TAG r z ∧ len z = NONCE_LEN ∧ n = pace_nonce can z.
Proof.
  unfold get_encrypted_nonce. change (tlv TAG_DYNAMIC_AUTH []) with (@Ok PE _ [0x7C; 0]). rewrite act_lift_ok.
  change (wrap_general_authenticate true [0x7C; 0]) with (@Ok PE _ (general_authenticate true [0x7C; 0])). rewrite act_lift_ok.
  intros (s1 & r & Hstep & Hrest)%act_bind_inv_ok. apply pace_step_Ok in Hstep as (Ht & Hrng & Hr).
  unfold act_bind at 1, act_lift at 1 in Hrest. destruct (dynamic_auth_object _ _) as [z|e|] eqn:Hz; [|done..].
  apply dynamic_auth_object_Ok in Hz. destruct (Z.eqb_spec (len z) NONCE_LEN) as [Hlen|]; [|done]. cbn [negb] in Hrest.
  unfold aes256_cbc_decrypt_no_padding in Hrest. rewrite Hlen in Hrest. change (NONCE_LEN mod AES_BLOCK =? 0) with true in Hrest.
  cbn [negb map_err] in Hrest. fold (pace_nonce can z) in Hrest. unfold act_bind, act_lift in Hrest.
  destruct (negb _) in Hrest; [done|]. injection Hrest as <- <-. by exists r, z.
Qed.

Lemma random_scalar_Ok `{!OsRngLaws R} fuel (r r' : R) x :
  random_scalar_mod_n (E:=E) fuel r = (r', Ok x) → 0 < x < N_HEX.
Proof.
  revert r. induction fuel as [|fuel IH]; intros r; [done|]. cbn [random_scalar_mod_n].
  intros (r1 & bs & Hfill & Hrest)%act_bind_inv_ok. unfold act_map_err in Hfill.
  destruct (rng_fill 48 r) as [r2 [bs'|e|]] eqn:Hr; [|done..]. injection Hfill as <- <-.
  apply rng_fill_ok in Hr as [_ Hbs]. pose proof (be_fold_nonneg bs' Hbs) as [Hpos _].
  fold (U384_from_be_slice bs') in Hpos.
  destruct (Z.eqb_spec (U384_from_be_slice bs') 0), (Z.ltb_spec (U384_from_be_slice bs') N_HEX); cbn in Hrest; try by eapply IH.
  injection Hrest as <- <-. lia.
Qed.

Lemma decode_on_curve bs p : decode_uncompressed bs = Some p → is_on_curve p.
Proof.
  unfold decode_uncompressed. destruct (negb _); [done|]. destruct bs as [|b bs]; [done|]. cbn [head mbind option_bind].
  destruct (negb _); [done|]. destruct (slice 1 49 _); cbn [mbind option_bind]; [|done].
  destruct (slice 49 97 _); cbn [mbind option_bind]; [|done].
  destruct (is_on_curve _) eqn:Hon; [|done]. intros [= <-]. by rewrite Hon.
Qed.

Lemma exchange_points_Ok stage tag answer p (s s' : T * R) q :
  exchange_points stage tag answer p s = (s', Ok q) →
  ∃ pt r qb, encode_uncompressed p = Some pt ∧
    transmit (general_authenticate true (dynamic_object tag pt)) s.1 = (s'.1, Ok r) ∧ s'.2 = s.2 ∧ ResponseApdu_is_ok r ∧
    answered answer r qb ∧ decode_uncompressed qb = Some q ∧ is_on_curve q.
Proof.
  unfold exchange_points. unfold act_bind at 1, act_lift at 1. destruct (encode_uncompressed p) as [pt|] eqn:Hp; [|done].
  pose proof (encode_len _ _ Hp) as Hl. cbn [ok_or]. rewrite dynamic_object_tlv by lia. rewrite act_lift_ok.
  rewrite general_authenticate_wire by (rewrite dynamic_object_len; lia). rewrite act_lift_ok.
  intros (s1 & r & Hstep & Hrest)%act_bind_inv_ok. apply pace_step_Ok in Hstep as (Ht & Hrng & Hr).
  unfold act_bind, act_lift in Hrest. destruct (dynamic_auth_object _ _) as [qb|e|] eqn:Hq; [|done..].
  apply dynamic_auth_object_Ok in Hq. destruct (decode_uncompressed qb) as [q'|] eqn:Hdec; [|done]. injection Hrest as <- <-.
  exists pt, r, qb. repeat split; try done. by eapply decode_on_curve.
Qed.

Lemma step_5_Ok state (s s' : T * R) session :
  run_pace_step_5 state s = (s', Ok session) →
  ∃ kx ky v_pt u_pt r,
    let k_enc := kdf_aes256 (U384_to_be_bytes kx) Kdf_Encryption in
    let k_mac := kdf_aes256 (U384_to_be_bytes kx) Kdf_Mac in
    coords (scalar_mul (v_picc state) (u_pcd state)) = Some (kx, ky) ∧
    encode_uncompressed (v_picc state) = Some v_pt ∧ encode_uncompressed (u_pcd_pub state) = Some u_pt ∧
    transmit (general_authenticate false (dynamic_object TAG_AUTH_TOKEN_PCD (pace_tag k_mac v_pt))) s.1 = (s'.1, Ok r) ∧
    s'.2 = s.2 ∧ ResponseApdu_is_ok r ∧ answered AuthTokenOut_TAG r (pace_tag k_mac u_pt) ∧
    session = mkPaceSession k_enc k_mac Ssc_INITIAL.
Proof.
  unfold run_pace_step_5. unfold act_bind at 1, act_lift at 1.
  destruct (coords (scalar_mul (v_picc state) (u_pcd state))) as [[kx ky]|] eqn:Hk; [|done]. cbn [ok_or fst].
  unfold act_bind at 1, act_lift at 1. destruct (encode_uncompressed (v_picc state)) as [v_pt|] eqn:Hv;
    [|unfold auth_token, encode_auth_token; by rewrite Hv].
  rewrite (auth_token_wire _ _ Hv). fold (pace_tag (kdf_aes256 (U384_to_be_bytes kx) Kdf_Mac) v_pt).
  rewrite dynamic_object_tlv by (rewrite pace_tag_len; lia). rewrite act_lift_ok.
  rewrite general_authenticate_wire by (rewrite dynamic_object_len, pace_tag_len; lia). rewrite act_lift_ok.
  intros (s1 & r & Hstep & Hrest)%act_bind_inv_ok. apply pace_step_Ok in Hstep as (Ht & Hrng & Hr).
  unfold act_bind at 1, act_lift at 1 in Hrest. destruct (dynamic_auth_object _ _) as [tag|e|] eqn:Htag; [|done..].
  apply dynamic_auth_object_Ok in Htag. destruct (negb (len tag =? 8)); [done|].
  unfold act_bind, act_lift in Hrest. destruct (encode_uncompressed (u_pcd_pub state)) as [u_pt|] eqn:Hu;
    [|unfold auth_token, encode_auth_token in Hrest; by rewrite Hu in Hrest].
  rewrite (auth_token_wire _ _ Hu) in Hrest. case_bool_decide as Hexp; [|done]. injection Hrest as <- <-.
  exists kx, ky, v_pt, u_pt, r. cbv zeta. repeat split; try done. by rewrite <- Hexp in Htag.
Qed.
End pace_lemmas.

(** ** Properties *)

(** C21: a session is established only by an authentic exchange. When PACE returns
    session keys, the card accepted exactly the five commands of the protocol, in
    order; our scalars were fresh and in range; both points of the card are on the
    curve; the keys are derived from the shared point and the counter is zero; and the
    card's last answer is the tag under the derived key over our own point, so the card
    holds that key. *)
Theorem pace_session_authentic `{CardTransport T E} `{OsRng R} `{!OsRngLaws R} `{MontyForm} `{AesCrypto} `{!AesCryptoLaws}
  `{Sha256Hash} fuel can (t t' : T) (rng rng' : R) session :
  run_pace_with_can fuel can (t, rng) = ((t', rng'), Ok session) →
  ∃ cs rs, exchanged t cs rs t' ∧ Forall ResponseApdu_is_ok rs ∧ pace_transcript can session cs rs.
Proof.
  unfold run_pace_with_can, run_pace_with_can_through_step_4.
  intros (s4 & state & Hrun & H5)%act_bind_inv_ok. apply act_bind_inv_ok in Hrun as (s1 & [] & H1' & Hrun).
  apply act_bind_inv_ok in Hrun as (s2 & n & H2' & Hrun). rewrite set_template_eq in H1'.
  apply act_bind_inv_ok in H1' as (s1' & r1 & H1' & [= <-]). apply pace_step_Ok in H1' as (Ht1 & _ & Hr1).
  apply get_encrypted_nonce_Ok in H2' as (r2 & z & Ht2 & _ & Hr2 & Hz & Hlen & ->).
  unfold map_nonce_and_key_agreement in Hrun.
  apply act_bind_inv_ok in Hrun as (s2' & x & Hx & Hrun). unfold on_rng in Hx.
  destruct (random_scalar_mod_n fuel s2.2) as [rng2 rx] eqn:Hdx. injection Hx as <- ->. apply random_scalar_Ok in Hdx.
  apply act_bind_inv_ok in Hrun as (s3 & y & Hy & Hrun).
  apply exchange_points_Ok in Hy as (x_pt & r3 & yb & Hxpt & Ht3 & _ & Hr3 & Hyb & Hdy & Hony).
  apply act_bind_inv_ok in Hrun as (s3' & u & Hu & Hrun). unfold on_rng in Hu.
  destruct (random_scalar_mod_n fuel s3.2) as [rng3 ru] eqn:Hdu. injection Hu as <- ->. apply random_scalar_Ok in Hdu.
  apply act_bind_inv_ok in Hrun as (s4' & v & Hv & [= <- <-]).
  apply exchange_points_Ok in Hv as (u_pt & r4 & vb & Hupt & Ht4 & _ & Hr4 & Hvb & Hdv & Honv).
  apply step_5_Ok in H5 as (kx & ky & v_pt & u_pt' & r5 & Hk & Hvpt & Hupt' & Ht5 & _ & Hr5 & Htag & Hs).
  cbn [v_picc u_pcd u_pcd_pub fst snd] in *. rewrite Hupt in Hupt'. injection Hupt' as <-.
  eexists _, [r1; r2; r3; r4; r5]. split; [|split; [by repeat constructor|]].
  - econstructor; [exact Ht1|]. econstructor; [exact Ht2|]. econstructor; [exact Ht3|]. econstructor; [exact Ht4|].
    econstructor; [exact Ht5|constructor].
  - exists x, u, z, yb, y, vb, v, kx, ky, x_pt, u_pt, v_pt, r1, r2, r3, r4, r5. cbv zeta. unfold mapped_generator. repeat (split; [done|]). exact Hs.
Qed.
