(* ===== verification/PacePeer.v ===== *)
(** The card's side of PACE and the agreement of both sides. [Picc] is a card that
    runs the protocol of BSI TR-03110 with the same curve; the driver of Pace.v and the
    card arrive at the same keys, and the channel of SecureMessaging.v is in step. *)

From S2P Require Import Prelude CryptoCrates Ber StatusWord Transport Pin SecureMessaging Curve Pace.

(** ** The card *)

Inductive PiccStage :=
| Pi_Idle
| Pi_Selected
| Pi_NonceSent
| Pi_Mapped (g : AffinePoint)
| Pi_Agreed (u_pub v_pub shared : AffinePoint)
| Pi_Open (k_enc k_mac : bytes).

(** The CAN it was issued with, the nonce and the scalars of this run. *)
Record Picc := mkPicc
  { picc_can : Can; picc_nonce : bytes; picc_y : Z; picc_v : Z; picc_stage : PiccStage }.
Definition picc_enter (stage : PiccStage) (c : Picc) : Picc :=
  mkPicc (picc_can c) (picc_nonce c) (picc_y c) (picc_v c) stage.

(** The value of a GENERAL AUTHENTICATE with one object under [tag]. *)
Definition received (tag : Z) (chain : bool) (cmd : bytes) : option bytes :=
  let value := take (length cmd - 10) (drop 9 cmd) in
  if decide (cmd = general_authenticate chain (dynamic_object tag value)) then Some value else None.

Section picc.
Context `{MontyForm} `{AesCrypto} `{Sha256Hash}.

Definition picc_step (cmd : bytes) (c : Picc) : Picc * option (bytes * Z) :=
  match picc_stage c with
  | Pi_Idle => (picc_enter Pi_Selected c, if decide (cmd = MSE_SET_AT_CAN) then Some ([], 0x9000) else None)
  | Pi_Selected =>
      let z := cbc_encrypt (kdf_aes256 (Can_as_bytes (picc_can c)) Kdf_Password) ZERO_IV (picc_nonce c) in
      (picc_enter Pi_NonceSent c,
       if decide (cmd = general_authenticate true [0x7C; 0]) then Some (dynamic_object EncryptedNonce_TAG z, 0x9000) else None)
  | Pi_NonceSent =>
      match received TAG_MAP_PCD_PUB true cmd ≫= decode_uncompressed,
            encode_uncompressed (scalar_mul AffinePoint_generator (picc_y c)) with
      | Some x_pub, Some y_pt =>
          (picc_enter (Pi_Mapped (mapped_generator (picc_nonce c) (scalar_mul x_pub (picc_y c)))) c,
           Some (dynamic_object MappingDataOut_TAG y_pt, 0x9000))
      | _, _ => (c, None)
      end
  | Pi_Mapped g =>
      let v_pub := scalar_mul g (picc_v c) in
      match received TAG_KA_PCD_PUB true cmd ≫= decode_uncompressed, encode_uncompressed v_pub with
      | Some u_pub, Some v_pt =>
          (picc_enter (Pi_Agreed u_pub v_pub (scalar_mul u_pub (picc_v c))) c,
           Some (dynamic_object KeyAgreeOut_TAG v_pt, 0x9000))
      | _, _ => (c, None)
      end
  | Pi_Agreed u_pub v_pub shared =>
      match coords shared, encode_uncompressed u_pub, encode_uncompressed v_pub, received TAG_AUTH_TOKEN_PCD false cmd with
      | Some (kx, _), Some u_pt, Some v_pt, Some tag =>
          let k_enc := kdf_aes256 (U384_to_be_bytes kx) Kdf_Encryption in
          let k_mac := kdf_aes256 (U384_to_be_bytes kx) Kdf_Mac in
          if decide (tag = pace_tag k_mac v_pt)
          then (picc_enter (Pi_Open k_enc k_mac) c, Some (dynamic_object AuthTokenOut_TAG (pace_tag k_mac u_pt), 0x9000))
          else (c, Some ([], 0x6300))
      | _, _, _, _ => (c, None)
      end
  | Pi_Open _ _ => (c, None)
  end.

(** What is refused sets the card back. *)
#[export] Instance Picc_CardTransport : CardTransport Picc string := λ c p,
  match picc_step (cmd_bytes c) p with
  | (p, Some (body, sw)) => (p, Ok (reply body sw))
  | (p, None) => (picc_enter Pi_Idle p, Ok (reply [] 0x6985))
  end.
End picc.

(** ** Lemmas: one exchange with the card *)

Lemma received_ga tag chain value :
  received tag chain (general_authenticate chain (dynamic_object tag value)) = Some value.
Proof.
  unfold received. assert (take (length (general_authenticate chain (dynamic_object tag value)) - 10)
    (drop 9 (general_authenticate chain (dynamic_object tag value))) = value) as ->; [|by rewrite decide_True].
  unfold general_authenticate, dynamic_object. cbn [app length drop]. rewrite length_app. cbn [length].
  rewrite drop_0, take_app_le by lia. apply take_ge. lia.
Qed.

Section peer_lemmas.
Context `{OsRng R} `{MontyForm} `{!MontyFormLaws} `{AesCrypto} `{!AesCryptoLaws} `{Sha256Hash}.
Abbreviation TE := (TransportDispatchError string).
Abbreviation PE := (PaceError TE (rng_failure R)).

Lemma picc_pace_step stage cmd (c c' : Picc) (rng : R) body :
  picc_step cmd c = (c', Some (body, 0x9000)) →
  pace_step stage cmd (c, rng) = ((c', rng), Ok (mkResponseApdu body 0x90 0x00)).
Proof.
  intros Hs. unfold pace_step, on_card, act_bind, act_map_err, transmit, act_bind, act_map_err, transmit_outcome, Picc_CardTransport.
  cbn [fst snd CommandApdu_from CommandApdu_new cmd_bytes]. by rewrite Hs.
Qed.

Lemma dynamic_answer tag value sw1 sw2 :
  Z.land tag MULTI_BYTE_TAG_MASK ≠ MULTI_BYTE_TAG_MASK → len value ≤ 125 →
  dynamic_auth_object (E:=string) (R:=R) tag (rsp_body (mkResponseApdu (dynamic_object tag value) sw1 sw2)) = Ok value.
Proof.
  intros Htag Hv. unfold dynamic_auth_object. cbn [rsp_body].
  assert (∀ t v, Z.land t MULTI_BYTE_TAG_MASK ≠ MULTI_BYTE_TAG_MASK → len v ≤ 127 →
    BerTlv_parse t (t :: len v :: v) = Ok (mkBerTlvAny t v (2 + len v))) as Hparse.
  { intros t v Ht Hlv. unfold BerTlv_parse.
    pose proof (tlv_parse (E:=string) t v [] (t :: len v :: v) Ht) as Hp. rewrite app_nil_r, !len_cons in Hp.
    pose proof (len_nonneg v). rewrite Hp; [| unfold u32_max; lia|unfold u64_max; lia|apply tlv_short; lia].
    cbn [result_bind]. unfold BerTlvAny_expect. cbn [any_tag]. rewrite Z.eqb_refl. cbn [negb]. do 2 f_equal. lia. }
  unfold dynamic_object. cbn [app]. replace (2 + len value) with (len (tag :: len value :: value)) by (rewrite !len_cons; lia).
  change 0x7C with DynamicAuthData_TAG. rewrite Hparse by (done || rewrite !len_cons; lia). cbn [map_err result_bind any_value].
  rewrite Hparse by (done || lia). done.
Qed.

(** Points both sides compute are on the curve and encode when finite. *)
Definition good_point (p : AffinePoint) : Prop := is_on_curve p ∧ u384_coords p.

Lemma good_generator : good_point AffinePoint_generator.
Proof. split; [apply generator_on_curve|by split; vm_compute]. Qed.
Lemma good_scalar_mul p k : is_u384 k → good_point p → good_point (scalar_mul p k).
Proof. intros Hk [Hp Hc]. rewrite scalar_mul_times by done. split; [by apply times_on_curve|by apply times_u384]. Qed.
Lemma good_add p q : good_point p → good_point q → good_point (add p q).
Proof. intros [] []. split; [by apply add_on_curve|by apply add_u384]. Qed.
Lemma good_encodes p : good_point p → coords p ≠ None →
  ∃ bs, encode_uncompressed p = Some bs ∧ decode_uncompressed bs = Some p ∧ len bs = 97.
Proof.
  intros [Hp Hc] Hf. destruct (encode_uncompressed p) as [bs|] eqn:Henc.
  - exists bs. split; [done|]. split; [|by eapply encode_len]. eapply decode_encode; [|done..].
    unfold u384_point, u384_coords in *. by destruct (coords p) as [[x y]|].
  - unfold encode_uncompressed in Henc. by destruct (coords p) as [[x y]|].
Qed.
Lemma good_nonce nonce : length nonce = 16%nat → bytes_ok nonce → is_u384 (scalar_from_nonce nonce).
Proof.
  intros Hl Hb. unfold scalar_from_nonce, U384_from_be_slice.
  assert (bytes_ok (replicate 32 0 ++ nonce)) as Hok by (apply Forall_app; split; [by repeat constructor|done]).
  pose proof (be_fold_nonneg _ Hok) as Hr. by rewrite length_app, length_replicate, Hl in Hr.
Qed.

(** The two Diffie-Hellman products of an exchange on [g] agree. *)
Definition dh_agrees (g : AffinePoint) (a b : Z) : Prop :=
  scalar_mul (scalar_mul g a) b = scalar_mul (scalar_mul g b) a ∧ coords (scalar_mul (scalar_mul g a) b) ≠ None.

(** An exchange of points with a card that answers with a finite point. *)
Lemma exchange_with_picc stage tag answer p q (c c' : Picc) (rng : R) p_pt q_pt :
  Z.land answer MULTI_BYTE_TAG_MASK ≠ MULTI_BYTE_TAG_MASK →
  encode_uncompressed p = Some p_pt → len p_pt = 97 → decode_uncompressed q_pt = Some q → len q_pt = 97 →
  picc_step (general_authenticate true (dynamic_object tag p_pt)) c = (c', Some (dynamic_object answer q_pt, 0x9000)) →
  exchange_points stage tag answer p (c, rng) = ((c', rng), Ok q).
Proof.
  intros Hanswer Hp Hl Hq Hlq Hstep. unfold exchange_points. rewrite Hp. cbn [ok_or]. rewrite act_lift_ok.
  rewrite dynamic_object_tlv by lia. rewrite act_lift_ok.
  rewrite general_authenticate_wire by (rewrite dynamic_object_len; lia). rewrite act_lift_ok.
  unfold act_bind at 1. rewrite (picc_pace_step _ _ _ _ _ _ Hstep). unfold act_bind, act_lift.
  rewrite dynamic_answer by (done || lia). by rewrite Hq.
Qed.

Lemma nonce_from_picc (c : Picc) (rng : R) :
  picc_stage c = Pi_Selected → length (picc_nonce c) = 16%nat →
  get_encrypted_nonce (picc_can c) (c, rng) = ((picc_enter Pi_NonceSent c, rng), Ok (picc_nonce c)).
Proof.
  intros Hst Hl. unfold get_encrypted_nonce. change (tlv TAG_DYNAMIC_AUTH []) with (@Ok PE _ [0x7C; 0]). rewrite act_lift_ok.
  change (wrap_general_authenticate true [0x7C; 0]) with (@Ok PE _ (general_authenticate true [0x7C; 0])). rewrite act_lift_ok.
  set (z := cbc_encrypt (kdf_aes256 (Can_as_bytes (picc_can c)) Kdf_Password) ZERO_IV (picc_nonce c)).
  assert (len (picc_nonce c) = 16) as Hlen by (unfold len; by rewrite Hl).
  assert (len z = 16) as Hz by (unfold z; rewrite len_cbc_encrypt; [exact Hlen|by rewrite Hlen]).
  unfold act_bind at 1. rewrite (picc_pace_step _ _ c (picc_enter Pi_NonceSent c) rng (dynamic_object EncryptedNonce_TAG z)).
  2:{ unfold picc_step. rewrite Hst, decide_True by done. done. }
  unfold act_bind at 1, act_lift at 1. rewrite dynamic_answer by (done || lia). rewrite Hz. cbn [NONCE_LEN Z.eqb Pos.eqb negb].
  unfold aes256_cbc_decrypt_no_padding. rewrite Hz. cbn -[cbc_decrypt len kdf_aes256]. unfold act_bind, act_lift.
  unfold z at 1. change [0; 0; 0; 0; 0; 0; 0; 0; 0; 0; 0; 0; 0; 0; 0; 0] with ZERO_IV.
  rewrite cbc_decrypt_encrypt by (by rewrite Hlen). change (16 mod AES_BLOCK =? 0) with true. cbn [negb map_err]. by rewrite Hlen.
Qed.

(** The last round, with a card that has agreed on the same point. *)
Lemma step_5_with_picc (c : Picc) (rng : R) g u v_pub shared kx ky u_pt v_pt :
  coords shared = Some (kx, ky) → scalar_mul v_pub u = shared →
  encode_uncompressed (scalar_mul g u) = Some u_pt → encode_uncompressed v_pub = Some v_pt →
  picc_stage c = Pi_Agreed (scalar_mul g u) v_pub shared →
  let k_enc := kdf_aes256 (U384_to_be_bytes kx) Kdf_Encryption in
  let k_mac := kdf_aes256 (U384_to_be_bytes kx) Kdf_Mac in
  run_pace_step_5 (mkPaceMidwayState g v_pub u (scalar_mul g u)) (c, rng)
  = ((picc_enter (Pi_Open k_enc k_mac) c, rng), Ok (mkPaceSession k_enc k_mac Ssc_INITIAL)).
Proof.
  intros Hk Hsh Hu Hv Hst. cbv zeta. unfold run_pace_step_5. cbn [v_picc u_pcd u_pcd_pub]. rewrite Hsh, Hk. cbn [ok_or fst].
  rewrite act_lift_ok. cbn [fst]. rewrite (auth_token_wire _ _ Hv), act_lift_ok.
  fold (pace_tag (kdf_aes256 (U384_to_be_bytes kx) Kdf_Mac) v_pt).
  rewrite dynamic_object_tlv by (rewrite pace_tag_len; lia). rewrite act_lift_ok.
  rewrite general_authenticate_wire by (rewrite dynamic_object_len, pace_tag_len; lia). rewrite act_lift_ok.
  unfold act_bind at 1. erewrite picc_pace_step.
  2:{ unfold picc_step. rewrite Hst, Hk, Hu, Hv, received_ga, decide_True by done. reflexivity. }
  unfold act_bind at 1, act_lift at 1. rewrite dynamic_answer by (done || rewrite pace_tag_len; lia).
  rewrite pace_tag_len. cbn [Z.eqb Pos.eqb negb]. rewrite (auth_token_wire _ _ Hu), act_lift_ok.
  fold (pace_tag (kdf_aes256 (U384_to_be_bytes kx) Kdf_Mac) u_pt). by rewrite bool_decide_true.
Qed.
End peer_lemmas.

(** ** Properties *)

(** C22: run against a card with the same CAN whose Diffie-Hellman products agree
    with ours, PACE succeeds: both sides hold the same keys, and secure messaging over
    them starts in step. *)
Theorem pace_agrees_with_card `{OsRng R} `{MontyForm} `{!MontyFormLaws} `{AesCrypto} `{!AesCryptoLaws} `{Sha256Hash}
  fuel (c : Picc) (rng rng1 rng2 : R) x u :
  let g0 := AffinePoint_generator in
  let g := mapped_generator (picc_nonce c) (scalar_mul (scalar_mul g0 x) (picc_y c)) in
  picc_stage c = Pi_Idle → length (picc_nonce c) = 16%nat → bytes_ok (picc_nonce c) →
  random_scalar_mod_n (E:=string) fuel rng = (rng1, Ok x) → random_scalar_mod_n (E:=string) fuel rng1 = (rng2, Ok u) →
  is_u384 x → is_u384 u → is_u384 (picc_y c) → is_u384 (picc_v c) →
  coords (scalar_mul g0 x) ≠ None → coords (scalar_mul g0 (picc_y c)) ≠ None →
  coords (scalar_mul g u) ≠ None → coords (scalar_mul g (picc_v c)) ≠ None →
  dh_agrees g0 x (picc_y c) → dh_agrees g u (picc_v c) →
  ∃ k_enc k_mac,
    run_pace_with_can fuel (picc_can c) (c, rng)
      = ((picc_enter (Pi_Open k_enc k_mac) c, rng2), Ok (mkPaceSession k_enc k_mac Ssc_INITIAL)) ∧
    ∀ T (t : T), sm_in_sync (SmTransport_new (mkSmPeer t k_enc k_mac Ssc_INITIAL) (mkPaceSession k_enc k_mac Ssc_INITIAL)).
Proof.
  intros g0 g Hst Hln Hbn Hx Hu Hx384 Hu384 Hy384 Hv384 HX HY HU HV [Hdh1 Hfin1] [Hdh2 Hfin2]. subst g0.
  assert (good_point g) as Hg.
  { apply good_add; apply good_scalar_mul; [by apply good_nonce|apply good_generator|exact Hy384|].
    apply good_scalar_mul; [exact Hx384|apply good_generator]. }
  destruct (good_encodes (scalar_mul AffinePoint_generator x)) as (x_pt & Hxe & Hxd & Hxl); [apply good_scalar_mul; [exact Hx384|apply good_generator]|exact HX|].
  destruct (good_encodes (scalar_mul AffinePoint_generator (picc_y c))) as (y_pt & Hye & Hyd & Hyl); [apply good_scalar_mul; [exact Hy384|apply good_generator]|exact HY|].
  destruct (good_encodes (scalar_mul g u)) as (u_pt & Hue & Hud & Hul); [apply good_scalar_mul; [exact Hu384|exact Hg]|exact HU|].
  destruct (good_encodes (scalar_mul g (picc_v c))) as (v_pt & Hve & Hvd & Hvl); [apply good_scalar_mul; [exact Hv384|exact Hg]|exact HV|].
  destruct (coords (scalar_mul (scalar_mul g u) (picc_v c))) as [[kx ky]|] eqn:Hk; [|done].
  exists (kdf_aes256 (U384_to_be_bytes kx) Kdf_Encryption), (kdf_aes256 (U384_to_be_bytes kx) Kdf_Mac). split; [|done].
  unfold run_pace_with_can, run_pace_with_can_through_step_4, act_bind at 1 2. rewrite set_template_eq.
  unfold act_bind at 1. erewrite (picc_pace_step _ _ c).
  2:{ unfold picc_step. rewrite Hst, decide_True by done. reflexivity. }
  cbn [act_ret]. unfold act_bind at 1. change (picc_can c) with (picc_can (picc_enter Pi_Selected c)) at 1.
  rewrite nonce_from_picc by done. cbn [picc_nonce picc_enter]. unfold map_nonce_and_key_agreement.
  unfold act_bind at 1, on_rng at 1. cbn [fst snd]. rewrite Hx.
  unfold act_bind at 1. erewrite (exchange_with_picc _ _ _ _ _ _ _ _ x_pt y_pt); [|by vm_compute|done|done|exact Hyd|done|].
  2:{ unfold picc_step. cbn [picc_stage picc_enter picc_y picc_nonce]. rewrite received_ga. cbn [mbind option_bind]. rewrite Hxd, Hye.
      reflexivity. }
  unfold act_bind at 1, on_rng at 1. cbn [fst snd]. rewrite Hu.
  rewrite <- Hdh1. fold (mapped_generator (picc_nonce c) (scalar_mul (scalar_mul AffinePoint_generator x) (picc_y c))). fold g.
  unfold act_bind at 1. erewrite (exchange_with_picc _ _ _ _ _ _ _ _ u_pt v_pt); [|by vm_compute|done|done|exact Hvd|done|].
  2:{ unfold picc_step. cbn [picc_stage picc_enter picc_v]. fold g. rewrite received_ga. cbn [mbind option_bind]. rewrite Hud, Hve.
      reflexivity. }
  cbn [act_ret]. erewrite step_5_with_picc; [|exact Hk|by rewrite Hdh2|done..]. done.
Qed.

(** ** Witnesses: small scalars on the real curve *)

Section pace_witnesses.
Import residues.

(** Stand-ins with the laws: a masked block, a tag of the message's end and the
    key, a digest of the input's end. *)
#[local] Instance pace_crypto : AesCrypto := {
  aes_encrypt_block k b := b;
  cbc_encrypt k iv p := (λ b, Z.lxor b 0x5A) <$> p;
  cbc_decrypt k iv p := (λ b, Z.lxor b 0x5A) <$> p;
  aes_cmac k m := zip_with Z.lxor (take 16 (reverse m ++ replicate 16 0)) (take 16 (k ++ replicate 16 0))
}.
#[local] Instance pace_crypto_laws : AesCryptoLaws.
Proof.
  split.
  - intros k iv p _. cbn. rewrite <- list_fmap_compose. rewrite <- (list_fmap_id p) at 2.
    apply list_fmap_ext. intros i x _. cbn. by rewrite Z.lxor_assoc, Z.lxor_nilpotent, Z.lxor_0_r.
  - intros k iv p _. cbn. unfold len. by rewrite length_fmap.
  - intros k m. cbv [aes_cmac pace_crypto]. rewrite length_zip_with, !length_take, !length_app, !length_replicate, length_reverse. lia.
Defined.
#[local] Instance pace_hash : Sha256Hash := λ bs, take 32 (reverse bs ++ replicate 32 0).

(** A generator that returns the listed numbers, then one. *)
#[local] Instance listed_rng : OsRng (list Z) := {
  rng_failure := string;
  rng_fill n draws := match draws with x :: draws => (draws, Ok (to_be n x)) | [] => ([], Ok (to_be n 1)) end
}.
#[local] Instance listed_rng_laws : OsRngLaws (list Z).
Proof.
  split.
  - intros n [|x r] r' bs; cbn; intros [= <- <-]; (split; [by rewrite length_to_be|apply to_be_bytes_ok]).
  - by intros n [|x r].
Defined.

Definition pace_can : Can := mkCan [49; 50; 51; 52; 53; 54].
Definition pace_card : Picc := mkPicc pace_can (replicate 15 0 ++ [2]) 2 3 Pi_Idle.
(** The first draw is refused, and so is the order of the group. *)
Definition pace_draws : list Z := [0; N_HEX; 3; 2].

Lemma pace_agrees_with_card_witness :
  ∃ k_enc k_mac,
    run_pace_with_can 4 pace_can (pace_card, pace_draws)
      = ((picc_enter (Pi_Open k_enc k_mac) pace_card, []), Ok (mkPaceSession k_enc k_mac Ssc_INITIAL)) ∧
    ∀ T (t : T), sm_in_sync (SmTransport_new (mkSmPeer t k_enc k_mac Ssc_INITIAL) (mkPaceSession k_enc k_mac Ssc_INITIAL)).
Proof.
  apply (pace_agrees_with_card 4 pace_card pace_draws [2] [] 3 2); first [by vm_compute|by repeat (constructor; [by vm_compute|])].
Defined.

Definition pace_outcome : Type := (Picc * list Z) * result (PaceError (TransportDispatchError string) string) PaceSession.
Definition pace_demo : pace_outcome := run_pace_with_can 4 pace_can (pace_card, pace_draws).
Definition session_of (o : pace_outcome) : PaceSession :=
  match o.2 with Ok session => session | _ => mkPaceSession [] [] [] end.
Definition has_session (o : pace_outcome) : bool := match o.2 with Ok _ => true | _ => false end.

Lemma pace_session_authentic_witness :
  has_session pace_demo = true ∧
  ∃ cs rs, exchanged pace_card cs rs pace_demo.1.1 ∧ Forall ResponseApdu_is_ok rs ∧
    pace_transcript pace_can (session_of pace_demo) cs rs.
Proof.
  assert (∀ o : pace_outcome, run_pace_with_can 4 pace_can (pace_card, pace_draws) = o → has_session o = true →
    ∃ cs rs, exchanged pace_card cs rs o.1.1 ∧ Forall ResponseApdu_is_ok rs ∧ pace_transcript pace_can (session_of o) cs rs) as Hall.
  { intros [[t r] [session|e|]] Ho Hs; [|discriminate Hs..]. exact (pace_session_authentic 4 pace_can pace_card t pace_draws r session Ho). }
  assert (has_session pace_demo = true) as Hok by by vm_compute. split; [exact Hok|].
  exact (Hall pace_demo eq_refl Hok).
Defined.
End pace_witnesses.
