(* ===== verification/Display.v ===== *)
(** The texts of errors, as far as other parts look at them or keep them: the
    implementations of [core::fmt::Display] in ber.rs, transport.rs, secure_messaging.rs,
    pace.rs, iso8601.rs, country.rs, identity.rs and crypto/rsa.rs of
    crates/refineid-lib-core/src, with the number formats of the standard library. *)

From S2P Require Import Prelude Decimal Iso8601 Country Ber Rsa Transport SecureMessaging Identity Pace.

(** [core::fmt::Display]. *)
Class Display (A : Type) := fmt : A → bytes.

Definition txt (s : string) : bytes := bytes_of_string s.

(** ** Hexadecimal numbers *)

Definition lower_hex (d : Z) : Z := if d <? 10 then 0x30 + d else 0x61 + (d - 10).
Definition upper_hex (d : Z) : Z := if d <? 10 then 0x30 + d else 0x41 + (d - 10).
Fixpoint hex_digits (digit : Z → Z) (fuel : nat) (n : Z) : bytes :=
  match fuel with
  | O => []
  | S fuel => if n <? 16 then [digit n] else hex_digits digit fuel (n / 16) ++ [digit (n mod 16)]
  end.
(** [{:#0wx}] and [{:#0wX}]: the prefix counts for the width. *)
Definition hex_padded (digit : Z → Z) (width : nat) (n : Z) : bytes :=
  let digits := hex_digits digit (S (Z.to_nat (Z.log2 n))) n in
  txt "0x" ++ replicate (width - 2 - length digits) 0x30 ++ digits.

(** ** The parts *)

#[export] Instance BerError_Display : Display BerError := λ e,
  match e with
  | Ber_Empty => txt "BER: empty input"
  | Ber_Truncated => txt "BER: truncated input"
  | Ber_UnsupportedLengthForm => txt "BER: length form not supported"
  | Ber_UnexpectedTag expected got =>
      txt "BER: expected tag " ++ hex_padded upper_hex 0 expected ++ txt ", got " ++ hex_padded upper_hex 0 got
  end.

#[export] Instance TransportOutcome_Display : Display TransportOutcome := λ o,
  match o with
  | To_Response response =>
      txt "response SW=" ++ hex_padded upper_hex 6 (ResponseApdu_sw response) ++ txt " body=" ++ dec (len (rsp_body response)) ++ txt "B"
  | To_NoCard => txt "no card present"
  | To_TimeoutUnknownState => txt "transport timeout; card state unknown"
  | To_CardReset => txt "card reset during transport"
  | To_ProtocolDesync => txt "transport protocol desynchronised"
  | To_ReaderRemoved => txt "reader or card removed"
  end.
#[export] Instance TransportDispatchError_Display `{Display E} : Display (TransportDispatchError E) := λ e,
  match e with Tde_Error error => fmt error | Tde_Outcome outcome => fmt outcome end.

#[export] Instance SmError_Display `{Display TE} : Display (SmError TE) := λ e,
  match e with
  | Sm_Transport e => txt "SM transport: " ++ fmt e
  | Sm_Malformed w => txt "SM: malformed response - " ++ txt w
  | Sm_MacMismatch => txt "SM: card MAC did not match"
  | Sm_CommandTooLong => txt "SM: wrapped command exceeds 255 bytes"
  end.

#[export] Instance PaceError_Display `{Display TE} `{Display RE} : Display (PaceError TE RE) := λ e,
  match e with
  | Pace_Transport e => txt "PACE transport: " ++ fmt e
  | Pace_Ber e => txt "PACE BER: " ++ fmt e
  | Pace_Sw stage sw => txt "PACE " ++ txt stage ++ txt ": card returned SW=" ++ hex_padded upper_hex 6 sw
  | Pace_UnexpectedResponse w => txt "PACE unexpected response: " ++ txt w
  | Pace_InvalidPoint => txt "PACE: card sent an off-curve EC point"
  | Pace_AuthMismatch => txt "PACE: mutual auth tag did not match"
  | Pace_Random e => txt "PACE random: " ++ fmt e
  end.

#[export] Instance Iso8601Error_Display : Display Iso8601Error := λ e,
  match e with
  | Ie_YearOutOfRange year min max => txt "year " ++ dec year ++ txt " outside " ++ dec min ++ txt "..=" ++ dec max
  | Ie_MonthOutOfRange month => txt "month " ++ dec month ++ txt " outside 1..=12"
  | Ie_DayOutOfRange day month year =>
      txt "day " ++ dec day ++ txt " outside valid range for " ++ dec_pad 4 year ++ txt "-" ++ dec_pad 2 month
  | Ie_HourOutOfRange hour => txt "hour " ++ dec hour ++ txt " outside 0..=23"
  | Ie_MinuteOutOfRange minute => txt "minute " ++ dec minute ++ txt " outside 0..=59"
  | Ie_SecondOutOfRange second => txt "second " ++ dec second ++ txt " outside 0..=60"
  | Ie_OffsetHoursOutOfRange hours => txt "offset hours " ++ dec hours ++ txt " outside 0..=14"
  | Ie_OffsetMinutesOutOfRange minutes => txt "offset minutes " ++ dec minutes ++ txt " outside 0..=59"
  | Ie_ParseShape production got_bytes =>
      txt production ++ txt ": got " ++ dec got_bytes ++ txt " bytes, expected the production's fixed length"
  | Ie_ParseChars production at_ =>
      txt production ++ txt ": byte at index " ++ dec at_ ++ txt " is outside the production's character class"
  end.

#[export] Instance CountryError_Display : Display CountryError := λ e,
  match e with
  | Country_Empty => txt "country code cannot be empty"
  | Country_WrongLength expected got => txt "country code wrong length: expected " ++ txt expected ++ txt ", got " ++ dec got
  | Country_NotAsciiLetter at_ byte =>
      txt "country code must be ASCII letters only; non-letter at offset " ++ dec at_ ++ txt ": byte " ++ hex_padded lower_hex 4 byte
  end.

#[export] Instance MrzNameError_Display : Display MrzNameError := λ e,
  match e with
  | Mne_Empty => txt "MRZ name cannot be empty"
  | Mne_TooLong got max => txt "MRZ name length " ++ dec got ++ txt " bytes exceeds maximum " ++ dec max
  | Mne_InvalidChar at_ byte => txt "MRZ name byte " ++ hex_padded lower_hex 4 byte ++ txt " at index " ++ dec at_ ++ txt " is not in [A-Z<]"
  end.

#[export] Instance RsaVerifyError_Display : Display RsaVerifyError := λ e,
  match e with
  | Rsa_BadModulus => txt "RSA: malformed modulus"
  | Rsa_SignatureOutOfRange => txt "RSA: signature out of range vs modulus"
  | Rsa_BadPadding => txt "RSA: PKCS#1 v1.5 padding mismatch"
  | Rsa_BadDigestInfo => txt "RSA: SHA-256 DigestInfo prefix mismatch"
  | Rsa_BadDigest => txt "RSA: signature digest does not match message"
  end.

(** [core::array::TryFromSliceError]. *)
Definition TryFromSliceError : bytes := txt "could not convert slice to array".

#[export] Instance string_Display : Display string := txt.

Example sw_text : hex_padded upper_hex 6 0x6982 = txt "0x6982" ∧ hex_padded upper_hex 6 0x63 = txt "0x0063" ∧
  hex_padded upper_hex 0 0x5F1F = txt "0x5F1F" ∧ hex_padded lower_hex 4 0x0A = txt "0x0a".
Proof. by vm_compute. Qed.
