(* ===== verification/Mrz.v ===== *)
(** The machine-readable zone of an identity card, of crates/refineid-lib-core/src/emrtd.rs:
    the text out of EF.DG1 and its three lines taken apart. *)

From S2P Require Import Prelude Decimal Iso8601 Utf8 Str Country Ber Identity Display.

Definition DG1_WRAPPER_TAG_BYTE : Z := 0x61.
Definition MRZ_DATA : Z := 0x5F1F.
Definition TD1_TOTAL_LEN : Z := 90.
Definition TD1_LINE_LEN : Z := 30.
Definition MRZ_DOCUMENT_TYPE_RANGE : Z * Z := (0, 2).
Definition MRZ_ISSUING_COUNTRY_RANGE : Z * Z := (2, 5).
Definition MRZ_DOCUMENT_NUMBER_RANGE : Z * Z := (5, 14).
Definition MRZ_BIRTH_DATE_RANGE : Z * Z := (0, 6).
Definition MRZ_SEX_OFFSET : Z := 7.
Definition MRZ_EXPIRY_DATE_RANGE : Z * Z := (8, 14).
Definition MRZ_NATIONALITY_RANGE : Z * Z := (15, 18).

Record ParsedMrz := mkParsedMrz {
  mrz_raw : bytes;
  mrz_document_type : bytes;
  mrz_issuing_country : IcaoCountry;
  mrz_document_number : bytes;
  mrz_date_of_birth : MrzDate;
  mrz_sex : MrzSex;
  mrz_date_of_expiry : MrzDate;
  mrz_nationality : IcaoCountry;
  mrz_primary_identifier : MrzSurname;
  mrz_secondary_identifier : MrzGivenName;
}.
Definition gender_token (m : ParsedMrz) : string := MrzSex_fluent_token (mrz_sex m).

Inductive MrzParseError := Mrz_Shape (detail : bytes) | Mrz_Field (detail : bytes).
#[export] Instance MrzParseError_Display : Display MrzParseError := λ e,
  match e with Mrz_Shape detail => txt "TD1 shape: " ++ detail | Mrz_Field detail => txt "TD1 field: " ++ detail end.

(** ** EF.DG1 *)

(** [Dg1Bytes]: the contents of the wrapper. *)
Definition Dg1Bytes_parse (dg1 : bytes) : result BerError BerTlvAny := BerTlv_parse DG1_WRAPPER_TAG_BYTE dg1.
(** The first object with the tag, in front of any that does not parse. *)
Fixpoint mrz_data (items : list (result BerError BerTlvAny)) : option bytes :=
  match items with
  | Ok child :: items => if any_tag child =? MRZ_DATA then str_from_utf8 (any_value child) else mrz_data items
  | _ => None
  end.
Definition extract_mrz_string (dg1 : BerTlvAny) : option bytes := mrz_data (BerTlvIter_items (any_value dg1)).

(** ** The lines *)

Definition trim_start (b : Z) (s : bytes) : bytes := skip_while (is_byte_eq b) s.
Definition is_ascii_text (s : bytes) : bool := forallb (λ b, b <? 0x80) s.

(** [line.get(range)], the error when it is not there, [MrzField::parse] and [trim_fillers]. *)
Definition mrz_range (line : bytes) (range : Z * Z) (missing : string) : result MrzParseError bytes :=
  ok_or (zslice range.1 range.2 line) (Mrz_Shape (txt missing)).
Definition MrzField_parse (bs : bytes) : result MrzParseError bytes :=
  if is_ascii_text bs then Ok bs else Err (Mrz_Field (txt "field is not ASCII")).
Definition trim_fillers (field : bytes) : bytes := trim_end 0x3C (trim_start 0x3C (String_from_utf8_lossy field)).
Definition mrz_field (line : bytes) (range : Z * Z) (missing : string) : result MrzParseError bytes :=
  let? bs := mrz_range line range missing in
  let? field := MrzField_parse bs in
  Ok (trim_fillers field).

(** [MrzNameField::split]. *)
Definition MrzNameField_split (line : bytes) : bytes * bytes :=
  let trimmed := trim_end 0x3C (String_from_utf8_lossy line) in
  match split_once_fillers [] trimmed with
  | Some (surname, given) => (surname, given)
  | None => (trimmed, [])
  end.

Definition field_error `{Display E} {A} (r : result E A) : result MrzParseError A := map_err (λ e, Mrz_Field (fmt e)) r.
(** A date of six octets at a range. *)
Definition mrz_date (line : bytes) (range : Z * Z) (missing : string) : result MrzParseError MrzDate :=
  let? bs := mrz_range line range missing in
  if negb (len bs =? 6) then Err (Mrz_Shape TryFromSliceError) else field_error (MrzDate_from_mrz_yymmdd bs).

(** [chars().filter(|c| !c.is_whitespace())]. *)
Definition strip_whitespace (raw : bytes) : bytes := concat (List.filter (λ c, negb (blank c)) (chars_of (length raw) raw)).

Definition parse_td1 (raw : bytes) : result MrzParseError ParsedMrz :=
  let stripped := strip_whitespace raw in
  if negb (is_ascii_text stripped) then Err (Mrz_Shape (txt "MRZ contains non-ASCII bytes"))
  else if negb (len stripped =? TD1_TOTAL_LEN) then Err (Mrz_Shape TryFromSliceError)
  else
    let line1 := take 30 stripped in
    let line2 := take 30 (drop 30 stripped) in
    let line3 := drop 60 stripped in
    let? document_type := mrz_field line1 MRZ_DOCUMENT_TYPE_RANGE "document-type range missing" in
    let? issuing := mrz_field line1 MRZ_ISSUING_COUNTRY_RANGE "issuing-country range missing" in
    let? issuing_country := field_error (IcaoCountry_new issuing) in
    let? document_number := mrz_field line1 MRZ_DOCUMENT_NUMBER_RANGE "document-number range missing" in
    let? date_of_birth := mrz_date line2 MRZ_BIRTH_DATE_RANGE "birth-date range missing" in
    let? sex := ok_or (zget MRZ_SEX_OFFSET line2) (Mrz_Shape (txt "sex offset missing")) in
    let? date_of_expiry := mrz_date line2 MRZ_EXPIRY_DATE_RANGE "expiry-date range missing" in
    let? nation := mrz_field line2 MRZ_NATIONALITY_RANGE "nationality range missing" in
    let? nationality := field_error (IcaoCountry_new nation) in
    let '(primary, secondary) := MrzNameField_split line3 in
    let? primary_identifier := field_error (MrzSurname_new primary) in
    let? secondary_identifier := field_error (MrzGivenName_new secondary) in
    Ok (mkParsedMrz stripped document_type issuing_country document_number date_of_birth (MrzSex_from_mrz_byte sex)
          date_of_expiry nationality primary_identifier secondary_identifier).

(** ** Fillers *)

Lemma skip_while_spec {A} (p : A → bool) l r :
  skip_while p l = r ↔ ∃ a, l = a ++ r ∧ Forall (λ x, p x = true) a ∧ match r with x :: _ => p x = false | [] => True end.
Proof.
  split.
  - intros <-. induction l as [|x l (a & Hl & Ha & Hr)]; [by exists []|]. cbn [skip_while]. destruct (p x) eqn:Hx; [|by exists []].
    exists (x :: a). split; [cbn; by f_equal|]. split; [by constructor|done].
  - intros (a & -> & Ha & Hr). induction Ha as [|x a Hx _ IH]; cbn [skip_while app]; [|by rewrite Hx].
    destruct r as [|x r]; [done|]. cbn [skip_while]. by rewrite Hr.
Qed.
Lemma fillers_replicate a : Forall (λ x, is_byte_eq 0x3C x = true) a ↔ ∃ n, a = replicate n 0x3C.
Proof.
  split.
  - intros Ha. exists (length a). induction Ha as [|x a Hx%Z.eqb_eq _ IH]; [done|]. cbn. subst x. by f_equal.
  - intros (n & ->). by apply Forall_replicate.
Qed.
Lemma not_filler_head r : match r with x :: _ => is_byte_eq 0x3C x = false | [] => True end ↔ head r ≠ Some 0x3C.
Proof. destruct r as [|x r]; [done|]. cbn. unfold is_byte_eq. rewrite Z.eqb_neq. split; congruence. Qed.
Lemma trim_start_iff s r : trim_start 0x3C s = r ↔ ∃ n, s = replicate n 0x3C ++ r ∧ head r ≠ Some 0x3C.
Proof.
  unfold trim_start. rewrite skip_while_spec. setoid_rewrite not_filler_head. setoid_rewrite fillers_replicate. naive_solver.
Qed.
Lemma head_reverse {A} (l : list A) : head (reverse l) = list.last l.
Proof. by rewrite list.head_reverse. Qed.
Lemma trim_end_iff s r : trim_end 0x3C s = r ↔ ∃ n, s = r ++ replicate n 0x3C ∧ list.last r ≠ Some 0x3C.
Proof.
  unfold trim_end. transitivity (skip_while (is_byte_eq 0x3C) (reverse s) = reverse r).
  { split; [intros <-; by rewrite reverse_involutive|intros ->; by rewrite reverse_involutive]. }
  rewrite skip_while_spec. setoid_rewrite not_filler_head. setoid_rewrite fillers_replicate. rewrite head_reverse. split.
  - intros (a & Hs & (n & ->) & Hr). exists n. split; [|done]. apply (f_equal reverse) in Hs.
    rewrite reverse_app, !reverse_involutive, reverse_replicate in Hs. done.
  - intros (n & -> & Hr). exists (replicate n 0x3C). rewrite reverse_app, reverse_replicate. naive_solver.
Qed.

(** The text of a field that is filled up on either side. *)
Definition filled (text field : bytes) : Prop :=
  ∃ i j, field = replicate i 0x3C ++ text ++ replicate j 0x3C ∧ head text ≠ Some 0x3C ∧ list.last text ≠ Some 0x3C.

Definition ascii (s : bytes) : Prop := Forall (λ b, b < 0x80) s.
Lemma is_ascii_text_iff s : is_ascii_text s = true ↔ ascii s.
Proof. unfold is_ascii_text, ascii. rewrite forallb_forall, Forall_forall. by setoid_rewrite Z.ltb_lt. Qed.
Lemma lossy_ascii fuel s : ascii s → (length s ≤ fuel)%nat → utf8_lossy fuel s = s.
Proof.
  intros Hs. revert fuel. induction Hs as [|b s Hb _ IH]; intros fuel Hf; [by destruct fuel|].
  destruct fuel as [|fuel]; [simpl in Hf; lia|]. cbn [utf8_lossy utf8_step]. destruct (Z.ltb_spec b 128); [|lia].
  cbn [take drop app]. f_equal. apply IH. simpl in Hf. lia.
Qed.
Lemma lossy_ascii_id s : ascii s → String_from_utf8_lossy s = s.
Proof. intros Hs. by apply lossy_ascii. Qed.

Lemma trim_fillers_iff field text : ascii field → trim_fillers field = text ↔ filled text field.
Proof.
  intros Ha. unfold trim_fillers. rewrite lossy_ascii_id by done. split.
  - intros Ht. pose proof (proj1 (trim_start_iff field _) eq_refl) as (i & Hf & Hh). set (r := trim_start 0x3C field) in *.
    apply trim_end_iff in Ht as (j & Hr & Hl). exists i, j. split; [by rewrite Hf, Hr|]. split; [|done].
    rewrite Hr in Hh. by destruct text.
  - intros (i & j & -> & Hh & Hl). destruct text as [|b text].
    + rewrite app_nil_l, <- replicate_add. assert (trim_start 0x3C (replicate (i + j) 0x3C) = []) as ->.
      { apply trim_start_iff. exists (i + j)%nat. by rewrite app_nil_r. }
      done.
    + assert (trim_start 0x3C (replicate i 0x3C ++ (b :: text) ++ replicate j 0x3C) = (b :: text) ++ replicate j 0x3C) as ->.
      { apply trim_start_iff. by exists i. }
      apply trim_end_iff. by exists j.
Qed.

(** ** Names *)

(** Two fillers nowhere in it. *)
Definition no_double_filler (s : bytes) : Prop := ∀ a b, s ≠ a ++ [0x3C; 0x3C] ++ b.
Lemma split_fillers_iff seen raw s g :
  split_once_fillers seen raw = Some (s, g) ↔ ∃ t, s = seen ++ t ∧ raw = t ++ [0x3C; 0x3C] ++ g ∧ no_double_filler (t ++ [0x3C]).
Proof.
  revert seen. induction raw as [|b raw IH]; intros seen; cbn [split_once_fillers].
  { split; [done|]. intros (t & _ & Hr & _). by destruct t. }
  unfold starts_with. case_bool_decide as Hs.
  - assert (∃ r, b :: raw = [0x3C; 0x3C] ++ r) as [r Hr].
    { exists (drop 2 (b :: raw)). rewrite <- Hs at 1. by rewrite take_drop. }
    rewrite Hr. cbn [drop app]. rewrite drop_0. split.
    + intros [= <- <-]. exists []. rewrite app_nil_r. split; [done|]. split; [done|].
      intros a c. destruct a as [|x [|y a]]; cbn; congruence.
    + intros (t & -> & Ht & Hn). destruct t as [|x t]; [rewrite app_nil_r; cbn in Ht; congruence|]. exfalso.
      destruct t as [|y t]; cbn in Ht.
      * injection Ht as <- _. by apply (Hn [] []).
      * injection Ht as <- <- _. by apply (Hn [] (t ++ [0x3C])).
  - rewrite IH. split.
    + intros (t & -> & -> & Hn). exists (b :: t). rewrite <- app_assoc. split; [done|]. split; [done|].
      intros a c. destruct a as [|x a]; [|cbn; intros [= _ Ha]; by apply (Hn a c)].
      cbn. intros [= -> Ha]. apply Hs. destruct t as [|y t]; [done|]. cbn in Ha. injection Ha as -> _. done.
    + intros (t & -> & Hr & Hn). destruct t as [|x t]; [cbn in Hr; injection Hr as -> ->; done|].
      cbn in Hr. injection Hr as -> ->. exists t. rewrite <- app_assoc. split; [done|]. split; [done|].
      intros a c Ha. apply (Hn (x :: a) c). cbn. by f_equal.
Qed.
(** The line of a surname and given names. *)
Definition name_line (surname given line : bytes) : Prop :=
  ∃ k, line = surname ++ [0x3C; 0x3C] ++ given ++ replicate k 0x3C ∧
    surname ≠ [] ∧ given ≠ [] ∧ list.last given ≠ Some 0x3C ∧ no_double_filler (surname ++ [0x3C]) ∧
    Forall (λ b, mrz_name_byte b = true) (surname ++ given).

Lemma last_app_ne {A} (a b : list A) : b ≠ [] → list.last (a ++ b) = list.last b.
Proof. intros Hb. rewrite last_app. destruct b as [|x b _] using rev_ind; [done|]. by rewrite last_snoc. Qed.
Lemma name_line_exact line surname given : ascii line → (length line ≤ 39)%nat →
  (let '(p, s) := MrzNameField_split line in MrzSurname_new p = Ok (mkMrzSurname surname) ∧ MrzGivenName_new s = Ok (mkMrzGivenName given)) ↔
  name_line surname given line.
Proof.
  intros Ha Hlen. unfold MrzNameField_split. rewrite lossy_ascii_id by done.
  pose proof (proj1 (trim_end_iff line _) eq_refl) as (k & Hl & Hlast). set (r := trim_end 0x3C line) in *.
  assert (∀ v n, MrzSurname_new v = Ok (mkMrzSurname n) ↔ v = n ∧ MrzNameInput_parse v = Ok tt) as Hs.
  { intros v n. unfold MrzSurname_new. destruct (MrzNameInput_parse v) as [[]|e|]; cbn; naive_solver. }
  assert (∀ v n, MrzGivenName_new v = Ok (mkMrzGivenName n) ↔ v = n ∧ MrzNameInput_parse v = Ok tt) as Hg.
  { intros v n. unfold MrzGivenName_new. destruct (MrzNameInput_parse v) as [[]|e|]; cbn; naive_solver. }
  destruct (split_once_fillers [] r) as [[s g]|] eqn:Hsp; rewrite Hs, Hg, !MrzNameInput_Ok.
  - apply split_fillers_iff in Hsp as (t & Ht & Hr & Hn). cbn in Ht. subst s. split.
    + intros [(-> & Hls & Hfs) (-> & Hlg & Hfg)]. exists k. split; [rewrite Hl, Hr; by rewrite <- !app_assoc|].
      split; [intros ->; unfold len in Hls; simpl in Hls; lia|]. split; [intros ->; unfold len in Hlg; simpl in Hlg; lia|].
      split; [|split; [done|by apply Forall_app]].
      rewrite Hr, app_assoc, last_app_ne in Hlast; [done|]. intros ->; unfold len in Hlg; simpl in Hlg; lia.
    + intros (k' & Hl' & Hs0 & Hg0 & Hgl & Hns & [Hfs Hfg]%Forall_app).
      assert (r = surname ++ [0x3C; 0x3C] ++ given) as Hr'.
      { apply trim_end_iff. exists k'. split; [rewrite Hl'; by rewrite <- !app_assoc|].
        by rewrite app_assoc, last_app_ne. }
      assert (split_once_fillers [] r = Some (surname, given)) as Hsp'.
      { rewrite Hr'. apply split_fillers_iff. by exists surname. }
      assert (split_once_fillers [] r = Some (t, g)) as Hsp2.
      { rewrite Hr. apply split_fillers_iff. by exists t. }
      rewrite Hsp' in Hsp2. injection Hsp2 as <- <-.
      assert (length surname + length given ≤ 39)%nat as Hlens by (rewrite Hl', !length_app in Hlen; lia).
      unfold len. destruct surname; [done|]. destruct given; [done|]. simpl in Hlens |- *. split_and!; (done || lia).
  - split; [intros [_ (_ & Hlg & _)]; unfold len in Hlg; simpl in Hlg; lia|]. intros (k' & Hl' & Hs0 & Hg0 & Hgl & Hns & _).
    assert (r = surname ++ [0x3C; 0x3C] ++ given) as Hr'.
    { apply trim_end_iff. exists k'. split; [rewrite Hl'; by rewrite <- !app_assoc|].
      by rewrite app_assoc, last_app_ne. }
    assert (split_once_fillers [] r = Some (surname, given)) as Hsp'; [|congruence].
    rewrite Hr'. apply split_fillers_iff. by exists surname.
Qed.

(** ** The zone *)

(** The date of six digits, in the century the reader takes it for. *)
Definition mrz_date_of (d : MrzDate) (digits : bytes) : Prop :=
  ∃ date, mrz_value d = Iso_Date date ∧ real_date date ∧ 1950 ≤ year date ≤ 2049 ∧ Date_to_mrz_yymmdd date = digits.
Definition mrz_country_of (c : IcaoCountry) (field : bytes) : Prop := ∃ code, filled code field ∧ IcaoCountry_new code = Ok c.

(** Three lines of thirty: document type, issuing state, document number, optional data;
    birth date, sex, expiry date, nationality, optional data; the names. The check digits
    stand between them. *)
Definition td1_zone (m : ParsedMrz) (zone : bytes) : Prop :=
  ∃ ty issuing number optional1 birth check1 sex expiry check2 nation optional2 names,
    zone = (ty ++ issuing ++ number ++ optional1) ++
           (birth ++ [check1; sex] ++ expiry ++ [check2] ++ nation ++ optional2) ++ names ∧
    (length ty = 2%nat ∧ length issuing = 3%nat ∧ length number = 9%nat ∧ length optional1 = 16%nat) ∧
    (length birth = 6%nat ∧ length expiry = 6%nat ∧ length nation = 3%nat ∧ length optional2 = 12%nat) ∧ length names = 30%nat ∧
    mrz_raw m = zone ∧ filled (mrz_document_type m) ty ∧ mrz_country_of (mrz_issuing_country m) issuing ∧
    filled (mrz_document_number m) number ∧ mrz_date_of (mrz_date_of_birth m) birth ∧ mrz_sex m = MrzSex_from_mrz_byte sex ∧
    mrz_date_of (mrz_date_of_expiry m) expiry ∧ mrz_country_of (mrz_nationality m) nation ∧
    name_line (MrzSurname_0 (mrz_primary_identifier m)) (MrzGivenName_0 (mrz_secondary_identifier m)) names.

Lemma cut {A} n (l : list A) : (n ≤ length l)%nat → ∃ a b, l = a ++ b ∧ length a = n ∧ length b = (length l - n)%nat.
Proof. intros Hn. exists (take n l), (drop n l). rewrite take_drop, length_take, length_drop. split_and!; [done|lia..]. Qed.
Lemma length_1 {A} (l : list A) : length l = 1%nat → ∃ x, l = [x].
Proof. destruct l as [|x [|]]; try done. by exists x. Qed.
Ltac cut_off n l a b Ha Hb :=
  let H := fresh in destruct (cut n l) as (a & b & H & Ha & Hb); [lia|]; subst l.

Lemma mrz_field_at line a f b range missing :
  line = a ++ f ++ b → range = (Z.of_nat (length a), Z.of_nat (length a) + Z.of_nat (length f)) → ascii f →
  mrz_field line range missing = Ok (trim_fillers f).
Proof.
  intros -> -> Hf. unfold mrz_field, mrz_range. cbn [fst snd]. rewrite zslice_app_exact by done. cbn [ok_or result_bind].
  unfold MrzField_parse. by rewrite (proj2 (is_ascii_text_iff f) Hf).
Qed.
Lemma mrz_date_at line a f b range missing :
  line = a ++ f ++ b → range = (Z.of_nat (length a), Z.of_nat (length a) + 6) → length f = 6%nat →
  mrz_date line range missing = field_error (MrzDate_from_mrz_yymmdd f).
Proof.
  intros -> -> Hf. unfold mrz_date, mrz_range. cbn [fst snd]. rewrite (zslice_app_exact _ _ a f b) by lia. cbn [ok_or result_bind].
  unfold len. by rewrite Hf.
Qed.
Lemma field_error_Ok `{Display E} {A} (r : result E A) a : field_error r = Ok a → r = Ok a.
Proof. apply map_err_Ok. Qed.
Lemma mrz_date_iff digits d : length digits = 6%nat → MrzDate_from_mrz_yymmdd digits = Ok d ↔ mrz_date_of d digits.
Proof.
  intros Hl. unfold MrzDate_from_mrz_yymmdd, mrz_date_of. split.
  - intros (date & Hd%mrz_iff & [= <-])%result_bind_inv_ok; [|done]. exists date. naive_solver.
  - intros (date & Hv & Hd). assert (Date_from_mrz_yymmdd digits = Ok date) as -> by by apply mrz_iff. destruct d as [v]. cbn in *. by subst.
Qed.
Lemma mrz_country_iff field c : ascii field → IcaoCountry_new (trim_fillers field) = Ok c ↔ mrz_country_of c field.
Proof.
  intros Ha. split; [intros Hc; exists (trim_fillers field); split; [by apply trim_fillers_iff|done]|].
  intros (code & Hf%trim_fillers_iff & Hc); [|done]. by rewrite Hf.
Qed.

(** The reader on the pieces of a zone. *)
Lemma parse_td1_pieces raw ty issuing number optional1 birth check1 sex expiry check2 nation optional2 names :
  let zone := (ty ++ issuing ++ number ++ optional1) ++ (birth ++ [check1; sex] ++ expiry ++ [check2] ++ nation ++ optional2) ++ names in
  strip_whitespace raw = zone → ascii zone →
  (length ty = 2%nat ∧ length issuing = 3%nat ∧ length number = 9%nat ∧ length optional1 = 16%nat) →
  (length birth = 6%nat ∧ length expiry = 6%nat ∧ length nation = 3%nat ∧ length optional2 = 12%nat) → length names = 30%nat →
  parse_td1 raw =
    let? issuing_country := field_error (IcaoCountry_new (trim_fillers issuing)) in
    let? date_of_birth := field_error (MrzDate_from_mrz_yymmdd birth) in
    let? date_of_expiry := field_error (MrzDate_from_mrz_yymmdd expiry) in
    let? nationality := field_error (IcaoCountry_new (trim_fillers nation)) in
    let? primary := field_error (MrzSurname_new (MrzNameField_split names).1) in
    let? secondary := field_error (MrzGivenName_new (MrzNameField_split names).2) in
    Ok (mkParsedMrz zone (trim_fillers ty) issuing_country (trim_fillers number) date_of_birth (MrzSex_from_mrz_byte sex)
          date_of_expiry nationality primary secondary).
Proof.
  intros zone Hs Ha (Hty & Hiss & Hnum & Ho1) (Hb & He & Hna & Ho2) Hn. unfold parse_td1. rewrite Hs.
  rewrite (proj2 (is_ascii_text_iff zone) Ha). cbn [negb].
  set (l1 := ty ++ issuing ++ number ++ optional1) in *. set (l2 := birth ++ _) in *.
  assert (length l1 = 30%nat) as Hl1 by (unfold l1; rewrite !length_app; lia).
  assert (length l2 = 30%nat) as Hl2 by (unfold l2; rewrite !length_app; simpl; lia).
  assert (len zone = 90) as -> by (unfold len, zone; rewrite !length_app; lia). cbn [Z.eqb negb TD1_TOTAL_LEN].
  assert (take 30 zone = l1) as -> by (rewrite <- Hl1; apply take_app_length).
  assert (drop 30 zone = l2 ++ names) as -> by (rewrite <- Hl1; apply drop_app_length).
  assert (take 30 (l2 ++ names) = l2) as -> by (rewrite <- Hl2; apply take_app_length).
  assert (drop 60 zone = names) as ->.
  { unfold zone. rewrite app_assoc. replace 60%nat with (length (l1 ++ l2)) by (rewrite length_app; lia). apply drop_app_length. }
  unfold ascii in Ha. unfold zone, l1, l2 in Ha. rewrite !Forall_app in Ha.
  destruct Ha as ((Haty & Haiss & Hanum & _) & (_ & _ & _ & _ & Hana & _) & _).
  rewrite (mrz_field_at l1 [] ty (issuing ++ number ++ optional1)); [|done|rewrite Hty; done|done]. cbn [result_bind].
  rewrite (mrz_field_at l1 ty issuing (number ++ optional1)); [|done|rewrite Hty, Hiss; done|done]. cbn [result_bind].
  rewrite (mrz_field_at l1 (ty ++ issuing) number optional1); [|unfold l1; by rewrite <- app_assoc|rewrite length_app, Hty, Hiss, Hnum; done|done].
  rewrite (mrz_date_at l2 [] birth ([check1; sex] ++ expiry ++ [check2] ++ nation ++ optional2)); [|done|done|done]. cbn [result_bind].
  assert (zget MRZ_SEX_OFFSET l2 = Some sex) as ->.
  { unfold l2. change ([check1; sex] ++ ?x) with ([check1] ++ sex :: x). rewrite app_assoc. apply zget_Some. eexists _, _.
    split; [done|]. rewrite length_app, Hb. done. }
  rewrite (mrz_date_at l2 (birth ++ [check1; sex]) expiry ([check2] ++ nation ++ optional2)); [|unfold l2; by rewrite <- app_assoc|rewrite length_app, Hb; done|done].
  rewrite (mrz_field_at l2 (birth ++ [check1; sex] ++ expiry ++ [check2]) nation optional2);
    [|unfold l2; by rewrite <- !app_assoc|rewrite !length_app, Hb, He, Hna; done|done].
  cbn [ok_or result_bind]. by destruct (MrzNameField_split names).
Qed.

(** Ninety characters in their fields. *)
Lemma zone_pieces {A} (zone : list A) : length zone = 90%nat →
  ∃ ty issuing number optional1 birth check1 sex expiry check2 nation optional2 names,
    zone = (ty ++ issuing ++ number ++ optional1) ++ (birth ++ [check1; sex] ++ expiry ++ [check2] ++ nation ++ optional2) ++ names ∧
    (length ty = 2%nat ∧ length issuing = 3%nat ∧ length number = 9%nat ∧ length optional1 = 16%nat) ∧
    (length birth = 6%nat ∧ length expiry = 6%nat ∧ length nation = 3%nat ∧ length optional2 = 12%nat) ∧ length names = 30%nat.
Proof.
  intros Hl.
  cut_off 2%nat zone ty z1 Hty Hz1. cut_off 3%nat z1 issuing z2 Hi Hz2. cut_off 9%nat z2 number z3 Hnum Hz3. cut_off 16%nat z3 optional1 z4 Ho1 Hz4.
  cut_off 6%nat z4 birth z5 Hb Hz5. cut_off 1%nat z5 c1 z6 Hc1 Hz6. cut_off 1%nat z6 sx z7 Hsx Hz7. cut_off 6%nat z7 expiry z8 He Hz8.
  cut_off 1%nat z8 c2 z9 Hc2 Hz9. cut_off 3%nat z9 nation z10 Hna Hz10. cut_off 12%nat z10 optional2 names Ho2 Hn.
  destruct (length_1 c1 Hc1) as [check1 ->], (length_1 sx Hsx) as [sex ->], (length_1 c2 Hc2) as [check2 ->].
  exists ty, issuing, number, optional1, birth, check1, sex, expiry, check2, nation, optional2, names.
  rewrite <- !app_assoc. rewrite !length_app in *. simpl in *. split_and!; (done || lia).
Qed.

(** C34: The zone of an identity card is read as it is laid out. The text, less its white
    space, is accepted exactly when it is three lines of thirty ASCII characters that hold
    a document type, a state, a number, two dates, a sex, a nationality and a surname with
    given names, each filled up; and what is read is what stands there. The check digits
    and the optional data may be anything. Both dates, of birth and of expiry, are given as
    days of the years 1950 to 2049 by the parse itself, although the comments of ParsedMrz
    leave the century to the caller. *)
Theorem td1_exact raw m : parse_td1 raw = Ok m ↔ ascii (strip_whitespace raw) ∧ td1_zone m (strip_whitespace raw).
Proof.
  split.
  - intros Hp. assert (ascii (strip_whitespace raw) ∧ length (strip_whitespace raw) = 90%nat) as [Ha Hl].
    { unfold parse_td1 in Hp. destruct (is_ascii_text _) eqn:Ha; [|done]. cbn [negb] in Hp.
      destruct (Z.eqb_spec (len (strip_whitespace raw)) TD1_TOTAL_LEN) as [Hl|]; [|done].
      split; [by apply is_ascii_text_iff|]. unfold len, TD1_TOTAL_LEN in Hl. lia. }
    split; [done|].
    destruct (zone_pieces (strip_whitespace raw) Hl) as (ty & issuing & number & optional1 & birth & check1 & sex & expiry & check2 & nation & optional2 & names & Hz & Hl1 & Hl2 & Hn).
    rewrite (parse_td1_pieces raw ty issuing number optional1 birth check1 sex expiry check2 nation optional2 names) in Hp by (done || by rewrite <- Hz).
    assert (ascii ty ∧ ascii issuing ∧ ascii number ∧ ascii nation ∧ ascii names) as (Aty & Ai & An & Ana & Anm) by (unfold ascii in *; rewrite Hz, !Forall_app in Ha; naive_solver).
    exists ty, issuing, number, optional1, birth, check1, sex, expiry, check2, nation, optional2, names.
    apply result_bind_inv_ok in Hp as (ic & Hic%field_error_Ok & Hp). apply result_bind_inv_ok in Hp as (db & Hdb%field_error_Ok & Hp).
    apply result_bind_inv_ok in Hp as (de & Hde%field_error_Ok & Hp). apply result_bind_inv_ok in Hp as (na & Hnac%field_error_Ok & Hp).
    apply result_bind_inv_ok in Hp as (pr & Hpr%field_error_Ok & Hp). apply result_bind_inv_ok in Hp as (sc & Hsc%field_error_Ok & [= <-]). cbn [mrz_raw mrz_document_type mrz_issuing_country mrz_document_number mrz_date_of_birth mrz_sex mrz_date_of_expiry mrz_nationality mrz_primary_identifier mrz_secondary_identifier].
    split; [done|]. split; [done|]. split; [done|]. split; [done|]. split; [by symmetry|].
    split; [by apply trim_fillers_iff|]. split; [by apply mrz_country_iff|]. split; [by apply trim_fillers_iff|].
    split; [apply mrz_date_iff; [by destruct Hl2|done]|]. split; [done|]. split; [apply mrz_date_iff; [by destruct Hl2 as (_ & ? & _)|done]|]. split; [by apply mrz_country_iff|].
    apply name_line_exact; [done|lia|]. destruct pr as [pr], sc as [sc]. by destruct (MrzNameField_split names).
  - intros [Ha (ty & issuing & number & optional1 & birth & check1 & sex & expiry & check2 & nation & optional2 & names & Hz & Hl1 & Hl2 & Hn & Hraw & Hdt & Hic & Hdn & Hdb & Hsx & Hde & Hna & Hnl)].
    assert (ascii ty ∧ ascii issuing ∧ ascii number ∧ ascii nation ∧ ascii names) as (Aty & Ai & An & Ana & Anm) by (unfold ascii in *; rewrite Hz, !Forall_app in Ha; naive_solver).
    rewrite (parse_td1_pieces raw ty issuing number optional1 birth check1 sex expiry check2 nation optional2 names) by (done || by rewrite <- Hz).
    apply trim_fillers_iff in Hdt, Hdn; [|done..]. apply mrz_country_iff in Hic, Hna; [|done..]. apply mrz_date_iff in Hdb, Hde; [|naive_solver..].
    apply name_line_exact in Hnl; [|done|lia]. rewrite Hic, Hdb, Hde, Hna. destruct (MrzNameField_split names) as [p s]. destruct Hnl as [Hp Hs]. cbn [fst snd].
    rewrite Hp, Hs. unfold field_error. cbn [map_err result_bind]. rewrite Hdt, Hdn, <- Hsx, <- Hz, <- Hraw.
    destruct m as [raw' dt ic dn db sx de na [pr] [sc]]. done.
Qed.

(** A specimen zone. Its check digits are not looked at: with every one of them spoilt it
    reads as the same card. *)
Definition specimen (c : string) : bytes :=
  txt ("I<FINXX99999994" +:+ "120190A999N<<<<" +:+ "860921" +:+ c +:+ "F320102" +:+ "8FIN<<<<<<<<<<<" +:+ c +:+ "MEIKALAINEN<<ANNA<MARIA<<<<<<<").
Example specimen_reads :
  match parse_td1 (specimen "7"), parse_td1 (specimen "X") with
  | Ok m, Ok m' => (mrz_document_number m = txt "XX9999999") ∧ MrzSurname_0 (mrz_primary_identifier m) = txt "MEIKALAINEN" ∧
      MrzGivenName_0 (mrz_secondary_identifier m) = txt "ANNA<MARIA" ∧ mrz_date_of_birth m' = mrz_date_of_birth m ∧
      mrz_document_number m' = mrz_document_number m
  | _, _ => False
  end.
Proof. by vm_compute. Qed.
