(* ===== verification/DataGroups.v ===== *)
(** The data groups of an identity card, of crates/refineid-lib-core/src/emrtd.rs: images,
    the personal and document details of EF.DG11 and EF.DG12, the security objects of
    EF.DG14 and the key of EF.DG15. *)

From S2P Require Import Prelude Iso8601 Utf8 Str Ber Identity.

(** ** Tags *)

Definition Dg11Wrapper_TAG : Z := 0x6B.
Definition Dg12Wrapper_TAG : Z := 0x6C.
Definition Dg14Wrapper_TAG : Z := 0x6E.
Definition Dg15Wrapper_TAG : Z := 0x6F.
Definition Dg1xContainerA0_TAG : Z := 0xA0.
Definition FULL_NAME : Z := 0x5F0E.
Definition OTHER_NAMES : Z := 0x5F0F.
Definition PERSONAL_NUMBER : Z := 0x5F10.
Definition FULL_DATE_OF_BIRTH : Z := 0x5F2B.
Definition PLACE_OF_BIRTH : Z := 0x5F11.
Definition PERMANENT_ADDRESS : Z := 0x5F42.
Definition TELEPHONE : Z := 0x5F12.
Definition PROFESSION : Z := 0x5F13.
Definition TITLE : Z := 0x5F14.
Definition PERSONAL_SUMMARY : Z := 0x5F15.
Definition PROOF_OF_CITIZENSHIP : Z := 0x5F16.
Definition OTHER_TD_NUMBERS : Z := 0x5F17.
Definition CUSTODY_INFORMATION : Z := 0x5F18.
Definition ISSUING_AUTHORITY : Z := 0x5F19.
Definition NAME_OF_OTHER_PERSON : Z := 0x5F1A.
Definition ENDORSEMENTS : Z := 0x5F1B.
Definition TAX_EXIT : Z := 0x5F1C.
Definition IMAGE_FRONT : Z := 0x5F1D.
Definition IMAGE_REAR : Z := 0x5F1E.
Definition DATE_OF_ISSUE : Z := 0x5F26.
Definition PERSONALISATION_TIME : Z := 0x5F55.
Definition PERSONALISATION_DEVICE_SERIAL : Z := 0x5F56.
Definition HIGH_TAG_NUMBER_MASK : Z := 0x1F.
Definition CONTINUATION_OR_LONG_FORM_MASK : Z := 0x80.
Definition LONG_FORM_LENGTH_COUNT_MASK : Z := 0x7F.

(** ** Images *)

Inductive DocumentImage := Jpeg (bs : bytes) | Jpeg2000 (bs : bytes).
Definition JPEG_MAGIC : bytes := [0xFF; 0xD8; 0xFF].
Definition JP2_MAGIC : bytes := [0x00; 0x00; 0x00; 0x0C; 0x6A; 0x50; 0x20; 0x20].

Definition scan_for_magic (candidate needle : bytes) : option nat :=
  if (len needle =? 0) || (len candidate <? len needle) then None
  else position (λ w, bool_decide (w = needle)) (windows (length needle) candidate).
(** The error has one value. *)
Definition DocumentImage_parse (buf : bytes) : result unit DocumentImage :=
  match scan_for_magic buf JPEG_MAGIC with
  | Some off => let? bs := ok_or (zslice (Z.of_nat off) (len buf) buf) tt in Ok (Jpeg bs)
  | None =>
      match scan_for_magic buf JP2_MAGIC with
      | Some off => let? bs := ok_or (zslice (Z.of_nat off) (len buf) buf) tt in Ok (Jpeg2000 bs)
      | None => Err tt
      end
  end.
Definition DocumentImage_bytes (i : DocumentImage) : bytes := match i with Jpeg b | Jpeg2000 b => b end.
Definition DocumentImage_extension (i : DocumentImage) : string := match i with Jpeg _ => "jpg" | Jpeg2000 _ => "jp2" end.

(** ** One object at the front of a buffer *)

(** [BerInput]: octets that are not empty. *)
Definition BerInput_parse (bs : bytes) : result unit bytes := match bs with [] => Err tt | _ => Ok bs end.
Definition remaining_from (bs : bytes) (offset : Z) : option bytes :=
  tail ← zslice offset (len bs) bs; result_ok (BerInput_parse tail).
Definition has_tag (tag : Z) (bs : bytes) : bool := bool_decide (head bs = Some tag).
Definition EmrtdHelpers_read_string (value : bytes) : bytes := str_trim (String_from_utf8_lossy value).

(** [checked_shl(8)] drops the bits it moves out; [checked_add] then has room. *)
Definition shift_octet (width : Z) (v b : Z) : option Z :=
  let shifted := Z.shiftl v 8 mod 2 ^ width in
  if shifted + b <? 2 ^ width then Some (shifted + b) else None.
Fixpoint big_endian (width v : Z) (l : bytes) : option Z :=
  match l with [] => Some v | b :: l => v ← shift_octet width v b; big_endian width v l end.

Definition usize_add (a b : Z) : option Z := if a + b <=? u64_max then Some (a + b) else None.

Definition read_ber_length (bs : bytes) : option (Z * Z) :=
  first ← head bs;
  if first <? CONTINUATION_OR_LONG_FORM_MASK then Some (1, first)
  else
    let extra := Z.land first LONG_FORM_LENGTH_COUNT_MASK in
    if (extra =? 0) || (len bs <? 1 + extra) then None
    else
      tail ← zslice 1 (extra + 1) bs;
      v ← big_endian 64 0 tail;
      Some (1 + extra, v).

Record BerTlvRead := mkBerTlvRead { read_tag : Z; read_value : bytes; read_total_size : Z }.
Definition read_two_byte_tag_tlv (bs : bytes) : option BerTlvRead :=
  first ← head bs;
  '(tag, idx) ← (if Z.land first HIGH_TAG_NUMBER_MASK =? HIGH_TAG_NUMBER_MASK
                 then second ← zget 1 bs; tag ← shift_octet 16 first second; Some (tag, 2)
                 else Some (first, 1));
  lengths ← remaining_from bs idx;
  '(len_size, content_len) ← read_ber_length lengths;
  header_size ← usize_add idx len_size;
  total_size ← usize_add header_size content_len;
  if total_size >? len bs then None
  else value ← zslice header_size total_size bs; Some (mkBerTlvRead tag value total_size).

(** ** The loops over objects: a round gives the next state, or stops *)

Fixpoint run_loop {E S} (fuel : nat) (round : S → option S) (s : S) : result E S :=
  match fuel with
  | O => Panic
  | S fuel => match round s with None => Ok s | Some s => run_loop fuel round s end
  end.
(** A loop that reads one object a round and looks at it. *)
Definition object_round {O} (visit : bytes → BerTlvRead → O → O) (der : bytes) (s : Z * O) : option (Z * O) :=
  let '(cursor, out) := s in
  if negb (cursor <? len der) then None
  else
    remaining ← remaining_from der cursor;
    tlv ← read_two_byte_tag_tlv remaining;
    next ← usize_add cursor (read_total_size tlv);
    Some (next, visit remaining tlv out).
Definition walk_objects {E O} (visit : bytes → BerTlvRead → O → O) (der : bytes) (out : O) : result E O :=
  result_map snd (run_loop (S (length der)) (object_round visit der) (0, out)).

(** ** EF.DG11 *)

Record AdditionalPersonalData := mkPersonal {
  full_name : option Dg11FullName;
  other_names : list OtherName;
  personal_number : option PersonalNumber;
  full_date_of_birth : option DateOfBirth;
  place_of_birth : option PlaceOfBirth;
  permanent_address : option PermanentAddress;
  telephone : option Telephone;
  profession : option Profession;
  title : option Title;
  personal_summary : option PersonalSummary;
  proof_of_citizenship : option DocumentImage;
  other_td_numbers : list OtherTdNumber;
  custody_information : option CustodyInformation;
}.
Definition AdditionalPersonalData_default : AdditionalPersonalData :=
  mkPersonal None [] None None None None None None None None None [] None.

Definition set_full_name v o := mkPersonal v (other_names o) (personal_number o) (full_date_of_birth o) (place_of_birth o) (permanent_address o) (telephone o) (profession o) (title o) (personal_summary o) (proof_of_citizenship o) (other_td_numbers o) (custody_information o).
Definition set_other_names v o := mkPersonal (full_name o) v (personal_number o) (full_date_of_birth o) (place_of_birth o) (permanent_address o) (telephone o) (profession o) (title o) (personal_summary o) (proof_of_citizenship o) (other_td_numbers o) (custody_information o).
Definition set_personal_number v o := mkPersonal (full_name o) (other_names o) v (full_date_of_birth o) (place_of_birth o) (permanent_address o) (telephone o) (profession o) (title o) (personal_summary o) (proof_of_citizenship o) (other_td_numbers o) (custody_information o).
Definition set_full_date_of_birth v o := mkPersonal (full_name o) (other_names o) (personal_number o) v (place_of_birth o) (permanent_address o) (telephone o) (profession o) (title o) (personal_summary o) (proof_of_citizenship o) (other_td_numbers o) (custody_information o).
Definition set_place_of_birth v o := mkPersonal (full_name o) (other_names o) (personal_number o) (full_date_of_birth o) v (permanent_address o) (telephone o) (profession o) (title o) (personal_summary o) (proof_of_citizenship o) (other_td_numbers o) (custody_information o).
Definition set_permanent_address v o := mkPersonal (full_name o) (other_names o) (personal_number o) (full_date_of_birth o) (place_of_birth o) v (telephone o) (profession o) (title o) (personal_summary o) (proof_of_citizenship o) (other_td_numbers o) (custody_information o).
Definition set_telephone v o := mkPersonal (full_name o) (other_names o) (personal_number o) (full_date_of_birth o) (place_of_birth o) (permanent_address o) v (profession o) (title o) (personal_summary o) (proof_of_citizenship o) (other_td_numbers o) (custody_information o).
Definition set_profession v o := mkPersonal (full_name o) (other_names o) (personal_number o) (full_date_of_birth o) (place_of_birth o) (permanent_address o) (telephone o) v (title o) (personal_summary o) (proof_of_citizenship o) (other_td_numbers o) (custody_information o).
Definition set_title v o := mkPersonal (full_name o) (other_names o) (personal_number o) (full_date_of_birth o) (place_of_birth o) (permanent_address o) (telephone o) (profession o) v (personal_summary o) (proof_of_citizenship o) (other_td_numbers o) (custody_information o).
Definition set_personal_summary v o := mkPersonal (full_name o) (other_names o) (personal_number o) (full_date_of_birth o) (place_of_birth o) (permanent_address o) (telephone o) (profession o) (title o) v (proof_of_citizenship o) (other_td_numbers o) (custody_information o).
Definition set_proof_of_citizenship v o := mkPersonal (full_name o) (other_names o) (personal_number o) (full_date_of_birth o) (place_of_birth o) (permanent_address o) (telephone o) (profession o) (title o) (personal_summary o) v (other_td_numbers o) (custody_information o).
Definition set_other_td_numbers v o := mkPersonal (full_name o) (other_names o) (personal_number o) (full_date_of_birth o) (place_of_birth o) (permanent_address o) (telephone o) (profession o) (title o) (personal_summary o) (proof_of_citizenship o) v (custody_information o).
Definition set_custody_information v o := mkPersonal (full_name o) (other_names o) (personal_number o) (full_date_of_birth o) (place_of_birth o) (permanent_address o) (telephone o) (profession o) (title o) (personal_summary o) (proof_of_citizenship o) (other_td_numbers o) v.

(** A text field, and a date of so many octets. *)
Definition text_field {A} (new : bytes → result FreeTextError A) (value : bytes) : option A :=
  result_ok (new (EmrtdHelpers_read_string value)).
Definition date_field {A} (n : Z) (new : bytes → result Iso8601Error A) (value : bytes) : option A :=
  if len value =? n then result_ok (new value) else None.
Definition td_numbers (value : bytes) : list OtherTdNumber :=
  omap (λ s, result_ok (OtherTdNumber_new s))
    (List.filter (λ s, negb (bool_decide (s = []))) (map str_trim (split 0x3C (EmrtdHelpers_read_string value)))).

(** The [match] on the tag. *)
Definition personal_tag (tag : Z) (v : bytes) (o : AdditionalPersonalData) : AdditionalPersonalData :=
  if tag =? FULL_NAME then set_full_name (text_field Dg11FullName_new v) o
  else if tag =? PERSONAL_NUMBER then set_personal_number (text_field PersonalNumber_new v) o
  else if tag =? FULL_DATE_OF_BIRTH then set_full_date_of_birth (date_field 8 DateOfBirth_from_yyyymmdd v) o
  else if tag =? PLACE_OF_BIRTH then set_place_of_birth (text_field PlaceOfBirth_new v) o
  else if tag =? PERMANENT_ADDRESS then set_permanent_address (text_field PermanentAddress_new v) o
  else if tag =? TELEPHONE then set_telephone (text_field Telephone_new v) o
  else if tag =? PROFESSION then set_profession (text_field Profession_new v) o
  else if tag =? TITLE then set_title (text_field Title_new v) o
  else if tag =? PERSONAL_SUMMARY then set_personal_summary (text_field PersonalSummary_new v) o
  else if tag =? PROOF_OF_CITIZENSHIP then set_proof_of_citizenship (result_ok (DocumentImage_parse v)) o
  else if tag =? OTHER_TD_NUMBERS then set_other_td_numbers (td_numbers v) o
  else if tag =? CUSTODY_INFORMATION then set_custody_information (text_field CustodyInformation_new v) o
  else o.

(** [push] of every text under [tag] in the container. *)
Definition nested_texts {E A} (tag : Z) (new : bytes → result FreeTextError A) (a0_tlv : bytes) (found : list A) : result E (list A) :=
  match BerTlv_parse Dg1xContainerA0_TAG a0_tlv with
  | Ok outer =>
      match BerInput_parse (any_value outer) with
      | Ok body =>
          walk_objects (λ _ t found, if read_tag t =? tag then found ++ option_list (text_field new (read_value t)) else found) body found
      | _ => Ok found
      end
  | _ => Ok found
  end.
Definition extract_nested_5f0f {E} (a0_tlv : bytes) (o : AdditionalPersonalData) : result E AdditionalPersonalData :=
  result_map (λ names, set_other_names names o) (nested_texts OTHER_NAMES OtherName_new a0_tlv (other_names o)).
(** The output is a [result] since the loop inside has fuel. *)
Definition personal_object {E} (remaining : bytes) (t : BerTlvRead) (out : result E AdditionalPersonalData) : result E AdditionalPersonalData :=
  let? o := out in
  let o := personal_tag (read_tag t) (read_value t) o in
  if has_tag Dg1xContainerA0_TAG remaining then extract_nested_5f0f remaining o else Ok o.
Definition walk_personal_tags {E} (body : bytes) (o : AdditionalPersonalData) : result E AdditionalPersonalData :=
  result_bind (walk_objects personal_object body (Ok o)) (λ out, out).
(** [Dg11Bytes::parse]; its argument is the wrapper's contents. *)
Definition Dg11Bytes_parse (der : bytes) : result BerError BerTlvAny := BerTlv_parse Dg11Wrapper_TAG der.
Definition parse_dg11 {E} (dg11 : BerTlvAny) : result E AdditionalPersonalData :=
  walk_personal_tags (any_value dg11) AdditionalPersonalData_default.

(** ** EF.DG12 *)

Record AdditionalDocumentData := mkDocument {
  issuing_authority : option IssuingAuthority;
  date_of_issue : option IssueDate;
  other_persons : list OtherPerson;
  endorsements : option Endorsements;
  tax_exit : option TaxExit;
  image_front : option DocumentImage;
  image_rear : option DocumentImage;
  personalisation_time : option PersonalisationTime;
  personalisation_device_serial : option PersonalisationDeviceSerial;
}.
Definition AdditionalDocumentData_default : AdditionalDocumentData := mkDocument None None [] None None None None None None.

Definition set_issuing_authority v o := mkDocument v (date_of_issue o) (other_persons o) (endorsements o) (tax_exit o) (image_front o) (image_rear o) (personalisation_time o) (personalisation_device_serial o).
Definition set_date_of_issue v o := mkDocument (issuing_authority o) v (other_persons o) (endorsements o) (tax_exit o) (image_front o) (image_rear o) (personalisation_time o) (personalisation_device_serial o).
Definition set_other_persons v o := mkDocument (issuing_authority o) (date_of_issue o) v (endorsements o) (tax_exit o) (image_front o) (image_rear o) (personalisation_time o) (personalisation_device_serial o).
Definition set_endorsements v o := mkDocument (issuing_authority o) (date_of_issue o) (other_persons o) v (tax_exit o) (image_front o) (image_rear o) (personalisation_time o) (personalisation_device_serial o).
Definition set_tax_exit v o := mkDocument (issuing_authority o) (date_of_issue o) (other_persons o) (endorsements o) v (image_front o) (image_rear o) (personalisation_time o) (personalisation_device_serial o).
Definition set_image_front v o := mkDocument (issuing_authority o) (date_of_issue o) (other_persons o) (endorsements o) (tax_exit o) v (image_rear o) (personalisation_time o) (personalisation_device_serial o).
Definition set_image_rear v o := mkDocument (issuing_authority o) (date_of_issue o) (other_persons o) (endorsements o) (tax_exit o) (image_front o) v (personalisation_time o) (personalisation_device_serial o).
Definition set_personalisation_time v o := mkDocument (issuing_authority o) (date_of_issue o) (other_persons o) (endorsements o) (tax_exit o) (image_front o) (image_rear o) v (personalisation_device_serial o).
Definition set_personalisation_device_serial v o := mkDocument (issuing_authority o) (date_of_issue o) (other_persons o) (endorsements o) (tax_exit o) (image_front o) (image_rear o) (personalisation_time o) v.

Definition document_tag (tag : Z) (v : bytes) (o : AdditionalDocumentData) : AdditionalDocumentData :=
  if tag =? ISSUING_AUTHORITY then set_issuing_authority (text_field IssuingAuthority_new v) o
  else if tag =? DATE_OF_ISSUE then set_date_of_issue (date_field 8 IssueDate_from_yyyymmdd v) o
  else if tag =? ENDORSEMENTS then set_endorsements (text_field Endorsements_new v) o
  else if tag =? TAX_EXIT then set_tax_exit (text_field TaxExit_new v) o
  else if tag =? IMAGE_FRONT then set_image_front (result_ok (DocumentImage_parse v)) o
  else if tag =? IMAGE_REAR then set_image_rear (result_ok (DocumentImage_parse v)) o
  else if tag =? PERSONALISATION_TIME then set_personalisation_time (date_field 14 PersonalisationTime_from_yyyymmddhhmmss v) o
  else if tag =? PERSONALISATION_DEVICE_SERIAL then set_personalisation_device_serial (text_field PersonalisationDeviceSerial_new v) o
  else o.
Definition extract_nested_5f1a {E} (a0_tlv : bytes) (o : AdditionalDocumentData) : result E AdditionalDocumentData :=
  result_map (λ persons, set_other_persons persons o) (nested_texts NAME_OF_OTHER_PERSON OtherPerson_new a0_tlv (other_persons o)).

(** A container is stepped over by its own size; when it does not parse, the loop ends
    after the attempt to look into it. *)
Definition document_round {E} (der : bytes) (s : Z * result E AdditionalDocumentData) : option (Z * result E AdditionalDocumentData) :=
  let '(cursor, out) := s in
  if negb (cursor <? len der) then None
  else
    remaining ← remaining_from der cursor;
    if has_tag Dg1xContainerA0_TAG remaining then
      outer ← result_ok (BerTlv_parse Dg1xContainerA0_TAG remaining);
      next ← usize_add cursor (any_size outer);
      Some (next, result_bind out (extract_nested_5f1a remaining))
    else
      tlv ← read_two_byte_tag_tlv remaining;
      next ← usize_add cursor (read_total_size tlv);
      Some (next, result_map (document_tag (read_tag tlv) (read_value tlv)) out).
Definition Dg12Bytes_parse (der : bytes) : result BerError BerTlvAny := BerTlv_parse Dg12Wrapper_TAG der.
Definition parse_dg12 {E} (dg12 : BerTlvAny) : result E AdditionalDocumentData :=
  let body := any_value dg12 in
  let? (_, out) := run_loop (S (length body)) (document_round body) (0, Ok AdditionalDocumentData_default) in
  out.

(** ** EF.DG15 *)

(** [Dg15Bytes]: the octets of the key, whose tag was looked at. *)
Definition Dg15Bytes_try_from (bs : bytes) : result BerError bytes :=
  let? outer := BerTlv_parse Dg15Wrapper_TAG bs in
  if negb (bool_decide (head (any_value outer) = Some Sequence_TAG))
  then Err (Ber_UnexpectedTag Sequence_TAG (default 0 (head (any_value outer))))
  else Ok (any_value outer).
Definition parse_dg15_spki (dg15 : bytes) : bytes := dg15.

(** ** EF.DG14 *)

Inductive Dg14SecurityInfo :=
| Si_ChipAuthenticationInfo (protocol_label : string) (oid : bytes) (version : option Z)
| Si_ChipAuthenticationPublicKeyInfo (oid spki_der : bytes)
| Si_TerminalAuthenticationInfo (oid : bytes)
| Si_PaceInfo (oid : bytes)
| Si_Other (oid : bytes).

Definition OID_PREFIX_CA : bytes := [0x04; 0x00; 0x7F; 0x00; 0x07; 0x02; 0x02; 0x03].
Definition OID_PREFIX_PK : bytes := [0x04; 0x00; 0x7F; 0x00; 0x07; 0x02; 0x02; 0x01].
Definition OID_PREFIX_TA : bytes := [0x04; 0x00; 0x7F; 0x00; 0x07; 0x02; 0x02; 0x02].
Definition OID_PREFIX_PACE : bytes := [0x04; 0x00; 0x7F; 0x00; 0x07; 0x02; 0x02; 0x04].
Definition OID_CA_FAMILY_DH : Z := 0x01.
Definition OID_CA_FAMILY_ECDH : Z := 0x02.
Definition OID_CA_CIPHER_3DES : Z := 0x01.
Definition OID_CA_CIPHER_AES_128 : Z := 0x02.
Definition OID_CA_CIPHER_AES_192 : Z := 0x03.
Definition OID_CA_CIPHER_AES_256 : Z := 0x04.

Definition ca_label (family cipher : Z) : string :=
  if (family =? OID_CA_FAMILY_ECDH) && (cipher =? OID_CA_CIPHER_3DES) then "id-CA-ECDH-3DES-CBC-CBC"
  else if (family =? OID_CA_FAMILY_ECDH) && (cipher =? OID_CA_CIPHER_AES_128) then "id-CA-ECDH-AES-CBC-CMAC-128"
  else if (family =? OID_CA_FAMILY_ECDH) && (cipher =? OID_CA_CIPHER_AES_192) then "id-CA-ECDH-AES-CBC-CMAC-192"
  else if (family =? OID_CA_FAMILY_ECDH) && (cipher =? OID_CA_CIPHER_AES_256) then "id-CA-ECDH-AES-CBC-CMAC-256"
  else if (family =? OID_CA_FAMILY_DH) && (cipher =? OID_CA_CIPHER_3DES) then "id-CA-DH-3DES-CBC-CBC"
  else if (family =? OID_CA_FAMILY_DH) && (cipher =? OID_CA_CIPHER_AES_128) then "id-CA-DH-AES-CBC-CMAC-128"
  else if (family =? OID_CA_FAMILY_DH) && (cipher =? OID_CA_CIPHER_AES_192) then "id-CA-DH-AES-CBC-CMAC-192"
  else if (family =? OID_CA_FAMILY_DH) && (cipher =? OID_CA_CIPHER_AES_256) then "id-CA-DH-AES-CBC-CMAC-256"
  else "id-CA-?".

(** [it.next()?.ok()?.expect::<T>().ok()?] *)
Definition next_of (tag : Z) (remaining : bytes) : option BerTlvAny :=
  match BerTlvIter_next remaining with
  | (Some (Ok t), _) => result_ok (BerTlvAny_expect tag t)
  | _ => None
  end.
Definition read_integer_u32 (remaining : bytes) : option Z :=
  t ← next_of Integer_TAG remaining;
  big_endian 32 0 (any_value t).
(** [n] is the length of a buffer; a length over [u16::MAX] is written as that. *)
Definition push_def_length (out : bytes) (n : Z) : bytes :=
  if (n <=? u8_max) && (n <? 0x80) then out ++ [n]
  else if n <=? u8_max then out ++ [0x81; n]
  else out ++ [0x82] ++ to_be 2 (Z.min n u16_max).
Definition extract_remaining_spki (outer : BerTlvAny) : option bytes :=
  match BerTlvIter_next (any_value outer) with
  | (Some (Ok _), remaining) =>
      spki ← next_of Sequence_TAG remaining;
      Some (push_def_length [Sequence_TAG] (len (any_value spki)) ++ any_value spki)
  | _ => None
  end.

(** The object identifier, the rest of the sequence, the sequence. *)
Definition classify_dg14_entry (oid : bytes) (rest : bytes) (outer : BerTlvAny) : Dg14SecurityInfo :=
  match (if starts_with OID_PREFIX_CA oid then family ← zget 8 oid; cipher ← zget 9 oid; Some (family, cipher) else None) with
  | Some (family, cipher) => Si_ChipAuthenticationInfo (ca_label family cipher) oid (read_integer_u32 rest)
  | None =>
      if starts_with OID_PREFIX_PK oid then Si_ChipAuthenticationPublicKeyInfo oid (default [] (extract_remaining_spki outer))
      else if starts_with OID_PREFIX_TA oid then Si_TerminalAuthenticationInfo oid
      else if starts_with OID_PREFIX_PACE oid then Si_PaceInfo oid
      else Si_Other oid
  end.
(** One round of the [for]: an object that is not a sequence with an identifier in front
    is left out. *)
Definition dg14_entry (any : BerTlvAny) : option Dg14SecurityInfo :=
  seq ← result_ok (BerTlvAny_expect Sequence_TAG any);
  match BerTlvIter_next (any_value seq) with
  | (Some (Ok oid_any), rest) =>
      oid_tlv ← result_ok (BerTlvAny_expect Oid_TAG oid_any);
      Some (classify_dg14_entry (any_value oid_tlv) rest seq)
  | _ => None
  end.
Fixpoint dg14_entries (items : list (result BerError BerTlvAny)) : list Dg14SecurityInfo :=
  match items with
  | Ok any :: items => option_list (dg14_entry any) ++ dg14_entries items
  | _ => []
  end.
(** [Dg14Bytes]: the SET. *)
Definition Dg14Bytes_try_from (bs : bytes) : result BerError BerTlvAny :=
  let? outer := BerTlv_parse Dg14Wrapper_TAG bs in BerTlv_parse Set_TAG (any_value outer).
Definition parse_dg14 (dg14 : BerTlvAny) : list Dg14SecurityInfo := dg14_entries (BerTlvIter_items (any_value dg14)).

(** ** Lemmas: one object *)

Lemma shift_in_byte k acc b : is_byte b → 0 ≤ acc < 2 ^ k → 0 < k → shift_octet (k + 8) acc b = Some (acc * 256 + b).
Proof.
  intros Hb Ha Hk. unfold shift_octet, is_byte in *. rewrite Z.shiftl_mul_pow2 by lia. rewrite Z.pow_add_r by lia. change (2 ^ 8) with 256.
  rewrite Z.mod_small by nia. destruct (Z.ltb_spec (acc * 256 + b) (2 ^ k * 256)); [done|nia].
Qed.
Lemma shift_in_mono w w' acc b : 0 ≤ w ≤ w' → 0 ≤ acc → 0 ≤ b → acc * 256 + b < 2 ^ w → shift_octet w' acc b = Some (acc * 256 + b).
Proof.
  intros Hw Ha Hb Hlt. pose proof (Z.pow_le_mono_r 2 w w'). unfold shift_octet. rewrite Z.shiftl_mul_pow2 by lia. change (2 ^ 8) with 256.
  rewrite Z.mod_small by lia. destruct (Z.ltb_spec (acc * 256 + b) (2 ^ w')); [done|lia].
Qed.
(** The octets of a number that fits. *)
Lemma big_endian_fits w acc l : 0 ≤ w → 0 ≤ acc → bytes_ok l → acc * 256 ^ len l + be_fold l < 2 ^ w → big_endian w acc l = Some (acc * 256 ^ len l + be_fold l).
Proof.
  intros Hw Hacc Hl. revert acc Hacc. induction l as [|b l IH]; intros acc Hacc Hlt.
  { cbn [big_endian]. change (be_fold []) with 0. change (len []) with 0. f_equal. lia. }
  pose proof Hl as [Hb Hl']%Forall_cons_iff. cbn [big_endian]. rewrite be_fold_cons, len_cons in * by done. rewrite Z.pow_add_r in * by (pose proof (len_nonneg l); lia).
  pose proof (be_fold_nonneg l Hl') as [Hn _]. assert (1 ≤ 256 ^ len l) by (pose proof (Z.pow_pos_nonneg 256 (len l)); pose proof (len_nonneg l); lia).
  unfold is_byte in Hb. rewrite (shift_in_mono w w) by nia. cbn [mbind option_bind]. rewrite IH; [f_equal; lia|done|lia|lia].
Qed.
Lemma big_endian_be w l : bytes_ok l → 8 * len l ≤ w → big_endian w 0 l = Some (be_fold l).
Proof.
  intros Hl Hw. pose proof (len_nonneg l). rewrite big_endian_fits; [f_equal; lia|lia|lia|done|].
  pose proof (be_fold_nonneg l Hl) as [_ Hlt]. change 256 with (2 ^ 8) in Hlt at 1. rewrite <- Z.pow_mul_r in Hlt by lia.
  pose proof (Z.pow_le_mono_r 2 (8 * len l) w). unfold len in *. lia.
Qed.

(** The length octets of the encoder are read. *)
Lemma push_length_read {E} n out : 0 ≤ n ≤ u32_max →
  ∃ lb, @BerEncoder_push_length E out n = Ok (out ++ lb) ∧ bytes_ok lb ∧ 1 ≤ len lb ≤ 5 ∧ ∀ rest, read_ber_length (lb ++ rest) = Some (len lb, n).
Proof.
  intros Hn. destruct (@BerEncoder_push_length_ok E out n Hn) as (lb & Heq & Hl & Hb & Hlen). exists lb. split; [done|]. split; [done|].
  inversion Hl as [m Hm|k l Hk Hkl]; subst.
  - split; [unfold len; simpl; lia|]. intros rest. assert (n < 0x80) as Hlt.
    { destruct (decide (n = 0x80)) as [->|]; [|lia]. unfold BerEncoder_push_length in Heq. cbn in Heq.
      apply (f_equal (result_map (drop (length out)))) in Heq. cbn [result_map] in Heq. rewrite !drop_app_length in Heq. done. }
    unfold read_ber_length. cbn [head app mbind option_bind]. unfold CONTINUATION_OR_LONG_FORM_MASK. destruct (Z.ltb_spec n 0x80); [done|lia].
  - split; [rewrite len_cons in *; pose proof (len_nonneg l); lia|]. intros rest. unfold read_ber_length. cbn [head app mbind option_bind].
    pose proof Hb as [_ Hbl]%Forall_cons_iff. destruct (Z.ltb_spec (0x80 + len l) CONTINUATION_OR_LONG_FORM_MASK) as [Hc|_]; [unfold CONTINUATION_OR_LONG_FORM_MASK in Hc; lia|].
    assert (Z.land (0x80 + len l) LONG_FORM_LENGTH_COUNT_MASK = len l) as ->.
    { assert (len l = 1 ∨ len l = 2 ∨ len l = 3 ∨ len l = 4) as [->|[->|[->| ->]]] by lia; done. }
    rewrite !len_cons, len_app. pose proof (len_nonneg rest). destruct (Z.eqb_spec (len l) 0); [lia|]. destruct (Z.ltb_spec (1 + (len l + len rest)) (1 + len l)); [lia|]. cbn [orb].
    pose proof (zslice_app_exact 1 (len l + 1) [0x80 + len l] l rest eq_refl ltac:(unfold len; simpl; lia)) as Hz. cbn [app] in Hz.
    rewrite Hz. cbn [mbind option_bind]. rewrite big_endian_be by (done || lia). done.
Qed.
Lemma remaining_from_app a b : b ≠ [] → remaining_from (a ++ b) (len a) = Some b.
Proof.
  intros Hb. unfold remaining_from. rewrite len_app. pose proof (zslice_app_exact (len a) (len a + len b) a b []) as Hz.
  rewrite app_nil_r in Hz. rewrite Hz by done. by destruct b.
Qed.
(** The octets of an encoded object: tag, length, value. *)
Lemma encoded_shape tag v enc : len v ≤ u32_max → ber_encoded tag v enc →
  ∃ tb lb, enc = tb ++ lb ++ v ∧ 1 ≤ len lb ∧ (∀ rest, read_ber_length (lb ++ rest) = Some (len lb, len v)) ∧
    (tb = [tag] ∧ Z.land tag HIGH_TAG_NUMBER_MASK ≠ HIGH_TAG_NUMBER_MASK ∨
     tb = [u16_hi tag; u16_lo tag] ∧ Z.land (u16_hi tag) HIGH_TAG_NUMBER_MASK = HIGH_TAG_NUMBER_MASK).
Proof.
  intros Hv [Ht He|Ht He]; unfold tlv, tlv2, BerEncoder_push_tlv, BerEncoder_push_tlv_tag2 in He; pose proof (len_nonneg v);
    (edestruct (@push_length_read BerError (len v)) as (lb & Hl & _ & Hlb & Hread); [|rewrite Hl in He]; [lia|]); cbn in He; injection He as <-.
  - exists [tag], lb. naive_solver.
  - exists [u16_hi tag; u16_lo tag], lb. naive_solver.
Qed.
(** What the reader does after the tag. *)
Definition read_after_tag (bs : bytes) (tag idx : Z) : option BerTlvRead :=
  lengths ← remaining_from bs idx;
  '(len_size, content_len) ← read_ber_length lengths;
  header_size ← usize_add idx len_size;
  total_size ← usize_add header_size content_len;
  if total_size >? len bs then None
  else value ← zslice header_size total_size bs; Some (mkBerTlvRead tag value total_size).
Lemma usize_add_ok a b : a + b ≤ u64_max → usize_add a b = Some (a + b).
Proof. intros Hab. unfold usize_add. destruct (Z.leb_spec (a + b) u64_max); [done|lia]. Qed.
Lemma read_after_tag_ok tb lb v rest tag : 1 ≤ len lb → read_ber_length (lb ++ v ++ rest) = Some (len lb, len v) →
  len (tb ++ lb ++ v ++ rest) ≤ u64_max →
  read_after_tag (tb ++ lb ++ v ++ rest) tag (len tb) = Some (mkBerTlvRead tag v (len (tb ++ lb ++ v))).
Proof.
  intros Hlb Hread Hsz. unfold read_after_tag. rewrite remaining_from_app by (destruct lb; [unfold len in Hlb; simpl in Hlb; lia|done]).
  cbn [mbind option_bind]. rewrite Hread. cbn [mbind option_bind]. rewrite !len_app in Hsz.
  pose proof (len_nonneg v). pose proof (len_nonneg rest).
  rewrite !usize_add_ok by lia. cbn [mbind option_bind]. rewrite usize_add_ok by lia. cbn [mbind option_bind]. rewrite !len_app.
  destruct (Z.gtb_spec (len tb + len lb + len v) (len tb + (len lb + (len v + len rest)))); [lia|].
  rewrite app_assoc, (zslice_app_exact _ _ (tb ++ lb) v rest) by (unfold len; rewrite ?length_app; lia). cbn [mbind option_bind]. by rewrite Z.add_assoc.
Qed.
(** An encoded object in front. *)
Lemma read_two_encoded tag v enc rest : is_u16 tag → len v ≤ u32_max → len (enc ++ rest) ≤ u64_max → ber_encoded tag v enc →
  read_two_byte_tag_tlv (enc ++ rest) = Some (mkBerTlvRead tag v (len enc)).
Proof.
  intros Htag Hv Hsz Henc. destruct (encoded_shape _ _ _ Hv Henc) as (tb & lb & -> & Hlb & Hread & Htb).
  rewrite <- !app_assoc in *. pose proof (read_after_tag_ok tb lb v rest tag Hlb (Hread _) Hsz) as Hafter.
  unfold read_two_byte_tag_tlv. destruct Htb as [[-> Hm]|[-> Hm]]; cbn [head app mbind option_bind] in *.
  - apply Z.eqb_neq in Hm as ->. exact Hafter.
  - apply Z.eqb_eq in Hm as ->. assert (zget 1 (u16_hi tag :: u16_lo tag :: lb ++ v ++ rest) = Some (u16_lo tag)) as -> by apply (zget_app [u16_hi tag]). cbn [mbind option_bind].
    assert (is_byte (u16_hi tag)) as Hhi by by apply is_byte_u16_hi. rewrite (shift_in_byte 8) by (done || apply is_byte_u16_lo).
    rewrite <- u16_from_be_arith, u16_hi_lo by apply is_byte_u16_lo. exact Hafter.
Qed.

(** ** Lemmas: the loops *)

(** A loop whose rounds move the cursor ends, and keeps what its rounds keep. *)
Lemma run_loop_total {E O} (inv : O → Prop) (n : Z) (round : Z * O → option (Z * O)) fuel c o :
  (∀ c o c' o', 0 ≤ c → inv o → round (c, o) = Some (c', o') → c < c' ≤ n ∧ inv o') →
  0 ≤ c → inv o → n - c < Z.of_nat fuel ∧ c ≤ n → ∃ s, @run_loop E _ fuel round (c, o) = Ok s ∧ inv s.2.
Proof.
  intros Hr. revert c o. induction fuel as [|fuel IH]; intros c o Hc Ho Hf; [lia|]. cbn [run_loop].
  destruct (round (c, o)) as [[c' o']|] eqn:Hround; [|by exists (c, o)]. destruct (Hr _ _ _ _ Hc Ho Hround) as [Hc' Ho']. apply IH; [lia|done|lia].
Qed.
(** A loop over a sequence of objects, each of which a round takes. *)
Lemma run_loop_objects {E O P X} (enc : X → bytes) (g : P → O) (f : X → P → P) (der : bytes) (round : Z * O → option (Z * O)) es fuel a out :
  (∀ a e b out, e ∈ es → der = a ++ enc e ++ b → round (len a, g out) = Some (len a + len (enc e), g (f e out))) →
  (∀ out, round (len der, out) = None) → der = a ++ concat (map enc es) → Forall (λ e, enc e ≠ []) es → (length (concat (map enc es)) < fuel)%nat →
  @run_loop E _ fuel round (len a, g out) = Ok (len der, g (foldl (λ o e, f e o) out es)).
Proof.
  intros Hr Hend. revert fuel a out Hr. induction es as [|e es IH]; intros fuel a out Hr Hder Hne Hf.
  - destruct fuel as [|fuel]; [lia|]. cbn [map concat] in Hder. rewrite app_nil_r in Hder. subst a. cbn [run_loop]. by rewrite Hend.
  - destruct fuel as [|fuel]; [lia|]. cbn [map concat] in Hder, Hf. pose proof Hne as [He Hes]%Forall_cons_iff. cbn [run_loop].
    rewrite (Hr a e (concat (map enc es)) out) by (done || left). cbn [foldl]. rewrite <- len_app. apply IH; [|by rewrite <- app_assoc|done|].
    + intros a' e' b out' He'. apply Hr. by right.
    + rewrite length_app in Hf. destruct (enc e); [done|]. simpl in Hf. lia.
Qed.

Lemma read_two_size bs t : read_two_byte_tag_tlv bs = Some t → 1 ≤ read_total_size t ≤ len bs.
Proof.
  unfold read_two_byte_tag_tlv. intros (first & _ & Hr)%bind_Some. apply bind_Some in Hr as ([tag idx] & Hidx & Hr).
  assert (1 ≤ idx) as Hi.
  { destruct (_ =? _) in Hidx; [|injection Hidx as _ <-; lia]. apply bind_Some in Hidx as (? & _ & Hidx). apply bind_Some in Hidx as (? & _ & [= _ <-]). lia. }
  apply bind_Some in Hr as (lengths & _ & Hr). apply bind_Some in Hr as ([ls cl] & Hl & Hr).
  assert (1 ≤ ls) as Hls.
  { unfold read_ber_length in Hl. apply bind_Some in Hl as (b & _ & Hl). destruct (b <? _); [injection Hl as <- _; lia|].
    destruct (_ || _); [done|]. apply bind_Some in Hl as (tail & Htail & Hl). apply bind_Some in Hl as (v & _ & [= <- _]).
    apply zslice_Some in Htail as (x & y & _ & Hx & Hxy). unfold LONG_FORM_LENGTH_COUNT_MASK in *. lia. }
  apply bind_Some in Hr as (hs & Hhs & Hr). apply bind_Some in Hr as (ts & _ & Hr). unfold usize_add in Hhs. destruct (_ <=? _) in Hhs; [|done]. injection Hhs as <-.
  destruct (Z.gtb_spec ts (len bs)); [done|]. apply bind_Some in Hr as (v & Hv & [= <-]). cbn [read_total_size].
  apply zslice_Some in Hv as (x & y & _ & Hx & Hxy). lia.
Qed.
Lemma remaining_from_Some bs c r : remaining_from bs c = Some r → 0 ≤ c ∧ len r = len bs - c.
Proof.
  unfold remaining_from. intros (tail & Ht & Hr)%bind_Some. assert (r = tail) as -> by (destruct tail; cbn in Hr; congruence).
  apply zslice_Some in Ht as (x & y & Heq & Hx & Hxy). unfold len in *. lia.
Qed.
Lemma usize_add_Some a b c : usize_add a b = Some c → c = a + b.
Proof. unfold usize_add. destruct (_ <=? _); [by intros [= <-]|done]. Qed.
Lemma object_round_moves {O} (visit : bytes → BerTlvRead → O → O) der c o c' o' :
  object_round visit der (c, o) = Some (c', o') → c < c' ≤ len der ∧ ∃ r t, read_two_byte_tag_tlv r = Some t ∧ o' = visit r t o.
Proof.
  unfold object_round. destruct (negb _); [done|]. intros (r & Hr & Ho)%bind_Some. apply bind_Some in Ho as (t & Ht & Ho).
  apply bind_Some in Ho as (n & Hn & [= <- <-]). apply usize_add_Some in Hn as ->. apply remaining_from_Some in Hr as [_ Hr].
  pose proof (read_two_size _ _ Ht). split; [lia|]. by exists r, t.
Qed.
Lemma walk_objects_total {E O} (inv : O → Prop) (visit : bytes → BerTlvRead → O → O) der out :
  (∀ r t o, inv o → inv (visit r t o)) → inv out → ∃ o, @walk_objects E O visit der out = Ok o ∧ inv o.
Proof.
  intros Hv Ho. unfold walk_objects. destruct (run_loop_total (E:=E) inv (len der) (object_round visit der) (S (length der)) 0 out) as ([c o] & Hl & Hi).
  - intros c o c' o' _ Hi (Hc & r & t & _ & ->)%object_round_moves. split; [done|by apply Hv].
  - done.
  - done.
  - unfold len. lia.
  - exists o. by rewrite Hl.
Qed.
Lemma nested_texts_total {E A} tag (new : bytes → result FreeTextError A) a0 found : ∃ l, @nested_texts E A tag new a0 found = Ok l.
Proof.
  unfold nested_texts. destruct (BerTlv_parse _ _) as [outer|e|]; [|eauto..]. destruct (BerInput_parse _) as [body|e|]; [|eauto..].
  destruct (walk_objects_total (E:=E) (λ _, True) (λ _ t found, if read_tag t =? tag then found ++ option_list (text_field new (read_value t)) else found) body found) as (o & Ho & _); [done..|].
  eauto.
Qed.
(** Every group is read to an end. *)
Lemma parse_dg11_total {E} d : ∃ o, @parse_dg11 E d = Ok o.
Proof.
  unfold parse_dg11, walk_personal_tags.
  destruct (walk_objects_total (E:=E) (λ out : result E AdditionalPersonalData, ∃ o, out = Ok o) personal_object (any_value d) (Ok AdditionalPersonalData_default)) as (o & Ho & o' & ->).
  - intros r t o (o' & ->). unfold personal_object. cbn [result_bind]. destruct (has_tag _ _); [|eauto]. unfold extract_nested_5f0f.
    destruct (nested_texts_total (E:=E) OTHER_NAMES OtherName_new r (other_names (personal_tag (read_tag t) (read_value t) o'))) as (l & ->). cbn. eauto.
  - eauto.
  - rewrite Ho. cbn. eauto.
Qed.
Lemma parse_dg12_total {E} d : ∃ o, @parse_dg12 E d = Ok o.
Proof.
  unfold parse_dg12.
  destruct (run_loop_total (E:=E) (λ out : result E AdditionalDocumentData, ∃ o, out = Ok o) (len (any_value d)) (document_round (any_value d)) (S (length (any_value d))) 0 (Ok AdditionalDocumentData_default)) as ([c o] & Hl & o' & Ho).
  - intros c o c' o' _ (x & ->) Hr. unfold document_round in Hr. destruct (negb _); [done|]. apply bind_Some in Hr as (r & Hrem & Hr). apply remaining_from_Some in Hrem as [_ Hrem].
    destruct (has_tag _ _).
    + apply bind_Some in Hr as (outer & Hp & Hr). apply bind_Some in Hr as (n & ->%usize_add_Some & [= <- <-]). cbn [result_bind]. split.
      * unfold BerTlv_parse in Hp. destruct (BerTlvAny_parse r) as [t|e|] eqn:Ht; [|done..]. apply BerTlvAny_parse_sound, ber_tlv_at_size in Ht.
        cbn [result_bind] in Hp. unfold BerTlvAny_expect in Hp. destruct (negb _) in Hp; [done|]. injection Hp as <-. lia.
      * unfold extract_nested_5f1a. destruct (nested_texts_total (E:=E) NAME_OF_OTHER_PERSON OtherPerson_new r (other_persons x)) as (l & ->). cbn. eauto.
    + apply bind_Some in Hr as (t & Ht & Hr). apply bind_Some in Hr as (n & ->%usize_add_Some & [= <- <-]). pose proof (read_two_size _ _ Ht). cbn. split; [lia|eauto].
  - lia.
  - eauto.
  - unfold len. lia.
  - rewrite Hl. cbn in *. subst o. eauto.
Qed.

(** ** Specification: a group is its objects *)

(** Objects as they are written: tag, value, octets. *)
Definition dg_object : Type := Z * bytes * bytes.
Definition well_encoded (e : dg_object) : Prop := let '(tag, v, enc) := e in is_u16 tag ∧ len v ≤ u32_max ∧ ber_encoded tag v enc.
Definition enc_of (e : dg_object) : bytes := e.2.
Definition encs (l : list dg_object) : bytes := concat (map enc_of l).
(** An object of a group, or a container of objects. *)
Inductive dg_entry := De_Object (e : dg_object) | De_Container (l : list dg_object) (enc : bytes).
Definition entry_enc (e : dg_entry) : bytes := match e with De_Object e => enc_of e | De_Container _ enc => enc end.
Definition entry_wf (e : dg_entry) : Prop :=
  match e with
  | De_Object e => well_encoded e ∧ e.1.1 ≠ Dg1xContainerA0_TAG
  | De_Container l enc => Forall well_encoded l ∧ len (encs l) ≤ u32_max ∧ ber_encoded Dg1xContainerA0_TAG (encs l) enc
  end.
(** The texts under a tag that are texts. *)
Definition texts_of {A} (tag : Z) (new : bytes → result FreeTextError A) (l : list dg_object) : list A :=
  omap (λ '(t, v, _), if t =? tag then text_field new v else None) l.
Definition personal_entry (e : dg_entry) (o : AdditionalPersonalData) : AdditionalPersonalData :=
  match e with
  | De_Object (tag, v, _) => personal_tag tag v o
  | De_Container l _ => set_other_names (other_names o ++ texts_of OTHER_NAMES OtherName_new l) o
  end.
Definition document_entry (e : dg_entry) (o : AdditionalDocumentData) : AdditionalDocumentData :=
  match e with
  | De_Object (tag, v, _) => document_tag tag v o
  | De_Container l _ => set_other_persons (other_persons o ++ texts_of NAME_OF_OTHER_PERSON OtherPerson_new l) o
  end.

Lemma enc_ne e : well_encoded e → enc_of e ≠ [].
Proof.
  destruct e as [[tag v] enc]. intros (_ & Hv & He) Hn. cbn in Hn. subst enc. destruct (encoded_shape _ _ _ Hv He) as (tb & lb & Hs & Hlb & _).
  destruct tb, lb; (done || (unfold len in Hlb; simpl in Hlb; lia)).
Qed.
Lemma remaining_at {der a e b} : der = a ++ e ++ b → e ≠ [] → remaining_from der (len a) = Some (e ++ b) ∧ (len a <? len der) = true.
Proof.
  intros -> He. split; [apply remaining_from_app; by destruct e|]. apply Z.ltb_lt. rewrite !len_app. pose proof (len_nonneg b).
  destruct e; [done|]. rewrite len_cons. pose proof (len_nonneg e). lia.
Qed.
Lemma object_round_at {O} (visit : bytes → BerTlvRead → O → O) der a e b out : well_encoded e → len der ≤ u64_max → der = a ++ enc_of e ++ b →
  object_round visit der (len a, out) = Some (len a + len (enc_of e), visit (enc_of e ++ b) (mkBerTlvRead e.1.1 e.1.2 (len (enc_of e))) out).
Proof.
  intros Hwf Hsz Hder. destruct (remaining_at Hder (enc_ne e Hwf)) as [Hr Hlt]. unfold object_round. rewrite Hlt, Hr. cbn [negb mbind option_bind].
  destruct e as [[tag v] enc]. destruct Hwf as (Htag & Hv & Henc). cbn [enc_of fst snd] in *.
  assert (len a + (len enc + len b) ≤ u64_max) as Hs by (rewrite Hder, !len_app in Hsz; done). pose proof (len_nonneg a). pose proof (len_nonneg b).
  rewrite (read_two_encoded tag v) by (done || rewrite len_app; lia). cbn [mbind option_bind read_total_size]. rewrite usize_add_ok by lia. done.
Qed.
Lemma object_round_end {O} (visit : bytes → BerTlvRead → O → O) der out : object_round visit der (len der, out) = None.
Proof. unfold object_round. by rewrite Z.ltb_irrefl. Qed.

Lemma nested_texts_exact {E A} tag (new : bytes → result FreeTextError A) l enc rest found :
  Forall well_encoded l → len (encs l) ≤ u32_max → ber_encoded Dg1xContainerA0_TAG (encs l) enc → len (enc ++ rest) ≤ u64_max →
  @nested_texts E A tag new (enc ++ rest) found = Ok (found ++ texts_of tag new l).
Proof.
  intros Hwf Hl Henc Hsz. unfold nested_texts, BerTlv_parse. rewrite (ber_encoded_parse Dg1xContainerA0_TAG (encs l)) by done. cbn [result_bind].
  unfold BerTlvAny_expect. cbn [any_tag any_value]. rewrite Z.eqb_refl. cbn [negb any_value]. unfold BerInput_parse.
  destruct l as [|e l]; [cbn; by rewrite app_nil_r|]. destruct (encs (e :: l)) as [|b body] eqn:Hb.
  { exfalso. apply Forall_cons_iff in Hwf as [He%enc_ne _]. unfold encs in Hb. cbn in Hb. by apply app_nil in Hb as [? _]. }
  rewrite <- Hb in *. unfold walk_objects. change 0 with (len []).
  set (visit := λ _ t found, if read_tag t =? tag then found ++ option_list (text_field new (read_value t)) else found).
  rewrite (run_loop_objects enc_of (λ o, o) (λ '(t, v, _) o, if t =? tag then o ++ option_list (text_field new v) else o) (encs (e :: l)) (object_round visit (encs (e :: l))) (e :: l)).
  - cbn [result_map snd]. f_equal. clear -found. revert found. induction (e :: l) as [|[[t v] x] es IH]; intros found; [by rewrite app_nil_r|]. cbn [foldl].
    rewrite IH. unfold texts_of. cbn [omap list_omap]. destruct (t =? tag); [|done]. destruct (text_field new v); cbn [option_list]; [by rewrite <- app_assoc|by rewrite app_nil_r].
  - intros a e' c out He' Hder. rewrite (object_round_at _ _ _ e' c); [|rewrite Forall_forall in Hwf; apply Hwf, list_elem_of_In, He'|unfold u32_max, u64_max in *; lia|done].
    destruct e' as [[t v] x]. done.
  - intros out. apply object_round_end.
  - done.
  - eapply list.Forall_impl; [exact Hwf|]. apply enc_ne.
  - fold (encs (e :: l)). lia.
Qed.

(** Only a container starts with the container's tag. *)
Lemma object_no_container e b : well_encoded e → e.1.1 ≠ Dg1xContainerA0_TAG → has_tag Dg1xContainerA0_TAG (enc_of e ++ b) = false.
Proof.
  destruct e as [[tag v] enc]. intros (Htag & Hv & He) Hne. cbn [enc_of fst snd] in *. unfold has_tag. apply bool_decide_eq_false.
  destruct (encoded_shape _ _ _ Hv He) as (tb & lb & -> & _ & _ & [[-> Hm]|[-> Hm]]); cbn [app head]; intros [= Heq]; [done|].
  by rewrite Heq in Hm.
Qed.
Lemma container_head l enc b : len l ≤ u32_max → ber_encoded Dg1xContainerA0_TAG l enc → has_tag Dg1xContainerA0_TAG (enc ++ b) = true.
Proof.
  intros Hv He. unfold has_tag. apply bool_decide_eq_true. destruct (encoded_shape _ _ _ Hv He) as (tb & lb & -> & _ & _ & [[-> Hm]|[-> Hm]]); [done|].
  by exfalso.
Qed.
Lemma container_wf l enc : entry_wf (De_Container l enc) → well_encoded (Dg1xContainerA0_TAG, encs l, enc).
Proof. intros (_ & Hl & He). split; [unfold is_u16, Dg1xContainerA0_TAG; lia|done]. Qed.
Lemma entry_ne e : entry_wf e → entry_enc e ≠ [].
Proof. destruct e as [e|l enc]; [intros [He _]; by apply enc_ne|]. intros Hc; apply container_wf in Hc. exact (enc_ne (_, encs l, enc) Hc). Qed.

Lemma personal_round_at {E} der a e b o : entry_wf e → len der ≤ u64_max → der = a ++ entry_enc e ++ b →
  object_round (@personal_object E) der (len a, Ok o) = Some (len a + len (entry_enc e), Ok (personal_entry e o)).
Proof.
  intros Hwf Hsz Hder. assert (len (entry_enc e ++ b) ≤ u64_max) as Hs by (rewrite Hder, len_app in Hsz; pose proof (len_nonneg a); lia). destruct e as [e|l enc].
  - destruct Hwf as [He Hne]. cbn [entry_enc] in *. rewrite (object_round_at _ _ _ e b) by done. f_equal. f_equal. unfold personal_object. cbn [result_bind].
    rewrite object_no_container by done. by destruct e as [[tag v] enc].
  - pose proof (container_wf _ _ Hwf) as Hc. destruct Hwf as (Hl & Hlen & Henc). cbn [entry_enc] in *.
    rewrite (object_round_at _ _ _ (Dg1xContainerA0_TAG, encs l, enc) b) by done. f_equal. f_equal. unfold personal_object. cbn [result_bind enc_of fst snd read_tag read_value].
    rewrite (container_head (encs l)) by done. unfold extract_nested_5f0f. rewrite (nested_texts_exact _ _ l) by done. done.
Qed.
Lemma document_round_at {E} der a e b o : entry_wf e → len der ≤ u64_max → der = a ++ entry_enc e ++ b →
  @document_round E der (len a, Ok o) = Some (len a + len (entry_enc e), Ok (document_entry e o)).
Proof.
  intros Hwf Hsz Hder. assert (len (entry_enc e ++ b) ≤ u64_max) as Hs by (rewrite Hder, len_app in Hsz; pose proof (len_nonneg a); lia).
  destruct (remaining_at Hder (entry_ne e Hwf)) as [Hrem Hlt]. unfold document_round. rewrite Hlt, Hrem. cbn [negb mbind option_bind].
  assert (len a + len (entry_enc e) ≤ u64_max) as Hadd by (rewrite Hder, !len_app in Hsz; pose proof (len_nonneg b); lia).
  destruct e as [e|l enc]; cbn [entry_enc] in *.
  - destruct Hwf as [He Hne]. rewrite object_no_container by done. destruct e as [[tag v] enc]. destruct He as (Htag & Hv & Henc). cbn [enc_of fst snd] in *.
    rewrite (read_two_encoded tag v) by done. cbn [mbind option_bind read_total_size]. by rewrite usize_add_ok.
  - destruct Hwf as (Hl & Hlen & Henc). rewrite (container_head (encs l)) by done. unfold BerTlv_parse. rewrite (ber_encoded_parse Dg1xContainerA0_TAG (encs l)) by done.
    cbn [result_bind]. unfold BerTlvAny_expect. cbn [any_tag]. rewrite Z.eqb_refl. cbn [negb result_ok mbind option_bind any_size]. rewrite usize_add_ok by done.
    cbn [mbind option_bind]. unfold extract_nested_5f1a. by rewrite (nested_texts_exact _ _ l).
Qed.


(** The details of the card are the fold of the objects that stand in the group, in
    order: each object sets the detail of its tag (to nothing where its value is no text,
    date or image of that kind), each container adds the names or persons in it, other
    tags do nothing. Whatever the octets of a group, the loops over it come to an end. *)
Theorem dg_details_exact {E} es tag size : Forall entry_wf es → len (concat (map entry_enc es)) ≤ u64_max →
  let d := mkBerTlvAny tag (concat (map entry_enc es)) size in
  @parse_dg11 E d = Ok (foldl (λ o e, personal_entry e o) AdditionalPersonalData_default es) ∧
  @parse_dg12 E d = Ok (foldl (λ o e, document_entry e o) AdditionalDocumentData_default es) ∧
  (∀ d, @parse_dg11 E d ≠ Panic ∧ @parse_dg12 E d ≠ Panic).
Proof.
  intros Hwf Hsz d.
  assert (∀ e, e ∈ es → entry_wf e) as Hin by (intros e He; rewrite Forall_forall in Hwf; apply Hwf, list_elem_of_In, He).
  assert (Forall (λ e, entry_enc e ≠ []) es) as Hne by (eapply list.Forall_impl; [exact Hwf|apply entry_ne]).
  split; [|split].
  - unfold parse_dg11, walk_personal_tags, walk_objects. cbn [any_value d]. change 0 with (len []).
    rewrite (run_loop_objects entry_enc Ok personal_entry (concat (map entry_enc es)) (object_round personal_object (concat (map entry_enc es))) es); [done| |apply object_round_end|done..|lia].
    intros a e b out He Hder. by apply (personal_round_at _ a e b); [apply Hin|..].
  - unfold parse_dg12. cbn [any_value d]. change 0 with (len []).
    rewrite (run_loop_objects entry_enc Ok document_entry (concat (map entry_enc es)) (document_round (concat (map entry_enc es))) es); [done| | |done..|lia].
    + intros a e b out He Hder. by apply (document_round_at _ a e b); [apply Hin|..].
    + intros out. unfold document_round. by rewrite Z.ltb_irrefl.
  - intros d'. destruct (@parse_dg11_total E d') as [? ->], (@parse_dg12_total E d') as [? ->]. done.
Qed.

Definition sample_entries : list dg_entry :=
  [De_Object (FULL_NAME, [0x41; 0x3C; 0x3C; 0x42], [0x5F; 0x0E; 4; 0x41; 0x3C; 0x3C; 0x42]);
   De_Container [(0x02, [1], [2; 1; 1]); (OTHER_NAMES, [0x20; 0x43], [0x5F; 0x0F; 2; 0x20; 0x43])] [0xA0; 8; 2; 1; 1; 0x5F; 0x0F; 2; 0x20; 0x43];
   De_Object (FULL_DATE_OF_BIRTH, [0x31; 0x39; 0x36; 0x30; 0x30; 0x32; 0x33; 0x30],
     [0x5F; 0x2B; 8; 0x31; 0x39; 0x36; 0x30; 0x30; 0x32; 0x33; 0x30])].
Lemma sample_entries_wf : Forall entry_wf sample_entries.
Proof.
  repeat apply Forall_cons_2; [| | |apply Forall_nil_2]; cbn [entry_wf].
  - split; [|by vm_compute]. split; [by vm_compute|]. split; [by vm_compute|]. apply ber_encoded_2; by vm_compute.
  - split; [|split; [by vm_compute|apply ber_encoded_1; by vm_compute]]. repeat apply Forall_cons_2; [| |apply Forall_nil_2].
    + split; [by vm_compute|]. split; [by vm_compute|]. apply ber_encoded_1; by vm_compute.
    + split; [by vm_compute|]. split; [by vm_compute|]. apply ber_encoded_2; by vm_compute.
  - split; [|by vm_compute]. split; [by vm_compute|]. split; [by vm_compute|]. apply ber_encoded_2; by vm_compute.
Qed.
(** A name, another name in a container, and a thirtieth of February that is no date. *)
Lemma dg_details_exact_witness :
  @parse_dg11 unit (mkBerTlvAny Dg11Wrapper_TAG (concat (map entry_enc sample_entries)) 0) =
  Ok (set_other_names [mkOtherName [0x43]] (set_full_name (Some (mkDg11FullName [0x41; 0x3C; 0x3C; 0x42])) AdditionalPersonalData_default)).
Proof.
  rewrite (proj1 (@dg_details_exact unit sample_entries Dg11Wrapper_TAG 0 sample_entries_wf ltac:(by vm_compute))). by vm_compute.
Defined.

(** ** Images *)

Lemma windows_lookup {A} n (l : list A) i w : (0 < n)%nat → windows n l !! i = Some w ↔ (i + n ≤ length l)%nat ∧ w = take n (drop i l).
Proof.
  intros Hn. revert i. induction l as [|x l IH]; intros i; cbn [windows].
  - split; [done|]. simpl. lia.
  - case_decide as Hl; [|split; [done|]; intros [Hi _]; simpl in *; lia]. destruct i as [|i]; cbn [lookup list_lookup drop].
    + split; [intros [= <-]; done|]. by intros [_ ->].
    + rewrite IH. simpl. split; (intros [? ->]; split; [lia|done]).
Qed.
(** The first place where the octets stand. *)
Lemma scan_for_magic_exact buf needle i : needle ≠ [] → scan_for_magic buf needle = Some i ↔
  (∃ r, drop i buf = needle ++ r) ∧ (∀ j r, drop j buf = needle ++ r → (i ≤ j)%nat).
Proof.
  intros Hne. assert (0 < length needle)%nat as Hpos by (destruct needle; [done|simpl; lia]).
  assert (∀ j r, drop j buf = needle ++ r → windows (length needle) buf !! j = Some needle) as Hat.
  { intros j r Hj. apply windows_lookup; [done|]. split; [|rewrite Hj; by rewrite take_app_length].
    apply (f_equal length) in Hj. rewrite length_drop, length_app in Hj. lia. }
  unfold scan_for_magic. destruct (Z.eqb_spec (len needle) 0) as [H0|_]; [unfold len in H0; lia|]. cbn [orb].
  destruct (Z.ltb_spec (len buf) (len needle)) as [Hs|Hs].
  { split; [done|]. intros [[r Hr] _]. apply (f_equal length) in Hr. rewrite length_drop, length_app in Hr. unfold len in Hs. lia. }
  split.
  - intros (w & Hw & Heq%bool_decide_eq_true & Hbefore)%position_Some. subst w. apply windows_lookup in Hw as [Hi Hw]; [|done]. split.
    + exists (drop (length needle) (drop i buf)). rewrite Hw at 1. by rewrite take_drop.
    + intros j r Hj%Hat. destruct (decide (i ≤ j)%nat) as [|Hlt]; [done|]. exfalso. assert (take i (windows (length needle) buf) !! j = Some needle) as Ht by (rewrite lookup_take_lt; [done|lia]).
      apply list_elem_of_lookup_2, list_elem_of_In in Ht. rewrite Forall_forall in Hbefore. apply Hbefore in Ht. by apply bool_decide_eq_false in Ht.
  - intros [[r Hr] Hfirst]. destruct (position _ _) as [k|] eqn:Hp.
    + apply position_Some in Hp as (w & Hw & Heq%bool_decide_eq_true & Hbefore). subst w. pose proof Hw as Hw'. apply windows_lookup in Hw as [Hk Hw]; [|done]. f_equal.
      assert (drop k buf = needle ++ drop (length needle) (drop k buf)) as Hdk by (rewrite <- (take_drop (length needle) (drop k buf)) at 1; by rewrite <- Hw).
      apply Hfirst in Hdk. destruct (decide (k = i)) as [|Hne']; [done|]. exfalso. apply Hat in Hr.
      assert (take k (windows (length needle) buf) !! i = Some needle) as Ht by (rewrite lookup_take_lt; [done|lia]).
      apply list_elem_of_lookup_2, list_elem_of_In in Ht. rewrite Forall_forall in Hbefore. apply Hbefore in Ht. by apply bool_decide_eq_false in Ht.
    + exfalso. apply position_None in Hp. apply Hat, list_elem_of_lookup_2, list_elem_of_In in Hr. rewrite Forall_forall in Hp. apply Hp in Hr.
      by apply bool_decide_eq_false in Hr.
Qed.

(** ** Security objects *)

Lemma push_def_length_encoder {E} out n : 0 ≤ n ≤ u16_max → @BerEncoder_push_length E out n = Ok (push_def_length out n).
Proof.
  intros Hn. unfold BerEncoder_push_length, push_def_length, SHORT_FORM_CEILING, u8_max, u16_max in *.
  destruct (Z.leb_spec n 255) as [H8|H8], (Z.ltb_spec n 0x80); cbn [andb]; try lia; [done..|].
  destruct (Z.leb_spec n 65535); [|lia]. by rewrite Z.min_l.
Qed.

(** A security object: its identifier, what follows that, its octets. *)
Record security_info := mkInfo { info_oid : bytes; info_oid_enc : bytes; info_rest : bytes; info_enc : bytes }.
Definition info_wf (i : security_info) : Prop :=
  ber_encoded Oid_TAG (info_oid i) (info_oid_enc i) ∧ len (info_oid i) ≤ u32_max ∧
  ber_encoded Sequence_TAG (info_oid_enc i ++ info_rest i) (info_enc i) ∧ len (info_oid_enc i ++ info_rest i) ≤ u32_max.
Definition info_seq (i : security_info) : BerTlvAny := mkBerTlvAny Sequence_TAG (info_oid_enc i ++ info_rest i) (len (info_enc i)).

Lemma iter_next_encoded tag v enc rest : len v ≤ u32_max → len (enc ++ rest) ≤ u64_max → ber_encoded tag v enc →
  BerTlvIter_next (enc ++ rest) = (Some (Ok (mkBerTlvAny tag v (len enc))), rest).
Proof. intros Hv Hs He. apply BerTlvIter_next_Ok; [by apply ber_encoded_parse|done]. Qed.
Lemma expect_same t : BerTlvAny_expect (any_tag t) t = Ok t.
Proof. unfold BerTlvAny_expect. by rewrite Z.eqb_refl. Qed.
Lemma dg14_entry_info i : info_wf i → dg14_entry (info_seq i) = Some (classify_dg14_entry (info_oid i) (info_rest i) (info_seq i)).
Proof.
  intros (Ho & Hol & Hs & Hsl). unfold dg14_entry. change Sequence_TAG with (any_tag (info_seq i)). rewrite expect_same. cbn [result_ok mbind option_bind].
  cbn [any_value info_seq]. rewrite (iter_next_encoded Oid_TAG (info_oid i)) by (done || unfold u32_max, u64_max in *; lia). done.
Qed.
(** What a key object gives: the octets of the key, as they stand there. *)
Lemma chip_key_info i key key_enc more : info_wf i → starts_with OID_PREFIX_PK (info_oid i) = true → info_rest i = key_enc ++ more →
  tlv Sequence_TAG key = Ok (E:=BerError) key_enc → len key ≤ u16_max →
  classify_dg14_entry (info_oid i) (info_rest i) (info_seq i) = Si_ChipAuthenticationPublicKeyInfo (info_oid i) key_enc.
Proof.
  intros (Ho & Hol & Hs & Hsl) Hpk Hrest Hkey Hl. pose proof (len_nonneg key). unfold classify_dg14_entry.
  assert (starts_with OID_PREFIX_CA (info_oid i) = false) as ->.
  { unfold starts_with in *. apply bool_decide_eq_false. intros Hca. case_bool_decide as Hx; [|done]. change (length OID_PREFIX_PK) with (length OID_PREFIX_CA) in Hx. by rewrite Hca in Hx. }
  rewrite Hpk. do 2 f_equal. unfold extract_remaining_spki. cbn [any_value info_seq]. rewrite Hrest in *.
  rewrite (iter_next_encoded Oid_TAG (info_oid i)) by (done || unfold u32_max, u64_max in *; lia). unfold next_of.
  assert (ber_encoded Sequence_TAG key key_enc) as He by (by apply ber_encoded_1).
  rewrite !len_app in Hsl. pose proof (len_nonneg (info_oid_enc i)).
  rewrite (iter_next_encoded Sequence_TAG key) by (done || rewrite ?len_app; unfold u16_max, u32_max, u64_max in *; lia).
  pose proof (expect_same (mkBerTlvAny Sequence_TAG key (len key_enc))) as Hex. cbn [any_tag] in Hex. rewrite Hex. cbn [result_ok mbind option_bind any_value default].
  unfold tlv, BerEncoder_push_tlv in Hkey. rewrite push_def_length_encoder in Hkey by lia. cbn [app result_bind] in Hkey. by injection Hkey as ->.
Qed.
Lemma chip_protocol_info oid version_enc more outer family cipher version : oid = OID_PREFIX_CA ++ [family; cipher] →
  is_byte version → version_enc = [Integer_TAG; 1; version] → len more ≤ u32_max →
  classify_dg14_entry oid (version_enc ++ more) outer = Si_ChipAuthenticationInfo (ca_label family cipher) oid (Some version).
Proof.
  intros -> Hv -> Hm. unfold classify_dg14_entry. rewrite starts_with_app.
  assert (zget 8 (OID_PREFIX_CA ++ [family; cipher]) = Some family) as -> by apply (zget_app OID_PREFIX_CA).
  assert (zget 9 (OID_PREFIX_CA ++ [family; cipher]) = Some cipher) as -> by apply (zget_app (OID_PREFIX_CA ++ [family]) cipher []).
  cbn [mbind option_bind]. f_equal. unfold read_integer_u32, next_of.
  rewrite (iter_next_encoded Integer_TAG [version]); [|done| |by apply ber_encoded_1].
  - pose proof (expect_same (mkBerTlvAny Integer_TAG [version] (len [Integer_TAG; 1; version]))) as Hex. cbn [any_tag] in Hex. rewrite Hex.
    cbn [result_ok mbind option_bind any_value]. rewrite big_endian_be by (solve_bytes || done). done.
  - rewrite len_app. change (len [Integer_TAG; 1; version]) with 3. unfold u32_max, u64_max in *. lia.
Qed.

(** The security objects of a chip are all of those in the set, in order, each with its
    own identifier; the key of a key object is the octets of its key object, to the bit,
    and a protocol of chip authentication is told by its two last identifier octets, with
    the version that stands behind it. *)
Theorem dg14_exact infos tag size : Forall info_wf infos → len (concat (map info_enc infos)) ≤ u64_max →
  parse_dg14 (mkBerTlvAny tag (concat (map info_enc infos)) size) =
    map (λ i, classify_dg14_entry (info_oid i) (info_rest i) (info_seq i)) infos ∧
  (∀ i key key_enc more, i ∈ infos → starts_with OID_PREFIX_PK (info_oid i) = true → info_rest i = key_enc ++ more →
     tlv Sequence_TAG key = Ok (E:=BerError) key_enc → len key ≤ u16_max →
     classify_dg14_entry (info_oid i) (info_rest i) (info_seq i) = Si_ChipAuthenticationPublicKeyInfo (info_oid i) key_enc) ∧
  (∀ i family cipher version more, i ∈ infos → info_oid i = OID_PREFIX_CA ++ [family; cipher] → is_byte version →
     info_rest i = [Integer_TAG; 1; version] ++ more → len more ≤ u32_max →
     classify_dg14_entry (info_oid i) (info_rest i) (info_seq i) = Si_ChipAuthenticationInfo (ca_label family cipher) (info_oid i) (Some version)).
Proof.
  intros Hwf Hsz. split; [|split].
  - unfold parse_dg14. cbn [any_value]. induction infos as [|i infos IH]; [done|]. apply Forall_cons_iff in Hwf as [Hi Hwf]. cbn [map concat] in *.
    pose proof Hi as (_ & _ & Hs & Hsl). rewrite (BerTlvIter_items_cons _ (info_seq i)); [|by apply ber_encoded_parse|done]. cbn [dg14_entries].
    rewrite dg14_entry_info by done. cbn [option_list app]. f_equal. apply IH; [done|]. rewrite len_app in Hsz. pose proof (len_nonneg (info_enc i)). lia.
  - intros i key key_enc more Hi. rewrite Forall_forall in Hwf. apply list_elem_of_In, Hwf in Hi. by apply chip_key_info.
  - intros i family cipher version more _ -> Hv -> Hm. by apply (chip_protocol_info _ [Integer_TAG; 1; version]).
Qed.

(** A chip with a protocol and a key. *)
Definition sample_infos : list security_info :=
  [mkInfo (OID_PREFIX_CA ++ [2; 4]) ([0x06; 10] ++ OID_PREFIX_CA ++ [2; 4]) [0x02; 1; 2] ([0x30; 15; 0x06; 10] ++ OID_PREFIX_CA ++ [2; 4; 0x02; 1; 2]);
   mkInfo (OID_PREFIX_PK ++ [2]) ([0x06; 9] ++ OID_PREFIX_PK ++ [2]) [0x30; 2; 7; 7] ([0x30; 15; 0x06; 9] ++ OID_PREFIX_PK ++ [2; 0x30; 2; 7; 7])].
Lemma sample_infos_wf : Forall info_wf sample_infos.
Proof.
  repeat apply Forall_cons_2; [| |apply Forall_nil_2]; (split; [apply ber_encoded_1; by vm_compute|]; split; [by vm_compute|]; split; [apply ber_encoded_1; by vm_compute|by vm_compute]).
Qed.
Lemma dg14_exact_witness :
  parse_dg14 (mkBerTlvAny Set_TAG (concat (map info_enc sample_infos)) 0) =
  [Si_ChipAuthenticationInfo "id-CA-ECDH-AES-CBC-CMAC-256" (OID_PREFIX_CA ++ [2; 4]) (Some 2);
   Si_ChipAuthenticationPublicKeyInfo (OID_PREFIX_PK ++ [2]) [0x30; 2; 7; 7]].
Proof. rewrite (proj1 (dg14_exact sample_infos Set_TAG 0 sample_infos_wf ltac:(by vm_compute))). by vm_compute. Defined.
