(* ===== verification/Emrtd.v ===== *)
(** The files of an identity card's travel-document application, of
    crates/refineid-lib-core/src/emrtd.rs: its errors, selecting it, and reading one of
    its files whole. *)

From S2P Require Import Prelude StatusWord Ber Transport Apdu SecureMessaging Pkcs15 Display DataGroups.

Definition APPLET_AID : bytes := [0xA0; 0x00; 0x00; 0x02; 0x47; 0x10; 0x01].
Definition SFI_EF_COM : Sfi := mkSfi 0x1E.
Definition SFI_EF_DG1 : Sfi := mkSfi 0x01.
Definition SFI_EF_DG2 : Sfi := mkSfi 0x02.
Definition SFI_EF_DG3 : Sfi := mkSfi 0x03.
Definition SFI_EF_DG7 : Sfi := mkSfi 0x07.
Definition SFI_EF_DG11 : Sfi := mkSfi 0x0B.
Definition SFI_EF_DG12 : Sfi := mkSfi 0x0C.
Definition SFI_EF_DG13 : Sfi := mkSfi 0x0D.
Definition SFI_EF_DG14 : Sfi := mkSfi 0x0E.
Definition SFI_EF_DG15 : Sfi := mkSfi 0x0F.
Definition SFI_EF_SOD : Sfi := mkSfi 0x1D.
Definition MAX_CHUNK : Z := 0xE0.
(** They pass the compile-time check of [Sfi::from_const]. *)
Example sfi_constants : Forall (λ s, Sfi_from_const (Sfi_0 s) = Ok s)
  [SFI_EF_COM; SFI_EF_DG1; SFI_EF_DG2; SFI_EF_DG3; SFI_EF_DG7; SFI_EF_DG11; SFI_EF_DG12; SFI_EF_DG13; SFI_EF_DG14; SFI_EF_DG15; SFI_EF_SOD].
Proof. repeat apply Forall_cons_2; [done..|apply Forall_nil_2]. Qed.

Inductive EmrtdError (TE : Type) :=
| Em_Transport (e : TransportDispatchError TE)
| Em_Sw (op : string) (sw : Z)
| Em_Ber (e : BerError)
| Em_Pace (msg : bytes)
| Em_BadCan
| Em_SecureMessaging (msg : bytes)
| Em_CardReset
| Em_ParseFailure (what : string)
| Em_ParseFailureDetail (what : string) (detail : bytes).
Arguments Em_Transport {TE} e.
Arguments Em_Sw {TE} op sw.
Arguments Em_Ber {TE} e.
Arguments Em_Pace {TE} msg.
Arguments Em_BadCan {TE}.
Arguments Em_SecureMessaging {TE} msg.
Arguments Em_CardReset {TE}.
Arguments Em_ParseFailure {TE} what.
Arguments Em_ParseFailureDetail {TE} what detail.

#[export] Instance EmrtdError_Display `{Display TE} : Display (EmrtdError TE) := λ e,
  match e with
  | Em_Transport e => txt "transport: " ++ fmt e
  | Em_Sw op sw => txt op ++ txt ": SW=" ++ hex_padded upper_hex 6 sw
  | Em_Ber e => txt "BER parse: " ++ fmt e
  | Em_Pace msg => txt "PACE: " ++ msg
  | Em_BadCan => txt "CAN did not match the card -- verify the CAN printed on the card front matches what you passed"
  | Em_SecureMessaging msg => txt "SM: " ++ msg
  | Em_CardReset => txt "card was reset mid-operation"
  | Em_ParseFailure what => txt "could not parse " ++ txt what
  | Em_ParseFailureDetail what detail => txt "could not parse " ++ txt what ++ txt ": " ++ detail
  end.

(** [map_sm_emrtd_error]: errors of the channel, and those of the card under it. *)
Definition map_sm_emrtd_error `{Display TE} (e : EmrtdError (SmError TE)) : EmrtdError TE :=
  match e with
  | Em_Sw op sw => Em_Sw op sw
  | Em_Ber b => Em_Ber b
  | Em_Pace p => Em_Pace p
  | Em_BadCan => Em_BadCan
  | Em_SecureMessaging m => Em_SecureMessaging m
  | Em_CardReset => Em_CardReset
  | Em_ParseFailure p => Em_ParseFailure p
  | Em_ParseFailureDetail what detail => Em_ParseFailureDetail what detail
  | Em_Transport (Tde_Error (Sm_Transport inner)) => Em_Transport (Tde_Error inner)
  | Em_Transport (Tde_Error sm_err) => Em_SecureMessaging (fmt sm_err)
  | Em_Transport (Tde_Outcome o) => Em_Transport (Tde_Outcome o)
  end.

(** ** The length of an object, from its first octets *)

Definition bit8 (b : Z) : bool := negb (Z.land b CONTINUATION_OR_LONG_FORM_MASK =? 0).
(** The [while] over tag octets that go on. *)
Fixpoint skip_tag (fuel : nat) (header : bytes) (i : Z) : Z :=
  match fuel with
  | O => i
  | S fuel => match zget i header with
              | Some b => if bit8 b then skip_tag fuel header (i + 1) else i
              | None => i
              end
  end.
Fixpoint length_octets (n : nat) (header : bytes) (i v : Z) : option Z :=
  match n with
  | O => Some v
  | S n => b ← zget i header; v ← shift_octet 64 v b; length_octets n header (i + 1) v
  end.
Definition decode_outer_total_length_inner (header : bytes) : option Z :=
  first ← head header;
  let tag_bytes :=
    if Z.land first HIGH_TAG_NUMBER_MASK =? HIGH_TAG_NUMBER_MASK then
      let i := skip_tag (length header) header 1 in
      match zget i header with Some _ => i + 1 | None => i end
    else 1 in
  len_first ← zget tag_bytes header;
  '(length_field_bytes, value_len) ← (if len_first <? CONTINUATION_OR_LONG_FORM_MASK then Some (1, len_first)
     else let n := Z.land len_first LONG_FORM_LENGTH_COUNT_MASK in
          v ← length_octets (Z.to_nat n) header (tag_bytes + 1) 0; Some (1 + n, v));
  a ← usize_add tag_bytes length_field_bytes;
  usize_add a value_len.
Definition decode_outer_total_length (header : bytes) : Z := default (len header) (decode_outer_total_length_inner header).

(** ** Commands *)

Inductive AddressMode := Am_Sfi (sfi : Sfi) | Am_Offset.

Section emrtd.
Context `{CardTransport T E}.

Definition emrtd_transmit (c : CommandApdu) : act T (EmrtdError E) ResponseApdu :=
  act_map_err Em_Transport (transmit (CommandApdu_as_bytes c)).

(** The [expect] on the identifier is a panic of its own; it has 7 octets. *)
Definition select_application : act T (EmrtdError E) StatusWord :=
  match Aid_from_slice APPLET_AID with
  | Ok aid =>
      do! r := emrtd_transmit (SelectByAidNoFci_into_apdu (mkSelectByAidNoFci aid)) in
      act_ret (ResponseApdu_status_word r)
  | _ => act_lift Panic
  end.

Definition read_chunk (mode : AddressMode) (offset length : Z) : act T (EmrtdError E) bytes :=
  let apdu := match mode with
              | Am_Sfi sfi => ReadBinaryBySfi_into_apdu (mkReadBinaryBySfi sfi (u16_lo offset) length)
              | Am_Offset => ReadBinaryByOffset_into_apdu (mkReadBinaryByOffset offset length)
              end in
  do! r := emrtd_transmit apdu in
  match ResponseApdu_status_word r with
  | Sw_Success | Sw_EndOfFile => act_ret (rsp_body r)
  | _ => act_err (Em_Sw "READ BINARY" (ResponseApdu_sw r))
  end.

(** One round of the [while]. *)
Definition read_file_round (total : Z) (collected : bytes) : act T (EmrtdError E) (bytes + bytes) :=
  if negb (len collected <? total) then act_ret (inr collected)
  else
    let remaining := total - len collected in
    let want := u8_saturating (Z.min MAX_CHUNK remaining) in
    if len collected >? u16_max then act_ret (inr collected)
    else
      do! chunk := read_chunk Am_Offset (len collected) want in
      match chunk with
      | [] => act_ret (inr collected)
      | _ => act_ret (inl (collected ++ chunk))
      end.
(** Every round but the last adds an octet, and there are none past [u16::MAX]. *)
Definition read_file_fuel : nat := Z.to_nat (u16_max + 2).
Definition read_file (sfi : Sfi) : act T (EmrtdError E) bytes :=
  do! header := read_chunk (Am_Sfi sfi) 0 4 in
  if len header <? 2 then act_ret header
  else act_loop read_file_fuel (read_file_round (decode_outer_total_length header)) header.
End emrtd.

(** ** Lemmas *)

Lemma chunk_want c total : c < total → 1 ≤ u8_saturating (Z.min MAX_CHUNK (total - c)) ≤ MAX_CHUNK ∧ u8_saturating (Z.min MAX_CHUNK (total - c)) = Z.min MAX_CHUNK (total - c).
Proof. unfold u8_saturating, MAX_CHUNK, u8_max. intros Hc. destruct (Z.leb_spec (Z.min 0xE0 (total - c)) 255); lia. Qed.

(** Length octets of an object of up to 65535 octets. *)
Lemma short_length_shape {E} n out : 0 ≤ n ≤ u16_max →
  ∃ lb, @BerEncoder_push_length E out n = Ok (out ++ lb) ∧
    (lb = [n] ∧ n < 0x80 ∨ ∃ l, lb = 0x80 + len l :: l ∧ 1 ≤ len l ≤ 2 ∧ bytes_ok l ∧ be_fold l = n).
Proof.
  intros Hn. unfold BerEncoder_push_length, SHORT_FORM_CEILING, u8_max, u16_max in *.
  destruct (Z.ltb_spec n 0x80); [exists [n]; split; [done|by left]|]. destruct (Z.leb_spec n 255).
  - exists [LONG_FORM_1B; n]. split; [done|]. right. exists [n]. split; [done|]. split; [by vm_compute|].
    assert (is_byte n) by (unfold is_byte; lia). split; [apply Forall_cons_2; [done|apply Forall_nil_2]|by apply be_fold_1].
  - destruct (Z.leb_spec n 65535); [|lia]. exists ([LONG_FORM_2B] ++ to_be 2 n). split; [done|]. right. exists (to_be 2 n). split; [done|]. split; [done|].
    split; [apply to_be_bytes_ok|]. rewrite be_fold_to_be by lia. apply Z.mod_small. change (256 ^ Z.of_nat 2) with 65536. lia.
Qed.
Lemma length_octets_at l a b v : length_octets (length l) (a ++ l ++ b) (len a) v = big_endian 64 v l.
Proof.
  revert a v. induction l as [|x l IH]; intros a v; [done|]. cbn [length length_octets big_endian app]. assert (zget (len a) (a ++ x :: l ++ b) = Some x) as -> by apply zget_app. cbn [mbind option_bind].
  destruct (shift_octet 64 v x) as [w|]; [|done]. cbn [mbind option_bind]. specialize (IH (a ++ [x]) w). rewrite <- app_assoc in IH. cbn [app] in IH.
  by rewrite len_app in IH.
Qed.
Lemma decode_header_at tag lb r n : Z.land tag HIGH_TAG_NUMBER_MASK ≠ HIGH_TAG_NUMBER_MASK → 0 ≤ n ≤ u16_max →
  (lb = [n] ∧ n < 0x80 ∨ ∃ l, lb = 0x80 + len l :: l ∧ 1 ≤ len l ≤ 2 ∧ bytes_ok l ∧ be_fold l = n) →
  decode_outer_total_length_inner (tag :: lb ++ r) = Some (1 + len lb + n).
Proof.
  intros Ht%Z.eqb_neq Hn Hlb. unfold decode_outer_total_length_inner, u16_max in *. cbn [head mbind option_bind]. rewrite Ht.
  destruct Hlb as [[-> Hs]|(l & -> & Hl & Hb & Hv)]; cbn [app].
  - rewrite (zget_app [tag] n r : zget 1 (tag :: n :: r) = Some n). cbn [mbind option_bind]. unfold CONTINUATION_OR_LONG_FORM_MASK.
    destruct (Z.ltb_spec n 0x80); [|lia]. cbn [mbind option_bind]. rewrite !usize_add_ok by (unfold u64_max; lia). cbn [mbind option_bind].
    rewrite usize_add_ok by (unfold u64_max; lia). done.
  - rewrite (zget_app [tag] _ _ : zget 1 (tag :: 0x80 + len l :: l ++ r) = Some (0x80 + len l)). cbn [mbind option_bind]. unfold CONTINUATION_OR_LONG_FORM_MASK.
    destruct (Z.ltb_spec (0x80 + len l) 0x80); [lia|].
    assert (Z.land (0x80 + len l) LONG_FORM_LENGTH_COUNT_MASK = len l) as -> by (assert (len l = 1 ∨ len l = 2) as [-> | ->] by lia; done).
    replace (Z.to_nat (len l)) with (length l) by (unfold len; lia).
    rewrite (length_octets_at l [tag; 0x80 + len l] r 0 : length_octets (length l) (tag :: 0x80 + len l :: l ++ r) (1 + 1) 0 = _).
    rewrite big_endian_be by (done || lia). cbn [mbind option_bind]. rewrite Hv. rewrite len_cons.
    rewrite !usize_add_ok by (unfold u64_max; lia). cbn [mbind option_bind]. rewrite usize_add_ok by (unfold u64_max; lia). f_equal; lia.
Qed.
(** The length of an object that has at least four octets. *)
Lemma decode_header tag v enc pad : Z.land tag HIGH_TAG_NUMBER_MASK ≠ HIGH_TAG_NUMBER_MASK → tlv tag v = Ok (E:=BerError) enc →
  4 ≤ len enc → len v ≤ u16_max → decode_outer_total_length (take 4 (enc ++ pad)) = len enc.
Proof.
  intros Ht Henc H4 Hv. pose proof (len_nonneg v). unfold tlv, BerEncoder_push_tlv in Henc.
  destruct (@short_length_shape BerError (len v) [tag] ltac:(lia)) as (lb & Hlb & Hshape). cbn [app] in Henc. rewrite Hlb in Henc. cbn [result_bind app] in Henc.
  injection Henc as <-. assert (1 ≤ length lb ≤ 3)%nat as Hlen.
  { destruct Hshape as [[-> _]|(l & -> & Hl & _)]; [simpl; lia|]. unfold len in Hl. simpl. lia. }
  assert (∃ r, take 4 ((tag :: lb ++ v) ++ pad) = tag :: lb ++ r) as [r ->].
  { exists (take (3 - length lb) (v ++ pad)). cbn [app take]. f_equal. rewrite <- app_assoc, take_app. f_equal. by rewrite take_ge by lia. }
  unfold decode_outer_total_length. rewrite (decode_header_at tag lb r (len v)) by (done || lia). cbn [default from_option]. unfold id. rewrite len_cons, len_app. lia.
Qed.

Section reading.
Context `{CardTransport T E}.

Lemma emrtd_transmit_no_panic c (t : T) : (∀ c (t : T), (transmit_outcome c t).2 ≠ Panic) → (emrtd_transmit c t).2 ≠ Panic.
Proof. intros Ht. by apply act_map_err_no_panic, transmit_no_panic. Qed.
Lemma read_chunk_no_panic mode off n (t : T) : (∀ c (t : T), (transmit_outcome c t).2 ≠ Panic) → (read_chunk mode off n t).2 ≠ Panic.
Proof.
  intros Ht. apply act_bind_no_panic; [by apply emrtd_transmit_no_panic|]. intros r t'. by destruct (ResponseApdu_status_word r).
Qed.
Lemma read_file_round_no_panic total c (t : T) : (∀ c (t : T), (transmit_outcome c t).2 ≠ Panic) → (read_file_round total c t).2 ≠ Panic.
Proof.
  intros Ht. unfold read_file_round. destruct (negb _); [done|]. destruct (_ >? _); [done|].
  apply act_bind_no_panic; [by apply read_chunk_no_panic|]. by intros [|b bs] t'.
Qed.
Lemma read_file_round_inl total c (t t' : T) c' : read_file_round total c t = (t', Ok (inl c')) → len c ≤ u16_max ∧ len c < len c'.
Proof.
  unfold read_file_round. destruct (negb _); [done|]. destruct (Z.gtb_spec (len c) u16_max); [done|].
  intros (t1 & chunk & _ & Hr)%act_bind_inv_ok. destruct chunk as [|b bs]; [done|]. injection Hr as _ <-. rewrite len_app, len_cons. pose proof (len_nonneg bs). lia.
Qed.
(** Reading a file comes to an end, whatever the card answers. *)
Lemma read_file_total sfi (t : T) : (∀ c (t : T), (transmit_outcome c t).2 ≠ Panic) → (read_file sfi t).2 ≠ Panic.
Proof.
  intros Ht. apply act_bind_no_panic; [by apply read_chunk_no_panic|]. intros header t'. destruct (_ <? _); [done|].
  apply (act_loop_total (λ c, Z.max 0 (u16_max + 1 - len c)) (λ _, True)).
  - intros s t1 _. by apply read_file_round_no_panic.
  - intros s t1 t2 s' _ Hr%read_file_round_inl. split; [done|]. lia.
  - done.
  - unfold read_file_fuel. rewrite Z2Nat.id by (unfold u16_max; lia). pose proof (len_nonneg header). unfold u16_max in *. lia.
  - lia.
Qed.

(** A card that serves a file: under its short identifier it gives the first octets and
    has it selected; then, as long as [inv], it answers each READ BINARY at an address of
    15 bits with the octets asked for, as far as there are any. *)
Definition read_answer (r : ResponseApdu) (body : bytes) : Prop :=
  rsp_body r = body ∧ (ResponseApdu_status_word r = Sw_Success ∨ ResponseApdu_status_word r = Sw_EndOfFile).
Definition serves_file (inv : T → Prop) (file : bytes) : Prop :=
  ∀ t off want, inv t → 0 ≤ off < 2 ^ 15 → 1 ≤ want ≤ MAX_CHUNK →
    ∃ t' r, transmit (cmd_bytes (ReadBinaryByOffset_into_apdu (mkReadBinaryByOffset off want))) t = (t', Ok r) ∧ inv t' ∧
      read_answer r (take (Z.to_nat want) (drop (Z.to_nat off) file)).
Definition opens (inv : T → Prop) (sfi : Sfi) (file : bytes) (t : T) : Prop :=
  ∃ t' r, transmit (cmd_bytes (ReadBinaryBySfi_into_apdu (mkReadBinaryBySfi sfi 0 4))) t = (t', Ok r) ∧ inv t' ∧ read_answer r (take 4 file).

Lemma read_chunk_answer mode off n (t t' : T) r body :
  transmit (cmd_bytes match mode with Am_Sfi sfi => ReadBinaryBySfi_into_apdu (mkReadBinaryBySfi sfi (u16_lo off) n) | Am_Offset => ReadBinaryByOffset_into_apdu (mkReadBinaryByOffset off n) end) t = (t', Ok r) →
  read_answer r body → read_chunk mode off n t = (t', Ok body).
Proof.
  intros Ht [<- Hs]. unfold read_chunk, emrtd_transmit, act_bind, act_map_err, CommandApdu_as_bytes. destruct mode; rewrite Ht; cbn [map_err]; by destruct Hs as [-> | ->].
Qed.
Lemma read_file_rest inv file n fuel c (t : T) : serves_file inv file → inv t → 0 < c ≤ n → n ≤ len file → n ≤ 2 ^ 15 → n - c < Z.of_nat fuel →
  ∃ t', act_loop fuel (read_file_round n) (take (Z.to_nat c) file) t = (t', Ok (take (Z.to_nat n) file)) ∧ inv t'.
Proof.
  intros Hs. revert c t. induction fuel as [|fuel IH]; intros c t Hi Hc Hn Hmax Hf; [lia|]. cbn [act_loop]. unfold act_bind at 1, read_file_round.
  rewrite len_take_Z by lia. destruct (Z.ltb_spec c n) as [Hlt|Hge]; cbn [negb].
  2:{ assert (c = n) as -> by lia. by exists t. }
  destruct (Z.gtb_spec c u16_max); [unfold u16_max in *; lia|]. destruct (chunk_want c n Hlt) as [Hw Hweq].
  set (want := u8_saturating (Z.min MAX_CHUNK (n - c))) in *.
  destruct (Hs t c want Hi ltac:(lia) Hw) as (t' & r & Htr & Hi' & Hr). unfold act_bind at 1. rewrite (read_chunk_answer Am_Offset _ _ _ _ _ _ Htr Hr).
  assert (len (take (Z.to_nat want) (drop (Z.to_nat c) file)) = want) as Hl by (rewrite len_take_drop by lia; unfold want in *; lia).
  destruct (take (Z.to_nat want) (drop (Z.to_nat c) file)) as [|b bs] eqn:Hchunk; [unfold len in Hl; simpl in Hl; lia|]. rewrite <- Hchunk.
  rewrite take_take_drop, <- Z2Nat.inj_add by lia. cbn [act_ret]. apply (IH (c + want)); [done|unfold want in *; lia..].
Qed.
(** A file that holds one object of 4 to 32768 octets, and then anything, is read as that
    object. *)
Lemma read_file_object inv sfi (t : T) tag v enc pad : serves_file inv (enc ++ pad) → opens inv sfi (enc ++ pad) t →
  Z.land tag HIGH_TAG_NUMBER_MASK ≠ HIGH_TAG_NUMBER_MASK → tlv tag v = Ok (E:=BerError) enc → 4 ≤ len enc ≤ 2 ^ 15 →
  ∃ t', read_file sfi t = (t', Ok enc) ∧ inv t'.
Proof.
  intros Hs (t1 & r & Htr & Hi & Hr) Htag Henc Hlen. unfold read_file, act_bind. rewrite (read_chunk_answer (Am_Sfi sfi) 0 4 _ _ _ _ Htr Hr).
  assert (len v ≤ u16_max) as Hv.
  { pose proof Henc as Henc'. unfold tlv, BerEncoder_push_tlv in Henc'. apply result_bind_inv_ok in Henc' as (out & Hout & [= <-]). rewrite len_app in Hlen. pose proof (len_nonneg out). unfold u16_max. lia. }
  assert (4 ≤ len (enc ++ pad)) as H4 by (rewrite len_app; pose proof (len_nonneg pad); lia).
  assert (len (take 4 (enc ++ pad)) = 4) as Hl4 by (unfold len in *; rewrite length_take; lia). rewrite Hl4. change (4 <? 2) with false. cbv iota.
  rewrite (decode_header tag v enc pad) by (done || lia).
  destruct (read_file_rest inv (enc ++ pad) (len enc) read_file_fuel 4 t1) as (t2 & Hl & Hi2); [done|done|lia|rewrite len_app; pose proof (len_nonneg pad); lia|lia| |].
  - unfold read_file_fuel, u16_max. lia.
  - exists t2. split; [|done]. change (Z.to_nat 4) with 4%nat in Hl. rewrite Hl. do 2 f_equal. unfold len. rewrite Nat2Z.id. by rewrite take_app_length.
Qed.
End reading.

(** ** Over the channel *)

Section over_channel.
Context `{AesCryptoLaws} {T TE : Type} `{CardTransport T TE}.

(** READ BINARY as it reaches the card behind the channel. *)
Definition marked_read (p1 p2 le : Z) : CommandApdu := CommandApdu_new [0x0C; 0xB0; p1; p2; le].
(** The application of a card: what it answers to the reads of one file. *)
Definition card_serves (inv : T → Prop) (file : bytes) : Prop :=
  ∀ c off want, inv c → 0 ≤ off < 2 ^ 15 → 1 ≤ want ≤ MAX_CHUNK →
    ∃ c' r, transmit_outcome (marked_read (u16_hi off) (u16_lo off) want) c = (c', Ok (To_Response r)) ∧ inv c' ∧
      read_answer r (take (Z.to_nat want) (drop (Z.to_nat off) file)).
Definition card_opens (inv : T → Prop) (sfi : Sfi) (file : bytes) (c : T) : Prop :=
  ∃ c' r, transmit_outcome (marked_read (Sfi_as_p1_short_form sfi) 0 4) c = (c', Ok (To_Response r)) ∧ inv c' ∧ read_answer r (take 4 file).
Definition well_formed_answers : Prop := ∀ c (t t' : T) rsp, transmit_outcome c t = (t', Ok (To_Response rsp)) →
  len (rsp_body rsp) ≤ 65536 ∧ is_byte (rsp_sw1 rsp) ∧ is_byte (rsp_sw2 rsp).
(** Both ends in step, and the card behind. *)
Definition channel_to (inv : T → Prop) (s : SmTransport (SmPeer T)) : Prop := sm_in_sync s ∧ inv (peer_card (sm_inner s)).

Lemma channel_read (s : SmTransport (SmPeer T)) p1 p2 le c' r : sm_in_sync s → well_formed_answers →
  transmit_outcome (marked_read p1 p2 le) (peer_card (sm_inner s)) = (c', Ok (To_Response r)) →
  ∃ s', transmit [0x00; 0xB0; p1; p2; le] s = (s', Ok r) ∧ sm_in_sync s' ∧ peer_card (sm_inner s') = c'.
Proof.
  intros Hsync Hwf Hcard.
  destruct (sm_channel_step s (mkShortApdu 0x00 0xB0 p1 p2 [] (Some le)) Hsync) as (s' & Hs & Hc & Hs' & _); [unfold sm_fits; by vm_compute|done|].
  change (CommandApdu_new (short_apdu_bytes (protected_command (mkShortApdu 0 176 p1 p2 [] (Some le))))) with (marked_read p1 p2 le) in *.
  rewrite Hcard in Hs, Hc. exists s'. split; [|done]. unfold transmit, act_bind, act_map_err.
  change (CommandApdu_from [0x00; 0xB0; p1; p2; le]) with (CommandApdu_new (short_apdu_bytes (mkShortApdu 0 176 p1 p2 [] (Some le)))).
  by rewrite Hs.
Qed.
Lemma channel_serves inv file : well_formed_answers → card_serves inv file → serves_file (channel_to inv) file.
Proof.
  intros Hwf Hc s off want [Hsync Hi] Hoff Hwant. destruct (Hc _ off want Hi Hoff Hwant) as (c' & r & Htr & Hi' & Hr).
  destruct (channel_read s _ _ _ _ _ Hsync Hwf Htr) as (s' & Hs & Hsync' & Hc'). exists s', r. split; [|split; [by split; rewrite ?Hc'|done]].
  assert (Z.land (u16_hi off) 0x7F = u16_hi off) as Hhi.
  { unfold u16_hi. rewrite shiftr_8. change 0x7F with (Z.ones 7). rewrite Z.land_ones by lia.
    apply Z.mod_small. split; [apply Z.div_pos; lia|apply Z.div_lt_upper_bound; lia]. }
  cbn [ReadBinaryByOffset_into_apdu CommandApdu_allow_wrong_le_retry CommandApdu_new cmd_bytes ro_offset ro_le]. by rewrite Hhi.
Qed.
Lemma channel_opens inv sfi file s : well_formed_answers → sm_in_sync s → card_opens inv sfi file (peer_card (sm_inner s)) → opens (channel_to inv) sfi file s.
Proof.
  intros Hwf Hsync (c' & r & Htr & Hi & Hr). destruct (channel_read s _ _ _ _ _ Hsync Hwf Htr) as (s' & Hs & Hsync' & Hc').
  exists s', r. split; [exact Hs|]. split; [by split; rewrite ?Hc'|done].
Qed.

(** C33: A file is read whole through the channel. Against a card that holds the same keys
    and counter, whose application serves a file with one object of 4 to 32768 octets at
    its front, [read_file] returns exactly that object, and leaves both ends in step. *)
Theorem file_read_over_channel inv sfi (s : SmTransport (SmPeer T)) tag v enc pad :
  sm_in_sync s → well_formed_answers → card_opens inv sfi (enc ++ pad) (peer_card (sm_inner s)) → card_serves inv (enc ++ pad) →
  Z.land tag HIGH_TAG_NUMBER_MASK ≠ HIGH_TAG_NUMBER_MASK → tlv tag v = Ok (E:=BerError) enc → 4 ≤ len enc ≤ 2 ^ 15 →
  ∃ s', read_file sfi s = (s', Ok enc) ∧ sm_in_sync s' ∧ inv (peer_card (sm_inner s')).
Proof.
  intros Hsync Hwf Ho Hs Htag Henc Hlen.
  destruct (read_file_object (channel_to inv) sfi s tag v enc pad) as (s' & Hr & Hi);
    [by apply channel_serves|by apply channel_opens|done..|]. by exists s'.
Qed.
End over_channel.

(** ** A card with one file *)

(** It answers a read under a short identifier and, masked to 15 bits, at an offset. *)
#[local] Instance iso_card : CardTransport FileCard string := λ c t,
  match cmd_bytes c with
  | [_; 0xB0; p1; p2; le] =>
      let off := if Z.testbit p1 7 then p2 else u16_from_be p1 p2 in
      (t, Ok (reply (take (Z.to_nat (Z.min le 256)) (drop (Z.to_nat off) (fc_file t))) 0x9000))
  | _ => (t, Ok (reply [] 0x6D00))
  end.
Lemma iso_card_serves f : card_serves (λ c, c = mkFileCard f) f.
Proof.
  intros c off want -> Hoff Hwant. assert (0 ≤ u16_hi off < 128) as Hhi.
  { unfold u16_hi. rewrite shiftr_8. split; [apply Z.div_pos; lia|apply Z.div_lt_upper_bound; lia]. }
  unfold MAX_CHUNK in *. exists (mkFileCard f), (mkResponseApdu (take (Z.to_nat want) (drop (Z.to_nat off) f)) 0x90 0x00).
  split; [|split; [done|split; [done|by left]]].
  unfold transmit_outcome, iso_card, marked_read. cbn [cmd_bytes CommandApdu_new fc_file]. rewrite testbit7_small, u16_hi_lo, Z.min_l by lia. done.
Qed.
Lemma iso_card_wf : well_formed_answers (T:=FileCard).
Proof.
  intros c t t' rsp. unfold transmit_outcome, iso_card. destruct (cmd_bytes c) as [|a [|b [|p1 [|p2 [|le [|x l]]]]]];
    try (intros [= _ <-]; by vm_compute); repeat case_match; intros [= _ <-]; cbn [rsp_body rsp_sw1 rsp_sw2];
    (split; [unfold len; rewrite ?length_take; simpl; lia|by vm_compute]).
Qed.
#[local] Existing Instance toy_crypto.
#[local] Existing Instance toy_crypto_laws.

(** A file with an object of 300 octets and padding, read over the channel. *)
Definition sample_object : bytes := 0x61 :: 0x82 :: 1 :: 40 :: replicate 296 7.
Lemma file_read_over_channel_witness :
  ∃ s', read_file SFI_EF_DG1 (toy_terminal (mkFileCard (sample_object ++ [0; 0; 0]))) = (s', Ok sample_object) ∧ sm_in_sync s'.
Proof.
  destruct (file_read_over_channel (λ c, c = mkFileCard (sample_object ++ [0; 0; 0])) SFI_EF_DG1 (toy_terminal (mkFileCard (sample_object ++ [0; 0; 0])))
    0x61 (replicate 296 7) sample_object [0; 0; 0]) as (s' & Hr & Hs & _).
  - done.
  - apply iso_card_wf.
  - exists (mkFileCard (sample_object ++ [0; 0; 0])), (mkResponseApdu (take 4 sample_object) 0x90 0x00). split; [by vm_compute|]. split; [done|]. split; [by vm_compute|by left].
  - apply iso_card_serves.
  - by vm_compute.
  - by vm_compute.
  - by vm_compute.
  - exists s'. split; [exact Hr|exact Hs].
Defined.

(** A file longer than an offset of 15 bits can address. The offset octets lose their top
    bit, and past 32 KiB the octets from the front of the file come again: the answer has
    the length of the object and is not the object. *)
Definition long_object : bytes :=
  0x75 :: 0x82 :: 0x84 :: 0x00 :: replicate (Z.to_nat 16000) 1 ++ replicate (Z.to_nat 17792) 2.
Example long_file_comes_round :
  match (read_file SFI_EF_DG2 (mkFileCard long_object)).2 with
  | Ok bs => len long_object = 0x8404 ∧ len bs = len long_object ∧
      take 4 (drop (Z.to_nat 32932) bs) = [1; 1; 1; 1] ∧ take 4 (drop (Z.to_nat 32932) long_object) = [2; 2; 2; 2]
  | _ => False
  end.
Proof. by vm_compute. Qed.
