(* ===== verification/ChipAuth.v ===== *)
(** Is the chip genuine: chip authentication, crates/refineid-lib-core/src/ca.rs, and
    active authentication, crates/refineid-lib-core/src/aa.rs. The card and the random
    number generator are the two halves of the state, as in Pace.v. *)

From S2P Require Import Prelude Decimal Oid CryptoCrates Ber Der StatusWord Transport Apdu Rsa X509 SecureMessaging Curve Pace PacePeer Display DataGroups Emrtd.

(** ** Chip authentication *)

Definition CA_MSE_SET_AT_P1 : Z := 0x41.

Inductive CaOutcome :=
| Ca_GaRejected (sw : Z)
| Ca_MseRejected (sw : Z)
| Ca_NoSupportedProtocol
| Ca_UnsupportedCurve
| Ca_VerificationFailed (detail : bytes)
| Ca_Verified (protocol_label : string).

Inductive CaError (TE RE : Type) :=
| CaE_MseBodyTooLong (got : Z)
| CaE_Random (e : RE)
| CaE_Transport (e : TransportDispatchError (SmError TE)).
Arguments CaE_MseBodyTooLong {TE RE} got.
Arguments CaE_Random {TE RE} e.
Arguments CaE_Transport {TE RE} e.

#[export] Instance CaError_Display `{Display TE} `{Display RE} : Display (CaError TE RE) := λ e,
  match e with
  | CaE_Transport err => txt "CA transport: " ++ fmt err
  | CaE_Random err => txt "CA random: " ++ fmt err
  | CaE_MseBodyTooLong got => txt "CA MSE:Set AT body " ++ dec got ++ txt " bytes; > u8 Lc cap"
  end.

(** The one protocol that is run: its identifier and label. *)
Fixpoint pick_protocol (entries : list Dg14SecurityInfo) : option (bytes * string) :=
  match entries with
  | [] => None
  | Si_ChipAuthenticationInfo protocol_label oid _ :: entries =>
      if String.eqb protocol_label "id-CA-ECDH-AES-CBC-CMAC-256" then Some (oid, protocol_label) else pick_protocol entries
  | _ :: entries => pick_protocol entries
  end.

Section keys.
Context `{MontyForm} `{DerCrate} `{ConstOid}.
Definition decode_brainpool_p384_point (bs : bytes) : option AffinePoint :=
  if negb (len bs =? 97) || negb (bool_decide (head bs = Some 0x04)) then None
  else
    point ← decode_uncompressed bs;
    if negb (is_on_curve point) then None else Some point.
Fixpoint pick_public_key (entries : list Dg14SecurityInfo) : option AffinePoint :=
  match entries with
  | [] => None
  | Si_ChipAuthenticationPublicKeyInfo _ spki_der :: entries =>
      match SpkiDer_try_from spki_der with
      | Ok spki =>
          match decode_brainpool_p384_point (SpkiDer_bits spki) with
          | Some point => Some point
          | None => pick_public_key entries
          end
      | _ => pick_public_key entries
      end
  | _ :: entries => pick_public_key entries
  end.
End keys.

(** Rejection sampling, so many draws at most. *)
Fixpoint random_scalar_in_range_n `{OsRng R} (fuel : nat) : act R (rng_failure R) Z :=
  match fuel with
  | O => act_lift Panic
  | S fuel =>
      do! buf := rng_fill 48 in
      let cand := U384_from_be_slice buf in
      if negb (cand =? 0) && (cand <? N_HEX) then act_ret cand else random_scalar_in_range_n fuel
  end.

Section chip.
Context `{MontyForm} `{AesCrypto} `{Sha256Hash} `{DerCrate} `{ConstOid} {T TE} `{CardTransport T TE} `{OsRng R} `{Display TE}.
Abbreviation CE := (CaError TE (rng_failure R)).
Abbreviation chip A := (act (SmTransport T * R) CE A).

Definition ca_transmit (apdu : bytes) : chip ResponseApdu := on_card (act_map_err CaE_Transport (transmit apdu)).

(** The keys of a shared point: the hash of its first coordinate. *)
Definition ca_keys (k_bytes : bytes) : option (bytes * bytes) :=
  k_x ← zslice 1 49 k_bytes;
  Some (kdf_aes256 k_x Kdf_Encryption, kdf_aes256 k_x Kdf_Mac).
Definition ca_mse_apdu (proto_oid : bytes) : result CE bytes :=
  let? mse_data := tlv 0x80 proto_oid in
  if len mse_data >? u8_max then Err (CaE_MseBodyTooLong (len mse_data))
  else Ok ([MSE_AT_CLA; MSE_AT_INS; CA_MSE_SET_AT_P1; MSE_AT_P2] ++ [len mse_data] ++ mse_data).
Definition ca_ga_apdu (q_pcd_bytes : bytes) : result CE CommandApdu :=
  let? inner_80 := tlv 0x80 q_pcd_bytes in
  let? ga_data := tlv 0x7C inner_80 in
  GeneralAuthenticate_into_apdu (mkGeneralAuthenticate false ga_data).
Definition ca_probe : CommandApdu := ReadBinaryBySfi_into_apdu (mkReadBinaryBySfi SFI_EF_DG1 0 4).
(** The last step, under the new keys. *)
Definition ca_probe_outcome (proto_label : string) (r : result (TransportDispatchError (SmError TE)) ResponseApdu) : CaOutcome :=
  match r with
  | Ok probe_resp => if ResponseApdu_is_ok probe_resp then Ca_Verified proto_label
                     else Ca_VerificationFailed (txt "probe SW=" ++ hex_padded upper_hex 6 (ResponseApdu_sw probe_resp))
  | Err err => Ca_VerificationFailed (fmt err)
  | Panic => Ca_VerificationFailed []
  end.

Definition run_chip_authentication (fuel : nat) (dg14_entries : list Dg14SecurityInfo) : chip CaOutcome :=
  match pick_protocol dg14_entries with
  | None => act_ret Ca_NoSupportedProtocol
  | Some (proto_oid, proto_label) =>
      match pick_public_key dg14_entries with
      | None => act_ret Ca_NoSupportedProtocol
      | Some q_picc =>
          do! mse_apdu := act_lift (ca_mse_apdu proto_oid) in
          do! mse_resp := ca_transmit mse_apdu in
          if negb (ResponseApdu_is_ok mse_resp) then act_ret (Ca_MseRejected (ResponseApdu_sw mse_resp))
          else
            do! d_pcd := on_rng (act_map_err CaE_Random (random_scalar_in_range_n fuel)) in
            match encode_uncompressed (scalar_mul AffinePoint_generator d_pcd) with
            | None => act_ret Ca_UnsupportedCurve
            | Some q_pcd_bytes =>
                do! ga_apdu := act_lift (ca_ga_apdu q_pcd_bytes) in
                do! ga_resp := ca_transmit (CommandApdu_as_bytes ga_apdu) in
                if negb (ResponseApdu_is_ok ga_resp) then act_ret (Ca_GaRejected (ResponseApdu_sw ga_resp))
                else
                  match encode_uncompressed (scalar_mul q_picc d_pcd) with
                  | None => act_ret Ca_UnsupportedCurve
                  | Some k_bytes =>
                      match ca_keys k_bytes with
                      | None => act_ret Ca_UnsupportedCurve
                      | Some (new_k_enc, new_k_mac) =>
                          do! _ := (λ s, ((SmTransport_rekey new_k_enc new_k_mac s.1, s.2), Ok tt)) in
                          do! probe := act_attempt (on_card (transmit (CommandApdu_as_bytes ca_probe))) in
                          act_ret (ca_probe_outcome proto_label probe)
                      end
                  end
            end
      end
  end.
End chip.

(** ** Active authentication *)

Inductive AaOutcome :=
| Aa_Verified (hash : HashAlg) (m1_len : Z)
| Aa_CardRejected (sw : Z)
| Aa_SignatureInvalid (detail : bytes).
Inductive AaError (TE RE : Type) := AaE_Transport (e : TransportDispatchError TE) | AaE_UnsupportedKey | AaE_Random (e : RE).
Arguments AaE_Transport {TE RE} e.
Arguments AaE_UnsupportedKey {TE RE}.
Arguments AaE_Random {TE RE} e.
#[export] Instance AaError_Display `{Display TE} `{Display RE} : Display (AaError TE RE) := λ e,
  match e with
  | AaE_Transport e => txt "AA transport: " ++ fmt e
  | AaE_UnsupportedKey => txt "AA pubkey isn't RSA (only RSA AA keys currently supported)"
  | AaE_Random e => txt "AA random: " ++ fmt e
  end.
Definition AaOutcome_from (e : RsaVerifyError) : AaOutcome := Aa_SignatureInvalid (fmt e).

Section active.
Context {T TE} `{CardTransport T TE} `{OsRng R} `{BoxedMonty} `{Sha1Hash} `{Sha256Hash} `{Sha2Hashes}.
Definition run_active_authentication (dg15_pubkey : RsaPublicKey) : act (T * R) (AaError TE (rng_failure R)) AaOutcome :=
  do! rnd_ifd := on_rng (act_map_err AaE_Random (rng_fill 8)) in
  do! response := on_card (act_map_err AaE_Transport (transmit (CommandApdu_as_bytes (InternalAuthenticate_into_apdu (mkInternalAuthenticate rnd_ifd))))) in
  if negb (ResponseApdu_is_ok response) then act_ret (Aa_CardRejected (ResponseApdu_sw response))
  else
    match verify_iso9796_2_ds1 dg15_pubkey rnd_ifd (rsp_body response) with
    | Ok recovered => act_ret (Aa_Verified (rec_hash recovered) (len (rec_m1 recovered)))
    | Err e => act_ret (Aa_SignatureInvalid (fmt e))
    | Panic => act_lift Panic
    end.
End active.

(** ** Specification: what a verified chip has answered *)

Definition CA_LABEL : string := "id-CA-ECDH-AES-CBC-CMAC-256".
(** [MSE:Set AT] for key agreement with a protocol. *)
Definition mse_set_ka (oid : bytes) : bytes := [0x00; 0x22; 0x41; 0xA4; 2 + len oid; 0x80; len oid] ++ oid.
Definition probe_bytes : bytes := [0x00; 0xB0; 0x81; 0x00; 0x04].

Section spec.
Context `{MontyForm} `{AesCrypto} `{Sha256Hash} `{DerCrate} `{ConstOid} {T TE} `{CardTransport T TE} `{OsRng R} `{Display TE}.

(** Three accepted commands: the protocol, our point, and a read under the keys of the
    point shared with the key of the card. *)
Definition ca_transcript (fuel : nat) (label : string) (entries : list Dg14SecurityInfo) (s s' : SmTransport T * R) : Prop :=
  ∃ oid q x pcd kx ky s1 s2 r1 r2 r3,
    label = CA_LABEL ∧ pick_protocol entries = Some (oid, CA_LABEL) ∧ pick_public_key entries = Some q ∧ is_on_curve q = true ∧
    transmit (mse_set_ka oid) s.1 = (s1, Ok r1) ∧ ResponseApdu_is_ok r1 = true ∧
    random_scalar_in_range_n fuel s.2 = (s'.2, Ok x) ∧ 0 < x < N_HEX ∧
    encode_uncompressed (scalar_mul AffinePoint_generator x) = Some pcd ∧
    transmit (general_authenticate false (dynamic_object 0x80 pcd)) s1 = (s2, Ok r2) ∧ ResponseApdu_is_ok r2 = true ∧
    coords (scalar_mul q x) = Some (kx, ky) ∧
    transmit probe_bytes (SmTransport_rekey (kdf_aes256 (U384_to_be_bytes kx) Kdf_Encryption) (kdf_aes256 (U384_to_be_bytes kx) Kdf_Mac) s2) = (s'.1, Ok r3) ∧
    ResponseApdu_is_ok r3 = true.
End spec.

(** ** Lemmas *)

Section chip_lemmas.
Context `{MontyForm} `{AesCrypto} `{Sha256Hash} `{DerCrate} `{ConstOid} {T TE} `{CardTransport T TE} `{OsRng R} `{Display TE}.
Abbreviation CE := (CaError TE (rng_failure R)).

Lemma pick_protocol_label entries oid label : pick_protocol entries = Some (oid, label) → label = CA_LABEL.
Proof.
  induction entries as [|[l o v|o k|o|o|o] entries IH]; cbn [pick_protocol]; try done. destruct (String.eqb_spec l "id-CA-ECDH-AES-CBC-CMAC-256") as [->|]; [|done].
  by intros [= _ <-].
Qed.
Lemma pick_public_key_on_curve entries q : pick_public_key entries = Some q → is_on_curve q = true.
Proof.
  induction entries as [|[l o v|o k|o|o|o] entries IH]; cbn [pick_public_key]; try done. destruct (SpkiDer_try_from k) as [spki|e|]; [|done..].
  destruct (decode_brainpool_p384_point _) as [p|] eqn:Hd; [|done]. intros [= <-]. unfold decode_brainpool_p384_point in Hd. destruct (_ || _); [done|].
  apply bind_Some in Hd as (p' & _ & Hd). by destruct (is_on_curve p') eqn:Hp; [injection Hd as <-|].
Qed.
Lemma ca_keys_point p k kx ky : coords p = Some (kx, ky) → encode_uncompressed p = Some k →
  ca_keys k = Some (kdf_aes256 (U384_to_be_bytes kx) Kdf_Encryption, kdf_aes256 (U384_to_be_bytes kx) Kdf_Mac).
Proof.
  intros Hc. unfold encode_uncompressed. rewrite Hc. cbn [mbind option_bind]. intros <-%Some_inj. unfold ca_keys.
  rewrite (zslice_app_exact 1 49 [SEC1_UNCOMPRESSED_TAG] (U384_to_be_bytes kx) (U384_to_be_bytes ky)); [done|done|].
  unfold U384_to_be_bytes. by rewrite length_to_be.
Qed.
Lemma encode_coords p : (∃ b, encode_uncompressed p = Some b) ↔ ∃ x y, coords p = Some (x, y).
Proof. unfold encode_uncompressed. destruct (coords p) as [[x y]|]; cbn; naive_solver. Qed.
Lemma ca_mse_wire oid : len oid ≤ 125 → ca_mse_apdu (TE:=TE) (R:=R) oid = Ok (mse_set_ka oid).
Proof.
  intros Hl. unfold ca_mse_apdu. rewrite tlv_short by lia. cbn [result_bind]. rewrite !len_cons. destruct (Z.gtb_spec (1 + (1 + len oid)) u8_max); [unfold u8_max in *; lia|].
  unfold mse_set_ka. cbn [app]. by replace (1 + (1 + len oid)) with (2 + len oid) by lia.
Qed.
Lemma ca_ga_wire pcd : len pcd = 97 → ∃ c, ca_ga_apdu (TE:=TE) (R:=R) pcd = Ok c ∧ CommandApdu_as_bytes c = general_authenticate false (dynamic_object 0x80 pcd).
Proof.
  intros Hl. assert (ca_ga_apdu pcd = (let? ga_data := (let? inner := tlv 0x80 pcd in tlv TAG_DYNAMIC_AUTH inner) in @GeneralAuthenticate_into_apdu CE (mkGeneralAuthenticate false ga_data))) as ->.
  { unfold ca_ga_apdu. by destruct (tlv 0x80 pcd). }
  rewrite dynamic_object_tlv by lia. cbn [result_bind]. pose proof (general_authenticate_wire (F:=CE) false (dynamic_object 128 pcd)) as Hw.
  rewrite dynamic_object_len in Hw. specialize (Hw ltac:(lia)). unfold wrap_general_authenticate in Hw. apply result_bind_inv_ok in Hw as (c & Hc & [= Hb]).
  exists c. by rewrite Hc.
Qed.
Lemma ca_transmit_Ok c (s s' : SmTransport T * R) r : ca_transmit c s = (s', Ok r) ↔ transmit c s.1 = (s'.1, Ok r) ∧ s'.2 = s.2.
Proof.
  unfold ca_transmit, on_card, act_map_err. destruct (transmit c s.1) as [t [r'|e|]]; destruct s, s'; cbn; naive_solver.
Qed.
Lemma random_in_range `{!OsRngLaws R} fuel (g g' : R) x : random_scalar_in_range_n fuel g = (g', Ok x) → 0 < x < N_HEX.
Proof.
  revert g. induction fuel as [|fuel IH]; intros g; [done|]. cbn [random_scalar_in_range_n]. intros (g1 & bs & Hfill & Hrest)%act_bind_inv_ok.
  apply rng_fill_ok in Hfill as [_ Hbs]. pose proof (be_fold_nonneg bs Hbs) as [Hpos _]. fold (U384_from_be_slice bs) in Hpos.
  destruct (Z.eqb_spec (U384_from_be_slice bs) 0), (Z.ltb_spec (U384_from_be_slice bs) N_HEX); cbn in Hrest; try by eapply IH. injection Hrest as <- <-. lia.
Qed.
End chip_lemmas.

Section chip_theorems.
Context `{MontyForm} `{AesCrypto} `{Sha256Hash} `{DerCrate} `{ConstOid} {T TE} `{CardTransport T TE} `{OsRng R} `{!OsRngLaws R} `{Display TE}.
Abbreviation CE := (CaError TE (rng_failure R)).

Lemma ca_random_Ok fuel (s s' : SmTransport T * R) x :
  on_rng (act_map_err (CaE_Random (TE:=TE)) (random_scalar_in_range_n fuel)) s = (s', Ok x) ↔ random_scalar_in_range_n fuel s.2 = (s'.2, Ok x) ∧ s'.1 = s.1.
Proof.
  unfold on_rng, act_map_err. destruct (random_scalar_in_range_n fuel s.2) as [g [y|e|]]; destruct s, s'; cbn; naive_solver.
Qed.
Lemma ca_attempt_Ok c (s s' : SmTransport T * R) r :
  act_attempt (F:=CE) (on_card (transmit c)) s = (s', Ok (Ok r)) ↔ transmit c s.1 = (s'.1, Ok r) ∧ s'.2 = s.2.
Proof. unfold act_attempt, on_card. destruct (transmit c s.1) as [t [y|e|]]; destruct s, s'; cbn; naive_solver. Qed.

Lemma ca_verified_transcript fuel entries label (s s' : SmTransport T * R) : (∀ oid l, pick_protocol entries = Some (oid, l) → len oid ≤ 125) →
  run_chip_authentication fuel entries s = (s', Ok (Ca_Verified label)) → ca_transcript fuel label entries s s'.
Proof.
  intros Hoid. unfold run_chip_authentication. destruct (pick_protocol entries) as [[oid l]|] eqn:Hp; [|done]. pose proof (pick_protocol_label _ _ _ Hp) as ->.
  destruct (pick_public_key entries) as [q|] eqn:Hq; [|done]. rewrite ca_mse_wire by eauto. rewrite act_lift_ok.
  intros (s1 & r1 & [Ht1 Hg1]%ca_transmit_Ok & Hr)%act_bind_inv_ok. destruct (ResponseApdu_is_ok r1) eqn:Hok1; [|done]. cbn [negb] in Hr.
  apply act_bind_inv_ok in Hr as (s2 & x & [Hx Hc2]%ca_random_Ok & Hr). destruct (encode_uncompressed (scalar_mul AffinePoint_generator x)) as [pcd|] eqn:Hpcd; [|done].
  destruct (ca_ga_wire (TE:=TE) (R:=R) pcd (encode_len _ _ Hpcd)) as (ga & Hga & Hgab). rewrite Hga, act_lift_ok, Hgab in Hr.
  apply act_bind_inv_ok in Hr as (s3 & r2 & [Ht2 Hg3]%ca_transmit_Ok & Hr). destruct (ResponseApdu_is_ok r2) eqn:Hok2; [|done]. cbn [negb] in Hr.
  destruct (encode_uncompressed (scalar_mul q x)) as [k|] eqn:Hk; [|done]. destruct (proj1 (encode_coords _) (ex_intro _ k Hk)) as (kx & ky & Hxy).
  rewrite (ca_keys_point _ _ _ _ Hxy Hk) in Hr. apply act_bind_inv_ok in Hr as (s4 & [] & [= <-] & Hr).
  apply act_bind_inv_ok in Hr as (s5 & pr & Hatt & Hr). injection Hr as <- Hout. destruct pr as [r3|e|]; cbn [ca_probe_outcome] in Hout; [|done..].
  destruct (ResponseApdu_is_ok r3) eqn:Hok3; [|done]. injection Hout as <-. apply ca_attempt_Ok in Hatt as [Ht3 Hg5]. cbn [fst snd] in *.
  rewrite Hc2 in Ht2. rewrite Hg1 in Hx. exists oid, q, x, pcd, kx, ky, s1.1, s3.1, r1, r2, r3.
  assert (s2.2 = s5.2) as Heq by congruence. rewrite Heq in Hx.
  repeat (split; [first [done|by eapply random_in_range|by eapply pick_public_key_on_curve]|]). done.
Qed.
Lemma ca_transcript_verified fuel entries label (s s' : SmTransport T * R) : (∀ oid l, pick_protocol entries = Some (oid, l) → len oid ≤ 125) →
  ca_transcript fuel label entries s s' → run_chip_authentication fuel entries s = (s', Ok (Ca_Verified label)).
Proof.
  intros Hoid (oid & q & x & pcd & kx & ky & s1 & s2 & r1 & r2 & r3 & -> & Hp & Hq & _ & Ht1 & Hok1 & Hx & _ & Hpcd & Ht2 & Hok2 & Hxy & Ht3 & Hok3).
  unfold run_chip_authentication. rewrite Hp, Hq. rewrite ca_mse_wire by eauto. rewrite act_lift_ok.
  rewrite (act_bind_ok _ _ s (s1, s.2) r1) by (by apply ca_transmit_Ok). rewrite Hok1. cbn [negb].
  rewrite (act_bind_ok _ _ _ (s1, s'.2) x) by (by apply ca_random_Ok). rewrite Hpcd.
  destruct (ca_ga_wire (TE:=TE) (R:=R) pcd (encode_len _ _ Hpcd)) as (ga & Hga & Hgab). rewrite Hga, act_lift_ok, Hgab.
  rewrite (act_bind_ok _ _ _ (s2, s'.2) r2) by (by apply ca_transmit_Ok). rewrite Hok2. cbn [negb].
  destruct (proj2 (encode_coords (scalar_mul q x)) (ex_intro _ kx (ex_intro _ ky Hxy))) as [k Hk]. rewrite Hk, (ca_keys_point _ _ _ _ Hxy Hk).
  rewrite (act_bind_ok _ _ _ (SmTransport_rekey (kdf_aes256 (U384_to_be_bytes kx) Kdf_Encryption) (kdf_aes256 (U384_to_be_bytes kx) Kdf_Mac) s2, s'.2) tt) by done.
  rewrite (act_bind_ok _ _ _ s' (Ok r3)) by (by apply ca_attempt_Ok). unfold act_ret, ca_probe_outcome. by rewrite Hok3.
Qed.

(** Where the answer of a transmission over the channel comes from: an answer without a
    body as the card gave it, or the objects of its body with their authentication. *)
Lemma channel_answer bs (s s' : SmTransport T) r : transmit bs s = (s', Ok r) →
  rsp_body r = [] ∨ ∃ raw body sw, SmTransport_unwrap (TE:=TE) raw (mkSmTransport (sm_inner s') (sm_k_enc s) (sm_k_mac s) (Ssc_increment (sm_ssc s))) = (s', Ok (body, sw)) ∧
    r = mkResponseApdu body (u16_hi sw) (u16_lo sw).
Proof.
  unfold transmit. intros (s1 & o & Ho & Hr)%act_bind_inv_ok. unfold act_map_err in Ho. destruct (transmit_outcome _ s) as [s2 [o'|e|]] eqn:Hout; [|done..].
  injection Ho as <- <-. destruct o' as [rsp| | | | |]; [|done..]. injection Hr as <- <-.
  unfold transmit_outcome, SmTransport_CardTransport in Hout. apply act_bind_inv_ok in Hout as (s3 & w & Hw & Hout).
  assert (s3 = SmTransport_increment_ssc s) as ->.
  { unfold SmTransport_wrap in Hw. change (CommandApdu_as_bytes (CommandApdu_from bs)) with bs in Hw. destruct bs as [|b0 [|b1 [|b2 [|b3 bs]]]]; [done..|].
    destruct (decode_short_apdu _) as [[data le]|]; [|done]. by injection Hw as <- _. }
  apply act_bind_inv_ok in Hout as (s4 & o & Hi & Hout). unfold act_map_err, sm_inner_transmit in Hi.
  destruct (transmit_outcome (CommandApdu_from w) (sm_inner (SmTransport_increment_ssc s))) as [t [o'|e|]] eqn:Hcard; [|done..]. injection Hi as <- <-.
  destruct o' as [raw| | | | |]; [|done..]. destruct (rsp_body raw) as [|b bs'] eqn:Hbody; [injection Hout as _ <-; by left|].
  right. apply act_bind_inv_ok in Hout as (s5 & [body sw] & Hun & [= <- <-]). exists (b :: bs'), body, sw. split; [|done].
  unfold SmTransport_unwrap in *. injection Hun as <- Hun. f_equal. exact Hun.
Qed.
End chip_theorems.

(** A chip is reported verified for exactly these answers: the card has the protocol
    with ECDH and AES-256 and a key on the curve, takes the protocol and our point, and
    answers a read with success under the keys of the point shared with that key, the
    counter at zero. *)
Theorem ca_verified_exact `{MontyForm} `{AesCrypto} `{Sha256Hash} `{DerCrate} `{ConstOid} {T TE} `{CardTransport T TE} `{OsRng R} `{!OsRngLaws R} `{Display TE}
  fuel entries label (s s' : SmTransport T * R) : (∀ oid l, pick_protocol entries = Some (oid, l) → len oid ≤ 125) →
  (run_chip_authentication fuel entries s = (s', Ok (Ca_Verified label)) ↔ ca_transcript fuel label entries s s').
Proof. intros Hoid. split; [by apply ca_verified_transcript|by apply ca_transcript_verified]. Qed.

(** The commands as short ones. *)
Lemma mse_short oid : mse_set_ka oid = short_apdu_bytes (mkShortApdu 0x00 0x22 0x41 0xA4 (0x80 :: len oid :: oid) None).
Proof.
  unfold mse_set_ka, short_apdu_bytes. cbn [sa_cla sa_ins sa_p1 sa_p2 sa_data sa_le app]. rewrite !len_cons, app_nil_r. by replace (1 + (1 + len oid)) with (2 + len oid) by lia.
Qed.
Lemma ga_short pcd : general_authenticate false (dynamic_object 0x80 pcd) = short_apdu_bytes (mkShortApdu 0x00 0x86 0x00 0x00 (dynamic_object 0x80 pcd) (Some 0x00)).
Proof. done. Qed.

(** C31: The answers need no key, though. An answer without a body comes through the channel
    as it is; so a card that says nothing but 9000, in clear, to each of the three
    commands is reported verified, whatever the key in its data group, and whoever
    holds the other half of it. *)
Theorem chip_authentication_forgeable `{MontyForm} `{AesCrypto} `{!AesCryptoLaws} `{Sha256Hash} `{DerCrate} `{ConstOid} {T TE} `{CardTransport T TE} `{OsRng R} `{!OsRngLaws R} `{Display TE}
  fuel entries oid label q x pcd k (t : SmTransport T) (g g' : R) :
  (∀ c, transmit_outcome c (sm_inner t) = (sm_inner t, Ok (To_Response (mkResponseApdu [] 0x90 0x00)))) →
  pick_protocol entries = Some (oid, label) → len oid ≤ 125 → pick_public_key entries = Some q →
  random_scalar_in_range_n fuel g = (g', Ok x) →
  encode_uncompressed (scalar_mul AffinePoint_generator x) = Some pcd → encode_uncompressed (scalar_mul q x) = Some k →
  ∃ t', run_chip_authentication fuel entries (t, g) = ((t', g'), Ok (Ca_Verified label)) ∧ sm_inner t' = sm_inner t.
Proof.
  intros Hcard Hp Hoid Hq Hx Hpcd Hk. pose proof (pick_protocol_label _ _ _ Hp) as ->.
  assert (∀ s a, sm_inner s = sm_inner t → sm_fits a → transmit (short_apdu_bytes a) s =
    (mkSmTransport (sm_inner t) (sm_k_enc s) (sm_k_mac s) (Ssc_increment (sm_ssc s)), Ok (mkResponseApdu [] 0x90 0x00))) as Hplain.
  { intros s a Hs Hfit. unfold transmit, act_bind, act_map_err. change (CommandApdu_from (short_apdu_bytes a)) with (CommandApdu_new (short_apdu_bytes a)).
    rewrite (sm_transmit_empty s a (sm_inner t) 0x90 0x00 Hfit); [done|]. intros c. by rewrite Hs. }
  destruct (proj1 (encode_coords _) (ex_intro _ k Hk)) as (kx & ky & Hxy). pose proof (encode_len _ _ Hpcd) as Hl.
  eexists (mkSmTransport (sm_inner t) _ _ _). split; [|done]. apply ca_transcript_verified; [intros oid' l' Hp'; rewrite Hp in Hp'; by injection Hp' as <- _|].
  exists oid, q, x, pcd, kx, ky. do 2 eexists. exists (mkResponseApdu [] 0x90 0x00), (mkResponseApdu [] 0x90 0x00), (mkResponseApdu [] 0x90 0x00). cbn [fst snd].
  split; [done|]. split; [done|]. split; [done|]. split; [by eapply pick_public_key_on_curve|].
  split; [rewrite mse_short; apply Hplain; [done|unfold sm_fits; cbn [sa_data sa_le]; rewrite !len_cons; lia]|]. split; [done|].
  split; [done|]. split; [by eapply random_in_range|]. split; [done|].
  split; [rewrite ga_short; apply Hplain; [done|unfold sm_fits; cbn [sa_data sa_le]; rewrite dynamic_object_len; lia]|]. split; [done|]. split; [done|].
  split; [apply (Hplain _ (mkShortApdu 0x00 0xB0 0x81 0x00 [] (Some 4))); [done|by vm_compute]|done].
Qed.

(** ** Active authentication *)

(** A chip is reported genuine for exactly a signature of its key over a fresh
    challenge: eight new random octets were sent, and the answer, raised to the key's
    exponent, is the block of a message, its hash with the challenge and the trailer of
    that hash. *)
Theorem active_authentication_exact {T TE} `{CardTransport T TE} `{OsRng R} `{!OsRngLaws R} `{BoxedMonty} `{!BoxedMontyLaws} `{Sha1Hash} `{Sha256Hash} `{Sha2Hashes} `{!HashSizes}
  key (s s' : T * R) h n : RsaPublicKey_wf key →
  (run_active_authentication key s = (s', Ok (Aa_Verified h n)) ↔
   ∃ rnd r m1, rng_fill 8 s.2 = (s'.2, Ok rnd) ∧ length rnd = 8%nat ∧
     transmit ([0x00; 0x88; 0x00; 0x00; 0x08] ++ rnd ++ [0x00]) s.1 = (s'.1, Ok r) ∧ ResponseApdu_is_ok r = true ∧
     in_range key (rsp_body r) ∧ recovered_block key (rsp_body r) = iso9796_block h m1 rnd ∧ len m1 = n).
Proof.
  intros Hwf. unfold run_active_authentication, on_rng, on_card, act_bind, act_map_err. destruct s as [t g], s' as [t' g']. cbn [fst snd].
  destruct (rng_fill 8 g) as [g1 [rnd|e|]] eqn:Hfill; cbn [map_err]; [|split; [done|naive_solver]..]. cbn [fst snd].
  pose proof (rng_fill_ok _ _ _ _ Hfill) as [Hlen _].
  change (CommandApdu_as_bytes (InternalAuthenticate_into_apdu (mkInternalAuthenticate rnd))) with ([0x00; 0x88; 0x00; 0x00; 0x08] ++ rnd ++ [0x00]).
  destruct (transmit ([0x00; 0x88; 0x00; 0x00; 0x08] ++ rnd ++ [0x00]) t) as [t1 [r|e|]] eqn:Ht; cbn [map_err];
    [|split; [done|]; intros (rnd' & r' & m1 & [= -> ->] & _ & Ht' & _); by rewrite Ht in Ht'..].
  assert (∀ m1, verify_iso9796_2_ds1 key rnd (rsp_body r) = Ok (mkRecovered m1 h) ↔ in_range key (rsp_body r) ∧ recovered_block key (rsp_body r) = iso9796_block h m1 rnd) as Hv.
  { intros m1. exact (proj1 (iso9796_spec key rnd (rsp_body r) m1 h Hwf)). }
  destruct (ResponseApdu_is_ok r) eqn:Hok; cbn [negb].
  2:{ split; [done|]. intros (rnd' & r' & m1 & [= -> ->] & _ & Ht' & Hok' & _). rewrite Ht in Ht'. injection Ht' as <- <-. congruence. }
  split.
  - intros Ho. exists rnd, r. destruct (verify_iso9796_2_ds1 key rnd (rsp_body r)) as [[m1 h']|e|]; [|done..]. injection Ho as <- <- <- <-.
    exists m1. cbn [rec_hash rec_m1] in *. destruct (proj1 (Hv m1) eq_refl). done.
  - intros (rnd' & r' & m1 & [= <- <-] & _ & Ht' & _ & Hr & Hb & Hn). rewrite Ht in Ht'. injection Ht' as <- <-. rewrite (proj2 (Hv m1) (conj Hr Hb)). cbn. by rewrite Hn.
Qed.

(** ** Witnesses *)

Module sample_chip.
Export residues ber_der dotted_texts monty flat.
#[export] Existing Instance pace_crypto.
#[export] Existing Instance pace_crypto_laws.
#[export] Existing Instance listed_rng.
#[export] Existing Instance listed_rng_laws.

(** A card that says 9000 and nothing else. *)
Inductive Silent := mkSilent.
#[export] Instance Silent_transport : CardTransport Silent string := λ _ t, (t, Ok (To_Response (mkResponseApdu [] 0x90 0x00))).

Definition point : bytes := default [] (encode_uncompressed AffinePoint_generator).
Definition oid : bytes := OID_PREFIX_CA ++ [2; 4].
Definition entries : list Dg14SecurityInfo :=
  [Si_Other []; Si_ChipAuthenticationInfo "id-CA-ECDH-AES-CBC-CMAC-256" oid (Some 1);
   Si_ChipAuthenticationPublicKeyInfo [] ([0x30; 0x69; 0x30; 3; 0x06; 1; 0x2A; 0x03; 0x62; 0x00] ++ point)].
Definition start : SmTransport Silent * list Z := (mkSmTransport mkSilent [1] [2] Ssc_INITIAL, [0; 3; 7]).
(** A card that answers every challenge with one signature (the hash of the laws' witness
    is the same for all messages). *)
Inductive Signer := mkSigner.
#[export] Instance Signer_transport : CardTransport Signer string := λ _ t, (t, Ok (To_Response (mkResponseApdu sample_key.recoverable_signature 0x90 0x00))).
End sample_chip.

Import sample_chip.
Definition is_verified (o : (SmTransport Silent * list Z) * result (CaError string string) CaOutcome) : bool :=
  match o.2 with Ok (Ca_Verified l) => String.eqb l CA_LABEL | _ => false end.
Lemma ca_verified_exact_witness :
  is_verified (run_chip_authentication 4 entries start) = true ∧ ∃ s', ca_transcript 4 CA_LABEL entries start s'.
Proof.
  assert (is_verified (run_chip_authentication 4 entries start) = true) as Hv by by vm_compute. split; [exact Hv|].
  assert (∀ o, run_chip_authentication 4 entries start = o → is_verified o = true → ∃ s', run_chip_authentication 4 entries start = (s', Ok (Ca_Verified CA_LABEL))) as Hall.
  { intros [s' [[sw|sw| | |d|l]|e|]] Ho Hl; cbn in Hl; try discriminate Hl. destruct (String.eqb_spec l CA_LABEL) as [->|]; [|discriminate Hl]. exists s'; exact Ho. }
  destruct (Hall _ eq_refl Hv) as [s' Hs]. exists s'. refine (proj1 (ca_verified_exact 4 entries CA_LABEL start s' _) Hs).
  intros o l Ho. assert (pick_protocol entries = Some (oid, CA_LABEL)) as Hp by by vm_compute. rewrite Hp in Ho. injection Ho as <- _. by vm_compute.
Defined.
Lemma chip_authentication_forgeable_witness :
  ∃ t', run_chip_authentication 4 entries start = ((t', [7]), Ok (Ca_Verified CA_LABEL)).
Proof.
  assert (∀ p, is_Some (encode_uncompressed p) → ∃ b, encode_uncompressed p = Some b) as Hs by (intros p [b Hb]; by exists b).
  destruct (Hs (scalar_mul AffinePoint_generator 3)) as [pcd Hpcd]; [by_decide|].
  destruct (pick_public_key entries) as [q|] eqn:Hq; [|exfalso; revert Hq; assert (is_Some (pick_public_key entries)) as [q ->] by by_decide; discriminate].
  assert (is_Some (q ← pick_public_key entries; encode_uncompressed (scalar_mul q 3))) as [k Hk] by by_decide. rewrite Hq in Hk. cbn [mbind option_bind] in Hk.
  destruct (chip_authentication_forgeable 4 entries oid CA_LABEL q 3 pcd k (start.1) [0; 3; 7] [7]) as (t' & Ht & _);
    [done|by vm_compute|by vm_compute|exact Hq|by vm_compute|exact Hpcd|exact Hk|].
  exists t'. exact Ht.
Defined.

Lemma active_authentication_exact_witness :
  run_active_authentication sample_key.key (mkSigner, [5]) = ((mkSigner, []), Ok (Aa_Verified Hash_Sha1 42)) ∧
  in_range sample_key.key sample_key.recoverable_signature.
Proof.
  assert (run_active_authentication sample_key.key (mkSigner, [5]) = ((mkSigner, []), Ok (Aa_Verified Hash_Sha1 42))) as Hv by by vm_compute.
  split; [exact Hv|].
  destruct (proj1 (active_authentication_exact sample_key.key (mkSigner, [5]) (mkSigner, []) Hash_Sha1 42 sample_key.key_wf) Hv) as (rnd & r & m1 & _ & _ & Ht & _ & Hr & _).
  injection Ht as Ht. rewrite <- Ht in Hr. exact Hr.
Defined.
