(* ===== verification/EmrtdRead.v ===== *)
(** Reading an identity card's personal data, [read_personal_data] of
    crates/refineid-lib-core/src/emrtd.rs: PACE with the CAN, the application selected
    over the channel, its files read and parsed, and the two checks of the chip. *)

From S2P Require Import Prelude Oid Utf8 CryptoCrates Ber Der Str StatusWord Transport Apdu Pin Rsa X509 Cms Identity SecureMessaging Curve Pace PacePeer Display Mrz DataGroups Emrtd ChipAuth.

Record EmrtdPersonalData := mkEmrtdPersonalData {
  mrz : ParsedMrz;
  face : option DocumentImage;
  additional_personal : option AdditionalPersonalData;
  additional_document : option AdditionalDocumentData;
  signature_image : option DocumentImage;
  dg1_der : bytes;
  dg2_der : bytes;
  dg7_der : option bytes;
  sod_der : option bytes;
  dg14_der : option bytes;
  dg15_der : option bytes;
  aa_result : option AaOutcome;
  ca_result : option CaOutcome;
}.

(** The group numbers of the security object. *)
Record DgInventory := mkDgInventory { numbers : list Z }.
Definition DgInventory_has (i : DgInventory) (number : Z) : bool := bool_decide (number ∈ numbers i).
Record OptionalDgs := mkOptionalDgs { dg7 : option bytes; dg11 : option bytes; dg12 : option bytes; dg14 : option bytes; dg15 : option bytes }.

(** The arm for a wrong CAN, and the texts in which a card reset is looked for. *)
Definition emrtd_pace_error {TE RE} `{Display (TransportDispatchError TE)} `{Display RE} (e : PaceError (TransportDispatchError TE) RE) : EmrtdError TE :=
  let other := let s := fmt e in
               if str_contains (txt "card reset") s || str_contains (txt "CardReset") s then Em_CardReset else Em_Pace s in
  match e with
  | Pace_Sw _ sw => if sw =? 0x6300 then Em_BadCan else other
  | Pace_AuthMismatch => Em_BadCan
  | _ => other
  end.

Section reading.
Context `{MontyForm} `{AesCrypto} `{Sha1Hash} `{Sha256Hash} `{Sha2Hashes} `{BoxedMonty} `{DerCrate} `{ConstOid} {T TE} `{CardTransport T TE} `{OsRng R} `{Display TE} `{Display (rng_failure R)}.
Abbreviation EE := (EmrtdError TE).
Abbreviation sm_act A := (act (SmTransport T * R) EE A).

Definition sod_inventory (sod : option bytes) : DgInventory :=
  mkDgInventory (default []
    (s ← sod;
     sd ← result_ok (SignedData_parse s);
     lds ← result_ok (LdsSecurityObject_parse (econtent_der sd));
     Some (map fst (data_group_hashes lds)))).

Definition read_sm_file (sfi : Sfi) : sm_act bytes := on_card (act_map_err map_sm_emrtd_error (read_file sfi)).
Definition read_optional_dg (sfi : Sfi) : sm_act (option bytes) := λ s,
  match read_sm_file sfi s with
  | (s', Ok bs) => (s', Ok (Some bs))
  | (s', Err (Em_Sw _ _)) => (s', Ok None)
  | (s', Err other) => (s', Err other)
  | (s', Panic) => (s', Panic)
  end.
Definition read_listed_dg (inventory : DgInventory) (number : Z) (sfi : Sfi) : sm_act (option bytes) :=
  if DgInventory_has inventory number then read_optional_dg sfi else act_ret None.
Definition read_optional_dgs (inventory : DgInventory) : sm_act OptionalDgs :=
  do! dg7 := read_listed_dg inventory 7 SFI_EF_DG7 in
  do! dg11 := read_listed_dg inventory 11 SFI_EF_DG11 in
  do! dg12 := read_listed_dg inventory 12 SFI_EF_DG12 in
  do! dg14 := read_listed_dg inventory 14 SFI_EF_DG14 in
  do! dg15 := read_listed_dg inventory 15 SFI_EF_DG15 in
  act_ret (mkOptionalDgs dg7 dg11 dg12 dg14 dg15).

(** [.ok()] of a call that may have changed the card: its error is dropped. *)
Definition act_result_ok {S E F A} (m : act S E A) : act S F (option A) :=
  do! r := act_attempt m in act_ret (result_ok r).
(** The [and_then] closures around the two checks. *)
Definition chip_authentication_of (fuel : nat) (dg14_der : option bytes) : sm_act (option CaOutcome) :=
  match (der ← dg14_der; result_ok (Dg14Bytes_try_from der)) with
  | None => act_ret None
  | Some dg14 => act_result_ok (run_chip_authentication fuel (parse_dg14 dg14))
  end.
Definition active_authentication_of (dg15_der : option bytes) : sm_act (option AaOutcome) :=
  match (der ← dg15_der; dg15 ← result_ok (Dg15Bytes_try_from der); extract_rsa_public_key (parse_dg15_spki dg15)) with
  | None => act_ret None
  | Some pubkey => act_result_ok (run_active_authentication pubkey)
  end.
(** [as_deref().and_then(parse.ok()).map(read)]; the loops of [read] have fuel. *)
Definition details_of {A} (parse : bytes → result BerError BerTlvAny) (read : BerTlvAny → result EE A) (der : option bytes) : result EE (option A) :=
  match (bs ← der; result_ok (parse bs)) with
  | None => Ok None
  | Some dg => result_map Some (read dg)
  end.

(** What is done over the channel. *)
Definition read_over_channel (fuel : nat) : sm_act EmrtdPersonalData :=
  do! sw := on_card (act_map_err map_sm_emrtd_error select_application) in
  if negb (StatusWord_is_success sw) then act_err (Em_Sw "SELECT eMRTD applet" (StatusWord_as_u16 sw))
  else
    do! dg1 := read_sm_file SFI_EF_DG1 in
    do! dg1_typed := act_lift (map_err Em_Ber (Dg1Bytes_parse dg1)) in
    do! mrz_str := act_lift (ok_or (extract_mrz_string dg1_typed) (Em_ParseFailure "DG1 MRZ")) in
    do! mrz := act_lift (map_err (λ err, Em_ParseFailureDetail "MRZ TD1" (fmt err)) (parse_td1 mrz_str)) in
    do! dg2 := read_sm_file SFI_EF_DG2 in
    do! sod_der := read_optional_dg SFI_EF_SOD in
    do! optional := read_optional_dgs (sod_inventory sod_der) in
    do! additional_personal := act_lift (details_of Dg11Bytes_parse parse_dg11 (dg11 optional)) in
    do! additional_document := act_lift (details_of Dg12Bytes_parse parse_dg12 (dg12 optional)) in
    do! ca_result := chip_authentication_of fuel (dg14 optional) in
    do! aa_result := active_authentication_of (dg15 optional) in
    act_ret (mkEmrtdPersonalData mrz (result_ok (DocumentImage_parse dg2)) additional_personal additional_document
               (bs ← dg7 optional; result_ok (DocumentImage_parse bs)) dg1 dg2 (dg7 optional) sod_der (dg14 optional) (dg15 optional) aa_result ca_result).

(** The transport is moved into the channel; what is left of it at the end is the card. *)
Definition read_personal_data (fuel : nat) (can : Can) : act (T * R) EE EmrtdPersonalData := λ s,
  match run_pace_with_can fuel can s with
  | (s', Ok pace_session) =>
      let '((sm, g), r) := read_over_channel fuel (SmTransport_new s'.1 pace_session, s'.2) in ((sm_inner sm, g), r)
  | (s', Err e) => (s', Err (emrtd_pace_error e))
  | (s', Panic) => (s', Panic)
  end.
End reading.

(** ** What a file says *)

(** The first place where some octets stand, and that they stand nowhere. *)
Definition first_at (needle buf : bytes) (i : nat) : Prop :=
  (∃ r, drop i buf = needle ++ r) ∧ ∀ j r, drop j buf = needle ++ r → (i ≤ j)%nat.
Definition nowhere (needle buf : bytes) : Prop := ∀ j r, drop j buf ≠ needle ++ r.
(** An image runs from the first mark of JPEG, or else of JPEG 2000, to the end. *)
Inductive image_in (buf : bytes) : option DocumentImage → Prop :=
| image_jpeg i : first_at [0xFF; 0xD8; 0xFF] buf i → image_in buf (Some (Jpeg (drop i buf)))
| image_jpeg2000 i : nowhere [0xFF; 0xD8; 0xFF] buf → first_at [0x00; 0x00; 0x00; 0x0C; 0x6A; 0x50; 0x20; 0x20] buf i →
    image_in buf (Some (Jpeg2000 (drop i buf)))
| image_none : nowhere [0xFF; 0xD8; 0xFF] buf → nowhere [0x00; 0x00; 0x00; 0x0C; 0x6A; 0x50; 0x20; 0x20] buf → image_in buf None.

(** The first object with a tag among those of a value. *)
Inductive first_object (tag : Z) : bytes → bytes → Prop :=
| first_here bs v rest : ber_child tag bs v rest → first_object tag bs v
| first_later t bs v' rest v : ber_child t bs v' rest → t ≠ tag → first_object tag rest v → first_object tag bs v.
(** EF.DG1: the zone is the text of 5F1F in 61. *)
Definition zone_in (dg1 text : bytes) : Prop := ∃ body rest, ber_child 0x61 dg1 body rest ∧ first_object 0x5F1F body text ∧ utf8_valid text.

Lemma scan_nowhere buf needle : needle ≠ [] → scan_for_magic buf needle = None → nowhere needle buf.
Proof.
  intros Hne Hs j r Hj. assert (∃ i, first_at needle buf i) as [i Hi]; [|apply scan_for_magic_exact in Hi; [congruence|done]].
  revert r Hj. induction j as [j IH] using lt_wf_ind. intros r Hj.
  assert (Decision (∃ k, (k < j)%nat ∧ take (length needle) (drop k buf) = needle)) as [(k & Hk & Ht)|Hno].
  { destruct (decide (Exists (λ k, take (length needle) (drop k buf) = needle) (seq 0 j))) as [He|He].
    - left. apply Exists_exists in He as (k & Hk%in_seq & Ht). exists k. split; [lia|done].
    - right. intros (k & Hk & Ht). apply He, Exists_exists. exists k. split; [apply in_seq; lia|done]. }
  - apply (IH k Hk (drop (length needle) (drop k buf))). rewrite <- Ht at 1. by rewrite take_drop.
  - exists j. split; [by exists r|]. intros k r' Hr'. destruct (decide (j ≤ k)%nat) as [|Hlt]; [done|]. destruct Hno. exists k. split; [lia|].
    by rewrite Hr', take_app_length.
Qed.
Lemma DocumentImage_in buf : image_in buf (result_ok (DocumentImage_parse buf)).
Proof.
  assert (∀ i, zslice (Z.of_nat i) (len buf) buf = Some (drop i buf) ∨ (length buf < i)%nat) as Hslice.
  { intros i. destruct (decide (i ≤ length buf)%nat) as [Hi|Hi]; [left|right; lia]. apply zslice_Some. exists (take i buf), [].
    rewrite app_nil_r, take_drop. split; [done|]. unfold len. rewrite length_take, length_drop. lia. }
  assert (∀ needle i, needle ≠ [] → first_at needle buf i → zslice (Z.of_nat i) (len buf) buf = Some (drop i buf)) as Hz.
  { intros needle i Hne [[r Hr] _]. destruct (Hslice i) as [|Hi]; [done|]. rewrite drop_ge in Hr by lia. by destruct needle. }
  unfold DocumentImage_parse. destruct (scan_for_magic buf JPEG_MAGIC) as [i|] eqn:Hj.
  - apply scan_for_magic_exact in Hj; [|done]. rewrite (Hz JPEG_MAGIC i) by done. by constructor.
  - apply scan_nowhere in Hj; [|done]. destruct (scan_for_magic buf JP2_MAGIC) as [i|] eqn:H2.
    + apply scan_for_magic_exact in H2; [|done]. rewrite (Hz JP2_MAGIC i) by done. by constructor.
    + apply scan_nowhere in H2; [|done]. by constructor.
Qed.
Lemma mrz_data_first v text : mrz_data (BerTlvIter_items v) = Some text → first_object 0x5F1F v text ∧ utf8_valid text.
Proof.
  remember (length v) as n eqn:Hn. revert v Hn. induction n as [n IH] using lt_wf_ind. intros v ->.
  rewrite BerTlvIter_items_next. destruct (BerTlvIter_next v) as [[item|] rest] eqn:Hv; [|done]. cbn [mrz_data].
  destruct item as [child|e|]; [|done|done]. pose proof (iter_child _ _ _ Hv) as Hc. destruct (Z.eqb_spec (any_tag child) MRZ_DATA) as [Ht|Ht].
  - unfold str_from_utf8. destruct (utf8_valid (any_value child)) eqn:Hu; [|done]. intros [= <-]. rewrite Ht in Hc. split; [by eapply first_here|by rewrite Hu].
  - intros Hm. destruct (IH (length rest) ltac:(by eapply BerTlvIter_next_shrinks) rest eq_refl Hm) as [Hf Hu]. split; [|done]. by eapply first_later.
Qed.
Lemma zone_of dg1 w text : Dg1Bytes_parse dg1 = Ok w → extract_mrz_string w = Some text → zone_in dg1 text.
Proof. intros [rest Hw]%BerTlv_parse_child Ht%mrz_data_first. by exists (any_value w), rest. Qed.

(** ** What a reading is *)

Section reading_spec.
Context `{MontyForm} `{AesCrypto} `{Sha1Hash} `{Sha256Hash} `{Sha2Hashes} `{BoxedMonty} `{DerCrate} `{ConstOid} `{!ConstOidLaws} {T TE} `{CardTransport T TE} `{OsRng R} `{Display TE} `{Display (rng_failure R)}.
Abbreviation EE := (EmrtdError TE).
Abbreviation St := (SmTransport T * R)%type.

(** The security object lists a group: its octets are a SignedData whose contents are a table
    of hashes with an entry for the group. *)
Definition sod_lists (sod : option bytes) (n : Z) : Prop :=
  ∃ bs body sd lds h, sod = Some bs ∧ SignedData_parse bs = Ok sd ∧ signed_data_in bs body ∧ signed_data_of body sd ∧
    LdsSecurityObject_parse (econtent_der sd) = Ok lds ∧ lds_of (econtent_der sd) lds ∧ (n, h) ∈ data_group_hashes lds.
(** A file that need not be there: its octets, or none when the card answered with a status
    that is no success. *)
Definition file_or_none (sfi : Z) (s s' : St) (o : option bytes) : Prop :=
  match o with
  | Some bs => read_sm_file (mkSfi sfi) s = (s', Ok bs)
  | None => ∃ op sw, read_sm_file (mkSfi sfi) s = (s', Err (Em_Sw op sw))
  end.
(** A group: it is asked for when the object lists it, and only then. *)
Definition group_read (sod : option bytes) (n : Z) (s s' : St) (o : option bytes) : Prop :=
  (sod_lists sod n ∧ file_or_none n s s' o) ∨ (¬ sod_lists sod n ∧ s' = s ∧ o = None).
(** Details: what the reader makes of the contents of the wrapper, when there is one. *)
Definition details_in {A} (tag : Z) (read : BerTlvAny → result EE A) (o : option bytes) (details : option A) : Prop :=
  match details with
  | Some d => ∃ bs t rest, o = Some bs ∧ ber_child tag bs (any_value t) rest ∧ any_tag t = tag ∧ read t = Ok d
  | None => ∀ bs v rest, o = Some bs → ¬ ber_child tag bs v rest
  end.
(** A check: it is made when there is something to make it with, and a failure of it is
    dropped. *)
Definition check_made {A B F} (input : option A) (run : A → act St F B) (s s' : St) (outcome : option B) : Prop :=
  match input with
  | None => s' = s ∧ outcome = None
  | Some a => ∃ r, run a s = (s', r) ∧ r ≠ Panic ∧ outcome = result_ok r
  end.

(** A reading from one state of the channel to another, in the order of the commands: the
    application is selected; EF.DG1, EF.DG2 and EF.SOD are read; then the listed groups
    among 7, 11, 12, 14 and 15; then the two checks are made. *)
Definition reading (fuel : nat) (s s' : St) (d : EmrtdPersonalData) : Prop :=
  ∃ s1 s2 s3 s4 s7 s11 s12 s14 s15 sc sw o11 o12 text,
    on_card (act_map_err map_sm_emrtd_error select_application) s = (s1, Ok sw) ∧ StatusWord_is_success sw = true ∧
    read_sm_file (mkSfi 1) s1 = (s2, Ok (dg1_der d)) ∧ zone_in (dg1_der d) text ∧ parse_td1 text = Ok (mrz d) ∧
    read_sm_file (mkSfi 2) s2 = (s3, Ok (dg2_der d)) ∧ image_in (dg2_der d) (face d) ∧
    file_or_none 0x1D s3 s4 (sod_der d) ∧
    group_read (sod_der d) 7 s4 s7 (dg7_der d) ∧ match dg7_der d with Some bs => image_in bs (signature_image d) | None => signature_image d = None end ∧
    group_read (sod_der d) 11 s7 s11 o11 ∧ details_in 0x6B parse_dg11 o11 (additional_personal d) ∧
    group_read (sod_der d) 12 s11 s12 o12 ∧ details_in 0x6C parse_dg12 o12 (additional_document d) ∧
    group_read (sod_der d) 14 s12 s14 (dg14_der d) ∧ group_read (sod_der d) 15 s14 s15 (dg15_der d) ∧
    check_made (der ← dg14_der d; result_ok (Dg14Bytes_try_from der)) (λ dg14, run_chip_authentication fuel (parse_dg14 dg14)) s15 sc (ca_result d) ∧
    check_made (der ← dg15_der d; dg15 ← result_ok (Dg15Bytes_try_from der); extract_rsa_public_key dg15) run_active_authentication sc s' (aa_result d).

Lemma sod_inventory_lists sod n : DgInventory_has (sod_inventory sod) n = true ↔ sod_lists sod n.
Proof.
  unfold DgInventory_has, sod_inventory, sod_lists. rewrite bool_decide_eq_true. split.
  - destruct sod as [bs|]; cbn [mbind option_bind]; [|by intros ?%not_elem_of_nil].
    destruct (SignedData_parse bs) as [sd|e|] eqn:Hs; cbn [result_ok mbind option_bind]; [|by intros ?%not_elem_of_nil..].
    destruct (LdsSecurityObject_parse _) as [lds|e|] eqn:Hl; cbn [result_ok mbind option_bind default numbers]; [|by intros ?%not_elem_of_nil..].
    intros Hin%list_elem_of_In%in_map_iff. destruct Hin as ([m h] & <- & Hin%list_elem_of_In). cbn [fst].
    destruct (SignedData_parse_of _ _ Hs) as (body & Hi & Ho). exists bs, body, sd, lds, h. split_and!; try done. by apply LdsSecurityObject_parse_of.
  - intros (bs & body & sd & lds & h & -> & Hs & _ & _ & Hl & _ & Hin). cbn [mbind option_bind]. rewrite Hs. cbn [result_ok mbind option_bind].
    rewrite Hl. cbn [result_ok mbind option_bind default numbers]. apply list_elem_of_In, in_map_iff. exists (n, h). split; [done|]. by apply list_elem_of_In.
Qed.
Lemma read_optional_file sfi (s s' : St) o : read_optional_dg (mkSfi sfi) s = (s', Ok o) → file_or_none sfi s s' o.
Proof.
  unfold read_optional_dg, file_or_none. destruct (read_sm_file (mkSfi sfi) s) as [s1 [bs|e|]]; [by intros [= <- <-]| |done].
  destruct e; try done. intros [= <- <-]. by eexists _, _.
Qed.
Lemma read_listed_group sod n (s s' : St) o : read_listed_dg (sod_inventory sod) n (mkSfi n) s = (s', Ok o) → group_read sod n s s' o.
Proof.
  unfold read_listed_dg, group_read. destruct (DgInventory_has _ n) eqn:Hn.
  - intros Hr%read_optional_file. left. split; [by apply sod_inventory_lists|done].
  - intros [= <- <-]. right. split; [|done]. intros Hl%sod_inventory_lists. congruence.
Qed.
Lemma details_of_in {A} tag (read : BerTlvAny → result EE A) o details : details_of (BerTlv_parse tag) read o = Ok details → details_in tag read o details.
Proof.
  unfold details_of, details_in. destruct o as [bs|]; cbn [mbind option_bind]; [|by intros [= <-]].
  destruct (BerTlv_parse tag bs) as [t|e|] eqn:Ht; cbn [result_ok].
  - destruct (read t) as [d|e|] eqn:Hr; [|done|done]. intros [= <-]. pose proof Ht as (t' & _ & [-> Htag]%expect_Ok)%result_bind_inv_ok.
    apply BerTlv_parse_child in Ht as [rest Ht]. by exists bs, t', rest.
  - intros [= <-] bs' v rest [= <-] (t & Hp & _)%child_BerTlv_parse. congruence.
  - intros [= <-] bs' v rest [= <-] (t & Hp & _)%child_BerTlv_parse. congruence.
Qed.
Lemma act_result_ok_made {A F} (m : act St F A) (s s' : St) (o : option A) :
  act_result_ok (F := EE) m s = (s', Ok o) → ∃ r, m s = (s', r) ∧ r ≠ Panic ∧ o = result_ok r.
Proof.
  unfold act_result_ok, act_attempt, act_bind. destruct (m s) as [s1 [a|e|]] eqn:Hm; [| |done]; intros [= <- <-]; by eexists.
Qed.

Lemma read_over_channel_reading fuel (s s' : St) d : read_over_channel fuel s = (s', Ok d) → reading fuel s s' d.
Proof.
  unfold read_over_channel. intros (s1 & sw & Hsel & Hr)%act_bind_inv_ok. destruct (StatusWord_is_success sw) eqn:Hsw; [|done]. cbn [negb] in Hr.
  apply act_bind_inv_ok in Hr as (s2 & d1 & Hf1 & Hr). apply act_bind_inv_ok in Hr as (s3' & w & [= <- Hw] & Hr). apply map_err_Ok in Hw.
  apply act_bind_inv_ok in Hr as (s4' & text & [= <- Htext%ok_or_inv] & Hr). apply act_bind_inv_ok in Hr as (s5' & m & [= <- Hm] & Hr). apply map_err_Ok in Hm.
  apply act_bind_inv_ok in Hr as (s3 & d2 & Hf2 & Hr). apply act_bind_inv_ok in Hr as (s4 & sod & Hsod%read_optional_file & Hr).
  apply act_bind_inv_ok in Hr as (s15 & o & Ho & Hr). revert Ho. unfold read_optional_dgs.
  intros (s7 & o7 & Hd7%read_listed_group & Ho)%act_bind_inv_ok. apply act_bind_inv_ok in Ho as (s11 & o11 & Hd11%read_listed_group & Ho).
  apply act_bind_inv_ok in Ho as (s12 & o12 & Hd12%read_listed_group & Ho). apply act_bind_inv_ok in Ho as (s14 & o14 & Hd14%read_listed_group & Ho).
  apply act_bind_inv_ok in Ho as (s15' & o15 & Hd15%read_listed_group & [= <- <-]). cbn [dg7 dg11 dg12 dg14 dg15] in Hr.
  apply act_bind_inv_ok in Hr as (s9 & ap & [= <- Hap] & Hr). apply act_bind_inv_ok in Hr as (s10 & ad & [= <- Had] & Hr).
  apply act_bind_inv_ok in Hr as (sc & ca & Hca & Hr). apply act_bind_inv_ok in Hr as (sa & aa & Haa & [= <- <-]).
  exists s1, s2, s3, s4, s7, s11, s12, s14, s15', sc, sw, o11, o12, text. cbn.
  split; [done|]. split; [done|]. split; [done|]. split; [by eapply zone_of|]. split; [done|]. split; [done|]. split; [apply DocumentImage_in|].
  split; [done|]. split; [done|]. split; [destruct o7; [apply DocumentImage_in|done]|]. split; [done|]. split; [by apply details_of_in|].
  split; [done|]. split; [by apply details_of_in|]. split; [done|]. split; [done|]. split.
  - unfold chip_authentication_of in Hca. destruct (der ← o14; _) as [dg14|]; [by apply act_result_ok_made in Hca|]. by injection Hca as <- <-.
  - unfold active_authentication_of in Haa. unfold parse_dg15_spki in Haa. destruct (der ← o15; _) as [key|]; [by apply act_result_ok_made in Haa|].
    by injection Haa as <- <-.
Qed.
End reading_spec.

(** C32: The personal data come over a channel that the CAN opened, or not at all. When key
    agreement fails, nothing more is sent and the error says whether the CAN was wrong
    (the card refused the token with 6300, or its own token did not match). What a reading
    returns was read over that channel in this run, in the order of the commands, and says
    what the octets say: the zone is the text of EF.DG1, the images run from their marks;
    a group is asked for exactly when the table of hashes of EF.SOD lists it; the details of
    EF.DG11 and EF.DG12, whose octets are not returned, are those of the octets read from
    these files; and each check was made with the group that is returned for it. *)
Theorem personal_data_exact `{MontyForm} `{AesCrypto} `{Sha1Hash} `{Sha256Hash} `{Sha2Hashes} `{BoxedMonty} `{DerCrate} `{ConstOid} `{!ConstOidLaws} {T TE} `{CardTransport T TE} `{OsRng R} `{Display TE} `{Display (rng_failure R)}
  fuel can (s : T * R) :
  (∀ s' e, run_pace_with_can fuel can s = (s', Err e) →
     read_personal_data fuel can s = (s', Err (emrtd_pace_error e)) ∧
     (e = Pace_AuthMismatch ∨ (∃ stage, e = Pace_Sw stage 0x6300) ↔ emrtd_pace_error e = Em_BadCan)) ∧
  (∀ s' d, read_personal_data fuel can s = (s', Ok d) →
     ∃ s1 session sm rng, run_pace_with_can fuel can s = (s1, Ok session) ∧
       reading fuel (SmTransport_new s1.1 session, s1.2) (sm, rng) d ∧ s' = (sm_inner sm, rng)).
Proof.
  split.
  - intros s' e He. unfold read_personal_data. rewrite He. split; [done|]. unfold emrtd_pace_error. destruct e as [e|e|stage sw|w| | |e]; cbn.
    1,2,4,5,7: split; [intros [?|[? ?]]; done|destruct (_ || _); done].
    + destruct (Z.eqb_spec sw 0x6300) as [->|Hn]; [split; [done|]; intros _; right; by exists stage|].
      split; [intros [?|[? [= _ ?]]]; done|destruct (_ || _); done].
    + split; [done|]. by left.
  - intros s' d. unfold read_personal_data. destruct (run_pace_with_can fuel can s) as [s1 [session|e|]] eqn:Hp; [|done..].
    destruct (read_over_channel _ _) as [[sm g] r] eqn:Hr. intros [= <- ->]. exists s1, session, sm, g. split; [done|].
    split; [by apply read_over_channel_reading|done].
Qed.

(** ** A card, from PACE to its files *)

Module sample_card.
Export sample_chip sample_certificate.
#[export] Existing Instance pace_hash.
#[export] Instance rng_text : Display (rng_failure (list Z)) := txt.

(** The application: files by their short identifiers, and the selected one. *)
Record App := mkApp { files : list (Z * bytes); selected : bytes }.
Definition answer_from (file : bytes) (off le : Z) : TransportOutcome := reply (take (Z.to_nat le) (drop (Z.to_nat off) file)) 0x9000.
#[export] Instance App_transport : CardTransport App string := λ c a,
  match cmd_bytes c with
  | _ :: 0xA4 :: _ => (a, Ok (reply [] 0x9000))
  | [_; 0xB0; p1; p2; le] =>
      if Z.testbit p1 7 then
        match find_map (λ '(sfi, file), if sfi =? Z.land p1 0x1F then Some file else None) (files a) with
        | Some file => (mkApp (files a) file, Ok (answer_from file p2 le))
        | None => (a, Ok (reply [] 0x6A82))
        end
      else (a, Ok (answer_from (selected a) (u16_from_be p1 p2) le))
  | _ => (a, Ok (reply [] 0x6D00))
  end.
(** The card: PACE first, then the application behind the channel. *)
Inductive Card := In_pace (p : Picc) (a : App) | In_channel (peer : SmPeer App).
#[export] Instance Card_transport : CardTransport Card string := λ c card,
  match card with
  | In_pace p a =>
      let '(p', r) := transmit_outcome c p in
      (match picc_stage p' with Pi_Open k_enc k_mac => In_channel (mkSmPeer a k_enc k_mac Ssc_INITIAL) | _ => In_pace p' a end, r)
  | In_channel peer => let '(peer', r) := transmit_outcome c peer in (In_channel peer', r)
  end.

Definition zone : bytes := specimen "7".
Definition dg1 : bytes := [0x61; 93; 0x5F; 0x1F; 90] ++ zone.
Definition picture : bytes := JPEG_MAGIC ++ [0xE0; 1; 2; 3].
Definition dg2 : bytes := [0x75; 10; 0x5F; 0x2E; 7] ++ picture.
(** The table lists the groups 7 and 11; a file for 12 is there all the same. *)
Definition listed (n : Z) : bytes := enc Tag_Sequence (enc Tag_Integer [n] ++ enc Tag_OctetString [0x5A]).
Definition sod : bytes := sample_message.message []
  (enc Tag_Sequence (enc Tag_Integer [0] ++ enc Tag_Sequence (enc Tag_ObjectIdentifier (Oid_as_bytes SHA256)) ++ enc Tag_Sequence (listed 7 ++ listed 11))).
Definition dg7 : bytes := [0x67; 10; 0x5F; 0x43; 7] ++ picture.
Definition dg11 : bytes := [0x6B; 8; 0x5F; 0x0E; 4; 0x41; 0x3C; 0x3C; 0x42; 0].
Definition dg12 : bytes := [0x6C; 5; 0x5F; 0x19; 2; 0x41; 0x42].
Definition card : Card := In_pace pace_card (mkApp [(1, dg1); (2, dg2); (0x1D, sod); (7, dg7); (11, dg11); (12, dg12)] []).
End sample_card.

Import sample_card.
Definition good_reading (o : (Card * list Z) * result (EmrtdError string) EmrtdPersonalData) : bool :=
  match o.2 with
  | Ok d => bool_decide (MrzSurname_0 (mrz_primary_identifier (mrz d)) = txt "MEIKALAINEN") && bool_decide (dg1_der d = sample_card.dg1) &&
            match face d with Some (Jpeg bs) => bool_decide (bs = picture) | _ => false end && bool_decide (sod_der d = Some sod) &&
            match signature_image d with Some (Jpeg bs) => bool_decide (bs = picture) | _ => false end &&
            bool_decide ((p ← additional_personal d; Dg11FullName_0 <$> full_name p) = Some [0x41; 0x3C; 0x3C; 0x42]) &&
            match additional_document d with Some _ => false | None => true end
  | _ => false
  end.
(** A card with a zone, a picture, a signature and a name is read, its unlisted group is not;
    one that answers nothing of use is not read. *)
Lemma personal_data_exact_witness :
  good_reading (read_personal_data 4 pace_can (card, pace_draws)) = true ∧
  (∃ s sm rng d, reading 4 s (sm, rng) d ∧ read_personal_data 4 pace_can (card, pace_draws) = ((sm_inner sm, rng), Ok d)) ∧
  read_personal_data 4 pace_can (mkSilent, pace_draws) = ((mkSilent, pace_draws), Err (Em_Pace (txt "PACE BER: BER: empty input"))).
Proof.
  assert (good_reading (read_personal_data 4 pace_can (card, pace_draws)) = true) as Hg by by vm_compute. split; [exact Hg|]. split.
  - assert (∀ o, read_personal_data 4 pace_can (card, pace_draws) = o → good_reading o = true → ∃ s' d, read_personal_data 4 pace_can (card, pace_draws) = (s', Ok d)) as Hall.
    { intros [s' [d|e|]] Ho Hgo; [|discriminate Hgo..]. exists s', d. exact Ho. }
    destruct (Hall _ eq_refl Hg) as (s' & d & Hd).
    destruct (proj2 (personal_data_exact 4 pace_can (card, pace_draws)) s' d Hd) as (s1 & session & sm & rng & _ & Hr & Hs). subst s'.
    exists (SmTransport_new s1.1 session, s1.2), sm, rng, d. split; [exact Hr|exact Hd].
  - assert (run_pace_with_can 4 pace_can (mkSilent, pace_draws) = ((mkSilent, pace_draws), Err (Pace_Ber Ber_Empty))) as He by by vm_compute.
    exact (proj1 (proj1 (personal_data_exact 4 pace_can (mkSilent, pace_draws)) _ _ He)).
Defined.
