(* ===== verification/Crl.v ===== *)
(** crates/refineid-lib-core/src/crl.rs: a list of revoked certificates taken apart, the
    verification of its signature, and the looking up of a serial number. What the sources
    take from the crate x509_cert for it is a class with laws. *)

From S2P Require Import Prelude Oid Ber Der CryptoCrates Rsa Ecdsa Identity X509.

#[export] Instance CertSerial_eq_dec : EqDecision CertSerial.
Proof. solve_decision. Defined.

Definition OID_CRL_REASONS : bytes := [0x55; 0x1D; 0x15].

Inductive CrlReason :=
| CrlReason_Unspecified | CrlReason_KeyCompromise | CrlReason_CaCompromise | CrlReason_AffiliationChanged
| CrlReason_Superseded | CrlReason_CessationOfOperation | CrlReason_CertificateHold | CrlReason_RemoveFromCrl
| CrlReason_PrivilegeWithdrawn | CrlReason_AaCompromise.
#[export] Instance CrlReason_eq_dec : EqDecision CrlReason.
Proof. solve_decision. Defined.
Definition CrlReason_from_code (code : Z) : option CrlReason :=
  match code with
  | 0 => Some CrlReason_Unspecified
  | 1 => Some CrlReason_KeyCompromise
  | 2 => Some CrlReason_CaCompromise
  | 3 => Some CrlReason_AffiliationChanged
  | 4 => Some CrlReason_Superseded
  | 5 => Some CrlReason_CessationOfOperation
  | 6 => Some CrlReason_CertificateHold
  | 8 => Some CrlReason_RemoveFromCrl
  | 9 => Some CrlReason_PrivilegeWithdrawn
  | 10 => Some CrlReason_AaCompromise
  | _ => None
  end.
Definition CrlReason_code (r : CrlReason) : Z :=
  match r with
  | CrlReason_Unspecified => 0
  | CrlReason_KeyCompromise => 1
  | CrlReason_CaCompromise => 2
  | CrlReason_AffiliationChanged => 3
  | CrlReason_Superseded => 4
  | CrlReason_CessationOfOperation => 5
  | CrlReason_CertificateHold => 6
  | CrlReason_RemoveFromCrl => 8
  | CrlReason_PrivilegeWithdrawn => 9
  | CrlReason_AaCompromise => 10
  end.

(** [RevokedCert] and [Extension] of x509_cert: the octets of the serial number, the time,
    and the identifier and octets of each extension. *)
Record CrlExtension := mkCrlExtension { extn_id : bytes; extn_value : bytes }.
Record RevokedCert := mkRevokedCert {
  rc_serial_number : bytes;
  rc_revocation_date : DerDateTime;
  rc_crl_entry_extensions : option (list CrlExtension);
}.
(** [Time::from_der(..).to_date_time()] and [RevokedCert::<Rfc5280>::from_der]. *)
Class CrlCrate := {
  Time_from_der : bytes → option DerDateTime;
  RevokedCert_from_der : bytes → option RevokedCert;
}.

Record Crl := mkCrl {
  crl_raw_der : bytes;
  crl_tbs_der : bytes;
  crl_issuer : Name;
  crl_this_update : DerDateTime;
  crl_next_update : option DerDateTime;
  crl_revoked_seq_value : option bytes;
  crl_signature_alg_oid : bytes;
  crl_signature_bits : bytes;
}.
Record RevokedEntry := mkRevokedEntry {
  re_serial : CertSerial;
  re_revocation_date : DerDateTime;
  re_reason : option CrlReason;
}.

Section crl.
Context `{DerCrate} `{CrlCrate}.

(** [signatureAlgorithm]: the octets of its identifier. *)
Definition read_signature_algorithm (what : string) (reader : bytes) : result X509Error (bytes * bytes) :=
  let? (t, reader) := take_tlv what reader in
  let? sig_alg := as_any what t in
  let? alg_reader := open_reader (what ++ " body") (ar_value sig_alg) in
  let? (t, _) := take_tlv (what ++ " OID") alg_reader in
  let? alg_oid := as_any (what ++ " OID") t in
  if negb (bool_decide (ar_tag alg_oid = Tag_ObjectIdentifier)) then Err (X509_UnexpectedStructure (what ++ " OID"))
  else Ok (ar_value alg_oid, reader).
(** [signature]: a BIT STRING without the count of its unused bits. *)
Definition read_signature_bits (what : string) (reader : bytes) : result X509Error (bytes * bytes) :=
  let? (t, reader) := take_tlv what reader in
  let? sig_bits := as_any what t in
  if negb (bool_decide (ar_tag sig_bits = Tag_BitString)) then Err (X509_UnexpectedStructure (what ++ " not BIT STRING"))
  else match ar_value sig_bits with
       | [] => Err (X509_UnexpectedStructure (what ++ " BIT STRING empty"))
       | _ :: bits => Ok (bits, reader)
       end.

Definition CRL_EXTENSIONS_TAG : DerTag := Tag_ContextSpecific true 0.
(** The fields after [thisUpdate]: the last time, and the last list, are kept. *)
Fixpoint crl_trailing_fields (items : list (option bytes)) (next_update : option DerDateTime) (revoked : option bytes) :
    result X509Error (option DerDateTime * option bytes) :=
  match items with
  | [] => Ok (next_update, revoked)
  | item :: items =>
      let? field_tlv := ok_or item (X509_UnexpectedStructure "tbsCertList trailing field") in
      let? any := as_any "tbsCertList trailing field" field_tlv in
      match ar_tag any with
      | Tag_UtcTime | Tag_GeneralizedTime =>
          let? next := ok_or (Time_from_der field_tlv) X509_InvalidTime in
          crl_trailing_fields items (Some next) revoked
      | Tag_Sequence => crl_trailing_fields items next_update (Some (ar_value any))
      | tag =>
          if bool_decide (tag = CRL_EXTENSIONS_TAG) then crl_trailing_fields items next_update revoked
          else Err (X509_UnexpectedStructure "unexpected CRL field")
      end
  end.
Definition parse_tbs_cert_list (tbs_der raw signature_alg_oid signature_bits : bytes) : result X509Error Crl :=
  let? tbs := as_any "tbsCertList not a TLV" tbs_der in
  if negb (bool_decide (ar_tag tbs = Tag_Sequence)) then Err (X509_UnexpectedStructure "tbsCertList not SEQUENCE")
  else
    let? reader := open_reader "tbsCertList body" (ar_value tbs) in
    let? (first_tlv, reader) := take_tlv "tbsCertList version/signature" reader in
    let? first := as_any "tbsCertList version/signature" first_tlv in
    let? reader :=
      if bool_decide (ar_tag first = Tag_Integer) then
        let? (_, reader) := take_tlv "tbsCertList signature" reader in Ok reader
      else Ok reader in
    let? (issuer_dn_der, reader) := take_tlv "tbsCertList issuer" reader in
    let? (t, reader) := take_tlv "tbsCertList thisUpdate" reader in
    let? this_update := ok_or (Time_from_der t) X509_InvalidTime in
    let? (next_update, revoked_seq_value) := crl_trailing_fields (reader_items reader) None None in
    Ok (mkCrl raw tbs_der (mkName issuer_dn_der) this_update next_update revoked_seq_value signature_alg_oid signature_bits).
Definition Crl_parse (der : bytes) : result X509Error Crl :=
  let? outer := as_any "CRL not a TLV" der in
  if negb (bool_decide (ar_tag outer = Tag_Sequence)) then Err (X509_UnexpectedStructure "CRL not SEQUENCE")
  else
    let? reader := open_reader "CRL body" (ar_value outer) in
    let? (tbs_der, reader) := take_tlv "tbsCertList" reader in
    let? (signature_alg_oid, reader) := read_signature_algorithm "CRL signatureAlgorithm" reader in
    let? (signature_bits, _) := read_signature_bits "CRL signature" reader in
    parse_tbs_cert_list tbs_der der signature_alg_oid signature_bits.

(** ** The entries *)

Definition find_reason_code (extensions : list CrlExtension) : option CrlReason :=
  reason_ext ← List.find (λ ext, bool_decide (extn_id ext = OID_CRL_REASONS)) extensions;
  inner ← AnyRef_from_der (extn_value reason_ext);
  if negb (bool_decide (ar_tag inner = Tag_Enumerated)) then None
  else if len (ar_value inner) =? 1 then head (ar_value inner) ≫= CrlReason_from_code else None.

Definition RevokedIter : Type := option bytes.
Definition RevokedIter_next (it : RevokedIter) : option RevokedEntry * RevokedIter :=
  match it with
  | None => (None, None)
  | Some reader =>
      if is_finished reader then (None, it)
      else match SliceReader_tlv_bytes reader with
           | None => (None, it)
           | Some (t, rest) =>
               match RevokedCert_from_der t with
               | None => (None, Some rest)
               | Some revoked =>
                   (Some (mkRevokedEntry (mkCertSerial (rc_serial_number revoked)) (rc_revocation_date revoked)
                            (rc_crl_entry_extensions revoked ≫= find_reason_code)), Some rest)
               end
           end
  end.
Definition Crl_entries (crl : Crl) : RevokedIter := crl_revoked_seq_value crl ≫= SliceReader_new.
(** [Iterator::find]. *)
Fixpoint iter_find (fuel : nat) (p : RevokedEntry → bool) (it : RevokedIter) : option RevokedEntry :=
  match fuel with
  | O => None
  | S fuel => match RevokedIter_next it with
              | (None, _) => None
              | (Some e, it) => if p e then Some e else iter_find fuel p it
              end
  end.
Definition Crl_find_serial (crl : Crl) (serial : CertSerial) : option RevokedEntry :=
  let it := Crl_entries crl in
  iter_find (match it with Some body => S (length body) | None => 1 end) (λ e, bool_decide (re_serial e = serial)) it.

(** ** Owned lists *)

Record OwnedCrl := mkOwnedCrl { ocrl_der : bytes }.
Definition OwnedCrl_from_der (der : bytes) : result X509Error OwnedCrl := let? _ := Crl_parse der in Ok (mkOwnedCrl der).
(** [expect]. *)
Definition OwnedCrl_view {F} (c : OwnedCrl) : result F Crl := match Crl_parse (ocrl_der c) with Ok v => Ok v | _ => Panic end.
Definition OwnedCrl_as_der (c : OwnedCrl) : bytes := ocrl_der c.

(** ** Signatures *)

Context `{ConstOid} `{BoxedMonty} `{Sha1Hash} `{Sha256Hash} `{Sha2Hashes}.
Definition Crl_verify_signature (c : Crl) (issuer_spki_der : bytes) : result VerifyError unit :=
  verify_tbs_signature (mkTbsSignature (crl_tbs_der c) (crl_signature_alg_oid c) (crl_signature_bits c) issuer_spki_der).
Definition OwnedCrl_verify_signature (c : OwnedCrl) (issuer_spki_der : bytes) : result VerifyError unit :=
  let? v := OwnedCrl_view c in Crl_verify_signature v issuer_spki_der.
Record VerifiedCrl := mkVerifiedCrl { vcrl_crl : Crl }.
Definition VerifiedCrl_verify (crl : Crl) (signer_spki : SpkiDer) : result VerifyError VerifiedCrl :=
  let? _ := Crl_verify_signature crl (SpkiDer_as_der signer_spki) in Ok (mkVerifiedCrl crl).
Definition VerifiedCrl_as_crl (v : VerifiedCrl) : Crl := vcrl_crl v.
End crl.

(** ** Looking an entry up *)

Section lookup.
Context `{DerCrate} `{!DerLaws} `{CrlCrate}.

Definition entry_of (r : RevokedCert) : RevokedEntry :=
  mkRevokedEntry (mkCertSerial (rc_serial_number r)) (rc_revocation_date r) (rc_crl_entry_extensions r ≫= find_reason_code).
(** The entries ahead of the first that cannot be read. *)
Fixpoint readable (items : list (option bytes)) : list RevokedEntry :=
  match items with
  | Some t :: items => match RevokedCert_from_der t with Some r => entry_of r :: readable items | None => [] end
  | _ => []
  end.
Definition Crl_listed (c : Crl) : list RevokedEntry :=
  match Crl_entries c with Some body => readable (reader_items body) | None => [] end.

Lemma iter_find_readable p fuel body : (length body < fuel)%nat → iter_find fuel p (Some body) = List.find p (readable (reader_items body)).
Proof.
  revert body. induction fuel as [|fuel IH]; intros body Hf; [lia|]. cbn [iter_find RevokedIter_next]. unfold is_finished.
  destruct (decide (body = [])) as [->|Hne]; [done|]. rewrite bool_decide_eq_false_2 by done.
  destruct (SliceReader_tlv_bytes body) as [[t rest]|] eqn:Ht.
  - rewrite (reader_items_cons _ _ _ Ht). cbn [readable]. destruct (RevokedCert_from_der t) as [r|]; [|done].
    cbn [List.find]. fold (entry_of r). destruct (p (entry_of r)); [done|]. apply IH. apply tlv_bytes_shrinks in Ht. lia.
  - unfold reader_items. destruct (length body) as [|n] eqn:Hn; [by destruct body|]. cbn [reader_items_fuel]. unfold is_finished.
    by rewrite bool_decide_eq_false_2, Ht by done.
Qed.
(** The search ends, and sees the readable entries only. *)
Lemma find_serial_listed c serial : Crl_find_serial c serial = List.find (λ e, bool_decide (re_serial e = serial)) (Crl_listed c).
Proof. unfold Crl_find_serial, Crl_listed. destruct (Crl_entries c) as [body|]; [|done]. by apply iter_find_readable; lia. Qed.

Lemma readable_app items rest es : Forall2 (λ item e, ∃ t r, item = Some t ∧ RevokedCert_from_der t = Some r ∧ e = entry_of r) items es →
  readable (items ++ rest) = es ++ readable rest.
Proof. induction 1 as [|item e items es (t & r & -> & Hr & ->) _ IH]; [done|]. cbn [app readable]. by rewrite Hr, IH. Qed.
End lookup.

(** ** An encoded list *)

Section layout.
Context `{DerCrate} `{!DerLaws} `{CrlCrate}.

(** The encoding of a time that is read as [date]. *)
Definition time_enc (date : DerDateTime) (e : bytes) : Prop :=
  (∃ tag v, (tag = Tag_UtcTime ∨ tag = Tag_GeneralizedTime) ∧ der_enc tag v e) ∧ Time_from_der e = Some date.
(** The shortest octets of a number above 0, at most 20. *)
Definition positive_serial (s : bytes) : Prop :=
  match s with
  | [] => False
  | b :: r => 0 <= b < 128 ∧ len s <= 20 ∧ (b = 0 → match r with c :: _ => 128 <= c | [] => False end)
  end.
(** An entry without extensions, and one with a reason. *)
Inductive revoked_enc (serial : bytes) (date : DerDateTime) : option (list CrlExtension) → bytes → Prop :=
| revoked_plain i t e : der_enc Tag_Integer serial i → time_enc date t → der_enc Tag_Sequence (i ++ t) e → revoked_enc serial date None e
| revoked_reason code n o v x xs i t e :
    der_enc Tag_Enumerated [code] n → der_enc Tag_ObjectIdentifier OID_CRL_REASONS o → der_enc Tag_OctetString n v →
    der_enc Tag_Sequence (o ++ v) x → der_enc Tag_Sequence x xs → der_enc Tag_Integer serial i → time_enc date t →
    der_enc Tag_Sequence (i ++ t ++ xs) e → revoked_enc serial date (Some [mkCrlExtension OID_CRL_REASONS n]) e.
End layout.

Class CrlLaws `{DerCrate} `{CrlCrate} := {
  revoked_from_der serial date exts e :
    positive_serial serial → len e < DER_MAX_LEN → revoked_enc serial date exts e →
    RevokedCert_from_der e = Some (mkRevokedCert serial date exts);
}.

(** The parts of a list as RFC 5280 lists them. *)
Record crl_shape := mkCrlShape {
  cs_version : option bytes; cs_inner_algorithm : bytes; cs_issuer : bytes; cs_this_update : DerDateTime; cs_next_update : option DerDateTime;
  cs_revoked : option (list bytes); cs_extensions : option bytes; cs_algorithm : bytes; cs_parameters : bytes; cs_unused : Z; cs_bits : bytes }.

(** Bounds on the lengths of parts. *)
Ltac short := rewrite ?len_app in *; repeat match goal with
  | H : context [len ?l] |- _ => lazymatch goal with _ : 0 <= len l |- _ => fail | _ => pose proof (len_nonneg l) end
  | |- context [len ?l] => lazymatch goal with _ : 0 <= len l |- _ => fail | _ => pose proof (len_nonneg l) end end; lia.

Section encoded.
Context `{DerCrate} `{!DerLaws} `{CrlCrate} `{!CrlLaws}.

Inductive optional_time : option DerDateTime → bytes → Prop :=
| no_time : optional_time None []
| some_time d e : time_enc d e → optional_time (Some d) e.
Inductive tbs_list_enc (s : crl_shape) (tbs : bytes) : Prop :=
| tbs_list_intro version algorithm this_update next_update revoked extensions :
    optional_enc Tag_Integer (cs_version s) version → der_enc Tag_Sequence (cs_inner_algorithm s) algorithm → encoded_value (cs_issuer s) →
    time_enc (cs_this_update s) this_update → optional_time (cs_next_update s) next_update →
    optional_enc Tag_Sequence (@concat Z <$> cs_revoked s) revoked → optional_enc CRL_EXTENSIONS_TAG (cs_extensions s) extensions →
    der_enc Tag_Sequence (version ++ algorithm ++ cs_issuer s ++ this_update ++ next_update ++ revoked ++ extensions) tbs →
    tbs_list_enc s tbs.
Inductive crl_enc (s : crl_shape) (tbs der : bytes) : Prop :=
| crl_enc_intro oid algorithm signature :
    tbs_list_enc s tbs → der_enc Tag_ObjectIdentifier (cs_algorithm s) oid → der_enc Tag_Sequence (oid ++ cs_parameters s) algorithm →
    der_enc Tag_BitString (cs_unused s :: cs_bits s) signature → der_enc Tag_Sequence (tbs ++ algorithm ++ signature) der →
    crl_enc s tbs der.

Lemma encoded_any tag v e : der_enc tag v e → encoded_value e.
Proof. intros He. by exists tag, v. Qed.
Lemma time_encoded date e : time_enc date e → encoded_value e.
Proof. intros [(tag & v & _ & He) _]. by eapply encoded_any. Qed.

(** [crl_fields] is what a list of the given shape is read as. *)
Definition crl_fields (s : crl_shape) (tbs der : bytes) : Crl :=
  mkCrl der tbs (mkName (cs_issuer s)) (cs_this_update s) (cs_next_update s) (@concat Z <$> cs_revoked s) (cs_algorithm s) (cs_bits s).

Lemma crl_trailing_encoded next next_update revoked_v revoked exts extensions :
  optional_time next next_update → optional_enc Tag_Sequence revoked_v revoked → optional_enc CRL_EXTENSIONS_TAG exts extensions →
  len (next_update ++ revoked ++ extensions) < DER_MAX_LEN →
  crl_trailing_fields (reader_items (next_update ++ revoked ++ extensions)) None None = Ok (next, revoked_v).
Proof.
  intros Hn Hr Hx Hl. rewrite !len_app in Hl. pose proof (len_nonneg next_update). pose proof (len_nonneg revoked). pose proof (len_nonneg extensions).
  assert (∀ a b, crl_trailing_fields (reader_items extensions) a b = Ok (a, b)) as Hext.
  { intros a b. destruct Hx as [|v e He]; [done|]. rewrite <- (app_nil_r e). rewrite (reader_items_cons _ e []) by (eapply der_enc_take; [done|rewrite app_nil_r; lia]).
    cbn [crl_trailing_fields reader_items reader_items_fuel length ok_or result_bind]. rewrite (as_any_encoded _ _ _ _ He) by lia. done. }
  assert (∀ a, crl_trailing_fields (reader_items (revoked ++ extensions)) a None = Ok (a, revoked_v)) as Hrev.
  { intros a. destruct Hr as [|v e He]; [apply Hext|]. rewrite (reader_items_cons _ e extensions) by (eapply der_enc_take; [done|rewrite len_app; lia]).
    cbn [crl_trailing_fields ok_or result_bind]. rewrite (as_any_encoded _ _ _ _ He) by lia. cbn [result_bind ar_tag ar_value]. apply Hext. }
  destruct Hn as [|d e [(tag & v & Htag & He) Ht]]; [apply Hrev|].
  rewrite (reader_items_cons _ e (revoked ++ extensions)) by (eapply der_enc_take; [done|rewrite !len_app; lia]).
  cbn [crl_trailing_fields ok_or result_bind]. rewrite (as_any_encoded _ _ _ _ He) by lia. cbn [result_bind ar_tag].
  destruct Htag as [-> | ->]; rewrite Ht; cbn [ok_or result_bind]; apply Hrev.
Qed.

Lemma parse_tbs_list_encoded s tbs raw :
  tbs_list_enc s tbs → len tbs < DER_MAX_LEN → parse_tbs_cert_list tbs raw (cs_algorithm s) (cs_bits s) = Ok (crl_fields s tbs raw).
Proof.
  intros [version algorithm this_update next_update revoked extensions Hver Halg Hiss Hthis Hnext Hrev Hext Htbs] Hl.
  unfold parse_tbs_cert_list. rewrite (as_any_encoded _ _ _ _ Htbs) by done. cbn [result_bind ar_tag ar_value]. rewrite bool_decide_eq_true_2 by done. cbn [negb].
  pose proof (der_enc_len _ _ _ Htbs) as Hbody. set (tail := next_update ++ revoked ++ extensions) in *. rewrite open_reader_ok by lia. cbn [result_bind].
  set (rest := λ reader : bytes, _ : result X509Error Crl).
  assert (rest (cs_issuer s ++ this_update ++ tail) = Ok (crl_fields s tbs raw)) as Hrest.
  { unfold rest. rewrite take_tlv_encoded by (done || short). cbn [result_bind]. rewrite take_tlv_encoded by (by eapply time_encoded || short). cbn [result_bind].
    destruct Hthis as [_ ->]. cbn [ok_or result_bind]. unfold tail in *. by rewrite (crl_trailing_encoded _ _ _ _ _ _ Hnext Hrev Hext) by short. }
  destruct Hver as [|v e Hv].
  - cbn [app] in *. rewrite take_tlv_encoded by (by eapply encoded_any || short). cbn [result_bind].
    rewrite (as_any_encoded _ _ _ _ Halg) by short. cbn [result_bind ar_tag]. rewrite bool_decide_eq_false_2 by done. exact Hrest.
  - rewrite take_tlv_encoded by (by eapply encoded_any || short). cbn [result_bind].
    rewrite (as_any_encoded _ _ _ _ Hv) by short. cbn [result_bind ar_tag]. rewrite bool_decide_eq_true_2 by done.
    rewrite take_tlv_encoded by (by eapply encoded_any || short). exact Hrest.
Qed.

Lemma read_signature_algorithm_encoded what oid params o e rest :
  der_enc Tag_ObjectIdentifier oid o → der_enc Tag_Sequence (o ++ params) e → len (e ++ rest) < DER_MAX_LEN →
  read_signature_algorithm what (e ++ rest) = Ok (oid, rest).
Proof.
  intros Ho He Hl. unfold read_signature_algorithm. rewrite take_tlv_encoded by (by eapply encoded_any || done). cbn [result_bind].
  rewrite (as_any_encoded _ _ _ _ He) by short. cbn [result_bind ar_value]. pose proof (der_enc_len _ _ _ He).
  rewrite open_reader_ok by short. cbn [result_bind]. rewrite take_tlv_encoded by (by eapply encoded_any || short). cbn [result_bind].
  rewrite (as_any_encoded _ _ _ _ Ho) by short. cbn [result_bind ar_tag]. by rewrite bool_decide_eq_true_2.
Qed.
Lemma read_signature_bits_encoded what unused bits e rest :
  der_enc Tag_BitString (unused :: bits) e → len (e ++ rest) < DER_MAX_LEN → read_signature_bits what (e ++ rest) = Ok (bits, rest).
Proof.
  intros He Hl. unfold read_signature_bits. rewrite take_tlv_encoded by (by eapply encoded_any || done). cbn [result_bind].
  rewrite (as_any_encoded _ _ _ _ He) by short. cbn [result_bind ar_tag ar_value]. by rewrite bool_decide_eq_true_2.
Qed.
Lemma Crl_encoded s tbs der : crl_enc s tbs der → len der < DER_MAX_LEN → Crl_parse der = Ok (crl_fields s tbs der).
Proof.
  intros [oid algorithm signature Htbs Hoid Halg Hsig Hder] Hl. unfold Crl_parse.
  rewrite (as_any_encoded _ _ _ _ Hder) by done. cbn [result_bind ar_tag ar_value]. rewrite bool_decide_eq_true_2 by done. cbn [negb].
  pose proof (der_enc_len _ _ _ Hder) as Hbody. rewrite open_reader_ok by lia. cbn [result_bind].
  rewrite take_tlv_encoded by ((destruct Htbs; by eapply encoded_any) || short). cbn [result_bind].
  rewrite (read_signature_algorithm_encoded _ _ _ _ _ _ Hoid Halg) by short. cbn [result_bind].
  rewrite <- (app_nil_r signature). rewrite (read_signature_bits_encoded _ _ _ _ _ Hsig) by (rewrite app_nil_r; short). cbn [result_bind].
  apply parse_tbs_list_encoded; [done|short].
Qed.

(** An entry of a list, and what a reader of it learns. *)
Definition reason_of (exts : option (list CrlExtension)) : option CrlReason := exts ≫= find_reason_code.
Inductive listed_as : RevokedEntry → bytes → Prop :=
| listed_plain serial date e : positive_serial serial → revoked_enc serial date None e → listed_as (mkRevokedEntry (mkCertSerial serial) date None) e
| listed_reason serial date code n e : positive_serial serial → der_enc Tag_Enumerated [code] n →
    revoked_enc serial date (Some [mkCrlExtension OID_CRL_REASONS n]) e →
    listed_as (mkRevokedEntry (mkCertSerial serial) date (CrlReason_from_code code)) e.

Lemma reason_encoded code n : der_enc Tag_Enumerated [code] n → len n < DER_MAX_LEN → find_reason_code [mkCrlExtension OID_CRL_REASONS n] = CrlReason_from_code code.
Proof.
  intros Hn Hl. unfold find_reason_code. cbn [List.find extn_id]. rewrite bool_decide_eq_true_2 by done. cbn [mbind option_bind extn_value].
  rewrite (der_enc_any _ _ _ Hn) by done. cbn [mbind option_bind ar_tag ar_value]. by rewrite bool_decide_eq_true_2.
Qed.
Lemma listed_read x e : listed_as x e → len e < DER_MAX_LEN → ∃ r, RevokedCert_from_der e = Some r ∧ x = entry_of r.
Proof.
  intros [serial date e' Hs He|serial date code n e' Hs Hn He] Hl; pose proof (revoked_from_der _ _ _ _ Hs Hl He) as Hr; eexists; (split; [exact Hr|]).
  - done.
  - unfold entry_of. cbn [rc_serial_number rc_revocation_date rc_crl_entry_extensions mbind option_bind]. f_equal. symmetry. apply reason_encoded; [done|].
    inversion He as [|code' n' o v y ys i t e0 _ _ Hv Hy Hys _ _ Hseq]; subst. apply der_enc_len in Hv, Hy, Hys, Hseq. short.
Qed.
Lemma listed_value x e : listed_as x e → encoded_value e.
Proof. intros [serial date e' _ He|serial date code n e' _ _ He]; destruct He; by eapply encoded_any. Qed.
Lemma entries_listed l encs rest : Forall2 listed_as l encs → Forall encoded_value rest → len (concat (encs ++ rest)) < DER_MAX_LEN →
  readable (reader_items (concat (encs ++ rest))) = l ++ readable (map Some rest).
Proof.
  intros Hl Hr Hlen. rewrite der_items; [|apply Forall_app; split; [|done]|done].
  2: { clear Hlen. induction Hl as [|x e l encs Hx _ IH]; constructor; [by eapply listed_value|done]. }
  rewrite map_app. apply readable_app. rewrite concat_app, len_app in Hlen. pose proof (len_nonneg (concat rest)).
  assert (len (concat encs) < DER_MAX_LEN) as Henc by lia. clear Hlen. induction Hl as [|x e l encs Hx _ IH]; [constructor|]. cbn [concat map] in *.
  rewrite len_app in Henc. pose proof (len_nonneg e). pose proof (len_nonneg (concat encs)). constructor; [|apply IH; lia].
  destruct (listed_read x e Hx ltac:(lia)) as (r & Hread & ->). by exists e, r.
Qed.
Lemma crl_revoked_len s tbs der encs : crl_enc s tbs der → len der < DER_MAX_LEN → cs_revoked s = Some encs → len (concat encs) < DER_MAX_LEN.
Proof.
  intros [oid algorithm signature [version algo this_update next_update revoked extensions _ _ _ _ _ Hrev _ Htbs] _ _ _ Hder] Hl Hs.
  rewrite Hs in Hrev. inversion Hrev as [|v e He]; subst. apply der_enc_len in He, Htbs, Hder. short.
Qed.
Lemma Crl_listed_encoded s tbs der l encs rest :
  crl_enc s tbs der → len der < DER_MAX_LEN → default [] (cs_revoked s) = encs ++ rest → Forall2 listed_as l encs → Forall encoded_value rest →
  (∀ e, head rest = Some e → RevokedCert_from_der e = None) → Crl_listed (crl_fields s tbs der) = l.
Proof.
  intros Henc Hl Hrev Hlist Hrest Hbad. unfold Crl_listed, Crl_entries. cbn [crl_fields crl_revoked_seq_value].
  destruct (cs_revoked s) as [all|] eqn:Hs; cbn [fmap option_fmap option_map mbind option_bind from_option id] in *.
  - pose proof (crl_revoked_len s tbs der all Henc Hl Hs) as Hall. unfold default in Hrev. cbn in Hrev. subst all. rewrite reader_new_ok by done.
    rewrite (entries_listed l) by done. destruct rest as [|e rest]; [by rewrite app_nil_r|]. cbn [map readable]. by rewrite (Hbad e eq_refl), app_nil_r.
  - destruct encs; [|done]. by inversion Hlist.
Qed.
End encoded.

(** ** What a list says *)

(** A list of revoked certificates is read as RFC 5280 lays it out. Parsing its DER gives
    back the issuer, the times, the algorithm and the signature, and the list itself.
    Looking a serial number up gives the first entry that has it, with its date and
    reason; but entries that stand after one that cannot be read are never seen. *)
Theorem crl_fields_exact `{DerCrate} `{!DerLaws} `{CrlCrate} `{!CrlLaws} s tbs der :
  crl_enc s tbs der → len der < DER_MAX_LEN →
  Crl_parse der = Ok (crl_fields s tbs der) ∧
  ∀ l encs rest, default [] (cs_revoked s) = encs ++ rest → Forall2 listed_as l encs → Forall encoded_value rest →
    (∀ e, head rest = Some e → RevokedCert_from_der e = None) →
    ∀ serial, Crl_find_serial (crl_fields s tbs der) serial = List.find (λ x, bool_decide (re_serial x = serial)) l.
Proof.
  intros Henc Hl. split; [by apply Crl_encoded|]. intros l encs rest Hrev Hlist Hrest Hbad serial.
  rewrite find_serial_listed. f_equal. by eapply Crl_listed_encoded.
Qed.

(** ** An instance: over the parser of the library *)

Module ber_crl.
Import ber_der.

(** The digits of a time as one number, a UTCTime with the century of RFC 5280. *)
Definition time_number (value : bytes) : DerDateTime := foldl (λ acc b, acc * 10 + (b - 0x30)) 0 (removelast value).
Definition time_from_der (e : bytes) : option DerDateTime :=
  any ← any_from_der e;
  match ar_tag any with
  | Tag_UtcTime => let n := time_number (ar_value any) in Some (n + if n <? 500000000000 then 20000000000000 else 19000000000000)
  | Tag_GeneralizedTime => Some (time_number (ar_value any))
  | _ => None
  end.
Definition extension_of (e : bytes) : option CrlExtension :=
  any ← any_from_der e;
  '(oid, rest) ← take_any (ar_value any);
  '(next, rest') ← take_any rest;
  if decide (ar_tag next = Tag_Boolean) then '(v, _) ← take_any rest'; Some (mkCrlExtension (ar_value oid) (ar_value v))
  else Some (mkCrlExtension (ar_value oid) (ar_value next)).
Definition extensions_of (r : bytes) : option (list CrlExtension) := mapM (λ item, e ← item; extension_of e) (reader_items r).
Definition revoked_from_der (e : bytes) : option RevokedCert :=
  any ← any_from_der e;
  '(serial, rest) ← take_any (ar_value any);
  '(t, rest) ← ber_der.take_tlv rest;
  date ← time_from_der t;
  if decide (len (ar_value serial) ≤ 20) then
    if is_finished rest then Some (mkRevokedCert (ar_value serial) date None)
    else '(list, _) ← take_any rest; exts ← extensions_of (ar_value list); Some (mkRevokedCert (ar_value serial) date (Some exts))
  else None.
#[export] Instance crate : CrlCrate := {| Time_from_der := time_from_der; RevokedCert_from_der := revoked_from_der |}.

Lemma take_any_encoded tag v e rest : der_enc tag v e → len (e ++ rest) < DER_MAX_LEN → take_any (e ++ rest) = Some (mkAnyRef tag v, rest).
Proof. intros He Hl. exact (der_enc_next tag v e rest He Hl). Qed.
Lemma any_encoded tag v e : der_enc tag v e → len e < DER_MAX_LEN → any_from_der e = Some (mkAnyRef tag v).
Proof. exact (der_enc_any tag v e). Qed.
Lemma tlv_encoded tag v e rest : der_enc tag v e → len (e ++ rest) < DER_MAX_LEN → ber_der.take_tlv (e ++ rest) = Some (e, rest).
Proof. exact (der_enc_take tag v e rest). Qed.
Lemma positive_serial_len s : positive_serial s → len s ≤ 20.
Proof. destruct s; cbn; [done|]. by intros (_ & ? & _). Qed.

#[export] Instance laws : CrlLaws.
Proof.
  split. intros serial date exts e Hs Hl He. cbn [RevokedCert_from_der crate]. unfold revoked_from_der. apply positive_serial_len in Hs.
  destruct He as [i t e Hi [(tag & v & _ & Ht) Hdate] He|code n o w x xs i t e Hn Ho Hw Hx Hxs Hi [(tag & v & _ & Ht) Hdate] He].
  - pose proof (der_enc_len _ _ _ He) as Hb. rewrite (any_encoded _ _ _ He) by done. cbn [mbind option_bind ar_value].
    rewrite (take_any_encoded _ _ _ _ Hi) by short. cbn [mbind option_bind]. rewrite <- (app_nil_r t).
    rewrite (tlv_encoded _ _ _ [] Ht) by (rewrite app_nil_r; short). cbn [mbind option_bind].
    change (time_from_der t = Some date) in Hdate. rewrite Hdate. cbn [mbind option_bind ar_value]. by rewrite decide_True by done.
  - pose proof (der_enc_len _ _ _ He) as Hb. pose proof (der_enc_len _ _ _ Hxs) as Hxl. pose proof (der_enc_len _ _ _ Hx) as Hol.
    rewrite (any_encoded _ _ _ He) by done. cbn [mbind option_bind ar_value].
    rewrite (take_any_encoded _ _ _ _ Hi) by short. cbn [mbind option_bind].
    rewrite (tlv_encoded _ _ _ xs Ht) by short. cbn [mbind option_bind].
    change (time_from_der t = Some date) in Hdate. rewrite Hdate. cbn [mbind option_bind ar_value]. rewrite decide_True by done. unfold is_finished.
    assert (xs ≠ []) as Hne.
    { intros ->. pose proof (der_enc_take _ _ _ [] Hxs ltac:(by vm_compute)) as Hz%tlv_bytes_takes. by destruct Hz as [_ []]. }
    rewrite bool_decide_eq_false_2 by done. rewrite <- (app_nil_r xs) at 1. rewrite (take_any_encoded _ _ _ _ Hxs) by (rewrite app_nil_r; short).
    cbn [mbind option_bind ar_value]. unfold extensions_of. rewrite <- (app_nil_r x) at 1. rewrite (reader_items_cons _ x []) by (eapply der_enc_take; [done|rewrite app_nil_r; short]).
    cbn [reader_items reader_items_fuel length mapM mbind option_bind]. unfold extension_of.
    rewrite (any_encoded _ _ _ Hx) by short. cbn [mbind option_bind ar_value].
    rewrite (take_any_encoded _ _ _ _ Ho) by short. cbn [mbind option_bind]. rewrite <- (app_nil_r w).
    rewrite (take_any_encoded _ _ _ [] Hw) by (rewrite app_nil_r; short). cbn [mbind option_bind ar_tag ar_value]. by rewrite decide_False by done.
Qed.
End ber_crl.

(** ** A list *)

Module sample_crl.
Import ber_der ber_crl dotted_texts monty flat sample_certificate.

Definition time_of (s : string) : bytes := enc Tag_UtcTime (bytes_of_string s).
Definition plain_entry (serial : bytes) : bytes := enc Tag_Sequence (enc Tag_Integer serial ++ time_of "250601120000Z").
Definition compromised_entry (serial : bytes) : bytes :=
  enc Tag_Sequence (enc Tag_Integer serial ++ time_of "250601120000Z"
    ++ enc Tag_Sequence (enc Tag_Sequence (enc Tag_ObjectIdentifier OID_CRL_REASONS ++ enc Tag_OctetString (enc Tag_Enumerated [1])))).
(** An entry whose serial number has more than 20 octets. *)
Definition long_entry : bytes := plain_entry (repeat 1 21).
Definition encs : list bytes := [compromised_entry [0x12; 0x34]; plain_entry [0x05]].
Definition rest : list bytes := [long_entry; plain_entry [0x77]].
Definition entries : list RevokedEntry :=
  [mkRevokedEntry (mkCertSerial [0x12; 0x34]) 20250601120000 (Some CrlReason_KeyCompromise);
   mkRevokedEntry (mkCertSerial [0x05]) 20250601120000 None].
Definition the_crl : crl_shape :=
  mkCrlShape (Some [1]) (enc Tag_ObjectIdentifier (Oid_as_bytes SHA256_WITH_RSA) ++ enc Tag_Null []) (name_of "Example CA")
    20250701000000 (Some 20250801000000) (Some (encs ++ rest)) (Some []) (Oid_as_bytes SHA256_WITH_RSA) (enc Tag_Null []) 0 sample_key.zero_digest_signature.
Definition crl_tbs : bytes :=
  enc Tag_Sequence (enc Tag_Integer [1] ++ enc Tag_Sequence (cs_inner_algorithm the_crl) ++ cs_issuer the_crl ++ time_of "250701000000Z"
    ++ time_of "250801000000Z" ++ enc Tag_Sequence (concat (encs ++ rest)) ++ enc CRL_EXTENSIONS_TAG []).
Definition crl_der : bytes :=
  enc Tag_Sequence (crl_tbs ++ enc Tag_Sequence (enc Tag_ObjectIdentifier (cs_algorithm the_crl) ++ cs_parameters the_crl)
    ++ enc Tag_BitString (0 :: cs_bits the_crl)).
Lemma time_of_encoded s d : (len (bytes_of_string s) <=? u32_max) = true → Time_from_der (time_of s) = Some d → time_enc d (time_of s).
Proof. intros Hl Hd. split; [|done]. exists Tag_UtcTime, (bytes_of_string s). split; [by left|]. by apply enc_encoded. Qed.
Ltac timed s := apply (time_of_encoded s); by vm_compute.
Lemma crl_encoded : crl_enc the_crl crl_tbs crl_der.
Proof.
  eapply crl_enc_intro; [|encoded|encoded|encoded|encoded].
  eapply tbs_list_intro.
  - apply optional_some. encoded.
  - encoded.
  - exists Tag_Sequence. eexists. encoded.
  - timed "250701000000Z".
  - apply some_time. timed "250801000000Z".
  - apply optional_some. encoded.
  - apply optional_some. encoded.
  - encoded.
Qed.
Lemma entries_encoded : Forall2 listed_as entries encs.
Proof.
  constructor; [|constructor; [|constructor]].
  - eapply (listed_reason [0x12; 0x34] 20250601120000 1); [split; [lia|split; [by vm_compute|lia]]|encoded|]. eapply revoked_reason; first [timed "250601120000Z"|encoded].
  - apply listed_plain; [split; [lia|split; [by vm_compute|lia]]|]. eapply revoked_plain; first [timed "250601120000Z"|encoded].
Qed.
Lemma rest_encoded : Forall encoded_value rest.
Proof. repeat constructor; exists Tag_Sequence; eexists; encoded. Qed.
End sample_crl.

Import ber_der ber_crl dotted_texts monty flat.

Lemma crl_fields_exact_witness :
  Crl_parse sample_crl.crl_der = Ok (crl_fields sample_crl.the_crl sample_crl.crl_tbs sample_crl.crl_der) ∧
  Crl_find_serial (crl_fields sample_crl.the_crl sample_crl.crl_tbs sample_crl.crl_der) (mkCertSerial [0x12; 0x34]) =
    Some (mkRevokedEntry (mkCertSerial [0x12; 0x34]) 20250601120000 (Some CrlReason_KeyCompromise)) ∧
  Crl_find_serial (crl_fields sample_crl.the_crl sample_crl.crl_tbs sample_crl.crl_der) (mkCertSerial [0x77]) = None.
Proof.
  destruct (crl_fields_exact sample_crl.the_crl sample_crl.crl_tbs sample_crl.crl_der sample_crl.crl_encoded ltac:(by vm_compute)) as [Hp Hf].
  split; [exact Hp|].
  pose proof (Hf sample_crl.entries sample_crl.encs sample_crl.rest eq_refl sample_crl.entries_encoded sample_crl.rest_encoded) as Hg.
  rewrite !Hg by (intros e [= <-]; by vm_compute). split; by vm_compute.
Defined.
