(* ===== verification/Ocsp.v ===== *)
(** crates/refineid-lib-core/src/ocsp.rs: the request that asks a responder about a
    certificate, the response taken apart, and the verification of its signature. *)

From S2P Require Import Prelude Oid Ber Der CryptoCrates Rsa Ecdsa Pace Identity X509 Crl.

Definition OID_SHA1 : bytes := [0x2B; 0x0E; 0x03; 0x02; 0x1A].
Definition OID_OCSP_NONCE : bytes := [0x2B; 0x06; 0x01; 0x05; 0x05; 0x07; 0x30; 0x01; 0x02].
Definition OCSP_TAG_INTEGER : Z := 0x02.
Definition OCSP_TAG_OCTET_STRING : Z := 0x04.
Definition OCSP_TAG_NULL : Z := 0x05.
Definition OCSP_TAG_OID : Z := 0x06.
Definition OCSP_TAG_GENERALIZED_TIME : Z := 0x18.
Definition OCSP_TAG_SEQUENCE : Z := 0x30.
Definition OCSP_TAG_CONTEXT_0_PRIMITIVE : Z := 0x80.
Definition OCSP_TAG_CONTEXT_0 : Z := 0xA0.
Definition OCSP_TAG_CONTEXT_1 : Z := 0xA1.
Definition OCSP_TAG_CONTEXT_2 : Z := 0xA2.

(** Arrays of 20 octets and of 16. *)
Record IssuerNameHash := mkIssuerNameHash { IssuerNameHash_as_bytes : bytes }.
Record IssuerKeyHash := mkIssuerKeyHash { IssuerKeyHash_as_bytes : bytes }.
Definition IssuerKeyHash_from_subject_public_key `{Sha1Hash} (spki : SpkiDer) : IssuerKeyHash := mkIssuerKeyHash (sha1_of (SpkiDer_bits spki)).
Record OcspNonce := mkOcspNonce { OcspNonce_as_bytes : bytes }.
Definition OcspNonce_random `{OsRng R} : act R (rng_failure R) OcspNonce := do! bs := rng_fill 16 in act_ret (mkOcspNonce bs).
Record OcspRequest := mkOcspRequest { OcspRequest_as_der : bytes }.

(** [GeneralizedTime::from_der(..).to_date_time()]. *)
Class OcspCrate := GeneralizedTime_from_der : bytes → option DerDateTime.

Record CertId := mkCertId { ci_hash_algorithm_oid : bytes; ci_issuer_name_hash : bytes; ci_issuer_key_hash : bytes; ci_serial : CertSerial }.
Inductive CertStatus :=
| CertStatus_Good
| CertStatus_Revoked (revoked_at : DerDateTime) (reason : option CrlReason)
| CertStatus_Unknown.
Record SingleResponse := mkSingleResponse {
  sr_cert_id : CertId; sr_status : CertStatus; sr_this_update : DerDateTime; sr_next_update : option DerDateTime }.
Inductive OcspResponseStatus :=
| Ocsp_Successful | Ocsp_MalformedRequest | Ocsp_InternalError | Ocsp_TryLater | Ocsp_SigRequired | Ocsp_Unauthorized | Ocsp_Other (b : Z).
#[export] Instance OcspResponseStatus_eq_dec : EqDecision OcspResponseStatus.
Proof. solve_decision. Defined.
Definition OcspResponseStatus_from_byte (b : Z) : OcspResponseStatus :=
  match b with
  | 0 => Ocsp_Successful
  | 1 => Ocsp_MalformedRequest
  | 2 => Ocsp_InternalError
  | 3 => Ocsp_TryLater
  | 5 => Ocsp_SigRequired
  | 6 => Ocsp_Unauthorized
  | other => Ocsp_Other other
  end.
Record BasicOcspResponse := mkBasicOcspResponse {
  bo_produced_at : DerDateTime;
  bo_responses : list SingleResponse;
  bo_tbs_response_data_der : bytes;
  bo_signature_alg_oid : bytes;
  bo_signature_bits : bytes;
  bo_embedded_cert_ders : list bytes;
  bo_nonce : option bytes;
}.
Record OcspResponse := mkOcspResponse { or_status : OcspResponseStatus; or_basic : option BasicOcspResponse }.

(** ** The request *)

Definition cert_id_tlv {E} (issuer_name_sha1 : IssuerNameHash) (issuer_key_sha1 : IssuerKeyHash) (serial : CertSerial) : result E bytes :=
  let? oid := tlv OCSP_TAG_OID OID_SHA1 in
  let? null := tlv OCSP_TAG_NULL [] in
  let? algorithm := tlv OCSP_TAG_SEQUENCE (oid ++ null) in
  let? name_hash := tlv OCSP_TAG_OCTET_STRING (IssuerNameHash_as_bytes issuer_name_sha1) in
  let? key_hash := tlv OCSP_TAG_OCTET_STRING (IssuerKeyHash_as_bytes issuer_key_sha1) in
  let? number := tlv OCSP_TAG_INTEGER (CertSerial_0 serial) in
  tlv OCSP_TAG_SEQUENCE (algorithm ++ name_hash ++ key_hash ++ number).
Definition nonce_extensions_tlv {E} (nonce : OcspNonce) : result E bytes :=
  let? oid := tlv OCSP_TAG_OID OID_OCSP_NONCE in
  let? inner := tlv OCSP_TAG_OCTET_STRING (OcspNonce_as_bytes nonce) in
  let? value := tlv OCSP_TAG_OCTET_STRING inner in
  let? extension := tlv OCSP_TAG_SEQUENCE (oid ++ value) in
  tlv OCSP_TAG_SEQUENCE extension.
Definition encode_request {E} (issuer_name_sha1 : IssuerNameHash) (issuer_key_sha1 : IssuerKeyHash) (serial : CertSerial)
    (nonce : option OcspNonce) : result E bytes :=
  let? cert_id := cert_id_tlv issuer_name_sha1 issuer_key_sha1 serial in
  let? request := tlv OCSP_TAG_SEQUENCE cert_id in
  let? request_list := tlv OCSP_TAG_SEQUENCE request in
  let? tbs_request :=
    match nonce with
    | Some nonce =>
        let? extensions := nonce_extensions_tlv nonce in
        let? request_extensions := tlv OCSP_TAG_CONTEXT_2 extensions in
        Ok (request_list ++ request_extensions)
    | None => Ok request_list
    end in
  let? tbs_request := tlv OCSP_TAG_SEQUENCE tbs_request in
  tlv OCSP_TAG_SEQUENCE tbs_request.
Definition build_request {E} (issuer_name_sha1 : IssuerNameHash) (issuer_key_sha1 : IssuerKeyHash) (serial : CertSerial) : result E OcspRequest :=
  let? der := encode_request issuer_name_sha1 issuer_key_sha1 serial None in Ok (mkOcspRequest der).
Definition build_request_with_nonce {E} (issuer_name_sha1 : IssuerNameHash) (issuer_key_sha1 : IssuerKeyHash) (serial : CertSerial)
    (nonce : OcspNonce) : result E OcspRequest :=
  let? der := encode_request issuer_name_sha1 issuer_key_sha1 serial (Some nonce) in Ok (mkOcspRequest der).
Definition matches_request (c : CertId) (issuer_name_hash : IssuerNameHash) (issuer_key_hash : IssuerKeyHash) (serial : CertSerial) : bool :=
  bool_decide (ci_hash_algorithm_oid c = OID_SHA1) && bool_decide (ci_issuer_name_hash c = IssuerNameHash_as_bytes issuer_name_hash)
  && bool_decide (ci_issuer_key_hash c = IssuerKeyHash_as_bytes issuer_key_hash) && bool_decide (ci_serial c = serial).

(** ** The response *)

Section parse.
Context `{DerCrate} `{OcspCrate}.

(** [der.first() == Some(&tag)]. *)
Definition first_is (tag : Z) (der : bytes) : bool := bool_decide (head der = Some tag).
Definition value_of (der : bytes) (what : string) : result X509Error bytes :=
  let? any := as_any what der in Ok (ar_value any).
Definition sequence_reader (der : bytes) (what : string) : result X509Error bytes :=
  if negb (first_is OCSP_TAG_SEQUENCE der) then Err (X509_UnexpectedStructure what)
  else let? value := value_of der what in open_reader what value.
Definition octet_string (reader : bytes) (what : string) : result X509Error (bytes * bytes) :=
  let? (tlv_bytes, reader) := take_tlv what reader in
  if negb (first_is OCSP_TAG_OCTET_STRING tlv_bytes) then Err (X509_UnexpectedStructure what)
  else let? value := value_of tlv_bytes what in Ok (value, reader).
Definition generalized_time (der : bytes) : result X509Error DerDateTime := ok_or (GeneralizedTime_from_der der) X509_InvalidTime.

Definition parse_cert_id (der : bytes) : result X509Error CertId :=
  let? reader := sequence_reader der "OCSP CertID" in
  let? (algorithm, reader) := take_tlv "CertID hashAlgorithm" reader in
  let? algorithm_reader := sequence_reader algorithm "CertID hashAlgorithm" in
  let? (oid_tlv, _) := take_tlv "CertID hashAlgorithm OID" algorithm_reader in
  if negb (first_is OCSP_TAG_OID oid_tlv) then Err (X509_UnexpectedStructure "CertID hashAlgorithm OID")
  else
    let? hash_algorithm_oid := value_of oid_tlv "CertID hashAlgorithm OID" in
    let? (issuer_name_hash, reader) := octet_string reader "CertID issuerNameHash" in
    let? (issuer_key_hash, reader) := octet_string reader "CertID issuerKeyHash" in
    let? (serial_tlv, _) := take_tlv "CertID serialNumber" reader in
    if negb (first_is OCSP_TAG_INTEGER serial_tlv) then Err (X509_UnexpectedStructure "CertID serialNumber")
    else
      let? serial := value_of serial_tlv "CertID serialNumber" in
      Ok (mkCertId hash_algorithm_oid issuer_name_hash issuer_key_hash (mkCertSerial serial)).

(** The fields after [revocationTime]: the last [0] holds the reason. *)
Fixpoint revoked_info_tail (items : list (option bytes)) (reason : option CrlReason) : result X509Error (option CrlReason) :=
  match items with
  | [] => Ok reason
  | item :: items =>
      let? field := ok_or item (X509_UnexpectedStructure "OCSP RevokedInfo tail") in
      if first_is OCSP_TAG_CONTEXT_0 field then
        let? enumerated := value_of field "revocationReason" in
        let? code := value_of enumerated "CRLReason" in
        revoked_info_tail items (head code ≫= CrlReason_from_code)
      else revoked_info_tail items reason
  end.
Definition parse_cert_status (der : bytes) : result X509Error CertStatus :=
  if first_is OCSP_TAG_CONTEXT_0_PRIMITIVE der then Ok CertStatus_Good
  else if first_is OCSP_TAG_CONTEXT_1 der then
    let? value := value_of der "OCSP RevokedInfo" in
    let? reader := open_reader "OCSP RevokedInfo body" value in
    let? (t, reader) := take_tlv "revocationTime" reader in
    let? revoked_at := generalized_time t in
    let? reason := revoked_info_tail (reader_items reader) None in
    Ok (CertStatus_Revoked revoked_at reason)
  else Ok CertStatus_Unknown.

(** The fields after [thisUpdate]: the last [0] holds the time of the next. *)
Fixpoint single_response_tail (items : list (option bytes)) (next_update : option DerDateTime) : result X509Error (option DerDateTime) :=
  match items with
  | [] => Ok next_update
  | item :: items =>
      let? field := ok_or item (X509_UnexpectedStructure "OCSP SingleResponse tail") in
      if first_is OCSP_TAG_CONTEXT_0 field then
        let? value := value_of field "OCSP nextUpdate" in
        let? next := generalized_time value in
        single_response_tail items (Some next)
      else single_response_tail items next_update
  end.
Definition parse_single_response (der : bytes) : result X509Error SingleResponse :=
  let? reader := sequence_reader der "OCSP SingleResponse" in
  let? (t, reader) := take_tlv "OCSP certID" reader in
  let? cert_id := parse_cert_id t in
  let? (t, reader) := take_tlv "OCSP certStatus" reader in
  let? status := parse_cert_status t in
  let? (t, reader) := take_tlv "OCSP thisUpdate" reader in
  let? this_update := generalized_time t in
  let? next_update := single_response_tail (reader_items reader) None in
  Ok (mkSingleResponse cert_id status this_update next_update).

(** The first OCTET STRING after the identifier of an extension. *)
Fixpoint nonce_value (items : list (option bytes)) : result X509Error (option bytes) :=
  match items with
  | [] => Ok None
  | item :: items =>
      let? field := ok_or item (X509_UnexpectedStructure "OCSP extnValue") in
      if first_is OCSP_TAG_OCTET_STRING field then
        let? inner := value_of field "OCSP extnValue" in
        if first_is OCSP_TAG_OCTET_STRING inner then let? nonce := value_of inner "OCSP nonce" in Ok (Some nonce)
        else Ok (Some inner)
      else nonce_value items
  end.
Fixpoint nonce_extension (items : list (option bytes)) : result X509Error (option bytes) :=
  match items with
  | [] => Ok None
  | item :: items =>
      let? extension := ok_or item (X509_UnexpectedStructure "OCSP Extension") in
      let? fields := sequence_reader extension "OCSP Extension body" in
      let? (oid_tlv, fields) := take_tlv "OCSP Extension OID" fields in
      let? oid := value_of oid_tlv "OCSP Extension OID" in
      if negb (bool_decide (oid = OID_OCSP_NONCE)) then nonce_extension items
      else
        let? found := nonce_value (reader_items fields) in
        match found with Some nonce => Ok (Some nonce) | None => nonce_extension items end
  end.
Definition nonce_from_extensions (extensions : bytes) : result X509Error (option bytes) :=
  let? reader := sequence_reader extensions "OCSP Extensions" in nonce_extension (reader_items reader).

Fixpoint response_list (items : list (option bytes)) (responses : list SingleResponse) : result X509Error (list SingleResponse) :=
  match items with
  | [] => Ok responses
  | item :: items =>
      let? entry := ok_or item (X509_UnexpectedStructure "OCSP SingleResponse") in
      let? single := parse_single_response entry in
      response_list items (responses ++ [single])
  end.
Record ResponseDataParts := mkParts { rd_produced_at : option DerDateTime; rd_responses : list SingleResponse; rd_nonce : option bytes }.
Definition response_data_field (s : ResponseDataParts) (field : bytes) : result X509Error ResponseDataParts :=
  if first_is OCSP_TAG_GENERALIZED_TIME field then
    let? produced_at := generalized_time field in Ok (mkParts (Some produced_at) (rd_responses s) (rd_nonce s))
  else if first_is OCSP_TAG_SEQUENCE field then
    let? list := sequence_reader field "OCSP responses" in
    let? responses := response_list (reader_items list) (rd_responses s) in
    Ok (mkParts (rd_produced_at s) responses (rd_nonce s))
  else if first_is OCSP_TAG_CONTEXT_1 field && bool_decide (is_Some (rd_produced_at s)) then
    let? value := value_of field "OCSP extensions" in
    let? nonce := nonce_from_extensions value in
    Ok (mkParts (rd_produced_at s) (rd_responses s) nonce)
  else Ok s.
Fixpoint response_data_fields (items : list (option bytes)) (s : ResponseDataParts) : result X509Error ResponseDataParts :=
  match items with
  | [] => Ok s
  | item :: items =>
      let? field := ok_or item (X509_UnexpectedStructure "OCSP ResponseData field") in
      let? s := response_data_field s field in
      response_data_fields items s
  end.
Definition parse_response_data (der : bytes) : result X509Error (DerDateTime * list SingleResponse * option bytes) :=
  let? reader := sequence_reader der "OCSP tbsResponseData" in
  let? s := response_data_fields (reader_items reader) (mkParts None [] None) in
  let? produced_at := ok_or (rd_produced_at s) (X509_UnexpectedStructure "OCSP producedAt missing") in
  Ok (produced_at, rd_responses s, rd_nonce s).

Fixpoint embedded_certs (items : list (option bytes)) (ders : list bytes) : result X509Error (list bytes) :=
  match items with
  | [] => Ok ders
  | item :: items => let? cert_der := ok_or item (X509_UnexpectedStructure "OCSP embedded cert") in embedded_certs items (ders ++ [cert_der])
  end.
Definition embedded_cert_field (reader : bytes) : result X509Error (list bytes) :=
  if is_finished reader then Ok []
  else
    let? (certs_explicit_der, _) := take_tlv "OCSP certs field" reader in
    let? certs_explicit := as_any "OCSP certs field" certs_explicit_der in
    if first_is OCSP_TAG_CONTEXT_0 certs_explicit_der then
      let? certs_seq := as_any "OCSP certs not SEQUENCE" (ar_value certs_explicit) in
      let? certs_reader := open_reader "OCSP certs body" (ar_value certs_seq) in
      embedded_certs (reader_items certs_reader) []
    else Ok [].
Definition BasicOcspResponse_parse (der : bytes) : result X509Error BasicOcspResponse :=
  let? outer := as_any "BasicOCSPResponse not a TLV" der in
  if negb (bool_decide (ar_tag outer = Tag_Sequence)) then Err (X509_UnexpectedStructure "BasicOCSPResponse not SEQUENCE")
  else
    let? reader := open_reader "BasicOCSPResponse body" (ar_value outer) in
    let? (tbs_response_data_der, reader) := take_tlv "tbsResponseData" reader in
    let? (signature_alg_oid, reader) := read_signature_algorithm "OCSP signatureAlgorithm" reader in
    let? (signature_bits, reader) := read_signature_bits "OCSP signature" reader in
    let? embedded_cert_ders := embedded_cert_field reader in
    let? (produced_at, responses, nonce) := parse_response_data tbs_response_data_der in
    Ok (mkBasicOcspResponse produced_at responses tbs_response_data_der signature_alg_oid signature_bits embedded_cert_ders nonce).

Context `{ConstOid}.
(** [responseBytes]: the basic response, when it is one. *)
Definition response_bytes (reader : bytes) : result X509Error (option BasicOcspResponse) :=
  let? (rb_explicit_der, _) := take_tlv "OCSP responseBytes" reader in
  let? rb_explicit := as_any "OCSP responseBytes" rb_explicit_der in
  if negb (first_is OCSP_TAG_CONTEXT_0 rb_explicit_der) then Ok None
  else
    let? rb_seq := as_any "OCSP responseBytes not SEQUENCE" (ar_value rb_explicit) in
    let? rb_reader := open_reader "OCSP responseBytes body" (ar_value rb_seq) in
    let? (t, rb_reader) := take_tlv "missing responseType" rb_reader in
    let? rtype := as_any "missing responseType" t in
    if negb (bool_decide (ar_tag rtype = Tag_ObjectIdentifier) && bool_decide (ar_value rtype = Oid_as_bytes BASIC_OCSP_RESPONSE)) then Ok None
    else
      let? (t, _) := take_tlv "missing response octet" rb_reader in
      let? resp_octet := as_any "missing response octet" t in
      if negb (bool_decide (ar_tag resp_octet = Tag_OctetString)) then Err (X509_UnexpectedStructure "response field not OCTET STRING")
      else let? basic := BasicOcspResponse_parse (ar_value resp_octet) in Ok (Some basic).
Definition OcspResponse_parse (der : bytes) : result X509Error OcspResponse :=
  let? outer := as_any "OCSP not a TLV" der in
  if negb (bool_decide (ar_tag outer = Tag_Sequence)) then Err (X509_UnexpectedStructure "OCSP not SEQUENCE")
  else
    let? reader := open_reader "OCSP body" (ar_value outer) in
    let? (t, reader) := take_tlv "missing responseStatus" reader in
    let? status_any := as_any "missing responseStatus" t in
    if negb (bool_decide (ar_tag status_any = Tag_Enumerated)) then Err (X509_UnexpectedStructure "malformed responseStatus")
    else
      match ar_value status_any with
      | [status_byte] =>
          let status := OcspResponseStatus_from_byte status_byte in
          let? basic := if bool_decide (status = Ocsp_Successful) && negb (is_finished reader) then response_bytes reader else Ok None in
          Ok (mkOcspResponse status basic)
      | _ => Err (X509_UnexpectedStructure "malformed responseStatus")
      end.

(** ** Owned responses *)

Record OwnedOcspResponse := mkOwnedOcspResponse { oocsp_der : bytes }.
Definition OwnedOcspResponse_from_der (der : bytes) : result X509Error OwnedOcspResponse :=
  let? _ := OcspResponse_parse der in Ok (mkOwnedOcspResponse der).
(** [expect]. *)
Definition OwnedOcspResponse_view {F} (o : OwnedOcspResponse) : result F OcspResponse :=
  match OcspResponse_parse (oocsp_der o) with Ok v => Ok v | _ => Panic end.
Definition OwnedOcspResponse_as_der (o : OwnedOcspResponse) : bytes := oocsp_der o.

(** ** Signatures *)

Context `{BoxedMonty} `{Sha1Hash} `{Sha256Hash} `{Sha2Hashes}.
Definition BasicOcspResponse_verify_signature (b : BasicOcspResponse) (signer_spki_der : bytes) : result VerifyError unit :=
  verify_tbs_signature (mkTbsSignature (bo_tbs_response_data_der b) (bo_signature_alg_oid b) (bo_signature_bits b) signer_spki_der).
Record VerifiedOcspResponse := mkVerifiedOcspResponse { vo_basic : BasicOcspResponse }.
Definition VerifiedOcspResponse_verify (basic : BasicOcspResponse) (signer_spki : SpkiDer) : result VerifyError VerifiedOcspResponse :=
  let? _ := BasicOcspResponse_verify_signature basic (SpkiDer_as_der signer_spki) in Ok (mkVerifiedOcspResponse basic).
Definition VerifiedOcspResponse_single_responses (v : VerifiedOcspResponse) : list SingleResponse := bo_responses (vo_basic v).
End parse.

(** ** An encoded response *)

(** The identifiers written out above are those of their dotted texts. *)
Lemma literal_body `{ConstOid} `{!ConstOidLaws} s a body : bytes_of_string s = dotted a → arcs_ok a = true → encode_arcs a = body → new_unwrap s = body.
Proof. intros Hs Ha <-. apply new_unwrap_encodes; [done|]. by apply arcs_ok_spec. Qed.
Lemma oid_bodies `{ConstOid} `{!ConstOidLaws} :
  new_unwrap "1.3.14.3.2.26" = OID_SHA1 ∧ new_unwrap "1.3.6.1.5.5.7.48.1.2" = OID_OCSP_NONCE ∧ new_unwrap "2.5.29.21" = OID_CRL_REASONS.
Proof.
  split; [|split]; [apply (literal_body _ (mkArcs 1 3 [14; 3; 2; 26]))|apply (literal_body _ (mkArcs 1 3 [6; 1; 5; 5; 7; 48; 1; 2]))|
    apply (literal_body _ (mkArcs 2 5 [29; 21]))]; by vm_compute.
Qed.

Definition context_tag (n : Z) : DerTag := Tag_ContextSpecific true n.

Section layout.
Context `{DerCrate} `{!DerLaws} `{OcspCrate}.

(** The encoding of a GeneralizedTime that is read as [date]. *)
Definition gen_time_enc (date : DerDateTime) (e : bytes) : Prop := (∃ v, der_enc Tag_GeneralizedTime v e) ∧ GeneralizedTime_from_der e = Some date.
Inductive cert_id_enc (c : CertId) (e : bytes) : Prop :=
| cert_id_intro oid params algorithm name_hash key_hash serial :
    der_enc Tag_ObjectIdentifier (ci_hash_algorithm_oid c) oid → der_enc Tag_Sequence (oid ++ params) algorithm →
    der_enc Tag_OctetString (ci_issuer_name_hash c) name_hash → der_enc Tag_OctetString (ci_issuer_key_hash c) key_hash →
    der_enc Tag_Integer (CertSerial_0 (ci_serial c)) serial →
    der_enc Tag_Sequence (algorithm ++ name_hash ++ key_hash ++ serial) e → cert_id_enc c e.
Inductive status_enc : CertStatus → bytes → Prop :=
| status_good e : der_enc (Tag_ContextSpecific false 0) [] e → status_enc CertStatus_Good e
| status_unknown e : der_enc (Tag_ContextSpecific false 2) [] e → status_enc CertStatus_Unknown e
| status_revoked d t e : gen_time_enc d t → der_enc (context_tag 1) t e → status_enc (CertStatus_Revoked d None) e
| status_reason d code t n r e : gen_time_enc d t → der_enc Tag_Enumerated [code] n → der_enc (context_tag 0) n r →
    der_enc (context_tag 1) (t ++ r) e → status_enc (CertStatus_Revoked d (CrlReason_from_code code)) e.
Inductive next_enc : option DerDateTime → bytes → Prop :=
| next_none : next_enc None []
| next_some d t e : gen_time_enc d t → der_enc (context_tag 0) t e → next_enc (Some d) e.
Inductive single_enc (s : SingleResponse) (e : bytes) : Prop :=
| single_intro cert_id status this_update next_update extensions x :
    cert_id_enc (sr_cert_id s) cert_id → status_enc (sr_status s) status → gen_time_enc (sr_this_update s) this_update →
    next_enc (sr_next_update s) next_update → optional_enc (context_tag 1) x extensions →
    der_enc Tag_Sequence (cert_id ++ status ++ this_update ++ next_update ++ extensions) e → single_enc s e.
(** The nonce is in the first extension with its identifier. *)
Inductive nonce_in : list extension → option bytes → Prop :=
| nonce_absent : nonce_in [] None
| nonce_later x l n : ext_oid x ≠ mkOid OID_OCSP_NONCE → nonce_in l n → nonce_in (x :: l) n
| nonce_here x l n : ext_oid x = mkOid OID_OCSP_NONCE → der_enc Tag_OctetString n (ext_value x) → nonce_in (x :: l) (Some n).
Inductive response_extensions_enc : option bytes → bytes → Prop :=
| response_extensions_none : response_extensions_enc None []
| response_extensions_some exts encs w e n : Forall2 ext_enc exts encs → der_enc Tag_Sequence (concat encs) w → der_enc (context_tag 1) w e →
    nonce_in exts n → response_extensions_enc n e.
(** A ResponseData of version 1, or with its version written out. *)
Inductive response_data_enc (produced_at : DerDateTime) (singles : list SingleResponse) (nonce : option bytes) (tbs : bytes) : Prop :=
| response_data_intro version v n name responder produced encs list extensions :
    optional_enc (context_tag 0) v version → n = 1 ∨ n = 2 → der_enc (context_tag n) name responder → gen_time_enc produced_at produced →
    Forall2 single_enc singles encs → der_enc Tag_Sequence (concat encs) list → response_extensions_enc nonce extensions →
    der_enc Tag_Sequence (version ++ responder ++ produced ++ list ++ extensions) tbs → response_data_enc produced_at singles nonce tbs.
Inductive embedded_enc : list bytes → bytes → Prop :=
| embedded_none : embedded_enc [] []
| embedded_some ders w e : Forall encoded_value ders → der_enc Tag_Sequence (concat ders) w → der_enc (context_tag 0) w e → embedded_enc ders e.
Inductive basic_enc (b : BasicOcspResponse) (e : bytes) : Prop :=
| basic_intro oid params algorithm unused signature certs :
    response_data_enc (bo_produced_at b) (bo_responses b) (bo_nonce b) (bo_tbs_response_data_der b) →
    der_enc Tag_ObjectIdentifier (bo_signature_alg_oid b) oid → der_enc Tag_Sequence (oid ++ params) algorithm →
    der_enc Tag_BitString (unused :: bo_signature_bits b) signature → embedded_enc (bo_embedded_cert_ders b) certs →
    der_enc Tag_Sequence (bo_tbs_response_data_der b ++ algorithm ++ signature ++ certs) e → basic_enc b e.
Context `{ConstOid}.
Inductive response_enc (b : BasicOcspResponse) (e : bytes) : Prop :=
| response_intro status oid basic octets w x :
    der_enc Tag_Enumerated [0] status → der_enc Tag_ObjectIdentifier (Oid_as_bytes BASIC_OCSP_RESPONSE) oid → basic_enc b basic →
    der_enc Tag_OctetString basic octets → der_enc Tag_Sequence (oid ++ octets) w → der_enc (context_tag 0) w x →
    der_enc Tag_Sequence (status ++ x) e → response_enc b e.
End layout.

Section read.
Context `{DerCrate} `{!DerLaws} `{OcspCrate}.

Lemma der_enc_cons tag v e : der_enc tag v e → ∃ l, e = tag_octet tag :: l.
Proof.
  intros [_ He]. unfold tlv, BerEncoder_push_tlv in He. apply result_bind_inv_ok in He as (out & Ho & [= <-]).
  unfold BerEncoder_push_length in Ho. repeat (case_match; try done); injection Ho as <-; by eexists.
Qed.
Lemma first_is_enc tag v e t : der_enc tag v e → first_is t e = bool_decide (tag_octet tag = t).
Proof. intros (l & ->)%der_enc_cons. unfold first_is. cbn [head]. apply bool_decide_ext. split; congruence. Qed.
Lemma not_finished tag v e : der_enc tag v e → is_finished e = false.
Proof. by intros (l & ->)%der_enc_cons. Qed.
Lemma value_of_enc what tag v e : der_enc tag v e → len e < DER_MAX_LEN → value_of e what = Ok v.
Proof. intros He Hl. unfold value_of. by rewrite (as_any_encoded _ _ _ _ He). Qed.
Lemma sequence_reader_enc what v e : der_enc Tag_Sequence v e → len e < DER_MAX_LEN → sequence_reader e what = Ok v.
Proof.
  intros He Hl. unfold sequence_reader. rewrite (first_is_enc _ _ _ _ He). cbn [tag_octet]. rewrite bool_decide_eq_true_2 by done. cbn [negb].
  rewrite (value_of_enc _ _ _ _ He) by done. cbn [result_bind]. apply der_enc_len in He. apply open_reader_ok. lia.
Qed.
Lemma octet_string_enc what v e rest : der_enc Tag_OctetString v e → len (e ++ rest) < DER_MAX_LEN → octet_string (e ++ rest) what = Ok (v, rest).
Proof.
  intros He Hl. unfold octet_string. rewrite take_tlv_encoded by (by eapply encoded_any || done). cbn [result_bind].
  rewrite (first_is_enc _ _ _ _ He). cbn [tag_octet]. rewrite bool_decide_eq_true_2 by done. cbn [negb].
  by rewrite (value_of_enc _ _ _ _ He) by short.
Qed.
Lemma gen_time_read d e : gen_time_enc d e → generalized_time e = Ok d.
Proof. intros [_ Hd]. unfold generalized_time. by rewrite Hd. Qed.
Lemma gen_time_value d e : gen_time_enc d e → encoded_value e.
Proof. intros [[v He] _]. by eapply encoded_any. Qed.
Lemma take_last what e : encoded_value e → len e < DER_MAX_LEN → take_tlv what e = Ok (e, []).
Proof. intros He Hl. rewrite <- (app_nil_r e) at 1. apply take_tlv_encoded; [done|]. by rewrite app_nil_r. Qed.
Lemma items_cons e rest : encoded_value e → len (e ++ rest) < DER_MAX_LEN → reader_items (e ++ rest) = Some e :: reader_items rest.
Proof. intros (tag & v & He) Hl. apply reader_items_cons. by eapply der_enc_take. Qed.
Lemma items_one e : encoded_value e → len e < DER_MAX_LEN → reader_items e = [Some e].
Proof. intros He Hl. rewrite <- (app_nil_r e) at 1. rewrite items_cons by (done || by rewrite app_nil_r). done. Qed.

(** One step of a reader over encoded fields. *)
Ltac valued := first [assumption|by eapply encoded_any|by eapply gen_time_value].
Ltac field := first
  [erewrite first_is_enc by eassumption; cbn [tag_octet context_tag]; first [rewrite bool_decide_eq_true_2 by reflexivity|rewrite bool_decide_eq_false_2 by discriminate]
  |rewrite take_tlv_encoded by (valued || short)|rewrite take_last by (valued || short)
  |erewrite sequence_reader_enc by (eassumption || short)|erewrite octet_string_enc by (eassumption || short)
  |erewrite value_of_enc by (eassumption || short)|erewrite gen_time_read by eassumption
  |erewrite as_any_encoded by (eassumption || short)|rewrite open_reader_ok by short];
  cbn [result_bind ok_or negb ar_tag ar_value app].
Ltac fields := repeat field.

Lemma cert_id_read c e : cert_id_enc c e → len e < DER_MAX_LEN → parse_cert_id e = Ok c.
Proof.
  intros [oid params algorithm name_hash key_hash serial Hoid Halg Hn Hk Hs He] Hl. pose proof (der_enc_len _ _ _ He). pose proof (der_enc_len _ _ _ Halg).
  unfold parse_cert_id. fields. by destruct c as [? ? ? []].
Qed.
Lemma cert_id_value c e : cert_id_enc c e → encoded_value e.
Proof. intros []. by eapply encoded_any. Qed.
Lemma status_value s e : status_enc s e → encoded_value e.
Proof. intros []; by eapply encoded_any. Qed.
Lemma status_read s e : status_enc s e → len e < DER_MAX_LEN → parse_cert_status e = Ok s.
Proof.
  intros Hs Hl. unfold parse_cert_status. destruct Hs as [e He|e He|d t e Ht He|d code t n r e Ht Hn Hr He]; fields; pose proof (der_enc_len _ _ _ He).
  1-2: done.
  - by fields.
  - pose proof (der_enc_len _ _ _ Hr). fields. rewrite items_one by (valued || short). cbn [revoked_info_tail ok_or result_bind]. by fields.
Qed.
Lemma single_value s e : single_enc s e → encoded_value e.
Proof. intros []. by eapply encoded_any. Qed.
Lemma single_tail_read next next_update x extensions :
  next_enc next next_update → optional_enc (context_tag 1) x extensions → len (next_update ++ extensions) < DER_MAX_LEN →
  single_response_tail (reader_items (next_update ++ extensions)) None = Ok next.
Proof.
  intros Hn Hx Hl. assert (∀ a, single_response_tail (reader_items extensions) a = Ok a) as Hext.
  { intros a. destruct Hx as [|v e He]; [done|]. rewrite items_one by (valued || short). cbn [single_response_tail ok_or result_bind].
    by fields. }
  destruct Hn as [|d t e Ht He]; [apply Hext|]. rewrite items_cons by (valued || short). cbn [single_response_tail ok_or result_bind].
  pose proof (der_enc_len _ _ _ He). fields. apply Hext.
Qed.
Lemma single_read s e : single_enc s e → len e < DER_MAX_LEN → parse_single_response e = Ok s.
Proof.
  intros [cert_id status this_update next_update extensions x Hc Hst Ht Hn Hx He] Hl. pose proof (der_enc_len _ _ _ He).
  pose proof (cert_id_value _ _ Hc). pose proof (status_value _ _ Hst).
  unfold parse_single_response. fields. rewrite (cert_id_read _ _ Hc) by short. cbn [result_bind]. fields. rewrite (status_read _ _ Hst) by short.
  cbn [result_bind]. fields. rewrite (single_tail_read _ _ _ _ Hn Hx) by short. by destruct s.
Qed.

Lemma response_list_read singles encs acc : Forall2 single_enc singles encs → len (concat encs) < DER_MAX_LEN →
  response_list (map Some encs) acc = Ok (acc ++ singles).
Proof.
  intros Hs. revert acc. induction Hs as [|s e singles encs Hs _ IH]; intros acc Hl; [by rewrite app_nil_r|]. cbn [map concat response_list ok_or result_bind] in *.
  rewrite (single_read _ _ Hs) by short. cbn [result_bind]. rewrite IH by short. by rewrite <- app_assoc.
Qed.
Lemma Forall2_values {A} (P : A → bytes → Prop) l encs : (∀ x e, P x e → encoded_value e) → Forall2 P l encs → Forall encoded_value encs.
Proof. intros HP. induction 1; constructor; [by eapply HP|done]. Qed.
Lemma ext_fields x e : ext_enc x e → len e < DER_MAX_LEN → ∃ o fields v, encoded_value o ∧
  sequence_reader e "OCSP Extension body" = Ok (o ++ fields) ∧ len (o ++ fields) <= len e ∧ len v <= len e ∧
  value_of o "OCSP Extension OID" = Ok (Oid_as_bytes (ext_oid x)) ∧ der_enc Tag_OctetString (ext_value x) v ∧
  nonce_value (reader_items fields) = nonce_value [Some v].
Proof.
  intros [o v e' Hc Ho Hv He|b o c v e' Hc Ho Hb Hv He] Hl; pose proof (der_enc_len _ _ _ He); eexists o, _, v;
    (split; [valued|split; [eapply sequence_reader_enc; eassumption|split; [done|split; [short|split; [eapply value_of_enc; [eassumption|short]|split; [done|]]]]]]).
  - by rewrite items_one by (valued || short).
  - rewrite items_cons, items_one by (valued || short). cbn [nonce_value ok_or result_bind]. rewrite (first_is_enc _ _ _ _ Hb). cbn [tag_octet].
    by rewrite bool_decide_eq_false_2.
Qed.
Lemma nonce_read exts encs n : Forall2 ext_enc exts encs → nonce_in exts n → len (concat encs) < DER_MAX_LEN → nonce_extension (map Some encs) = Ok n.
Proof.
  intros He. revert n. induction He as [|x e exts encs Hx _ IH]; intros n Hn Hl; [by inversion Hn|]. cbn [map concat nonce_extension ok_or result_bind] in *.
  destruct (ext_fields x e Hx ltac:(short)) as (o & fields & v & Ho & -> & Hb & Hve & Hoid & Hv & Hval). cbn [result_bind].
  rewrite take_tlv_encoded by (valued || short). cbn [result_bind]. rewrite Hoid. cbn [result_bind].
  assert (∀ body, bool_decide (Oid_as_bytes (ext_oid x) = body) = bool_decide (ext_oid x = mkOid body)) as ->.
  { intros body. apply bool_decide_ext. destruct (ext_oid x). cbn. split; congruence. }
  inversion Hn as [|x' l n' Hne Hl'|x' l n' Heq Hnv]; subst.
  - rewrite bool_decide_eq_false_2 by done. cbn [negb]. apply IH; [done|short].
  - rewrite bool_decide_eq_true_2 by done. cbn [negb]. rewrite Hval. cbn [nonce_value ok_or result_bind].
    pose proof (der_enc_len _ _ _ Hv). by fields.
Qed.

Lemma response_data_read produced_at singles nonce tbs : response_data_enc produced_at singles nonce tbs → len tbs < DER_MAX_LEN →
  parse_response_data tbs = Ok (produced_at, singles, nonce).
Proof.
  intros [version v n name responder produced encs list extensions Hver Hn Hresp Hprod Hsingles Hlist Hext He] Hl. pose proof (der_enc_len _ _ _ He).
  unfold parse_response_data. field. pose proof (gen_time_value _ _ Hprod) as Hpv.
  assert (∀ s, rd_produced_at s = Some produced_at → rd_responses s = singles → rd_nonce s = None →
    response_data_fields (reader_items extensions) s = Ok (mkParts (Some produced_at) singles nonce)) as Hx.
  { intros [p r m] Hp Hr Hm. cbn in Hp, Hr, Hm. subst p r m. destruct Hext as [|exts encs' w e' n' Hexts Hw He' Hin]; [done|].
    rewrite items_one by (valued || short). cbn [response_data_fields ok_or result_bind]. unfold response_data_field. fields.
    cbn [rd_produced_at rd_responses rd_nonce]. rewrite bool_decide_eq_true_2 by done. cbn [andb]. pose proof (der_enc_len _ _ _ He'). fields.
    unfold nonce_from_extensions. fields. pose proof (der_enc_len _ _ _ Hw). rewrite der_items; [|eapply Forall2_values; [|done]; apply ext_enc_sequence|short].
    rewrite (nonce_read _ _ _ Hexts Hin) by short. done. }
  assert (∀ s, rd_produced_at s = Some produced_at → rd_responses s = [] → rd_nonce s = None →
    response_data_fields (reader_items (list ++ extensions)) s = Ok (mkParts (Some produced_at) singles nonce)) as Hsx.
  { intros s Hp Hr Hm. rewrite items_cons by (valued || short). cbn [response_data_fields ok_or result_bind]. unfold response_data_field. fields.
    pose proof (der_enc_len _ _ _ Hlist). rewrite der_items; [|eapply Forall2_values; [|done]; apply single_value|short].
    rewrite (response_list_read _ _ _ Hsingles) by short. cbn [result_bind]. apply Hx; [done|by rewrite Hr|done]. }
  assert (response_data_fields (reader_items (responder ++ produced ++ list ++ extensions)) (mkParts None [] None) = Ok (mkParts (Some produced_at) singles nonce)) as Hall.
  { rewrite items_cons by (valued || short). cbn [response_data_fields ok_or result_bind].
    assert (response_data_field (mkParts None [] None) responder = Ok (mkParts None [] None)) as ->.
    { unfold response_data_field. destruct Hn as [-> | ->]; by fields. }
    cbn [result_bind]. rewrite items_cons by (valued || short). cbn [response_data_fields ok_or result_bind]. unfold response_data_field.
    pose proof Hprod as [[v' Hv'] _]. fields. by apply Hsx. }
  assert (response_data_fields (reader_items (version ++ responder ++ produced ++ list ++ extensions)) (mkParts None [] None) = Ok (mkParts (Some produced_at) singles nonce)) as ->; [|done].
  destruct Hver as [|w e' He']; [done|]. rewrite items_cons by (valued || short). cbn [response_data_fields ok_or result_bind].
  unfold response_data_field. fields. done.
Qed.

Lemma embedded_read ders certs : embedded_enc ders certs → len certs < DER_MAX_LEN → embedded_cert_field certs = Ok ders.
Proof.
  intros He Hl. unfold embedded_cert_field. destruct He as [|ders w e Hd Hw He]; [done|]. rewrite (not_finished _ _ _ He).
  pose proof (der_enc_len _ _ _ He). pose proof (der_enc_len _ _ _ Hw). fields. rewrite der_items by (done || short).
  assert (∀ acc, embedded_certs (map Some ders) acc = Ok (acc ++ ders)) as ->; [|done].
  clear. induction ders as [|d ders IH]; intros acc; [by rewrite app_nil_r|]. cbn [map embedded_certs ok_or result_bind]. by rewrite IH, <- app_assoc.
Qed.
Lemma basic_read b e : basic_enc b e → len e < DER_MAX_LEN → BasicOcspResponse_parse e = Ok b.
Proof.
  intros [oid params algorithm unused signature certs Hdata Hoid Halg Hsig Hcerts He] Hl. unfold BasicOcspResponse_parse. pose proof (der_enc_len _ _ _ He).
  assert (encoded_value (bo_tbs_response_data_der b)) as Htbs by (destruct Hdata; valued).
  field. rewrite bool_decide_eq_true_2 by done. fields. rewrite (read_signature_algorithm_encoded _ _ _ _ _ _ Hoid Halg) by short. cbn [result_bind].
  rewrite (read_signature_bits_encoded _ _ _ _ _ Hsig) by short. cbn [result_bind]. rewrite (embedded_read _ _ Hcerts) by short. cbn [result_bind].
  rewrite (response_data_read _ _ _ _ Hdata) by short. by destruct b.
Qed.

Context `{ConstOid}.
Lemma response_read b e : response_enc b e → len e < DER_MAX_LEN → OcspResponse_parse e = Ok (mkOcspResponse Ocsp_Successful (Some b)).
Proof.
  intros [status oid basic octets w x Hst Hoid Hbasic Hoct Hw Hx He] Hl. pose proof (der_enc_len _ _ _ He). pose proof (der_enc_len _ _ _ Hx).
  pose proof (der_enc_len _ _ _ Hw). pose proof (der_enc_len _ _ _ Hoct). unfold OcspResponse_parse. fields. rewrite bool_decide_eq_true_2 by done. fields.
  rewrite bool_decide_eq_true_2 by done. cbn [negb OcspResponseStatus_from_byte]. rewrite bool_decide_eq_true_2 by done. rewrite (not_finished _ _ _ Hx). cbn [andb negb].
  unfold response_bytes. fields. rewrite !bool_decide_eq_true_2 by done. cbn [andb negb]. fields.
  by rewrite (basic_read _ _ Hbasic) by short.
Qed.
Lemma refusal_read code status rest e : der_enc Tag_Enumerated [code] status → der_enc Tag_Sequence (status ++ rest) e → len e < DER_MAX_LEN → code ≠ 0 →
  OcspResponse_parse e = Ok (mkOcspResponse (OcspResponseStatus_from_byte code) None).
Proof.
  intros Hst He Hl Hc. pose proof (der_enc_len _ _ _ He). unfold OcspResponse_parse. fields. rewrite bool_decide_eq_true_2 by done. fields.
  rewrite bool_decide_eq_true_2 by done. cbn [negb].
  assert (OcspResponseStatus_from_byte code ≠ Ocsp_Successful) by (unfold OcspResponseStatus_from_byte; repeat case_match; done). by rewrite bool_decide_eq_false_2.
Qed.
End read.

(** C37: A response of a responder is read as RFC 6960 lays it out. A successful basic response
    gives back what the responder said of each certificate, in order, with the times, the
    reason of a revocation, the nonce, the algorithm, the signature and the certificates
    sent along; a response with another status gives that status and nothing else. *)
Theorem ocsp_response_exact `{DerCrate} `{!DerLaws} `{OcspCrate} `{ConstOid} :
  (∀ b der, response_enc b der → len der < DER_MAX_LEN → OcspResponse_parse der = Ok (mkOcspResponse Ocsp_Successful (Some b))) ∧
  (∀ code status rest der, der_enc Tag_Enumerated [code] status → der_enc Tag_Sequence (status ++ rest) der → len der < DER_MAX_LEN → code ≠ 0 →
    OcspResponse_parse der = Ok (mkOcspResponse (OcspResponseStatus_from_byte code) None)).
Proof. split; [apply response_read|apply refusal_read]. Qed.

(** ** An encoded request *)

Section request.
Context `{DerCrate} `{!DerLaws}.

Inductive request_extensions_enc : option OcspNonce → bytes → Prop :=
| request_extensions_none : request_extensions_enc None []
| request_extensions_some n exts encs w e : Forall2 ext_enc exts encs → nonce_in exts (Some (OcspNonce_as_bytes n)) →
    der_enc Tag_Sequence (concat encs) w → der_enc (context_tag 2) w e → request_extensions_enc (Some n) e.
(** An OCSPRequest about one certificate. *)
Inductive request_enc (c : CertId) (nonce : option OcspNonce) (der : bytes) : Prop :=
| request_intro cert_id request list extensions tbs :
    cert_id_enc c cert_id → der_enc Tag_Sequence cert_id request → der_enc Tag_Sequence request list → request_extensions_enc nonce extensions →
    der_enc Tag_Sequence (list ++ extensions) tbs → der_enc Tag_Sequence tbs der → request_enc c nonce der.

Lemma tlv_enc tag v : plain_tag tag → len v ≤ u32_max → ∃ e, tlv (E := unit) (tag_octet tag) v = Ok e ∧ der_enc tag v e ∧ len e ≤ len v + 6.
Proof.
  intros Ht Hv. destruct (@tlv_ok unit (tag_octet tag) v Hv) as (lb & He & _ & _ & Hlb). eexists. split; [exact He|]. split; [by split|].
  rewrite len_cons, len_app. lia.
Qed.
(** The next field of a writer. *)
Ltac encode tag v e H :=
  let R := fresh in let L := fresh in
  destruct (tlv_enc tag v) as (e & R & H & L); [done || (cbn; lia)|unfold u32_max in *; short|];
  change (tlv (E := unit) ltac:(let t := eval compute in (tag_octet tag) in exact t) v = Ok e) in R; rewrite R; clear R; cbn [result_bind].
Definition request_cert_id (name : IssuerNameHash) (key : IssuerKeyHash) (serial : CertSerial) : CertId :=
  mkCertId OID_SHA1 (IssuerNameHash_as_bytes name) (IssuerKeyHash_as_bytes key) serial.

Lemma cert_id_written name key serial : len (IssuerNameHash_as_bytes name ++ IssuerKeyHash_as_bytes key ++ CertSerial_0 serial) ≤ 2 ^ 16 →
  ∃ e, cert_id_tlv (E := unit) name key serial = Ok e ∧ cert_id_enc (request_cert_id name key serial) e ∧ len e ≤ 2 ^ 17.
Proof.
  intros Hl. unfold cert_id_tlv, OCSP_TAG_OID, OCSP_TAG_NULL, OCSP_TAG_SEQUENCE, OCSP_TAG_OCTET_STRING, OCSP_TAG_INTEGER. change (2 ^ 16) with 65536 in *. change (2 ^ 17) with 131072.
  assert (len OID_SHA1 = 5) by done. assert (len (@nil Z) = 0) by done.
  encode Tag_ObjectIdentifier OID_SHA1 oid Hoid. encode Tag_Null (@nil Z) null Hnull. encode Tag_Sequence (oid ++ null) alg Halg.
  encode Tag_OctetString (IssuerNameHash_as_bytes name) n Hn. encode Tag_OctetString (IssuerKeyHash_as_bytes key) k Hk.
  encode Tag_Integer (CertSerial_0 serial) s Hs. encode Tag_Sequence (alg ++ n ++ k ++ s) e He. eexists. split; [done|]. split; [|short].
  by eapply cert_id_intro.
Qed.
Lemma nonce_written nonce : len (OcspNonce_as_bytes nonce) ≤ 2 ^ 16 →
  ∃ x encs w, nonce_extensions_tlv (E := unit) nonce = Ok w ∧ Forall2 ext_enc [x] encs ∧ nonce_in [x] (Some (OcspNonce_as_bytes nonce)) ∧
    der_enc Tag_Sequence (concat encs) w ∧ len w ≤ 2 ^ 17.
Proof.
  intros Hl. unfold nonce_extensions_tlv, OCSP_TAG_OID, OCSP_TAG_SEQUENCE, OCSP_TAG_OCTET_STRING. change (2 ^ 16) with 65536 in *. change (2 ^ 17) with 131072.
  assert (len OID_OCSP_NONCE = 9) by done.
  encode Tag_ObjectIdentifier OID_OCSP_NONCE oid Hoid. encode Tag_OctetString (OcspNonce_as_bytes nonce) inner Hinner.
  encode Tag_OctetString inner v Hv. encode Tag_Sequence (oid ++ v) x Hx. encode Tag_Sequence x w Hw.
  exists (mkExtension (mkOid OID_OCSP_NONCE) None inner), [x], w. split; [done|]. split_and!.
  - constructor; [|constructor]. by eapply ext_enc_plain.
  - by apply nonce_here.
  - cbn [concat]. by rewrite app_nil_r.
  - short.
Qed.
Lemma request_written name key serial nonce :
  len (IssuerNameHash_as_bytes name ++ IssuerKeyHash_as_bytes key ++ CertSerial_0 serial) ≤ 2 ^ 16 → len (default [] (OcspNonce_as_bytes <$> nonce)) ≤ 2 ^ 16 →
  ∃ r, encode_request (E := unit) name key serial nonce = Ok r ∧ request_enc (request_cert_id name key serial) nonce r.
Proof.
  intros Hl Hn. unfold encode_request, OCSP_TAG_SEQUENCE, OCSP_TAG_CONTEXT_2. destruct (cert_id_written name key serial Hl) as (cid & -> & Hcid & Hlc).
  change (2 ^ 17) with 131072 in Hlc. cbn [result_bind]. encode Tag_Sequence cid request Hr. encode Tag_Sequence request reqs Hlist.
  assert (∃ x, len x ≤ 262144 ∧ request_extensions_enc nonce x ∧ match nonce with
    | Some nonce => let? extensions := nonce_extensions_tlv nonce in let? request_extensions := tlv (E := unit) 162 extensions in Ok (reqs ++ request_extensions)
    | None => Ok reqs end = Ok (reqs ++ x)) as (x & Hlx & Hx & ->).
  { destruct nonce as [nonce|].
    - destruct (nonce_written nonce Hn) as (e & encs & w & -> & He & Hin & Hw & Hlw). change (2 ^ 17) with 131072 in Hlw. cbn [result_bind].
      encode (context_tag 2) w x Hx. exists x. split; [short|]. split; [by eapply request_extensions_some|done].
    - exists []. split; [done|]. split; [constructor|by rewrite app_nil_r]. }
  cbn [result_bind]. encode Tag_Sequence (reqs ++ x) tbs Htbs. encode Tag_Sequence tbs r Hr'. exists r. split; [done|]. by eapply request_intro.
Qed.
Lemma matches_request_spec name key serial c : matches_request c name key serial = true ↔ c = request_cert_id name key serial.
Proof.
  unfold matches_request. rewrite !andb_true_iff, !bool_decide_eq_true. split; [|by intros ->]. intros [[[Ho Hn] Hk] Hs]. destruct c. cbn in *. by subst.
Qed.
End request.

(** A request asks about one certificate and its answer is recognised. For hashes and a
    serial number of up to 64 KiB the writer makes the OCSPRequest of RFC 6960, with the
    nonce where RFC 8954 puts it; its CertID is read back as it was given; and a CertID
    matches the request exactly when it names SHA-1, these hashes and this number. *)
Theorem ocsp_request_exact `{DerCrate} `{!DerLaws} name key serial nonce :
  len (IssuerNameHash_as_bytes name ++ IssuerKeyHash_as_bytes key ++ CertSerial_0 serial) ≤ 2 ^ 16 → len (OcspNonce_as_bytes nonce) ≤ 2 ^ 16 →
  (∃ r, build_request (E := unit) name key serial = Ok (mkOcspRequest r) ∧ request_enc (request_cert_id name key serial) None r) ∧
  (∃ r, build_request_with_nonce (E := unit) name key serial nonce = Ok (mkOcspRequest r) ∧ request_enc (request_cert_id name key serial) (Some nonce) r) ∧
  (∃ e, cert_id_tlv (E := unit) name key serial = Ok e ∧ parse_cert_id e = Ok (request_cert_id name key serial)) ∧
  ∀ c, matches_request c name key serial = true ↔ c = request_cert_id name key serial.
Proof.
  intros Hl Hn. unfold build_request, build_request_with_nonce. split; [|split; [|split]].
  - destruct (request_written name key serial None Hl ltac:(by cbn)) as (r & -> & Hr). by exists r.
  - destruct (request_written name key serial (Some nonce) Hl Hn) as (r & -> & Hr). by exists r.
  - destruct (cert_id_written name key serial Hl) as (e & -> & He & Hle). exists e. split; [done|]. apply cert_id_read; [done|].
    unfold DER_MAX_LEN. change (2 ^ 17) with 131072 in Hle. lia.
  - apply matches_request_spec.
Qed.

(** ** A response *)

Module ber_ocsp.
Import ber_der.
#[export] Instance crate : OcspCrate := λ e,
  any ← any_from_der e; if decide (ar_tag any = Tag_GeneralizedTime) then Some (ber_crl.time_number (ar_value any)) else None.
End ber_ocsp.

Module sample_ocsp.
Import ber_der ber_ocsp dotted_texts monty flat sample_certificate.

Definition gen (s : string) : bytes := enc Tag_GeneralizedTime (bytes_of_string s).
Definition name_hash : IssuerNameHash := mkIssuerNameHash (repeat 0xAA 20).
Definition key_hash : IssuerKeyHash := mkIssuerKeyHash (repeat 0xBB 20).
Definition nonce : OcspNonce := mkOcspNonce (repeat 0x5A 16).
Definition cert_id (serial : bytes) : CertId := request_cert_id name_hash key_hash (mkCertSerial serial).
Definition cert_id_bytes (serial : bytes) : bytes :=
  enc Tag_Sequence (enc Tag_Sequence (enc Tag_ObjectIdentifier OID_SHA1 ++ enc Tag_Null [])
    ++ enc Tag_OctetString (IssuerNameHash_as_bytes name_hash) ++ enc Tag_OctetString (IssuerKeyHash_as_bytes key_hash) ++ enc Tag_Integer serial).
Definition good : SingleResponse := mkSingleResponse (cert_id [0x12; 0x34]) CertStatus_Good 20250701000000 (Some 20250708000000).
Definition revoked : SingleResponse :=
  mkSingleResponse (cert_id [0x05]) (CertStatus_Revoked 20250601120000 (Some CrlReason_KeyCompromise)) 20250701000000 None.
Definition good_bytes : bytes :=
  enc Tag_Sequence (cert_id_bytes [0x12; 0x34] ++ enc (Tag_ContextSpecific false 0) [] ++ gen "20250701000000Z" ++ enc (context_tag 0) (gen "20250708000000Z") ++ []).
Definition revoked_bytes : bytes :=
  enc Tag_Sequence (cert_id_bytes [0x05] ++ enc (context_tag 1) (gen "20250601120000Z" ++ enc (context_tag 0) (enc Tag_Enumerated [1]))
    ++ gen "20250701000000Z" ++ [] ++ []).
Definition nonce_extension_bytes : bytes :=
  enc Tag_Sequence (enc Tag_ObjectIdentifier OID_OCSP_NONCE ++ enc Tag_OctetString (enc Tag_OctetString (OcspNonce_as_bytes nonce))).
Definition data : bytes :=
  enc Tag_Sequence ([] ++ enc (context_tag 2) (enc Tag_OctetString (repeat 1 20)) ++ gen "20250701000000Z"
    ++ enc Tag_Sequence (concat [good_bytes; revoked_bytes]) ++ enc (context_tag 1) (enc Tag_Sequence (concat [nonce_extension_bytes]))).
Definition basic : BasicOcspResponse :=
  mkBasicOcspResponse 20250701000000 [good; revoked] data (Oid_as_bytes SHA256_WITH_RSA) sample_key.zero_digest_signature [] (Some (OcspNonce_as_bytes nonce)).
Definition basic_bytes : bytes :=
  enc Tag_Sequence (data ++ enc Tag_Sequence (enc Tag_ObjectIdentifier (Oid_as_bytes SHA256_WITH_RSA) ++ [])
    ++ enc Tag_BitString (0 :: sample_key.zero_digest_signature) ++ []).
Definition response : bytes :=
  enc Tag_Sequence (enc Tag_Enumerated [0] ++ enc (context_tag 0) (enc Tag_Sequence
    (enc Tag_ObjectIdentifier (Oid_as_bytes BASIC_OCSP_RESPONSE) ++ enc Tag_OctetString basic_bytes))).

Lemma gen_encoded s d : (len (bytes_of_string s) <=? u32_max) = true → GeneralizedTime_from_der (gen s) = Some d → gen_time_enc d (gen s).
Proof. intros Hl Hd. split; [|done]. eexists. by apply enc_encoded. Qed.
Ltac at_time s := apply (gen_encoded s); by vm_compute.
Ltac cert_id_encoded := eapply cert_id_intro with (params := enc Tag_Null []); encoded.
Lemma good_encoded : single_enc good good_bytes.
Proof.
  eapply single_intro; [cert_id_encoded|apply status_good; encoded|at_time "20250701000000Z"|
    eapply next_some; [at_time "20250708000000Z"|encoded]|apply optional_none|encoded].
Qed.
Lemma revoked_encoded : single_enc revoked revoked_bytes.
Proof.
  eapply single_intro; [cert_id_encoded| |at_time "20250701000000Z"|apply next_none|apply optional_none|encoded].
  apply (status_reason _ 1 (gen "20250601120000Z") (enc Tag_Enumerated [1]) (enc (context_tag 0) (enc Tag_Enumerated [1])));
    [at_time "20250601120000Z"|encoded..].
Qed.
Lemma data_encoded : response_data_enc 20250701000000 [good; revoked] (Some (OcspNonce_as_bytes nonce)) data.
Proof.
  eapply response_data_intro with (encs := [good_bytes; revoked_bytes]) (n := 2) (name := enc Tag_OctetString (repeat 1 20));
    [apply optional_none|by right|encoded|at_time "20250701000000Z"| |encoded| |encoded].
  - constructor; [apply good_encoded|]. constructor; [apply revoked_encoded|constructor].
  - eapply (response_extensions_some [mkExtension (mkOid OID_OCSP_NONCE) None (enc Tag_OctetString (OcspNonce_as_bytes nonce))] [nonce_extension_bytes]);
      [|encoded|encoded|apply nonce_here; [done|encoded]].
    constructor; [|constructor]. eapply ext_enc_plain; [done|encoded..].
Qed.
Lemma basic_encoded : basic_enc basic basic_bytes.
Proof. eapply basic_intro with (params := []) (unused := 0); [apply data_encoded|encoded|encoded|encoded|apply embedded_none|encoded]. Qed.
Lemma response_encoded : response_enc basic response.
Proof. eapply response_intro; [encoded|encoded|apply basic_encoded|encoded..]. Qed.
End sample_ocsp.

Import ber_der ber_ocsp dotted_texts.

Lemma ocsp_response_exact_witness :
  OcspResponse_parse sample_ocsp.response = Ok (mkOcspResponse Ocsp_Successful (Some sample_ocsp.basic)) ∧
  OcspResponse_parse [0x30; 0x03; 0x0A; 0x01; 0x03] = Ok (mkOcspResponse Ocsp_TryLater None).
Proof.
  destruct ocsp_response_exact as [Hs Hr]. split.
  - exact (Hs _ _ sample_ocsp.response_encoded ltac:(by vm_compute)).
  - apply (Hr 3 [0x0A; 0x01; 0x03] []); [split; [done|by vm_compute]|split; [done|by vm_compute]|by vm_compute|done].
Defined.

Lemma ocsp_request_exact_witness :
  ∃ r, build_request_with_nonce (E := unit) sample_ocsp.name_hash sample_ocsp.key_hash (mkCertSerial [0x12; 0x34]) sample_ocsp.nonce = Ok (mkOcspRequest r) ∧
    len r = 106.
Proof.
  destruct (ocsp_request_exact sample_ocsp.name_hash sample_ocsp.key_hash (mkCertSerial [0x12; 0x34]) sample_ocsp.nonce ltac:(by vm_compute) ltac:(by vm_compute))
    as (_ & (r & Hr & _) & _ & _). exists r. split; [exact Hr|]. vm_compute in Hr. injection Hr as <-. by vm_compute.
Defined.
