(* ===== verification/Revocation.v ===== *)
(** crates/refineid-lib-core/src/revocation.rs: what a verified list or response says of a
    certificate, the evidence made of it, and the cache of evidence. *)

From S2P Require Import Prelude Oid Ber Der CryptoCrates Rsa Ecdsa Identity X509 Crl Ocsp.

Inductive InapplicableReason := CrlIssuerMismatch | OcspNoEntryForSerial.
Inductive RevocationStatus :=
| Revocation_Good
| Revocation_Inapplicable (r : InapplicableReason)
| Revocation_Revoked (at_ : DerDateTime) (reason : option CrlReason)
| Revocation_Stale
| Revocation_Unknown.
Inductive RevocationSource := RevocationSource_Ocsp | RevocationSource_Crl.

(** [x509_cert::name::Name::from_der] with the equality of names. *)
Class NameCrate := {
  XName : Type;
  XName_eq_dec :: EqDecision XName;
  XName_from_der : bytes → option XName;
}.

(** [now > next] for a time that may be absent. *)
Definition past (next : option DerDateTime) (now : DerDateTime) : bool := match next with Some next => next <? now | None => false end.

Record RevocationEvidence := mkRevocationEvidence {
  ev_status : RevocationStatus; ev_source : RevocationSource; ev_checked_at : DerDateTime; ev_valid_until : option DerDateTime }.
Definition is_fresh (e : RevocationEvidence) (now : DerDateTime) : bool :=
  match ev_valid_until e with Some valid_until => now <=? valid_until | None => false end.

Section check.
Context `{DerCrate} `{CrlCrate}.

Definition check_against_crl (cert : Certificate) (crl : VerifiedCrl) (now : DerDateTime) : RevocationStatus :=
  let crl := VerifiedCrl_as_crl crl in
  if negb (bool_decide (crl_issuer crl = cert_issuer cert)) then Revocation_Inapplicable CrlIssuerMismatch
  else if past (crl_next_update crl) now then Revocation_Stale
  else match Crl_find_serial crl (Certificate_serial cert) with
       | None => Revocation_Good
       | Some entry => Revocation_Revoked (re_revocation_date entry) (re_reason entry)
       end.

Definition same_serial (cert : Certificate) (r : SingleResponse) : bool := bool_decide (CertSerial_0 (ci_serial (sr_cert_id r)) = cert_serial_der cert).
Definition check_against_ocsp_response (cert : Certificate) (response : VerifiedOcspResponse) (now : DerDateTime) : RevocationStatus :=
  match List.find (same_serial cert) (VerifiedOcspResponse_single_responses response) with
  | None => Revocation_Inapplicable OcspNoEntryForSerial
  | Some single =>
      if past (sr_next_update single) now then Revocation_Stale
      else match sr_status single with
           | CertStatus_Good => Revocation_Good
           | CertStatus_Revoked revoked_at reason => Revocation_Revoked revoked_at reason
           | CertStatus_Unknown => Revocation_Unknown
           end
  end.

Definition RevocationEvidence_from_ocsp (cert : Certificate) (verified : VerifiedOcspResponse) (now : DerDateTime) : RevocationEvidence :=
  let status := check_against_ocsp_response cert verified now in
  let valid_until := List.find (same_serial cert) (VerifiedOcspResponse_single_responses verified) ≫= sr_next_update in
  mkRevocationEvidence status RevocationSource_Ocsp now valid_until.
Definition RevocationEvidence_from_crl (cert : Certificate) (verified : VerifiedCrl) (now : DerDateTime) : RevocationEvidence :=
  mkRevocationEvidence (check_against_crl cert verified now) RevocationSource_Crl now (crl_next_update (VerifiedCrl_as_crl verified)).
End check.

(** ** The cache *)

Section cache.
Context `{NameCrate}.

Record CachedCertId := mkCachedCertId { cc_issuer : XName; cc_serial : CertSerial }.
#[export] Instance CachedCertId_eq_dec : EqDecision CachedCertId.
Proof. solve_decision. Defined.
Definition CachedCertId_for_cert (cert : Certificate) : option CachedCertId :=
  issuer ← XName_from_der (Name_as_der (cert_issuer cert)); Some (mkCachedCertId issuer (Certificate_serial cert)).

Record CacheEntry := mkCacheEntry { ce_id : CachedCertId; ce_evidence : RevocationEvidence }.
Record RevocationCache := mkRevocationCache { rc_entries : list CacheEntry }.
Definition RevocationCache_default : RevocationCache := mkRevocationCache [].
(** [entries.iter_mut().find(..)]: the evidence of the first entry with the identity is replaced. *)
Fixpoint replace_evidence (id : CachedCertId) (evidence : RevocationEvidence) (entries : list CacheEntry) : option (list CacheEntry) :=
  match entries with
  | [] => None
  | e :: entries =>
      if decide (ce_id e = id) then Some (mkCacheEntry (ce_id e) evidence :: entries)
      else rest ← replace_evidence id evidence entries; Some (e :: rest)
  end.
Definition RevocationCache_insert (c : RevocationCache) (cert : Certificate) (evidence : RevocationEvidence) : RevocationCache :=
  match CachedCertId_for_cert cert with
  | None => c
  | Some id =>
      match replace_evidence id evidence (rc_entries c) with
      | Some entries => mkRevocationCache entries
      | None => mkRevocationCache (rc_entries c ++ [mkCacheEntry id evidence])
      end
  end.
Definition is_revoked (s : RevocationStatus) : bool := match s with Revocation_Revoked _ _ => true | _ => false end.
Definition RevocationCache_get (c : RevocationCache) (cert : Certificate) (now : DerDateTime) : option RevocationEvidence :=
  id ← CachedCertId_for_cert cert;
  evidence ← ce_evidence <$> List.find (λ entry, bool_decide (ce_id entry = id)) (rc_entries c);
  let usable := is_revoked (ev_status evidence) || is_fresh evidence now in
  if usable then Some evidence else None.
End cache.

(** ** What a list and a response say *)

Lemma find_split {A} (p : A → bool) l :
  match List.find p l with
  | Some x => ∃ before after, l = before ++ x :: after ∧ p x = true ∧ Forall (λ y, p y = false) before
  | None => Forall (λ y, p y = false) l
  end.
Proof.
  induction l as [|a l IH]; [constructor|]. cbn [List.find]. destruct (p a) eqn:Ha; [by exists [], l|].
  destruct (List.find p l) as [x|]; [|by constructor]. destruct IH as (before & after & -> & Hx & Hb). exists (a :: before), after. split; [done|]. split; [done|by constructor].
Qed.
Lemma find_first {A} (p : A → bool) before x after : p x = true → Forall (λ y, p y = false) before → List.find p (before ++ x :: after) = Some x.
Proof. intros Hx Hb. induction Hb as [|y before Hy _ IH]; cbn [app List.find]; [by rewrite Hx|by rewrite Hy]. Qed.
Lemma find_none {A} (p : A → bool) l : Forall (λ y, p y = false) l → List.find p l = None.
Proof. induction 1 as [|y l Hy _ IH]; [done|]. cbn [List.find]. by rewrite Hy. Qed.
Definition not_past (next : option DerDateTime) (now : DerDateTime) : Prop := ∀ t, next = Some t → now ≤ t.
Lemma past_spec next now : if past next now then ∃ t, next = Some t ∧ t < now else not_past next now.
Proof.
  unfold past. destruct next as [t|]; [|by intros t Ht]. destruct (Z.ltb_spec t now); [by exists t|]. intros t' [= <-]. lia.
Qed.

Section says.
Context (cert : Certificate) (now : DerDateTime).

(** The verdict of a list whose readable entries are [l]. *)
Inductive crl_says (crl : Crl) (l : list RevokedEntry) : RevocationStatus → Prop :=
| crl_other_issuer : crl_issuer crl ≠ cert_issuer cert → crl_says crl l (Revocation_Inapplicable CrlIssuerMismatch)
| crl_stale t : crl_issuer crl = cert_issuer cert → crl_next_update crl = Some t → t < now → crl_says crl l Revocation_Stale
| crl_revoked before e after : crl_issuer crl = cert_issuer cert → not_past (crl_next_update crl) now →
    l = before ++ e :: after → re_serial e = Certificate_serial cert → Forall (λ x, re_serial x ≠ Certificate_serial cert) before →
    crl_says crl l (Revocation_Revoked (re_revocation_date e) (re_reason e))
| crl_good : crl_issuer crl = cert_issuer cert → not_past (crl_next_update crl) now →
    Forall (λ x, re_serial x ≠ Certificate_serial cert) l → crl_says crl l Revocation_Good.

Definition status_of (s : CertStatus) : RevocationStatus :=
  match s with
  | CertStatus_Good => Revocation_Good
  | CertStatus_Revoked d r => Revocation_Revoked d r
  | CertStatus_Unknown => Revocation_Unknown
  end.
Definition single_serial (s : SingleResponse) : CertSerial := ci_serial (sr_cert_id s).
(** The verdict of a response: that of its first entry with the number. *)
Inductive ocsp_says (l : list SingleResponse) : RevocationStatus → Prop :=
| ocsp_absent : Forall (λ s, single_serial s ≠ Certificate_serial cert) l → ocsp_says l (Revocation_Inapplicable OcspNoEntryForSerial)
| ocsp_stale before s after t : l = before ++ s :: after → single_serial s = Certificate_serial cert →
    Forall (λ s, single_serial s ≠ Certificate_serial cert) before → sr_next_update s = Some t → t < now → ocsp_says l Revocation_Stale
| ocsp_status before s after : l = before ++ s :: after → single_serial s = Certificate_serial cert →
    Forall (λ s, single_serial s ≠ Certificate_serial cert) before → not_past (sr_next_update s) now → ocsp_says l (status_of (sr_status s)).

Lemma not_stale next t : not_past next now → next = Some t → ¬ t < now.
Proof. intros Hn Ht. apply Hn in Ht. lia. Qed.

Context `{DerCrate} `{!DerLaws} `{CrlCrate}.
Lemma check_against_crl_spec crl st : check_against_crl cert (mkVerifiedCrl crl) now = st ↔ crl_says crl (Crl_listed crl) st.
Proof.
  unfold check_against_crl. cbn [VerifiedCrl_as_crl vcrl_crl]. rewrite find_serial_listed. set (p := λ e, bool_decide (re_serial e = Certificate_serial cert)).
  assert (∀ l, Forall (λ e, p e = false) l ↔ Forall (λ e, re_serial e ≠ Certificate_serial cert) l) as Hq.
  { intros l. apply Forall_iff. intros e. apply bool_decide_eq_false. }
  pose proof (past_spec (crl_next_update crl) now) as Hpast. case_bool_decide as Hi; cbn [negb].
  2: { split; [intros <-; by constructor|]. by intros []. }
  destruct (past _ _); [destruct Hpast as (t & Ht & Hlt)|].
  { split; [intros <-; by eapply crl_stale|]. intros [Hne|t' _ Ht' _|before e after _ Hn _ _ _|_ Hn _]; done || by destruct (not_stale _ _ Hn Ht). }
  split.
  - intros <-. pose proof (find_split p (Crl_listed crl)) as Hf. destruct (List.find p _) as [e|].
    + destruct Hf as (before & after & Hl & He%bool_decide_eq_true & Hb). eapply crl_revoked; [done|done|exact Hl|done|by apply Hq].
    + apply crl_good; [done|done|by apply Hq].
  - intros [Hne|t _ Ht Hlt|before e after _ _ Hl He Hb|_ _ Hg]; [done|by destruct (not_stale _ _ Hpast Ht)| |].
    + rewrite Hl, find_first; [done|by apply bool_decide_eq_true|by apply Hq].
    + by rewrite find_none by by apply Hq.
Qed.
Lemma check_against_ocsp_spec v st : check_against_ocsp_response cert v now = st ↔ ocsp_says (VerifiedOcspResponse_single_responses v) st.
Proof.
  unfold check_against_ocsp_response. generalize (VerifiedOcspResponse_single_responses v) as l. intros l.
  assert (∀ s, same_serial cert s = bool_decide (single_serial s = Certificate_serial cert)) as Hp.
  { intros s. unfold same_serial, single_serial, Certificate_serial. apply bool_decide_ext. destruct (ci_serial _). cbn. split; congruence. }
  assert (∀ l, Forall (λ s, same_serial cert s = false) l ↔ Forall (λ s, single_serial s ≠ Certificate_serial cert) l) as Hq.
  { intros l'. apply Forall_iff. intros s. rewrite Hp. apply bool_decide_eq_false. }
  split.
  - intros <-. pose proof (find_split (same_serial cert) l) as Hf. destruct (List.find _ l) as [s|]; [|by apply ocsp_absent, Hq].
    destruct Hf as (before & after & -> & Hs & Hb%Hq). rewrite Hp in Hs. apply bool_decide_eq_true in Hs.
    pose proof (past_spec (sr_next_update s) now) as Hpast. destruct (past _ _).
    + destruct Hpast as (t & Ht & Hlt). by eapply ocsp_stale.
    + by eapply (ocsp_status _ before s after).
  - intros [Ha|before s after t -> Hs Hb Ht Hlt|before s after -> Hs Hb Hn].
    + by rewrite find_none by by apply Hq.
    + rewrite find_first; [|by rewrite Hp; apply bool_decide_eq_true|by apply Hq]. unfold past. rewrite Ht. by destruct (Z.ltb_spec t now); [|lia].
    + rewrite find_first; [|by rewrite Hp; apply bool_decide_eq_true|by apply Hq]. pose proof (past_spec (sr_next_update s) now) as Hpast.
      destruct (past _ _); [|done]. destruct Hpast as (t & Ht & Hlt). by destruct (not_stale _ _ Hn Ht).
Qed.
End says.

(** ** The cache as a map *)

Section map.
Context `{NameCrate}.

Definition cached (entries : list CacheEntry) (id : CachedCertId) : option RevocationEvidence :=
  ce_evidence <$> List.find (λ entry, bool_decide (ce_id entry = id)) entries.
Lemma replace_evidence_spec id evidence entries :
  match replace_evidence id evidence entries with
  | Some entries' => ∀ id', cached entries' id' = if decide (id = id') then Some evidence else cached entries id'
  | None => cached entries id = None
  end.
Proof.
  unfold cached. induction entries as [|e entries IH]; [done|]. cbn [replace_evidence List.find]. destruct (decide (ce_id e = id)) as [<-|Hne].
  - intros id'. cbn [List.find ce_id]. by destruct (decide (ce_id e = id')) as [->|Hne]; [rewrite bool_decide_eq_true_2|rewrite bool_decide_eq_false_2].
  - destruct (replace_evidence id evidence entries) as [rest|]; cbn [mbind option_bind].
    + intros id'. cbn [List.find]. destruct (decide (ce_id e = id')) as [<-|Hne'].
      * rewrite bool_decide_eq_true_2 by done. by rewrite decide_False by done.
      * rewrite bool_decide_eq_false_2 by done. apply IH.
    + by rewrite bool_decide_eq_false_2.
Qed.
Lemma cached_snoc entries e id : cached entries (ce_id e) = None → cached (entries ++ [e]) id = if decide (ce_id e = id) then Some (ce_evidence e) else cached entries id.
Proof.
  unfold cached. intros Hn. induction entries as [|a entries IH]; cbn [app List.find] in *.
  - by destruct (decide (ce_id e = id)); [rewrite bool_decide_eq_true_2|rewrite bool_decide_eq_false_2].
  - case_bool_decide as Ha; [done|]. specialize (IH Hn). case_bool_decide as Hid; [|exact IH]. rewrite decide_False; [done|]. congruence.
Qed.
Lemma insert_cached c cert evidence id :
  cached (rc_entries (RevocationCache_insert c cert evidence)) id =
    if decide (CachedCertId_for_cert cert = Some id) then Some evidence else cached (rc_entries c) id.
Proof.
  unfold RevocationCache_insert. destruct (CachedCertId_for_cert cert) as [key|]; [|done]. pose proof (replace_evidence_spec key evidence (rc_entries c)) as Hr.
  destruct (replace_evidence key evidence (rc_entries c)) as [entries|]; cbn [rc_entries].
  - rewrite Hr. destruct (decide (key = id)) as [->|Hne]; [by rewrite decide_True|]. rewrite decide_False; [done|congruence].
  - rewrite cached_snoc by done. cbn [ce_id ce_evidence]. destruct (decide (key = id)) as [->|Hne]; [by rewrite decide_True|]. rewrite decide_False; [done|congruence].
Qed.

(** The cache after a sequence of insertions, and the last of them for an identity. *)
Definition after_inserts (ops : list (Certificate * RevocationEvidence)) : RevocationCache :=
  foldl (λ c '(cert, evidence), RevocationCache_insert c cert evidence) RevocationCache_default ops.
Fixpoint latest (id : CachedCertId) (ops : list (Certificate * RevocationEvidence)) : option RevocationEvidence :=
  match ops with
  | [] => None
  | (cert, evidence) :: ops =>
      match latest id ops with Some e => Some e | None => if decide (CachedCertId_for_cert cert = Some id) then Some evidence else None end
  end.
Lemma after_inserts_cached ops id : cached (rc_entries (after_inserts ops)) id = latest id ops.
Proof.
  unfold after_inserts. assert (∀ c, cached (rc_entries (foldl (λ c '(cert, evidence), RevocationCache_insert c cert evidence) c ops)) id =
    match latest id ops with Some e => Some e | None => cached (rc_entries c) id end) as ->; [|by destruct (latest id ops)].
  induction ops as [|[cert evidence] ops IH]; intros c; [done|]. cbn [foldl latest]. rewrite IH. destruct (latest id ops); [done|]. rewrite insert_cached. by case_decide.
Qed.
End map.

(** ** Verdicts *)

(** C35: A list says of a certificate what its entries say, and is trusted only when signed.
    A list of RFC 5280's form is made a verified one exactly when its signature is a valid
    one under the given key. A verified list then answers: another issuer; past its next
    update; revoked, with the date and reason of the first entry with the number; good,
    when no entry has it. Only the entries ahead of the first that cannot be read count:
    a certificate listed after one is reported good. *)
Theorem crl_verdict_exact `{DerCrate} `{!DerLaws} `{CrlCrate} `{!CrlLaws} `{ConstOid} `{!ConstOidLaws} `{BoxedMonty} `{!BoxedMontyLaws}
  `{Sha1Hash} `{Sha256Hash} `{Sha2Hashes} `{!HashSizes} s tbs der l encs rest spki cert now :
  crl_enc s tbs der → len der < DER_MAX_LEN → default [] (cs_revoked s) = encs ++ rest → Forall2 listed_as l encs → Forall encoded_value rest →
  (∀ e, head rest = Some e → RevokedCert_from_der e = None) → bytes_ok (SpkiDer_as_der spki) →
  (∀ curve point, extract_ec_pubkey (SpkiDer_as_der spki) = Some (curve, point) → ∃ ctx, named_curve curve ctx) →
  let crl := crl_fields s tbs der in
  (∀ v, VerifiedCrl_verify crl spki = Ok v ↔
    v = mkVerifiedCrl crl ∧ tbs_valid (mkTbsSignature tbs (cs_algorithm s) (cs_bits s) (SpkiDer_as_der spki))) ∧
  (∀ st, check_against_crl cert (mkVerifiedCrl crl) now = st ↔ crl_says cert now crl l st).
Proof.
  intros Henc Hl Hrev Hlist Hrest Hbad Hok Hnamed crl. split.
  - intros v. pose proof (verify_tbs_spec (mkTbsSignature tbs (cs_algorithm s) (cs_bits s) (SpkiDer_as_der spki)) Hok Hnamed) as [<- _].
    unfold VerifiedCrl_verify, Crl_verify_signature. cbn [crl crl_fields crl_tbs_der crl_signature_alg_oid crl_signature_bits].
    destruct (verify_tbs_signature _) as [[]| |]; cbn [result_bind]; split; try (by intros [_ ?]); try done; [by intros [= <-]|by intros [-> _]].
  - intros st. rewrite <- (Crl_listed_encoded s tbs der l encs rest Henc Hl Hrev Hlist Hrest Hbad). exact (check_against_crl_spec cert now crl st).
Qed.

(** C36: A response says of a certificate what its first entry with that number says, and is
    trusted only when signed. A response is made a verified one exactly when its signature
    is a valid one under the given key; it then answers by the first entry with the serial
    number: past its next update, good, revoked with date and reason, unknown; or that no
    entry has it. Whose certificate an entry names does not matter: the hashes of the
    issuer are not compared. *)
Theorem ocsp_verdict_exact `{DerCrate} `{!DerLaws} `{ConstOid} `{!ConstOidLaws} `{BoxedMonty} `{!BoxedMontyLaws}
  `{Sha1Hash} `{Sha256Hash} `{Sha2Hashes} `{!HashSizes} basic spki cert now :
  bytes_ok (SpkiDer_as_der spki) →
  (∀ curve point, extract_ec_pubkey (SpkiDer_as_der spki) = Some (curve, point) → ∃ ctx, named_curve curve ctx) →
  (∀ v, VerifiedOcspResponse_verify basic spki = Ok v ↔
    v = mkVerifiedOcspResponse basic ∧
    tbs_valid (mkTbsSignature (bo_tbs_response_data_der basic) (bo_signature_alg_oid basic) (bo_signature_bits basic) (SpkiDer_as_der spki))) ∧
  (∀ st, check_against_ocsp_response cert (mkVerifiedOcspResponse basic) now = st ↔ ocsp_says cert now (bo_responses basic) st) ∧
  (∀ basic', map (λ s, (single_serial s, sr_status s, sr_next_update s)) (bo_responses basic') =
             map (λ s, (single_serial s, sr_status s, sr_next_update s)) (bo_responses basic) →
    check_against_ocsp_response cert (mkVerifiedOcspResponse basic') now = check_against_ocsp_response cert (mkVerifiedOcspResponse basic) now).
Proof.
  intros Hok Hnamed. split; [|split].
  - intros v. pose proof (verify_tbs_spec (mkTbsSignature (bo_tbs_response_data_der basic) (bo_signature_alg_oid basic) (bo_signature_bits basic) (SpkiDer_as_der spki)) Hok Hnamed) as [<- _].
    unfold VerifiedOcspResponse_verify, BasicOcspResponse_verify_signature.
    destruct (verify_tbs_signature _) as [[]| |]; cbn [result_bind]; split; try (by intros [_ ?]); try done; [by intros [= <-]|by intros [-> _]].
  - intros st. apply check_against_ocsp_spec.
  - intros basic'. unfold check_against_ocsp_response, VerifiedOcspResponse_single_responses. cbn [vo_basic].
    generalize (bo_responses basic') as l', (bo_responses basic) as l. induction l' as [|s' l' IH]; intros [|s l] Hm; try done.
    cbn [map] in Hm. injection Hm as Hser Hst Hnext Hm. cbn [List.find]. unfold same_serial at 1 3. unfold single_serial in Hser. rewrite Hser.
    case_bool_decide; [by rewrite Hst, Hnext|]. by apply IH.
Qed.

(** A certificate has an issuer, as a name that can be read, and a serial number. *)
Definition has_identity `{NameCrate} (cert : Certificate) (issuer : XName) (serial : bytes) : Prop :=
  XName_from_der (Name_as_der (cert_issuer cert)) = Some issuer ∧ cert_serial_der cert = serial.
(** The last evidence put in under an issuer and a number. *)
Definition last_put `{NameCrate} (issuer : XName) (serial : bytes) (ops : list (Certificate * RevocationEvidence)) (e : RevocationEvidence) : Prop :=
  ∃ before cert after, ops = before ++ (cert, e) :: after ∧ has_identity cert issuer serial ∧
    ∀ cert' e', (cert', e') ∈ after → ¬ has_identity cert' issuer serial.
(** It is served when it says revoked, at any time, or up to the end of its validity. *)
Definition servable (e : RevocationEvidence) (now : DerDateTime) : Prop :=
  (∃ revoked_at reason, ev_status e = Revocation_Revoked revoked_at reason) ∨ (∃ until, ev_valid_until e = Some until ∧ now ≤ until).

Lemma for_cert_identity `{NameCrate} cert issuer serial :
  CachedCertId_for_cert cert = Some (mkCachedCertId issuer (mkCertSerial serial)) ↔ has_identity cert issuer serial.
Proof.
  unfold CachedCertId_for_cert, has_identity. destruct (XName_from_der _) as [x|]; cbn [mbind option_bind]; [|by split; [|intros [? _]]].
  unfold Certificate_serial. split; [by intros [= -> ->]|by intros [[= ->] ->]].
Qed.
Lemma latest_snoc `{NameCrate} id ops cert e :
  latest id (ops ++ [(cert, e)]) = if decide (CachedCertId_for_cert cert = Some id) then Some e else latest id ops.
Proof.
  induction ops as [|[c ev] ops IH]; cbn [app latest]; [by case_decide|]. rewrite IH. by case_decide.
Qed.
Lemma last_put_snoc `{NameCrate} issuer serial ops cert e e' :
  last_put issuer serial (ops ++ [(cert, e)]) e' ↔
  (has_identity cert issuer serial ∧ e' = e) ∨ (¬ has_identity cert issuer serial ∧ last_put issuer serial ops e').
Proof.
  split.
  - intros (before & c & after & Heq & Hc & Hafter). destruct after as [|[c' ev'] after _] using rev_ind.
    + apply app_inj_tail in Heq as [_ [= -> ->]]. by left.
    + rewrite app_comm_cons, app_assoc in Heq. apply app_inj_tail in Heq as [-> [= -> ->]]. right.
      split; [apply (Hafter c' ev'), elem_of_app; right; constructor|]. exists before, c, after. split; [done|]. split; [done|].
      intros c2 e2 Hin. apply (Hafter c2 e2), elem_of_app. by left.
  - intros [[Hc ->]|[Hn (before & c & after & -> & Hc & Hafter)]].
    + exists ops, cert, []. split; [done|]. split; [done|]. by intros ? ? ?%not_elem_of_nil.
    + exists before, c, (after ++ [(cert, e)]). split; [by rewrite <- app_assoc|]. split; [done|].
      intros c' e2 [Hin|[= -> ->]%list_elem_of_singleton]%elem_of_app; [by eapply Hafter|done].
Qed.
Lemma latest_last `{NameCrate} issuer serial ops e : latest (mkCachedCertId issuer (mkCertSerial serial)) ops = Some e ↔ last_put issuer serial ops e.
Proof.
  induction ops as [|[cert ev] ops IH] using rev_ind; [split; [done|]; by intros ([|] & ? & ? & ? & _)|].
  rewrite latest_snoc, last_put_snoc, <- IH. destruct (decide _) as [Hc%for_cert_identity|Hc]; [|rewrite for_cert_identity in Hc].
  - split; [intros [= ->]; by left|]. by intros [[_ ->]|[? _]].
  - split; [by right|]. by intros [[? _]|[_ ?]].
Qed.

(** C38: The cache serves the last evidence put in for a certificate. After any insertions a
    lookup gives some evidence exactly when the certificate's issuer can be read, the
    evidence is the one inserted last under that issuer and the certificate's serial number,
    and it says revoked or its validity has an end that is not past. Two issuers are the
    same when they are as names, whatever their octets; evidence put in under one whose name
    cannot be read is not kept. *)
Theorem revocation_cache_exact `{NameCrate} ops cert now e :
  RevocationCache_get (after_inserts ops) cert now = Some e ↔
  ∃ issuer, XName_from_der (Name_as_der (cert_issuer cert)) = Some issuer ∧ last_put issuer (cert_serial_der cert) ops e ∧ servable e now.
Proof.
  unfold RevocationCache_get, CachedCertId_for_cert. destruct (XName_from_der _) as [issuer|]; cbn [mbind option_bind]; [|by split; [|intros (? & ? & _)]].
  set (id := mkCachedCertId issuer (Certificate_serial cert)). fold (cached (rc_entries (after_inserts ops)) id). rewrite after_inserts_cached.
  assert (∀ e, is_revoked (ev_status e) || is_fresh e now = true ↔ servable e now) as Hserv.
  { intros x. unfold servable, is_revoked, is_fresh. rewrite orb_true_iff. split.
    - intros [Hs|Hf]; [left|right]; [destruct (ev_status x); try done; by eexists _, _|]. destruct (ev_valid_until x) as [t|]; [|done]. exists t. split; [done|lia].
    - intros [(a & r & ->)|(t & -> & Ht)]; [by left|]. right. lia. }
  split.
  - destruct (latest id ops) as [x|] eqn:Hl; [|done]. cbn [mbind option_bind]. destruct (_ || _) eqn:Hu; [|done]. intros [= <-].
    exists issuer. split; [done|]. split; [by apply latest_last|by apply Hserv].
  - intros (x & [= <-] & Hlast%latest_last & Hs%Hserv). unfold id, Certificate_serial. rewrite Hlast. cbn [mbind option_bind]. by rewrite Hs.
Qed.

(** ** A certificate, its list and its response *)

Module sample_revocation.
Import dotted_texts.
Definition holder_cert (spki : SpkiDer) (serial : bytes) : Certificate :=
  mkCertificate [] [] serial (mkName (sample_certificate.name_of "Example CA")) (mkName (sample_certificate.name_of "Holder")) 0 99999999999999
    spki None SHA256_WITH_RSA [].
End sample_revocation.

Import ber_der ber_crl ber_ocsp dotted_texts monty flat sample_revocation.

Lemma crl_verdict_exact_witness : ∃ spki,
  VerifiedCrl_verify (crl_fields sample_crl.the_crl sample_crl.crl_tbs sample_crl.crl_der) spki =
    Ok (mkVerifiedCrl (crl_fields sample_crl.the_crl sample_crl.crl_tbs sample_crl.crl_der)) ∧
  check_against_crl (holder_cert spki [0x12; 0x34]) (mkVerifiedCrl (crl_fields sample_crl.the_crl sample_crl.crl_tbs sample_crl.crl_der)) 20250715000000 =
    Revocation_Revoked 20250601120000 (Some CrlReason_KeyCompromise) ∧
  In (sample_crl.plain_entry [0x77]) sample_crl.rest ∧
  check_against_crl (holder_cert spki [0x77]) (mkVerifiedCrl (crl_fields sample_crl.the_crl sample_crl.crl_tbs sample_crl.crl_der)) 20250715000000 = Revocation_Good.
Proof.
  destruct sample_certificate.spki_parsed as (spki & Hs & _ & Hd). exists spki.
  assert (∀ e, list.head sample_crl.rest = Some e → RevokedCert_from_der e = None) as Hbad by (intros e [= <-]; by vm_compute).
  assert (bytes_ok (SpkiDer_as_der spki)) as Hok by (rewrite Hd; by_decide).
  assert (∀ curve point, extract_ec_pubkey (SpkiDer_as_der spki) = Some (curve, point) → ∃ ctx, named_curve curve ctx) as Hn.
  { intros curve point. rewrite Hd. assert (extract_ec_pubkey sample_certificate.rsa_spki = None) as -> by by vm_compute. done. }
  assert (∀ serial, _) as Hverdict by (intros serial; exact (crl_verdict_exact sample_crl.the_crl sample_crl.crl_tbs sample_crl.crl_der sample_crl.entries
    sample_crl.encs sample_crl.rest spki (holder_cert spki serial) 20250715000000 sample_crl.crl_encoded ltac:(by vm_compute) eq_refl sample_crl.entries_encoded
    sample_crl.rest_encoded Hbad Hok Hn)).
  assert (not_past (crl_next_update (crl_fields sample_crl.the_crl sample_crl.crl_tbs sample_crl.crl_der)) 20250715000000) as Hfresh by (intros t [= <-]; lia).
  split; [|split; [|split]].
  - unfold VerifiedCrl_verify, Crl_verify_signature. rewrite Hd. by vm_compute.
  - destruct (Hverdict [0x12; 0x34]) as [_ Hv]. apply Hv.
    by apply (crl_revoked _ _ _ sample_crl.entries [] (mkRevokedEntry (mkCertSerial [0x12; 0x34]) 20250601120000 (Some CrlReason_KeyCompromise))
      [mkRevokedEntry (mkCertSerial [0x05]) 20250601120000 None]).
  - right. by left.
  - destruct (Hverdict [0x77]) as [_ Hv]. apply Hv. apply crl_good; [done|exact Hfresh|]. by_decide.
Defined.

Lemma ocsp_verdict_exact_witness : ∃ spki,
  VerifiedOcspResponse_verify sample_ocsp.basic spki = Ok (mkVerifiedOcspResponse sample_ocsp.basic) ∧
  check_against_ocsp_response (holder_cert spki [0x12; 0x34]) (mkVerifiedOcspResponse sample_ocsp.basic) 20250702000000 = Revocation_Good ∧
  check_against_ocsp_response (holder_cert spki [0x12; 0x34]) (mkVerifiedOcspResponse sample_ocsp.basic) 20250709000000 = Revocation_Stale ∧
  check_against_ocsp_response (holder_cert spki [0x05]) (mkVerifiedOcspResponse sample_ocsp.basic) 20250702000000 =
    Revocation_Revoked 20250601120000 (Some CrlReason_KeyCompromise).
Proof.
  destruct sample_certificate.spki_parsed as (spki & Hs & _ & Hd). exists spki.
  assert (bytes_ok (SpkiDer_as_der spki)) as Hok by (rewrite Hd; by_decide).
  assert (∀ curve point, extract_ec_pubkey (SpkiDer_as_der spki) = Some (curve, point) → ∃ ctx, named_curve curve ctx) as Hn.
  { intros curve point. rewrite Hd. assert (extract_ec_pubkey sample_certificate.rsa_spki = None) as -> by by vm_compute. done. }
  assert (∀ serial now, _) as Hverdict by (intros serial now; exact (ocsp_verdict_exact sample_ocsp.basic spki (holder_cert spki serial) now Hok Hn)).
  split; [|split; [|split]].
  - unfold VerifiedOcspResponse_verify, BasicOcspResponse_verify_signature. rewrite Hd. by vm_compute.
  - destruct (Hverdict [0x12; 0x34] 20250702000000) as (_ & Hv & _). apply Hv.
    apply (ocsp_status _ _ _ [] sample_ocsp.good [sample_ocsp.revoked]); [done|done|constructor|]. intros t [= <-]. lia.
  - destruct (Hverdict [0x12; 0x34] 20250709000000) as (_ & Hv & _). apply Hv.
    by apply (ocsp_stale _ _ _ [] sample_ocsp.good [sample_ocsp.revoked] 20250708000000).
  - destruct (Hverdict [0x05] 20250702000000) as (_ & Hv & _). apply Hv.
    apply (ocsp_status _ _ _ [sample_ocsp.good] sample_ocsp.revoked []); [done|done| |intros t Ht; done]. constructor; [done|constructor].
Defined.
