(* ===== verification/CertState.v ===== *)
(** crates/refineid-lib-core/src/cert_state.rs: the stages of trust in a certificate, and
    the purposes its key usage can bind it to. *)

From S2P Require Import Prelude Oid Ber Der CryptoCrates Rsa Ecdsa Identity X509.

(** ** The octets *)

Record CertDer := mkCertDer { CertDer_bytes : bytes }.
Definition CertDer_len (c : CertDer) : Z := len (CertDer_bytes c).
Definition CertDer_is_empty (c : CertDer) : bool := bool_decide (CertDer_bytes c = []).
Record RawDer := mkRawDer { RawDer_bytes : bytes }.
Definition CertDer_as_raw_der (c : CertDer) : RawDer := mkRawDer (CertDer_bytes c).

(** ** The stages *)

Record ParsedCert := mkParsedCert { pc_der : bytes; pc_inner : Certificate }.
(** The digest of the anchor is its 32 octets. *)
Record PathValidatedCert := mkPathValidatedCert { pv_cert : ParsedCert; pv_anchor_label : string; pv_anchor_sha256 : bytes }.
Inductive CertRevocationSource := CertRevocation_Crl (url : bytes) | CertRevocation_Ocsp (url : bytes).
Inductive CertRevocationStatus :=
| CertStatus_good (source : CertRevocationSource) (observed_at : DerDateTime)
| CertStatus_revoked (revoked_at : DerDateTime) (reason : Z) (source : CertRevocationSource)
| CertStatus_unknown (reason : bytes).
Record RevocationCheckedCert := mkRevocationCheckedCert {
  rv_cert : PathValidatedCert; rv_status : CertRevocationStatus; rv_validation_time : DerDateTime }.
Definition PathValidatedCert_inner (c : PathValidatedCert) : Certificate := pc_inner (pv_cert c).
Definition into_revocation_checked (c : PathValidatedCert) (status : CertRevocationStatus) (validation_time : DerDateTime) : RevocationCheckedCert :=
  mkRevocationCheckedCert c status validation_time.
Definition RevocationCheckedCert_inner (c : RevocationCheckedCert) : Certificate := PathValidatedCert_inner (rv_cert c).

(** ** The purposes *)

Class CertPurpose (P : Type) := { matches_key_usage : KeyUsage → bool; purpose_label : string }.
Arguments matches_key_usage P {_} usage.
Arguments purpose_label P {_}.
(** The markers of the purposes, and what is bound to one: [P] is not stored. *)
Inductive AuthPurpose := .
Inductive NonRepPurpose := .
Inductive CscaPurpose := .
Inductive DscPurpose := .
Inductive MlsPurpose := .
Record PurposeBoundCert (P : Type) := mkPurposeBoundCert { pb_cert : PathValidatedCert; pb_validation_time : DerDateTime }.
Arguments mkPurposeBoundCert {P} _ _.
Arguments pb_cert {P} _.
Arguments pb_validation_time {P} _.
Definition PurposeBoundCert_inner {P} (c : PurposeBoundCert P) : Certificate := PathValidatedCert_inner (pb_cert c).
Definition PurposeBoundCert_anchor_label {P} (c : PurposeBoundCert P) : string := pv_anchor_label (pb_cert c).

#[export] Instance auth_purpose : CertPurpose AuthPurpose := {|
  matches_key_usage usage := digital_signature usage && key_encipherment usage && data_encipherment usage;
  purpose_label := "authentication / encryption (digitalSignature + keyEncipherment + dataEncipherment)" |}.
#[export] Instance non_rep_purpose : CertPurpose NonRepPurpose := {|
  matches_key_usage usage :=
    non_repudiation usage && negb (digital_signature usage) && negb (key_encipherment usage) && negb (data_encipherment usage)
    && negb (key_agreement usage) && negb (key_cert_sign usage) && negb (crl_sign usage) && negb (encipher_only usage) && negb (decipher_only usage);
  purpose_label := "non-repudiation (nonRepudiation only)" |}.
#[export] Instance csca_purpose : CertPurpose CscaPurpose := {|
  matches_key_usage usage := key_cert_sign usage && crl_sign usage; purpose_label := "CSCA (keyCertSign + cRLSign)" |}.
#[export] Instance dsc_purpose : CertPurpose DscPurpose := {|
  matches_key_usage usage := digital_signature usage && negb (non_repudiation usage) && negb (key_cert_sign usage) && negb (crl_sign usage);
  purpose_label := "DSC (digitalSignature only)" |}.
#[export] Instance mls_purpose : CertPurpose MlsPurpose := {|
  matches_key_usage usage := digital_signature usage;
  purpose_label := "ML Signer (digitalSignature; EKU id-icao-mlSigner checked separately)" |}.

Inductive PurposeBindError :=
| Bind_Revoked
| Bind_RevocationUnknown
| Bind_NoKeyUsage
| Bind_WrongKeyUsage (got : KeyUsage) (expected : string).

Section stages.
Context `{DerCrate} `{ConstOid}.
Definition RawDer_parse (r : RawDer) : result X509Error ParsedCert :=
  let? inner := Certificate_from_der (RawDer_bytes r) in Ok (mkParsedCert (RawDer_bytes r) inner).
Definition bind_to_purpose (P : Type) `{CertPurpose P} (c : RevocationCheckedCert) : result PurposeBindError (PurposeBoundCert P) :=
  let? _ := match rv_status c with
            | CertStatus_good _ _ => Ok tt
            | CertStatus_revoked _ _ _ => Err Bind_Revoked
            | CertStatus_unknown _ => Err Bind_RevocationUnknown
            end in
  let? extensions := ok_or (cert_extensions (RevocationCheckedCert_inner c)) Bind_NoKeyUsage in
  let? usage := ok_or (extract_key_usage extensions) Bind_NoKeyUsage in
  if negb (matches_key_usage P usage) then Err (Bind_WrongKeyUsage usage (purpose_label P))
  else Ok (mkPurposeBoundCert (rv_cert c) (rv_validation_time c)).
End stages.

(** ** What a bound certificate is *)

Section bound.
Context `{DerCrate} `{!DerLaws} `{ConstOid}.

(** The key usage among encoded extensions: that of the first with its identifier. *)
Lemma usage_encoded exts encs : Forall2 ext_enc exts encs → len (concat encs) < DER_MAX_LEN →
  extract_key_usage (concat encs) = find_map (λ x, if decide (ext_oid x = KEY_USAGE) then Some (ext_value x) else None) exts ≫= key_usage_of_value.
Proof.
  intros He Hl. unfold extract_key_usage, find_extension. rewrite (find_extension_encoded _ _ _ He Hl). clear He Hl.
  induction exts as [|x exts IH]; [done|]. cbn [find_map]. by case_decide.
Qed.
Lemma bind_ok P `{CertPurpose P} c b : bind_to_purpose P c = Ok b ↔
  b = mkPurposeBoundCert (rv_cert c) (rv_validation_time c) ∧ (∃ source at_, rv_status c = CertStatus_good source at_) ∧
  ∃ extensions usage, cert_extensions (RevocationCheckedCert_inner c) = Some extensions ∧ extract_key_usage extensions = Some usage ∧ matches_key_usage P usage = true.
Proof.
  unfold bind_to_purpose. destruct (rv_status c) as [source at_|? ? ?|?]; cbn [result_bind]; [|by split; [|intros (_ & (? & ? & ?) & _)]..].
  destruct (cert_extensions _) as [extensions|]; cbn [ok_or result_bind]; [|by split; [|intros (_ & _ & ? & ? & ? & _)]].
  destruct (extract_key_usage extensions) as [usage|] eqn:Hu; cbn [ok_or result_bind].
  - destruct (matches_key_usage P usage) eqn:Hm; cbn [negb]; split.
    + intros [= <-]. split; [done|]. split; [by exists source, at_|]. by exists extensions, usage.
    + by intros (-> & _).
    + done.
    + intros (_ & _ & ? & ? & [= <-] & Hu' & Hm'). rewrite Hu in Hu'. injection Hu' as <-. by rewrite Hm in Hm'.
  - split; [done|]. intros (_ & _ & ? & ? & [= <-] & Hu' & _). by rewrite Hu in Hu'.
Qed.
End bound.

(** A certificate is bound to a purpose only after it was checked, and a signature key
    serves nothing else. Binding succeeds exactly when the status is good and the first
    KeyUsage extension of the certificate has the bits of the purpose, and keeps the
    certificate and its time; a status that is revoked or unknown is refused whatever the
    extensions. Non-repudiation excludes every other purpose, and a signer of documents or
    a holder's signature key is no CSCA. *)
Theorem purpose_binding_exact `{DerCrate} `{!DerLaws} `{ConstOid} `{HP : CertPurpose P} c exts encs :
  cert_extensions (RevocationCheckedCert_inner c) = Some (concat encs) → Forall2 ext_enc exts encs → len (concat encs) < DER_MAX_LEN →
  let usage := find_map (λ x, if decide (ext_oid x = KEY_USAGE) then Some (ext_value x) else None) exts ≫= key_usage_of_value in
  bind_to_purpose P c = match rv_status c, usage with
                        | CertStatus_revoked _ _ _, _ => Err Bind_Revoked
                        | CertStatus_unknown _, _ => Err Bind_RevocationUnknown
                        | CertStatus_good _ _, None => Err Bind_NoKeyUsage
                        | CertStatus_good _ _, Some u =>
                            if matches_key_usage P u then Ok (mkPurposeBoundCert (rv_cert c) (rv_validation_time c))
                            else Err (Bind_WrongKeyUsage u (purpose_label P))
                        end ∧
  (∀ nr, bind_to_purpose NonRepPurpose c = Ok nr →
    (∀ a, bind_to_purpose AuthPurpose c ≠ Ok a) ∧ (∀ a, bind_to_purpose CscaPurpose c ≠ Ok a) ∧
    (∀ a, bind_to_purpose DscPurpose c ≠ Ok a) ∧ (∀ a, bind_to_purpose MlsPurpose c ≠ Ok a)) ∧
  (∀ ca, bind_to_purpose CscaPurpose c = Ok ca → ∀ a, bind_to_purpose DscPurpose c ≠ Ok a).
Proof.
  intros Hc He Hl usage. split; [|split].
  - unfold bind_to_purpose. rewrite Hc. cbn [ok_or result_bind]. rewrite (usage_encoded _ _ He Hl). fold usage.
    destruct (rv_status c), usage as [u|]; cbn [result_bind ok_or]; try done. by destruct (matches_key_usage P u).
  - intros nr (_ & _ & ext & u & Hext & Hu & Hm)%bind_ok.
    split_and!; intros a (_ & _ & ext' & u' & Hext' & Hu' & Hm')%bind_ok; rewrite Hext in Hext'; injection Hext' as <-; rewrite Hu in Hu'; injection Hu' as <-;
      cbn [matches_key_usage non_rep_purpose auth_purpose csca_purpose dsc_purpose mls_purpose] in Hm, Hm'; destruct u as [[] [] [] [] [] [] [] [] []]; done.
  - intros ca (_ & _ & ext & u & Hext & Hu & Hm)%bind_ok a (_ & _ & ext' & u' & Hext' & Hu' & Hm')%bind_ok.
    rewrite Hext in Hext'. injection Hext' as <-. rewrite Hu in Hu'. injection Hu' as <-. cbn [matches_key_usage csca_purpose dsc_purpose] in Hm, Hm'.
    destruct u as [[] [] [] [] [] [] [] [] []]; done.
Qed.

(** The signature certificate of the sample is bound to non-repudiation. *)
Module sample_purpose.
Import ber_der dotted_texts sample_certificate.
Definition checked (spki : SpkiDer) (status : CertRevocationStatus) : RevocationCheckedCert :=
  into_revocation_checked (mkPathValidatedCert (mkParsedCert der (shape_certificate the_shape tbs der (0, 4000000000) spki)) "root" []) status 20250701000000.
Definition is_good : CertRevocationStatus := CertStatus_good (CertRevocation_Crl []) 20250701000000.
End sample_purpose.

Import ber_der dotted_texts.

Lemma purpose_binding_exact_witness : ∃ spki,
  bind_to_purpose NonRepPurpose (sample_purpose.checked spki sample_purpose.is_good) =
    Ok (mkPurposeBoundCert (rv_cert (sample_purpose.checked spki sample_purpose.is_good)) 20250701000000) ∧
  (∀ a, bind_to_purpose AuthPurpose (sample_purpose.checked spki sample_purpose.is_good) ≠ Ok a).
Proof.
  destruct sample_certificate.spki_parsed as (spki & _ & _ & _). exists spki.
  destruct (purpose_binding_exact (P := NonRepPurpose) (sample_purpose.checked spki sample_purpose.is_good) [sample_certificate.key_usage; sample_certificate.basic]
    sample_certificate.encs eq_refl sample_certificate.exts_encoded ltac:(by vm_compute)) as (Hb & Hx & _).
  assert (bind_to_purpose NonRepPurpose (sample_purpose.checked spki sample_purpose.is_good) =
    Ok (mkPurposeBoundCert (rv_cert (sample_purpose.checked spki sample_purpose.is_good)) 20250701000000)) as Hok by (rewrite Hb; by vm_compute).
  split; [exact Hok|]. by destruct (Hx _ Hok) as (? & _).
Defined.
