(* ===== verification/TrustRoots.v ===== *)
(** crates/refineid-lib-core/src/trust_roots.rs: the certificates of authorities that a
    card carries, kept once for the process, and the bundle they are published in. *)

From S2P Require Import Prelude StatusWord Ber Transport Apdu Pkcs15 Der CryptoCrates X509 Crl Ocsp.

Record RootCertificates := mkRootCertificates { root_ca : option bytes; intermediate_ca : option bytes; extra_cas : list bytes }.
Definition RootCertificates_new (root_ca intermediate_ca : option bytes) : RootCertificates := mkRootCertificates root_ca intermediate_ca [].
Definition with_extra_cas (r : RootCertificates) (extra_cas : list bytes) : RootCertificates := mkRootCertificates (root_ca r) (intermediate_ca r) extra_cas.
Definition RootCertificates_is_empty (r : RootCertificates) : bool :=
  bool_decide (root_ca r = None) && bool_decide (intermediate_ca r = None) && bool_decide (extra_cas r = []).
Definition RootCertificates_certs (r : RootCertificates) : list bytes := option_list (root_ca r) ++ option_list (intermediate_ca r) ++ extra_cas r.
Definition contains_fingerprint `{Sha256Hash} (r : RootCertificates) (fingerprint : bytes) : bool :=
  existsb (λ der, bool_decide (sha256 der = fingerprint)) (RootCertificates_certs r).

(** ** The bundle *)

(** A length above 32 bits leaves the length out. *)
Definition encode_tlv (tag : Z) (value : bytes) : bytes :=
  let n := len value in
  let out := [tag] in
  let out :=
    if n <=? u8_max then (if 0x80 <=? n then out ++ [0x81] else out) ++ [n]
    else if n <=? u16_max then out ++ [0x82] ++ to_be 2 n
    else if n <=? u32_max then
      if n <=? 0x00FFFFFF then out ++ [0x83] ++ drop 1 (to_be 4 n) else out ++ [0x84] ++ to_be 4 n
    else out in
  out ++ value.
Definition SIGNED_DATA_VERSION : bytes := [0x02; 0x01; 0x01].
Definition CONTENT_INFO_PKCS7_DATA : bytes := [0x30; 0x0B; 0x06; 0x09; 0x2A; 0x86; 0x48; 0x86; 0xF7; 0x0D; 0x01; 0x07; 0x01].
Definition EMPTY_SET : bytes := [0x31; 0x00].
Definition SIGNED_DATA_OID : bytes := [0x06; 0x09; 0x2A; 0x86; 0x48; 0x86; 0xF7; 0x0D; 0x01; 0x07; 0x02].
Definition build_pkcs7_certs_bundle (certs : list bytes) : bytes :=
  let certificates_tagged := encode_tlv 0xA0 (concat certs) in
  let signed_data_seq := encode_tlv 0x30 (SIGNED_DATA_VERSION ++ EMPTY_SET ++ CONTENT_INFO_PKCS7_DATA ++ certificates_tagged ++ EMPTY_SET) in
  let content_explicit := encode_tlv 0xA0 signed_data_seq in
  encode_tlv 0x30 (SIGNED_DATA_OID ++ content_explicit).
Definition to_pkcs7_bundle (r : RootCertificates) : bytes := build_pkcs7_certs_bundle (RootCertificates_certs r).

(** ** The cache of the process: a cell that is set once *)

Definition RootCell : Type := option RootCertificates.
Definition set_root_certificates (roots : RootCertificates) (cell : RootCell) : RootCell * result string unit :=
  match cell with Some _ => (cell, Err "already initialized") | None => (Some roots, Ok tt) end.
Definition active_root_certificates (cell : RootCell) : option RootCertificates := cell.

Section fetch.
Context {T TE : Type} `{CardTransport T TE}.

(** [read_certificate(..).ok()]. *)
Definition read_ok (slot : CertSlot) {F} : act T F (option bytes) := do! r := act_attempt (read_certificate slot) in act_ret (result_ok r).
(** What other threads set while the card was read, if the cell was still empty. *)
Definition set_meanwhile (others : option RootCertificates) (cell : RootCell) : RootCell := match cell with Some _ => cell | None => others end.
Definition fetch_and_cache_from_card {F} (others : option RootCertificates) : act (T * RootCell) F (option RootCertificates) :=
  λ '(t, cell),
    match active_root_certificates cell with
    | Some cached => ((t, cell), Ok (Some cached))
    | None =>
        match (do! root_ca := read_ok Cs_RootCa in do! intermediate_ca := read_ok Cs_IssuingCaEcc in act_ret (root_ca, intermediate_ca)) t with
        | (t, Ok (root_ca, intermediate_ca)) =>
            let cell := set_meanwhile others cell in
            let cell :=
              if bool_decide (is_Some root_ca) || bool_decide (is_Some intermediate_ca)
              then (set_root_certificates (RootCertificates_new root_ca intermediate_ca) cell).1
              else cell in
            ((t, cell), Ok (active_root_certificates cell))
        | (t, Err e) => ((t, cell), Err e)
        | (t, Panic) => ((t, cell), Panic)
        end
    end.
End fetch.

(** ** The bundle *)

Lemma encode_tlv_tlv tag v : len v ≤ u32_max → tlv (E := unit) tag v = Ok (encode_tlv tag v).
Proof.
  intros Hv. unfold tlv, BerEncoder_push_tlv, BerEncoder_push_length, encode_tlv. pose proof (len_nonneg v).
  unfold SHORT_FORM_CEILING, u8_max, u16_max, u32_max in *. change (Z.shiftl 1 24 - 1) with 0xFFFFFF.
  repeat match goal with |- context [?a <=? ?b] => destruct (Z.leb_spec a b); try lia | |- context [?a <? ?b] => destruct (Z.ltb_spec a b); try lia end;
    cbn [result_bind app]; by rewrite <- ?app_assoc.
Qed.
Lemma encode_tlv_len tag v : len v ≤ u32_max → len (encode_tlv tag v) ≤ len v + 6.
Proof.
  intros Hv. destruct (@tlv_ok unit tag v Hv) as (lb & He & _ & _ & Hl). rewrite encode_tlv_tlv in He by done. injection He as ->.
  rewrite len_cons, len_app. lia.
Qed.
Lemma encode_tlv_enc tag v : plain_tag tag → len v ≤ u32_max → der_enc tag v (encode_tlv (tag_octet tag) v).
Proof. intros Ht Hv. split; [done|]. by apply encode_tlv_tlv. Qed.

(** A SignedData of PKCS#7 with certificates only. *)
Inductive bundle_enc (certs : list bytes) (e : bytes) : Prop :=
| bundle_intro tagged signed_data explicit :
    der_enc (context_tag 0) (concat certs) tagged →
    der_enc Tag_Sequence (SIGNED_DATA_VERSION ++ EMPTY_SET ++ CONTENT_INFO_PKCS7_DATA ++ tagged ++ EMPTY_SET) signed_data →
    der_enc (context_tag 0) signed_data explicit → der_enc Tag_Sequence (SIGNED_DATA_OID ++ explicit) e → bundle_enc certs e.

(** The bundle of certificates is a PKCS#7 SignedData that holds exactly them. For
    certificates of at most 16 MiB together the writer makes DER of the certificates-only
    form, and reading its certificate set hands out the root, the intermediate and the
    others, each whole and in this order. *)
Theorem bundle_roundtrip `{DerCrate} `{!DerLaws} r :
  Forall encoded_value (RootCertificates_certs r) → len (concat (RootCertificates_certs r)) ≤ 2 ^ 24 →
  bundle_enc (RootCertificates_certs r) (to_pkcs7_bundle r) ∧
  ∃ header, AnyRef_from_der (encode_tlv 0xA0 (concat (RootCertificates_certs r))) = Some (mkAnyRef (context_tag 0) header) ∧
    reader_items header = map Some (RootCertificates_certs r).
Proof.
  intros Hc Hl. change (2 ^ 24) with 16777216 in Hl. set (certs := RootCertificates_certs r) in *.
  assert (len (concat certs) ≤ u32_max) as L0 by (unfold u32_max; lia). pose proof (encode_tlv_len 0xA0 _ L0) as L1.
  pose proof (encode_tlv_enc (context_tag 0) _ ltac:(by cbn) L0) as H1. change (tag_octet (context_tag 0)) with 0xA0 in H1. split.
  - unfold to_pkcs7_bundle, build_pkcs7_certs_bundle. fold certs. set (tagged := encode_tlv 0xA0 (concat certs)) in *.
    set (body := SIGNED_DATA_VERSION ++ EMPTY_SET ++ CONTENT_INFO_PKCS7_DATA ++ tagged ++ EMPTY_SET).
    assert (len body = len tagged + 20) as Lb by (subst body; rewrite !len_app; change (len SIGNED_DATA_VERSION) with 3; change (len EMPTY_SET) with 2; change (len CONTENT_INFO_PKCS7_DATA) with 13; lia).
    assert (len body ≤ u32_max) as L2 by (unfold u32_max; lia). pose proof (encode_tlv_len 0x30 _ L2) as L3.
    assert (len (encode_tlv 0x30 body) ≤ u32_max) as L4 by (unfold u32_max; lia). pose proof (encode_tlv_len 0xA0 _ L4) as L5.
    eapply bundle_intro; [exact H1|by apply (encode_tlv_enc Tag_Sequence)|by apply (encode_tlv_enc (context_tag 0))|].
    apply (encode_tlv_enc Tag_Sequence); [done|]. rewrite len_app. change (len SIGNED_DATA_OID) with 11. unfold u32_max. lia.
  - exists (concat certs). split; [apply (der_enc_any _ _ _ H1); unfold DER_MAX_LEN; lia|]. apply der_items; [done|unfold DER_MAX_LEN; lia].
Qed.

(** ** The cache *)

(** The certificates of the process are set once and come from the card. When they are
    set, the card is left alone and they are returned as they are. When they are not, the
    root and the issuing certificate are read, in this order; what another thread set in
    the meantime stays, otherwise the ones that could be read are set if there is one; and
    what is returned is what is set from then on. *)
Theorem root_cache_exact `{CardTransport T TE} {F} others (t t' : T) cell cell' r :
  fetch_and_cache_from_card (F := F) others (t, cell) = ((t', cell'), Ok r) →
  r = cell' ∧ (∀ c, cell = Some c → t' = t ∧ cell' = Some c) ∧
  (cell = None → ∃ t1 root issuing, read_certificate Cs_RootCa t = (t1, root) ∧ read_certificate Cs_IssuingCaEcc t1 = (t', issuing) ∧
    cell' = match others, result_ok root, result_ok issuing with
            | Some o, _, _ => Some o
            | None, None, None => None
            | None, a, b => Some (RootCertificates_new a b)
            end).
Proof.
  unfold fetch_and_cache_from_card, active_root_certificates, read_ok, act_attempt. destruct cell as [c|].
  - intros [= <- <- <-]. split; [done|]. split; [by intros c' [= <-]|done].
  - unfold act_bind. destruct (read_certificate Cs_RootCa t) as [t1 root] eqn:Hr. destruct root as [a|e|]; cbn [act_ret result_ok]; try done;
      destruct (read_certificate Cs_IssuingCaEcc t1) as [t2 issuing] eqn:Hi; destruct issuing as [b|e'|]; cbn [act_ret result_ok]; try done;
      cbn [set_meanwhile]; intros [= <- <- <-]; (split; [done|]); (split; [done|]); intros _;
      exists t1; eexists _, _; (split; [done|]); (split; [exact Hi|]); by destruct others.
Qed.
