(* ===== verification/Ldif.v ===== *)
(** crates/refineid-lib-core/src/ldif.rs: the records of an LDIF file, with folded lines
    and values in base 64. Text is its UTF-8 octets. *)

From S2P Require Import Prelude Decimal Utf8 Str.

Inductive LdifValue := Attr_Text (s : bytes) | Attr_Binary (bs : bytes).
#[export] Instance AttrValue_eq_dec : EqDecision LdifValue.
Proof. solve_decision. Defined.
Record LdifRecord := mkLdifRecord { ldif_attrs : list (bytes * LdifValue) }.
Inductive LdifError :=
| Ldif_MissingColon (line_number : Z)
| Ldif_BadBase64 (line_number : Z)
| Ldif_OrphanContinuation (line_number : Z)
| Ldif_NotUtf8.

Definition ascii_lower (s : bytes) : bytes := map to_ascii_lowercase s.
Definition ldif_values (r : LdifRecord) (name : bytes) : list LdifValue :=
  omap (λ '(k, v), if bool_decide (k = ascii_lower name) then Some v else None) (ldif_attrs r).
Definition binary_values (r : LdifRecord) (name : bytes) : list bytes :=
  omap (λ v, match v with Attr_Binary b => Some b | Attr_Text _ => None end) (ldif_values r name).
Definition has_object_class (r : LdifRecord) (class : bytes) : bool :=
  existsb (λ v, match v with Attr_Text s => eq_ignore_ascii_case s (ascii_lower class) | Attr_Binary _ => false end)
    (ldif_values r (bytes_of_string "objectclass")).

(** ** Base 64 *)

Definition base64_sextet (c : Z) : option Z :=
  if within 0x41 0x5A c then Some (c - 0x41)
  else if within 0x61 0x7A c then Some (c - 0x61 + 26)
  else if within 0x30 0x39 c then Some (c - 0x30 + 52)
  else if c =? 0x2B then Some 62
  else if c =? 0x2F then Some 63
  else None.
Definition PAD : Z := 0x3D.
Fixpoint leading_pads (s : bytes) : nat := match s with c :: s => if c =? PAD then S (leading_pads s) else O | [] => O end.
Fixpoint chunk_sextets (i data_len : nat) (chunk : bytes) : option (list Z) :=
  match chunk with
  | [] => Some []
  | c :: chunk =>
      slot ← (if c =? PAD then if Nat.ltb i data_len then None else Some 0 else base64_sextet c);
      rest ← chunk_sextets (S i) data_len chunk;
      Some (slot :: rest)
  end.
Definition decode_chunk (chunk : bytes) : option bytes :=
  let pad := leading_pads (reverse chunk) in
  if Nat.ltb 2 pad then None
  else
    v ← chunk_sextets 0 (4 - pad)%nat chunk;
    match v with
    | [a; b; c; d] =>
        let triple := Z.lor (Z.lor (Z.lor (Z.shiftl a 18) (Z.shiftl b 12)) (Z.shiftl c 6)) d in
        match to_be 4 triple with
        | [_; x; y; z] => Some ([x] ++ (if Nat.ltb pad 2 then [y] else []) ++ (if Nat.ltb pad 1 then [z] else []))
        | _ => None
        end
    | _ => None
    end.
(** [chunks(4)] of a buffer whose length is a multiple of four. *)
Fixpoint base64_chunks (s : bytes) : option bytes :=
  match s with
  | a :: b :: c :: d :: s => x ← decode_chunk [a; b; c; d]; out ← base64_chunks s; Some (x ++ out)
  | _ => Some []
  end.
Definition base64_decode_strict (s : bytes) : option bytes := if negb (len s mod 4 =? 0) then None else base64_chunks s.

(** ** Lines *)

(** [str::lines]: a line feed, with a carriage return before it, ends a line. *)
Definition strip_cr (l : bytes) : bytes := match list.last l with Some c => if c =? 0x0D then removelast l else l | None => l end.
Definition str_lines (s : bytes) : list bytes :=
  let pieces := split 0x0A s in
  map strip_cr (removelast pieces) ++ match list.last pieces with Some [] | None => [] | Some l => [l] end.
Definition continuation (raw : bytes) : option bytes :=
  match strip_prefix [0x20] raw with Some rest => Some rest | None => strip_prefix [0x09] raw end.
(** [last_mut] and [push_str]. *)
Definition push_last (logical : list (Z * bytes)) (rest : bytes) : option (list (Z * bytes)) :=
  '(n, l) ← list.last logical; Some (removelast logical ++ [(n, l ++ rest)]).
Fixpoint unfold_lines (line_number : Z) (raws : list bytes) (logical : list (Z * bytes)) : result LdifError (list (Z * bytes)) :=
  match raws with
  | [] => Ok logical
  | raw :: raws =>
      match continuation raw with
      | Some rest =>
          let? logical := ok_or (push_last logical rest) (Ldif_OrphanContinuation line_number) in
          unfold_lines (line_number + 1) raws logical
      | None => unfold_lines (line_number + 1) raws (logical ++ [(line_number, raw)])
      end
  end.

(** ** Records *)

Definition is_ascii_whitespace (c : Z) : bool := (c =? 0x20) || (c =? 0x09) || (c =? 0x0A) || (c =? 0x0C) || (c =? 0x0D).
Definition trim_spaces (s : bytes) : bytes := drop (default (length s) (position (λ c, negb (c =? 0x20)) s)) s.
Definition parse_attribute_line (line : bytes) (line_number : Z) : result LdifError (bytes * LdifValue) :=
  let? (name, rest) := ok_or (split_once 0x3A line) (Ldif_MissingColon line_number) in
  match strip_prefix [0x3A] rest with
  | Some b64 =>
      let trimmed := List.filter (λ c, negb (is_ascii_whitespace c)) b64 in
      let? decoded := ok_or (base64_decode_strict trimmed) (Ldif_BadBase64 line_number) in
      Ok (name, Attr_Binary decoded)
  | None => Ok (name, Attr_Text (trim_spaces rest))
  end.
Definition canonical_attribute_name (name_with_opts : bytes) : bytes := ascii_lower (default [] (head (split 0x3B name_with_opts))).
Fixpoint records_of (logical : list (Z * bytes)) (records : list LdifRecord) (current : list (bytes * LdifValue)) : result LdifError (list LdifRecord) :=
  match logical with
  | [] => Ok (match current with [] => records | _ => records ++ [mkLdifRecord current] end)
  | (line_number, line) :: logical =>
      match line with
      | [] => match current with [] => records_of logical records [] | _ => records_of logical (records ++ [mkLdifRecord current]) [] end
      | c :: _ =>
          if c =? 0x23 then records_of logical records current
          else match strip_prefix (bytes_of_string "version:") line with
               | Some _ => records_of logical records current
               | None =>
                   let? (name_with_opts, value) := parse_attribute_line line line_number in
                   records_of logical records (current ++ [(canonical_attribute_name name_with_opts, value)])
               end
      end
  end.
Definition ldif_parse (text : bytes) : result LdifError (list LdifRecord) :=
  let? logical := unfold_lines 1 (str_lines text) [] in records_of logical [] [].
Definition ldif_parse_bytes (bs : bytes) : result LdifError (list LdifRecord) :=
  let? text := ok_or (str_from_utf8 bs) Ldif_NotUtf8 in ldif_parse text.

(** ** Base 64 of the standard *)

Definition b64_char (v : Z) : Z :=
  if v <? 26 then 0x41 + v else if v <? 52 then 0x61 + (v - 26) else if v <? 62 then 0x30 + (v - 52) else if v =? 62 then 0x2B else 0x2F.
Definition b64_four (n : Z) : bytes := map b64_char [n / 262144; n / 4096 mod 64; n / 64 mod 64; n mod 64].
Fixpoint base64_encode (bs : bytes) : bytes :=
  match bs with
  | x :: y :: z :: bs => b64_four (x * 65536 + y * 256 + z) ++ base64_encode bs
  | [x; y] => take 3 (b64_four (x * 65536 + y * 256)) ++ [PAD]
  | [x] => take 2 (b64_four (x * 65536)) ++ [PAD; PAD]
  | [] => []
  end.

Lemma b64_char_spec v : 0 ≤ v < 64 → base64_sextet (b64_char v) = Some v ∧ (b64_char v =? PAD) = false ∧ is_ascii_whitespace (b64_char v) = false ∧ b64_char v ≠ 0x0A.
Proof.
  intros Hv. set (good := λ v, bool_decide (base64_sextet (b64_char v) = Some v) && negb (b64_char v =? PAD) && negb (is_ascii_whitespace (b64_char v)) && negb (b64_char v =? 0x0A)).
  assert (forallb (λ n, good (Z.of_nat n)) (seq 0 64) = true) as Hall by by vm_compute. rewrite forallb_forall in Hall.
  specialize (Hall (Z.to_nat v)). rewrite Z2Nat.id in Hall by lia. specialize (Hall ltac:(apply in_seq; lia)). unfold good in Hall.
  rewrite !andb_true_iff, bool_decide_eq_true, !negb_true_iff, (Z.eqb_neq _ 10) in Hall. tauto.
Qed.
Lemma triple_value a b c d : 0 ≤ a → 0 ≤ b < 64 → 0 ≤ c < 64 → 0 ≤ d < 64 →
  Z.lor (Z.lor (Z.lor (Z.shiftl a 18) (Z.shiftl b 12)) (Z.shiftl c 6)) d = a * 262144 + b * 4096 + c * 64 + d.
Proof.
  intros Ha Hb Hc Hd. rewrite <- !Z.lor_assoc. rewrite (lor_shiftl 6 c d) by lia. change (2 ^ 6) with 64.
  rewrite (lor_shiftl 12 b) by lia. change (2 ^ 12) with 4096. rewrite (lor_shiftl 18 a) by lia. change (2 ^ 18) with 262144. lia.
Qed.
Lemma triple_octets a b c d x y z : 0 ≤ a → 0 ≤ b < 64 → 0 ≤ c < 64 → 0 ≤ d < 64 → bytes_ok [x; y; z] →
  a * 262144 + b * 4096 + c * 64 + d = x * 65536 + y * 256 + z →
  to_be 4 (Z.lor (Z.lor (Z.lor (Z.shiftl a 18) (Z.shiftl b 12)) (Z.shiftl c 6)) d) = [0; x; y; z].
Proof.
  intros Ha Hb Hc Hd Hok Heq. rewrite triple_value, Heq by done. assert (bytes_ok [0; x; y; z]) as H0 by (constructor; [by split|done]).
  etrans; [|by apply (to_be_be_fold [0; x; y; z])]. cbn [length]. f_equal. pose proof Hok as (Hx & Hy & (Hz & _)%Forall_cons_iff)%Forall_cons_iff2.
  unfold be_fold. cbn [foldl]. rewrite !lor_shiftl8 by done. change (Z.lor (Z.shiftl 0 8) 0) with 0. lia.
Qed.
Ltac sextet v := let H := fresh "Hs" in let P := fresh "Hp" in destruct (b64_char_spec v) as (H & P & _ & _); [Z.to_euclidean_division_equations; lia|].

Lemma sextets_read a b c d : 0 ≤ a < 64 → 0 ≤ b < 64 → 0 ≤ c < 64 → 0 ≤ d < 64 →
  chunk_sextets 0 4 (map b64_char [a; b; c; d]) = Some [a; b; c; d] ∧ leading_pads (reverse (map b64_char [a; b; c; d])) = O ∧
  chunk_sextets 0 3 (map b64_char [a; b; c] ++ [PAD]) = Some [a; b; c; 0] ∧ leading_pads (reverse (map b64_char [a; b; c] ++ [PAD])) = 1%nat ∧
  chunk_sextets 0 2 (map b64_char [a; b] ++ [PAD; PAD]) = Some [a; b; 0; 0] ∧ leading_pads (reverse (map b64_char [a; b] ++ [PAD; PAD])) = 2%nat.
Proof.
  intros Ha Hb Hc Hd. sextet a. sextet b. sextet c. sextet d. cbn [map app chunk_sextets].
  rewrite Hp, Hp0, Hp1, Hp2, Hs, Hs0, Hs1, Hs2. cbn [mbind option_bind]. split_and!; try done; unfold reverse; cbn [rev_append leading_pads].
  - by rewrite Hp2.
  - by rewrite Hp1.
  - by rewrite Hp0.
Qed.
Lemma decode_three x y z : bytes_ok [x; y; z] → decode_chunk (b64_four (x * 65536 + y * 256 + z)) = Some [x; y; z].
Proof.
  intros Hok. pose proof Hok as (Hx & Hy & (Hz & _)%Forall_cons_iff)%Forall_cons_iff2. unfold is_byte in *. set (n := x * 65536 + y * 256 + z).
  assert (0 ≤ n < 16777216) as Hn by lia. unfold b64_four.
  destruct (sextets_read (n / 262144) (n / 4096 mod 64) (n / 64 mod 64) (n mod 64)) as (Hs & Hp & _); try (Z.to_euclidean_division_equations; lia).
  unfold decode_chunk. rewrite Hp. cbn [Nat.ltb Nat.leb Nat.sub]. rewrite Hs. cbn [mbind option_bind].
  rewrite (triple_octets _ _ _ _ x y z); [done|..|done|]; Z.to_euclidean_division_equations; lia.
Qed.
Lemma decode_two x y : bytes_ok [x; y] → decode_chunk (take 3 (b64_four (x * 65536 + y * 256)) ++ [PAD]) = Some [x; y].
Proof.
  intros Hok. pose proof Hok as (Hx & Hy & _)%Forall_cons_iff2. unfold is_byte in *. set (n := x * 65536 + y * 256).
  assert (0 ≤ n < 16777216) as Hn by lia. unfold b64_four. cbn [map take].
  destruct (sextets_read (n / 262144) (n / 4096 mod 64) (n / 64 mod 64) 0) as (_ & _ & Hs & Hp & _); try (Z.to_euclidean_division_equations; lia). cbn [map] in Hs, Hp.
  unfold decode_chunk. rewrite Hp. cbn [Nat.ltb Nat.leb Nat.sub]. rewrite Hs. cbn [mbind option_bind].
  rewrite (triple_octets _ _ _ _ x y 0); [done|..|solve_bytes|]; Z.to_euclidean_division_equations; lia.
Qed.
Lemma decode_one x : is_byte x → decode_chunk (take 2 (b64_four (x * 65536)) ++ [PAD; PAD]) = Some [x].
Proof.
  intros Hx. unfold is_byte in *. set (n := x * 65536). assert (0 ≤ n < 16777216) as Hn by lia. unfold b64_four. cbn [map take].
  destruct (sextets_read (n / 262144) (n / 4096 mod 64) 0 0) as (_ & _ & _ & _ & Hs & Hp); try (Z.to_euclidean_division_equations; lia). cbn [map] in Hs, Hp.
  unfold decode_chunk. rewrite Hp. cbn [Nat.ltb Nat.leb Nat.sub]. rewrite Hs. cbn [mbind option_bind].
  rewrite (triple_octets _ _ _ _ x 0 0); [done|..|solve_bytes|]; Z.to_euclidean_division_equations; lia.
Qed.
Lemma decode_chunks_four four rest : length four = 4%nat → base64_chunks (four ++ rest) = (x ← decode_chunk four; out ← base64_chunks rest; Some (x ++ out)).
Proof. do 4 (destruct four as [|? four]; [done|]). by destruct four. Qed.
(** Three octets at a time. *)
Lemma bytes_by_three (P : bytes → Prop) : P [] → (∀ x, P [x]) → (∀ x y, P [x; y]) → (∀ x y z l, P l → P (x :: y :: z :: l)) → ∀ l, P l.
Proof.
  intros H0 H1 H2 H3 l. remember (length l) as n eqn:Hn. revert l Hn. induction n as [n IH] using lt_wf_ind. intros [|x [|y [|z l]]] ->; [done..|].
  apply H3, (IH (length l)); [simpl; lia|done].
Qed.
Lemma encode_length bs : len (base64_encode bs) mod 4 = 0.
Proof.
  induction bs as [|x|x y|x y z bs IH] using bytes_by_three; [done..|]. cbn [base64_encode]. rewrite len_app. change (len (b64_four _)) with 4.
  by rewrite <- Z.add_mod_idemp_l, Z_mod_same_full, Z.add_0_l.
Qed.
Lemma base64_roundtrip bs : bytes_ok bs → base64_decode_strict (base64_encode bs) = Some bs.
Proof.
  intros Hbs. unfold base64_decode_strict. rewrite encode_length. cbn [Z.eqb negb]. revert Hbs.
  induction bs as [|x|x y|x y z bs IH] using bytes_by_three; intros Hbs; [done|..]; cbn [base64_encode].
  - apply Forall_cons_iff in Hbs as [Hx _]. pose proof (decode_chunks_four (take 2 (b64_four (x * 65536)) ++ [PAD; PAD]) [] eq_refl) as Hd.
    rewrite app_nil_r in Hd. by rewrite Hd, decode_one.
  - pose proof (decode_chunks_four (take 3 (b64_four (x * 65536 + y * 256)) ++ [PAD]) [] eq_refl) as Hd. rewrite app_nil_r in Hd. by rewrite Hd, decode_two.
  - apply (Forall_app _ [x; y; z] bs) in Hbs as [H3 Hbs]. rewrite decode_chunks_four, decode_three, IH by done. done.
Qed.

(** ** A file as it is written *)

(** An attribute, with options after its name or not, and its line. *)
Definition attr_line (a : bytes * LdifValue) : bytes :=
  match a.2 with Attr_Text s => a.1 ++ [0x3A; 0x20] ++ s | Attr_Binary bs => a.1 ++ [0x3A; 0x3A; 0x20] ++ base64_encode bs end.
Definition attr_ok (a : bytes * LdifValue) : Prop :=
  (∃ c s, a.1 = c :: s ∧ c ≠ 0x20 ∧ c ≠ 0x09 ∧ c ≠ 0x23) ∧ (0x3A ∉ a.1) ∧ a.1 ≠ bytes_of_string "version" ∧
  match a.2 with Attr_Text s => head s ≠ Some 0x20 | Attr_Binary bs => bytes_ok bs end.
(** The name up to its options, its ASCII capitals as small letters. *)
Fixpoint name_read (s : bytes) : bytes :=
  match s with
  | [] => []
  | c :: s => if decide (c = 0x3B) then [] else (if decide (0x41 ≤ c ≤ 0x5A) then c + 0x20 else c) :: name_read s
  end.
Definition attr_read (a : bytes * LdifValue) : bytes * LdifValue := (name_read a.1, a.2).
Lemma canonical_name_read s : canonical_attribute_name s = name_read s.
Proof.
  unfold canonical_attribute_name, ascii_lower. induction s as [|c s IH]; [done|]. cbn [split name_read].
  destruct (Z.eqb_spec c 0x3B) as [->|Hc]; [done|]. rewrite decide_False by done.
  assert (to_ascii_lowercase c = (if decide (0x41 ≤ c ≤ 0x5A) then c + 0x20 else c)) as <-.
  { unfold to_ascii_lowercase, is_ascii_uppercase, within. destruct (Z.leb_spec 65 c), (Z.leb_spec c 90); cbn [andb]; [rewrite decide_True by lia|rewrite decide_False by lia..]; lia. }
  destruct (split 0x3B s) as [|p ps]; cbn [head default map] in *; by rewrite <- IH.
Qed.
(** A comment or a version. *)
Definition note (l : bytes) : Prop := (∃ s, l = 0x23 :: s) ∨ ∃ s, l = bytes_of_string "version:" ++ s.
Inductive attrs_lines : list (bytes * LdifValue) → list bytes → Prop :=
| attrs_nil : attrs_lines [] []
| attrs_attr a l ls : attr_ok a → attrs_lines l ls → attrs_lines (a :: l) (attr_line a :: ls)
| attrs_note s l ls : note s → attrs_lines l ls → attrs_lines l (s :: ls).
(** Records are apart by blank lines. *)
Inductive doc_lines : list (list (bytes * LdifValue)) → list bytes → Prop :=
| doc_nil : doc_lines [] []
| doc_blank rs ls : doc_lines rs ls → doc_lines rs ([] :: ls)
| doc_notes rs ns ls : Forall note ns → doc_lines rs ls → doc_lines rs (ns ++ ls)
| doc_last r ls : r ≠ [] → attrs_lines r ls → doc_lines [r] ls
| doc_record r rs ls ls' : r ≠ [] → attrs_lines r ls → doc_lines rs ls' → doc_lines (r :: rs) (ls ++ [] :: ls').
(** A line in pieces: each but the first after a space or a tab. *)
Inductive folded : bytes → list bytes → Prop :=
| folded_intro first conts : continuation first = None → Forall (λ c, c.1 = 0x20 ∨ c.1 = 0x09) conts →
    folded (first ++ concat (map snd conts)) (first :: map (λ c : Z * bytes, c.1 :: c.2) conts).
Lemma folded_plain l : continuation l = None → folded l [l].
Proof. intros Hl. rewrite <- (app_nil_r l) at 1. exact (folded_intro l [] Hl (Forall_nil_2 _)). Qed.
(** A line with its end: CR LF, or LF alone. *)
Definition ended (w : bytes * bool) : bytes := w.1 ++ (if w.2 then [0x0D] else []) ++ [0x0A].
Definition ended_ok (w : bytes * bool) : Prop := (0x0A ∉ w.1) ∧ (w.2 = false → list.last w.1 ≠ Some 0x0D).

Lemma str_lines_cons a b : 0x0A ∉ a → str_lines (a ++ 0x0A :: b) = strip_cr a :: str_lines b.
Proof.
  intros Ha. unfold str_lines. rewrite split_at by done. pose proof (split_not_nil 0x0A b) as Hn. destruct (split 0x0A b) as [|p ps]; [done|].
  change (removelast (a :: p :: ps)) with (a :: removelast (p :: ps)). cbn [map app]. f_equal.
Qed.
Lemma str_lines_ended ws : Forall ended_ok ws → str_lines (concat (map ended ws)) = map fst ws.
Proof.
  induction 1 as [|[l cr] ws [Hl Hcr] _ IH]; [done|]. cbn [map concat fst]. unfold ended at 1. cbn [fst snd] in *. rewrite <- !app_assoc. cbn [app].
  rewrite app_assoc. rewrite str_lines_cons, IH.
  - f_equal. unfold strip_cr. destruct cr; [by rewrite list.last_snoc, Z.eqb_refl, removelast_last|]. rewrite app_nil_r.
    destruct (list.last l) as [c|] eqn:Hlast; [|done]. destruct (Z.eqb_spec c 0x0D) as [->|]; [by destruct (Hcr eq_refl)|done].
  - rewrite not_elem_of_app. split; [done|]. destruct cr; [by intros ?%list_elem_of_singleton|apply not_elem_of_nil].
Qed.
Lemma unfold_conts conts n rest acc k l : Forall (λ c : Z * bytes, c.1 = 0x20 ∨ c.1 = 0x09) conts →
  ∃ m, unfold_lines n (map (λ c : Z * bytes, c.1 :: c.2) conts ++ rest) (acc ++ [(k, l)]) = unfold_lines m rest (acc ++ [(k, l ++ concat (map snd conts))]).
Proof.
  intros Hc. revert n l. induction Hc as [|[c s] conts Hc _ IH]; intros n l; [exists n; by rewrite app_nil_r|]. cbn [map app concat fst snd unfold_lines] in *.
  assert (continuation (c :: s) = Some s) as -> by (destruct Hc as [-> | ->]; done). unfold push_last. rewrite list.last_snoc, removelast_last. cbn [mbind option_bind ok_or result_bind].
  destruct (IH (n + 1) (l ++ s)) as (m & ->). exists m. by rewrite <- app_assoc.
Qed.
Lemma unfold_folded logical phys n acc : Forall2 folded logical phys →
  ∃ out, unfold_lines n (concat phys) acc = Ok (acc ++ out) ∧ map snd out = logical.
Proof.
  intros Hf. revert n acc. induction Hf as [|l p logical phys [first conts Hfirst Hc] _ IH]; intros n acc; [exists []; by rewrite app_nil_r|].
  cbn [concat app unfold_lines]. rewrite Hfirst. destruct (unfold_conts conts (n + 1) (concat phys) acc n first Hc) as (m & ->).
  destruct (IH m (acc ++ [(n, first ++ concat (map snd conts))])) as (out & -> & Hout). exists ((n, first ++ concat (map snd conts)) :: out).
  split; [by rewrite <- app_assoc|]. cbn [map snd]. by rewrite Hout.
Qed.

Lemma trim_one s : head s ≠ Some 0x20 → trim_spaces (0x20 :: s) = s.
Proof.
  intros Hs. unfold trim_spaces. destruct s as [|c s]; [done|]. rewrite (position_at _ [0x20] c s); [done|by constructor|].
  destruct (Z.eqb_spec c 0x20) as [->|]; [by destruct Hs|done].
Qed.
Lemma four_clean n : 0 ≤ n < 2 ^ 24 → Forall (λ c, is_ascii_whitespace c = false) (b64_four n).
Proof.
  change (2 ^ 24) with 16777216. intros Hn. unfold b64_four. cbn [map].
  repeat (apply Forall_cons_2; [apply b64_char_spec; Z.to_euclidean_division_equations; lia|]). apply Forall_nil_2.
Qed.
Lemma encode_clean bs : bytes_ok bs → Forall (λ c, is_ascii_whitespace c = false) (base64_encode bs).
Proof.
  change (bytes_ok bs) with (Forall is_byte bs). induction bs as [|x|x y|x y z bs IH] using bytes_by_three; intros Hbs; [constructor|..]; cbn [base64_encode];
    unfold is_byte in Hbs; repeat (let H := fresh "Hb" in apply Forall_cons_iff in Hbs as [H Hbs]); apply Forall_app; split; try (by repeat constructor).
  - apply Forall_take, four_clean. change (2 ^ 24) with 16777216. lia.
  - apply Forall_take, four_clean. change (2 ^ 24) with 16777216. lia.
  - apply four_clean. change (2 ^ 24) with 16777216. lia.
  - by apply IH.
Qed.
Lemma filter_clean l : Forall (λ c, is_ascii_whitespace c = false) l → List.filter (λ c, negb (is_ascii_whitespace c)) l = l.
Proof. induction 1 as [|c l Hc _ IH]; [done|]. cbn [List.filter]. by rewrite Hc, IH. Qed.
Lemma attr_line_split a : attr_line a = a.1 ++ 0x3A :: match a.2 with Attr_Text s => 0x20 :: s | Attr_Binary bs => 0x3A :: 0x20 :: base64_encode bs end.
Proof. unfold attr_line. by destruct a.2. Qed.
Lemma parse_attr_line a n : attr_ok a → parse_attribute_line (attr_line a) n = Ok a.
Proof.
  intros (_ & Hcolon & _ & Hv). unfold parse_attribute_line. rewrite attr_line_split, split_once_at by done. cbn [ok_or result_bind].
  destruct a as [name [s|bs]]; cbn [fst snd] in *.
  - change (strip_prefix [0x3A] (0x20 :: s)) with (@None bytes). cbn iota. by rewrite trim_one.
  - change (strip_prefix [0x3A] (0x3A :: 0x20 :: base64_encode bs)) with (strip_prefix [0x3A] ([0x3A] ++ 0x20 :: base64_encode bs)).
    rewrite strip_prefix_app. cbn [List.filter]. change (negb (is_ascii_whitespace 0x20)) with false. cbn iota.
    rewrite filter_clean by by apply encode_clean. by rewrite base64_roundtrip.
Qed.
Lemma attr_line_read n a rest recs cur : attr_ok a → records_of ((n, attr_line a) :: rest) recs cur = records_of rest recs (cur ++ [attr_read a]).
Proof.
  intros Ha. pose proof (parse_attr_line a n Ha) as Hp. destruct Ha as ((c & s & Hname & Hc1 & Hc2 & Hc3) & Hcolon & Hver & _).
  assert (strip_prefix (bytes_of_string "version:") (attr_line a) = None) as Hnv.
  { destruct (strip_prefix _ (attr_line a)) as [r|] eqn:Hr; [|done]. apply strip_prefix_Some in Hr. rewrite attr_line_split in Hr.
    assert (split_once 0x3A (a.1 ++ 0x3A :: match a.2 with Attr_Text s => 0x20 :: s | Attr_Binary bs => 0x3A :: 0x20 :: base64_encode bs end) = Some (bytes_of_string "version", r)) as Hs.
    { rewrite Hr. change (bytes_of_string "version:" ++ r) with (bytes_of_string "version" ++ 0x3A :: r). apply split_once_at. by_decide. }
    rewrite split_once_at in Hs by done. by injection Hs as Hs _. }
  cbn [records_of]. destruct (attr_line a) as [|c' l] eqn:Hline; [rewrite attr_line_split, Hname in Hline; done|].
  assert (c' = c) as ->. { rewrite attr_line_split, Hname in Hline. by injection Hline as <-. }
  destruct (Z.eqb_spec c 0x23); [done|]. rewrite Hnv, Hp. cbn [result_bind]. unfold attr_read. rewrite <- canonical_name_read. by destruct a.
Qed.
Lemma note_read n l rest recs cur : note l → records_of ((n, l) :: rest) recs cur = records_of rest recs cur.
Proof.
  intros [(s & ->)|(s & ->)]; [done|]. cbn [records_of]. rewrite strip_prefix_app. done.
Qed.
Lemma blank_read n rest recs cur : records_of ((n, []) :: rest) recs cur = records_of rest (recs ++ match cur with [] => [] | _ => [mkLdifRecord cur] end) [].
Proof. cbn [records_of]. destruct cur; [by rewrite app_nil_r|done]. Qed.
Lemma attrs_read r ls nums rest recs cur : attrs_lines r ls → map snd nums = ls →
  records_of (nums ++ rest) recs cur = records_of rest recs (cur ++ map attr_read r).
Proof.
  intros Ha. revert nums cur. induction Ha as [|a r ls Ha _ IH|s r ls Hs _ IH]; intros nums cur Hn.
  - destruct nums; [|done]. by rewrite app_nil_r.
  - destruct nums as [|[n l] nums]; [done|]. cbn [map snd] in Hn. injection Hn as -> Hn. cbn [app]. rewrite attr_line_read, (IH nums) by done. by rewrite <- app_assoc.
  - destruct nums as [|[n l] nums]; [done|]. cbn [map snd] in Hn. injection Hn as -> Hn. cbn [app]. by rewrite note_read, (IH nums).
Qed.
Lemma notes_read ns nums rest recs cur : Forall note ns → map snd nums = ns → records_of (nums ++ rest) recs cur = records_of rest recs cur.
Proof.
  intros Hn. revert nums. induction Hn as [|s ns Hs _ IH]; intros [|[n l] nums] Hnums; try done. cbn [map snd app] in *. injection Hnums as -> Hnums.
  by rewrite note_read, IH.
Qed.
Definition read_record (r : list (bytes * LdifValue)) : LdifRecord := mkLdifRecord (map attr_read r).
Lemma doc_read rs logical nums recs : doc_lines rs logical → map snd nums = logical → records_of nums recs [] = Ok (recs ++ map read_record rs).
Proof.
  intros Hd. revert nums recs. induction Hd as [|rs ls _ IH|rs ns ls Hns _ IH|r ls Hr Ha|r rs ls ls' Hr Ha _ IH]; intros nums recs Hn.
  - destruct nums; [|done]. cbn. by rewrite app_nil_r.
  - destruct nums as [|[n l] nums]; [done|]. cbn [map snd] in Hn. injection Hn as -> Hn. rewrite blank_read, app_nil_r. by apply IH.
  - apply map_eq_app in Hn as (n1 & n2 & -> & Hn1 & Hn2). rewrite (notes_read ns) by done. by apply IH.
  - rewrite <- (app_nil_r nums), (attrs_read r ls) by done. cbn [app map records_of]. unfold read_record. destruct r as [|a r]; [done|]. done.
  - apply map_eq_app in Hn as (n1 & n2 & -> & Hn1 & Hn2). destruct n2 as [|[n l] n2]; [done|]. cbn [map snd] in Hn2. injection Hn2 as -> Hn2.
    rewrite (attrs_read r ls) by done. cbn [app]. rewrite blank_read. destruct r as [|a r]; [done|]. cbn [map app]. rewrite (IH n2) by done.
    cbn [map]. by rewrite <- app_assoc.
Qed.

(** The first line starts as the text does. *)
Lemma str_lines_first c s : c ≠ 0x0A → c ≠ 0x0D → ∃ l ls, str_lines (c :: s) = (c :: l) :: ls.
Proof.
  intros Hn Hr. unfold str_lines. cbn [split]. rewrite (proj2 (Z.eqb_neq _ _) Hn). pose proof (split_not_nil 0x0A s) as Hne.
  destruct (split 0x0A s) as [|p [|q ps]]; [done|by exists p, []|]. cbn [removelast map app]. unfold strip_cr.
  destruct (list.last (c :: p)) as [x|] eqn:Hx; [|by eexists p, _]. destruct (Z.eqb_spec x 0x0D) as [->|]; [|by eexists p, _].
  destruct p as [|y p]; [injection Hx as ->; done|]. by eexists (removelast (y :: p)), _.
Qed.
Lemma str_lines_other c s : c = 0x0A ∨ c = 0x0D → ∃ l ls, str_lines (c :: s) = l :: ls ∧ continuation l = None.
Proof.
  intros Hc. unfold str_lines. cbn [split]. pose proof (split_not_nil 0x0A s) as Hne.
  destruct Hc as [-> | ->]; cbn [Z.eqb Pos.eqb]; destruct (split 0x0A s) as [|p ps]; try done.
  - exists [], (map strip_cr (removelast (p :: ps)) ++ match list.last (p :: ps) with Some [] | None => [] | Some l => [l] end).
    split; [|done]. change (removelast ([] :: p :: ps)) with ([] :: removelast (p :: ps)). done.
  - destruct ps as [|q ps]; [by eexists _, []|]. cbn [removelast map app]. eexists _, _. split; [reflexivity|]. unfold strip_cr.
    destruct (list.last (0x0D :: p)) as [x|]; [|done]. destruct (x =? 0x0D); [|done]. by destruct p.
Qed.
Lemma unfold_no_orphan k raws logical n : logical ≠ [] → unfold_lines k raws logical ≠ Err (Ldif_OrphanContinuation n).
Proof.
  revert k logical. induction raws as [|raw raws IH]; intros k logical Hl; [done|]. cbn [unfold_lines].
  destruct (continuation raw) as [rest|]; [|apply IH; by destruct logical]. destruct logical as [|x logical _] using rev_ind; [done|].
  unfold push_last. rewrite list.last_snoc. destruct x as [m l]. cbn [mbind option_bind ok_or result_bind]. apply IH. by destruct (removelast _).
Qed.
Lemma records_no_orphan logical recs cur n : records_of logical recs cur ≠ Err (Ldif_OrphanContinuation n).
Proof.
  revert recs cur. induction logical as [|[k line] logical IH]; intros recs cur; [by destruct cur|]. cbn [records_of].
  destruct line as [|c line]; [destruct cur; apply IH|]. destruct (c =? 0x23); [apply IH|]. destruct (strip_prefix _ _); [apply IH|].
  destruct (parse_attribute_line (c :: line) k) as [[name value]|e|] eqn:Hp; cbn [result_bind]; [apply IH| |done].
  revert Hp. unfold parse_attribute_line. destruct (split_once _ _) as [[a b]|]; cbn [ok_or result_bind]; [|by intros [= <-]].
  destruct (strip_prefix [0x3A] b); [|done]. destruct (base64_decode_strict _); cbn [ok_or result_bind]; [done|by intros [= <-]].
Qed.
Lemma orphan_first text n : ldif_parse text = Err (Ldif_OrphanContinuation n) ↔ n = 1 ∧ (head text = Some 0x20 ∨ head text = Some 0x09).
Proof.
  unfold ldif_parse. split.
  - destruct (unfold_lines 1 (str_lines text) []) as [logical|e|] eqn:Hu; cbn [result_bind]; [by intros ?%records_no_orphan| |done]. intros [= ->].
    destruct text as [|c s]; [done|]. destruct (decide (c = 0x0A ∨ c = 0x0D)) as [Hc|Hc].
    { destruct (str_lines_other c s Hc) as (l & ls & Hl & Hcont). rewrite Hl in Hu. cbn [unfold_lines] in Hu. rewrite Hcont in Hu. by apply unfold_no_orphan in Hu. }
    destruct (str_lines_first c s) as (l & ls & Hl); [naive_solver..|]. rewrite Hl in Hu. cbn [unfold_lines] in Hu.
    destruct (continuation (c :: l)) as [rest|] eqn:Hcont; [|by apply unfold_no_orphan in Hu]. cbn in Hu. injection Hu as <-. split; [done|].
    revert Hcont. unfold continuation. destruct (strip_prefix [0x20] (c :: l)) as [r|] eqn:H1; [apply strip_prefix_Some in H1; injection H1 as -> _; by left|].
    intros H2%strip_prefix_Some. injection H2 as -> _. by right.
  - intros [-> Hh]. destruct text as [|c s]; [by destruct Hh|]. cbn [head] in Hh.
    destruct (str_lines_first c s) as (l & ls & Hl); [destruct Hh as [[= ->]|[= ->]]; done..|]. rewrite Hl. cbn [unfold_lines].
    assert (continuation (c :: l) = Some l) as -> by (destruct Hh as [[= ->]|[= ->]]; done). done.
Qed.

(** C40: An LDIF file gives back the records written in it. However its lines are folded and
    ended, and whatever comments, version lines and blank lines stand between, each record
    is read with its attributes in order: the name up to its options with its capitals as
    small letters, a text value without the space ahead of it, a binary value as the octets
    that were encoded in base 64. A continuation is an orphan only as the first line of all:
    after a comment, a version or a blank line it continues that line, although the error is
    documented for a continuation ahead of any attribute. *)
Theorem ldif_roundtrip rs logical phys ws :
  doc_lines rs logical → Forall2 folded logical phys → map fst ws = concat phys → Forall ended_ok ws →
  ldif_parse (concat (map ended ws)) = Ok (map read_record rs) ∧
  ∀ text n, ldif_parse text = Err (Ldif_OrphanContinuation n) ↔ n = 1 ∧ (head text = Some 0x20 ∨ head text = Some 0x09).
Proof.
  intros Hd Hf Hw Hok. split; [|exact orphan_first]. unfold ldif_parse. rewrite str_lines_ended, Hw by done. destruct (unfold_folded logical phys 1 [] Hf) as (out & -> & Hout).
  cbn [result_bind app]. by rewrite (doc_read rs logical out []).
Qed.

(** A file of one record, with a comment, a folded line and both ends of lines. *)
Module sample_ldif.
Definition record : list (bytes * LdifValue) :=
  [(bytes_of_string "dn", Attr_Text (bytes_of_string "c=FI"));
   (bytes_of_string "objectClass", Attr_Text (bytes_of_string "pkdMasterList"));
   (bytes_of_string "pkdMasterListContent;binary", Attr_Binary [0x30; 0x03; 0x02; 0x01])].
Definition phys : list (list bytes) :=
  [[bytes_of_string "version: 1"]; [[]]; [bytes_of_string "# a list"]; [bytes_of_string "dn: c=FI"]; [bytes_of_string "objectClass: pkd"; bytes_of_string " MasterList"];
   [bytes_of_string "pkdMasterListContent;binary:: MAM"; 0x09 :: bytes_of_string "CAQ=="]].
Definition written : list (bytes * bool) := map (λ l, (l, true)) (take 3 (concat phys)) ++ map (λ l, (l, false)) (drop 3 (concat phys)).
Definition lines : list bytes :=
  [bytes_of_string "version: 1"; []; bytes_of_string "# a list"; bytes_of_string "dn: c=FI"; bytes_of_string "objectClass: pkdMasterList";
   bytes_of_string "pkdMasterListContent;binary:: MAMCAQ=="].
Ltac attribute := split; [vm_compute; eexists _, _; split; [reflexivity|lia]|split; [by_decide|split; [done|cbn [snd]; first [by_decide|done]]]].
Lemma lines_doc : doc_lines [record] lines.
Proof.
  apply (doc_notes _ [bytes_of_string "version: 1"]); [constructor; [right; by exists (bytes_of_string " 1")|constructor]|]. apply doc_blank, doc_last; [done|].
  apply attrs_note; [left; by exists (bytes_of_string " a list")|].
  apply attrs_attr; [attribute|]. apply attrs_attr; [attribute|]. apply attrs_attr; [attribute|]. constructor.
Qed.
Lemma lines_folded : Forall2 folded lines phys.
Proof.
  do 4 (constructor; [by apply folded_plain|]).
  constructor; [apply (folded_intro (bytes_of_string "objectClass: pkd") [(0x20, bytes_of_string "MasterList")]); [done|constructor; [by left|constructor]]|].
  constructor; [|constructor].
  apply (folded_intro (bytes_of_string "pkdMasterListContent;binary:: MAM") [(0x09, bytes_of_string "CAQ==")]); [done|constructor; [by right|constructor]].
Qed.
End sample_ldif.

Lemma ldif_roundtrip_witness : ldif_parse (concat (map ended sample_ldif.written)) = Ok [read_record sample_ldif.record] ∧
  binary_values (read_record sample_ldif.record) (bytes_of_string "pkdMasterListContent") = [[0x30; 0x03; 0x02; 0x01]].
Proof.
  split; [|by vm_compute]. apply (ldif_roundtrip [sample_ldif.record] sample_ldif.lines sample_ldif.phys sample_ldif.written);
    [exact sample_ldif.lines_doc|exact sample_ldif.lines_folded|by vm_compute|].
  unfold sample_ldif.written. repeat constructor; try done; by_decide.
Defined.
