(* ===== verification/MasterList.v ===== *)
(** crates/refineid-lib-core/src/icao_pkd.rs: a master list of country authorities, its
    wrapping and signature, the certificates in it, and the lists in an LDIF file. *)

From S2P Require Import Prelude Oid Ber Der CryptoCrates Rsa Ecdsa Country TokenInfo Identity X509 Cms Ldif.

#[export] Instance IsoAlpha2_eq_dec : EqDecision IsoAlpha2.
Proof. solve_decision. Defined.

(** The digest is its 32 octets. *)
Record CscaEntry := mkCscaEntry {
  csca_der : bytes; csca_country_iso : option IsoAlpha2; csca_subject_cn : option CommonName; csca_serial : CertSerial; csca_sha256 : bytes;
  csca_not_before : DerDateTime; csca_not_after : DerDateTime }.
Record IcaoMasterList := mkIcaoMasterList {
  ml_signer_subject_cn : option CommonName; ml_signer_country : option IsoAlpha2; ml_signer_cert_der : bytes;
  ml_embedded_certs_der : list bytes; ml_cscas : list CscaEntry }.
Inductive IcaoMlError :=
| Ml_Cms (e : CmsError)
| Ml_UnexpectedContentType (got_hex : bytes)
| Ml_SignerNotEmbedded
| Ml_SignatureInvalid (e : CmsError)
| Ml_PayloadStructure (s : string)
| Ml_CertParse (index : Z) (source : X509Error)
| Ml_Ldif (e : LdifError)
| Ml_LdifNoMasterLists.

Section master_list.
Context `{DerCrate} `{ConstOid} `{BoxedMonty} `{Sha1Hash} `{Sha256Hash} `{Sha2Hashes}.

Definition CscaEntry_from_cert (der : bytes) (cert : Certificate) : CscaEntry :=
  mkCscaEntry der (Name_country (cert_subject cert)) (Name_common_name (cert_subject cert)) (Certificate_serial cert) (sha256 der)
    (cert_not_before cert) (cert_not_after cert).

(** The next value of the list's sequence. *)
Definition payload_next (missing malformed : string) (it : bytes) : result IcaoMlError (BerTlvAny * bytes) :=
  let '(item, rest) := BerTlvIter_next it in
  let? item := ok_or item (Ml_PayloadStructure missing) in
  let? t := map_err (λ _, Ml_PayloadStructure malformed) item in
  Ok (t, rest).
(** One round for each entry: an entry has two octets at least. *)
Fixpoint certlist_loop (fuel : nat) (value : bytes) (cursor : Z) (out : list bytes) : result IcaoMlError (list bytes) :=
  match fuel with
  | O => Panic
  | S fuel =>
      if negb (cursor <? len value) then Ok out
      else
        let? from_cursor := ok_or (zslice cursor (len value) value) (Ml_PayloadStructure "certList cursor past end") in
        let? child := map_err (λ _, Ml_PayloadStructure "certList entry") (BerTlvAny_parse from_cursor) in
        let? _ := map_err (λ _, Ml_PayloadStructure "certList entry is not a Certificate SEQUENCE") (BerTlvAny_expect Sequence_TAG child) in
        let next_cursor := cursor + any_size child in
        if next_cursor >? u64_max then Err (Ml_PayloadStructure "certList cursor overflow")
        else
          let? entry := ok_or (zslice cursor next_cursor value) (Ml_PayloadStructure "certList entry past end") in
          certlist_loop fuel value next_cursor (out ++ [entry])
  end.
Definition parse_certlist (econtent : bytes) : result IcaoMlError (list bytes) :=
  let? seq := map_err (λ _, Ml_PayloadStructure "outer SEQUENCE") (BerTlv_parse Sequence_TAG econtent) in
  let? (_, it) := payload_next "missing version INTEGER" "malformed version INTEGER" (any_value seq) in
  let? (cert_set_any, _) := payload_next "missing certList SET" "malformed certList SET" it in
  let? cert_set_tlv := map_err (λ _, Ml_PayloadStructure "certList tag is not SET") (BerTlvAny_expect Set_TAG cert_set_any) in
  certlist_loop (S (length (any_value cert_set_tlv))) (any_value cert_set_tlv) 0 [].

Fixpoint parse_cscas (index : Z) (ders : list bytes) : result IcaoMlError (list CscaEntry) :=
  match ders with
  | [] => Ok []
  | cert_der :: ders =>
      let? cert := map_err (Ml_CertParse index) (Certificate_from_der cert_der) in
      let? rest := parse_cscas (index + 1) ders in
      Ok (CscaEntry_from_cert cert_der cert :: rest)
  end.
Definition parse_master_list (der : bytes) : result IcaoMlError IcaoMasterList :=
  let? signed := map_err Ml_Cms (SignedData_parse der) in
  if negb (bool_decide (Oid_as_bytes (econtent_type_oid signed) = Oid_as_bytes CSCA_MASTER_LIST))
  then Err (Ml_UnexpectedContentType (Hex_encode (Oid_as_bytes (econtent_type_oid signed))))
  else
    let? signer_der := ok_or (head (certificates_der signed)) Ml_SignerNotEmbedded in
    let? signer_cert := map_err (Ml_CertParse u64_max) (Certificate_from_der signer_der) in
    let? _ := map_err Ml_SignatureInvalid (SignedData_verify signed (SpkiDer_as_der (cert_spki signer_cert))) in
    let? csca_list := parse_certlist (econtent_der signed) in
    let? cscas := parse_cscas 0 csca_list in
    Ok (mkIcaoMasterList (Name_common_name (cert_subject signer_cert)) (Name_country (cert_subject signer_cert)) signer_der (certificates_der signed) cscas).
Definition cscas_for_country (l : IcaoMasterList) (iso_2letter : IsoAlpha2) : list CscaEntry :=
  List.filter (λ c, bool_decide (csca_country_iso c = Some iso_2letter)) (ml_cscas l).
End master_list.

Definition extract_master_list_ders_from_ldif (text : bytes) : result IcaoMlError (list bytes) :=
  let? records := map_err Ml_Ldif (ldif_parse text) in
  let out := flat_map (λ record, if has_object_class record (bytes_of_string "pkdMasterList")
                                 then binary_values record (bytes_of_string "pkdMasterListContent") else []) records in
  match out with [] => Err Ml_LdifNoMasterLists | _ => Ok out end.

(** ** The entries *)

(** A SEQUENCE with a length the reader knows, nothing after it. *)
Definition sequence_bytes (e : bytes) : Prop := ∃ lb v, e = Sequence_TAG :: lb ++ v ∧ ber_length lb (len v).

Lemma sequence_at e rest : sequence_bytes e → ∃ t, ber_tlv_at (e ++ rest) t ∧ any_tag t = Sequence_TAG ∧ any_size t = len e.
Proof.
  intros (lb & v & -> & Hl). exists (mkBerTlvAny Sequence_TAG v (len (Sequence_TAG :: lb ++ v))). split; [|done]. by apply ber_tlv_at_tlv.
Qed.
Lemma sequence_front r t : ber_tlv_at r t → any_tag t = Sequence_TAG → ∃ e rest, r = e ++ rest ∧ sequence_bytes e ∧ any_size t = len e.
Proof.
  intros (tb & lb & rest & -> & Ht & Hl & Hs) Htag. exists (tb ++ lb ++ any_value t), rest. split; [by rewrite <- !app_assoc|]. split; [|by rewrite Hs, !len_app, Z.add_assoc].
  exists lb, (any_value t). split; [|done]. rewrite Htag in Ht. inversion Ht as [tag Hm Heq1 Heq2|hi lo Hm Heq1 Heq2]; [done|]. exfalso.
  unfold u16_from_be, Sequence_TAG in Heq2. apply (f_equal (λ x, Z.shiftr x 8)) in Heq2. rewrite Z.shiftr_lor, Z.shiftr_shiftl_l, Z.shiftl_0_r in Heq2 by lia.
  apply Z.lor_eq_0_l in Heq2 as ->. done.
Qed.
Lemma sequence_len e : sequence_bytes e → 2 ≤ len e.
Proof.
  intros (lb & v & -> & Hl). rewrite len_cons, len_app. pose proof (len_nonneg v). assert (1 ≤ len lb) by (inversion Hl; unfold len; simpl; lia). lia.
Qed.

Lemma slice_next (value : bytes) cursor e rest : 0 ≤ cursor ≤ len value → drop (Z.to_nat cursor) value = e ++ rest →
  zslice cursor (cursor + len e) value = Some e ∧ drop (Z.to_nat (cursor + len e)) value = rest.
Proof.
  intros Hc Hd. split.
  - rewrite <- (take_drop (Z.to_nat cursor) value), Hd. apply zslice_app_exact; rewrite ?length_take; unfold len in *; lia.
  - rewrite Z2Nat.inj_add by (pose proof (len_nonneg e); lia). rewrite <- drop_drop, Hd. unfold len. by rewrite Nat2Z.id, drop_app_length.
Qed.
Lemma slice_tail (value : bytes) cursor : 0 ≤ cursor ≤ len value → zslice cursor (len value) value = Some (drop (Z.to_nat cursor) value).
Proof.
  intros Hc. destruct (slice_next value cursor (drop (Z.to_nat cursor) value) [] Hc ltac:(by rewrite app_nil_r)) as [Hs _].
  rewrite <- Hs. f_equal. unfold len in *. rewrite length_drop. lia.
Qed.

(** The loop takes the value apart into SEQUENCEs, and into nothing else. *)
Lemma certlist_loop_spec fuel value cursor out r :
  len value ≤ u64_max → 0 ≤ cursor ≤ len value → len value - cursor < Z.of_nat fuel →
  (certlist_loop fuel value cursor out = Ok r ↔
   ∃ entries, drop (Z.to_nat cursor) value = concat entries ∧ Forall sequence_bytes entries ∧ r = out ++ entries) ∧
  certlist_loop fuel value cursor out ≠ Panic.
Proof.
  intros Hmax. revert cursor out. induction fuel as [|fuel IH]; intros cursor out Hc Hf; [lia|]. cbn [certlist_loop].
  destruct (Z.ltb_spec cursor (len value)) as [Hlt|Hge]; cbn [negb].
  2: { assert (drop (Z.to_nat cursor) value = []) as -> by (apply drop_ge; unfold len in *; lia). split; [|done]. split.
       - intros [= <-]. exists []. by rewrite app_nil_r.
       - intros (entries & Hd & Hs & ->). destruct Hs as [|e entries He _]; [by rewrite app_nil_r|]. cbn [concat] in Hd. symmetry in Hd.
         apply app_eq_nil in Hd as [-> _]. by apply sequence_len in He. }
  rewrite slice_tail by done.
  set (r0 := drop (Z.to_nat cursor) value). assert (len r0 = len value - cursor) as Hr0 by (subst r0; unfold len in *; rewrite length_drop; lia).
  cbn [ok_or result_bind]. pose proof (BerTlvAny_parse_no_panic r0) as Hnp. destruct (BerTlvAny_parse r0) as [t|e|] eqn:Hp; cbn [map_err result_bind]; [|split; [split; [done|]|done]|done].
  2: { intros (entries & Hd & Hs & ->). destruct Hs as [|x entries Hx _]; cbn [concat] in Hd; [rewrite Hd in Hr0; change (len []) with 0 in Hr0; lia|].
       destruct (sequence_at x (concat entries) Hx) as (t & Ht & _). rewrite <- Hd in Ht. apply BerTlvAny_parse_complete in Ht; [congruence|lia]. }
  pose proof (BerTlvAny_parse_sound _ _ Hp) as Hat. unfold BerTlvAny_expect. destruct (Z.eqb_spec (any_tag t) Sequence_TAG) as [Htag|Htag]; cbn [negb map_err result_bind].
  2: { split; [split; [done|]|done]. intros (entries & Hd & Hs & ->). destruct Hs as [|x entries Hx _]; cbn [concat] in Hd; [rewrite Hd in Hr0; change (len []) with 0 in Hr0; lia|].
       destruct (sequence_at x (concat entries) Hx) as (t' & Ht & Htag' & _). rewrite <- Hd in Ht. apply BerTlvAny_parse_complete in Ht; [|lia]. rewrite Hp in Ht. congruence. }
  destruct (sequence_front _ _ Hat Htag) as (e & rest & He & Hseq & Hsize). pose proof (sequence_len _ Hseq) as Hlen. rewrite Hsize.
  assert (len value = cursor + (len e + len rest)) as Hv by (rewrite He, len_app in Hr0; lia). pose proof (len_nonneg rest).
  destruct (Z.gtb_spec (cursor + len e) u64_max); [lia|]. destruct (slice_next value cursor e rest ltac:(lia) He) as [-> Hdrop]. cbn [ok_or result_bind].
  destruct (IH (cursor + len e) (out ++ [e]) ltac:(lia) ltac:(lia)) as [Hiff Hok]. split; [|done]. rewrite Hiff, Hdrop. split.
  - intros (entries & -> & Hs & ->). exists (e :: entries). cbn [concat]. split; [done|]. split; [by constructor|by rewrite <- app_assoc].
  - intros (entries & Hd & Hs & ->). destruct Hs as [|x entries Hx Hs]; cbn [concat] in Hd; [rewrite Hd in Hr0; change (len []) with 0 in Hr0; lia|].
    destruct (sequence_at x (concat entries) Hx) as (t' & Ht & _ & Hx'). rewrite <- Hd in Ht. apply BerTlvAny_parse_complete in Ht; [|lia]. rewrite Hp in Ht. injection Ht as <-.
    assert (e ++ rest = x ++ concat entries) as Heq by (by rewrite <- He, <- Hd). apply app_inj_1 in Heq as [-> ->]; [|unfold len in *; lia].
    exists entries. split; [done|]. split; [done|by rewrite <- app_assoc].
Qed.

Section payload.
Context `{DerCrate} `{ConstOid} `{BoxedMonty} `{Sha1Hash} `{Sha256Hash} `{Sha2Hashes}.

(** A CscaMasterList: a version, and a SET of SEQUENCEs. *)
Inductive certlist_of (econtent : bytes) (entries : list bytes) : Prop :=
| certlist_intro seq version it set rest :
    BerTlv_parse Sequence_TAG econtent = Ok seq → BerTlvIter_next (any_value seq) = (Some (Ok version), it) →
    BerTlvIter_next it = (Some (Ok set), rest) → any_tag set = Set_TAG → any_value set = concat entries → Forall sequence_bytes entries →
    certlist_of econtent entries.

Lemma payload_next_Ok missing malformed it t rest : payload_next missing malformed it = Ok (t, rest) ↔ BerTlvIter_next it = (Some (Ok t), rest).
Proof.
  unfold payload_next. destruct (BerTlvIter_next it) as [[[t'|e|]|] rest']; cbn [ok_or result_bind map_err]; split; try done; by intros [= <- <-].
Qed.
Lemma parse_certlist_Ok econtent entries : len econtent ≤ u64_max → parse_certlist econtent = Ok entries ↔ certlist_of econtent entries.
Proof.
  intros Hl. unfold parse_certlist. split.
  - intros (seq & Hseq%map_err_Ok & Hr)%result_bind_inv_ok. apply result_bind_inv_ok in Hr as ([version it] & Hv%payload_next_Ok & Hr).
    apply result_bind_inv_ok in Hr as ([set rest] & Hs%payload_next_Ok & Hr). apply result_bind_inv_ok in Hr as (set' & [-> Htag]%map_err_Ok%expect_Ok & Hr).
    assert (len (any_value set) ≤ len econtent) as Hle.
    { apply ber_next_within in Hv as [_ Hv]. apply ber_next_within in Hs as [_ Hs]. apply len_within.
      etrans; [by apply Hs|]. etrans; [by eapply Hv|]. by eapply BerTlv_parse_within. }
    eapply certlist_loop_spec in Hr as (ents & Hd & Hf & ->); [|lia|split; [done|apply len_nonneg]|unfold len; lia]. by eapply certlist_intro.
  - intros [seq version it set rest Hseq Hv Hs Htag Hval Hf]. rewrite Hseq. cbn [map_err result_bind].
    assert (len (any_value set) ≤ len econtent) as Hle.
    { apply ber_next_within in Hv as Hv'. apply ber_next_within in Hs as Hs'. apply len_within. destruct Hv' as [_ Hv'], Hs' as [_ Hs'].
      etrans; [by apply Hs'|]. etrans; [by eapply Hv'|]. by eapply BerTlv_parse_within. }
    rewrite (proj2 (payload_next_Ok _ _ _ _ _) Hv). cbn [result_bind]. rewrite (proj2 (payload_next_Ok _ _ _ _ _) Hs). cbn [result_bind].
    unfold BerTlvAny_expect. rewrite Htag, Z.eqb_refl. cbn [negb map_err result_bind].
    apply certlist_loop_spec; [lia|split; [done|apply len_nonneg]|unfold len; lia|]. by exists entries.
Qed.
Lemma parse_cscas_Ok index ders l : parse_cscas index ders = Ok l ↔
  ∃ certs, Forall2 (λ der c, Certificate_from_der der = Ok c) ders certs ∧ l = zip_with CscaEntry_from_cert ders certs.
Proof.
  revert index l. induction ders as [|der ders IH]; intros index l; cbn [parse_cscas].
  - split; [intros [= <-]; by exists []|]. intros (certs & Hc & ->). by inversion Hc.
  - destruct (Certificate_from_der der) as [c|e|] eqn:Hd; cbn [map_err result_bind].
    + split.
      * intros (rest & (certs & Hc & ->)%IH & [= <-])%result_bind_inv_ok. exists (c :: certs). split; [by constructor|done].
      * intros (certs & Hc & ->). inversion Hc as [|? c' ? certs' Hc1 Hc2]; subst. rewrite Hd in Hc1. injection Hc1 as <-.
        rewrite (proj2 (IH (index + 1) (zip_with CscaEntry_from_cert ders certs'))); [done|by exists certs'].
    + split; [done|]. intros (certs & Hc & _). inversion Hc; congruence.
    + split; [done|]. intros (certs & Hc & _). inversion Hc; congruence.
Qed.
Lemma parse_cscas_bad index good certs bad e rest : Forall2 (λ der c, Certificate_from_der der = Ok c) good certs → Certificate_from_der bad = Err e →
  parse_cscas index (good ++ bad :: rest) = Err (Ml_CertParse (index + Z.of_nat (length good)) e).
Proof.
  intros Hg Hb. revert index. induction Hg as [|der c good certs Hd _ IH]; intros index; cbn [app parse_cscas].
  - rewrite Hb. cbn [map_err result_bind length]. by rewrite Z.add_0_r.
  - rewrite Hd. cbn [map_err result_bind]. rewrite IH. cbn [result_bind length]. do 2 f_equal. lia.
Qed.

(** What a parsed list was made of. *)
Definition gates (der : bytes) (signed : SignedData) (signer : bytes) (signer_cert : Certificate) (entries : list bytes) : Prop :=
  SignedData_parse der = Ok signed ∧ Oid_as_bytes (econtent_type_oid signed) = Oid_as_bytes CSCA_MASTER_LIST ∧
  head (certificates_der signed) = Some signer ∧ Certificate_from_der signer = Ok signer_cert ∧
  SignedData_verify signed (SpkiDer_as_der (cert_spki signer_cert)) = Ok tt ∧ certlist_of (econtent_der signed) entries.
Definition list_of (signed : SignedData) (signer : bytes) (signer_cert : Certificate) (entries : list bytes) (certs : list Certificate) : IcaoMasterList :=
  mkIcaoMasterList (Name_common_name (cert_subject signer_cert)) (Name_country (cert_subject signer_cert)) signer (certificates_der signed)
    (zip_with (λ e c, {| csca_der := e; csca_country_iso := Name_country (cert_subject c); csca_subject_cn := Name_common_name (cert_subject c);
                         csca_serial := mkCertSerial (cert_serial_der c); csca_sha256 := sha256 e;
                         csca_not_before := cert_not_before c; csca_not_after := cert_not_after c |}) entries certs).

Context `{!DerLaws}.
Lemma parse_master_list_gates der signed signer signer_cert entries : len der ≤ u32_max → gates der signed signer signer_cert entries →
  parse_master_list der = let? cscas := parse_cscas 0 entries in
    Ok (mkIcaoMasterList (Name_common_name (cert_subject signer_cert)) (Name_country (cert_subject signer_cert)) signer (certificates_der signed) cscas).
Proof.
  intros Hl (Hs & Ht & Hh & Hc & Hv & He). unfold parse_master_list. rewrite Hs. cbn [map_err result_bind]. rewrite bool_decide_eq_true_2 by done. cbn [negb].
  rewrite Hh. cbn [ok_or result_bind]. rewrite Hc. cbn [map_err result_bind]. rewrite Hv. cbn [map_err result_bind].
  apply SignedData_parse_Ok in Hs as [Hs _]. apply len_within in Hs.
  assert (len (econtent_der signed) ≤ u64_max) as Hle by (unfold u32_max, u64_max in *; lia).
  by rewrite (proj2 (parse_certlist_Ok _ entries Hle) He).
Qed.
Lemma parse_master_list_gated der ml : len der ≤ u32_max → parse_master_list der = Ok ml →
  ∃ signed signer signer_cert entries, gates der signed signer signer_cert entries.
Proof.
  intros Hl. unfold parse_master_list. intros (signed & Hs%map_err_Ok & Hr)%result_bind_inv_ok. revert Hr.
  case_bool_decide as Ht; cbn [negb]; [|done]. intros (signer & Hh & Hr)%result_bind_inv_ok.
  apply result_bind_inv_ok in Hr as (signer_cert & Hc%map_err_Ok & Hr). apply result_bind_inv_ok in Hr as ([] & Hv%map_err_Ok & Hr).
  apply result_bind_inv_ok in Hr as (entries & Hp & _). exists signed, signer, signer_cert, entries. do 2 (split; [done|]). split; [by apply ok_or_inv in Hh|]. do 2 (split; [done|]).
  apply SignedData_parse_Ok in Hs as [Hs _]. apply len_within in Hs. apply parse_certlist_Ok; [unfold u32_max, u64_max in *; lia|done].
Qed.

(** C39: [parse_master_list] gives a list exactly for a CMS message that holds a CscaMasterList, whose
    signature the first embedded certificate's key verifies, and whose SET is nothing but SEQUENCEs that
    each read as a certificate: the entries of the list are those certificates, every one and in the
    order of the SET, each with its octets, their SHA-256 digest, and the country, common name, serial
    number and validity the certificate says. The first certificate that does not read fails the whole list, with its position,
    and gives none of the entries before it. *)
Theorem master_list_exact der : len der ≤ u32_max →
  (∀ ml, parse_master_list der = Ok ml ↔ ∃ signed signer signer_cert entries certs,
    gates der signed signer signer_cert entries ∧ Forall2 (λ e c, Certificate_from_der e = Ok c) entries certs ∧
    ml = list_of signed signer signer_cert entries certs) ∧
  (∀ signed signer signer_cert good certs bad rest e, gates der signed signer signer_cert (good ++ bad :: rest) →
    Forall2 (λ e c, Certificate_from_der e = Ok c) good certs → Certificate_from_der bad = Err e →
    parse_master_list der = Err (Ml_CertParse (Z.of_nat (length good)) e)).
Proof.
  intros Hl. split.
  - intros ml. split.
    + intros Hp. destruct (parse_master_list_gated _ _ Hl Hp) as (signed & signer & signer_cert & entries & Hg).
      rewrite (parse_master_list_gates _ _ _ _ _ Hl Hg) in Hp. apply result_bind_inv_ok in Hp as (l & (certs & Hc & ->)%parse_cscas_Ok & [= <-]).
      by exists signed, signer, signer_cert, entries, certs.
    + intros (signed & signer & signer_cert & entries & certs & Hg & Hc & ->). rewrite (parse_master_list_gates _ _ _ _ _ Hl Hg).
      by rewrite (proj2 (parse_cscas_Ok 0 entries _) (ex_intro _ certs (conj Hc eq_refl))).
  - intros signed signer signer_cert good certs bad rest e Hg Hc Hb. rewrite (parse_master_list_gates _ _ _ _ _ Hl Hg).
    by rewrite (parse_cscas_bad _ _ _ _ _ _ Hc Hb), Z.add_0_l.
Qed.
End payload.

(** A list of one certificate, and one with a certificate that does not read behind it. *)
Module sample_list.
Import ber_der dotted_texts monty flat sample_certificate.

Definition message (entries : bytes) : bytes :=
  enc Tag_Sequence (enc Tag_Integer [3] ++ enc Tag_Set []
    ++ enc Tag_Sequence (enc Tag_ObjectIdentifier [0x67; 0x81; 0x08; 0x01; 0x01; 0x02]
         ++ enc VERSION_TAG (enc Tag_OctetString (enc Tag_Sequence (enc Tag_Integer [0] ++ enc Tag_Set entries))))
    ++ enc VERSION_TAG der ++ enc Tag_Set (sample_message.signer sample_message.digest_attribute)).
Definition good_list : bytes := message der.
Definition bad_list : bytes := message (der ++ enc Tag_Sequence []).
End sample_list.

Import ber_der dotted_texts monty flat.
Lemma master_list_exact_witness :
  (∃ ml, parse_master_list sample_list.good_list = Ok ml ∧ map csca_der (ml_cscas ml) = [sample_certificate.der]) ∧
  (∃ signed signer signer_cert entries certs, gates sample_list.good_list signed signer signer_cert entries ∧
    Forall2 (λ e c, Certificate_from_der e = Ok c) entries certs) ∧
  ∃ e, parse_master_list sample_list.bad_list = Err (Ml_CertParse 1 e).
Proof.
  assert (∃ ml, parse_master_list sample_list.good_list = Ok ml ∧ map csca_der (ml_cscas ml) = [sample_certificate.der]) as Hgood.
  { eexists. split; vm_compute; reflexivity. }
  split; [exact Hgood|]. split.
  - destruct Hgood as (ml & Hp & _). apply (proj1 (master_list_exact sample_list.good_list ltac:(by by_decide)) ml) in Hp
      as (signed & signer & signer_cert & entries & certs & Hg & Hc & _). by exists signed, signer, signer_cert, entries, certs.
  - assert (∃ c, Certificate_from_der sample_certificate.der = Ok c) as [c Hc] by (eexists; vm_compute; reflexivity).
    assert (∃ e, Certificate_from_der (sample_certificate.enc Tag_Sequence []) = Err e) as [e He] by (eexists; vm_compute; reflexivity).
    assert (∃ signed signer signer_cert, gates sample_list.bad_list signed signer signer_cert [sample_certificate.der; sample_certificate.enc Tag_Sequence []])
      as (signed & signer & signer_cert & Hg).
    { eexists _, _, _. repeat (split; [vm_compute; reflexivity|]). apply parse_certlist_Ok; [by by_decide|vm_compute; reflexivity]. }
    exists e. exact (proj2 (master_list_exact sample_list.bad_list ltac:(by by_decide)) signed signer signer_cert
      [sample_certificate.der] [c] _ [] e Hg ltac:(by repeat constructor) He).
Defined.
