(* ===== verification/CardAccess.v ===== *)
(** EF.CardAccess: crates/refineid-lib-core/src/card_access.rs. The parser of the
    SecurityInfos and the read method; the specification is the encoding
    [security_infos_encoding] of a list of PACE infos. *)

From S2P Require Import Prelude Ber StatusWord Transport Apdu Pkcs15.

Definition EF_CARD_ACCESS_FID : FileId := mkFileId 0x01 0x1C.

Inductive PaceProtocol :=
| EcdhGmAesCbcCmac128 | EcdhGmAesCbcCmac192 | EcdhGmAesCbcCmac256
| EcdhCamAesCbcCmac128 | EcdhCamAesCbcCmac256.
#[export] Instance PaceProtocol_eq_dec : EqDecision PaceProtocol.
Proof. solve_decision. Defined.

Definition PaceProtocol_from_oid (oid : bytes) : option PaceProtocol :=
  match oid with
  | [0x04; 0x00; 0x7F; 0x00; 0x07; 0x02; 0x02; 0x04; 0x02; 0x02] => Some EcdhGmAesCbcCmac128
  | [0x04; 0x00; 0x7F; 0x00; 0x07; 0x02; 0x02; 0x04; 0x02; 0x03] => Some EcdhGmAesCbcCmac192
  | [0x04; 0x00; 0x7F; 0x00; 0x07; 0x02; 0x02; 0x04; 0x02; 0x04] => Some EcdhGmAesCbcCmac256
  | [0x04; 0x00; 0x7F; 0x00; 0x07; 0x02; 0x02; 0x04; 0x06; 0x02] => Some EcdhCamAesCbcCmac128
  | [0x04; 0x00; 0x7F; 0x00; 0x07; 0x02; 0x02; 0x04; 0x06; 0x04] => Some EcdhCamAesCbcCmac256
  | _ => None
  end.

Definition PaceProtocol_label (p : PaceProtocol) : string :=
  match p with
  | EcdhGmAesCbcCmac128 => "id-PACE-ECDH-GM-AES-CBC-CMAC-128"
  | EcdhGmAesCbcCmac192 => "id-PACE-ECDH-GM-AES-CBC-CMAC-192"
  | EcdhGmAesCbcCmac256 => "id-PACE-ECDH-GM-AES-CBC-CMAC-256"
  | EcdhCamAesCbcCmac128 => "id-PACE-ECDH-CAM-AES-CBC-CMAC-128"
  | EcdhCamAesCbcCmac256 => "id-PACE-ECDH-CAM-AES-CBC-CMAC-256"
  end.

Record PaceSecurityInfo := mkPaceSecurityInfo
  { protocol : PaceProtocol; version : Z; parameter_id : option Z }.
Definition pace_parameter_label (id : Z) : string :=
  if (0 <=? id) && (id <=? 7) then "GFP modp group"
  else if id =? 8 then "NIST P-192"
  else if id =? 9 then "BrainpoolP192r1"
  else if id =? 10 then "NIST P-224"
  else if id =? 11 then "BrainpoolP224r1"
  else if id =? 12 then "NIST P-256"
  else if id =? 13 then "BrainpoolP256r1"
  else if id =? 14 then "NIST P-384"
  else if id =? 15 then "BrainpoolP320r1"
  else if id =? 16 then "BrainpoolP384r1 (FINEID convention)"
  else if id =? 17 then "BrainpoolP512r1"
  else if id =? 18 then "NIST P-521"
  else "<unknown>".
Definition PaceSecurityInfo_parameter_label (info : PaceSecurityInfo) : string :=
  match parameter_id info with Some id => pace_parameter_label id | None => "<absent>" end.

Record CardAccess := mkCardAccess { security_infos : list PaceSecurityInfo }.

Inductive CardAccessError :=
| Ca_NotSetOrSequence (e : BerError)
| Ca_TrailingBytes
| Ca_MalformedSecurityInfo (e : BerError)
| Ca_IncompletePaceInfo
| Ca_UnsupportedProtocol.

Definition CardAccessError_as_static_str (e : CardAccessError) : string :=
  match e with
  | Ca_NotSetOrSequence _ => "EF.CardAccess: outer TLV not a SET/SEQUENCE"
  | Ca_TrailingBytes => "EF.CardAccess: trailing bytes past outer TLV"
  | Ca_MalformedSecurityInfo _ => "EF.CardAccess: malformed SecurityInfo entry"
  | Ca_IncompletePaceInfo => "EF.CardAccess: incomplete PACEInfo entry"
  | Ca_UnsupportedProtocol => "EF.CardAccess: unsupported PACE protocol OID"
  end.

(** [v << 8] of a [u32] drops the high octet. *)
Definition u32_be (bs : bytes) : Z := foldl (λ v b, Z.lor (Z.land (Z.shiftl v 8) u32_max) b) 0 bs.

(** [it.next()], which must be there, of the expected type. *)
Definition required (tag : Z) (item : option (result BerError BerTlvAny)) : result CardAccessError bytes :=
  let? item := ok_or item Ca_IncompletePaceInfo in
  let? any := map_err Ca_MalformedSecurityInfo item in
  let? t := map_err Ca_MalformedSecurityInfo (BerTlvAny_expect tag any) in
  Ok (any_value t).

Definition PaceSecurityInfo_parse (body : bytes) : result CardAccessError PaceSecurityInfo :=
  let '(item, it) := BerTlvIter_next body in
  let? oid := required Oid_TAG item in
  let? protocol := ok_or (PaceProtocol_from_oid oid) Ca_UnsupportedProtocol in
  let '(item, it) := BerTlvIter_next it in
  let? version := required Integer_TAG item in
  let '(item, _) := BerTlvIter_next it in
  let parameter_id :=
    item ← item;
    any ← result_ok item;
    t ← result_ok (BerTlvAny_expect Integer_TAG any);
    Some (u32_be (any_value t)) in
  Ok (mkPaceSecurityInfo protocol (u32_be version) parameter_id).

(** The loop over the entries. *)
Fixpoint parse_entries (items : list (result BerError BerTlvAny)) : result CardAccessError (list PaceSecurityInfo) :=
  match items with
  | [] => Ok []
  | entry :: items =>
      let? entry := map_err Ca_MalformedSecurityInfo entry in
      let? entry := map_err Ca_MalformedSecurityInfo (BerTlvAny_expect Sequence_TAG entry) in
      let? info := PaceSecurityInfo_parse (any_value entry) in
      let? infos := parse_entries items in
      Ok (info :: infos)
  end.

Definition CardAccess_parse (der : bytes) : result CardAccessError CardAccess :=
  let? outer := match BerTlv_parse Set_TAG der with
                | Ok t => Ok t
                | Err _ => map_err Ca_NotSetOrSequence (BerTlv_parse Sequence_TAG der)
                | Panic => Panic
                end in
  if negb (any_size outer =? len der) then Err Ca_TrailingBytes
  else
    let? infos := parse_entries (BerTlvIter_items (any_value outer)) in
    Ok (mkCardAccess infos).

Section read.
Context `{CardTransport T E}.

Definition read_card_access : act T (Pkcs15Error (TransportDispatchError E)) CardAccess :=
  do! _ := select_mf in
  do! _ := select_ef EF_CARD_ACCESS_FID in
  do! bs := read_binary_der_object "EF.CardAccess" in
  act_lift (map_err (λ e, P15_InvalidData (CardAccessError_as_static_str e)) (CardAccess_parse bs)).
End read.

(** ** The specification: an encoded file *)

(** The fields of a PACEInfo: the OID, the version and the parameter. *)
Abbreviation pace_fields := (bytes * bytes * option bytes)%type.

Definition encode_info (f : pace_fields) : result BerError bytes :=
  let '(oid, version, parameter) := f in
  let? o := tlv Oid_TAG oid in
  let? v := tlv Integer_TAG version in
  let? p := match parameter with Some b => tlv Integer_TAG b | None => Ok [] end in
  tlv Sequence_TAG (o ++ v ++ p).

Definition info_of (f : pace_fields) : result CardAccessError PaceSecurityInfo :=
  let '(oid, version, parameter) := f in
  let? protocol := ok_or (PaceProtocol_from_oid oid) Ca_UnsupportedProtocol in
  Ok (mkPaceSecurityInfo protocol (u32_be version) (u32_be <$> parameter)).

Fixpoint infos_of (fs : list pace_fields) : result CardAccessError (list PaceSecurityInfo) :=
  match fs with
  | [] => Ok []
  | f :: fs => let? info := info_of f in let? infos := infos_of fs in Ok (info :: infos)
  end.

(** ** Lemmas *)

Lemma tlv_value_len {E} tag v enc : len v ≤ u32_max → @tlv E tag v = Ok enc → len v ≤ len enc ∧ 2 ≤ len enc.
Proof.
  intros Hv Henc. destruct (@tlv_ok E tag v Hv) as (lb & Hlb & Hl & _). rewrite Hlb in Henc. injection Henc as <-.
  rewrite len_cons, len_app. pose proof (len_nonneg v). inversion Hl; subst; unfold len; cbn; lia.
Qed.

Lemma tlv_short_value {E} tag v enc : @tlv E tag v = Ok enc → len v ≤ u32_max.
Proof.
  unfold tlv, BerEncoder_push_tlv, BerEncoder_push_length, SHORT_FORM_CEILING, u8_max, u16_max, u32_max.
  destruct (Z.ltb_spec (len v) 0x80); [lia|]. destruct (Z.leb_spec (len v) 255); [lia|].
  destruct (Z.leb_spec (len v) 65535); [lia|]. change (Z.shiftl 1 24 - 1) with 16777215.
  destruct (Z.leb_spec (len v) 16777215); [lia|]. destruct (Z.leb_spec (len v) 4294967295); [lia|]. done.
Qed.

(** One TLV at the front of what is left. *)
Lemma next_tlv tag v rest enc :
  Z.land tag MULTI_BYTE_TAG_MASK ≠ MULTI_BYTE_TAG_MASK → @tlv BerError tag v = Ok enc → len (enc ++ rest) ≤ u64_max →
  BerTlvIter_next (enc ++ rest) = (Some (Ok (mkBerTlvAny tag v (len enc))), rest).
Proof.
  intros Ht Henc Hsz. apply BerTlvIter_next_Ok; [|done]. eapply tlv_parse; [done| |done|exact Henc]. by eapply tlv_short_value.
Qed.

Lemma required_tlv tag v n : required tag (Some (Ok (mkBerTlvAny tag v n))) = Ok v.
Proof. unfold required, BerTlvAny_expect. cbn. by rewrite Z.eqb_refl. Qed.

Lemma parse_info f body_enc body :
  (let '(oid, version, parameter) := f in
   let? o := tlv Oid_TAG oid in
   let? v := tlv Integer_TAG version in
   let? p := match parameter with Some b => tlv Integer_TAG b | None => Ok [] end in
   @Ok BerError _ (o ++ v ++ p)) = Ok body →
  tlv (E:=BerError) Sequence_TAG body = Ok body_enc → len body ≤ u64_max → PaceSecurityInfo_parse body = info_of f.
Proof.
  destruct f as [[oid version] parameter]. intros (o & Ho & Hbody)%result_bind_inv_ok _ Hsz.
  apply result_bind_inv_ok in Hbody as (v & Hv & Hbody). apply result_bind_inv_ok in Hbody as (p & Hp & [= <-]).
  unfold PaceSecurityInfo_parse, info_of. rewrite (next_tlv Oid_TAG oid (v ++ p) o) by done. rewrite required_tlv.
  cbn [result_bind]. destruct (PaceProtocol_from_oid oid) as [protocol|]; [|done]. cbn [ok_or result_bind].
  assert (len (v ++ p) ≤ u64_max) as Hsz2 by (rewrite len_app in Hsz; pose proof (len_nonneg o); lia).
  rewrite (next_tlv Integer_TAG version p v) by done. rewrite required_tlv. cbn [result_bind].
  destruct parameter as [b|]; [|injection Hp as <-; done].
  assert (len (p ++ []) ≤ u64_max) as Hsz3 by (rewrite len_app in Hsz2; rewrite app_nil_r; pose proof (len_nonneg v); lia).
  pose proof (next_tlv Integer_TAG b [] p ltac:(done) Hp Hsz3) as Hnext. rewrite app_nil_r in Hnext. rewrite Hnext. done.
Qed.

Lemma parse_encoded_entries fs encs :
  Forall2 (λ f enc, encode_info f = Ok enc) fs encs → len (concat encs) ≤ u64_max →
  parse_entries (BerTlvIter_items (concat encs)) = infos_of fs.
Proof.
  induction 1 as [|f enc fs encs Henc _ IH]; intros Hsz; [done|]. cbn [concat] in *. unfold encode_info in Henc.
  destruct f as [[oid version] parameter] eqn:Hf. apply result_bind_inv_ok in Henc as (o & Ho & Henc).
  apply result_bind_inv_ok in Henc as (v & Hv & Henc). apply result_bind_inv_ok in Henc as (p & Hp & Henc).
  pose proof (tlv_short_value _ _ _ Henc) as Hshort. destruct (tlv_value_len _ _ _ Hshort Henc) as [Hle _].
  rewrite (BerTlvIter_items_tlv (E:=BerError) Sequence_TAG (o ++ v ++ p)) by done. cbn [parse_entries map_err result_bind].
  unfold BerTlvAny_expect. cbn [any_tag any_value]. rewrite Z.eqb_refl. cbn [negb map_err result_bind any_value].
  rewrite (parse_info (oid, version, parameter) enc (o ++ v ++ p)); [|by rewrite Ho; cbn; rewrite Hv; cbn; rewrite Hp|done|unfold u32_max, u64_max in *; lia].
  rewrite len_app in Hsz. pose proof (len_nonneg enc). pose proof (len_nonneg (concat encs)). rewrite IH by lia. done.
Qed.

(** ** Properties *)

(** A file of PACE infos, as SET or as SEQUENCE and with any further octets
    counted as an error, is read back entry by entry in order: the parsed infos are
    exactly those of the encoded fields, and one unsupported protocol refuses the
    whole file. *)
Theorem card_access_read_back fs encs tag der extra :
  Forall2 (λ f enc, encode_info f = Ok enc) fs encs → tag = Set_TAG ∨ tag = Sequence_TAG →
  @tlv BerError tag (concat encs) = Ok der → len (der ++ extra) ≤ u64_max →
  CardAccess_parse (der ++ extra) =
    if bool_decide (extra = []) then let? infos := infos_of fs in Ok (mkCardAccess infos) else Err Ca_TrailingBytes.
Proof.
  intros Hfs Htag Hder Hsz. unfold CardAccess_parse.
  assert (BerTlvAny_parse (der ++ extra) = Ok (mkBerTlvAny tag (concat encs) (len der))) as Hp.
  { eapply tlv_parse; [by destruct Htag as [-> | ->]| |done|exact Hder]. by eapply tlv_short_value. }
  assert (match BerTlv_parse Set_TAG (der ++ extra) with
          | Ok t => Ok t
          | Err _ => map_err Ca_NotSetOrSequence (BerTlv_parse Sequence_TAG (der ++ extra))
          | Panic => Panic
          end = Ok (mkBerTlvAny tag (concat encs) (len der))) as ->.
  { unfold BerTlv_parse. rewrite Hp. cbn [result_bind]. by destruct Htag as [-> | ->]. }
  cbn [result_bind any_size any_value]. rewrite len_app. destruct extra as [|x extra].
  - rewrite bool_decide_true by done. rewrite Z.add_0_r, Z.eqb_refl. cbn [negb]. rewrite (parse_encoded_entries fs) by (done ||
      (pose proof (tlv_short_value _ _ _ Hder); unfold u32_max, u64_max in *; lia)). done.
  - rewrite bool_decide_false by done. rewrite len_cons. pose proof (len_nonneg extra).
    destruct (Z.eqb_spec (len der) (len der + (1 + len extra))); [lia|done].
Qed.

(** The PACEInfo of a citizen card: GM-256 on curve 0x10. *)
Definition gm_256_oid : bytes := [0x04; 0x00; 0x7F; 0x00; 0x07; 0x02; 0x02; 0x04; 0x02; 0x04].
Definition gm_256_info : bytes := [0x30; 18; 0x06; 10] ++ gm_256_oid ++ [0x02; 1; 2; 0x02; 1; 16].

Lemma card_access_read_back_witness :
  CardAccess_parse (([0x31; 20] ++ gm_256_info) ++ [])
  = if bool_decide (([] : bytes) = [])
    then let? infos := infos_of [(gm_256_oid, [2], Some [16])] in Ok (mkCardAccess infos) else Err Ca_TrailingBytes.
Proof.
  apply (card_access_read_back [(gm_256_oid, [2], Some [16])] [gm_256_info] Set_TAG);
    [by repeat constructor|by left|by vm_compute|by vm_compute].
Defined.

(** An integer of more than four octets keeps its last four. *)
Example u32_be_wraps : u32_be [1; 0; 0; 0; 2] = 2.
Proof. reflexivity. Qed.
