(* ===== verification/Wire.v ===== *)
(** The messages of the agent pipe: crates/refineid-agent-pipe/src/wire.rs. A program
    asks the agent for a signature with a [SignRequest] and is told a [SignAnswer]. The
    key profiles and algorithms are types of refineid_rapp, whose variants are those
    that wire.rs matches on. *)

From S2P Require Import Prelude Utf8 Rapp.

Inductive KeyProfile := EcdsaP256 | EcdsaP384 | Rsa2048 | Rsa3072.
#[export] Instance KeyProfile_eq_dec : EqDecision KeyProfile.
Proof. solve_decision. Defined.

Inductive SignatureAlgorithm :=
| EcdsaSha224 | EcdsaSha256 | EcdsaSha384 | EcdsaSha512
| RsaPkcs1Sha256 | RsaPkcs1Sha384 | RsaPkcs1Sha512 | RsaPssSha256.
#[export] Instance SignatureAlgorithm_eq_dec : EqDecision SignatureAlgorithm.
Proof. solve_decision. Defined.

Definition digest_length (a : SignatureAlgorithm) : Z :=
  match a with
  | EcdsaSha224 => 28
  | EcdsaSha256 | RsaPkcs1Sha256 | RsaPssSha256 => 32
  | EcdsaSha384 | RsaPkcs1Sha384 => 48
  | EcdsaSha512 | RsaPkcs1Sha512 => 64
  end.

Definition WIRE_VERSION : Z := 1.
Definition MAX_MESSAGE : Z := 1024.
Definition MAX_SIGNATURE : Z := 384.
Definition KIND_SIGN : Z := 1.

Definition ANSWER_SIGNATURE : Z := 1.
Definition ANSWER_DENIED : Z := 2.
Definition ANSWER_CANCELLED : Z := 3.
Definition ANSWER_REJECTED : Z := 4.
Definition ANSWER_LOST : Z := 5.
Definition ANSWER_NO_PHONE : Z := 6.
Definition ANSWER_BUSY : Z := 7.
Definition ANSWER_FAILED : Z := 8.

Definition PROFILE_ECDSA_P256 : Z := 1.
Definition PROFILE_ECDSA_P384 : Z := 2.
Definition PROFILE_RSA_2048 : Z := 3.
Definition PROFILE_RSA_3072 : Z := 4.

Definition ALGORITHM_ECDSA_SHA224 : Z := 1.
Definition ALGORITHM_ECDSA_SHA256 : Z := 2.
Definition ALGORITHM_ECDSA_SHA384 : Z := 3.
Definition ALGORITHM_ECDSA_SHA512 : Z := 4.
Definition ALGORITHM_RSA_PKCS1_SHA256 : Z := 5.
Definition ALGORITHM_RSA_PKCS1_SHA384 : Z := 6.
Definition ALGORITHM_RSA_PKCS1_SHA512 : Z := 7.
Definition ALGORITHM_RSA_PSS_SHA256 : Z := 8.

Inductive WireError :=
| We_Oversized | We_Version | We_Kind | We_Length | We_Profile | We_Algorithm | We_Digest | We_Signature | We_Mismatch.

(** ** Codes *)

Definition suits (profile : KeyProfile) (algorithm : SignatureAlgorithm) : bool :=
  let ecdsa := match algorithm with
               | EcdsaSha224 | EcdsaSha256 | EcdsaSha384 | EcdsaSha512 => true
               | _ => false
               end in
  match profile with
  | EcdsaP256 | EcdsaP384 => ecdsa
  | Rsa2048 | Rsa3072 => negb ecdsa
  end.

Definition profile_code (profile : KeyProfile) : Z :=
  match profile with
  | EcdsaP256 => PROFILE_ECDSA_P256
  | EcdsaP384 => PROFILE_ECDSA_P384
  | Rsa2048 => PROFILE_RSA_2048
  | Rsa3072 => PROFILE_RSA_3072
  end.
Definition profile_from (code : Z) : result WireError KeyProfile :=
  if code =? PROFILE_ECDSA_P256 then Ok EcdsaP256
  else if code =? PROFILE_ECDSA_P384 then Ok EcdsaP384
  else if code =? PROFILE_RSA_2048 then Ok Rsa2048
  else if code =? PROFILE_RSA_3072 then Ok Rsa3072
  else Err We_Profile.

Definition algorithm_code (algorithm : SignatureAlgorithm) : Z :=
  match algorithm with
  | EcdsaSha224 => ALGORITHM_ECDSA_SHA224
  | EcdsaSha256 => ALGORITHM_ECDSA_SHA256
  | EcdsaSha384 => ALGORITHM_ECDSA_SHA384
  | EcdsaSha512 => ALGORITHM_ECDSA_SHA512
  | RsaPkcs1Sha256 => ALGORITHM_RSA_PKCS1_SHA256
  | RsaPkcs1Sha384 => ALGORITHM_RSA_PKCS1_SHA384
  | RsaPkcs1Sha512 => ALGORITHM_RSA_PKCS1_SHA512
  | RsaPssSha256 => ALGORITHM_RSA_PSS_SHA256
  end.
Definition algorithm_from (code : Z) : result WireError SignatureAlgorithm :=
  if code =? ALGORITHM_ECDSA_SHA224 then Ok EcdsaSha224
  else if code =? ALGORITHM_ECDSA_SHA256 then Ok EcdsaSha256
  else if code =? ALGORITHM_ECDSA_SHA384 then Ok EcdsaSha384
  else if code =? ALGORITHM_ECDSA_SHA512 then Ok EcdsaSha512
  else if code =? ALGORITHM_RSA_PKCS1_SHA256 then Ok RsaPkcs1Sha256
  else if code =? ALGORITHM_RSA_PKCS1_SHA384 then Ok RsaPkcs1Sha384
  else if code =? ALGORITHM_RSA_PKCS1_SHA512 then Ok RsaPkcs1Sha512
  else if code =? ALGORITHM_RSA_PSS_SHA256 then Ok RsaPssSha256
  else Err We_Algorithm.

(** ** The reader: its state is what is left of the message *)

Definition Reader_byte : act bytes WireError Z := λ rest,
  match rest with
  | [] => (rest, Err We_Length)
  | first :: rest' => (rest', Ok first)
  end.
Definition Reader_take (count : Z) : act bytes WireError bytes := λ rest,
  if len rest <? count then (rest, Err We_Length)
  else (drop (Z.to_nat count) rest, Ok (take (Z.to_nat count) rest)).
Definition Reader_end : act bytes WireError unit := λ rest,
  (rest, match rest with [] => Ok tt | _ => Err We_Length end).

(** [Reader::new(bytes)?] and the rest of a decoder over that reader. *)
Definition Reader_new {A} (bs : bytes) (body : act bytes WireError A) : result WireError A :=
  if MAX_MESSAGE <? len bs then Err We_Oversized
  else
    ((do! version := Reader_byte in
      if negb (version =? WIRE_VERSION) then act_err We_Version else body) bs).2.

(** ** Requests *)

Section requests.
Context `{Rapp}.

Record SignRequest := mkSignRequest
  { sr_pair_id : PairId; sr_key_profile : KeyProfile; sr_algorithm : SignatureAlgorithm; sr_digest : bytes }.

Definition SignRequest_new (pair_id : PairId) (key_profile : KeyProfile) (algorithm : SignatureAlgorithm)
  (digest : bytes) : result WireError SignRequest :=
  if negb (suits key_profile algorithm) then Err We_Mismatch
  else if negb (len digest =? digest_length algorithm) then Err We_Digest
  else Ok (mkSignRequest pair_id key_profile algorithm digest).

Definition SignRequest_encode (r : SignRequest) : bytes :=
  [WIRE_VERSION; KIND_SIGN] ++ PairId_as_bytes (sr_pair_id r)
    ++ [profile_code (sr_key_profile r); algorithm_code (sr_algorithm r);
        if len (sr_digest r) <=? u8_max then len (sr_digest r) else u8_max]
    ++ sr_digest r.

Definition SignRequest_decode (bs : bytes) : result WireError SignRequest :=
  Reader_new bs
    (do! kind := Reader_byte in
     if negb (kind =? KIND_SIGN) then act_err We_Kind
     else
       do! pair_id := Reader_take (Z.of_nat PAIR_ID_SIZE) in
       do! key_profile := Reader_byte in
       do! key_profile := act_lift (profile_from key_profile) in
       do! algorithm := Reader_byte in
       do! algorithm := act_lift (algorithm_from algorithm) in
       do! digest_len := Reader_byte in
       do! digest := Reader_take digest_len in
       do! _ := Reader_end in
       act_lift (SignRequest_new (PairId_from_array pair_id) key_profile algorithm digest)).
End requests.

(** ** Answers *)

Inductive SignAnswer :=
| Sa_Signature (signature : bytes)
| Sa_Denied | Sa_Cancelled | Sa_Rejected | Sa_Lost | Sa_NoPhone | Sa_Busy | Sa_Failed.

Definition answer_kind (a : SignAnswer) : Z :=
  match a with
  | Sa_Signature _ => ANSWER_SIGNATURE
  | Sa_Denied => ANSWER_DENIED
  | Sa_Cancelled => ANSWER_CANCELLED
  | Sa_Rejected => ANSWER_REJECTED
  | Sa_Lost => ANSWER_LOST
  | Sa_NoPhone => ANSWER_NO_PHONE
  | Sa_Busy => ANSWER_BUSY
  | Sa_Failed => ANSWER_FAILED
  end.

(** A signature that is empty or too long becomes [Failed]; the recursive call
    ends there. *)
Definition SignAnswer_encode (a : SignAnswer) : bytes :=
  let a := match a with
           | Sa_Signature signature =>
               if bool_decide (signature = []) || (MAX_SIGNATURE <? len signature) then Sa_Failed else a
           | _ => a
           end in
  let bs := [WIRE_VERSION; answer_kind a] in
  match a with
  | Sa_Signature signature =>
      let length := if len signature <=? u16_max then len signature else u16_max in
      bs ++ to_le 2 length ++ signature
  | _ => bs
  end.

Definition SignAnswer_decode (bs : bytes) : result WireError SignAnswer :=
  Reader_new bs
    (do! kind := Reader_byte in
     do! answer :=
       (if kind =? ANSWER_SIGNATURE then
          do! length_bytes := Reader_take 2 in
          let length := be_fold (reverse length_bytes) in
          if (length =? 0) || (MAX_SIGNATURE <? length) then act_err We_Signature
          else do! signature := Reader_take length in act_ret (Sa_Signature signature)
        else if kind =? ANSWER_DENIED then act_ret Sa_Denied
        else if kind =? ANSWER_CANCELLED then act_ret Sa_Cancelled
        else if kind =? ANSWER_REJECTED then act_ret Sa_Rejected
        else if kind =? ANSWER_LOST then act_ret Sa_Lost
        else if kind =? ANSWER_NO_PHONE then act_ret Sa_NoPhone
        else if kind =? ANSWER_BUSY then act_ret Sa_Busy
        else if kind =? ANSWER_FAILED then act_ret Sa_Failed
        else act_err We_Kind) in
     do! _ := Reader_end in
     act_ret answer).

(** ** Lemmas *)

Lemma Reader_byte_Ok s s' b : Reader_byte s = (s', Ok b) ↔ s = b :: s'.
Proof. destruct s as [|x s]; cbn; split; congruence. Qed.

Lemma Reader_take_Ok n s s' l : 0 ≤ n → Reader_take n s = (s', Ok l) ↔ s = l ++ s' ∧ len l = n.
Proof.
  intros Hn. unfold Reader_take. destruct (Z.ltb_spec (len s) n) as [Hlt|Hge]; split.
  - done.
  - intros (-> & <-). rewrite len_app in Hlt. pose proof (len_nonneg s'). lia.
  - intros [= <- <-]. split; [by rewrite take_drop|]. unfold len in *. rewrite length_take. lia.
  - intros (-> & <-). unfold len. rewrite Nat2Z.id, drop_app_length, take_app_length. done.
Qed.

Lemma Reader_end_Ok s s' u : Reader_end s = (s', Ok u) ↔ s = [] ∧ s' = [].
Proof. unfold Reader_end. destruct u, s; split; [by intros [= <-]|by intros (_ & ->)|done|by intros (? & _)]. Qed.

Lemma act_lift_Ok {T E A} (r : result E A) (t t' : T) a : act_lift r t = (t', Ok a) ↔ t = t' ∧ r = Ok a.
Proof. unfold act_lift. split; [by intros [= -> ->]|by intros (-> & ->)]. Qed.

Lemma act_bind_Ok {T E A B} (m : act T E A) (k : A → act T E B) t t' b :
  act_bind m k t = (t', Ok b) ↔ ∃ t1 a, m t = (t1, Ok a) ∧ k a t1 = (t', Ok b).
Proof.
  split; [apply act_bind_inv_ok|]. intros (t1 & a & Hm & Hk). by rewrite (act_bind_ok _ _ _ _ _ Hm).
Qed.

(** A decoder returns exactly when the message has the version and the rest is read
    to its end. *)
Lemma Reader_new_Ok {A} bs (body : act bytes WireError A) a :
  Reader_new bs body = Ok a ↔
  len bs ≤ MAX_MESSAGE ∧ ∃ s s', bs = WIRE_VERSION :: s ∧ body s = (s', Ok a).
Proof.
  unfold Reader_new. destruct (Z.ltb_spec MAX_MESSAGE (len bs)) as [Hlt|Hge]; [split; [done|lia]|]. unfold act_bind.
  destruct bs as [|v s]; cbn [Reader_byte].
  - split; [done|]. by intros (_ & ? & ? & ? & _).
  - destruct (Z.eqb_spec v WIRE_VERSION) as [->|Hv]; cbn [negb].
    + split.
      * intros Hb. split; [done|]. exists s. destruct (body s) as [s' r]. cbn in Hb. subst r. eauto.
      * intros (_ & s0 & s' & [= <-] & ->). done.
    + split; [done|]. intros (_ & ? & ? & [= -> _] & _). done.
Qed.

Lemma profile_from_Ok code p : profile_from code = Ok p ↔ code = profile_code p.
Proof.
  unfold profile_from, profile_code, PROFILE_ECDSA_P256, PROFILE_ECDSA_P384, PROFILE_RSA_2048, PROFILE_RSA_3072.
  repeat match goal with |- context [code =? ?n] => destruct (Z.eqb_spec code n) as [->|?] end;
    destruct p; split; intros; try done; congruence.
Qed.

Lemma algorithm_from_Ok code a : algorithm_from code = Ok a ↔ code = algorithm_code a.
Proof.
  unfold algorithm_from, algorithm_code, ALGORITHM_ECDSA_SHA224, ALGORITHM_ECDSA_SHA256, ALGORITHM_ECDSA_SHA384,
    ALGORITHM_ECDSA_SHA512, ALGORITHM_RSA_PKCS1_SHA256, ALGORITHM_RSA_PKCS1_SHA384, ALGORITHM_RSA_PKCS1_SHA512,
    ALGORITHM_RSA_PSS_SHA256.
  repeat match goal with |- context [code =? ?n] => destruct (Z.eqb_spec code n) as [->|?] end;
    destruct a; split; intros; try done; congruence.
Qed.

Lemma digest_length_bounds a : 28 ≤ digest_length a ≤ 64.
Proof. destruct a; cbn; lia. Qed.

Section wire_lemmas.
Context `{Rapp, !RappLaws}.

(** What [SignRequest::new] guarantees. *)
Definition sign_request_ok (r : SignRequest) : Prop :=
  suits (sr_key_profile r) (sr_algorithm r) = true ∧ len (sr_digest r) = digest_length (sr_algorithm r).

Lemma SignRequest_new_Ok p k a d r :
  SignRequest_new p k a d = Ok r ↔ r = mkSignRequest p k a d ∧ sign_request_ok r.
Proof.
  unfold SignRequest_new, sign_request_ok. destruct (suits k a) eqn:Hs; cbn [negb].
  - destruct (Z.eqb_spec (len d) (digest_length a)) as [Hl|Hl]; cbn [negb].
    + split; [by intros <-%Ok_inj|by intros (-> & _)].
    + split; [done|]. by intros (-> & _ & ?).
  - split; [done|]. intros (-> & Hs' & _). cbn in Hs'. congruence.
Qed.

Lemma sign_request_encode_ok r : sign_request_ok r →
  SignRequest_encode r = [WIRE_VERSION; KIND_SIGN] ++ PairId_as_bytes (sr_pair_id r)
    ++ [profile_code (sr_key_profile r); algorithm_code (sr_algorithm r); len (sr_digest r)] ++ sr_digest r ∧
  len (SignRequest_encode r) = 5 + Z.of_nat PAIR_ID_SIZE + len (sr_digest r).
Proof.
  intros (_ & Hl). pose proof (digest_length_bounds (sr_algorithm r)). unfold SignRequest_encode.
  destruct (Z.leb_spec (len (sr_digest r)) u8_max); [|unfold u8_max in *; lia]. split; [done|].
  rewrite !len_app. unfold len at 2. rewrite PairId_length. unfold len. cbn [length]. lia.
Qed.

Lemma sign_request_decode_Ok bs r : Z.of_nat PAIR_ID_SIZE ≤ 955 →
  SignRequest_decode bs = Ok r ↔ sign_request_ok r ∧ SignRequest_encode r = bs.
Proof.
  intros Hsize. unfold SignRequest_decode. rewrite Reader_new_Ok. split.
  - intros (_ & s & s' & -> & Hbody).
    apply act_bind_Ok in Hbody as (s1 & kind & ->%Reader_byte_Ok & Hbody).
    destruct (Z.eqb_spec kind KIND_SIGN) as [Hk|]; cbn [negb] in Hbody; [subst kind|done].
    apply act_bind_Ok in Hbody as (s2 & pid & Hp & Hbody). apply Reader_take_Ok in Hp as [-> Hp]; [|lia].
    apply act_bind_Ok in Hbody as (s3 & kc & ->%Reader_byte_Ok & Hbody).
    apply act_bind_Ok in Hbody as (s3' & k & (-> & ->%profile_from_Ok)%act_lift_Ok & Hbody).
    apply act_bind_Ok in Hbody as (s4 & ac & ->%Reader_byte_Ok & Hbody).
    apply act_bind_Ok in Hbody as (s4' & a & (-> & ->%algorithm_from_Ok)%act_lift_Ok & Hbody).
    apply act_bind_Ok in Hbody as (s5 & n & ->%Reader_byte_Ok & Hbody).
    apply act_bind_Ok in Hbody as (s6 & d & Hd & Hbody).
    apply act_bind_Ok in Hbody as (s7 & u & (-> & ->)%Reader_end_Ok & Hbody).
    apply act_lift_Ok in Hbody as (_ & (-> & Hok)%SignRequest_new_Ok). split; [done|].
    destruct (sign_request_encode_ok _ Hok) as [-> _]. cbn [sr_pair_id sr_key_profile sr_algorithm sr_digest].
    rewrite PairId_as_bytes_from_array by (unfold len in Hp; lia).
    assert (0 ≤ n) as Hn.
    { unfold Reader_take in Hd. destruct (Z.ltb_spec n 0); [|done]. destruct (Z.ltb_spec (len s5) n).
      - done.
      - injection Hd as _ <-. destruct Hok as [_ Hl]. cbn [sr_digest sr_algorithm] in Hl.
        pose proof (digest_length_bounds a). replace (Z.to_nat n) with 0%nat in Hl by lia. change (len (take 0 s5)) with 0 in Hl. lia. }
    apply Reader_take_Ok in Hd as [-> <-]; [|done]. by rewrite app_nil_r.
  - intros (Hok & <-). destruct (sign_request_encode_ok _ Hok) as [-> Hlen].
    pose proof Hok as (_ & Hdl). pose proof (digest_length_bounds (sr_algorithm r)).
    split; [rewrite Hlen; unfold MAX_MESSAGE; lia|].
    eexists _, []. split; [done|]. cbn [app].
    apply act_bind_Ok. eexists _, _. split; [by apply Reader_byte_Ok|]. cbn [Z.eqb KIND_SIGN Pos.eqb negb].
    apply act_bind_Ok. eexists _, _. split; [apply Reader_take_Ok; [lia|]; split; [done|]; unfold len; by rewrite PairId_length|].
    apply act_bind_Ok. eexists _, _. split; [by apply Reader_byte_Ok|].
    apply act_bind_Ok. eexists _, _. split; [apply act_lift_Ok; split; [done|by apply profile_from_Ok]|].
    apply act_bind_Ok. eexists _, _. split; [by apply Reader_byte_Ok|].
    apply act_bind_Ok. eexists _, _. split; [apply act_lift_Ok; split; [done|by apply algorithm_from_Ok]|].
    apply act_bind_Ok. eexists _, _. split; [by apply Reader_byte_Ok|].
    apply act_bind_Ok. eexists [], _. split; [apply Reader_take_Ok; [apply len_nonneg|]; split; [by rewrite app_nil_r|done]|].
    apply act_bind_Ok. exists [], tt. split; [by apply Reader_end_Ok|]. apply act_lift_Ok. split; [done|].
    apply SignRequest_new_Ok. rewrite PairId_from_array_as_bytes. by destruct r.
Qed.
End wire_lemmas.

(** The answers a peer may send: a signature is neither empty nor longer than the
    longest a card makes. *)
Definition sign_answer_ok (a : SignAnswer) : Prop :=
  match a with Sa_Signature s => 1 ≤ len s ≤ MAX_SIGNATURE | _ => True end.

Lemma u16_le_bytes n : 0 ≤ n ≤ u16_max → be_fold (reverse (to_le 2 n)) = n.
Proof.
  intros Hn. unfold to_le. rewrite reverse_involutive, be_fold_to_be by lia. apply Z.mod_small. unfold u16_max in Hn. cbn. lia.
Qed.

Lemma le_bytes_u16 l : bytes_ok l → len l = 2 → to_le 2 (be_fold (reverse l)) = l.
Proof.
  intros Hl Hlen. unfold to_le. replace 2%nat with (length (reverse l)) by (rewrite length_reverse; unfold len in Hlen; lia).
  rewrite to_be_be_fold by by apply Forall_reverse. apply reverse_involutive.
Qed.

Lemma sign_answer_encode_ok a : sign_answer_ok a →
  SignAnswer_encode a = WIRE_VERSION :: answer_kind a ::
    match a with Sa_Signature s => to_le 2 (len s) ++ s | _ => [] end.
Proof.
  destruct a as [s| | | | | | |]; intros Hok; try done. cbn in Hok. unfold SignAnswer_encode, MAX_SIGNATURE in *.
  rewrite bool_decide_eq_false_2 by (intros ->; change (len []) with 0 in Hok; lia).
  destruct (Z.ltb_spec 384 (len s)); [lia|]. cbn [orb].
  destruct (Z.leb_spec (len s) u16_max); [done|unfold u16_max in *; lia].
Qed.

Lemma sign_answer_encode_bad a : ¬ sign_answer_ok a → SignAnswer_encode a = SignAnswer_encode Sa_Failed.
Proof.
  destruct a as [s| | | | | | |]; intros Hok; [|by destruct Hok..]. cbn in Hok. unfold SignAnswer_encode.
  case_bool_decide as Hs; [done|]. destruct (Z.ltb_spec MAX_SIGNATURE (len s)); [done|]. destruct Hok. split; [|done].
  destruct s; [done|]. rewrite len_cons. pose proof (len_nonneg s). lia.
Qed.

Lemma sign_answer_decode_inv bs a : bytes_ok bs →
  SignAnswer_decode bs = Ok a → sign_answer_ok a ∧ SignAnswer_encode a = bs.
Proof.
  intros Hbs. unfold SignAnswer_decode. rewrite Reader_new_Ok. intros (_ & s & s' & -> & Hbody). apply Forall_cons_1 in Hbs as [_ Hbs].
  apply act_bind_Ok in Hbody as (s1 & kind & ->%Reader_byte_Ok & Hbody). apply Forall_cons_1 in Hbs as [_ Hbs].
  apply act_bind_Ok in Hbody as (s2 & answer & Ha & Hbody).
  apply act_bind_Ok in Hbody as (s3 & u & (-> & ->)%Reader_end_Ok & [= <- <-]).
  enough (sign_answer_ok answer ∧ kind = answer_kind answer ∧
          s1 = match answer with Sa_Signature s => to_le 2 (len s) ++ s | _ => [] end) as (Hok & -> & ->).
  { split; [done|]. by apply sign_answer_encode_ok. }
  destruct (Z.eqb_spec kind ANSWER_SIGNATURE) as [Hk|_].
  - apply act_bind_Ok in Ha as (s4 & lb & Hl & Ha). apply Reader_take_Ok in Hl as [-> Hl]; [|done]. cbv zeta in Ha.
    apply Forall_app in Hbs as [Hlb Hs4].
    assert (0 ≤ be_fold (reverse lb)) as Hnn by (apply be_fold_nonneg; by apply Forall_reverse).
    destruct (Z.eqb_spec (be_fold (reverse lb)) 0); [done|].
    destruct (Z.ltb_spec MAX_SIGNATURE (be_fold (reverse lb))); [done|]. cbn [orb] in Ha.
    apply act_bind_Ok in Ha as (s5 & sg & Hsg & [= -> <-]). apply Reader_take_Ok in Hsg as [-> Hsg]; [|done].
    cbn [sign_answer_ok answer_kind]. rewrite Hsg, app_nil_r, le_bytes_u16 by done. split; [lia|done].
  - repeat match type of Ha with
           | context [kind =? ?n] => destruct (Z.eqb_spec kind n) as [Hk|_]; [by injection Ha as -> <-|]
           end. done.
Qed.

Lemma sign_answer_decode_encode a : sign_answer_ok a → SignAnswer_decode (SignAnswer_encode a) = Ok a.
Proof.
  intros Hok. unfold SignAnswer_decode. rewrite Reader_new_Ok, sign_answer_encode_ok by done. split.
  { destruct a as [s| | | | | | |]; try done. cbn in Hok. rewrite !len_cons, len_app. change (len (to_le 2 (len s))) with 2.
    unfold MAX_MESSAGE, MAX_SIGNATURE in *. lia. }
  eexists _, []. split; [done|]. apply act_bind_Ok. eexists _, _. split; [by apply Reader_byte_Ok|].
  apply act_bind_Ok. exists [], a. split; [|by destruct a].
  destruct a as [s| | | | | | |]; try done. cbn [answer_kind Z.eqb ANSWER_SIGNATURE Pos.eqb]. cbn in Hok.
  apply act_bind_Ok. eexists _, _. split; [by apply Reader_take_Ok|]. cbv zeta.
  unfold MAX_SIGNATURE in *. rewrite u16_le_bytes by (unfold u16_max; lia).
  destruct (Z.eqb_spec (len s) 0); [lia|]. destruct (Z.ltb_spec 384 (len s)); [lia|]. cbn [orb].
  apply act_bind_Ok. exists [], s. split; [|done]. apply Reader_take_Ok; [lia|]. by rewrite app_nil_r.
Qed.

(** ** Properties *)

(** C24: the messages of the pipe are exact. A request is decoded precisely from its
    own encoding, and only a request whose algorithm suits its key and whose digest has
    the algorithm's length; an answer likewise. Every answer the agent sends is decoded
    by the program as sent, a signature no card makes as a failure. *)
Theorem pipe_messages_exact `{Rapp} `{!RappLaws} :
  Z.of_nat PAIR_ID_SIZE ≤ 955 →
  (∀ bs r, SignRequest_decode bs = Ok r ↔
     (suits (sr_key_profile r) (sr_algorithm r) = true ∧ len (sr_digest r) = digest_length (sr_algorithm r))
     ∧ SignRequest_encode r = bs) ∧
  (∀ bs a, bytes_ok bs → SignAnswer_decode bs = Ok a → sign_answer_ok a ∧ SignAnswer_encode a = bs) ∧
  (∀ a, SignAnswer_decode (SignAnswer_encode a)
        = Ok (match a with
              | Sa_Signature s => if decide (1 ≤ len s ≤ MAX_SIGNATURE) then a else Sa_Failed
              | _ => a
              end)).
Proof.
  intros Hsize. split; [|split].
  - intros bs r. by apply sign_request_decode_Ok.
  - exact sign_answer_decode_inv.
  - intros a. destruct a as [s| | | | | | |]; [|by apply sign_answer_decode_encode..].
    destruct (decide _) as [Hok|Hok]; [by apply sign_answer_decode_encode|].
    by rewrite (sign_answer_encode_bad (Sa_Signature s)), sign_answer_decode_encode.
Qed.

Definition p384_digest : bytes := replicate 48 7.

Lemma pipe_messages_exact_witness :
  let r := mkSignRequest (H:=engine.engine_rapp) (1, 2) EcdsaP384 EcdsaSha384 p384_digest in
  SignRequest_decode (H:=engine.engine_rapp) ([1; 1; 1; 2; 2; 3; 48] ++ p384_digest) = Ok r ∧
  SignAnswer_decode [1; 1; 2; 0; 9; 8] = Ok (Sa_Signature [9; 8]).
Proof.
  destruct (@pipe_messages_exact engine.engine_rapp engine.engine_laws ltac:(by vm_compute)) as (Hreq & _ & Hans).
  split.
  - apply Hreq. by vm_compute.
  - exact (Hans (Sa_Signature [9; 8])).
Defined.

(** An RSA key does not take an ECDSA algorithm, and an octet too many is refused. *)
Example unsuited_algorithm :
  SignRequest_decode (H:=engine.engine_rapp) ([1; 1; 1; 2; 3; 3; 48] ++ p384_digest) = Err We_Mismatch ∧
  SignAnswer_decode [1; 2; 0] = Err We_Length.
Proof. by vm_compute. Qed.
