(* ===== verification/Cryptoki.v ===== *)
(** The numbers of the PKCS#11 interface that crates/refineid-pkcs11/src/ck.rs declares:
    return values, object classes, attributes, mechanisms, states and flags. *)

From S2P Require Import Prelude.

Definition CK_TRUE : Z := 0x01.
Definition CK_FALSE : Z := 0x00.
Definition CK_EFFECTIVELY_INFINITE : Z := 0.
(** [CkUlong::MAX]; a [c_ulong] has 32 bits on Windows. *)
Definition CK_UNAVAILABLE_INFORMATION : Z := u32_max.
Definition CK_INVALID_HANDLE : Z := 0.
Definition CKR_OK : Z := 0x00000000.
Definition CKR_CANCEL : Z := 0x00000001.
Definition CKR_HOST_MEMORY : Z := 0x00000002.
Definition CKR_SLOT_ID_INVALID : Z := 0x00000003.
Definition CKR_GENERAL_ERROR : Z := 0x00000005.
Definition CKR_FUNCTION_FAILED : Z := 0x00000006.
Definition CKR_ARGUMENTS_BAD : Z := 0x00000007.
Definition CKR_NO_EVENT : Z := 0x00000008.
Definition CKR_ATTRIBUTE_SENSITIVE : Z := 0x00000011.
Definition CKR_ATTRIBUTE_TYPE_INVALID : Z := 0x00000012.
Definition CKR_ATTRIBUTE_VALUE_INVALID : Z := 0x00000013.
Definition CKR_DATA_INVALID : Z := 0x00000020.
Definition CKR_DATA_LEN_RANGE : Z := 0x00000021.
Definition CKR_DEVICE_ERROR : Z := 0x00000030.
Definition CKR_DEVICE_REMOVED : Z := 0x00000032.
Definition CKR_FUNCTION_NOT_SUPPORTED : Z := 0x00000054.
Definition CKR_FUNCTION_NOT_PARALLEL : Z := 0x00000055.
Definition CKR_KEY_HANDLE_INVALID : Z := 0x00000060.
Definition CKR_OBJECT_HANDLE_INVALID : Z := 0x00000082.
Definition CKR_KEY_TYPE_INCONSISTENT : Z := 0x00000063.
Definition CKR_KEY_INDIGESTIBLE : Z := 0x00000067.
Definition CKR_KEY_FUNCTION_NOT_PERMITTED : Z := 0x00000068.
Definition CKR_MECHANISM_INVALID : Z := 0x00000070.
Definition CKR_MECHANISM_PARAM_INVALID : Z := 0x00000071.
Definition CKR_OPERATION_ACTIVE : Z := 0x00000090.
Definition CKR_OPERATION_NOT_INITIALIZED : Z := 0x00000091.
Definition CKR_PIN_INCORRECT : Z := 0x000000A0.
Definition CKR_PIN_INVALID : Z := 0x000000A1.
Definition CKR_PIN_LEN_RANGE : Z := 0x000000A2.
Definition CKR_PIN_LOCKED : Z := 0x000000A4.
Definition CKR_SESSION_CLOSED : Z := 0x000000B0.
Definition CKR_SESSION_COUNT : Z := 0x000000B1.
Definition CKR_SESSION_HANDLE_INVALID : Z := 0x000000B3.
Definition CKR_SESSION_PARALLEL_NOT_SUPPORTED : Z := 0x000000B4.
Definition CKR_SESSION_READ_ONLY : Z := 0x000000B5.
Definition CKR_SIGNATURE_INVALID : Z := 0x000000C0.
Definition CKR_SIGNATURE_LEN_RANGE : Z := 0x000000C1.
Definition CKR_TOKEN_NOT_PRESENT : Z := 0x000000E0.
Definition CKR_TOKEN_WRITE_PROTECTED : Z := 0x000000E2.
Definition CKR_USER_ALREADY_LOGGED_IN : Z := 0x00000100.
Definition CKR_USER_NOT_LOGGED_IN : Z := 0x00000101.
Definition CKR_USER_PIN_NOT_INITIALIZED : Z := 0x00000102.
Definition CKR_USER_TYPE_INVALID : Z := 0x00000103.
Definition CKR_RANDOM_SEED_NOT_SUPPORTED : Z := 0x00000120.
Definition CKR_BUFFER_TOO_SMALL : Z := 0x00000150.
Definition CKR_CRYPTOKI_NOT_INITIALIZED : Z := 0x00000190.
Definition CKR_CRYPTOKI_ALREADY_INITIALIZED : Z := 0x00000191.
Definition CKO_CERTIFICATE : Z := 0x00000001.
Definition CKO_PUBLIC_KEY : Z := 0x00000002.
Definition CKO_PRIVATE_KEY : Z := 0x00000003.
Definition CKC_X_509 : Z := 0x00000000.
Definition CK_CERTIFICATE_CATEGORY_TOKEN_USER : Z := 0x00000001.
Definition CK_CERTIFICATE_CATEGORY_AUTHORITY : Z := 0x00000002.
Definition CKK_RSA : Z := 0x00000000.
Definition CKK_EC : Z := 0x00000003.
Definition CKA_CLASS : Z := 0x00000000.
Definition CKA_TOKEN : Z := 0x00000001.
Definition CKA_PRIVATE : Z := 0x00000002.
Definition CKA_LABEL : Z := 0x00000003.
Definition CKA_VALUE : Z := 0x00000011.
Definition CKA_CERTIFICATE_TYPE : Z := 0x00000080.
Definition CKA_ISSUER : Z := 0x00000081.
Definition CKA_SERIAL_NUMBER : Z := 0x00000082.
Definition CKA_TRUSTED : Z := 0x00000086.
Definition CKA_CERTIFICATE_CATEGORY : Z := 0x00000087.
Definition CKA_KEY_TYPE : Z := 0x00000100.
Definition CKA_SUBJECT : Z := 0x00000101.
Definition CKA_ID : Z := 0x00000102.
Definition CKA_SENSITIVE : Z := 0x00000103.
Definition CKA_ENCRYPT : Z := 0x00000104.
Definition CKA_WRAP : Z := 0x00000106.
Definition CKA_UNWRAP : Z := 0x00000107.
Definition CKA_SIGN : Z := 0x00000108.
Definition CKA_SIGN_RECOVER : Z := 0x00000109.
Definition CKA_VERIFY : Z := 0x0000010A.
Definition CKA_DERIVE : Z := 0x0000010C.
Definition CKA_MODULUS : Z := 0x00000120.
Definition CKA_MODULUS_BITS : Z := 0x00000121.
Definition CKA_PUBLIC_EXPONENT : Z := 0x00000122.
Definition CKA_EXTRACTABLE : Z := 0x00000162.
Definition CKA_LOCAL : Z := 0x00000163.
Definition CKA_NEVER_EXTRACTABLE : Z := 0x00000164.
Definition CKA_ALWAYS_SENSITIVE : Z := 0x00000165.
Definition CKA_EC_PARAMS : Z := 0x00000180.
Definition CKA_EC_POINT : Z := 0x00000181.
Definition CKA_ALWAYS_AUTHENTICATE : Z := 0x00000202.
Definition CKM_RSA_PKCS : Z := 0x00000001.
Definition CKM_ECDSA : Z := 0x00001041.
Definition CKU_SO : Z := 0x00000000.
Definition CKU_USER : Z := 0x00000001.
Definition CKS_RO_PUBLIC_SESSION : Z := 0x00000000.
Definition CKS_RO_USER_FUNCTIONS : Z := 0x00000001.
Definition CKS_RW_PUBLIC_SESSION : Z := 0x00000002.
Definition CKS_RW_USER_FUNCTIONS : Z := 0x00000003.
Definition CKF_TOKEN_PRESENT : Z := 0x00000001.
Definition CKF_REMOVABLE_DEVICE : Z := 0x00000002.
Definition CKF_HW_SLOT : Z := 0x00000004.
Definition CKF_WRITE_PROTECTED : Z := 0x00000002.
Definition CKF_LOGIN_REQUIRED : Z := 0x00000004.
Definition CKF_USER_PIN_INITIALIZED : Z := 0x00000008.
Definition CKF_PROTECTED_AUTHENTICATION_PATH : Z := 0x00000100.
Definition CKF_USER_PIN_COUNT_LOW : Z := 0x00010000.
Definition CKF_USER_PIN_FINAL_TRY : Z := 0x00020000.
Definition CKF_USER_PIN_LOCKED : Z := 0x00040000.
Definition CKF_TOKEN_INITIALIZED : Z := 0x00000400.
Definition CKF_RW_SESSION : Z := 0x00000002.
Definition CKF_SERIAL_SESSION : Z := 0x00000004.
Definition CKF_HW : Z := 0x00000001.
Definition CKF_SIGN : Z := 0x00000800.
Definition CKF_EC_F_P : Z := 0x00100000.
Definition CKF_EC_NAMEDCURVE : Z := 0x00800000.
Definition CKF_EC_UNCOMPRESS : Z := 0x01000000.
Definition CKF_OS_LOCKING_OK : Z := 0x00000002.
Definition CKF_LIBRARY_CANT_CREATE_OS_THREADS : Z := 0x00000001.
Definition CKF_DONT_BLOCK : Z := 0x00000001.
