(* ===== verification/Pkcs11Sign.v ===== *)
(** What a PKCS#11 caller hands over to be signed and gets back:
    crates/refineid-pkcs11/src/sign.rs and the signature conversion of
    crates/refineid-pkcs11/src/token.rs. *)

From S2P Require Import Prelude Ber StatusWord Transport Apdu Pin Auth SignCommands SignOps Cryptoki.

Definition RSA3072_SIGNATURE_BYTES : Z := 384.
Definition ECDSA_P384_SIGNATURE_BYTES : Z := 96.
Definition SHA256_DIGEST_BYTES : nat := 32.
Definition SHA384_DIGEST_BYTES : nat := 48.
Definition DER_TAG_SEQUENCE : Z := 0x30.
Definition DER_TAG_OID : Z := 0x06.
Definition DER_TAG_NULL : Z := 0x05.
Definition DER_TAG_OCTET_STRING : Z := 0x04.
Definition DER_LONG_FORM_FLAG : Z := 0x80.
Definition SHA256_OID_VALUE : bytes := [0x60; 0x86; 0x48; 0x01; 0x65; 0x03; 0x04; 0x02; 0x01].

Inductive Mechanism := Mech_RsaPkcs | Mech_Ecdsa.
#[export] Instance Mechanism_eq_dec : EqDecision Mechanism.
Proof. solve_decision. Defined.

Definition Mechanism_signature_len (m : Mechanism) : Z :=
  match m with Mech_RsaPkcs => RSA3072_SIGNATURE_BYTES | Mech_Ecdsa => ECDSA_P384_SIGNATURE_BYTES end.
Definition Mechanism_ck_type (m : Mechanism) : Z :=
  match m with Mech_RsaPkcs => CKM_RSA_PKCS | Mech_Ecdsa => CKM_ECDSA end.
Definition Mechanism_from_ck_type (mechanism : Z) : option Mechanism :=
  if mechanism =? CKM_RSA_PKCS then Some Mech_RsaPkcs
  else if mechanism =? CKM_ECDSA then Some Mech_Ecdsa
  else None.

(** ** Inputs *)

Definition reject_degenerate_digest (digest : bytes) : result Z unit :=
  let all_zero := forallb (Z.eqb 0) digest in
  let all_ones := forallb (Z.eqb u8_max) digest in
  let zeros_except_last := match reverse digest with
                           | last :: head => (last =? 1) && forallb (Z.eqb 0) head
                           | [] => false
                           end in
  let zeros_except_first := match digest with
                            | first :: tail => (first =? 1) && forallb (Z.eqb 0) tail
                            | [] => false
                            end in
  if all_zero || all_ones || zeros_except_last || zeros_except_first then Err CKR_DATA_INVALID else Ok tt.

Definition read_tlv (data : bytes) : option (Z * bytes * bytes) :=
  match data with
  | tag :: len_byte :: after_len =>
      if DER_LONG_FORM_FLAG <=? len_byte then None
      else if len after_len <? len_byte then None
      else Some (tag, take (Z.to_nat len_byte) after_len, drop (Z.to_nat len_byte) after_len)
  | _ => None
  end.

(** [slice.try_into()] for an array of [n] octets. *)
Fixpoint try_into_array (n : nat) (l : bytes) : option (vec Z n) :=
  match n, l with
  | O, [] => Some [#]
  | S n, x :: l => v ← try_into_array n l; Some (x ::: v)
  | _, _ => None
  end.

Definition parse_sha256_digest_info (input : bytes) : result Z (vec Z SHA256_DIGEST_BYTES) :=
  let? (outer_tag, outer_body, outer_rest) := ok_or (read_tlv input) CKR_DATA_INVALID in
  if negb (outer_tag =? DER_TAG_SEQUENCE) || negb (bool_decide (outer_rest = [])) then Err CKR_DATA_INVALID
  else
    let? (alg_tag, alg_body, after_alg) := ok_or (read_tlv outer_body) CKR_DATA_INVALID in
    if negb (alg_tag =? DER_TAG_SEQUENCE) then Err CKR_DATA_INVALID
    else
      let? (oid_tag, oid_body, after_oid) := ok_or (read_tlv alg_body) CKR_DATA_INVALID in
      if negb (oid_tag =? DER_TAG_OID) || negb (bool_decide (oid_body = SHA256_OID_VALUE)) then Err CKR_DATA_INVALID
      else
        let? _ :=
          match read_tlv after_oid with
          | None => if negb (bool_decide (after_oid = [])) then Err CKR_DATA_INVALID else Ok tt
          | Some (null_tag, null_body, after_null) =>
              if negb (null_tag =? DER_TAG_NULL) || negb (bool_decide (null_body = []))
                 || negb (bool_decide (after_null = []))
              then Err CKR_DATA_INVALID else Ok tt
          end in
        let? (digest_tag, digest_body, after_digest) := ok_or (read_tlv after_alg) CKR_DATA_INVALID in
        if negb (digest_tag =? DER_TAG_OCTET_STRING) || negb (bool_decide (after_digest = []))
        then Err CKR_DATA_INVALID
        else
          let? _ := reject_degenerate_digest digest_body in
          ok_or (try_into_array SHA256_DIGEST_BYTES digest_body) CKR_DATA_INVALID.

Record CkEcdsaDigest := mkCkEcdsaDigest { CkEcdsaDigest_0 : vec Z SHA384_DIGEST_BYTES }.

(** The slices taken here exist: [src] is a prefix of the input and no longer than
    the array. *)
Definition CkEcdsaDigest_fit_p384 (input : bytes) : result Z CkEcdsaDigest :=
  if bool_decide (input = []) then Err CKR_DATA_LEN_RANGE
  else
    let? _ := reject_degenerate_digest input in
    let src := take (length input `min` SHA384_DIGEST_BYTES) input in
    match try_into_array SHA384_DIGEST_BYTES (replicate (SHA384_DIGEST_BYTES - length src) 0 ++ src) with
    | Some digest => Ok (mkCkEcdsaDigest digest)
    | None => Panic
    end.
Definition CkEcdsaDigest_into_card_hash (d : CkEcdsaDigest) : Sha384 := mkSha384 (CkEcdsaDigest_0 d).

Section card.
Context `{CardTransport T E}.

Definition sign_with_card (mechanism : Mechanism) (input : bytes) : act T Z bytes :=
  match mechanism with
  | Mech_RsaPkcs =>
      do! digest := act_lift (parse_sha256_digest_info input) in
      let hash := mkSha256 digest in
      do! signature := act_map_err (λ _, CKR_DEVICE_ERROR) (sign_pre_hashed_sha256_rsa_auth hash) in
      act_ret (Signature_as_bytes signature)
  | Mech_Ecdsa =>
      do! digest := act_lift (CkEcdsaDigest_fit_p384 input) in
      do! signature := act_map_err (λ _, CKR_DEVICE_ERROR)
                         (sign_pre_hashed_sha384_ecdsa_p384 Kr_Auth (CkEcdsaDigest_into_card_hash digest)) in
      act_ret (Signature_as_bytes signature)
  end.
End card.

(** ** ECDSA signatures from DER: token.rs *)

(** [der[i]]. *)
Definition index {E} (der : bytes) (i : Z) : result E Z :=
  match zget i der with Some b => Ok b | None => Panic end.

(** [&der[i..j]]. *)
Definition subslice {E} (der : bytes) (i j : Z) : result E bytes :=
  match zslice i j der with Some s => Ok s | None => Panic end.

(** [Option] as a result without a reason; a failed index panics. *)
Abbreviation opt A := (result unit A).

Fixpoint der_len_loop (num_bytes : nat) (der : bytes) (length idx : Z) : opt (Z * Z) :=
  match num_bytes with
  | O => Ok (length, idx)
  | S num_bytes =>
      let? b := index der idx in
      der_len_loop num_bytes der (Z.lor (Z.shiftl length 8) b) (idx + 1)
  end.

(** The length, and [*idx] behind it. *)
Definition parse_der_len (der : bytes) (idx : Z) : opt (Z * Z) :=
  if len der <=? idx then Err tt
  else
    let? first := index der idx in
    let idx := idx + 1 in
    if Z.land first 0x80 =? 0 then Ok (first, idx)
    else
      let num_bytes := Z.land first 0x7F in
      if (num_bytes =? 0) || (4 <? num_bytes) || (len der <? idx + num_bytes) then Err tt
      else der_len_loop (Z.to_nat num_bytes) der 0 idx.

(** [while slice.len() > 1 && slice[0] == 0 { slice = &slice[1..] }]. *)
Fixpoint strip_zeros (l : bytes) : bytes :=
  match l with
  | x :: ((_ :: _) as rest) => if x =? 0 then strip_zeros rest else l
  | _ => l
  end.

(** The two tests of a stripped integer: it is neither empty nor zero, and it
    fits the field. *)
Definition integer_unfit (field_bytes : Z) (slice : bytes) : bool :=
  bool_decide (slice = []) || bool_decide (slice = [0]) || (field_bytes <? len slice).

Definition ecdsa_der_to_p1363 (der : bytes) (field_bytes : Z) : opt bytes :=
  if (field_bytes =? 0) || bool_decide (der = []) then Err tt
  else
    let? first := index der 0 in
    if negb (first =? 0x30) then Err tt
    else
      let? (seq_len, idx) := parse_der_len der 1 in
      if negb (idx + seq_len =? len der) then Err tt
      else if len der <=? idx then Err tt
      else
        let? tag := index der idx in
        if negb (tag =? 0x02) then Err tt
        else
          let? (r_len, idx) := parse_der_len der (idx + 1) in
          if len der <? idx + r_len then Err tt
          else
            let? r_raw := subslice der idx (idx + r_len) in
            let idx := idx + r_len in
            if len der <=? idx then Err tt
            else
              let? tag := index der idx in
              if negb (tag =? 0x02) then Err tt
              else
                let? (s_len, idx) := parse_der_len der (idx + 1) in
                if negb (idx + s_len =? len der) then Err tt
                else
                  let? s_raw := subslice der idx (idx + s_len) in
                  let r_slice := strip_zeros r_raw in
                  if integer_unfit field_bytes r_slice then Err tt
                  else
                    let s_slice := strip_zeros s_raw in
                    if integer_unfit field_bytes s_slice then Err tt
                    else
                      let pad slice := replicate (Z.to_nat (field_bytes - len slice)) 0 ++ slice in
                      Ok (pad r_slice ++ pad s_slice).

Definition remote_ecdsa_to_p1363 (signature : bytes) (field_bytes : Z) : opt bytes :=
  if len signature =? field_bytes * 2 then Ok signature else ecdsa_der_to_p1363 signature field_bytes.

(** ** Lemmas: inputs *)

Lemma try_into_array_Some n l (v : vec Z n) : try_into_array n l = Some v ↔ vec_to_list v = l.
Proof.
  revert l v. induction n as [|n IH]; intros l v.
  - inv_vec v. destruct l; cbn; split; done.
  - inv_vec v. intros y v. destruct l as [|x l]; cbn; [split; done|].
    destruct (try_into_array n l) as [w|] eqn:Hw; cbn.
    + apply IH in Hw. subst l. split; [intros Heq%Some_inj; by rewrite (vcons_inj_1 _ _ _ _ Heq), (vcons_inj_2 _ _ _ _ Heq)|].
      intros [= -> Heq]. apply vec_to_list_inj2 in Heq. by subst.
    + split; [done|]. intros [= -> Heq]. apply IH in Heq. congruence.
Qed.

Lemma read_tlv_Some data tag v rest : bytes_ok data →
  read_tlv data = Some (tag, v, rest) ↔ data = tag :: len v :: v ++ rest ∧ len v < 128.
Proof.
  intros Hd. destruct data as [|t [|l after]]; [split; [done|by intros (? & _)]..|]. cbn [read_tlv].
  apply Forall_cons_1 in Hd as [_ Hd]. apply Forall_cons_1 in Hd as [Hl _]. unfold is_byte, DER_LONG_FORM_FLAG in *.
  destruct (Z.leb_spec 128 l); [split; [done|]; intros ([= -> -> ->] & ?); lia|].
  destruct (Z.ltb_spec (len after) l) as [Hlt|Hge].
  - split; [done|]. intros ([= -> -> ->] & ?). rewrite len_app in Hlt. pose proof (len_nonneg rest). lia.
  - split.
    + intros [= <- <- <-]. rewrite take_drop. unfold len in *. rewrite length_take. split; [|lia]. do 2 f_equal. lia.
    + intros ([= -> -> ->] & _). unfold len. by rewrite Nat2Z.id, take_app_length, drop_app_length.
Qed.

(** The sentinels: zero, one in either byte order and minus one. *)
Definition degenerate (d : bytes) : Prop :=
  (∃ n, d = replicate n 0) ∨ (∃ n, d = replicate n 255) ∨ (∃ n, d = replicate n 0 ++ [1]) ∨ (∃ n, d = 1 :: replicate n 0).

Lemma forallb_replicate x l : forallb (Z.eqb x) l = true ↔ ∃ n, l = replicate n x.
Proof.
  split.
  - induction l as [|y l IH]; cbn; [by exists 0%nat|]. intros [->%Z.eqb_eq (n & ->)%IH]%andb_true_iff. by exists (S n).
  - intros (n & ->). induction n as [|n IH]; cbn; [done|]. by rewrite Z.eqb_refl, IH.
Qed.

Lemma reject_degenerate_spec d : reject_degenerate_digest d = Ok tt ↔ ¬ degenerate d.
Proof.
  unfold reject_degenerate_digest, degenerate.
  assert ((match reverse d with last :: head => (last =? 1) && forallb (Z.eqb 0) head | [] => false end = true)
          ↔ ∃ n, d = replicate n 0 ++ [1]) as H3.
  { assert (d = reverse (reverse d)) as Hd by by rewrite reverse_involutive. revert Hd.
    generalize (reverse d) as l0. intros [|x l] ->.
    - split; [done|]. intros (n & Hn). by destruct (replicate n 0).
    - rewrite reverse_cons, andb_true_iff, Z.eqb_eq, forallb_replicate. split.
      + intros (-> & n & ->). exists n. by rewrite reverse_replicate.
      + intros (n & Hn). apply app_inj_2 in Hn as [Hr [= ->]]; [|done]. split; [done|]. exists n.
        rewrite <- (reverse_involutive l), Hr. apply reverse_replicate. }
  assert ((match d with first :: tl => (first =? 1) && forallb (Z.eqb 0) tl | [] => false end = true)
          ↔ ∃ n, d = 1 :: replicate n 0) as H4.
  { destruct d as [|x l]; [split; [done|by intros (? & ?)]|]. rewrite andb_true_iff, Z.eqb_eq, forallb_replicate.
    split; [intros (-> & n & ->); by exists n|]. intros (n & [= -> ->]). eauto. }
  unfold u8_max. rewrite <- !forallb_replicate, <- H3, <- H4.
  destruct (forallb (Z.eqb 0) d), (forallb (Z.eqb 255) d); cbn [orb]; try (split; [done|naive_solver]).
  destruct (match reverse d with [] => _ | _ => _ end); cbn [orb]; [split; [done|naive_solver]|].
  destruct (match d with [] => _ | _ => _ end); cbn [orb]; [split; [done|naive_solver]|]. naive_solver.
Qed.

(** The two encodings of a SHA-256 DigestInfo: with and without NULL parameters. *)
Definition digest_info_null : bytes := [0x30; 0x31; 0x30; 0x0D; 0x06; 0x09] ++ SHA256_OID_VALUE ++ [0x05; 0x00; 0x04; 0x20].
Definition digest_info_bare : bytes := [0x30; 0x2F; 0x30; 0x0B; 0x06; 0x09] ++ SHA256_OID_VALUE ++ [0x04; 0x20].

Lemma let_ok_or_Ok {E A B} (o : option A) (e : E) (k : A → result E B) b :
  (let? x := ok_or o e in k x) = Ok b ↔ ∃ a, o = Some a ∧ k a = Ok b.
Proof. destruct o; cbn; naive_solver. Qed.

Lemma guard_Ok {E B} (c : bool) (e : E) (r : result E B) b : (if c then Err e else r) = Ok b ↔ c = false ∧ r = Ok b.
Proof. destruct c; naive_solver. Qed.

Lemma bind_Ok {E A B} (m : result E A) (k : A → result E B) b :
  (let? x := m in k x) = Ok b ↔ ∃ a, m = Ok a ∧ k a = Ok b.
Proof. destruct m; cbn; naive_solver. Qed.

Lemma tag_and_end (t t' : Z) (l : bytes) : negb (t =? t') || negb (bool_decide (l = [])) = false ↔ t = t' ∧ l = [].
Proof. rewrite orb_false_iff, !negb_false_iff, Z.eqb_eq, bool_decide_eq_true. done. Qed.

(** The AlgorithmIdentifier behind the OID: NULL parameters or none. *)
Lemma after_oid_spec l : bytes_ok l →
  match read_tlv l with
  | None => if negb (bool_decide (l = [])) then Err CKR_DATA_INVALID else Ok tt
  | Some (null_tag, null_body, after_null) =>
      if negb (null_tag =? DER_TAG_NULL) || negb (bool_decide (null_body = [])) || negb (bool_decide (after_null = []))
      then Err CKR_DATA_INVALID else Ok tt
  end = Ok tt ↔ l = [] ∨ l = [0x05; 0x00].
Proof.
  intros Hl. destruct (read_tlv l) as [[[t v] r]|] eqn:Hr.
  - apply read_tlv_Some in Hr as (-> & _); [|done]. rewrite guard_Ok, !orb_false_iff, !negb_false_iff, Z.eqb_eq, !bool_decide_eq_true.
    split; [by intros (((-> & ->) & ->) & _); right|]. intros [|[= -> Hn Hv]]; [done|].
    apply app_eq_nil in Hv as [-> ->]. done.
  - destruct l as [|x l]; cbn; [split; [by left|done]|]. split; [done|]. intros [|[= -> ->]]; [done|]. by vm_compute in Hr.
Qed.

Lemma digest_info_inv input (d : vec Z 32) : bytes_ok input → parse_sha256_digest_info input = Ok d →
  (input = digest_info_null ++ vec_to_list d ∨ input = digest_info_bare ++ vec_to_list d) ∧ ¬ degenerate (vec_to_list d).
Proof.
  intros Hin. unfold parse_sha256_digest_info.
  intros ([[t0 v0] r0] & H0 & ((-> & ->)%tag_and_end & H)%guard_Ok)%let_ok_or_Ok.
  apply read_tlv_Some in H0 as (-> & Hl0); [|done]. rewrite app_nil_r in *.
  apply Forall_cons_1 in Hin as [_ Hin]. apply Forall_cons_1 in Hin as [_ Hin].
  apply let_ok_or_Ok in H as ([[t1 v1] r1] & H1 & H). apply guard_Ok in H as (->%negb_false_iff%Z.eqb_eq & H).
  apply read_tlv_Some in H1 as (-> & Hl1); [|done].
  apply Forall_cons_1 in Hin as [_ Hin]. apply Forall_cons_1 in Hin as [_ Hin]. apply Forall_app in Hin as [Hv1 Hr1].
  apply let_ok_or_Ok in H as ([[t2 v2] r2] & H2 & H). apply guard_Ok in H as (Hoid & H).
  rewrite orb_false_iff, !negb_false_iff, Z.eqb_eq, bool_decide_eq_true in Hoid. destruct Hoid as [-> ->].
  apply read_tlv_Some in H2 as (-> & _); [|done].
  apply Forall_cons_1 in Hv1 as [_ Hv1]. apply Forall_cons_1 in Hv1 as [_ Hv1]. apply Forall_app in Hv1 as [_ Hr2].
  apply bind_Ok in H as ([] & Hnull & H). apply after_oid_spec in Hnull; [|done].
  apply let_ok_or_Ok in H as ([[t3 v3] r3] & H3 & H). apply guard_Ok in H as ((-> & ->)%tag_and_end & H).
  apply read_tlv_Some in H3 as (-> & Hl3); [|done]. apply bind_Ok in H as ([] & Hdeg & H).
  apply reject_degenerate_spec in Hdeg. apply ok_or_inv, try_into_array_Some in H. subst v3. split; [|done].
  assert (len (vec_to_list d) = 32) as Hd by (unfold len; by rewrite length_vec_to_list).
  unfold digest_info_null, digest_info_bare, SHA256_OID_VALUE, SHA256_DIGEST_BYTES.
  destruct Hnull as [-> | ->]; [right|left]; rewrite ?app_nil_r; cbn [app]; rewrite !len_cons, Hd; done.
Qed.

Lemma read_tlv_app tag n v rest : n = len v → n < 128 → read_tlv (tag :: n :: v ++ rest) = Some (tag, v, rest).
Proof.
  intros -> Hn. cbn [read_tlv]. unfold DER_LONG_FORM_FLAG. destruct (Z.leb_spec 128 (len v)); [lia|].
  destruct (Z.ltb_spec (len (v ++ rest)) (len v)) as [Hlt|_].
  - rewrite len_app in Hlt. pose proof (len_nonneg rest). lia.
  - unfold len. by rewrite Nat2Z.id, take_app_length, drop_app_length.
Qed.

Lemma digest_info_read params (d : vec Z 32) : params = [] ∨ params = [0x05; 0x00] → ¬ degenerate (vec_to_list d) →
  let alg := [0x06; 0x09] ++ SHA256_OID_VALUE ++ params in
  parse_sha256_digest_info ([0x30; 36 + len alg; 0x30; len alg] ++ alg ++ [0x04; 0x20] ++ vec_to_list d) = Ok d.
Proof.
  intros Hp Hdeg alg. apply reject_degenerate_spec in Hdeg.
  assert (len (vec_to_list d) = 32) as Hd by (unfold len; by rewrite length_vec_to_list).
  assert (try_into_array SHA256_DIGEST_BYTES (vec_to_list d) = Some d) as Hv by by apply try_into_array_Some.
  assert (11 ≤ len alg ≤ 13) as Hla by (destruct Hp as [-> | ->]; by vm_compute).
  set (body := [0x30; len alg] ++ alg ++ [0x04; 0x20] ++ vec_to_list d).
  change ([0x30; 36 + len alg; 0x30; len alg] ++ alg ++ [0x04; 0x20] ++ vec_to_list d) with (0x30 :: 36 + len alg :: body).
  assert (36 + len alg = len body) as Hlb.
  { subst body. rewrite !len_app, Hd. change (len [48; len alg]) with 2. change (len [4; 32]) with 2. lia. }
  unfold parse_sha256_digest_info. rewrite <- (app_nil_r body), (read_tlv_app 0x30 _ body []) by lia.
  cbn [ok_or result_bind Z.eqb DER_TAG_SEQUENCE Pos.eqb negb orb bool_decide decide_rel list_eq_nil_dec].
  subst body. cbn [app]. rewrite (read_tlv_app 0x30 (len alg) alg) by (done || lia).
  cbn [ok_or result_bind Z.eqb DER_TAG_SEQUENCE Pos.eqb negb].
  assert (read_tlv alg = Some (0x06, SHA256_OID_VALUE, params)) as -> by by apply (read_tlv_app 0x06 9 SHA256_OID_VALUE params).
  cbn [ok_or result_bind Z.eqb DER_TAG_OID Pos.eqb negb orb]. rewrite bool_decide_eq_true_2 by done. cbn [negb].
  assert (bytes_ok params) as Hpb by (destruct Hp as [-> | ->]; by_decide).
  rewrite (proj2 (after_oid_spec params Hpb) Hp). cbn [result_bind].
  rewrite <- (app_nil_r (vec_to_list d)), (read_tlv_app 0x04 32 (vec_to_list d) []) by (done || lia).
  cbn [ok_or result_bind Z.eqb DER_TAG_OCTET_STRING Pos.eqb negb orb]. rewrite bool_decide_eq_true_2 by done. cbn [negb].
  rewrite Hdeg. cbn [result_bind]. by rewrite Hv.
Qed.

Lemma be_fold_zeros n l : be_fold (replicate n 0 ++ l) = be_fold l.
Proof. unfold be_fold. rewrite foldl_app. f_equal. by induction n as [|n IH]. Qed.

Lemma try_into_array_length n l : length l = n → ∃ v, try_into_array n l = Some v ∧ vec_to_list v = l.
Proof.
  intros <-. exists (list_to_vec l). rewrite try_into_array_Some, vec_to_list_to_vec. done.
Qed.

Lemma fit_p384_Ok input : input ≠ [] → ¬ degenerate input →
  ∃ d, CkEcdsaDigest_fit_p384 input = Ok d ∧ be_fold (vec_to_list (CkEcdsaDigest_0 d)) = be_fold (take 48 input).
Proof.
  intros Hne Hdeg. unfold CkEcdsaDigest_fit_p384. rewrite bool_decide_eq_false_2 by done.
  apply reject_degenerate_spec in Hdeg as ->. cbn [result_bind].
  set (src := take (length input `min` SHA384_DIGEST_BYTES) input).
  assert (src = take 48 input) as Hsrc.
  { subst src. unfold SHA384_DIGEST_BYTES. destruct (decide (length input ≤ 48)%nat).
    - rewrite Nat.min_l by lia. by rewrite !take_ge by lia.
    - by rewrite Nat.min_r by lia. }
  destruct (try_into_array_length SHA384_DIGEST_BYTES (replicate (SHA384_DIGEST_BYTES - length src) 0 ++ src)) as (d & -> & Hd).
  { rewrite length_app, length_replicate, Hsrc, length_take. unfold SHA384_DIGEST_BYTES. lia. }
  eexists. split; [done|]. cbn [CkEcdsaDigest_0]. by rewrite Hd, be_fold_zeros, Hsrc.
Qed.

Lemma fit_p384_inv input d : CkEcdsaDigest_fit_p384 input = Ok d → input ≠ [] ∧ ¬ degenerate input.
Proof.
  unfold CkEcdsaDigest_fit_p384. case_bool_decide; [done|]. intros (u & Hr & _)%bind_Ok. destruct u.
  split; [done|]. by apply reject_degenerate_spec.
Qed.

(** ** Lemmas: lengths and integers of DER *)

(** The octets of a length this reader takes: short, or up to four octets. *)
Definition der_length (l : bytes) (n : Z) : Prop :=
  (l = [n] ∧ n < 128) ∨ (∃ bs, l = (128 + len bs) :: bs ∧ 1 ≤ len bs ≤ 4 ∧ be_fold bs = n).

Lemma index_app {E} pre b suf : @index E (pre ++ b :: suf) (len pre) = Ok b.
Proof. unfold index, len. by rewrite zget_app. Qed.

Lemma der_len_loop_app pre bs suf n : der_len_loop (length bs) (pre ++ bs ++ suf) n (len pre) =
  Ok (foldl (λ acc b, Z.lor (Z.shiftl acc 8) b) n bs, len pre + len bs).
Proof.
  revert pre n. induction bs as [|b bs IH]; intros pre n; cbn [length der_len_loop foldl].
  - change (len []) with 0. by rewrite Z.add_0_r.
  - cbn [app]. rewrite index_app. cbn [result_bind].
    specialize (IH (pre ++ [b]) (Z.lor (Z.shiftl n 8) b)). rewrite <- app_assoc, len_app in IH. cbn [app] in IH.
    change (len [b]) with 1 in IH. rewrite IH, len_cons. do 2 f_equal. lia.
Qed.

Lemma length_octet b : is_byte b →
  (Z.land b 0x80 =? 0) = (b <? 128) ∧ Z.land b 0x7F = b mod 128.
Proof.
  intros Hb. assert (Bool.eqb (Z.land b 0x80 =? 0) (b <? 128) && (Z.land b 0x7F =? b mod 128) = true) as Ht.
  { apply (byte_forall (λ b, Bool.eqb (Z.land b 0x80 =? 0) (b <? 128) && (Z.land b 0x7F =? b mod 128))); [by vm_compute|done]. }
  apply andb_true_iff in Ht as [->%eqb_prop ->%Z.eqb_eq]. done.
Qed.

(** Reading a length succeeds exactly on length octets, and never leaves the
    buffer. *)
Lemma parse_der_len_Ok pre suf n i : bytes_ok suf →
  parse_der_len (pre ++ suf) (len pre) = Ok (n, i) ↔ ∃ l rest, suf = l ++ rest ∧ der_length l n ∧ i = len pre + len l.
Proof.
  intros Hsuf. unfold parse_der_len. rewrite len_app. destruct suf as [|b suf].
  - change (len []) with 0. destruct (Z.leb_spec (len pre + 0) (len pre)); [|lia]. split; [done|].
    intros (l & rest & Heq & Hl & _). symmetry in Heq. apply app_eq_nil in Heq as [-> _].
    by destruct Hl as [[? _]|(? & ? & _)].
  - rewrite len_cons. pose proof (len_nonneg suf). destruct (Z.leb_spec (len pre + (1 + len suf)) (len pre)); [lia|].
    rewrite index_app. cbn [result_bind]. apply Forall_cons_1 in Hsuf as [Hb Hsuf].
    destruct (length_octet b Hb) as [-> ->]. unfold is_byte in Hb. destruct (Z.ltb_spec b 128).
    + split.
      * intros [= <- <-]. exists [b], suf. split; [done|]. split; [by left|]. done.
      * intros (l & rest & Heq & [[-> _]|(bs & -> & Hbs & _)] & ->); injection Heq as -> _; [done|lia].
    + assert (b mod 128 = b - 128) as -> by (rewrite <- (Z.mod_unique b 128 1 (b - 128)); lia).
      split.
      * rewrite guard_Ok, !orb_false_iff, Z.eqb_neq, !Z.ltb_ge. intros [((Hnz & Hle) & Hfit) Hloop].
        assert (suf = take (Z.to_nat (b - 128)) suf ++ drop (Z.to_nat (b - 128)) suf) as Hcut by by rewrite take_drop.
        set (bs := take (Z.to_nat (b - 128)) suf) in *. set (rest := drop (Z.to_nat (b - 128)) suf) in *.
        assert (length bs = Z.to_nat (b - 128)) as Hlb by (subst bs; rewrite length_take; unfold len in *; lia).
        rewrite Hcut, <- Hlb in Hloop. replace (pre ++ b :: bs ++ rest) with ((pre ++ [b]) ++ bs ++ rest) in Hloop by by rewrite <- app_assoc.
        replace (len pre + 1) with (len (pre ++ [b])) in Hloop by by rewrite len_app.
        rewrite der_len_loop_app in Hloop. injection Hloop as <- <-.
        exists (b :: bs), rest. split; [by rewrite Hcut at 1|]. split.
        -- right. exists bs. unfold len. rewrite Hlb. split; [f_equal; lia|]. split; [lia|done].
        -- rewrite len_app, (len_cons b bs). change (len [b]) with 1. lia.
      * intros (l & rest & Heq & [[-> ?]|(bs & -> & Hbs & <-)] & ->); injection Heq as -> ->; [lia|].
        destruct (Z.eqb_spec (128 + len bs - 128) 0); [lia|]. destruct (Z.ltb_spec 4 (128 + len bs - 128)); [lia|].
        rewrite len_app in *. destruct (Z.ltb_spec (len pre + (1 + (len bs + len rest))) (len pre + 1 + (128 + len bs - 128))).
        { pose proof (len_nonneg rest). lia. }
        cbn [orb]. replace (Z.to_nat (128 + len bs - 128)) with (length bs) by (unfold len; lia).
        replace (pre ++ 128 + len bs :: bs ++ rest) with ((pre ++ [128 + len bs]) ++ bs ++ rest) by by rewrite <- app_assoc.
        replace (len pre + 1) with (len (pre ++ [128 + len bs])) by by rewrite len_app.
        rewrite der_len_loop_app, len_app, (len_cons _ bs). change (len [128 + len bs]) with 1. unfold be_fold. do 2 f_equal. lia.
Qed.

Lemma parse_der_len_no_panic pre suf : bytes_ok suf → parse_der_len (pre ++ suf) (len pre) ≠ Panic.
Proof.
  intros Hsuf. unfold parse_der_len. rewrite len_app. destruct suf as [|b suf].
  - change (len []) with 0. by destruct (Z.leb_spec (len pre + 0) (len pre)); [|lia].
  - destruct (Z.leb_spec (len pre + len (b :: suf)) (len pre)); [done|]. rewrite index_app. cbn [result_bind].
    destruct (_ =? 0); [done|]. destruct (_ || _) eqn:Hc; [done|].
    apply orb_false_iff in Hc as [_ Hfit%Z.ltb_ge]. rewrite len_cons in Hfit.
    assert (suf = take (Z.to_nat (Z.land b 127)) suf ++ drop (Z.to_nat (Z.land b 127)) suf) as Hcut by by rewrite take_drop.
    replace (Z.to_nat (Z.land b 127)) with (length (take (Z.to_nat (Z.land b 127)) suf)) at 1
      by (rewrite length_take; unfold len in *; lia).
    rewrite Hcut at 2. replace (len pre + 1) with (len (pre ++ [b])) by by rewrite len_app.
    replace (pre ++ b :: take (Z.to_nat (Z.land b 127)) suf ++ drop (Z.to_nat (Z.land b 127)) suf)
      with ((pre ++ [b]) ++ take (Z.to_nat (Z.land b 127)) suf ++ drop (Z.to_nat (Z.land b 127)) suf) by by rewrite <- app_assoc.
    by rewrite der_len_loop_app.
Qed.

(** ** Lemmas: the conversion *)

(** What a computation that does not panic returns, when it returns. *)
Definition returns {E A} (m : result E A) (Q : A → Prop) : Prop :=
  match m with Ok a => Q a | Err _ => True | Panic => False end.

Lemma returns_bind {E A B} (m : result E A) (k : A → result E B) P Q :
  returns m P → (∀ a, P a → returns (k a) Q) → returns (let? a := m in k a) Q.
Proof. destruct m; cbn; auto. Qed.

Lemma returns_guard {E A} (c : bool) (e : E) (m : result E A) Q :
  (c = false → returns m Q) → returns (if c then Err e else m) Q.
Proof. destruct c; cbn; auto. Qed.

Lemma parse_der_len_returns pre suf : bytes_ok suf → returns (parse_der_len (pre ++ suf) (len pre))
  (λ '(n, i), ∃ l rest, suf = l ++ rest ∧ der_length l n ∧ i = len pre + len l).
Proof.
  intros Hsuf. pose proof (parse_der_len_no_panic pre suf Hsuf) as Hnp.
  destruct (parse_der_len (pre ++ suf) (len pre)) as [[n i]| |] eqn:Hr; cbn; [|done..].
  by apply parse_der_len_Ok in Hr.
Qed.

(** A tag, and the position behind it. *)
Lemma tag_returns pre suf t (m : opt bytes) Q :
  (∀ suf', suf = t :: suf' → returns m Q) →
  returns (if len (pre ++ suf) <=? len pre then Err tt
          else let? tag := index (pre ++ suf) (len pre) in if negb (tag =? t) then Err tt else m) Q.
Proof.
  intros Hm. apply returns_guard. rewrite Z.leb_gt, len_app. intros Hlt. destruct suf as [|b suf].
  - change (len []) with 0 in Hlt. lia.
  - rewrite index_app. cbn [result_bind]. apply returns_guard. intros ->%negb_false_iff%Z.eqb_eq. by eapply Hm.
Qed.

Lemma subslice_app {E} pre v suf : @subslice E (pre ++ v ++ suf) (len pre) (len pre + len v) = Ok v.
Proof.
  unfold subslice. assert (zslice (len pre) (len pre + len v) (pre ++ v ++ suf) = Some v) as ->; [|done].
  apply zslice_Some. exists pre, suf. unfold len. split_and!; lia || done.
Qed.


(** Stripped of its leading zeros, an integer keeps its value, and its length says
    how large it is. *)
Lemma strip_zeros_spec l : bytes_ok l → l ≠ [] →
  bytes_ok (strip_zeros l) ∧ be_fold (strip_zeros l) = be_fold l ∧
  (strip_zeros l = [0] ∨ ∃ x s, strip_zeros l = x :: s ∧ 0 < x).
Proof.
  induction l as [|x l IH]; [done|]. intros Hl _. destruct l as [|y l].
  - cbn. split; [done|]. split; [done|]. apply Forall_cons_1 in Hl as [Hx _]. unfold is_byte in Hx.
    destruct (decide (x = 0)) as [-> |]; [by left|]. right. exists x, []. split; [done|lia].
  - change (strip_zeros (x :: y :: l)) with (if x =? 0 then strip_zeros (y :: l) else x :: y :: l).
    pose proof (Forall_cons_1 _ _ _ Hl) as [Hx Hyl]. destruct (Z.eqb_spec x 0) as [-> |Hx0].
    + destruct IH as (H1 & H2 & H3); [done..|]. split; [done|]. split; [|done]. rewrite H2.
      symmetry. apply (be_fold_zeros 1).
    + split; [done|]. split; [done|]. right. exists x, (y :: l). split; [done|]. unfold is_byte in Hx. lia.
Qed.

Lemma integer_unfit_false f l : bytes_ok l → 0 < f → integer_unfit f (strip_zeros l) = false ↔ 0 < be_fold l < 256 ^ f.
Proof.
  intros Hl Hf. unfold integer_unfit. destruct (decide (l = [])) as [-> |Hne]; [split; [done|]; change (be_fold []) with 0; lia|].
  destruct (strip_zeros_spec l Hl Hne) as (Hs & <- & [->|(x & s & Heq & Hx)]).
  - split; [done|]. change (be_fold [0]) with 0. lia.
  - rewrite Heq in *. rewrite bool_decide_eq_false_2 by done. rewrite (bool_decide_eq_false_2 (x :: s = [0])) by (intros [= ->]; lia).
    cbn [orb]. rewrite Z.ltb_ge, be_fold_cons, len_cons by assumption.
    pose proof (Forall_cons_1 _ _ _ Hs) as [Hxb Hsb]. pose proof (be_fold_nonneg s Hsb) as Hbs. unfold is_byte in Hxb.
    pose proof (len_nonneg s) as Hn. fold (len s) in Hbs.
    assert (0 < 256 ^ len s) by (apply Z.pow_pos_nonneg; lia). split.
    + intros Hle. split; [nia|]. assert (256 ^ (1 + len s) ≤ 256 ^ f) by (apply Z.pow_le_mono_r; lia).
      rewrite Z.pow_add_r in * by lia. nia.
    + intros [_ Hlt]. destruct (decide (1 + len s ≤ f)); [done|].
      assert (256 ^ f ≤ 256 ^ len s) by (apply Z.pow_le_mono_r; lia). nia.
Qed.

Lemma pad_field f l : bytes_ok l → 0 < f → 0 < be_fold l < 256 ^ f →
  replicate (Z.to_nat (f - len (strip_zeros l))) 0 ++ strip_zeros l = to_be (Z.to_nat f) (be_fold l).
Proof.
  intros Hl Hf Hfit. pose proof (proj2 (integer_unfit_false f l Hl Hf) Hfit) as Hu.
  assert (l ≠ []) as Hne by (intros ->; cbn in Hfit; lia).
  destruct (strip_zeros_spec l Hl Hne) as (Hs & Hv & _). unfold integer_unfit in Hu.
  apply orb_false_iff in Hu as [_ Hle%Z.ltb_ge]. rewrite <- Hv, <- (be_fold_zeros (Z.to_nat (f - len (strip_zeros l)))).
  rewrite <- (to_be_be_fold (_ ++ _)) at 1.
  - f_equal. rewrite length_app, length_replicate. unfold len in *. lia.
  - apply Forall_app. split; [|done]. apply Forall_replicate. by_decide.
Qed.

(** A DER [SEQUENCE] of two [INTEGER]s, in the lengths this reader takes. *)
Definition der_signature (der r s : bytes) : Prop :=
  ∃ L Lr Ls, der = 0x30 :: L ++ (0x02 :: Lr ++ r) ++ 0x02 :: Ls ++ s ∧
    der_length L (len ((0x02 :: Lr ++ r) ++ 0x02 :: Ls ++ s)) ∧ der_length Lr (len r) ∧ der_length Ls (len s).

Definition p1363_of (f : Z) (der out : bytes) : Prop :=
  ∃ r s, der_signature der r s ∧ 0 < be_fold r < 256 ^ f ∧ 0 < be_fold s < 256 ^ f ∧
    out = to_be (Z.to_nat f) (be_fold r) ++ to_be (Z.to_nat f) (be_fold s).

(** The last integer, and the fixed-width pair. *)
Lemma integers_returns f r s out (Q : bytes → Prop) : bytes_ok r → bytes_ok s → 0 < f →
  (let pad slice := replicate (Z.to_nat (f - len slice)) 0 ++ slice in out = pad (strip_zeros r) ++ pad (strip_zeros s)) →
  (0 < be_fold r < 256 ^ f → 0 < be_fold s < 256 ^ f →
   Q (to_be (Z.to_nat f) (be_fold r) ++ to_be (Z.to_nat f) (be_fold s))) →
  returns (if integer_unfit f (strip_zeros r) then Err tt
          else if integer_unfit f (strip_zeros s) then Err tt else Ok out : opt bytes) Q.
Proof.
  intros Hr Hs Hf -> HQ. apply returns_guard. intros Hur%integer_unfit_false; [|done..].
  apply returns_guard. intros Hus%integer_unfit_false; [|done..]. cbn. rewrite !pad_field by done. auto.
Qed.

Lemma der_length_nonneg l n : bytes_ok l → der_length l n → 0 ≤ n.
Proof.
  intros Hl [[-> _]|(bs & -> & _ & <-)]; apply Forall_cons_1 in Hl as [Hb Hbs]; [unfold is_byte in Hb; lia|].
  by apply be_fold_nonneg.
Qed.

Lemma cut_at (l : bytes) n : 0 ≤ n ≤ len l → ∃ a b, l = a ++ b ∧ len a = n.
Proof.
  intros Hn. exists (take (Z.to_nat n) l), (drop (Z.to_nat n) l). rewrite take_drop. split; [done|].
  unfold len in *. rewrite length_take. lia.
Qed.

Lemma der_to_p1363_returns der f : bytes_ok der → 0 ≤ f →
  returns (ecdsa_der_to_p1363 der f) (λ out, 0 < f ∧ p1363_of f der out).
Proof.
  intros Hder Hf. unfold ecdsa_der_to_p1363. apply returns_guard.
  intros [Hf0%Z.eqb_neq Hne%bool_decide_eq_false]%orb_false_iff. destruct der as [|b0 der]; [done|].
  change (index (b0 :: der) 0) with (@index unit ([] ++ b0 :: der) (len [])). rewrite index_app. cbn [result_bind].
  apply returns_guard. intros ->%negb_false_iff%Z.eqb_eq. apply Forall_cons_1 in Hder as [Hb0 Hder].
  pose proof (parse_der_len_returns [0x30] der Hder) as Hy. cbn [app] in Hy.
  change (len [48]) with 1 in Hy. eapply returns_bind; [exact Hy|]. clear Hy.
  intros [n i] (L & body & -> & HL & ->). apply Forall_app in Hder as [_ Hbody].
  apply returns_guard. intros Hlen%negb_false_iff%Z.eqb_eq.
  change (0x30 :: L ++ body) with ((0x30 :: L) ++ body) in *.
  replace (1 + len L) with (len (0x30 :: L)) in * by by rewrite len_cons.
  rewrite len_app in Hlen. assert (n = len body) as -> by lia.
  remember (0x30 :: L) as pre eqn:Hpre. apply tag_returns. intros body1 ->. apply Forall_cons_1 in Hbody as [_ Hbody].
  replace (len pre + 1) with (len (pre ++ [2])) by by rewrite len_app.
  replace (pre ++ 2 :: body1) with ((pre ++ [2]) ++ body1) by by rewrite <- app_assoc.
  eapply returns_bind; [by apply parse_der_len_returns|]. intros [rn i] (Lr & rest & -> & HLr & ->).
  apply Forall_app in Hbody as [HbL Hbody]. remember ((pre ++ [2]) ++ Lr) as pre2 eqn:Hpre2.
  rewrite app_assoc, <- Hpre2. replace (len (pre ++ [2]) + len Lr) with (len pre2) by (subst pre2; by rewrite len_app).
  apply returns_guard. rewrite Z.ltb_ge, len_app. intros Hrn.
  pose proof (der_length_nonneg _ _ HbL HLr). destruct (cut_at rest rn) as (r & rest2 & -> & <-); [lia|].
  rewrite subslice_app. cbn [result_bind]. apply Forall_app in Hbody as [Hr Hbody].
  remember (pre2 ++ r) as pre3 eqn:Hpre3. rewrite app_assoc, <- Hpre3.
  replace (len pre2 + len r) with (len pre3) by (subst pre3; by rewrite len_app).
  replace (len pre2 + len (r ++ rest2)) with (len (pre3 ++ rest2)) by (subst pre3; rewrite !len_app; lia).
  apply tag_returns. intros body2 ->. apply Forall_cons_1 in Hbody as [_ Hbody].
  replace (len pre3 + 1) with (len (pre3 ++ [2])) by by rewrite len_app.
  replace (pre3 ++ 2 :: body2) with ((pre3 ++ [2]) ++ body2) by by rewrite <- app_assoc.
  eapply returns_bind; [by apply parse_der_len_returns|]. intros [sn i] (Ls & s & -> & HLs & ->).
  apply Forall_app in Hbody as [_ Hs]. apply returns_guard. intros Hsn%negb_false_iff%Z.eqb_eq.
  remember ((pre3 ++ [2]) ++ Ls) as pre4 eqn:Hpre4. rewrite (app_assoc (pre3 ++ [2])), <- Hpre4 in *.
  replace (len (pre3 ++ [2]) + len Ls) with (len pre4) in * by (subst pre4; by rewrite (len_app (pre3 ++ [2]))).
  assert (sn = len s) as -> by (subst pre4 pre3 pre2 pre; rewrite ?len_app, ?len_cons, ?len_app in Hsn; lia).
  rewrite <- (app_nil_r s) at 1. rewrite subslice_app. cbn [result_bind].
  eapply (integers_returns f r s); [done..|lia|reflexivity|]. intros Hfr Hfs. split; [lia|].
  exists r, s. split; [|done]. exists L, Lr, Ls.
  assert ((0x02 :: Lr ++ r) ++ 0x02 :: Ls ++ s = 2 :: Lr ++ r ++ 2 :: Ls ++ s) as Ha by (cbn [app]; by rewrite <- app_assoc).
  rewrite Ha. split; [|done]. subst. by rewrite <- !app_assoc.
Qed.

Lemma parse_der_len_app pre l rest n : bytes_ok (l ++ rest) → der_length l n →
  parse_der_len (pre ++ l ++ rest) (len pre) = Ok (n, len pre + len l).
Proof. intros Hb Hl. apply parse_der_len_Ok; [done|]. exists l, rest. by split_and!. Qed.

Lemma index_zero {E} x (l : bytes) : @index E (x :: l) 0 = Ok x.
Proof. apply (index_app [] x l). Qed.

(** The tag test passes on the tag. *)
Lemma tag_Ok {E A} pre suf t (e : E) (m : result E A) :
  (if len (pre ++ t :: suf) <=? len pre then Err e
   else let? tag := index (pre ++ t :: suf) (len pre) in if negb (tag =? t) then Err e else m) = m.
Proof.
  rewrite len_app, len_cons. pose proof (len_nonneg suf). destruct (Z.leb_spec (len pre + (1 + len suf)) (len pre)); [lia|].
  rewrite index_app. cbn [result_bind]. by rewrite Z.eqb_refl.
Qed.

Lemma der_to_p1363_Ok der f r s : bytes_ok der → 0 < f → der_signature der r s →
  0 < be_fold r < 256 ^ f → 0 < be_fold s < 256 ^ f →
  ecdsa_der_to_p1363 der f = Ok (to_be (Z.to_nat f) (be_fold r) ++ to_be (Z.to_nat f) (be_fold s)).
Proof.
  intros Hder Hf (L & Lr & Ls & -> & HL & HLr & HLs) Hr Hs. unfold ecdsa_der_to_p1363.
  destruct (Z.eqb_spec f 0); [lia|]. cbn [orb bool_decide decide_rel list_eq_nil_dec]. rewrite index_zero.
  cbn [result_bind Z.eqb Pos.eqb negb]. apply Forall_cons_1 in Hder as [_ Hder].
  set (body := (0x02 :: Lr ++ r) ++ 0x02 :: Ls ++ s) in *.
  pose proof (parse_der_len_app [0x30] L body _ Hder HL) as Hp. cbn [app] in Hp. change (len [48]) with 1 in Hp.
  rewrite Hp. clear Hp. cbn [result_bind]. apply Forall_app in Hder as [_ Hbody].
  remember (0x30 :: L) as pre eqn:Hpre. change (0x30 :: L ++ body) with ((0x30 :: L) ++ body). rewrite <- Hpre.
  replace (1 + len L) with (len pre) by (subst pre; by rewrite len_cons). rewrite <- len_app, Z.eqb_refl. cbn [negb].
  subst body. cbn [app] in *. apply Forall_cons_1 in Hbody as [_ Hbody].
  rewrite tag_Ok. rewrite <- app_assoc in *.
  replace (len pre + 1) with (len (pre ++ [2])) by by rewrite len_app.
  replace (pre ++ 2 :: Lr ++ r ++ 2 :: Ls ++ s) with ((pre ++ [2]) ++ Lr ++ r ++ 2 :: Ls ++ s) by by rewrite <- app_assoc.
  rewrite parse_der_len_app with (n := len r) by done. cbn [result_bind]. apply Forall_app in Hbody as [_ Hbody].
  remember ((pre ++ [2]) ++ Lr) as pre2 eqn:Hpre2. rewrite app_assoc, <- Hpre2.
  replace (len (pre ++ [2]) + len Lr) with (len pre2) by (subst pre2; by rewrite len_app).
  apply Forall_app in Hbody as [Hrb Hbody]. apply Forall_cons_1 in Hbody as [_ Hbody].
  destruct (Z.ltb_spec (len (pre2 ++ r ++ 2 :: Ls ++ s)) (len pre2 + len r)).
  { rewrite !len_app in *. pose proof (len_nonneg (2 :: Ls ++ s)). lia. }
  rewrite subslice_app. cbn [result_bind].
  remember (pre2 ++ r) as pre3 eqn:Hpre3. rewrite app_assoc, <- Hpre3.
  replace (len pre2 + len r) with (len pre3) by (subst pre3; by rewrite len_app).
  rewrite tag_Ok. replace (len pre3 + 1) with (len (pre3 ++ [2])) by by rewrite len_app.
  replace (pre3 ++ 2 :: Ls ++ s) with ((pre3 ++ [2]) ++ Ls ++ s) by by rewrite <- app_assoc.
  rewrite parse_der_len_app with (n := len s) by done. cbn [result_bind]. apply Forall_app in Hbody as [_ Hsb].
  remember ((pre3 ++ [2]) ++ Ls) as pre4 eqn:Hpre4. rewrite app_assoc, <- Hpre4.
  replace (len (pre3 ++ [2]) + len Ls) with (len pre4) by (subst pre4; by rewrite len_app).
  rewrite <- len_app, Z.eqb_refl. cbn [negb]. rewrite len_app.
  pose proof (@subslice_app unit pre4 s []) as Hsub. rewrite app_nil_r in Hsub. rewrite Hsub. cbn [result_bind].
  rewrite (proj2 (integer_unfit_false f r Hrb Hf) Hr), (proj2 (integer_unfit_false f s Hsb Hf) Hs). by rewrite !pad_field.
Qed.

(** ** Properties *)

(** What a caller hands to CKM_RSA_PKCS is taken exactly when it is a SHA-256
    DigestInfo, with NULL parameters or without, around 32 octets that are not a
    sentinel (all zeros, all ones, one in either byte order), and the digest
    taken is those octets; an input of CKM_ECDSA is refused exactly when it is
    empty or a sentinel, and the 48 octets given to the card hold the number
    that its leftmost 48 octets hold. Neither reader panics. *)
Theorem digest_info_exact :
  (∀ input (d : vec Z SHA256_DIGEST_BYTES), bytes_ok input →
     parse_sha256_digest_info input = Ok d ↔
     (input = digest_info_null ++ vec_to_list d ∨ input = digest_info_bare ++ vec_to_list d) ∧ ¬ degenerate (vec_to_list d)) ∧
  (∀ input, (∃ d, CkEcdsaDigest_fit_p384 input = Ok d) ↔ input ≠ [] ∧ ¬ degenerate input) ∧
  (∀ input d, CkEcdsaDigest_fit_p384 input = Ok d →
     be_fold (vec_to_list (CkEcdsaDigest_0 d)) = be_fold (take 48 input)) ∧
  (∀ input, parse_sha256_digest_info input ≠ Panic ∧ CkEcdsaDigest_fit_p384 input ≠ Panic).
Proof.
  split_and!.
  - intros input d Hin. split; [by apply digest_info_inv|]. intros [[-> | ->] Hdeg].
    + by apply (digest_info_read [0x05; 0x00]); [right|].
    + by apply (digest_info_read []); [left|].
  - intros input. split; [intros [d Hd]; by eapply fit_p384_inv|].
    intros [Hne Hdeg]. destruct (fit_p384_Ok input Hne Hdeg) as (d & Hd & _). eauto.
  - intros input d Hd. destruct (fit_p384_inv _ _ Hd) as [Hne Hdeg].
    destruct (fit_p384_Ok input Hne Hdeg) as (d' & Hd' & Hv). rewrite Hd in Hd'. by injection Hd' as ->.
  - intros input.
    assert (∀ d, reject_degenerate_digest d ≠ Panic) as Hr by (intros d; unfold reject_degenerate_digest; by destruct (_ || _)).
    split.
    + unfold parse_sha256_digest_info, ok_or, result_bind. repeat case_match; congruence.
    + destruct (decide (input = [])) as [-> |Hne]; [done|]. unfold CkEcdsaDigest_fit_p384. rewrite bool_decide_eq_false_2 by done.
      destruct (reject_degenerate_digest input) as [[]| |] eqn:Hd; cbn [result_bind]; [|done|by apply Hr in Hd].
      apply reject_degenerate_spec in Hd. destruct (fit_p384_Ok input Hne Hd) as (d & Hfit & _).
      unfold CkEcdsaDigest_fit_p384 in Hfit. rewrite bool_decide_eq_false_2 in Hfit by done.
      apply reject_degenerate_spec in Hd. rewrite Hd in Hfit. cbn [result_bind] in Hfit. by rewrite Hfit.
Qed.

(** The DER signature of a remote card becomes the fixed-width pair of
    PKCS#11 exactly when it is one [SEQUENCE] that fills the input and holds two
    [INTEGER]s, each above zero and within the field; the pair holds those two
    numbers, padded to the field's width. Whatever the octets, nothing is read
    outside the buffer. *)
Theorem p1363_exact der f : bytes_ok der → 0 ≤ f →
  ecdsa_der_to_p1363 der f ≠ Panic ∧
  ∀ out, ecdsa_der_to_p1363 der f = Ok out ↔ 0 < f ∧ p1363_of f der out.
Proof.
  intros Hder Hf. pose proof (der_to_p1363_returns der f Hder Hf) as Hy. unfold returns in Hy. split.
  - intros Hp. by rewrite Hp in Hy.
  - intros out. split; [intros Ho; by rewrite Ho in Hy|].
    intros (Hf0 & r & s & Hsig & Hr & Hs & ->). by apply der_to_p1363_Ok.
Qed.

(** ** The properties at concrete inputs *)

Definition digest_example : vec Z SHA256_DIGEST_BYTES := vreplicate 32 0x5A.

Lemma digest_info_exact_witness :
  parse_sha256_digest_info (digest_info_null ++ vec_to_list digest_example) = Ok digest_example.
Proof.
  apply (proj1 digest_info_exact); [by_decide|]. split; [by left|].
  apply reject_degenerate_spec. by vm_compute.
Defined.

(** P-384 sized integers of one and two octets, the second with a leading zero. *)
Lemma p1363_exact_witness :
  ecdsa_der_to_p1363 [0x30; 0x07; 0x02; 0x01; 0x05; 0x02; 0x02; 0x00; 0x80] 2 = Ok [0; 5; 0; 0x80].
Proof.
  apply (p1363_exact [0x30; 0x07; 0x02; 0x01; 0x05; 0x02; 0x02; 0x00; 0x80] 2); [by_decide|lia|].
  split; [lia|]. exists [5], [0; 0x80]. split_and!; [|by vm_compute..].
  exists [0x07], [0x01], [0x02]. split_and!; [done|by left..].
Defined.

(** A pair whose first integer is zero is refused. *)
Example zero_integer_refused : ecdsa_der_to_p1363 [0x30; 0x06; 0x02; 0x01; 0x00; 0x02; 0x01; 0x07] 2 = Err tt.
Proof. reflexivity. Qed.
