(* ===== verification/Pkcs11Token.v ===== *)
(** The objects a token shows to PKCS#11: crates/refineid-pkcs11/src/token.rs, from the
    certificate to the attribute tables, the matching of templates and the check of a
    signature. What x509.rs and the verifiers of crypto/rsa.rs and crypto/ecdsa.rs say
    about a certificate is the class [X509View]; SHA-1 belongs to the sha1 crate. *)

From S2P Require Import Prelude CryptoCrates KeyAlgorithm Ber StatusWord Transport SignCommands SignOps Rapp Cryptoki Pkcs11Sign.

(** The accessors of a parsed certificate ([OwnedCert::view]) and the two key types. *)
Class X509View := {
  RsaPublicKey : Type;
  Sec1Point : Type;
  subject_common_name : OwnedCert → option bytes;
  subject_as_der : OwnedCert → bytes;
  issuer_as_der : OwnedCert → bytes;
  serial_der : OwnedCert → bytes;
  spki_as_der : OwnedCert → bytes;
  spki_algorithm : OwnedCert → PublicKeyAlgorithm;
  (** [not_before] and [not_after] since the epoch. *)
  not_before_unix : OwnedCert → Z;
  not_after_unix : OwnedCert → Z;
  (** Extensions are there, and their BasicConstraints say CA. *)
  basic_constraints_ca : OwnedCert → bool;
  ec_public_key_point : OwnedCert → option Sec1Point;
  extract_rsa_public_key : bytes → option RsaPublicKey;
  rsa_modulus_as_bytes : RsaPublicKey → bytes;
  rsa_exponent_as_bytes : RsaPublicKey → bytes;
  point_as_bytes : Sec1Point → bytes;
  verify_pkcs1v15_sha256_digest : RsaPublicKey → bytes → bytes → bool;
  (** [verify_p384_sha…_raw] on the octets of the signature and of the digest. *)
  verify_p384_raw : Sec1Point → bytes → bytes → bool;
}.


Definition OBJ_CERTIFICATE : Z := 1.
Definition OBJ_PRIVATE_KEY : Z := 2.
Definition OBJ_PUBLIC_KEY : Z := 3.
Definition OBJ_CA_BASE : Z := 4.
Definition DEFAULT_LABEL : bytes := bytes_of_string "FINEID".
Definition DER_TAG_INTEGER : Z := 0x02.
Definition DER_TAG_OCTET_STRING : Z := 0x04.
Definition DER_SHORT_FORM_LIMIT : Z := 0x80.
Definition DER_LONG_FORM_ONE_OCTET : Z := 0x81.
Definition DER_LONG_FORM_TWO_OCTETS : Z := 0x82.
Definition DIGEST_INFO_SHA256_PREFIX : bytes :=
  [0x30; 0x31; 0x30; 0x0D; 0x06; 0x09; 0x60; 0x86; 0x48; 0x01; 0x65; 0x03; 0x04; 0x02; 0x01; 0x05; 0x00; 0x04; 0x20].
Definition EC_PARAMS_SECP384R1 : bytes := [0x06; 0x05; 0x2B; 0x81; 0x04; 0x00; 0x22].

(** ** Handles *)

Inductive ObjectKind := Obj_Certificate | Obj_PublicKey | Obj_PrivateKey | Obj_Ca (idx : Z).
#[export] Instance ObjectKind_eq_dec : EqDecision ObjectKind.
Proof. solve_decision. Defined.

(** [CkObjectHandle] is a [c_ulong], 32 bits wide on Windows. *)
Definition ObjectKind_from_handle (handle : Z) : option ObjectKind :=
  if handle =? OBJ_CERTIFICATE then Some Obj_Certificate
  else if handle =? OBJ_PRIVATE_KEY then Some Obj_PrivateKey
  else if handle =? OBJ_PUBLIC_KEY then Some Obj_PublicKey
  else if OBJ_CA_BASE <=? handle then Some (Obj_Ca (handle - OBJ_CA_BASE))
  else None.

Definition ObjectKind_handle (k : ObjectKind) : Z :=
  match k with
  | Obj_Certificate => OBJ_CERTIFICATE
  | Obj_PrivateKey => OBJ_PRIVATE_KEY
  | Obj_PublicKey => OBJ_PUBLIC_KEY
  | Obj_Ca idx => Z.min (OBJ_CA_BASE + (if idx <=? u32_max then idx else u32_max)) u32_max
  end.

(** ** Attribute values *)

Inductive AttrValue := Av_Borrowed (slice : bytes) | Av_Inline (buf : bytes) (len : Z) | Av_Sensitive.

(** [&buf[..*len]]: the buffer has eight octets, the length is one or four. *)
Definition AttrValue_as_bytes (v : AttrValue) : option bytes :=
  match v with
  | Av_Borrowed slice => Some slice
  | Av_Inline buf len => Some (take (Z.to_nat len) buf)
  | Av_Sensitive => None
  end.

(** [to_ne_bytes] of a 32-bit word on a little-endian machine. *)
Definition ulong_attr (value : Z) : AttrValue :=
  let bs := to_le 4 value in
  Av_Inline (bs ++ replicate (8 - length bs) 0) (len bs).
Definition bool_attr (value : Z) : AttrValue := Av_Inline (value :: replicate 7 0) 1.

(** ** DER *)

Definition BITS_PER_BYTE : Z := 8.
Definition BYTE_MASK : Z := 0xFF.

Definition push_der_len (out : bytes) (len : Z) : bytes :=
  if len <? DER_SHORT_FORM_LIMIT then out ++ [len]
  else if len <=? u8_max then out ++ [DER_LONG_FORM_ONE_OCTET; len]
  else
    let high := Z.land (Z.shiftr len BITS_PER_BYTE) BYTE_MASK in
    let low := Z.land len BYTE_MASK in
    out ++ [DER_LONG_FORM_TWO_OCTETS; high; low].

Definition der_integer (value : bytes) : bytes := push_der_len [DER_TAG_INTEGER] (len value) ++ value.
Definition der_octet_string (value : bytes) : bytes := push_der_len [DER_TAG_OCTET_STRING] (len value) ++ value.
Definition non_empty (bs : bytes) : option bytes := if bool_decide (bs = []) then None else Some bs.

(** ** Objects *)

Section token.
Context `{CertificateDecoder} `{X509View} `{Sha1Hash}.

Record CaObject := mkCaObject { ca_cert : OwnedCert; ca_id : bytes; ca_label : bytes; ca_serial_der : bytes }.

Definition CaObject_new (cert : OwnedCert) : CaObject :=
  mkCaObject cert (sha1_of (spki_as_der cert))
    (match subject_common_name cert with Some cn => cn | None => bytes_of_string "CA Certificate" end)
    (der_integer (serial_der cert)).

Inductive TokenKeyMaterial :=
| Tkm_Rsa (modulus : bytes) (modulus_bits : Z) (public_exponent : bytes)
| Tkm_Ec (params point : bytes).

(** The bit count is converted to a 32-bit [CkUlong]. *)
Definition TokenKeyMaterial_extract (cert : OwnedCert) : result Z TokenKeyMaterial :=
  match spki_algorithm cert with
  | Pka_Rsa modulus_bits =>
      let? public := ok_or (extract_rsa_public_key (spki_as_der cert)) CKR_DEVICE_ERROR in
      let? bits := (if modulus_bits <=? u32_max then Ok modulus_bits else Err CKR_DEVICE_ERROR) in
      Ok (Tkm_Rsa (rsa_modulus_as_bytes public) bits (rsa_exponent_as_bytes public))
  | Pka_Ec Secp384r1 =>
      let? point := ok_or (ec_public_key_point cert) CKR_DEVICE_ERROR in
      Ok (Tkm_Ec EC_PARAMS_SECP384R1 (der_octet_string (point_as_bytes point)))
  | Pka_Ec _ | Pka_EcExplicit _ | Pka_Other => Err CKR_DEVICE_ERROR
  end.

Definition TokenKeyMaterial_key_type (m : TokenKeyMaterial) : Z :=
  match m with Tkm_Rsa _ _ _ => CKK_RSA | Tkm_Ec _ _ => CKK_EC end.
Definition TokenKeyMaterial_mechanism (m : TokenKeyMaterial) : Mechanism :=
  match m with Tkm_Rsa _ _ _ => Mech_RsaPkcs | Tkm_Ec _ _ => Mech_Ecdsa end.

Record TokenObjects := mkTokenObjects
  { auth_cert : OwnedCert; auth_cert_id : bytes; auth_cert_label : bytes; auth_cert_serial_der : bytes;
    token_serial : bytes; key_material : TokenKeyMaterial; ca_objects : list CaObject }.

Definition TokenObjects_from_cert_der (cert_der : bytes) : result Z TokenObjects :=
  let? auth_cert := ok_or (OwnedCert_from_der cert_der) CKR_DEVICE_ERROR in
  let? key_material := TokenKeyMaterial_extract auth_cert in
  Ok (mkTokenObjects auth_cert (sha1_of (spki_as_der auth_cert))
        (match subject_common_name auth_cert with Some cn => cn | None => DEFAULT_LABEL end)
        (der_integer (serial_der auth_cert)) [] key_material []).

Definition TokenObjects_mechanism (t : TokenObjects) : Mechanism := TokenKeyMaterial_mechanism (key_material t).
Definition TokenObjects_set_token_serial (serial : bytes) (t : TokenObjects) : TokenObjects :=
  mkTokenObjects (auth_cert t) (auth_cert_id t) (auth_cert_label t) (auth_cert_serial_der t) serial
    (key_material t) (ca_objects t).

Definition push_ca_cert (cert : OwnedCert) (t : TokenObjects) : TokenObjects :=
  if existsb (λ obj, bool_decide (OwnedCert_as_der (ca_cert obj) = OwnedCert_as_der cert)) (ca_objects t) then t
  else mkTokenObjects (auth_cert t) (auth_cert_id t) (auth_cert_label t) (auth_cert_serial_der t) (token_serial t)
         (key_material t) (ca_objects t ++ [CaObject_new cert]).

Definition ca_object_for_kind (t : TokenObjects) (kind : ObjectKind) : option CaObject :=
  match kind with Obj_Ca idx => ca_objects t !! Z.to_nat idx | _ => None end.
Definition object_exists (t : TokenObjects) (kind : ObjectKind) : bool :=
  match kind with Obj_Ca idx => idx <? Z.of_nat (length (ca_objects t)) | _ => true end.
Definition all_object_kinds (t : TokenObjects) : list ObjectKind :=
  [Obj_Certificate; Obj_PublicKey; Obj_PrivateKey]
    ++ map (λ i, Obj_Ca (Z.of_nat i)) (seq 0 (length (ca_objects t))).

(** ** Attribute tables *)

Definition is_any (attr : Z) (l : list Z) : bool := existsb (Z.eqb attr) l.

Definition ca_object_attribute (ca : CaObject) (attr : Z) : option AttrValue :=
  if attr =? CKA_CLASS then Some (ulong_attr CKO_CERTIFICATE)
  else if attr =? CKA_CERTIFICATE_TYPE then Some (ulong_attr CKC_X_509)
  else if attr =? CKA_CERTIFICATE_CATEGORY then Some (ulong_attr CK_CERTIFICATE_CATEGORY_AUTHORITY)
  else if is_any attr [CKA_TOKEN; CKA_TRUSTED] then Some (bool_attr CK_TRUE)
  else if attr =? CKA_PRIVATE then Some (bool_attr CK_FALSE)
  else if attr =? CKA_LABEL then Some (Av_Borrowed (ca_label ca))
  else if attr =? CKA_ID then Some (Av_Borrowed (ca_id ca))
  else if attr =? CKA_VALUE then Some (Av_Borrowed (OwnedCert_as_der (ca_cert ca)))
  else if attr =? CKA_ISSUER then Av_Borrowed <$> non_empty (issuer_as_der (ca_cert ca))
  else if attr =? CKA_SUBJECT then Av_Borrowed <$> non_empty (subject_as_der (ca_cert ca))
  else if attr =? CKA_SERIAL_NUMBER then Av_Borrowed <$> non_empty (ca_serial_der ca)
  else None.

Definition certificate_attribute (t : TokenObjects) (attr : Z) : option AttrValue :=
  if attr =? CKA_CLASS then Some (ulong_attr CKO_CERTIFICATE)
  else if attr =? CKA_CERTIFICATE_TYPE then Some (ulong_attr CKC_X_509)
  else if attr =? CKA_CERTIFICATE_CATEGORY then Some (ulong_attr CK_CERTIFICATE_CATEGORY_TOKEN_USER)
  else if attr =? CKA_KEY_TYPE then Some (ulong_attr (TokenKeyMaterial_key_type (key_material t)))
  else if attr =? CKA_TOKEN then Some (bool_attr CK_TRUE)
  else if is_any attr [CKA_PRIVATE; CKA_TRUSTED; CKA_LOCAL] then Some (bool_attr CK_FALSE)
  else if attr =? CKA_LABEL then Some (Av_Borrowed (auth_cert_label t))
  else if attr =? CKA_ID then Some (Av_Borrowed (auth_cert_id t))
  else if attr =? CKA_VALUE then Some (Av_Borrowed (OwnedCert_as_der (auth_cert t)))
  else if attr =? CKA_ISSUER then Av_Borrowed <$> non_empty (issuer_as_der (auth_cert t))
  else if attr =? CKA_SUBJECT then Av_Borrowed <$> non_empty (subject_as_der (auth_cert t))
  else if attr =? CKA_SERIAL_NUMBER then Av_Borrowed <$> non_empty (auth_cert_serial_der t)
  else None.

(** The arms for the public numbers, the same in both key tables. *)
Definition key_material_attribute (m : TokenKeyMaterial) (attr : Z) : option AttrValue :=
  if attr =? CKA_MODULUS then
    match m with Tkm_Rsa modulus _ _ => Some (Av_Borrowed modulus) | Tkm_Ec _ _ => None end
  else if attr =? CKA_MODULUS_BITS then
    match m with Tkm_Rsa _ modulus_bits _ => Some (ulong_attr modulus_bits) | Tkm_Ec _ _ => None end
  else if attr =? CKA_PUBLIC_EXPONENT then
    match m with Tkm_Rsa _ _ public_exponent => Some (Av_Borrowed public_exponent) | Tkm_Ec _ _ => None end
  else if attr =? CKA_EC_PARAMS then
    match m with Tkm_Ec params _ => Some (Av_Borrowed params) | Tkm_Rsa _ _ _ => None end
  else if attr =? CKA_EC_POINT then
    match m with Tkm_Ec _ point => Some (Av_Borrowed point) | Tkm_Rsa _ _ _ => None end
  else None.

Definition public_key_attribute (t : TokenObjects) (attr : Z) : option AttrValue :=
  if attr =? CKA_CLASS then Some (ulong_attr CKO_PUBLIC_KEY)
  else if attr =? CKA_KEY_TYPE then Some (ulong_attr (TokenKeyMaterial_key_type (key_material t)))
  else if is_any attr [CKA_TOKEN; CKA_VERIFY] then Some (bool_attr CK_TRUE)
  else if is_any attr [CKA_PRIVATE; CKA_ENCRYPT; CKA_WRAP; CKA_DERIVE] then Some (bool_attr CK_FALSE)
  else if attr =? CKA_LABEL then Some (Av_Borrowed (auth_cert_label t))
  else if attr =? CKA_ID then Some (Av_Borrowed (auth_cert_id t))
  else if attr =? CKA_SUBJECT then Av_Borrowed <$> non_empty (subject_as_der (auth_cert t))
  else key_material_attribute (key_material t) attr.

Definition private_key_attribute (t : TokenObjects) (attr : Z) : option AttrValue :=
  if attr =? CKA_CLASS then Some (ulong_attr CKO_PRIVATE_KEY)
  else if attr =? CKA_KEY_TYPE then Some (ulong_attr (TokenKeyMaterial_key_type (key_material t)))
  else if is_any attr [CKA_TOKEN; CKA_PRIVATE; CKA_SIGN; CKA_SENSITIVE; CKA_NEVER_EXTRACTABLE; CKA_ALWAYS_SENSITIVE]
  then Some (bool_attr CK_TRUE)
  else if is_any attr [CKA_ALWAYS_AUTHENTICATE; CKA_EXTRACTABLE; CKA_SIGN_RECOVER; CKA_UNWRAP; CKA_DERIVE]
  then Some (bool_attr CK_FALSE)
  else if attr =? CKA_LABEL then Some (Av_Borrowed (auth_cert_label t))
  else if attr =? CKA_ID then Some (Av_Borrowed (auth_cert_id t))
  else if attr =? CKA_SUBJECT then Av_Borrowed <$> non_empty (subject_as_der (auth_cert t))
  else if attr =? CKA_VALUE then Some Av_Sensitive
  else key_material_attribute (key_material t) attr.

Definition attribute (t : TokenObjects) (kind : ObjectKind) (attr : Z) : option AttrValue :=
  match kind with
  | Obj_Certificate => certificate_attribute t attr
  | Obj_PublicKey => public_key_attribute t attr
  | Obj_PrivateKey => private_key_attribute t attr
  | Obj_Ca _ => ca ← ca_object_for_kind t kind; ca_object_attribute ca attr
  end.

Definition TokenObjects_matches (t : TokenObjects) (kind : ObjectKind) (template : list (Z * bytes)) : bool :=
  object_exists t kind
  && forallb (λ '(attr, wanted),
       match attribute t kind attr with
       | Some val => bool_decide (AttrValue_as_bytes val = Some wanted)
       | None => false
       end) template.

(** ** Checking a signature *)

Definition verify_rsa_pkcs (t : TokenObjects) (data signature : bytes) : Z :=
  match strip_prefix DIGEST_INFO_SHA256_PREFIX data with
  | None => CKR_DATA_INVALID
  | Some hash =>
      match try_into_array 32 hash with
      | None => CKR_DATA_INVALID
      | Some digest =>
          match extract_rsa_public_key (spki_as_der (auth_cert t)) with
          | None => CKR_DEVICE_ERROR
          | Some key =>
              if verify_pkcs1v15_sha256_digest key (vec_to_list digest) signature then CKR_OK
              else CKR_SIGNATURE_INVALID
          end
      end
  end.

Definition verify_ecdsa (t : TokenObjects) (data signature : bytes) : Z :=
  match ec_public_key_point (auth_cert t) with
  | None => CKR_DEVICE_ERROR
  | Some point =>
      if is_any (len data) [20; 28; 32; 48; 64] then
        if verify_p384_raw point signature data then CKR_OK else CKR_SIGNATURE_INVALID
      else CKR_DATA_LEN_RANGE
  end.

Definition verify_signature (t : TokenObjects) (mechanism : Mechanism) (data signature : bytes) : Z :=
  if negb (len signature =? Mechanism_signature_len mechanism) then CKR_SIGNATURE_LEN_RANGE
  else match mechanism with
       | Mech_RsaPkcs => verify_rsa_pkcs t data signature
       | Mech_Ecdsa => verify_ecdsa t data signature
       end.
End token.

(** [matching_handles] of api.rs. *)
Definition matching_handles `{X509View} (token : TokenObjects) (template : list (Z * bytes)) : list Z :=
  map ObjectKind_handle (List.filter (λ kind, TokenObjects_matches token kind template) (all_object_kinds token)).

(** ** Lemmas *)

(** The bound on the trusted CAs that keeps their handles apart; the module loads at
    most sixteen and adds two. *)
Definition few_cas `{X509View} (t : TokenObjects) : Prop := Z.of_nat (length (ca_objects t)) ≤ u32_max - OBJ_CA_BASE.

Section token_lemmas.
Context `{CertificateDecoder} `{X509View} `{Sha1Hash}.

#[export] Instance Obj_Ca_inj : Inj (=) (=) Obj_Ca.
Proof. by intros ?? [= ->]. Qed.

Definition kind_ok (t : TokenObjects) (k : ObjectKind) : Prop :=
  match k with Obj_Ca idx => 0 ≤ idx < Z.of_nat (length (ca_objects t)) | _ => True end.

Lemma handle_ca t idx : few_cas t → kind_ok t (Obj_Ca idx) → ObjectKind_handle (Obj_Ca idx) = OBJ_CA_BASE + idx.
Proof.
  unfold few_cas, kind_ok. cbn [ObjectKind_handle]. unfold OBJ_CA_BASE, u32_max in *. intros Hf Hk.
  destruct (Z.leb_spec idx 4294967295); lia.
Qed.

Lemma from_handle_handle t k : few_cas t → kind_ok t k → ObjectKind_from_handle (ObjectKind_handle k) = Some k.
Proof.
  intros Hf Hk. destruct k as [| | |idx]; [reflexivity..|]. rewrite (handle_ca t) by done. cbn in Hk.
  unfold ObjectKind_from_handle, OBJ_CERTIFICATE, OBJ_PRIVATE_KEY, OBJ_PUBLIC_KEY, OBJ_CA_BASE in *.
  repeat match goal with |- context [?x =? ?y] => destruct (Z.eqb_spec x y); [lia|] end.
  destruct (Z.leb_spec 4 (4 + idx)); [|lia]. do 2 f_equal. lia.
Qed.

Lemma handle_from_handle t h k : few_cas t → ObjectKind_from_handle h = Some k → object_exists t k = true →
  kind_ok t k ∧ ObjectKind_handle k = h.
Proof.
  intros Hf. unfold ObjectKind_from_handle.
  destruct (Z.eqb_spec h OBJ_CERTIFICATE) as [-> |]; [by intros [= <-] _|].
  destruct (Z.eqb_spec h OBJ_PRIVATE_KEY) as [-> |]; [by intros [= <-] _|].
  destruct (Z.eqb_spec h OBJ_PUBLIC_KEY) as [-> |]; [by intros [= <-] _|].
  destruct (Z.leb_spec OBJ_CA_BASE h); [|done]. intros [= <-] Hex%Z.ltb_lt.
  assert (kind_ok t (Obj_Ca (h - OBJ_CA_BASE))) as Hk by (cbn; unfold OBJ_CA_BASE in *; lia).
  split; [done|]. rewrite (handle_ca t) by done. lia.
Qed.

Lemma elem_of_all_kinds t k : k ∈ all_object_kinds t ↔ kind_ok t k.
Proof.
  unfold all_object_kinds. rewrite elem_of_app, (list_elem_of_In (map _ _)), in_map_iff. split.
  - rewrite !elem_of_cons. intros [[-> |[-> |[-> |H']]]|(i & <- & Hi)]; [done..|by apply elem_of_nil in H'|].
    apply in_seq in Hi. cbn. lia.
  - destruct k as [| | |idx]; [left; set_solver..|]. cbn. intros Hk. right. exists (Z.to_nat idx). split; [f_equal; lia|].
    apply in_seq. lia.
Qed.

Lemma NoDup_all_kinds t : NoDup (all_object_kinds t).
Proof.
  unfold all_object_kinds. apply list.NoDup_app. split; [by_decide|]. split.
  - intros k Hk (i & <- & _)%list_elem_of_In%in_map_iff. set_solver.
  - rewrite <- (map_map Z.of_nat Obj_Ca).
    assert (NoDup (map Z.of_nat (seq 0 (length (ca_objects t))))) as Hn.
    { apply (NoDup_fmap_2 Z.of_nat). apply NoDup_seq. }
    by apply (NoDup_fmap_2 Obj_Ca).
Qed.

Lemma object_exists_ok t k : kind_ok t k → object_exists t k = true.
Proof. destruct k; [done..|]. cbn. intros. apply Z.ltb_lt. lia. Qed.

Lemma matches_spec t k template : kind_ok t k →
  TokenObjects_matches t k template = true ↔
  Forall (λ '(attr, wanted), ∃ val, attribute t k attr = Some val ∧ AttrValue_as_bytes val = Some wanted) template.
Proof.
  intros Hk. unfold TokenObjects_matches. rewrite (object_exists_ok _ _ Hk). cbn [andb]. rewrite forallb_forall, list.Forall_forall.
  setoid_rewrite <- list_elem_of_In. apply forall_proper. intros [attr wanted]. apply forall_proper. intros _.
  destruct (attribute t k attr) as [val|]; [rewrite bool_decide_eq_true|]; naive_solver.
Qed.

Lemma elem_of_matching t template h : few_cas t →
  h ∈ matching_handles t template ↔
  ∃ k, ObjectKind_from_handle h = Some k ∧ object_exists t k = true ∧
       Forall (λ '(attr, wanted), ∃ val, attribute t k attr = Some val ∧ AttrValue_as_bytes val = Some wanted) template.
Proof.
  intros Hf. unfold matching_handles. rewrite list_elem_of_In, in_map_iff. setoid_rewrite List.filter_In.
  setoid_rewrite <- list_elem_of_In. setoid_rewrite elem_of_all_kinds. split.
  - intros (k & <- & Hk & Hm). exists k. rewrite (from_handle_handle t) by done. split; [done|].
    split; [by apply object_exists_ok|]. by apply matches_spec.
  - intros (k & Hh & Hex & Hm). destruct (handle_from_handle t h k Hf Hh Hex) as [Hk <-]. exists k. split; [done|].
    split; [done|]. by apply matches_spec.
Qed.

Lemma NoDup_matching t template : few_cas t → NoDup (matching_handles t template).
Proof.
  intros Hf. unfold matching_handles.
  assert (Forall (kind_ok t) (List.filter (λ kind, TokenObjects_matches t kind template) (all_object_kinds t))) as Hok.
  { apply list.Forall_forall. intros k Hk%list_elem_of_In%List.filter_In. destruct Hk as [Hk _].
    by apply elem_of_all_kinds, list_elem_of_In. }
  assert (NoDup (List.filter (λ kind, TokenObjects_matches t kind template) (all_object_kinds t))) as Hnd.
  { apply NoDup_ListNoDup, List.NoDup_filter, NoDup_ListNoDup, NoDup_all_kinds. }
  revert Hok Hnd. induction (List.filter _ _) as [|k l IH]; intros Hok Hnd; cbn [map]; [constructor|].
  apply Forall_cons_1 in Hok as [Hk Hok]. apply list.NoDup_cons in Hnd as [Hni Hnd]. constructor; [|by apply IH].
  intros (k' & He & Hk')%list_elem_of_In%in_map_iff. apply list_elem_of_In in Hk'.
  pose proof (proj1 (list.Forall_forall _ _) Hok k' Hk') as Hok'.
  pose proof (from_handle_handle t k Hf Hk) as E1. pose proof (from_handle_handle t k' Hf Hok') as E2.
  rewrite He in E2. rewrite E1 in E2. injection E2 as ->. done.
Qed.

(** No template finds the value of the private key. *)
Lemma private_value_sensitive t : attribute t Obj_PrivateKey CKA_VALUE = Some Av_Sensitive.
Proof. reflexivity. Qed.
End token_lemmas.

(** The DER the module builds is an encoding its values are read back from. *)
Ltac octets := repeat (apply Forall_cons_2; [first [done | unfold is_byte; lia]|]); by apply Forall_nil_2.

Lemma push_der_len_encodes out n : 0 ≤ n < 65536 →
  ∃ l, push_der_len out n = out ++ l ∧ der_length l n ∧ bytes_ok l.
Proof.
  intros Hn. unfold push_der_len, DER_SHORT_FORM_LIMIT, u8_max, BITS_PER_BYTE, BYTE_MASK.
  destruct (Z.ltb_spec n 128); [exists [n]; split; [done|]; split; [by left|]; octets|].
  destruct (Z.leb_spec n 255).
  - exists [129; n]. split; [done|]. split.
    + right. exists [n]. split; [done|]. split; [by vm_compute|]. apply be_fold_1. unfold is_byte. lia.
    + octets.
  - rewrite !land_255, shiftr_8. exists [130; n / 256 mod 256; n mod 256]. split; [done|].
    assert (is_byte (n / 256 mod 256) ∧ is_byte (n mod 256)) as [Hh Hl] by (split; unfold is_byte; apply Z.mod_pos_bound; lia).
    split; [|octets].
    right. exists [n / 256 mod 256; n mod 256]. split; [done|]. split; [by vm_compute|].
    change [n / 256 mod 256; n mod 256] with ([n / 256 mod 256] ++ [n mod 256]).
    rewrite be_fold_app, be_fold_1 by done. rewrite (Z.mod_small (n / 256)); [pose proof (Z.div_mod n 256); lia|].
    split; [apply Z.div_pos; lia|]. apply Z.div_lt_upper_bound; lia.
Qed.

(** ** Properties *)

(** A search finds exactly the objects that have what it asks for. The handles
    returned are those of objects that exist and show every attribute of the
    template with the octets wanted, none twice; every object is found by the empty
    template; and no template finds the private key by its value. *)
Theorem object_search_exact `{X509View} t template :
  few_cas t →
  (∀ h, h ∈ matching_handles t template ↔
     ∃ k, ObjectKind_from_handle h = Some k ∧ object_exists t k = true ∧
       Forall (λ '(attr, wanted), ∃ val, attribute t k attr = Some val ∧ AttrValue_as_bytes val = Some wanted) template) ∧
  NoDup (matching_handles t template) ∧
  matching_handles t [] = map ObjectKind_handle (all_object_kinds t) ∧
  (∀ v, (CKA_VALUE, v) ∈ template → OBJ_PRIVATE_KEY ∉ matching_handles t template).
Proof.
  intros Hf. split; [intros h; by apply elem_of_matching|]. split; [by apply NoDup_matching|]. split.
  - unfold matching_handles. f_equal.
    assert (Forall (λ k, TokenObjects_matches t k [] = true) (all_object_kinds t)) as Hall.
    { apply list.Forall_forall. intros k Hk%elem_of_all_kinds. by apply matches_spec. }
    induction Hall as [|k l Hk _ IH]; [done|]. cbn [List.filter]. by rewrite Hk, IH.
  - intros v Hv (k & Hk & _ & Hm)%elem_of_matching; [|done]. vm_compute in Hk. injection Hk as <-.
    pose proof (proj1 (list.Forall_forall _ _) Hm _ Hv) as (val & Hval & Hb). cbn beta iota in *.
    rewrite private_value_sensitive in Hval. injection Hval as <-. done.
Qed.

(** What a token made of a certificate shows. The certificate object is the
    certificate read, octet for octet; the three objects carry one identifier and one
    label, by which a caller pairs them; the type of the key decides the mechanism; and
    the serial number is the certificate's in DER. *)
Theorem token_shows_certificate `{CertificateDecoder} `{X509View} `{Sha1Hash} cert_der t :
  TokenObjects_from_cert_der cert_der = Ok t → len (serial_der (mkOwnedCert cert_der)) < 65536 →
  attribute t Obj_Certificate CKA_VALUE = Some (Av_Borrowed cert_der) ∧
  (∀ k a, k ∈ [Obj_Certificate; Obj_PublicKey; Obj_PrivateKey] → a ∈ [CKA_ID; CKA_LABEL; CKA_KEY_TYPE; CKA_SUBJECT] →
     attribute t k a = attribute t Obj_Certificate a) ∧
  attribute t Obj_PrivateKey CKA_KEY_TYPE = Some (ulong_attr (match TokenObjects_mechanism t with
                                                              | Mech_RsaPkcs => CKK_RSA
                                                              | Mech_Ecdsa => CKK_EC end)) ∧
  (∃ l, attribute t Obj_Certificate CKA_SERIAL_NUMBER
        = Some (Av_Borrowed (0x02 :: l ++ serial_der (mkOwnedCert cert_der)))
        ∧ der_length l (len (serial_der (mkOwnedCert cert_der)))) ∧
  all_object_kinds t = [Obj_Certificate; Obj_PublicKey; Obj_PrivateKey].
Proof.
  unfold TokenObjects_from_cert_der, OwnedCert_from_der. destruct (certificate_decodes cert_der); [|done].
  cbn [ok_or result_bind]. intros (m & Hm & [= <-])%bind_Ok Hlen.
  split; [reflexivity|]. split.
  { intros k a Hk Ha. repeat (apply elem_of_cons in Ha as [-> |Ha]; [|]); try by apply elem_of_nil in Ha.
    all: repeat (apply elem_of_cons in Hk as [-> |Hk]; [reflexivity|]); by apply elem_of_nil in Hk. }
  split; [by destruct m|]. split; [|reflexivity].
  destruct (push_der_len_encodes [DER_TAG_INTEGER] (len (serial_der (mkOwnedCert cert_der)))) as (l & Hl & Hd & _);
    [split; [apply len_nonneg|done]|].
  exists l. split; [|done]. change (attribute _ Obj_Certificate CKA_SERIAL_NUMBER)
    with (Av_Borrowed <$> non_empty (der_integer (serial_der (mkOwnedCert cert_der)))).
  unfold der_integer. by rewrite Hl.
Qed.

(** ** The properties at concrete inputs *)

(** A view that shows a P-384 certificate whose serial is its last octet. *)
Module plain.
#[export] Instance plain_view : X509View.
Proof.
  refine {| RsaPublicKey := unit; Sec1Point := bytes;
    subject_common_name := λ _, None; subject_as_der := λ _, [0x30; 0x00]; issuer_as_der := λ _, [0x30; 0x00];
    serial_der := λ c, drop (length (OwnedCert_as_der c) - 1) (OwnedCert_as_der c);
    spki_as_der := λ _, [0x30; 0x01]; spki_algorithm := λ _, Pka_Ec Secp384r1;
    not_before_unix := λ _, 0; not_after_unix := λ _, 100; basic_constraints_ca := λ c, bool_decide (OwnedCert_as_der c ≠ []);
    ec_public_key_point := λ c, Some (0x04 :: replicate 96 0x11); extract_rsa_public_key := λ _, None;
    rsa_modulus_as_bytes := λ _, []; rsa_exponent_as_bytes := λ _, []; point_as_bytes := λ p, p;
    verify_pkcs1v15_sha256_digest := λ _ _ _, false; verify_p384_raw := λ _ _ _, true |}.
Defined.
#[export] Instance any_certificate : CertificateDecoder := λ _, true.
#[export] Instance flat_sha1 : Sha1Hash := λ _, replicate 20 0xAB.
End plain.

Section token_witnesses.
Import plain.

Definition plain_token : TokenObjects :=
  match TokenObjects_from_cert_der [0x30; 0x07] with Ok t => t | _ => mkTokenObjects (mkOwnedCert []) [] [] [] [] (Tkm_Ec [] []) [] end.

Lemma object_search_exact_witness :
  matching_handles plain_token [(CKA_CLASS, to_le 4 CKO_PRIVATE_KEY)] = [2] ∧
  NoDup (matching_handles plain_token [(CKA_CLASS, to_le 4 CKO_PRIVATE_KEY)]).
Proof. split; [by vm_compute|]. apply (object_search_exact plain_token [(CKA_CLASS, to_le 4 CKO_PRIVATE_KEY)]). by apply Z.leb_le. Defined.

Lemma token_shows_certificate_witness :
  attribute plain_token Obj_Certificate CKA_VALUE = Some (Av_Borrowed [0x30; 0x07]) ∧
  attribute plain_token Obj_Certificate CKA_SERIAL_NUMBER = Some (Av_Borrowed [0x02; 0x01; 0x07]).
Proof.
  split; [refine (proj1 (token_shows_certificate [0x30; 0x07] plain_token _ _)); [reflexivity|by vm_compute]|]. by vm_compute.
Defined.
End token_witnesses.
