(* ===== verification/CaCache.v ===== *)
(** The certificates of authorities kept beside the token:
    crates/refineid-pkcs11/src/token.rs, from [persistent_ca_dir] to [persist_ca_cert].
    A directory of the user's profile holds them as files; what is read back is bounded
    in number and size, and a file that fails the policy is deleted. *)

From stdpp Require Import sorting.
From S2P Require Import Prelude CryptoCrates Decimal Utf8 Ber TokenInfo Rapp ProtectedStore Pace Pkcs11Token.

(** What the cache asks of the system besides the calls of [Windows]. *)
Class CaFiles (W : Type) := {
  (** [std::env::var] as a path; the empty text is the empty path. *)
  env_var : bytes → W → option path;
  (** [symlink_metadata]: whether it is a link, and its length. *)
  fs_symlink_metadata : path → act W IoErrorKind (bool * Z);
  path_exists : path → W → bool;
  (** [OpenOptions::create_new], [write_all] and [flush]. *)
  fs_create_new : path → bytes → act W IoErrorKind unit;
  (** [SystemTime::now] since the epoch, if the clock is not before it. *)
  unix_now : W → option Z;
}.

Class CaFilesLaws (W : Type) `{Windows W} `{CaFiles W} := {
  fs_symlink_metadata_spec p w : untouched [] w (fs_symlink_metadata p w).1 ∧ (fs_symlink_metadata p w).2 ≠ Panic;
  fs_create_new_spec p bs w : let '(w', r) := fs_create_new p bs w in
    untouched [p] w w' ∧ r ≠ Panic ∧ (r = Ok tt → fs_lookup w' p = Some bs);
}.

(** [sort] on paths of one directory: by the octets of the name. *)
Fixpoint name_leb (a b : bytes) : bool :=
  match a, b with
  | [], _ => true
  | _ :: _, [] => false
  | x :: a, y :: b => (x <? y) || ((x =? y) && name_leb a b)
  end.
Definition name_le (a b : bytes) : Prop := name_leb a b = true.
#[export] Instance name_le_dec a b : Decision (name_le a b).
Proof. unfold name_le. apply _. Defined.

Definition MAX_CA_CERTS : Z := 16.
Definition MAX_CA_CERT_BYTES : Z := 65536.

Section ca_cache.
Context `{CertificateDecoder} `{X509View} `{Sha256Hash} {W : Type} `{!Windows W} `{!CaFiles W}.

Definition CA_DIRECTORY : path := [bytes_of_string "refineid"; bytes_of_string "ca-certificates"].

(** The branch of the other systems is not compiled for Windows. *)
Definition persistent_ca_dir (w : W) : option path :=
  let not_empty (v : option path) := dir ← v; if bool_decide (dir = []) then None else Some dir in
  match not_empty (env_var (bytes_of_string "REFINEID_CA_CACHE_DIR") w) with
  | Some dir => Some dir
  | None =>
      match not_empty (env_var (bytes_of_string "LOCALAPPDATA") w) with
      | Some local_app_data => Some (local_app_data ++ CA_DIRECTORY)
      | None =>
          match not_empty (env_var (bytes_of_string "APPDATA") w) with
          | Some app_data => Some (app_data ++ CA_DIRECTORY)
          | None => None
          end
      end
  end.

Definition is_cert_valid (cert : OwnedCert) (w : W) : bool :=
  match unix_now w with
  | None => false
  | Some now => (not_before_unix cert <=? now) && (now <=? not_after_unix cert)
  end.

Definition is_ca_cert (cert : OwnedCert) : bool :=
  if basic_constraints_ca cert then true else bool_decide (subject_as_der cert = issuer_as_der cert).

Definition meets_ca_persistence_policy (cert : OwnedCert) (w : W) : bool := is_cert_valid cert w && is_ca_cert cert.

(** [eq_ignore_ascii_case("der")]. *)
Definition is_der_extension (ext : bytes) : bool :=
  bool_decide (map (λ b, if within 0x41 0x5A b then b + 32 else b) ext = bytes_of_string "der").

(** One round of the loop over the sorted paths. *)
Definition load_ca_file (file : path) (w : W) : W * option OwnedCert :=
  match fs_symlink_metadata file w with
  | (w, Ok (is_symlink, length)) =>
      if is_symlink || (MAX_CA_CERT_BYTES <? length) then ((fs_remove_file file w).1, None)
      else
        match fs_read file w with
        | (w, Ok bs) =>
            if MAX_CA_CERT_BYTES <? len bs then ((fs_remove_file file w).1, None)
            else
              match OwnedCert_from_der bs with
              | None => ((fs_remove_file file w).1, None)
              | Some cert =>
                  if negb (meets_ca_persistence_policy cert w) then ((fs_remove_file file w).1, None)
                  else (w, Some cert)
              end
        | (w, _) => (w, None)
        end
  | (w, _) => (w, None)
  end.

Fixpoint load_ca_files (paths : list path) (certs : list OwnedCert) (w : W) : W * list OwnedCert :=
  match paths with
  | [] => (w, certs)
  | file :: paths =>
      if MAX_CA_CERTS <=? Z.of_nat (length certs) then (w, certs)
      else
        let '(w, cert) := load_ca_file file w in
        load_ca_files paths (certs ++ option_list cert) w
  end.

Definition load_persisted_ca_certs_from (dir : path) (w : W) : W * list OwnedCert :=
  match fs_read_dir dir w with
  | (w, Ok entries) =>
      let names := List.filter (λ name, match path_extension name with
                                        | Some ext => is_der_extension ext
                                        | None => false
                                        end) entries in
      load_ca_files (map (λ name, dir ++ [name]) (merge_sort name_le names)) [] w
  | (w, _) => (w, [])
  end.

Definition load_persisted_ca_certs (w : W) : W * list OwnedCert :=
  match persistent_ca_dir w with
  | Some dir => load_persisted_ca_certs_from dir w
  | None => (w, [])
  end.

(** The two names of a certificate's file. *)
Definition ca_file_name (der : bytes) : bytes := Hex_encode (sha256 der) ++ bytes_of_string ".der".
Definition ca_temp_name (der : bytes) (w : W) : bytes :=
  bytes_of_string "." ++ Hex_encode (sha256 der) ++ bytes_of_string ".tmp." ++ dec (process_id w).

Definition persist_ca_cert_to (dir : path) (cert : OwnedCert) (w : W) : W :=
  if negb (meets_ca_persistence_policy cert w) then w
  else
    match fs_create_dir_all dir w with
    | (w, Ok _) =>
        let der := OwnedCert_as_der cert in
        let final_path := dir ++ [ca_file_name der] in
        if path_exists final_path w then w
        else
          let temp_path := dir ++ [ca_temp_name der w] in
          match fs_create_new temp_path der w with
          | (w, Ok _) =>
              match fs_rename temp_path final_path w with
              | (w, Ok _) => w
              | (w, _) => (fs_remove_file temp_path w).1
              end
          | (w, _) => (fs_remove_file temp_path w).1
          end
    | (w, _) => w
    end.

Definition persist_ca_cert (cert : OwnedCert) (w : W) : W :=
  match persistent_ca_dir w with
  | Some dir => persist_ca_cert_to dir cert w
  | None => w
  end.
End ca_cache.

(** ** Lemmas *)

Section ca_cache_lemmas.
Context `{CertificateDecoder} `{X509View} `{Sha256Hash} {W : Type} `{!Windows W} `{!CaFiles W} `{!WindowsLaws W}
  `{!CaFilesLaws W}.

Lemma untouched_compose l l' (w1 w2 w3 : W) : untouched l w1 w2 → untouched l' w2 w3 → untouched (l ++ l') w1 w3.
Proof. intros H1' H2' p Hp. rewrite elem_of_app in Hp. by rewrite H2', H1' by tauto. Qed.

Lemma untouched_nil_l l (w1 w2 w3 : W) : untouched [] w1 w2 → untouched l w2 w3 → untouched l w1 w3.
Proof. apply (untouched_compose []). Qed.

Lemma untouched_more l l' (w1 w2 : W) : l ⊆ l' → untouched l w1 w2 → untouched l' w1 w2.
Proof. intros Hl H' p Hp. apply H'. set_solver. Qed.

Lemma untouched_none (w : W) : untouched [] w w.
Proof. done. Qed.

(** What one file gives: a certificate under the policy that is the file, or
    nothing; no other file is touched. *)
Lemma load_ca_file_spec file (w : W) : let '(w', r) := load_ca_file file w in
  untouched [file] w w' ∧
  ∀ c, r = Some c → untouched [] w w' ∧ fs_lookup w file = Some (OwnedCert_as_der c) ∧
    len (OwnedCert_as_der c) ≤ MAX_CA_CERT_BYTES ∧ OwnedCert_wf c ∧ meets_ca_persistence_policy c w' = true.
Proof.
  unfold load_ca_file. pose proof (fs_symlink_metadata_spec file w) as [Hm _].
  destruct (fs_symlink_metadata file w) as [w1 [[link n]|e|]]; cbn [fst] in Hm;
    [|by split; [eapply untouched_more; [|exact Hm]; set_solver|]..].
  assert (∀ w2 : W, untouched [] w w2 → untouched [file] w (fs_remove_file file w2).1) as Hrm.
  { intros w2 Hw2. eapply untouched_nil_l; [exact Hw2|]. by apply fs_remove_file_spec. }
  destruct (_ || _); [by split; [apply Hrm|]|].
  pose proof (fs_read_spec file w1) as Hr. destruct (fs_read file w1) as [w2 r]. destruct Hr as (Hun & _ & Hok & _).
  assert (untouched [] w w2) as Hw2 by by eapply untouched_nil_l.
  destruct r as [bs|e|]; [|by split; [eapply untouched_more; [|exact Hw2]; set_solver|]..].
  destruct (Z.ltb_spec MAX_CA_CERT_BYTES (len bs)); [by split; [apply Hrm|]|].
  unfold OwnedCert_from_der. destruct (certificate_decodes bs) eqn:Hdec; [|by split; [apply Hrm|]].
  destruct (meets_ca_persistence_policy _ w2) eqn:Hp; cbn [negb]; [|by split; [apply Hrm|]].
  split; [eapply untouched_more; [|exact Hw2]; set_solver|]. intros c [= <-]. cbn [OwnedCert_as_der].
  split; [done|]. split; [rewrite <- (Hm file); [by apply Hok|set_solver]|]. split; [done|]. split; [|done].
  unfold OwnedCert_wf. cbn. by rewrite Hdec.
Qed.

(** A certificate the load returns, and the moment it was taken. *)
Definition loaded_from (paths : list path) (w : W) (c : OwnedCert) : Prop :=
  len (OwnedCert_as_der c) ≤ MAX_CA_CERT_BYTES ∧ OwnedCert_wf c ∧
  ∃ file w1, file ∈ paths ∧ untouched paths w w1 ∧ fs_lookup w1 file = Some (OwnedCert_as_der c) ∧
    meets_ca_persistence_policy c w1 = true.

Lemma loaded_from_more paths paths' w w' c :
  paths ⊆ paths' → untouched paths' w' w → loaded_from paths w c → loaded_from paths' w' c.
Proof.
  intros Hs Hun (Hl & Hwf & file & w1 & Hf & Hw1 & Hlk & Hp). split; [done|]. split; [done|].
  exists file, w1. split; [by apply Hs|]. split; [|done]. intros p Hp'. rewrite Hw1 by set_solver. by apply Hun.
Qed.

Lemma load_ca_files_spec paths certs (w : W) : let '(w', certs') := load_ca_files paths certs w in
  untouched paths w w' ∧
  (Z.of_nat (length certs) ≤ MAX_CA_CERTS → Z.of_nat (length certs') ≤ MAX_CA_CERTS) ∧
  ∃ more, certs' = certs ++ more ∧ Forall (loaded_from paths w) more.
Proof.
  revert certs w. induction paths as [|file paths IH]; intros certs w; cbn [load_ca_files].
  - split; [done|]. split; [done|]. exists []. by rewrite app_nil_r.
  - destruct (Z.leb_spec MAX_CA_CERTS (Z.of_nat (length certs))).
    + split; [intros p _; done|]. split; [done|]. exists []. by rewrite app_nil_r.
    + pose proof (load_ca_file_spec file w) as Hf. destruct (load_ca_file file w) as [w1 r]. destruct Hf as [Hun Hc].
      specialize (IH (certs ++ option_list r) w1). destruct (load_ca_files paths _ w1) as [w2 certs'].
      destruct IH as (Hun2 & Hlen & more & -> & Hmore). split; [exact (untouched_compose _ _ _ _ _ Hun Hun2)|]. split.
      * intros _. apply Hlen. rewrite length_app. destruct r; cbn; lia.
      * exists (option_list r ++ more). split; [by rewrite app_assoc|]. apply Forall_app. split.
        -- destruct r as [c|]; [|constructor]. destruct (Hc c eq_refl) as (Hun0 & Hlk & Hl & Hwf & Hp).
           apply Forall_cons_2; [|constructor]. split; [done|]. split; [done|]. exists file, w1.
           split; [set_solver|]. split; [eapply untouched_more; [|exact Hun0]; set_solver|].
           split; [rewrite (Hun0 file); [done|set_solver]|done].
        -- eapply Forall_impl; [|exact Hmore]. intros c. apply loaded_from_more; [set_solver|].
           eapply untouched_more; [|exact Hun]. set_solver.
Qed.

(** The entries the cache owns. *)
Definition der_entry (dir : path) (p : path) : Prop :=
  ∃ name ext, p = dir ++ [name] ∧ path_extension name = Some ext ∧ is_der_extension ext = true.

Lemma der_entries dir entries :
  Forall (der_entry dir) (map (λ name, dir ++ [name]) (merge_sort name_le
    (List.filter (λ name, match path_extension name with Some ext => is_der_extension ext | None => false end) entries))).
Proof.
  apply list.Forall_forall. intros p (name & <- & Hn)%list_elem_of_In%in_map_iff.
  apply list_elem_of_In in Hn. rewrite merge_sort_Permutation in Hn. apply list_elem_of_In, List.filter_In in Hn as [_ Hn].
  destruct (path_extension name) as [ext|] eqn:He; [|done]. by exists name, ext.
Qed.
End ca_cache_lemmas.

(** ** Properties *)

(** The certificate cache stays within its bounds. A load returns at most sixteen
    certificates, each parsed from a file named *.der of the directory, of at most
    65536 octets, a certificate authority's and valid when it was taken; it deletes
    nothing but such files. Keeping a certificate writes nothing unless it passes the
    policy, never replaces what is there, and touches only its own two names. *)
Theorem ca_cache_bounded `{CertificateDecoder} `{X509View} `{Sha256Hash} {W : Type} `{!Windows W} `{!CaFiles W}
  `{!WindowsLaws W} `{!CaFilesLaws W} (dir : path) (w : W) :
  (let '(w', certs) := load_persisted_ca_certs_from dir w in
   ∃ files, Forall (der_entry dir) files ∧ untouched files w w' ∧
     Z.of_nat (length certs) ≤ 16 ∧ Forall (loaded_from files w) certs) ∧
  (∀ cert, let w' := persist_ca_cert_to dir cert w in
     let final := dir ++ [ca_file_name (OwnedCert_as_der cert)] in
     (meets_ca_persistence_policy cert w = false → w' = w) ∧
     ∃ temp, untouched [final; temp] w w' ∧
       (final ≠ temp → fs_lookup w' final = fs_lookup w final ∨ fs_lookup w' final = Some (OwnedCert_as_der cert))).
Proof.
  split.
  - unfold load_persisted_ca_certs_from. pose proof (fs_read_dir_spec dir w) as [Hd _].
    destruct (fs_read_dir dir w) as [w1 [entries|e|]]; cbn [fst] in Hd; [|by exists []..].
    set (files := map _ _). pose proof (der_entries dir entries) as Hfiles. fold files in Hfiles.
    pose proof (load_ca_files_spec files [] w1) as Hl. destruct (load_ca_files files [] w1) as [w2 certs].
    destruct Hl as (Hun & Hlen & more & -> & Hmore). cbn [app] in *. exists files. split; [done|].
    split; [by eapply untouched_nil_l|]. split; [apply Hlen; by vm_compute|].
    eapply Forall_impl; [|exact Hmore]. intros c. apply loaded_from_more; [done|].
    eapply untouched_more; [|exact Hd]. set_solver.
  - intros cert. cbn zeta. unfold persist_ca_cert_to. destruct (meets_ca_persistence_policy cert w); cbn [negb].
    2:{ split; [done|]. exists []. split; [intros p _; done|by left]. }
    split; [done|]. pose proof (fs_create_dir_all_spec dir w) as [Hd _].
    destruct (fs_create_dir_all dir w) as [w1 [u|e|]]; cbn [fst] in Hd;
      [|exists []; split; [eapply untouched_more; [|exact Hd]; set_solver|intros _; left; apply Hd; set_solver]..].
    set (final := dir ++ [ca_file_name _]). destruct (path_exists final w1).
    { exists []. split; [eapply untouched_more; [|exact Hd]; set_solver|intros _; left; apply Hd; set_solver]. }
    set (temp := dir ++ [ca_temp_name _ w1]). exists temp.
    pose proof (fs_create_new_spec temp (OwnedCert_as_der cert) w1) as Hc.
    destruct (fs_create_new temp _ w1) as [w2 r]. destruct Hc as (Hun & _ & Hwritten).
    assert (untouched [temp] w w2) as Hw2 by by eapply untouched_nil_l.
    assert (∀ w3 : W, untouched [temp] w w3 → untouched [final; temp] w (fs_remove_file temp w3).1 ∧
      (final ≠ temp → fs_lookup (fs_remove_file temp w3).1 final = fs_lookup w final)) as Hrm.
    { intros w3 Hw3. assert (untouched [temp] w (fs_remove_file temp w3).1) as Hr.
      { apply (untouched_more ([temp] ++ [temp])); [set_solver|]. eapply untouched_compose; [exact Hw3|]. by apply fs_remove_file_spec. }
      split; [eapply untouched_more; [|exact Hr]; set_solver|]. intros Hne. apply Hr. set_solver. }
    destruct r as [[]|e|]; [|split; [by apply Hrm|intros Hne; left; by apply Hrm]..].
    specialize (Hwritten eq_refl). pose proof (fs_rename_spec temp final w2) as Hr.
    destruct (fs_rename temp final w2) as [w3 r]. destruct Hr as (_ & Hok & Hbad).
    destruct r as [[]|e|];
      [|assert (untouched [temp] w w3) as Hw3
          by (apply (untouched_more ([temp] ++ [])); [set_solver|]; eapply untouched_compose; [exact Hw2|]; by apply Hbad);
        split; [by apply Hrm|intros Hne; left; by apply Hrm]..].
    destruct (Hok eq_refl) as [Hun3 Hlk]. split.
    + apply (untouched_more ([temp] ++ [temp; final])); [set_solver|]. by eapply untouched_compose.
    + intros _. right. by rewrite Hlk.
Qed.

(** ** The property at a concrete input *)

(** The disk of ProtectedStore.v with a clock; links do not occur on it. *)
Module ca_files.
Import disk.
#[export] Instance disk_ca_files : CaFiles disk.disk := {|
  env_var _ _ := Some [[0x43]];
  fs_symlink_metadata p := λ d, (d, match disk.look_up (disk.files d) p with
                                    | Some bs => Ok (false, len bs)
                                    | None => Err Io_NotFound
                                    end);
  path_exists p d := bool_decide (is_Some (disk.look_up (disk.files d) p));
  fs_create_new := disk.write_new;
  unix_now _ := Some 50;
|}.
#[export] Instance disk_ca_files_laws : CaFilesLaws disk.disk.
Proof.
  split.
  - intros p w. cbn. by destruct (disk.look_up (disk.files w) p).
  - exact (fs_write_new_spec (W:=disk.disk)).
Qed.
End ca_files.

Section ca_witness.
Import plain disk ca_files.
#[local] Instance flat_sha256 : Sha256Hash := λ _, replicate 32 0xCD.

(** An authority, a file of another kind and an empty certificate. *)
Definition ca_disk : disk :=
  mk [([[0x44]; bytes_of_string "b.txt"], [0x30]); ([[0x44]; bytes_of_string "c.DER"], [0x30; 0x07]);
      ([[0x44]; bytes_of_string "a.der"], replicate (Z.to_nat 65537) 0)] 0 [].

Lemma ca_cache_bounded_witness :
  (load_persisted_ca_certs_from [[0x44]] ca_disk).2 = [mkOwnedCert [0x30; 0x07]] ∧
  meets_ca_persistence_policy (mkOwnedCert [0x30; 0x07]) ca_disk = true ∧
  ∃ temp, untouched [[[0x44]; ca_file_name [0x30; 0x07]]; temp] ca_disk
            (persist_ca_cert_to [[0x44]] (mkOwnedCert [0x30; 0x07]) ca_disk).
Proof.
  split; [by vm_compute|]. split; [by vm_compute|].
  destruct (proj2 (proj2 (ca_cache_bounded [[0x44]] ca_disk) (mkOwnedCert [0x30; 0x07]))) as (temp & Ht & _).
  by exists temp.
Defined.
End ca_witness.
