(* ===== verification/Pkcs11Card.v ===== *)
(** The PKCS#11 module at the card: crates/refineid-pkcs11/src/token.rs, from
    [card_pin1_status] to [card_change_pin1]. The PC/SC back-end is the class
    [ReaderBackend]; an opened card is a transport. The PIN cache is shared between the
    threads of the process and locked only for single steps: what other threads do to it
    while it is not locked is an argument. *)

From S2P Require Import Prelude CryptoCrates Ber StatusWord Transport Apdu Pin Auth RetryFloor Pkcs15 PinLengths PinOps.
From S2P Require Import SignCommands SignOps TokenInfo CardPin PinCache Cryptoki Pkcs11Sign.

Record ReaderInfo := mkReaderInfo { ri_id : bytes; ri_card_present : bool }.
Inductive ReaderAccessCap := Rac_Read | Rac_PinSequence.

(** [PcscBackend]: listing the readers, opening a card in one, and dropping it. *)
Class ReaderBackend (X T : Type) := {
  backend_enumerate : act X unit (list ReaderInfo);
  backend_open_session : bytes → ReaderAccessCap → act X unit T;
  backend_drop : bytes → T → X → X;
}.

(** The card and the state [S] beside it. *)
Definition on_card {T S F A} (m : act T F A) : act (T * S) F A :=
  λ '(t, s), let '(t, r) := m t in ((t, s), r).

(** One step under the lock of the cache; [others] is what the other threads made of
    the cache since it was last locked here. *)
Definition locked {T F A} (others : PinSafetyCache → PinSafetyCache) (f : PinSafetyCache → PinSafetyCache * A)
  : act (T * PinSafetyCache) F A :=
  λ '(t, c), let '(c, a) := f (others c) in ((t, c), Ok a).
Definition locked_update {T F} (others f : PinSafetyCache → PinSafetyCache) : act (T * PinSafetyCache) F unit :=
  locked others (λ c, (f c, tt)).

(** Opens the card, runs the session and drops the card. *)
Definition with_card {X T S A} `{ReaderBackend X T} (reader : bytes) (cap : ReaderAccessCap) (session : act (T * S) Z A)
  : act (X * S) Z A :=
  λ '(x, s), match backend_open_session reader cap x with
             | (x, Ok t) => let '((t, s), r) := session (t, s) in ((backend_drop reader t x, s), r)
             | (x, Err _) => ((x, s), Err CKR_DEVICE_ERROR)
             | (x, Panic) => ((x, s), Panic)
             end.

Definition RAPP_PREFIX : bytes := bytes_of_string "rapp:".
Definition is_remote (reader_name : bytes) : bool := bool_decide (is_Some (strip_prefix RAPP_PREFIX reader_name)).

Definition pin1_verify_guard (status : PinStatus) : result Z unit :=
  map_err (λ refusal, match refusal with
                      | Rfr_TriesBelowFloor _ _ | Rfr_Blocked _ => CKR_PIN_LOCKED
                      | Rfr_CounterUnreadable _ => CKR_DEVICE_ERROR
                      end) (check_retry_floor (FlooredCredential_from Pin1) status).

Section card.
Context `{CardTransport T E} `{HmacSha256}.

Definition device_error {S F A} (m : act S F A) : act S Z A := act_map_err (λ _, CKR_DEVICE_ERROR) m.

Definition live_token_serial : act T Z TokenSerial :=
  do! info := device_error read_token_info in
  act_lift (ok_or (serial ← render_token_serial <$> ti_serial_number_hex info;
                   if bool_decide (TokenSerial_as_str serial = []) then None else Some serial) CKR_DEVICE_ERROR).

(** The session of [card_login], after the card was opened. *)
Definition card_login_session (others : PinSafetyCache → PinSafetyCache) (pin1 : PinBytes)
  : act (T * PinSafetyCache) Z unit :=
  do! _ := on_card (device_error select_pkcs15_application) in
  do! serial := on_card live_token_serial in
  do! pin1_status := on_card (device_error (pin_status Pin1)) in
  match pin1_verify_guard pin1_status with
  | Err error =>
      do! _ := locked_update others PinSafetyCache_clear_positive in
      act_err error
  | Panic => act_lift Panic
  | Ok _ =>
      do! rejected := locked others (λ c, (c, PinSafetyCache_is_rejected c serial Pin1 pin1)) in
      if rejected then act_err CKR_PIN_INCORRECT
      else
        do! outcome := on_card (device_error (verify_pin Pin1 pin1)) in
        match outcome with
        | Vo_Ok =>
            do! stored := locked id (λ c,
              if pin1_status_permits_reusable_cache pin1_status then PinSafetyCache_store_pin1 c serial pin1
              else PinSafetyCache_stage_pin1_once c serial pin1) in
            act_lift (map_err (λ _, CKR_PIN_INCORRECT) stored)
        | Vo_WrongPin _ =>
            do! _ := locked_update id (λ c, PinSafetyCache_record_rejected c serial Pin1 pin1) in
            act_err CKR_PIN_INCORRECT
        | Vo_Locked => act_err CKR_PIN_LOCKED
        | Vo_Other _ => act_err CKR_DEVICE_ERROR
        end
  end.

(** The session of [card_sign_with_origin_source]; the cache is locked twice. *)
Definition card_sign_session (others others' : PinSafetyCache → PinSafetyCache) (mechanism : Mechanism) (input : bytes)
  : act (T * PinSafetyCache) Z bytes :=
  do! _ := on_card (device_error select_pkcs15_application) in
  do! serial := on_card live_token_serial in
  do! pin1_status := on_card (device_error (pin_status Pin1)) in
  match pin1_verify_guard pin1_status with
  | Err error =>
      do! _ := locked_update others PinSafetyCache_clear_positive in
      act_err error
  | Panic => act_lift Panic
  | Ok _ =>
      do! checkout := locked others (λ c, PinSafetyCache_checkout_pin1 c serial pin1_status) in
      do! checkout := act_lift (ok_or checkout CKR_USER_NOT_LOGGED_IN) in
      let pin := hp_pin (co_entry checkout) in
      do! outcome := act_attempt (on_card (verify_pin Pin1 pin)) in
      match outcome with
      | Ok Vo_Ok =>
          do! _ := locked_update others' (CheckedOutPin1_restore_after_success checkout) in
          on_card (sign_with_card mechanism input)
      | Ok (Vo_WrongPin _) =>
          do! _ := locked_update others' (λ c, PinSafetyCache_record_rejected c serial Pin1 pin) in
          act_err CKR_PIN_INCORRECT
      | Ok Vo_Locked => act_err CKR_PIN_LOCKED
      | Ok (Vo_Other _) => act_err CKR_DEVICE_ERROR
      | Err _ =>
          do! _ := locked_update others' (CheckedOutPin1_restore_after_unanswered checkout) in
          act_err CKR_DEVICE_ERROR
      | Panic => act_lift Panic
      end
  end.

Context {R O : Type} `{PasswordLengthRange R} `{!AuthenticationObjectsOps R O}.

(** The session of [card_change_pin1]. *)
Definition card_change_pin1_session (current_pin1 new_pin1 : PinBytes) : act T Z unit :=
  do! _ := device_error select_pkcs15_application in
  do! status := device_error (pin_status Pin1) in
  do! _ := act_lift (pin1_verify_guard status) in
  do! lengths := device_error (read_card_pin_lengths (R:=R) (O:=O)) in
  do! outcome := act_map_err (λ change_err, match change_err with
                                            | Ae_PinPolicy _ => CKR_PIN_LEN_RANGE
                                            | Ae_Transport _ => CKR_DEVICE_ERROR
                                            end) (change_pin lengths Pin1 current_pin1 new_pin1) in
  match outcome with
  | Cp_Ok => act_ret tt
  | Cp_WrongCurrentPin _ => act_err CKR_PIN_INCORRECT
  | Cp_Locked => act_err CKR_PIN_LOCKED
  | Cp_LengthError => act_err CKR_PIN_LEN_RANGE
  | Cp_Other _ => act_err CKR_DEVICE_ERROR
  end.

Context {X : Type} `{!ReaderBackend X T}.

Definition card_pin1_status (reader_name : bytes) : act X Z PinStatus :=
  if is_remote reader_name then act_ret Ps_Verified
  else λ x,
    let '((x, _), r) := with_card reader_name Rac_Read
      (do! _ := on_card (device_error select_pkcs15_application) in
       on_card (device_error (pin_status Pin1))) (x, tt) in (x, r).

Definition card_login (reader_name : bytes) (others : PinSafetyCache → PinSafetyCache) (pin1 : PinBytes)
  : act (X * PinSafetyCache) Z unit :=
  if is_remote reader_name then act_ret tt
  else with_card reader_name Rac_PinSequence (card_login_session others pin1).

Definition card_change_pin1 (reader : bytes) (current_pin1 new_pin1 : PinBytes) : act X Z unit := λ x,
  let '((x, _), r) := with_card reader Rac_PinSequence (on_card (card_change_pin1_session current_pin1 new_pin1)) (x, tt) in
  (x, r).
End card.

(** ** Lemmas *)

Section card_lemmas.
Context `{CardTransport T E} `{HmacSha256}.

Lemma quiet_device_error {F A} (m : act (Logged T) F A) : quiet m → quiet (device_error m).
Proof. apply sends_only_map_err. Qed.

Lemma quiet_live_serial : quiet (live_token_serial (T:=Logged T)).
Proof.
  apply sends_only_bind; [apply quiet_device_error, quiet_token_info|]. intros info. apply sends_only_lift.
Qed.

Lemma locked_bind {S F A B} others f (k : A → act (S * PinSafetyCache) F B) t c :
  act_bind (locked others f) k (t, c) = k (f (others c)).2 (t, (f (others c)).1).
Proof. unfold act_bind, locked. by destruct (f (others c)). Qed.

(** A step at the card that costs no try goes on or ends the session. *)
Lemma on_card_step {S F A B} (m : act (Logged T) F A) (k : A → act (Logged T * S) F B) t s : quiet m →
  ∃ t1 cs, sent t1 = sent t ++ cs ∧ Forall spends_no_try cs ∧
    ((∃ a, m t = (t1, Ok a) ∧ act_bind (on_card m) k (t, s) = k a (t1, s))
     ∨ ∃ r, act_bind (on_card m) k (t, s) = ((t1, s), r) ∧ ∀ b, r ≠ Ok b).
Proof.
  intros Hm. destruct (Hm t) as (cs & Hcs & Hall). unfold act_bind, on_card.
  destruct (m t) as [t1 [a|e|]]; exists t1, cs; (split; [done|]; split; [done|]); [left; by exists a|right; by eexists..].
Qed.

(** What the card shows before a PIN is presented. *)
Definition card_shows (t : Logged T) (serial : TokenSerial) (status : PinStatus) (t1 : Logged T) : Prop :=
  ∃ u v, device_error select_pkcs15_application t = (u, Ok tt) ∧ live_token_serial u = (v, Ok serial) ∧
    device_error (pin_status Pin1) v = (t1, Ok status).

Lemma card_shows_step {S B} (k : TokenSerial → PinStatus → act (Logged T * S) Z B) t s :
  let m := do! _ := on_card (device_error select_pkcs15_application) in
           do! serial := on_card live_token_serial in
           do! pin1_status := on_card (device_error (pin_status Pin1)) in
           k serial pin1_status in
  ∃ t1 cs, sent t1 = sent t ++ cs ∧ Forall spends_no_try cs ∧
    ((∃ serial status, card_shows t serial status t1 ∧ m (t, s) = k serial status (t1, s))
     ∨ ∃ r, m (t, s) = ((t1, s), r) ∧ ∀ b, r ≠ Ok b).
Proof.
  intros m. unfold m.
  assert (quiet (device_error (select_pkcs15_application (T:=Logged T)))) as Hq1 by apply quiet_device_error, no_try_select_app.
  assert (quiet (device_error (pin_status (T:=Logged T) Pin1))) as Hq3 by apply quiet_device_error, quiet_pin_status.
  destruct (on_card_step _ (λ _, do! serial := on_card live_token_serial in
      do! pin1_status := on_card (device_error (pin_status Pin1)) in k serial pin1_status) t s Hq1)
    as (t1 & c1 & Hs1 & Hc1 & [(u & Hm1 & ->)|(r & -> & Hr)]); [|exists t1, c1; eauto 10].
  destruct (on_card_step _ (λ serial, do! pin1_status := on_card (device_error (pin_status Pin1)) in k serial pin1_status)
      t1 s quiet_live_serial) as (t2 & c2 & Hs2 & Hc2 & [(serial & Hm2 & ->)|(r & -> & Hr)]).
  2:{ exists t2, (c1 ++ c2). rewrite Hs2, Hs1, app_assoc. split; [done|]. split; [by apply Forall_app|]. eauto. }
  destruct (on_card_step _ (λ pin1_status, k serial pin1_status) t2 s Hq3) as (t3 & c3 & Hs3 & Hc3 & Hk).
  exists t3, (c1 ++ c2 ++ c3). rewrite Hs3, Hs2, Hs1, <- !app_assoc. split; [done|]. split; [by rewrite !Forall_app|].
  destruct Hk as [(status & Hm3 & ->)|(r & -> & Hr)]; [left|right; eauto].
  exists serial, status. split; [|done]. destruct u. by exists t1, t2.
Qed.

(** The VERIFY of PIN 1. *)
Definition verify_pin1_apdu (pin : PinBytes) : bytes :=
  [0x00; 0x20; 0x00; PinReferenceScheme_reference Citizen Pin1; len (pb_bytes pin)] ++ pb_bytes pin.

Lemma verify_pin1_run pin (t : Logged T) : PinBytes_wf pin →
  verify_pin Pin1 pin t =
  (let '(t', r) := transmit (verify_pin1_apdu pin) (card t) in
   (mkLogged (sent t ++ [CommandApdu_new (verify_pin1_apdu pin)]) t',
    answered (λ rsp, classify_verify_sw (ResponseApdu_status_word rsp)) r)).
Proof.
  intros Hpin. pose proof (len_pin_field Citizen _ Hpin) as Hl. unfold verify_pin, verify_pin_with_scheme.
  cbn [PinReferenceScheme_gates_esign_directory]. rewrite act_ret_bind. cbn [StatusWord_is_success negb].
  rewrite stored_length_12, CredentialBlock_push_wf by done.
  rewrite (PinPolicyCheck_ascii_wf pin Hpin : PinPolicyCheck_validate_ascii _ PIN_MIN_LENGTH _ = _).
  rewrite act_lift_ok. cbn [app]. rewrite Verify_short by lia. apply auth_exchange_logged.
Qed.

Lemma pin1_guard_served status : pin1_verify_guard status = Ok tt →
  status = Ps_Verified ∨ ∃ r, status = Ps_Remaining r ∧ 3 ≤ PinRetries_0 r ≤ 5.
Proof.
  unfold pin1_verify_guard. destruct (check_retry_floor _ status) as [[]|e|] eqn:Hc; [|done..].
  intros _. by apply (retry_floor_served Pin1).
Qed.

Lemma quiet_sign_step stage c : spends_try c = false → quiet (sign_step (T:=Logged T) stage c).
Proof.
  intros Hc. unfold sign_step. apply sends_only_bind; [by apply sends_only_map_err, sends_only_transmit|].
  intros r. destruct (negb _); [apply sends_only_err|apply sends_only_ret].
Qed.

Lemma quiet_in_order steps body : Forall (λ c, spends_try c = false) steps.*2 → quiet (in_order (T:=Logged T) steps body).
Proof.
  revert body. induction steps as [|[stage c] steps IH]; intros body Hs; [apply sends_only_ret|].
  apply Forall_cons_1 in Hs as [Hc Hs]. apply sends_only_bind; [by apply quiet_sign_step|]. intros r. by apply IH.
Qed.

(** Signing sends no command that costs a try. *)
Lemma quiet_hash_then_sign {Alg} alg key h le : quiet (hash_then_sign (T:=Logged T) (Alg:=Alg) alg key h le).
Proof.
  intros t. rewrite hash_then_sign_in_order.
  apply (sends_only_bind spends_no_try _ (λ b, act_ret (Signature_new (Alg:=Alg) b))); [|intros b; apply sends_only_ret].
  apply quiet_in_order. unfold sign_commands. destruct (KeyRef_signs_digest_inline key); repeat constructor.
Qed.

Lemma quiet_sign_with_card mechanism input : quiet (sign_with_card (T:=Logged T) mechanism input).
Proof.
  destruct mechanism; cbn [sign_with_card].
  all: apply sends_only_bind; [apply sends_only_lift|intros d].
  all: apply sends_only_bind; [apply sends_only_map_err|intros sig; apply sends_only_ret].
  all: apply sends_only_bind; [apply quiet_hash_then_sign|intros sig].
  all: unfold check_signature_len; destruct (negb _); [apply sends_only_err|apply sends_only_ret].
Qed.
End card_lemmas.

(** ** What a presented PIN leads to *)

Section outcomes.
Context `{CardTransport T E} `{HmacSha256}.

(** After [card_login] presented the PIN, by the card's answer. *)
Definition login_outcome (c : PinSafetyCache) (serial : TokenSerial) (status : PinStatus) (pin : PinBytes)
  (r : result (TransportDispatchError E) ResponseApdu) (c' : PinSafetyCache) (out : result Z unit) : Prop :=
  match r with
  | Ok rsp =>
      match classify_verify_sw (ResponseApdu_status_word rsp) with
      | Vo_Ok => out = Ok tt ∧ ∃ generation, psc_held_pin1 c' = Some (mkHeldPin1 serial pin generation
                   (if pin1_status_permits_reusable_cache status then P1r_Reusable else P1r_OneShot))
      | Vo_WrongPin _ => out = Err CKR_PIN_INCORRECT ∧ psc_held_pin1 c' = None
                         ∧ PinSafetyCache_is_rejected c' serial Pin1 pin = true
      | Vo_Locked => out = Err CKR_PIN_LOCKED ∧ c' = c
      | Vo_Other _ => out = Err CKR_DEVICE_ERROR ∧ c' = c
      end
  | Err _ => out = Err CKR_DEVICE_ERROR ∧ c' = c
  | Panic => out = Panic ∧ c' = c
  end.

(** After [card_sign] presented the PIN it checked out: [t2] is the card after the
    answer [r], [c] the cache after the check-out and [o] what came of the call. *)
Definition sign_outcome (others' : PinSafetyCache → PinSafetyCache) (mechanism : Mechanism) (input : bytes)
  (serial : TokenSerial) (checkout : CheckedOutPin1) (c : PinSafetyCache) (t2 : Logged T)
  (r : result (TransportDispatchError E) ResponseApdu) (o : Logged T * PinSafetyCache * result Z bytes) : Prop :=
  match r with
  | Ok rsp =>
      match classify_verify_sw (ResponseApdu_status_word rsp) with
      | Vo_Ok => (o.1.1, o.2) = sign_with_card mechanism input t2
                 ∧ o.1.2 = CheckedOutPin1_restore_after_success checkout (others' c)
      | Vo_WrongPin _ => o.1.1 = t2 ∧ o.2 = Err CKR_PIN_INCORRECT ∧ psc_held_pin1 o.1.2 = None
                         ∧ PinSafetyCache_is_rejected o.1.2 serial Pin1 (hp_pin (co_entry checkout)) = true
      | Vo_Locked => o = ((t2, c), Err CKR_PIN_LOCKED)
      | Vo_Other _ => o = ((t2, c), Err CKR_DEVICE_ERROR)
      end
  | Err _ => o = ((t2, CheckedOutPin1_restore_after_unanswered checkout (others' c)), Err CKR_DEVICE_ERROR)
  | Panic => o = ((t2, c), Panic)
  end.

Lemma hold_pin1_held c serial pin retention :
  PinSafetyCache_is_rejected c serial Pin1 pin = false →
  let '(c', r) := PinSafetyCache_hold_pin1 c serial pin retention in
  r = Ok tt ∧ ∃ generation, psc_held_pin1 c' = Some (mkHeldPin1 serial pin generation retention).
Proof. intros Hr. unfold PinSafetyCache_hold_pin1. rewrite Hr. split; [done|]. by eexists. Qed.

Lemma record_rejected_forgets c serial pin :
  let c' := PinSafetyCache_record_rejected c serial Pin1 pin in
  psc_held_pin1 c' = None ∧ PinSafetyCache_is_rejected c' serial Pin1 pin = true.
Proof.
  cbn zeta. split; [|apply is_rejected_elem, record_rejected_elem; right; split; [done|]].
  - unfold PinSafetyCache_record_rejected. by destruct (negb _).
  - apply fingerprint_key, record_key.
Qed.

(** The locked part of the login. *)
Lemma login_presented c serial status pin (t1 : Logged T) :
  PinBytes_wf pin → PinSafetyCache_is_rejected c serial Pin1 pin = false →
  let m := do! outcome := on_card (device_error (verify_pin Pin1 pin)) in
           match outcome with
           | Vo_Ok =>
               do! stored := locked id (λ c,
                 if pin1_status_permits_reusable_cache status then PinSafetyCache_store_pin1 c serial pin
                 else PinSafetyCache_stage_pin1_once c serial pin) in
               act_lift (map_err (λ _, CKR_PIN_INCORRECT) stored)
           | Vo_WrongPin _ =>
               do! _ := locked_update id (λ c, PinSafetyCache_record_rejected c serial Pin1 pin) in
               act_err CKR_PIN_INCORRECT
           | Vo_Locked => act_err CKR_PIN_LOCKED
           | Vo_Other _ => act_err CKR_DEVICE_ERROR
           end in
  let out := m (t1, c) in
  sent out.1.1 = sent t1 ++ [CommandApdu_new (verify_pin1_apdu pin)] ∧
  login_outcome c serial status pin (transmit (verify_pin1_apdu pin) (card t1)).2 out.1.2 out.2.
Proof.
  intros Hpin Hrej m out. unfold out, m, act_bind, on_card, device_error, act_map_err.
  rewrite (verify_pin1_run pin t1 Hpin). destruct (transmit (verify_pin1_apdu pin) (card t1)) as [t2 [rsp|e|]];
    cbn [answered map_err snd login_outcome]; [|done..]. destruct (classify_verify_sw (ResponseApdu_status_word rsp)); [| |done..].
  - unfold locked, act_lift, id. destruct (pin1_status_permits_reusable_cache status).
    + unfold PinSafetyCache_store_pin1. pose proof (hold_pin1_held c serial pin P1r_Reusable Hrej) as Hh.
      destruct (PinSafetyCache_hold_pin1 _ _ _ _) as [c' r]. by destruct Hh as [-> Hh].
    + unfold PinSafetyCache_stage_pin1_once. pose proof (hold_pin1_held c serial pin P1r_OneShot Hrej) as Hh.
      destruct (PinSafetyCache_hold_pin1 _ _ _ _) as [c' r]. by destruct Hh as [-> Hh].
  - split; [done|]. split; [done|]. apply record_rejected_forgets.
Qed.

(** The locked part of signing, after the check-out. *)
Lemma sign_presented others' mechanism input serial checkout c (t1 : Logged T) :
  let pin := hp_pin (co_entry checkout) in
  PinBytes_wf pin →
  let m := do! outcome := act_attempt (on_card (verify_pin Pin1 pin)) in
           match outcome with
           | Ok Vo_Ok =>
               do! _ := locked_update others' (CheckedOutPin1_restore_after_success checkout) in
               on_card (sign_with_card mechanism input)
           | Ok (Vo_WrongPin _) =>
               do! _ := locked_update others' (λ c, PinSafetyCache_record_rejected c serial Pin1 pin) in
               act_err CKR_PIN_INCORRECT
           | Ok Vo_Locked => act_err CKR_PIN_LOCKED
           | Ok (Vo_Other _) => act_err CKR_DEVICE_ERROR
           | Err _ =>
               do! _ := locked_update others' (CheckedOutPin1_restore_after_unanswered checkout) in
               act_err CKR_DEVICE_ERROR
           | Panic => act_lift Panic
           end in
  let t2 := mkLogged (sent t1 ++ [CommandApdu_new (verify_pin1_apdu pin)])
              (transmit (verify_pin1_apdu pin) (card t1)).1 in
  sign_outcome others' mechanism input serial checkout c t2
    (transmit (verify_pin1_apdu pin) (card t1)).2 (m (t1, c)).
Proof.
  intros pin Hpin m t2. unfold m, t2, act_bind, act_attempt, on_card. rewrite (verify_pin1_run pin t1 Hpin).
  destruct (transmit (verify_pin1_apdu pin) (card t1)) as [t3 [rsp|e|]]; cbn [answered fst snd sign_outcome]; [|done..].
  destruct (classify_verify_sw (ResponseApdu_status_word rsp)); [| |done..].
  - unfold locked_update, locked. by destruct (sign_with_card mechanism input _).
  - split; [done|]. split; [done|]. apply record_rejected_forgets.
Qed.

(** Whatever the card answered to the VERIFY, nothing later costs a try. *)
Lemma sign_outcome_quiet others' mechanism input serial checkout c t2 r o :
  sign_outcome others' mechanism input serial checkout c t2 r o →
  ∃ cs, sent o.1.1 = sent t2 ++ cs ∧ Forall spends_no_try cs.
Proof.
  destruct r as [rsp|e|]; cbn; [|intros ->; exists []; by rewrite app_nil_r..].
  destruct (classify_verify_sw _).
  - intros [Hs _]. destruct (quiet_sign_with_card mechanism input t2) as (cs & Hcs & Hall). rewrite <- Hs in Hcs. eauto.
  - intros [-> _]. exists []. by rewrite app_nil_r.
  - intros ->. exists []. by rewrite app_nil_r.
  - intros ->. exists []. by rewrite app_nil_r.
Qed.
End outcomes.

(** ** Properties *)

(** C11: logging in spends at most one try, and only behind every gate. Whatever the
    card and the other threads do, the session sends nothing that costs a try but one
    VERIFY of the given PIN, last; and that only when the card answered with a serial
    and a status that is verified or shows three to five tries, and the PIN is not one
    this card rejected before. The login succeeds exactly when the card accepted the
    PIN, which is then held for that card; a PIN the card refused is recorded and
    nothing is held. *)
Theorem card_login_gated `{CardTransport T E} `{HmacSha256} others pin (t : Logged T) c (Hpin : PinBytes_wf pin) :
  let out := card_login_session others pin (t, c) in
  ∃ t1 cs, sent t1 = sent t ++ cs ∧ Forall spends_no_try cs ∧
  ((sent out.1.1 = sent t ++ cs ∧ out.2 ≠ Ok tt ∧ out.1.2 ∈ [c; others c; PinSafetyCache_clear_positive (others c)])
   ∨ ∃ serial status, card_shows t serial status t1
       ∧ (status = Ps_Verified ∨ ∃ r, status = Ps_Remaining r ∧ 3 ≤ PinRetries_0 r ≤ 5)
       ∧ PinSafetyCache_is_rejected (others c) serial Pin1 pin = false
       ∧ sent out.1.1 = sent t ++ cs ++ [CommandApdu_new (verify_pin1_apdu pin)]
       ∧ login_outcome (others c) serial status pin (transmit (verify_pin1_apdu pin) (card t1)).2 out.1.2 out.2).
Proof.
  intros out. unfold out, card_login_session.
  match goal with |- context [act_bind (on_card (device_error select_pkcs15_application)) ?k] =>
    match k with λ _, act_bind _ (λ a, act_bind _ (λ b, @?k' a b)) =>
      destruct (card_shows_step k' t c) as (t1 & cs & Hs & Hcs & [(serial & status & Hshow & ->)|(r & -> & Hr)])
    end end; exists t1, cs; (split; [done|]; split; [done|]); [|left; split; [done|]; split; [apply Hr|set_solver]].
  cbn beta. destruct (pin1_verify_guard status) as [[]|e|] eqn:Hg;
    [|left; split; [done|]; split; [done|]; cbn; set_solver..].
  rewrite !locked_bind. cbn [fst snd]. destruct (PinSafetyCache_is_rejected (others c) serial Pin1 pin) eqn:Hrej.
  - left. split; [done|]. split; [done|]. cbn. set_solver.
  - right. exists serial, status. split; [done|]. split; [by apply pin1_guard_served|]. split; [done|].
    destruct (login_presented (others c) serial status pin t1 Hpin Hrej) as [Hsent Hout]. split; [|done].
    by rewrite Hsent, Hs, app_assoc.
Qed.

(** C12: signing spends at most one try, and only the PIN the cache holds for this very
    card. Whatever the card and the other threads do, the session sends nothing that
    costs a try but one VERIFY, and that only when the card answered with a serial and
    a status that is verified or shows three to five tries and the cache handed out a
    PIN for that serial and status. A signature comes only from the signing commands
    sent after the card accepted that PIN; a refused PIN is recorded and no longer held,
    an unanswered one is handed back. *)
Theorem card_sign_gated `{CardTransport T E} `{HmacSha256} others others' mechanism input (t : Logged T) c
  (Hheld : ∀ entry, psc_held_pin1 (others c) = Some entry → PinBytes_wf (hp_pin entry)) :
  let out := card_sign_session others others' mechanism input (t, c) in
  ∃ t1 cs, sent t1 = sent t ++ cs ∧ Forall spends_no_try cs ∧
  ((sent out.1.1 = sent t ++ cs ∧ (∀ signature, out.2 ≠ Ok signature))
   ∨ ∃ serial status checkout, card_shows t serial status t1
       ∧ (status = Ps_Verified ∨ ∃ r, status = Ps_Remaining r ∧ 3 ≤ PinRetries_0 r ≤ 5)
       ∧ (PinSafetyCache_checkout_pin1 (others c) serial status).2 = Some checkout
       ∧ let apdu := verify_pin1_apdu (hp_pin (co_entry checkout)) in
         let t2 := mkLogged (sent t1 ++ [CommandApdu_new apdu]) (transmit apdu (card t1)).1 in
         sign_outcome others' mechanism input serial checkout (PinSafetyCache_checkout_pin1 (others c) serial status).1
           t2 (transmit apdu (card t1)).2 out
         ∧ ∃ later, sent out.1.1 = sent t ++ cs ++ CommandApdu_new apdu :: later ∧ Forall spends_no_try later).
Proof.
  intros out. unfold out, card_sign_session.
  match goal with |- context [act_bind (on_card (device_error select_pkcs15_application)) ?k] =>
    match k with λ _, act_bind _ (λ a, act_bind _ (λ b, @?k' a b)) =>
      destruct (card_shows_step k' t c) as (t1 & cs & Hs & Hcs & [(serial & status & Hshow & ->)|(r & -> & Hr)])
    end end; exists t1, cs; (split; [done|]; split; [done|]); [|left; split; [done|]; apply Hr].
  cbn beta. destruct (pin1_verify_guard status) as [[]|e|] eqn:Hg; [|left; by split..].
  rewrite !locked_bind. destruct (PinSafetyCache_checkout_pin1 (others c) serial status) as [c1 [checkout|]] eqn:Hco;
    cbn [fst snd ok_or]; [|left; by split].
  right. exists serial, status, checkout. split; [done|]. split; [by apply pin1_guard_served|]. rewrite Hco. split; [done|].
  rewrite !act_lift_ok. assert (PinBytes_wf (hp_pin (co_entry checkout))) as Hpin.
  { apply Hheld. unfold PinSafetyCache_checkout_pin1 in Hco. destruct (psc_held_pin1 (others c)) as [entry|]; [|done].
    destruct (_ && _); by inversion Hco; subst. }
  pose proof (sign_presented others' mechanism input serial checkout c1 t1 Hpin) as Hout. split; [exact Hout|].
  destruct (sign_outcome_quiet _ _ _ _ _ _ _ _ _ Hout) as (later & Hlater & Hall). exists later. split; [|done].
  etransitivity; [exact Hlater|]. cbn [sent]. by rewrite Hs, <- !app_assoc.
Qed.

(** ** Witnesses: a citizen card with five tries that accepts the PIN and signs *)

Section card_witnesses.
#[local] Instance toy_mac : HmacSha256 := λ key m, Some (key ++ m).
Definition demo_login_card : Script := reply [] 0x9000 :: demo_serial_check ++ [reply [] 0x63C5; reply [] 0x9000].
Definition demo_no_pin : PinSafetyCache := mkPinSafetyCache None 0 [7] [] [].
Definition demo_login := card_login_session (E:=string) id pin_1234 (mkLogged [] demo_login_card, demo_no_pin).

Lemma card_login_gated_witness :
  demo_login.2 = Ok tt ∧ ∃ cs, Forall spends_no_try cs
  ∧ sent demo_login.1.1 = cs ++ [CommandApdu_new (verify_pin1_apdu pin_1234)].
Proof.
  split; [by vm_compute|].
  destruct (card_login_gated (E:=string) id pin_1234 (mkLogged [] demo_login_card) demo_no_pin pin_1234_wf)
    as (t1 & cs & _ & Hcs & [(_ & Hno & _)|(serial & status & _ & _ & _ & Hsent & _)]).
  - exfalso. apply Hno. by vm_compute.
  - by exists cs.
Defined.

Definition demo_held : PinSafetyCache := mkPinSafetyCache (Some (mkHeldPin1 demo_serial pin_1234 0 P1r_OneShot)) 0 [7] [] [].
Definition demo_sign_card : Script :=
  demo_login_card ++ [reply [] 0x9000; reply [] 0x9000; reply (replicate 96 1) 0x9000].
Definition demo_sign :=
  card_sign_session (E:=string) id id Mech_Ecdsa (replicate 48 2) (mkLogged [] demo_sign_card, demo_held).

Lemma card_sign_gated_witness :
  demo_sign.2 = Ok (replicate 96 1) ∧ ∃ cs later, Forall spends_no_try cs ∧ Forall spends_no_try later
  ∧ sent demo_sign.1.1 = cs ++ CommandApdu_new (verify_pin1_apdu pin_1234) :: later.
Proof.
  split; [by vm_compute|].
  destruct (card_sign_gated (E:=string) id id Mech_Ecdsa (replicate 48 2) (mkLogged [] demo_sign_card) demo_held)
    as (t1 & cs & _ & Hcs & [(_ & Hno)|(serial & status & checkout & _ & _ & Hco & _ & later & Hsent & Hlater)]).
  - intros entry He. injection He as <-. apply pin_1234_wf.
  - exfalso. apply (Hno (replicate 96 1)). by vm_compute.
  - exists cs, later. split; [done|]. split; [done|]. revert Hco Hsent. unfold PinSafetyCache_checkout_pin1, demo_held, id.
    cbn [psc_held_pin1]. destruct (_ && _); [|done]. by intros [= <-].
Defined.
End card_witnesses.
