(* ===== verification/Pkcs11Remote.v ===== *)
(** What the PKCS#11 module builds from a card or a paired phone, and signing over the
    phone: crates/refineid-pkcs11/src/token.rs, [read_optional_ca_cert] to
    [remote_token_objects], [card_sign] to [card_sign_with_origin_source] and
    [remote_card_sign]. The state is the readers [X] beside the operating system [W];
    the session with the phone is the class [PhoneSession]. *)

From S2P Require Import Prelude KeyAlgorithm CryptoCrates Utf8 Str Ber StatusWord Transport Pin Auth Pkcs15 SignCommands TokenInfo PinCache.
From S2P Require Import Rapp PairingStore ProtectedStore Pace Wire Cryptoki Pkcs11Sign Pkcs11Token CaCache.
From S2P Require Import Pkcs11Card.

(** The operations of the protocol crate as far as the signing uses them, and
    [RemoteCardTransport::execute_operation], one operation in a session of its own. *)
Class PhoneSession (W : Type) `{Rapp} := {
  CardOperation : Type;
  CardOperationResult : Type;
  BrowserAuthenticate : bytes → KeyProfile → SignatureAlgorithm → bytes → CardOperation;
  as_signature : CardOperationResult → option bytes;
  execute_operation : PairId → CardOperation → act W unit CardOperationResult;
  unix_time_ms : W → Z;
}.

(** A step of the operating system; the state [S] beside it is the first component. *)
Definition in_system {S W F A} (m : act W F A) : act (S * W) F A :=
  λ '(s, w), let '(w, r) := m w in ((s, w), r).
(** An update that answers, and cannot fail. *)
Definition system_step {S W F A} (f : W → W * A) : act (S * W) F A :=
  in_system (λ w, let '(w, a) := f w in (w, Ok a)).

Definition MAX_ORIGIN_LENGTH : Z := 512.
Definition ORIGIN_VARIABLES : list bytes := [bytes_of_string "REFINEID_RP_ORIGIN"; bytes_of_string "REFINEID_ORIGIN"].

Definition usable_origin (o : bytes) : bool := negb (blank o) && (len o <=? MAX_ORIGIN_LENGTH).

(** The first variable that is set, if it is usable. *)
Definition remote_origin (origin : option bytes) (variable : bytes → option bytes) : option bytes :=
  let usable (o : option bytes) := o ← o; if usable_origin o then Some o else None in
  match usable origin with
  | Some o => Some o
  | None => usable (find_map variable ORIGIN_VARIABLES)
  end.

Section objects.
Context `{Rapp} `{CertificateDecoder} `{X509View} `{Sha1Hash} `{Sha256Hash} {W : Type} `{!Windows W} `{!CaFiles W}.

Definition remote_token_objects (cert_der serial : bytes) : act W Z TokenObjects := λ w,
  match TokenObjects_from_cert_der cert_der with
  | Ok objects =>
      let '(w, cas) := load_persisted_ca_certs w in
      (w, Ok (foldl (λ objects ca, push_ca_cert ca objects) (TokenObjects_set_token_serial serial objects) cas))
  | Err e => (w, Err e)
  | Panic => (w, Panic)
  end.

Context `{CardTransport T E} {X : Type} `{!ReaderBackend X T}.

Definition read_optional_ca_cert (slot : CertSlot) : act T Z (option OwnedCert) :=
  do! raw := act_attempt (read_certificate slot) in
  match raw with
  | Ok raw => act_ret (OwnedCert_from_der raw)
  | Err _ => act_ret None
  | Panic => act_lift Panic
  end.

(** The serial shown for the token, from the card's token information. *)
Definition shown_serial (info : result (Pkcs15Error (TransportDispatchError E)) TokenInfo) : option bytes :=
  info ← result_ok info;
  full ← render_token_serial <$> ti_serial_number_hex info;
  Some (match derive_printed_serial full with
        | Some printed => PrintedSerial_0 printed
        | None => TokenSerial_as_str full
        end).

(** The session of [build_token_objects]: the serial, the authentication certificate
    and the certificates of authorities. *)
Definition token_session : act (T * W) Z (option bytes * bytes * list OwnedCert) :=
  do! token_info := act_attempt (on_card read_token_info) in
  do! serial := (match token_info with Panic => act_lift Panic | r => act_ret (shown_serial r) end) in
  do! cert := act_attempt (on_card (read_certificate Cs_Authentication)) in
  do! cert := (match cert with
               | Ok cert => act_ret cert
               | Err _ => on_card (device_error (read_certificate Cs_AuthenticationAlt))
               | Panic => act_lift Panic
               end) in
  do! cas := system_step load_persisted_ca_certs in
  do! issuing := on_card (read_optional_ca_cert Cs_IssuingCaEcc) in
  do! root := on_card (read_optional_ca_cert Cs_RootCa) in
  do! on_card_cas := system_step (λ w,
    (w, List.filter (λ ca, meets_ca_persistence_policy ca w) (option_list issuing ++ option_list root))) in
  do! _ := system_step (λ w, (foldl (λ w ca, persist_ca_cert ca w) w on_card_cas, tt)) in
  act_ret (serial, cert,
    foldl (λ cas ca, if existsb (λ c, bool_decide (OwnedCert_as_der c = OwnedCert_as_der ca)) cas then cas
                     else cas ++ [ca]) cas on_card_cas).

Definition build_token_objects (reader_name : bytes) : act (X * W) Z TokenObjects :=
  do! (serial, cert, cas) := with_card reader_name Rac_Read token_session in
  do! objects := act_lift (TokenObjects_from_cert_der cert) in
  let objects := match serial with Some serial => TokenObjects_set_token_serial serial objects | None => objects end in
  act_ret (foldl (λ objects ca, push_ca_cert ca objects) objects cas).
End objects.

(** ** Signing *)

Section remote.
Context `{Rapp} `{CertificateDecoder} `{X509View} {W : Type} `{!Windows W} `{!PhoneSession W}.

Definition remote_key_profile (mechanism : Mechanism) (pair : PairingRecord) : KeyProfile :=
  let algorithm := spki_algorithm <$> authentication_certificate pair in
  match mechanism, algorithm with
  | Mech_Ecdsa, Some (Pka_Ec Secp384r1) => EcdsaP384
  | Mech_Ecdsa, Some (Pka_Ec _) => EcdsaP256
  | Mech_Ecdsa, _ => EcdsaP384
  | Mech_RsaPkcs, Some (Pka_Rsa modulus_bits) => if modulus_bits <=? 2048 then Rsa2048 else Rsa3072
  | Mech_RsaPkcs, _ => Rsa3072
  end.

Definition remote_algorithm (mechanism : Mechanism) (input : bytes) : result Z SignatureAlgorithm :=
  match mechanism with
  | Mech_Ecdsa =>
      if len input =? 28 then Ok EcdsaSha224
      else if len input =? 32 then Ok EcdsaSha256
      else if len input =? 48 then Ok EcdsaSha384
      else if len input =? 64 then Ok EcdsaSha512
      else Err CKR_DATA_LEN_RANGE
  | Mech_RsaPkcs =>
      if len input =? 32 then Ok RsaPkcs1Sha256
      else if len input =? 48 then Ok RsaPkcs1Sha384
      else if len input =? 64 then Ok RsaPkcs1Sha512
      else Err CKR_DATA_LEN_RANGE
  end.

(** What the phone is asked to do. *)
Definition remote_operation (pair : PairingRecord) (origin : bytes) (mechanism : Mechanism) (input : bytes)
  : result Z CardOperation :=
  let? algorithm := remote_algorithm mechanism input in
  Ok (BrowserAuthenticate origin (remote_key_profile mechanism pair) algorithm input).

Definition remote_signature (mechanism : Mechanism) (answer : CardOperationResult) : result Z bytes :=
  match as_signature answer with
  | Some signature_bytes =>
      match mechanism with
      | Mech_Ecdsa => map_err (λ _, CKR_DEVICE_ERROR) (remote_ecdsa_to_p1363 signature_bytes 48)
      | Mech_RsaPkcs => Ok signature_bytes
      end
  | None => Err CKR_DEVICE_ERROR
  end.

(** The pairing store, read again for every call. *)
Definition load_pairings : act W Z (ProtectedPairingStore (W:=W)) := λ w,
  match load (unix_time_ms w) w with
  | (w, Ok store) => (pps_world store, Ok store)
  | (w, Err _) => (w, Err CKR_DEVICE_ERROR)
  | (w, Panic) => (w, Panic)
  end.

Definition serving_pair (hex_id : bytes) (store : ProtectedPairingStore (W:=W)) : option PairingRecord :=
  List.find (λ p, serves p && bool_decide (Hex_encode (PairId_as_bytes (pair_id p)) = hex_id)) (pps_records store).

Definition remote_card_sign (hex_id origin : bytes) (mechanism : Mechanism) (input : bytes) : act W Z bytes :=
  if blank origin || (512 <? len origin) then act_err CKR_ARGUMENTS_BAD
  else
    do! store := load_pairings in
    do! paired := act_lift (ok_or (serving_pair hex_id store) CKR_DEVICE_ERROR) in
    do! op := act_lift (remote_operation paired origin mechanism input) in
    do! answer := act_map_err (λ _, CKR_DEVICE_ERROR) (execute_operation (pair_id paired) op) in
    act_lift (remote_signature mechanism answer).

Context `{CardTransport T E} {X : Type} `{!ReaderBackend X T} `{HmacSha256}.

Definition card_sign_with_origin_source (reader_name : bytes) (others others' : PinSafetyCache → PinSafetyCache)
  (mechanism : Mechanism) (input : bytes) (origin : option bytes) (variable : bytes → option bytes)
  : act (X * PinSafetyCache * W) Z bytes :=
  match strip_prefix RAPP_PREFIX reader_name with
  | Some hex_id =>
      match remote_origin origin variable with
      | None => act_err CKR_ARGUMENTS_BAD
      | Some effective_origin => in_system (remote_card_sign hex_id effective_origin mechanism input)
      end
  | None => on_card (with_card reader_name Rac_PinSequence (card_sign_session others others' mechanism input))
  end.

(** [env_text] is [std::env::var]. *)
Definition card_sign (env_text : bytes → W → option bytes) (reader_name : bytes)
  (others others' : PinSafetyCache → PinSafetyCache) (mechanism : Mechanism) (input : bytes) (origin : option bytes)
  : act (X * PinSafetyCache * W) Z bytes := λ s,
  card_sign_with_origin_source reader_name others others' mechanism input origin (λ name, env_text name s.2) s.
End remote.

(** ** Lemmas *)

Section remote_lemmas.
Context `{Rapp} `{CertificateDecoder} `{X509View} {W : Type} `{!Windows W} `{!PhoneSession W}.

Lemma remote_origin_usable origin variable o : remote_origin origin variable = Some o → usable_origin o = true.
Proof.
  unfold remote_origin. set (first := find_map variable ORIGIN_VARIABLES). clearbody first.
  assert (∀ v : option bytes, (v ≫= λ o, if usable_origin o then Some o else None) = Some o → usable_origin o = true) as Hu.
  { intros [v|]; [|done]. cbn. destruct (usable_origin v) eqn:Hv; [|done]. by intros [= <-]. }
  destruct (origin ≫= _) as [a|] eqn:Ho; [intros [= ->]; by apply (Hu origin)|apply Hu].
Qed.

Lemma usable_origin_checked o : usable_origin o = true → blank o || (512 <? len o) = false.
Proof. unfold usable_origin, MAX_ORIGIN_LENGTH. destruct (blank o); cbn; [done|]. intros ?%Z.leb_le. by apply Z.ltb_ge. Qed.

Lemma remote_algorithm_fits mechanism input algorithm : remote_algorithm mechanism input = Ok algorithm →
  digest_length algorithm = len input ∧ ∀ pair, suits (remote_key_profile mechanism pair) algorithm = true.
Proof.
  assert (∀ n a (k : result Z SignatureAlgorithm), (if len input =? n then Ok a else k) = Ok algorithm → len input = n ∧ a = algorithm ∨ k = Ok algorithm) as Hif.
  { intros n a k. destruct (Z.eqb_spec (len input) n); [intros [= ->]; by left|by right]. }
  assert (∀ m pair, suits (remote_key_profile m pair) algorithm =
    suits (match m with Mech_Ecdsa => EcdsaP384 | Mech_RsaPkcs => Rsa3072 end) algorithm) as Hs.
  { intros m pair. unfold remote_key_profile.
    destruct m, (spki_algorithm <$> authentication_certificate pair) as [[bits|[]|bits|]|]; try done. by destruct (bits <=? 2048). }
  destruct mechanism; cbn [remote_algorithm]; intros Ha; repeat apply Hif in Ha as [[Hl <-]|Ha]; try done.
  all: split; [by rewrite Hl|]; intros pair; by rewrite Hs.
Qed.

(** What the RSA mechanism of PKCS#11 is given is refused when the key is on a phone. *)
Lemma remote_rsa_refuses_digest_info input d : bytes_ok input →
  parse_sha256_digest_info input = Ok d → remote_algorithm Mech_RsaPkcs input = Err CKR_DATA_LEN_RANGE.
Proof.
  intros Hin [Hi _]%digest_info_inv; [|done]. cbn [remote_algorithm].
  assert (len input = 51 ∨ len input = 49) as Hl.
  { unfold SHA256_DIGEST_BYTES in *. destruct Hi as [-> | ->]; [left|right];
      rewrite len_app; unfold len at 2; rewrite length_vec_to_list; by vm_compute. }
  by destruct Hl as [-> | ->].
Qed.
End remote_lemmas.

(** ** Properties *)

(** A signature by a phone asks the paired phone once. For a remote reader the
    PC/SC readers and the PIN cache are not touched, and either nothing is asked and the
    call fails, or exactly one operation runs, with the serving pairing the reader's name
    gives, for an origin that is not blank and at most 512 octets long, under a signature
    algorithm that suits the key profile and whose digest is as long as the input; a
    signature is what the phone answered to it. For any other reader the operating system
    is left alone. *)
Theorem remote_sign_asks_phone_once `{Rapp} `{CertificateDecoder} `{X509View} {W : Type} `{!Windows W}
  `{!PhoneSession W} `{CardTransport T E} {X : Type} `{!ReaderBackend X T} `{HmacSha256}
  reader others others' mechanism input origin variable (x : X) c (w : W) :
  let out := card_sign_with_origin_source reader others others' mechanism input origin variable ((x, c), w) in
  (is_remote reader = false → out.1.2 = w) ∧
  ∀ hex_id, reader = RAPP_PREFIX ++ hex_id →
    out.1.1 = (x, c) ∧
    (((∀ signature, out.2 ≠ Ok signature) ∧ out.1.2 ∈ [w; (load_pairings w).1])
     ∨ ∃ o store pair algorithm,
         remote_origin origin variable = Some o ∧ usable_origin o = true
         ∧ (load_pairings w).2 = Ok store ∧ serving_pair hex_id store = Some pair
         ∧ digest_length algorithm = len input ∧ suits (remote_key_profile mechanism pair) algorithm = true
         ∧ let asked := execute_operation (pair_id pair)
                          (BrowserAuthenticate o (remote_key_profile mechanism pair) algorithm input) (load_pairings w).1 in
           out.1.2 = asked.1
           ∧ ∀ signature, out.2 = Ok signature →
               ∃ answer, asked.2 = Ok answer ∧ remote_signature mechanism answer = Ok signature).
Proof.
  intros out. split.
  - unfold out, card_sign_with_origin_source, is_remote. intros Hr%bool_decide_eq_false.
    destruct (strip_prefix RAPP_PREFIX reader); [exfalso; apply Hr; by eexists|]. unfold on_card. by destruct (with_card _ _ _ _).
  - intros hex_id ->. unfold out, card_sign_with_origin_source. rewrite strip_prefix_app.
    destruct (remote_origin origin variable) as [o|] eqn:Ho; [|by repeat split; [..|left; split; [done|set_solver]]].
    pose proof (remote_origin_usable _ _ _ Ho) as Hu. unfold in_system, remote_card_sign.
    rewrite (usable_origin_checked o Hu). unfold act_bind, act_map_err, act_lift.
    destruct (load_pairings w) as [w1 [store|e|]]; [|by repeat split; [..|left; split; [done|set_solver]]..].
    destruct (serving_pair hex_id store) as [pair|] eqn:Hpair; cbn [ok_or];
      [|by repeat split; [..|left; split; [done|set_solver]]].
    unfold remote_operation. destruct (remote_algorithm mechanism input) as [algorithm|e|] eqn:Ha; cbn [result_bind];
      [|by repeat split; [..|left; split; [done|set_solver]]..].
    destruct (remote_algorithm_fits _ _ _ Ha) as [Hl Hs]. split; [by destruct (execute_operation _ _ w1) as [w2 []]|].
    right. exists o, store, pair, algorithm. repeat (split; [by try apply Hs|]). cbn [fst].
    destruct (execute_operation _ _ w1) as [w2 [answer|e|]]; [|done..]. split; [done|]. cbn. eauto.
Qed.
