(* ===== verification/Pkcs11State.v ===== *)
(** The state of the PKCS#11 module: crates/refineid-pkcs11/src/state.rs. The slot table,
    the sessions and the cached objects are [ModuleState]; the PIN caches are shared by
    the modules a process initialises one after the other and live in [PinCaches], an
    [Arc<Mutex<PinSafetyCache>>] being its place in the heap. A panic leaves through an
    [extern "C"] function and ends the process, so a lock is never found poisoned. *)

From stdpp Require Import gmap.
From S2P Require Import Prelude CryptoCrates Utf8 Str StatusWord Transport Apdu Pin Auth Pkcs15 TokenInfo CardPin PinCache Rapp.
From S2P Require Import PairingStore ProtectedStore Pace Wire Cryptoki Pkcs11Sign Pkcs11Token CaCache.
From S2P Require Import Pkcs11Card Pkcs11Remote.

Definition SLOT_ID_BASE : Z := 1.
Definition SESSION_HANDLE_BASE : Z := 1.
Definition PIN1_MIN_DIGITS : Z := 4.
Definition PIN1_MAX_DIGITS : Z := 12.

(** Of crates/refineid-lib-pcsc/src/lib.rs. *)
Record IfdVersion := mkIfdVersion { ifd_major : Z; ifd_minor : Z }.
Record ReaderIdentity := mkReaderIdentity { vendor_name : option bytes; ifd_version : option IfdVersion }.

Record SlotRecord := mkSlotRecord
  { slot_id : Z; slot_reader_name : bytes; slot_card_present : bool; slot_identity : ReaderIdentity }.
Definition set_present (present : bool) (s : SlotRecord) : SlotRecord :=
  mkSlotRecord (slot_id s) (slot_reader_name s) present (slot_identity s).

(** The operations under way: the handles left to report, and a mechanism. *)
Definition FindState : Type := list Z.
Definition SignState : Type := Mechanism.

Record Session := mkSession
  { se_slot_id : Z; se_flags : Z; se_find : option FindState; se_sign : option SignState; se_verify : option SignState }.

Definition begin_find (handles : list Z) (s : Session) : Session :=
  mkSession (se_slot_id s) (se_flags s) (Some handles) (se_sign s) (se_verify s).
Definition next_find_batch (max : Z) (s : Session) : Session * option (list Z) :=
  match se_find s with
  | None => (s, None)
  | Some remaining =>
      let wanted := Z.to_nat (Z.min max (Z.of_nat (length remaining))) in
      (begin_find (drop wanted remaining) s, Some (take wanted remaining))
  end.
Definition take_find (s : Session) : Session * bool :=
  (mkSession (se_slot_id s) (se_flags s) None (se_sign s) (se_verify s), bool_decide (is_Some (se_find s))).
Definition set_sign (sign : option SignState) (s : Session) : Session :=
  mkSession (se_slot_id s) (se_flags s) (se_find s) sign (se_verify s).
Definition begin_sign (mechanism : Mechanism) : Session → Session := set_sign (Some mechanism).
Definition clear_sign : Session → Session := set_sign None.
Definition has_active_sign (s : Session) : bool := bool_decide (is_Some (se_sign s)).
Definition set_verify (verify : option SignState) (s : Session) : Session :=
  mkSession (se_slot_id s) (se_flags s) (se_find s) (se_sign s) verify.
Definition begin_verify (mechanism : Mechanism) : Session → Session := set_verify (Some mechanism).
Definition clear_verify : Session → Session := set_verify None.
Definition has_active_verify (s : Session) : bool := bool_decide (is_Some (se_verify s)).

Definition session_state (flags : Z) (logged_in : bool) : Z :=
  match negb (Z.land flags CKF_RW_SESSION =? 0), logged_in with
  | false, false => CKS_RO_PUBLIC_SESSION
  | false, true => CKS_RO_USER_FUNCTIONS
  | true, false => CKS_RW_PUBLIC_SESSION
  | true, true => CKS_RW_USER_FUNCTIONS
  end.

(** ** The PIN caches of the process *)

(** [PROCESS_PIN_CACHES], by reader name. *)
Record PinCaches := mkPinCaches { pc_heap : list PinSafetyCache; pc_process : gmap bytes nat }.
Definition update_cache (r : nat) (f : PinSafetyCache → PinSafetyCache) (p : PinCaches) : PinCaches :=
  mkPinCaches (alter f r (pc_heap p)) (pc_process p).
Definition cache_at (p : PinCaches) (r : nat) : option PinSafetyCache := pc_heap p !! r.

Inductive FineidCardObservation := Fco_Present | Fco_Absent | Fco_TemporarilyUnavailable.
Definition preserves_last_known_state (o : FineidCardObservation) : bool :=
  match o with Fco_TemporarilyUnavailable => true | _ => false end.

Definition saturating_next (n : Z) : Z := Z.min (n + 1) u32_max.

Section module.
Context `{X509View}.

Record ModuleState := mkModuleState
  { slots : list SlotRecord; next_slot_id : Z; sessions : gmap Z Session; next_session_handle : Z;
    pin_caches : gmap Z nat; token_cache : gmap Z TokenObjects; event_reported : gmap Z bool;
    remote_logged_in : gset Z }.

Definition set_slots (l : list SlotRecord) (m : ModuleState) : ModuleState :=
  mkModuleState l (next_slot_id m) (sessions m) (next_session_handle m) (pin_caches m) (token_cache m)
    (event_reported m) (remote_logged_in m).
Definition set_sessions (s : gmap Z Session) (m : ModuleState) : ModuleState :=
  mkModuleState (slots m) (next_slot_id m) s (next_session_handle m) (pin_caches m) (token_cache m)
    (event_reported m) (remote_logged_in m).
Definition set_pin_caches (c : gmap Z nat) (m : ModuleState) : ModuleState :=
  mkModuleState (slots m) (next_slot_id m) (sessions m) (next_session_handle m) c (token_cache m)
    (event_reported m) (remote_logged_in m).
Definition set_token_cache (c : gmap Z TokenObjects) (m : ModuleState) : ModuleState :=
  mkModuleState (slots m) (next_slot_id m) (sessions m) (next_session_handle m) (pin_caches m) c
    (event_reported m) (remote_logged_in m).
Definition set_event_reported (e : gmap Z bool) (m : ModuleState) : ModuleState :=
  mkModuleState (slots m) (next_slot_id m) (sessions m) (next_session_handle m) (pin_caches m) (token_cache m)
    e (remote_logged_in m).
Definition set_remote (r : gset Z) (m : ModuleState) : ModuleState :=
  mkModuleState (slots m) (next_slot_id m) (sessions m) (next_session_handle m) (pin_caches m) (token_cache m)
    (event_reported m) r.

(** [ModuleState::new] before its first refresh. *)
Definition empty_module : ModuleState := mkModuleState [] SLOT_ID_BASE ∅ SESSION_HANDLE_BASE ∅ ∅ ∅ ∅.

End module.

(** The module with the caches of the process, and the system beside them. *)
Abbreviation Live := (ModuleState * PinCaches)%type.
Abbreviation Sys X W := (Live * (X * W))%type.

Section operations.
Context `{X509View}.

(** ** Slots *)

Definition slot_ids (m : ModuleState) : list Z := map slot_id (slots m).
Definition slot (id : Z) (m : ModuleState) : option SlotRecord := List.find (λ s, slot_id s =? id) (slots m).
Definition reader_name (id : Z) (m : ModuleState) : option bytes := slot_reader_name <$> slot id m.
(** [position] of the slot of a reader. *)
Definition slot_of_reader (name : bytes) (m : ModuleState) : option (nat * SlotRecord) :=
  list_find (λ s, slot_reader_name s = name) (slots m).
Definition set_slot_present (pos : nat) (present : bool) (m : ModuleState) : ModuleState :=
  set_slots (alter (set_present present) pos (slots m)) m.
Definition push_slot (name : bytes) (present : bool) (ident : ReaderIdentity) (m : ModuleState) : ModuleState :=
  mkModuleState (slots m ++ [mkSlotRecord (next_slot_id m) name present ident]) (saturating_next (next_slot_id m))
    (sessions m) (next_session_handle m) (pin_caches m) (token_cache m) (event_reported m) (remote_logged_in m).
Definition cache_objects (id : Z) (objects : TokenObjects) (m : ModuleState) : ModuleState :=
  set_token_cache (<[id := objects]> (token_cache m)) m.

(** Clears what one slot holds, or every slot of the module. *)
Definition clear_slot_pin (id : Z) (m : ModuleState) (p : PinCaches) : PinCaches :=
  match pin_caches m !! id with
  | Some r => update_cache r PinSafetyCache_clear_positive p
  | None => p
  end.
Definition clear_all_positive_pins (m : ModuleState) (p : PinCaches) : PinCaches :=
  foldr (λ r p, update_cache r PinSafetyCache_clear_positive p) p (map_to_list (pin_caches m)).*2.

Definition invalidate_slot (id : Z) : Live → Live := λ '(m, p),
  (set_token_cache (delete id (token_cache m)) m, clear_slot_pin id m p).

Definition logout (id : Z) : Live → Live := λ '(m, p),
  (set_remote (remote_logged_in m ∖ {[id]}) m, clear_slot_pin id m p).

Definition set_remote_logged_in (id : Z) (logged_in : bool) (m : ModuleState) : ModuleState :=
  set_remote (if logged_in then remote_logged_in m ∪ {[id]} else remote_logged_in m ∖ {[id]}) m.

Definition is_logged_in (id : Z) : Live → bool := λ '(m, p),
  if match slot id m with Some s => is_remote (slot_reader_name s) | None => false end then true
  else if bool_decide (id ∈ remote_logged_in m) then true
  else match pin_caches m !! id ≫= cache_at p with
       | Some c => PinSafetyCache_has_positive_pin1 c
       | None => false
       end.

(** ** Sessions *)

Definition open_session (id flags : Z) (m : ModuleState) : ModuleState * Z :=
  let handle := next_session_handle m in
  (mkModuleState (slots m) (next_slot_id m) (<[handle := mkSession id flags None None None]> (sessions m))
     (saturating_next handle) (pin_caches m) (token_cache m) (event_reported m) (remote_logged_in m), handle).
Definition session (handle : Z) (m : ModuleState) : option Session := sessions m !! handle.
(** Through [session_mut]. *)
Definition update_session (handle : Z) (f : Session → Session) (m : ModuleState) : ModuleState :=
  set_sessions (alter f handle (sessions m)) m.

Definition sessions_on (id : Z) (m : ModuleState) : bool :=
  existsb (λ '(_, s), se_slot_id s =? id) (map_to_list (sessions m)).
Definition forget_login_if_no_sessions (id : Z) : Live → Live := λ '(m, p),
  if sessions_on id m then (m, p) else logout id (m, p).

Definition close_session (handle : Z) : Live → Live * bool := λ '(m, p),
  match sessions m !! handle with
  | None => ((m, p), false)
  | Some closed =>
      (forget_login_if_no_sessions (se_slot_id closed) (set_sessions (delete handle (sessions m)) m, p), true)
  end.
Definition close_all_sessions (id : Z) : Live → Live := λ '(m, p),
  logout id (set_sessions (filter (λ '(_, s), se_slot_id s ≠ id) (sessions m)) m, p).

(** ** Slot events *)

Fixpoint first_unreported (l : list SlotRecord) (reported : gmap Z bool) : option SlotRecord :=
  match l with
  | [] => None
  | s :: l => if bool_decide (reported !! slot_id s ≠ Some (slot_card_present s)) then Some s
              else first_unreported l reported
  end.
Definition take_slot_event (m : ModuleState) : ModuleState * option Z :=
  match first_unreported (slots m) (event_reported m) with
  | Some s => (set_event_reported (<[slot_id s := slot_card_present s]> (event_reported m)) m, Some (slot_id s))
  | None => (m, None)
  end.
End operations.

(** ** Readers *)

(** The trait [SlotProber] over a world [Y]. *)
Class SlotProber (Y : Type) `{Rapp} `{CertificateDecoder} `{X509View} := {
  prober_enumerate : act Y Z (list ReaderInfo);
  prober_probe : bytes → act Y Empty_set FineidCardObservation;
  prober_build_objects : bytes → act Y Z TokenObjects;
  prober_reader_identity : bytes → act Y Empty_set ReaderIdentity;
}.

Section refresh.
Context `{Rapp} `{CertificateDecoder} `{X509View} {Y : Type} `{!SlotProber Y}.

(** A FINEID card came to the slot of a reader. *)
Definition card_arrived (pos : nat) (id : Z) (objects : TokenObjects) : Live → Live := λ '(m, p),
  let '(m, p) := invalidate_slot id (set_slot_present pos true m, p) in (cache_objects id objects m, p).
Definition card_left (pos : nat) (id : Z) : Live → Live := λ '(m, p),
  invalidate_slot id (set_slot_present pos false m, p).
Definition slot_appeared (name : bytes) (ident : ReaderIdentity) (objects : TokenObjects) : Live → Live := λ '(m, p),
  (cache_objects (next_slot_id m) objects (push_slot name true ident m), p).

(** One round of the loop over the readers. *)
Definition refresh_reader (reader : ReaderInfo) : act (Live * Y) Empty_set unit :=
  let name := ri_id reader in
  do! observation := (if ri_card_present reader then in_system (prober_probe name) else act_ret Fco_Absent) in
  if preserves_last_known_state observation then act_ret tt
  else
    let aid_present := match observation with Fco_Present => true | _ => false end in
    λ '((m, p), y),
      match slot_of_reader name m with
      | Some (pos, s) =>
          if aid_present && negb (slot_card_present s) then
            match prober_build_objects name y with
            | (y, Ok objects) => ((card_arrived pos (slot_id s) objects (m, p), y), Ok tt)
            | (y, Err _) => (((m, p), y), Ok tt)
            | (y, Panic) => (((m, p), y), Panic)
            end
          else if slot_card_present s && negb aid_present then ((card_left pos (slot_id s) (m, p), y), Ok tt)
          else (((m, p), y), Ok tt)
      | None =>
          if aid_present then
            match prober_build_objects name y with
            | (y, Ok objects) =>
                match prober_reader_identity name y with
                | (y, Ok ident) => ((slot_appeared name ident objects (m, p), y), Ok tt)
                | (y, Err e) => (((m, p), y), Err e)
                | (y, Panic) => (((m, p), y), Panic)
                end
            | (y, Err _) => (((m, p), y), Ok tt)
            | (y, Panic) => (((m, p), y), Panic)
            end
          else (((m, p), y), Ok tt)
      end.

Fixpoint refresh_readers (readers : list ReaderInfo) : act (Live * Y) Empty_set unit :=
  match readers with
  | [] => act_ret tt
  | reader :: readers => do! _ := refresh_reader reader in refresh_readers readers
  end.

Definition refresh_slots_with : act (Live * Y) Z unit := λ '((m, p), y),
  match prober_enumerate y with
  | (y, Ok readers) => act_map_err (λ e : Empty_set, match e with end) (refresh_readers readers) ((m, p), y)
  | (y, Err error) => (((m, clear_all_positive_pins m p), y), Err error)
  | (y, Panic) => (((m, p), y), Panic)
  end.
End refresh.

(** ** The prober over PC/SC *)

(** The attributes a reader reports without a card, VendorName and VendorIfdVersion, if
    it can be reached. *)
Class ReaderAttributes (X : Type) := {
  direct_attributes : bytes → X → X * option (option bytes * option bytes);
}.

Definition vendor_text (value : bytes) : option bytes :=
  let name := trim_matches (λ c, bool_decide (c = [0]) || blank c) (String_from_utf8_lossy value) in
  if bool_decide (name = []) then None else Some name.
Definition version_of (value : bytes) : option IfdVersion :=
  match value with
  | _ :: _ :: minor :: major :: _ => Some (mkIfdVersion major minor)
  | _ => None
  end.
Definition read_reader_identity {X} `{ReaderAttributes X} (reader : bytes) : act X Empty_set ReaderIdentity := λ x,
  let '(x, attributes) := direct_attributes reader x in
  (x, Ok match attributes with
         | Some (vendor, version) => mkReaderIdentity (vendor ≫= vendor_text) (version ≫= version_of)
         | None => mkReaderIdentity None None
         end).

Section pcsc.
Context `{CardTransport T E} {X : Type} `{!ReaderBackend X T}.

Definition observation_of {TE} (r : result (Pkcs15Error TE) unit) : result Empty_set FineidCardObservation :=
  match r with
  | Ok _ => Ok Fco_Present
  | Err (P15_Transport _) => Ok Fco_TemporarilyUnavailable
  | Err (P15_Sw _) | Err (P15_Aid _) | Err P15_Empty | Err P15_TooLarge | Err (P15_InvalidData _) => Ok Fco_Absent
  | Panic => Panic
  end.
Definition probe_fineid_card (reader : bytes) : act X Empty_set FineidCardObservation := λ x,
  match backend_open_session reader Rac_Read x with
  | (x, Ok t) => let '(t, r) := select_pkcs15_application t in (backend_drop reader t x, observation_of r)
  | (x, Err _) => (x, Ok Fco_TemporarilyUnavailable)
  | (x, Panic) => (x, Panic)
  end.
End pcsc.

Section system.
Context `{Rapp} `{CertificateDecoder} `{X509View} `{Sha1Hash} `{Sha256Hash} `{CardTransport T E} {X W : Type}
  `{!ReaderBackend X T} `{!ReaderAttributes X} `{!Windows W} `{!CaFiles W} `{!PhoneSession W} `{!OsRng W}.

Definition reader_names (x : X) : X * result Z (list ReaderInfo) := act_map_err (λ _, CKR_DEVICE_ERROR) backend_enumerate x.
#[export] Instance PcscProber : SlotProber (X * W) := {
  prober_enumerate := on_card reader_names;
  prober_probe reader := on_card (probe_fineid_card reader);
  prober_build_objects name := build_token_objects name;
  prober_reader_identity reader := on_card (read_reader_identity reader);
}.

(** ** Slots of paired phones *)

Definition REMOTE_NAME : bytes := bytes_of_string "RefineID Remote (".
Definition hex_id_of (record : PairingRecord) : bytes := Hex_encode (PairId_as_bytes (pair_id record)).
Definition remote_name (record : PairingRecord) : bytes := RAPP_PREFIX ++ hex_id_of record.
Definition remote_serial (hex_id : bytes) : bytes := bytes_of_string "REMOTE-" ++ take 8 hex_id.
Definition remote_identity (record : PairingRecord) : ReaderIdentity :=
  mkReaderIdentity (Some (REMOTE_NAME ++ DisplayName_as_str (peer_display_name record) ++ bytes_of_string ")")) None.

(** The slots whose phone no longer offers a card: their ids, and the table. *)
Definition offers_nothing (offering : list bytes) (s : SlotRecord) : bool :=
  slot_card_present s && is_remote (slot_reader_name s) && negb (bool_decide (slot_reader_name s ∈ offering)).
Definition withdraw_slots (offering : list bytes) : Live → Live := λ '(m, p),
  let withdrawn := map slot_id (List.filter (offers_nothing offering) (slots m)) in
  foldl (λ '(m, p) id, invalidate_slot id (set_remote (remote_logged_in m ∖ {[id]}) m, p))
    (set_slots (map (λ s, if offers_nothing offering s then set_present false s else s) (slots m)) m, p) withdrawn.

(** One round of the loop over the pairings. *)
Definition refresh_pairing (record : PairingRecord) (parsed_objects : option TokenObjects) (m : ModuleState) : ModuleState :=
  let name := remote_name record in
  let card_present := bool_decide (is_Some parsed_objects) in
  let '(m, id) := match slot_of_reader name m with
                  | Some (pos, s) => (set_slot_present pos card_present m, slot_id s)
                  | None => (push_slot name card_present (remote_identity record) m, next_slot_id m)
                  end in
  match parsed_objects with
  | Some objects => cache_objects id objects m
  | None => m
  end.

Fixpoint refresh_pairings (store : ProtectedPairingStore (W:=W)) (now_ms : Z) (pairs : list PairingRecord)
  : act (Live * W) Empty_set unit := λ '((m, p), w),
  match pairs with
  | [] => (((m, p), w), Ok tt)
  | record :: pairs =>
      match (match offered_certificate store (pair_id record) now_ms with
             | Some cert => remote_token_objects (OwnedCert_as_der cert) (remote_serial (hex_id_of record)) w
             | None => (w, Err CKR_DEVICE_ERROR)
             end) with
      | (w, Panic) => (((m, p), w), Panic)
      | (w, r) => refresh_pairings store now_ms pairs ((refresh_pairing record (result_ok r) m, p), w)
      end
  end.

Definition refresh_remote_slots : act (Live * W) Empty_set unit := λ '(live, w),
  match load (unix_time_ms w) w with
  | (w, Ok store) =>
      let w := pps_world store in
      let now_ms := unix_time_ms w in
      let pairs := option_list (usable_pairing store) in
      let offering := map remote_name
        (List.filter (λ r, bool_decide (is_Some (offered_certificate store (pair_id r) now_ms))) pairs) in
      refresh_pairings store now_ms pairs (withdraw_slots offering live, w)
  | (w, Err _) => ((live, w), Ok tt)
  | (w, Panic) => ((live, w), Panic)
  end.

(** A step of the operating system alone, beside the readers. *)
Definition beside_readers {F A} (m : act (Live * W) F A) : act (Sys X W) F A :=
  λ '(live, (x, w)), let '((live, w), r) := m (live, w) in ((live, (x, w)), r).
Definition no_error {S F A} (m : act S Empty_set A) : act S F A := act_map_err (λ e : Empty_set, match e with end) m.

Definition refresh_slots : act (Sys X W) Z unit :=
  do! _ := act_attempt (F:=Z) refresh_slots_with in
  no_error (beside_readers refresh_remote_slots).

(** ** PIN caches and objects *)

Definition FINGERPRINT_KEY_BYTES : nat := 32.

Definition pin_cache (id : Z) : act (Sys X W) Z nat := λ '((m, p), (x, w)),
  match pin_caches m !! id with
  | Some r => (((m, p), (x, w)), Ok r)
  | None =>
      match reader_name id m with
      | None => (((m, p), (x, w)), Err CKR_DEVICE_ERROR)
      | Some name =>
          match pc_process p !! name with
          | Some r => (((set_pin_caches (<[id := r]> (pin_caches m)) m, p), (x, w)), Ok r)
          | None =>
              let '(w, key) := rng_fill FINGERPRINT_KEY_BYTES w in
              match PinSafetyCache_new key with
              | Ok cache =>
                  let r := length (pc_heap p) in
                  (((set_pin_caches (<[id := r]> (pin_caches m)) m,
                     mkPinCaches (pc_heap p ++ [cache]) (<[name := r]> (pc_process p))), (x, w)), Ok r)
              | Err _ => (((m, p), (x, w)), Err CKR_DEVICE_ERROR)
              | Panic => (((m, p), (x, w)), Panic)
              end
          end
      end
  end.

Definition remote_objects (hex_id : bytes) : act W Z TokenObjects :=
  do! store := load_pairings in
  do! paired := act_lift (ok_or (serving_pair hex_id store) CKR_DEVICE_ERROR) in
  λ w, match offered_certificate store (pair_id paired) (unix_time_ms w) with
       | Some cert => remote_token_objects (OwnedCert_as_der cert) (remote_serial hex_id) w
       | None => (w, Err CKR_TOKEN_NOT_PRESENT)
       end.

Definition ensure_token (id : Z) : act (Sys X W) Z TokenObjects := λ '((m, p), y),
  match token_cache m !! id with
  | Some cached => (((m, p), y), Ok cached)
  | None =>
      match reader_name id m with
      | None => (((m, p), y), Err CKR_DEVICE_ERROR)
      | Some name =>
          match (match strip_prefix RAPP_PREFIX name with
                 | Some hex_id => in_system (remote_objects hex_id) y
                 | None => build_token_objects name y
                 end) with
          | (y, Ok objects) => (((cache_objects id objects m, p), y), Ok objects)
          | (y, r) => (((m, p), y), r)
          end
      end
  end.
End system.

(** ** Lemmas *)

Section event_lemmas.
Context `{X509View}.

Definition unreported (reported : gmap Z bool) (s : SlotRecord) : Prop :=
  reported !! slot_id s ≠ Some (slot_card_present s).
#[export] Instance unreported_dec reported s : Decision (unreported reported s).
Proof. unfold unreported. apply _. Defined.

(** Polls until there is no event. *)
Fixpoint poll_events (fuel : nat) (m : ModuleState) : ModuleState * list Z :=
  match fuel with
  | O => (m, [])
  | S fuel =>
      match take_slot_event m with
      | (m, None) => (m, [])
      | (m, Some id) => let '(m, ids) := poll_events fuel m in (m, id :: ids)
      end
  end.

Lemma first_unreported_split l reported s : first_unreported l reported = Some s →
  ∃ before after, l = before ++ s :: after ∧ Forall (λ s, ¬ unreported reported s) before ∧ unreported reported s.
Proof.
  induction l as [|x l IH]; [done|]. cbn. case_bool_decide as Hx.
  - intros [= ->]. by exists [], l.
  - intros (before & after & -> & Hb & Hs)%IH. exists (x :: before), after. split; [done|]. split; [|done].
    constructor; [by intros Hn|done].
Qed.

Lemma first_unreported_None l reported : first_unreported l reported = None ↔ Forall (λ s, ¬ unreported reported s) l.
Proof.
  induction l as [|x l IH]; cbn; [by split|]. case_bool_decide as Hx.
  - split; [done|]. by intros [[] _]%Forall_cons_1.
  - rewrite IH. split; [intros; constructor; [by intros Hn|done]|]. by intros [_ ?]%Forall_cons_1.
Qed.

(** Reporting one slot leaves the slots with other ids as they are. *)
Lemma unreported_other reported s l : slot_id s ∉ map slot_id l →
  filter (unreported (<[slot_id s := slot_card_present s]> reported)) l = filter (unreported reported) l.
Proof.
  induction l as [|x l IH]; [done|]. cbn [map]. rewrite not_elem_of_cons. intros [Hne Hl]. rewrite !filter_cons, (IH Hl).
  assert (unreported (<[slot_id s := slot_card_present s]> reported) x ↔ unreported reported x) as Hx.
  { unfold unreported. by rewrite lookup_insert_ne. }
  destruct (decide (unreported _ x)) as [Hu|Hu]; rewrite Hx in Hu; by destruct (decide (unreported reported x)).
Qed.

Lemma filter_none {A} (P : A → Prop) `{!∀ x, Decision (P x)} l : Forall (λ x, ¬ P x) l → filter P l = [].
Proof. induction 1 as [|x l Hx _ IH]; [done|]. by rewrite filter_cons_False. Qed.
End event_lemmas.

(** ** Properties *)

(** Every change of a slot is reported once. When slot ids are distinct, polling
    gives the slots whose presence differs from what was reported last, each once and in
    the order of the table, and then nothing more; the table itself does not change. *)
Theorem slot_events_reported_once `{X509View} (m : ModuleState)
  (Hids : NoDup (slot_ids m)) :
  let '(m', events) := poll_events (S (length (slots m))) m in
  events = map slot_id (filter (unreported (event_reported m)) (slots m))
  ∧ take_slot_event m' = (m', None) ∧ slots m' = slots m
  ∧ ∀ s, s ∈ slots m → event_reported m' !! slot_id s = Some (slot_card_present s).
Proof.
  remember (S (length (slots m))) as fuel eqn:Hfuel.
  assert (length (filter (unreported (event_reported m)) (slots m)) < fuel)%nat as Hlen
    by (subst fuel; pose proof (length_filter (unreported (event_reported m)) (slots m)); lia).
  clear Hfuel. revert m Hids Hlen. induction fuel as [|fuel IH]; intros m Hids Hlen; [lia|]. cbn [poll_events].
  unfold take_slot_event at 1. destruct (first_unreported (slots m) (event_reported m)) as [s|] eqn:Hf.
  - destruct (first_unreported_split _ _ _ Hf) as (before & after & Hsl & Hb & Hs).
    set (m1 := set_event_reported _ m). unfold slot_ids in Hids. rewrite Hsl, map_app, map_cons in Hids.
    apply list.NoDup_app in Hids as (Hnb & Hdis & Hna). apply list.NoDup_cons in Hna as [Hsa Hna].
    assert (slot_id s ∉ map slot_id before) as Hsb.
    { intros Hin. apply (Hdis _ Hin). by left. }
    assert (filter (unreported (event_reported m)) (slots m) = s :: filter (unreported (event_reported m)) after) as Hold.
    { rewrite Hsl, list.filter_app, (filter_none _ before Hb). by rewrite filter_cons_True. }
    assert (filter (unreported (event_reported m1)) (slots m1) = filter (unreported (event_reported m)) after) as Hnew.
    { unfold m1. cbn [slots event_reported set_event_reported]. rewrite Hsl, list.filter_app, filter_cons_False.
      - rewrite !unreported_other by done. by rewrite (filter_none _ before Hb).
      - unfold unreported. rewrite lookup_insert. case_decide; naive_solver. }
    specialize (IH m1). destruct (poll_events fuel m1) as [m' ids]. rewrite Hnew in IH.
    destruct IH as (-> & Hstop & Hslots & Hrep).
    { unfold slot_ids, m1. cbn [slots set_event_reported]. rewrite Hsl, map_app, map_cons.
      apply list.NoDup_app. split; [done|]. split; [done|]. by apply list.NoDup_cons. }
    { rewrite Hold in Hlen. cbn in Hlen. lia. }
    rewrite Hold. by split.
  - pose proof (proj1 (first_unreported_None _ _) Hf) as Hall. rewrite (filter_none _ _ Hall). split; [done|].
    split; [unfold take_slot_event; by rewrite Hf|]. split; [done|]. intros s Hs.
    rewrite list.Forall_forall in Hall. destruct (decide (unreported (event_reported m) s)) as [Hu|Hu].
    + by destruct (Hall s Hs).
    + unfold unreported in Hu. by destruct (decide (event_reported m !! slot_id s = Some (slot_card_present s))).
Qed.

Section state_witnesses.
Import plain.

Definition two_slots : ModuleState :=
  set_event_reported {[2 := true]}
    (push_slot [0x42] false (mkReaderIdentity None None) (push_slot [0x41] true (mkReaderIdentity None None) empty_module)).

Lemma slot_events_reported_once_witness :
  poll_events 3 two_slots = ((poll_events 3 two_slots).1, [1; 2])
  ∧ take_slot_event (poll_events 3 two_slots).1 = ((poll_events 3 two_slots).1, None).
Proof.
  split; [by vm_compute|]. assert (NoDup (slot_ids two_slots)) as Hids by by_decide.
  pose proof (slot_events_reported_once two_slots Hids) as Hp. cbn [length slots two_slots] in Hp.
  change (S (length (slots two_slots))) with 3%nat in Hp. destruct (poll_events 3 two_slots) as [m events]. apply Hp.
Defined.
End state_witnesses.
