(* ===== verification/Pkcs11Api.v ===== *)
(** The entry points of the PKCS#11 module: crates/refineid-pkcs11/src/api.rs. A pointer
    of the caller is [None] when it is null; otherwise it is what can be read behind it,
    and what the call writes is part of its answer. Every call runs under the lock of the
    module; [C_Login], [C_Sign], [C_SetPIN] and [C_GetTokenInfo] let go of it before they
    talk to the card, and what other threads do meanwhile is an argument. *)

From stdpp Require Import gmap.
From S2P Require Import Prelude CryptoCrates Utf8 StatusWord Transport Apdu Pin Auth RetryFloor Pkcs15 PinLengths PinOps.
From S2P Require Import TokenInfo CardPin PinCache Rapp PairingStore ProtectedStore Pace Wire Cryptoki.
From S2P Require Import Pkcs11Sign Pkcs11Token CaCache Pkcs11Card Pkcs11Remote Pkcs11State.

Record CkVersion := mkCkVersion { major : Z; minor : Z }.
Record CkInfo := mkCkInfo
  { ci_cryptoki_version : CkVersion; ci_manufacturer_id : bytes; ci_flags : Z; ci_library_description : bytes;
    ci_library_version : CkVersion }.
Record CkSlotInfo := mkCkSlotInfo
  { csl_slot_description : bytes; csl_manufacturer_id : bytes; csl_flags : Z; csl_hardware_version : CkVersion;
    csl_firmware_version : CkVersion }.
Record CkTokenInfo := mkCkTokenInfo
  { ct_label : bytes; ct_manufacturer_id : bytes; ct_model : bytes; ct_serial_number : bytes; ct_flags : Z;
    ct_max_session_count : Z; ct_session_count : Z; ct_max_rw_session_count : Z; ct_rw_session_count : Z;
    ct_max_pin_len : Z; ct_min_pin_len : Z; ct_total_public_memory : Z; ct_free_public_memory : Z;
    ct_total_private_memory : Z; ct_free_private_memory : Z; ct_hardware_version : CkVersion;
    ct_firmware_version : CkVersion; ct_utc_time : bytes }.
Record CkSessionInfo := mkCkSessionInfo { csi_slot_id : Z; csi_state : Z; csi_flags : Z; csi_device_error : Z }.
Record CkMechanismInfo := mkCkMechanismInfo { cm_min_key_size : Z; cm_max_key_size : Z; cm_flags : Z }.
(** [p_value] is what the caller put behind the pointer. *)
Record CkAttribute := mkCkAttribute { attr_type : Z; p_value : option bytes; ul_value_len : Z }.

Definition CRYPTOKI_VERSION : CkVersion := mkCkVersion 2 40.
Definition RSA_KEY_BITS : Z := 3072.
Definition EC_KEY_BITS : Z := 384.
Definition TOKEN_LABEL_IDENTIFY : bytes := bytes_of_string "Basic (PIN 1)".
Definition TOKEN_LABEL_REMOTE : bytes := bytes_of_string "RefineID Remote (PIN 1)".

(** Evaluated while the crate is compiled; [Panic] stops the build. *)
Fixpoint version_digits (bs : bytes) (value : Z) : result Empty_set Z :=
  match bs with
  | [] => Ok value
  | digit :: rest =>
      if negb (within 0x30 0x39 digit) then Panic
      else
        let scaled := value * 10 in
        if 255 <? scaled then Panic
        else
          let total := scaled + (digit - 0x30) in
          if 255 <? total then Panic else version_digits rest total
  end.
Definition version_component (text : bytes) : result Empty_set Z :=
  if bool_decide (text = []) then Panic else version_digits text 0.

(** A [c_ulong] has 32 bits on Windows and a [usize] has 64. *)
Definition ulong_from_usize (value : Z) : Z := if value <=? u32_max then value else u32_max.
Definition usize_from_ulong (value : Z) : Z := value.

Definition padded_field (n : nat) (text : bytes) : bytes := take n (text ++ replicate n 0x20).
Definition tail_padded_field (n : nat) (text : bytes) : bytes :=
  let skip := (length text - n)%nat in take n (drop skip text ++ replicate n 0x20).

(** The return value, the length written to [dst_len] and the octets copied, if any. *)
Definition deliver_bytes (dst_null : bool) (capacity : Z) (src : bytes) : Z * Z * option bytes :=
  if dst_null then (CKR_OK, ulong_from_usize (len src), None)
  else if usize_from_ulong capacity <? len src then (CKR_BUFFER_TOO_SMALL, ulong_from_usize (len src), None)
  else (CKR_OK, ulong_from_usize (len src), Some src).
Definition write_handle_list (list_null : bool) (capacity : Z) (ids : list Z) : Z * Z * option (list Z) :=
  let n := Z.of_nat (length ids) in
  if list_null then (CKR_OK, ulong_from_usize n, None)
  else if usize_from_ulong capacity <? n then (CKR_BUFFER_TOO_SMALL, ulong_from_usize n, None)
  else (CKR_OK, ulong_from_usize n, Some ids).

Definition classify_pin_error (error : PinRoleError) : Z :=
  match error with
  | Pre_NonDigit _ => CKR_PIN_INVALID
  | Pre_Empty | Pre_WrongLength _ _ _ => CKR_PIN_LEN_RANGE
  end.

Definition user_pin_status_flags (status : PinStatus) : Z :=
  match status with
  | Ps_Remaining retries =>
      match PinRetryRisk_from_retries retries with
      | Some Prr_NormalOperatingConditions | None => 0
      | Some Prr_DisturbanceDetected => CKF_USER_PIN_COUNT_LOW
      | Some Prr_SecurityIncidentDeclared => Z.lor CKF_USER_PIN_COUNT_LOW CKF_USER_PIN_FINAL_TRY
      | Some Prr_CriticalThreatLevel | Some Prr_LockdownImminent | Some Prr_DefencesFallen =>
          Z.lor CKF_USER_PIN_COUNT_LOW CKF_USER_PIN_LOCKED
      end
  | Ps_Locked => CKF_USER_PIN_LOCKED
  | _ => 0
  end.

Section attributes.
Context `{CertificateDecoder} `{X509View}.

(** What the caller's template says, and what an attribute call leaves in each cell: the
    octets written behind the pointer, if any, and the length. *)
Definition read_template (template : list CkAttribute) : list (Z * bytes) :=
  map (λ entry, (attr_type entry,
                 match p_value entry with
                 | None => []
                 | Some value => if usize_from_ulong (ul_value_len entry) =? 0 then []
                                 else take (Z.to_nat (ul_value_len entry)) value
                 end)) template.

Definition fill_one_attribute (entry : CkAttribute) (value : option AttrValue) : Z * (option bytes * Z) :=
  match value with
  | None => (CKR_ATTRIBUTE_TYPE_INVALID, (None, CK_UNAVAILABLE_INFORMATION))
  | Some Av_Sensitive => (CKR_ATTRIBUTE_SENSITIVE, (None, CK_UNAVAILABLE_INFORMATION))
  | Some val =>
      let bs := match AttrValue_as_bytes val with Some bs => bs | None => [] end in
      match p_value entry with
      | None => (CKR_OK, (None, ulong_from_usize (len bs)))
      | Some _ =>
          if usize_from_ulong (ul_value_len entry) <? len bs
          then (CKR_BUFFER_TOO_SMALL, (None, ulong_from_usize (len bs)))
          else (CKR_OK, (Some bs, ulong_from_usize (len bs)))
      end
  end.

(** The last failure wins; every cell is filled. *)
Definition fill_attributes (token : TokenObjects) (kind : ObjectKind) (template : list CkAttribute)
  : Z * list (option bytes * Z) :=
  foldl (λ '(result, cells) entry,
           let '(entry_result, cell) := fill_one_attribute entry (attribute token kind (attr_type entry)) in
           ((if negb (entry_result =? CKR_OK) then entry_result else result), cells ++ [cell]))
    (CKR_OK, []) template.
End attributes.

Section values.
(** Whether the crate is built with the feature pin-change, its version, and the version
    the build gives the token. *)
Context (pin_change : bool) (LIBRARY_VERSION TOKEN_FIRMWARE_VERSION : CkVersion).

Definition TOKEN_HARDWARE_VERSION : CkVersion := LIBRARY_VERSION.

Definition token_info_value (serial : bytes) (pin1_status : PinStatus) (remote : bool) : CkTokenInfo :=
  let base_flags := Z.lor (Z.lor CKF_LOGIN_REQUIRED CKF_USER_PIN_INITIALIZED) CKF_TOKEN_INITIALIZED in
  let base_flags := if pin_change then base_flags else Z.lor base_flags CKF_WRITE_PROTECTED in
  mkCkTokenInfo (padded_field 32 (if remote then TOKEN_LABEL_REMOTE else TOKEN_LABEL_IDENTIFY))
    (padded_field 32 (bytes_of_string "RefineID")) (padded_field 16 (bytes_of_string "FINEID"))
    (tail_padded_field 16 serial)
    (if remote
     then Z.lor (Z.lor (Z.lor CKF_USER_PIN_INITIALIZED CKF_TOKEN_INITIALIZED) CKF_WRITE_PROTECTED)
            CKF_PROTECTED_AUTHENTICATION_PATH
     else Z.lor base_flags (user_pin_status_flags pin1_status))
    CK_EFFECTIVELY_INFINITE CK_UNAVAILABLE_INFORMATION CK_EFFECTIVELY_INFINITE CK_UNAVAILABLE_INFORMATION
    (ulong_from_usize PIN1_MAX_DIGITS) (ulong_from_usize PIN1_MIN_DIGITS)
    CK_UNAVAILABLE_INFORMATION CK_UNAVAILABLE_INFORMATION CK_UNAVAILABLE_INFORMATION CK_UNAVAILABLE_INFORMATION
    TOKEN_HARDWARE_VERSION TOKEN_FIRMWARE_VERSION (padded_field 16 []).

Definition info_value : CkInfo :=
  mkCkInfo CRYPTOKI_VERSION (padded_field 32 (bytes_of_string "RefineID")) 0
    (padded_field 32 (bytes_of_string "RefineID FINEID PKCS11")) LIBRARY_VERSION.

Definition slot_info_value (s : SlotRecord) : CkSlotInfo :=
  let flags := Z.lor CKF_HW_SLOT CKF_REMOVABLE_DEVICE in
  let flags := if slot_card_present s then Z.lor flags CKF_TOKEN_PRESENT else flags in
  let manufacturer := match vendor_name (slot_identity s) with Some name => name | None => [] end in
  let hardware_version := match ifd_version (slot_identity s) with
                          | Some ifd => mkCkVersion (ifd_major ifd) (ifd_minor ifd)
                          | None => mkCkVersion 0 0
                          end in
  mkCkSlotInfo (padded_field 64 (slot_reader_name s)) (padded_field 32 manufacturer) flags hardware_version hardware_version.

Definition mechanism_info_value (m : Mechanism) : CkMechanismInfo :=
  match m with
  | Mech_RsaPkcs => mkCkMechanismInfo RSA_KEY_BITS RSA_KEY_BITS CKF_SIGN
  | Mech_Ecdsa => mkCkMechanismInfo EC_KEY_BITS EC_KEY_BITS
                    (Z.lor (Z.lor (Z.lor CKF_SIGN CKF_EC_F_P) CKF_EC_NAMEDCURVE) CKF_EC_UNCOMPRESS)
  end.
End values.

(** ** The calls *)

(** [MODULE], the PIN caches of the process and the system. *)
Abbreviation Process X W := (option ModuleState * PinCaches * (X * W))%type.

Section calls.
Context `{Rapp} `{CertificateDecoder} `{X509View} `{Sha1Hash} `{Sha256Hash} `{HmacSha256} `{CardTransport T E} {X W : Type}
  `{!ReaderBackend X T} `{!ReaderAttributes X} `{!Windows W} `{!CaFiles W} `{!PhoneSession W} `{!OsRng W}.
Context {R O : Type} `{PasswordLengthRange R} `{!AuthenticationObjectsOps R O}.
Context (pin_change : bool) (LIBRARY_VERSION TOKEN_FIRMWARE_VERSION : CkVersion).
(** [std::env::var], for the origin of a signature by a phone. *)
Context (env_text : bytes → W → option bytes).

(** Under the lock of the module, which must be initialised. *)
Definition with_module {A} (m : act (Sys X W) Z A) : act (Process X W) Z A := λ '((o, p), y),
  match o with
  | None => (((None, p), y), Err CKR_CRYPTOKI_NOT_INITIALIZED)
  | Some module => let '(((module, p), y), r) := m ((module, p), y) in (((Some module, p), y), r)
  end.
(** A look at the module, and a change of it. *)
Definition consult {A} (f : Live → A) : act (Sys X W) Z A := λ '(live, y), ((live, y), Ok (f live)).
Definition change {A} (f : Live → Live * A) : act (Sys X W) Z A := λ '(live, y),
  let '(live, a) := f live in ((live, y), Ok a).
Definition change_module {A} (f : ModuleState → ModuleState * A) : act (Sys X W) Z A :=
  change (λ '(m, p), let '(m, a) := f m in ((m, p), a)).
Definition update_module (f : ModuleState → ModuleState) : act (Sys X W) Z unit := change_module (λ m, (f m, tt)).
Definition require {A} (o : option A) (error : Z) : act (Sys X W) Z A := act_lift (ok_or o error).

(** A step at the readers alone, and one at the readers and a PIN cache. *)
Definition at_readers {A} (m : act X Z A) : act (Process X W) Z A := λ '(s, (x, w)), let '(x, r) := m x in ((s, (x, w)), r).
Definition at_cache {A} (r : nat) (m : act (X * PinSafetyCache * W) Z A) : act (Process X W) Z A := λ '((o, p), (x, w)),
  match cache_at p r with
  | Some c => let '(((x, c), w), a) := m ((x, c), w) in (((o, update_cache r (λ _, c) p), (x, w)), a)
  | None => (((o, p), (x, w)), Panic)
  end.

(** [init_args]: whether [p_reserved] is null. *)
Definition c_initialize (init_args : option bool) : act (Process X W) Z unit := λ '((o, p), y),
  match init_args with
  | Some false => (((o, p), y), Err CKR_ARGUMENTS_BAD)
  | _ =>
      match o with
      | Some _ => (((o, p), y), Err CKR_CRYPTOKI_ALREADY_INITIALIZED)
      | None => let '(((m, p), y), r) := refresh_slots ((empty_module, p), y) in (((Some m, p), y), r)
      end
  end.

Definition c_finalize (reserved_null : bool) : act (Process X W) Z unit := λ '((o, p), y),
  if negb reserved_null then (((o, p), y), Err CKR_ARGUMENTS_BAD)
  else
    match o with
    | None => (((o, p), y), Err CKR_CRYPTOKI_NOT_INITIALIZED)
    | Some m => (((None, clear_all_positive_pins m p), y), Ok tt)
    end.

Definition c_get_info (info_null : bool) : act (Process X W) Z CkInfo :=
  if info_null then act_err CKR_ARGUMENTS_BAD else act_ret (info_value LIBRARY_VERSION).

Definition c_get_slot_list (token_present : Z) (list_null : bool) (count : option Z)
  : act (Process X W) Z (Z * Z * option (list Z)) :=
  match count with
  | None => act_err CKR_ARGUMENTS_BAD
  | Some capacity =>
      do! ids := with_module (
        do! _ := refresh_slots in
        consult (λ '(m, _),
          let only_present := negb (token_present =? 0) in
          List.filter (λ id, negb only_present || match slot id m with Some s => slot_card_present s | None => false end)
            (slot_ids m))) in
      act_ret (write_handle_list list_null capacity ids)
  end.

Definition c_get_slot_info (id : Z) (info_null : bool) : act (Process X W) Z CkSlotInfo :=
  if info_null then act_err CKR_ARGUMENTS_BAD
  else with_module (
    do! s := consult (λ '(m, _), slot id m) in
    do! s := require s CKR_SLOT_ID_INVALID in
    act_ret (slot_info_value s)).

(** The part of [C_GetTokenInfo] under the lock. *)
Definition token_info_check (id : Z) : act (Process X W) Z (bytes * bytes) :=
  with_module (
    do! s := consult (λ '(m, _), slot id m) in
    do! s := require s CKR_SLOT_ID_INVALID in
    if slot_card_present s then
      do! objects := ensure_token id in
      act_ret (slot_reader_name s, token_serial objects)
    else act_err CKR_TOKEN_NOT_PRESENT).
Definition c_get_token_info (id : Z) (info_null : bool) : act (Process X W) Z CkTokenInfo :=
  if info_null then act_err CKR_ARGUMENTS_BAD
  else
    do! (reader, serial) := token_info_check id in
    do! pin1_status := at_readers (card_pin1_status reader) in
    act_ret (token_info_value pin_change LIBRARY_VERSION TOKEN_FIRMWARE_VERSION serial pin1_status (is_remote reader)).

Definition card_mechanism (id : Z) : act (Process X W) Z Mechanism :=
  with_module (
    do! s := consult (λ '(m, _), slot id m) in
    do! s := require s CKR_SLOT_ID_INVALID in
    if negb (slot_card_present s) then act_err CKR_TOKEN_NOT_PRESENT
    else
      do! objects := ensure_token id in
      act_ret (TokenObjects_mechanism objects)).

Definition c_get_mechanism_list (id : Z) (list_null : bool) (count : option Z)
  : act (Process X W) Z (Z * Z * option (list Z)) :=
  match count with
  | None => act_err CKR_ARGUMENTS_BAD
  | Some capacity =>
      do! mechanism := card_mechanism id in
      act_ret (write_handle_list list_null capacity [Mechanism_ck_type mechanism])
  end.

Definition c_get_mechanism_info (id mechanism : Z) (info_null : bool) : act (Process X W) Z CkMechanismInfo :=
  if info_null then act_err CKR_ARGUMENTS_BAD
  else
    do! card_mech := card_mechanism id in
    if bool_decide (Mechanism_from_ck_type mechanism = Some card_mech) then act_ret (mechanism_info_value card_mech)
    else act_err CKR_MECHANISM_INVALID.

Definition c_open_session (id flags : Z) (session_null : bool) : act (Process X W) Z Z :=
  if session_null then act_err CKR_ARGUMENTS_BAD
  else if Z.land flags CKF_SERIAL_SESSION =? 0 then act_err CKR_SESSION_PARALLEL_NOT_SUPPORTED
  else with_module (
    do! s := consult (λ '(m, _), slot id m) in
    do! s := require s CKR_SLOT_ID_INVALID in
    if negb (slot_card_present s) then act_err CKR_TOKEN_NOT_PRESENT
    else change_module (open_session id flags)).

Definition c_close_session (handle : Z) : act (Process X W) Z unit :=
  with_module (
    do! closed := change (close_session handle) in
    if closed then act_ret tt else act_err CKR_SESSION_HANDLE_INVALID).

Definition c_close_all_sessions (id : Z) : act (Process X W) Z unit :=
  with_module (
    do! s := consult (λ '(m, _), slot id m) in
    do! _ := require s CKR_SLOT_ID_INVALID in
    change (λ live, (close_all_sessions id live, tt))).

Definition live_session (handle : Z) : act (Sys X W) Z Session :=
  do! s := consult (λ '(m, _), session handle m) in
  require s CKR_SESSION_HANDLE_INVALID.

(** A method of a session that changes it and answers. *)
Definition session_mut {A} (handle : Z) (f : Session → Session * A) : act (Sys X W) Z A :=
  do! s := live_session handle in
  do! _ := update_module (update_session handle (λ s, (f s).1)) in
  act_ret (f s).2.

Definition c_get_session_info (handle : Z) (info_null : bool) : act (Process X W) Z CkSessionInfo :=
  if info_null then act_err CKR_ARGUMENTS_BAD
  else with_module (
    do! s := live_session handle in
    do! logged_in := consult (is_logged_in (se_slot_id s)) in
    act_ret (mkCkSessionInfo (se_slot_id s) (session_state (se_flags s) logged_in) (se_flags s) 0)).

(** The part of [C_Login] under the lock. [pin]: what the caller's pointer and length
    give. Nothing is left to do for a slot of a phone. *)
Definition login_check (handle user_type : Z) (pin : option bytes) : act (Process X W) Z (option (bytes * nat * PinBytes)) :=
  if negb (user_type =? CKU_USER) then act_err CKR_USER_TYPE_INVALID
  else
    with_module (
      do! s := live_session handle in
      let id := se_slot_id s in
      do! name := consult (λ '(m, _), reader_name id m) in
      do! name := require name CKR_DEVICE_ERROR in
      if is_remote name then
        do! _ := update_module (set_remote_logged_in id true) in
        act_ret None
      else
        do! logged_in := consult (is_logged_in id) in
        if logged_in then act_err CKR_USER_ALREADY_LOGGED_IN
        else
          do! caller_bytes := require pin CKR_ARGUMENTS_BAD in
          do! pin1 := act_lift (map_err classify_pin_error (PinBytes_new caller_bytes)) in
          do! _ := act_lift (map_err (λ _, CKR_PIN_LEN_RANGE)
                               (PinBytes_validate_digits pin1 PIN1_MIN_DIGITS PIN1_MAX_DIGITS)) in
          do! cache := pin_cache id in
          act_ret (Some (name, cache, pin1))).
(** The part at the card; [others] is what other threads do to the PIN cache meanwhile. *)
Definition login_at_card (others : PinSafetyCache → PinSafetyCache) (checked : option (bytes * nat * PinBytes))
  : act (Process X W) Z unit :=
  match checked with
  | None => act_ret tt
  | Some (name, cache, pin1) => at_cache cache (on_card (card_login name others pin1))
  end.
Definition c_login (handle user_type : Z) (pin : option bytes) (others : PinSafetyCache → PinSafetyCache)
  : act (Process X W) Z unit :=
  do! checked := login_check handle user_type pin in
  login_at_card others checked.

Definition c_logout (handle : Z) : act (Process X W) Z unit :=
  with_module (
    do! s := live_session handle in
    let id := se_slot_id s in
    do! logged_in := consult (is_logged_in id) in
    if negb logged_in then act_err CKR_USER_NOT_LOGGED_IN
    else change (λ live, (logout id live, tt))).

(** ** Objects *)

(** [template] null, with the count given; or the cells. *)
Definition c_find_objects_init (handle : Z) (template : option (list CkAttribute)) (count : Z) : act (Process X W) Z unit :=
  if negb (bool_decide (is_Some template)) && negb (count =? 0) then act_err CKR_ARGUMENTS_BAD
  else
    let parsed := read_template (match template with Some cells => cells | None => [] end) in
    with_module (
      do! s := live_session handle in
      do! token := ensure_token (se_slot_id s) in
      update_module (update_session handle (begin_find (matching_handles token parsed)))).

Definition c_find_objects (handle : Z) (object_null : bool) (max_count : Z) (count_null : bool) : act (Process X W) Z (list Z) :=
  if object_null || count_null then act_err CKR_ARGUMENTS_BAD
  else with_module (
    do! batch := session_mut handle (next_find_batch (usize_from_ulong max_count)) in
    require batch CKR_OPERATION_NOT_INITIALIZED).

Definition c_find_objects_final (handle : Z) : act (Process X W) Z unit :=
  with_module (
    do! had_find := session_mut handle take_find in
    if had_find then act_ret tt else act_err CKR_OPERATION_NOT_INITIALIZED).

Definition c_get_attribute_value (handle object : Z) (template : option (list CkAttribute))
  : act (Process X W) Z (Z * list (option bytes * Z)) :=
  match template with
  | None => act_err CKR_ARGUMENTS_BAD
  | Some cells =>
      match ObjectKind_from_handle object with
      | None => act_err CKR_OBJECT_HANDLE_INVALID
      | Some kind =>
          do! token := with_module (
            do! s := live_session handle in
            do! token := ensure_token (se_slot_id s) in
            if negb (object_exists token kind) then act_err CKR_OBJECT_HANDLE_INVALID else act_ret token) in
          act_ret (fill_attributes token kind cells)
      end
  end.

(** ** Signatures *)

(** [C_SignInit] and [C_VerifyInit]: the key they need, whether an operation is under
    way, and how one begins. *)
Definition operation_init (key_object : Z) (active : Session → bool) (begin : Mechanism → Session → Session)
  (handle : Z) (mechanism : option Z) (key : Z) : act (Process X W) Z unit :=
  match mechanism with
  | None => act_err CKR_ARGUMENTS_BAD
  | Some requested =>
      if negb (key =? key_object) then act_err CKR_KEY_HANDLE_INVALID
      else
        match Mechanism_from_ck_type requested with
        | None => act_err CKR_MECHANISM_INVALID
        | Some requested_mechanism =>
            with_module (
              do! s := live_session handle in
              if active s then act_err CKR_OPERATION_ACTIVE
              else
                do! token := ensure_token (se_slot_id s) in
                if negb (bool_decide (TokenObjects_mechanism token = requested_mechanism)) then act_err CKR_MECHANISM_INVALID
                else update_module (update_session handle (begin requested_mechanism)))
        end
  end.
Definition c_sign_init : Z → option Z → Z → act (Process X W) Z unit :=
  operation_init OBJ_PRIVATE_KEY has_active_sign begin_sign.
Definition c_verify_init : Z → option Z → Z → act (Process X W) Z unit :=
  operation_init OBJ_PUBLIC_KEY has_active_verify begin_verify.

Definition module_clear_sign (handle : Z) : ModuleState → ModuleState := update_session handle clear_sign.

(** A null pointer and a length of zero both give no data. *)
Definition caller_data (data : option bytes) : bytes := match data with Some data => data | None => [] end.

(** The part of [C_Sign] under the lock: an answer without the card, or what the card is
    asked with. *)
Definition sign_check (handle : Z) (signature_null : bool) (capacity : Z)
  : act (Process X W) Z (Z * Z * option bytes + bytes * nat * Mechanism) :=
  with_module (
    do! s := live_session handle in
    let id := se_slot_id s in
    do! mechanism := require (se_sign s) CKR_OPERATION_NOT_INITIALIZED in
    let needed := ulong_from_usize (Mechanism_signature_len mechanism) in
    if signature_null then act_ret (inl (CKR_OK, needed, None))
    else if usize_from_ulong capacity <? Mechanism_signature_len mechanism then act_ret (inl (CKR_BUFFER_TOO_SMALL, needed, None))
    else
      do! name := consult (λ '(m, _), reader_name id m) in
      match name with
      | None =>
          do! _ := update_module (module_clear_sign handle) in
          act_err CKR_DEVICE_ERROR
      | Some name =>
          do! cache := act_attempt (F:=Z) (pin_cache id) in
          do! _ := update_module (module_clear_sign handle) in
          do! cache := act_lift cache in
          act_ret (inr (name, cache, mechanism))
      end).
(** The session and the module are looked at again before the signature is delivered;
    [meanwhile] is what other threads made of the module while the card signed. *)
Definition sign_deliver (handle : Z) (signature_null : bool) (capacity : Z)
  (meanwhile : option ModuleState → option ModuleState) (bs : bytes) : act (Process X W) Z (Z * Z * option bytes) :=
  λ '((o, p), y),
    match meanwhile o with
    | None => (((None, p), y), Err CKR_CRYPTOKI_NOT_INITIALIZED)
    | Some m =>
        match session handle m with
        | None => (((Some m, p), y), Err CKR_SESSION_CLOSED)
        | Some _ => (((Some m, p), y), Ok (deliver_bytes signature_null capacity bs))
        end
    end.
Definition c_sign (handle : Z) (data : option bytes) (signature_null : bool) (signature_len : option Z)
  (others others' : PinSafetyCache → PinSafetyCache) (meanwhile : option ModuleState → option ModuleState)
  : act (Process X W) Z (Z * Z * option bytes) :=
  match signature_len with
  | None => act_err CKR_ARGUMENTS_BAD
  | Some capacity =>
      do! checked := sign_check handle signature_null capacity in
      match checked with
      | inl answer => act_ret answer
      | inr (name, cache, mechanism) =>
          do! bs := at_cache cache (card_sign env_text name others others' mechanism (caller_data data) None) in
          sign_deliver handle signature_null capacity meanwhile bs
      end
  end.

Definition c_verify (handle : Z) (data signature : option bytes) : act (Process X W) Z Z :=
  do! (mechanism, token) := with_module (
    do! s := live_session handle in
    do! mechanism := require (se_verify s) CKR_OPERATION_NOT_INITIALIZED in
    do! token := ensure_token (se_slot_id s) in
    do! _ := update_module (update_session handle clear_verify) in
    act_ret (mechanism, token)) in
  act_ret (verify_signature token mechanism (caller_data data) (caller_data signature)).

(** ** PIN change and slot events *)

Definition checked_pin (bs : bytes) : act (Process X W) Z PinBytes := act_lift (map_err classify_pin_error (PinBytes_new bs)).
Definition in_range (pin : PinBytes) : act (Process X W) Z unit :=
  act_lift (map_err (λ _, CKR_PIN_LEN_RANGE) (PinBytes_validate_digits pin PIN1_MIN_DIGITS PIN1_MAX_DIGITS)).

(** [C_SetPIN] up to the end of the part under the lock. *)
Definition set_pin_check (handle : Z) (old_pin new_pin : option bytes) : act (Process X W) Z (bytes * PinBytes * PinBytes) :=
  if negb pin_change then act_err CKR_FUNCTION_NOT_SUPPORTED
  else
    match old_pin, new_pin with
    | Some old_pin, Some new_pin =>
        do! current := checked_pin old_pin in
        do! new := checked_pin new_pin in
        do! _ := in_range current in
        do! _ := in_range new in
        with_module (
          do! s := live_session handle in
          let id := se_slot_id s in
          do! name := consult (λ '(m, _), reader_name id m) in
          do! name := require name CKR_DEVICE_ERROR in
          do! _ := change (λ live, (logout id live, tt)) in
          if is_remote name then act_err CKR_FUNCTION_NOT_SUPPORTED else act_ret (name, current, new))
    | _, _ => act_err CKR_ARGUMENTS_BAD
    end.
Definition c_set_pin (handle : Z) (old_pin new_pin : option bytes) : act (Process X W) Z unit :=
  do! (name, current, new) := set_pin_check handle old_pin new_pin in
  at_readers (card_change_pin1 (R:=R) (O:=O) name current new).

Definition c_wait_for_slot_event (flags : Z) (slot_null : bool) : act (Process X W) Z Z :=
  if Z.land flags CKF_DONT_BLOCK =? 0 then act_err CKR_FUNCTION_NOT_SUPPORTED
  else if slot_null then act_err CKR_ARGUMENTS_BAD
  else
    do! event := with_module (
      do! _ := refresh_slots in
      change_module take_slot_event) in
    match event with
    | Some id => act_ret id
    | None => act_err CKR_NO_EVENT
    end.

(** ** Entry points the module does not serve: they look at nothing. *)

Definition c_init_token : act (Process X W) Z unit := act_err CKR_TOKEN_WRITE_PROTECTED.
Definition c_init_pin : act (Process X W) Z unit := act_err CKR_FUNCTION_NOT_SUPPORTED.
Definition c_get_operation_state : act (Process X W) Z unit := act_err CKR_FUNCTION_NOT_SUPPORTED.
Definition c_set_operation_state : act (Process X W) Z unit := act_err CKR_FUNCTION_NOT_SUPPORTED.
Definition c_create_object : act (Process X W) Z unit := act_err CKR_FUNCTION_NOT_SUPPORTED.
Definition c_copy_object : act (Process X W) Z unit := act_err CKR_FUNCTION_NOT_SUPPORTED.
Definition c_destroy_object : act (Process X W) Z unit := act_err CKR_FUNCTION_NOT_SUPPORTED.
Definition c_get_object_size : act (Process X W) Z unit := act_err CKR_FUNCTION_NOT_SUPPORTED.
Definition c_set_attribute_value : act (Process X W) Z unit := act_err CKR_FUNCTION_NOT_SUPPORTED.
Definition c_encrypt_init : act (Process X W) Z unit := act_err CKR_FUNCTION_NOT_SUPPORTED.
Definition c_encrypt : act (Process X W) Z unit := act_err CKR_FUNCTION_NOT_SUPPORTED.
Definition c_encrypt_update : act (Process X W) Z unit := act_err CKR_FUNCTION_NOT_SUPPORTED.
Definition c_encrypt_final : act (Process X W) Z unit := act_err CKR_FUNCTION_NOT_SUPPORTED.
Definition c_decrypt_init : act (Process X W) Z unit := act_err CKR_FUNCTION_NOT_SUPPORTED.
Definition c_decrypt : act (Process X W) Z unit := act_err CKR_FUNCTION_NOT_SUPPORTED.
Definition c_decrypt_update : act (Process X W) Z unit := act_err CKR_FUNCTION_NOT_SUPPORTED.
Definition c_decrypt_final : act (Process X W) Z unit := act_err CKR_FUNCTION_NOT_SUPPORTED.
Definition c_digest_init : act (Process X W) Z unit := act_err CKR_FUNCTION_NOT_SUPPORTED.
Definition c_digest : act (Process X W) Z unit := act_err CKR_FUNCTION_NOT_SUPPORTED.
Definition c_digest_update : act (Process X W) Z unit := act_err CKR_FUNCTION_NOT_SUPPORTED.
Definition c_digest_key : act (Process X W) Z unit := act_err CKR_KEY_INDIGESTIBLE.
Definition c_digest_final : act (Process X W) Z unit := act_err CKR_FUNCTION_NOT_SUPPORTED.
Definition c_sign_update : act (Process X W) Z unit := act_err CKR_FUNCTION_NOT_SUPPORTED.
Definition c_sign_final : act (Process X W) Z unit := act_err CKR_FUNCTION_NOT_SUPPORTED.
Definition c_sign_recover_init : act (Process X W) Z unit := act_err CKR_KEY_FUNCTION_NOT_PERMITTED.
Definition c_sign_recover : act (Process X W) Z unit := act_err CKR_FUNCTION_NOT_SUPPORTED.
Definition c_verify_update : act (Process X W) Z unit := act_err CKR_FUNCTION_NOT_SUPPORTED.
Definition c_verify_final : act (Process X W) Z unit := act_err CKR_FUNCTION_NOT_SUPPORTED.
Definition c_verify_recover_init : act (Process X W) Z unit := act_err CKR_FUNCTION_NOT_SUPPORTED.
Definition c_verify_recover : act (Process X W) Z unit := act_err CKR_FUNCTION_NOT_SUPPORTED.
Definition c_digest_encrypt_update : act (Process X W) Z unit := act_err CKR_FUNCTION_NOT_SUPPORTED.
Definition c_decrypt_digest_update : act (Process X W) Z unit := act_err CKR_FUNCTION_NOT_SUPPORTED.
Definition c_sign_encrypt_update : act (Process X W) Z unit := act_err CKR_FUNCTION_NOT_SUPPORTED.
Definition c_decrypt_verify_update : act (Process X W) Z unit := act_err CKR_FUNCTION_NOT_SUPPORTED.
Definition c_generate_key : act (Process X W) Z unit := act_err CKR_FUNCTION_NOT_SUPPORTED.
Definition c_generate_key_pair : act (Process X W) Z unit := act_err CKR_FUNCTION_NOT_SUPPORTED.
Definition c_wrap_key : act (Process X W) Z unit := act_err CKR_FUNCTION_NOT_SUPPORTED.
Definition c_unwrap_key : act (Process X W) Z unit := act_err CKR_KEY_FUNCTION_NOT_PERMITTED.
Definition c_derive_key : act (Process X W) Z unit := act_err CKR_FUNCTION_NOT_SUPPORTED.
Definition c_seed_random : act (Process X W) Z unit := act_err CKR_RANDOM_SEED_NOT_SUPPORTED.
Definition c_generate_random : act (Process X W) Z unit := act_err CKR_FUNCTION_NOT_SUPPORTED.
Definition c_get_function_status : act (Process X W) Z unit := act_err CKR_FUNCTION_NOT_PARALLEL.
Definition c_cancel_function : act (Process X W) Z unit := act_err CKR_FUNCTION_NOT_PARALLEL.

(** Their entries of [FUNCTION_LIST], in its order. *)
Definition unserved_calls : list (act (Process X W) Z unit) :=
  [c_init_token; c_init_pin; c_get_operation_state; c_set_operation_state; c_create_object; c_copy_object;
   c_destroy_object; c_get_object_size; c_set_attribute_value; c_encrypt_init; c_encrypt; c_encrypt_update;
   c_encrypt_final; c_decrypt_init; c_decrypt; c_decrypt_update; c_decrypt_final; c_digest_init; c_digest;
   c_digest_update; c_digest_key; c_digest_final; c_sign_update; c_sign_final; c_sign_recover_init;
   c_sign_recover; c_verify_update; c_verify_final; c_verify_recover_init; c_verify_recover;
   c_digest_encrypt_update; c_decrypt_digest_update; c_sign_encrypt_update; c_decrypt_verify_update;
   c_generate_key; c_generate_key_pair; c_wrap_key; c_unwrap_key; c_derive_key; c_seed_random;
   c_generate_random; c_get_function_status; c_cancel_function].
End calls.

(** ** Lemmas *)

Section cells.
Context `{CertificateDecoder} `{X509View}.

Lemma fill_one_spec entry value rv written n : fill_one_attribute entry value = (rv, (written, n)) →
  (∀ bs, written = Some bs → is_Some (p_value entry) ∧ len bs ≤ ul_value_len entry ∧ rv = CKR_OK
     ∧ value ≫= AttrValue_as_bytes = Some bs)
  ∧ (value ≫= AttrValue_as_bytes = None → rv ≠ CKR_OK ∧ n = CK_UNAVAILABLE_INFORMATION).
Proof.
  unfold fill_one_attribute, usize_from_ulong.
  destruct value as [value|]; [|intros [= <- <- <-]; by split]. destruct (AttrValue_as_bytes value) as [bs|] eqn:Hbs.
  - assert (value ≠ Av_Sensitive) as Hs by (by intros ->).
    intros Hf. assert ((match p_value entry with
        | None => (CKR_OK, (None, ulong_from_usize (len bs)))
        | Some _ => if ul_value_len entry <? len bs then (CKR_BUFFER_TOO_SMALL, (None, ulong_from_usize (len bs)))
                    else (CKR_OK, (Some bs, ulong_from_usize (len bs))) end) = (rv, (written, n))) as Hg
      by (destruct value; [exact Hf..|done]).
    cbn [mbind option_bind]. rewrite Hbs. split; [|done]. revert Hg. destruct (p_value entry); [|by intros [= <- <- <-]].
    destruct (Z.ltb_spec (ul_value_len entry) (len bs)); intros [= <- <- <-]; [done|]. intros bs' [= <-].
    split; [by eexists|done].
  - destruct value; [done..|]. intros [= <- <- <-]. by split.
Qed.

Lemma fill_attributes_cells token kind template :
  let fill entry := fill_one_attribute entry (attribute token kind (attr_type entry)) in
  (fill_attributes token kind template).2 = map (λ entry, (fill entry).2) template
  ∧ ((fill_attributes token kind template).1 = CKR_OK ↔ Forall (λ entry, (fill entry).1 = CKR_OK) template).
Proof.
  intros fill. unfold fill_attributes.
  match goal with |- context [foldl ?f _ _] => set (step := f) end.
  assert (∀ rv cells, let out := foldl step (rv, cells) template in
    out.2 = cells ++ map (λ entry, (fill entry).2) template
    ∧ (out.1 = CKR_OK ↔ rv = CKR_OK ∧ Forall (λ entry, (fill entry).1 = CKR_OK) template)) as Hall.
  { induction template as [|entry template IH]; intros rv cells; cbn zeta; [cbn; rewrite app_nil_r; split; [done|]; naive_solver|].
    cbn [foldl]. unfold step at 2 4. fold (fill entry). destruct (fill entry) as [r cell] eqn:Hf.
    destruct (IH (if negb (r =? CKR_OK) then r else rv) (cells ++ [cell])) as [Hc Hr].
    split; [rewrite Hc; cbn [map]; by rewrite Hf, <- app_assoc|]. rewrite list.Forall_cons, Hf. cbn [fst].
    etransitivity; [exact Hr|].
    destruct (Z.eqb_spec r CKR_OK) as [->|Hne]; cbn [negb]; naive_solver. }
  destruct (Hall CKR_OK []) as [Hc Hr]. split; [exact Hc|]. rewrite Hr. naive_solver.
Qed.
End cells.

(** ** Properties *)

(** C25: no call writes past a buffer of its caller. A value is copied only behind a
    pointer that is not null, whole, and only when the capacity given holds it, while the
    length written is the value's own; a call with a null pointer or too small a buffer
    writes the length alone. A template is left with one cell for each of its entries, the
    answer is CKR_OK exactly when every cell could be served, and a sensitive or unknown
    attribute leaves nothing behind. A batch of a search has at most as many handles as
    were asked for. *)
Theorem outputs_fit_buffers `{CertificateDecoder} `{X509View} :
  (∀ null cap src rv n out, deliver_bytes null cap src = (rv, n, out) →
     n = ulong_from_usize (len src)
     ∧ (null = true → rv = CKR_OK ∧ out = None)
     ∧ (null = false → cap < len src → rv = CKR_BUFFER_TOO_SMALL ∧ out = None)
     ∧ (null = false → len src ≤ cap → rv = CKR_OK ∧ out = Some src)) ∧
  (∀ null cap ids rv n out, write_handle_list null cap ids = (rv, n, out) →
     ∀ written, out = Some written → null = false ∧ written = ids ∧ Z.of_nat (length ids) ≤ cap ∧ rv = CKR_OK) ∧
  (∀ token kind template, let out := fill_attributes token kind template in
     length out.2 = length template
     ∧ (∀ i entry written n, template !! i = Some entry → out.2 !! i = Some (written, n) →
          let value := attribute token kind (attr_type entry) ≫= AttrValue_as_bytes in
          (∀ bs, written = Some bs → is_Some (p_value entry) ∧ len bs ≤ ul_value_len entry ∧ value = Some bs)
          ∧ (value = None → written = None ∧ n = CK_UNAVAILABLE_INFORMATION ∧ out.1 ≠ CKR_OK))) ∧
  (∀ max s batch s', 0 ≤ max → next_find_batch max s = (s', Some batch) → Z.of_nat (length batch) ≤ max).
Proof.
  split; [|split; [|split]].
  - intros null cap src rv n out. unfold deliver_bytes, usize_from_ulong. destruct null; [intros [= <- <- <-]; naive_solver|].
    destruct (Z.ltb_spec cap (len src)); intros [= <- <- <-]; naive_solver lia.
  - intros null cap ids rv n out. unfold write_handle_list, usize_from_ulong. destruct null; [by intros [= <- <- <-]|].
    destruct (Z.ltb_spec cap (Z.of_nat (length ids))); intros [= <- <- <-]; [done|]. by intros written [= <-].
  - intros token kind template out. destruct (fill_attributes_cells token kind template) as [Hc Hr]. fold out in Hc, Hr.
    rewrite Hc, length_map. split; [done|]. intros i entry written n Hi. rewrite list_lookup_fmap, Hi. intros [= Hcell] value.
    destruct (fill_one_attribute entry (attribute token kind (attr_type entry))) as [rv cell] eqn:Hf. cbn in Hcell. subst cell.
    destruct (fill_one_spec _ _ _ _ _ Hf) as [Hw Hn]. split; [intros bs Hbs; destruct (Hw bs Hbs) as (? & ? & _ & ?); done|].
    intros Hv. destruct (Hn Hv) as [Hbad Hlen]. split; [|split; [done|]].
    + destruct written as [bs|]; [|done]. destruct (Hw bs eq_refl) as (_ & _ & _ & Hsome). fold value in Hsome. congruence.
    + rewrite Hr. intros Hall. rewrite list.Forall_forall in Hall. apply Hbad.
      specialize (Hall entry (list_elem_of_lookup_2 _ _ _ Hi)). by rewrite Hf in Hall.
  - intros max s batch s' Hmax. unfold next_find_batch. destruct (se_find s) as [remaining|]; [|done]. intros [= <- <-].
    rewrite length_take. lia.
Qed.

Lemma outputs_fit_buffers_witness :
  deliver_bytes false 3 [1; 2; 3; 4] = (CKR_BUFFER_TOO_SMALL, 4, None)
  ∧ (deliver_bytes false 3 [1; 2; 3; 4]).1.1 = CKR_BUFFER_TOO_SMALL.
Proof.
  split; [reflexivity|]. pose proof (outputs_fit_buffers (H:=plain.any_certificate) (H0:=plain.plain_view)) as [Hd _].
  destruct (deliver_bytes false 3 [1; 2; 3; 4]) as [[rv n] out] eqn:Hrun.
  by apply (proj1 (proj1 (proj2 (proj2 (Hd _ _ _ _ _ _ Hrun))) eq_refl ltac:(by vm_compute))).
Defined.

(** The batches of repeated calls of [C_FindObjects], up to the first empty one. *)
Fixpoint find_batches (fuel : nat) (max : Z) (s : Session) : Session * list (list Z) :=
  match fuel with
  | O => (s, [])
  | S fuel =>
      match next_find_batch max s with
      | (s, Some (h :: batch)) => let '(s, batches) := find_batches fuel max s in (s, (h :: batch) :: batches)
      | (s, _) => (s, [])
      end
  end.

(** A search reports every match once and ends. From the call that begins it,
    repeated calls for at least one handle at a time give all the matches, in order, in
    batches that are not empty and are full but for the last, and then an empty batch
    for ever; the other operations of the session are not disturbed. *)
Theorem search_reports_every_match (handles : list Z) (max : Z) (s : Session) (Hmax : 1 ≤ max) :
  let '(s', batches) := find_batches (S (length handles)) max (begin_find handles s) in
  concat batches = handles
  ∧ Forall (λ batch, batch ≠ [] ∧ Z.of_nat (length batch) ≤ max) batches
  ∧ (∀ i batch, batches !! i = Some batch → (i < length batches - 1)%nat → Z.of_nat (length batch) = max)
  ∧ next_find_batch max s' = (s', Some [])
  ∧ se_slot_id s' = se_slot_id s ∧ se_sign s' = se_sign s ∧ se_verify s' = se_verify s.
Proof.
  remember (S (length handles)) as fuel eqn:Hfuel. assert (length handles < fuel)%nat as Hlen by lia. clear Hfuel.
  revert handles Hlen. induction fuel as [|fuel IH]; intros handles Hlen; [lia|]. cbn [find_batches].
  unfold next_find_batch at 1. cbn [se_find begin_find]. set (n := Z.to_nat _).
  destruct handles as [|h handles].
  { cbn [take]. replace (take n []) with (@nil Z) by (by destruct n). rewrite drop_nil.
    repeat split; [apply Forall_nil_2|done|]. unfold next_find_batch. cbn. by destruct (Z.to_nat _). }
  assert (∃ k, n = S k) as [k Hk] by (exists (n - 1)%nat; unfold n; cbn [length]; lia). rewrite Hk. cbn [take drop].
  specialize (IH (drop k handles)). rewrite length_drop in IH. cbn [length] in Hlen.
  replace (begin_find (drop k handles) (begin_find (h :: handles) s)) with (begin_find (drop k handles) s) by done.
  destruct (find_batches fuel max (begin_find (drop k handles) s)) as [s' batches].
  destruct IH as (Hcat & Hall & Hfull & Hend & Hrest); [lia|].
  assert (Z.of_nat (length (h :: take k handles)) ≤ max) as Hb.
  { cbn [length]. rewrite length_take. unfold n in Hk. cbn [length] in Hk. lia. }
  split; [cbn; by rewrite Hcat, take_drop|]. split; [by constructor|]. split; [|done].
  intros [|i] batch; cbn; [intros [= <-] Hi|intros Hl Hi; apply (Hfull i batch Hl); lia].
  assert (drop k handles ≠ []) as Hne by (intros Hd; rewrite Hd in Hcat; destruct batches as [|[|] ?]; cbn in *; [lia|by apply Forall_cons_1 in Hall as [[] _]|done]).
  cbn [length]. rewrite length_take. apply (f_equal length) in Hcat. rewrite length_drop in Hcat.
  assert (length handles - k ≠ 0)%nat by (intros H0; apply Hne; apply nil_length_inv; by rewrite length_drop).
  unfold n in Hk. cbn [length] in Hk. lia.
Qed.

Lemma search_reports_every_match_witness :
  (find_batches 4 2 (begin_find [1; 2; 3] (mkSession 1 4 None None None))).2 = [[1; 2]; [3]]
  ∧ concat (find_batches 4 2 (begin_find [1; 2; 3] (mkSession 1 4 None None None))).2 = [1; 2; 3].
Proof.
  split; [reflexivity|]. assert (1 ≤ 2) as Hm by by apply Z.leb_le.
  pose proof (search_reports_every_match [1; 2; 3] 2 (mkSession 1 4 None None None) Hm) as Hs. cbn [length] in Hs.
  destruct (find_batches 4 2 _) as [s' batches]. apply Hs.
Defined.
