(* ===== verification/Pkcs11Safety.v ===== *)
(** Invariants of the PKCS#11 module under its calls: the slot table, the sessions and
    the PIN caches stay well-formed, and between calls a PIN is held only for a slot with
    an open session. *)

From stdpp Require Import gmap.
From S2P Require Import Prelude CryptoCrates StatusWord Transport Apdu Pin Auth Pkcs15 PinLengths PinOps TokenInfo CardPin.
From S2P Require Import PinCache Rapp PairingStore ProtectedStore Pace Wire Cryptoki Pkcs11Sign Pkcs11Token.
From S2P Require Import CaCache Pkcs11Card Pkcs11Remote Pkcs11State Pkcs11Api.

(** ** What holds after a run *)

(** [P] holds of the state, and of a value [Q] with it. *)
Definition ends {S F A} (P : S → Prop) (Q : A → S → Prop) (out : S * result F A) : Prop :=
  P out.1 ∧ ∀ a, out.2 = Ok a → Q a out.1.
Definition anything {S A} : A → S → Prop := λ _ _, True.
(** [P] is kept, whatever the outcome. *)
Definition keeps {S F A} (P : S → Prop) (m : act S F A) : Prop := ∀ s, P s → P (m s).1.

Section ends.
Context {S F : Type} (P : S → Prop).

Lemma ends_bind {A B} (m : act S F A) (k : A → act S F B) (Q : A → S → Prop) (Q' : B → S → Prop) s :
  ends P Q (m s) → (∀ a s, P s → Q a s → ends P Q' (k a s)) → ends P Q' (act_bind m k s).
Proof. unfold act_bind. intros [HP HQ] Hk. destruct (m s) as [s' [a|e|]]; [by apply Hk; [|apply HQ]|by split..]. Qed.

(** A step that only looks at the state. *)
Lemma ends_bind_look {A B} (m : act S F A) (k : A → act S F B) (Q' : B → S → Prop) s :
  (m s).1 = s → P s → (∀ a, (m s).2 = Ok a → ends P Q' (k a s)) → ends P Q' (act_bind m k s).
Proof. unfold act_bind. intros Hs HP Hk. destruct (m s) as [s' [a|e|]]; cbn in Hs; subst s'; [by apply Hk|by split..]. Qed.

Lemma ends_ret {A} (a : A) (Q : A → S → Prop) s : P s → Q a s → ends P Q (act_ret (E:=F) a s).
Proof. intros HP HQ. split; [done|]. by intros b [= <-]. Qed.
Lemma ends_err {A} (e : F) (Q : A → S → Prop) s : P s → ends P Q (act_err e s).
Proof. by split. Qed.
Lemma ends_lift {A} (r : result F A) (Q : A → S → Prop) s : P s → (∀ a, r = Ok a → Q a s) → ends P Q (act_lift r s).
Proof. by split. Qed.
Lemma ends_weaken {A} (Q Q' : A → S → Prop) (out : S * result F A) :
  ends P Q out → (∀ a, P out.1 → Q a out.1 → Q' a out.1) → ends P Q' out.
Proof. intros [HP HQ] Hw. split; [done|]. intros a Ha. by apply Hw, HQ. Qed.
Lemma ends_keeps {A} (m : act S F A) s : keeps P m → P s → ends P anything (m s).
Proof. intros Hm HP. split; [by apply Hm|done]. Qed.
Lemma ends_kept {A} (Q : A → S → Prop) (out : S * result F A) : ends P Q out → P out.1.
Proof. by intros []. Qed.

Lemma keeps_bind {A B} (m : act S F A) (k : A → act S F B) : keeps P m → (∀ a, keeps P (k a)) → keeps P (act_bind m k).
Proof.
  intros Hm Hk s HP. eapply ends_kept, ends_bind; [by apply ends_keeps|]. intros a s' HP' _. apply ends_keeps; [apply Hk|done].
Qed.
Lemma keeps_ret {A} (a : A) : keeps P (act_ret (E:=F) a).
Proof. by intros s HP. Qed.
Lemma keeps_err {A} (e : F) : keeps P (act_err (A:=A) e).
Proof. by intros s HP. Qed.
Lemma keeps_lift {A} (r : result F A) : keeps P (act_lift r).
Proof. by intros s HP. Qed.
Lemma keeps_map_err {G A} (f : F → G) (m : act S F A) : keeps P m → keeps P (act_map_err f m).
Proof. intros Hm s HP. specialize (Hm s HP). unfold act_map_err. by destruct (m s). Qed.
Lemma keeps_attempt {G A} (m : act S F A) : keeps P m → keeps P (act_attempt (F:=G) m).
Proof. intros Hm s HP. specialize (Hm s HP). unfold act_attempt. by destruct (m s) as [s' []]. Qed.
End ends.

(** ** Well-formed state *)

Section safety.
Context `{X509View}.

(** Ids and reader names, the part of the slot table that only grows. *)
Definition key_of (s : SlotRecord) : Z * bytes := (slot_id s, slot_reader_name s).
Definition keys (m : ModuleState) : list (Z * bytes) := map key_of (slots m).

(** Ids and handles stop being fresh only when 2^32 - 1 of them were given out. *)
Record module_ok (m : ModuleState) : Prop := {
  mo_names : NoDup (keys m).*2;
  mo_next : SLOT_ID_BASE ≤ next_slot_id m ≤ u32_max;
  mo_ids : next_slot_id m < u32_max →
    NoDup (keys m).*1 ∧ ∀ id, id ∈ (keys m).*1 → SLOT_ID_BASE ≤ id < next_slot_id m;
  mo_cached : next_slot_id m < u32_max →
    ∀ s, s ∈ slots m → slot_card_present s = true → is_Some (token_cache m !! slot_id s);
  mo_handle : SESSION_HANDLE_BASE ≤ next_session_handle m ≤ u32_max;
  mo_handles : next_session_handle m < u32_max →
    ∀ h, is_Some (sessions m !! h) → SESSION_HANDLE_BASE ≤ h < next_session_handle m;
  mo_sessions : ∀ h s, sessions m !! h = Some s → se_slot_id s ∈ (keys m).*1;
}.

(** The caches of the process: every reader has one of its own. *)
Record process_ok (p : PinCaches) : Prop := {
  po_valid : ∀ name r, pc_process p !! name = Some r → (r < length (pc_heap p))%nat;
  po_own : ∀ name name' r, pc_process p !! name = Some r → pc_process p !! name' = Some r → name = name';
}.

(** A slot's cache is its reader's. *)
Definition pins_ok (l : Live) : Prop := ∀ id r, pin_caches l.1 !! id = Some r →
  ∃ name, reader_name id l.1 = Some name ∧ pc_process l.2 !! name = Some r.

Definition holds (p : PinCaches) (r : nat) : Prop := ∃ c, cache_at p r = Some c ∧ is_Some (psc_held_pin1 c).
(** The caches that may hold a PIN without a session: none as long as the calls follow
    one another. *)
Context (late : nat → Prop).
(** Apart from those, a PIN is held only for a slot with an open session; once the handles
    have run out a new session takes the place of the last one, and the slot of that one is
    not asked for a session. *)
Definition confined (l : Live) : Prop := ∀ r, holds l.2 r →
  late r ∨ ∃ id, pin_caches l.1 !! id = Some r ∧ (next_session_handle l.1 < u32_max → sessions_on id l.1 = true).

Record live_ok (l : Live) : Prop := {
  lo_module : module_ok l.1;
  lo_process : process_ok l.2;
  lo_pins : pins_ok l;
  lo_confined : confined l;
}.

(** ** PIN caches *)

(** Nothing is held that was not held before. *)
Record fewer (p p' : PinCaches) : Prop := {
  fw_process : pc_process p' = pc_process p;
  fw_length : length (pc_heap p') = length (pc_heap p);
  fw_holds : ∀ r, holds p' r → holds p r;
}.
Lemma fewer_refl p : fewer p p.
Proof. by split. Qed.
Lemma fewer_trans p q r : fewer p q → fewer q r → fewer p r.
Proof. intros [] []. split; [congruence|congruence|auto]. Qed.

Lemma holds_update r f p r' : holds (update_cache r f p) r' ↔
  ∃ c, cache_at p r' = Some c ∧ is_Some (psc_held_pin1 (if decide (r = r') then f c else c)).
Proof.
  unfold holds, cache_at, update_cache. cbn. rewrite list_lookup_alter. destruct (decide (r = r')) as [<-|Hne]; [|done].
  split.
  - intros (c & (c0 & Hc0 & ->)%fmap_Some & Hh). eauto.
  - intros (c & Hc & Hh). exists (f c). by rewrite Hc.
Qed.

Lemma fewer_update r f p : (∀ c, is_Some (psc_held_pin1 (f c)) → is_Some (psc_held_pin1 c)) → fewer p (update_cache r f p).
Proof.
  intros Hf. split; [done|apply length_alter|]. intros r' (c & Hc & Hheld)%holds_update. exists c. split; [done|].
  destruct (decide (r = r')); auto.
Qed.

Lemma fewer_clear r p : fewer p (update_cache r PinSafetyCache_clear_positive p).
Proof. apply fewer_update. by intros c [? ?]. Qed.
Lemma not_holds_cleared r p : ¬ holds (update_cache r PinSafetyCache_clear_positive p) r.
Proof. intros (c & _ & Hh)%holds_update. rewrite decide_True in Hh by done. by destruct Hh. Qed.

Lemma fewer_clear_slot id m p : fewer p (clear_slot_pin id m p).
Proof. unfold clear_slot_pin. destruct (pin_caches m !! id); [apply fewer_clear|apply fewer_refl]. Qed.
Lemma not_holds_clear_slot id m p r : pin_caches m !! id = Some r → ¬ holds (clear_slot_pin id m p) r.
Proof. unfold clear_slot_pin. intros ->. apply not_holds_cleared. Qed.

Lemma clear_all_spec m p : fewer p (clear_all_positive_pins m p)
  ∧ ∀ id r, pin_caches m !! id = Some r → ¬ holds (clear_all_positive_pins m p) r.
Proof.
  unfold clear_all_positive_pins.
  assert (∀ id r, pin_caches m !! id = Some r → r ∈ (map_to_list (pin_caches m)).*2) as Hin.
  { intros id r Hid. apply list_elem_of_fmap. exists (id, r). split; [done|]. by apply elem_of_map_to_list. }
  assert (∀ l, let q := foldr (λ r p, update_cache r PinSafetyCache_clear_positive p) p l in
    fewer p q ∧ ∀ r, r ∈ l → ¬ holds q r) as Hl.
  { induction l as [|x l [Hf Hc]]; cbn zeta in *; cbn [foldr]; [split; [apply fewer_refl|by intros r ?%elem_of_nil]|].
    split; [eapply fewer_trans; [exact Hf|apply fewer_clear]|]. intros r [-> |Hr]%elem_of_cons; [apply not_holds_cleared|].
    intros Hh. apply (Hc r Hr). by apply (fw_holds _ _ (fewer_clear x _)). }
  destruct (Hl (map_to_list (pin_caches m)).*2) as [Hf Hc]. split; [done|]. intros id r Hid. apply Hc. by eapply Hin.
Qed.

Lemma process_ok_fewer p p' : process_ok p → fewer p p' → process_ok p'.
Proof. intros [Hv Ho] [Hp Hlen _]. split; rewrite Hp; [by rewrite Hlen|done]. Qed.

(** ** The slot table *)

Lemma keys_ids m : (keys m).*1 = slot_ids m.
Proof. exact (map_map key_of fst (slots m)). Qed.
Lemma keys_names m : (keys m).*2 = map slot_reader_name (slots m).
Proof. exact (map_map key_of snd (slots m)). Qed.

Lemma reader_name_keys id m : reader_name id m = snd <$> List.find (λ k, k.1 =? id) (keys m).
Proof.
  unfold reader_name, slot, keys. induction (slots m) as [|s l IH]; [done|]. cbn. by destruct (slot_id s =? id).
Qed.

Lemma find_app_Some {A} (f : A → bool) l l' x : List.find f l = Some x → List.find f (l ++ l') = Some x.
Proof. induction l as [|y l IH]; [done|]. cbn. by destruct (f y). Qed.

Lemma slot_unique m i j s s' : NoDup (keys m).*1 → slots m !! i = Some s → slots m !! j = Some s' →
  slot_id s = slot_id s' → i = j.
Proof.
  rewrite keys_ids. intros Hnd Hi Hj Heq. eapply (NoDup_lookup (slot_ids m)); [done|..]; unfold slot_ids.
  - by rewrite list_lookup_fmap, Hi.
  - rewrite list_lookup_fmap, Hj. cbn. by rewrite Heq.
Qed.

Lemma one_slot_per_reader id id' name m : module_ok m → next_slot_id m < u32_max →
  reader_name id m = Some name → reader_name id' m = Some name → id = id'.
Proof.
  intros Hm Hlt. unfold reader_name, slot. intros (s & Hs & ->)%fmap_Some (s' & Hs' & Heq)%fmap_Some.
  apply find_some in Hs as [Hin <-%Z.eqb_eq], Hs' as [Hin' <-%Z.eqb_eq].
  apply list_elem_of_In, list_elem_of_lookup in Hin as [i Hi], Hin' as [j Hj].
  assert (i = j) as <-; [|congruence]. pose proof (mo_names _ Hm) as Hnd. rewrite keys_names in Hnd.
  eapply (NoDup_lookup _ i j); [exact Hnd|by rewrite list_lookup_fmap, Hi|rewrite list_lookup_fmap, Hj; cbn; by rewrite Heq].
Qed.

Definition cached_ok (m : ModuleState) : Prop :=
  ∀ s, s ∈ slots m → slot_card_present s = true → is_Some (token_cache m !! slot_id s).

Lemma module_ok_same_keys m m' : module_ok m → keys m' = keys m → next_slot_id m' = next_slot_id m →
  sessions m' = sessions m → next_session_handle m' = next_session_handle m →
  (next_slot_id m < u32_max → cached_ok m') → module_ok m'.
Proof. intros [] Hk Hn Hs Hh Hc. split; rewrite ?Hk, ?Hn, ?Hs, ?Hh; auto. Qed.

(** What refreshing does to the table. *)
Record grows (m m' : ModuleState) : Prop := {
  gr_keys : keys m `prefix_of` keys m';
  gr_sessions : sessions m' = sessions m;
  gr_handle : next_session_handle m' = next_session_handle m;
  gr_pins : pin_caches m' = pin_caches m;
}.
Lemma grows_refl m : grows m m.
Proof. by split. Qed.
Lemma grows_trans m1 m2 m3 : grows m1 m2 → grows m2 m3 → grows m1 m3.
Proof. intros [] []. split; [by etrans|congruence..]. Qed.

Lemma live_ok_grows m p m' p' : live_ok (m, p) → module_ok m' → grows m m' → fewer p p' → live_ok (m', p').
Proof.
  intros [Hm Hp Hpin Hc] Hm' [[more Hk] Hs Hh Hpins] Hf. cbn in *. split; cbn; [done|by eapply process_ok_fewer|..].
  - intros id r. cbn. rewrite Hpins. intros (name & Hn & Hr)%Hpin. exists name. rewrite (fw_process _ _ Hf). split; [|done].
    cbn in Hn. rewrite reader_name_keys in Hn |- *. rewrite Hk. apply fmap_Some in Hn as (k & Hfind & ->).
    by rewrite (find_app_Some _ _ _ _ Hfind).
  - intros r Hr%(fw_holds _ _ Hf). destruct (Hc r Hr) as [?|(id & Hid & Hon)]; [by left|]. right. exists id. cbn in *. rewrite Hpins, Hh. split; [done|].
    unfold sessions_on in *. by rewrite Hs.
Qed.

Lemma keys_alter pos present m : keys (set_slot_present pos present m) = keys m.
Proof.
  unfold keys, set_slot_present. cbn. apply list_eq. intros i. rewrite !list_lookup_fmap, list_lookup_alter.
  case_decide; [subst|done]. by destruct (slots m !! i).
Qed.

Lemma elem_of_alter {A} (f : A → A) i (l : list A) x : x ∈ alter f i l →
  (∃ y, l !! i = Some y ∧ x = f y) ∨ ∃ j, j ≠ i ∧ l !! j = Some x.
Proof.
  intros [j Hj]%list_elem_of_lookup. rewrite list_lookup_alter in Hj. case_decide as Hij; [|right; by exists j].
  left. apply fmap_Some in Hj as (y & Hy & ->). eauto.
Qed.

Lemma slot_of_reader_Some name m pos s : slot_of_reader name m = Some (pos, s) →
  slots m !! pos = Some s ∧ slot_reader_name s = name.
Proof. unfold slot_of_reader. by intros (Hl & Hn & _)%list_find_Some. Qed.
Lemma slot_of_reader_None name m : slot_of_reader name m = None → name ∉ (keys m).*2.
Proof.
  unfold slot_of_reader. rewrite keys_names, list_find_None, list.Forall_forall. intros Hall Hin.
  apply list_elem_of_fmap in Hin as (s & -> & Hs). by apply (Hall s).
Qed.

(** A slot's presence changed, and the objects kept for it. *)
Lemma altered_ok pos s present m cache : module_ok m → slots m !! pos = Some s →
  (∀ id, id ≠ slot_id s → is_Some (token_cache m !! id) → is_Some (cache !! id)) →
  (present = true → is_Some (cache !! slot_id s)) →
  let m' := set_token_cache cache (set_slot_present pos present m) in module_ok m' ∧ grows m m'.
Proof.
  intros Hm Hpos Hcache Hpres m'. assert (keys m' = keys m) as Hk by apply keys_alter. split; [|by split; [rewrite Hk|..]].
  apply (module_ok_same_keys m); [done..|]. intros Hn s' Hs' Hp. cbn in *.
  apply elem_of_alter in Hs' as [(y & Hy & ->)|(j & Hj & Hlj)].
  - rewrite Hpos in Hy. injection Hy as <-. by apply Hpres.
  - apply Hcache; [|apply (mo_cached _ Hm Hn); [by eapply list_elem_of_lookup_2|done]]. intros Heq. apply Hj.
    eapply slot_unique; [by apply (mo_ids _ Hm Hn)|done..].
Qed.

(** A reader got a slot. *)
Lemma appeared_ok name present ident m cache : module_ok m → slot_of_reader name m = None →
  (∀ id, is_Some (token_cache m !! id) → is_Some (cache !! id)) →
  (present = true → is_Some (cache !! next_slot_id m)) →
  let m' := set_token_cache cache (push_slot name present ident m) in module_ok m' ∧ grows m m'.
Proof.
  intros Hm Hnew%slot_of_reader_None Hcache Hpres m'. destruct Hm as [Hnames Hnext Hids Hcached Hhandle Hhandles Hsess].
  assert (keys m' = keys m ++ [(next_slot_id m, name)]) as Hk by (unfold keys, m'; cbn; by rewrite map_app).
  assert (next_slot_id m' < u32_max → next_slot_id m < u32_max ∧ next_slot_id m' = next_slot_id m + 1) as Hlt.
  { unfold m'. cbn. unfold saturating_next. lia. }
  split; [|split; [rewrite Hk; by eexists|done..]]. split; rewrite ?Hk, ?fmap_app.
  - apply list.NoDup_app. split; [done|]. split; [|apply list.NoDup_singleton]. intros x Hx ->%list_elem_of_singleton. done.
  - unfold m'. cbn. unfold saturating_next, SLOT_ID_BASE in *. lia.
  - intros [Hlt' Heq]%Hlt. destruct (Hids Hlt') as [Hnd Hin]. split.
    + apply list.NoDup_app. split; [done|]. split; [|apply list.NoDup_singleton].
      intros x Hx ->%list_elem_of_singleton. apply Hin in Hx. cbn in Hx. lia.
    + intros id [Hid| ->%list_elem_of_singleton]%elem_of_app; rewrite Heq; [apply Hin in Hid; lia|cbn; unfold SLOT_ID_BASE in *; lia].
  - intros [Hlt' Heq]%Hlt s. cbn. intros [Hs| ->%list_elem_of_singleton]%elem_of_app Hp; [|by apply Hpres].
    apply Hcache. by apply Hcached.
  - done.
  - done.
  - intros h s Hs. apply elem_of_app. left. by eapply Hsess.
Qed.

(** ** Refreshing *)

Definition refreshed (l l' : Live) : Prop := module_ok l'.1 ∧ grows l.1 l'.1 ∧ fewer l.2 l'.2.
Lemma refreshed_refl l : module_ok l.1 → refreshed l l.
Proof. intros Hm. split; [done|]. split; [apply grows_refl|apply fewer_refl]. Qed.
Lemma refreshed_trans l1 l2 l3 : refreshed l1 l2 → refreshed l2 l3 → refreshed l1 l3.
Proof. intros (_ & Hg & Hf) (Hm & Hg' & Hf'). split; [done|]. split; [by eapply grows_trans|by eapply fewer_trans]. Qed.
Lemma live_ok_refreshed l l' : live_ok l → refreshed l l' → live_ok l'.
Proof. destruct l, l'. intros Hl (Hm & Hg & Hf). by eapply live_ok_grows. Qed.

Lemma insert_keeps_others (id id' : Z) (o : TokenObjects) (c : gmap Z TokenObjects) :
  is_Some (c !! id') → is_Some (<[id := o]> c !! id').
Proof. rewrite lookup_insert. by case_decide. Qed.
Lemma delete_keeps_others (id id' : Z) (c : gmap Z TokenObjects) : id' ≠ id → is_Some (c !! id') → is_Some (delete id c !! id').
Proof. intros Hne. by rewrite lookup_delete_ne. Qed.
Lemma insert_caches (id : Z) (o : TokenObjects) (c : gmap Z TokenObjects) : is_Some (<[id := o]> c !! id).
Proof. rewrite lookup_insert. by case_decide. Qed.
#[local] Hint Resolve insert_keeps_others delete_keeps_others insert_caches fewer_refl fewer_clear_slot : core.

Lemma card_arrived_ok pos s objects l : module_ok l.1 → slots l.1 !! pos = Some s →
  refreshed l (card_arrived pos (slot_id s) objects l).
Proof.
  destruct l as [m p]. intros Hm Hpos. cbn in Hm, Hpos.
  destruct (altered_ok pos s true m (<[slot_id s := objects]> (delete (slot_id s) (token_cache m)))) as [Hm' Hg]; auto.
  split; [exact Hm'|]. split; [exact Hg|]. cbn. unfold clear_slot_pin. cbn. destruct (pin_caches m !! slot_id s); [apply fewer_clear|done].
Qed.

Lemma card_left_ok pos s l : module_ok l.1 → slots l.1 !! pos = Some s → refreshed l (card_left pos (slot_id s) l).
Proof.
  destruct l as [m p]. intros Hm Hpos. cbn in Hm, Hpos.
  destruct (altered_ok pos s false m (delete (slot_id s) (token_cache m))) as [Hm' Hg]; auto; [done|].
  split; [exact Hm'|]. split; [exact Hg|]. cbn. unfold clear_slot_pin. cbn. destruct (pin_caches m !! slot_id s); [apply fewer_clear|done].
Qed.

Lemma slot_appeared_ok name ident objects l : module_ok l.1 → slot_of_reader name l.1 = None →
  refreshed l (slot_appeared name ident objects l).
Proof.
  destruct l as [m p]. intros Hm Hnew. cbn in Hm, Hnew.
  destruct (appeared_ok name true ident m (<[next_slot_id m := objects]> (token_cache m))) as [Hm' Hg]; auto.
  split; [exact Hm'|]. split; [exact Hg|]. apply fewer_refl.
Qed.

Lemma refresh_pairing_ok `{Rapp} record parsed m p : module_ok m → refreshed (m, p) (refresh_pairing record parsed m, p).
Proof.
  intros Hm. unfold refresh_pairing. destruct (slot_of_reader (remote_name record) m) as [[pos s]|] eqn:Hs.
  - apply slot_of_reader_Some in Hs as [Hpos _].
    destruct parsed as [objects|]; (split; [|split; [|done]]).
    all: first [apply (altered_ok pos s _ m (<[slot_id s := objects]> (token_cache m))); auto
               |apply (altered_ok pos s _ m (token_cache m)); auto; done].
  - destruct parsed as [objects|]; (split; [|split; [|done]]).
    all: first [apply (appeared_ok (remote_name record) _ _ m (<[next_slot_id m := objects]> (token_cache m))); auto
               |apply (appeared_ok (remote_name record) _ _ m (token_cache m)); auto; done].
Qed.

Lemma withdraw_fold ids l : let l' := foldl (λ '(m, p) id, invalidate_slot id (set_remote (remote_logged_in m ∖ {[id]}) m, p)) l ids in
  slots l'.1 = slots l.1 ∧ next_slot_id l'.1 = next_slot_id l.1 ∧ sessions l'.1 = sessions l.1
  ∧ next_session_handle l'.1 = next_session_handle l.1 ∧ pin_caches l'.1 = pin_caches l.1
  ∧ (∀ id, id ∉ ids → token_cache l'.1 !! id = token_cache l.1 !! id) ∧ fewer l.2 l'.2.
Proof.
  revert l. induction ids as [|id ids IH]; intros [m p]; [by repeat split; eauto|]. cbn [foldl].
  destruct (IH (invalidate_slot id (set_remote (remote_logged_in m ∖ {[id]}) m, p))) as (-> & -> & -> & -> & -> & Hc & Hf).
  do 5 (split; [done|]). split; [|eapply fewer_trans; [|exact Hf]; apply fewer_clear_slot].
  intros id' [Hne Hni]%not_elem_of_cons. rewrite (Hc id' Hni). cbn. by rewrite lookup_delete_ne.
Qed.

Lemma withdraw_slots_ok offering l : module_ok l.1 → refreshed l (withdraw_slots offering l).
Proof.
  destruct l as [m p]. intros Hm. unfold withdraw_slots.
  set (off := λ s, if offers_nothing offering s then set_present false s else s).
  set (ids := map slot_id _). destruct (withdraw_fold ids (set_slots (map off (slots m)) m, p))
    as (Hs & Hn & Hse & Hh & Hp & Hc & Hf). cbn [fst snd] in *. set (l' := foldl _ _ _) in *.
  assert (keys l'.1 = keys m) as Hk.
  { unfold keys. rewrite Hs. cbn. rewrite map_map. apply map_ext. intros s. unfold off. by destruct (offers_nothing offering s). }
  split; [|split; [by split; rewrite ?Hk|exact Hf]].
  apply (module_ok_same_keys m); [done..|]. intros Hlt s' Hs' Hpres. rewrite Hs in Hs'.
  apply list_elem_of_In, in_map_iff in Hs' as (s & <- & Hin). unfold off in *.
  destruct (offers_nothing offering s) eqn:Hoff; [done|]. apply list_elem_of_In in Hin.
  rewrite Hc; [by apply (mo_cached _ Hm Hlt)|]. intros (s0 & Hid & [Hs0 Hoff0]%List.filter_In)%list_elem_of_In%in_map_iff.
  apply list_elem_of_In in Hs0. apply list_elem_of_lookup in Hin as [i Hi], Hs0 as [j Hj].
  assert (i = j) as <- by (eapply slot_unique; [apply (mo_ids _ Hm Hlt)|done..]). congruence.
Qed.
End safety.

(** ** The module after a refresh *)

Section refresh_safety.
Context `{Rapp} `{CertificateDecoder} `{X509View} (l0 : Live).

(** What is kept while the slots are refreshed from [l0] on. *)
Definition from_start {Y} (s : Live * Y) : Prop := refreshed l0 s.1.

Lemma from_start_step {Y} l l' (y : Y) : refreshed l0 l → (module_ok l.1 → refreshed l l') → from_start (l', y).
Proof. intros Hl Hl'. eapply refreshed_trans; [exact Hl|]. apply Hl'. apply Hl. Qed.

Lemma keeps_in_system {Y F A} (P : Live → Prop) (m : act Y F A) : keeps (λ s, P s.1) (in_system (S:=Live) m).
Proof. intros [l y] Hl. unfold in_system. by destruct (m y). Qed.

Lemma refresh_reader_ok {Y} `{!SlotProber Y} reader : keeps from_start (refresh_reader (Y:=Y) reader).
Proof.
  unfold refresh_reader. apply keeps_bind.
  - destruct (ri_card_present reader); [apply (keeps_in_system (refreshed l0))|apply keeps_ret].
  - intros observation. destruct (preserves_last_known_state observation); [apply keeps_ret|]. intros [[m p] y] Hl.
    destruct (slot_of_reader (ri_id reader) m) as [[pos s]|] eqn:Hslot.
    + apply slot_of_reader_Some in Hslot as [Hpos _]. destruct (_ && negb (slot_card_present s)); [|destruct (slot_card_present s && _)].
      * destruct (prober_build_objects (ri_id reader) y) as [y' [objects|e|]]; [|exact Hl..].
        eapply from_start_step; [exact Hl|]. intros Hm. by apply card_arrived_ok.
      * eapply from_start_step; [exact Hl|]. intros Hm. by apply card_left_ok.
      * exact Hl.
    + destruct observation; [|exact Hl..].
      destruct (prober_build_objects (ri_id reader) y) as [y1 [objects|e|]]; [|exact Hl..].
      destruct (prober_reader_identity (ri_id reader) y1) as [y2 [ident|e|]]; [|exact Hl..].
      eapply from_start_step; [exact Hl|]. intros Hm. by apply slot_appeared_ok.
Qed.

Lemma refresh_readers_ok {Y} `{!SlotProber Y} readers : keeps from_start (refresh_readers (Y:=Y) readers).
Proof. induction readers as [|reader readers IH]; [apply keeps_ret|]. apply keeps_bind; [apply refresh_reader_ok|done]. Qed.

Lemma refresh_slots_with_ok {Y} `{!SlotProber Y} : keeps from_start (refresh_slots_with (Y:=Y)).
Proof.
  intros [[m p] y] Hl. unfold refresh_slots_with. destruct (prober_enumerate y) as [y1 [readers|e|]]; [..|exact Hl].
  - by apply (keeps_map_err _ _ _ (refresh_readers_ok readers)).
  - eapply from_start_step; [exact Hl|]. intros Hm. split; [exact Hm|]. split; [apply grows_refl|apply clear_all_spec].
Qed.
End refresh_safety.

Section process.
Context `{Rapp} `{CertificateDecoder} `{X509View} `{Sha1Hash} `{Sha256Hash} `{HmacSha256} `{CardTransport T E} {X W : Type}
  `{!ReaderBackend X T} `{!ReaderAttributes X} `{!Windows W} `{!CaFiles W} `{!PhoneSession W} `{!OsRng W}.
Context {R O : Type} `{PasswordLengthRange R} `{!AuthenticationObjectsOps R O}.
Context (pin_change : bool) (LIBRARY_VERSION TOKEN_FIRMWARE_VERSION : CkVersion).
Context (env_text : bytes → W → option bytes).

(** The caches that may hold a PIN without a session. *)
Context (late : nat → Prop).

Abbreviation System := (Sys X W).
Abbreviation Proc := (Process X W).

Definition live_ok_at (s : System) : Prop := live_ok late s.1.

Lemma refresh_pairings_ok l0 store now pairs : keeps (from_start l0) (refresh_pairings (W:=W) store now pairs).
Proof.
  induction pairs as [|record pairs IH]; intros [[m p] w] Hl; [exact Hl|]. cbn [refresh_pairings].
  match goal with |- context [match ?a with (_, _) => _ end] => destruct a as [w1 r] end.
  assert (∀ parsed, from_start l0 ((refresh_pairing record parsed m, p), w1)) as Hstep.
  { intros parsed. eapply from_start_step; [exact Hl|]. intros Hm. by apply refresh_pairing_ok. }
  destruct r; [apply IH, Hstep..|exact Hl].
Qed.

Lemma refresh_remote_slots_ok l0 : keeps (from_start l0) (refresh_remote_slots (W:=W)).
Proof.
  intros [l w] Hl. unfold refresh_remote_slots. destruct (load (unix_time_ms w) w) as [w1 [store|e|]]; [|exact Hl..].
  apply refresh_pairings_ok. eapply from_start_step; [exact Hl|]. intros Hm. by apply withdraw_slots_ok.
Qed.

Lemma refresh_slots_ok l0 : keeps (from_start l0) (refresh_slots (X:=X) (W:=W)).
Proof.
  apply keeps_bind; [apply keeps_attempt, refresh_slots_with_ok|]. intros _. apply keeps_map_err. intros [l [x w]] Hl.
  unfold beside_readers. pose proof (refresh_remote_slots_ok l0 (l, w) Hl) as Hr.
  by destruct (refresh_remote_slots (l, w)) as [[l' w'] r].
Qed.

Lemma refresh_live : keeps live_ok_at (refresh_slots (X:=X) (W:=W)).
Proof.
  intros [l y] Hl. eapply live_ok_refreshed; [exact Hl|]. apply (refresh_slots_ok l). apply refreshed_refl. apply Hl.
Qed.

(** ** The other operations under the lock *)

Lemma sessions_on_spec id m : sessions_on id m = true ↔ ∃ h s, sessions m !! h = Some s ∧ se_slot_id s = id.
Proof.
  unfold sessions_on. rewrite existsb_exists. split.
  - intros ([h s] & Hin & Hid%Z.eqb_eq). exists h, s. split; [|done]. by apply elem_of_map_to_list, list_elem_of_In.
  - intros (h & s & Hs & <-). exists (h, s). split; [|apply Z.eqb_refl]. by apply list_elem_of_In, elem_of_map_to_list.
Qed.

(** Changes that touch neither slots, sessions nor PIN caches. *)
Record same_core (m m' : ModuleState) : Prop := {
  sc_slots : slots m' = slots m;
  sc_next : next_slot_id m' = next_slot_id m;
  sc_sessions : sessions m' = sessions m;
  sc_handle : next_session_handle m' = next_session_handle m;
  sc_pins : pin_caches m' = pin_caches m;
  sc_tokens : ∀ id, is_Some (token_cache m !! id) → is_Some (token_cache m' !! id);
}.
Lemma live_ok_same_core m m' p p' : live_ok late (m, p) → same_core m m' → fewer p p' → live_ok late (m', p').
Proof.
  intros Hl [Hs Hn Hse Hh Hp Ht] Hf. assert (keys m' = keys m) as Hk by (unfold keys; by rewrite Hs).
  eapply live_ok_grows; [exact Hl| |by split; rewrite ?Hk|exact Hf]. pose proof (lo_module _ _ Hl) as Hm. cbn in Hm.
  apply (module_ok_same_keys m); [done..|]. intros Hlt s. rewrite Hs. intros Hin Hpres. by apply Ht, (mo_cached _ Hm Hlt).
Qed.

Lemma logout_live id l : live_ok late l → live_ok late (logout id l).
Proof. destruct l as [m p]. intros Hl. eapply live_ok_same_core; [exact Hl|by split|apply fewer_clear_slot]. Qed.

Lemma cache_objects_live id objects m p : live_ok late (m, p) → live_ok late (cache_objects id objects m, p).
Proof.
  intros Hl. eapply live_ok_same_core; [exact Hl| |apply fewer_refl]. split; try done. intros id'. apply insert_keeps_others.
Qed.

(** Sessions opened, changed and closed. *)
Lemma sessions_live m p s' next : live_ok late (m, p) →
  SESSION_HANDLE_BASE ≤ next ≤ u32_max →
  (next < u32_max → ∀ h, is_Some (s' !! h) → SESSION_HANDLE_BASE ≤ h < next) →
  (∀ h s, s' !! h = Some s → se_slot_id s ∈ (keys m).*1) →
  (next < u32_max → next_session_handle m < u32_max ∧
     ∀ id r, holds p r → pin_caches m !! id = Some r → sessions_on id m = true → ∃ h s, s' !! h = Some s ∧ se_slot_id s = id) →
  live_ok late (mkModuleState (slots m) (next_slot_id m) s' next (pin_caches m) (token_cache m) (event_reported m)
             (remote_logged_in m), p).
Proof.
  intros [Hm Hp Hpin Hc] Hnext Hlt Hids Hon. cbn in *. destruct Hm. split; cbn; [by split|done|done|].
  intros r Hr. destruct (Hc r Hr) as [?|(id & Hid & Hs)]; [by left|]. right. exists id. split; [done|]. cbn in *. intros [Hold Hkeep]%Hon.
  apply sessions_on_spec. by eapply Hkeep; [..|apply Hs].
Qed.

Lemma open_session_live id flags s m p : live_ok late (m, p) → slot id m = Some s → live_ok late ((open_session id flags m).1, p).
Proof.
  intros Hl Hslot. pose proof (lo_module _ _ Hl) as Hm. cbn in Hm. apply sessions_live; [done|..].
  - pose proof (mo_handle _ Hm). unfold saturating_next, SESSION_HANDLE_BASE in *. lia.
  - intros Hlt h. assert (next_session_handle m < u32_max) as Hn by (unfold saturating_next in Hlt; lia).
    pose proof (mo_handle _ Hm). assert (saturating_next (next_session_handle m) = next_session_handle m + 1) as ->
      by (unfold saturating_next in *; lia).
    rewrite lookup_insert. case_decide as Hh; [subst; lia|]. intros Hs. pose proof (mo_handles _ Hm Hn h Hs). lia.
  - intros h s'. rewrite lookup_insert. case_decide; [|apply (mo_sessions _ Hm)]. intros [= <-]. cbn.
    unfold slot in Hslot. apply find_some in Hslot as [Hin Hid%Z.eqb_eq]. rewrite keys_ids. subst id.
    apply list_elem_of_In. by apply in_map.
  - intros Hlt. assert (next_session_handle m < u32_max) as Hn by (unfold saturating_next in Hlt; lia). split; [done|].
    intros id' r _ _ (h & s' & Hs' & Hid)%sessions_on_spec. exists h, s'. split; [|done]. rewrite lookup_insert_ne; [done|].
    intros <-. pose proof (mo_handles _ Hm Hn _ (mk_is_Some _ _ Hs')). lia.
Qed.

Lemma update_session_live h f m p : (∀ s, se_slot_id (f s) = se_slot_id s) → live_ok late (m, p) → live_ok late (update_session h f m, p).
Proof.
  intros Hf Hl. pose proof (lo_module _ _ Hl) as Hm. cbn in Hm.
  assert (∀ h' s, alter f h (sessions m) !! h' = Some s → ∃ s0, sessions m !! h' = Some s0 ∧ se_slot_id s = se_slot_id s0) as Hback.
  { intros h' s. rewrite lookup_alter. case_decide; [|eauto]. subst. intros (s0 & Hs0 & ->)%fmap_Some. eauto. }
  apply sessions_live; [done|apply (mo_handle _ Hm)|..].
  - intros Hlt h' [s (s0 & Hs0 & _)%Hback]. by apply (mo_handles _ Hm).
  - intros h' s (s0 & Hs0 & ->)%Hback. by eapply (mo_sessions _ Hm).
  - intros Hlt. split; [done|]. intros id r _ _ (h' & s & Hs & <-)%sessions_on_spec.
    destruct (decide (h = h')) as [<-|Hne].
    + exists h, (f s). split; [|apply Hf]. by rewrite lookup_alter_eq, Hs.
    + exists h', s. split; [|done]. by rewrite lookup_alter_ne.
Qed.

(** After some sessions went and what no session is left for was cleared. *)
Lemma drop_sessions_live m p p' s' : live_ok late (m, p) → s' ⊆ sessions m → fewer p p' →
  (∀ id r, holds p' r → pin_caches m !! id = Some r → sessions_on id m = true → ∃ h s, s' !! h = Some s ∧ se_slot_id s = id) →
  live_ok late (set_sessions s' m, p').
Proof.
  intros Hl Hsub Hf Hon. assert (live_ok late (m, p')) as Hl' by (eapply live_ok_same_core; [exact Hl|by split|done]).
  pose proof (lo_module _ _ Hl') as Hm. cbn in Hm. apply sessions_live; [done|apply (mo_handle _ Hm)|..].
  - intros Hlt h [s Hs]. apply (mo_handles _ Hm Hlt). exists s. by eapply lookup_weaken.
  - intros h s Hs. eapply (mo_sessions _ Hm). by eapply lookup_weaken.
  - intros Hlt. split; [done|exact Hon].
Qed.

Lemma close_session_live h l : live_ok late l → live_ok late (close_session h l).1.
Proof.
  destruct l as [m p]. intros Hl. unfold close_session. destruct (sessions m !! h) as [closed|] eqn:Hh; [|done]. cbn [fst].
  set (s' := delete h (sessions m)). assert (s' ⊆ sessions m) as Hsub by apply delete_subseteq.
  assert (∀ id, se_slot_id closed ≠ id → sessions_on id m = true → ∃ h s, s' !! h = Some s ∧ se_slot_id s = id) as Hothers.
  { intros id Hne (h' & s & Hs & <-)%sessions_on_spec. exists h', s. split; [|done]. unfold s'. rewrite lookup_delete_ne; [done|].
    intros <-. congruence. }
  unfold forget_login_if_no_sessions. destruct (sessions_on (se_slot_id closed) (set_sessions s' m)) eqn:Hleft.
  - eapply drop_sessions_live; [exact Hl|done|apply fewer_refl|]. intros id r _ _ Hon.
    destruct (decide (se_slot_id closed = id)) as [<-|Hne]; [by apply sessions_on_spec in Hleft|by apply Hothers].
  - apply (live_ok_same_core (set_sessions s' m) _ (clear_slot_pin (se_slot_id closed) m p)); [|by split|apply fewer_refl].
    apply (drop_sessions_live m p); [exact Hl|exact Hsub|apply fewer_clear_slot|]. intros id r Hr Hid Hon. apply Hothers; [|done].
    intros <-. by apply (not_holds_clear_slot _ _ _ _ Hid) in Hr.
Qed.

Lemma close_all_sessions_live id l : live_ok late l → live_ok late (close_all_sessions id l).
Proof.
  destruct l as [m p]. intros Hl. unfold close_all_sessions. set (s' := filter _ _).
  apply (live_ok_same_core (set_sessions s' m) _ (clear_slot_pin id m p)); [|by split|apply fewer_refl].
  apply (drop_sessions_live m p); [exact Hl|apply map_filter_subseteq|apply fewer_clear_slot|].
  intros id' r Hr Hid (h & s & Hs & <-)%sessions_on_spec. exists h, s. split; [|done]. apply map_lookup_filter_Some. split; [done|].
  intros Heq. cbn in Heq. rewrite Heq in Hid. by apply (not_holds_clear_slot _ _ _ _ Hid) in Hr.
Qed.

(** A slot took over its reader's cache. *)
Lemma adopt_cache_live id name r m p : live_ok late (m, p) → pin_caches m !! id = None →
  reader_name id m = Some name → pc_process p !! name = Some r → live_ok late (set_pin_caches (<[id := r]> (pin_caches m)) m, p).
Proof.
  intros [Hm Hp Hpin Hc] Hnone Hname Hr. cbn in *. split; cbn; [by destruct Hm|done|..].
  - intros id' r'. cbn. rewrite lookup_insert. case_decide as Hid; [|apply Hpin]. intros [= <-]. subst id'. by exists name.
  - intros r' [?|(id' & Hid' & Hon)]%Hc; [by left|]. right. cbn in *. exists id'. split; [|exact Hon]. rewrite lookup_insert_ne; [done|congruence].
Qed.

Lemma new_cache_live name c m p : live_ok late (m, p) → pc_process p !! name = None → psc_held_pin1 c = None →
  live_ok late (m, mkPinCaches (pc_heap p ++ [c]) (<[name := length (pc_heap p)]> (pc_process p))).
Proof.
  intros [Hm [Hv Ho] Hpin Hc] Hnone Hheld. cbn in *. split; cbn; [done|split; cbn|..].
  - intros n r. rewrite length_app, lookup_insert. cbn. case_decide; [intros [= <-]; lia|intros ?%Hv; lia].
  - intros n n' r. rewrite !lookup_insert. repeat case_decide; try congruence; try apply Ho.
    + intros [= <-] ?%Hv. lia.
    + intros ?%Hv [= <-]. lia.
  - intros id r. cbn. intros (n & Hn & Hr)%Hpin. cbn in *. exists n. split; [done|]. rewrite lookup_insert_ne; [done|congruence].
  - intros r (c' & Hc' & Hh). apply Hc. exists c'. split; [|done]. unfold cache_at in *. cbn in *.
    apply lookup_app_Some in Hc' as [?|[_ Hl]]; [done|]. apply list_lookup_singleton_Some in Hl as [_ <-].
    rewrite Hheld in Hh. by destruct Hh.
Qed.

Lemma pin_cache_live id (s : System) : live_ok late s.1 →
  let out := pin_cache id s in
  live_ok late out.1.1 ∧ sessions out.1.1.1 = sessions s.1.1
  ∧ next_session_handle out.1.1.1 = next_session_handle s.1.1
  ∧ ∀ r, out.2 = Ok r → pin_caches out.1.1.1 !! id = Some r.
Proof.
  destruct s as [[m p] [x w]]. cbn [fst]. intros Hl. unfold pin_cache.
  destruct (pin_caches m !! id) as [r|] eqn:Hr; [split; [done|]; split; [done|]; split; [done|]; by intros r' [= <-]|].
  destruct (reader_name id m) as [name|] eqn:Hname; [|done].
  destruct (pc_process p !! name) as [r|] eqn:Hp.
  - cbn. split; [by eapply adopt_cache_live|]. split; [done|]. split; [done|]. intros r' [= <-]. apply lookup_insert_eq.
  - destruct (rng_fill FINGERPRINT_KEY_BYTES w) as [w' key]. unfold PinSafetyCache_new.
    destruct key as [key|e|]; cbn [result_bind]; [|done..]. cbn. split; [|split; [done|]; split; [done|]].
    + apply (adopt_cache_live id name); [by apply new_cache_live|done..|]. cbn. apply lookup_insert_eq.
    + intros r' [= <-]. apply lookup_insert_eq.
Qed.

Lemma ensure_token_live id (s : System) : live_ok late s.1 →
  let out := ensure_token id s in
  live_ok late out.1.1 ∧ slots out.1.1.1 = slots s.1.1 ∧ sessions out.1.1.1 = sessions s.1.1.
Proof.
  destruct s as [[m p] [x w]]. cbn [fst]. intros Hl. unfold ensure_token.
  destruct (token_cache m !! id); [done|]. destruct (reader_name id m) as [name|]; [|done].
  destruct (match strip_prefix RAPP_PREFIX name with Some hex_id => _ | None => _ end) as [y [objects|e|]]; [|done..].
  split; [by apply cache_objects_live|done].
Qed.

(** ** Calls *)

Definition process_inv (s : Proc) : Prop :=
  match s.1.1 with
  | Some m => live_ok late (m, s.1.2)
  | None => process_ok s.1.2 ∧ ∀ r, holds s.1.2 r → late r
  end.

Lemma with_module_ends {A} (m : act System Z A) (Q : A → System → Prop) (Q' : A → Proc → Prop) s :
  process_inv s →
  (∀ live y, live_ok late live → ends live_ok_at Q (m (live, y))) →
  (∀ a module p y, Q a ((module, p), y) → Q' a ((Some module, p), y)) →
  ends process_inv Q' (with_module m s).
Proof.
  destruct s as [[[module|] p] y]; unfold with_module; [|intros Hi _ _; by split]. intros Hi Hm HQ.
  destruct (Hm (module, p) y Hi) as [Hl Ha]. revert Hl Ha. destruct (m (module, p, y)) as [[[module' p'] y'] r]. cbn.
  intros Hl Ha. split; [exact Hl|]. intros a Hr. by apply HQ, Ha.
Qed.

Lemma with_module_keeps {A} (m : act System Z A) : keeps live_ok_at m → keeps process_inv (with_module m).
Proof.
  intros Hm s Hi. eapply ends_kept, (with_module_ends m anything anything); [done| |done].
  intros live y Hl. by apply ends_keeps.
Qed.

Lemma consult_keeps {A} (f : Live → A) : keeps live_ok_at (consult (X:=X) (W:=W) f).
Proof. by intros [l y] Hl. Qed.
Lemma change_keeps {A} (f : Live → Live * A) : (∀ l, live_ok late l → live_ok late (f l).1) → keeps live_ok_at (change (X:=X) (W:=W) f).
Proof. intros Hf [l y] Hl. specialize (Hf l Hl). unfold change. by destruct (f l). Qed.
Lemma require_keeps {A} (o : option A) e : keeps live_ok_at (require (X:=X) (W:=W) o e).
Proof. apply keeps_lift. Qed.
Lemma live_session_keeps h : keeps live_ok_at (live_session (X:=X) (W:=W) h).
Proof. apply keeps_bind; [apply consult_keeps|]. intros s. apply require_keeps. Qed.
Lemma update_session_keeps h f : (∀ s, se_slot_id (f s) = se_slot_id s) →
  keeps live_ok_at (update_module (X:=X) (W:=W) (update_session h f)).
Proof. intros Hf. apply change_keeps. intros [m p] Hl. by apply update_session_live. Qed.
Lemma session_mut_keeps {A} h (f : Session → Session * A) : (∀ s, se_slot_id (f s).1 = se_slot_id s) →
  keeps live_ok_at (session_mut (X:=X) (W:=W) h f).
Proof.
  intros Hf. apply keeps_bind; [apply live_session_keeps|]. intros s. apply keeps_bind; [by apply update_session_keeps|].
  intros _. apply keeps_ret.
Qed.
Lemma next_find_batch_slot max s : se_slot_id (next_find_batch max s).1 = se_slot_id s.
Proof. unfold next_find_batch. by destruct (se_find s). Qed.
Lemma take_find_slot s : se_slot_id (take_find s).1 = se_slot_id s.
Proof. done. Qed.
Lemma ensure_token_keeps id : keeps live_ok_at (ensure_token (X:=X) (W:=W) id).
Proof. intros s Hl. by apply ensure_token_live. Qed.
Lemma pin_cache_keeps id : keeps live_ok_at (pin_cache (X:=X) (W:=W) id).
Proof. intros s Hl. by apply pin_cache_live. Qed.
Lemma set_remote_keeps id b : keeps live_ok_at (update_module (X:=X) (W:=W) (set_remote_logged_in id b)).
Proof.
  apply change_keeps. intros [m p] Hl. eapply live_ok_same_core; [exact Hl|by split|apply fewer_refl].
Qed.
Lemma take_slot_event_keeps : keeps live_ok_at (change_module (X:=X) (W:=W) take_slot_event).
Proof.
  apply change_keeps. intros [m p] Hl. cbn. unfold take_slot_event. destruct (first_unreported _ _); [|exact Hl].
  eapply live_ok_same_core; [exact Hl|by split|apply fewer_refl].
Qed.
Lemma at_readers_keeps {A} (m : act X Z A) : keeps process_inv (at_readers (W:=W) m).
Proof. intros [s [x w]] Hi. unfold at_readers. by destruct (m x). Qed.
End process.

Create HintDb keeps.
#[export] Hint Resolve keeps_ret keeps_err keeps_lift keeps_attempt with_module_keeps refresh_live consult_keeps require_keeps
  live_session_keeps session_mut_keeps next_find_batch_slot take_find_slot ensure_token_keeps pin_cache_keeps set_remote_keeps take_slot_event_keeps at_readers_keeps : keeps.

(** Splits a call into its steps. *)
Ltac keeps_steps :=
  repeat (intros; first [solve [eauto with keeps] | apply keeps_bind | apply with_module_keeps
                        | progress cbn beta iota zeta | case_match]); intros.

(** ** Every call keeps the invariant *)

Section safety_calls.
Context `{Rapp} `{CertificateDecoder} `{X509View} `{Sha1Hash} `{Sha256Hash} `{HmacSha256} `{CardTransport T E} {X W : Type}
  `{!ReaderBackend X T} `{!ReaderAttributes X} `{!Windows W} `{!CaFiles W} `{!PhoneSession W} `{!OsRng W}.
Context {R O : Type} `{PasswordLengthRange R} `{!AuthenticationObjectsOps R O}.
Context (pin_change : bool) (LIBRARY_VERSION TOKEN_FIRMWARE_VERSION : CkVersion).
Context (env_text : bytes → W → option bytes).

Context (late : nat → Prop).
Abbreviation Proc := (Process X W).

Lemma empty_module_live p : process_ok p → (∀ r, holds p r → late r) → live_ok late (empty_module, p).
Proof.
  intros Hp Hr. split; cbn; [|done|by intros id r Hid|by intros r Hh%Hr; left].
  split; cbn; try done; try (by intros _ h [? ?]); try (unfold SLOT_ID_BASE, SESSION_HANDLE_BASE, u32_max; lia).
  - apply base.NoDup_nil_2.
  - intros _. split; [apply base.NoDup_nil_2|]. by intros id ?%elem_of_nil.
  - by intros _ s ?%elem_of_nil.
Qed.

Lemma initialize_inv args : keeps (process_inv late) (c_initialize (X:=X) (W:=W) args).
Proof.
  intros [[o p] y] Hi. unfold c_initialize. destruct args as [[]|]; [|exact Hi|].
  all: destruct o as [m|]; [exact Hi|]; destruct Hi as [Hp Hr].
  all: pose proof (refresh_live (X:=X) (W:=W) late ((empty_module, p), y) (empty_module_live p Hp Hr)) as Hl.
  all: by destruct (refresh_slots _) as [[[m p'] y'] r].
Qed.

Lemma finalize_inv null : keeps (process_inv late) (c_finalize (X:=X) (W:=W) null).
Proof.
  intros [[o p] y] Hi. unfold c_finalize. destruct null; cbn [negb]; [|exact Hi]. destruct o as [m|]; [|exact Hi].
  destruct Hi as [Hm Hp Hpin Hc]. cbn in *. destruct (clear_all_spec m p) as [Hf Hcl]. split; [by eapply process_ok_fewer|].
  intros r Hr. destruct (Hc r (fw_holds _ _ Hf r Hr)) as [?|(id & Hid & _)]; [done|]. exfalso. by apply (Hcl id r Hid).
Qed.

Lemma open_session_inv id flags null : keeps (process_inv late) (c_open_session (X:=X) (W:=W) id flags null).
Proof.
  unfold c_open_session. destruct null; [apply keeps_err|]. destruct (_ =? 0); [apply keeps_err|].
  apply with_module_keeps. intros [[m p] y] Hl. unfold act_bind, consult, require, act_lift.
  destruct (slot id m) as [s|] eqn:Hs; cbn; [|exact Hl]. destruct (slot_card_present s); cbn; [|exact Hl].
  by apply (open_session_live late id flags s).
Qed.

(** A run at a cache that a slot of an open session has, or that leaves nothing new. *)
Lemma at_cache_inv {A} r (m : act (X * PinSafetyCache * W) Z A) (s : Proc) : process_inv late s →
  ((∃ module id, s.1.1 = Some module ∧ pin_caches module !! id = Some r ∧ sessions_on id module = true)
   ∨ ∀ x c w, is_Some (psc_held_pin1 (m ((x, c), w)).1.1.2) → is_Some (psc_held_pin1 c)) →
  process_inv late (at_cache r m s).1.
Proof.
  destruct s as [[o p] [x w]]. intros Hi Hr. unfold at_cache. destruct (cache_at p r) as [c|] eqn:Hc; [|exact Hi].
  destruct (m (x, c, w)) as [[[x' c'] w'] a] eqn:Hm. cbn.
  assert (∀ r', holds (update_cache r (λ _, c') p) r' → r' = r ∧ is_Some (psc_held_pin1 c') ∨ holds p r') as Hback.
  { intros r' (c0 & Hc0 & Hh)%holds_update. destruct (decide (r = r')) as [->|]; [by left|right]. by exists c0. }
  assert (is_Some (psc_held_pin1 c') → (∀ x c w, is_Some (psc_held_pin1 (m ((x, c), w)).1.1.2) → is_Some (psc_held_pin1 c)) → holds p r) as Hless.
  { intros Hh Hk. exists c. split; [done|]. specialize (Hk x c w). rewrite Hm in Hk. by apply Hk. }
  destruct o as [module|].
  - destruct Hi as [Hmod [Hv Ho] Hpin Hconf]. cbn in *. split; cbn; [done|split; cbn; [by rewrite length_alter|done]|done|].
    intros r' Hr'. destruct (Hback r' Hr') as [[-> Hh]|Hh]; [|by apply Hconf].
    destruct Hr as [(module' & id & [= <-] & Hid & Hon)|Hk]; [by right; exists id|]. apply Hconf. by apply Hless.
  - destruct Hi as [[Hv Ho] Hnone]. cbn in *. split; [split; cbn; [by rewrite length_alter|done]|].
    intros r' Hr'. destruct (Hback r' Hr') as [[-> Hh]|Hh]; [|by apply (Hnone r')].
    destruct Hr as [(module' & id & [=] & _)|Hk]. apply (Hnone r). by apply Hless.
Qed.

Lemma login_check_spec handle user_type pin (s : Proc) : process_inv late s →
  ends (process_inv late) (λ checked s, ∀ name r pin1, checked = Some (name, r, pin1) →
    ∃ module id, s.1.1 = Some module ∧ pin_caches module !! id = Some r ∧ sessions_on id module = true)
    (login_check (X:=X) (W:=W) handle user_type pin s).
Proof.
  intros Hi. unfold login_check. destruct (negb _); [by apply ends_err|].
  eapply (with_module_ends _ _ (λ checked (s : Sys X W), ∀ name r pin1, checked = Some (name, r, pin1) →
    ∃ id, pin_caches s.1.1 !! id = Some r ∧ sessions_on id s.1.1 = true)); [done| |].
  2:{ intros checked module p y HQ name r pin1 Heq. destruct (HQ _ _ _ Heq) as (id & ? & ?). by exists module, id. }
  intros [m p] y Hl. apply ends_bind_look; [|exact Hl|].
  { unfold live_session, act_bind, consult, require, act_lift. by destruct (session handle m). }
  intros se Hse. cbn zeta. assert (sessions_on (se_slot_id se) m = true) as Hon.
  { apply sessions_on_spec. exists handle, se. split; [|done]. revert Hse. unfold live_session, act_bind, consult, require, act_lift.
    destruct (session handle m) as [se'|] eqn:Hs; [|done]. by intros [= <-]. }
  apply ends_bind_look; [done|exact Hl|]. intros n _. apply ends_bind_look; [done|exact Hl|]. intros name _.
  destruct (is_remote name).
  { apply (ends_bind _ _ _ anything); [apply ends_keeps; [apply set_remote_keeps|exact Hl]|]. intros _ s' Hl1 _.
    by apply ends_ret. }
  apply ends_bind_look; [done|exact Hl|]. intros b _. destruct b; [by apply ends_err|].
  apply ends_bind_look; [done|exact Hl|]. intros bs _. apply ends_bind_look; [done|exact Hl|]. intros pin1 _.
  apply ends_bind_look; [done|exact Hl|]. intros u _.
  destruct (pin_cache_live (X:=X) (W:=W) late (se_slot_id se) ((m, p), y) Hl) as (Hl1 & Hse1 & _ & Hr1).
  eapply (ends_bind _ _ _ (λ r (s : Sys X W), pin_caches s.1.1 !! se_slot_id se = Some r ∧ sessions_on (se_slot_id se) s.1.1 = true)).
  { split; [exact Hl1|]. intros r Hr. split; [by apply Hr1|]. unfold sessions_on. rewrite Hse1. exact Hon. }
  intros r s' Hl2 [Hr Hon2]. apply ends_ret; [done|]. intros ??? [= <- <- <-]. by exists (se_slot_id se).
Qed.

Lemma login_inv handle user_type pin : keeps (process_inv late) (c_login (X:=X) (W:=W) handle user_type pin id).
Proof.
  intros s Hi. eapply (ends_kept _ anything), ends_bind; [by apply login_check_spec|]. intros [[[name r] pin1]|] s' Hi' Hc; [|by apply ends_ret].
  split; [|done]. apply (at_cache_inv r (on_card (card_login name id pin1)) s' Hi'). left. by eapply Hc.
Qed.

(** A signature holds no PIN that was not held before. *)
Lemma sign_session_less mechanism input (t : T) c :
  is_Some (psc_held_pin1 (card_sign_session id id mechanism input (t, c)).1.2) → is_Some (psc_held_pin1 c).
Proof.
  set (held_before := is_Some (psc_held_pin1 c)). set (P := λ s : T * PinSafetyCache, is_Some (psc_held_pin1 s.2) → held_before).
  assert (∀ A (m : act T Z A), keeps P (on_card m)) as Hcard.
  { intros A m [t1 c1] HP. unfold on_card. by destruct (m t1). }
  assert (keeps P (card_sign_session id id mechanism input)) as Hk; [|exact (Hk (t, c) (λ h, h))].
  unfold card_sign_session. apply keeps_bind; [apply Hcard|]. intros _. apply keeps_bind; [apply Hcard|]. intros serial.
  apply keeps_bind; [apply Hcard|]. intros status. destruct (pin1_verify_guard status) as [[]|e|]; [| |apply keeps_lift].
  - intros [t1 c1] HP. rewrite locked_bind. unfold id. unfold PinSafetyCache_checkout_pin1.
    destruct (psc_held_pin1 c1) as [entry|] eqn:Hheld; [|exact HP].
    assert held_before as HH by (apply HP; cbn; by rewrite Hheld).
    intros _. exact HH.
  - apply keeps_bind; [|intros _; apply keeps_err]. intros [t1 c1] HP. by intros [? ?].
Qed.

Lemma card_sign_less name mechanism input origin x c w :
  is_Some (psc_held_pin1 (card_sign (X:=X) env_text name id id mechanism input origin ((x, c), w)).1.1.2) → is_Some (psc_held_pin1 c).
Proof.
  unfold card_sign, card_sign_with_origin_source. destruct (strip_prefix RAPP_PREFIX name) as [hex|].
  - destruct (remote_origin _ _); [|done]. unfold in_system. by destruct (remote_card_sign _ _ _ _ _).
  - unfold on_card, with_card. destruct (backend_open_session name Rac_PinSequence x) as [x1 [t|e|]]; [|done..].
    pose proof (sign_session_less mechanism input t c) as Hl. by destruct (card_sign_session id id mechanism input (t, c)) as [[t' c'] r].
Qed.

(** What [C_Sign] does under the lock. *)
Lemma live_session_known {A} handle m p y se (k : Session → act (Sys X W) Z A) : session handle m = Some se →
  act_bind (live_session handle) k ((m, p), y) = k se ((m, p), y).
Proof. intros Hse. unfold live_session, act_bind, consult, require, act_lift. by rewrite Hse. Qed.

Lemma sign_check_query handle null capacity (s : Proc) m se mechanism :
  s.1.1 = Some m → session handle m = Some se → se_sign se = Some mechanism →
  null = true ∨ capacity < Mechanism_signature_len mechanism →
  sign_check handle null capacity s
  = (s, Ok (inl (if null then CKR_OK else CKR_BUFFER_TOO_SMALL, Mechanism_signature_len mechanism, None))).
Proof.
  destruct s as [[o p] y]. cbn [fst snd]. intros -> Hse Hop Hq. unfold sign_check, with_module.
  rewrite (live_session_known _ _ _ _ _ _ Hse), Hop. unfold require. cbn [ok_or]. rewrite act_lift_ok.
  assert (ulong_from_usize (Mechanism_signature_len mechanism) = Mechanism_signature_len mechanism) as -> by by destruct mechanism.
  destruct null; [done|]. destruct Hq as [?|Hlt]; [done|]. unfold usize_from_ulong. by rewrite (proj2 (Z.ltb_lt _ _) Hlt).
Qed.

Lemma sign_check_spends handle capacity (s : Proc) m se mechanism :
  s.1.1 = Some m → session handle m = Some se → se_sign se = Some mechanism →
  Mechanism_signature_len mechanism ≤ capacity →
  let out := sign_check handle false capacity s in
  out.2 = Panic ∨ ∃ m', out.1.1.1 = Some m' ∧ session handle m' = Some (clear_sign se)
                        ∧ ∀ checked, out.2 = Ok checked → ∃ ask, checked = inr ask.
Proof.
  destruct s as [[o p] y]. cbn [fst snd]. intros -> Hse Hop Hc. unfold sign_check, with_module.
  rewrite (live_session_known _ _ _ _ _ _ Hse), Hop. unfold require. cbn [ok_or]. rewrite act_lift_ok.
  unfold usize_from_ulong. rewrite (proj2 (Z.ltb_ge _ _) Hc).
  assert (∀ m', sessions m' = sessions m → session handle (module_clear_sign handle m') = Some (clear_sign se)) as Hclear.
  { intros m' Hs. unfold session, module_clear_sign, update_session. cbn. rewrite Hs, lookup_alter_eq. unfold session in Hse. by rewrite Hse. }
  unfold act_bind, consult, act_attempt. destruct (reader_name (se_slot_id se) m) as [name|]; [|right; exists (module_clear_sign handle m); split; [done|]; split; [by apply Hclear|done]].
  assert (∃ m1 p1 y1 r, pin_cache (se_slot_id se) ((m, p), y) = (((m1, p1), y1), r) ∧ sessions m1 = sessions m) as (m1 & p1 & y1 & r & -> & Hs1).
  { unfold pin_cache. destruct y as [x w]. repeat case_match; cbn; eauto 10. }
  destruct r as [r|e|]; [|right; exists (module_clear_sign handle m1); split; [done|]; split; [by apply Hclear|done]|by left].
  right. exists (module_clear_sign handle m1). split; [done|]. split; [by apply Hclear|]. intros checked [= <-]. by eexists.
Qed.

Lemma sign_check_keeps handle null capacity : keeps (process_inv late) (sign_check (X:=X) (W:=W) handle null capacity).
Proof. unfold sign_check. keeps_steps; by apply update_session_keeps. Qed.
Lemma sign_deliver_keeps handle null capacity bs :
  keeps (process_inv late) (sign_deliver (X:=X) (W:=W) handle null capacity id bs).
Proof. intros [[o p] y] Hi. unfold sign_deliver, id. destruct o as [m|]; [|exact Hi]. by destruct (session handle m). Qed.
Lemma sign_inv handle data null len : keeps (process_inv late) (c_sign (X:=X) env_text handle data null len id id id).
Proof.
  unfold c_sign. destruct len as [capacity|]; [|apply keeps_err]. apply keeps_bind; [apply sign_check_keeps|].
  intros [answer|[[name r] mechanism]]; [apply keeps_ret|]. apply keeps_bind; [|intros bs; apply sign_deliver_keeps].
  intros s Hi. apply at_cache_inv; [done|]. right. intros x c w. apply card_sign_less.
Qed.
End safety_calls.
