(* ===== verification/Pkcs11Threads.v ===== *)
(** The PKCS#11 module under the calls of several threads. A call is cut where the source
    lets go of a lock: each part of it runs while its thread has the lock of the module or
    of a PIN cache, and parts of different calls follow one another in any order. Run alone,
    the parts of a call do what its definition in Pkcs11Api.v does. *)

From stdpp Require Import gmap.
From S2P Require Import Prelude CryptoCrates StatusWord Transport Apdu Pin Auth RetryFloor Pkcs15 PinLengths PinOps TokenInfo CardPin.
From S2P Require Import PinCache Rapp PairingStore ProtectedStore Pace Wire Cryptoki Pkcs11Sign Pkcs11Token.
From S2P Require Import CaCache Pkcs11Card Pkcs11Remote Pkcs11State Pkcs11Api Pkcs11Safety.

(** ** Calls in parts *)

(** What a thread still has to do in the state [S]: nothing, its answer being known, or a
    part that runs at once, and what comes after it. *)
Inductive thread (S A : Type) : Type :=
| Answers (r : result Z A)
| Runs (part : S → S) (next : S → thread S A).
Arguments Answers {S A} r.
Arguments Runs {S A} part next.

Section threads.
Context {S : Type}.

(** One part. *)
Definition at_once {A} (m : act S Z A) : thread S A := Runs (λ s, (m s).1) (λ s, Answers (m s).2).

Fixpoint thread_bind {A B} (t : thread S A) (k : A → thread S B) : thread S B :=
  match t with
  | Answers (Ok a) => k a
  | Answers (Err e) => Answers (Err e)
  | Answers Panic => Answers Panic
  | Runs part next => Runs part (λ s, thread_bind (next s) k)
  end.

(** All parts, one after another. *)
Fixpoint alone {A} (t : thread S A) (s : S) : S * result Z A :=
  match t with
  | Answers r => (s, r)
  | Runs part next => alone (next s) (part s)
  end.

Lemma alone_at_once {A} (m : act S Z A) s : alone (at_once m) s = m s.
Proof. cbn. by destruct (m s). Qed.

Lemma alone_bind {A B} (t : thread S A) (k : A → thread S B) s :
  alone (thread_bind t k) s = act_bind (alone t) (λ a, alone (k a)) s.
Proof. revert s. induction t as [[a|e|]|part next IH]; intros s; [done..|]. cbn. by rewrite IH. Qed.
End threads.

Notation "'then!' x ':=' t 'in' k" := (thread_bind t (λ x, k))
  (at level 10, x pattern, t at level 100, k at level 200,
   format "'[v' 'then!'  x  ':='  t  'in' '/' k ']'") : refineid_scope.

(** ** Sessions with a card *)

Section sessions.
Context `{Rapp} `{CertificateDecoder} `{X509View} `{Sha1Hash} `{Sha256Hash} `{HmacSha256} `{CardTransport T E} {X W : Type}
  `{!ReaderBackend X T} `{!ReaderAttributes X} `{!Windows W} `{!CaFiles W} `{!PhoneSession W} `{!OsRng W}.

Abbreviation Proc := (Process X W).

(** A session has the card in a transaction of its own and comes to the other threads only
    when it locks the PIN cache. *)
Definition session_of (A : Type) : Type := T → thread Proc (T * result Z A).
Definition session_bind {A B} (m : session_of A) (k : A → session_of B) : session_of B := λ t,
  then! (t, r) := m t in
  match r with
  | Ok a => k a t
  | Err e => Answers (Ok (t, Err e))
  | Panic => Answers (Ok (t, Panic))
  end.
Notation "'talk!' x ':=' m 'in' k" := (session_bind m (λ x, k))
  (at level 10, x pattern, m at level 100, k at level 200,
   format "'[v' 'talk!'  x  ':='  m  'in' '/' k ']'").
Definition talk_card {A} (m : act T Z A) : session_of A := λ t, Answers (Ok (m t)).
Definition talk_end {A} (r : result Z A) : session_of A := λ t, Answers (Ok (t, r)).
(** One part, at the card, while the cache is locked. *)
Definition with_lock {A} (r : nat) (m : act (T * PinSafetyCache) Z A) : session_of A := λ t,
  then! (t, a) := at_once (at_cache r (λ '((x, c), w), let '((t, c), a) := m (t, c) in (((x, c), w), Ok (t, a)))) in
  Answers (Ok (t, a)).
Definition lock_cache {A} (r : nat) (f : PinSafetyCache → PinSafetyCache * A) : session_of A := with_lock r (locked Datatypes.id f).
Definition lock_update (r : nat) (f : PinSafetyCache → PinSafetyCache) : session_of unit := lock_cache r (λ c, (f c, tt)).

(** The card is opened, the session runs and the card is dropped. The cache [r] is there
    for the life of the process. *)
Definition in_transaction {A} (reader : bytes) (r : nat) (session : session_of A) : thread Proc A :=
  then! t := at_once (at_cache r (λ '((x, c), w),
    match backend_open_session reader Rac_PinSequence x with
    | (x, Ok t) => (((x, c), w), Ok t)
    | (x, Err _) => (((x, c), w), Err CKR_DEVICE_ERROR)
    | (x, Panic) => (((x, c), w), Panic)
    end)) in
  then! (t, a) := session t in
  then! _ := at_once (at_readers (λ x, (backend_drop reader t x, Ok tt))) in
  Answers a.

(** [card_login_session] and [card_sign_session] in parts. A login keeps the cache locked
    from the look at the rejections to its end; a signature locks it twice. *)
Definition login_session (r : nat) (pin1 : PinBytes) : session_of unit :=
  talk! _ := talk_card (device_error select_pkcs15_application) in
  talk! serial := talk_card live_token_serial in
  talk! pin1_status := talk_card (device_error (pin_status Pin1)) in
  match pin1_verify_guard pin1_status with
  | Err error =>
      talk! _ := lock_update r PinSafetyCache_clear_positive in
      talk_end (Err error)
  | Panic => talk_end Panic
  | Ok _ =>
      with_lock r (
        do! rejected := locked Datatypes.id (λ c, (c, PinSafetyCache_is_rejected c serial Pin1 pin1)) in
        if rejected then act_err CKR_PIN_INCORRECT
        else
          do! outcome := on_card (device_error (verify_pin Pin1 pin1)) in
          match outcome with
          | Vo_Ok =>
              do! stored := locked Datatypes.id (λ c,
                if pin1_status_permits_reusable_cache pin1_status then PinSafetyCache_store_pin1 c serial pin1
                else PinSafetyCache_stage_pin1_once c serial pin1) in
              act_lift (map_err (λ _, CKR_PIN_INCORRECT) stored)
          | Vo_WrongPin _ =>
              do! _ := locked_update Datatypes.id (λ c, PinSafetyCache_record_rejected c serial Pin1 pin1) in
              act_err CKR_PIN_INCORRECT
          | Vo_Locked => act_err CKR_PIN_LOCKED
          | Vo_Other _ => act_err CKR_DEVICE_ERROR
          end)
  end.

Definition sign_session (r : nat) (mechanism : Mechanism) (input : bytes) : session_of bytes :=
  talk! _ := talk_card (device_error select_pkcs15_application) in
  talk! serial := talk_card live_token_serial in
  talk! pin1_status := talk_card (device_error (pin_status Pin1)) in
  match pin1_verify_guard pin1_status with
  | Err error =>
      talk! _ := lock_update r PinSafetyCache_clear_positive in
      talk_end (Err error)
  | Panic => talk_end Panic
  | Ok _ =>
      talk! checkout := lock_cache r (λ c, PinSafetyCache_checkout_pin1 c serial pin1_status) in
      talk! checkout := talk_end (ok_or checkout CKR_USER_NOT_LOGGED_IN) in
      let pin := hp_pin (co_entry checkout) in
      talk! outcome := talk_card (act_attempt (verify_pin Pin1 pin)) in
      match outcome with
      | Ok Vo_Ok =>
          talk! _ := lock_update r (CheckedOutPin1_restore_after_success checkout) in
          talk_card (sign_with_card mechanism input)
      | Ok (Vo_WrongPin _) =>
          talk! _ := lock_update r (λ c, PinSafetyCache_record_rejected c serial Pin1 pin) in
          talk_end (Err CKR_PIN_INCORRECT)
      | Ok Vo_Locked => talk_end (Err CKR_PIN_LOCKED)
      | Ok (Vo_Other _) => talk_end (Err CKR_DEVICE_ERROR)
      | Err _ =>
          talk! _ := lock_update r (CheckedOutPin1_restore_after_unanswered checkout) in
          talk_end (Err CKR_DEVICE_ERROR)
      | Panic => talk_end Panic
      end
  end.

Context (env_text : bytes → W → option bytes).

Definition login_at_card_parts (checked : option (bytes * nat * PinBytes)) : thread Proc unit :=
  match checked with
  | None => Answers (Ok tt)
  | Some (name, r, pin1) =>
      if is_remote name then at_once (at_cache r (act_ret tt)) else in_transaction name r (login_session r pin1)
  end.
Definition card_sign_parts (name : bytes) (r : nat) (mechanism : Mechanism) (input : bytes) : thread Proc bytes :=
  match strip_prefix RAPP_PREFIX name with
  | Some _ => at_once (at_cache r (card_sign env_text name Datatypes.id Datatypes.id mechanism input None))
  | None => in_transaction name r (sign_session r mechanism input)
  end.

(** ** The parts, run alone *)

Lemma update_cache_same r c p : cache_at p r = Some c → update_cache r (λ _, c) p = p.
Proof.
  unfold cache_at, update_cache. destruct p as [heap process]. cbn. intros Hc. f_equal.
  apply list_eq. intros i. rewrite list_lookup_alter. case_decide; [subst; by rewrite Hc|done].
Qed.
Lemma update_cache_twice r c c' p : update_cache r (λ _, c') (update_cache r (λ _, c) p) = update_cache r (λ _, c') p.
Proof. unfold update_cache. f_equal. cbn. by rewrite list_alter_alter_eq. Qed.
Lemma update_cache_at r c c' p : cache_at p r = Some c → cache_at (update_cache r (λ _, c') p) r = Some c'.
Proof. unfold cache_at, update_cache. cbn. intros Hc. by rewrite list_lookup_alter_eq, Hc. Qed.

(** The session [talk] with the cache [r], run alone, is [m]. *)
Definition plays {A} (r : nat) (talk : session_of A) (m : act (T * PinSafetyCache) Z A) : Prop :=
  ∀ t c o p y, cache_at p r = Some c →
    alone (talk t) ((o, p), y) = let '((t, c), a) := m (t, c) in (((o, update_cache r (λ _, c) p), y), Ok (t, a)).

Lemma plays_bind {A B} r talk m (talks : A → session_of B) k :
  plays r talk m → (∀ a, plays r (talks a) (k a)) → plays r (session_bind talk talks) (act_bind m k).
Proof.
  intros Hm Hk t c o p y Hc. unfold session_bind. rewrite alone_bind. unfold act_bind.
  rewrite (Hm t c o p y Hc). destruct (m (t, c)) as [[t1 c1] [a|e|]]; [|done..].
  rewrite (Hk a t1 c1 o _ y (update_cache_at _ _ _ _ Hc)). destruct (k a (t1, c1)) as [[t2 c2] b]. by rewrite update_cache_twice.
Qed.
Lemma plays_card {A} r (m : act T Z A) : plays r (talk_card m) (on_card m).
Proof. intros t c o p y Hc. unfold talk_card, on_card. cbn. destruct (m t). by rewrite update_cache_same. Qed.
Lemma plays_attempt {A F} r (m : act T F A) : plays r (talk_card (act_attempt m)) (act_attempt (on_card m)).
Proof.
  intros t c o p y Hc. unfold talk_card, act_attempt, on_card. cbn. destruct (m t) as [t1 [a|e|]]; by rewrite update_cache_same.
Qed.
Lemma plays_end {A} r (a : result Z A) : plays r (talk_end a) (act_lift a).
Proof. intros t c o p y Hc. cbn. by rewrite update_cache_same. Qed.
Lemma plays_lock {A} r (m : act (T * PinSafetyCache) Z A) : plays r (with_lock r m) m.
Proof.
  intros t c o p [x w] Hc. unfold with_lock. rewrite alone_bind. unfold act_bind. rewrite alone_at_once.
  unfold at_cache. rewrite Hc. by destruct (m (t, c)) as [[t1 c1] a].
Qed.

Ltac plays_steps := repeat first
  [ apply plays_bind; [|intros ?] | apply plays_card | apply plays_attempt | apply plays_lock
  | apply plays_end | progress cbn zeta | case_match ].

Lemma login_session_plays r pin1 : plays r (login_session r pin1) (card_login_session Datatypes.id pin1).
Proof. unfold login_session, card_login_session, lock_update, lock_cache, locked_update. plays_steps. Qed.
Lemma sign_session_plays r mechanism input :
  plays r (sign_session r mechanism input) (card_sign_session Datatypes.id Datatypes.id mechanism input).
Proof. unfold sign_session, card_sign_session, lock_update, lock_cache, locked_update. plays_steps. Qed.

Lemma in_transaction_alone {A} reader r (talk : session_of A) m s : plays r talk m →
  alone (in_transaction reader r talk) s = at_cache r (on_card (with_card reader Rac_PinSequence m)) s.
Proof.
  destruct s as [[o p] [x w]]. intros Hm. unfold in_transaction. rewrite alone_bind. unfold act_bind. rewrite alone_at_once.
  unfold at_cache, on_card, with_card. destruct (cache_at p r) as [c|] eqn:Hc; [|done].
  destruct (backend_open_session reader Rac_PinSequence x) as [x1 [t|e|]]; [|done..].
  rewrite alone_bind. unfold act_bind. rewrite (Hm t c o _ _ (update_cache_at _ _ _ _ Hc)).
  destruct (m (t, c)) as [[t1 c1] a]. by rewrite update_cache_twice.
Qed.

Lemma login_at_card_alone checked s : alone (login_at_card_parts checked) s = login_at_card Datatypes.id checked s.
Proof.
  destruct checked as [[[name r] pin1]|]; [|done]. unfold login_at_card_parts, login_at_card, card_login.
  destruct (is_remote name); [|apply in_transaction_alone, login_session_plays]. by rewrite alone_at_once.
Qed.
Lemma card_sign_alone name r mechanism input s : alone (card_sign_parts name r mechanism input) s
  = at_cache r (card_sign env_text name Datatypes.id Datatypes.id mechanism input None) s.
Proof.
  unfold card_sign_parts. destruct (strip_prefix RAPP_PREFIX name) as [hex|] eqn:Hname; [by rewrite alone_at_once|].
  rewrite (in_transaction_alone _ _ _ _ _ (sign_session_plays _ _ _)). destruct s as [[o p] [x w]]. unfold at_cache.
  destruct (cache_at p r); [|done]. unfold card_sign, card_sign_with_origin_source. by rewrite Hname.
Qed.
End sessions.

(** ** Any calls *)

Section interleavings.
Context `{Rapp} `{CertificateDecoder} `{X509View} `{Sha1Hash} `{Sha256Hash} `{HmacSha256} `{CardTransport T E} {X W : Type}
  `{!ReaderBackend X T} `{!ReaderAttributes X} `{!Windows W} `{!CaFiles W} `{!PhoneSession W} `{!OsRng W}.
Context {R O : Type} `{PasswordLengthRange R} `{!AuthenticationObjectsOps R O}.
Context (pin_change : bool) (LIBRARY_VERSION TOKEN_FIRMWARE_VERSION : CkVersion).
Context (env_text : bytes → W → option bytes).

Abbreviation Proc := (Process X W).

(** The four calls that let go of the lock of the module. *)
Definition token_info_parts (id : Z) (info_null : bool) : thread Proc CkTokenInfo :=
  if info_null then Answers (Err CKR_ARGUMENTS_BAD)
  else
    then! (reader, serial) := at_once (token_info_check id) in
    then! pin1_status := at_once (at_readers (card_pin1_status reader)) in
    Answers (Ok (token_info_value pin_change LIBRARY_VERSION TOKEN_FIRMWARE_VERSION serial pin1_status (is_remote reader))).
Definition login_parts (handle user_type : Z) (pin : option bytes) : thread Proc unit :=
  then! checked := at_once (login_check handle user_type pin) in
  login_at_card_parts checked.
Definition sign_parts (handle : Z) (data : option bytes) (signature_null : bool) (signature_len : option Z)
  : thread Proc (Z * Z * option bytes) :=
  match signature_len with
  | None => Answers (Err CKR_ARGUMENTS_BAD)
  | Some capacity =>
      then! checked := at_once (sign_check handle signature_null capacity) in
      match checked with
      | inl answer => Answers (Ok answer)
      | inr (name, cache, mechanism) =>
          then! bs := card_sign_parts env_text name cache mechanism (caller_data data) in
          at_once (sign_deliver handle signature_null capacity Datatypes.id bs)
      end
  end.
Definition set_pin_parts (handle : Z) (old_pin new_pin : option bytes) : thread Proc unit :=
  then! (name, current, new) := at_once (set_pin_check pin_change handle old_pin new_pin) in
  at_once (at_readers (card_change_pin1 (R:=R) (O:=O) name current new)).

(** The calls that run under the lock of the module from beginning to end, or that look at
    nothing. *)
Inductive locked_call : ∀ A, act Proc Z A → Prop :=
| call_initialize args : locked_call _ (c_initialize args)
| call_finalize null : locked_call _ (c_finalize null)
| call_get_info null : locked_call _ (c_get_info LIBRARY_VERSION null)
| call_get_slot_list present null count : locked_call _ (c_get_slot_list present null count)
| call_get_slot_info id null : locked_call _ (c_get_slot_info id null)
| call_get_mechanism_list id null count : locked_call _ (c_get_mechanism_list id null count)
| call_get_mechanism_info id mechanism null : locked_call _ (c_get_mechanism_info id mechanism null)
| call_open_session id flags null : locked_call _ (c_open_session id flags null)
| call_close_session handle : locked_call _ (c_close_session handle)
| call_close_all_sessions id : locked_call _ (c_close_all_sessions id)
| call_get_session_info handle null : locked_call _ (c_get_session_info handle null)
| call_logout handle : locked_call _ (c_logout handle)
| call_find_objects_init handle template count : locked_call _ (c_find_objects_init handle template count)
| call_find_objects handle null max null' : locked_call _ (c_find_objects handle null max null')
| call_find_objects_final handle : locked_call _ (c_find_objects_final handle)
| call_get_attribute_value handle object template : locked_call _ (c_get_attribute_value handle object template)
| call_sign_init handle mechanism key : locked_call _ (c_sign_init handle mechanism key)
| call_verify_init handle mechanism key : locked_call _ (c_verify_init handle mechanism key)
| call_verify handle data signature : locked_call _ (c_verify handle data signature)
| call_wait_for_slot_event flags null : locked_call _ (c_wait_for_slot_event flags null)
| call_unserved call : call ∈ unserved_calls (X:=X) (W:=W) → locked_call _ call.
(** A call and its parts. *)
Inductive api_call : ∀ A, act Proc Z A → thread Proc A → Prop :=
| call_get_token_info id null : api_call _ (c_get_token_info pin_change LIBRARY_VERSION TOKEN_FIRMWARE_VERSION id null)
    (token_info_parts id null)
| call_login handle user_type pin : api_call _ (c_login handle user_type pin Datatypes.id) (login_parts handle user_type pin)
| call_sign handle data null len :
    api_call _ (c_sign env_text handle data null len Datatypes.id Datatypes.id Datatypes.id) (sign_parts handle data null len)
| call_set_pin handle old new : api_call _ (c_set_pin (R:=R) (O:=O) pin_change handle old new) (set_pin_parts handle old new)
| call_locked A (m : act Proc Z A) : locked_call A m → api_call A m (at_once m).

Lemma api_call_alone A (m : act Proc Z A) t : api_call A m t → ∀ s, alone t s = m s.
Proof.
  destruct 1 as [id null|handle user_type pin|handle data null len|handle old new|A m _]; intros s; [..|apply alone_at_once].
  - unfold token_info_parts, c_get_token_info. destruct null; [done|]. rewrite alone_bind. unfold act_bind. rewrite alone_at_once.
    destruct (token_info_check id s) as [s1 [[reader serial]|e|]]; [|done..]. rewrite alone_bind. unfold act_bind. by rewrite alone_at_once.
  - unfold login_parts, c_login. rewrite alone_bind. unfold act_bind. rewrite alone_at_once.
    destruct (login_check _ _ _ s) as [s1 [checked|e|]]; [|done..]. apply login_at_card_alone.
  - unfold sign_parts, c_sign. destruct len as [capacity|]; [|done]. rewrite alone_bind. unfold act_bind. rewrite alone_at_once.
    destruct (sign_check _ _ _ s) as [s1 [[answer|[[name r] mechanism]]|e|]]; [done| |done..].
    rewrite alone_bind. unfold act_bind. rewrite card_sign_alone. destruct (at_cache r _ s1) as [s2 [bs|e|]]; [|done..].
    apply alone_at_once.
  - unfold set_pin_parts, c_set_pin. rewrite alone_bind. unfold act_bind. rewrite alone_at_once.
    destruct (set_pin_check _ _ _ _ s) as [s1 [[[name current] new']|e|]]; [|done..]. apply alone_at_once.
Qed.

(** *** One call after another *)

(** One call, whatever came of it, or something that happens at the readers, the cards or
    in the system while no call runs. *)
Inductive api_step : Proc → Proc → Prop :=
| step_call A (m : act Proc Z A) t s : api_call A m t → api_step s (m s).1
| step_outside s y : api_step s (s.1, y).

(** A process that has loaded the library. *)
Definition fresh_process (y : X * W) : Proc := ((None, mkPinCaches [] ∅), y).
Definition api_reach (y : X * W) (s : Proc) : Prop := rtc api_step (fresh_process y) s.

(** *** Calls of several threads *)

(** [s] holds a PIN in the cache [r]; a slot that has [r] has an open session, as long as
    the handles have not run out. *)
Definition holds_pin (s : Proc) (r : nat) : Prop :=
  ∃ c, cache_at s.1.2 r = Some c ∧ PinSafetyCache_has_positive_pin1 c = true.
Definition in_session (s : Proc) (r : nat) : Prop :=
  ∃ m id, s.1.1 = Some m ∧ pin_caches m !! id = Some r ∧
    (next_session_handle m < u32_max → ∃ handle se, session handle m = Some se ∧ se_slot_id se = id).

(** The caches that hold a PIN put there late: by a part of a call that ran when the slot
    had no session any more. [late] are those before the part that made [s'] of [s]. *)
Definition still_late (late : nat → Prop) (s s' : Proc) (r : nat) : Prop :=
  holds_pin s' r ∧ (late r ∨ ¬ holds_pin s r ∧ ¬ in_session s' r).

(** A call under way. *)
Inductive job : Type :=
| Job (A : Type) (t : thread Proc A).

(** What calls under way may have come to, and the caches that hold a PIN put there late. *)
Inductive threads_reach (y : X * W) : (nat → Prop) → Proc → list job → Prop :=
| reach_fresh : threads_reach y (λ _, False) (fresh_process y) []
| reach_call late s jobs A (m : act Proc Z A) t : threads_reach y late s jobs → api_call A m t →
    threads_reach y late s (jobs ++ [Job A t])
| reach_part late s jobs i A part (next : Proc → thread Proc A) : threads_reach y late s jobs →
    jobs !! i = Some (Job A (Runs part next)) →
    threads_reach y (still_late late s (part s)) (part s) (<[i := Job A (next s)]> jobs)
| reach_outside late s jobs y' : threads_reach y late s jobs → threads_reach y late (s.1, y') jobs.

(** *** Every part keeps the invariant *)

Lemma in_session_spec (s : Proc) r : in_session s r ↔ ∃ m id, s.1.1 = Some m ∧ pin_caches m !! id = Some r ∧
  (next_session_handle m < u32_max → sessions_on id m = true).
Proof.
  split; intros (m & id & Hm & Hid & Hs); exists m, id; (split; [done|]; split; [done|]); intros Hlt; by apply sessions_on_spec, Hs.
Qed.
Lemma holds_pin_spec (s : Proc) r : holds_pin s r ↔ holds s.1.2 r.
Proof.
  split; intros (c & Hc & Hh); exists c; (split; [done|]);
    unfold PinSafetyCache_has_positive_pin1 in *; [by apply bool_decide_eq_true in Hh|by apply bool_decide_eq_true].
Qed.
#[local] Instance in_session_dec s r : Decision (in_session s r).
Proof.
  destruct (s.1.1) as [m|] eqn:Hm; [|right; intros (m & id & Hs & _); congruence].
  destruct (decide (map_Exists (λ id r', r' = r ∧ (next_session_handle m < u32_max → sessions_on id m = true)) (pin_caches m)))
    as [Hyes|Hno]; [left|right]; rewrite in_session_spec.
  - destruct Hyes as (id & r' & Hid & -> & Hs). by exists m, id.
  - intros (m' & id & Hm' & Hid & Hs). apply Hno. exists id, r. rewrite Hm in Hm'. injection Hm' as <-. by split.
Defined.
#[local] Instance holds_pin_dec s r : Decision (holds_pin s r).
Proof.
  unfold holds_pin. destruct (cache_at s.1.2 r) as [c|]; [|right; by intros (c & ? & _)].
  destruct (PinSafetyCache_has_positive_pin1 c) eqn:Hc; [left; by exists c|right]. intros (c' & [= <-] & Hh). congruence.
Defined.

Lemma process_inv_spec late (s : Proc) :
  process_inv late s → ∀ r, holds_pin s r → late r ∨ in_session s r.
Proof.
  intros Hi r Hr%holds_pin_spec. unfold process_inv in Hi. destruct (s.1.1) as [m|] eqn:Hm; [|left; by apply Hi].
  destruct (lo_confined _ _ Hi r Hr) as [?|(id & Hid & Hs)]; [by left|right]. apply in_session_spec. by exists m, id.
Qed.
(** The invariant is what is late apart from what is well-formed anyway. *)
Lemma process_inv_late late late' (s : Proc) : process_inv late s →
  (∀ r, holds_pin s r → late' r ∨ in_session s r) → process_inv late' s.
Proof.
  unfold process_inv. intros Hi Hl. destruct (s.1.1) as [m|] eqn:Hm.
  - destruct Hi as [Hmod Hp Hpin _]. split; [done..|]. intros r Hr.
    destruct (Hl r) as [?|(m' & id & Hm' & Hid & Hs)%in_session_spec]; [by apply holds_pin_spec|by left|right].
    exists id. rewrite Hm in Hm'. by injection Hm' as <-.
  - destruct Hi as [Hp _]. split; [done|]. intros r Hr. destruct (Hl r) as [?|(m' & id & Hm' & _)]; [by apply holds_pin_spec|done|].
    by rewrite Hm in Hm'.
Qed.

(** A part leaves late what [still_late] says. *)
Definition fair (part : Proc → Proc) : Prop :=
  ∀ late s, process_inv late s → process_inv (still_late late s (part s)) (part s).
Inductive fair_thread {A} : thread Proc A → Prop :=
| fair_answers r : fair_thread (Answers r)
| fair_runs part next : fair part → (∀ s, fair_thread (next s)) → fair_thread (Runs part next).

Lemma fair_bind {A B} (t : thread Proc A) (k : A → thread Proc B) :
  fair_thread t → (∀ a, fair_thread (k a)) → fair_thread (thread_bind t k).
Proof. intros Ht Hk. induction Ht as [[a|e|]|part next Hp _ IH]; [apply Hk|constructor..|constructor]; [exact Hp|exact IH]. Qed.

(** A part that keeps the invariant with the same caches late, whichever they are. *)
Lemma fair_keeps {A} (m : act Proc Z A) : (∀ late, keeps (process_inv late) m) → fair_thread (at_once m).
Proof.
  intros Hm. constructor; [|by constructor]. intros late s Hi. pose proof (Hm late s Hi) as Hi'.
  apply (process_inv_late late); [done|]. intros r Hr. destruct (process_inv_spec _ _ Hi' r Hr) as [Hlate|]; [left|by right].
  split; [done|by left].
Qed.

(** A part at a PIN cache. *)
Lemma at_cache_core {A} r (m : act (X * PinSafetyCache * W) Z A) late (s : Proc) : process_inv late s →
  process_inv (λ _, True) (at_cache r m s).1 ∧ (at_cache r m s).1.1.1 = s.1.1.
Proof.
  intros Hi. apply (process_inv_late _ (λ _, True)) in Hi; [|by left]. destruct s as [[o p] [x w]]. unfold at_cache.
  destruct (cache_at p r) as [c|]; [|done]. destruct (m (x, c, w)) as [[[x' c'] w'] a]. split; [|done]. destruct o as [module|].
  - destruct Hi as [Hmod [Hv Ho] Hpin _]. split; [done|split; cbn; [by rewrite length_alter|done]|done|by left].
  - destruct Hi as [[Hv Ho] _]. split; [split; cbn; [by rewrite length_alter|done]|done].
Qed.
Lemma at_cache_fair {A} r (m : act (X * PinSafetyCache * W) Z A) : fair_thread (at_once (at_cache r m)).
Proof.
  constructor; [|by constructor]. intros late s Hi. destruct (at_cache_core r m late s Hi) as [Hi' Hsame].
  set (s' := (at_cache r m s).1) in *. apply (process_inv_late _ _ _ Hi'). intros r' Hr'.
  destruct (decide (in_session s' r')) as [|Hout]; [by right|left]. split; [done|].
  destruct (decide (holds_pin s r')) as [Hheld|]; [left|by right].
  destruct (process_inv_spec _ _ Hi r' Hheld) as [|Hin]; [done|]. exfalso. apply Hout. unfold in_session. by rewrite Hsame.
Qed.
#[local] Hint Resolve fair_answers at_cache_fair : core.

Lemma in_transaction_fair {A} reader r (talk : session_of (T:=T) (X:=X) (W:=W) A) :
  (∀ t, fair_thread (talk t)) → fair_thread (in_transaction reader r talk).
Proof.
  intros Ht. apply fair_bind; [done|]. intros t. apply fair_bind; [done|]. intros [t1 a]. apply fair_bind; [|done].
  apply fair_keeps. intros late. apply at_readers_keeps.
Qed.
Lemma session_bind_fair {A B} (m : session_of (T:=T) (X:=X) (W:=W) A) (k : A → session_of B) :
  (∀ t, fair_thread (m t)) → (∀ a t, fair_thread (k a t)) → ∀ t, fair_thread (session_bind m k t).
Proof. intros Hm Hk t. apply fair_bind; [done|]. by intros [t1 [a|e|]]. Qed.
Lemma with_lock_fair {A} r (m : act (T * PinSafetyCache) Z A) (t : T) : fair_thread (with_lock (X:=X) (W:=W) r m t).
Proof. apply fair_bind; [done|]. by intros [t1 a]. Qed.

Ltac fair_steps := repeat first
  [ done | apply fair_answers | apply with_lock_fair | apply session_bind_fair; [|intros ?] | progress cbn zeta | case_match | intros ? ].

Lemma login_at_card_fair checked : fair_thread (login_at_card_parts checked).
Proof.
  unfold login_at_card_parts. destruct checked as [[[name r] pin1]|]; [|done]. destruct (is_remote name); [done|].
  apply in_transaction_fair. unfold login_session, lock_update. fair_steps.
Qed.
Lemma card_sign_fair name r mechanism input : fair_thread (card_sign_parts env_text name r mechanism input).
Proof.
  unfold card_sign_parts. destruct (strip_prefix RAPP_PREFIX name); [done|].
  apply in_transaction_fair. unfold sign_session, lock_update. fair_steps.
Qed.

Lemma locked_call_keeps late A (m : act Proc Z A) : locked_call A m → keeps (process_inv late) m.
Proof.
  destruct 1; try apply initialize_inv; try apply finalize_inv; try apply open_session_inv.
  - unfold c_get_info. keeps_steps.
  - unfold c_get_slot_list. keeps_steps.
  - unfold c_get_slot_info. keeps_steps.
  - unfold c_get_mechanism_list, card_mechanism. keeps_steps.
  - unfold c_get_mechanism_info, card_mechanism. keeps_steps.
  - unfold c_close_session. keeps_steps. apply change_keeps. apply close_session_live.
  - unfold c_close_all_sessions. keeps_steps. apply change_keeps. apply close_all_sessions_live.
  - unfold c_get_session_info. keeps_steps.
  - unfold c_logout. keeps_steps. apply change_keeps. apply logout_live.
  - unfold c_find_objects_init. keeps_steps; by apply update_session_keeps.
  - unfold c_find_objects. keeps_steps.
  - unfold c_find_objects_final. keeps_steps.
  - unfold c_get_attribute_value. keeps_steps.
  - unfold c_sign_init, operation_init. keeps_steps; by apply update_session_keeps.
  - unfold c_verify_init, operation_init. keeps_steps; by apply update_session_keeps.
  - unfold c_verify. keeps_steps; by apply update_session_keeps.
  - unfold c_wait_for_slot_event. keeps_steps.
  - intros s' Hi'. unfold unserved_calls in *.
    repeat match goal with H : _ ∈ _ :: _ |- _ => apply elem_of_cons in H as [-> |H]; [exact Hi'|] end. by match goal with H : _ ∈ [] |- _ => apply elem_of_nil in H end.
Qed.
Lemma token_info_check_keeps late id : keeps (process_inv late) (token_info_check (X:=X) (W:=W) id).
Proof. unfold token_info_check. keeps_steps. Qed.
Lemma set_pin_check_keeps late handle old new : keeps (process_inv late) (set_pin_check (X:=X) (W:=W) pin_change handle old new).
Proof. unfold set_pin_check, checked_pin, in_range. keeps_steps. apply change_keeps. apply logout_live. Qed.

Lemma api_call_fair A (m : act Proc Z A) t : api_call A m t → fair_thread t.
Proof.
  destruct 1 as [id null|handle user_type pin|handle data null len|handle old new|A m Hm].
  - unfold token_info_parts. destruct null; [done|]. apply fair_bind; [apply fair_keeps; intros; apply token_info_check_keeps|].
    intros [reader serial]. apply fair_bind; [apply fair_keeps; intros; apply at_readers_keeps|done].
  - apply fair_bind; [|apply login_at_card_fair]. apply fair_keeps. intros late s Hi.
    by apply (ends_kept _ _ _ (login_check_spec late handle user_type pin s Hi)).
  - unfold sign_parts. destruct len as [capacity|]; [|done]. apply fair_bind.
    + apply fair_keeps. intros late. apply sign_check_keeps.
    + intros [answer|[[name r] mechanism]]; [done|]. apply fair_bind; [apply card_sign_fair|]. intros bs.
      apply fair_keeps. intros late. apply sign_deliver_keeps.
  - apply fair_bind; [apply fair_keeps; intros; apply set_pin_check_keeps|]. intros [[name current] new'].
    apply fair_keeps. intros. apply at_readers_keeps.
  - apply fair_keeps. intros late. by apply locked_call_keeps.
Qed.

(** *** What is reached *)

Lemma fresh_inv late y : process_inv late (fresh_process y).
Proof. split; [by split|]. by intros r (c & Hc & _). Qed.

Lemma api_call_inv late A (m : act Proc Z A) t : api_call A m t → keeps (process_inv late) m.
Proof.
  destruct 1 as [id null|handle user_type pin|handle data null len|handle old new|A m Hm].
  - unfold c_get_token_info. pose proof (token_info_check_keeps late). keeps_steps.
  - apply login_inv.
  - apply sign_inv.
  - apply keeps_bind; [apply set_pin_check_keeps|]. intros [[name current] new']. apply at_readers_keeps.
  - by apply locked_call_keeps.
Qed.
Lemma api_reach_inv y s : api_reach y s → process_inv (λ _, False) s.
Proof.
  intros Hr. unfold api_reach in Hr. pose proof (fresh_inv (λ _, False) y) as Hi. revert Hi.
  induction Hr as [s0|s0 s1 s2 Hs _ IH]; [done|]. intros Hi. apply IH. destruct Hs as [A m t s0 Hcall|s0 y1]; [|exact Hi].
  by apply (api_call_inv _ _ _ _ Hcall).
Qed.

Definition fair_job (j : job) : Prop := match j with Job _ t => fair_thread t end.
Lemma threads_reach_inv y late s jobs : threads_reach y late s jobs → process_inv late s ∧ Forall fair_job jobs.
Proof.
  induction 1 as [|late s jobs A m t _ [Hi Hj] Hcall|late s jobs i A part next _ [Hi Hj] Hjob|late s jobs y' _ [Hi Hj]].
  - split; [apply fresh_inv|constructor].
  - split; [done|]. apply Forall_app. split; [done|]. constructor; [|constructor]. by apply (api_call_fair _ m).
  - pose proof (proj1 (Forall_lookup _ _) Hj i _ Hjob) as Hf. cbn in Hf. inversion Hf as [|? ? Hpart Hnext]. subst.
    split; [by apply Hpart|]. apply Forall_insert; [done|apply Hnext].
  - split; [exact Hi|done].
Qed.

(** A call that is not interrupted, and so calls one after another. *)
Lemma alone_reach y late s jobs i A (t : thread Proc A) : threads_reach y late s jobs → jobs !! i = Some (Job A t) →
  ∃ late' jobs', threads_reach y late' (alone t s).1 jobs'.
Proof.
  revert late s jobs. induction t as [r|part next IH]; intros late s jobs Hr Hi; [by exists late, jobs|]. cbn [alone].
  eapply (IH s); [by apply (reach_part _ _ _ _ _ _ _ _ Hr Hi)|]. apply list_lookup_insert_eq. by eapply lookup_lt_Some.
Qed.
Lemma calls_are_threads y s : api_reach y s → ∃ late jobs, threads_reach y late s jobs.
Proof.
  intros Hr. unfold api_reach in Hr. assert (∃ late jobs, threads_reach y late (fresh_process y) jobs) as Hstart
    by (do 2 eexists; apply reach_fresh).
  revert Hstart. induction Hr as [s0|s0 s1 s2 Hs _ IH]; [done|]. intros (late & jobs & Hj). apply IH.
  destruct Hs as [A m t s0 Hcall|s0 y1]; [|by exists late, jobs; apply reach_outside].
  rewrite <- (api_call_alone _ _ _ Hcall s0).
  apply (alone_reach y late s0 (jobs ++ [Job A t]) (length jobs)); [by apply (reach_call _ _ _ _ _ m)|by apply list_lookup_middle].
Qed.

(** A run of the parts of the calls under way, in the order given. *)
Definition run_part (i : nat) (st : Proc * list job) : Proc * list job :=
  match st.2 !! i with
  | Some (Job A (Runs part next)) => (part st.1, <[i := Job A (next st.1)]> st.2)
  | _ => st
  end.
Definition schedule (order : list nat) (st : Proc * list job) : Proc * list job := foldl (λ st i, run_part i st) st order.
Lemma schedule_reach y order st : (∃ late, threads_reach y late st.1 st.2) →
  ∃ late, threads_reach y late (schedule order st).1 (schedule order st).2.
Proof.
  revert st. induction order as [|i order IH]; intros [s jobs]; [done|]. intros [late Hr]. apply IH. unfold run_part. cbn in *.
  destruct (jobs !! i) as [[A [r|part next]]|] eqn:Hi; [by exists late| |by exists late].
  eexists. by apply (reach_part _ _ _ _ _ _ _ _ Hr Hi).
Qed.
End interleavings.

(** When the handles have run out, a new session takes the handle of the last one and its
    place. *)
Lemma last_handle_is_reused `{X509View} id flags m : next_session_handle m = u32_max →
  let '(m1, h) := open_session id flags m in
  h = u32_max ∧ next_session_handle m1 = u32_max ∧
  ∀ id' flags', let '(m2, h') := open_session id' flags' m1 in
    h' = h ∧ session h m2 = Some (mkSession id' flags' None None None).
Proof.
  intros Hn. unfold open_session, session. cbn. rewrite Hn. split; [done|]. split; [done|]. intros id' flags'.
  split; [done|]. apply lookup_insert_eq.
Qed.

(** ** Properties *)

(** C14: the module stays well-formed. Whatever calls its threads make, in parts that
    follow one another in any order, and whatever happens at the readers meanwhile, readers
    have one slot each; as long as the slot ids have not run out they are distinct, below
    the next one, and a slot with a card has its objects at hand; every session belongs to a
    slot and, as long as the handles have not run out, its handle was given out; and every
    slot that has a PIN cache has the one its reader has for the life of the process, so
    that, while the ids last, two slots never share one. *)
Theorem module_stays_well_formed `{Rapp} `{CertificateDecoder} `{X509View} `{Sha1Hash} `{Sha256Hash} `{HmacSha256}
  `{CardTransport T E} {X W : Type} `{!ReaderBackend X T} `{!ReaderAttributes X} `{!Windows W} `{!CaFiles W}
  `{!PhoneSession W} `{!OsRng W} {R O : Type} `{PasswordLengthRange R} `{!AuthenticationObjectsOps R O}
  pin_change library firmware env_text (y : X * W) late s jobs m
  (Hreach : threads_reach (R:=R) (O:=O) pin_change library firmware env_text y late s jobs) (Hm : s.1.1 = Some m) :
  module_ok m ∧
  (∀ id r, pin_caches m !! id = Some r → is_Some (cache_at s.1.2 r) ∧
     ∃ name, reader_name id m = Some name ∧ pc_process s.1.2 !! name = Some r) ∧
  (next_slot_id m < u32_max → ∀ id id' r, pin_caches m !! id = Some r → pin_caches m !! id' = Some r → id = id').
Proof.
  pose proof (proj1 (threads_reach_inv _ _ _ _ _ _ _ _ Hreach)) as Hi. unfold process_inv in Hi. rewrite Hm in Hi.
  destruct Hi as [Hok [Hv Ho] Hpin _]. cbn in *. split; [done|]. split.
  - intros id r Hid. destruct (Hpin id r Hid) as (name & Hn & Hr). split; [|by exists name].
    apply lookup_lt_is_Some. by eapply Hv.
  - intros Hlt id id' r Hid Hid'. destruct (Hpin id r Hid) as (name & Hn & Hr). destruct (Hpin id' r Hid') as (name' & Hn' & Hr').
    cbn in *. assert (name = name') as <- by by eapply Ho. by eapply one_slot_per_reader.
Qed.

(** C13: a PIN is held only where someone is logged in, as far as the code sees to it.
    After any calls made one after another, a PIN cache of the process holds a PIN only
    while the module is initialised and for a slot of it with an open session, as long as
    the session handles have not run out; after [C_Finalize], and before [C_Initialize],
    none is held. When the parts of calls of several threads follow one another in any
    order, a PIN may also be held that was put into its cache late: by a part that ran when
    the slot had no session any more, and has not been taken out since. No call that keeps
    the lock of the module to its end puts one there late, so that only the parts of
    [C_Login] and [C_Sign] at the card do, which do not look at the session again. *)
Theorem pins_held_only_in_sessions `{Rapp} `{CertificateDecoder} `{X509View} `{Sha1Hash} `{Sha256Hash} `{HmacSha256}
  `{CardTransport T E} {X W : Type} `{!ReaderBackend X T} `{!ReaderAttributes X} `{!Windows W} `{!CaFiles W}
  `{!PhoneSession W} `{!OsRng W} {R O : Type} `{PasswordLengthRange R} `{!AuthenticationObjectsOps R O}
  pin_change library firmware env_text (y : X * W) :
  (∀ s r, api_reach (R:=R) (O:=O) pin_change library firmware env_text y s → holds_pin s r → in_session s r) ∧
  (∀ late s jobs, threads_reach (R:=R) (O:=O) pin_change library firmware env_text y late s jobs →
     (∀ r, holds_pin s r → in_session s r ∨ late r) ∧
     (∀ A (m : act (Process X W) Z A) r, locked_call library A m → still_late late s (m s).1 r → late r)).
Proof.
  split.
  - intros s r Hr Hh. pose proof (api_reach_inv _ _ _ _ _ _ Hr) as Hi. by destruct (process_inv_spec _ _ Hi r Hh).
  - intros late s jobs Hr. destruct (threads_reach_inv _ _ _ _ _ _ _ _ Hr) as [Hi _]. split.
    + intros r Hh. destruct (process_inv_spec _ _ Hi r Hh); [by right|by left].
    + intros A m r Hm [Hh [Hl|[_ Hout]]]; [done|]. pose proof (locked_call_keeps library late A m Hm s Hi) as Hi'.
      by destruct (process_inv_spec _ _ Hi' r Hh).
Qed.

(** A signature operation is spent by the attempt. With a null pointer or too small a
    buffer [C_Sign] tells the length of a signature and changes nothing at all; otherwise
    the operation ends before the card is asked, whatever comes of it, and when other
    threads closed the session or finalised the module meanwhile, no signature is
    delivered. A panic ends the process. *)
Theorem sign_operation_spent `{Rapp} `{CertificateDecoder} `{X509View} `{Sha1Hash} `{Sha256Hash} `{HmacSha256}
  `{CardTransport T E} {X W : Type} `{!ReaderBackend X T} `{!ReaderAttributes X} `{!Windows W} `{!CaFiles W}
  `{!PhoneSession W} `{!OsRng W} env_text handle data null capacity others others' meanwhile (s : Process X W) m se mechanism
  (Hm : s.1.1 = Some m) (Hse : session handle m = Some se) (Hop : se_sign se = Some mechanism) :
  let out := c_sign env_text handle data null (Some capacity) others others' meanwhile s in
  let needed := Mechanism_signature_len mechanism in
  (null = true → out = (s, Ok (CKR_OK, needed, None))) ∧
  (null = false → capacity < needed → out = (s, Ok (CKR_BUFFER_TOO_SMALL, needed, None))) ∧
  (null = false → needed ≤ capacity →
     ((∀ o, match meanwhile o with Some m' => session handle m' = None | None => True end) → ∀ answer, out.2 ≠ Ok answer) ∧
     (meanwhile = id → out.2 ≠ Panic → ∃ m', out.1.1.1 = Some m' ∧ session handle m' = Some (clear_sign se))).
Proof.
  intros out needed. assert (null = true ∨ capacity < needed → out = (s, Ok (if null then CKR_OK else CKR_BUFFER_TOO_SMALL, needed, None))) as Hquery.
  { intros Hq. unfold out, c_sign, act_bind at 1. by rewrite (sign_check_query _ _ _ _ _ _ _ Hm Hse Hop Hq). }
  split; [intros ->; apply Hquery; by left|]. split; [intros -> Hc; apply Hquery; by right|]. intros -> Hc.
  destruct (sign_check_spends _ _ _ _ _ _ Hm Hse Hop Hc) as [Hpanic|(m1 & Hm1 & Hse1 & Hinr)].
  { assert (out.2 = Panic) as ->; [|by split]. unfold out, c_sign, act_bind at 1. cbn zeta in Hpanic.
    destruct (sign_check handle false capacity s) as [s1 [checked|e|]]; cbn in Hpanic; done. }
  unfold out, c_sign, act_bind. destruct (sign_check handle false capacity s) as [[[o1 p1] y1] [checked|e|]];
    cbn in Hm1, Hinr; [|split; [done|]; by exists m1..].
  destruct (Hinr checked eq_refl) as ([[name r] mech] & ->).
  assert (∀ A (a : act (X * PinSafetyCache * W) Z A), (at_cache r a ((o1, p1), y1)).1.1.1 = o1) as Ho.
  { intros A a. unfold at_cache. destruct y1 as [x w], (cache_at p1 r) as [c|]; [|done]. by destruct (a (x, c, w)) as [[[] ?] ?]. }
  specialize (Ho _ (card_sign env_text name others others' mech (caller_data data) None)).
  destruct (at_cache r _ _) as [[[o2 p2] y2] [bs|e|]]; cbn in Ho; subst o2; [|split; [done|]; by exists m1..].
  unfold sign_deliver. split.
  - intros Hgone answer. specialize (Hgone o1). destruct (meanwhile o1) as [m2|]; [by rewrite Hgone|done].
  - intros ->. subst o1. cbn. rewrite Hse1. by exists m1.
Qed.

(** ** Witnesses: one reader with a citizen card of five tries *)

Module demo_card.
(** The identifier selected last. *)
Record card := mk { selected : bytes }.
Definition file_of (fid : bytes) : option bytes :=
  if bool_decide (fid = [0x50; 0x32]) then Some demo_token_info
  else if bool_decide (fid = [0x43; 0x31]) then Some [0x30; 0x01; 0x07]
  else None.
Definition answer (apdu : bytes) (c : card) : card * TransportOutcome :=
  match apdu with
  | 0x00 :: 0xA4 :: _ :: _ :: _ :: name => (mk name, reply [] 0x9000)
  | [0x00; 0xB0; hi; lo; _] =>
      (c, match file_of (selected c) with
          | Some file => if hi * 256 + lo <? len file then reply (drop (Z.to_nat (hi * 256 + lo)) file) 0x9000 else reply [] 0x6B00
          | None => reply [] 0x6A82
          end)
  | [0x00; 0x20; _; _; _] => (c, reply [] 0x63C5)
  | 0x00 :: 0x2A :: 0x9E :: _ => (c, reply (replicate 96 1) 0x9000)
  | _ => (c, reply [] 0x9000)
  end.
#[export] Instance card_transport : CardTransport card string :=
  λ cmd c, let '(c, o) := answer (cmd_bytes cmd) c in (c, Ok o).

(** The reader, plugged in or not, with the card or without. *)
Definition reader : Type := option (option card).
#[export] Instance one_reader : ReaderBackend reader card := {
  backend_enumerate x := (x, Ok (match x with
                                 | Some slot => [mkReaderInfo [0x52] (bool_decide (is_Some slot))]
                                 | None => []
                                 end));
  backend_open_session _ _ x := (x, match x with Some (Some c) => Ok c | _ => Err tt end);
  backend_drop _ c x := Some (Some c);
}.
#[export] Instance no_attributes : ReaderAttributes reader := { direct_attributes _ x := (x, None) }.
End demo_card.

Section safety_witnesses.
Import engine disk plain ca_files demo_card.
#[local] Instance flat_sha256 : Sha256Hash := λ _, replicate 32 0xCD.
#[local] Instance toy_hmac : HmacSha256 := λ key m, Some (key ++ m).
#[local] Instance no_phone : PhoneSession disk := {
  CardOperation := unit; CardOperationResult := bytes; BrowserAuthenticate _ _ _ _ := tt; as_signature := Some;
  execute_operation _ _ w := (w, Err tt); unix_time_ms _ := 0 }.
#[local] Instance zero_rng : OsRng disk := { rng_failure := unit; rng_fill n w := (w, Ok (replicate n 0)) }.
#[local] Instance no_objects : AuthenticationObjectsOps (Z * Z) unit := {
  EF_AOD_FID := mkFileId 0x44 0x01; ao_parse _ := Some tt; ao_passwords _ := [] }.

Abbreviation Demo := (Process reader disk).
Definition demo_start : Demo := fresh_process (Some (Some (demo_card.mk [])), disk.mk [] 0 []).
Definition demo_opened : Demo := (c_open_session 1 CKF_SERIAL_SESSION false (c_initialize None demo_start).1).1.
Definition demo_digits : option bytes := Some (bytes_of_string "1234").
Definition demo_logged_in : Demo := (c_login 1 CKU_USER demo_digits Datatypes.id demo_opened).1.

Definition demo_version : CkVersion := mkCkVersion 1 0.
#[local] Abbreviation demo_reach := (api_reach (R:=Z * Z) (O:=unit) true demo_version demo_version (λ _ _, None) (demo_start.2)).
#[local] Abbreviation demo_threads :=
  (threads_reach (R:=Z * Z) (O:=unit) true demo_version demo_version (λ _ _, None) (demo_start.2)).
Lemma demo_login_reached : demo_reach demo_logged_in.
Proof.
  eapply rtc_l; [apply (step_call _ _ _ _ _ _ _ _ (call_locked _ _ _ _ _ _ (call_initialize _ None)))|].
  eapply rtc_l; [apply (step_call _ _ _ _ _ _ _ _ (call_locked _ _ _ _ _ _ (call_open_session _ 1 CKF_SERIAL_SESSION false)))|].
  eapply rtc_l; [apply (step_call _ _ _ _ _ _ _ _ (call_login _ _ _ _ 1 CKU_USER demo_digits))|]. apply rtc_refl.
Qed.

Definition demo_module (s : Demo) : ModuleState := match s.1.1 with Some m => m | None => empty_module end.
Definition has_pin (s : Demo) : bool :=
  match cache_at s.1.2 0 with Some c => PinSafetyCache_has_positive_pin1 c | None => false end.

Lemma module_stays_well_formed_witness :
  module_ok (demo_module demo_logged_in) ∧ pin_caches (demo_module demo_logged_in) !! 1 = Some 0%nat
  ∧ reader_name 1 (demo_module demo_logged_in) = Some [0x52].
Proof.
  split; [|by vm_compute]. destruct (calls_are_threads _ _ _ _ _ _ demo_login_reached) as (late & jobs & Hr).
  refine (proj1 (module_stays_well_formed (R:=Z * Z) (O:=unit) true demo_version demo_version
    (λ _ _, None) demo_start.2 late demo_logged_in jobs (demo_module demo_logged_in) Hr _)). by vm_compute.
Defined.

(** A login whose session is closed by another thread before the card is asked. *)
Definition demo_calls : list (job (X:=reader) (W:=disk)) :=
  [Job _ (at_once (c_initialize None)); Job _ (at_once (c_open_session 1 CKF_SERIAL_SESSION false));
   Job _ (login_parts 1 CKU_USER demo_digits); Job _ (at_once (c_close_session 1))].
Definition demo_interleaved : Demo * list (job (X:=reader) (W:=disk)) := schedule [0; 1; 2; 3; 2; 2; 2]%nat (demo_start, demo_calls).
Lemma demo_interleaved_reached : ∃ late, demo_threads late demo_interleaved.1 demo_interleaved.2.
Proof.
  apply schedule_reach. exists (λ _, False). unfold demo_calls.
  pose proof (reach_fresh (R:=Z * Z) (O:=unit) true demo_version demo_version (λ _ _, None) (demo_start.2)) as Hr.
  pose proof (reach_call _ _ _ _ _ _ _ _ _ _ _ Hr (call_locked _ _ _ _ _ _ (call_initialize _ None))) as Hr1.
  pose proof (reach_call _ _ _ _ _ _ _ _ _ _ _ Hr1 (call_locked _ _ _ _ _ _ (call_open_session _ 1 CKF_SERIAL_SESSION false))) as Hr2.
  pose proof (reach_call _ _ _ _ _ _ _ _ _ _ _ Hr2 (call_login _ _ _ _ 1 CKU_USER demo_digits)) as Hr3.
  exact (reach_call _ _ _ _ _ _ _ _ _ _ _ Hr3 (call_locked _ _ _ _ _ _ (call_close_session _ 1))).
Qed.

Lemma pins_held_only_in_sessions_witness :
  has_pin demo_logged_in = true ∧ in_session demo_logged_in 0
  ∧ has_pin demo_interleaved.1 = true ∧ ∃ late, demo_threads late demo_interleaved.1 demo_interleaved.2 ∧ late 0%nat.
Proof.
  assert (∀ s, has_pin s = true → holds_pin s 0) as Hholds.
  { intros s. unfold has_pin, holds_pin. destruct (cache_at s.1.2 0) as [c|]; [by exists c|done]. }
  destruct (pins_held_only_in_sessions (R:=Z * Z) (O:=unit) true demo_version demo_version (λ _ _, None) demo_start.2) as [Hcalls Hthreads].
  split; [by vm_compute|]. split; [apply (Hcalls _ _ demo_login_reached), Hholds; by vm_compute|].
  assert (has_pin demo_interleaved.1 = true) as Hp by by vm_compute. split; [exact Hp|].
  destruct demo_interleaved_reached as [late Hr]. exists late. split; [exact Hr|].
  destruct (proj1 (Hthreads _ _ _ Hr) 0%nat (Hholds _ Hp)) as [(m & id & Hm & _ & Hin)|Hlate]; [exfalso|exact Hlate].
  assert (m = demo_module demo_interleaved.1) as -> by (unfold demo_module; by rewrite Hm).
  assert (next_session_handle (demo_module demo_interleaved.1) < u32_max) as Hlt by by vm_compute.
  destruct (Hin Hlt) as (handle & se & Hse & _). unfold session in Hse.
  assert (sessions (demo_module demo_interleaved.1) = ∅) as He by by vm_compute. rewrite He in Hse. done.
Defined.

Definition demo_signing : Demo := (c_sign_init 1 (Some CKM_ECDSA) OBJ_PRIVATE_KEY demo_logged_in).1.
Definition demo_signed (meanwhile : option ModuleState → option ModuleState) :=
  c_sign (λ _ _, None) 1 (Some (replicate 48 2)) false (Some 96) Datatypes.id Datatypes.id meanwhile demo_signing.
Lemma sign_operation_spent_witness :
  (demo_signed Datatypes.id).2 = Ok (CKR_OK, 96, Some (replicate 96 1))
  ∧ ∀ answer, (demo_signed (λ _, None)).2 ≠ Ok answer.
Proof.
  split; [by vm_compute|]. assert (session 1 (demo_module demo_signing) = Some (mkSession 1 4 None (Some Mech_Ecdsa) None)) as Hse
    by by vm_compute.
  assert (demo_signing.1.1 = Some (demo_module demo_signing)) as Hm by by vm_compute.
  destruct (sign_operation_spent (λ _ _, None) 1 (Some (replicate 48 2)) false 96 Datatypes.id Datatypes.id (λ _, None)
    demo_signing (demo_module demo_signing) _ Mech_Ecdsa Hm Hse eq_refl) as (_ & _ & Hgone).
  apply Hgone; [done|by vm_compute|done].
Defined.

(** A login that was let in before its session was closed, or the module finalised,
    finds the card afterwards: the PIN stays held with no session open. *)
Definition demo_check := login_check 1 CKU_USER demo_digits demo_opened.
Definition demo_late (s : Demo) : Demo :=
  match demo_check.2 with Ok checked => (login_at_card Datatypes.id checked s).1 | _ => s end.
Lemma login_outlives_session :
  let closed := demo_late (c_close_session 1 demo_check.1).1 in
  let finalized := demo_late (c_finalize true demo_check.1).1 in
  has_pin closed = true ∧ sessions (demo_module closed) = ∅ ∧ has_pin finalized = true ∧ finalized.1.1 = None.
Proof. by vm_compute. Qed.

(** A card pulled from its reader is noticed; a reader unplugged with its card is not:
    the slot still shows the card and the PIN stays held. *)
Definition demo_without (x : reader) : Demo :=
  (c_get_slot_list 1 true (Some 0) (demo_logged_in.1, (x, demo_logged_in.2.2))).1.
Lemma unplugged_reader_keeps_login :
  has_pin (demo_without (Some None)) = false ∧
  slot_card_present <$> slot 1 (demo_module (demo_without (Some None))) = Some false ∧
  has_pin (demo_without None) = true ∧
  slot_card_present <$> slot 1 (demo_module (demo_without None)) = Some true.
Proof. by vm_compute. Qed.
End safety_witnesses.
